(* ===== verification/_CoqProject ===== *)
-Q . S2P
Prelude.v
PyValue.v
Tenancy.v
Resilience.v
ToolIO.v
Sample.v
AccessControl.v
RiskGates.v
ToolExecutor.v
ToolExecutorFacts.v
ToolPlugins.v
Identity.v
Authentication.v
Entitlements.v
Checkpoints.v
SqliteStores.v
SqliteStoresFacts.v
PostgresStores.v
TaskGraph.v
Observability.v
Diagnostics.v
Scheduler.v
SchedulerFacts.v
SchedulerRuns.v
RunControl.v
RunActivity.v
AgentScaler.v
BackgroundRuntime.v
BackgroundFacts.v
ByocJobs.v
ByocFacts.v
ByocResults.v
ByocConnector.v
ByocConnectorFacts.v
SqliteByoc.v
SqliteByocFacts.v
FairAdmission.v
AgentRegistry.v
AgentPlugins.v
TenantRuntime.v
TenantRuntimeFacts.v
Providers.v
ProvidersFacts.v
ManagementApi.v
Orchestrator.v
OrchestratorFacts.v
SignedPlugins.v
ToolPackages.v
ToolPackagesFacts.v
Sandbox.v
Mcp.v
Workflow.v
ByocExecution.v
ByocExecutionFacts.v
AuditStores.v
AuditStoresFacts.v
Bootstrap.v
AuditApi.v
IngressProfiles.v
IngressProfilesFacts.v
PolicyTemplates.v
IngressGates.v
IngressGatesFacts.v
IngressBudget.v
TurnGateway.v
TurnGatewayFacts.v
OpenAiGateway.v
RuntimeAdapters.v
TurnSocket.v
TenantPolicyApi.v
TenantPolicyFacts.v
RuntimeControlApi.v
RuntimeControlFacts.v
ToolCatalog.v
Hydration.v
HydrationFacts.v
AgentApi.v
AgentApiFacts.v
ToolCatalogFacts.v
