(* ===== verification/Prelude.v ===== *)
(** * eXo-brain: a verified model of the control plane

    eXo-brain (Python, src/src/) runs agent workloads for several tenants.  A turn enters through
    authentication, entitlements and a chain of ingress gates, and is run by an orchestrator whose
    tool calls go through access control, risk gates and an executor.  Tools run in process, in a
    hosted sandbox or on the tenant's own workers ("BYOC"), which claim jobs from a queue under a
    lease and submit results.  Work of another kind is a graph of tasks run by a scheduler inside
    background jobs.  Quotas, rate limits, fair admission and cost limits keep tenants apart; what
    tenants register is kept in SQLite stores and restored at startup.  This library translates that
    into executable definitions and proves what makes it correct.  Source paths below are relative
    to src/src/.  A file F.v may have its theorems in FFacts.v.

    ** Parts, and the files that model them

    - Prelude.v: exceptions ([res], [exn]), Python's string and truth operations, ordered
      dictionaries ([od_get], [od_set], [od_pop]: a dict with its insertion order), stable sorting
      ([sort_by] is [sorted]), lexicographic orders, counting, automation.  PyValue.v: dynamically
      typed values ([pyval]), [str], [repr] and dictionaries of them.  ToolIO.v: the interface of the
      external contracts package (policy actions, tool calls, decisions, results, runtime events) as
      classes; Sample.v: an instance, for examples.
    - Tenancy.v: tenancy/quotas.py (Quotas), tenancy/rate_limiter.py (RateLimiter,
      SqliteRateLimiter).  The class [FixedWindow] says what a fixed-window limiter promises; both
      limiters are instances.  Resilience.v: resilience/circuit_breaker.py, dlq.py, retry_policy.py.
    - Identity.v: identity/contracts.py, identity/resolver.py, core/session_context.py.
      Authentication.v: identity/jwt_resolver.py, api/middleware/auth.py, api/dependencies.py,
      modules/identity_access/service.py and the API-key store.  Entitlements.v:
      policies/entitlements.py, api/middleware/entitlements.py, observability/tool_audit.py.
    - TaskGraph.v: core/task_graph.py.  Scheduler.v: core/scheduler.py and core/worker_pool.py, with
      SchedulerRuns.v for whole runs.  AgentScaler.v: core/agent_scaler.py.  BackgroundRuntime.v
      (BackgroundFacts.v): core/background_runtime.py, over the graph, the scaler, the worker pool
      and the quotas.  Checkpoints.v: persistence/contracts.py, core/checkpoint_store.py,
      core/session_store.py; PostgresStores.v: persistence/adapters/postgres.py.  Workflow.v:
      schemas/workflow_schema.py, core/workflow_loader.py, persistence/workflow_store.py.
      Observability.v: observability/metrics.py, timeline.py.  Diagnostics.v: observability/logging.py,
      tracing.py, slo_registry.py, gate_evaluator.py, telemetry_export.py,
      policies/release_guardrails.py, secrets/, persistence/migrations.py, event_store.py.
    - RunControl.v: core/run_control_registry.py, the in-memory registry and the SQLite one;
      RunActivity.v counts the active runs of a tenant.
    - AccessControl.v: access_control/.  RiskGates.v: policies/risk_gates.py, policies/middleware.py,
      tenancy/policy_overlay.py, runtime/mode_selector.py.  ToolExecutor.v: tools/registry.py,
      decorators.py, executor.py.  ToolPlugins.v: tools/plugins/.  Orchestrator.v: core/orchestrator.py over the agent registry
      (AgentRegistry.v: agents/contracts.py, agents/registry.py) and the executor.  AgentPlugins.v:
      agents/plugin_manager.py and plugin_contract.py over the same registry; AgentApi.v:
      api/routers/agents.py over the agent registries of the tenants' contexts, which every request
      gets from the factory of TenantRuntime.v with its evictions, and the agent store.
    - Mcp.v: mcp/ and resilience/compensation_hooks.py, the tools of MCP servers under the policy
      middleware, the circuit breaker and the dead-letter queue.
    - AuditStores.v: persistence/audit_store.py, persistence/adapters/sqlite_audit.py, audit/trail.py,
      compliance/evidence_bundle.py.  The class [AuditStore] is the contract of the stores,
      [AuditHistory] says what it promises; both stores are instances.  AuditApi.v:
      api/routers/audit.py over any audit store.
    - SignedPlugins.v, IngressProfiles.v, IngressGates.v: policies/ingress_signed_plugins.py,
      ingress_profiles.py, ingress_gates.py, ingress_classifier_router.py.  A profile is resolved
      from an overlay, with a signed plugin; the gate chain is built from the resolved profile.
      PolicyTemplates.v: policies/policy_templates.py.  IngressBudget.v:
      observability/ingress_budget.py.
    - TenantRuntime.v: runtime/tenant_runtime.py.  Providers.v: config/provider_registry.py,
      runtime/adapter_factory.py, modules/provider_management/service.py,
      modules/session_runtime/service.py.  ManagementApi.v: api/routers/providers.py, sessions.py,
      admin_keys.py.  Bootstrap.v: api/app.py, api/bootstrap.py, api/readiness.py and the checks of
      modules/platform_bootstrap/service.py, from the environment to the started application.
    - TurnGateway.v, TurnSocket.v: api/routers/turns.py, admission, server-sent events and the
      WebSocket; OpenAiGateway.v: api/routers/openai_gateway.py over them; RuntimeAdapters.v:
      runtime/custom_runtime.py, openai_compatible_runtime.py.  TenantPolicyApi.v (TenantPolicyFacts.v): api/routers/tenants.py.
      RuntimeControlApi.v (RuntimeControlFacts.v): api/routers/runtime_control.py,
      policies/governance_anomaly_detector.py and the statistics of the BYOC connector.
    - SqliteStores.v: persistence/adapters/sqlite.py (theorems also in SqliteStoresFacts.v).
      ToolPackages.v: tools/version_projection.py, user_tool_contracts.py, artifact_store.py,
      policies/tool_package_policy.py.  ToolCatalog.v: api/routers/tools.py.  Hydration.v:
      api/startup.py.
    - Sandbox.v: tools/sandbox/.  ByocJobs.v (ByocFacts.v): tools/byoc/job_contracts.py,
      job_store.py.  ByocResults.v: tools/byoc/result_store.py, integrity_verifier.py,
      worker_auth.py.  ByocConnector.v: what workers and administrators ask of
      tools/byoc/connector_runtime.py; ByocExecution.v: its [execute].  SqliteByoc.v:
      tools/byoc/sqlite_store.py.  FairAdmission.v: policies/byoc_fairness.py, the process-local
      coordinator, the SQLite one and the theorems about both.

    ** How code is translated

    A class is a record of its attributes; a method takes the record and returns it changed with its
    answer.  A method that may raise returns [res]; when it changes the object before it raises it
    returns the object too, as in [set_handoff_fallback_policy].  A route returns [http]: a reply or
    an HTTPException with its status; a route that emits audit events returns them too.  A method
    that holds its object's lock is one step.  Where calls interleave (background jobs and their
    tasks, the worker pool, calls waiting for admission or for a worker's result, the tasks of a
    WebSocket, a route that suspends for an audit event) the steps are an inductive relation or a
    list of operations of others that the definition runs at that point, and theorems are about all
    of them.  Objects that the code shares and mutates are in a heap (the jobs of
    BackgroundRuntime.v, the contexts of TenantRuntime.v) or read through the store that owns them
    (the envelope of a lease claim in ByocJobs.v).  A SQLite table is the list of its rows in rowid
    order.  Time, fresh identifiers and random bytes are arguments.  Integers are Python's, so
    unbounded.

    Parameters, with nothing assumed of them unless a statement says so: JSON and YAML readers, the code
    of a node or of a tool ([run_handler], [dispatch]), provider adapters, printing, arithmetic and rounding of floats
    ([float_repr], [float_mul], [int_div], [round4]), the regular-expression engine ([re_search],
    [re_compiles]), SHA-256 and HMAC, the JWT library, Python's [int()] on strings ([py_int]),
    [ast.parse] and importing modules, SQLite's [datetime()] and the order in which it visits rows
    ([sqlite_datetime], [scan]), the classifier adapter, and the types of the external contracts
    package (the classes of ToolIO.v and [AttemptMetadata] of Mcp.v, with laws that say a value has
    what it was built with), what MCP clients and compensation hooks return or raise, the lifecycle
    policy of agent plugins, the order in which a set is listed ([set_order]) and [Path.resolve]
    ([resolve_path]).

    Fuel.  [dfs] follows a path of distinct nodes: one level per node and one to meet a node again
    ([dfs_fuel]).  The scheduler's main loop starts at least one node per wave: one iteration more
    than there are nodes; its cancellation loop cancels at least one per pass.  A node's retry loop
    has one iteration per attempt.  [grant_loop] takes a request out of the pending list per
    iteration; the eviction loop of the tenant factory a context.  That the fuel suffices is part of
    the theorems: they give a result, never only a property of one (make_graph_accepts_exactly_dags,
    fresh_run_outcomes, execute_terminates, admission_bounded_work_conserving).

    ** What the theorems show

    - Scheduling: a graph is accepted exactly when it is a DAG with known dependencies and distinct
      ids; a run ends, every node gets the outcome that its own attempts and its dependencies
      determine, and it keeps the finished nodes of the checkpoints it resumes.
    - Background jobs: the lifecycle of a job, the quota that submissions respect as long as no job is
      resumed and no id used again while its job is active, and the ways round it that the code has.
    - Tool calls: a handler runs only under an allowing policy decision, results are checked, a turn
      shows no tool call that was not governed; the decisions of access control and of the risk gates
      are those of their specifications.
    - Turns: admission is decided by the entitlement, the gates, the rate and the concurrency limit;
      an overlay can only strengthen the baseline; a stream settles its run, and so does a chat
      completion, whose answer is read off the events; every tenant route is authenticated and scoped.
    - Workflows: a definition is accepted exactly when it is described by the schema, is read back as
      it was written, and the loader keeps what it read last for each version.
    - Starting: an application starts exactly when its settings are read and its default provider is
      described and loads and, outside development, the signing secrets it looks at are its own; it is ready exactly when its databases are; and environments that pass and should
      not.  Sessions stay with the tenant that made them; a provider in use is not removed.
    - Supporting services: what is logged is redacted, spans and migrations are accounted for, a release
      needs every target, plugins of tools leave exactly their tools, and the Postgres-style stores
      answer as the SQLite ones.
    - Policies: what a policy update stores is what was asked for and loads again; the plugin of a
      running turn is not replaced.
    - Tools and startup: what runs after a restart is what ran before it, only signed code loads, an
      upload is activated only when it passed the policy, the stores answer as their specifications;
      and the conditions under which the code loses a tool.
    - Agents: the choice of a handoff target; loading a plugin is all or nothing, and the agents
      registered are those of the loaded plugins; a request to the routes is answered or refused and
      leaves other tenants alone, but for the one whose context a full cache drops; when the cache has
      room for all of them a restart restores the agents of every tenant.
    - MCP: a call reaches a server only when policy, circuit, health and trust tier let it; what an
      execution leaves in the breaker and the dead-letter queue; an answer within the allowed retries
      is the result; an unavailable server is never asked again.
    - Audit: both stores answer as the history of their events; an exported bundle verifies, and a
      bundle that verifies was signed with a secret of the keyring.
    - BYOC: a job's status moves along a fixed machine, a claim completes once, a job's result is
      accepted once, a call is answered with its own job's result or ends with its deadline; a bulk
      replay and the governance report account for what they show; the SQLite stores refine the
      in-memory ones, as the SQLite registry of runs does, and where their answers differ that is
      said; and the ways a result can be lost.
    - Sandbox: the pool accounts for every executor, a tenant has an executor of its own, a call is
      answered as its token, the resource hooks and the handler's outcome say.
    - Admission: at most the configured number of calls is admitted, no slot is idle while a call
      waits, and a bound on how often a waiting call is passed over.

    ** Not modelled, and why

    Provider adapters of other packages, the OpenTelemetry exporters and the files of the log sinks are input and output
    around these parts.  The synchronisation of the modules with the attributes of app.state copies
    references, and the contracts of src/modules/contracts.py are protocol classes without code; both
    are left out.  So are connection handling and the locking inside SQLite, where an operation is
    atomic.  The notebooks, scripts and release tools outside src/src are not part of the program.
    The BYOC components are composed over the in-memory stores; that the SQLite ones answer alike is
    shown store by store. *)

From Stdlib Require Import Ascii.
From stdpp Require Export base option list strings gmap sorting.
From Stdlib Require Export ZArith Lia.
Export (notations) Ascii.
Notation ascii := Ascii.ascii.

#[global] Open Scope Z_scope.

(** ** Results and exceptions

    A Python function that may raise is a function into [res]; [exn] lists the
    exception classes the modelled code raises, each with its message. *)

Inductive exn :=
| ValueError (msg : string)
| KeyError (msg : string)
| RuntimeError (msg : string)
| PermissionError (msg : string)
| AssertionError (msg : string)
| TimeoutError (msg : string)
| OtherException (msg : string).

Inductive res (A : Type) :=
| Ok (a : A)
| Raise (e : exn).
Arguments Ok {A} a.
Arguments Raise {A} e.

#[export] Instance exn_eq_dec : EqDecision exn.
Proof. solve_decision. Defined.

#[export] Instance res_eq_dec {A} `{EqDecision A} : EqDecision (res A).
Proof. solve_decision. Defined.

Definition res_bind {A B} (m : res A) (k : A → res B) : res B :=
  match m with
  | Ok a => k a
  | Raise e => Raise e
  end.

Definition is_ok {A} (m : res A) : bool :=
  match m with Ok _ => true | Raise _ => false end.

(** The message [str(exc)] of an exception. *)
Definition exn_message (e : exn) : string :=
  match e with
  | ValueError m | KeyError m | RuntimeError m | PermissionError m
  | AssertionError m | TimeoutError m | OtherException m => m
  end.

Declare Scope py_scope.
Delimit Scope py_scope with py.
Notation "'let!' x ':=' m 'in' k" := (res_bind m (fun x => k))
  (at level 200, x binder, m at level 100, k at level 200,
   format "'let!'  x  ':='  m  'in' '//' k") : py_scope.
Notation "'guard!' b 'else' e 'in' k" := (if b then k else Raise e)
  (at level 200, b at level 100, e at level 100, k at level 200,
   format "'guard!'  b  'else'  e  'in' '//' k") : py_scope.
Notation "x '=?s' y" := (bool_decide (x =@{string} y)) (at level 70) : py_scope.
#[global] Open Scope py_scope.

(** [injection] without computing on what is equal. *)
Lemma ok_triple {A B C} (a a' : A) (b b' : B) (c c' : C) :
  Ok (a, b, c) = Ok (a', b', c') → a = a' ∧ b = b' ∧ c = c'.
Proof. by intros [= -> -> ->]. Qed.

Lemma res_bind_ok {A B} (m : res A) (k : A → res B) b :
  res_bind m k = Ok b ↔ ∃ a, m = Ok a ∧ k a = Ok b.
Proof. destruct m as [a|e]; simpl; split; [eauto|intros (?&[=<-]&?); done|done|intros (?&[=]&_)]. Qed.

(** ** Strings

    Python strings are modelled by [string]; the character classes below are
    those of the ASCII range ([str.strip], [str.lower], [str.upper]). *)

Definition is_py_space (c : ascii) : bool :=
  let n := Ascii.nat_of_ascii c in
  ((9 <=? n) && (n <=? 13) || (28 <=? n) && (n <=? 32))%nat.

Definition ascii_lower (c : ascii) : ascii :=
  let n := Ascii.nat_of_ascii c in
  if ((65 <=? n) && (n <=? 90))%nat then Ascii.ascii_of_nat (n + 32) else c.

Definition ascii_upper (c : ascii) : ascii :=
  let n := Ascii.nat_of_ascii c in
  if ((97 <=? n) && (n <=? 122))%nat then Ascii.ascii_of_nat (n - 32) else c.

Definition ascii_alnum (c : ascii) : bool :=
  let n := Ascii.nat_of_ascii c in
  ((48 <=? n) && (n <=? 57) || (65 <=? n) && (n <=? 90)
   || (97 <=? n) && (n <=? 122))%nat.

Fixpoint str_map (f : ascii → ascii) (s : string) : string :=
  match s with
  | EmptyString => EmptyString
  | String c s => String (f c) (str_map f s)
  end.

Definition py_lower : string → string := str_map ascii_lower.
Definition py_upper : string → string := str_map ascii_upper.

Fixpoint lstrip (s : string) : string :=
  match s with
  | EmptyString => EmptyString
  | String c s' => if is_py_space c then lstrip s' else s
  end.

Fixpoint rstrip (s : string) : string :=
  match s with
  | EmptyString => EmptyString
  | String c s' =>
      match rstrip s' with
      | EmptyString => if is_py_space c then EmptyString else String c EmptyString
      | r => String c r
      end
  end.

Definition py_strip (s : string) : string := rstrip (lstrip s).

(** [bool(s)]: a string is truthy when it is not empty. *)
Definition py_bool (s : string) : bool := negb (s =?s "").

(** [s or d]. *)
Definition py_or (s d : string) : string := if py_bool s then s else d.

Definition py_len (s : string) : Z := Z.of_nat (String.length s).

Fixpoint startswith (s p : string) : bool :=
  match p, s with
  | EmptyString, _ => true
  | String a p', String b s' => bool_decide (a = b) && startswith s' p'
  | String _ _, EmptyString => false
  end.

(** [needle in hay]. *)
Fixpoint py_in (needle hay : string) : bool :=
  startswith hay needle ||
  match hay with
  | EmptyString => false
  | String _ hay' => py_in needle hay'
  end.

Fixpoint str_take (n : nat) (s : string) : string :=
  match n, s with
  | O, _ | _, EmptyString => EmptyString
  | S n', String c s' => String c (str_take n' s')
  end.

(** Decimal rendering of an integer, [str(n)]. *)
Definition digit (n : nat) : ascii := Ascii.ascii_of_nat (48 + n).

Fixpoint nat_digits (fuel n : nat) (acc : string) : string :=
  match fuel with
  | O => acc
  | S fuel' =>
      let acc' := String (digit (n mod 10)) acc in
      match (n / 10)%nat with
      | O => acc'
      | n' => nat_digits fuel' n' acc'
      end
  end.

Definition str_of_nat (n : nat) : string := nat_digits (S n) n EmptyString.

Definition str_of_Z (z : Z) : string :=
  if z <? 0 then "-" +:+ str_of_nat (Z.to_nat (- z)) else str_of_nat (Z.to_nat z).

Lemma py_bool_true s : py_bool s = true ↔ s ≠ "".
Proof. unfold py_bool. case_bool_decide; naive_solver. Qed.

Lemma py_bool_false s : py_bool s = false ↔ s = "".
Proof. unfold py_bool. case_bool_decide; naive_solver. Qed.

Lemma py_or_nonempty s d : d ≠ "" → py_or s d ≠ "".
Proof. unfold py_or, py_bool. case_bool_decide; naive_solver. Qed.

Lemma rstrip_nonspace c s :
  is_py_space c = false → rstrip (String c s) ≠ "".
Proof. intros H. simpl. rewrite H. by destruct (rstrip s). Qed.

Lemma lstrip_cases s :
  lstrip s = "" ∨ ∃ c s', lstrip s = String c s' ∧ is_py_space c = false.
Proof.
  induction s as [|c s IH]; simpl; [by left|].
  destruct (is_py_space c) eqn:E; [done|]. right. eauto.
Qed.

Lemma rstrip_idem s : rstrip (rstrip s) = rstrip s.
Proof.
  induction s as [|c s IH]; [done|]. cbn [rstrip].
  destruct (rstrip s) as [|a r] eqn:E.
  - destruct (is_py_space c) eqn:Ec; [done|]. cbn. by rewrite Ec.
  - cbn [rstrip] in *. by rewrite IH.
Qed.

Lemma py_strip_idem s : py_strip (py_strip s) = py_strip s.
Proof.
  unfold py_strip. destruct (lstrip_cases s) as [->|(c & s' & -> & Hc)]; [done|].
  assert (lstrip (rstrip (String c s')) = rstrip (String c s')) as ->; [|apply rstrip_idem].
  cbn [rstrip]. rewrite Hc. destruct (rstrip s') as [|a r]; cbn [lstrip]; by rewrite Hc.
Qed.

Lemma py_in_self s : py_in s s = true.
Proof.
  assert (startswith s s = true) as H.
  { induction s; simpl; [done|]. by rewrite bool_decide_true by done. }
  destruct s; [done|]. cbn [py_in]. by rewrite H.
Qed.

(** ** Insertion-ordered dictionaries

    A Python [dict] keeps its keys in insertion order: assigning to a present
    key keeps its position, a new key goes last.  The stores whose iteration
    order is observable are modelled by association lists with that behaviour. *)

Section odict.
Context {K V : Type} `{EqDecision K}.
Implicit Types (m : list (K * V)) (k : K) (v : V).

Fixpoint od_get k m : option V :=
  match m with
  | [] => None
  | (k', v) :: m => if decide (k = k') then Some v else od_get k m
  end.

Fixpoint od_set k v m : list (K * V) :=
  match m with
  | [] => [(k, v)]
  | (k', v') :: m =>
      if decide (k = k') then (k, v) :: m else (k', v') :: od_set k v m
  end.

(** [d.pop(k, None)] *)
Fixpoint od_pop k m : list (K * V) :=
  match m with
  | [] => []
  | (k', v) :: m => if decide (k = k') then od_pop k m else (k', v) :: od_pop k m
  end.

Definition od_keys m : list K := m.*1.
Definition od_values m : list V := m.*2.
Definition od_mem k m : bool := bool_decide (is_Some (od_get k m)).
Definition od_get_default d k m : V := default d (od_get k m).
Definition od_wf m : Prop := NoDup (od_keys m).

#[global] Instance od_wf_dec m : Decision (od_wf m).
Proof. unfold od_wf. apply _. Defined.

Lemma od_get_set k v m : od_get k (od_set k v m) = Some v.
Proof.
  induction m as [|[k' v'] m IH]; simpl; [by rewrite decide_True|].
  case_decide; simpl; [by rewrite decide_True|by rewrite decide_False].
Qed.

Lemma od_get_set_ne k k' v m : k ≠ k' → od_get k (od_set k' v m) = od_get k m.
Proof.
  intros Hne. induction m as [|[k1 v1] m IH]; simpl; [by rewrite decide_False|].
  repeat (case_decide; simplify_eq/=; try done).
Qed.

Lemma od_get_pop k m : od_get k (od_pop k m) = None.
Proof.
  induction m as [|[k' v'] m IH]; simpl; [done|].
  case_decide; simpl; [done|by rewrite decide_False].
Qed.

Lemma od_get_pop_ne k k' m : k ≠ k' → od_get k (od_pop k' m) = od_get k m.
Proof.
  intros Hne. induction m as [|[k1 v1] m IH]; simpl; [done|].
  repeat (case_decide; simplify_eq/=; try done).
Qed.

Lemma od_get_elem k v m : od_get k m = Some v → (k, v) ∈ m.
Proof.
  induction m as [|[k' v'] m IH]; simpl; [done|].
  case_decide; intros; simplify_eq; [apply list_elem_of_here|apply list_elem_of_further; auto].
Qed.

Lemma od_elem_get k v m : od_wf m → (k, v) ∈ m → od_get k m = Some v.
Proof.
  unfold od_wf. induction m as [|[k' v'] m IH]; simpl; [by intros _ ?%elem_of_nil|].
  intros [Hni Hnd]%NoDup_cons [[= -> ->]|Hin]%elem_of_cons; [by rewrite decide_True|].
  rewrite decide_False; [by apply IH|]. intros ->. apply Hni.
  by apply (list_elem_of_fmap_2 fst _ (k', v)).
Qed.

Lemma od_get_None k m : od_get k m = None ↔ k ∉ od_keys m.
Proof.
  unfold od_keys. induction m as [|[k' v'] m IH]; simpl.
  - split; [intros _ ?%elem_of_nil; done|done].
  - case_decide; rewrite elem_of_cons; naive_solver.
Qed.

Lemma od_get_Some_key k m : is_Some (od_get k m) ↔ k ∈ od_keys m.
Proof.
  rewrite <- not_eq_None_Some, od_get_None. split; [|naive_solver].
  intros. destruct (decide (k ∈ od_keys m)); naive_solver.
Qed.

Lemma od_keys_set k v m k' : k' ∈ od_keys (od_set k v m) ↔ k' = k ∨ k' ∈ od_keys m.
Proof.
  rewrite <- !od_get_Some_key. destruct (decide (k' = k)) as [->|Hne].
  - rewrite od_get_set. naive_solver.
  - rewrite od_get_set_ne by done. naive_solver.
Qed.

Lemma od_keys_pop k m k' : k' ∈ od_keys (od_pop k m) ↔ k' ≠ k ∧ k' ∈ od_keys m.
Proof.
  rewrite <- !od_get_Some_key. destruct (decide (k' = k)) as [->|Hne].
  - rewrite od_get_pop. split; [intros [? [=]]|naive_solver].
  - rewrite od_get_pop_ne by done. naive_solver.
Qed.

Lemma od_wf_set k v m : od_wf m → od_wf (od_set k v m).
Proof.
  unfold od_wf. induction m as [|[k' v'] m IH]; simpl.
  - intros _. apply NoDup_singleton.
  - intros [Hni Hnd]%NoDup_cons. case_decide; simplify_eq/=.
    + by apply NoDup_cons.
    + apply NoDup_cons. split; [|by apply IH].
      rewrite od_keys_set. naive_solver.
Qed.

Lemma od_wf_pop k m : od_wf m → od_wf (od_pop k m).
Proof.
  unfold od_wf. induction m as [|[k' v'] m IH]; simpl; [done|].
  intros [Hni Hnd]%NoDup_cons. case_decide; [by apply IH|].
  simpl. apply NoDup_cons. split; [|by apply IH].
  rewrite od_keys_pop. naive_solver.
Qed.

(** Updating a present key in place keeps the list of keys. *)
Lemma od_keys_set_present k v m : is_Some (od_get k m) → od_keys (od_set k v m) = od_keys m.
Proof.
  induction m as [|[k' v'] m IH]; simpl; [by intros [? [=]]|].
  case_decide; simplify_eq/=; [done|]. intros Hs. f_equal. by apply IH.
Qed.
End odict.

(** The pairs of a dictionary with the values rewritten, keys and order kept:
    [for k, v in d.items(): mutate v]. *)
Definition od_map {K V W} (f : K → V → W) (m : list (K * V)) : list (K * W) :=
  (λ p, (p.1, f p.1 p.2)) <$> m.

Lemma od_map_keys {K V W} (f : K → V → W) m : od_keys (od_map f m) = od_keys m.
Proof. unfold od_keys, od_map. rewrite <- list_fmap_compose. by apply list_fmap_ext. Qed.

Lemma od_get_map {K V W} `{EqDecision K} (f : K → V → W) m k :
  od_get k (od_map f m) = f k <$> od_get k m.
Proof.
  induction m as [|[k' v] m IH]; simpl; [done|].
  case_decide; simplify_eq/=; done.
Qed.

(** ** Stable sorting

    [list.sort(key=...)] and [sorted(...)] are stable; insertion from the right
    gives the same list. *)

Section isort.
Context {A : Type} (R : relation A) `{!RelDecision R}.

Fixpoint sort_insert (x : A) (l : list A) : list A :=
  match l with
  | [] => [x]
  | y :: l' => if decide (R x y) then x :: l else y :: sort_insert x l'
  end.

Definition sort_by (l : list A) : list A := foldr sort_insert [] l.

Lemma sort_insert_perm x l : sort_insert x l ≡ₚ x :: l.
Proof.
  induction l as [|y l IH]; simpl; [done|]. case_decide; [done|].
  rewrite IH. apply Permutation_swap.
Qed.

Lemma sort_by_perm l : sort_by l ≡ₚ l.
Proof. induction l as [|x l IH]; simpl; [done|]. by rewrite sort_insert_perm, IH. Qed.

Lemma elem_of_sort_by x l : x ∈ sort_by l ↔ x ∈ l.
Proof. by rewrite sort_by_perm. Qed.

Context `{!Transitive R, !Total R}.

Lemma sort_insert_sorted x l : StronglySorted R l → StronglySorted R (sort_insert x l).
Proof.
  induction 1 as [|y l Hs IH Hy]; simpl; [repeat constructor|]. case_decide as Hxy.
  - constructor; [by constructor|]. constructor; [done|].
    eapply Forall_impl; [exact Hy|]. intros z Hz. by trans y.
  - constructor; [done|]. rewrite sort_insert_perm. constructor; [|done].
    destruct (total R x y); naive_solver.
Qed.

Lemma sort_by_sorted l : StronglySorted R (sort_by l).
Proof. induction l; simpl; [constructor|by apply sort_insert_sorted]. Qed.
End isort.

(** Counting the elements a boolean test accepts: [sum(1 for x in l if p(x))]. *)
Definition count_if {A} (p : A → bool) (l : list A) : Z :=
  Z.of_nat (length (filter (λ x, p x = true) l)).

Lemma count_if_nil {A} (p : A → bool) : count_if p [] = 0.
Proof. done. Qed.

Lemma count_if_cons {A} (p : A → bool) x l :
  count_if p (x :: l) = (if p x then 1 else 0) + count_if p l.
Proof.
  unfold count_if. rewrite filter_cons. destruct (p x) eqn:E.
  - rewrite decide_True by done. simpl length. lia.
  - rewrite decide_False by done. lia.
Qed.

Lemma count_if_nonneg {A} (p : A → bool) l : 0 ≤ count_if p l.
Proof. unfold count_if. lia. Qed.

Lemma count_if_app {A} (p : A → bool) l1 l2 :
  count_if p (l1 ++ l2) = count_if p l1 + count_if p l2.
Proof. unfold count_if. rewrite filter_app, length_app. lia. Qed.

Lemma count_if_ext {A} (p q : A → bool) l :
  (∀ x, x ∈ l → p x = q x) → count_if p l = count_if q l.
Proof.
  induction l as [|x l IH]; intros H; [done|]. rewrite !count_if_cons.
  rewrite (H x) by apply list_elem_of_here. f_equal. apply IH.
  intros y Hy. apply H. by apply list_elem_of_further.
Qed.

(** [key=f] for an integer key. *)
Definition by_key {A} (f : A → Z) : relation A := λ x y, f x ≤ f y.

#[export] Instance by_key_dec {A} (f : A → Z) : RelDecision (by_key f).
Proof. intros x y. unfold by_key. apply _. Defined.

#[export] Instance by_key_trans {A} (f : A → Z) : Transitive (by_key f).
Proof. intros x y z. unfold by_key. lia. Qed.

#[export] Instance by_key_total {A} (f : A → Z) : Total (by_key f).
Proof. intros x y. unfold by_key. lia. Qed.

(** Two sorted lists of the same elements are the same list. *)
Lemma sort_by_unique {A} (R : relation A) `{!RelDecision R, !Transitive R, !Total R, !AntiSymm (=) R}
    (l1 l2 : list A) :
  l1 ≡ₚ l2 → sort_by R l1 = sort_by R l2.
Proof.
  intros Hp. apply (StronglySorted_unique R); [by apply sort_by_sorted..|].
  by rewrite !sort_by_perm.
Qed.

Lemma length_sort_by {A} (R : relation A) `{!RelDecision R} (l : list A) :
  length (sort_by R l) = length l.
Proof. by rewrite (sort_by_perm R l). Qed.

(** A list that is sorted already *)
Lemma sort_by_id {A} (R : relation A) `{!RelDecision R} (l : list A) : StronglySorted R l → sort_by R l = l.
Proof.
  induction 1 as [|x l Hs IH Hx]; [done|].
  change (sort_insert R x (sort_by R l) = x :: l). rewrite IH. destruct l as [|y l]; [done|]. cbn.
  apply Forall_cons in Hx as [Hx _]. by rewrite decide_True.
Qed.

Lemma sort_by_fmap {A B} (f : A → B) (R : relation B) `{!RelDecision R} (R' : relation A)
    `{!RelDecision R'} (l : list A) :
  (∀ x y, R (f x) (f y) ↔ R' x y) → sort_by R (f <$> l) = f <$> sort_by R' l.
Proof.
  intros HPQ. assert (∀ x l, sort_insert R (f x) (f <$> l) = f <$> sort_insert R' x l) as Hins.
  { intros x l'. induction l' as [|y l' IH]; [done|]. cbn.
    destruct (decide (R (f x) (f y))) as [Hr|Hr].
    - by rewrite decide_True by (by apply HPQ).
    - rewrite decide_False by (by rewrite <- HPQ). cbn. by f_equal. }
  induction l as [|x l IH]; [done|].
  change (sort_insert R (f x) (sort_by R (f <$> l)) = f <$> sort_insert R' x (sort_by R' l)).
  by rewrite IH, Hins.
Qed.

Lemma keyed_unique {K V} (l : list (K * V)) k v v' : NoDup l.*1 → (k, v) ∈ l → (k, v') ∈ l → v = v'.
Proof.
  induction l as [|[k1 v1] l IH]; cbn; [by intros _ ?%elem_of_nil|]. intros [Hk Hnd]%NoDup_cons.
  assert (∀ w, (k, w) ∈ l → k ≠ k1) as Hne.
  { intros w Hw ->. destruct Hk. by apply (list_elem_of_fmap_2 fst _ (k1, w)). }
  rewrite !elem_of_cons. intros [E1|Hv] [E2|Hv']; [congruence| | |by apply IH].
  - destruct (Hne _ Hv'). congruence.
  - destruct (Hne _ Hv). congruence.
Qed.

(** Sorting by the first components, which are distinct: the order of the list does not matter. *)
Lemma sort_by_keys {K V} (R : relation K) `{!RelDecision R, !Transitive R, !Total R, !AntiSymm (=) R}
    (Q : relation (K * V)) `{!RelDecision Q} (l1 l2 : list (K * V)) :
  (∀ p q, Q p q ↔ R p.1 q.1) → NoDup l1.*1 → l1 ≡ₚ l2 → sort_by Q l1 = sort_by Q l2.
Proof.
  intros HQ Hnd Hp.
  assert (Transitive Q) as HT by (intros p q r; rewrite !HQ; intros; by etrans).
  assert (Total Q) as HO by (intros p q; rewrite !HQ; apply total, _).
  apply (StronglySorted_unique_strong Q); [|by apply sort_by_sorted..|by rewrite !sort_by_perm].
  intros [k v] [k' v'] H1 H2. rewrite !HQ. cbn. intros Hle Hge. pose proof (anti_symm R _ _ Hle Hge) as ->.
  apply elem_of_sort_by in H1, H2. rewrite <- Hp in H2. f_equal.
  by eapply keyed_unique.
Qed.

(** [l] shows the first [n] of [base] in the order [R]; elements that are equal in that order come in any
    order. *)
Definition shows_first {A B} (R : relation A) (f : A → B) (n : nat) (base : list A) (l : list B) : Prop :=
  ∃ all, all ≡ₚ base ∧ StronglySorted R all ∧ l = f <$> take n all.

Lemma sort_by_shows_first {A B} (R : relation A) `{!RelDecision R, !Transitive R, !Total R} (f : A → B) n
    (l base : list A) :
  l ≡ₚ base → shows_first R f n base (f <$> take n (sort_by R l)).
Proof.
  intros Hp. exists (sort_by R l). split_and!; [by rewrite sort_by_perm|by apply sort_by_sorted|done].
Qed.

(** Where no two elements are equal in the order there is one such list. *)
Lemma shows_first_unique {A B} (R : relation A) (f : A → B) n (base : list A) (l l' : list B) :
  (∀ x y, x ∈ base → y ∈ base → R x y → R y x → x = y) →
  shows_first R f n base l → shows_first R f n base l' → l = l'.
Proof.
  intros Ha (all & Hp & Hs & ->) (all' & Hp' & Hs' & ->). do 2 f_equal.
  apply (StronglySorted_unique_strong R); [|done|done|by rewrite Hp, Hp'].
  intros x y Hx Hy. rewrite Hp in Hx. rewrite Hp' in Hy. by apply Ha.
Qed.

(** Comparing tuples: the first components that differ decide. *)
Section lex.
Context {A B : Type} (R : relation A) (S : relation B).

Definition lex_le (p q : A * B) : Prop := p.1 ≠ q.1 ∧ R p.1 q.1 ∨ p.1 = q.1 ∧ S p.2 q.2.

#[global] Instance lex_le_dec `{EqDecision A, !RelDecision R, !RelDecision S} :
  RelDecision lex_le.
Proof. intros p q. unfold lex_le. apply _. Defined.

#[global] Instance lex_le_total `{EqDecision A, !Total R, !Total S} : Total lex_le.
Proof.
  intros [a b] [c d]. unfold lex_le; cbn. destruct (decide (a = c)) as [->|Hne].
  - destruct (total S b d); auto.
  - destruct (total R a c); auto.
Qed.

#[global] Instance lex_le_trans `{!Transitive R, !AntiSymm (=) R, !Transitive S} :
  Transitive lex_le.
Proof.
  intros [a b] [c d] [e f]. unfold lex_le; cbn.
  intros [[H1 H2]|[-> H2]] [[H3 H4]|[-> H4]]; [left|left; auto|left; auto|right; split; [done|by etrans]].
  split; [|by etrans]. intros ->. apply H1. by apply (anti_symm R).
Qed.
End lex.

(** *** Dictionaries, further lemmas *)

Section odict_more.
Context {K V : Type} `{EqDecision K}.
Implicit Types (m : list (K * V)) (k : K) (v : V).

Lemma od_set_fresh k v m : od_get k m = None → od_set k v m = m ++ [(k, v)].
Proof.
  induction m as [|[k' v'] m IH]; simpl; [done|].
  case_decide; [done|]. intros E. by rewrite IH.
Qed.

Lemma od_pop_fresh k m : od_get k m = None → od_pop k m = m.
Proof.
  induction m as [|[k' v'] m IH]; simpl; [done|].
  case_decide; [done|]. intros E. by rewrite IH.
Qed.

Lemma od_map_set {W} (f : V → W) k v m :
  od_map (λ _, f) (od_set k v m) = od_set k (f v) (od_map (λ _, f) m).
Proof.
  induction m as [|[k' v'] m IH]; simpl; [done|].
  case_decide; simpl; [done|]. by f_equal.
Qed.

Lemma od_get_app k m1 m2 :
  od_get k (m1 ++ m2) = match od_get k m1 with Some v => Some v | None => od_get k m2 end.
Proof. induction m1 as [|[k' v'] m IH]; simpl; [done|]. by case_decide. Qed.

Lemma od_elem_of_values m v : od_wf m → v ∈ od_values m → ∃ k, od_get k m = Some v.
Proof.
  intros Hwf ([k v'] & -> & Hin)%list_elem_of_fmap. exists k. by apply od_elem_get.
Qed.

Lemma od_get_values k v m : od_get k m = Some v → v ∈ od_values m.
Proof.
  intros Hg%od_get_elem. apply list_elem_of_fmap. by exists (k, v).
Qed.

(** [for k in ks: d.pop(k, None)] *)
Definition od_pop_all ks m : list (K * V) := foldl (λ m k, od_pop k m) m ks.

Lemma od_get_pop_all ks m k :
  od_get k (od_pop_all ks m) = if decide (k ∈ ks) then None else od_get k m.
Proof.
  unfold od_pop_all. revert m. induction ks as [|k' ks IH]; intros m; cbn [foldl].
  { by rewrite decide_False by apply not_elem_of_nil. }
  rewrite IH. destruct (decide (k = k')) as [->|Hne].
  - rewrite od_get_pop. rewrite (decide_True (P := k' ∈ k' :: ks)) by apply list_elem_of_here.
    by case_decide.
  - rewrite od_get_pop_ne by done. apply decide_ext. rewrite elem_of_cons. naive_solver.
Qed.

Lemma od_wf_pop_all ks m : od_wf m → od_wf (od_pop_all ks m).
Proof. unfold od_pop_all. revert m. induction ks; cbn; auto using od_wf_pop. Qed.

Lemma od_pop_filter k m : od_pop k m = filter (λ p, p.1 ≠ k) m.
Proof.
  induction m as [|[k' v] m' IH]; [done|]. rewrite filter_cons; cbn.
  repeat case_decide; try congruence.
Qed.

Lemma od_pop_all_filter ks m : od_pop_all ks m = filter (λ p, p.1 ∉ ks) m.
Proof.
  unfold od_pop_all. revert m. induction ks as [|k ks IH]; intros m; cbn [foldl].
  { induction m as [|p m IH]; [done|].
    rewrite filter_cons, decide_True by apply not_elem_of_nil. by f_equal. }
  rewrite IH, od_pop_filter, list_filter_filter. apply list_filter_iff. intros p.
  rewrite not_elem_of_cons. tauto.
Qed.

Lemma od_values_pop_all (key : V → K) ks m :
  (∀ k v, (k, v) ∈ m → key v = k) →
  od_values (od_pop_all ks m) = filter (λ v, key v ∉ ks) (od_values m).
Proof.
  rewrite od_pop_all_filter. induction m as [|[k v] m IH]; intros Hk; [done|].
  change (od_values ((k, v) :: m)) with (v :: od_values m). rewrite !filter_cons; cbn [fst].
  rewrite (Hk k v) by apply list_elem_of_here.
  specialize (IH (λ k v Hin, Hk k v (list_elem_of_further _ _ _ Hin))).
  case_decide; [|done]. change (od_values ((k, v) :: ?l)) with (v :: od_values l).
  by rewrite <- IH.
Qed.
End odict_more.

(** Removing the [n] first accepted elements in an order, by key: what is left of
    the accepted ones are the others. *)
Lemma prune_split {I K} `{EqDecision K} (key : I → K) (p : I → bool) (R : relation I)
    `{!RelDecision R} (n : nat) (items : list I) :
  NoDup (key <$> items) →
  let doomed := take n (sort_by R (filter (λ i, p i = true) items)) in
  filter (λ i, p i = true) (filter (λ i, key i ∉ key <$> doomed) items)
    ≡ₚ drop n (sort_by R (filter (λ i, p i = true) items)).
Proof.
  intros Hnd doomed. set (sorted := sort_by R _) in *.
  assert (NoDup items) as Hnd' by (by apply NoDup_fmap_1 in Hnd).
  assert (NoDup sorted) as Hns.
  { unfold sorted. rewrite sort_by_perm. by apply NoDup_filter. }
  assert (∀ x y, x ∈ items → y ∈ items → key x = key y → x = y) as Hinj.
  { clear -Hnd. induction items as [|i items IH]; [by intros x y ?%elem_of_nil|].
    rewrite fmap_cons in Hnd. apply NoDup_cons in Hnd as [Hi Hnd].
    intros x y [->|Hx]%elem_of_cons [->|Hy]%elem_of_cons E; [done| | |by apply IH].
    - exfalso. apply Hi. rewrite E. by apply list_elem_of_fmap_2.
    - exfalso. apply Hi. rewrite <- E. by apply list_elem_of_fmap_2. }
  assert (∀ x, x ∈ sorted ↔ p x = true ∧ x ∈ items) as Hin.
  { intros x. unfold sorted. by rewrite elem_of_sort_by, list_elem_of_filter. }
  rewrite <- (take_drop n sorted) in Hns. apply NoDup_app in Hns as (_ & Hdis & Hnd2).
  apply NoDup_Permutation; [by repeat apply NoDup_filter|done|].
  intros x. rewrite !list_elem_of_filter. split.
  - intros (Hp & Hk & Hx). assert (x ∈ sorted) as Hxs by (by apply Hin).
    rewrite <- (take_drop n sorted) in Hxs. apply elem_of_app in Hxs as [Hxs|Hxs]; [|done].
    exfalso. apply Hk. by apply list_elem_of_fmap_2.
  - intros Hx. assert (x ∈ sorted) as Hxs.
    { rewrite <- (take_drop n sorted). by apply elem_of_app; right. }
    apply Hin in Hxs as [Hp Hxi]. split_and!; [done| |done].
    intros (y & E & Hy)%list_elem_of_fmap.
    assert (y ∈ sorted) as Hys.
    { rewrite <- (take_drop n sorted). by apply elem_of_app; left. }
    apply Hin in Hys as [_ Hyi]. rewrite (Hinj x y) in Hx by done. by apply (Hdis y).
Qed.

(** ** Filtering an ordered dictionary *)

Lemma od_get_filter_key {K V} `{EqDecision K} (P : K → Prop) `{!∀ k, Decision (P k)}
    (Q : K * V → Prop) `{!∀ p, Decision (Q p)} (m : list (K * V)) k :
  (∀ p, Q p ↔ P p.1) →
  od_get k (filter Q m) = if decide (P k) then od_get k m else None.
Proof.
  intros HQ. induction m as [|[k' v] m IH]; [by case_decide|]. rewrite filter_cons.
  rewrite (decide_ext (Q (k', v)) (P k')) by apply HQ.
  destruct (decide (P k')) as [HP|HP]; cbn [od_get]; destruct (decide (k = k')) as [->|]; rewrite ?IH;
    [by rewrite decide_True by done|done|by rewrite !decide_False by done|done].
Qed.

Lemma od_wf_filter {K V} `{EqDecision K} (P : K * V → Prop) `{!∀ p, Decision (P p)}
    (m : list (K * V)) : od_wf m → od_wf (filter P m).
Proof. intros Hm. eapply sublist_NoDup; [exact Hm|]. apply fmap_sublist, sublist_filter. Qed.

Lemma od_elem_of_get {K V} `{EqDecision K} (m : list (K * V)) k v :
  od_wf m → (k, v) ∈ m ↔ od_get k m = Some v.
Proof. intros Hm. split; [by apply od_elem_get|apply od_get_elem]. Qed.

Lemma od_mem_true {K V} `{EqDecision K} k (m : list (K * V)) :
  od_mem k m = true ↔ is_Some (od_get k m).
Proof. unfold od_mem. apply bool_decide_eq_true. Qed.

Lemma od_mem_false {K V} `{EqDecision K} k (m : list (K * V)) :
  od_mem k m = false ↔ od_get k m = None.
Proof. unfold od_mem. rewrite bool_decide_eq_false. by rewrite eq_None_not_Some. Qed.

Lemma od_get_filter_some {K V} `{EqDecision K} (P : K * V → Prop) `{!∀ p, Decision (P p)}
    (m : list (K * V)) k v :
  od_wf m → od_get k (filter P m) = Some v ↔ od_get k m = Some v ∧ P (k, v).
Proof.
  intros Hwf. rewrite <- !od_elem_of_get by (try apply od_wf_filter; done).
  rewrite list_elem_of_filter. tauto.
Qed.

Lemma od_keys_app {K V} (m1 m2 : list (K * V)) : od_keys (m1 ++ m2) = od_keys m1 ++ od_keys m2.
Proof. apply fmap_app. Qed.

Lemma od_pop_app_last {K V} `{EqDecision K} (m : list (K * V)) k v :
  od_get k m = None → od_pop k (m ++ [(k, v)]) = m.
Proof.
  intros Hk. rewrite od_pop_filter, filter_app, <- od_pop_filter, od_pop_fresh by done.
  by rewrite filter_cons_False, filter_nil, app_nil_r by naive_solver.
Qed.

Lemma od_wf_app_fresh {K V} `{EqDecision K} (m : list (K * V)) k v : od_wf (m ++ [(k, v)]) → od_get k m = None.
Proof.
  unfold od_wf, od_keys. rewrite fmap_app. intros (_ & Hn & _)%NoDup_app. apply od_get_None.
  intros Hk. by apply (Hn k Hk), list_elem_of_here.
Qed.

Lemma filter_od_map {K V W} (f : V → W) (P : K * W → Prop) `{!∀ p, Decision (P p)}
    (Q : K * V → Prop) `{!∀ p, Decision (Q p)} (m : list (K * V)) :
  (∀ k v, P (k, f v) ↔ Q (k, v)) → filter P (od_map (λ _, f) m) = od_map (λ _, f) (filter Q m).
Proof.
  intros HPQ. induction m as [|[k v] m IH]; [done|]. unfold od_map in *. cbn [fmap list_fmap fst snd].
  rewrite !filter_cons. destruct (decide (P (k, f v))) as [Hp|Hp].
  - rewrite decide_True by (by apply HPQ). cbn. by f_equal.
  - rewrite decide_False by (by rewrite <- HPQ). done.
Qed.

Lemma od_map_pop {K V W} `{EqDecision K} (f : K → V → W) (m0 : list (K * V)) k :
  od_pop k (od_map f m0) = od_map f (od_pop k m0).
Proof.
  unfold od_map. induction m0 as [|[k' v] m0 IH]; [done|]. cbn. case_decide; [done|]. cbn. by f_equal.
Qed.

Lemma od_values_pop {K V} `{EqDecision K} (m0 : list (K * V)) k v :
  od_wf m0 → od_get k m0 = Some v → od_values m0 ≡ₚ v :: od_values (od_pop k m0).
Proof.
  unfold od_wf, od_values. induction m0 as [|[k' v'] m0 IH]; [done|]. cbn.
  intros [Hk Hnd]%NoDup_cons. case_decide as E.
  - intros [= ->]. subst k'. rewrite od_pop_fresh; [done|]. by apply od_get_None.
  - intros Hv. cbn. rewrite (IH Hnd Hv). apply Permutation_swap.
Qed.

Lemma filter_all_out {X} (P : X → Prop) `{!∀ x, Decision (P x)} (l : list X) : (∀ x, x ∈ l → ¬ P x) → filter P l = [].
Proof.
  induction l as [|x l IH]; intros Hl; [done|]. rewrite filter_cons_False by (apply Hl; by left).
  apply IH. intros y Hy. apply Hl. by right.
Qed.

Lemma filter_all_in {X} (P : X → Prop) `{!∀ x, Decision (P x)} (l : list X) : (∀ x, x ∈ l → P x) → filter P l = l.
Proof.
  induction l as [|x l IH]; intros Hl; [done|]. rewrite filter_cons_True by (apply Hl; by left).
  f_equal. apply IH. intros y Hy. apply Hl. by right.
Qed.

(** [sorted(l)] of strings *)
Definition sorted_strings (l : list string) : list string := sort_by String.le l.

(** [min(l, key=f)]: the first key whose value is least. *)
Fixpoint first_min {A} (f : A → Z) (best : A) (l : list A) : A :=
  match l with
  | [] => best
  | x :: l => first_min f (if f x <? f best then x else best) l
  end.

Lemma first_min_elem {A} (f : A → Z) best l : first_min f best l ∈ best :: l.
Proof.
  revert best. induction l as [|x l IH]; intros best; cbn; [set_solver|].
  specialize (IH (if f x <? f best then x else best)). destruct (f x <? f best); set_solver.
Qed.

Lemma first_min_least {A} (f : A → Z) best l x : x ∈ best :: l → f (first_min f best l) ≤ f x.
Proof.
  revert best x. induction l as [|y l IH]; intros best x.
  { intros ->%list_elem_of_singleton. done. }
  cbn [first_min]. destruct (Z.ltb_spec (f y) (f best)); rewrite !elem_of_cons.
  - intros [->|[->|Hx]]; [|apply IH; left|apply IH; by right].
    etrans; [apply IH; left|lia].
  - intros [->|[->|Hx]]; [apply IH; left| |apply IH; by right].
    etrans; [apply IH; left|lia].
Qed.

(** ** Automation *)

(** Destruct the innermost scrutinee of the goal, or of a hypothesis, naming nothing. *)
Ltac crush_match :=
  repeat (case_decide || case_bool_decide || case_match); simplify_eq/=; try done.

(** Solve the standard goals about updated dictionaries. *)
Create HintDb od discriminated.
#[export] Hint Rewrite @od_get_set @od_get_pop : od.
#[export] Hint Resolve od_wf_set od_wf_pop : od.
Ltac od_solve :=
  repeat first
    [ progress autorewrite with od
    | rewrite od_get_set_ne by (done || congruence)
    | rewrite od_get_pop_ne by (done || congruence) ];
  eauto with od.

(** Sortedness of a concrete list of integers. *)
Ltac solve_sorted :=
  cbn; repeat first
    [ apply SSorted_nil | apply SSorted_cons | apply Forall_nil_2 | apply Forall_cons_2 ]; lia.
