(* ===== verification/PyValue.v ===== *)
(** * Dynamically typed Python values

    The values that flow through the modelled code where the source says [Any]:
    JSON-shaped data read from overlays, tool arguments, task payloads and
    contexts.  Floats are rationals; how a float prints is left to the
    parameter [float_repr] of the functions that need it. *)

From S2P Require Import Prelude.
From Stdlib Require QArith.
Notation Q := QArith_base.Q.
Notation Qnum := QArith_base.Qnum.
Notation Qden := QArith_base.Qden.
Notation inject_Z := QArith_base.inject_Z.
#[global] Open Scope Z_scope.

Inductive pyval :=
| PNone
| PBool (b : bool)
| PInt (z : Z)
| PFloat (q : Q)
| PStr (s : string)
| PList (l : list pyval)
| PDict (d : list (string * pyval)).

Notation pydict := (list (string * pyval)).

(** [bool(x)] *)
Definition truthy (v : pyval) : bool :=
  match v with
  | PNone => false
  | PBool b => b
  | PInt z => negb (z =? 0)
  | PFloat q => negb (Qnum q =? 0)
  | PStr s => py_bool s
  | PList l => match l with [] => false | _ => true end
  | PDict d => match d with [] => false | _ => true end
  end.

(** [d.get(key, default)] *)
Definition dict_get (d : pydict) (key : string) (dflt : pyval) : pyval :=
  default dflt (od_get key d).

(** [isinstance(x, list)], [isinstance(x, dict)], [isinstance(x, int)]: a
    Python [bool] is an [int]. *)
Definition as_list (v : pyval) : option (list pyval) :=
  match v with PList l => Some l | _ => None end.

Definition as_dict (v : pyval) : option pydict :=
  match v with PDict d => Some d | _ => None end.

Definition as_int (v : pyval) : option Z :=
  match v with
  | PInt z => Some z
  | PBool b => Some (if b then 1 else 0)
  | _ => None
  end.

(** [isinstance(x, (int, float))] and then [float(x)]. *)
Definition as_number (v : pyval) : option Q :=
  match v with
  | PFloat q => Some q
  | _ => inject_Z <$> as_int v
  end.

Definition is_none (v : pyval) : bool := match v with PNone => true | _ => false end.

Section rendering.
Variable float_repr : Q → string.

Fixpoint str_contains_char (c : ascii) (s : string) : bool :=
  match s with
  | EmptyString => false
  | String c' s' => bool_decide (c = c') || str_contains_char c s'
  end.

Definition hex_digit (n : nat) : ascii :=
  Ascii.ascii_of_nat (if (n <? 10)%nat then 48 + n else 87 + n)%nat.

(** One character of the [repr] of a string delimited by [quote]. *)
Definition repr_char (quote c : ascii) : string :=
  let n := Ascii.nat_of_ascii c in
  if bool_decide (c = quote) || (n =? 92)%nat then String (Ascii.ascii_of_nat 92) (String c EmptyString)
  else if (n =? 10)%nat then "\n" else if (n =? 13)%nat then "\r"
  else if (n =? 9)%nat then "\t"
  else if (n <? 32)%nat || (n =? 127)%nat
  then String (Ascii.ascii_of_nat 92) (String (Ascii.ascii_of_nat 120) (String (hex_digit (n / 16))
         (String (hex_digit (n mod 16)) EmptyString)))
  else String c EmptyString.

Fixpoint repr_body (quote : ascii) (s : string) : string :=
  match s with
  | EmptyString => EmptyString
  | String c s' => repr_char quote c +:+ repr_body quote s'
  end.

(** Single quotes, unless the text holds one and no double quote. *)
Definition repr_str (s : string) : string :=
  let sq := Ascii.ascii_of_nat 39 in
  let dq := Ascii.ascii_of_nat 34 in
  let q := if str_contains_char sq s && negb (str_contains_char dq s) then dq else sq in
  String q (repr_body q s +:+ String q EmptyString).

Fixpoint join (sep : string) (l : list string) : string :=
  match l with
  | [] => ""
  | [s] => s
  | s :: l' => s +:+ sep +:+ join sep l'
  end.

(** [repr(x)] *)
Fixpoint py_repr (v : pyval) : string :=
  match v with
  | PNone => "None"
  | PBool true => "True"
  | PBool false => "False"
  | PInt z => str_of_Z z
  | PFloat q => float_repr q
  | PStr s => repr_str s
  | PList l => "[" +:+ join ", " (map py_repr l) +:+ "]"
  | PDict d =>
      "{" +:+ join ", " (map (λ p, repr_str p.1 +:+ ": " +:+ py_repr p.2) d) +:+ "}"
  end.

(** [str(x)] *)
Definition py_str (v : pyval) : string :=
  match v with PStr s => s | _ => py_repr v end.

(** [str(d.get(key, default))] *)
Definition dict_get_str (d : pydict) (key dflt : string) : string :=
  py_str (dict_get d key (PStr dflt)).
End rendering.

(** [d.update(e)] *)
Definition dict_update (d e : pydict) : pydict :=
  foldl (λ acc p, od_set p.1 p.2 acc) d e.

(** [d.setdefault(key, v)], the dictionary after it. *)
Definition dict_setdefault (d : pydict) (key : string) (v : pyval) : pydict :=
  match od_get key d with
  | Some _ => d
  | None => od_set key v d
  end.

(** ** Conversions that may raise *)

Definition type_name (v : pyval) : string :=
  match v with
  | PNone => "NoneType" | PBool _ => "bool" | PInt _ => "int" | PFloat _ => "float"
  | PStr _ => "str" | PList _ => "list" | PDict _ => "dict"
  end.

Definition digit_of (c : ascii) : option Z :=
  let n := Ascii.nat_of_ascii c in
  if ((48 <=? n) && (n <=? 57))%nat then Some (Z.of_nat n - 48) else None.

(** The digits of an integer literal; [sep] says whether an underscore may come next. *)
Fixpoint parse_digits (sep : bool) (acc : Z) (s : string) : option Z :=
  match s with
  | EmptyString => if sep then Some acc else None
  | String c s' =>
      match digit_of c with
      | Some d => parse_digits true (10 * acc + d) s'
      | None => if sep && bool_decide (c = Ascii.ascii_of_nat 95) then parse_digits false acc s' else None
      end
  end.

(** [int(s)] *)
Definition parse_int (s : string) : option Z :=
  match py_strip s with
  | String c s' =>
      if bool_decide (c = Ascii.ascii_of_nat 45) then Z.opp <$> parse_digits false 0 s'
      else if bool_decide (c = Ascii.ascii_of_nat 43) then parse_digits false 0 s'
      else parse_digits false 0 (String c s')
  | EmptyString => None
  end.

(** [int(v)] *)
Definition int_of (v : pyval) : res Z :=
  match v with
  | PInt z => Ok z
  | PBool b => Ok (if b then 1 else 0)
  | PFloat q => Ok (Z.quot (Qnum q) (Zpos (Qden q)))
  | PStr s =>
      match parse_int s with
      | Some z => Ok z
      | None => Raise (ValueError ("invalid literal for int() with base 10: " +:+ repr_str s))
      end
  | _ =>
      Raise (OtherException ("int() argument must be a string, a bytes-like object or a real number, not '"
        +:+ type_name v +:+ "'"))
  end.

(** [list(v)] *)
Fixpoint characters (s : string) : list pyval :=
  match s with
  | EmptyString => []
  | String c s' => PStr (String c EmptyString) :: characters s'
  end.

Definition list_of (v : pyval) : res (list pyval) :=
  match v with
  | PList l => Ok l
  | PStr s => Ok (characters s)
  | PDict d => Ok (PStr <$> od_keys d)
  | _ => Raise (OtherException ("'" +:+ type_name v +:+ "' object is not iterable"))
  end.

(** A pair with a string key, as a list or a string of two characters. *)
Definition pair_of (v : pyval) : option (string * pyval) :=
  match v with
  | PList [PStr k; x] => Some (k, x)
  | PStr (String a (String b EmptyString)) =>
      Some (String a EmptyString, PStr (String b EmptyString))
  | _ => None
  end.

(** [dict(v)], where the keys are strings *)
Definition dict_of (v : pyval) : res pydict :=
  let no_pairs := OtherException "cannot convert dictionary update sequence to a dictionary" in
  match v with
  | PDict d => Ok d
  | PList l =>
      match mapM pair_of l with
      | Some ps => Ok (foldl (λ d p, od_set p.1 p.2 d) [] ps)
      | None => Raise no_pairs
      end
  | PStr s => if py_bool s then Raise no_pairs else Ok []
  | _ => Raise (OtherException ("'" +:+ type_name v +:+ "' object is not iterable"))
  end.

(** [key in d], for a dictionary with string keys *)
Definition key_in (key : pyval) (d : pydict) : res bool :=
  match key with
  | PStr s => Ok (od_mem s d)
  | PList _ | PDict _ => Raise (OtherException ("unhashable type: '" +:+ type_name key +:+ "'"))
  | _ => Ok false
  end.
