(* ===== verification/Tenancy.v ===== *)
(** * Tenancy: quotas and fixed-window rate limiting

    Models src/tenancy/quotas.py and src/tenancy/rate_limiter.py.  The two rate
    limiters (process memory and SQLite) are instances of one interface,
    [FixedWindow]; the admission bound and the equality of their answers are
    proved against the interface. *)

From S2P Require Import Prelude.

(** ** Quotas (src/tenancy/quotas.py) *)
Module Quotas.

Record QuotaDecision := mkQuotaDecision {
  allowed : bool;
  reason_code : string;
  message : string;
}.

Record TenantQuotaManager := mkTenantQuotaManager {
  max_active_jobs_per_tenant : Z;
  hard_enforcement : bool;
}.

Definition default_manager : TenantQuotaManager := mkTenantQuotaManager 0 true.

Definition max_active_jobs (m : TenantQuotaManager) : Z := max_active_jobs_per_tenant m.

Definition set_limit (m : TenantQuotaManager) (limit : Z) : res TenantQuotaManager :=
  if limit <? 0
  then Raise (ValueError "max_active_jobs must be >= 0 (0 = unlimited)")
  else Ok (mkTenantQuotaManager limit (hard_enforcement m)).

Definition check_submission (m : TenantQuotaManager) (tenant_id : string)
    (active_jobs : Z) : QuotaDecision :=
  if max_active_jobs_per_tenant m <=? 0 then mkQuotaDecision true "" ""
  else if active_jobs <? max_active_jobs_per_tenant m then mkQuotaDecision true "" ""
  else if negb (hard_enforcement m) then
    mkQuotaDecision true "TENANT_QUOTA_SOFT_LIMIT"
      ("Tenant '" +:+ tenant_id +:+ "' exceeded soft quota limit.")
  else
    mkQuotaDecision false "TENANT_QUOTA_EXCEEDED"
      ("Tenant '" +:+ tenant_id +:+ "' exceeded max active jobs quota.").

Lemma check_submission_denied m t n :
  allowed (check_submission m t n) = false ↔
  0 < max_active_jobs_per_tenant m ≤ n ∧ hard_enforcement m = true.
Proof.
  unfold check_submission.
  destruct (Z.leb_spec (max_active_jobs_per_tenant m) 0); simpl; [split; [done|lia]|].
  destruct (Z.ltb_spec n (max_active_jobs_per_tenant m)); simpl; [split; [done|lia]|].
  destruct (hard_enforcement m); simpl; naive_solver lia.
Qed.

End Quotas.

(** ** The fixed-window interface

    What [TenantRateLimiter.allow] and [SQLiteTenantRateLimiter.allow] promise:
    a slot per tenant key holds a window number and the requests admitted in it. *)

Definition tenant_key (tenant_id : string) : string :=
  py_or (py_strip (py_or tenant_id "default")) "default".

Definition slot_count (slot : option (Z * Z)) (window : Z) : Z :=
  match slot with
  | Some (w, c) => if w =? window then c else 0
  | None => 0
  end.

Class FixedWindow (S : Type) := {
  fw_max : S → Z;
  fw_window : S → Z;
  fw_slot : S → string → option (Z * Z);
  fw_allow : S → Z → string → (bool * Z) * S;

  fw_unlimited s now t :
    fw_max s ≤ 0 → fw_allow s now t = ((true, 0), s);
  fw_denied s now t :
    0 < fw_max s →
    fw_max s ≤ slot_count (fw_slot s (tenant_key t)) (now / fw_window s) →
    fw_allow s now t = ((false, fw_window s), s);
  fw_admitted s now t :
    0 < fw_max s →
    slot_count (fw_slot s (tenant_key t)) (now / fw_window s) < fw_max s →
    let c := slot_count (fw_slot s (tenant_key t)) (now / fw_window s) + 1 in
    let s' := (fw_allow s now t).2 in
    (fw_allow s now t).1 = (true, Z.max (fw_max s - c) 0) ∧
    fw_slot s' (tenant_key t) = Some (now / fw_window s, c) ∧
    (∀ k, k ≠ tenant_key t → fw_slot s' k = fw_slot s k) ∧
    fw_max s' = fw_max s ∧ fw_window s' = fw_window s;
}.

(** ** The in-memory limiter *)
Module RateLimiter.

Record TenantRateLimiter := mkTenantRateLimiter {
  max_requests : Z;
  window_seconds : Z;
  windows : gmap string (Z * Z);
}.

Definition init (max_req win : Z) : TenantRateLimiter :=
  mkTenantRateLimiter (Z.max max_req 0) (Z.max win 1) ∅.

(** [allow]; [now] is [int(time.time())]. *)
Definition allow (s : TenantRateLimiter) (now : Z) (tenant_id : string)
    : (bool * Z) * TenantRateLimiter :=
  if max_requests s <=? 0 then ((true, 0), s)
  else
    let key := tenant_key tenant_id in
    let current_window := now / window_seconds s in
    let '(window, count) := default (current_window, 0) (windows s !! key) in
    let '(window, count) :=
      if negb (window =? current_window) then (current_window, 0) else (window, count) in
    if max_requests s <=? count then ((false, window_seconds s), s)
    else ((true, Z.max (max_requests s - (count + 1)) 0),
          mkTenantRateLimiter (max_requests s) (window_seconds s)
            (<[key := (window, count + 1)]> (windows s))).

Lemma allow_unfold s now t :
  allow s now t =
  let w := now / window_seconds s in
  let c := slot_count (windows s !! tenant_key t) w in
  if max_requests s <=? 0 then ((true, 0), s)
  else if max_requests s <=? c then ((false, window_seconds s), s)
  else ((true, Z.max (max_requests s - (c + 1)) 0),
        mkTenantRateLimiter (max_requests s) (window_seconds s)
          (<[tenant_key t := (w, c + 1)]> (windows s))).
Proof.
  unfold allow, slot_count. destruct (_ <=? 0); [done|].
  destruct (windows s !! tenant_key t) as [[w c]|] eqn:E; simpl.
  - destruct (Z.eqb_spec w (now / window_seconds s)); simpl; subst; done.
  - rewrite Z.eqb_refl. done.
Qed.

#[global] Program Instance fixed_window : FixedWindow TenantRateLimiter := {
  fw_max := max_requests;
  fw_window := window_seconds;
  fw_slot s k := windows s !! k;
  fw_allow := allow;
}.
Next Obligation. intros s now t H. rewrite allow_unfold; simpl in *. by destruct (Z.leb_spec (max_requests s) 0); [|lia]. Qed.
Next Obligation.
  intros s now t H H'. rewrite allow_unfold; simpl in *.
  destruct (Z.leb_spec (max_requests s) 0); [lia|].
  by destruct (Z.leb_spec (max_requests s) (slot_count (windows s !! tenant_key t) (now / window_seconds s))); [|lia].
Qed.
Next Obligation.
  intros s now t H H'. rewrite allow_unfold; simpl in *.
  destruct (Z.leb_spec (max_requests s) 0); [lia|].
  destruct (Z.leb_spec (max_requests s) (slot_count (windows s !! tenant_key t) (now / window_seconds s))); [lia|].
  simpl. rewrite lookup_insert_eq. repeat split; try done.
  intros k Hk. by rewrite lookup_insert_ne.
Qed.

End RateLimiter.

(** ** The SQLite limiter *)
Module SqliteRateLimiter.

(** A row of [tenant_rate_windows]; the primary key is (tenant_id, limiter_id). *)
Record row := mkRow { window_id : Z; request_count : Z; updated_at_epoch : Z }.

Record SQLiteTenantRateLimiter := mkSQLiteTenantRateLimiter {
  max_requests : Z;
  window_seconds : Z;
  limiter_id : string;
  tenant_rate_windows : gmap (string * string) row;
}.

Definition init (max_req win : Z) (lid : string) : SQLiteTenantRateLimiter :=
  mkSQLiteTenantRateLimiter (Z.max max_req 0) (Z.max win 1)
    (py_or (py_strip (py_or lid "default")) "default") ∅.

Definition limiter_key (s : SQLiteTenantRateLimiter) (lid : option string) : string :=
  py_or (py_strip (py_or (default "" lid) (limiter_id s))) (limiter_id s).

Definition allow (s : SQLiteTenantRateLimiter) (now : Z) (tenant_id : string)
    (lid : option string) : (bool * Z) * SQLiteTenantRateLimiter :=
  if max_requests s <=? 0 then ((true, 0), s)
  else
    let tkey := tenant_key tenant_id in
    let lkey := limiter_key s lid in
    let current_window := now / window_seconds s in
    let request_count :=
      match tenant_rate_windows s !! (tkey, lkey) with
      | None => 0
      | Some r => if negb (window_id r =? current_window) then 0 else request_count r
      end in
    if max_requests s <=? request_count then ((false, window_seconds s), s)
    else
      let new_count := request_count + 1 in
      ((true, Z.max (max_requests s - new_count) 0),
       mkSQLiteTenantRateLimiter (max_requests s) (window_seconds s) (limiter_id s)
         (<[(tkey, lkey) := mkRow current_window new_count now]> (tenant_rate_windows s))).

(** The callers in src/api use the limiter's own id: [allow(tenant_id)]. *)
Definition slot (s : SQLiteTenantRateLimiter) (k : string) : option (Z * Z) :=
  (λ r, (window_id r, request_count r)) <$>
    tenant_rate_windows s !! (k, limiter_key s None).

Lemma sqlite_allow_unfold s now t :
  allow s now t None =
  let w := now / window_seconds s in
  let c := slot_count (slot s (tenant_key t)) w in
  if max_requests s <=? 0 then ((true, 0), s)
  else if max_requests s <=? c then ((false, window_seconds s), s)
  else ((true, Z.max (max_requests s - (c + 1)) 0),
        mkSQLiteTenantRateLimiter (max_requests s) (window_seconds s) (limiter_id s)
          (<[(tenant_key t, limiter_key s None) := mkRow w (c + 1) now]> (tenant_rate_windows s))).
Proof.
  unfold allow, slot_count, slot. destruct (_ <=? 0); [done|].
  destruct (tenant_rate_windows s !! _) as [r|] eqn:E; simpl; [|done].
  by destruct (Z.eqb_spec (window_id r) (now / window_seconds s)).
Qed.

#[global] Program Instance fixed_window : FixedWindow SQLiteTenantRateLimiter := {
  fw_max := max_requests;
  fw_window := window_seconds;
  fw_slot := slot;
  fw_allow s now t := allow s now t None;
}.
Next Obligation. intros s now t H. simpl in *; rewrite sqlite_allow_unfold; simpl in *. by destruct (Z.leb_spec (max_requests s) 0); [|lia]. Qed.
Next Obligation.
  intros s now t H H'. simpl in *; rewrite sqlite_allow_unfold; simpl in *.
  destruct (Z.leb_spec (max_requests s) 0); [lia|].
  by destruct (Z.leb_spec (max_requests s) (slot_count (slot s (tenant_key t)) (now / window_seconds s))); [|lia].
Qed.
Next Obligation.
  intros s now t H H'. simpl in *; rewrite sqlite_allow_unfold; simpl in *.
  destruct (Z.leb_spec (max_requests s) 0); [lia|].
  destruct (Z.leb_spec (max_requests s) (slot_count (slot s (tenant_key t)) (now / window_seconds s))); [lia|].
  unfold slot, limiter_key; simpl. rewrite lookup_insert_eq. repeat split; try done.
  intros k Hk. rewrite lookup_insert_ne; [done|congruence].
Qed.

End SqliteRateLimiter.

(** ** Sequences of requests

    A call is the time it is made at and the tenant it is made for. *)

Section limiter_runs.
Context {S : Type} `{!FixedWindow S}.

Fixpoint run_calls (s : S) (calls : list (Z * string)) : list (bool * Z) * S :=
  match calls with
  | [] => ([], s)
  | (now, t) :: calls =>
      let '(r, s1) := fw_allow s now t in
      let '(rs, s2) := run_calls s1 calls in
      (r :: rs, s2)
  end.

(** Requests of tenant key [k] admitted in window [w]. *)
Fixpoint admitted (win : Z) (k : string) (w : Z)
    (calls : list (Z * string)) (rs : list (bool * Z)) : Z :=
  match calls, rs with
  | (now, t) :: calls, (ok, _) :: rs =>
      (if bool_decide (tenant_key t = k ∧ now / win = w) && ok then 1 else 0)
      + admitted win k w calls rs
  | _, _ => 0
  end.

Lemma fw_allow_params s now t :
  fw_max (fw_allow s now t).2 = fw_max s ∧ fw_window (fw_allow s now t).2 = fw_window s.
Proof.
  destruct (Z.le_gt_cases (fw_max s) 0).
  { by rewrite fw_unlimited. }
  destruct (Z.le_gt_cases (fw_max s)
    (slot_count (fw_slot s (tenant_key t)) (now / fw_window s))).
  { by rewrite fw_denied by lia. }
  by destruct (fw_admitted s now t) as (_ & _ & _ & ? & ?); [lia..|].
Qed.

Lemma admitted_other_window win k w calls rs :
  Forall (λ t, t / win ≠ w) calls.*1 → admitted win k w calls rs = 0.
Proof.
  revert rs. induction calls as [|[now t] calls IH]; intros [|[ok n] rs]; try done; simpl.
  intros [Hne Hall]%Forall_cons. rewrite IH by done.
  rewrite bool_decide_false by naive_solver. done.
Qed.

Lemma fw_allow_denied_result s now t :
  0 < fw_max s →
  (fw_allow s now t).1.1 = false →
  (fw_allow s now t).2 = s ∧
  fw_max s ≤ slot_count (fw_slot s (tenant_key t)) (now / fw_window s).
Proof.
  intros Hm. destruct (Z.le_gt_cases (fw_max s)
    (slot_count (fw_slot s (tenant_key t)) (now / fw_window s))).
  - by rewrite fw_denied by lia.
  - destruct (fw_admitted s now t) as (-> & _); [lia..|done].
Qed.

(** What the slot of [k] may hold before a sequence of calls: a count within
    the maximum, for a window no later call precedes. *)
Definition slot_ok (s : S) (k : string) (calls : list (Z * string)) : Prop :=
  ∀ w c, fw_slot s k = Some (w, c) →
    0 ≤ c ≤ fw_max s ∧ Forall (λ t, w ≤ t / fw_window s) calls.*1.

Lemma slot_ok_step s now t k calls :
  0 < fw_max s → 0 < fw_window s →
  StronglySorted Z.le ((now, t) :: calls).*1 →
  slot_ok s k ((now, t) :: calls) →
  slot_ok (fw_allow s now t).2 k calls.
Proof.
  intros Hm Hw Hsort Hok w c. apply StronglySorted_inv in Hsort as [_ Hle].
  destruct (fw_allow_params s now t) as [-> ->].
  destruct (Z.le_gt_cases (fw_max s)
    (slot_count (fw_slot s (tenant_key t)) (now / fw_window s))).
  { rewrite fw_denied by lia. intros [Hc Hf]%Hok. split; [done|].
    by apply Forall_cons in Hf as [_ ?]. }
  destruct (fw_admitted s now t) as (_ & Hk & Hother & _ & _); [lia..|].
  destruct (decide (k = tenant_key t)) as [->|Hne].
  - rewrite Hk. intros [= <- <-]. split.
    + split; [|lia]. unfold slot_count.
      destruct (fw_slot s (tenant_key t)) as [[w0 c0]|] eqn:E; [|lia].
      destruct (Hok _ _ E) as [? _]. destruct (_ =? _); lia.
    + eapply Forall_impl; [exact Hle|]. simpl. intros t' ?. by apply Z.div_le_mono.
  - rewrite Hother by done. intros [Hc Hf]%Hok. split; [done|].
    by apply Forall_cons in Hf as [_ ?].
Qed.

Lemma slot_count_bounds s k calls w :
  0 < fw_max s → slot_ok s k calls → 0 ≤ slot_count (fw_slot s k) w ≤ fw_max s.
Proof.
  intros Hm Hok. unfold slot_count. destruct (fw_slot s k) as [[w0 c0]|] eqn:E; [|lia].
  destruct (Hok _ _ E). destruct (_ =? _); lia.
Qed.

(** The budget of [k] in window [w]: what its slot has not yet counted. *)
Lemma admitted_bound_from s k w calls :
  0 < fw_max s → 0 < fw_window s →
  StronglySorted Z.le calls.*1 →
  slot_ok s k calls →
  admitted (fw_window s) k w calls (run_calls s calls).1
    ≤ fw_max s - slot_count (fw_slot s k) w.
Proof.
  revert s. induction calls as [|[now t] calls IH]; intros s Hm Hw Hsort Hok.
  { simpl. pose proof (slot_count_bounds s k [] w Hm Hok). lia. }
  pose proof (slot_ok_step _ _ _ _ _ Hm Hw Hsort Hok) as Hok'.
  pose proof (fw_allow_params s now t) as [Em Ew].
  assert (StronglySorted Z.le calls.*1 ∧ Forall (Z.le now) calls.*1) as [Hs Hle]
    by by apply StronglySorted_inv in Hsort.
  specialize (IH (fw_allow s now t).2). rewrite Em, Ew in IH.
  specialize (IH Hm Hw Hs Hok'). simpl.
  pose proof (fw_allow_denied_result s now t Hm) as Hden.
  destruct (fw_allow s now t) as [[ok n] s1] eqn:E; simpl in *.
  destruct (run_calls s1 calls) as [rs s2] eqn:Er; simpl in *.
  destruct ok; [|destruct Hden as [-> _]; [done|]; rewrite andb_false_r; lia].
  destruct (Z.le_gt_cases (fw_max s)
    (slot_count (fw_slot s (tenant_key t)) (now / fw_window s))).
  { by rewrite fw_denied in E by lia. }
  destruct (fw_admitted s now t) as (_ & Hk & Hother & _ & _); [lia..|].
  rewrite E in Hk, Hother; simpl in *. rewrite andb_true_r.
  destruct (decide (tenant_key t = k)) as [<-|Hne]; last first.
  { rewrite bool_decide_false by naive_solver. rewrite Hother in IH by done. lia. }
  destruct (decide (now / fw_window s = w)) as [<-|Hnw].
  { rewrite bool_decide_true by done. rewrite Hk in IH. simpl in IH.
    rewrite Z.eqb_refl in IH. lia. }
  rewrite bool_decide_false by naive_solver.
  destruct (fw_slot s (tenant_key t)) as [[w0 c0]|] eqn:Es; simpl in *; last first.
  { pose proof (slot_count_bounds s1 (tenant_key t) calls w ltac:(lia) Hok'). lia. }
  pose proof (slot_count_bounds s1 (tenant_key t) calls w ltac:(lia) Hok').
  destruct (Z.eqb_spec w0 w) as [->|]; [|lia].
  destruct (Hok _ _ Es) as [Hc Hf]. apply Forall_cons in Hf as [Hf _]. simpl in Hf.
  rewrite admitted_other_window; [lia|].
  eapply Forall_impl; [exact Hle|]. simpl. intros t' Ht.
  apply Z.div_le_mono with (c := fw_window s) in Ht; lia.
Qed.

End limiter_runs.

(** Two limiters with the same parameters and the same slots answer every
    sequence of calls alike. *)
Lemma run_calls_agree {S1 S2} `{!FixedWindow S1, !FixedWindow S2} calls (s1 : S1) (s2 : S2) :
  fw_max s1 = fw_max s2 → fw_window s1 = fw_window s2 →
  (∀ k, fw_slot s1 k = fw_slot s2 k) →
  (run_calls s1 calls).1 = (run_calls s2 calls).1.
Proof.
  revert s1 s2. induction calls as [|[now t] calls IH]; intros s1 s2 Hm Hw Hs; [done|].
  assert ((fw_allow s1 now t).1 = (fw_allow s2 now t).1 ∧
          ∀ k, fw_slot (fw_allow s1 now t).2 k = fw_slot (fw_allow s2 now t).2 k) as [Hr Hs'].
  { destruct (Z.le_gt_cases (fw_max s1) 0).
    { by rewrite !fw_unlimited by lia. }
    destruct (Z.le_gt_cases (fw_max s1)
      (slot_count (fw_slot s1 (tenant_key t)) (now / fw_window s1))).
    { rewrite !fw_denied by (rewrite <- ?Hm, <- ?Hw, <- ?Hs; lia). by rewrite Hw. }
    destruct (fw_admitted s1 now t) as (-> & Hk1 & Ho1 & _ & _); [lia..|].
    destruct (fw_admitted s2 now t) as (-> & Hk2 & Ho2 & _ & _);
      [rewrite <- ?Hm, <- ?Hw, <- ?Hs; lia..|].
    split; [by rewrite Hm, Hw, Hs|]. intros k.
    destruct (decide (k = tenant_key t)) as [->|];
      [by rewrite Hk1, Hk2, Hw, Hs|by rewrite Ho1, Ho2 by done]. }
  pose proof (fw_allow_params s1 now t) as [Em1 Ew1].
  pose proof (fw_allow_params s2 now t) as [Em2 Ew2].
  specialize (IH (fw_allow s1 now t).2 (fw_allow s2 now t).2).
  rewrite Em1, Em2, Ew1, Ew2 in IH. specialize (IH Hm Hw Hs'). simpl.
  destruct (fw_allow s1 now t) as [r1 s1'], (fw_allow s2 now t) as [r2 s2']; simpl in *.
  destruct (run_calls s1' calls), (run_calls s2' calls); simpl in *. by subst.
Qed.

(** Whatever the requests, made at non-decreasing times, neither limiter
    admits more than [max_requests] requests of one tenant key within one window
    of [window_seconds]. *)
Theorem rate_limit_admission_bound max_req win lid calls k w :
  0 < max_req →
  StronglySorted Z.le calls.*1 →
  admitted (Z.max win 1) k w calls (run_calls (RateLimiter.init max_req win) calls).1 ≤ max_req ∧
  admitted (Z.max win 1) k w calls (run_calls (SqliteRateLimiter.init max_req win lid) calls).1 ≤ max_req.
Proof.
  intros Hm Hs. split.
  - pose proof (admitted_bound_from (RateLimiter.init max_req win) k w calls) as H. simpl in H.
    rewrite lookup_empty, Z.max_l in H by lia. simpl in H. rewrite Z.sub_0_r in H.
    apply H; [lia|lia|done|]. intros w' c. simpl. by rewrite lookup_empty.
  - pose proof (admitted_bound_from (SqliteRateLimiter.init max_req win lid) k w calls) as H.
    simpl in H. unfold SqliteRateLimiter.slot in H at 1. simpl in H.
    rewrite lookup_empty, Z.max_l in H by lia. simpl in H. rewrite Z.sub_0_r in H.
    apply H; [lia|lia|done|]. intros w' c. simpl.
    unfold SqliteRateLimiter.slot; simpl. by rewrite lookup_empty.
Qed.

Lemma rate_limit_admission_bound_witness :
  admitted 60 "acme" 1 [(61, "acme"); (62, " acme "); (70, "acme")]
    (run_calls (RateLimiter.init 2 60) [(61, "acme"); (62, " acme "); (70, "acme")]).1 = 2 ∧
  admitted 60 "acme" 1 [(61, "acme"); (62, " acme "); (70, "acme")]
    (run_calls (RateLimiter.init 2 60) [(61, "acme"); (62, " acme "); (70, "acme")]).1 ≤ 2.
Proof.
  split; [vm_compute; reflexivity|].
  apply (rate_limit_admission_bound 2 60 "default" _ "acme" 1); [lia|].
  solve_sorted.
Defined.

(** The SQLite-backed limiter answers every sequence of requests exactly as
    the in-memory limiter configured with the same limits. *)
Theorem sqlite_limiter_refines_memory max_req win lid calls :
  (run_calls (SqliteRateLimiter.init max_req win lid) calls).1 =
  (run_calls (RateLimiter.init max_req win) calls).1.
Proof.
  apply run_calls_agree; [done|done|]. intros k. simpl.
  unfold SqliteRateLimiter.slot; simpl. by rewrite !lookup_empty.
Qed.
