(* ===== verification/Resilience.v ===== *)
(** * Resilience: circuit breaker, dead-letter queue, retry delays

    Models src/resilience/circuit_breaker.py, dlq.py and retry_policy.py. *)

From S2P Require Import Prelude.

(** ** src/resilience/circuit_breaker.py *)
Module CircuitBreaker.

Record CircuitState := mkCircuitState { failures : Z; is_open : bool }.

Record CircuitBreaker := mkCircuitBreaker {
  failure_threshold : Z;
  states : gmap string CircuitState;
}.

Definition init (threshold : Z) : CircuitBreaker :=
  mkCircuitBreaker (Z.max 1 threshold) ∅.

Definition allow (b : CircuitBreaker) (key : string) : bool :=
  match states b !! key with
  | None => true
  | Some st => negb (is_open st)
  end.

Definition record_success (b : CircuitBreaker) (key : string) : CircuitBreaker :=
  mkCircuitBreaker (failure_threshold b) (<[key := mkCircuitState 0 false]> (states b)).

Definition record_failure (b : CircuitBreaker) (key : string) : CircuitBreaker :=
  let st := default (mkCircuitState 0 false) (states b !! key) in
  let n := failures st + 1 in
  mkCircuitBreaker (failure_threshold b)
    (<[key := mkCircuitState n (if failure_threshold b <=? n then true else is_open st)]>
       (states b)).

(** A history of outcomes, most recent last. *)
Inductive outcome := Success (key : string) | Failure (key : string).

Definition apply_outcome (b : CircuitBreaker) (o : outcome) : CircuitBreaker :=
  match o with
  | Success k => record_success b k
  | Failure k => record_failure b k
  end.

Definition replay (b : CircuitBreaker) (h : list outcome) : CircuitBreaker :=
  foldl apply_outcome b h.

(** The failures of [k] since its last success. *)
Definition trailing_step (k : string) (n : Z) (o : outcome) : Z :=
  match o with
  | Success k' => if decide (k' = k) then 0 else n
  | Failure k' => if decide (k' = k) then n + 1 else n
  end.

Definition trailing_failures (k : string) (h : list outcome) : Z :=
  foldl (trailing_step k) 0 h.

(** The state of one key agrees with a count of trailing failures. *)
Definition key_agrees (b : CircuitBreaker) (k : string) (n : Z) : Prop :=
  match states b !! k with
  | None => n = 0
  | Some st => failures st = n ∧ is_open st = bool_decide (failure_threshold b ≤ n)
  end.

Lemma key_agrees_step b k n o :
  1 ≤ failure_threshold b → 0 ≤ n → key_agrees b k n →
  key_agrees (apply_outcome b o) k (trailing_step k n o) ∧ 0 ≤ trailing_step k n o.
Proof.
  intros Ht Hn Ha. destruct o as [k'|k']; simpl; destruct (decide (k' = k)) as [->|Hne];
    unfold key_agrees in *; simpl; rewrite ?lookup_insert_eq, ?lookup_insert_ne by done; simpl.
  - rewrite bool_decide_false by lia. done.
  - done.
  - destruct (states b !! k) as [st|]; simpl in *.
    + destruct Ha as [-> Ho]. split; [|lia]. split; [done|].
      rewrite Ho. destruct (Z.leb_spec (failure_threshold b) (n + 1)).
      * by rewrite bool_decide_true by lia.
      * by rewrite !bool_decide_false by lia.
    + subst n. split; [|lia]. split; [done|].
      destruct (Z.leb_spec (failure_threshold b) (0 + 1)).
      * by rewrite bool_decide_true by lia.
      * by rewrite bool_decide_false by lia.
  - done.
Qed.

Lemma replay_agrees b k n h :
  1 ≤ failure_threshold b → 0 ≤ n → key_agrees b k n →
  key_agrees (replay b h) k (foldl (trailing_step k) n h) ∧
  failure_threshold (replay b h) = failure_threshold b.
Proof.
  revert b n. induction h as [|o h IH]; intros b n Ht Hn Ha; [done|]. simpl.
  destruct (key_agrees_step b k n o Ht Hn Ha) as [Ha' Hn'].
  assert (failure_threshold (apply_outcome b o) = failure_threshold b) as Et
    by by destruct o.
  destruct (IH (apply_outcome b o) (trailing_step k n o)) as [H1 H2]; [lia|done|done|].
  split; [done|]. by rewrite <- Et.
Qed.

(** After any history of successes and failures, a key is allowed exactly
    when it has fewer failures since its last success than the threshold
    (taken as at least 1); other keys' outcomes do not count. *)
Theorem breaker_open_iff_trailing_failures threshold h k :
  allow (replay (init threshold) h) k =
  bool_decide (trailing_failures k h < Z.max 1 threshold).
Proof.
  destruct (replay_agrees (init threshold) k 0 h) as [Ha Ht]; [simpl; lia|lia| |].
  { unfold key_agrees. simpl. by rewrite lookup_empty. }
  unfold key_agrees, allow, trailing_failures in *.
  destruct (states _ !! k) as [st|].
  - destruct Ha as [_ ->]. rewrite Ht. simpl failure_threshold.
    repeat case_bool_decide; simpl; try done; lia.
  - rewrite Ha. by rewrite bool_decide_true by lia.
Qed.

End CircuitBreaker.

(** ** src/resilience/dlq.py *)
Module Dlq.

Section dlq.
Context {Payload : Type}.

Record DlqRecord := mkDlqRecord {
  correlation_id : string;
  reason_code : string;
  payload : Payload;
}.

Definition DeadLetterQueue : Type := list DlqRecord.
Definition push (q : DeadLetterQueue) (r : DlqRecord) : DeadLetterQueue := q ++ [r].
Definition list_records (q : DeadLetterQueue) : list DlqRecord := q.
End dlq.

End Dlq.

(** ** src/resilience/retry_policy.py *)
Module RetryPolicy.

Record RetryPolicy := mkRetryPolicy { base_delay_ms : Z; max_delay_ms : Z }.

Definition default_policy : RetryPolicy := mkRetryPolicy 50 1000.

(** [delay_seconds], before its final division by 1000. *)
Definition delay_ms (p : RetryPolicy) (attempt : Z) : Z :=
  let attempt := Z.max 1 attempt in
  Z.min (base_delay_ms p * 2 ^ (attempt - 1)) (max_delay_ms p).

(** Retry delays never exceed the configured maximum, never go below
    zero, grow with the attempt number, and double from one attempt to the
    next until the maximum is reached. *)
Theorem retry_delay_bounded_backoff p a b :
  0 ≤ base_delay_ms p → 0 ≤ max_delay_ms p → a ≤ b →
  0 ≤ delay_ms p a ≤ max_delay_ms p ∧
  delay_ms p a ≤ delay_ms p b ∧
  (1 ≤ a → delay_ms p (a + 1) = Z.min (2 * delay_ms p a) (max_delay_ms p)).
Proof.
  intros Hb Hm Hab. unfold delay_ms.
  assert (∀ n, 0 ≤ n → 0 ≤ base_delay_ms p * 2 ^ n) as Hpos.
  { intros n Hn. apply Z.mul_nonneg_nonneg; [done|]. apply Z.pow_nonneg. lia. }
  split; [|split].
  - specialize (Hpos (Z.max 1 a - 1) ltac:(lia)). lia.
  - assert (2 ^ (Z.max 1 a - 1) ≤ 2 ^ (Z.max 1 b - 1)) by (apply Z.pow_le_mono_r; lia).
    assert (base_delay_ms p * 2 ^ (Z.max 1 a - 1) ≤ base_delay_ms p * 2 ^ (Z.max 1 b - 1))
      by (by apply Z.mul_le_mono_nonneg_l).
    lia.
  - intros Ha. replace (Z.max 1 (a + 1) - 1) with (Z.succ (a - 1)) by lia.
    replace (Z.max 1 a - 1) with (a - 1) by lia.
    rewrite Z.pow_succ_r by lia. specialize (Hpos (a - 1) ltac:(lia)). lia.
Qed.

Lemma retry_delay_bounded_backoff_witness :
  delay_ms default_policy 5 = 800 ∧ delay_ms default_policy 6 = 1000 ∧
  0 ≤ delay_ms default_policy 5 ≤ 1000 ∧
  delay_ms default_policy 5 ≤ delay_ms default_policy 6 ∧
  (1 ≤ 5 → delay_ms default_policy 6 = Z.min (2 * delay_ms default_policy 5) 1000).
Proof.
  split; [reflexivity|]. split; [reflexivity|].
  apply (retry_delay_bounded_backoff default_policy 5 6); [simpl; lia..|lia].
Defined.

End RetryPolicy.
