(* ===== verification/ToolIO.v ===== *)
(** * The interface of the contracts package

    src/schemas/tool_io.py and src/schemas/events.py re-export the types of a package
    outside the repository: the actions of a policy, risk tiers, execution modes, tool
    calls, policy decisions, tool results and runtime events.  The classes below say
    what the modelled code relies on: which attributes it reads, which values it builds
    with which arguments, and that a value built with an argument has it as its
    attribute.  Components that handle these values are proved against the classes;
    Module Sample is an instance, for examples. *)

From S2P Require Import Prelude PyValue.

(** [PolicyAction] *)
Class PolicyActions (A : Type) := {
  ALLOW : A;
  DENY : A;
  ESCALATE : A;
  action_value : A → string;
  policy_action_eq_dec :: EqDecision A;
  allow_not_deny : ALLOW ≠ DENY;
  allow_not_escalate : ALLOW ≠ ESCALATE;
  deny_not_escalate : DENY ≠ ESCALATE;
}.

(** [RiskTier]: an enum of strings; [RiskTier_of] is the call [RiskTier(s)], None when
    it raises ValueError. *)
Class RiskTiers (R : Type) := {
  LOW : R;
  HIGH : R;
  CRITICAL : R;
  risk_value : R → string;
  RiskTier_of : string → option R;
  risk_tier_eq_dec :: EqDecision R;
  RiskTier_of_value s r : RiskTier_of s = Some r ↔ risk_value r = s;
}.

(** The calls, decisions and results of tools.  An argument that the code leaves out is
    None. *)
Class ToolIO := {
  PolicyAction : Type;
  tool_actions :: PolicyActions PolicyAction;
  RiskTier : Type;
  tool_risks :: RiskTiers RiskTier;
  ToolExecutionMode : Type;
  DETERMINISTIC : ToolExecutionMode;
  PROVIDER_NATIVE : ToolExecutionMode;
  mode_eq_dec :: EqDecision ToolExecutionMode;
  native_not_deterministic : PROVIDER_NATIVE ≠ DETERMINISTIC;
  ToolStatus : Type;
  SUCCESS : ToolStatus;
  ERROR : ToolStatus;
  TIMEOUT : ToolStatus;
  CANCELLED : ToolStatus;
  BLOCKED : ToolStatus;
  status_value : ToolStatus → string;
  status_eq_dec :: EqDecision ToolStatus;
  error_not_success : ERROR ≠ SUCCESS;
  blocked_not_success : BLOCKED ≠ SUCCESS;

  ToolCallContext : Type;
  tc_schema_version : ToolCallContext → string;
  tc_call_id : ToolCallContext → string;
  tc_tool_name : ToolCallContext → string;
  tc_arguments : ToolCallContext → pyval;
  tc_risk_tier : ToolCallContext → RiskTier;
  tc_is_state_changing : ToolCallContext → bool;
  tc_requested_mode : ToolCallContext → option ToolExecutionMode;
  tc_identity_subject : ToolCallContext → string;
  tc_identity_roles : ToolCallContext → list string;
  tc_tenant_id : ToolCallContext → string;
  tc_identity_tenant_id : ToolCallContext → string;
  tc_plugin_scope : ToolCallContext → string;

  PolicyAudit : Type;
  new_policy_audit (policy_id policy_version correlation_id : string) : PolicyAudit;
  PolicyDecision : Type;
  new_decision (schema_version : string) (decision : PolicyAction) (reason_code message : string)
    (enforced_mode : option ToolExecutionMode) (review_required : bool)
    (review_channel : option string) (audit : PolicyAudit) : PolicyDecision;
  pd_decision : PolicyDecision → PolicyAction;
  pd_reason_code : PolicyDecision → string;
  pd_message : PolicyDecision → string;
  pd_enforced_mode : PolicyDecision → option ToolExecutionMode;
  pd_review_required : PolicyDecision → bool;
  pd_review_channel : PolicyDecision → option string;
  pd_new v d r m e rr rc a :
    let x := new_decision v d r m e rr rc a in
    pd_decision x = d ∧ pd_reason_code x = r ∧ pd_message x = m ∧ pd_enforced_mode x = e ∧
    pd_review_required x = rr ∧ pd_review_channel x = rc;

  ExecutionMetadata : Type;
  new_execution (mode_used : ToolExecutionMode) (started_at_utc finished_at_utc : option string)
    (timeout_ms : option Z) : ExecutionMetadata;
  mode_used : ExecutionMetadata → ToolExecutionMode;
  mode_used_new m s f t : mode_used (new_execution m s f t) = m;
  ToolAudit : Type;
  new_audit (correlation_id : string) (decision_reason_code : option string) : ToolAudit;
  correlation_id : ToolAudit → string;
  correlation_id_new c d : correlation_id (new_audit c d) = c;
  NormalizedError : Type;
  new_error (code category message : string) (retryable : bool) : NormalizedError;
  error_code : NormalizedError → string;
  error_code_new c k m r : error_code (new_error c k m r) = c;

  ToolResult : Type;
  new_result (schema_version call_id tool_name : string) (status : ToolStatus)
    (result : option pyval) (error : option NormalizedError) (execution : ExecutionMetadata)
    (audit : option ToolAudit) : ToolResult;
  tr_schema_version : ToolResult → string;
  tr_call_id : ToolResult → string;
  tr_tool_name : ToolResult → string;
  tr_status : ToolResult → ToolStatus;
  tr_result : ToolResult → option pyval;
  tr_error : ToolResult → NormalizedError;
  tr_execution : ToolResult → ExecutionMetadata;
  tr_audit : ToolResult → option ToolAudit;
  tr_new v c t s r e x a :
    let y := new_result v c t s r e x a in
    tr_status y = s ∧ tr_execution y = x ∧ tr_audit y = a ∧ tr_call_id y = c ∧ tr_tool_name y = t;
  tr_new_result v c t s r e x a : tr_result (new_result v c t s (Some r) e x a) = Some r;
  tr_new_error v c t s r e x a : tr_error (new_result v c t s r (Some e) x a) = e;
  (** [result.result[...] = ...]: the payload is a dictionary of the result *)
  with_payload : ToolResult → pyval → ToolResult;
  with_payload_result y r : tr_result (with_payload y r) = Some r;
  with_payload_rest y r :
    tr_status (with_payload y r) = tr_status y ∧ tr_execution (with_payload y r) = tr_execution y ∧
    tr_audit (with_payload y r) = tr_audit y ∧ tr_error (with_payload y r) = tr_error y;
  blocked_result (context : ToolCallContext) (reason_code message : string) : ToolResult;
  blocked_result_status c r m : tr_status (blocked_result c r m) = BLOCKED;
  blocked_result_code c r m : error_code (tr_error (blocked_result c r m)) = "POLICY_BLOCKED";
}.

(** [tool_call.is_state_changing or tool_call.risk_tier in {HIGH, CRITICAL}] *)
Definition high_impact `{ToolIO} (c : ToolCallContext) : bool :=
  bool_decide (tc_risk_tier c = HIGH ∨ tc_risk_tier c = CRITICAL).

Definition impactful `{ToolIO} (c : ToolCallContext) : bool :=
  tc_is_state_changing c || high_impact c.

(** What the hosted runtimes use besides: two more attributes of a call, an error with details, the
    empty error, and execution metadata with a duration. *)
Class ToolDetails `{!ToolIO} := {
  tc_run_id : ToolCallContext → string;
  tc_provider_id : ToolCallContext → string;
  new_detailed_error (code category message : string) (retryable : bool) (details : pydict) : NormalizedError;
  detailed_error_code c k m r d : error_code (new_detailed_error c k m r d) = c;
  no_error : NormalizedError;
  no_error_code : error_code no_error = "";
  new_timed_execution (mode : ToolExecutionMode) (started_at_utc finished_at_utc : string)
    (duration_ms timeout_ms : Z) : ExecutionMetadata;
  timed_mode m s f d t : mode_used (new_timed_execution m s f d t) = m;
  timeout_not_success : TIMEOUT ≠ SUCCESS;
  cancelled_not_success : CANCELLED ≠ SUCCESS;
}.

(** The readings of both clocks at the start and at the end of an execution: the time, and the
    performance counter in microseconds. *)
Record timing := mkTiming {
  tm_started : string;
  tm_started_counter : Z;
  tm_finished : string;
  tm_finished_counter : Z;
}.

(** [int((perf_counter() - started_clock) * 1000)] *)
Definition duration_ms (t : timing) : Z := (tm_finished_counter t - tm_started_counter t) `quot` 1000.

Definition timed `{!ToolIO} `{!ToolDetails} (t : timing) (timeout_ms : Z) : ExecutionMetadata :=
  new_timed_execution DETERMINISTIC (tm_started t) (tm_finished t) (duration_ms t) timeout_ms.

(** [RuntimeEvent], with the arguments of the factories the orchestrator calls. *)
Record progress := mkProgress {
  pg_call_id : string;
  pg_tool_name : string;
  pg_state : string;
  pg_tool_status : string;
  pg_error_code : string;
  pg_job_id : string;
  pg_lease_token : string;
  pg_lease_expires_at_epoch : string;
  pg_claim_attempt : string;
}.

Class RuntimeEvents `{ToolIO} := {
  RuntimeEvent : Type;
  is_tool_intent : RuntimeEvent → bool;
  is_output : RuntimeEvent → bool;
  ev_tool_call : RuntimeEvent → option ToolCallContext;
  ev_run_id : RuntimeEvent → string;
  ev_correlation_id : RuntimeEvent → string;
  ev_payload : RuntimeEvent → pydict;
  set_payload : RuntimeEvent → pydict → RuntimeEvent;
  tool_progress (session_id run_id : string) (p : progress) (correlation_id : string) : RuntimeEvent;
  error_event (session_id run_id code message correlation_id : string) : RuntimeEvent;
  intent_not_output e : is_tool_intent e = true → is_output e = false;
  progress_no_intent s r p c : is_tool_intent (tool_progress s r p c) = false;
  error_no_intent s r c m k : is_tool_intent (error_event s r c m k) = false;
  set_payload_intent e p : is_tool_intent (set_payload e p) = is_tool_intent e;
}.
