(* ===== verification/Sample.v ===== *)
(** * An instance of the contracts interface

    The classes of ToolIO.v with plain records, so that the theorems proved against the
    interface can be applied to concrete calls: an enum is an inductive type, a record its
    arguments. *)

From S2P Require Import Prelude PyValue ToolIO.

Module Sample.

Inductive action := Allow | Deny | Escalate.
Inductive tier := Low | Medium | High | Critical.
Inductive mode := Deterministic | ProviderNative.
Inductive status := Success | Error | Timeout | Cancelled | Blocked.

#[export] Instance action_eq_dec : EqDecision action.
Proof. solve_decision. Defined.
#[export] Instance tier_eq_dec : EqDecision tier.
Proof. solve_decision. Defined.
#[export] Instance mode_eq_dec : EqDecision mode.
Proof. solve_decision. Defined.
#[export] Instance status_eq_dec : EqDecision status.
Proof. solve_decision. Defined.

#[export] Program Instance actions : PolicyActions action := {|
  ALLOW := Allow;
  DENY := Deny;
  ESCALATE := Escalate;
  action_value a := match a with Allow => "allow" | Deny => "deny" | Escalate => "escalate" end;
|}.
Solve All Obligations with done.

Definition tier_name (r : tier) : string :=
  match r with Low => "low" | Medium => "medium" | High => "high" | Critical => "critical" end.

#[export] Program Instance risks : RiskTiers tier := {|
  LOW := Low;
  HIGH := High;
  CRITICAL := Critical;
  risk_value := tier_name;
  RiskTier_of s := List.find (λ r, tier_name r =?s s) [Low; Medium; High; Critical];
|}.
Next Obligation.
  intros s r. split.
  - intros H. apply find_some in H as [_ H]. by apply bool_decide_eq_true in H.
  - intros <-. by destruct r.
Qed.

Record call := mkCall {
  k_schema_version : string;
  k_call_id : string;
  k_tool_name : string;
  k_arguments : pyval;
  k_risk_tier : tier;
  k_is_state_changing : bool;
  k_requested_mode : option mode;
  k_identity_subject : string;
  k_identity_roles : list string;
  k_tenant_id : string;
  k_identity_tenant_id : string;
  k_plugin_scope : string;
}.

Record policy_decision := mkDecision {
  p_decision : action;
  p_reason_code : string;
  p_message : string;
  p_enforced_mode : option mode;
  p_review_required : bool;
  p_review_channel : option string;
}.

Record result := mkResult {
  r_schema_version : string;
  r_call_id : string;
  r_tool_name : string;
  r_status : status;
  r_result : option pyval;
  r_error : string;
  r_mode : mode;
  r_audit : option string;
}.

#[export] Program Instance io : ToolIO := {|
  PolicyAction := action;
  RiskTier := tier;
  ToolExecutionMode := mode;
  DETERMINISTIC := Deterministic;
  PROVIDER_NATIVE := ProviderNative;
  ToolStatus := status;
  SUCCESS := Success;
  ERROR := Error;
  TIMEOUT := Timeout;
  CANCELLED := Cancelled;
  BLOCKED := Blocked;
  status_value s :=
    match s with
    | Success => "success" | Error => "error" | Timeout => "timeout"
    | Cancelled => "cancelled" | Blocked => "blocked"
    end;
  ToolCallContext := call;
  tc_schema_version := k_schema_version;
  tc_call_id := k_call_id;
  tc_tool_name := k_tool_name;
  tc_arguments := k_arguments;
  tc_risk_tier := k_risk_tier;
  tc_is_state_changing := k_is_state_changing;
  tc_requested_mode := k_requested_mode;
  tc_identity_subject := k_identity_subject;
  tc_identity_roles := k_identity_roles;
  tc_tenant_id := k_tenant_id;
  tc_identity_tenant_id := k_identity_tenant_id;
  tc_plugin_scope := k_plugin_scope;
  PolicyAudit := string;
  new_policy_audit _ _ c := c;
  PolicyDecision := policy_decision;
  new_decision _ d r m e rr rc _ := mkDecision d r m e rr rc;
  pd_decision := p_decision;
  pd_reason_code := p_reason_code;
  pd_message := p_message;
  pd_enforced_mode := p_enforced_mode;
  pd_review_required := p_review_required;
  pd_review_channel := p_review_channel;
  ExecutionMetadata := mode;
  new_execution m _ _ _ := m;
  mode_used m := m;
  ToolAudit := string;
  new_audit c _ := c;
  correlation_id c := c;
  NormalizedError := string;
  new_error c _ _ _ := c;
  error_code c := c;
  ToolResult := result;
  new_result v c t s r e x a := mkResult v c t s r (default "" e) x a;
  tr_schema_version := r_schema_version;
  tr_call_id := r_call_id;
  tr_tool_name := r_tool_name;
  tr_status := r_status;
  tr_result := r_result;
  tr_error := r_error;
  tr_execution := r_mode;
  tr_audit := r_audit;
  with_payload y r :=
    mkResult (r_schema_version y) (r_call_id y) (r_tool_name y) (r_status y) (Some r) (r_error y)
      (r_mode y) (r_audit y);
  blocked_result c r m :=
    mkResult "1.0" (k_call_id c) (k_tool_name c) Blocked None "POLICY_BLOCKED" Deterministic
      (Some (k_call_id c));
|}.
Solve All Obligations with done.

#[export] Program Instance details : ToolDetails := {|
  tc_run_id _ := "r1";
  tc_provider_id _ := "openai";
  new_detailed_error c _ _ _ _ := c;
  no_error := "";
  new_timed_execution m _ _ _ _ := m;
|}.
Solve All Obligations with done.

(** A read-only call of a low-risk tool. *)
Definition low_call (tool tenant : string) : call :=
  mkCall "1.0" "c1" tool (PDict []) Low false None "bob" ["dev"] tenant tenant "".

Inductive event :=
| Output (payload : pydict)
| Intent (run_id : string) (c : call)
| Progress (p : progress)
| Failure (code message : string)
| Complete (run_id : string) (payload : pydict).

Definition event_is_intent (e : event) : bool :=
  match e with Intent _ _ => true | _ => false end.

Definition event_is_output (e : event) : bool :=
  match e with Output _ | Complete _ _ => true | _ => false end.

Definition event_call (e : event) : option call :=
  match e with Intent _ c => Some c | _ => None end.

Definition event_run (e : event) : string :=
  match e with Intent r _ | Complete r _ => r | _ => "" end.

Definition event_payload (e : event) : pydict :=
  match e with
  | Output p | Complete _ p => p
  | Failure c m => [("code", PStr c); ("message", PStr m)]
  | Progress p => [("call_id", PStr (pg_call_id p)); ("state", PStr (pg_state p))]
  | Intent _ _ => []
  end.

Definition event_with_payload (e : event) (p : pydict) : event :=
  match e with Output _ => Output p | Complete r _ => Complete r p | _ => e end.

#[export] Program Instance events : RuntimeEvents := {|
  RuntimeEvent := event;
  is_tool_intent := event_is_intent;
  is_output := event_is_output;
  ev_tool_call := event_call;
  ev_run_id := event_run;
  ev_correlation_id _ := "";
  ev_payload := event_payload;
  set_payload := event_with_payload;
  tool_progress _ _ p _ := Progress p;
  error_event _ _ c m _ := Failure c m;
|}.
Next Obligation. by intros []. Qed.
Next Obligation. done. Qed.
Next Obligation. done. Qed.
Next Obligation. by intros []. Qed.

End Sample.
