(* ===== verification/AccessControl.v ===== *)
(** * Access control

    Models src/access_control/contracts.py, rbac.py and policy_engine.py: the roles of
    an identity are resolved to permissions, which decide whether a tool call is
    allowed, denied or sent to review.  The actions are those of the contracts package
    ([PolicyActions] of ToolIO.v). *)

From S2P Require Import Prelude.
From S2P Require Export ToolIO.

(** ** src/access_control/contracts.py *)

Record AccessRequest := mkAccessRequest {
  ar_subject : string;
  ar_roles : list string;
  ar_tool_name : string;
  ar_is_state_changing : bool;
  ar_is_high_impact : bool;
  ar_request_tenant_id : string;
  ar_identity_tenant_id : string;
  ar_plugin_scope : string;
}.

Record AccessDecision {A : Type} := mkAccessDecision {
  ad_decision : A;
  ad_reason_code : string;
  ad_message : string;
  ad_review_required : bool;
  ad_review_channel : option string;
  ad_metadata : list (string * string);
}.
Arguments AccessDecision A : clear implicits.
Arguments mkAccessDecision {A}.

(** ** src/access_control/rbac.py *)

Definition aggregate_permissions (roles : list string)
    (role_permissions : gmap string (gset string)) : gset string :=
  foldl (λ permissions role, permissions ∪ default ∅ (role_permissions !! role)) ∅ roles.

(** ** src/access_control/policy_engine.py *)

Record AccessControlConfig := mkAccessConfig {
  role_permissions : gmap string (gset string);
  ac_review_channel : string;
  audit_only_mode : bool;
  cross_tenant_permission : string;
}.

Definition default_access_config : AccessControlConfig :=
  mkAccessConfig
    (<["reader" := {["tool:execute"]}]>
       (<["operator" := {["tool:execute"; "tool:execute:high_impact"]}]>
          (<["admin" := {["*"]}]> ∅)))
    "security-review" false "tenant:cross_scope".

Section engine.
Context {A : Type} `{!PolicyActions A}.

Definition finalize (c : AccessControlConfig) (d : AccessDecision A) : AccessDecision A :=
  if negb (audit_only_mode c) then d
  else if decide (ad_decision d = ALLOW) then d
  else
    mkAccessDecision ALLOW "ACCESS_AUDIT_ONLY_BYPASS"
      ("Audit-only mode bypassed '" +:+ ad_reason_code d +:+ "'.") false None
      (od_set "audit_only_original_decision" (action_value (ad_decision d)) (ad_metadata d)).

Definition access (d : A) (reason message : string) : AccessDecision A :=
  mkAccessDecision d reason message false None [].

Definition evaluate (c : AccessControlConfig) (r : AccessRequest) : AccessDecision A :=
  if negb (py_bool (ar_subject r)) then
    finalize c (access DENY "ACCESS_IDENTITY_MISSING"
      "Identity subject is required for access control enforcement.")
  else
    let permissions := aggregate_permissions (ar_roles r) (role_permissions c) in
    let request_tenant := py_strip (ar_request_tenant_id r) in
    let identity_tenant := py_strip (ar_identity_tenant_id r) in
    let cross_scope_allowed :=
      bool_decide ("*" ∈ permissions) || bool_decide (cross_tenant_permission c ∈ permissions) in
    if py_bool request_tenant && py_bool identity_tenant
       && negb (request_tenant =?s identity_tenant) && negb cross_scope_allowed then
      finalize c (access DENY "ACCESS_DENIED_TENANT_SCOPE"
        "Identity tenant scope does not match request tenant scope.")
    else if bool_decide ("*" ∈ permissions) then
      finalize c (access ALLOW "ACCESS_ALLOWED_ADMIN"
        "Access allowed via wildcard administrative permission.")
    else
      let high := ar_is_state_changing r || ar_is_high_impact r in
      let required_permissions : gset string :=
        if high then {["tool:execute:high_impact"; "tool:execute"]} else {["tool:execute"]} in
      if high && negb (bool_decide ("tool:execute:high_impact" ∈ permissions)) then
        finalize c (mkAccessDecision ESCALATE "ACCESS_REVIEW_REQUIRED_HIGH_IMPACT"
          "High-impact operation requires elevated entitlement or review." true
          (Some (ac_review_channel c)) [])
      else if bool_decide ("tool:" +:+ ar_tool_name r ∈ permissions) then
        finalize c (access ALLOW "ACCESS_ALLOWED_TOOL_SCOPE"
          "Access allowed via tool-scoped permission.")
      else
        let plugin_permission := "plugin:" +:+ ar_plugin_scope r +:+ ":execute" in
        if py_bool (ar_plugin_scope r) && negb (bool_decide (plugin_permission ∈ permissions)) then
          finalize c (access DENY "ACCESS_DENIED_PLUGIN_SCOPE"
            ("Plugin-scoped permission is required for this operation: '"
             +:+ plugin_permission +:+ "'."))
        else if negb (bool_decide (required_permissions ⊆ permissions)) then
          finalize c (access DENY "ACCESS_DENIED_ROLE_MISSING_PERMISSION"
            "Role permissions do not allow this operation.")
        else
          finalize c (access ALLOW "ACCESS_ALLOWED_BASE_PERMISSION"
            "Access allowed via base execution permission.").
End engine.

(** ** What the engine grants *)

Lemma elem_of_aggregate_permissions p roles rp :
  p ∈ aggregate_permissions roles rp ↔ ∃ role s, role ∈ roles ∧ rp !! role = Some s ∧ p ∈ s.
Proof.
  unfold aggregate_permissions.
  assert (∀ acc : gset string, p ∈ foldl (λ ps role, ps ∪ default ∅ (rp !! role)) acc roles ↔
    p ∈ acc ∨ ∃ role s, role ∈ roles ∧ rp !! role = Some s ∧ p ∈ s) as H.
  { induction roles as [|role roles IH]; intros acc; cbn [foldl].
    - split; [by left|]. intros [?|(?&?&[]%elem_of_nil&_)]; done.
    - rewrite IH, elem_of_union. split.
      + intros [[?|Hp]|(r&s&?&?&?)]; [by left| |right; exists r, s; by split_and!; [right| |]].
        right. destruct (rp !! role) as [s|] eqn:E; cbn in Hp; [|by apply elem_of_empty in Hp].
        exists role, s. by split_and!; [left| |].
      + intros [?|(r&s&[->|?]%elem_of_cons&E&?)]; [by do 2 left| |].
        * left; right. by rewrite E.
        * right. by exists r, s. }
  rewrite H. rewrite elem_of_empty. tauto.
Qed.

Section grants.
Context {A : Type} `{!PolicyActions A}.
Implicit Types (c : AccessControlConfig) (r : AccessRequest).

(** The identity's tenant may act on the request's tenant. *)
Definition tenant_in_scope c r (permissions : gset string) : Prop :=
  let request_tenant := py_strip (ar_request_tenant_id r) in
  let identity_tenant := py_strip (ar_identity_tenant_id r) in
  request_tenant = "" ∨ identity_tenant = "" ∨ request_tenant = identity_tenant ∨
  "*" ∈ permissions ∨ cross_tenant_permission c ∈ permissions.

Definition elevated r : bool := ar_is_state_changing r || ar_is_high_impact r.

(** The permissions that allow the call itself. *)
Definition permitted r (permissions : gset string) : Prop :=
  "*" ∈ permissions ∨
  (elevated r = true → "tool:execute:high_impact" ∈ permissions) ∧
  ("tool:" +:+ ar_tool_name r ∈ permissions ∨
   (ar_plugin_scope r = "" ∨ "plugin:" +:+ ar_plugin_scope r +:+ ":execute" ∈ permissions) ∧
   "tool:execute" ∈ permissions).

Lemma finalize_decision c (d : AccessDecision A) :
  ad_decision (finalize c d) = ALLOW ↔ audit_only_mode c = true ∨ ad_decision d = ALLOW.
Proof. unfold finalize. destruct (audit_only_mode c); cbn; [case_decide|]; naive_solver. Qed.

Lemma finalize_enforced c (d : AccessDecision A) : audit_only_mode c = false → finalize c d = d.
Proof. unfold finalize. by intros ->. Qed.

(** What the engine means to decide, before audit-only mode. *)
Inductive verdict := Granted | Refused | Review.

Definition verdict_of (a : A) : option verdict :=
  if decide (a = ALLOW) then Some Granted
  else if decide (a = DENY) then Some Refused
  else if decide (a = ESCALATE) then Some Review
  else None.

Definition verdict_spec c r : verdict → Prop :=
  let permissions := aggregate_permissions (ar_roles r) (role_permissions c) in
  let known := ar_subject r ≠ "" ∧ tenant_in_scope c r permissions in
  let review := "*" ∉ permissions ∧ elevated r = true ∧ "tool:execute:high_impact" ∉ permissions in
  λ v, match v with
  | Granted => known ∧ permitted r permissions
  | Review => known ∧ review
  | Refused => ¬ (known ∧ permitted r permissions) ∧ ¬ (known ∧ review)
  end.

Lemma verdict_spec_unique c r v v' : verdict_spec c r v → verdict_spec c r v' → v = v'.
Proof. destruct v, v'; cbn; unfold permitted; tauto. Qed.

Lemma verdict_of_allow : verdict_of ALLOW = Some Granted.
Proof. unfold verdict_of. by rewrite decide_True. Qed.
Lemma verdict_of_deny : verdict_of DENY = Some Refused.
Proof.
  unfold verdict_of. pose proof allow_not_deny. rewrite decide_False by done. by rewrite decide_True.
Qed.
Lemma verdict_of_escalate : verdict_of ESCALATE = Some Review.
Proof.
  unfold verdict_of. pose proof allow_not_escalate. pose proof deny_not_escalate.
  rewrite !decide_False by done. by rewrite decide_True.
Qed.

Lemma high_required (p : gset string) :
  {["tool:execute:high_impact"; "tool:execute"]} ⊆ p ↔
  "tool:execute:high_impact" ∈ p ∧ "tool:execute" ∈ p.
Proof. set_solver. Qed.
Lemma base_required (p : gset string) : {["tool:execute"]} ⊆ p ↔ "tool:execute" ∈ p.
Proof. set_solver. Qed.

(** The engine without audit-only mode decides what the specification says. *)
Lemma evaluate_spec c r :
  audit_only_mode c = false →
  ∃ v, verdict_of (ad_decision (evaluate c r)) = Some v ∧ verdict_spec c r v.
Proof.
  intros Ha. unfold evaluate, verdict_spec, tenant_in_scope, permitted, elevated, py_bool.
  rewrite !finalize_enforced by done. cbv zeta.
  generalize (aggregate_permissions (ar_roles r) (role_permissions c)); intros perms.
  generalize (ar_is_state_changing r || ar_is_high_impact r); intros high.
  repeat (case_bool_decide; cbn [negb andb orb]); destruct high; cbn [negb andb orb];
    rewrite ?high_required, ?base_required in *;
    (eexists; split; [first [apply verdict_of_allow|apply verdict_of_deny|apply verdict_of_escalate]|]);
    cbn; rewrite ?high_required, ?base_required in *; clear Ha; intuition congruence.
Qed.
Lemma evaluate_audit_only c r :
  audit_only_mode c = true → ad_decision (evaluate c r) = ALLOW.
Proof.
  intros Ha. unfold evaluate. cbv zeta. repeat case_match; apply finalize_decision; by left.
Qed.

Lemma verdict_of_inv a v :
  verdict_of a = Some v →
  a = match v with Granted => ALLOW | Refused => DENY | Review => ESCALATE end.
Proof. unfold verdict_of. repeat case_decide; intros [= <-]; done. Qed.

Definition with_roles r (roles : list string) : AccessRequest :=
  mkAccessRequest (ar_subject r) roles (ar_tool_name r) (ar_is_state_changing r)
    (ar_is_high_impact r) (ar_request_tenant_id r) (ar_identity_tenant_id r) (ar_plugin_scope r).

Lemma granted_iff c r :
  ad_decision (evaluate c r) = ALLOW ↔ audit_only_mode c = true ∨ verdict_spec c r Granted.
Proof.
  destruct (audit_only_mode c) eqn:Ha; [split; [by left|intros _; by apply evaluate_audit_only]|].
  destruct (evaluate_spec c r Ha) as (v & Hv & Hs). apply verdict_of_inv in Hv. split.
  - intros E. right. rewrite E in Hv. pose proof allow_not_deny. pose proof allow_not_escalate.
    by destruct v.
  - intros [?|Hg]; [done|]. by rewrite (verdict_spec_unique _ _ _ _ Hs Hg) in Hv.
Qed.

Lemma review_iff c r :
  audit_only_mode c = false →
  ad_decision (evaluate c r) = ESCALATE ↔ verdict_spec c r Review.
Proof.
  intros Ha. destruct (evaluate_spec c r Ha) as (v & Hv & Hs). apply verdict_of_inv in Hv. split.
  - intros E. rewrite E in Hv. pose proof deny_not_escalate. pose proof allow_not_escalate.
    by destruct v; [congruence|congruence|].
  - intros Hg. by rewrite (verdict_spec_unique _ _ _ _ Hs Hg) in Hv.
Qed.

Lemma more_permissions roles roles' rp :
  roles ⊆ roles' → aggregate_permissions roles rp ⊆ aggregate_permissions roles' rp.
Proof.
  intros Hr p (role & s & ? & ? & ?)%elem_of_aggregate_permissions.
  apply elem_of_aggregate_permissions. exists role, s. by split_and!; [apply Hr| |].
Qed.

(** C5: The engine allows a call exactly when it runs in audit-only mode, or the
    identity has a subject, may act on the request's tenant, and its roles grant the
    wildcard, or the high-impact permission where the call is state changing or high
    impact and then either the permission named after the tool or the base permission
    together with the plugin's.  It sends to review exactly the calls of known
    identities that only lack the high-impact permission, and denies the rest; and
    giving an identity more roles never takes a granted call away. *)
Theorem access_control_correct c r :
  let permissions := aggregate_permissions (ar_roles r) (role_permissions c) in
  let known := ar_subject r ≠ "" ∧ tenant_in_scope c r permissions in
  let d := ad_decision (evaluate c r) in
  (d = ALLOW ↔ audit_only_mode c = true ∨ known ∧ permitted r permissions) ∧
  (audit_only_mode c = false →
   (d = ESCALATE ↔ known ∧ "*" ∉ permissions ∧ elevated r = true ∧
      "tool:execute:high_impact" ∉ permissions) ∧
   (d = ALLOW ∨ d = DENY ∨ d = ESCALATE)) ∧
  (∀ roles', ar_roles r ⊆ roles' → d = ALLOW →
     ad_decision (evaluate c (with_roles r roles')) = ALLOW).
Proof.
  cbv zeta. split; [apply granted_iff|]. split.
  - intros Ha. split; [by apply review_iff|].
    destruct (evaluate_spec c r Ha) as (v & Hv%verdict_of_inv & _). destruct v; auto.
  - intros roles' Hr Hd%granted_iff. apply granted_iff. destruct Hd as [?|(Hk & Hp)]; [by left|].
    right. pose proof (more_permissions _ _ (role_permissions c) Hr) as Hm.
    cbn. unfold tenant_in_scope, permitted, elevated in *. cbn.
    revert Hk Hp. generalize dependent (aggregate_permissions (ar_roles r) (role_permissions c)).
    intros ps Hm. set_unfold. naive_solver.
Qed.

(** A tool called [execute] is covered by the permission named after it, which is the
    base permission: its plugin's permission is not asked for. *)
Lemma tool_named_execute_needs_no_plugin_permission c r :
  audit_only_mode c = false → ar_tool_name r = "execute" → elevated r = false →
  ar_subject r ≠ "" →
  tenant_in_scope c r (aggregate_permissions (ar_roles r) (role_permissions c)) →
  "tool:execute" ∈ aggregate_permissions (ar_roles r) (role_permissions c) →
  ad_decision (evaluate c r) = ALLOW.
Proof.
  intros _ Hn He Hs Ht Hp. apply granted_iff. right. cbn. unfold permitted. rewrite Hn, He. naive_solver.
Qed.
End grants.
