(* ===== verification/RiskGates.v ===== *)
(** * Risk gates, policy middleware and execution mode

    Models src/policies/risk_gates.py, src/policies/middleware.py,
    src/tenancy/policy_overlay.py and src/runtime/mode_selector.py: the decision taken
    before a tool call under the tenant's overlay, the check of every result, and the
    choice between the deterministic executor and the provider.  Calls, decisions and
    results are those of [ToolIO].  A set of risk tiers is a list, of which only
    membership is used; [RiskTier_of] is the call [RiskTier(...)]. *)

From S2P Require Import Prelude PyValue AccessControl.
From S2P Require Export ToolIO.

(** ** src/tenancy/policy_overlay.py *)
Module TenantPolicyOverlayStore.

Notation t := (gmap string pydict).

Definition empty : t := ∅.

Definition set_overlay (s : t) (tenant_id : string) (overlay : pydict) : t :=
  <[tenant_id := overlay]> s.

Definition get_overlay (s : t) (tenant_id : string) : pydict := default [] (s !! tenant_id).
End TenantPolicyOverlayStore.

(** ** src/policies/risk_gates.py *)
Section risk_gates.
Context `{!ToolIO}.
Variable float_repr : Q → string.

Record RiskGateConfig := mkRiskGateConfig {
  deny_risk_tiers : list RiskTier;
  escalate_risk_tiers : list RiskTier;
  deny_tools : gset string;
  escalate_tools : gset string;
  escalate_state_changing : bool;
  review_channel : string;
  access_policy_engine : option AccessControlConfig;
}.

Definition default_risk_config : RiskGateConfig :=
  mkRiskGateConfig [] [] ∅ ∅ false "security-review" None.

Definition overlay_str_set (key : string) (fallback : gset string) (overlay : pydict)
    : gset string :=
  match dict_get overlay key PNone with
  | PList raw =>
      list_to_set (filter (λ s, s ≠ "") ((λ item, py_strip (py_str float_repr item)) <$> raw))
  | _ => fallback
  end.

Definition overlay_risk_tiers (key : string) (fallback : list RiskTier) (overlay : pydict)
    : list RiskTier :=
  match dict_get overlay key PNone with
  | PList raw => omap (λ item, RiskTier_of (py_str float_repr item)) raw
  | _ => fallback
  end.

Definition effective_config (c : RiskGateConfig) (overlay : pydict) : RiskGateConfig :=
  match overlay with
  | [] => c
  | _ =>
      mkRiskGateConfig
        (overlay_risk_tiers "deny_risk_tiers" (deny_risk_tiers c) overlay)
        (overlay_risk_tiers "escalate_risk_tiers" (escalate_risk_tiers c) overlay)
        (overlay_str_set "deny_tools" (deny_tools c) overlay)
        (overlay_str_set "escalate_tools" (escalate_tools c) overlay)
        (truthy (dict_get overlay "escalate_state_changing" (PBool (escalate_state_changing c))))
        (py_or (py_strip (dict_get_str float_repr overlay "review_channel" (review_channel c)))
           (review_channel c))
        (access_policy_engine c)
  end.

Definition access_request (x : ToolCallContext) : AccessRequest :=
  mkAccessRequest (tc_identity_subject x) (tc_identity_roles x) (tc_tool_name x)
    (tc_is_state_changing x) (high_impact x) (tc_tenant_id x) (tc_identity_tenant_id x)
    (tc_plugin_scope x).

(** [RiskGatePolicy.evaluate]: the gates after the access check, and the whole. *)
Definition gate_decision (c : RiskGateConfig) (x : ToolCallContext)
    (policy_id policy_version : string) : PolicyDecision :=
  let audit := new_policy_audit policy_id policy_version (tc_call_id x) in
  let deny reason message :=
    new_decision "1.0" DENY reason message None false None audit in
  let escalate reason message :=
    new_decision "1.0" ESCALATE reason message (Some DETERMINISTIC) true
      (Some (review_channel c)) audit in
  if bool_decide (tc_tool_name x ∈ deny_tools c) then
    deny "TOOL_DENIED" "Tool is blocked by policy configuration."
  else if bool_decide (tc_risk_tier x ∈ deny_risk_tiers c) then
    deny "RISK_TIER_DENIED"
      ("Risk tier '" +:+ risk_value (tc_risk_tier x) +:+ "' is blocked by policy configuration.")
  else if bool_decide (tc_tool_name x ∈ escalate_tools c) then
    escalate "TOOL_REQUIRES_REVIEW" "Tool requires manual review before execution."
  else if bool_decide (tc_risk_tier x ∈ escalate_risk_tiers c) then
    escalate "RISK_TIER_REQUIRES_REVIEW"
      ("Risk tier '" +:+ risk_value (tc_risk_tier x) +:+ "' requires manual review.")
  else if tc_is_state_changing x && escalate_state_changing c then
    escalate "STATE_CHANGE_REQUIRES_REVIEW" "State-changing tool requires manual review."
  else if high_impact x || tc_is_state_changing x then
    new_decision "1.0" ALLOW "RISK_WRITE_REQUIRES_DETERMINISTIC"
      "State-changing or high-impact tools require deterministic mode."
      (Some DETERMINISTIC) false None audit
  else
    new_decision "1.0" ALLOW "LOW_RISK_ALLOWED" "Low-risk read-only tool allowed."
      None false None audit.

Definition evaluate_risk (config : RiskGateConfig) (x : ToolCallContext)
    (policy_id policy_version : string) (tenant_overlay : option pydict) : PolicyDecision :=
  let c := effective_config config (default [] tenant_overlay) in
  match access_policy_engine c with
  | None => gate_decision c x policy_id policy_version
  | Some engine =>
      let a := AccessControl.evaluate engine (access_request x) in
      if decide (ad_decision a = ALLOW) then gate_decision c x policy_id policy_version
      else
        new_decision "1.0" (ad_decision a) (ad_reason_code a) (ad_message a) (Some DETERMINISTIC)
          (ad_review_required a) (ad_review_channel a)
          (new_policy_audit policy_id policy_version (tc_call_id x))
  end.

(** ** src/policies/middleware.py *)

(** The abstract class: what the executor and the orchestrator use. *)
Record PolicyMiddleware := mkMiddleware {
  before_tool_call : ToolCallContext → PolicyDecision;
  after_tool_call : ToolResult → ToolResult;
  before_output : pydict → pydict;
}.

Definition postcheck_error (r : ToolResult) (reason : string) : ToolResult :=
  new_result (tr_schema_version r) (tr_call_id r) (tr_tool_name r) ERROR None
    (Some (new_error "POLICY_POSTCHECK_FAILED" "policy"
             ("Policy post-check failed: " +:+ reason) false))
    (new_execution DETERMINISTIC None None None) (tr_audit r).

Definition postcheck (r : ToolResult) : ToolResult :=
  if negb (match tr_audit r with
           | None => false
           | Some a => py_bool (py_strip (correlation_id a))
           end)
  then postcheck_error r "missing audit correlation_id"
  else if negb (bool_decide (mode_used (tr_execution r) = DETERMINISTIC))
  then postcheck_error r "non-deterministic execution metadata"
  else if bool_decide (tr_status r = SUCCESS) && bool_decide (tr_result r = None)
  then postcheck_error r "success result is missing payload"
  else r.

Record DeterministicFirstPolicyMiddleware := mkDeterministicFirst {
  df_policy_id : string;
  df_policy_version : string;
  risk_gate_config : RiskGateConfig;
  tenant_policy_overlays : option TenantPolicyOverlayStore.t;
}.

Definition deterministic_first (m : DeterministicFirstPolicyMiddleware) : PolicyMiddleware :=
  mkMiddleware
    (λ x, evaluate_risk (risk_gate_config m) x (df_policy_id m) (df_policy_version m)
            ((λ s, TenantPolicyOverlayStore.get_overlay s (tc_tenant_id x))
               <$> tenant_policy_overlays m))
    postcheck
    (λ output, output).

(** ** src/runtime/mode_selector.py *)

(** [force_deterministic] is [capability_map.should_force_deterministic()]. *)
Definition select_execution_mode (tool_call : ToolCallContext) (force_deterministic : bool)
    (d : PolicyDecision) : ToolExecutionMode :=
  if negb (bool_decide (pd_decision d = ALLOW)) then DETERMINISTIC
  else if bool_decide (pd_enforced_mode d = Some DETERMINISTIC) then DETERMINISTIC
  else if impactful tool_call then DETERMINISTIC
  else if force_deterministic then DETERMINISTIC
  else
    match pd_enforced_mode d with
    | Some mode => mode
    | None =>
        if bool_decide (tc_requested_mode tool_call = Some DETERMINISTIC) then DETERMINISTIC
        else PROVIDER_NATIVE
    end.
End risk_gates.

(** ** What the gates decide *)

Section facts.
Context `{!ToolIO}.
Context (float_repr : Q → string).
Implicit Types (x : ToolCallContext) (c : RiskGateConfig) (d : PolicyDecision).

Definition access_granted c x : Prop :=
  match access_policy_engine c with
  | None => True
  | Some engine => ad_decision (A := PolicyAction) (AccessControl.evaluate engine (access_request x)) = ALLOW
  end.

Definition denied c x : Prop :=
  tc_tool_name x ∈ deny_tools c ∨ tc_risk_tier x ∈ deny_risk_tiers c.

Definition needs_review c x : Prop :=
  tc_tool_name x ∈ escalate_tools c ∨ tc_risk_tier x ∈ escalate_risk_tiers c ∨
  tc_is_state_changing x = true ∧ escalate_state_changing c = true.

Lemma pd_decision_new v a r m e rr rc k : pd_decision (new_decision v a r m e rr rc k) = a.
Proof. apply pd_new. Qed.
Lemma pd_enforced_new v a r m e rr rc k : pd_enforced_mode (new_decision v a r m e rr rc k) = e.
Proof. apply pd_new. Qed.
Lemma pd_review_new v a r m e rr rc k :
  pd_review_required (new_decision v a r m e rr rc k) = rr ∧
  pd_review_channel (new_decision v a r m e rr rc k) = rc.
Proof. split; apply pd_new. Qed.
#[local] Hint Rewrite pd_decision_new pd_enforced_new : pd.

Lemma gate_decision_spec c x pid pv :
  let d := gate_decision c x pid pv in
  (denied c x ∧ pd_decision d = DENY ∧ pd_enforced_mode d = None) ∨
  (¬ denied c x ∧ needs_review c x ∧ pd_decision d = ESCALATE ∧
   pd_enforced_mode d = Some DETERMINISTIC ∧ pd_review_required d = true ∧
   pd_review_channel d = Some (review_channel c)) ∨
  (¬ denied c x ∧ ¬ needs_review c x ∧ pd_decision d = ALLOW ∧
   pd_enforced_mode d = if impactful x then Some DETERMINISTIC else None).
Proof.
  cbv zeta. unfold gate_decision, denied, needs_review, impactful. cbv zeta.
  repeat case_bool_decide;
    try (left; autorewrite with pd; by auto);
    try (right; left; autorewrite with pd; rewrite !(proj1 (pd_review_new _ _ _ _ _ _ _ _)),
      !(proj2 (pd_review_new _ _ _ _ _ _ _ _)); split_and!; tauto).
  destruct (tc_is_state_changing x) eqn:Es; cbn [andb orb].
  - destruct (escalate_state_changing c) eqn:Ec; cbn [andb].
    + right; left. autorewrite with pd.
      rewrite !(proj1 (pd_review_new _ _ _ _ _ _ _ _)), !(proj2 (pd_review_new _ _ _ _ _ _ _ _)).
      split_and!; tauto.
    + rewrite orb_true_r. right; right. autorewrite with pd. split_and!; [tauto| |done..].
      intros [?|[?|[_ [=]]]]; done.
  - rewrite orb_false_r. right; right. destruct (high_impact x); autorewrite with pd;
      (split_and!; [tauto| |done..]); intros [?|[?|[[=] _]]]; done.
Qed.

Lemma evaluate_risk_gated cfg x pid pv ov :
  let c := effective_config float_repr cfg (default [] ov) in
  access_granted c x → evaluate_risk float_repr cfg x pid pv ov = gate_decision c x pid pv.
Proof.
  cbv zeta. unfold access_granted, evaluate_risk. destruct (access_policy_engine _) as [e|]; [|done].
  intros E. cbv zeta. by rewrite decide_True.
Qed.

Lemma evaluate_risk_refused cfg x pid pv ov :
  let c := effective_config float_repr cfg (default [] ov) in
  let d := evaluate_risk float_repr cfg x pid pv ov in
  ¬ access_granted c x → pd_decision d ≠ ALLOW ∧ pd_enforced_mode d = Some DETERMINISTIC.
Proof.
  cbv zeta. unfold access_granted, evaluate_risk. destruct (access_policy_engine _) as [e|]; [|tauto].
  intros E. cbv zeta. rewrite decide_False by done. by autorewrite with pd.
Qed.

#[export] Instance access_granted_dec c x : Decision (access_granted c x).
Proof. unfold access_granted. destruct (access_policy_engine c); apply _. Defined.

(** C3: The gates allow a call exactly when access control grants it, neither its name nor
    its tier is denied and nothing of it needs review, under the tenant's overlay; when
    access is granted they deny exactly what is denied, and send the rest of what needs
    review to the configured channel.  An allowed call that is state changing or high
    impact is forced into deterministic mode, and no decision ever forces another mode. *)
Theorem risk_gates_correct cfg x pid pv ov :
  let c := effective_config float_repr cfg (default [] ov) in
  let d := evaluate_risk float_repr cfg x pid pv ov in
  (pd_decision d = ALLOW ↔ access_granted c x ∧ ¬ denied c x ∧ ¬ needs_review c x) ∧
  (access_granted c x →
   (pd_decision d = DENY ↔ denied c x) ∧
   (pd_decision d = ESCALATE ↔ ¬ denied c x ∧ needs_review c x) ∧
   (pd_decision d = ESCALATE →
    pd_review_required d = true ∧ pd_review_channel d = Some (review_channel c))) ∧
  (pd_decision d = ALLOW → impactful x = true → pd_enforced_mode d = Some DETERMINISTIC) ∧
  (pd_enforced_mode d = None ∨ pd_enforced_mode d = Some DETERMINISTIC).
Proof.
  cbv zeta. pose proof allow_not_deny (A := PolicyAction). pose proof allow_not_escalate (A := PolicyAction).
  pose proof deny_not_escalate (A := PolicyAction).
  set (c := effective_config float_repr cfg (default [] ov)).
  destruct (decide (access_granted c x)) as [Hg|Hg].
  - rewrite (evaluate_risk_gated cfg x pid pv ov Hg). fold c.
    destruct (gate_decision_spec c x pid pv)
      as [(? & E & E')|[(? & ? & E & E' & ? & ?)|(? & ? & E & E')]]; rewrite E, E'.
    + split_and!; [naive_solver| |naive_solver|by left]. intros _. split_and!; naive_solver.
    + split_and!; [naive_solver| |naive_solver|by right]. intros _. split_and!; naive_solver.
    + split_and!; [naive_solver| | |destruct (impactful x); auto].
      * intros _. split_and!; naive_solver.
      * by intros _ ->.
  - destruct (evaluate_risk_refused cfg x pid pv ov Hg) as [E E'].
    split_and!; [naive_solver|done|naive_solver|by right].
Qed.

(** ** The execution mode *)

Lemma mode_deterministic_unless x force d :
  select_execution_mode x force d ≠ DETERMINISTIC →
  pd_decision d = ALLOW ∧ impactful x = false ∧ force = false ∧
  pd_enforced_mode d ≠ Some DETERMINISTIC.
Proof.
  unfold select_execution_mode. repeat (case_bool_decide; cbn [negb]); try done.
  all: destruct (impactful x), force; done.
Qed.

Lemma allowed_mode cfg x pid pv ov :
  pd_decision (evaluate_risk float_repr cfg x pid pv ov) = ALLOW →
  pd_enforced_mode (evaluate_risk float_repr cfg x pid pv ov) =
    if impactful x then Some DETERMINISTIC else None.
Proof.
  destruct (decide (access_granted (effective_config float_repr cfg (default [] ov)) x)) as [Hg|Hg];
    [|by destruct (evaluate_risk_refused cfg x pid pv ov Hg)].
  rewrite (evaluate_risk_gated cfg x pid pv ov Hg).
  pose proof allow_not_deny (A := PolicyAction). pose proof allow_not_escalate (A := PolicyAction).
  destruct (gate_decision_spec (effective_config float_repr cfg (default [] ov)) x pid pv)
    as [(_ & E & _)|[(_ & _ & E & _)|(_ & _ & _ & E)]]; (congruence || done).
Qed.

(** Whatever the policy says, even a decision that enforces the provider's mode, a call
    leaves the deterministic executor only when it is allowed, neither state changing nor
    high impact, and the provider's capabilities are certain.  Under the risk gates it
    does so exactly when, moreover, the call does not ask for deterministic mode. *)
Theorem provider_native_only_when_safe m x force d :
  (select_execution_mode x force d ≠ DETERMINISTIC →
   pd_decision d = ALLOW ∧ tc_is_state_changing x = false ∧
   tc_risk_tier x ≠ HIGH ∧ tc_risk_tier x ≠ CRITICAL ∧ force = false) ∧
  (let d := before_tool_call (deterministic_first float_repr m) x in
   select_execution_mode x force d = PROVIDER_NATIVE ↔
   pd_decision d = ALLOW ∧ impactful x = false ∧ force = false ∧
   tc_requested_mode x ≠ Some DETERMINISTIC).
Proof.
  split.
  - intros (? & Hi & ? & _)%mode_deterministic_unless. revert Hi.
    unfold impactful, high_impact. intros [? Hn]%orb_false_iff. apply bool_decide_eq_false in Hn.
    naive_solver.
  - clear d. cbv zeta. cbn [before_tool_call deterministic_first].
    set (ov := _ <$> tenant_policy_overlays m).
    pose proof (allowed_mode (risk_gate_config m) x (df_policy_id m) (df_policy_version m) ov) as Hm.
    set (d := evaluate_risk _ _ _ _ _ _) in *. pose proof native_not_deterministic as Hnd.
    assert (pd_decision d = ALLOW → impactful x = false → force = false →
      select_execution_mode x force d =
        if bool_decide (tc_requested_mode x = Some DETERMINISTIC) then DETERMINISTIC
        else PROVIDER_NATIVE) as Hs.
    { intros Ha Hi ->. specialize (Hm Ha). rewrite Hi in Hm. unfold select_execution_mode.
      by rewrite (bool_decide_eq_true_2 _ Ha), Hm, Hi. }
    split.
    + intros E. destruct (mode_deterministic_unless x force d) as (Ha & Hi & Hf & _); [congruence|].
      split_and!; try done. intros Hr. rewrite (Hs Ha Hi Hf) in E.
      by rewrite bool_decide_eq_true_2 in E.
    + intros (Ha & Hi & Hf & Hr). rewrite (Hs Ha Hi Hf). by rewrite bool_decide_eq_false_2.
Qed.
End facts.
