(* ===== verification/ToolExecutor.v ===== *)
(** * Tool registry and deterministic executor

    Models src/tools/registry.py, src/tools/decorators.py, src/tools/execution_adapter.py
    (the [execute] of an adapter is a function) and src/tools/executor.py.  A handler is
    the tool author's code: [run_handler h n kwargs] is what its [n]-th call of one
    execution returns or raises.  Calls of handlers, of the audit sink and of the metrics
    are the [effect]s an execution yields in order; [clock n] is the [n]-th reading of the
    clock. *)

From S2P Require Import Prelude PyValue.
From S2P Require Export RiskGates.

(** ** src/tools/registry.py *)
Module ToolRegistry.
Section registry.
Context `{!ToolIO} {Handler : Type}.

Record ToolDescriptor := mkDescriptor {
  name : string;
  handler : Handler;
  risk_tier : RiskTier;
  is_state_changing : bool;
  timeout_ms : Z;
  description : string;
  parameters_schema : pydict;
  metadata : pydict;
}.

Notation t := (list (string * ToolDescriptor)).

Definition empty : t := [].

Definition register (s : t) (d : ToolDescriptor) : t := od_set (name d) d s.

Definition resolve (s : t) (tool_name : string) : res ToolDescriptor :=
  match od_get tool_name s with
  | Some d => Ok d
  | None => Raise (KeyError ("Tool '" +:+ tool_name +:+ "' not found"))
  end.

Definition list_tools (s : t) : list string := sorted_strings (od_keys s).

Definition by_name (d d' : ToolDescriptor) : Prop := String.le (name d) (name d').

#[export] Instance by_name_dec : RelDecision by_name.
Proof. intros d d'. unfold by_name. apply _. Defined.

Definition list_descriptors (s : t) : list ToolDescriptor := sort_by by_name (od_values s).

Definition unregister (s : t) (tool_name : string) : res t :=
  if od_mem tool_name s then Ok (od_pop tool_name s)
  else Raise (KeyError ("Tool '" +:+ tool_name +:+ "' is not registered")).
End registry.
Arguments ToolDescriptor {_} Handler.
End ToolRegistry.
Export ToolRegistry (ToolDescriptor, mkDescriptor).

(** ** src/tools/decorators.py *)

Inductive effect :=
| Inc (counter : string)
| RunHandler (tool : string) (kwargs : pydict)
| AuditEvent (event : string) (message : option string).

(** [str(exc)]: that of a KeyError is the [repr] of its message *)
Definition str_exc (e : exn) : string :=
  match e with KeyError m => repr_str m | _ => exn_message e end.

(** What calling a decorated handler does: an answer or an exception, and effects. *)
Notation outcome := (res pyval * list effect)%type.
Notation tool_handler := (Z → pydict → outcome)%type.

Section decorators.
Variable float_repr : Q → string.

(** The names in [required_args] that are not in [kwargs]. *)
Fixpoint missing_args (required_args : list pyval) (kwargs : pydict) : res (list pyval) :=
  match required_args with
  | [] => Ok []
  | name :: required_args =>
      let! found := key_in name kwargs in
      let! missing := missing_args required_args kwargs in
      Ok (if found then missing else name :: missing)
  end.

Definition validation (required_args : list pyval) (fn : tool_handler) : tool_handler :=
  λ n kwargs,
    match missing_args required_args kwargs with
    | Raise e => (Raise e, [])
    | Ok [] => fn n kwargs
    | Ok missing =>
        (Raise (ValueError ("Missing required arguments: " +:+ py_repr float_repr (PList missing))), [])
    end.

Definition authz (allow_state_changing is_state_changing_call : bool) (fn : tool_handler)
    : tool_handler :=
  λ n kwargs,
    if is_state_changing_call && negb allow_state_changing then
      (Raise (PermissionError "State-changing execution is not authorized for this tool"), [])
    else fn n kwargs.

(** [attempts] more attempts, the next of which is number [n]. *)
Fixpoint retry_loop (attempts : nat) (n : Z) (fn : tool_handler) (kwargs : pydict) : outcome :=
  match attempts with
  | O => (Raise (AssertionError ""), [])
  | S attempts' =>
      let '(r, effects) := fn n kwargs in
      match r, attempts' with
      | Ok _, _ | Raise _, O => (r, effects)
      | Raise _, _ =>
          let '(r', effects') := retry_loop attempts' (n + 1) fn kwargs in
          (r', effects ++ effects')
      end
  end.

Definition retries (max_attempts : Z) (fn : tool_handler) : tool_handler :=
  λ n kwargs, retry_loop (Z.to_nat (Z.max 1 max_attempts)) n fn kwargs.

Definition audit_logging (audit_sink : bool) (event_prefix : string) (fn : tool_handler)
    : tool_handler :=
  let audit event message :=
    if audit_sink then [AuditEvent (event_prefix +:+ event) message] else [] in
  λ n kwargs,
    let '(r, effects) := fn n kwargs in
    (r, audit ".start" None ++ effects ++
        match r with
        | Ok _ => audit ".success" None
        | Raise e => audit ".error" (Some (str_exc e))
        end).

Fixpoint redact (redact_keys : list pyval) (d : pydict) : res pydict :=
  match redact_keys with
  | [] => Ok d
  | key :: redact_keys =>
      let! found := key_in key d in
      redact redact_keys
        (match key with
         | PStr k => if found then od_set k (PStr "***REDACTED***") d else d
         | _ => d
         end)
  end.

Definition redaction (redact_keys : list pyval) (fn : tool_handler) : tool_handler :=
  λ n kwargs,
    let '(r, effects) := fn n kwargs in
    match r with
    | Ok (PDict value) => (let! d := redact redact_keys value in Ok (PDict d), effects)
    | _ => (r, effects)
    end.

Definition apply_execution_decorators (handler : tool_handler) (required_args : list pyval)
    (allow_state_changing is_state_changing_call : bool) (max_attempts : Z)
    (redact_keys : list pyval) (audit_sink : bool) (event_prefix : string) : tool_handler :=
  redaction redact_keys
    (audit_logging audit_sink event_prefix
       (retries max_attempts
          (authz allow_state_changing is_state_changing_call
             (validation required_args handler)))).
End decorators.

(** ** src/tools/executor.py *)

Section executor.
Context `{!ToolIO} {Handler : Type}.
Variable float_repr : Q → string.
Variable run_handler : Handler → Z → pydict → res pyval.
Variable clock : nat → string.

(** [execution_adapter] is the [execute] of the adapter, or its exception. *)
Record DeterministicToolExecutor := mkExecutor {
  registry : list (string * ToolDescriptor Handler);
  policy : PolicyMiddleware;
  audit_sink : bool;
  metrics : bool;
  execution_adapter : option (ToolCallContext → ToolDescriptor Handler → res ToolResult);
  enable_hosted_runtime : bool;
}.

Definition inc (x : DeterministicToolExecutor) (counter : string) : list effect :=
  if metrics x then [Inc counter] else [].

Definition error_result (call : ToolCallContext) (code category message : string)
    (reason_code : option string) : ToolResult :=
  new_result "1.0" (tc_call_id call) (tc_tool_name call) ERROR None
    (Some (new_error code category message false))
    (new_execution DETERMINISTIC (Some (clock 0)) (Some (clock 1)) None)
    (Some (new_audit (tc_call_id call) reason_code)).

Definition validate_call (call : ToolCallContext) : option ToolResult :=
  let invalid message :=
    Some (error_result call "TOOL_CALL_VALIDATION_ERROR" "tool_runtime" message None) in
  if negb (tc_schema_version call =?s "1.0") then invalid "schema_version must be '1.0'"
  else if negb (py_bool (py_strip (tc_tool_name call))) then invalid "tool_name is required"
  else match tc_arguments call with
       | PDict _ => None
       | _ => invalid "arguments must be an object"
       end.

(** The entries of [runtime_projection] that are not empty. *)
Definition runtime_projection (d : ToolDescriptor Handler) : pydict :=
  let entry k := (k, dict_get_str float_repr (ToolRegistry.metadata d) k "") in
  (λ p, (p.1, PStr p.2)) <$>
    filter (λ p, p.2 ≠ "") [entry "tool_version"; entry "package_ref"; entry "handler_ref"].

(** The projection added to the payload of an adapter's result. *)
Definition add_projection (projection : pydict) (r : ToolResult) : ToolResult :=
  match projection, tr_result r with
  | _ :: _, Some (PDict payload) =>
      let runtime_payload := dict_get payload "runtime" (PDict []) in
      let payload := dict_setdefault payload "runtime" (PDict []) in
      match runtime_payload with
      | PDict rt =>
          with_payload r (PDict (od_set "runtime"
            (PDict (foldl (λ rt p, dict_setdefault rt p.1 p.2) rt projection)) payload))
      | _ => with_payload r (PDict payload)
      end
  | _, _ => r
  end.

(** What is left of the [try] block once there is a result: the post-check and the
    counters of its failure. *)
Definition postchecked (x : DeterministicToolExecutor) (r : ToolResult)
    : ToolResult * list effect :=
  let r' := after_tool_call (policy x) r in
  (r', if bool_decide (tr_status r' = ERROR)
       then inc x "tool.call.failed" ++ inc x "tool.call.postcheck_failed" else []).

(** The decorated handler of a tool for a call. *)
Definition decorated (x : DeterministicToolExecutor) (call : ToolCallContext)
    (d : ToolDescriptor Handler) : res (pydict → outcome) :=
  let metadata := ToolRegistry.metadata d in
  let! required_args := list_of (dict_get metadata "required_args" (PList [])) in
  let allow_state_changing := truthy (dict_get metadata "allow_state_changing" (PBool true)) in
  let! max_attempts := int_of (dict_get metadata "max_retries" (PInt 1)) in
  let! redact_keys := list_of (dict_get metadata "redact_keys" (PList [])) in
  Ok (apply_execution_decorators float_repr
        (λ n kwargs, (run_handler (ToolRegistry.handler d) n kwargs,
                      [RunHandler (ToolRegistry.name d) kwargs]))
        required_args allow_state_changing (tc_is_state_changing call) max_attempts redact_keys
        (audit_sink x) ("tool." +:+ tc_tool_name call) 0).

Definition success_result (call : ToolCallContext) (d : ToolDescriptor Handler)
    (projection : pydict) (reason_code : string) (output : pyval) : ToolResult :=
  new_result "1.0" (tc_call_id call) (tc_tool_name call) SUCCESS
    (Some (PDict (("value", output) ::
                  match projection with [] => [] | _ => [("runtime", PDict projection)] end)))
    None
    (new_execution DETERMINISTIC (Some (clock 0)) (Some (clock 1)) (Some (ToolRegistry.timeout_ms d)))
    (Some (new_audit (tc_call_id call) (Some reason_code))).

(** The [try] block: its result, or the exception one of the handlers catches. *)
Definition try_execute (x : DeterministicToolExecutor) (call : ToolCallContext)
    (kwargs : pydict) (reason_code : string) : res ToolResult * list effect :=
  match ToolRegistry.resolve (registry x) (tc_tool_name call) with
  | Raise e => (Raise e, [])
  | Ok d =>
      let projection := runtime_projection d in
      match (if enable_hosted_runtime x then execution_adapter x else None) with
      | Some adapter_execute =>
          match adapter_execute call d with
          | Raise e => (Raise e, [])
          | Ok r =>
              let r := add_projection projection r in
              let success := if bool_decide (tr_status r = SUCCESS) then inc x "tool.call.success" else [] in
              let '(r', failed) := postchecked x r in (Ok r', success ++ failed)
          end
      | None =>
          match decorated x call d with
          | Raise e => (Raise e, [])
          | Ok handler =>
              let '(output, effects) := handler kwargs in
              match output with
              | Raise e => (Raise e, effects)
              | Ok output =>
                  let '(r', failed) :=
                    postchecked x (success_result call d projection reason_code output) in
                  (Ok r', effects ++ inc x "tool.call.success" ++ failed)
              end
          end
      end
  end.

Definition execute (x : DeterministicToolExecutor) (call : ToolCallContext)
    : ToolResult * list effect :=
  let total := inc x "tool.call.total" in
  match validate_call call with
  | Some error => (after_tool_call (policy x) error, total ++ inc x "tool.call.failed")
  | None =>
      let decision := before_tool_call (policy x) call in
      if negb (bool_decide (pd_decision decision = ALLOW)) then
        (after_tool_call (policy x)
           (blocked_result call (pd_reason_code decision) (pd_message decision)),
         total ++ inc x "tool.call.blocked")
      else
        let kwargs := default [] (as_dict (tc_arguments call)) in
        let '(r, effects) := try_execute x call kwargs (pd_reason_code decision) in
        match r with
        | Ok r => (r, total ++ effects)
        | Raise (KeyError _ as e) =>
            (after_tool_call (policy x)
               (error_result call "TOOL_NOT_FOUND" "tool_registry" (str_exc e)
                  (Some (pd_reason_code decision))),
             total ++ effects ++ inc x "tool.call.failed")
        | Raise e =>
            (after_tool_call (policy x)
               (error_result call "TOOL_EXECUTION_ERROR" "tool_runtime" (str_exc e)
                  (Some (pd_reason_code decision))),
             total ++ effects ++ inc x "tool.call.failed")
        end
  end.

(** [execution_adapter()] *)
Definition hosted_adapter (x : DeterministicToolExecutor)
    : option (ToolCallContext → ToolDescriptor Handler → res ToolResult) :=
  if enable_hosted_runtime x then execution_adapter x else None.
End executor.
