(* ===== verification/ToolExecutorFacts.v ===== *)
(** * What the deterministic executor guarantees

    When a tool's handler runs and how often, what every result satisfies, and what the
    executor's error codes and counters do not say. *)

From S2P Require Import Prelude PyValue ToolExecutor.

(** ** The retry loop *)

Definition is_run (e : effect) : Prop := match e with RunHandler _ _ => True | _ => False end.

#[export] Instance is_run_dec e : Decision (is_run e).
Proof. destruct e; apply _. Defined.

(** The calls of handlers among the effects. *)
Definition runs (l : list effect) : list effect := filter is_run l.

Lemma runs_app l l' : runs (l ++ l') = runs l ++ runs l'.
Proof. apply filter_app. Qed.

Lemma runs_replicate k t kw : runs (replicate k (RunHandler t kw)) = replicate k (RunHandler t kw).
Proof.
  induction k as [|k IH]; [done|]. cbn [replicate]. unfold runs. rewrite filter_cons_True by exact I.
  f_equal. exact IH.
Qed.

(** The outcome of the attempts [0 .. k-1] of a handler: all raise but perhaps the last,
    which is the first to return or the last there is. *)
Definition attempted (run : Z → res pyval) (n : Z) (limit k : nat) (r : res pyval) : Prop :=
  (1 ≤ k ≤ limit)%nat ∧ r = run (n + Z.of_nat k - 1) ∧
  (∀ i, n ≤ i < n + Z.of_nat k - 1 → ∃ e, run i = Raise e) ∧
  ((∃ v, r = Ok v) ∨ k = limit).

Lemma attempted_once run n limit (effs : list effect) r :
  run n = r → (0 < limit)%nat → (∃ v, r = Ok v) ∨ limit = 1%nat →
  ∃ k, attempted run n limit k r ∧ effs = mjoin (replicate k effs).
Proof.
  intros <- Hl Hr. exists 1%nat. unfold attempted. cbn. rewrite app_nil_r.
  split_and!; [lia|lia|f_equal; lia| |destruct Hr; auto|done].
  intros i Hi. lia.
Qed.

Lemma retry_loop_spec run (effs : list effect) kw limit n :
  (0 < limit)%nat →
  ∃ k, attempted run n limit k (retry_loop limit n (λ n _, (run n, effs)) kw).1 ∧
    (retry_loop limit n (λ n _, (run n, effs)) kw).2 = mjoin (replicate k effs).
Proof.
  revert n. induction limit as [|limit IH]; intros n Hl; [lia|]. cbn [retry_loop].
  destruct (run n) as [v|e] eqn:E.
  - apply attempted_once; [done|lia|left; eauto].
  - destruct limit as [|limit].
    + apply attempted_once; [done|lia|by right].
    + destruct (IH (n + 1)) as (k & (Hk & Hr & Hi & Hor) & He); [lia|].
      destruct (retry_loop (S limit) (n + 1) _ kw) as [r' e']. cbn in Hr, Hor, He |- *.
      exists (S k). unfold attempted. cbn. rewrite He.
      split_and!; try lia; try done.
      * rewrite Hr. f_equal. lia.
      * intros i Hin. destruct (decide (i = n)) as [->|]; [eauto|]. apply Hi. lia.
      * destruct Hor as [? | ->]; eauto.
Qed.

Lemma retry_loop_ext limit n fn fn' kw :
  (∀ i, fn i kw = fn' i kw) → retry_loop limit n fn kw = retry_loop limit n fn' kw.
Proof.
  intros Hf. revert n. induction limit as [|limit IH]; intros n; [done|].
  cbn [retry_loop]. rewrite Hf. destruct (fn' n kw) as [[?|?] ?]; [done|].
  destruct limit; [done|]. by rewrite IH.
Qed.

Lemma retry_loop_fails limit n fn kw e :
  (0 < limit)%nat → (∀ i, fn i kw = (Raise e, [])) → retry_loop limit n fn kw = (Raise e, []).
Proof.
  intros Hl Hf. revert n. induction limit as [|limit IH]; intros n; [lia|].
  cbn [retry_loop]. rewrite Hf. destruct limit; [done|]. by rewrite IH by lia.
Qed.

(** The answer of a handler with the given keys redacted. *)
Definition redacted (keys : list pyval) (r : res pyval) : res pyval :=
  match r with
  | Ok (PDict value) => let! d := redact keys value in Ok (PDict d)
  | _ => r
  end.

Lemma redaction_spec keys fn n kw :
  redaction keys fn n kw = (redacted keys (fn n kw).1, (fn n kw).2).
Proof. unfold redaction, redacted. by destruct (fn n kw) as [[[]|?] ?]. Qed.

Section facts.
Context `{!ToolIO} {Handler : Type}.
Context (float_repr : Q → string) (run_handler : Handler → Z → pydict → res pyval).
Context (clock : nat → string).
Notation execute := (execute float_repr run_handler clock).
Notation try_execute := (try_execute float_repr run_handler clock).
Implicit Types (x : DeterministicToolExecutor (Handler := Handler)) (d : ToolDescriptor Handler).

Definition valid_call (call : ToolCallContext) (kwargs : pydict) : Prop :=
  tc_schema_version call = "1.0" ∧ py_strip (tc_tool_name call) ≠ "" ∧ tc_arguments call = PDict kwargs.

(** What has to hold for the handler of [d] to be called with [kwargs] at least once and
    at most [n] times. *)
Record runnable x call kwargs d n : Prop := {
  ru_valid : valid_call call kwargs;
  ru_allowed : pd_decision (before_tool_call (policy x) call) = ALLOW;
  ru_registered : od_get (tc_tool_name call) (registry x) = Some d;
  ru_local : hosted_adapter x = None;
  ru_retries : int_of (dict_get (ToolRegistry.metadata d) "max_retries" (PInt 1)) = Ok n;
  ru_redact : ∃ keys, list_of (dict_get (ToolRegistry.metadata d) "redact_keys" (PList [])) = Ok keys;
  ru_authorized : tc_is_state_changing call = true →
    truthy (dict_get (ToolRegistry.metadata d) "allow_state_changing" (PBool true)) = true;
  ru_required : ∃ required,
    list_of (dict_get (ToolRegistry.metadata d) "required_args" (PList [])) = Ok required ∧
    missing_args required kwargs = Ok [];
}.

Lemma runs_inc x c : runs (inc x c) = [].
Proof. unfold inc. by destruct (metrics x). Qed.
Lemma runs_audit (b : bool) e m : runs (if b then [AuditEvent e m] else []) = [].
Proof. by destruct b. Qed.
Lemma runs_if (b : bool) l : runs l = [] → runs (if b then l else []) = [].
Proof. by destruct b. Qed.
#[local] Hint Rewrite runs_app runs_inc runs_audit app_nil_r : runs.

Lemma runs_audit_logging b p fn n kw :
  runs (audit_logging b p fn n kw).2 = runs (fn n kw).2 ∧ (audit_logging b p fn n kw).1 = (fn n kw).1.
Proof.
  unfold audit_logging. destruct (fn n kw) as [r e]. split; [|done]. cbn.
  destruct r, b; autorewrite with runs; cbn; by rewrite ?app_nil_r.
Qed.

Lemma runs_postchecked x r : runs (postchecked x r).2 = [].
Proof. unfold postchecked. cbn. apply runs_if. by autorewrite with runs. Qed.

Lemma missing_args_present required kwargs a :
  missing_args required kwargs = Ok [] → PStr a ∈ required → is_Some (od_get a kwargs).
Proof.
  induction required as [|k required IH]; cbn; [by intros _ ?%elem_of_nil|].
  intros (f & Hf & (m & Hm & Hc)%res_bind_ok)%res_bind_ok. destruct f; [|done].
  injection Hc as ->. intros [<-|?]%elem_of_cons; [|by apply IH].
  cbn in Hf. injection Hf as Hf. unfold od_mem in Hf. by apply bool_decide_eq_true in Hf.
Qed.

Definition limit_of (n : Z) : nat := Z.to_nat (Z.max 1 n).

(** The decorated handler when the call is authorized and no argument is missing. *)
Lemma decorated_runs (h : Z → pydict → res pyval) t required allow sc n keys b p kwargs :
  (sc = true → allow = true) → missing_args required kwargs = Ok [] →
  let o := apply_execution_decorators float_repr (λ i kw, (h i kw, [RunHandler t kw]))
             required allow sc n keys b p 0 kwargs in
  ∃ k r, attempted (λ i, h i kwargs) 0 (limit_of n) k r ∧
    runs o.2 = replicate k (RunHandler t kwargs) ∧ o.1 = redacted keys r.
Proof.
  intros Ha Hm o. unfold o, apply_execution_decorators. rewrite redaction_spec. cbn [fst snd].
  match goal with |- context [audit_logging ?b ?p ?fn ?i ?kw] =>
    destruct (runs_audit_logging b p fn i kw) as [-> ->] end.
  unfold retries. rewrite (retry_loop_ext _ _ _ (λ i _, (h i kwargs, [RunHandler t kwargs]))).
  - destruct (retry_loop_spec (λ i, h i kwargs) [RunHandler t kwargs] kwargs (limit_of n) 0)
      as (k & Hk & He); [unfold limit_of; lia|]. fold (limit_of n). eexists k, _. split; [exact Hk|].
    rewrite He. split; [|done]. rewrite <- (runs_replicate k t kwargs). f_equal.
    clear. induction k as [|k IH]; [done|]. cbn. by f_equal.
  - intros i. unfold authz, validation. rewrite Hm. destruct sc; [|done]. by rewrite Ha.
Qed.

Lemma decorated_idle (h : tool_handler) required allow sc n keys b p kwargs :
  ¬ ((sc = true → allow = true) ∧ missing_args required kwargs = Ok []) →
  runs (apply_execution_decorators float_repr h required allow sc n keys b p 0 kwargs).2 = [].
Proof.
  intros Hn. unfold apply_execution_decorators. rewrite redaction_spec. cbn [snd].
  match goal with |- context [audit_logging ?b ?p ?fn ?i ?kw] =>
    destruct (runs_audit_logging b p fn i kw) as [-> _] end.
  unfold retries.
  assert (∃ e, ∀ i, authz allow sc (validation float_repr required h) i kwargs = (Raise e, [])) as [e He].
  { unfold authz, validation. destruct sc; cbn [andb].
    - destruct allow; cbn [negb]; [|by eexists].
      destruct (missing_args required kwargs) as [[|]|] eqn:E; [naive_solver|by eexists..].
    - destruct (missing_args required kwargs) as [[|]|] eqn:E; [naive_solver|by eexists..]. }
  by rewrite (retry_loop_fails _ _ _ _ e) by (exact He || lia).
Qed.

(** The result reported for an exception. *)
Definition failure_result (call : ToolCallContext) (reason : string) (e : exn) : ToolResult :=
  match e with
  | KeyError _ => error_result clock call "TOOL_NOT_FOUND" "tool_registry" (str_exc e) (Some reason)
  | _ => error_result clock call "TOOL_EXECUTION_ERROR" "tool_runtime" (str_exc e) (Some reason)
  end.

Lemma validate_call_valid call kwargs : valid_call call kwargs → validate_call clock call = None.
Proof.
  intros (Hs & Hn & Ha). unfold validate_call. rewrite bool_decide_eq_true_2 by done.
  apply py_bool_true in Hn. by rewrite Hn, Ha.
Qed.

Lemma validate_call_none call :
  validate_call clock call = None → ∃ kwargs, valid_call call kwargs.
Proof.
  unfold validate_call, valid_call. case_bool_decide as Hs; [|done]. cbn [negb].
  destruct (py_bool (py_strip (tc_tool_name call))) eqn:Hn; [|done]. apply py_bool_true in Hn.
  destruct (tc_arguments call); try done. eauto.
Qed.

Lemma execute_runnable x call kwargs d n :
  runnable x call kwargs d n →
  ∃ k r keys,
    let reason := pd_reason_code (before_tool_call (policy x) call) in
    attempted (λ i, run_handler (ToolRegistry.handler d) i kwargs) 0 (limit_of n) k r ∧
    list_of (dict_get (ToolRegistry.metadata d) "redact_keys" (PList [])) = Ok keys ∧
    runs (execute x call).2 = replicate k (RunHandler (ToolRegistry.name d) kwargs) ∧
    (execute x call).1 = after_tool_call (policy x)
      match redacted keys r with
      | Ok v => success_result clock call d (runtime_projection float_repr d) reason v
      | Raise e => failure_result call reason e
      end.
Proof.
  intros [Hv Ha Hr Hl Hn [keys Hk] Hauth [required [Hreq Hm]]]. cbv zeta.
  destruct (decorated_runs (run_handler (ToolRegistry.handler d)) (ToolRegistry.name d) required
    _ _ n keys (audit_sink x) ("tool." +:+ tc_tool_name call) kwargs Hauth Hm)
    as (k & r & Hatt & Hruns & Ho). exists k, r, keys. split; [done|]. split; [done|].
  set (handler := apply_execution_decorators _ _ _ _ _ _ _ _ _ 0) in *.
  assert (decorated float_repr run_handler x call d = Ok handler) as Hd.
  { unfold decorated. by rewrite Hreq, Hn, Hk. }
  unfold hosted_adapter in Hl. unfold ToolExecutor.execute, ToolExecutor.try_execute, ToolRegistry.resolve.
  rewrite (validate_call_valid _ _ Hv), bool_decide_eq_true_2, Hr, Hl, Hd by done. cbn [negb].
  destruct Hv as (_ & _ & ->). cbn [as_dict default from_option id].
  rewrite <- Ho. destruct (handler kwargs) as [out effs]. cbn [fst snd] in Hruns |- *.
  destruct out as [v|e]; cbn.
  - unfold postchecked. cbn. split; [|done].
    autorewrite with runs. rewrite runs_if; autorewrite with runs; done.
  - unfold failure_result. destruct e; cbn [fst snd]; autorewrite with runs; (split; [exact Hruns|done]).
Qed.

Lemma ready_or_not (sc allow : bool) (m : res (list pyval)) :
  (sc = true → allow = true) ∧ m = Ok [] ∨ ¬ ((sc = true → allow = true) ∧ m = Ok []).
Proof. destruct sc, allow, m as [[|]|]; intuition congruence. Qed.

Lemma execute_idle x call :
  runs (execute x call).2 ≠ [] → ∃ kwargs d n, runnable x call kwargs d n.
Proof.
  unfold ToolExecutor.execute. destruct (validate_call clock call) eqn:Ev.
  { cbn. autorewrite with runs. done. }
  apply validate_call_none in Ev as [kwargs Hv]. case_bool_decide as Ha; cbn [negb].
  2: { cbn. autorewrite with runs. done. }
  destruct (try_execute x call _ _) as [r effs] eqn:Et. intros Hne.
  assert (runs effs ≠ []) as Hr.
  { intros E. apply Hne. destruct r as [|[]]; cbn; autorewrite with runs; by rewrite E. }
  clear Hne. exists kwargs. destruct Hv as (? & ? & Hargs). rewrite Hargs in Et. cbn in Et.
  revert Et. unfold ToolExecutor.try_execute, ToolRegistry.resolve.
  destruct (od_get (tc_tool_name call) (registry x)) as [d|] eqn:Ed; [|by intros [= <- <-]].
  destruct (if enable_hosted_runtime x then execution_adapter x else None) as [ad|] eqn:Eh.
  { destruct (ad call d) as [r'|]; [|by intros [= <- <-]]. unfold postchecked. cbn.
    intros [= <- <-]. destruct Hr. autorewrite with runs. rewrite !runs_if; autorewrite with runs; done. }
  unfold decorated. destruct (list_of _) as [required|] eqn:E1 at 1; cbn [res_bind]; [|by intros [= <- <-]].
  destruct (int_of _) as [n|] eqn:E2; cbn [res_bind]; [|by intros [= <- <-]].
  destruct (list_of (dict_get (ToolRegistry.metadata d) "redact_keys" _)) as [keys|] eqn:E3;
    cbn [res_bind]; [|by intros [= <- <-]].
  intros Et. exists d, n.
  set (allow := truthy _) in *.
  destruct (ready_or_not (tc_is_state_changing call) allow (missing_args required kwargs))
    as [[Hauth Hm]|Hn].
  - split; try done; eauto.
  - exfalso. apply Hr. pose proof (decorated_idle
      (λ n kw, (run_handler (ToolRegistry.handler d) n kw, [RunHandler (ToolRegistry.name d) kw]))
      required allow (tc_is_state_changing call) n keys (audit_sink x) ("tool." +:+ tc_tool_name call) kwargs Hn) as Hi.
    destruct (apply_execution_decorators _ _ _ _ _ _ _ _ _ 0 kwargs) as [[v|e] es]; cbn in Hi, Et.
    + unfold postchecked in Et. cbn in Et. injection Et as <- <-.
      autorewrite with runs. rewrite runs_if; autorewrite with runs; done.
    + by injection Et as <- <-.
Qed.

(** C1: Handlers run only under policy.  A handler is called exactly when the call is
    well formed, the policy allows it, the tool is registered and not run by a hosted
    adapter, its metadata can be read, the call is authorized and no required argument is
    missing.  It is then called with the call's arguments until it first returns, at
    least once and at most the configured number of times, and what it returned, redacted,
    or last raised is the result that the policy checks. *)
Theorem handlers_run_only_under_policy x call :
  (runs (execute x call).2 ≠ [] ↔ ∃ kwargs d n, runnable x call kwargs d n) ∧
  (∀ kwargs d n, runnable x call kwargs d n →
     ∃ k r keys,
       let reason := pd_reason_code (before_tool_call (policy x) call) in
       attempted (λ i, run_handler (ToolRegistry.handler d) i kwargs) 0 (limit_of n) k r ∧
       list_of (dict_get (ToolRegistry.metadata d) "redact_keys" (PList [])) = Ok keys ∧
       runs (execute x call).2 = replicate k (RunHandler (ToolRegistry.name d) kwargs) ∧
       (execute x call).1 = after_tool_call (policy x)
         match redacted keys r with
         | Ok v => success_result clock call d (runtime_projection float_repr d) reason v
         | Raise e => failure_result call reason e
         end).
Proof.
  split; [|apply execute_runnable]. split; [apply execute_idle|].
  intros (kwargs & d & n & Hr). destruct (execute_runnable _ _ _ _ _ Hr) as (k & r & keys & Hk & _ & E & _).
  rewrite E. destruct Hk as ((Hk & _) & _). destruct k; [lia|]. done.
Qed.

(** ** Every result is checked *)

(** What the deterministic-first policy promises of a result. *)
Definition checked (r : ToolResult) : Prop :=
  mode_used (tr_execution r) = DETERMINISTIC ∧
  (tr_status r = SUCCESS →
   tr_result r ≠ None ∧ ∃ a, tr_audit r = Some a ∧ py_strip (correlation_id a) ≠ "").

Lemma postcheck_error_checked r reason : checked (postcheck_error r reason).
Proof.
  unfold postcheck_error. set (e := new_execution _ _ _ _).
  match goal with |- checked (new_result ?v ?c ?t ?s ?y ?k e ?a) =>
    destruct (tr_new v c t s y k e a) as (Hs & He & _) end.
  split; [rewrite He; apply mode_used_new|]. rewrite Hs. intros E. by destruct error_not_success.
Qed.

Lemma postcheck_checked r : checked (postcheck r).
Proof.
  unfold postcheck. destruct (tr_audit r) as [a|] eqn:Ea; cbn [negb]; [|apply postcheck_error_checked].
  destruct (py_bool (py_strip (correlation_id a))) eqn:Ec; cbn [negb]; [|apply postcheck_error_checked].
  case_bool_decide as Hm; cbn [negb]; [|apply postcheck_error_checked].
  case_bool_decide as Hs; case_bool_decide as Hr; cbn [andb]; try apply postcheck_error_checked;
    (split; [done|]; intros ?; split; [done|]; exists a; split; [done|by apply py_bool_true]).
Qed.

(** Everything an execution answers has passed the policy's check. *)
Lemma execute_after_policy x call : ∃ r, (execute x call).1 = after_tool_call (policy x) r.
Proof.
  unfold ToolExecutor.execute. destruct (validate_call clock call); [by eexists|].
  case_bool_decide; cbn [negb]; [|by eexists].
  destruct (try_execute x call _ _) as [[r|e] effs] eqn:Et; cbn.
  - revert Et. unfold ToolExecutor.try_execute. repeat case_match; try done;
      unfold postchecked in *; simplify_eq; intros; simplify_eq; by eexists.
  - destruct e; by eexists.
Qed.

(** C38: Under the deterministic-first policy every result of the executor, whatever the
    tool, the adapter or the error, reports deterministic execution, and a successful one
    carries a payload and an audit record with a correlation id. *)
Theorem executor_results_checked tools m sink counters adapter hosted call :
  let x := mkExecutor tools (deterministic_first float_repr m) sink counters adapter hosted in
  let r := (execute x call).1 in
  mode_used (tr_execution r) = DETERMINISTIC ∧
  (tr_status r = SUCCESS →
   tr_result r ≠ None ∧ ∃ a, tr_audit r = Some a ∧ py_strip (correlation_id a) ≠ "").
Proof.
  intros x. cbv zeta. destruct (execute_after_policy x call) as [r ->].
  apply postcheck_checked.
Qed.

(** ** What the error codes and counters do not tell *)

(** A handler that raises KeyError is reported like a tool that does not exist. *)
Lemma handler_key_error_reported_as_missing_tool x call kwargs d n msg :
  runnable x call kwargs d n →
  (∀ i, run_handler (ToolRegistry.handler d) i kwargs = Raise (KeyError msg)) →
  runs (execute x call).2 ≠ [] ∧
  (execute x call).1 = after_tool_call (policy x)
    (error_result clock call "TOOL_NOT_FOUND" "tool_registry" (repr_str msg)
       (Some (pd_reason_code (before_tool_call (policy x) call)))).
Proof.
  intros Hr Hh. destruct (execute_runnable _ _ _ _ _ Hr) as (k & r & keys & Hk & _ & E & ->).
  destruct Hk as (Hk & -> & _). split; [rewrite E; destruct k; [lia|done]|].
  cbn beta. by rewrite Hh.
Qed.

(** A call without a call id runs its tool; the caller is told that it failed, and the
    counters show a success and a failure. *)
Lemma blank_call_id_runs_tool x call kwargs d n m v :
  runnable x call kwargs d n → policy x = deterministic_first float_repr m →
  py_strip (tc_call_id call) = "" →
  run_handler (ToolRegistry.handler d) 0 kwargs = Ok v → as_dict v = None →
  runs (execute x call).2 ≠ [] ∧
  tr_status (execute x call).1 = ERROR ∧
  error_code (tr_error (execute x call).1) = "POLICY_POSTCHECK_FAILED".
Proof.
  intros Hr Hp Hid Hv Hnd. destruct (execute_runnable _ _ _ _ _ Hr) as (k & r & keys & Hk & _ & E & ->).
  destruct Hk as (Hk & -> & Hi & _). split; [rewrite E; destruct k; [lia|done]|]. cbn beta.
  assert (k = 1%nat) as ->.
  { destruct (decide (k = 1%nat)); [done|]. destruct (Hi 0) as [e He]; [lia|]. cbn in He. congruence. }
  change (0 + Z.of_nat 1 - 1) with 0. rewrite Hv.
  assert (redacted keys (Ok v) = Ok v) as -> by (by destruct v). rewrite Hp. cbn [after_tool_call deterministic_first].
  set (s := success_result _ _ _ _ _ _).
  assert (tr_audit s = Some (new_audit (tc_call_id call) (Some (pd_reason_code (before_tool_call (policy x) call))))) as Ha.
  { unfold s, success_result. rewrite <- Hp. apply tr_new. }
  assert (postcheck s = postcheck_error s "missing audit correlation_id") as ->
    by (unfold postcheck; by rewrite Ha, correlation_id_new, Hid).
  unfold postcheck_error. split; [apply tr_new|]. by rewrite tr_new_error, error_code_new.
Qed.

(** An error that a hosted adapter answers is counted as a failed post-check, also when the
    check has passed. *)
Lemma hosted_error_counted_as_failed_postcheck x call d kwargs adapter r :
  valid_call call kwargs → pd_decision (before_tool_call (policy x) call) = ALLOW →
  od_get (tc_tool_name call) (registry x) = Some d → hosted_adapter x = Some adapter →
  adapter call d = Ok r → runtime_projection float_repr d = [] → tr_status r = ERROR →
  after_tool_call (policy x) r = r → metrics x = true →
  (execute x call).1 = r ∧ Inc "tool.call.postcheck_failed" ∈ (execute x call).2.
Proof.
  intros Hv Ha Hr Hl Had Hp Hs Hc Hm. unfold hosted_adapter in Hl.
  unfold ToolExecutor.execute, ToolExecutor.try_execute, ToolRegistry.resolve.
  rewrite (validate_call_valid _ _ Hv), bool_decide_eq_true_2, Hr, Hl, Had by done. cbn [negb].
  unfold add_projection. rewrite Hp. unfold postchecked, inc. rewrite Hc, Hs, Hm. cbn.
  rewrite (bool_decide_eq_false_2 _ error_not_success), (bool_decide_eq_true_2 (ERROR = ERROR)) by done.
  split; [done|]. set_solver.
Qed.
End facts.
