(* ===== verification/ToolPlugins.v ===== *)
(** * Tool plugins

    Models src/tools/plugins/plugin_manager.py with plugin_contract.py: plugins of tool descriptors, loaded
    into and unloaded from the tool registry that the executor resolves tools in (ToolExecutor.v).  An
    operation that may raise after it has changed the manager returns the manager with its answer. *)

From S2P Require Import Prelude PyValue ToolIO Sample ToolExecutor.

Record PluginManifest := mkManifest {
  plugin_id : string;
  plugin_version : string;
  compatible_core_major : Z;
  display_name : string;
  manifest_metadata : list (string * string);
}.

Section plugins.
Context `{!ToolIO} {Handler : Type}.
Notation descriptor := (ToolRegistry.ToolDescriptor Handler).
Notation registry := (list (string * descriptor)).
Implicit Types (r : registry).

Record ToolPlugin := mkToolPlugin { manifest : PluginManifest; tools : list descriptor }.

Record PluginManager := mkPluginManager {
  pm_registry : registry;
  core_major_version : Z;
  plugins : list (string * ToolPlugin);
  plugin_tool_names : list (string * list string);
}.

Definition new_manager r (core_major_version : Z) : PluginManager := mkPluginManager r core_major_version [] [].

Definition quoted (s : string) : string := "'" +:+ s +:+ "'".

Definition validate_compatibility (m : PluginManager) (p : ToolPlugin) : res unit :=
  guard! compatible_core_major (manifest p) =? core_major_version m
    else ValueError ("Plugin " +:+ quoted (plugin_id (manifest p)) +:+ " requires core major "
           +:+ str_of_Z (compatible_core_major (manifest p)) +:+ ", expected "
           +:+ str_of_Z (core_major_version m)) in
  Ok tt.

(** The loop over [plugin.tools] *)
Definition register_all r (l : list descriptor) : registry := foldl ToolRegistry.register r l.

(** The loop of [unload_plugin]: a tool that is missing is passed over. *)
Definition unregister_all r (names : list string) : registry :=
  foldl (λ r name, match ToolRegistry.unregister r name with Ok r => r | Raise _ => r end) r names.

Definition load_plugin (m : PluginManager) (p : ToolPlugin) : res PluginManager :=
  let! _ := validate_compatibility m p in
  let id := plugin_id (manifest p) in
  guard! negb (od_mem id (plugins m)) else ValueError ("Plugin " +:+ quoted id +:+ " is already loaded") in
  Ok (mkPluginManager (register_all (pm_registry m) (tools p)) (core_major_version m)
        (od_set id p (plugins m)) (od_set id (ToolRegistry.name <$> tools p) (plugin_tool_names m))).

Definition unload_plugin (m : PluginManager) (id : string) (active : bool) : res PluginManager :=
  guard! negb active else RuntimeError "Cannot unload plugin while active non-idempotent tasks exist" in
  guard! od_mem id (plugins m) else KeyError ("Plugin " +:+ quoted id +:+ " is not loaded") in
  Ok (mkPluginManager (unregister_all (pm_registry m) (od_get_default [] id (plugin_tool_names m)))
        (core_major_version m) (od_pop id (plugins m)) (od_pop id (plugin_tool_names m))).

Definition reload_plugin (m : PluginManager) (p : ToolPlugin) (active : bool) : res unit * PluginManager :=
  let id := plugin_id (manifest p) in
  match (if od_mem id (plugins m) then unload_plugin m id active else Ok m) with
  | Raise e => (Raise e, m)
  | Ok m =>
      match load_plugin m p with
      | Raise e => (Raise e, m)
      | Ok m => (Ok tt, m)
      end
  end.

Definition list_plugins (m : PluginManager) : list string := sorted_strings (od_keys (plugins m)).

(** ** What the manager guarantees *)

Implicit Types (m : PluginManager) (p : ToolPlugin).

(** The tools of a plugin, as entries of the registry *)
Definition entries (l : list descriptor) : registry := (λ d, (ToolRegistry.name d, d)) <$> l.

Lemma register_all_fresh r l :
  NoDup (ToolRegistry.name <$> l) → (∀ d, d ∈ l → od_get (ToolRegistry.name d) r = None) →
  register_all r l = r ++ entries l.
Proof.
  unfold register_all. revert r. induction l as [|d l IH]; intros r Hnd Hf; [by rewrite app_nil_r|].
  apply NoDup_cons in Hnd as [Hd Hnd]. cbn [foldl]. rewrite IH; [|done|].
  - unfold ToolRegistry.register. rewrite od_set_fresh by (apply Hf; left). by rewrite <- app_assoc.
  - intros e He. unfold ToolRegistry.register. rewrite od_get_set_ne; [apply Hf; by right|].
    intros E. apply Hd. rewrite <- E. by apply list_elem_of_fmap_2.
Qed.

Lemma unregister_all_spec r names : unregister_all r names = filter (λ q, q.1 ∉ names) r.
Proof.
  rewrite <- od_pop_all_filter. unfold unregister_all, od_pop_all. revert r.
  induction names as [|name names IH]; intros r; [done|]. cbn [foldl].
  rewrite IH. f_equal. unfold ToolRegistry.unregister, od_mem. case_bool_decide as Hm; [done|].
  symmetry. apply od_pop_fresh. by apply eq_None_not_Some.
Qed.

Definition names_of (p : ToolPlugin) : list string := ToolRegistry.name <$> tools p.

(** The tools of plugins, in the order in which they were loaded *)
Definition contents (ps : list (string * ToolPlugin)) : registry := ps ≫= λ q, entries (tools q.2).

(** The manager over the registry [base]: what is registered is what was there and the tools of the
    loaded plugins, under names of their own. *)
Record manager_ok (base : registry) (m : PluginManager) : Prop := {
  mo_registry : pm_registry m = base ++ contents (plugins m);
  mo_distinct : od_wf (pm_registry m);
  mo_plugins : od_wf (plugins m);
  mo_names : plugin_tool_names m = od_map (λ _, names_of) (plugins m);
}.

Lemma entries_keys l : od_keys (entries l) = ToolRegistry.name <$> l.
Proof. unfold od_keys, entries. rewrite <- list_fmap_compose. done. Qed.

Lemma filter_contents base ps id p :
  od_wf (base ++ contents ps) → od_wf ps → od_get id ps = Some p →
  filter (λ q, q.1 ∉ names_of p) (base ++ contents ps) = base ++ contents (od_pop id ps).
Proof.
  intros Hw Hps Hp. apply od_get_elem in Hp. apply list_elem_of_split in Hp as (l1 & l2 & ->).
  unfold contents in *. rewrite bind_app, bind_cons in *. cbn [snd] in *. fold (contents l1) (contents l2) in *.
  assert (od_pop id (l1 ++ (id, p) :: l2) = l1 ++ l2) as ->.
  { unfold od_wf, od_keys in Hps. rewrite fmap_app, fmap_cons in Hps.
    apply NoDup_app in Hps as (_ & Hd & [Hid _]%NoDup_cons). cbn [fst] in *.
    rewrite od_pop_filter, filter_app, filter_cons_False by (cbn; by intros []).
    rewrite !filter_all_in; [done|..]; intros q Hq E; subst id.
    - apply Hid. by apply list_elem_of_fmap_2.
    - apply (Hd q.1); [by apply list_elem_of_fmap_2|left]. }
  rewrite bind_app. fold (contents l1) (contents l2).
  unfold od_wf, od_keys in Hw. rewrite !fmap_app in Hw. fold (od_keys (entries (tools p))) in Hw.
  rewrite entries_keys in Hw. fold (names_of p) in Hw.
  apply NoDup_app in Hw as (_ & Hb & Hw). apply NoDup_app in Hw as (_ & H1 & Hw). apply NoDup_app in Hw as (_ & H2 & _).
  rewrite !filter_app. rewrite (filter_all_in _ base), (filter_all_in _ (contents l1)), (filter_all_in _ (contents l2)).
  - f_equal. f_equal. rewrite filter_all_out; [done|]. intros q Hq Hn. apply Hn. unfold names_of.
    rewrite <- entries_keys. by apply list_elem_of_fmap_2.
  - intros q Hq Hn. apply (H2 q.1 Hn). by apply list_elem_of_fmap_2.
  - intros q Hq Hn. apply (H1 q.1); [by apply list_elem_of_fmap_2|]. apply elem_of_app. by left.
  - intros q Hq Hn. apply (Hb q.1); [by apply list_elem_of_fmap_2|]. apply elem_of_app. right. apply elem_of_app. by left.
Qed.

(** The tools of [p] have names that nothing registered has, but for the plugin it replaces. *)
Definition own_names (m : PluginManager) (p : ToolPlugin) : Prop :=
  NoDup (names_of p) ∧
  ∀ name, name ∈ names_of p → od_get name (pm_registry m) = None ∨
    ∃ old, od_get (plugin_id (manifest p)) (plugins m) = Some old ∧ name ∈ names_of old.

Lemma tool_load_ok base m p m' :
  manager_ok base m → own_names m p → load_plugin m p = Ok m' →
  manager_ok base m' ∧ od_get (plugin_id (manifest p)) (plugins m) = None ∧
  plugins m' = plugins m ++ [(plugin_id (manifest p), p)].
Proof.
  intros Hm [Hnd Hown]. unfold load_plugin, validate_compatibility. destruct (_ =? _); [|done]. cbn [res_bind].
  unfold od_mem. case_bool_decide as Hl; [done|]. apply eq_None_not_Some in Hl. intros [= <-].
  assert (∀ name, name ∈ names_of p → od_get name (pm_registry m) = None) as Hfresh.
  { intros name Hn. destruct (Hown name Hn) as [|(old & Ho & _)]; [done|congruence]. }
  assert (register_all (pm_registry m) (tools p) = pm_registry m ++ entries (tools p)) as Hr.
  { apply register_all_fresh; [done|]. intros d Hd. apply Hfresh. by apply list_elem_of_fmap_2. }
  split; [|split; [done|by rewrite od_set_fresh]].
  split; cbn [pm_registry plugins plugin_tool_names].
  - rewrite Hr, (mo_registry _ _ Hm), od_set_fresh by done. unfold contents. rewrite bind_app. cbn.
    by rewrite app_nil_r, app_assoc.
  - rewrite Hr. unfold od_wf, od_keys. rewrite fmap_app. fold (od_keys (entries (tools p))). rewrite entries_keys.
    apply NoDup_app. split; [exact (mo_distinct _ _ Hm)|]. split; [|exact Hnd].
    intros name Hn Hp. apply (od_get_None name) in Hn; [done|]. by apply Hfresh.
  - apply od_wf_set. exact (mo_plugins _ _ Hm).
  - rewrite (mo_names _ _ Hm). by rewrite od_map_set.
Qed.

Lemma tool_unload_ok base m id active m' :
  manager_ok base m → unload_plugin m id active = Ok m' →
  manager_ok base m' ∧ active = false ∧ plugins m' = od_pop id (plugins m) ∧
  ∃ p, od_get id (plugins m) = Some p ∧ pm_registry m' = filter (λ q, q.1 ∉ names_of p) (pm_registry m).
Proof.
  intros Hm. unfold unload_plugin. destruct active; [done|]. cbn [negb]. unfold od_mem.
  case_bool_decide as Hl; [|done]. destruct Hl as [p Hp]. intros [= <-].
  assert (od_get_default [] id (plugin_tool_names m) = names_of p) as Hn.
  { unfold od_get_default. by rewrite (mo_names _ _ Hm), od_get_map, Hp. }
  rewrite Hn, unregister_all_spec. cbn [plugins pm_registry].
  split; [|split; [done|split; [done|by exists p]]].
  pose proof (mo_distinct _ _ Hm) as Hd. pose proof (mo_registry _ _ Hm) as Hr.
  split; cbn [pm_registry plugins plugin_tool_names].
  - rewrite Hr in Hd |- *. by apply filter_contents; [|exact (mo_plugins _ _ Hm)|].
  - rewrite <- od_pop_all_filter. by apply od_wf_pop_all.
  - apply od_wf_pop. exact (mo_plugins _ _ Hm).
  - rewrite (mo_names _ _ Hm). by rewrite od_map_pop.
Qed.

(** What may be done to a manager; a failed reload too leaves the manager it gives. *)
Inductive plugin_step : relation PluginManager :=
| step_load m p m' : own_names m p → load_plugin m p = Ok m' → plugin_step m m'
| step_unload m id m' : unload_plugin m id false = Ok m' → plugin_step m m'
| step_reload m p active : own_names m p → plugin_step m (reload_plugin m p active).2.

Lemma unloaded_own_names base m p m' active :
  manager_ok base m → own_names m p → unload_plugin m (plugin_id (manifest p)) active = Ok m' → own_names m' p.
Proof.
  intros Hm [Hnd Hown] Hu. destruct (tool_unload_ok _ _ _ _ _ Hm Hu) as (_ & _ & _ & old & Hold & Hr).
  split; [done|]. intros name Hn. left. rewrite Hr. apply od_get_None. intros Hk. unfold od_keys in Hk.
  apply list_elem_of_fmap in Hk as (q & -> & Hq). apply list_elem_of_filter in Hq as [Hout Hq].
  destruct (Hown q.1 Hn) as [Hnone|(old' & Hold' & Hin)]; [|congruence].
  apply od_get_None in Hnone. apply Hnone. by apply list_elem_of_fmap_2.
Qed.

Lemma tool_plugin_step_ok base m m' : manager_ok base m → plugin_step m m' → manager_ok base m'.
Proof.
  intros Hm Hs. destruct Hs as [m p m' Hp Hl|m id m' Hu|m p active Hp].
  - by destruct (tool_load_ok _ _ _ _ Hm Hp Hl).
  - by destruct (tool_unload_ok _ _ _ _ _ Hm Hu).
  - unfold reload_plugin. destruct (od_mem _ _).
    + destruct (unload_plugin m _ active) as [m1|e] eqn:Eu; [|done].
      pose proof (unloaded_own_names _ _ _ _ _ Hm Hp Eu) as Hp1. destruct (tool_unload_ok _ _ _ _ _ Hm Eu) as [Hm1 _].
      destruct (load_plugin m1 p) as [m2|e] eqn:El; [|done]. by destruct (tool_load_ok _ _ _ _ Hm1 Hp1 El).
    + destruct (load_plugin m p) as [m2|e] eqn:El; [|done]. by destruct (tool_load_ok _ _ _ _ Hm Hp El).
Qed.

(** As long as every plugin is loaded with tool names of its own, what the executor can resolve are the tools
    that were there and exactly the tools of the loaded plugins, whatever was loaded, unloaded and
    reloaded before, successfully or not. *)
Theorem resolvable_tools_are_loaded base core m name d :
  od_wf base → rtc plugin_step (new_manager base core) m →
  ToolRegistry.resolve (pm_registry m) name = Ok d ↔
  (name, d) ∈ base ∨
  ∃ id p, od_get id (plugins m) = Some p ∧ d ∈ tools p ∧ name = ToolRegistry.name d.
Proof.
  intros Hb Hm. assert (manager_ok base m) as [Hr Hw Hps _].
  { assert (manager_ok base (new_manager base core)) as Hinit.
    { split; cbn; [by rewrite app_nil_r|done|apply NoDup_nil_2|done]. }
    induction Hm as [|m1 m2 m3 Hs _ IH]; [done|]. eauto using tool_plugin_step_ok. }
  assert (ToolRegistry.resolve (pm_registry m) name = Ok d ↔ (name, d) ∈ pm_registry m) as ->.
  { unfold ToolRegistry.resolve. split.
    - destruct (od_get _ _) as [d'|] eqn:E; [|done]. intros [= <-]. by apply od_get_elem.
    - intros Hin. by rewrite (od_elem_get _ _ _ Hw Hin). }
  rewrite Hr, elem_of_app. unfold contents. rewrite list_elem_of_bind. split.
  - intros [?|([id p] & Hin & Hp)]; [by left|right]. unfold entries in Hin.
    apply list_elem_of_fmap in Hin as (d' & [= -> <-] & Hd). exists id, p. split_and!; try done.
    by apply od_elem_get.
  - intros [?|(id & p & Hp & Hd & ->)]; [by left|right]. exists (id, p). split; [|by apply od_get_elem].
    unfold entries. cbn. apply list_elem_of_fmap. by exists d.
Qed.
End plugins.
Arguments ToolPlugin {_} Handler.
Arguments PluginManager {_} Handler.

(** ** Concrete plugins *)
Module ToolPluginExamples.
Import Sample.

Definition tool (name description : string) : ToolRegistry.ToolDescriptor unit :=
  ToolRegistry.mkDescriptor name tt Low false 1000 description [] [].

Definition plugin (id : string) (major : Z) (l : list (ToolRegistry.ToolDescriptor unit)) : ToolPlugin unit :=
  mkToolPlugin (mkManifest id "1.0" major id []) l.

Definition start : PluginManager unit := new_manager [("echo", tool "echo" "built in")] 1.

Definition search : ToolPlugin unit := plugin "search" 1 [tool "find" "finds"].

Definition with_search : PluginManager unit :=
  match load_plugin start search with Ok m => m | Raise _ => start end.

Lemma resolvable_tools_are_loaded_witness :
  od_wf (pm_registry start) ∧ rtc plugin_step start with_search ∧
  ToolRegistry.resolve (pm_registry with_search) "find" = Ok (tool "find" "finds").
Proof.
  assert (od_wf (pm_registry start)) as Hw by (apply NoDup_singleton).
  assert (rtc plugin_step start with_search) as Hs.
  { apply rtc_once. apply (step_load start search with_search); [|reflexivity]. split; [apply NoDup_singleton|].
    intros name Hn. apply list_elem_of_singleton in Hn as ->. left. reflexivity. }
  split; [exact Hw|]. split; [exact Hs|].
  apply (resolvable_tools_are_loaded (pm_registry start) 1 with_search "find" (tool "find" "finds") Hw Hs).
  right. exists "search", search. split_and!; [reflexivity|left|reflexivity].
Defined.

(** A plugin may have a tool under a name that is taken: it replaces the tool, and unloading it removes the
    name, so the built-in tool is gone. *)
Lemma shadowed_tool_is_lost :
  match load_plugin start (plugin "other" 1 [tool "echo" "another"]) with
  | Ok m =>
      match unload_plugin m "other" false with
      | Ok m' => is_ok (ToolRegistry.resolve (pm_registry m') "echo") = false
      | Raise _ => False
      end
  | Raise _ => False
  end.
Proof. vm_compute. done. Qed.

(** A reload to an incompatible version unloads the plugin and loads nothing. *)
Lemma failed_reload_unloads :
  let '(answer, m) := reload_plugin with_search (plugin "search" 2 [tool "find" "finds more"]) false in
  is_ok answer = false ∧ plugins m = [] ∧ is_ok (ToolRegistry.resolve (pm_registry m) "find") = false.
Proof. vm_compute. done. Qed.
End ToolPluginExamples.
