(* ===== verification/Identity.v ===== *)
(** * Identity and session context

    Models src/identity/contracts.py, src/identity/resolver.py and
    src/core/session_context.py. *)

From S2P Require Import Prelude PyValue.

(** ** src/identity/contracts.py *)

Inductive ActorType := Human | Service.

Inductive TokenValidationState :=
| TokenUnknown | TokenValid | TokenInvalid | TokenExpired | TokenRotationRequired.

#[export] Instance TokenValidationState_eq_dec : EqDecision TokenValidationState.
Proof. solve_decision. Defined.

Definition actor_type_of (s : string) : option ActorType :=
  if s =?s "human" then Some Human
  else if s =?s "service" then Some Service else None.

Definition token_state_of (s : string) : option TokenValidationState :=
  if s =?s "unknown" then Some TokenUnknown
  else if s =?s "valid" then Some TokenValid
  else if s =?s "invalid" then Some TokenInvalid
  else if s =?s "expired" then Some TokenExpired
  else if s =?s "rotation_required" then Some TokenRotationRequired else None.

Record IdentityContext := mkIdentityContext {
  id_subject : string;
  id_actor_type : ActorType;
  id_roles : list string;
  id_tenant_id : string;
  id_token_id : string;
  id_token_validation_state : TokenValidationState;
  id_token_issued_at_utc : string;
  id_token_expires_at_utc : string;
  id_token_rotation_required : bool;
}.

(** ** src/core/session_context.py *)

Record SessionContext := mkSessionContext {
  sc_session_id : string;
  sc_run_id : string;
  sc_job_id : string;
  sc_task_id : string;
  sc_agent_id : string;
  sc_provider_id : string;
  sc_correlation_id : string;
  sc_identity : option IdentityContext;
  sc_metadata : pydict;
}.

(** [dict(x)]: a mapping, or a sequence of key/value pairs. *)
Fixpoint dict_of_pairs (l : list pyval) : res pydict :=
  match l with
  | [] => Ok []
  | PList [PStr k; v] :: l =>
      let! d := dict_of_pairs l in
      Ok (if od_mem k d then (k, default v (od_get k d)) :: od_pop k d else (k, v) :: d)
  | _ => Raise (OtherException "cannot convert dictionary update sequence element to a sequence")
  end.

Definition py_dict (v : pyval) : res pydict :=
  match v with
  | PDict d => Ok d
  | PList l => dict_of_pairs l
  | PStr s => if py_bool s
              then Raise (ValueError "dictionary update sequence element #0 has length 1; 2 is required")
              else Ok []
  | _ => Raise (OtherException "object is not iterable")
  end.

Section identity.
Variable float_repr : Q → string.
#[local] Notation str_of := (py_str float_repr).
#[local] Notation get_str := (dict_get_str float_repr).

(** ** src/identity/resolver.py *)
Definition resolve_identity (raw : pyval) : option IdentityContext :=
  match as_dict raw with
  | None => None
  | Some raw =>
      let subject := py_strip (get_str raw "subject" "") in
      if negb (py_bool subject) then None
      else
        let actor_raw := py_lower (py_strip (get_str raw "actor_type" "human")) in
        let actor_type := default Human (actor_type_of actor_raw) in
        let roles :=
          match as_list (dict_get raw "roles" (PList [])) with
          | Some l => filter (λ s, s ≠ "") ((λ role, py_strip (str_of role)) <$> l)
          | None => []
          end in
        let raw_token_state :=
          py_lower (py_strip (get_str raw "token_validation_state" "unknown")) in
        let token_state := default TokenUnknown (token_state_of raw_token_state) in
        let rotation := truthy (dict_get raw "token_rotation_required" (PBool false)) in
        let rotation :=
          if decide (token_state = TokenRotationRequired) then true else rotation in
        Some (mkIdentityContext subject actor_type roles
          (py_or (py_strip (get_str raw "tenant_id" "default")) "default")
          (py_strip (get_str raw "token_id" ""))
          token_state
          (py_strip (get_str raw "token_issued_at_utc" ""))
          (py_strip (get_str raw "token_expires_at_utc" ""))
          rotation)
  end.

(** [SessionContext.from_runtime_context] *)
Definition from_runtime_context (session_id : string) (context : pydict)
    : res SessionContext :=
  let! metadata := py_dict (dict_get context "session_metadata" (PDict [])) in
  Ok (mkSessionContext session_id
    (get_str context "run_id" "run_unknown")
    (get_str context "job_id" "job_unknown")
    (get_str context "task_id" "task_unknown")
    (get_str context "agent_id" "agent_unknown")
    (get_str context "provider_id" "default")
    (str_of (dict_get context "correlation_id"
              (dict_get context "run_id" (PStr "corr_unknown"))))
    (resolve_identity (dict_get context "identity" PNone))
    metadata).

(** An identity is resolved exactly from an object with a non-blank
    subject, and what is resolved is well formed: the subject, the tenant and
    every role are non-empty, and a token in state rotation_required always
    carries the rotation flag. *)
Theorem resolve_identity_well_formed raw :
  (is_Some (resolve_identity raw) ↔
     ∃ d, raw = PDict d ∧ py_strip (get_str d "subject" "") ≠ "") ∧
  (∀ i, resolve_identity raw = Some i →
     id_subject i ≠ "" ∧ id_tenant_id i ≠ "" ∧ Forall (λ r, r ≠ "") (id_roles i) ∧
     (id_token_validation_state i = TokenRotationRequired →
        id_token_rotation_required i = true)).
Proof.
  unfold resolve_identity. destruct raw as [| | | | | |d]; simpl;
    try (split; [split; [intros [? [=]]|intros (? & [=] & _)]|done]).
  destruct (py_bool (py_strip (get_str d "subject" ""))) eqn:E; simpl.
  - apply py_bool_true in E. split; [split; eauto|].
    intros i [= <-]; simpl. split; [done|]. split; [by apply py_or_nonempty|].
    split; [|by intros ->].
    destruct (as_list _) as [l|]; [|by apply Forall_nil_2].
    apply Forall_forall. intros r Hr. by apply list_elem_of_filter in Hr as [??].
  - apply py_bool_false in E. split; [|done]. split; [by intros [? [=]]|].
    intros (d' & [= <-] & Hne). done.
Qed.
End identity.
