(* ===== verification/Authentication.v ===== *)
(** * Authentication and tenant scope of requests

    Models src/identity/jwt_resolver.py, src/api/middleware/auth.py, the identity
    dependencies of src/api/dependencies.py, src/modules/identity_access/service.py and
    SQLiteApiKeyStore of src/persistence/adapters/sqlite.py.  A request is its path and its
    headers; [app] is what the application state holds for it.  Parameters: SHA-256, the
    JWT library ([jwt_decode], [jwks_signing_key]), [json.loads], random hex digits. *)

From S2P Require Import Prelude PyValue Identity.

(** What a route handler gives: an answer, or [HTTPException(status_code, detail)]. *)
Inductive http (A : Type) :=
| Reply (a : A)
| HTTPException (status_code : Z) (detail : string).
Arguments Reply {A} a.
Arguments HTTPException {A} status_code detail.

Definition http_bind {A B} (m : http A) (k : A → http B) : http B :=
  match m with
  | Reply a => k a
  | HTTPException c d => HTTPException c d
  end.

Notation "'let?' x ':=' m 'in' k" := (http_bind m (fun x => k))
  (at level 200, x binder, m at level 100, k at level 200,
   format "'let?'  x  ':='  m  'in' '//' k") : py_scope.

Lemma http_bind_reply {A B} (m : http A) (k : A → http B) b :
  http_bind m k = Reply b ↔ ∃ a, m = Reply a ∧ k a = Reply b.
Proof. destruct m; cbn; naive_solver. Qed.

(** An exception that is not caught *)
Definition internal_error {A} (e : exn) : http A := HTTPException 500 (exn_message e).

Definition or_500 {A} (r : res A) : http A :=
  match r with Ok a => Reply a | Raise e => internal_error e end.

(** [except ValueError as exc: raise HTTPException(status_code, str(exc))] *)
Definition value_error_as {A} (status_code : Z) (r : res A) : http A :=
  match r with
  | Ok a => Reply a
  | Raise (ValueError m) => HTTPException status_code m
  | Raise e => internal_error e
  end.

Lemma value_error_as_reply {A} code (r : res A) a : value_error_as code r = Reply a ↔ r = Ok a.
Proof. destruct r as [|[]]; cbn; naive_solver. Qed.

(** [s[n:]] and [s.split(c)] *)
Fixpoint str_drop (n : nat) (s : string) : string :=
  match n, s with
  | S n', String _ s' => str_drop n' s'
  | _, _ => s
  end.

Fixpoint split_on (c : ascii) (s : string) : list string :=
  match s with
  | EmptyString => [EmptyString]
  | String c' s' =>
      if bool_decide (c' = c) then EmptyString :: split_on c s'
      else match split_on c s' with
           | w :: ws => String c' w :: ws
           | [] => [String c' EmptyString]
           end
  end.

Definition comma : ascii := Ascii.ascii_of_nat 44.

(** ** src/identity/jwt_resolver.py *)

(** What [jwt.decode] does with a token. *)
Inductive jwt_outcome := Claims (payload : pydict) | ExpiredSignature | InvalidToken.

Definition symmetric_algorithms : list string := ["HS256"; "HS384"; "HS512"].
Definition asymmetric_algorithms : list string :=
  ["RS256"; "RS384"; "RS512"; "ES256"; "ES384"; "ES512"].

Section jwt.
Variable float_repr : Q → string.
Context {Key : Type}.
Variable secret_key : string → Key.
Variable jwt_decode : string → Key → list string → jwt_outcome.
(** [PyJWKClient(url).get_signing_key_from_jwt(token)]: the key and its algorithm's name,
    None when it raises. *)
Variable jwks_signing_key : string → string → option (Key * string).

#[local] Notation get_str := (dict_get_str float_repr).

Definition identity_from_payload (payload : pydict) : option IdentityContext :=
  let subject := py_strip (get_str payload "sub" "") in
  if negb (py_bool subject) then None
  else
    let roles :=
      match as_list (dict_get payload "roles" (PList [])) with
      | Some l => filter (λ s, s ≠ "") ((λ r, py_strip (py_str float_repr r)) <$> l)
      | None => []
      end in
    Some (mkIdentityContext subject Human roles
      (py_or (py_strip (get_str payload "tenant_id" "default")) "default")
      (py_strip (get_str payload "jti" "")) TokenValid
      (get_str payload "iat" "") (get_str payload "exp" "") false).

Definition expired_identity : IdentityContext :=
  mkIdentityContext "" Human [] "default" "" TokenExpired "" "" false.

Definition of_outcome (o : jwt_outcome) : option IdentityContext :=
  match o with
  | ExpiredSignature => Some expired_identity
  | InvalidToken => None
  | Claims payload => identity_from_payload payload
  end.

Definition decode_jwt (token secret algorithm : string) : option IdentityContext :=
  if negb (py_bool secret) && bool_decide (algorithm ∈ symmetric_algorithms) then None
  else of_outcome (jwt_decode token (secret_key secret) [algorithm]).

Definition decode_jwt_from_jwks (token jwks_url : string) : option IdentityContext :=
  let url := py_strip jwks_url in
  if negb (py_bool url) then None
  else
    match jwks_signing_key url token with
    | None => None
    | Some (key, name) =>
        let alg_name := py_upper (py_strip name) in
        let algorithms :=
          if decide (alg_name ∈ asymmetric_algorithms) then [alg_name]
          else sorted_strings asymmetric_algorithms in
        of_outcome (jwt_decode token key algorithms)
    end.
End jwt.

(** ** API keys *)

Record ApiKeyRecord := mkApiKey {
  ak_key_id : string;
  ak_tenant_id : string;
  ak_subject : string;
  ak_key_hash : string;
  ak_roles : list string;
  ak_description : string;
  ak_enabled : bool;
  ak_created_at : string;
}.

(** The table [api_keys] in rowid order, a row without its primary key. *)
Module SQLiteApiKeyStore.

Record row := mkRow {
  rw_tenant_id : string;
  rw_subject : string;
  rw_key_hash : string;
  rw_roles_csv : string;
  rw_description : string;
  rw_enabled : Z;
  rw_created_at : string;
}.

Notation t := (list (string * row)).

(** The UNIQUE constraint on key_hash. *)
Definition hash_taken (s : t) (id hash : string) : bool :=
  existsb (λ p, negb (p.1 =?s id) && (rw_key_hash p.2 =?s hash)) s.

Definition save_key (s : t) (r : ApiKeyRecord) : res t :=
  guard! negb (hash_taken s (ak_key_id r) (ak_key_hash r))
    else OtherException "UNIQUE constraint failed: api_keys.key_hash" in
  Ok (od_set (ak_key_id r)
        (mkRow (ak_tenant_id r) (ak_subject r) (ak_key_hash r) (join "," (ak_roles r))
           (ak_description r) (if ak_enabled r then 1 else 0) (ak_created_at r)) s).

Definition row_roles (csv : string) : list string :=
  if py_bool csv then filter (λ r, r ≠ "") (py_strip <$> split_on comma csv) else [].

Definition row_to_record (id : string) (r : row) : ApiKeyRecord :=
  mkApiKey id (rw_tenant_id r) (rw_subject r) (rw_key_hash r) (row_roles (rw_roles_csv r))
    (rw_description r) (negb (rw_enabled r =? 0)) (rw_created_at r).

Definition get_key (s : t) (key_id : string) : option ApiKeyRecord :=
  row_to_record key_id <$> od_get key_id s.

Definition lookup_by_hash (s : t) (key_hash : string) : option ApiKeyRecord :=
  (λ p, row_to_record p.1 p.2) <$>
    head (filter (λ p, rw_key_hash p.2 = key_hash ∧ rw_enabled p.2 = 1) s).

Definition delete_key (s : t) (key_id : string) : t := od_pop key_id s.

(** [ORDER BY created_at ASC] *)
Definition created_le (p q : string * row) : Prop :=
  String.le (rw_created_at p.2) (rw_created_at q.2).

#[global] Instance created_le_dec : RelDecision created_le.
Proof. intros p q. unfold created_le. apply _. Defined.

Definition list_keys (s : t) (tenant_id : option string) : list ApiKeyRecord :=
  let rows := match tenant_id with
              | Some tenant => filter (λ p, rw_tenant_id p.2 = tenant) s
              | None => s
              end in
  (λ p, row_to_record p.1 p.2) <$> sort_by created_le rows.

(** Key ids and hashes are unique. *)
Definition wf (s : t) : Prop := od_wf s ∧ NoDup ((λ p, rw_key_hash p.2) <$> s).

End SQLiteApiKeyStore.

(** ** src/modules/identity_access/service.py *)
Module IdentityAccessService.

Definition platform_admin_roles : list string := ["platform_admin"; "super_admin"].

Record t := mkService {
  api_key_store : option SQLiteApiKeyStore.t;
  allow_cross_tenant_admin : bool;
  cross_tenant_admin_roles : list string;
}.

Definition is_platform_admin (i : IdentityContext) : bool :=
  existsb (λ r, bool_decide (py_strip r ∈ platform_admin_roles)) (id_roles i).

Definition require_platform_admin (i : IdentityContext) (surface : string) : http unit :=
  if is_platform_admin i then Reply tt
  else HTTPException 403
    ("PLATFORM_ADMIN_REQUIRED: '" +:+ surface
     +:+ "' requires one of the platform admin roles ['platform_admin', 'super_admin'].").

Definition allow_cross_tenant_admin_access (s : t) (i : IdentityContext) : bool :=
  let allowed := filter (λ r, r ≠ "") (py_strip <$> cross_tenant_admin_roles s) in
  allow_cross_tenant_admin s && existsb (λ r, bool_decide (py_strip r ∈ allowed)) (id_roles i).

Definition scoped_tenant_id (i : IdentityContext) (requested_tenant_id : option string)
    : http (option string) :=
  let requested := py_strip (default "" requested_tenant_id) in
  let own := py_strip (id_tenant_id i) in
  if py_bool requested then
    if requested =?s own then Reply (Some requested)
    else let? _ := require_platform_admin i "tenant_scope_override" in Reply (Some requested)
  else Reply (if py_bool own then Some own else None).

Definition require_api_key_store (s : t) : http SQLiteApiKeyStore.t :=
  match api_key_store s with
  | Some store => Reply store
  | None => HTTPException 503 "API key store is not configured on this server."
  end.

Definition with_store (s : t) (store : SQLiteApiKeyStore.t) : t :=
  mkService (Some store) (allow_cross_tenant_admin s) (cross_tenant_admin_roles s).

Section service.
Variable sha256_hex : string → string.

(** [raw] and [key_id] are the random hex digits drawn, [now] the time; a store that
    refuses the row makes the request fail with 500. *)
Definition create_api_key (s : t) (raw key_id now : string) (i : IdentityContext)
    (tenant_id subject : string) (roles : list string) (description : string)
    : http (ApiKeyRecord * string * t) :=
  let? _ := require_platform_admin i "admin/keys:create" in
  let? store := require_api_key_store s in
  let tenant := py_strip tenant_id in
  if negb (py_bool tenant) then HTTPException 422 "tenant_id is required."
  else
    let raw_key := "exo_" +:+ raw in
    let record := mkApiKey key_id tenant subject (sha256_hex raw_key)
      (filter (λ r, r ≠ "") (py_strip <$> roles)) description true now in
    match SQLiteApiKeyStore.save_key store record with
    | Ok store => Reply (record, raw_key, with_store s store)
    | Raise e => HTTPException 500 (exn_message e)
    end.
End service.

Definition list_api_keys (s : t) (i : IdentityContext) (requested_tenant_id : option string)
    : http (list ApiKeyRecord) :=
  let? _ := require_platform_admin i "admin/keys:list" in
  let? store := require_api_key_store s in
  let? tenant := scoped_tenant_id i requested_tenant_id in
  Reply (SQLiteApiKeyStore.list_keys store tenant).

Definition delete_api_key (s : t) (i : IdentityContext) (key_id : string)
    : http (ApiKeyRecord * t) :=
  let? _ := require_platform_admin i "admin/keys:delete" in
  let? store := require_api_key_store s in
  match SQLiteApiKeyStore.get_key store key_id with
  | None => HTTPException 404 ("API key '" +:+ key_id +:+ "' not found.")
  | Some r => Reply (r, with_store s (SQLiteApiKeyStore.delete_key store key_id))
  end.

End IdentityAccessService.

(** ** src/api/middleware/auth.py and src/api/dependencies.py *)

Record AuthSettings := mkAuth {
  jwt_secret : string;
  jwks_url : string;
  algorithm : string;
  au_allow_cross_tenant_admin : bool;
  au_cross_tenant_admin_roles : list string;
}.

(** The part of [AppModules] that authentication reads. *)
Record Modules := mkModules {
  identity_access : IdentityAccessService.t;
  environment : string;
  auth : AuthSettings;
}.

(** The application state: its modules, and [state.settings.auth] for states without. *)
Record App := mkApp { modules : option Modules; state_auth : option AuthSettings }.

(** A header is looked up by its name whatever the case. *)
Record Request := mkRequest { url_path : string; headers : string → option string }.

Definition test_environments : list string := ["test"; "development"].

Section auth.
Variable float_repr : Q → string.
Variable sha256_hex : string → string.
Variable json_loads : string → option pyval.
Context {Key : Type}.
Variable secret_key : string → Key.
Variable jwt_decode : string → Key → list string → jwt_outcome.
Variable jwks_signing_key : string → string → option (Key * string).

(** [_resolve_from_api_key] *)
Definition key_identity (r : ApiKeyRecord) : IdentityContext :=
  mkIdentityContext (ak_subject r) Human (ak_roles r) (ak_tenant_id r) (ak_key_id r) TokenValid
    "" "" false.

Definition resolve_from_api_key (a : App) (raw_key : string) : option IdentityContext :=
  match modules a with
  | None => None
  | Some m =>
      match IdentityAccessService.api_key_store (identity_access m) with
      | None => None
      | Some store =>
          match SQLiteApiKeyStore.lookup_by_hash store (sha256_hex raw_key) with
          | Some r => if ak_enabled r then Some (key_identity r) else None
          | None => None
          end
      end
  end.

(** [_resolve_from_jwt] *)
Definition resolve_from_jwt (a : App) (token : string) : option IdentityContext :=
  match modules a with
  | None => None
  | Some m =>
      let c := auth m in
      if negb (py_bool (jwt_secret c)) && negb (py_bool (jwks_url c)) then None
      else
        let url := py_strip (jwks_url c) in
        if py_bool url
        then decode_jwt_from_jwks float_repr jwt_decode jwks_signing_key token url
        else decode_jwt float_repr secret_key jwt_decode token (jwt_secret c) (algorithm c)
  end.

Definition environment_of (a : App) : string :=
  match modules a with Some m => environment m | None => "test" end.

Definition header (r : Request) (name : string) : string := default "" (headers r name).

(** The token of an [Authorization: Bearer] header, None when there is no such header. *)
Definition bearer_token (r : Request) : option string :=
  let auth_header := header r "Authorization" in
  if startswith (py_lower auth_header) "bearer " then Some (py_strip (str_drop 7 auth_header))
  else None.

Definition extract_bearer (a : App) (token : string) : option IdentityContext :=
  if negb (py_bool token) then None
  else
    match resolve_from_jwt a token with
    | Some i =>
        if decide (id_token_validation_state i = TokenExpired ∨
                   id_token_validation_state i = TokenValid) then Some i
        else resolve_from_api_key a token
    | None => resolve_from_api_key a token
    end.

Definition extract_identity (a : App) (r : Request) : option IdentityContext :=
  match bearer_token r with
  | Some token => extract_bearer a token
  | None =>
      let raw_api_key := py_strip (header r "X-API-Key") in
      if py_bool raw_api_key then resolve_from_api_key a raw_api_key
      else if decide (environment_of a ∈ test_environments) then
        let raw_header := header r "X-Identity" in
        if negb (py_bool raw_header) then None
        else
          match json_loads raw_header with
          | None => None
          | Some payload => resolve_identity float_repr payload
          end
      else None
  end.

Definition is_identity_usable (i : IdentityContext) : bool :=
  negb (bool_decide (id_token_validation_state i ∈ [TokenInvalid; TokenExpired])).

Definition token_state_value (s : TokenValidationState) : string :=
  match s with
  | TokenUnknown => "unknown" | TokenValid => "valid" | TokenInvalid => "invalid"
  | TokenExpired => "expired" | TokenRotationRequired => "rotation_required"
  end.

Definition get_identity (a : App) (r : Request) : http IdentityContext :=
  match extract_identity a r with
  | Some i => Reply i
  | None => HTTPException 401
      "Authentication required. Provide 'Authorization: Bearer <token>', 'X-API-Key: <key>', or (test/dev only) 'X-Identity: <json>'."
  end.

Definition require_valid_identity (a : App) (r : Request) : http IdentityContext :=
  let? i := get_identity a r in
  if is_identity_usable i then Reply i
  else HTTPException 401 ("Identity rejected: token_validation_state="
                          +:+ token_state_value (id_token_validation_state i)).

(** A route under /tenants/ and /admin/ *)
Definition admin_route (r : Request) : bool :=
  let path := py_strip (url_path r) in
  py_in "/tenants/" path && py_in "/admin/" path.

Definition cross_tenant_admin_allowed (a : App) (r : Request) (i : IdentityContext) : bool :=
  if negb (admin_route r) then false
  else
    match modules a with
    | Some m => IdentityAccessService.allow_cross_tenant_admin_access (identity_access m) i
    | None =>
        match state_auth a with
        | None => false
        | Some c =>
            let allowed := filter (λ s, s ≠ "") (py_strip <$> au_cross_tenant_admin_roles c) in
            au_allow_cross_tenant_admin c
              && existsb (λ role, bool_decide (role ∈ allowed)) (id_roles i)
        end
    end.

Definition enforce_tenant_scope (a : App) (r : Request) (tenant_id : string) (i : IdentityContext)
    : http unit :=
  let identity_tenant := py_strip (id_tenant_id i) in
  let path_tenant := py_strip tenant_id in
  if py_bool identity_tenant && (identity_tenant =?s path_tenant) then Reply tt
  else if cross_tenant_admin_allowed a r i then Reply tt
  else HTTPException 403
    ("TENANT_SCOPE_MISMATCH: authenticated identity is not allowed to access tenant '"
     +:+ path_tenant +:+ "'.").

Definition require_tenant_scope_identity (a : App) (r : Request) (tenant_id : string)
    : http IdentityContext :=
  let? i := require_valid_identity a r in
  let? _ := enforce_tenant_scope a r tenant_id i in
  Reply i.

(** The tenant of [get_openai_gateway_runtime_context]. *)
Definition gateway_tenant (a : App) (r : Request) : http string :=
  let? i := require_valid_identity a r in
  let tid := py_strip (id_tenant_id i) in
  if py_bool tid then Reply tid
  else HTTPException 403
    "OPENAI_GATEWAY_TENANT_REQUIRED: identity must include tenant_id for OpenAI-compatible gateway calls.".

(** *** What authenticates an identity *)

(** The identity is that of a token the JWT library verified, of an enabled API key stored
    under the hash of the presented key, or what the client says of itself. *)
Inductive credential (a : App) (r : Request) (i : IdentityContext) : Prop :=
| by_token token p :
    bearer_token r = Some token → identity_from_payload float_repr p = Some i →
    (∃ key algs, jwt_decode token key algs = Claims p) → credential a r i
| by_key raw m store k :
    (bearer_token r = Some raw ∨ raw = py_strip (header r "X-API-Key")) → raw ≠ "" →
    modules a = Some m → IdentityAccessService.api_key_store (identity_access m) = Some store →
    k ∈ SQLiteApiKeyStore.list_keys store None → ak_key_hash k = sha256_hex raw →
    ak_enabled k = true → i = key_identity k → credential a r i
| by_self p :
    environment_of a ∈ test_environments → bearer_token r = None →
    py_strip (header r "X-API-Key") = "" → json_loads (header r "X-Identity") = Some p →
    resolve_identity float_repr p = Some i → credential a r i.

Lemma lookup_listed store h k :
  SQLiteApiKeyStore.lookup_by_hash store h = Some k →
  k ∈ SQLiteApiKeyStore.list_keys store None ∧ ak_key_hash k = h.
Proof.
  unfold SQLiteApiKeyStore.lookup_by_hash, SQLiteApiKeyStore.list_keys.
  destruct (head _) as [p|] eqn:E; cbn; [|done]. intros [= <-].
  apply head_Some_elem_of, list_elem_of_filter in E as [[Hh _] Hin].
  split; [|done]. apply list_elem_of_fmap. exists p. split; [done|]. by apply elem_of_sort_by.
Qed.

Lemma api_key_credential a r raw i :
  (bearer_token r = Some raw ∨ raw = py_strip (header r "X-API-Key")) → raw ≠ "" →
  resolve_from_api_key a raw = Some i → credential a r i ∧ id_token_validation_state i = TokenValid.
Proof.
  unfold resolve_from_api_key. intros Hraw Hne.
  destruct (modules a) as [m|] eqn:Em; [|done].
  destruct (IdentityAccessService.api_key_store _) as [store|] eqn:Es; [|done].
  destruct (SQLiteApiKeyStore.lookup_by_hash _ _) as [k|] eqn:Ek; [|done].
  destruct (ak_enabled k) eqn:Ee; [|done]. intros [= <-].
  apply lookup_listed in Ek as [? ?]. split; [|done]. by eapply by_key.
Qed.

Lemma of_outcome_usable o i :
  of_outcome float_repr o = Some i → id_token_validation_state i ≠ TokenExpired →
  ∃ p, o = Claims p ∧ identity_from_payload float_repr p = Some i.
Proof. destruct o; cbn; [eauto| |done]. by intros [= <-]. Qed.

Lemma jwt_credential a r token i :
  bearer_token r = Some token → resolve_from_jwt a token = Some i →
  id_token_validation_state i ≠ TokenExpired → credential a r i.
Proof.
  intros Ht Hj Hne. unfold resolve_from_jwt in Hj. destruct (modules a) as [m|]; [|done].
  destruct (_ && _); [done|]. destruct (py_bool _).
  - unfold decode_jwt_from_jwks in Hj. destruct (negb _); [done|].
    destruct (jwks_signing_key _ _) as [[key name]|]; [|done].
    apply of_outcome_usable in Hj as (p & Hp & Hi); [|done]. by eapply by_token; eauto.
  - unfold decode_jwt in Hj. destruct (_ && _); [done|].
    apply of_outcome_usable in Hj as (p & Hp & Hi); [|done]. by eapply by_token; eauto.
Qed.

Lemma extract_credential a r i :
  extract_identity a r = Some i → is_identity_usable i = true → credential a r i.
Proof.
  unfold is_identity_usable. rewrite negb_true_iff, bool_decide_eq_false.
  intros Hx Hu. assert (id_token_validation_state i ≠ TokenExpired) as Hne by set_solver.
  unfold extract_identity in Hx. destruct (bearer_token r) as [token|] eqn:Eb.
  - unfold extract_bearer in Hx. destruct (py_bool token) eqn:Et; [|done]. cbn [negb] in Hx.
    apply py_bool_true in Et.
    destruct (resolve_from_jwt a token) as [j|] eqn:Ej;
      [|by eapply api_key_credential in Hx as [? _]; eauto].
    case_decide; [|by eapply api_key_credential in Hx as [? _]; eauto].
    injection Hx as ->. by eapply jwt_credential.
  - destruct (py_bool (py_strip (header r "X-API-Key"))) eqn:Ek.
    { apply py_bool_true in Ek. by eapply api_key_credential in Hx as [? _]; eauto. }
    apply py_bool_false in Ek. case_decide as He; [|done].
    destruct (py_bool (header r "X-Identity")); [|done]. cbn [negb] in Hx.
    destruct (json_loads _) as [p|] eqn:Ej; [|done]. by eapply by_self.
Qed.

(** What passes a tenant-scoped route: its identity is authenticated and usable, and belongs
    to the tenant of the path, or is an administrator the settings let cross tenants on an
    administration route. *)
Definition scoped_to (a : App) (r : Request) (tenant_id : string) (i : IdentityContext) : Prop :=
  (py_strip (id_tenant_id i) = py_strip tenant_id ∧ py_strip tenant_id ≠ "") ∨
  (admin_route r = true ∧ cross_tenant_admin_allowed a r i = true).

(** C27: A tenant-scoped route only ever sees an identity that was authenticated: by a bearer
    token the JWT library verified, by an enabled API key whose hash is stored, or, in a test
    or development environment and without either header, by what the client declares.  Its
    token is neither invalid nor expired, and it belongs to the tenant of the path unless
    settings allow its role to cross tenants on an administration route. *)
Theorem tenant_routes_authenticated a r tenant_id i :
  require_tenant_scope_identity a r tenant_id = Reply i →
  credential a r i ∧ id_token_validation_state i ≠ TokenInvalid ∧
  id_token_validation_state i ≠ TokenExpired ∧ scoped_to a r tenant_id i.
Proof.
  unfold require_tenant_scope_identity, require_valid_identity, get_identity.
  destruct (extract_identity a r) as [j|] eqn:Ex; [|done]. cbn [http_bind].
  destruct (is_identity_usable j) eqn:Eu; [|done]. cbn [http_bind].
  destruct (enforce_tenant_scope a r tenant_id j) as [[]|] eqn:Es; [|done].
  intros [= ->]. split; [by apply extract_credential|].
  unfold is_identity_usable in Eu. rewrite negb_true_iff, bool_decide_eq_false in Eu.
  split; [set_solver|]. split; [set_solver|]. unfold scoped_to, enforce_tenant_scope in *.
  destruct (py_bool _) eqn:Et; cbn [andb] in Es.
  - apply py_bool_true in Et. case_bool_decide as Heq.
    + left. by rewrite <- Heq.
    + right. destruct (cross_tenant_admin_allowed a r i) eqn:Ec; [|done].
      unfold cross_tenant_admin_allowed in Ec. by destruct (admin_route r).
  - right. destruct (cross_tenant_admin_allowed a r i) eqn:Ec; [|done].
    unfold cross_tenant_admin_allowed in Ec. by destruct (admin_route r).
Qed.
End auth.

(** ** API keys survive the store *)

Lemma split_on_free c s : str_contains_char c s = false → split_on c s = [s].
Proof.
  induction s as [|a s IH]; cbn [split_on str_contains_char]; [done|]. intros [Ha Hs]%orb_false_iff.
  apply bool_decide_eq_false in Ha. rewrite bool_decide_false by congruence. by rewrite IH.
Qed.

Lemma split_on_here c t : split_on c (String c t) = "" :: split_on c t.
Proof. cbn [split_on]. by rewrite bool_decide_true. Qed.

Lemma split_on_next c a s w ws :
  a ≠ c → split_on c s = w :: ws → split_on c (String a s) = String a w :: ws.
Proof. intros Hne Hs. cbn [split_on]. by rewrite bool_decide_false, Hs. Qed.

Lemma split_on_app c s t :
  str_contains_char c s = false → split_on c (s +:+ String c t) = s :: split_on c t.
Proof.
  induction s as [|a s IH]; [intros _; apply split_on_here|].
  cbn [str_contains_char]. intros [Ha Hs]%orb_false_iff. apply bool_decide_eq_false in Ha.
  apply split_on_next; [congruence|by apply IH].
Qed.

Lemma split_on_join c l :
  l ≠ [] → Forall (λ s, str_contains_char c s = false) l →
  split_on c (join (String c "") l) = l.
Proof.
  intros Hne Hall. induction Hall as [|s l Hs Hl IH]; [done|].
  destruct l as [|s' l]; [by apply split_on_free|].
  change (join (String c "") (s :: s' :: l)) with (s +:+ String c (join (String c "") (s' :: l))).
  by rewrite split_on_app, IH.
Qed.

Lemma lstrip_free c s : str_contains_char c s = false → str_contains_char c (lstrip s) = false.
Proof.
  induction s as [|a s IH]; cbn; [done|]. intros [Ha Hs]%orb_false_iff.
  destruct (is_py_space a); [by apply IH|]. cbn. by rewrite Ha.
Qed.

Lemma rstrip_free c s : str_contains_char c s = false → str_contains_char c (rstrip s) = false.
Proof.
  induction s as [|a s IH]; cbn; [done|]. intros [Ha Hs]%orb_false_iff.
  specialize (IH Hs). destruct (rstrip s) as [|b r] eqn:E.
  - destruct (is_py_space a); cbn; [done|]. by rewrite Ha.
  - cbn. rewrite Ha. by cbn in IH.
Qed.

Lemma py_strip_free c s : str_contains_char c s = false → str_contains_char c (py_strip s) = false.
Proof. intros. by apply rstrip_free, lstrip_free. Qed.

(** The roles a key is stored with. *)
Definition clean_roles (roles : list string) : list string :=
  filter (λ r, r ≠ "") (py_strip <$> roles).

Lemma clean_roles_idem roles : clean_roles (clean_roles roles) = clean_roles roles.
Proof.
  unfold clean_roles. induction roles as [|r roles IH]; [done|].
  cbn [fmap list_fmap]. rewrite filter_cons. case_decide as Hr; [|done].
  cbn [fmap list_fmap]. rewrite py_strip_idem, filter_cons, decide_True by done. by f_equal.
Qed.

Lemma stored_roles roles :
  Forall (λ r, str_contains_char comma r = false) roles →
  SQLiteApiKeyStore.row_roles (join "," (clean_roles roles)) = clean_roles roles.
Proof.
  intros Hall. unfold SQLiteApiKeyStore.row_roles.
  destruct (clean_roles roles) as [|r l] eqn:E; [done|].
  assert (py_bool (join "," (r :: l)) = true) as ->.
  { apply py_bool_true. assert (r ∈ clean_roles roles) as Hr by (rewrite E; set_solver).
    apply list_elem_of_filter in Hr as [Hr _]. destruct r; [done|]. by destruct l. }
  change "," with (String comma ""). rewrite <- E.
  rewrite split_on_join; [exact (clean_roles_idem roles)|by rewrite E|].
  apply Forall_forall. intros s Hs. apply list_elem_of_filter in Hs as [_ Hs].
  apply list_elem_of_fmap in Hs as (s0 & -> & Hs0). apply py_strip_free.
  by eapply Forall_forall in Hall.
Qed.

Module KeyFacts.
Import SQLiteApiKeyStore.

Lemma hash_taken_false s id h :
  hash_taken s id h = false ↔ ∀ p, p ∈ s → rw_key_hash p.2 = h → p.1 = id.
Proof.
  unfold hash_taken. rewrite <- not_true_iff_false, existsb_exists. split.
  - intros Hn p Hp Hh. destruct (decide (p.1 = id)) as [|Hne]; [done|]. exfalso. apply Hn.
    exists p. split; [by apply list_elem_of_In|].
    by rewrite bool_decide_false, bool_decide_true by done.
  - intros Hall (p & Hp%list_elem_of_In & [H1 H2]%andb_true_iff).
    apply bool_decide_eq_true in H2. rewrite negb_true_iff, bool_decide_eq_false in H1. eauto.
Qed.

Lemma lookup_unique s id r :
  od_wf s → od_get id s = Some r → rw_enabled r = 1 →
  (∀ p, p ∈ s → rw_key_hash p.2 = rw_key_hash r → p.1 = id) →
  lookup_by_hash s (rw_key_hash r) = Some (row_to_record id r).
Proof.
  intros Hwf Hget He Hu. unfold lookup_by_hash.
  destruct (filter _ s) as [|p l] eqn:E.
  - exfalso. assert ((id, r) ∈ filter (λ p, rw_key_hash p.2 = rw_key_hash r ∧ rw_enabled p.2 = 1) s)
      as Hin by (apply list_elem_of_filter; split; [done|by apply od_get_elem]).
    rewrite E in Hin. set_solver.
  - assert (p ∈ filter (λ p, rw_key_hash p.2 = rw_key_hash r ∧ rw_enabled p.2 = 1) s) as Hp
      by (rewrite E; set_solver).
    apply list_elem_of_filter in Hp as [[Hh _] Hin]. pose proof (Hu p Hin Hh) as Hid.
    destruct p as [pid pr]. cbn in Hid. subst pid.
    apply od_elem_get in Hin; [|done]. rewrite Hget in Hin. injection Hin as ->. done.
Qed.

Lemma save_key_lookup s r s' :
  od_wf s → save_key s r = Ok s' → ak_enabled r = true →
  od_wf s' ∧ (∀ p, p ∈ s' → rw_key_hash p.2 = ak_key_hash r → p.1 = ak_key_id r) ∧
  lookup_by_hash s' (ak_key_hash r)
    = Some (mkApiKey (ak_key_id r) (ak_tenant_id r) (ak_subject r) (ak_key_hash r)
              (row_roles (join "," (ak_roles r))) (ak_description r) true (ak_created_at r)).
Proof.
  intros Hwf. unfold save_key. destruct (hash_taken _ _ _) eqn:Et; [done|]. cbn [negb].
  intros [= <-] He. pose proof (proj1 (hash_taken_false _ _ _) Et) as Hu.
  set (row := mkRow _ _ _ _ _ _ _).
  assert (∀ p, p ∈ od_set (ak_key_id r) row s → rw_key_hash p.2 = ak_key_hash r →
            p.1 = ak_key_id r) as Hu'.
  { intros [k v] Hin Hh. apply od_elem_get in Hin; [|by apply od_wf_set].
    destruct (decide (k = ak_key_id r)) as [->|Hne]; [done|].
    rewrite od_get_set_ne in Hin by done. by apply (Hu (k, v) (od_get_elem _ _ _ Hin)). }
  split; [by apply od_wf_set|]. split; [done|].
  rewrite (lookup_unique _ (ak_key_id r) row); [|by apply od_wf_set|by rewrite od_get_set| |done].
  - unfold row_to_record. cbn. by rewrite He.
  - cbn. by rewrite He.
Qed.

Lemma delete_key_lookup s id h :
  od_wf s → (∀ p, p ∈ s → rw_key_hash p.2 = h → p.1 = id) →
  lookup_by_hash (delete_key s id) h = None.
Proof.
  intros Hwf Hu. unfold lookup_by_hash, delete_key. destruct (filter _ _) as [|p l] eqn:E; [done|].
  exfalso. assert (p ∈ filter (λ p, rw_key_hash p.2 = h ∧ rw_enabled p.2 = 1) (od_pop id s)) as Hp
    by (rewrite E; set_solver).
  apply list_elem_of_filter in Hp as [[Hh _] Hin]. rewrite od_pop_filter in Hin.
  apply list_elem_of_filter in Hin as [Hne Hin]. by apply Hne, Hu.
Qed.
End KeyFacts.

Section api_keys.
Variable float_repr : Q → string.
Variable sha256_hex : string → string.
Variable json_loads : string → option pyval.
Context {Key : Type}.
Variable secret_key : string → Key.
Variable jwt_decode : string → Key → list string → jwt_outcome.
Variable jwks_signing_key : string → string → option (Key * string).

Notation extract := (extract_identity float_repr sha256_hex json_loads secret_key jwt_decode
                       jwks_signing_key).

(** The application with the key service [s]. *)
Definition app_of (s : IdentityAccessService.t) (environment : string) (auth : AuthSettings) : App :=
  mkApp (Some (mkModules s environment auth)) None.

Lemma extract_by_key a r key :
  bearer_token r = None → header r "X-API-Key" = key → py_strip key = key → key ≠ "" →
  extract a r = resolve_from_api_key sha256_hex a key.
Proof.
  intros Hb Hh Hs Hne. unfold extract_identity. rewrite Hb, Hh, Hs.
  by rewrite (proj2 (py_bool_true key) Hne).
Qed.

(** A created API key authenticates its holder until it is deleted: a request that
    presents the key in X-API-Key is the created subject, in the created tenant, with the
    created roles (when no role holds a comma, the separator they are stored with); after the
    key is deleted the same request has no identity. *)
Theorem api_key_round_trip s raw key_id now admin tenant_id subject roles description
    record key s' environment auth :
  (∀ store, IdentityAccessService.api_key_store s = Some store → od_wf store) →
  IdentityAccessService.create_api_key sha256_hex s raw key_id now admin tenant_id subject roles
    description = Reply (record, key, s') →
  py_strip key = key → Forall (λ r, str_contains_char comma r = false) roles →
  IdentityAccessService.is_platform_admin admin = true ∧
  (∀ r, bearer_token r = None → header r "X-API-Key" = key →
    extract (app_of s' environment auth) r
      = Some (mkIdentityContext subject Human (clean_roles roles) (py_strip tenant_id) key_id
                TokenValid "" "" false)) ∧
  ∃ s'', IdentityAccessService.delete_api_key s' admin key_id = Reply (record, s'') ∧
    ∀ r, bearer_token r = None → header r "X-API-Key" = key →
      extract (app_of s'' environment auth) r = None.
Proof.
  intros Hwf Hc Hkey Hroles. unfold IdentityAccessService.create_api_key in Hc.
  unfold IdentityAccessService.require_platform_admin in Hc.
  destruct (IdentityAccessService.is_platform_admin admin) eqn:Ea; [|done].
  cbn [http_bind] in Hc. unfold IdentityAccessService.require_api_key_store in Hc.
  destruct (IdentityAccessService.api_key_store s) as [store|] eqn:Es; [|done].
  cbn [http_bind] in Hc. destruct (py_bool (py_strip tenant_id)); [|done]. cbn [negb] in Hc.
  fold (clean_roles roles) in Hc.
  destruct (SQLiteApiKeyStore.save_key store _) as [store'|] eqn:Esave; [|done].
  injection Hc as <- <- <-.
  pose proof Esave as Hrow. apply KeyFacts.save_key_lookup in Esave as (Hwf' & Hu & Hl);
    [|by apply Hwf|done].
  cbn [ak_key_id ak_key_hash ak_tenant_id ak_subject ak_roles ak_description ak_created_at] in *.
  rewrite stored_roles in Hl by done.
  split; [done|]. split.
  - intros r Hb Hh. rewrite (extract_by_key _ _ _ Hb Hh Hkey) by done.
    unfold resolve_from_api_key. cbn [modules app_of identity_access
      IdentityAccessService.api_key_store IdentityAccessService.with_store]. by rewrite Hl.
  - unfold IdentityAccessService.delete_api_key, IdentityAccessService.require_platform_admin.
    rewrite Ea. cbn [http_bind IdentityAccessService.require_api_key_store
      IdentityAccessService.with_store IdentityAccessService.api_key_store].
    unfold SQLiteApiKeyStore.save_key in Hrow. destruct (negb _); [|done].
    injection Hrow as <-. unfold SQLiteApiKeyStore.get_key. cbn [ak_key_id] in *.
    rewrite od_get_set. cbn [fmap option_fmap option_map].
    eexists. split.
    { unfold SQLiteApiKeyStore.row_to_record.
      cbn [SQLiteApiKeyStore.rw_roles_csv ak_roles]. by rewrite stored_roles. }
    intros r Hb Hh. rewrite (extract_by_key _ _ _ Hb Hh Hkey) by done.
    unfold resolve_from_api_key. cbn [modules app_of identity_access
      IdentityAccessService.api_key_store IdentityAccessService.with_store].
    by rewrite KeyFacts.delete_key_lookup.
Qed.
End api_keys.

(** An administrator creates a key for tenant acme with two roles. *)
Lemma api_key_round_trip_witness :
  let admin := mkIdentityContext "root" Human ["platform_admin"] "default" "" TokenValid "" "" false in
  let s := IdentityAccessService.mkService (Some []) false [] in
  let service := mkAuth "" "" "HS256" false [] in
  ∃ record s',
    IdentityAccessService.create_api_key (λ x, x) s "aa" "k1" "t0" admin "acme" "bob"
      [" pro "; "dev"] "" = Reply (record, "exo_aa", s') ∧
    extract_identity (λ _, "") (λ x, x) (λ _, None) (λ x, x) (λ _ _ _, InvalidToken) (λ _ _, None)
      (app_of s' "production" service)
      (mkRequest "/" (λ h, if h =?s "X-API-Key" then Some "exo_aa" else None))
    = Some (mkIdentityContext "bob" Human ["pro"; "dev"] "acme" "k1" TokenValid "" "" false).
Proof.
  intros admin s service.
  destruct (IdentityAccessService.create_api_key (λ x, x) s "aa" "k1" "t0" admin "acme" "bob"
    [" pro "; "dev"] "") as [[[record key] s']|] eqn:E.
  - assert (key = "exo_aa") as -> by (vm_compute in E; by injection E).
    exists record, s'. split; [done|].
    apply (api_key_round_trip (λ _, "") (λ x, x) (λ _, None) (λ x, x) (λ _ _ _, InvalidToken)
      (λ _ _, None) s "aa" "k1" "t0" admin "acme" "bob" [" pro "; "dev"] "" record "exo_aa" s'
      "production" service); [|exact E|reflexivity| |reflexivity|reflexivity].
    + intros store [= <-]. refine (bool_decide_unpack _ _). vm_compute. exact I.
    + refine (bool_decide_unpack _ _). vm_compute. exact I.
  - vm_compute in E. discriminate E.
Defined.

(** A role with a comma is returned as one role when the key is created and comes back as
    two when it authenticates. *)
Example comma_role_splits :
  clean_roles ["reader,platform_admin"] = ["reader,platform_admin"] ∧
  SQLiteApiKeyStore.row_roles (join "," (clean_roles ["reader,platform_admin"]))
    = ["reader"; "platform_admin"].
Proof. split; vm_compute; reflexivity. Qed.

(** The tenant of an authenticated request, with the key of the witness above. *)
Lemma tenant_routes_authenticated_witness :
  let k := SQLiteApiKeyStore.mkRow "acme" "bob" "exo_aa" "pro" "" 1 "t0" in
  let a := app_of (IdentityAccessService.mkService (Some [("k1", k)]) false []) "production"
             (mkAuth "" "" "HS256" false []) in
  let r := mkRequest "/tenants/acme/sessions"
             (λ h, if h =?s "X-API-Key" then Some "exo_aa" else None) in
  ∃ i, require_tenant_scope_identity (λ _, "") (λ x, x) (λ _, None) (λ x, x)
         (λ _ _ _, InvalidToken) (λ _ _, None) a r " acme" = Reply i ∧
       id_subject i = "bob" ∧ scoped_to a r " acme" i.
Proof.
  intros k a r.
  destruct (require_tenant_scope_identity (λ _, "") (λ x, x) (λ _, None) (λ x, x)
    (λ _ _ _, InvalidToken) (λ _ _, None) a r " acme") as [i|] eqn:E.
  - exists i. split; [done|]. split; [vm_compute in E; by injection E as <-|].
    by destruct (tenant_routes_authenticated (λ _, "") (λ x, x) (λ _, None) (λ x, x)
      (λ _ _ _, InvalidToken) (λ _ _, None) a r " acme" i E) as (_ & _ & _ & H).
  - vm_compute in E. discriminate E.
Defined.
