(* ===== verification/Entitlements.v ===== *)
(** * Entitlements

    Models src/policies/entitlements.py and the decisions of
    src/api/middleware/entitlements.py: the tier an identity's roles give, the tier a
    governance feature needs, and the feature a policy overlay needs. *)

From S2P Require Import Prelude PyValue ToolIO Identity.

(** ** src/policies/entitlements.py *)

Inductive EntitlementTier := Foundation | Pro | Enterprise.

Inductive EntitledFeature :=
| IngressBaseline | IngressProfile | IngressCustomRules | IngressClassifier
| IngressSignedPlugins | PolicyTemplates | RuntimeAdminControls | AgentRoutingAdvanced
| ByocGovernanceAnalytics | AuditSignedExportVerify.

Definition tier_value (t : EntitlementTier) : string :=
  match t with Foundation => "foundation" | Pro => "pro" | Enterprise => "enterprise" end.

Definition feature_value (f : EntitledFeature) : string :=
  match f with
  | IngressBaseline => "governance.ingress.baseline"
  | IngressProfile => "governance.ingress.profile"
  | IngressCustomRules => "governance.ingress.custom_rules"
  | IngressClassifier => "governance.ingress.classifier"
  | IngressSignedPlugins => "governance.ingress.signed_plugins"
  | PolicyTemplates => "governance.policy.templates"
  | RuntimeAdminControls => "governance.runtime.admin_controls"
  | AgentRoutingAdvanced => "governance.agent_routing.advanced"
  | ByocGovernanceAnalytics => "governance.byoc.governance_analytics"
  | AuditSignedExportVerify => "governance.audit.signed_export_verify"
  end.

(** [_TIER_ORDER] *)
Definition tier_order (t : EntitlementTier) : Z :=
  match t with Foundation => 0 | Pro => 1 | Enterprise => 2 end.

(** [_FEATURE_MIN_TIER] *)
Definition min_tier_for_feature (f : EntitledFeature) : EntitlementTier :=
  match f with
  | IngressBaseline => Foundation
  | IngressSignedPlugins | AuditSignedExportVerify => Enterprise
  | _ => Pro
  end.

Definition tier_satisfies (required current : EntitlementTier) : bool :=
  tier_order required <=? tier_order current.

Definition normalized_roles (roles : list string) : list string :=
  (λ r, py_lower (py_strip r)) <$> filter (λ r, py_strip r ≠ "") roles.

Definition enterprise_roles : list string :=
  ["enterprise"; "entitlement_enterprise"; "entitlement:enterprise"; "tier_enterprise";
   "plan_enterprise"].

Definition pro_roles : list string :=
  ["pro"; "entitlement_pro"; "entitlement:pro"; "tier_pro"; "plan_pro"].

(** [normalized & names] is not empty *)
Definition some_role (names roles : list string) : bool :=
  existsb (λ r, bool_decide (r ∈ names)) (normalized_roles roles).

Definition resolve_tier_from_roles (roles : list string) : EntitlementTier :=
  if some_role enterprise_roles roles then Enterprise
  else if some_role pro_roles roles then Pro
  else Foundation.

(** ** src/api/middleware/entitlements.py *)

Record EntitlementDecision {A : Type} := mkEntitlement {
  ed_schema_version : string;
  ed_decision : A;
  ed_reason_code : string;
  ed_message : string;
  ed_feature : EntitledFeature;
  ed_required_tier : EntitlementTier;
  ed_current_tier : EntitlementTier;
}.
Arguments EntitlementDecision : clear implicits.
Arguments mkEntitlement {A}.

(** An audit event, in the order emitted. *)
Record audit_event := mkAudit {
  ae_event_type : string;
  ae_correlation_id : string;
  ae_tenant_id : string;
  ae_payload : pydict;
}.

(** [audit_pipeline.emit], where a pipeline is configured *)
Definition emit (enabled : bool) (correlation_id tenant_id event_type : string) (payload : pydict)
    : list audit_event :=
  if enabled then [mkAudit event_type correlation_id tenant_id payload] else [].

Section entitlements.
Context {A : Type} `{!PolicyActions A}.
Variable float_repr : Q → string.

(** [EntitlementDecision.to_payload] *)
Definition entitlement_payload (d : EntitlementDecision A) : pydict :=
  [("schema_version", PStr (ed_schema_version d));
   ("decision", PStr (action_value (ed_decision d)));
   ("reason_code", PStr (ed_reason_code d)); ("message", PStr (ed_message d));
   ("feature", PStr (feature_value (ed_feature d)));
   ("required_tier", PStr (tier_value (ed_required_tier d)));
   ("current_tier", PStr (tier_value (ed_current_tier d)))].

Definition evaluate_feature_entitlement (identity : IdentityContext) (feature : EntitledFeature)
    : EntitlementDecision A :=
  let required_tier := min_tier_for_feature feature in
  let current_tier := resolve_tier_from_roles (id_roles identity) in
  if tier_satisfies required_tier current_tier then
    mkEntitlement "1.0" ALLOW "ENTITLEMENT_ALLOWED"
      "Entitlement requirements satisfied for requested governance feature."
      feature required_tier current_tier
  else
    mkEntitlement "1.0" DENY "ENTITLEMENT_TIER_REQUIRED"
      ("Feature '" +:+ feature_value feature +:+ "' requires tier '" +:+ tier_value required_tier
       +:+ "' but caller tier is '" +:+ tier_value current_tier +:+ "'.")
      feature required_tier current_tier.

Definition emit_entitlement_decision_event (enabled : bool)
    (correlation_id tenant_id surface route : string) (d : EntitlementDecision A)
    (extra_payload : pydict) : list audit_event :=
  emit enabled correlation_id tenant_id "entitlement_decision"
    (dict_update (dict_update [("surface", PStr surface); ("route", PStr route)] (entitlement_payload d))
       extra_payload).

(** [isinstance(x, (list, dict)) and len(x) > 0] *)
Definition nonempty_container (v : pyval) : bool :=
  match v with PList (_ :: _) | PDict (_ :: _) => true | _ => false end.

(** [isinstance(x, int) and x > 0] *)
Definition positive_int (v : pyval) : bool :=
  match as_int v with Some n => 0 <? n | None => false end.

Definition required_feature_for_governance_overlay (overlay : pydict) : EntitledFeature :=
  let text key := py_strip (dict_get_str float_repr overlay key "") in
  let value key := dict_get overlay key PNone in
  if py_bool (text "signed_gate_plugin_ref") then IngressSignedPlugins
  else if bool_decide (py_lower (text "ingress_classifier_mode") ∈ ["shadow"; "enforce"])
    then IngressClassifier
  else if nonempty_container (value "ingress_custom_rules") then IngressCustomRules
  else
    let ingress_profile := py_lower (text "ingress_profile") in
    if py_bool ingress_profile && negb (bool_decide (ingress_profile ∈ ["baseline"; "default"]))
      then IngressProfile
    else if positive_int (value "ingress_max_input_chars") then IngressProfile
    else match value "ingress_prompt_injection_phrases" with
         | PList (_ :: _) => IngressProfile
         | _ => IngressBaseline
         end.
End entitlements.

(** ** Properties *)

Lemma some_role_true names roles :
  some_role names roles = true ↔ ∃ r, r ∈ roles ∧ py_strip r ≠ "" ∧ py_lower (py_strip r) ∈ names.
Proof.
  unfold some_role, normalized_roles. rewrite existsb_exists. split.
  - intros (x & Hx%list_elem_of_In & Hin%bool_decide_eq_true).
    apply list_elem_of_fmap in Hx as (r & -> & [Hr Hr']%list_elem_of_filter). eauto.
  - intros (r & Hr & Hs & Hin). exists (py_lower (py_strip r)). split; [|by apply bool_decide_eq_true].
    apply list_elem_of_In, list_elem_of_fmap. exists r. split; [done|]. by apply list_elem_of_filter.
Qed.

Lemma some_role_mono names roles roles' :
  roles ⊆ roles' → some_role names roles = true → some_role names roles' = true.
Proof. rewrite !some_role_true. intros Hsub (r & ? & ?). exists r. auto. Qed.

Lemma resolve_tier_mono roles roles' :
  roles ⊆ roles' →
  tier_order (resolve_tier_from_roles roles) ≤ tier_order (resolve_tier_from_roles roles').
Proof.
  intros Hsub. unfold resolve_tier_from_roles.
  destruct (some_role enterprise_roles roles) eqn:E1.
  { by rewrite (some_role_mono _ _ _ Hsub E1). }
  destruct (some_role pro_roles roles) eqn:E2.
  - rewrite (some_role_mono _ _ _ Hsub E2). by destruct (some_role enterprise_roles roles').
  - destruct (some_role enterprise_roles roles'), (some_role pro_roles roles'); cbn; lia.
Qed.

(** The tier a role stands for on its own. *)
Definition role_tier (role : string) : EntitlementTier :=
  let r := py_lower (py_strip role) in
  if bool_decide (r ∈ enterprise_roles) then Enterprise
  else if bool_decide (r ∈ pro_roles) then Pro
  else Foundation.

Lemma role_tier_order n r :
  n <= tier_order (role_tier r) ↔
  n ≤ 0 ∨ (n ≤ 2 ∧ py_lower (py_strip r) ∈ enterprise_roles) ∨
  (n ≤ 1 ∧ py_lower (py_strip r) ∈ pro_roles).
Proof. unfold role_tier. repeat case_bool_decide; cbn; naive_solver lia. Qed.

Lemma named_role_not_blank (names : list string) r :
  "" ∉ names → py_lower (py_strip r) ∈ names → py_strip r ≠ "".
Proof. intros Hn Hin E. rewrite E in Hin. done. Qed.

(** A governance feature is allowed exactly when it is the ingress baseline or one of
    the identity's roles on its own stands for the tier the feature needs or a higher one;
    so more roles never lose a feature. *)
Theorem entitlement_is_best_role {A} `{!PolicyActions A} identity feature :
  ed_decision (evaluate_feature_entitlement (A := A) identity feature) = ALLOW ↔
  min_tier_for_feature feature = Foundation ∨
  ∃ role, role ∈ id_roles identity ∧
          tier_order (min_tier_for_feature feature) ≤ tier_order (role_tier role).
Proof.
  assert (∀ roles, tier_order (min_tier_for_feature feature) ≤ tier_order (resolve_tier_from_roles roles) ↔
    min_tier_for_feature feature = Foundation ∨
    ∃ role, role ∈ roles ∧ tier_order (min_tier_for_feature feature) ≤ tier_order (role_tier role)) as Hbest.
  { intros roles. generalize (min_tier_for_feature feature) as t. intros t.
    setoid_rewrite role_tier_order. unfold resolve_tier_from_roles.
    pose proof (some_role_true enterprise_roles roles) as He.
    pose proof (some_role_true pro_roles roles) as Hp.
    pose proof (λ r, named_role_not_blank enterprise_roles r ltac:(set_solver)) as He'.
    pose proof (λ r, named_role_not_blank pro_roles r ltac:(set_solver)) as Hp'.
    destruct (some_role enterprise_roles roles), (some_role pro_roles roles), t; cbn;
      clear -He Hp He' Hp'; naive_solver lia. }
  rewrite <- Hbest. unfold evaluate_feature_entitlement, tier_satisfies.
  destruct (Z.leb_spec (tier_order (min_tier_for_feature feature))
    (tier_order (resolve_tier_from_roles (id_roles identity)))) as [Hle|Hlt]; cbn.
  - split; [by intros _|done].
  - split; [|lia]. intros E. by destruct (allow_not_deny (A := A)).
Qed.
