(* ===== verification/Checkpoints.v ===== *)
(** * Checkpoint and session stores

    Models the checkpoint and session records of src/persistence/contracts.py
    and their in-memory stores, src/core/checkpoint_store.py and
    src/core/session_store.py. *)

From S2P Require Import Prelude PyValue Identity.

(** ** src/persistence/contracts.py, checkpoints *)

Inductive CheckpointStatus :=
| CheckpointPending | CheckpointRunning | CheckpointCompleted
| CheckpointFailed | CheckpointCancelled.

#[export] Instance CheckpointStatus_eq_dec : EqDecision CheckpointStatus.
Proof. solve_decision. Defined.

Record CheckpointRecord := mkCheckpoint {
  cp_job_id : string;
  cp_node_id : string;
  cp_status : CheckpointStatus;
  cp_tenant_id : string;
  cp_attempt : Z;
  cp_reason_code : string;
  cp_payload : pydict;
}.

(** ** src/core/checkpoint_store.py *)
Module InMemoryCheckpointStore.

Notation t := (list ((string * string) * list (string * CheckpointRecord))) (only parsing).

Definition empty : t := [].

Definition save_checkpoint (s : t) (c : CheckpointRecord) : t :=
  let key := (cp_tenant_id c, cp_job_id c) in
  let job_records := default [] (od_get key s) in
  od_set key (od_set (cp_node_id c) c job_records) s.

Definition list_checkpoints (s : t) (job_id tenant_id : string) : list CheckpointRecord :=
  od_values (default [] (od_get (tenant_id, job_id) s)).

Definition get_checkpoint (s : t) (job_id node_id tenant_id : string)
    : option CheckpointRecord :=
  od_get node_id (default [] (od_get (tenant_id, job_id) s)).

Lemma get_save s c job node tenant :
  get_checkpoint (save_checkpoint s c) job node tenant =
  if decide (cp_tenant_id c = tenant ∧ cp_job_id c = job ∧ cp_node_id c = node)
  then Some c else get_checkpoint s job node tenant.
Proof.
  unfold get_checkpoint, save_checkpoint.
  destruct (decide ((tenant, job) = (cp_tenant_id c, cp_job_id c))) as [[= -> ->]|Hne].
  - rewrite od_get_set. simpl. destruct (decide (node = cp_node_id c)) as [->|Hn].
    + rewrite od_get_set. by rewrite decide_True by done.
    + rewrite od_get_set_ne by done. by rewrite decide_False by naive_solver.
  - rewrite od_get_set_ne by done. by rewrite decide_False by naive_solver.
Qed.

(** Each job's records form a dictionary keyed by their own node ids. *)
Definition wf (s : t) : Prop :=
  ∀ tenant job recs, od_get (tenant, job) s = Some recs →
    od_wf recs ∧
    ∀ n c, od_get n recs = Some c →
      cp_node_id c = n ∧ cp_job_id c = job ∧ cp_tenant_id c = tenant.

Lemma wf_empty : wf empty.
Proof. intros t' j recs. done. Qed.

Lemma wf_save s c : wf s → wf (save_checkpoint s c).
Proof.
  intros Hwf tenant job recs. unfold save_checkpoint.
  destruct (decide ((tenant, job) = (cp_tenant_id c, cp_job_id c))) as [[= -> ->]|Hne];
    [rewrite od_get_set; intros [= <-]|by rewrite od_get_set_ne by done; apply Hwf].
  destruct (od_get (cp_tenant_id c, cp_job_id c) s) as [recs|] eqn:E; simpl default.
  - destruct (Hwf _ _ _ E) as [H1 H2]. split; [by apply od_wf_set|].
    intros n c'. destruct (decide (n = cp_node_id c)) as [->|Hn].
    + rewrite od_get_set. by intros [= <-].
    + rewrite od_get_set_ne by done. apply H2.
  - split; [apply (od_wf_set (cp_node_id c) c []), NoDup_nil_2|].
    intros n c'. simpl. case_decide; [|done]. intros [= <-]. done.
Qed.

(** The records a job lists are those its nodes look up. *)
Lemma elem_of_list_checkpoints s job tenant c :
  wf s →
  c ∈ list_checkpoints s job tenant ↔
  get_checkpoint s job (cp_node_id c) tenant = Some c.
Proof.
  intros Hwf. unfold list_checkpoints, get_checkpoint, od_values.
  destruct (od_get (tenant, job) s) as [recs|] eqn:E; simpl; last first.
  { split; [by intros ?%elem_of_nil|done]. }
  destruct (Hwf _ _ _ E) as [H1 H2]. rewrite list_elem_of_fmap. split.
  - intros ([n c'] & -> & Hin). simpl. pose proof (od_elem_get _ _ _ H1 Hin) as Hg.
    destruct (H2 _ _ Hg) as [-> _]. done.
  - intros Hg%od_get_elem. by exists (cp_node_id c, c).
Qed.

End InMemoryCheckpointStore.

(** ** src/persistence/contracts.py, sessions *)

Record SessionRecord := mkSessionRecord {
  sr_session : SessionContext;
  sr_tenant_id : string;
  sr_state : string;
  sr_data : pydict;
}.

(** ** src/core/session_store.py *)
Module InMemorySessionStore.

Notation t := (list ((string * string) * SessionRecord)) (only parsing).

(** [save_session] and [get_session] copy the record's dictionaries; as the
    model's values are immutable the copy is the value itself. *)
Definition save_session (s : t) (r : SessionRecord) : t :=
  od_set (sr_tenant_id r, sc_session_id (sr_session r)) r s.

Definition get_session (s : t) (session_id tenant_id : string) : option SessionRecord :=
  od_get (tenant_id, session_id) s.

Definition active_on (provider_id : string) (r : SessionRecord) : bool :=
  (sc_provider_id (sr_session r) =?s provider_id) && (sr_state r =?s "active").

Definition count_active_sessions_by_provider (s : t) (provider_id : string) : Z :=
  count_if (active_on provider_id) (od_values s).

Definition cancel_record (r : SessionRecord) : SessionRecord :=
  mkSessionRecord (sr_session r) (sr_tenant_id r) "cancelled" (sr_data r).

(** The loop over [list(self._records.items())]: the store is rewritten in
    place, one record at a time. *)
Definition deactivate_step (provider_id : string) (acc : t * Z)
    (item : (string * string) * SessionRecord) : t * Z :=
  let '(s, changed) := acc in
  let '(key, record) := item in
  if negb (active_on provider_id record) then (s, changed)
  else (od_set key (cancel_record record) s, changed + 1).

Definition deactivate_sessions_by_provider (s : t) (provider_id : string) : t * Z :=
  foldl (deactivate_step provider_id) (s, 0) s.

Definition deactivated (provider_id : string) (r : SessionRecord) : SessionRecord :=
  if active_on provider_id r then cancel_record r else r.

Lemma od_set_app_r {V} k (v : V) (m1 m2 : list ((string * string) * V)) :
  k ∉ od_keys m1 → od_set k v (m1 ++ m2) = m1 ++ od_set k v m2.
Proof.
  induction m1 as [|[k' v'] m1 IH]; [done|]. cbn.
  intros [Hne Hni]%not_elem_of_cons. rewrite decide_False by done. f_equal. by apply IH.
Qed.

Lemma deactivate_loop p done_ todo n :
  od_wf (done_ ++ todo) →
  foldl (deactivate_step p) (done_ ++ todo, n) todo =
  (done_ ++ od_map (λ _, deactivated p) todo,
   n + count_if (active_on p) (od_values todo)).
Proof.
  revert done_ n. induction todo as [|[k r] todo IH]; intros done_ n Hwf.
  { cbn. by rewrite count_if_nil, Z.add_0_r. }
  assert (k ∉ od_keys done_) as Hk.
  { unfold od_wf, od_keys in Hwf. rewrite fmap_app in Hwf.
    apply NoDup_app in Hwf as (_ & Hd & _). intros Hin. apply (Hd k Hin). apply list_elem_of_here. }
  cbn [foldl deactivate_step]. cbn [od_values fmap list_fmap snd]. rewrite count_if_cons.
  assert (∀ r', od_wf ((done_ ++ [(k, r')]) ++ todo)) as Hwf'.
  { intros r'. rewrite <- app_assoc. revert Hwf. unfold od_wf, od_keys. by rewrite !fmap_app. }
  unfold deactivated at 1, od_map. cbn. fold (od_map (λ _, deactivated p) todo).
  fold (od_values todo).
  destruct (active_on p r) eqn:Ea; cbn [negb].
  - rewrite od_set_app_r by done. cbn [od_set]. rewrite decide_True by done.
    specialize (IH (done_ ++ [(k, cancel_record r)]) (n + 1) (Hwf' _)).
    rewrite <- !app_assoc in IH. cbn in IH. rewrite IH. f_equal. lia.
  - specialize (IH (done_ ++ [(k, r)]) n (Hwf' _)).
    rewrite <- !app_assoc in IH. cbn in IH. rewrite IH. by f_equal; lia.
Qed.

Lemma deactivated_inactive p r : active_on p (deactivated p r) = false.
Proof.
  unfold deactivated. destruct (active_on p r) eqn:E; [|done].
  unfold active_on, cancel_record; simpl. by rewrite andb_false_r.
Qed.

(** Draining a provider returns how many sessions were active on it,
    leaves none active on it, turns exactly those to cancelled and touches no
    other session. *)
Theorem deactivate_drains_provider s p :
  od_wf s →
  let '(s', n) := deactivate_sessions_by_provider s p in
  n = count_active_sessions_by_provider s p ∧
  count_active_sessions_by_provider s' p = 0 ∧
  od_keys s' = od_keys s ∧
  (∀ k r, od_get k s = Some r →
     od_get k s' = Some (if active_on p r then cancel_record r else r)).
Proof.
  intros Hwf. unfold deactivate_sessions_by_provider.
  rewrite (deactivate_loop p [] s 0 Hwf : foldl _ (s, 0) s = _).
  split; [unfold count_active_sessions_by_provider; lia|]. split; [|split].
  - unfold count_active_sessions_by_provider. clear Hwf.
    induction s as [|[k r] s IH]; [done|].
    cbn -[count_if deactivated]. rewrite count_if_cons, deactivated_inactive. exact IH.
  - apply od_map_keys.
  - intros k r Hg. cbn [app]. by rewrite od_get_map, Hg.
Qed.

Definition demo_session (sid prov : string) : SessionRecord :=
  mkSessionRecord (mkSessionContext sid "r" "j" "t" "a" prov "c" None []) "acme" "active" [].

Lemma deactivate_drains_provider_witness :
  let s := save_session (save_session [] (demo_session "s1" "openai")) (demo_session "s2" "local") in
  (deactivate_sessions_by_provider s "openai").2 = 1 ∧
  let '(s', n) := deactivate_sessions_by_provider s "openai" in
  n = count_active_sessions_by_provider s "openai" ∧
  count_active_sessions_by_provider s' "openai" = 0 ∧
  od_keys s' = od_keys s ∧
  (∀ k r, od_get k s = Some r →
     od_get k s' = Some (if active_on "openai" r then cancel_record r else r)).
Proof.
  split; [reflexivity|].
  apply (deactivate_drains_provider
    (save_session (save_session [] (demo_session "s1" "openai")) (demo_session "s2" "local"))
    "openai").
  refine (bool_decide_unpack _ _). vm_compute. exact I.
Defined.

End InMemorySessionStore.
