(* ===== verification/SqliteStores.v ===== *)
(** * The SQLite stores of records

    Models src/persistence/adapters/sqlite.py: sessions, checkpoints, tools, agents, providers
    and tool versions, with the records of src/persistence/contracts.py they hold (the API-key
    store is in Authentication.v).  A table is the list of its rows in rowid order under its
    primary key; an upsert keeps a present row where it is.  A JSON column holds the value that
    [json.loads] gives back for what [json.dumps] wrote, which for the values of PyValue.v is
    the value itself.  A member of a JSON object that is read as a field of a record has the
    type the store wrote; another value reads as the default of the member.  [scan] is the order
    in which SQLite visits rows for a statement without ORDER BY. *)

From S2P Require Import Prelude PyValue Identity Checkpoints.

(** ** Tables *)

Section table.
Context {K R : Type} `{EqDecision K}.

(** [DELETE FROM … WHERE key = ?] *)
Definition delete_row (k : K) (rows : list (K * R)) : list (K * R) := od_pop k rows.

(** [INSERT … ON CONFLICT(key) DO UPDATE] *)
Definition upsert (k : K) (r : R) (rows : list (K * R)) : list (K * R) := od_set k r rows.

(** [UPDATE … SET … WHERE p] *)
Definition update_rows (p : K → R → bool) (f : R → R) (rows : list (K * R)) : list (K * R) :=
  od_map (λ k r, if p k r then f r else r) rows.
End table.

(** [ORDER BY] a text column of the key, ascending and descending *)
Definition column_le {A} (f : A → string) (x y : A) : Prop := String.le (f x) (f y).

#[export] Instance column_le_dec {A} (f : A → string) : RelDecision (column_le f).
Proof. intros x y. unfold column_le. apply _. Defined.

Definition column_ge {A} (f : A → string) (x y : A) : Prop := String.le (f y) (f x).

#[export] Instance column_ge_dec {A} (f : A → string) : RelDecision (column_ge f).
Proof. intros x y. unfold column_ge. apply _. Defined.

(** [SELECT DISTINCT column … ORDER BY column ASC] *)
Definition distinct (l : list string) : list string := sorted_strings (remove_dups l).

(** [data.get(key, default)] for a field of the given type *)
Definition get_text (d : pydict) (key dflt : string) : string :=
  match dict_get d key (PStr dflt) with PStr s => s | _ => dflt end.

Definition get_flag (d : pydict) (key : string) (dflt : bool) : bool :=
  match dict_get d key (PBool dflt) with PBool b => b | _ => dflt end.

Definition get_int (d : pydict) (key : string) (dflt : Z) : Z :=
  match dict_get d key (PInt dflt) with PInt z => z | _ => dflt end.

Definition get_object (d : pydict) (key : string) : pydict :=
  match dict_get d key (PDict []) with PDict o => o | _ => [] end.

Definition texts_of (v : pyval) : list string :=
  match v with
  | PList l => omap (λ x, match x with PStr s => Some s | _ => None end) l
  | _ => []
  end.

Definition get_texts (d : pydict) (key : string) : list string :=
  texts_of (dict_get d key (PList [])).

Definition texts (l : list string) : pyval := PList (PStr <$> l).

(** ** Sessions *)

(** [_assert_tenant_match]: the message of a [PersistenceIsolationError] *)
Definition isolation_error (entity_type : string) : exn :=
  OtherException ("PERSISTENCE_TENANT_ISOLATION_VIOLATION: " +:+ entity_type
                  +:+ " belongs to a different tenant").

Definition assert_tenant_match (stored_tenant_id requested_tenant_id entity_type : string) : res unit :=
  guard! stored_tenant_id =?s requested_tenant_id else isolation_error entity_type in
  Ok tt.

(** Every operation opens its own connection: the one to ":memory:" is to a new database,
    without the tables the constructor made in another. *)
Definition connected {A} (db_path table : string) (a : A) : res A :=
  if db_path =?s ":memory:" then Raise (OtherException ("no such table: " +:+ table)) else Ok a.

Module SQLiteSessionStore.

Record row := mkRow {
  rw_run_id : string;
  rw_job_id : string;
  rw_task_id : string;
  rw_agent_id : string;
  rw_provider_id : string;
  rw_correlation_id : string;
  rw_metadata_json : pydict;
  rw_state : string;
  rw_data_json : pydict;
}.

Record t := mkStore { db_path : string; sessions : list ((string * string) * row) }.

Definition empty (path : string) : t := mkStore path [].

Definition row_of (r : SessionRecord) : row :=
  let s := sr_session r in
  mkRow (sc_run_id s) (sc_job_id s) (sc_task_id s) (sc_agent_id s) (sc_provider_id s)
    (sc_correlation_id s) (sc_metadata s) (sr_state r) (sr_data r).

(** The identity of a session has no column. *)
Definition record_of (key : string * string) (w : row) : SessionRecord :=
  mkSessionRecord
    (mkSessionContext key.2 (rw_run_id w) (rw_job_id w) (rw_task_id w) (rw_agent_id w)
       (rw_provider_id w) (rw_correlation_id w) None (rw_metadata_json w))
    key.1 (rw_state w) (rw_data_json w).

Definition save_session (s : t) (r : SessionRecord) : res t :=
  connected (db_path s) "sessions"
    (mkStore (db_path s)
       (upsert (sr_tenant_id r, sc_session_id (sr_session r)) (row_of r) (sessions s))).

Section scanned.
Variable scan : list ((string * string) * row) → list ((string * string) * row).

(** A session that only another tenant has raises. *)
Definition get_session (s : t) (session_id tenant_id : string) : res (option SessionRecord) :=
  let! rows := connected (db_path s) "sessions" (sessions s) in
  match od_get (tenant_id, session_id) rows with
  | Some w =>
      let! _ := assert_tenant_match tenant_id tenant_id "session" in
      Ok (Some (record_of (tenant_id, session_id) w))
  | None =>
      match head (filter (λ p, p.1.2 = session_id) (scan rows)) with
      | Some p => let! _ := assert_tenant_match p.1.1 tenant_id "session" in Ok None
      | None => Ok None
      end
  end.
End scanned.

Definition active_on (provider_id : string) (w : row) : bool :=
  (rw_provider_id w =?s provider_id) && (rw_state w =?s "active").

Definition count_active_sessions_by_provider (s : t) (provider_id : string) : res Z :=
  connected (db_path s) "sessions" (count_if (active_on provider_id) (od_values (sessions s))).

Definition cancelled (w : row) : row :=
  mkRow (rw_run_id w) (rw_job_id w) (rw_task_id w) (rw_agent_id w) (rw_provider_id w)
    (rw_correlation_id w) (rw_metadata_json w) "cancelled" (rw_data_json w).

(** The number of rows the UPDATE matched, and the store after it *)
Definition deactivate_sessions_by_provider (s : t) (provider_id : string) : res (t * Z) :=
  connected (db_path s) "sessions"
    (mkStore (db_path s) (update_rows (λ _, active_on provider_id) cancelled (sessions s)),
     count_if (active_on provider_id) (od_values (sessions s))).

End SQLiteSessionStore.

(** ** Checkpoints *)

Definition checkpoint_status_value (s : CheckpointStatus) : string :=
  match s with
  | CheckpointPending => "pending" | CheckpointRunning => "running"
  | CheckpointCompleted => "completed" | CheckpointFailed => "failed"
  | CheckpointCancelled => "cancelled"
  end.

(** [CheckpointStatus(value)] *)
Definition checkpoint_status_of (s : string) : res CheckpointStatus :=
  if s =?s "pending" then Ok CheckpointPending
  else if s =?s "running" then Ok CheckpointRunning
  else if s =?s "completed" then Ok CheckpointCompleted
  else if s =?s "failed" then Ok CheckpointFailed
  else if s =?s "cancelled" then Ok CheckpointCancelled
  else Raise (ValueError (repr_str s +:+ " is not a valid CheckpointStatus")).

Module SQLiteCheckpointStore.

Record row := mkRow {
  rw_status : string;
  rw_attempt : Z;
  rw_reason_code : string;
  rw_payload_json : pydict;
}.

Notation key := (string * string * string)%type (only parsing).

Record t := mkStore { db_path : string; checkpoints : list (key * row) }.

Definition empty (path : string) : t := mkStore path [].

Definition save_checkpoint (s : t) (c : CheckpointRecord) : res t :=
  connected (db_path s) "checkpoints"
    (mkStore (db_path s)
       (upsert (cp_tenant_id c, cp_job_id c, cp_node_id c)
          (mkRow (checkpoint_status_value (cp_status c)) (cp_attempt c) (cp_reason_code c)
             (cp_payload c)) (checkpoints s))).

Definition row_to_checkpoint (p : key * row) : res CheckpointRecord :=
  let '((tenant_id, job_id, node_id), w) := p in
  let! status := checkpoint_status_of (rw_status w) in
  Ok (mkCheckpoint job_id node_id status tenant_id (rw_attempt w) (rw_reason_code w)
        (rw_payload_json w)).

Definition node_of (p : key * row) : string := p.1.2.

(** The first record that does not belong to the tenant raises. *)
Fixpoint all_of_tenant (tenant_id : string) (cs : list CheckpointRecord) : res unit :=
  match cs with
  | [] => Ok tt
  | c :: cs =>
      let! _ := assert_tenant_match (cp_tenant_id c) tenant_id "checkpoint" in
      all_of_tenant tenant_id cs
  end.

Fixpoint map_rows (rows : list (key * row)) : res (list CheckpointRecord) :=
  match rows with
  | [] => Ok []
  | p :: rows =>
      let! c := row_to_checkpoint p in
      let! cs := map_rows rows in
      Ok (c :: cs)
  end.

Definition list_checkpoints (s : t) (job_id tenant_id : string) : res (list CheckpointRecord) :=
  let! rows := connected (db_path s) "checkpoints" (checkpoints s) in
  let! cs := map_rows
    (sort_by (column_le node_of) (filter (λ p, p.1.1 = (tenant_id, job_id)) rows)) in
  let! _ := all_of_tenant tenant_id cs in
  Ok cs.

Section scanned.
Variable scan : list (key * row) → list (key * row).

Definition get_checkpoint (s : t) (job_id node_id tenant_id : string)
    : res (option CheckpointRecord) :=
  let! rows := connected (db_path s) "checkpoints" (checkpoints s) in
  match od_get (tenant_id, job_id, node_id) rows with
  | Some w =>
      let! c := row_to_checkpoint ((tenant_id, job_id, node_id), w) in
      let! _ := assert_tenant_match (cp_tenant_id c) tenant_id "checkpoint" in
      Ok (Some c)
  | None =>
      match head (filter (λ p, p.1.1.2 = job_id ∧ p.1.2 = node_id) (scan rows)) with
      | Some p => let! _ := assert_tenant_match p.1.1.1 tenant_id "checkpoint" in Ok None
      | None => Ok None
      end
  end.
End scanned.

End SQLiteCheckpointStore.

(** ** Tools *)

Record PersistedToolRecord := mkPersistedTool {
  pt_name : string;
  pt_handler_ref : string;
  pt_tenant_id : string;
  pt_risk_tier : string;
  pt_is_state_changing : bool;
  pt_timeout_ms : Z;
  pt_description : string;
  pt_parameters_schema : pydict;
  pt_metadata : pydict;
}.

Module SQLiteToolStore.

Record row := mkRow { rw_handler_ref : string; rw_data_json : pydict }.

(** Tenant and tool name are the primary key. *)
Notation t := (list ((string * string) * row)).

Definition data_of (r : PersistedToolRecord) : pydict :=
  [("risk_tier", PStr (pt_risk_tier r)); ("is_state_changing", PBool (pt_is_state_changing r));
   ("timeout_ms", PInt (pt_timeout_ms r)); ("description", PStr (pt_description r));
   ("parameters_schema", PDict (pt_parameters_schema r)); ("metadata", PDict (pt_metadata r))].

Definition save_tool (s : t) (tenant_id : string) (r : PersistedToolRecord) : t :=
  upsert (tenant_id, pt_name r) (mkRow (pt_handler_ref r) (data_of r)) s.

Definition delete_tool (s : t) (tenant_id tool_name : string) : t :=
  delete_row (tenant_id, tool_name) s.

Definition record_of (p : (string * string) * row) : PersistedToolRecord :=
  let d := rw_data_json p.2 in
  mkPersistedTool p.1.2 (rw_handler_ref p.2) p.1.1 (get_text d "risk_tier" "low")
    (get_flag d "is_state_changing" false) (get_int d "timeout_ms" 30000)
    (get_text d "description" "") (get_object d "parameters_schema") (get_object d "metadata").

Definition tool_name (p : (string * string) * row) : string := p.1.2.

Definition list_tools (s : t) (tenant_id : string) : list PersistedToolRecord :=
  record_of <$> sort_by (column_le tool_name) (filter (λ p, p.1.1 = tenant_id) s).

Definition list_tenant_ids (s : t) : list string := distinct ((λ p, p.1.1) <$> s).

End SQLiteToolStore.

(** ** Agents *)

Record PersistedAgentRecord := mkPersistedAgent {
  pa_agent_id : string;
  pa_role : string;
  pa_tenant_id : string;
  pa_capability_tags : list string;
  pa_instructions : string;
  pa_metadata : pydict;
}.

Module SQLiteAgentStore.

Record row := mkRow { rw_role : string; rw_data_json : pydict }.

Notation t := (list ((string * string) * row)).

Definition data_of (r : PersistedAgentRecord) : pydict :=
  [("capability_tags", texts (pa_capability_tags r)); ("instructions", PStr (pa_instructions r));
   ("metadata", PDict (pa_metadata r))].

Definition save_agent (s : t) (tenant_id : string) (r : PersistedAgentRecord) : t :=
  upsert (tenant_id, pa_agent_id r) (mkRow (pa_role r) (data_of r)) s.

Definition delete_agent (s : t) (tenant_id agent_id : string) : t :=
  delete_row (tenant_id, agent_id) s.

Definition record_of (p : (string * string) * row) : PersistedAgentRecord :=
  let d := rw_data_json p.2 in
  mkPersistedAgent p.1.2 (rw_role p.2) p.1.1 (get_texts d "capability_tags")
    (get_text d "instructions" "") (get_object d "metadata").

Definition agent_id (p : (string * string) * row) : string := p.1.2.

Definition list_agents (s : t) (tenant_id : string) : list PersistedAgentRecord :=
  record_of <$> sort_by (column_le agent_id) (filter (λ p, p.1.1 = tenant_id) s).

Definition list_tenant_ids (s : t) : list string := distinct ((λ p, p.1.1) <$> s).

End SQLiteAgentStore.

(** ** Providers *)

Record PersistedProviderRecord := mkPersistedProvider {
  pp_provider_id : string;
  pp_display_name : string;
  pp_adapter_class : string;
  pp_enabled : bool;
  pp_profile : string;
  pp_priority : Z;
  pp_endpoint_base_url : string;
  pp_endpoint_api_type : string;
  pp_auth_type : string;
  pp_auth_api_key_env_var : string;
  pp_model : string;
  pp_temperature : Q;
  pp_max_output_tokens : Z;
}.

Module SQLiteProviderStore.

Record row := mkRow {
  rw_display_name : string;
  rw_adapter_class : string;
  rw_enabled : Z;
  rw_profile : string;
  rw_priority : Z;
  rw_endpoint_base_url : string;
  rw_endpoint_api_type : string;
  rw_auth_type : string;
  rw_auth_api_key_env_var : string;
  rw_model : string;
  rw_temperature : Q;
  rw_max_output_tokens : Z;
}.

Notation t := (list (string * row)).

Definition row_of (r : PersistedProviderRecord) : row :=
  mkRow (pp_display_name r) (pp_adapter_class r) (if pp_enabled r then 1 else 0) (pp_profile r)
    (pp_priority r) (pp_endpoint_base_url r) (pp_endpoint_api_type r) (pp_auth_type r)
    (pp_auth_api_key_env_var r) (pp_model r) (pp_temperature r) (pp_max_output_tokens r).

Definition row_to_record (p : string * row) : PersistedProviderRecord :=
  let '(id, w) := p in
  mkPersistedProvider id (rw_display_name w) (rw_adapter_class w) (negb (rw_enabled w =? 0))
    (rw_profile w) (rw_priority w) (rw_endpoint_base_url w) (rw_endpoint_api_type w)
    (rw_auth_type w) (rw_auth_api_key_env_var w) (rw_model w) (rw_temperature w)
    (rw_max_output_tokens w).

Definition save_provider (s : t) (r : PersistedProviderRecord) : t :=
  upsert (pp_provider_id r) (row_of r) s.

Definition get_provider (s : t) (provider_id : string) : option PersistedProviderRecord :=
  (λ w, row_to_record (provider_id, w)) <$> od_get provider_id s.

Definition delete_provider (s : t) (provider_id : string) : t := delete_row provider_id s.

Definition list_providers (s : t) : list PersistedProviderRecord :=
  row_to_record <$> sort_by (column_le fst) s.

End SQLiteProviderStore.

(** ** Tool versions *)

Inductive ToolValidationState := PENDING | VALID | INVALID.

#[export] Instance ToolValidationState_eq_dec : EqDecision ToolValidationState.
Proof. solve_decision. Defined.

Definition validation_state_value (s : ToolValidationState) : string :=
  match s with PENDING => "pending" | VALID => "valid" | INVALID => "invalid" end.

(** [ToolValidationState(value)] *)
Definition validation_state_of (s : string) : res ToolValidationState :=
  if s =?s "pending" then Ok PENDING
  else if s =?s "valid" then Ok VALID
  else if s =?s "invalid" then Ok INVALID
  else Raise (ValueError (repr_str s +:+ " is not a valid ToolValidationState")).

Record ToolPackageManifest := mkManifest {
  mf_tool_name : string;
  mf_version : string;
  mf_description : string;
  mf_input_schema : pydict;
  mf_timeout_ms : Z;
  mf_risk_tier : string;
  mf_entry_file : string;
  mf_entrypoint : string;
  mf_requirements : list string;
  mf_metadata : pydict;
}.

Record ToolValidationResult := mkValidation {
  tv_tool_name : string;
  tv_version : string;
  tv_state : ToolValidationState;
  tv_errors : list string;
  tv_warnings : list string;
  tv_normalized_schema_hash : string;
}.

Record ToolVersionRecord := mkToolVersion {
  vr_tenant_id : string;
  vr_tool_name : string;
  vr_version : string;
  vr_manifest : ToolPackageManifest;
  vr_validation : option ToolValidationResult;
  vr_package_ref : string;
  vr_active : bool;
  vr_created_at : string;
}.

Module SQLiteToolVersionStore.

Record row := mkRow {
  rw_manifest_json : pydict;
  rw_validation_json : pydict;
  rw_package_ref : string;
  rw_active : Z;
  rw_created_at : string;
}.

(** Tenant, tool name and version *)
Notation key := (string * string * string)%type (only parsing).
Notation t := (list (string * string * string * row)).

Definition manifest_json (m : ToolPackageManifest) : pydict :=
  [("tool_name", PStr (mf_tool_name m)); ("version", PStr (mf_version m));
   ("description", PStr (mf_description m)); ("input_schema", PDict (mf_input_schema m));
   ("timeout_ms", PInt (mf_timeout_ms m)); ("risk_tier", PStr (mf_risk_tier m));
   ("entry_file", PStr (mf_entry_file m)); ("entrypoint", PStr (mf_entrypoint m));
   ("requirements", texts (mf_requirements m)); ("metadata", PDict (mf_metadata m))].

Definition pending (tool_name version : string) : ToolValidationResult :=
  mkValidation tool_name version PENDING [] [] "".

Definition validation_json (r : ToolVersionRecord) : pydict :=
  let v := default (pending (vr_tool_name r) (vr_version r)) (vr_validation r) in
  [("tool_name", PStr (tv_tool_name v)); ("version", PStr (tv_version v));
   ("state", PStr (validation_state_value (tv_state v))); ("errors", texts (tv_errors v));
   ("warnings", texts (tv_warnings v));
   ("normalized_schema_hash", PStr (tv_normalized_schema_hash v))].

Definition row_of (r : ToolVersionRecord) : row :=
  mkRow (manifest_json (vr_manifest r)) (validation_json r) (vr_package_ref r)
    (if vr_active r then 1 else 0) (vr_created_at r).

Definition save_tool_version (s : t) (r : ToolVersionRecord) : t :=
  upsert (vr_tenant_id r, vr_tool_name r, vr_version r) (row_of r) s.

Definition row_to_record (p : key * row) : res ToolVersionRecord :=
  let '((tenant_id, tool_name, version), w) := p in
  let m := rw_manifest_json w in
  let v := rw_validation_json w in
  let manifest :=
    mkManifest (get_text m "tool_name" tool_name) (get_text m "version" version)
      (get_text m "description" "") (get_object m "input_schema") (get_int m "timeout_ms" 30000)
      (get_text m "risk_tier" "low") (get_text m "entry_file" "handler.py")
      (get_text m "entrypoint" "run") (get_texts m "requirements") (get_object m "metadata") in
  let! state := validation_state_of (get_text v "state" (validation_state_value PENDING)) in
  let validation :=
    mkValidation (get_text v "tool_name" tool_name) (get_text v "version" version) state
      (get_texts v "errors") (get_texts v "warnings") (get_text v "normalized_schema_hash" "") in
  Ok (mkToolVersion tenant_id tool_name version manifest (Some validation) (rw_package_ref w)
        (negb (rw_active w =? 0)) (rw_created_at w)).

Fixpoint map_rows (rows : list (key * row)) : res (list ToolVersionRecord) :=
  match rows with
  | [] => Ok []
  | p :: rows =>
      let! r := row_to_record p in
      let! rs := map_rows rows in
      Ok (r :: rs)
  end.

Definition first_record (row : option (key * row)) : res (option ToolVersionRecord) :=
  match row with
  | Some p => let! r := row_to_record p in Ok (Some r)
  | None => Ok None
  end.

Definition get_tool_version (s : t) (tenant_id tool_name version : string)
    : res (option ToolVersionRecord) :=
  first_record ((λ w, (tenant_id, tool_name, version, w)) <$> od_get (tenant_id, tool_name, version) s).

Definition version_of (p : key * row) : string := p.1.2.
Definition tool_of (p : key * row) : string := p.1.1.2.

(** The rows of one tool *)
Definition of_tool (tenant_id tool_name : string) (k : key) : bool := bool_decide (k.1 = (tenant_id, tool_name)).

Definition list_tool_versions (s : t) (tenant_id tool_name : string) : res (list ToolVersionRecord) :=
  map_rows (sort_by (column_ge version_of) (filter (λ p, of_tool tenant_id tool_name p.1 = true) s)).

Definition set_active (active : Z) (w : row) : row :=
  mkRow (rw_manifest_json w) (rw_validation_json w) (rw_package_ref w) active (rw_created_at w).

Definition clear_active_tool_version (s : t) (tenant_id tool_name : string) : t :=
  update_rows (λ k _, of_tool tenant_id tool_name k) (set_active 0) s.

Definition set_active_tool_version (s : t) (tenant_id tool_name version : string) : t :=
  update_rows (λ k _, bool_decide (k = (tenant_id, tool_name, version))) (set_active 1)
    (clear_active_tool_version s tenant_id tool_name).

Definition is_active (p : key * row) : bool := rw_active p.2 =? 1.

Section scanned.
Variable scan : t → t.

Definition get_active_tool_version (s : t) (tenant_id tool_name : string)
    : res (option ToolVersionRecord) :=
  first_record
    (head (filter (λ p, of_tool tenant_id tool_name p.1 && is_active p = true) (scan s))).
End scanned.

Definition delete_tool_version (s : t) (tenant_id tool_name version : string) : t :=
  delete_row (tenant_id, tool_name, version) s.

Definition list_tenant_ids (s : t) : list string := distinct ((λ p, p.1.1.1) <$> s).

(** [scan] decides between active versions of one tool. *)
Definition list_active_tool_versions (scan : t → t) (s : t) (tenant_id : string)
    : res (list ToolVersionRecord) :=
  map_rows (sort_by (column_le tool_of)
              (filter (λ p, bool_decide (p.1.1.1 = tenant_id) && is_active p = true) (scan s))).

End SQLiteToolVersionStore.
