(* ===== verification/SqliteStoresFacts.v ===== *)
(** * Theorems about the SQLite stores of records

    The session and checkpoint stores answer as the in-memory ones of Checkpoints.v but for the
    differences the statements name; the tool, agent and provider stores are maps from their
    keys to the records last saved, listed in key order; and a tool has one active version at
    most, whatever the order in which SQLite visits rows. *)

From S2P Require Import Prelude PyValue Identity Checkpoints SqliteStores.

#[export] Instance column_le_total {A} (f : A → string) : Total (column_le f).
Proof. intros x y. unfold column_le. apply (total String.le). Qed.

#[export] Instance column_le_trans {A} (f : A → string) : Transitive (column_le f).
Proof. intros x y z. unfold column_le. apply (transitivity (R := String.le)). Qed.

#[export] Instance column_ge_total {A} (f : A → string) : Total (column_ge f).
Proof. intros x y. unfold column_ge. destruct (total String.le (f x) (f y)); auto. Qed.

#[export] Instance column_ge_trans {A} (f : A → string) : Transitive (column_ge f).
Proof. intros x y z. unfold column_ge. intros H1 H2. by apply (transitivity (R := String.le)) with (f y). Qed.

(** A list is sorted by a column in one way only when no two elements share it. *)
Lemma sorted_by_column {A} (f : A → string) (l1 l2 : list A) :
  NoDup (f <$> l1) → StronglySorted (column_le f) l1 → StronglySorted (column_le f) l2 →
  l1 ≡ₚ l2 → l1 = l2.
Proof.
  intros Hnd H1 H2 Hp. apply (StronglySorted_unique_strong (column_le f)); [|done..].
  intros x y Hx Hy Hxy Hyx. rewrite <- Hp in Hy.
  assert (f x = f y) as E by (by apply (anti_symm String.le)).
  clear -Hnd Hx Hy E. induction l1 as [|z l1 IH]; [by apply elem_of_nil in Hx|].
  rewrite fmap_cons in Hnd. apply NoDup_cons in Hnd as [Hz Hnd].
  apply elem_of_cons in Hx as [->|Hx], Hy as [->|Hy]; [done| | |by apply IH]; exfalso; apply Hz.
  - rewrite E. by apply list_elem_of_fmap_2.
  - rewrite <- E. by apply list_elem_of_fmap_2.
Qed.

(** ** Sessions *)
Module Sessions.
Module M := InMemorySessionStore.
Module Q := SQLiteSessionStore.

Inductive command :=
| Save (r : SessionRecord)
| Get (session_id tenant_id : string)
| Count (provider_id : string)
| Deactivate (provider_id : string).

Inductive answer :=
| Saved
| Got (r : res (option SessionRecord))
| Counted (n : Z)
| Refused (e : exn).

Notation memory := (list ((string * string) * SessionRecord)).

Definition without_identity (r : SessionRecord) : SessionRecord :=
  let s := sr_session r in
  mkSessionRecord
    (mkSessionContext (sc_session_id s) (sc_run_id s) (sc_job_id s) (sc_task_id s) (sc_agent_id s)
       (sc_provider_id s) (sc_correlation_id s) None (sc_metadata s))
    (sr_tenant_id r) (sr_state r) (sr_data r).

(** What a durable store answers where the in-memory one answers [r]: the record without its
    identity, and an isolation error for a session that only other tenants have. *)
Definition durable (m : memory) (session_id : string) (r : option SessionRecord)
    : res (option SessionRecord) :=
  match r with
  | Some r => Ok (Some (without_identity r))
  | None =>
      if existsb (λ p, p.1.2 =?s session_id) m then Raise (isolation_error "session") else Ok None
  end.

Definition mem_step (m : memory) (c : command) : answer * memory :=
  match c with
  | Save r => (Saved, M.save_session m r)
  | Get sid tenant => (Got (durable m sid (M.get_session m sid tenant)), m)
  | Count p => (Counted (M.count_active_sessions_by_provider m p), m)
  | Deactivate p => let '(m', n) := M.deactivate_sessions_by_provider m p in (Counted n, m')
  end.

Definition refuse {A} (s : Q.t) (r : res A) (k : A → answer * Q.t) : answer * Q.t :=
  match r with Ok a => k a | Raise e => (Refused e, s) end.

Section scanned.
Variable scan : list ((string * string) * Q.row) → list ((string * string) * Q.row).

Definition sql_step (s : Q.t) (c : command) : answer * Q.t :=
  match c with
  | Save r => refuse s (Q.save_session s r) (λ s', (Saved, s'))
  | Get sid tenant => (Got (Q.get_session scan s sid tenant), s)
  | Count p => refuse s (Q.count_active_sessions_by_provider s p) (λ n, (Counted n, s))
  | Deactivate p => refuse s (Q.deactivate_sessions_by_provider s p) (λ '(s', n), (Counted n, s'))
  end.

Fixpoint run_mem (m : memory) (cs : list command) : list answer :=
  match cs with
  | [] => []
  | c :: cs => let '(a, m) := mem_step m c in a :: run_mem m cs
  end.

Fixpoint run_sql (s : Q.t) (cs : list command) : list answer :=
  match cs with
  | [] => []
  | c :: cs => let '(a, s) := sql_step s c in a :: run_sql s cs
  end.

Record sim (m : memory) (s : Q.t) : Prop := {
  si_wf : od_wf m;
  si_keys : ∀ k r, (k, r) ∈ m → k = (sr_tenant_id r, sc_session_id (sr_session r));
  si_path : Q.db_path s ≠ ":memory:";
  si_rows : Q.sessions s = od_map (λ _, Q.row_of) m;
}.

Lemma connected_file {A} path table (a : A) : path ≠ ":memory:" → connected path table a = Ok a.
Proof. intros Hp. unfold connected. by rewrite bool_decide_false. Qed.

Lemma record_of_row k r :
  k = (sr_tenant_id r, sc_session_id (sr_session r)) →
  Q.record_of k (Q.row_of r) = without_identity r.
Proof. by intros ->. Qed.

Lemma active_row p r : Q.active_on p (Q.row_of r) = M.active_on p r.
Proof. done. Qed.

Lemma count_rows p (m : memory) :
  count_if (Q.active_on p) (od_values (od_map (λ _, Q.row_of) m)) =
  M.count_active_sessions_by_provider m p.
Proof.
  unfold M.count_active_sessions_by_provider. induction m as [|[k r] m IH]; [done|].
  cbn -[count_if]. rewrite !count_if_cons. f_equal. exact IH.
Qed.

Lemma deactivate_rows p (m : memory) :
  update_rows (λ _, Q.active_on p) Q.cancelled (od_map (λ _, Q.row_of) m) =
  od_map (λ _, Q.row_of) (od_map (λ _, M.deactivated p) m).
Proof.
  unfold update_rows, od_map. rewrite <- !list_fmap_compose. apply list_fmap_ext. intros _ [k r] _.
  cbn. unfold M.deactivated. f_equal. rewrite active_row. by destruct (M.active_on p r).
Qed.

Hypothesis scan_perm : ∀ l, scan l ≡ₚ l.

Lemma get_agrees m s sid tenant :
  sim m s → Q.get_session scan s sid tenant = durable m sid (M.get_session m sid tenant).
Proof.
  intros [Hwf Hkeys Hp Hrows]. unfold Q.get_session, M.get_session. rewrite connected_file by done.
  cbn [res_bind]. rewrite Hrows, od_get_map.
  destruct (od_get (tenant, sid) m) as [r|] eqn:E; cbn [fmap option_fmap option_map].
  - unfold assert_tenant_match. rewrite bool_decide_true by done. cbn.
    by rewrite record_of_row by (by apply Hkeys, od_get_elem).
  - cbn [durable].
    destruct (head (filter (λ p, p.1.2 = sid) (scan (od_map (λ _, Q.row_of) m)))) as [[[t' i] w]|] eqn:Eh.
    + assert ((t', i, w) ∈ filter (λ p, p.1.2 = sid) (scan (od_map (λ _, Q.row_of) m))) as Hin
        by (by apply head_Some_elem_of).
      apply list_elem_of_filter in Hin as [Hi Hin]. cbn in Hi. subst i. rewrite scan_perm in Hin.
      unfold od_map in Hin. apply list_elem_of_fmap in Hin as ([k r] & [= <- ->] & Hin).
      assert (existsb (λ p, p.1.2 =?s sid) m = true) as ->.
      { apply existsb_exists. exists (t', sid, r). split; [by apply list_elem_of_In|].
        by apply bool_decide_eq_true. }
      unfold assert_tenant_match. cbn [fst]. rewrite bool_decide_false; [done|].
      intros ->. by rewrite (od_elem_get _ _ _ Hwf Hin) in E.
    + assert (existsb (λ p, p.1.2 =?s sid) m = false) as ->; [|done].
      apply not_true_iff_false. intros ((k & r) & Hin & Hk)%existsb_exists.
      apply list_elem_of_In in Hin. apply bool_decide_eq_true in Hk. cbn in Hk.
      apply head_None in Eh.
      assert ((k, Q.row_of r) ∈ filter (λ p, p.1.2 = sid) (scan (od_map (λ _, Q.row_of) m))) as Hf.
      { apply list_elem_of_filter. split; [done|]. rewrite scan_perm. unfold od_map.
        apply list_elem_of_fmap. by exists (k, r). }
      rewrite Eh in Hf. by apply elem_of_nil in Hf.
Qed.

Lemma session_sim_step m s c :
  sim m s →
  (sql_step s c).1 = (mem_step m c).1 ∧ sim (mem_step m c).2 (sql_step s c).2.
Proof.
  intros Hs. destruct c as [r|sid tenant|p|p]; cbn [sql_step mem_step].
  - destruct Hs as [Hwf Hkeys Hp Hrows]. unfold Q.save_session. rewrite connected_file by done.
    cbn [refuse fst snd]. split; [done|]. split; [by apply od_wf_set| |done|].
    + intros k r' Hin. unfold M.save_session in Hin.
      apply od_elem_get in Hin; [|by apply od_wf_set].
      destruct (decide (k = (sr_tenant_id r, sc_session_id (sr_session r)))) as [->|Hne].
      * rewrite od_get_set in Hin. by injection Hin as <-.
      * rewrite od_get_set_ne in Hin by done. by apply Hkeys, od_get_elem.
    + cbn [Q.sessions]. rewrite Hrows. unfold upsert, M.save_session. by rewrite od_map_set.
  - cbn [fst snd]. by rewrite (get_agrees m s) by done.
  - destruct Hs as [Hwf Hkeys Hp Hrows]. unfold Q.count_active_sessions_by_provider.
    rewrite connected_file, Hrows, count_rows by done. cbn. split; [done|]. by split.
  - destruct Hs as [Hwf Hkeys Hp Hrows]. unfold Q.deactivate_sessions_by_provider.
    rewrite connected_file, Hrows, count_rows, deactivate_rows by done.
    unfold M.deactivate_sessions_by_provider.
    rewrite (M.deactivate_loop p [] m 0 Hwf : foldl _ (m, 0) m = _). cbn.
    split; [done|]. split; cbn; [| |done|done].
    + unfold od_wf. by rewrite od_map_keys.
    + intros k r Hin. unfold od_map in Hin. apply list_elem_of_fmap in Hin as ([k' r'] & [= -> ->] & Hin).
      rewrite (Hkeys _ _ Hin). unfold M.deactivated. by destruct (M.active_on p r').
Qed.

Lemma session_sim_runs m s cs : sim m s → run_sql s cs = run_mem m cs.
Proof.
  revert m s. induction cs as [|c cs IH]; intros m s Hs; [done|].
  destruct (session_sim_step m s c Hs) as [Ha Hs']. cbn [run_sql run_mem].
  destruct (sql_step s c) as [a s'], (mem_step m c) as [a' m']. cbn in *. subst.
  f_equal. by apply IH.
Qed.

(** On a database file the durable session store answers every sequence of commands as the
    in-memory one, except that the identity of a session is not kept and that a session only
    another tenant has is refused instead of reported missing. *)
Theorem sqlite_sessions_refine_memory path cs :
  path ≠ ":memory:" → run_sql (Q.empty path) cs = run_mem [] cs.
Proof.
  intros Hp. apply session_sim_runs. split; [apply NoDup_nil_2| |done|done].
  by intros k r ?%elem_of_nil.
Qed.

(** With its default path the store is of no use: every operation raises. *)
Lemma default_session_database_unusable cs :
  Forall (λ a, match a with
               | Saved | Counted _ | Got (Ok _) => False
               | Refused e | Got (Raise e) => e = OtherException "no such table: sessions"
               end) (run_sql (Q.empty ":memory:") cs).
Proof.
  induction cs as [|c cs IH]; [done|]. cbn [run_sql]. by destruct c; cbn; constructor.
Qed.
End scanned.

Lemma sqlite_sessions_refine_memory_witness :
  let r tenant := mkSessionRecord
    (mkSessionContext "s1" "r" "j" "t" "a" "openai" "c"
       (Some (mkIdentityContext "bob" Human [] "acme" "" TokenValid "" "" false)) [])
    tenant "active" [] in
  let cs := [Save (r "acme"); Get "s1" "acme"; Get "s1" "globex"; Deactivate "openai"; Count "openai"] in
  run_sql (rev (A:=_)) (Q.empty "state.db") cs = run_mem [] cs ∧
  run_mem [] cs = [Saved; Got (Ok (Some (without_identity (r "acme"))));
    Got (Raise (isolation_error "session")); Counted 1; Counted 0].
Proof.
  split; [|reflexivity]. apply sqlite_sessions_refine_memory; [|done].
  intros l. symmetry. apply Permutation_rev.
Defined.
End Sessions.

(** ** Checkpoints *)
Module CheckpointFacts.
Module M := InMemoryCheckpointStore.
Module Q := SQLiteCheckpointStore.

Notation key := (string * string * string)%type.
Notation memory := (list ((string * string) * list (string * CheckpointRecord))).

Inductive command :=
| Save (c : CheckpointRecord)
| ListJob (job_id tenant_id : string)
| Get (job_id node_id tenant_id : string).

Inductive answer :=
| Saved
| Listed (r : res (list CheckpointRecord))
| Got (r : res (option CheckpointRecord)).

Definition by_node (l : list CheckpointRecord) : list CheckpointRecord :=
  sort_by (column_le cp_node_id) l.

(** A tenant other than [tenant] has a checkpoint of this job and node. *)
Definition held_elsewhere (m : memory) (job node : string) : bool :=
  existsb (λ p, (p.1.2 =?s job) && od_mem node p.2) m.

Definition durable (m : memory) (job node : string) (r : option CheckpointRecord)
    : res (option CheckpointRecord) :=
  match r with
  | Some c => Ok (Some c)
  | None => if held_elsewhere m job node then Raise (isolation_error "checkpoint") else Ok None
  end.

Definition mem_step (m : memory) (c : command) : answer * memory :=
  match c with
  | Save c => (Saved, M.save_checkpoint m c)
  | ListJob job tenant => (Listed (Ok (by_node (M.list_checkpoints m job tenant))), m)
  | Get job node tenant => (Got (durable m job node (M.get_checkpoint m job node tenant)), m)
  end.

Section scanned.
Variable scan : list (key * Q.row) → list (key * Q.row).

Definition sql_step (s : Q.t) (c : command) : answer * Q.t :=
  match c with
  | Save c =>
      match Q.save_checkpoint s c with
      | Ok s' => (Saved, s')
      | Raise e => (Listed (Raise e), s)
      end
  | ListJob job tenant => (Listed (Q.list_checkpoints s job tenant), s)
  | Get job node tenant => (Got (Q.get_checkpoint scan s job node tenant), s)
  end.

Fixpoint run_mem (m : memory) (cs : list command) : list answer :=
  match cs with
  | [] => []
  | c :: cs => let '(a, m) := mem_step m c in a :: run_mem m cs
  end.

Fixpoint run_sql (s : Q.t) (cs : list command) : list answer :=
  match cs with
  | [] => []
  | c :: cs => let '(a, s) := sql_step s c in a :: run_sql s cs
  end.

Definition row_of (c : CheckpointRecord) : Q.row :=
  Q.mkRow (checkpoint_status_value (cp_status c)) (cp_attempt c) (cp_reason_code c) (cp_payload c).

Definition row_pair (c : CheckpointRecord) : key * Q.row :=
  ((cp_tenant_id c, cp_job_id c, cp_node_id c), row_of c).

Record sim (m : memory) (s : Q.t) : Prop := {
  ci_mem : M.wf m;
  ci_jobs : od_wf m;
  ci_wf : od_wf (Q.checkpoints s);
  ci_path : Q.db_path s ≠ ":memory:";
  ci_rows : ∀ t j n, od_get (t, j, n) (Q.checkpoints s) = row_of <$> M.get_checkpoint m j n t;
}.

Lemma status_round_trip st : checkpoint_status_of (checkpoint_status_value st) = Ok st.
Proof. by destruct st. Qed.

Lemma row_round_trip c : Q.row_to_checkpoint (row_pair c) = Ok c.
Proof. unfold Q.row_to_checkpoint, row_of. cbn. rewrite status_round_trip. by destruct c. Qed.

Lemma map_rows_ok cs : Q.map_rows (row_pair <$> cs) = Ok cs.
Proof.
  induction cs as [|c cs IH]; [done|]. rewrite fmap_cons. cbn [Q.map_rows].
  by rewrite row_round_trip, IH.
Qed.

Lemma all_of_tenant_ok tenant cs :
  Forall (λ c, cp_tenant_id c = tenant) cs → Q.all_of_tenant tenant cs = Ok tt.
Proof.
  induction 1 as [|c cs <- _ IH]; [done|]. cbn. unfold assert_tenant_match.
  by rewrite bool_decide_true.
Qed.

Lemma get_checkpoint_fields m j n t c :
  M.wf m → M.get_checkpoint m j n t = Some c →
  cp_node_id c = n ∧ cp_job_id c = j ∧ cp_tenant_id c = t.
Proof.
  intros Hwf. unfold M.get_checkpoint. destruct (od_get (t, j) m) as [recs|] eqn:E; [|done].
  by apply (Hwf _ _ _ E).
Qed.

#[export] Instance row_pair_inj : Inj (=) (=) row_pair.
Proof.
  intros c c' E. pose proof (row_round_trip c) as H1. rewrite E, row_round_trip in H1. congruence.
Qed.

Lemma nodes_nodup m j t : M.wf m → NoDup (cp_node_id <$> M.list_checkpoints m j t).
Proof.
  intros Hwf. unfold M.list_checkpoints. destruct (od_get (t, j) m) as [recs|] eqn:E; [|apply NoDup_nil_2].
  destruct (Hwf _ _ _ E) as [Hr Hf]. cbn [default id from_option].
  assert (cp_node_id <$> od_values recs = od_keys recs) as ->; [|done].
  unfold od_values, od_keys. rewrite <- list_fmap_compose. apply list_fmap_ext. intros i [n c] Hin.
  cbn. apply list_elem_of_lookup_2 in Hin. by apply (Hf n c), od_elem_get.
Qed.

(** The rows of a job are those of the records the in-memory store lists. *)
Lemma job_rows m s j t :
  sim m s →
  filter (λ p, p.1.1 = (t, j)) (Q.checkpoints s) ≡ₚ row_pair <$> M.list_checkpoints m j t.
Proof.
  intros [Hm _ Hwf _ Hrows]. apply NoDup_Permutation.
  - apply NoDup_filter. by apply NoDup_fmap_1 in Hwf.
  - apply (NoDup_fmap_2 row_pair). eapply NoDup_fmap_1. by apply (nodes_nodup m).
  - intros [[[t' j'] n] w]. rewrite list_elem_of_filter, od_elem_of_get, Hrows, list_elem_of_fmap by done.
    cbn. split.
    + intros [[= -> ->] (c & Hc & ->)%fmap_Some_1].
      destruct (get_checkpoint_fields _ _ _ _ _ Hm Hc) as (<- & <- & <-).
      exists c. split; [done|]. by apply M.elem_of_list_checkpoints.
    + intros (c & [= -> -> -> ->] & Hc).
      assert (cp_job_id c = j ∧ cp_tenant_id c = t) as [Hj Ht].
      { apply M.elem_of_list_checkpoints in Hc; [|done].
        by destruct (get_checkpoint_fields _ _ _ _ _ Hm Hc) as (_ & ? & ?). }
      apply M.elem_of_list_checkpoints in Hc; [|done]. rewrite Hj, Ht. split; [done|].
      by rewrite Hc.
Qed.

Lemma sort_row_pairs l :
  NoDup (cp_node_id <$> l) →
  sort_by (column_le Q.node_of) (row_pair <$> l) = row_pair <$> by_node l.
Proof.
  intros Hnd. apply (sorted_by_column Q.node_of).
  - rewrite (sort_by_perm (column_le Q.node_of) (row_pair <$> l)), <- list_fmap_compose. exact Hnd.
  - apply sort_by_sorted; apply _.
  - unfold by_node. pose proof (sort_by_sorted (column_le cp_node_id) l) as Hs. revert Hs.
    induction 1 as [|c l' Hs IH Hc]; cbn; [constructor|]. constructor; [done|].
    apply Forall_fmap. by eapply Forall_impl; [exact Hc|].
  - rewrite (sort_by_perm (column_le Q.node_of) (row_pair <$> l)). unfold by_node.
    by rewrite (sort_by_perm (column_le cp_node_id) l).
Qed.

Lemma list_agrees m s j t :
  sim m s → Q.list_checkpoints s j t = Ok (by_node (M.list_checkpoints m j t)).
Proof.
  intros Hs. unfold Q.list_checkpoints. rewrite Sessions.connected_file by apply Hs. cbn [res_bind].
  assert (sort_by (column_le Q.node_of) (filter (λ p, p.1.1 = (t, j)) (Q.checkpoints s)) =
          row_pair <$> by_node (M.list_checkpoints m j t)) as ->.
  { rewrite <- sort_row_pairs by (by apply nodes_nodup, Hs).
    apply (sorted_by_column Q.node_of); [|by apply sort_by_sorted; apply _..|].
    - rewrite (sort_by_perm (column_le Q.node_of) (filter _ _)), (job_rows m s j t Hs), <- list_fmap_compose.
      apply (nodes_nodup m), Hs.
    - by rewrite !sort_by_perm, (job_rows m s j t Hs). }
  rewrite map_rows_ok. cbn [res_bind]. rewrite all_of_tenant_ok; [done|].
  apply Forall_forall. intros c Hc. unfold by_node in Hc. rewrite elem_of_sort_by in Hc.
  apply M.elem_of_list_checkpoints in Hc; [|apply Hs].
  by destruct (get_checkpoint_fields _ _ _ _ _ (ci_mem _ _ Hs) Hc) as (_ & _ & ?).
Qed.

Hypothesis scan_perm : ∀ l, scan l ≡ₚ l.

(** A row of this job and node, of whatever tenant *)
Lemma held_rows m s j n :
  sim m s →
  (∃ p, p ∈ filter (λ p : key * Q.row, p.1.1.2 = j ∧ p.1.2 = n) (scan (Q.checkpoints s))) ↔
  held_elsewhere m j n = true.
Proof.
  intros [Hm Hj' Hwf _ Hrows]. unfold held_elsewhere. rewrite existsb_exists. split.
  - intros ([[[t' j'] n'] w] & [[Hj Hn] Hin]%list_elem_of_filter). cbn in Hj, Hn. subst.
    rewrite scan_perm in Hin. apply od_elem_get in Hin; [|done].
    rewrite Hrows in Hin. apply fmap_Some_1 in Hin as (c & Hc & _).
    unfold M.get_checkpoint in Hc. destruct (od_get (t', j) m) as [recs|] eqn:E; [|done].
    exists ((t', j), recs). split; [by apply list_elem_of_In, od_get_elem|]. cbn.
    rewrite bool_decide_true by done. apply od_mem_true. by exists c.
  - intros ([[t' j'] recs] & Hin & [Hj Hn]%andb_true_iff). cbn in Hj, Hn.
    apply bool_decide_eq_true in Hj as ->. apply od_mem_true in Hn as [c Hc].
    apply list_elem_of_In, (od_elem_get _ _ _ Hj') in Hin.
    exists ((t', j, n), row_of c). rewrite list_elem_of_filter, scan_perm, od_elem_of_get, Hrows by done.
    split; [done|]. unfold M.get_checkpoint. rewrite Hin. cbn. by rewrite Hc.
Qed.

Lemma checkpoint_get_agrees m s j n t :
  sim m s → Q.get_checkpoint scan s j n t = durable m j n (M.get_checkpoint m j n t).
Proof.
  intros Hs. pose proof (held_rows m s j n Hs) as Hheld. destruct Hs as [Hm Hj' Hwf Hp Hrows].
  unfold Q.get_checkpoint. rewrite Sessions.connected_file by done. cbn [res_bind]. rewrite Hrows.
  destruct (M.get_checkpoint m j n t) as [c|] eqn:E; cbn [fmap option_fmap option_map].
  - destruct (get_checkpoint_fields _ _ _ _ _ Hm E) as (<- & <- & <-).
    change ((cp_tenant_id c, cp_job_id c, cp_node_id c), row_of c) with (row_pair c).
    rewrite row_round_trip. cbn [res_bind]. unfold assert_tenant_match.
    by rewrite bool_decide_true.
  - cbn [durable]. destruct (head _) as [p|] eqn:Eh.
    + apply head_Some_elem_of in Eh. rewrite (proj1 Hheld) by (by exists p).
      destruct p as [[[t' j'] n'] w]. apply list_elem_of_filter in Eh as [[Hj Hn] Hin].
      cbn in Hj, Hn. subst. rewrite scan_perm in Hin. apply od_elem_get in Hin; [|done].
      unfold assert_tenant_match. cbn [fst]. rewrite bool_decide_false; [done|].
      intros ->. rewrite Hrows, E in Hin. done.
    + apply head_None in Eh. rewrite Eh in Hheld.
      destruct (held_elsewhere m j n); [|done].
      destruct (proj2 Hheld eq_refl) as [p Hin%elem_of_nil]. done.
Qed.

Lemma checkpoint_sim_step m s c :
  sim m s → (sql_step s c).1 = (mem_step m c).1 ∧ sim (mem_step m c).2 (sql_step s c).2.
Proof.
  intros Hs. destruct c as [c|j t|j n t]; cbn [sql_step mem_step fst snd].
  - destruct Hs as [Hm Hj Hwf Hp Hrows]. unfold Q.save_checkpoint.
    rewrite Sessions.connected_file by done. cbn [fst snd]. split; [done|].
    split; cbn [Q.checkpoints]; [by apply M.wf_save|by apply od_wf_set|by apply od_wf_set|done|].
    intros t j n. rewrite M.get_save. unfold upsert.
    destruct (decide ((t, j, n) = (cp_tenant_id c, cp_job_id c, cp_node_id c))) as [[= -> -> ->]|Hne].
    + by rewrite od_get_set, decide_True.
    + rewrite od_get_set_ne, decide_False by naive_solver. apply Hrows.
  - by rewrite (list_agrees m s) by done.
  - by rewrite (checkpoint_get_agrees m s) by done.
Qed.

(** On a database file the durable checkpoint store answers every sequence of commands as
    the in-memory one, except that a job's checkpoints come in the order of their node ids and
    that a checkpoint only another tenant has is refused instead of reported missing. *)
Theorem sqlite_checkpoints_refine_memory path cs :
  path ≠ ":memory:" → run_sql (Q.empty path) cs = run_mem [] cs.
Proof.
  intros Hp. assert (sim [] (Q.empty path)) as Hs.
  { split; [apply M.wf_empty|apply NoDup_nil_2|apply NoDup_nil_2|done|done]. }
  revert Hs. generalize (Q.empty path) as s.
  change (list ((string * string) * list (string * CheckpointRecord))) with memory.
  generalize ([] : memory) as m. induction cs as [|c cs IH]; intros m s Hs; [done|].
  destruct (checkpoint_sim_step m s c Hs) as [Ha Hs']. cbn [run_sql run_mem].
  destruct (sql_step s c) as [a s'], (mem_step m c) as [a' m']. cbn in *. subst.
  f_equal. by apply IH.
Qed.
End scanned.

Lemma sqlite_checkpoints_refine_memory_witness :
  let c tenant node := mkCheckpoint "j" node CheckpointCompleted tenant 1 "" [] in
  let cs := [Save (c "acme" "b"); Save (c "acme" "a"); ListJob "j" "acme"; Get "j" "a" "globex"] in
  run_sql (rev (A:=_)) (Q.empty "state.db") cs = run_mem [] cs ∧
  run_mem [] cs = [Saved; Saved; Listed (Ok [c "acme" "a"; c "acme" "b"]);
    Got (Raise (isolation_error "checkpoint"))].
Proof.
  split; [|reflexivity]. apply sqlite_checkpoints_refine_memory; [|done].
  intros l. symmetry. apply Permutation_rev.
Defined.
End CheckpointFacts.

(** ** Tools, agents and providers *)

(** The names of a tenant's rows are distinct. *)
Lemma tenant_rows_distinct {W} (s : list ((string * string) * W)) t :
  od_wf s → NoDup ((λ p : (string * string) * W, p.1.2) <$> filter (λ p, p.1.1 = t) s).
Proof.
  intros Hwf. assert (od_wf (filter (λ p, p.1.1 = t) s)) as Hf by by apply od_wf_filter.
  unfold od_wf, od_keys in Hf.
  assert (∀ p, p ∈ filter (λ p : (string * string) * W, p.1.1 = t) s → p.1.1 = t) as Ht
    by (by intros p [? _]%list_elem_of_filter).
  revert Hf Ht. generalize (filter (λ p : (string * string) * W, p.1.1 = t) s) as l.
  induction l as [|p l IH]; intros Hf Ht; [constructor|]. rewrite !fmap_cons in *.
  apply NoDup_cons in Hf as [Hp Hf]. constructor; [|apply IH; [done|]; intros; apply Ht; by right].
  intros (q & E & Hq)%list_elem_of_fmap. apply Hp. apply list_elem_of_fmap. exists q.
  split; [|done]. rewrite (surjective_pairing p.1), (surjective_pairing q.1), <- E.
  rewrite (Ht p), (Ht q); [done|by right|by left].
Qed.

(** A record and its row: what is written under the record's key is read back as the record. *)
Class Codec (K R W : Type) := {
  key_of : R → K;
  encode : R → W;
  decode : K * W → R;
  decode_encode r : decode (key_of r, encode r) = r;
}.

Lemma texts_round_trip l : texts_of (texts l) = l.
Proof. induction l as [|s l IH]; [done|]. cbn. by f_equal. Qed.

#[export] Program Instance tool_codec : Codec (string * string) PersistedToolRecord SQLiteToolStore.row := {|
  key_of r := (pt_tenant_id r, pt_name r);
  encode r := SQLiteToolStore.mkRow (pt_handler_ref r) (SQLiteToolStore.data_of r);
  decode := SQLiteToolStore.record_of;
|}.
Next Obligation. by intros []. Qed.

#[export] Program Instance agent_codec : Codec (string * string) PersistedAgentRecord SQLiteAgentStore.row := {|
  key_of r := (pa_tenant_id r, pa_agent_id r);
  encode r := SQLiteAgentStore.mkRow (pa_role r) (SQLiteAgentStore.data_of r);
  decode := SQLiteAgentStore.record_of;
|}.
Next Obligation.
  intros [? ? ? tags ? ?]. unfold SQLiteAgentStore.record_of. f_equal; try done.
  exact (texts_round_trip tags).
Qed.

#[export] Program Instance provider_codec : Codec string PersistedProviderRecord SQLiteProviderStore.row := {|
  key_of := pp_provider_id;
  encode := SQLiteProviderStore.row_of;
  decode := SQLiteProviderStore.row_to_record;
|}.
Next Obligation.
  intros []. unfold SQLiteProviderStore.row_to_record, SQLiteProviderStore.row_of. cbn. f_equal.
  by destruct pp_enabled.
Qed.

Section keyed.
Context {K R W : Type} `{Countable K} `{!Codec K R W}.

Inductive store_command := SaveRecord (r : R) | DeleteKey (k : K).

(** The rows after a command, and what they stand for. *)
Definition rows_step (rows : list (K * W)) (c : store_command) : list (K * W) :=
  match c with
  | SaveRecord r => upsert (key_of r) (encode r) rows
  | DeleteKey k => delete_row k rows
  end.

Definition spec_step (m : gmap K R) (c : store_command) : gmap K R :=
  match c with
  | SaveRecord r => <[key_of r := r]> m
  | DeleteKey k => delete k m
  end.

Definition holds (rows : list (K * W)) (m : gmap K R) : Prop :=
  od_wf rows ∧ (∀ k, od_get k rows = encode <$> m !! k) ∧ (∀ k r, m !! k = Some r → key_of r = k).

Lemma holds_step rows m c : holds rows m → holds (rows_step rows c) (spec_step m c).
Proof.
  intros (Hwf & Hrows & Hkey). destruct c as [r|k]; cbn [rows_step spec_step].
  - split; [by apply od_wf_set|]. split; intros k.
    + unfold upsert. destruct (decide (k = key_of r)) as [->|Hne].
      * by rewrite od_get_set, lookup_insert_eq.
      * by rewrite od_get_set_ne, lookup_insert_ne by done.
    + intros r' [[<- <-]|[_ Hr]]%lookup_insert_Some; [done|by apply Hkey].
  - split; [by apply od_wf_pop|]. split; intros k'.
    + unfold delete_row. destruct (decide (k' = k)) as [->|Hne].
      * by rewrite od_get_pop, lookup_delete_eq.
      * by rewrite od_get_pop_ne, lookup_delete_ne by done.
    + intros r' [_ Hr]%lookup_delete_Some. by apply Hkey.
Qed.

Lemma holds_run cs : holds (foldl rows_step [] cs) (foldl spec_step ∅ cs).
Proof.
  assert (holds [] ∅) as Hh by (split; [apply NoDup_nil_2|done]).
  revert Hh. generalize ([] : list (K * W)) as rows. generalize (∅ : gmap K R) as m.
  induction cs as [|c cs IH]; intros m rows Hh; [done|]. by apply IH, holds_step.
Qed.

(** The rows of a selection, decoded in the order of a column, are the records of the selected
    keys in that order. *)
Lemma select_spec rows m (P : K → Prop) `{!∀ k, Decision (P k)} (column : K * W → string)
    (name : R → string) :
  holds rows m → (∀ p, name (decode p) = column p) →
  let l := decode <$> sort_by (column_le column) (filter (λ p, P p.1) rows) in
  StronglySorted (column_le name) l ∧ ∀ r, r ∈ l ↔ P (key_of r) ∧ m !! key_of r = Some r.
Proof.
  intros (Hwf & Hrows & Hkey) Hname l. split.
  - unfold l. generalize (sort_by_sorted (column_le column) (filter (λ p, P p.1) rows)).
    induction 1 as [|p ps Hs IH Hp]; cbn; [constructor|]. constructor; [done|].
    apply Forall_fmap. eapply Forall_impl; [exact Hp|]. intros q Hq. cbn.
    unfold column_le in *. by rewrite !Hname.
  - intros r. unfold l. rewrite list_elem_of_fmap. split.
    + intros ([k w] & -> & Hin). rewrite elem_of_sort_by in Hin.
      apply list_elem_of_filter in Hin as [HP Hin]. apply (od_elem_get _ _ _ Hwf) in Hin.
      rewrite Hrows in Hin. apply fmap_Some_1 in Hin as (r & Hr & ->).
      destruct (Hkey _ _ Hr). by rewrite decode_encode.
    + intros [HP Hr]. exists (key_of r, encode r). rewrite decode_encode. split; [done|].
      rewrite elem_of_sort_by, list_elem_of_filter, od_elem_of_get, Hrows, Hr by done. done.
Qed.

Lemma distinct_spec rows m (tenant : K → string) t :
  holds rows m →
  t ∈ distinct ((λ p, tenant p.1) <$> rows) ↔ ∃ k, tenant k = t ∧ is_Some (m !! k).
Proof.
  intros (Hwf & Hrows & _). unfold distinct, sorted_strings.
  rewrite elem_of_sort_by, elem_of_remove_dups, list_elem_of_fmap. split.
  - intros ([k w] & -> & Hin). exists k. split; [done|].
    apply (od_elem_get _ _ _ Hwf) in Hin. rewrite Hrows in Hin.
    apply fmap_Some_1 in Hin as (r & -> & _). done.
  - intros (k & <- & r & Hr). exists (k, encode r). split; [done|].
    by rewrite od_elem_of_get, Hrows, Hr by done.
Qed.
End keyed.
Arguments store_command : clear implicits.

Definition tool_step (s : list ((string * string) * SQLiteToolStore.row))
    (c : store_command (string * string) PersistedToolRecord) :=
  match c with
  | SaveRecord r => SQLiteToolStore.save_tool s (pt_tenant_id r) r
  | DeleteKey k => SQLiteToolStore.delete_tool s k.1 k.2
  end.

Definition agent_step (s : list ((string * string) * SQLiteAgentStore.row))
    (c : store_command (string * string) PersistedAgentRecord) :=
  match c with
  | SaveRecord r => SQLiteAgentStore.save_agent s (pa_tenant_id r) r
  | DeleteKey k => SQLiteAgentStore.delete_agent s k.1 k.2
  end.

Definition provider_step (s : list (string * SQLiteProviderStore.row))
    (c : store_command string PersistedProviderRecord) :=
  match c with
  | SaveRecord r => SQLiteProviderStore.save_provider s r
  | DeleteKey k => SQLiteProviderStore.delete_provider s k
  end.

Lemma foldl_ext {A B} (f g : A → B → A) a l : (∀ a b, f a b = g a b) → foldl f a l = foldl g a l.
Proof. intros Hfg. revert a. induction l as [|b l IH]; intros a; [done|]. cbn. by rewrite Hfg. Qed.

Lemma filter_True {A} (l : list A) : filter (λ _, True) l = l.
Proof. induction l as [|x l IH]; [done|]. rewrite filter_cons, decide_True by done. by f_equal. Qed.

(** The tool, agent and provider stores hold, after any commands, exactly the records last
    saved under their keys and not deleted since: a listing has each record of the tenant
    as it was saved, with every field, in the order of the names, and the tenants listed are
    those that have a record. *)
Theorem stores_hold_last_saved tool_cs agent_cs provider_cs :
  (let s := foldl tool_step [] tool_cs in
   let m := foldl spec_step ∅ tool_cs in
   (∀ tenant, StronglySorted (column_le pt_name) (SQLiteToolStore.list_tools s tenant) ∧
      ∀ r, r ∈ SQLiteToolStore.list_tools s tenant ↔
        pt_tenant_id r = tenant ∧ m !! (tenant, pt_name r) = Some r) ∧
   ∀ tenant, tenant ∈ SQLiteToolStore.list_tenant_ids s ↔ ∃ name, is_Some (m !! (tenant, name))) ∧
  (let s := foldl agent_step [] agent_cs in
   let m := foldl spec_step ∅ agent_cs in
   (∀ tenant, StronglySorted (column_le pa_agent_id) (SQLiteAgentStore.list_agents s tenant) ∧
      ∀ r, r ∈ SQLiteAgentStore.list_agents s tenant ↔
        pa_tenant_id r = tenant ∧ m !! (tenant, pa_agent_id r) = Some r) ∧
   ∀ tenant, tenant ∈ SQLiteAgentStore.list_tenant_ids s ↔ ∃ id, is_Some (m !! (tenant, id))) ∧
  (let s := foldl provider_step [] provider_cs in
   let m := foldl spec_step ∅ provider_cs in
   (∀ id, SQLiteProviderStore.get_provider s id = m !! id) ∧
   StronglySorted (column_le pp_provider_id) (SQLiteProviderStore.list_providers s) ∧
   ∀ r, r ∈ SQLiteProviderStore.list_providers s ↔ m !! pp_provider_id r = Some r).
Proof.
  split_and!.
  - rewrite (foldl_ext tool_step rows_step) by (intros ? [|[]]; reflexivity). cbn zeta.
    pose proof (holds_run tool_cs) as Hh. split.
    + intros tenant. destruct (select_spec (foldl rows_step [] tool_cs) (foldl spec_step ∅ tool_cs) (λ k, k.1 = tenant) SQLiteToolStore.tool_name pt_name Hh)
        as [Hs Hin]; [done|]. split; [exact Hs|]. intros r. etrans; [apply Hin|]. cbn.
      split; intros [<- ?]; done.
    + intros tenant. etrans; [by apply (distinct_spec (foldl rows_step [] tool_cs) (foldl spec_step ∅ tool_cs) fst)|]. split.
      * intros ([t n] & <- & ?). by exists n.
      * intros [n ?]. by exists (tenant, n).
  - rewrite (foldl_ext agent_step rows_step) by (by intros ? [|[]]). cbn zeta.
    pose proof (holds_run agent_cs) as Hh. split.
    + intros tenant. destruct (select_spec (foldl rows_step [] agent_cs) (foldl spec_step ∅ agent_cs) (λ k, k.1 = tenant) SQLiteAgentStore.agent_id pa_agent_id Hh)
        as [Hs Hin]; [done|]. split; [exact Hs|]. intros r. etrans; [apply Hin|]. cbn.
      split; intros [<- ?]; done.
    + intros tenant. etrans; [by apply (distinct_spec (foldl rows_step [] agent_cs) (foldl spec_step ∅ agent_cs) fst)|]. split.
      * intros ([t n] & <- & ?). by exists n.
      * intros [n ?]. by exists (tenant, n).
  - rewrite (foldl_ext provider_step rows_step) by (by intros ? []). cbn zeta.
    pose proof (holds_run provider_cs) as Hh. split.
    + intros id. unfold SQLiteProviderStore.get_provider. destruct Hh as (_ & -> & Hk).
      destruct (foldl spec_step ∅ provider_cs !! id) as [r|] eqn:E; [|done]. cbn.
      rewrite <- (Hk _ _ E). f_equal. exact (decode_encode (K := string) (W := SQLiteProviderStore.row) r).
    + destruct (select_spec (foldl rows_step [] provider_cs) (foldl spec_step ∅ provider_cs) (λ _, True) fst pp_provider_id Hh) as [Hs Hin]; [by intros []|].
      rewrite filter_True in Hs, Hin. split; [exact Hs|].
      intros r. etrans; [apply Hin|]. cbn. tauto.
Qed.

(** * Theorems about the store of tool versions

    The store answers as a map of uploaded versions with one pointer per tool, whatever the
    order in which SQLite visits rows: saving a version, activating it, clearing, deleting. *)

Module Q := SQLiteToolVersionStore.

Notation key := (string * string * string)%type.
Notation rows_t := (list (string * string * string * Q.row)).

(** ** The abstract store *)

Record versions := mkVersions {
  uploaded : gmap key ToolVersionRecord;
  active_version : gmap (string * string) string;
}.

Definition key_of_version (r : ToolVersionRecord) : key := (vr_tenant_id r, vr_tool_name r, vr_version r).

Inductive version_command :=
| Upload (r : ToolVersionRecord)
| Activate (tenant_id tool_name version : string)
| Clear (tenant_id tool_name : string)
| Delete (tenant_id tool_name version : string).

Definition withdraw (m : versions) (k : key) : gmap (string * string) string :=
  if decide (active_version m !! k.1 = Some k.2) then delete k.1 (active_version m)
  else active_version m.

(** Uploading a version again makes it inactive; activating one that is not there leaves the
    tool without an active version. *)
Definition spec_versions (m : versions) (c : version_command) : versions :=
  match c with
  | Upload r => mkVersions (<[key_of_version r := r]> (uploaded m)) (withdraw m (key_of_version r))
  | Activate t n v =>
      mkVersions (uploaded m)
        (if decide (is_Some (uploaded m !! (t, n, v))) then <[(t, n) := v]> (active_version m)
         else delete (t, n) (active_version m))
  | Clear t n => mkVersions (uploaded m) (delete (t, n) (active_version m))
  | Delete t n v => mkVersions (delete (t, n, v) (uploaded m)) (withdraw m (t, n, v))
  end.

Definition no_versions : versions := mkVersions ∅ ∅.

(** A version as a reader sees it *)
Definition present (m : versions) (r : ToolVersionRecord) : ToolVersionRecord :=
  mkToolVersion (vr_tenant_id r) (vr_tool_name r) (vr_version r) (vr_manifest r)
    (Some (default (Q.pending (vr_tool_name r) (vr_version r)) (vr_validation r))) (vr_package_ref r)
    (bool_decide (active_version m !! (vr_tenant_id r, vr_tool_name r) = Some (vr_version r)))
    (vr_created_at r).

Definition spec_get (m : versions) (k : key) : option ToolVersionRecord := present m <$> uploaded m !! k.

Definition spec_active (m : versions) (t n : string) : option ToolVersionRecord :=
  v ← active_version m !! (t, n); spec_get m (t, n, v).

(** ** The store *)

(** The routes upload a version as inactive. *)
Definition version_step (s : rows_t) (c : version_command) : rows_t :=
  match c with
  | Upload r => Q.save_tool_version s r
  | Activate t n v => Q.set_active_tool_version s t n v
  | Clear t n => Q.clear_active_tool_version s t n
  | Delete t n v => Q.delete_tool_version s t n v
  end.

Definition inactive_upload (c : version_command) : Prop :=
  match c with Upload r => vr_active r = false | _ => True end.

Definition row_in (m : versions) (r : ToolVersionRecord) : Q.row :=
  Q.set_active (if decide (active_version m !! (vr_tenant_id r, vr_tool_name r) = Some (vr_version r))
                then 1 else 0) (Q.row_of r).

Record stores (m : versions) (s : rows_t) : Prop := {
  vs_wf : od_wf s;
  vs_rows : ∀ k, od_get k s = row_in m <$> uploaded m !! k;
  vs_keys : ∀ k r, uploaded m !! k = Some r → key_of_version r = k;
  vs_active : ∀ tn v, active_version m !! tn = Some v → is_Some (uploaded m !! (tn, v));
}.

Lemma stores_nothing : stores no_versions [].
Proof. by split; [apply NoDup_nil_2|..]. Qed.

Lemma validation_state_round_trip st : validation_state_of (validation_state_value st) = Ok st.
Proof. by destruct st. Qed.

Lemma read_texts d key l : dict_get d key (PList []) = texts l → get_texts d key = l.
Proof. intros E. unfold get_texts. rewrite E. apply texts_round_trip. Qed.

(** A stored row is read back as the version that was saved, a missing validation as pending. *)
Lemma version_row_round_trip m r : Q.row_to_record (key_of_version r, row_in m r) = Ok (present m r).
Proof.
  unfold Q.row_to_record, row_in, key_of_version. cbn [Q.rw_manifest_json Q.rw_validation_json
    Q.set_active Q.row_of Q.rw_package_ref Q.rw_active Q.rw_created_at].
  set (v := default (Q.pending (vr_tool_name r) (vr_version r)) (vr_validation r)).
  replace (get_text (Q.validation_json r) "state" (validation_state_value PENDING))
    with (validation_state_value (tv_state v)) by reflexivity.
  rewrite validation_state_round_trip. cbn [res_bind].
  rewrite !(read_texts (Q.validation_json r) "errors" (tv_errors v)) by reflexivity.
  rewrite !(read_texts (Q.validation_json r) "warnings" (tv_warnings v)) by reflexivity.
  rewrite !(read_texts (Q.manifest_json (vr_manifest r)) "requirements"
    (mf_requirements (vr_manifest r))) by reflexivity.
  unfold present. fold v. f_equal. f_equal.
  - destruct (vr_manifest r). reflexivity.
  - transitivity (Some (mkValidation (tv_tool_name v) (tv_version v) (tv_state v) (tv_errors v)
      (tv_warnings v) (tv_normalized_schema_hash v))); [reflexivity|by destruct v].
  - case_decide; [by rewrite bool_decide_true|by rewrite bool_decide_false].
Qed.

(** *** The store follows the map *)

Lemma update_rows_get (p : key → Q.row → bool) f (s : rows_t) k :
  od_get k (update_rows p f s) = (λ w, if p k w then f w else w) <$> od_get k s.
Proof. unfold update_rows. apply od_get_map. Qed.

Lemma row_in_ext m m' r :
  (active_version m !! (key_of_version r).1 = Some (key_of_version r).2 ↔
   active_version m' !! (key_of_version r).1 = Some (key_of_version r).2) →
  row_in m r = row_in m' r.
Proof.
  cbn. intros E. unfold row_in. f_equal.
  destruct (decide (active_version m !! _ = _)) as [H|H]; [rewrite decide_True|rewrite decide_False];
    tauto.
Qed.

Lemma withdraw_other m k k' : k' ≠ k →
  withdraw m k !! k'.1 = Some k'.2 ↔ active_version m !! k'.1 = Some k'.2.
Proof.
  intros Hne. unfold withdraw. case_decide as Ha; [|done].
  destruct (decide (k'.1 = k.1)) as [E|E]; [|by rewrite lookup_delete_ne by done].
  rewrite E, lookup_delete_eq, Ha. split; [done|]. intros [= Hv]. destruct k', k. cbn in *. congruence.
Qed.

Lemma withdraw_this m k : withdraw m k !! k.1 ≠ Some k.2.
Proof. unfold withdraw. case_decide; [|done]. by rewrite lookup_delete_eq. Qed.

Lemma withdraw_Some m k tn v :
  withdraw m k !! tn = Some v → active_version m !! tn = Some v ∧ (tn, v) ≠ k.
Proof.
  intros Hw. split.
  - revert Hw. unfold withdraw. case_decide; [|done]. by intros [_ ?]%lookup_delete_Some.
  - intros <-. by apply (withdraw_this m (tn, v)) in Hw.
Qed.

Lemma stores_upload m s r :
  vr_active r = false → stores m s → stores (spec_versions m (Upload r)) (version_step s (Upload r)).
Proof.
  intros Hr [Hwf Hrows Hkeys Hact]. split; cbn [uploaded active_version spec_versions version_step].
  - by apply od_wf_set.
  - intros k. unfold Q.save_tool_version, upsert. fold (key_of_version r).
    destruct (decide (k = key_of_version r)) as [->|Hne].
    + rewrite od_get_set, lookup_insert_eq. cbn. f_equal. unfold row_in. cbn.
      rewrite decide_False by apply (withdraw_this m (key_of_version r)).
      unfold Q.row_of. by rewrite Hr.
    + rewrite od_get_set_ne, lookup_insert_ne, Hrows by done.
      destruct (uploaded m !! k) as [r'|] eqn:E; [|done]. cbn. f_equal. apply row_in_ext.
      rewrite (Hkeys _ _ E). cbn. by rewrite withdraw_other.
  - intros k r' [[<- <-]|[_ Hr']]%lookup_insert_Some; [done|by apply Hkeys].
  - intros tn v [Hv Hne]%withdraw_Some. rewrite lookup_insert_ne by done. by apply Hact.
Qed.

Lemma stores_clear m s t n : stores m s → stores (spec_versions m (Clear t n)) (version_step s (Clear t n)).
Proof.
  intros [Hwf Hrows Hkeys Hact]. split; cbn [uploaded active_version spec_versions version_step].
  - unfold od_wf, Q.clear_active_tool_version, update_rows. by rewrite od_map_keys.
  - intros k. unfold Q.clear_active_tool_version. rewrite update_rows_get, Hrows.
    destruct (uploaded m !! k) as [r|] eqn:E; [|done]. cbn. f_equal. apply Hkeys in E as <-.
    unfold Q.of_tool. case_bool_decide as Hk.
    + unfold row_in at 2. cbn in *. rewrite Hk.
      rewrite (decide_False (P := delete (t, n) _ !! _ = _)) by (by rewrite lookup_delete_eq). done.
    + apply row_in_ext. cbn in *. by rewrite lookup_delete_ne by done.
  - done.
  - intros tn v [_ Hv]%lookup_delete_Some. by apply Hact.
Qed.

Lemma stores_activate m s t n v :
  stores m s → stores (spec_versions m (Activate t n v)) (version_step s (Activate t n v)).
Proof.
  intros Hs%(stores_clear _ _ t n). destruct Hs as [Hwf Hrows Hkeys Hact].
  cbn [uploaded active_version spec_versions version_step] in *. unfold Q.set_active_tool_version.
  set (s' := Q.clear_active_tool_version s t n) in *. split; cbn [uploaded active_version].
  - unfold od_wf, update_rows. by rewrite od_map_keys.
  - intros k. rewrite update_rows_get, Hrows.
    destruct (uploaded m !! k) as [r|] eqn:E; [|done]. cbn. f_equal.
    case_bool_decide as Hk.
    + subst k. rewrite decide_True by done. pose proof (Hkeys _ _ E) as [= Ht Hn Hv].
      unfold row_in at 2. cbn. rewrite Ht, Hn, Hv.
      by rewrite (decide_True (P := <[_ := _]> _ !! _ = _)) by (by rewrite lookup_insert_eq).
    + apply row_in_ext. rewrite (Hkeys _ _ E). cbn.
      case_decide; [|done]. destruct (decide (k.1 = (t, n))) as [Ek|Ek].
      * rewrite Ek, lookup_insert_eq, lookup_delete_eq. split; [done|].
        intros [= Hv]. destruct k; cbn in *; congruence.
      * by rewrite lookup_insert_ne, lookup_delete_ne by done.
  - done.
  - intros tn v'. case_decide as Hv; [|apply Hact].
    intros [[<- <-]|[Hne Hv']]%lookup_insert_Some; [done|]. apply Hact.
    by rewrite lookup_delete_ne by done.
Qed.

Lemma stores_delete m s t n v :
  stores m s → stores (spec_versions m (Delete t n v)) (version_step s (Delete t n v)).
Proof.
  intros [Hwf Hrows Hkeys Hact]. split; cbn [uploaded active_version spec_versions version_step].
  - by apply od_wf_pop.
  - intros k. unfold Q.delete_tool_version, delete_row.
    destruct (decide (k = (t, n, v))) as [->|Hne].
    + by rewrite od_get_pop, lookup_delete_eq.
    + rewrite od_get_pop_ne, lookup_delete_ne, Hrows by done.
      destruct (uploaded m !! k) as [r|] eqn:E; [|done]. cbn. f_equal. apply row_in_ext.
      rewrite (Hkeys _ _ E). cbn. by rewrite withdraw_other.
  - intros k r [_ Hr]%lookup_delete_Some. by apply Hkeys.
  - intros tn v' [Hv Hne]%withdraw_Some. rewrite lookup_delete_ne by done. by apply Hact.
Qed.

Lemma stores_step m s c : inactive_upload c → stores m s → stores (spec_versions m c) (version_step s c).
Proof.
  destruct c; intros Hc Hs.
  - by apply stores_upload.
  - by apply stores_activate.
  - by apply stores_clear.
  - by apply stores_delete.
Qed.

Lemma stores_run cs : Forall inactive_upload cs →
  stores (foldl spec_versions no_versions cs) (foldl version_step [] cs).
Proof.
  generalize stores_nothing. generalize no_versions as m. generalize ([] : rows_t) as s.
  induction cs as [|c cs IH]; intros s m Hs Hc; [done|]. apply Forall_cons in Hc as [Hc Hcs].
  cbn. apply IH; [|done]. by apply stores_step.
Qed.

(** ** What a reader gets *)

Definition row_pair (m : versions) (r : ToolVersionRecord) : key * Q.row := (key_of_version r, row_in m r).

Section read.
Context {m : versions} {s : rows_t} (Hs : stores m s).

Lemma row_elem p : p ∈ s ↔ ∃ r, p = row_pair m r ∧ uploaded m !! key_of_version r = Some r.
Proof.
  destruct Hs as [Hwf Hrows Hkeys _]. destruct p as [k w]. rewrite od_elem_of_get, Hrows by done. split.
  - intros (r & Hr & ->)%fmap_Some_1. pose proof (Hkeys _ _ Hr) as <-. by exists r.
  - intros (r & [= -> ->] & Hr). by rewrite Hr.
Qed.

Lemma rows_of_records (ps : rows_t) : (∀ p, p ∈ ps → p ∈ s) →
  ∃ rs : list ToolVersionRecord, ps = row_pair m <$> rs ∧ ∀ r, r ∈ rs → uploaded m !! key_of_version r = Some r.
Proof.
  induction ps as [|p ps IH]; intros Hin.
  { exists []. split; [done|]. by intros r ?%elem_of_nil. }
  destruct IH as (rs & -> & Hrs). { intros q Hq. apply Hin. by right. }
  destruct (proj1 (row_elem p)) as (r & -> & Hr). { apply Hin. by left. }
  exists (r :: rs). split; [done|]. by intros r' [->|Hr']%elem_of_cons; [|apply Hrs].
Qed.

Lemma row_pair_elem (rs : list ToolVersionRecord) r :
  row_pair m r ∈ row_pair m <$> rs → (∀ r, r ∈ rs → uploaded m !! key_of_version r = Some r) →
  uploaded m !! key_of_version r = Some r → r ∈ rs.
Proof.
  intros (r2 & E & Hin)%list_elem_of_fmap Hup Hr. apply (f_equal fst) in E.
  change (key_of_version r = key_of_version r2) in E. pose proof (Hup _ Hin) as Hr2.
  rewrite <- E, Hr in Hr2. injection Hr2 as ->. exact Hin.
Qed.

Lemma map_rows_records (rs : list ToolVersionRecord) : Q.map_rows (row_pair m <$> rs) = Ok (present m <$> rs).
Proof.
  induction rs as [|r rs IH]; [done|]. rewrite !fmap_cons. cbn [Q.map_rows].
  unfold row_pair at 1. by rewrite version_row_round_trip, IH.
Qed.

Lemma sorted_records R (R' : ToolVersionRecord → ToolVersionRecord → Prop) (rs : list ToolVersionRecord) :
  (∀ r r', R (row_pair m r) (row_pair m r') → R' (present m r) (present m r')) →
  StronglySorted R (row_pair m <$> rs) → StronglySorted R' (present m <$> rs).
Proof.
  clear Hs. intros HR. induction rs as [|r rs IH]; [constructor|]. rewrite !fmap_cons.
  intros [Hsort Hall]%StronglySorted_inv. constructor; [by apply IH|].
  pose proof (proj1 (Forall_forall _ _) Hall) as Hall'. apply Forall_forall.
  intros ? (r' & -> & Hr')%list_elem_of_fmap. by apply HR, Hall', list_elem_of_fmap_2.
Qed.

Lemma get_reads t n v : Q.get_tool_version s t n v = Ok (spec_get m (t, n, v)).
Proof.
  unfold Q.get_tool_version, spec_get. rewrite (vs_rows _ _ Hs).
  destruct (uploaded m !! (t, n, v)) as [r|] eqn:E; [|done]. cbn [fmap option_fmap option_map Q.first_record].
  pose proof (vs_keys _ _ Hs _ _ E) as <-. by rewrite version_row_round_trip.
Qed.

Lemma row_active r : Q.is_active (row_pair m r) = bool_decide (active_version m !! (key_of_version r).1 = Some (key_of_version r).2).
Proof.
  unfold Q.is_active, row_pair, row_in. cbn [snd Q.set_active Q.rw_active].
  destruct (decide (active_version m !! (vr_tenant_id r, vr_tool_name r) = Some (vr_version r))) as [H|H].
  - by rewrite bool_decide_true.
  - by rewrite bool_decide_false.
Qed.

(** The pointer decides, not the order in which the rows are visited. *)
Lemma active_reads scan t n :
  (∀ l, scan l ≡ₚ l) → Q.get_active_tool_version scan s t n = Ok (spec_active m t n).
Proof.
  intros Hscan. unfold Q.get_active_tool_version, spec_active.
  set (hits := filter _ _).
  assert (∀ p, p ∈ hits ↔ ∃ r, p = row_pair m r ∧ uploaded m !! key_of_version r = Some r ∧
    (key_of_version r).1 = (t, n) ∧ active_version m !! (t, n) = Some (key_of_version r).2) as Hin.
  { intros p. unfold hits. rewrite list_elem_of_filter, Hscan, row_elem, andb_true_iff.
    unfold Q.of_tool. rewrite bool_decide_eq_true. split.
    - intros [[Hk Ha] (r & -> & Hr)]. rewrite row_active, bool_decide_eq_true in Ha.
      exists r. cbn [row_pair fst] in Hk. by rewrite <- Hk.
    - intros (r & -> & Hr & Hk & Ha). rewrite row_active, bool_decide_eq_true. rewrite Hk.
      split; [by cbn|]. by exists r. }
  destruct (active_version m !! (t, n)) as [v|] eqn:Ea; cbn [mbind option_bind].
  - destruct (vs_active _ _ Hs _ _ Ea) as [r Hr]. pose proof (vs_keys _ _ Hs _ _ Hr) as Hk.
    assert (row_pair m r ∈ hits) as Hh.
    { apply Hin. exists r. rewrite Hk. by split_and!. }
    destruct (head hits) as [p|] eqn:Eh; [|apply head_None in Eh; rewrite Eh in Hh; by apply elem_of_nil in Hh].
    apply head_Some_elem_of, Hin in Eh as (r' & -> & Hr' & Hk1 & [= Hk2]).
    assert (r' = r) as ->.
    { assert (key_of_version r' = (t, n, v)) as E by (rewrite (surjective_pairing (key_of_version r')), Hk1; by rewrite Hk2).
      rewrite E in Hr'. congruence. }
    cbn [Q.first_record]. unfold row_pair. rewrite version_row_round_trip. unfold spec_get. by rewrite Hr.
  - destruct (head hits) as [p|] eqn:Eh; [|done].
    apply head_Some_elem_of, Hin in Eh as (r' & _ & _ & _ & [=]).
Qed.

Lemma versions_read t n :
  ∃ l, Q.list_tool_versions s t n = Ok l ∧ StronglySorted (column_ge vr_version) l ∧
    ∀ r, r ∈ l ↔ ∃ v, spec_get m (t, n, v) = Some r.
Proof.
  unfold Q.list_tool_versions.
  set (ps := sort_by _ _). assert (∀ p, p ∈ ps ↔ p ∈ s ∧ p.1.1 = (t, n)) as Hps.
  { intros p. unfold ps. rewrite elem_of_sort_by, list_elem_of_filter. unfold Q.of_tool.
    rewrite bool_decide_eq_true. tauto. }
  destruct (rows_of_records ps) as (rs & Hrs & Hup); [by intros p [? _]%Hps|].
  exists (present m <$> rs). rewrite Hrs, map_rows_records. split; [done|]. split.
  - pose proof (sort_by_sorted (column_ge Q.version_of)
      (filter (λ p, Q.of_tool t n p.1 = true) s)) as Hsort. fold ps in Hsort. rewrite Hrs in Hsort.
    (eapply sorted_records; [|exact Hsort]). by intros r r' ?.
  - intros r. rewrite list_elem_of_fmap. split.
    + intros (r' & -> & Hr'). exists (vr_version r'). unfold spec_get.
      assert (row_pair m r' ∈ ps) as [_ Hk]%Hps by (rewrite Hrs; by apply list_elem_of_fmap_2).
      cbn in Hk. rewrite <- Hk. change (vr_tenant_id r', vr_tool_name r', vr_version r') with (key_of_version r').
      by rewrite Hup.
    + intros (v & Hv). unfold spec_get in Hv. apply fmap_Some_1 in Hv as (r' & Hr' & ->).
      exists r'. split; [done|]. pose proof (vs_keys _ _ Hs _ _ Hr') as Hk.
      assert (row_pair m r' ∈ ps) as Hin.
      { apply Hps. rewrite row_elem. cbn [row_pair fst]. rewrite Hk. split; [|done]. exists r'.
        by rewrite Hk. }
      rewrite Hrs in Hin. apply (row_pair_elem _ _ Hin Hup). by rewrite Hk.
Qed.

(** The active versions of a tenant, one for each tool that has one, in the order of the tools *)
Lemma active_versions_read scan t :
  (∀ l, scan l ≡ₚ l) →
  ∃ l, Q.list_active_tool_versions scan s t = Ok l ∧ StronglySorted (column_le vr_tool_name) l ∧
    NoDup (vr_tool_name <$> l) ∧
    ∀ r, r ∈ l ↔ vr_tenant_id r = t ∧ spec_active m t (vr_tool_name r) = Some r.
Proof.
  intros Hscan. unfold Q.list_active_tool_versions.
  set (ps := sort_by _ _).
  assert (∀ p, p ∈ ps ↔ p ∈ s ∧ p.1.1.1 = t ∧ Q.is_active p = true) as Hps.
  { intros p. unfold ps. rewrite elem_of_sort_by, list_elem_of_filter, Hscan, andb_true_iff.
    rewrite bool_decide_eq_true. tauto. }
  destruct (rows_of_records ps) as (rs & Hrs & Hup); [by intros p [? _]%Hps|].
  exists (present m <$> rs). rewrite Hrs, map_rows_records. split; [done|]. split; [|split].
  - pose proof (sort_by_sorted (column_le Q.tool_of)
      (filter (λ p, bool_decide (p.1.1.1 = t) && Q.is_active p = true) (scan s))) as Hsort.
    fold ps in Hsort. rewrite Hrs in Hsort. (eapply sorted_records; [|exact Hsort]). by intros r r' ?.
  - assert (NoDup ps) as Hnd.
    { unfold ps. rewrite sort_by_perm. apply NoDup_filter. rewrite Hscan.
      eapply NoDup_fmap_1. exact (vs_wf _ _ Hs). }
    assert (∀ r, r ∈ rs → vr_tenant_id r = t ∧
      active_version m !! (vr_tenant_id r, vr_tool_name r) = Some (vr_version r)) as Hact.
    { intros r Hr. assert (row_pair m r ∈ ps) as (_ & Ht & Ha)%Hps by (rewrite Hrs; by apply list_elem_of_fmap_2).
      rewrite row_active, bool_decide_eq_true in Ha. done. }
    rewrite Hrs in Hnd. apply NoDup_fmap_1 in Hnd. rewrite <- list_fmap_compose.
    clear Hps Hrs ps. induction Hnd as [|r rs Hr Hnd IH]; [constructor|]. rewrite fmap_cons.
    constructor; [|apply IH; intros; [apply Hup|apply Hact]; by right].
    intros (r' & E & Hr')%list_elem_of_fmap. apply Hr. cbn in E.
    destruct (Hact r) as [Ht Ha]; [by left|]. destruct (Hact r') as [Ht' Ha']; [by right|].
    assert (key_of_version r = key_of_version r') as Ek.
    { unfold key_of_version. rewrite Ht, Ht', E in *. congruence. }
    assert (Some r = Some r') as [= ->]; [|done].
    rewrite <- (Hup r), <- (Hup r'), Ek by (by (left + right)). done.
  - intros r. rewrite list_elem_of_fmap. unfold spec_active, spec_get. split.
    + intros (r' & -> & Hr').
      assert (row_pair m r' ∈ ps) as (_ & Ht & Ha)%Hps by (rewrite Hrs; by apply list_elem_of_fmap_2).
      split; [exact Ht|]. rewrite row_active, bool_decide_eq_true in Ha. cbn in Ha, Ht. cbn [present vr_tool_name].
      rewrite <- Ht, Ha. cbn.
      change (vr_tenant_id r', vr_tool_name r', vr_version r') with (key_of_version r').
      by rewrite Hup.
    + intros [Ht Hr]. destruct (active_version m !! _) as [v|] eqn:Ea; [|done]. cbn in Hr.
      apply fmap_Some_1 in Hr as (r' & Hr' & ->). pose proof (vs_keys _ _ Hs _ _ Hr') as Hk.
      exists r'. split; [done|]. assert (row_pair m r' ∈ ps) as Hin.
      { apply Hps. rewrite row_elem, row_active, bool_decide_eq_true. cbn [row_pair fst].
        rewrite Hk. split_and!; [|done|done]. exists r'. by rewrite Hk. }
      rewrite Hrs in Hin. apply (row_pair_elem _ _ Hin Hup). by rewrite Hk.
Qed.
End read.

(** After any uploads, activations, deactivations and deletions the store of tool versions
    reads as a map of the versions last uploaded with one pointer per tool: a version is read back
    with every field, it is the active one of its tool exactly when the pointer is on it, so no
    tool has two, and no answer depends on the order in which SQLite visits the rows. *)
Theorem version_store_refines_pointers scan cs :
  (∀ l, scan l ≡ₚ l) → Forall inactive_upload cs →
  let s := foldl version_step [] cs in
  let m := foldl spec_versions no_versions cs in
  (∀ t n v, Q.get_tool_version s t n v = Ok (spec_get m (t, n, v))) ∧
  (∀ t n, Q.get_active_tool_version scan s t n = Ok (spec_active m t n)) ∧
  (∀ t n, ∃ l, Q.list_tool_versions s t n = Ok l ∧ StronglySorted (column_ge vr_version) l ∧
     ∀ r, r ∈ l ↔ ∃ v, spec_get m (t, n, v) = Some r) ∧
  (∀ t, ∃ l, Q.list_active_tool_versions scan s t = Ok l ∧
     StronglySorted (column_le vr_tool_name) l ∧ NoDup (vr_tool_name <$> l) ∧
     ∀ r, r ∈ l ↔ vr_tenant_id r = t ∧ spec_active m t (vr_tool_name r) = Some r) ∧
  ∀ t, t ∈ Q.list_tenant_ids s ↔ ∃ n v, is_Some (uploaded m !! (t, n, v)).
Proof.
  intros Hscan Hcs s m. assert (stores m s) as Hs by by apply stores_run.
  split; [intros; by apply get_reads|]. split; [intros; by apply active_reads|].
  split; [intros; by apply versions_read|]. split; [intros; by apply active_versions_read|].
  intros t. unfold Q.list_tenant_ids, distinct, sorted_strings.
  rewrite elem_of_sort_by, elem_of_remove_dups, list_elem_of_fmap. split.
  - intros (p & -> & Hp). apply (row_elem Hs) in Hp as (r & -> & Hr).
    exists (vr_tool_name r), (vr_version r). by eexists.
  - intros (n & v & r & Hr). exists (row_pair m r). pose proof (vs_keys _ _ Hs _ _ Hr) as Hk.
    split; [cbn; by injection Hk|]. apply (row_elem Hs). exists r. by rewrite Hk.
Qed.

Lemma version_store_refines_pointers_witness :
  let manifest := mkManifest "sum" "1" "" [] 1000 "low" "handler.py" "run" ["numpy"] [] in
  let up v := mkToolVersion "acme" "sum" v manifest None "ref" false "t0" in
  let cs := [Upload (up "1"); Upload (up "2"); Activate "acme" "sum" "1"; Activate "acme" "sum" "2"] in
  let s := foldl version_step [] cs in
  Q.get_active_tool_version (rev (A:=_)) s "acme" "sum" =
    Ok (spec_active (foldl spec_versions no_versions cs) "acme" "sum") ∧
  vr_version <$> spec_active (foldl spec_versions no_versions cs) "acme" "sum" = Some "2" ∧
  vr_version <$> spec_active (foldl spec_versions no_versions (cs ++ [Upload (up "2")])) "acme" "sum"
    = None.
Proof.
  intros manifest up cs s. split; [|by vm_compute].
  refine (proj1 (proj2 (version_store_refines_pointers (rev (A:=_)) cs _ _)) "acme" "sum").
  - intros l. symmetry. apply Permutation_rev.
  - by repeat constructor.
Defined.
