(* ===== verification/PostgresStores.v ===== *)
(** * The Postgres-style stores

    Models src/persistence/adapters/postgres.py: the in-memory driver and the session and checkpoint stores
    over it, and shows that they answer as the SQLite stores do (SqliteStores.v).  The clones of records that
    the driver makes are the records themselves, as values are immutable here. *)

From S2P Require Import Prelude PyValue Identity Checkpoints SqliteStores SqliteStoresFacts.

Module PostgresDriver.

Notation key := (string * string * string)%type (only parsing).

(** Sessions by tenant and session, checkpoints by tenant, job and node *)
Record t := mkDriver {
  sessions : list ((string * string) * SessionRecord);
  checkpoints : list (key * CheckpointRecord);
}.

Definition empty : t := mkDriver [] [].

Definition save_session (d : t) (r : SessionRecord) : t :=
  mkDriver (od_set (sr_tenant_id r, sc_session_id (sr_session r)) r (sessions d)) (checkpoints d).

Definition get_session (d : t) (session_id tenant_id : string) : res (option SessionRecord) :=
  match od_get (tenant_id, session_id) (sessions d) with
  | None =>
      if existsb (λ p, p.1.2 =?s session_id) (sessions d) then Raise (isolation_error "session") else Ok None
  | Some r =>
      guard! sr_tenant_id r =?s tenant_id else isolation_error "session" in
      Ok (Some r)
  end.

Definition count_active_sessions_by_provider (d : t) (provider_id : string) : Z :=
  count_if (InMemorySessionStore.active_on provider_id) (od_values (sessions d)).

Definition save_checkpoint (d : t) (c : CheckpointRecord) : t :=
  mkDriver (sessions d) (od_set (cp_tenant_id c, cp_job_id c, cp_node_id c) c (checkpoints d)).

Definition list_checkpoints (d : t) (job_id tenant_id : string) : list CheckpointRecord :=
  sort_by (column_le cp_node_id) (od_values (filter (λ p, p.1.1 = (tenant_id, job_id)) (checkpoints d))).

Definition get_checkpoint (d : t) (job_id node_id tenant_id : string) : res (option CheckpointRecord) :=
  match od_get (tenant_id, job_id, node_id) (checkpoints d) with
  | None =>
      if existsb (λ p, (p.1.1.2 =?s job_id) && (p.1.2 =?s node_id)) (checkpoints d)
      then Raise (isolation_error "checkpoint") else Ok None
  | Some c =>
      guard! cp_tenant_id c =?s tenant_id else isolation_error "checkpoint" in
      Ok (Some c)
  end.
End PostgresDriver.

(** ** Parity with the SQLite stores *)
Module PostgresParity.
Module P := PostgresDriver.
Module S := SQLiteSessionStore.
Module C := SQLiteCheckpointStore.

Inductive command :=
| SaveSession (r : SessionRecord)
| GetSession (session_id tenant_id : string)
| CountSessions (provider_id : string)
| SaveCheckpoint (c : CheckpointRecord)
| ListCheckpoints (job_id tenant_id : string)
| GetCheckpoint (job_id node_id tenant_id : string).

Inductive answer :=
| Saved
| Session (r : res (option SessionRecord))
| Counted (n : Z)
| Listed (r : res (list CheckpointRecord))
| Checkpoint (r : res (option CheckpointRecord))
| Refused (e : exn).

Definition postgres_step (d : P.t) (c : command) : answer * P.t :=
  match c with
  | SaveSession r => (Saved, P.save_session d r)
  | GetSession sid tenant => (Session (P.get_session d sid tenant), d)
  | CountSessions p => (Counted (P.count_active_sessions_by_provider d p), d)
  | SaveCheckpoint c => (Saved, P.save_checkpoint d c)
  | ListCheckpoints job tenant => (Listed (Ok (P.list_checkpoints d job tenant)), d)
  | GetCheckpoint job node tenant => (Checkpoint (P.get_checkpoint d job node tenant), d)
  end.

Section scanned.
Variable scan_sessions : list ((string * string) * S.row) → list ((string * string) * S.row).
Variable scan_checkpoints : list (string * string * string * C.row) → list (string * string * string * C.row).

Definition sqlite_step (st : S.t * C.t) (c : command) : answer * (S.t * C.t) :=
  let '(s, k) := st in
  match c with
  | SaveSession r => match S.save_session s r with Ok s => (Saved, (s, k)) | Raise e => (Refused e, st) end
  | GetSession sid tenant => (Session (S.get_session scan_sessions s sid tenant), st)
  | CountSessions p =>
      match S.count_active_sessions_by_provider s p with Ok n => (Counted n, st) | Raise e => (Refused e, st) end
  | SaveCheckpoint c => match C.save_checkpoint k c with Ok k => (Saved, (s, k)) | Raise e => (Refused e, st) end
  | ListCheckpoints job tenant => (Listed (C.list_checkpoints k job tenant), st)
  | GetCheckpoint job node tenant => (Checkpoint (C.get_checkpoint scan_checkpoints k job node tenant), st)
  end.

Section runs.
Context {T : Type}.
Variable step : T → command → answer * T.
Fixpoint run (s : T) (cs : list command) : list answer :=
  match cs with
  | [] => []
  | c :: cs => let '(a, s) := step s c in a :: run s cs
  end.
End runs.

(** An answer without the identity of its session, which the SQLite store does not keep *)
Definition told (a : answer) : answer :=
  match a with
  | Session (Ok (Some r)) => Session (Ok (Some (Sessions.without_identity r)))
  | _ => a
  end.

Record sim (d : P.t) (st : S.t * C.t) : Prop := {
  ps_sessions : Sessions.sim (P.sessions d) st.1;
  ps_wf : od_wf (P.checkpoints d);
  ps_keys : ∀ k c, (k, c) ∈ P.checkpoints d → k = (cp_tenant_id c, cp_job_id c, cp_node_id c);
  ps_path : C.db_path st.2 ≠ ":memory:";
  ps_rows : C.checkpoints st.2 = od_map (λ _, CheckpointFacts.row_of) (P.checkpoints d);
}.

Hypothesis scan_sessions_perm : ∀ l, scan_sessions l ≡ₚ l.
Hypothesis scan_checkpoints_perm : ∀ l, scan_checkpoints l ≡ₚ l.

Lemma session_told d st sid tenant :
  sim d st →
  S.get_session scan_sessions st.1 sid tenant =
  match P.get_session d sid tenant with
  | Ok (Some r) => Ok (Some (Sessions.without_identity r))
  | x => x
  end.
Proof.
  intros Hs. rewrite (Sessions.get_agrees _ scan_sessions_perm (P.sessions d) st.1) by apply Hs.
  unfold P.get_session, InMemorySessionStore.get_session, Sessions.durable.
  destruct (od_get (tenant, sid) (P.sessions d)) as [r|] eqn:E; [|by destruct (existsb _ _)].
  apply od_get_elem, (Sessions.si_keys _ _ (ps_sessions _ _ Hs)) in E. injection E as -> ->.
  by rewrite bool_decide_true.
Qed.

Lemma pair_rows (l : list (string * string * string * CheckpointRecord)) :
  (∀ k c, (k, c) ∈ l → k = (cp_tenant_id c, cp_job_id c, cp_node_id c)) →
  od_map (λ _, CheckpointFacts.row_of) l = CheckpointFacts.row_pair <$> od_values l.
Proof.
  intros Hk. unfold od_map, od_values. rewrite <- list_fmap_compose. apply list_fmap_ext.
  intros i [k c] Hin. apply list_elem_of_lookup_2, Hk in Hin. cbn. by rewrite Hin.
Qed.

Lemma listing_told d st job tenant :
  sim d st → C.list_checkpoints st.2 job tenant = Ok (P.list_checkpoints d job tenant).
Proof.
  intros [_ Hwf Hk Hp Hr]. unfold C.list_checkpoints. rewrite Sessions.connected_file by done. cbn [res_bind].
  set (mine := filter (λ p, p.1.1 = (tenant, job)) (P.checkpoints d)).
  assert (∀ k c, (k, c) ∈ mine → (k, c) ∈ P.checkpoints d ∧ k.1 = (tenant, job)) as Hmine
    by (intros k c [? ?]%list_elem_of_filter; done).
  assert (filter (λ p, p.1.1 = (tenant, job)) (C.checkpoints st.2) = CheckpointFacts.row_pair <$> od_values mine) as ->.
  { rewrite <- pair_rows by (intros k c Hin; by apply Hk, Hmine). rewrite Hr. unfold od_map, mine.
    clear. induction (P.checkpoints d) as [|[k c] l IH]; [done|]. rewrite fmap_cons, !filter_cons. cbn.
    case_decide; [|exact IH]. rewrite fmap_cons. by f_equal. }
  assert (NoDup (cp_node_id <$> od_values mine)) as Hnd.
  { apply (NoDup_fmap_1 (λ n, (tenant, job, n))). rewrite <- list_fmap_compose. unfold od_values.
    rewrite <- list_fmap_compose. assert (NoDup mine.*1) as Hm.
    { unfold mine. clear -Hwf. unfold od_wf, od_keys in Hwf. revert Hwf.
      induction (P.checkpoints d) as [|[k c] l IH]; [done|]. intros [Hk Hl]%NoDup_cons.
      rewrite filter_cons. case_decide; [|by apply IH]. rewrite fmap_cons. apply NoDup_cons. split; [|by apply IH].
      intros Hin. apply Hk. apply list_elem_of_fmap in Hin as (q & -> & [_ Hq]%list_elem_of_filter).
      by apply list_elem_of_fmap_2. }
    assert (mine.*1 = (λ n, (tenant, job, n)) ∘ cp_node_id ∘ snd <$> mine) as <-; [|done].
    apply list_fmap_ext. intros i [k c] Hin. apply list_elem_of_lookup_2, Hmine in Hin as [Hin Hj].
    pose proof (Hk _ _ Hin) as E. cbn in *. subst k. cbn in Hj. by injection Hj as -> ->. }
  rewrite CheckpointFacts.sort_row_pairs, CheckpointFacts.map_rows_ok by done. cbn [res_bind].
  rewrite CheckpointFacts.all_of_tenant_ok; [done|]. apply Forall_forall. intros c Hc.
  unfold CheckpointFacts.by_node in Hc. rewrite elem_of_sort_by in Hc. unfold od_values in Hc.
  apply list_elem_of_fmap in Hc as ([k c'] & -> & Hin). apply Hmine in Hin as [Hin Hj].
  rewrite (Hk _ _ Hin) in Hj. cbn in *. by injection Hj.
Qed.

Lemma checkpoint_told d st job node tenant :
  sim d st → C.get_checkpoint scan_checkpoints st.2 job node tenant = P.get_checkpoint d job node tenant.
Proof.
  intros [_ Hwf Hk Hp Hr]. unfold C.get_checkpoint, P.get_checkpoint. rewrite Sessions.connected_file by done.
  cbn [res_bind]. rewrite Hr, od_get_map.
  destruct (od_get (tenant, job, node) (P.checkpoints d)) as [c|] eqn:E; cbn [fmap option_fmap option_map].
  - apply od_get_elem, Hk in E. injection E as -> -> ->.
    change ((cp_tenant_id c, cp_job_id c, cp_node_id c), CheckpointFacts.row_of c) with (CheckpointFacts.row_pair c).
    rewrite CheckpointFacts.row_round_trip. cbn [res_bind]. unfold assert_tenant_match. by rewrite !bool_decide_true.
  - destruct (head _) as [p|] eqn:Eh.
    + apply head_Some_elem_of in Eh. destruct p as [[[t' j'] n'] w].
      apply list_elem_of_filter in Eh as [[Hj Hn] Hin]. cbn in Hj, Hn. subst j' n'. rewrite scan_checkpoints_perm in Hin.
      unfold od_map in Hin. apply list_elem_of_fmap in Hin as ([k c] & [= <- ->] & Hin).
      assert (existsb (λ p, (p.1.1.2 =?s job) && (p.1.2 =?s node)) (P.checkpoints d) = true) as ->.
      { apply existsb_exists. exists ((t', job, node), c). split; [by apply list_elem_of_In|].
        cbn. by rewrite !bool_decide_true. }
      unfold assert_tenant_match. cbn [fst]. rewrite bool_decide_false; [done|].
      intros ->. by rewrite (od_elem_get _ _ _ Hwf Hin) in E.
    + assert (existsb (λ p, (p.1.1.2 =?s job) && (p.1.2 =?s node)) (P.checkpoints d) = false) as ->; [|done].
      apply not_true_iff_false. intros ((k & c) & Hin & [Hj Hn]%andb_true_iff)%existsb_exists.
      apply list_elem_of_In in Hin. apply bool_decide_eq_true in Hj, Hn. cbn in Hj, Hn. apply head_None in Eh.
      assert ((k, CheckpointFacts.row_of c) ∈ filter (λ p, p.1.1.2 = job ∧ p.1.2 = node)
        (scan_checkpoints (od_map (λ _, CheckpointFacts.row_of) (P.checkpoints d)))) as Hf.
      { apply list_elem_of_filter. split; [done|]. rewrite scan_checkpoints_perm. unfold od_map.
        apply list_elem_of_fmap. by exists (k, c). }
      rewrite Eh in Hf. by apply elem_of_nil in Hf.
Qed.

Lemma save_checkpoint_sim d s k c k' :
  sim d (s, k) → C.save_checkpoint k c = Ok k' → sim (P.save_checkpoint d c) (s, k').
Proof.
  intros [Hs Hwf Hk Hp Hr]. unfold C.save_checkpoint. rewrite Sessions.connected_file by done. intros [= <-].
  split; cbn [P.sessions P.checkpoints P.save_checkpoint snd C.checkpoints]; [done|by apply od_wf_set| |done|].
  - intros q c' Hin. apply od_elem_get in Hin; [|by apply od_wf_set].
    destruct (decide (q = (cp_tenant_id c, cp_job_id c, cp_node_id c))) as [->|Hne].
    + rewrite od_get_set in Hin. by injection Hin as <-.
    + rewrite od_get_set_ne in Hin by done. by apply Hk, od_get_elem.
  - cbn in Hr. rewrite Hr. unfold upsert. by rewrite od_map_set.
Qed.

Lemma parity_step d st c :
  sim d st →
  (sqlite_step st c).1 = told (postgres_step d c).1 ∧ sim (postgres_step d c).2 (sqlite_step st c).2.
Proof.
  intros Hs. destruct st as [s k]. destruct c as [r|sid tenant|p|c|job tenant|job node tenant];
    cbn [sqlite_step postgres_step].
  - pose proof (Sessions.session_sim_step _ scan_sessions_perm _ _ (Sessions.Save r) (ps_sessions _ _ Hs)) as [_ Hn].
    unfold Sessions.sql_step, Sessions.refuse in Hn. cbn [fst] in Hn. unfold S.save_session in *.
    rewrite Sessions.connected_file in * by apply Hs. cbn in Hn |- *. split; [done|]. by destruct Hs; split.
  - split; [|done]. pose proof (session_told d (s, k) sid tenant Hs) as Hg. cbn [fst] in *. rewrite Hg.
    by destruct (P.get_session d sid tenant) as [[r|]|e].
  - unfold S.count_active_sessions_by_provider. pose proof (ps_sessions _ _ Hs) as [_ _ Hp Hr].
    rewrite Sessions.connected_file by done. cbn [fst] in Hr. rewrite Hr, Sessions.count_rows. done.
  - destruct (C.save_checkpoint k c) as [k'|e] eqn:E.
    + split; [done|]. by eapply save_checkpoint_sim.
    + unfold C.save_checkpoint in E. rewrite Sessions.connected_file in E by apply Hs. done.
  - split; [|done]. pose proof (listing_told d (s, k) job tenant Hs) as Hl. cbn [snd] in Hl. by rewrite Hl.
  - split; [|done]. pose proof (checkpoint_told d (s, k) job node tenant Hs) as Hg. cbn [snd] in Hg. cbn. by rewrite Hg.
Qed.

Lemma parity_runs d st cs : sim d st → run sqlite_step st cs = told <$> run postgres_step d cs.
Proof.
  revert d st. induction cs as [|c cs IH]; intros d st Hs; [done|].
  destruct (parity_step d st c Hs) as [Ha Hn]. cbn [run].
  destruct (sqlite_step st c) as [a st'], (postgres_step d c) as [a' d']. cbn in *. subst. f_equal. by apply IH.
Qed.

(** The two kinds of adapters are interchangeable: to every sequence of commands about sessions and
    checkpoints of any tenants the SQLite stores, on a database file, answer what the Postgres-style stores
    answer, isolation errors included, except that they do not keep the identity of a session. *)
Theorem postgres_agrees_with_sqlite path cs :
  path ≠ ":memory:" →
  run sqlite_step (S.empty path, C.empty path) cs = told <$> run postgres_step P.empty cs.
Proof.
  intros Hp. apply parity_runs. split; [|apply NoDup_nil_2|by intros k c ?%elem_of_nil|done|done].
  split; [apply NoDup_nil_2| |done|done]. by intros k r ?%elem_of_nil.
Qed.
End scanned.

Lemma postgres_agrees_with_sqlite_witness :
  let r := mkSessionRecord (mkSessionContext "s1" "r" "j" "t" "a" "openai" "c" None []) "acme" "active" [] in
  let c n := mkCheckpoint "j" n CheckpointCompleted "acme" 1 "" [] in
  let cs := [SaveSession r; GetSession "s1" "globex"; SaveCheckpoint (c "b"); SaveCheckpoint (c "a");
             ListCheckpoints "j" "acme"; GetCheckpoint "j" "a" "globex"] in
  run (sqlite_step (rev (A:=_)) (rev (A:=_))) (S.empty "x.db", C.empty "x.db") cs
    = told <$> run postgres_step P.empty cs ∧
  run postgres_step P.empty cs =
    [Saved; Session (Raise (isolation_error "session")); Saved; Saved; Listed (Ok [c "a"; c "b"]);
     Checkpoint (Raise (isolation_error "checkpoint"))].
Proof.
  split; [|vm_compute; reflexivity].
  apply postgres_agrees_with_sqlite; [intros l; symmetry; apply Permutation_rev..|done].
Defined.
End PostgresParity.
