(* ===== verification/TaskGraph.v ===== *)
(** * Task graphs

    Models src/core/task_graph.py: nodes, the validation done by the
    constructor (duplicate ids, unknown dependencies, depth-first cycle check)
    and [ready_nodes].  A node's handler is code the graph is given; it is run by
    the scheduler (Scheduler.v). *)

From S2P Require Import Prelude PyValue.

Inductive TaskStatus := Pending | Running | Completed | Failed | Cancelled.

#[export] Instance TaskStatus_eq_dec : EqDecision TaskStatus.
Proof. solve_decision. Defined.

Record TaskNode := mkTaskNode {
  node_id : string;
  depends_on : list string;
  retry_limit : Z;
  timeout_ms : Z;
  node_metadata : pydict;
}.

Record TaskOutcome := mkTaskOutcome {
  oc_node_id : string;
  oc_status : TaskStatus;
  oc_output : pydict;
  oc_reason_code : string;
  oc_error_message : string;
  oc_attempts : Z;
}.

(** [self._nodes]: the nodes under their ids, in insertion order. *)
Record TaskGraph := mkTaskGraph { nodes : list (string * TaskNode) }.

Definition node_ids (g : TaskGraph) : list string := od_keys (nodes g).

Definition get_node (g : TaskGraph) (id : string) : res TaskNode :=
  match od_get id (nodes g) with
  | Some n => Ok n
  | None => Raise (KeyError ("Task node '" +:+ id +:+ "' is not defined"))
  end.

(** The nodes not yet started whose dependencies are all completed. *)
Definition is_ready (completed running failed : gset string) (n : TaskNode) : bool :=
  negb (bool_decide (node_id n ∈ completed) || bool_decide (node_id n ∈ running)
        || bool_decide (node_id n ∈ failed))
  && forallb (λ d, bool_decide (d ∈ completed)) (depends_on n).

Definition ready_nodes (g : TaskGraph) (completed running failed : gset string)
    : list TaskNode :=
  filter (λ n, is_ready completed running failed n = true) (od_values (nodes g)).

(** ** Construction *)

(** [{node.node_id: node for node in nodes}] *)
Definition nodes_dict (l : list TaskNode) : list (string * TaskNode) :=
  foldl (λ d n, od_set (node_id n) n d) [] l.

Definition unknown_deps (g : list (string * TaskNode)) (n : TaskNode) : list string :=
  filter (λ d, d ∉ od_keys g) (depends_on n).

Fixpoint validate_dependencies (g : list (string * TaskNode)) (l : list TaskNode) : res unit :=
  match l with
  | [] => Ok tt
  | n :: l =>
      match unknown_deps g n with
      | [] => validate_dependencies g l
      | unknown =>
          Raise (ValueError ("Task node '" +:+ node_id n +:+ "' depends on unknown nodes: ["
                   +:+ join ", " (map repr_str unknown) +:+ "]"))
      end
  end.

(** The depth-first search: [visited] and [active] are the sets of the closure
    [dfs]; [None] is running out of fuel. *)
Definition dfs_state : Type := gset string * gset string.

Fixpoint dfs (fuel : nat) (g : list (string * TaskNode)) (id : string)
    (st : dfs_state) : option (res dfs_state) :=
  match fuel with
  | O => None
  | S fuel' =>
      let '(visited, active) := st in
      if decide (id ∈ active) then
        Some (Raise (ValueError ("Cycle detected at task node '" +:+ id +:+ "'")))
      else if decide (id ∈ visited) then Some (Ok st)
      else
        let deps := match od_get id g with Some n => depends_on n | None => [] end in
        let fix visit (deps : list string) (st : dfs_state) : option (res dfs_state) :=
          match deps with
          | [] => Some (Ok st)
          | d :: deps =>
              match dfs fuel' g d st with
              | Some (Ok st') => visit deps st'
              | r => r
              end
          end in
        match visit deps (visited, {[id]} ∪ active) with
        | Some (Ok (visited', active')) => Some (Ok ({[id]} ∪ visited', active' ∖ {[id]}))
        | r => r
        end
  end.

Fixpoint dfs_all (fuel : nat) (g : list (string * TaskNode)) (ids : list string)
    (st : dfs_state) : option (res dfs_state) :=
  match ids with
  | [] => Some (Ok st)
  | id :: ids =>
      match dfs fuel g id st with
      | Some (Ok st') => dfs_all fuel g ids st'
      | r => r
      end
  end.

(** One level of recursion per node suffices, and one to find a cycle. *)
Definition dfs_fuel (g : list (string * TaskNode)) : nat := S (length g).

Definition validate_acyclic (g : list (string * TaskNode)) : res unit :=
  match dfs_all (dfs_fuel g) g (od_keys g) (∅, ∅) with
  | Some (Ok _) => Ok tt
  | Some (Raise e) => Raise e
  | None => Raise (OtherException "maximum recursion depth exceeded")
  end.

(** [TaskGraph.__init__] *)
Definition make_graph (l : list TaskNode) : res TaskGraph :=
  let g := nodes_dict l in
  guard! bool_decide (length g = length l)
    else ValueError "TaskGraph contains duplicate node_id values" in
  let! _ := validate_dependencies g (od_values g) in
  let! _ := validate_acyclic g in
  Ok (mkTaskGraph g).

(** ** The dependency relation *)

(** [edge g x y]: node [x] depends on node [y]. *)
Definition edge (g : list (string * TaskNode)) (x y : string) : Prop :=
  ∃ n, od_get x g = Some n ∧ y ∈ depends_on n.

Definition deps_known (g : list (string * TaskNode)) : Prop :=
  ∀ x y, edge g x y → y ∈ od_keys g.

Definition acyclic (g : list (string * TaskNode)) : Prop :=
  ∀ x, ¬ tc (edge g) x x.

(** Every dependency chain from [x] ends. *)
Definition grounded (g : list (string * TaskNode)) (x : string) : Prop :=
  Acc (λ y x, edge g x y) x.

Lemma grounded_no_cycle g x : grounded g x → ¬ tc (edge g) x x.
Proof.
  intros Hacc. induction Hacc as [x _ IH]. intros Htc.
  inversion Htc as [? ? He|? y ? He Hrest]; subst; [by apply (IH x He)|].
  apply (IH y He). eapply tc_r; eauto.
Qed.

(** The inner loop of [dfs], as a function of its own. *)
Fixpoint visit_deps (fuel : nat) (g : list (string * TaskNode)) (deps : list string)
    (st : dfs_state) : option (res dfs_state) :=
  match deps with
  | [] => Some (Ok st)
  | d :: deps =>
      match dfs fuel g d st with
      | Some (Ok st') => visit_deps fuel g deps st'
      | r => r
      end
  end.

Definition deps_of (g : list (string * TaskNode)) (id : string) : list string :=
  match od_get id g with Some n => depends_on n | None => [] end.

Lemma dfs_S fuel g id visited active :
  dfs (S fuel) g id (visited, active) =
  if decide (id ∈ active) then
    Some (Raise (ValueError ("Cycle detected at task node '" +:+ id +:+ "'")))
  else if decide (id ∈ visited) then Some (Ok (visited, active))
  else match visit_deps fuel g (deps_of g id) (visited, {[id]} ∪ active) with
       | Some (Ok (visited', active')) => Some (Ok ({[id]} ∪ visited', active' ∖ {[id]}))
       | r => r
       end.
Proof.
  cbn. case_decide; [done|]. case_decide; [done|]. fold (deps_of g id).
  generalize (visited, {[id]} ∪ active). induction (deps_of g id) as [|d deps IH]; intros st; [done|].
  cbn. destruct (dfs fuel g d st) as [[st'|e]|]; [apply IH|done|done].
Qed.

Lemma dfs_all_visit fuel g ids st : dfs_all fuel g ids st = visit_deps fuel g ids st.
Proof.
  revert st. induction ids as [|id ids IH]; intros st; [done|]. cbn.
  destruct (dfs fuel g id st) as [[st'|e]|]; [apply IH|done|done].
Qed.

(** ** The search is a decision procedure for acyclicity *)

Section dfs_correct.
Context (g : list (string * TaskNode)) (Hknown : deps_known g).

Definition grounded_all (v : gset string) : Prop := ∀ x, x ∈ v → grounded g x.

(** What a call leaves behind: the same active path, more visited nodes, all
    of them grounded; or a cycle. *)
Definition dfs_post (targets : list string) (visited active : gset string)
    (r : option (res dfs_state)) : Prop :=
  match r with
  | None => False
  | Some (Raise _) => ∃ x, tc (edge g) x x
  | Some (Ok (v, a)) =>
      a = active ∧ visited ⊆ v ∧ grounded_all v ∧ ∀ d, d ∈ targets → d ∈ v
  end.

Definition dfs_pre (fuel : nat) (id : string) (visited active : gset string) : Prop :=
  grounded_all visited ∧
  active ⊆ list_to_set (od_keys g) ∧
  id ∈ od_keys g ∧
  (length g < size active + fuel)%nat ∧
  ∀ a, a ∈ active → tc (edge g) a id.

Lemma active_size (active : gset string) :
  active ⊆ list_to_set (od_keys g) → (size active ≤ length g)%nat.
Proof.
  intros H%subseteq_size. etrans; [exact H|].
  replace (length g) with (length (od_keys g)) by apply length_fmap.
  generalize (od_keys g). clear. intros l. induction l as [|x l IH]; cbn.
  - by rewrite size_empty.
  - rewrite size_union_alt, size_singleton.
    assert (size (list_to_set l ∖ {[x]} : gset string) ≤ size (list_to_set l : gset string))%nat
      by (apply subseteq_size; set_solver). lia.
Qed.

Lemma visit_deps_post fuel active deps visited :
  (∀ id visited, dfs_pre fuel id visited active →
     dfs_post [id] visited active (dfs fuel g id (visited, active))) →
  (∀ d visited, d ∈ deps → grounded_all visited → dfs_pre fuel d visited active) →
  grounded_all visited →
  dfs_post deps visited active (visit_deps fuel g deps (visited, active)).
Proof.
  intros Hdfs. revert visited. induction deps as [|d deps IH]; intros visited Hpre Hg; cbn.
  { split_and!; [done|reflexivity|done|]. by intros d ?%elem_of_nil. }
  specialize (Hdfs d visited (Hpre d visited (list_elem_of_here _ _) Hg)).
  destruct (dfs fuel g d (visited, active)) as [[[v a]|e]|]; [|done|done].
  destruct Hdfs as (-> & Hsub & Hgv & Hd). cbn.
  specialize (IH v). destruct (visit_deps fuel g deps (v, active)) as [[[v' a']|e]|].
  - destruct IH as (-> & Hsub' & Hgv' & Hdeps); [|done|].
    { intros d' w Hd'. apply Hpre. by apply list_elem_of_further. }
    split_and!; [done|by etrans|done|].
    intros d' [->|Hd']%elem_of_cons; [|by apply Hdeps].
    apply Hsub', Hd, list_elem_of_here.
  - apply IH; [|done]. intros d' w Hd'. apply Hpre. by apply list_elem_of_further.
  - apply IH; [|done]. intros d' w Hd'. apply Hpre. by apply list_elem_of_further.
Qed.

Lemma edge_deps_of x y : edge g x y ↔ y ∈ deps_of g x.
Proof.
  unfold edge, deps_of. destruct (od_get x g) as [n|].
  - split; [by intros (? & [= <-] & ?)|eauto].
  - split; [by intros (? & [=] & _)|by intros ?%elem_of_nil].
Qed.

Lemma dfs_correct fuel id visited active :
  dfs_pre fuel id visited active →
  dfs_post [id] visited active (dfs fuel g id (visited, active)).
Proof.
  revert id visited active. induction fuel as [|fuel IH]; intros id visited active Hpre.
  { destruct Hpre as (_ & Hsub & _ & Hlt & _). apply active_size in Hsub. lia. }
  destruct Hpre as (Hgr & Hsub & Hid & Hlt & Hpath). rewrite dfs_S.
  destruct (decide (id ∈ active)) as [Hin|Hni]; [exists id; by apply Hpath|].
  destruct (decide (id ∈ visited)) as [Hv|Hnv].
  { cbn. split_and!; [done|reflexivity|done|]. by intros d ->%list_elem_of_singleton. }
  assert (dfs_post (deps_of g id) visited ({[id]} ∪ active)
    (visit_deps fuel g (deps_of g id) (visited, {[id]} ∪ active))) as Hpost.
  { apply visit_deps_post; [intros; by apply IH| |done].
    intros d v Hd Hgv. apply edge_deps_of in Hd.
    split_and!; [done|set_solver|by eapply Hknown| |].
    - rewrite size_union by set_solver. rewrite size_singleton. lia.
    - intros a [->%elem_of_singleton|Ha]%elem_of_union; [by apply tc_once|].
      eapply tc_r; [by apply Hpath|done]. }
  destruct (visit_deps _ _ _ _) as [[[v a]|e]|]; [|done|done].
  destruct Hpost as (-> & Hsub' & Hgv & Hdeps). cbn. clear IH. split_and!.
  - set_solver.
  - set_solver.
  - intros x [->%elem_of_singleton|Hx]%elem_of_union; [|by apply Hgv].
    constructor. intros y Hy%edge_deps_of. by apply Hgv, Hdeps.
  - set_solver.
Qed.

Lemma dfs_all_post :
  dfs_post (od_keys g) ∅ ∅ (dfs_all (dfs_fuel g) g (od_keys g) (∅, ∅)).
Proof.
  rewrite dfs_all_visit. apply visit_deps_post.
  - intros id v Hpre. by apply dfs_correct.
  - intros d v Hd Hg. split_and!; [done|set_solver|done| |set_solver].
    rewrite size_empty. unfold dfs_fuel. lia.
  - by intros x ?%elem_of_empty.
Qed.

Lemma validate_acyclic_ok :
  validate_acyclic g = Ok tt ↔ acyclic g.
Proof.
  pose proof dfs_all_post as Hpost. unfold validate_acyclic, dfs_post in *.
  destruct (dfs_all _ _ _ _) as [[[v a]|e]|]; [| |done].
  - destruct Hpost as (_ & _ & Hgv & Hk). split; [|done]. intros _ x Htc.
    apply (grounded_no_cycle g x); [|done]. apply Hgv, Hk.
    inversion Htc as [? ? [n [Hn _]]|? ? ? [n [Hn _]] _]; subst;
      apply od_get_Some_key; eauto.
  - split; [done|]. intros Hac. destruct Hpost as [x Hx]. by destruct (Hac x).
Qed.

Lemma acyclic_grounded x : acyclic g → grounded g x.
Proof.
  intros Hac%validate_acyclic_ok. pose proof dfs_all_post as Hpost.
  unfold validate_acyclic, dfs_post in *.
  destruct (dfs_all _ _ _ _) as [[[v a]|e]|]; [|done|done].
  destruct Hpost as (_ & _ & Hgv & Hk).
  destruct (decide (x ∈ od_keys g)) as [Hx|Hx]; [by apply Hgv, Hk|].
  constructor. intros y (n & Hn & _). destruct Hx. apply od_get_Some_key. eauto.
Qed.
End dfs_correct.

(** ** The constructor *)

Lemma nodes_dict_keys l d :
  od_keys (foldl (λ d n, od_set (node_id n) n d) d l) ⊆ od_keys d ++ (node_id <$> l).
Proof.
  revert d. induction l as [|n l IH]; intros d x; cbn; [by rewrite app_nil_r|].
  intros Hx%IH. revert Hx. rewrite !elem_of_app, od_keys_set, elem_of_cons. naive_solver.
Qed.

Lemma od_set_new {V} k (v : V) (m : list (string * V)) :
  od_get k m = None → od_set k v m = m ++ [(k, v)].
Proof.
  induction m as [|[k' v'] m IH]; cbn; [done|]. case_decide; [done|].
  intros Hg. by rewrite IH.
Qed.

Lemma length_od_set {V} k (v : V) (m : list (string * V)) :
  (length (od_set k v m) ≤ S (length m))%nat.
Proof. induction m as [|[k' v'] m IH]; cbn; [lia|]. case_decide; cbn; lia. Qed.

Lemma length_od_set_present {V} k (v : V) (m : list (string * V)) :
  is_Some (od_get k m) → length (od_set k v m) = length m.
Proof.
  induction m as [|[k' v'] m IH]; cbn; [by intros [? [=]]|]. case_decide; cbn; [done|].
  intros Hs. by rewrite IH.
Qed.

Lemma nodes_dict_length l d :
  (length (foldl (λ d n, od_set (node_id n) n d) d l) ≤ length d + length l)%nat.
Proof.
  revert d. induction l as [|n l IH]; intros d; cbn; [lia|].
  specialize (IH (od_set (node_id n) n d)). pose proof (length_od_set (node_id n) n d). lia.
Qed.

Definition node_pairs (l : list TaskNode) : list (string * TaskNode) :=
  (λ n, (node_id n, n)) <$> l.

Lemma nodes_dict_spec l d :
  length (foldl (λ d n, od_set (node_id n) n d) d l) = (length d + length l)%nat →
  foldl (λ d n, od_set (node_id n) n d) d l = d ++ node_pairs l ∧
  NoDup (node_id <$> l) ∧ (∀ n, n ∈ l → od_get (node_id n) d = None).
Proof.
  revert d. induction l as [|n l IH]; intros d; cbn.
  { rewrite app_nil_r. intros _. repeat split; [constructor|by intros ? ?%elem_of_nil]. }
  intros Hlen. destruct (od_get (node_id n) d) as [n'|] eqn:E.
  { pose proof (nodes_dict_length l (od_set (node_id n) n d)).
    rewrite length_od_set_present in H by eauto. lia. }
  rewrite od_set_new in * by done.
  destruct (IH (d ++ [(node_id n, n)])) as (-> & Hnd & Hnone).
  { rewrite Hlen, length_app. cbn. lia. }
  assert (∀ m, m ∈ l → node_id m ≠ node_id n ∧ od_get (node_id m) d = None) as Hm.
  { intros m Hm%Hnone. revert Hm. rewrite !od_get_None. unfold od_keys.
    rewrite fmap_app. cbn. rewrite elem_of_app, elem_of_cons. naive_solver. }
  split; [by rewrite <- app_assoc|]. split.
  - apply NoDup_cons. split; [|done]. intros (m & He & Hin)%list_elem_of_fmap.
    destruct (Hm m Hin). congruence.
  - intros m [->|Hin]%elem_of_cons; [done|by apply Hm].
Qed.

Lemma nodes_dict_NoDup l d :
  NoDup (node_id <$> l) → (∀ n, n ∈ l → od_get (node_id n) d = None) →
  foldl (λ d n, od_set (node_id n) n d) d l = d ++ node_pairs l.
Proof.
  revert d. induction l as [|n l IH]; intros d; cbn; [by rewrite app_nil_r|].
  intros [Hni Hnd]%NoDup_cons Hnone.
  rewrite od_set_new by (apply Hnone, list_elem_of_here).
  rewrite IH; [by rewrite <- app_assoc|done|].
  intros m Hm. rewrite od_get_None. unfold od_keys. rewrite fmap_app. cbn.
  rewrite elem_of_app, list_elem_of_singleton. intros [Hin|Heq].
  - specialize (Hnone m (list_elem_of_further _ _ _ Hm)). by rewrite od_get_None in Hnone.
  - apply Hni. rewrite <- Heq. apply list_elem_of_fmap. eauto.
Qed.

Lemma node_pairs_keys l : od_keys (node_pairs l) = node_id <$> l.
Proof. unfold od_keys, node_pairs. rewrite <- list_fmap_compose. by apply list_fmap_ext. Qed.

Lemma node_pairs_values l : od_values (node_pairs l) = l.
Proof. unfold od_values, node_pairs. rewrite <- list_fmap_compose. apply list_fmap_id. Qed.

Lemma get_node_pairs l n :
  NoDup (node_id <$> l) → n ∈ l → od_get (node_id n) (node_pairs l) = Some n.
Proof.
  intros Hnd Hin. apply od_elem_get.
  - unfold od_wf. by rewrite node_pairs_keys.
  - apply list_elem_of_fmap. eauto.
Qed.

Lemma get_node_pairs_inv l x n :
  od_get x (node_pairs l) = Some n → n ∈ l ∧ node_id n = x.
Proof.
  intros Hg%od_get_elem. apply list_elem_of_fmap in Hg as (m & [= -> ->] & Hin). done.
Qed.

Lemma validate_dependencies_ok g l :
  validate_dependencies g l = Ok tt ↔
  ∀ n d, n ∈ l → d ∈ depends_on n → d ∈ od_keys g.
Proof.
  induction l as [|n l IH]; cbn; [split; [by intros _ n d ?%elem_of_nil|done]|].
  destruct (unknown_deps g n) as [|u us] eqn:E.
  - rewrite IH. split; intros H m d; [|by intros; eapply H; [apply list_elem_of_further|]].
    intros [->|Hm]%elem_of_cons Hd; [|by eapply H].
    destruct (decide (d ∈ od_keys g)) as [|Hn]; [done|].
    assert (d ∈ unknown_deps g n) as Hu by by apply list_elem_of_filter.
    rewrite E in Hu. by apply elem_of_nil in Hu.
  - split; [done|]. intros H.
    assert (u ∈ unknown_deps g n) as Hu by (rewrite E; apply list_elem_of_here).
    apply list_elem_of_filter in Hu as [Hn Hd]. destruct Hn.
    by apply (H n u); [apply list_elem_of_here|].
Qed.

Lemma validate_dependencies_error g l e :
  validate_dependencies g l = Raise e → ∃ m, e = ValueError m.
Proof.
  induction l as [|n l IH]; cbn; [done|].
  destruct (unknown_deps g n); [done|]. intros [= <-]. eauto.
Qed.

Lemma visit_deps_error_from fuel g deps st e :
  (∀ id st, dfs fuel g id st = Some (Raise e) → ∃ m, e = ValueError m) →
  visit_deps fuel g deps st = Some (Raise e) → ∃ m, e = ValueError m.
Proof.
  intros Hdfs. revert st. induction deps as [|d deps IHd]; intros st; cbn; [done|].
  destruct (dfs fuel g d st) as [[st'|e']|] eqn:E; [apply IHd| |done].
  intros [= ->]. eauto.
Qed.

Lemma dfs_error fuel g id st e : dfs fuel g id st = Some (Raise e) → ∃ m, e = ValueError m.
Proof.
  revert id st. induction fuel as [|fuel IH]; intros id [v a]; [done|].
  rewrite dfs_S. case_decide; [intros [= <-]; eauto|]. case_decide; [done|].
  destruct (visit_deps _ _ _ _) as [[[v' a']|e']|] eqn:E; [done| |done].
  intros [= ->]. by eapply visit_deps_error_from.
Qed.

Lemma visit_deps_error fuel g deps st e :
  visit_deps fuel g deps st = Some (Raise e) → ∃ m, e = ValueError m.
Proof. apply visit_deps_error_from. intros. by eapply dfs_error. Qed.

(** Dependencies as the list of nodes given to the constructor states them. *)
Definition depends (l : list TaskNode) (x y : string) : Prop :=
  ∃ n, n ∈ l ∧ node_id n = x ∧ y ∈ depends_on n.

Lemma edge_depends l x y :
  NoDup (node_id <$> l) → edge (node_pairs l) x y ↔ depends l x y.
Proof.
  intros Hnd. unfold edge, depends. split.
  - intros (n & Hn & Hy). apply get_node_pairs_inv in Hn as [? <-]. eauto.
  - intros (n & Hn & <- & Hy). exists n. split; [by apply get_node_pairs|done].
Qed.

(** A graph the constructor accepted. *)
Definition graph_wf (g : TaskGraph) : Prop :=
  od_wf (nodes g) ∧
  (∀ k n, od_get k (nodes g) = Some n → node_id n = k) ∧
  deps_known (nodes g) ∧ acyclic (nodes g).

Lemma tc_iff {A} (R S : relation A) x y : (∀ a b, R a b ↔ S a b) → tc R x y ↔ tc S x y.
Proof.
  intros HRS. split; (induction 1; [apply tc_once|eapply tc_l; [|done]]; by apply HRS).
Qed.

Lemma make_graph_spec l :
  (∀ g, make_graph l = Ok g ↔
     nodes g = node_pairs l ∧ NoDup (node_id <$> l) ∧
     (∀ x y, depends l x y → y ∈ node_id <$> l) ∧ (∀ x, ¬ tc (depends l) x x)) ∧
  (∀ e, make_graph l = Raise e → ∃ m, e = ValueError m).
Proof.
  unfold make_graph, nodes_dict. destruct (decide (NoDup (node_id <$> l))) as [Hnd|Hnd]; last first.
  { case_bool_decide as Hlen.
    - destruct (nodes_dict_spec l [] Hlen) as (_ & ? & _). done.
    - split; [|intros e [= <-]; eauto]. intros g. split; [done|naive_solver]. }
  rewrite nodes_dict_NoDup by (done || by intros; rewrite od_get_None; apply not_elem_of_nil).
  cbn [app]. rewrite bool_decide_true by (by unfold node_pairs; rewrite length_fmap).
  rewrite node_pairs_values.
  destruct (validate_dependencies (node_pairs l) l) as [[]|e] eqn:Ed; cbn.
  - pose proof Ed as Hdeps. rewrite validate_dependencies_ok in Hdeps.
    assert (deps_known (node_pairs l)) as Hknown.
    { intros x y (n & Hn & Hy). apply get_node_pairs_inv in Hn as [Hn _]. by eapply Hdeps. }
    pose proof (validate_acyclic_ok _ Hknown) as Hac.
    assert (acyclic (node_pairs l) ↔ ∀ x, ¬ tc (depends l) x x) as Hiff.
    { unfold acyclic. pose proof (λ x, tc_iff _ _ x x (λ a b, edge_depends l a b Hnd)) as Htc.
      split; intros H x; [rewrite <- Htc|rewrite Htc]; apply H. }
    destruct (validate_acyclic (node_pairs l)) as [[]|e] eqn:Ea; cbn.
    + split; [|done]. intros g. split.
      * intros [= <-]. split_and!; [done|done| |by apply Hiff, Hac].
        intros x y (n & Hn & _ & Hy). rewrite <- node_pairs_keys. by eapply Hdeps.
      * intros (Hg & _). destruct g. cbn in Hg. by rewrite Hg.
    + split.
      * intros g. split; [done|]. intros (_ & _ & _ & H). apply Hiff, Hac in H. done.
      * intros e' [= <-]. unfold validate_acyclic in Ea.
        pose proof (dfs_all_post _ Hknown) as Hpost.
        destruct (dfs_all _ _ _ _) as [[[v a]|e']|] eqn:Edfs; [done| |done].
        injection Ea as ->. rewrite dfs_all_visit in Edfs. by eapply visit_deps_error.
  - split.
    + intros g. split; [done|]. intros (_ & _ & Hdeps & _).
      assert (validate_dependencies (node_pairs l) l = Ok tt) as H; [|congruence].
      apply validate_dependencies_ok. intros n d Hn Hd. rewrite node_pairs_keys.
      apply (Hdeps (node_id n)). by exists n.
    + intros e' [= <-]. by eapply validate_dependencies_error.
Qed.

Lemma make_graph_wf l g : make_graph l = Ok g → graph_wf g.
Proof.
  intros (Hg & Hnd & Hdeps & Hac)%(proj1 (make_graph_spec l)).
  unfold graph_wf. rewrite Hg. split_and!.
  - unfold od_wf. by rewrite node_pairs_keys.
  - intros k n Hn. by apply get_node_pairs_inv in Hn as [_ ?].
  - intros x y Hxy%(edge_depends _ _ _ Hnd). rewrite node_pairs_keys. by eapply Hdeps.
  - intros x Htc. apply (Hac x). by apply (tc_iff _ _ x x (λ a b, edge_depends l a b Hnd)).
Qed.

(** C7: The constructor accepts a list of nodes exactly when the ids are
    distinct, every dependency names a node of the list and the dependency
    relation has no cycle; the graph then holds the nodes in the order given,
    and every refusal is a ValueError (the search always terminates). *)
Theorem make_graph_accepts_exactly_dags l :
  (∀ g, make_graph l = Ok g ↔
     nodes g = node_pairs l ∧ NoDup (node_id <$> l) ∧
     (∀ x y, depends l x y → y ∈ node_id <$> l) ∧ (∀ x, ¬ tc (depends l) x x)) ∧
  (∀ e, make_graph l = Raise e → ∃ m, e = ValueError m).
Proof. exact (make_graph_spec l). Qed.
