(* ===== verification/Observability.v ===== *)
(** * Metrics and timeline

    Models src/observability/metrics.py and src/observability/timeline.py, and
    the log levels of src/observability/logging.py. *)

From S2P Require Import Prelude PyValue.

Inductive LogLevel := Debug_ | Info_ | Warning_ | Error_.

(** ** src/observability/metrics.py *)
Module Metrics.

Record RuntimeMetrics := mkRuntimeMetrics {
  counters : gmap string Z;
  latency_ms : list Z;
  gauges : gmap string Z;
}.

Definition empty : RuntimeMetrics := mkRuntimeMetrics ∅ [] ∅.

Definition counter (m : RuntimeMetrics) (key : string) : Z := default 0 (counters m !! key).

Definition inc (m : RuntimeMetrics) (key : string) (value : Z) : RuntimeMetrics :=
  mkRuntimeMetrics (<[key := counter m key + value]> (counters m)) (latency_ms m) (gauges m).

Definition observe_latency (m : RuntimeMetrics) (value_ms : Z) : RuntimeMetrics :=
  mkRuntimeMetrics (counters m) (latency_ms m ++ [value_ms]) (gauges m).

Definition set_gauge (m : RuntimeMetrics) (key : string) (value : Z) : RuntimeMetrics :=
  mkRuntimeMetrics (counters m) (latency_ms m) (<[key := value]> (gauges m)).

(** [rate]: a fraction, zero when the denominator's counter is not positive. *)
Definition rate (m : RuntimeMetrics) (numerator_key denominator_key : string) : Q :=
  let denominator := counter m denominator_key in
  if denominator <=? 0 then inject_Z 0
  else QArith_base.Qdiv (inject_Z (counter m numerator_key)) (inject_Z denominator).

Lemma counter_inc m k v k' :
  counter (inc m k v) k' = counter m k' + (if decide (k = k') then v else 0).
Proof.
  unfold counter, inc. cbn. case_decide; subst.
  - by rewrite lookup_insert_eq.
  - rewrite lookup_insert_ne by done. lia.
Qed.

End Metrics.

(** ** src/observability/timeline.py *)
Module Timeline.

Record TimelineEntry := mkTimelineEntry {
  te_correlation_id : string;
  te_event : string;
  te_payload : pydict;
}.

Notation RuntimeTimeline := (list TimelineEntry).

Definition append (t : RuntimeTimeline) (corr event : string) (payload : option pydict)
    : RuntimeTimeline :=
  t ++ [mkTimelineEntry corr event (default [] payload)].

Definition entries_for (t : RuntimeTimeline) (corr : string) : RuntimeTimeline :=
  filter (λ e, te_correlation_id e = corr) t.

End Timeline.
