(* ===== verification/Diagnostics.v ===== *)
(** * Diagnostics and supporting services

    Models src/observability/logging.py (the structured logger and its redaction), tracing.py,
    slo_registry.py, gate_evaluator.py and the texts of telemetry_export.py, src/policies/release_guardrails.py,
    src/secrets/ (the environment's secrets and the cache over a provider), src/persistence/migrations.py and
    event_store.py.  A sink or exporter is a function that answers None, or the text of the exception it
    raises; times and span identifiers are arguments.  Setting up the OpenTelemetry exporters is not
    modelled. *)

From S2P Require Import Prelude PyValue Observability.

(** ** src/observability/logging.py *)

Definition level_value (l : LogLevel) : string :=
  match l with Debug_ => "debug" | Info_ => "info" | Warning_ => "warning" | Error_ => "error" end.

Record LogRecord := mkLogRecord {
  lg_level : LogLevel;
  lg_event : string;
  lg_message : string;
  lg_correlation_id : string;
  lg_tenant_id : string;
  lg_context : pydict;
  lg_timestamp_utc : string;
}.

(** The line a [FileLogSink] writes, before it is dumped *)
Definition log_payload (r : LogRecord) : pydict :=
  [("timestamp_utc", PStr (lg_timestamp_utc r)); ("level", PStr (level_value (lg_level r)));
   ("event", PStr (lg_event r)); ("message", PStr (lg_message r));
   ("correlation_id", PStr (lg_correlation_id r)); ("tenant_id", PStr (lg_tenant_id r));
   ("context", PDict (lg_context r))].

Definition REDACTED : pyval := PStr "***REDACTED***".

Definition sensitive (key : string) : bool :=
  let lowered := py_lower key in
  py_in "secret" lowered || py_in "token" lowered || py_in "password" lowered || py_in "api_key" lowered.

Definition redact_context (context : pydict) : pydict :=
  od_map (λ key v, if sensitive key then REDACTED else v) context.

Record StructuredLogger := mkLogger {
  lo_sink : option (LogRecord → option string);
  lo_fallback_to_memory : bool;
  lo_records : list LogRecord;
}.

Definition with_records (l : StructuredLogger) (rs : list LogRecord) : StructuredLogger :=
  mkLogger (lo_sink l) (lo_fallback_to_memory l) rs.

(** What the sink has been given is the last component. *)
Definition log (l : StructuredLogger) (level : LogLevel) (event message correlation_id tenant_id : string)
    (context : option pydict) (now : string) : res unit * StructuredLogger * list LogRecord :=
  let record :=
    mkLogRecord level event message correlation_id tenant_id (redact_context (default [] context)) now in
  match lo_sink l with
  | None => (Ok tt, with_records l (lo_records l ++ [record]), [])
  | Some emit =>
      match emit record with
      | None => (Ok tt, with_records l (lo_records l ++ [record]), [record])
      | Some error =>
          if lo_fallback_to_memory l then
            let noted :=
              mkLogRecord level event message correlation_id tenant_id
                (dict_update (lg_context record)
                   [("log_export_status", PStr "failed"); ("log_export_error", PStr error)]) now in
            (Ok tt, with_records l (lo_records l ++ [noted]), [record])
          else (Raise (OtherException error), with_records l (lo_records l ++ [record]), [record])
      end
  end.

(** ** src/observability/tracing.py *)

Record TraceSpan := mkSpan {
  sp_span_id : string;
  sp_correlation_id : string;
  sp_name : string;
  sp_parent_span_id : option string;
  sp_status : string;
  sp_started_at_utc : string;
  sp_finished_at_utc : string;
  sp_attributes : pydict;
  sp_error : string;
}.

(** The line a [FileTraceExporter] writes, before it is dumped *)
Definition span_payload (s : TraceSpan) : pydict :=
  [("span_id", PStr (sp_span_id s)); ("correlation_id", PStr (sp_correlation_id s)); ("name", PStr (sp_name s));
   ("parent_span_id", match sp_parent_span_id s with Some p => PStr p | None => PNone end);
   ("status", PStr (sp_status s)); ("started_at_utc", PStr (sp_started_at_utc s));
   ("finished_at_utc", PStr (sp_finished_at_utc s)); ("attributes", PDict (sp_attributes s));
   ("error", PStr (sp_error s))].

(** The spans are shared between the list and the dictionary of active ones: the dictionary has their places
    in the list. *)
Record RuntimeTracer := mkTracer {
  tr_exporter : option (TraceSpan → option string);
  tr_fallback_to_memory : bool;
  tr_spans : list TraceSpan;
  tr_active_by_id : list (string * nat);
}.

Definition new_tracer (exporter : option (TraceSpan → option string)) (fallback_to_memory : bool) : RuntimeTracer :=
  mkTracer exporter fallback_to_memory [] [].

(** [digits] is [uuid4().hex]. *)
Definition start_span (t : RuntimeTracer) (digits now correlation_id name : string) (parent_span_id : option string)
    (attributes : option pydict) : string * RuntimeTracer :=
  let id := "span_" +:+ digits in
  let span := mkSpan id correlation_id name parent_span_id "running" now "" (default [] attributes) "" in
  (id, mkTracer (tr_exporter t) (tr_fallback_to_memory t) (tr_spans t ++ [span])
         (od_set id (length (tr_spans t)) (tr_active_by_id t))).

Definition finished (s : TraceSpan) (status now : string) (attributes : pydict) (error : string) : TraceSpan :=
  mkSpan (sp_span_id s) (sp_correlation_id s) (sp_name s) (sp_parent_span_id s) status (sp_started_at_utc s) now
    (dict_update (sp_attributes s) attributes) error.

Definition with_attributes (s : TraceSpan) (attributes : pydict) : TraceSpan :=
  mkSpan (sp_span_id s) (sp_correlation_id s) (sp_name s) (sp_parent_span_id s) (sp_status s) (sp_started_at_utc s)
    (sp_finished_at_utc s) (dict_update (sp_attributes s) attributes) (sp_error s).

(** The span at [n] becomes [s]; [active] are the active spans after. *)
Definition put_span (t : RuntimeTracer) (n : nat) (s : TraceSpan) (active : list (string * nat)) : RuntimeTracer :=
  mkTracer (tr_exporter t) (tr_fallback_to_memory t) (<[n := s]> (tr_spans t)) active.

(** What was exported is the last component. *)
Definition finish_span (t : RuntimeTracer) (span_id status now : string) (attributes : option pydict)
    (error : string) : res unit * RuntimeTracer * list TraceSpan :=
  match od_get span_id (tr_active_by_id t) with
  | None => (Ok tt, t, [])
  | Some n =>
      match tr_spans t !! n with
      | None => (Ok tt, t, [])
      | Some s =>
          let s := finished s status now (default [] attributes) error in
          let left := od_pop span_id (tr_active_by_id t) in
          match tr_exporter t with
          | None => (Ok tt, put_span t n s left, [])
          | Some export =>
              match export s with
              | None => (Ok tt, put_span t n s left, [s])
              | Some e =>
                  if tr_fallback_to_memory t then
                    (Ok tt, put_span t n (with_attributes s
                       [("trace_export_status", PStr "failed"); ("trace_export_error", PStr e)]) left, [s])
                  else (Raise (OtherException e), put_span t n s (tr_active_by_id t), [s])
              end
          end
      end
  end.

Definition spans_for (t : RuntimeTracer) (correlation_id : string) : list TraceSpan :=
  filter (λ s, sp_correlation_id s = correlation_id) (tr_spans t).

(** ** SLO targets, gates and releases *)

Notation SloRegistry := (list (string * Q)).

Definition set_target (r : SloRegistry) (key : string) (value : Q) : SloRegistry := od_set key value r.
Definition get_target (r : SloRegistry) (key : string) : option Q := od_get key r.

Record GateReport := mkReport { gr_passed : bool; gr_failed_keys : list string }.

(** Whether a target is missed: nothing observed, or a value above it *)
Definition missed (observed : list (string * Q)) (p : string * Q) : bool :=
  match od_get p.1 observed with
  | None => true
  | Some value => negb (QArith_base.Qle_bool value p.2)
  end.

Definition evaluate_gates (r : SloRegistry) (observed : list (string * Q)) : GateReport :=
  let failed := fst <$> filter (λ p, missed observed p = true) r in
  mkReport (bool_decide (failed = [])) failed.

Definition can_release (report : GateReport) (required_gates_present : bool) : bool :=
  if negb required_gates_present then false else gr_passed report.

(** ** src/secrets *)

(** [EnvSecretsProvider.get] *)
Definition env_secret (environ : list (string * string)) (key : string) : option string :=
  match od_get key environ with
  | None => None
  | Some value => if py_bool (py_strip value) then Some (py_strip value) else None
  end.

(** [CachedSecretsProvider] over what its delegate answers now *)
Notation secrets_cache := (list (string * option string)).

Definition cached_get (delegate : string → option string) (cache : secrets_cache) (key : string)
    : option string * secrets_cache :=
  match od_get key cache with
  | Some v => (v, cache)
  | None => (delegate key, od_set key (delegate key) cache)
  end.

Definition invalidate (cache : secrets_cache) (key : string) : secrets_cache := od_pop key cache.

(** ** src/persistence/migrations.py *)

Record SQLiteMigration := mkMigration { migration_id : string; statements : list string }.

Section migrations.
Context {Db : Type}.
(** Executing a statement on the tables of the modules *)
Variable execute : string → Db → res Db.

(** A database: its tables, and [schema_migrations] with the times *)
Record connection := mkConnection { tables : Db; schema_migrations : list (string * string) }.

Fixpoint execute_all (l : list string) (db : Db) : res unit * Db :=
  match l with
  | [] => (Ok tt, db)
  | statement :: l =>
      match execute statement db with
      | Ok db => execute_all l db
      | Raise e => (Raise e, db)
      end
  end.

(** The loop, with the identifiers that were there before it; a second row for an identifier is refused by
    its primary key. *)
Fixpoint apply_migrations (existing : list string) (c : connection) (now : string) (l : list SQLiteMigration)
    : res unit * connection :=
  match l with
  | [] => (Ok tt, c)
  | m :: l =>
      if bool_decide (migration_id m ∈ existing) then apply_migrations existing c now l
      else
        match execute_all (statements m) (tables c) with
        | (Raise e, db) => (Raise e, mkConnection db (schema_migrations c))
        | (Ok _, db) =>
            if od_mem (migration_id m) (schema_migrations c) then
              (Raise (OtherException "UNIQUE constraint failed: schema_migrations.migration_id"),
               mkConnection db (schema_migrations c))
            else
              apply_migrations existing
                (mkConnection db (od_set (migration_id m) now (schema_migrations c))) now l
        end
  end.

Definition apply_sqlite_migrations (c : connection) (now : string) (l : list SQLiteMigration)
    : res unit * connection :=
  apply_migrations (od_keys (schema_migrations c)) c now l.
End migrations.
Arguments connection Db : clear implicits.
Arguments mkConnection {Db} tables schema_migrations.
Arguments tables {Db} c.
Arguments schema_migrations {Db} c.

(** ** src/persistence/event_store.py *)

Record EventRecord := mkEventRecord {
  er_event_id : string;
  er_correlation_id : string;
  er_tenant_id : string;
  er_payload : pydict;
}.

Definition append_event (s : list EventRecord) (r : EventRecord) : list EventRecord := s ++ [r].

Definition query_events (s : list EventRecord) (correlation_id tenant_id : string) : list EventRecord :=
  filter (λ r, er_correlation_id r = correlation_id ∧ er_tenant_id r = tenant_id) s.

(** ** src/observability/telemetry_export.py *)

Definition environ_text (environ : list (string * string)) (name dflt : string) : string :=
  od_get_default dflt name environ.

(** [s.rstrip("/")] *)
Fixpoint rstrip_slash (s : string) : string :=
  match s with
  | EmptyString => EmptyString
  | String c s' =>
      match rstrip_slash s' with
      | EmptyString => if bool_decide (c = Ascii.ascii_of_nat 47) then EmptyString else String c EmptyString
      | r => String c r
      end
  end.

Definition base_otlp_endpoint (environ : list (string * string)) : string :=
  rstrip_slash (py_strip (environ_text environ "OTEL_EXPORTER_OTLP_ENDPOINT" "")).

(** [_traces_endpoint] and [_metrics_endpoint] *)
Definition signal_endpoint (environ : list (string * string)) (variable path : string) : string :=
  let explicit := py_strip (environ_text environ variable "") in
  if py_bool explicit then explicit
  else
    let base := base_otlp_endpoint environ in
    if py_bool base then base +:+ path else "".

Definition traces_endpoint (environ : list (string * string)) : string :=
  signal_endpoint environ "OTEL_EXPORTER_OTLP_TRACES_ENDPOINT" "/v1/traces".

Definition metrics_endpoint (environ : list (string * string)) : string :=
  signal_endpoint environ "OTEL_EXPORTER_OTLP_METRICS_ENDPOINT" "/v1/metrics".

(** [s.replace(c, "")] of a single character *)
Fixpoint without_char (c : ascii) (s : string) : string :=
  match s with
  | EmptyString => EmptyString
  | String d s' => if bool_decide (d = c) then without_char c s' else String d (without_char c s')
  end.

Definition newline : string := String (Ascii.ascii_of_nat 10) EmptyString.
Definition quote : string := String (Ascii.ascii_of_nat 34) EmptyString.

Definition label_text (environ : list (string * string)) (name dflt : string) : string :=
  without_char (Ascii.ascii_of_nat 10) (without_char (Ascii.ascii_of_nat 92) (environ_text environ name dflt)).

Definition build_minimal_prometheus_text (environ : list (string * string)) : string :=
  let version := label_text environ "OTEL_SERVICE_VERSION" "0.1.0" in
  let name := label_text environ "OTEL_SERVICE_NAME" "exo-brain" in
  join newline
    ["# HELP exo_build_info Build metadata for the eXo-brain process.";
     "# TYPE exo_build_info gauge";
     "exo_build_info{service=" +:+ quote +:+ name +:+ quote +:+ ",version=" +:+ quote +:+ version +:+ quote
       +:+ "} 1"] +:+ newline.

(** * Theorems about diagnostics and supporting services

    Redaction of what is logged, the accounting of spans, what a release needs, the secrets cache as its
    provider, and migrations that are applied once. *)

(** ** Redaction *)

Definition is_redacted (r : LogRecord) : Prop :=
  ∀ key v, od_get key (lg_context r) = Some v → sensitive key = true → v = REDACTED.

Lemma redact_context_spec d key v :
  od_get key (redact_context d) = Some v → sensitive key = true → v = REDACTED.
Proof.
  unfold redact_context. rewrite od_get_map. intros (w & _ & ->)%fmap_Some_1 Hs. by rewrite Hs.
Qed.

Lemma sensitive_export : sensitive "log_export_status" = false ∧ sensitive "log_export_error" = false.
Proof. by vm_compute. Qed.

(** Whatever is logged, in whatever order and however the sink fails: no record that the logger keeps, and none
    that its sink is given, has a value under a key that names a secret, a token, a password or an API key. *)
Theorem logged_secrets_are_redacted l level event message correlation tenant context now :
  Forall is_redacted (lo_records l) →
  let '(_, l', emitted) := log l level event message correlation tenant context now in
  Forall is_redacted (lo_records l') ∧ Forall is_redacted emitted.
Proof.
  intros Hl. unfold log.
  assert (∀ c, is_redacted (mkLogRecord level event message correlation tenant (redact_context c) now)) as Hr
    by (intros c key v; apply redact_context_spec).
  assert (∀ c e, is_redacted (mkLogRecord level event message correlation tenant
    (dict_update (redact_context c) [("log_export_status", PStr "failed"); ("log_export_error", PStr e)]) now)) as He.
  { intros c e key v. cbn [lg_context]. unfold dict_update. cbn [foldl].
    destruct sensitive_export as [Hs1 Hs2].
    destruct (decide (key = "log_export_error")) as [->|H1]; [intros _; by rewrite Hs2|].
    destruct (decide (key = "log_export_status")) as [->|H2]; [intros _; by rewrite Hs1|].
    rewrite !od_get_set_ne by done. apply redact_context_spec. }
  destruct (lo_sink l) as [emit|]; [destruct (emit _) as [error|]; [destruct (lo_fallback_to_memory l)|]|];
    cbn [with_records lo_records]; rewrite Forall_app, !Forall_singleton; split_and?; solve [done|apply Forall_nil_2|apply Hr|apply He].
Qed.

(** ** Spans *)

(** The active spans of a tracer are the ones that have not been finished, each at its place. *)
Record tracer_ok (t : RuntimeTracer) : Prop := {
  to_wf : od_wf (tr_active_by_id t);
  to_ids : NoDup (sp_span_id <$> tr_spans t);
  to_active : ∀ id n, od_get id (tr_active_by_id t) = Some n ↔
    ∃ s, tr_spans t !! n = Some s ∧ sp_span_id s = id ∧ sp_finished_at_utc s = "";
}.

(** What is done to a tracer: spans are started under new identifiers and finished at a time. *)
Inductive trace_step (t : RuntimeTracer) : RuntimeTracer → Prop :=
| step_start digits now correlation name parent attributes :
    "span_" +:+ digits ∉ sp_span_id <$> tr_spans t →
    trace_step t (start_span t digits now correlation name parent attributes).2
| step_finish id status now attributes error :
    now ≠ "" →
    trace_step t (finish_span t id status now attributes error).1.2.

(** Nothing is lost when a span is finished: without an exporter, or when failed exports are kept in memory *)
Definition keeps (t : RuntimeTracer) : Prop := tr_exporter t = None ∨ tr_fallback_to_memory t = true.

Lemma finish_span_spec t id status now attributes error n s :
  keeps t → od_get id (tr_active_by_id t) = Some n → tr_spans t !! n = Some s →
  ∃ more, (finish_span t id status now attributes error).1 =
    (Ok tt, put_span t n (with_attributes (finished s status now (default [] attributes) error) more)
              (od_pop id (tr_active_by_id t))).
Proof.
  intros Hk Hid Hn. unfold finish_span. rewrite Hid, Hn.
  assert (∀ x, with_attributes x [] = x) as Hnone by (by intros []).
  destruct Hk as [->| Hf]; [exists []; by rewrite Hnone|].
  destruct (tr_exporter t) as [export|]; [|exists []; by rewrite Hnone].
  destruct (export _) as [e|]; [|exists []; by rewrite Hnone]. rewrite Hf. by eexists.
Qed.

Lemma start_ok t digits now correlation name parent attributes :
  tracer_ok t → "span_" +:+ digits ∉ sp_span_id <$> tr_spans t →
  tracer_ok (start_span t digits now correlation name parent attributes).2.
Proof.
  intros [Hwf Hids Ha] Hnew. unfold start_span. set (id := "span_" +:+ digits) in *. cbn [snd].
  split; cbn [tr_active_by_id tr_spans]; [by apply od_wf_set| |].
  { rewrite fmap_app. apply NoDup_app. split; [done|]. split; [|apply NoDup_singleton].
    intros x Hx Hin. apply list_elem_of_singleton in Hin as ->. done. }
  intros i n. destruct (decide (i = id)) as [->|Hi].
  - rewrite od_get_set. split.
    + intros [= <-]. rewrite lookup_app_r, Nat.sub_diag by done. by eexists.
    + intros (s & Hs & Hid & _). destruct (decide (n < length (tr_spans t))%nat) as [Hn|Hn].
      * rewrite lookup_app_l in Hs by done. destruct Hnew. rewrite <- Hid.
        apply list_elem_of_fmap_2. by apply list_elem_of_lookup_2 in Hs.
      * rewrite lookup_app_r in Hs by lia. apply list_lookup_singleton_Some in Hs as [Hz _]. f_equal. lia.
  - rewrite od_get_set_ne, Ha by done. split; intros (s & Hs & Hid & Hf); exists s; (split; [|done]).
    + by apply lookup_app_l_Some.
    + destruct (decide (n < length (tr_spans t))%nat) as [Hn|Hn]; [by rewrite lookup_app_l in Hs|].
      rewrite lookup_app_r in Hs by lia. apply list_lookup_singleton_Some in Hs as [_ <-]. done.
Qed.

Lemma put_ids t n s s' active :
  tr_spans t !! n = Some s → sp_span_id s' = sp_span_id s →
  sp_span_id <$> tr_spans (put_span t n s' active) = sp_span_id <$> tr_spans t.
Proof.
  intros Hn Hid. cbn. rewrite list_fmap_insert, Hid. apply list_insert_id. by rewrite list_lookup_fmap, Hn.
Qed.

Lemma finish_ok t id status now attributes error :
  keeps t → tracer_ok t → now ≠ "" → tracer_ok (finish_span t id status now attributes error).1.2.
Proof.
  intros Hk Ht Hnow. pose proof Ht as [Hwf Hids Ha].
  destruct (od_get id (tr_active_by_id t)) as [n|] eqn:Hid.
  2:{ unfold finish_span. by rewrite Hid. }
  pose proof (proj1 (Ha id n) Hid) as (s & Hs & Hsid & Hsf).
  destruct (finish_span_spec t id status now attributes error n s Hk Hid Hs) as [more ->]. cbn [snd].
  set (s' := with_attributes _ _). assert (sp_span_id s' = sp_span_id s) as Hs' by done.
  pose proof (put_ids t n s s' (od_pop id (tr_active_by_id t)) Hs Hs') as Hput.
  split; cbn [put_span tr_active_by_id]; [by apply od_wf_pop|by rewrite Hput|].
  intros i m. cbn [put_span tr_spans]. destruct (decide (i = id)) as [->|Hi].
  - rewrite od_get_pop. split; [done|]. intros (x & Hx & Hxid & Hxf). exfalso.
    destruct (decide (m = n)) as [->|Hm].
    + rewrite list_lookup_insert_eq in Hx by (by eapply lookup_lt_Some). by injection Hx as <-.
    + rewrite list_lookup_insert_ne in Hx by done. destruct Hm.
      apply (NoDup_lookup _ m n id Hids); rewrite list_lookup_fmap; [rewrite Hx|rewrite Hs]; cbn; by f_equal.
  - rewrite od_get_pop_ne, Ha by done. split; intros (x & Hx & Hxid & Hxf); exists x; (split; [|done]).
    + destruct (decide (m = n)) as [->|Hm]; [congruence|]. by rewrite list_lookup_insert_ne.
    + destruct (decide (m = n)) as [->|Hm]; [|by rewrite list_lookup_insert_ne in Hx].
      rewrite list_lookup_insert_eq in Hx by (by eapply lookup_lt_Some). by injection Hx as <-.
Qed.

Lemma trace_step_ok t t' :
  keeps t → tracer_ok t → trace_step t t' →
  keeps t' ∧ tracer_ok t' ∧ sp_span_id <$> tr_spans t `prefix_of` sp_span_id <$> tr_spans t'.
Proof.
  intros Hk Ht Hs. destruct Hs as [digits now correlation name parent attributes Hnew
    |id status now attributes error Hnow].
  - split; [done|]. split; [by apply start_ok|]. unfold start_span. cbn. rewrite fmap_app. by eexists.
  - pose proof (finish_ok t id status now attributes error Hk Ht Hnow) as Hok.
    destruct (od_get id (tr_active_by_id t)) as [n|] eqn:Hid.
    2:{ unfold finish_span in *. by rewrite Hid in *. }
    pose proof (proj1 (to_active _ Ht id n) Hid) as (s & Hsp & _).
    destruct (finish_span_spec t id status now attributes error n s Hk Hid Hsp) as [more E].
    rewrite E in *. split; [done|]. split; [done|]. cbn [snd]. by rewrite (put_ids t n s).
Qed.

(** A tracer accounts for its spans.  However spans are started, under identifiers of their own, and finished:
    the identifiers stay distinct, and the active spans are exactly those that have not been finished; a failed
    export changes nothing of it as long as it is kept in memory. *)
Theorem spans_accounted exporter t :
  rtc trace_step (new_tracer exporter true) t →
  NoDup (sp_span_id <$> tr_spans t) ∧
  ∀ id, is_Some (od_get id (tr_active_by_id t)) ↔
    ∃ s, s ∈ tr_spans t ∧ sp_span_id s = id ∧ sp_finished_at_utc s = "".
Proof.
  intros Hr.
  assert (keeps t ∧ tracer_ok t) as [_ [_ Hids Ha]].
  { assert (keeps (new_tracer exporter true) ∧ tracer_ok (new_tracer exporter true)) as Hinit.
    { split; [by right|]. split; cbn; [apply NoDup_nil_2|apply NoDup_nil_2|]. intros id n. split; [done|].
      intros (s & Hs & _). by rewrite lookup_nil in Hs. }
    induction Hr as [|t1 t2 t3 Hs _ IH]; [done|]. apply IH. destruct Hinit as [Hk Ht].
    by destruct (trace_step_ok _ _ Hk Ht Hs) as (? & ? & _). }
  split; [done|]. intros id. split.
  - intros [n Hn]. apply Ha in Hn as (s & Hs & Hrest). exists s. split; [by eapply list_elem_of_lookup_2|done].
  - intros (s & Hin & Hrest). apply list_elem_of_lookup in Hin as [n Hn]. exists n. apply Ha. by exists s.
Qed.

(** ** Releases *)

(** A release is let through exactly when its gates are there and every target has an observed value that
    does not exceed it. *)
Theorem release_needs_every_target r observed present :
  can_release (evaluate_gates r observed) present = true ↔
  present = true ∧
  ∀ key target, (key, target) ∈ r →
    ∃ value, od_get key observed = Some value ∧ QArith_base.Qle value target.
Proof.
  unfold can_release, evaluate_gates. cbn [gr_passed].
  assert (fst <$> filter (λ p, missed observed p = true) r = [] ↔ ∀ p, p ∈ r → missed observed p = false) as Hf.
  { induction r as [|p r IH]; [split; [by intros _ p ?%elem_of_nil|done]|].
    rewrite filter_cons. destruct (missed observed p) eqn:E; cbn [decide decide_rel bool_eq_dec].
    - split; [by destruct (decide _)|]. intros Hall. by rewrite (Hall p) in E by left.
    - rewrite decide_False by done. rewrite IH. split; [|intros Hall q Hq; apply Hall; by right].
      intros Hall q [->|Hq]%elem_of_cons; auto. }
  destruct present; cbn [negb]; [|by split; [|intros [? _]]].
  rewrite bool_decide_eq_true, Hf. split.
  - intros Hall. split; [done|]. intros key target Hin. specialize (Hall _ Hin). unfold missed in Hall. cbn in Hall.
    destruct (od_get key observed) as [value|]; [|done]. exists value. split; [done|].
    apply QArith_base.Qle_bool_iff. by destruct (QArith_base.Qle_bool value target).
  - intros [_ Hall] [key target] Hin. destruct (Hall _ _ Hin) as (value & Hv & Hle). unfold missed. cbn.
    rewrite Hv. apply QArith_base.Qle_bool_iff in Hle. by rewrite Hle.
Qed.

(** ** Secrets *)

Inductive secret_command := GetSecret (key : string) | Invalidate (key : string).

Definition cache_step (delegate : string → option string) (cache : list (string * option string)) (c : secret_command)
    : option (option string) * list (string * option string) :=
  match c with
  | GetSecret key => let '(v, cache) := cached_get delegate cache key in (Some v, cache)
  | Invalidate key => (None, invalidate cache key)
  end.

(** What a cache over a provider answers to commands; the provider may answer otherwise each time. *)
Fixpoint run_cache (cache : list (string * option string)) (cs : list ((string → option string) * secret_command))
    : list (option (option string)) * list (string * option string) :=
  match cs with
  | [] => ([], cache)
  | (delegate, c) :: cs =>
      let '(a, cache) := cache_step delegate cache c in
      let '(answers, cache) := run_cache cache cs in
      (a :: answers, cache)
  end.

(** A secret that was read stays as it was read until it is invalidated, whatever is read and invalidated
    besides and whatever the provider would answer meanwhile: a rotated secret is not noticed, and a missing one
    stays missing. *)
Lemma cached_until_invalidated cache cs key v delegate :
  od_get key cache = Some v → (∀ d, (d, Invalidate key) ∉ cs) →
  (cached_get delegate (run_cache cache cs).2 key).1 = v.
Proof.
  revert cache. induction cs as [|[d c] cs IH]; intros cache Hv Hn.
  { cbn. unfold cached_get. by rewrite Hv. }
  cbn [run_cache]. destruct (cache_step d cache c) as [a cache'] eqn:E.
  assert (od_get key cache' = Some v) as Hv'.
  { destruct c as [k|k]; cbn [cache_step] in E.
    - unfold cached_get in E. destruct (od_get k cache) eqn:Ek; injection E as <- <-; [done|].
      rewrite od_get_set_ne; [done|]. intros ->. congruence.
    - injection E as <- <-. unfold invalidate. rewrite od_get_pop_ne; [done|]. intros ->. apply (Hn d). left. }
  specialize (IH cache' Hv' (λ d' Hin, Hn d' (list_elem_of_further _ _ _ Hin))).
  by destruct (run_cache cache' cs).
Qed.

(** ** Migrations *)
Section migrations.
Context {Db : Type}.
Variable execute : string → Db → res Db.
Implicit Types (c : connection Db) (l : list SQLiteMigration).

Notation execute_all := (execute_all execute).
Notation apply_migrations := (apply_migrations execute).
Notation apply_sqlite_migrations := (apply_sqlite_migrations execute).

Definition pending (existing : list string) l : list SQLiteMigration :=
  filter (λ m, migration_id m ∉ existing) l.

Lemma execute_all_app (ss ss' : list string) db :
  execute_all (ss ++ ss') db =
  match execute_all ss db with (Ok _, db') => execute_all ss' db' | (Raise e, db') => (Raise e, db') end.
Proof.
  revert db. induction ss as [|s ss IH]; intros db; [done|]. cbn. destruct (execute s db); [apply IH|done].
Qed.

Lemma apply_migrations_ok existing c now l c' :
  NoDup (migration_id <$> l) →
  (∀ m, m ∈ l → migration_id m ∈ od_keys (schema_migrations c) → migration_id m ∈ existing) →
  apply_migrations existing c now l = (Ok tt, c') →
  execute_all (pending existing l ≫= statements) (tables c) = (Ok tt, tables c') ∧
  schema_migrations c' =
    schema_migrations c ++ ((λ m, (migration_id m, now)) <$> pending existing l).
Proof.
  revert c. induction l as [|m l IH]; intros c Hnd Hex Ha.
  { injection Ha as <-. cbn. by rewrite app_nil_r. }
  apply NoDup_cons in Hnd as [Hm Hnd]. cbn [Diagnostics.apply_migrations] in Ha. unfold pending.
  case_bool_decide as Hin.
  - rewrite filter_cons_False by (by intros Hn). apply IH; [done| |done]. intros q Hq. apply Hex. by right.
  - rewrite filter_cons_True by done. cbn [mbind list_bind]. rewrite execute_all_app.
    destruct (execute_all (statements m) (tables c)) as [[[]|e] db]; [|done].
    destruct (od_mem _ _) eqn:Emem; [done|].
    assert (od_get (migration_id m) (schema_migrations c) = None) as Hfresh by (by apply od_mem_false).
    rewrite od_set_fresh in Ha by done. apply IH in Ha as [He Hs]; [|done|].
    + split; [exact He|]. rewrite Hs. cbn [schema_migrations]. by rewrite fmap_cons, <- app_assoc.
    + intros q Hq. cbn [schema_migrations]. unfold od_keys. rewrite fmap_app, elem_of_app. intros [Hk|Hk].
      * apply Hex; [by right|done].
      * apply list_elem_of_singleton in Hk. cbn in Hk. destruct Hm. rewrite <- Hk. by apply list_elem_of_fmap_2.
Qed.

(** Migrations are applied once and in order.  Applying them to a database runs the statements of the ones it has
    not recorded, in their order, and records them; applying them again, at any time, runs nothing and changes
    nothing. *)
Theorem migrations_applied_once c now later l c' :
  NoDup (migration_id <$> l) → apply_sqlite_migrations c now l = (Ok tt, c') →
  execute_all (pending (od_keys (schema_migrations c)) l ≫= statements) (tables c) = (Ok tt, tables c') ∧
  (∀ m, m ∈ l → migration_id m ∈ od_keys (schema_migrations c')) ∧
  apply_sqlite_migrations c' later l = (Ok tt, c').
Proof.
  intros Hnd Ha. apply apply_migrations_ok in Ha as [He Hs]; [|done|done].
  assert (∀ m, m ∈ l → migration_id m ∈ od_keys (schema_migrations c')) as Hall.
  { intros m Hin. rewrite Hs. unfold od_keys. rewrite fmap_app, elem_of_app.
    destruct (decide (migration_id m ∈ od_keys (schema_migrations c))) as [Hd|Hd]; [by left|right].
    rewrite <- list_fmap_compose. apply (list_elem_of_fmap_2 (fst ∘ λ m, (migration_id m, now)) _ m).
    by apply list_elem_of_filter. }
  split; [done|]. split; [done|]. unfold Diagnostics.apply_sqlite_migrations. revert Hall.
  generalize (od_keys (schema_migrations c')). intros keys. clear. induction l as [|m l IH]; intros Hall; [done|].
  cbn. rewrite bool_decide_true by (apply Hall; left). apply IH. intros q Hq. apply Hall. by right.
Qed.
End migrations.

(** ** Concrete cases *)
Module DiagnosticsExamples.

Definition tracer : RuntimeTracer := new_tracer (Some (λ _, Some "disk full")) true.

Definition one_span : RuntimeTracer := (start_span tracer "1" "t0" "c" "turn" None None).2.

Lemma spans_accounted_witness :
  rtc trace_step tracer one_span ∧ is_Some (od_get "span_1" (tr_active_by_id one_span)).
Proof.
  assert (rtc trace_step tracer one_span) as Hr.
  { apply rtc_once. apply (step_start tracer "1" "t0" "c" "turn" None None). apply not_elem_of_nil. }
  split; [exact Hr|]. apply (spans_accounted (Some (λ _, Some "disk full")) one_span Hr).
  exists (mkSpan "span_1" "c" "turn" None "running" "t0" "" [] ""). split; [left|]. split; reflexivity.
Defined.

Lemma logged_secrets_are_redacted_witness :
  Forall is_redacted (lo_records (mkLogger None true [])) ∧
  let '(_, l', emitted) := log (mkLogger None true []) Info_ "e" "m" "c" "acme"
    (Some [("API_KEY", PStr "k"); ("n", PInt 1)]) "t" in
  Forall is_redacted (lo_records l') ∧ Forall is_redacted emitted.
Proof.
  assert (Forall is_redacted (lo_records (mkLogger None true []))) as Hn by constructor.
  split; [exact Hn|].
  exact (logged_secrets_are_redacted (mkLogger None true []) Info_ "e" "m" "c" "acme"
    (Some [("API_KEY", PStr "k"); ("n", PInt 1)]) "t" Hn).
Defined.

(** Only the keys at the top are looked at: a secret one level down is written as it is. *)
Lemma nested_secret_is_logged :
  let '(_, l, _) := log (mkLogger None true []) Info_ "e" "m" "c" "acme"
    (Some [("request", PDict [("api_key", PStr "k")])]) "t" in
  lg_context <$> lo_records l = [[("request", PDict [("api_key", PStr "k")])]].
Proof. vm_compute. reflexivity. Qed.

(** A quote in the service name is not escaped and ends its label. *)
Lemma quote_ends_label :
  py_in ("service=" +:+ quote +:+ "a" +:+ quote +:+ "b")
    (build_minimal_prometheus_text [("OTEL_SERVICE_NAME", "a" +:+ quote +:+ "b")]) = true.
Proof. vm_compute. reflexivity. Qed.

Definition create (t : string) (db : list string) : res (list string) :=
  if bool_decide (t ∈ db) then Raise (OtherException "table exists") else Ok (db ++ [t]).

Definition plan : list SQLiteMigration := [mkMigration "1" ["a"; "b"]; mkMigration "2" ["c"]].

Lemma migrations_applied_once_witness :
  NoDup (migration_id <$> plan) ∧
  apply_sqlite_migrations create (mkConnection ["a"; "b"] [("1", "t0")]) "t1" plan =
    (Ok tt, mkConnection ["a"; "b"; "c"] [("1", "t0"); ("2", "t1")]) ∧
  apply_sqlite_migrations create (mkConnection ["a"; "b"; "c"] [("1", "t0"); ("2", "t1")]) "t2" plan =
    (Ok tt, mkConnection ["a"; "b"; "c"] [("1", "t0"); ("2", "t1")]).
Proof.
  assert (NoDup (migration_id <$> plan)) as Hn by (refine (bool_decide_unpack _ _); vm_compute; exact I).
  assert (apply_sqlite_migrations create (mkConnection ["a"; "b"] [("1", "t0")]) "t1" plan =
    (Ok tt, mkConnection ["a"; "b"; "c"] [("1", "t0"); ("2", "t1")])) as Ha by (vm_compute; reflexivity).
  split; [exact Hn|]. split; [exact Ha|].
  exact (proj2 (proj2 (migrations_applied_once create (mkConnection ["a"; "b"] [("1", "t0")]) "t1" "t2" plan
    (mkConnection ["a"; "b"; "c"] [("1", "t0"); ("2", "t1")]) Hn Ha))).
Defined.
End DiagnosticsExamples.
