(* ===== verification/Scheduler.v ===== *)
(** * The task scheduler

    Models src/core/scheduler.py and src/core/worker_pool.py.  A node's handler
    is the graph author's code: the parameter [run_handler] gives, for a node, an
    attempt number and an input payload, what awaiting the handler under its
    timeout does.  Everything the scheduler does to its collaborators (checkpoint
    store, logger and timeline, metrics, tracer, sleeping) is an [action]; a run
    yields the actions in order. *)

From S2P Require Import Prelude PyValue Observability Checkpoints TaskGraph Resilience.

(** ** src/core/worker_pool.py *)
Module WorkerPool.

(** [permits] is the value of the semaphore. *)
Record WorkerPool := mkWorkerPool { max_concurrency : Z; permits : Z }.

Definition init (max_concurrency : Z) : res WorkerPool :=
  if max_concurrency <? 1 then Raise (ValueError "max_concurrency must be >= 1")
  else Ok (mkWorkerPool max_concurrency max_concurrency).

(** Releases the semaphore once per missing permit. *)
Definition scale_up_to (p : WorkerPool) (target : Z) : res (bool * WorkerPool) :=
  if target <? 1 then Raise (ValueError "target_concurrency must be >= 1")
  else if target <=? max_concurrency p then Ok (false, p)
  else
    let delta := target - max_concurrency p in
    Ok (true, mkWorkerPool target (permits p + delta)).

(** [async with self._semaphore]: entering waits for a permit. *)
Definition acquire (p : WorkerPool) : option WorkerPool :=
  if 0 <? permits p then Some (mkWorkerPool (max_concurrency p) (permits p - 1)) else None.

Definition release (p : WorkerPool) : WorkerPool :=
  mkWorkerPool (max_concurrency p) (permits p + 1).

(** The tasks inside [run] at a time, and the steps they can take. *)
Inductive pool_step : WorkerPool * Z → WorkerPool * Z → Prop :=
| pool_enter p n p' : acquire p = Some p' → pool_step (p, n) (p', n + 1)
| pool_leave p n : 0 < n → pool_step (p, n) (release p, n - 1)
| pool_scale p n target p' b :
    scale_up_to p target = Ok (b, p') → pool_step (p, n) (p', n).

Lemma pool_step_invariant s s' :
  pool_step s s' →
  0 ≤ s.2 ∧ 0 ≤ permits s.1 ∧ s.2 + permits s.1 = max_concurrency s.1 →
  0 ≤ s'.2 ∧ 0 ≤ permits s'.1 ∧ s'.2 + permits s'.1 = max_concurrency s'.1.
Proof.
  intros [p n p' Ha|p n Hn|p n t p' b Hs] (H1 & H2 & H3); cbn in *.
  - unfold acquire in Ha. destruct (Z.ltb_spec 0 (permits p)); [|done].
    injection Ha as <-. cbn. lia.
  - lia.
  - unfold scale_up_to in Hs. destruct (Z.ltb_spec t 1); [done|].
    destruct (Z.leb_spec t (max_concurrency p)); injection Hs as <- <-; cbn; lia.
Qed.

(** However tasks enter and leave the pool and whenever it is scaled up,
    no more than [max_concurrency] tasks run at once, and that limit is never
    lowered below its initial value. *)
Theorem pool_concurrency_bounded m p p' n :
  init m = Ok p →
  rtc pool_step (p, 0) (p', n) →
  0 ≤ n ≤ max_concurrency p' ∧ m ≤ max_concurrency p'.
Proof.
  unfold init. destruct (Z.ltb_spec m 1); [done|]. intros [= <-].
  assert (∀ s s', rtc pool_step s s' →
    0 ≤ s.2 ∧ 0 ≤ permits s.1 ∧ s.2 + permits s.1 = max_concurrency s.1 →
    (0 ≤ s'.2 ∧ 0 ≤ permits s'.1 ∧ s'.2 + permits s'.1 = max_concurrency s'.1) ∧
    max_concurrency s.1 ≤ max_concurrency s'.1) as Hrtc.
  { induction 1 as [s|s1 s2 s3 Hstep _ IH]; [lia|]. intros Hinv.
    destruct (IH (pool_step_invariant _ _ Hstep Hinv)) as [? Hle]. split; [done|].
    etrans; [|exact Hle]. destruct Hstep as [q k q' Ha|q k Hk|q k t q' b Hs]; cbn.
    - unfold acquire in Ha. destruct (0 <? permits q); [|done]. by injection Ha as <-.
    - done.
    - unfold scale_up_to in Hs. destruct (Z.ltb_spec t 1); [done|].
      destruct (Z.leb_spec t (max_concurrency q)); injection Hs as <- <-; cbn; lia. }
  intros Hr. specialize (Hrtc _ _ Hr). cbn in Hrtc. lia.
Qed.

Lemma pool_concurrency_bounded_witness :
  0 ≤ 1 ≤ max_concurrency (mkWorkerPool 2 1) ∧ 2 ≤ max_concurrency (mkWorkerPool 2 1).
Proof.
  apply (pool_concurrency_bounded 2 (mkWorkerPool 2 2)); [reflexivity|].
  eapply rtc_l; [|apply rtc_refl]. apply (pool_enter (mkWorkerPool 2 2) 0). reflexivity.
Defined.

End WorkerPool.

(** ** src/core/scheduler.py *)

(** What awaiting a handler under [asyncio.wait_for] does. *)
Inductive handler_result :=
| HandlerReturns (output : pydict)
| HandlerTimesOut
| HandlerRaises (message : string).

(** A call on one of the scheduler's collaborators. *)
Inductive action :=
| SaveCheckpoint (c : CheckpointRecord)
| Emit (event message : string) (context : pydict) (level : LogLevel)
| IncMetric (key : string)
| ObserveLatency
| SetGauge (key : string) (value : Z)
| StartSpan (name : string) (attributes : pydict)
| FinishSpan (name status : string) (attributes : pydict) (error : string)
| Sleep (ms : Z).

Record SchedulerResult := mkSchedulerResult {
  sr_job_id : string;
  sr_outcomes : list (string * TaskOutcome);
}.

(** [SchedulerResult.failed] *)
Definition result_failed (r : SchedulerResult) : bool :=
  existsb (λ o, bool_decide (oc_status o = Failed)) (od_values (sr_outcomes r)).

Definition task_status_from_checkpoint (s : CheckpointStatus) : TaskStatus :=
  match s with
  | CheckpointPending => Pending
  | CheckpointRunning => Running
  | CheckpointCompleted => Completed
  | CheckpointFailed => Failed
  | CheckpointCancelled => Cancelled
  end.

(** [_set_queue_depth] *)
Definition set_queue_depth (depth : Z) : list action :=
  [SetGauge "scheduler.queue_depth" (Z.max depth 0);
   Emit "scheduler.queue_depth" "Updated scheduler queue depth"
     [("queue_depth", PInt (Z.max depth 0))] Debug_].

(** [_build_input_payload] *)
Definition completed_output (outcomes : list (string * TaskOutcome)) (dep : string)
    : option pydict :=
  match od_get dep outcomes with
  | Some o => if decide (oc_status o = Completed) then Some (oc_output o) else None
  | None => None
  end.

Definition add_dependency (outcomes : list (string * TaskOutcome)) (d : pydict) (dep : string)
    : pydict :=
  match completed_output outcomes dep with
  | Some out => od_set dep (PDict out) d
  | None => d
  end.

Definition build_input_payload (job_id : string) (node : TaskNode)
    (outcomes : list (string * TaskOutcome)) (base_payload : pydict) : pydict :=
  let dependencies := foldl (add_dependency outcomes) [] (depends_on node) in
  od_set "job_id" (PStr job_id)
    (od_set "node_id" (PStr (node_id node))
      (od_set "dependencies" (PDict dependencies) base_payload)).

Section scheduler.
Variable run_handler : TaskNode → Z → pydict → handler_result.
Variable retry_policy : RetryPolicy.RetryPolicy.

Definition checkpoint (job_id : string) (node : TaskNode) (status : CheckpointStatus)
    (attempt : Z) (reason : string) (payload : pydict) : action :=
  SaveCheckpoint (mkCheckpoint job_id (node_id node) status "default" attempt reason payload).

Definition max_attempts (node : TaskNode) : Z := Z.max 1 (retry_limit node + 1).

(** The success branch of the retry loop. *)
Definition node_completed (job_id : string) (node : TaskNode) (attempts : Z)
    (output : pydict) : TaskOutcome * list action :=
  (mkTaskOutcome (node_id node) Completed output "" "" attempts,
   [checkpoint job_id node CheckpointCompleted attempts "" output;
    Emit "scheduler.node_completed" ("Node '" +:+ node_id node +:+ "' completed")
      [("node_id", PStr (node_id node)); ("attempts", PInt attempts)] Info_;
    IncMetric "scheduler.node.success"; ObserveLatency;
    FinishSpan "scheduler.run_node" "ok"
      [("node_id", PStr (node_id node)); ("attempts", PInt attempts)] ""]).

(** The branch of the last failed attempt. *)
Definition node_failed (job_id : string) (node : TaskNode) (attempts : Z)
    (reason message : string) : TaskOutcome * list action :=
  (mkTaskOutcome (node_id node) Failed [] reason message attempts,
   [checkpoint job_id node CheckpointFailed attempts reason [];
    Emit "scheduler.node_failed" ("Node '" +:+ node_id node +:+ "' failed")
      [("node_id", PStr (node_id node)); ("reason_code", PStr reason);
       ("attempts", PInt attempts)] Error_;
    IncMetric "scheduler.node.failure"; ObserveLatency;
    FinishSpan "scheduler.run_node" "error"
      [("node_id", PStr (node_id node)); ("attempts", PInt attempts);
       ("reason_code", PStr reason)] message]).

Definition node_retry (node : TaskNode) (attempts : Z) : list action :=
  [IncMetric "scheduler.node.retries";
   Emit "scheduler.node_retry" ("Retrying node '" +:+ node_id node +:+ "'")
     [("node_id", PStr (node_id node)); ("attempt", PInt (attempts + 1));
      ("max_attempts", PInt (max_attempts node))] Warning_;
   Sleep (RetryPolicy.delay_ms retry_policy attempts)].

(** The retry loop of [_run_node]; [fuel] counts the iterations left, [None]
    is the AssertionError after the loop. *)
Fixpoint attempt_loop (fuel : nat) (job_id : string) (node : TaskNode)
    (input_payload : pydict) (attempts : Z) : option (TaskOutcome * list action) :=
  match fuel with
  | O => None
  | S fuel' =>
      if negb (attempts <? max_attempts node) then None
      else
        let attempts := attempts + 1 in
        let on_error reason message :=
          if max_attempts node <=? attempts
          then Some (node_failed job_id node attempts reason message)
          else
            match attempt_loop fuel' job_id node input_payload attempts with
            | Some (o, acts) => Some (o, node_retry node attempts ++ acts)
            | None => None
            end in
        match run_handler node attempts input_payload with
        | HandlerReturns output => Some (node_completed job_id node attempts output)
        | HandlerTimesOut =>
            on_error "TASK_TIMEOUT" ("Task '" +:+ node_id node +:+ "' timed out")
        | HandlerRaises message => on_error "TASK_EXECUTION_ERROR" message
        end
  end.

(** [_run_node] *)
Definition run_node (job_id : string) (node : TaskNode)
    (outcomes : list (string * TaskOutcome)) (base_payload : pydict)
    : option (TaskOutcome * list action) :=
  let input_payload := build_input_payload job_id node outcomes base_payload in
  let prologue :=
    [StartSpan "scheduler.run_node" [("node_id", PStr (node_id node))];
     Emit "scheduler.node_started" ("Node '" +:+ node_id node +:+ "' started")
       [("node_id", PStr (node_id node)); ("retry_limit", PInt (retry_limit node))] Info_;
     checkpoint job_id node CheckpointRunning 1 "" []] in
  match attempt_loop (Z.to_nat (max_attempts node)) job_id node input_payload 0 with
  | Some (o, acts) => Some (o, prologue ++ acts)
  | None => None
  end.

(** *** Cancelling what depends on a failed node *)

Definition downstream_of (g : TaskGraph) (failed_node_id : string)
    (cancelled : gset string) (id : string) : bool :=
  let deps := deps_of (nodes g) id in
  bool_decide (failed_node_id ∈ deps)
  || existsb (λ d, bool_decide (d ∈ cancelled)) deps.

Definition cancelled_outcome (id : string) : TaskOutcome :=
  mkTaskOutcome id Cancelled [] "UPSTREAM_FAILED" "" 1.

Definition cancelled_event (id failed_node_id : string) : action :=
  Emit "scheduler.node_cancelled" ("Node '" +:+ id +:+ "' cancelled due to upstream failure")
    [("node_id", PStr id); ("failed_upstream", PStr failed_node_id)] Warning_.

(** One iteration of [while changed]: [pending] is the enumeration
    [list(pending_ids)]; also returns the ids that stay pending. *)
Fixpoint cancel_pass (g : TaskGraph) (failed_node_id : string) (pending : list string)
    (cancelled : gset string) (outcomes : list (string * TaskOutcome))
    : gset string * list (string * TaskOutcome) * list string * list action :=
  match pending with
  | [] => (cancelled, outcomes, [], [])
  | id :: pending =>
      if downstream_of g failed_node_id cancelled id then
        let '(c, o, rest, acts) :=
          cancel_pass g failed_node_id pending ({[id]} ∪ cancelled)
            (od_set id (cancelled_outcome id) outcomes) in
        (c, o, rest, cancelled_event id failed_node_id :: acts)
      else
        let '(c, o, rest, acts) := cancel_pass g failed_node_id pending cancelled outcomes in
        (c, o, id :: rest, acts)
  end.

Fixpoint cancel_loop (fuel : nat) (g : TaskGraph) (failed_node_id : string)
    (pending : list string) (cancelled : gset string)
    (outcomes : list (string * TaskOutcome))
    : option (gset string * list (string * TaskOutcome) * list action) :=
  match fuel with
  | O => None
  | S fuel' =>
      let '(c, o, rest, acts) := cancel_pass g failed_node_id pending cancelled outcomes in
      if (length rest <? length pending)%nat then
        match cancel_loop fuel' g failed_node_id rest c o with
        | Some (c', o', acts') => Some (c', o', acts ++ acts')
        | None => None
        end
      else Some (c, o, acts)
  end.

Definition pending_ids (g : TaskGraph) (cancelled : gset string)
    (outcomes : list (string * TaskOutcome)) : list string :=
  filter (λ id, id ∉ od_keys outcomes ∧ id ∉ cancelled) (node_ids g).

(** [_mark_downstream_cancelled]; every changing pass removes a pending id, so
    one pass more than there are pending ids is enough. *)
Definition mark_downstream_cancelled (g : TaskGraph) (failed_node_id : string)
    (cancelled : gset string) (outcomes : list (string * TaskOutcome))
    : option (gset string * list (string * TaskOutcome) * list action) :=
  let pending := pending_ids g cancelled outcomes in
  cancel_loop (S (length pending)) g failed_node_id pending cancelled outcomes.

(** *** The main loop *)

(** The local variables of [execute]. *)
Record sched := mkSched {
  s_outcomes : list (string * TaskOutcome);
  s_completed : gset string;
  s_running : gset string;
  s_failed : gset string;
  s_cancelled : gset string;
}.

Definition start_running (s : sched) (ids : list string) : sched :=
  mkSched (s_outcomes s) (s_completed s) (list_to_set ids ∪ s_running s)
    (s_failed s) (s_cancelled s).

(** The body of [for outcome in wave_outcomes]. *)
Definition record_outcome (g : TaskGraph) (s : sched) (o : TaskOutcome)
    : option (sched * list action) :=
  let running := s_running s ∖ {[oc_node_id o]} in
  let outcomes := od_set (oc_node_id o) o (s_outcomes s) in
  match oc_status o with
  | Completed =>
      Some (mkSched outcomes ({[oc_node_id o]} ∪ s_completed s) running
              (s_failed s) (s_cancelled s), [])
  | Failed =>
      match mark_downstream_cancelled g (oc_node_id o) (s_cancelled s) outcomes with
      | Some (c, outcomes', acts) =>
          Some (mkSched outcomes' (s_completed s) running
                  ({[oc_node_id o]} ∪ s_failed s) c, acts)
      | None => None
      end
  | _ => Some (mkSched outcomes (s_completed s) running (s_failed s) (s_cancelled s), [])
  end.

Fixpoint record_outcomes (g : TaskGraph) (s : sched) (os : list TaskOutcome)
    : option (sched * list action) :=
  match os with
  | [] => Some (s, [])
  | o :: os =>
      match record_outcome g s o with
      | Some (s1, acts1) =>
          match record_outcomes g s1 os with
          | Some (s2, acts2) => Some (s2, acts1 ++ acts2)
          | None => None
          end
      | None => None
      end
  end.

(** [asyncio.gather] over one task per ready node: the outcomes in the order of
    the tasks, and each task's own actions. *)
Fixpoint run_wave (job_id : string) (ready : list TaskNode)
    (outcomes : list (string * TaskOutcome)) (base_payload : pydict)
    : option (list TaskOutcome * list (list action)) :=
  match ready with
  | [] => Some ([], [])
  | n :: ready =>
      match run_node job_id n outcomes base_payload,
            run_wave job_id ready outcomes base_payload with
      | Some (o, acts), Some (os, actss) => Some (o :: os, acts :: actss)
      | _, _ => None
      end
  end.

Definition ready_now (g : TaskGraph) (s : sched) : list TaskNode :=
  filter (λ n, node_id n ∉ s_cancelled s)
    (ready_nodes g (s_completed s) (s_running s) (s_failed s)).

(** One iteration of [while True]; [None] is [break]. *)
Definition wave (g : TaskGraph) (job_id : string) (base_payload : pydict) (s : sched)
    : option (option (sched * list action)) :=
  match ready_now g s with
  | [] => None
  | ready =>
      Some (
        let s := start_running s (node_id <$> ready) in
        match run_wave job_id ready (s_outcomes s) base_payload with
        | None => None
        | Some (os, actss) =>
            match record_outcomes g s os with
            | None => None
            | Some (s', acts) =>
                Some (s', concat actss ++ acts ++
                  set_queue_depth (Z.of_nat (length (node_ids g))
                                   - Z.of_nat (length (s_outcomes s'))))
            end
        end)
  end.

Fixpoint main_loop (fuel : nat) (g : TaskGraph) (job_id : string) (base_payload : pydict)
    (s : sched) : option (sched * list action) :=
  match fuel with
  | O => None
  | S fuel' =>
      match wave g job_id base_payload s with
      | None => Some (s, [])
      | Some None => None
      | Some (Some (s', acts)) =>
          match main_loop fuel' g job_id base_payload s' with
          | Some (s'', acts') => Some (s'', acts ++ acts')
          | None => None
          end
      end
  end.

(** Reading the checkpoints back when the job is resumed. *)
Definition resume_checkpoint (s : sched) (c : CheckpointRecord) : sched :=
  let outcome :=
    mkTaskOutcome (cp_node_id c) (task_status_from_checkpoint (cp_status c))
      (cp_payload c) (cp_reason_code c) "" (cp_attempt c) in
  let outcomes := od_set (cp_node_id c) outcome (s_outcomes s) in
  match cp_status c with
  | CheckpointCompleted =>
      mkSched outcomes ({[cp_node_id c]} ∪ s_completed s) (s_running s)
        (s_failed s) (s_cancelled s)
  | CheckpointFailed =>
      mkSched outcomes (s_completed s) (s_running s)
        ({[cp_node_id c]} ∪ s_failed s) (s_cancelled s)
  | _ => mkSched outcomes (s_completed s) (s_running s) (s_failed s) (s_cancelled s)
  end.

Definition initial_sched : sched := mkSched [] ∅ ∅ ∅ ∅.

Definition start_state (job_id : string) (store : InMemoryCheckpointStore.t)
    (resume : bool) : sched :=
  if resume then
    foldl resume_checkpoint initial_sched
      (InMemoryCheckpointStore.list_checkpoints store job_id "default")
  else initial_sched.

(** A wave moves a node out of the not-started ones, so one iteration more than
    there are nodes is enough. *)
Definition execute (job_id : string) (g : TaskGraph) (initial_payload : pydict)
    (resume : bool) (store : InMemoryCheckpointStore.t)
    : option (SchedulerResult * list action) :=
  let count := Z.of_nat (length (node_ids g)) in
  let prologue :=
    StartSpan "scheduler.execute" [("resume", PBool resume); ("node_count", PInt count)] ::
    Emit "scheduler.job_started" "Scheduler execution started"
      [("resume", PBool resume); ("node_count", PInt count)] Info_ ::
    set_queue_depth count in
  match main_loop (S (length (node_ids g))) g job_id initial_payload
          (start_state job_id store resume) with
  | None => None
  | Some (s, acts) =>
      let result := mkSchedulerResult job_id (s_outcomes s) in
      let failed := result_failed result in
      let outcomes := Z.of_nat (length (s_outcomes s)) in
      let epilogue :=
        [Emit "scheduler.job_completed" "Scheduler execution finished"
           [("failed", PBool failed); ("outcomes", PInt outcomes)]
           (if failed then Error_ else Info_);
         ObserveLatency;
         FinishSpan "scheduler.execute" (if failed then "error" else "ok")
           [("outcomes", PInt outcomes); ("failed", PBool failed)] ""] in
      Some (result, prologue ++ acts ++ epilogue)
  end.
End scheduler.

(** The checkpoint store after a list of actions. *)
Definition apply_action (store : InMemoryCheckpointStore.t) (a : action)
    : InMemoryCheckpointStore.t :=
  match a with
  | SaveCheckpoint c => InMemoryCheckpointStore.save_checkpoint store c
  | _ => store
  end.

Definition store_after (store : InMemoryCheckpointStore.t) (acts : list action)
    : InMemoryCheckpointStore.t :=
  foldl apply_action store acts.

(** The metrics object after a list of actions ([latency] is what the clock
    showed). *)
Definition metrics_action (latency : Z) (m : Metrics.RuntimeMetrics) (a : action)
    : Metrics.RuntimeMetrics :=
  match a with
  | IncMetric k => Metrics.inc m k 1
  | ObserveLatency => Metrics.observe_latency m latency
  | SetGauge k v => Metrics.set_gauge m k v
  | _ => m
  end.

(** The timeline after a list of actions of one job. *)
Definition timeline_action (job_id : string) (t : Timeline.RuntimeTimeline) (a : action)
    : Timeline.RuntimeTimeline :=
  match a with
  | Emit event _ context _ => Timeline.append t job_id event (Some context)
  | _ => t
  end.
