(* ===== verification/SchedulerFacts.v ===== *)
(** * Correctness of the scheduler

    The closure computed when a node fails, and the retry loop of one node.  The
    wave loop is in SchedulerRuns.v. *)

From S2P Require Import Prelude PyValue Observability Checkpoints TaskGraph Resilience Scheduler.

(** ** Cancellation closure *)

Section cancel.
Context (g : TaskGraph) (f : string).

Lemma downstream_of_true c id :
  downstream_of g f c id = true ↔
  f ∈ deps_of (nodes g) id ∨ ∃ d, d ∈ deps_of (nodes g) id ∧ d ∈ c.
Proof.
  unfold downstream_of. rewrite orb_true_iff, bool_decide_eq_true, existsb_exists.
  split; (intros [?|(d & H1 & H2)]; [by left|right; exists d]).
  - by rewrite bool_decide_eq_true, <- list_elem_of_In in *.
  - by rewrite bool_decide_eq_true, <- list_elem_of_In in *.
Qed.

(** What one pass, or the whole loop, does to the cancelled set and outcomes. *)
Record cancels (pending : list string) (c : gset string) (o : list (string * TaskOutcome))
    (c' : gset string) (o' : list (string * TaskOutcome)) (rest : list string) : Prop := {
  cs_grow : c ⊆ c';
  cs_within : ∀ x, x ∈ c' → x ∈ c ∨ x ∈ pending;
  cs_rest : ∀ x, x ∈ pending ↔ x ∈ rest ∨ (x ∈ c' ∧ x ∈ pending);
  cs_rest_out : ∀ x, x ∈ rest → x ∉ c';
  cs_rest_nodup : NoDup rest;
  cs_least : ∀ P : string → Prop,
    (∀ x, x ∈ c → P x) →
    (∀ x, f ∈ deps_of (nodes g) x → P x) →
    (∀ x d, d ∈ deps_of (nodes g) x → P d → P x) →
    ∀ x, x ∈ c' → P x;
  cs_outcomes : ∀ x,
    od_get x o' = if decide (x ∈ c' ∧ x ∉ c) then Some (cancelled_outcome x) else od_get x o;
}.

Lemma cancels_refl pending c o :
  NoDup pending → (∀ x, x ∈ pending → x ∉ c) → cancels pending c o c o pending.
Proof.
  intros Hnd Hdis. split.
  - done.
  - intros x ?. by left.
  - intros x. split; [by left|intros [?|[_ ?]]; done].
  - done.
  - done.
  - intros P H _ _. exact H.
  - intros x. by rewrite decide_False by naive_solver.
Qed.

Lemma cancels_trans p c o c1 o1 p1 c2 o2 p2 :
  cancels p c o c1 o1 p1 → cancels p1 c1 o1 c2 o2 p2 → cancels p c o c2 o2 p2.
Proof.
  intros [G1 W1 R1 O1 N1 L1 E1] [G2 W2 R2 O2 N2 L2 E2].
  assert (∀ x, x ∈ p1 → x ∈ p) as Hsub by (intros x; rewrite (R1 x); eauto).
  assert (∀ x, x ∈ c1 → x ∈ c2) as HG2 by (intros x; apply G2).
  assert (∀ x, x ∈ c → x ∈ c1) as HG1 by (intros x; apply G1).
  split; [by etrans| | |done|done| |].
  - intros x [Hx|Hx]%W2; [by apply W1|right; by apply Hsub].
  - intros x. split.
    + intros [Hx|[Hx Hp]]%R1; [|right; naive_solver].
      apply R2 in Hx as [?|[? ?]]; [by left|right; naive_solver].
    + intros [Hx|[_ ?]]; [|done]. apply Hsub, R2. by left.
  - intros P H1 H2 H3. apply L2; [by apply L1|done|done].
  - intros x. rewrite E2, E1. repeat case_decide; naive_solver.
Qed.

Lemma cancel_pass_spec pending c o c' o' rest acts :
  NoDup pending → (∀ x, x ∈ pending → x ∉ c) →
  cancel_pass g f pending c o = (c', o', rest, acts) →
  cancels pending c o c' o' rest ∧ (length rest ≤ length pending)%nat ∧
  (length rest = length pending →
    c' = c ∧ o' = o ∧ rest = pending ∧ ∀ x, x ∈ pending → downstream_of g f c x = false).
Proof.
  revert c o c' o' rest acts. induction pending as [|id pending IH]; intros c o c' o' rest acts;
    cbn [cancel_pass].
  { intros Hnd Hdis [= <- <- <- <-]. split; [by apply cancels_refl|]. split; [done|].
    intros _. split_and!; try done. by intros x ?%elem_of_nil. }
  intros [Hni Hnd]%NoDup_cons Hdis. destruct (downstream_of g f c id) eqn:Ed.
  - destruct (cancel_pass g f pending _ _) as [[[c1 o1] r1] a1] eqn:Ep.
    intros [= <- <- <- <-].
    assert (∀ x, x ∈ pending → x ∉ ({[id]} ∪ c : gset string)) as Hdis1.
    { intros x Hx. rewrite elem_of_union, elem_of_singleton. intros [->|Hc]; [done|].
      apply (Hdis x); [by apply list_elem_of_further|done]. }
    destruct (IH _ _ _ _ _ _ Hnd Hdis1 Ep) as ([G W R O N L E] & Hle & _).
    assert (id ∈ c1) as Hid by (apply G; set_solver).
    assert (id ∉ c) as Hidc by (apply Hdis, list_elem_of_here).
    split; [split|split; [cbn; lia|cbn; lia]].
    + set_solver.
    + intros x [[->%elem_of_singleton|?]%elem_of_union|?]%W;
        [right; apply list_elem_of_here|by left|right; by apply list_elem_of_further].
    + intros x. rewrite !elem_of_cons, (R x). naive_solver.
    + done.
    + done.
    + intros P H1 H2 H3. apply L; [|done|done].
      intros x [->%elem_of_singleton|?]%elem_of_union; [|by apply H1].
      apply downstream_of_true in Ed as [?|(d & ? & ?)]; [by apply H2|].
      eapply H3; [done|by apply H1].
    + intros x. rewrite E. destruct (decide (x = id)) as [->|Hne].
      * rewrite decide_False by set_solver. rewrite decide_True by done.
        by rewrite od_get_set.
      * rewrite od_get_set_ne by done. repeat case_decide; set_solver.
  - destruct (cancel_pass g f pending _ _) as [[[c1 o1] r1] a1] eqn:Ep.
    intros [= <- <- <- <-].
    assert (∀ x, x ∈ pending → x ∉ c) as Hdis1
      by (intros x Hx; apply Hdis; by apply list_elem_of_further).
    destruct (IH _ _ _ _ _ _ Hnd Hdis1 Ep) as ([G W R O N L E] & Hle & Hsame).
    assert (id ∉ c) as Hidc by (apply Hdis, list_elem_of_here).
    assert (id ∉ c1) as Hid1 by (intros [?|?]%W; done).
    assert (id ∉ r1) as Hidr by (intros Hr; apply Hni; apply R; by left).
    split; [split|split; [cbn; lia|]].
    + done.
    + intros x [?|?]%W; [by left|right; by apply list_elem_of_further].
    + intros x. rewrite !elem_of_cons, (R x). naive_solver.
    + intros x [->|Hx]%elem_of_cons; [done|by apply O].
    + by apply NoDup_cons.
    + done.
    + done.
    + cbn. intros Hl. destruct Hsame as (-> & -> & -> & Hd); [lia|].
      split_and!; try done. intros x [->|Hx]%elem_of_cons; [done|by apply Hd].
Qed.

Lemma cancel_loop_spec fuel pending c o :
  (length pending < fuel)%nat → NoDup pending → (∀ x, x ∈ pending → x ∉ c) →
  ∃ c' o' rest acts,
    cancel_loop fuel g f pending c o = Some (c', o', acts) ∧
    cancels pending c o c' o' rest ∧
    ∀ x, x ∈ rest → downstream_of g f c' x = false.
Proof.
  revert pending c o. induction fuel as [|fuel IH]; intros pending c o Hlt Hnd Hdis; [lia|].
  cbn [cancel_loop]. destruct (cancel_pass g f pending c o) as [[[c1 o1] r1] a1] eqn:Ep.
  destruct (cancel_pass_spec _ _ _ _ _ _ _ Hnd Hdis Ep) as (Hc & Hle & Hsame).
  destruct (Nat.ltb_spec (length r1) (length pending)).
  - destruct (IH r1 c1 o1) as (c' & o' & rest & acts & -> & Hc' & Hd);
      [lia|apply Hc|apply Hc|].
    exists c', o', rest, (a1 ++ acts). split; [done|]. split; [|done].
    by eapply cancels_trans.
  - destruct Hsame as (-> & -> & -> & Hd); [lia|]. eauto 10.
Qed.

Lemma pending_ids_spec c o x :
  x ∈ pending_ids g c o ↔ x ∈ node_ids g ∧ od_get x o = None ∧ x ∉ c.
Proof. unfold pending_ids. rewrite list_elem_of_filter, od_get_None. naive_solver. Qed.

(** [_mark_downstream_cancelled] returns, whatever the sets, with the least
    set of cancelled nodes closed under "depends on [f] or on a cancelled
    node" among the nodes without an outcome. *)
Lemma mark_downstream_spec c o :
  graph_wf g →
  ∃ c' o' acts,
    mark_downstream_cancelled g f c o = Some (c', o', acts) ∧
    c ⊆ c' ∧
    (∀ x, x ∈ c' → x ∈ c ∨ x ∈ pending_ids g c o) ∧
    (∀ x, x ∈ pending_ids g c o → x ∉ c' → downstream_of g f c' x = false) ∧
    (∀ P : string → Prop,
      (∀ x, x ∈ c → P x) →
      (∀ x, f ∈ deps_of (nodes g) x → P x) →
      (∀ x d, d ∈ deps_of (nodes g) x → P d → P x) →
      ∀ x, x ∈ c' → P x) ∧
    (∀ x, od_get x o' =
      if decide (x ∈ c' ∧ x ∉ c) then Some (cancelled_outcome x) else od_get x o).
Proof.
  intros Hwf. unfold mark_downstream_cancelled.
  destruct (cancel_loop_spec (S (length (pending_ids g c o))) (pending_ids g c o) c o)
    as (c' & o' & rest & acts & -> & [G W R O N L E] & Hd).
  - lia.
  - apply NoDup_filter, Hwf.
  - intros x Hx%pending_ids_spec. naive_solver.
  - exists c', o', acts. split_and!; try done.
    intros x Hx Hnc. apply Hd. apply R in Hx as [?|[? _]]; done.
Qed.
End cancel.

(** ** The retry loop *)

Definition sleeps (acts : list action) : list Z :=
  omap (λ a, match a with Sleep ms => Some ms | _ => None end) acts.

Definition saves (acts : list action) : list CheckpointRecord :=
  omap (λ a, match a with SaveCheckpoint c => Some c | _ => None end) acts.

Lemma sleeps_app a b : sleeps (a ++ b) = sleeps a ++ sleeps b.
Proof. apply omap_app. Qed.

Lemma saves_app a b : saves (a ++ b) = saves a ++ saves b.
Proof. apply omap_app. Qed.

Section retry.
Context (run_handler : TaskNode → Z → pydict → handler_result).
Context (policy : RetryPolicy.RetryPolicy).

Definition returns_nothing (node : TaskNode) (k : Z) (p : pydict) : Prop :=
  ∀ out, run_handler node k p ≠ HandlerReturns out.

Definition failure_reason (r : handler_result) : string :=
  match r with
  | HandlerTimesOut => "TASK_TIMEOUT"
  | HandlerRaises _ => "TASK_EXECUTION_ERROR"
  | HandlerReturns _ => ""
  end.

(** The outcome of attempts numbered from [a + 1] on. *)
Definition attempts_outcome (job : string) (node : TaskNode) (p : pydict) (a : Z)
    (o : TaskOutcome) : Prop :=
  oc_node_id o = node_id node ∧
  a < oc_attempts o ≤ max_attempts node ∧
  (∀ k, a < k < oc_attempts o → returns_nothing node k p) ∧
  ((oc_status o = Completed ∧
    run_handler node (oc_attempts o) p = HandlerReturns (oc_output o)) ∨
   (oc_status o = Failed ∧ oc_attempts o = max_attempts node ∧
    returns_nothing node (oc_attempts o) p ∧
    oc_reason_code o = failure_reason (run_handler node (oc_attempts o) p))).

(** The checkpoint an outcome leaves. *)
Definition final_checkpoint (job : string) (o : TaskOutcome) : CheckpointRecord :=
  mkCheckpoint job (oc_node_id o)
    (if decide (oc_status o = Completed) then CheckpointCompleted else CheckpointFailed)
    "default" (oc_attempts o) (oc_reason_code o) (oc_output o).

Lemma attempt_loop_spec fuel job node p a :
  Z.of_nat fuel = max_attempts node - a → a < max_attempts node →
  ∃ o acts,
    attempt_loop run_handler policy fuel job node p a = Some (o, acts) ∧
    attempts_outcome job node p a o ∧
    saves acts = [final_checkpoint job o] ∧
    sleeps acts = RetryPolicy.delay_ms policy <$> seqZ (a + 1) (oc_attempts o - a - 1).
Proof.
  revert a. induction fuel as [|fuel IH]; intros a Hf Ha; [lia|]. cbn [attempt_loop].
  destruct (Z.ltb_spec a (max_attempts node)) as [_|]; [|lia]. cbn [negb].
  pose (on_error reason message :=
    if max_attempts node <=? a + 1
    then Some (node_failed job node (a + 1) reason message)
    else match attempt_loop run_handler policy fuel job node p (a + 1) with
         | Some (o, acts) => Some (o, node_retry policy node (a + 1) ++ acts)
         | None => None
         end).
  assert (∀ reason message, returns_nothing node (a + 1) p →
    reason = failure_reason (run_handler node (a + 1) p) →
    ∃ o acts, on_error reason message = Some (o, acts) ∧
      attempts_outcome job node p a o ∧ saves acts = [final_checkpoint job o] ∧
      sleeps acts = RetryPolicy.delay_ms policy <$> seqZ (a + 1) (oc_attempts o - a - 1))
    as Herr.
  { intros reason message Hno Hr. unfold on_error.
    destruct (Z.leb_spec (max_attempts node) (a + 1)).
    - eexists _, _. split; [reflexivity|]. split; [|split; [done|]].
      + split_and!; cbn; [done|lia|lia|lia|]. right. split_and!; [done|lia|done|done].
      + cbn [oc_attempts node_failed]. by rewrite seqZ_nil by lia.
    - destruct (IH (a + 1)) as (o & acts & -> & (Hid & Hat & Hk & Hst) & Hsv & Hsl); [lia|lia|].
      eexists _, _. split; [reflexivity|]. split; [|split].
      + split_and!; [done|lia|lia| |done].
        intros k Hk'. destruct (decide (k = a + 1)) as [->|]; [done|]. apply Hk. lia.
      + by rewrite saves_app, Hsv.
      + rewrite sleeps_app, Hsl. cbn [sleeps omap list_omap node_retry app].
        rewrite (seqZ_cons (a + 1)) by lia. cbn. do 2 f_equal. f_equal; lia. }
  destruct (run_handler node (a + 1) p) as [out| |msg] eqn:Eh.
  - eexists _, _. split; [reflexivity|]. split; [|split; [done|]].
    + split_and!; cbn; [done|lia|lia|lia|]. by left.
    + cbn [oc_attempts node_completed]. by rewrite seqZ_nil by lia.
  - apply Herr; [|done]. intros out. by rewrite Eh.
  - apply Herr; [|done]. intros out. by rewrite Eh.
Qed.

Lemma run_node_spec job node outcomes base :
  let p := build_input_payload job node outcomes base in
  ∃ o acts,
    run_node run_handler policy job node outcomes base = Some (o, acts) ∧
    attempts_outcome job node p 0 o ∧
    saves acts =
      [mkCheckpoint job (node_id node) CheckpointRunning "default" 1 "" [];
       final_checkpoint job o] ∧
    sleeps acts = RetryPolicy.delay_ms policy <$> seqZ 1 (oc_attempts o - 1).
Proof.
  intros p. unfold run_node. fold p.
  destruct (attempt_loop_spec (Z.to_nat (max_attempts node)) job node p 0)
    as (o & acts & -> & Ho & Hsv & Hsl); [unfold max_attempts; lia..|].
  eexists _, _. split; [reflexivity|]. split; [done|]. split.
  - rewrite saves_app, Hsv. done.
  - rewrite sleeps_app, Hsl. cbn. f_equal. f_equal. lia.
Qed.
(** Running a node always yields an outcome: it completes on the first
    attempt whose handler returns, with that output, or fails after exactly
    max(1, retry_limit + 1) attempts with the reason of the last one; it sleeps
    the policy's delay between attempts, and its last checkpoint records the
    outcome after one that marks the node running. *)
Theorem run_node_outcome job node outcomes base :
  let p := build_input_payload job node outcomes base in
  ∃ o acts,
    run_node run_handler policy job node outcomes base = Some (o, acts) ∧
    attempts_outcome job node p 0 o ∧
    saves acts =
      [mkCheckpoint job (node_id node) CheckpointRunning "default" 1 "" [];
       final_checkpoint job o] ∧
    sleeps acts = RetryPolicy.delay_ms policy <$> seqZ 1 (oc_attempts o - 1).
Proof. exact (run_node_spec job node outcomes base). Qed.
End retry.
