(* ===== verification/SchedulerRuns.v ===== *)
(** * Runs of the scheduler

    Termination of the wave loop, the fate of every node of a fresh run, and what
    a resumed run keeps of the checkpoints it starts from. *)

From S2P Require Import Prelude PyValue Observability Checkpoints TaskGraph Resilience.
From S2P Require Import Scheduler SchedulerFacts.

(** ** The wave loop *)

Lemma cancel_pass_saves g f pending c o c' o' rest acts :
  cancel_pass g f pending c o = (c', o', rest, acts) → saves acts = [].
Proof.
  revert c o c' o' rest acts. induction pending as [|id pending IH]; intros c o c' o' rest acts; cbn.
  { by intros [= <- <- <- <-]. }
  destruct (downstream_of g f c id);
    destruct (cancel_pass g f pending _ _) as [[[c1 o1] r1] a1] eqn:E;
    intros [= <- <- <- <-]; cbn; by eapply IH.
Qed.

Lemma cancel_loop_saves fuel g f pending c o c' o' acts :
  cancel_loop fuel g f pending c o = Some (c', o', acts) → saves acts = [].
Proof.
  revert pending c o acts. induction fuel as [|fuel IH]; intros pending c o acts; cbn [cancel_loop]; [done|].
  destruct (cancel_pass g f pending c o) as [[[c1 o1] r1] a1] eqn:E.
  apply cancel_pass_saves in E.
  destruct (length r1 <? length pending)%nat; [|by intros [= <- <- <-]].
  destruct (cancel_loop fuel g f r1 c1 o1) as [[[c2 o2] a2]|] eqn:E2; [|done].
  intros [= <- <- <-]. rewrite saves_app, E. by eapply IH.
Qed.

Definition terminal (o : TaskOutcome) : Prop := oc_status o = Completed ∨ oc_status o = Failed.

(** What recording outcomes keeps, whatever state it starts from. *)
Record records (s s' : sched) (os : list TaskOutcome) : Prop := {
  rc_completed : s_completed s ⊆ s_completed s';
  rc_failed : s_failed s ⊆ s_failed s';
  rc_new : ∀ o, o ∈ os → oc_node_id o ∈ s_completed s' ∪ s_failed s';
  rc_within : ∀ x, x ∈ s_completed s' ∪ s_failed s' →
    x ∈ s_completed s ∪ s_failed s ∨ x ∈ oc_node_id <$> os;
  rc_keep : ∀ x, x ∉ oc_node_id <$> os → is_Some (od_get x (s_outcomes s)) →
    od_get x (s_outcomes s') = od_get x (s_outcomes s);
}.

Section waves.
Context (g : TaskGraph) (Hwf : graph_wf g).

Lemma record_outcome_records s o :
  terminal o →
  ∃ s' acts, record_outcome g s o = Some (s', acts) ∧ records s s' [o] ∧ saves acts = [].
Proof.
  intros Ht. unfold record_outcome. destruct (oc_status o) eqn:Es;
    try (by destruct Ht as [H|H]; rewrite H in Es).
  - eexists _, []. split; [reflexivity|]. split; [|done].
    split; cbn; [set_solver|set_solver| | |].
    + intros o' ->%list_elem_of_singleton. set_solver.
    + intros x. rewrite list_elem_of_singleton. set_solver.
    + intros x Hx _. rewrite list_elem_of_singleton in Hx. by rewrite od_get_set_ne.
  - destruct (mark_downstream_spec g (oc_node_id o) (s_cancelled s)
      (od_set (oc_node_id o) o (s_outcomes s)) Hwf)
      as (c' & o' & acts & E & Hc & Hin & _ & _ & Ho). rewrite E.
    eexists _, acts. split; [reflexivity|].
    split; [|unfold mark_downstream_cancelled in E; by eapply cancel_loop_saves].
    split; cbn; [set_solver|set_solver| | |].
    + intros o1 ->%list_elem_of_singleton. set_solver.
    + intros x. rewrite list_elem_of_singleton. set_solver.
    + intros x Hx Hs. rewrite list_elem_of_singleton in Hx.
      rewrite Ho, od_get_set_ne by done. rewrite decide_False; [done|].
      intros [Hx' Hnx]. destruct (Hin x Hx') as [?|(_ & Hn & _)%pending_ids_spec]; [done|].
      rewrite od_get_set_ne in Hn by done. rewrite Hn in Hs. by destruct Hs.
Qed.

Lemma records_trans s s1 s2 os1 os2 :
  records s s1 os1 → records s1 s2 os2 → records s s2 (os1 ++ os2).
Proof.
  intros [C1 F1 N1 W1 K1] [C2 F2 N2 W2 K2].
  split; [by etrans|by etrans| | |].
  - intros o [Ho|Ho]%elem_of_app; [|by apply N2].
    apply N1 in Ho. rewrite elem_of_union in *. destruct Ho; [left|right]; auto.
  - intros x [Hx|Hx]%W2; rewrite fmap_app, elem_of_app; [|auto].
    destruct (W1 x Hx); auto.
  - intros x. rewrite fmap_app, not_elem_of_app. intros [H1 H2] Hs.
    specialize (K1 x H1 Hs). rewrite <- K1 in Hs. by rewrite K2.
Qed.

Lemma record_outcomes_records s os :
  Forall terminal os →
  ∃ s' acts, record_outcomes g s os = Some (s', acts) ∧ records s s' os ∧ saves acts = [].
Proof.
  intros Hos. revert s. induction Hos as [|o os Ho _ IH]; intros s; cbn.
  { eexists s, []. split; [done|]. split; [|done].
    split; try done; [by intros o ?%elem_of_nil|by left]. }
  destruct (record_outcome_records s o Ho) as (s1 & a1 & -> & H1 & Hs1).
  destruct (IH s1) as (s2 & a2 & -> & H2 & Hs2).
  eexists s2, (a1 ++ a2). split; [done|].
  split; [by eapply (records_trans s s1 s2 [o] os)|by rewrite saves_app, Hs1, Hs2].
Qed.

Context (run_handler : TaskNode → Z → pydict → handler_result).
Context (policy : RetryPolicy.RetryPolicy) (job : string) (base : pydict).

Lemma run_wave_spec ready outcomes :
  ∃ os actss,
    run_wave run_handler policy job ready outcomes base = Some (os, actss) ∧
    oc_node_id <$> os = node_id <$> ready ∧ Forall terminal os ∧
    Forall2 (λ n o, attempts_outcome run_handler job n
                      (build_input_payload job n outcomes base) 0 o) ready os ∧
    Forall2 (λ n acts, ∀ c, c ∈ saves acts → cp_node_id c = node_id n) ready actss.
Proof.
  induction ready as [|n ready IH]; cbn; [by eexists [], []|].
  destruct (run_node_spec run_handler policy job n outcomes base)
    as (o & acts & -> & Ho & Hsv & _).
  destruct IH as (os & actss & -> & Hids & Ht & H2 & H3).
  eexists (o :: os), (acts :: actss). split; [done|].
  pose proof Ho as (Hid & _ & _ & Hst). split_and!.
  - cbn. by f_equal.
  - constructor; [|done]. destruct Hst as [[? _]|[? _]]; [by left|by right].
  - by constructor.
  - constructor; [|done]. rewrite Hsv. cbn.
    intros c [->|[->|?%elem_of_nil]%elem_of_cons]%elem_of_cons; done.
Qed.

Lemma ready_now_spec s n :
  n ∈ ready_now g s →
  od_get (node_id n) (nodes g) = Some n ∧
  node_id n ∉ s_completed s ∧ node_id n ∉ s_running s ∧ node_id n ∉ s_failed s ∧
  node_id n ∉ s_cancelled s ∧ ∀ d, d ∈ depends_on n → d ∈ s_completed s.
Proof.
  unfold ready_now, ready_nodes. rewrite !list_elem_of_filter.
  intros (Hx & Hr & Hin). unfold od_values in Hin.
  apply list_elem_of_fmap in Hin as ([k m] & -> & Hin). cbn in *.
  apply od_elem_get in Hin; [|apply Hwf].
  pose proof (proj1 (proj2 Hwf) _ _ Hin) as Hk. rewrite Hk in *.
  unfold is_ready in Hr. rewrite andb_true_iff, negb_true_iff, !orb_false_iff,
    !bool_decide_eq_false, forallb_forall in Hr. rewrite Hk in Hr.
  destruct Hr as (((? & ?) & ?) & Hd).
  split_and!; try done. intros d Hd'. by apply (bool_decide_eq_true_1 _), Hd, list_elem_of_In.
Qed.

Lemma ready_now_complete s x n :
  od_get x (nodes g) = Some n →
  x ∉ s_completed s → x ∉ s_running s → x ∉ s_failed s → x ∉ s_cancelled s →
  (∀ d, d ∈ depends_on n → d ∈ s_completed s) → n ∈ ready_now g s.
Proof.
  intros Hn H1 H2 H3 H4 Hd. pose proof (proj1 (proj2 Hwf) _ _ Hn) as <-.
  unfold ready_now, ready_nodes. rewrite !list_elem_of_filter. split_and!; [done| |].
  - unfold is_ready. rewrite !bool_decide_false by done. cbn.
    apply forallb_forall. intros d Hin%list_elem_of_In. by apply bool_decide_eq_true_2, Hd.
  - apply list_elem_of_fmap. exists (node_id n, n). split; [done|]. by apply od_get_elem.
Qed.

Lemma ready_now_nodup s : NoDup (node_id <$> ready_now g s).
Proof.
  unfold ready_now, ready_nodes. destruct Hwf as (Hnd & Hk & _).
  assert (NoDup (node_id <$> od_values (nodes g))) as H.
  { replace (node_id <$> od_values (nodes g)) with (od_keys (nodes g)); [done|].
    unfold od_keys, od_values. rewrite <- list_fmap_compose. apply list_fmap_ext.
    intros i [k n] Hi. cbn. symmetry. apply Hk, od_elem_get; [done|].
    by eapply list_elem_of_lookup_2. }
  revert H. generalize (od_values (nodes g)). clear. intros l Hl.
  eapply sublist_NoDup; [exact Hl|].
  apply (fmap_sublist node_id). etrans; apply sublist_filter.
Qed.
End waves.

(** ** Termination, from any state *)

Lemma saves_concat ready actss c :
  Forall2 (λ n acts, ∀ c, c ∈ saves acts → cp_node_id c = node_id n) ready actss →
  c ∈ saves (concat actss) → cp_node_id c ∈ node_id <$> ready.
Proof.
  induction 1 as [|m a l actss Hm _ IH]; cbn; [by intros ?%elem_of_nil|].
  rewrite saves_app, elem_of_app, elem_of_cons. intros [Hc|Hc]; [left; by apply Hm|right; auto].
Qed.

Section loop.
Context (g : TaskGraph) (Hwf : graph_wf g).
Context (run_handler : TaskNode → Z → pydict → handler_result).
Context (policy : RetryPolicy.RetryPolicy) (job : string) (base : pydict).

#[local] Notation wave := (wave run_handler policy g job base).
#[local] Notation main_loop := (main_loop run_handler policy).

(** The nodes neither completed nor failed. *)
Definition unfinished (s : sched) : list string :=
  filter (λ x, x ∉ s_completed s ∪ s_failed s) (node_ids g).

(** A wave either finds nothing ready or records a terminal outcome for each
    ready node. *)
Lemma wave_cases s :
  (ready_now g s = [] ∧ wave s = None) ∨
  ∃ os s' acts,
    ready_now g s ≠ [] ∧ wave s = Some (Some (s', acts)) ∧
    oc_node_id <$> os = node_id <$> ready_now g s ∧
    Forall terminal os ∧
    (∃ acts', record_outcomes g (start_running s (node_id <$> ready_now g s)) os
              = Some (s', acts')) ∧
    records (start_running s (node_id <$> ready_now g s)) s' os ∧
    (∀ c, c ∈ saves acts → cp_node_id c ∈ node_id <$> ready_now g s) ∧
    Forall2 (λ n o, attempts_outcome run_handler job n
      (build_input_payload job n (s_outcomes s) base) 0 o) (ready_now g s) os.
Proof.
  unfold Scheduler.wave. destruct (ready_now g s) as [|n ready] eqn:Er; [by left|right].
  destruct (run_wave_spec run_handler policy job base (n :: ready)
    (s_outcomes (start_running s (node_id <$> (n :: ready)))))
    as (os & actss & E & Hids & Ht & Hout & Hsv).
  destruct (record_outcomes_records g Hwf (start_running s (node_id <$> (n :: ready))) os Ht)
    as (s' & acts & E2 & Hrec & Hsv2).
  eexists os, s', _. split; [done|]. split; [by rewrite E, E2|].
  split_and!; try done; [by exists acts|].
  intros c. rewrite saves_app, saves_app, Hsv2, app_nil_r.
  by apply saves_concat.
Qed.

Lemma unfinished_decreases s s' os :
  ready_now g s ≠ [] →
  oc_node_id <$> os = node_id <$> ready_now g s →
  records (start_running s (node_id <$> ready_now g s)) s' os →
  (length (unfinished s') < length (unfinished s))%nat.
Proof.
  intros Hne Hids [C F N W K]. cbn in C, F. unfold unfinished.
  destruct (ready_now g s) as [|n ready] eqn:Er; [done|].
  assert (n ∈ ready_now g s) as Hn by (rewrite Er; apply list_elem_of_here).
  apply (ready_now_spec g Hwf) in Hn as (Hg & Hc & _ & Hf & _).
  destruct os as [|o os]; [done|]. injection Hids as Ho _.
  specialize (N o (list_elem_of_here _ _)). rewrite Ho in N.
  assert (node_id n ∈ node_ids g) as Hin by (apply od_get_Some_key; eauto).
  clear -C F N Hc Hf Hin. revert Hin. generalize (node_ids g) as l. intros l.
  assert (∀ l : list string, length (filter (λ x, x ∉ s_completed s' ∪ s_failed s') l)
    ≤ length (filter (λ x, x ∉ s_completed s ∪ s_failed s) l))%nat as Hle.
  { intros k. induction k as [|x k IH]; [done|]. rewrite !filter_cons.
    repeat case_decide; cbn; try lia. set_solver. }
  induction l as [|x l IH]; [by intros ?%elem_of_nil|].
  rewrite !filter_cons. intros [<-|Hx]%elem_of_cons.
  - rewrite decide_False by naive_solver. rewrite decide_True by set_solver.
    cbn. specialize (Hle l). lia.
  - specialize (IH Hx). repeat case_decide; cbn; try lia. set_solver.
Qed.

(** The loop ends, with nothing left to start; finished nodes keep their
    outcome and are never run again; whatever every wave preserves holds. *)
Lemma main_loop_spec (I : sched → Prop) fuel s :
  (∀ s s' acts, I s → wave s = Some (Some (s', acts)) → I s') →
  I s →
  (length (unfinished s) < fuel)%nat →
  ∃ s' acts,
    main_loop fuel g job base s = Some (s', acts) ∧
    I s' ∧ ready_now g s' = [] ∧
    s_completed s ⊆ s_completed s' ∧ s_failed s ⊆ s_failed s' ∧
    (∀ x, x ∈ s_completed s ∪ s_failed s → is_Some (od_get x (s_outcomes s)) →
       od_get x (s_outcomes s') = od_get x (s_outcomes s)) ∧
    (∀ c, c ∈ saves acts → cp_node_id c ∉ s_completed s ∪ s_failed s).
Proof.
  intros HI. revert s. induction fuel as [|fuel IH]; intros s Hs Hlt; [lia|].
  cbn [Scheduler.main_loop].
  destruct (wave_cases s) as [[Hr E]|(os & s1 & a1 & Hne & E & Hids & Ht & _ & Hrec & Hsv & _)];
    rewrite E.
  { eexists s, []. split_and!; try done. by intros c ?%elem_of_nil. }
  pose proof (unfinished_decreases s s1 os Hne Hids Hrec) as Hdec.
  pose proof (HI _ _ _ Hs E) as Hs1.
  destruct (IH s1 Hs1 ltac:(lia)) as (s' & a' & -> & Hi & Hr & Hc & Hf & Hk & Hsv').
  eexists s', (a1 ++ a'). split; [done|].
  destruct Hrec as [C F N W K]. cbn in C, F, K.
  assert (∀ x, x ∈ s_completed s ∪ s_failed s → x ∉ node_id <$> ready_now g s) as Hnot.
  { intros x Hx (n & -> & Hn)%list_elem_of_fmap.
    apply (ready_now_spec g Hwf) in Hn as (_ & ? & _ & ? & _). set_solver. }
  split_and!; try done; [by etrans|by etrans| |].
  - intros x Hx Hsome. rewrite Hids in K. specialize (K x (Hnot x Hx) Hsome).
    rewrite <- K. apply Hk; [|by rewrite K]. rewrite elem_of_union in *.
    destruct Hx; [left; by apply C|right; by apply F].
  - intros c. rewrite saves_app, elem_of_app. intros [Hc'|Hc'] Hin.
    + by apply (Hnot _ Hin), Hsv.
    + apply (Hsv' c Hc'). rewrite elem_of_union in *.
      destruct Hin; [left; by apply C|right; by apply F].
Qed.

(** More fuel does not change the result. *)
Lemma main_loop_fuel_le n m s r :
  (n ≤ m)%nat → main_loop n g job base s = Some r → main_loop m g job base s = Some r.
Proof.
  revert m s r. induction n as [|n IH]; intros m s r Hle; [done|].
  destruct m as [|m]; [lia|]. cbn [Scheduler.main_loop].
  destruct (wave s) as [[[s1 a1]|]|]; [|done..].
  destruct (main_loop n g job base s1) as [[s2 a2]|] eqn:E; [|done].
  by rewrite (IH m s1 _ ltac:(lia) E).
Qed.

Lemma main_loop_fuel n m s r r' :
  main_loop n g job base s = Some r → main_loop m g job base s = Some r' → r = r'.
Proof.
  intros E E'. destruct (Nat.le_ge_cases n m) as [Hle|Hle];
    pose proof (main_loop_fuel_le _ _ _ _ Hle ltac:(done)); congruence.
Qed.

Lemma unfinished_fuel s : (length (unfinished s) < S (length (node_ids g)))%nat.
Proof.
  unfold unfinished. pose proof (length_filter (λ x, x ∉ s_completed s ∪ s_failed s) (node_ids g)).
  lia.
Qed.
End loop.

(** ** The invariant of a fresh run *)

Section fresh.
Context (g : TaskGraph) (Hwf : graph_wf g).

#[local] Notation deps := (deps_of (nodes g)).

(** [W]: the nodes of the current wave whose outcomes are not yet recorded. *)
Record inv (W : list string) (s : sched) : Prop := {
  i_running : s_running s = list_to_set W;
  i_dom : ∀ x, is_Some (od_get x (s_outcomes s)) ↔
    x ∈ s_completed s ∨ x ∈ s_failed s ∨ x ∈ s_cancelled s;
  i_status : ∀ x o, od_get x (s_outcomes s) = Some o →
    oc_node_id o = x ∧
    ((oc_status o = Completed ∧ x ∈ s_completed s ∧ x ∉ s_failed s ∧ x ∉ s_cancelled s) ∨
     (oc_status o = Failed ∧ x ∉ s_completed s ∧ x ∈ s_failed s ∧ x ∉ s_cancelled s) ∨
     (oc_status o = Cancelled ∧ x ∉ s_completed s ∧ x ∉ s_failed s ∧ x ∈ s_cancelled s));
  i_nodes : ∀ x, is_Some (od_get x (s_outcomes s)) → x ∈ node_ids g;
  i_wave : ∀ x, x ∈ W → x ∈ node_ids g ∧ od_get x (s_outcomes s) = None;
  i_deps : ∀ x, x ∈ W ∨ x ∈ s_completed s ∨ x ∈ s_failed s →
    ∀ d, d ∈ deps x → d ∈ s_completed s;
  i_cancel_sound : ∀ x, x ∈ s_cancelled s → ∃ f, f ∈ s_failed s ∧ tc (edge (nodes g)) x f;
  i_cancel_closed : ∀ x d, x ∈ node_ids g → d ∈ deps x →
    d ∈ s_failed s ∨ d ∈ s_cancelled s → x ∈ s_cancelled s;
}.

(** A node is in exactly one of the three sets, according to its outcome. *)
Lemma inv_none W s x :
  inv W s → od_get x (s_outcomes s) = None →
  x ∉ s_completed s ∧ x ∉ s_failed s ∧ x ∉ s_cancelled s.
Proof.
  intros Hi Hn. assert (¬ is_Some (od_get x (s_outcomes s))) as H by (by rewrite Hn; intros [? [=]]).
  rewrite (i_dom _ _ Hi) in H. naive_solver.
Qed.

Lemma inv_completed W s x :
  inv W s → x ∈ s_completed s → x ∉ s_failed s ∧ x ∉ s_cancelled s ∧ x ∈ node_ids g.
Proof.
  intros Hi Hx. destruct (proj2 (i_dom _ _ Hi x)) as [o Ho]; [by left|].
  destruct (i_status _ _ Hi _ _ Ho) as (_ & Hs).
  split_and!; [naive_solver|naive_solver|apply (i_nodes _ _ Hi); eauto].
Qed.

Lemma inv_initial : inv [] initial_sched.
Proof.
  split; cbn.
  - done.
  - intros x. split; [by intros [? [=]]|set_solver].
  - done.
  - intros x. by intros [? [=]].
  - by intros x ?%elem_of_nil.
  - intros x Hx. exfalso. revert Hx. rewrite elem_of_nil. set_solver.
  - set_solver.
  - set_solver.
Qed.

Lemma inv_record_completed w W s o s' acts :
  NoDup (w :: W) → inv (w :: W) s → oc_node_id o = w → oc_status o = Completed →
  record_outcome g s o = Some (s', acts) → inv W s'.
Proof.
  intros [Hni _]%NoDup_cons Hi Hw Hst. unfold record_outcome. rewrite Hst, Hw.
  intros [= <- _]. destruct (i_wave _ _ Hi w) as [Hwn Hwo]; [apply list_elem_of_here|].
  destruct (inv_none _ _ _ Hi Hwo) as (Hwc & Hwf' & Hwx).
  split; cbn.
  - rewrite (i_running _ _ Hi). cbn. apply set_eq. intros x.
    rewrite elem_of_difference, elem_of_union, !elem_of_singleton, elem_of_list_to_set. set_solver.
  - intros x. destruct (decide (x = w)) as [->|Hne].
    + rewrite od_get_set. set_solver.
    + rewrite od_get_set_ne by done. rewrite (i_dom _ _ Hi x). set_solver.
  - intros x o'. destruct (decide (x = w)) as [->|Hne].
    + rewrite od_get_set. intros [= <-]. split; [done|]. left. set_solver.
    + rewrite od_get_set_ne by done. intros H%(i_status _ _ Hi). set_solver.
  - intros x. destruct (decide (x = w)) as [->|Hne]; [done|].
    rewrite od_get_set_ne by done. apply (i_nodes _ _ Hi).
  - intros x Hx. rewrite od_get_set_ne by (intros ->; done).
    apply (i_wave _ _ Hi). by apply list_elem_of_further.
  - intros x Hx d Hd. apply elem_of_union_r.
    apply (i_deps _ _ Hi x); [|done]. rewrite elem_of_cons. set_solver.
  - apply (i_cancel_sound _ _ Hi).
  - apply (i_cancel_closed _ _ Hi).
Qed.

Lemma inv_record_failed w W s o s' acts :
  NoDup (w :: W) → inv (w :: W) s → oc_node_id o = w → oc_status o = Failed →
  record_outcome g s o = Some (s', acts) → inv W s'.
Proof.
  intros [Hni _]%NoDup_cons Hi Hw Hst. unfold record_outcome. rewrite Hst, Hw.
  destruct (mark_downstream_spec g w (s_cancelled s) (od_set w o (s_outcomes s)) Hwf)
    as (c' & o' & a' & -> & Hgrow & Hin & Hclosed & Hleast & Ho).
  intros [= <- _]. destruct (i_wave _ _ Hi w) as [Hwn Hwo]; [apply list_elem_of_here|].
  destruct (inv_none _ _ _ Hi Hwo) as (Hwc & Hwf' & Hwx).
  assert (∀ x, x ∈ w :: W ∨ x ∈ s_completed s ∨ x ∈ s_failed s → x ∉ c') as Hapart.
  { intros x Hx Hxc. revert Hx.
    apply (Hleast (λ x, ¬ (x ∈ w :: W ∨ x ∈ s_completed s ∨ x ∈ s_failed s))); [| | |done].
    - intros y Hy [Hc|[Hc|Hc]].
      + destruct (i_wave _ _ Hi y Hc) as [_ Hn]. by apply (inv_none _ _ _ Hi) in Hn as (_ & _ & ?).
      + by apply (inv_completed _ _ _ Hi) in Hc as (_ & ? & _).
      + assert (is_Some (od_get y (s_outcomes s))) as [oy Hoy] by (apply (i_dom _ _ Hi); auto).
        apply (i_status _ _ Hi) in Hoy as [_ H]. naive_solver.
    - intros y Hd Hy. by apply Hwc, (i_deps _ _ Hi y).
    - intros y d Hd Hnd Hy. apply Hnd. right. left. by apply (i_deps _ _ Hi y). }
  assert (w ∉ c') as Hwc' by (apply Hapart; left; apply list_elem_of_here).
  assert (∀ x, x ∈ c' → x ∉ s_cancelled s → x ∈ node_ids g) as Hnode.
  { intros x Hx Hnx. by destruct (Hin x Hx) as [?|[? _]%pending_ids_spec]. }
  split; cbn.
  - rewrite (i_running _ _ Hi). cbn. apply set_eq. intros x.
    rewrite elem_of_difference, elem_of_union, !elem_of_singleton, elem_of_list_to_set. set_solver.
  - intros x. rewrite Ho. destruct (decide (x ∈ c' ∧ x ∉ s_cancelled s)) as [[? ?]|Hn].
    + split; [|eauto]. auto.
    + destruct (decide (x = w)) as [->|Hne]; [rewrite od_get_set; set_solver|].
      rewrite od_get_set_ne by done. rewrite (i_dom _ _ Hi x). clear -Hn Hgrow Hne.
      destruct (decide (x ∈ s_cancelled s)); set_solver.
  - intros x ox. rewrite Ho. destruct (decide (x ∈ c' ∧ x ∉ s_cancelled s)) as [[Hx Hnx]|Hn].
    + intros [= <-]. split; [done|]. right; right. split; [done|].
      assert (x ≠ w) by (intros ->; done).
      pose proof (Hapart x) as Hax. rewrite elem_of_cons in Hax. set_solver.
    + destruct (decide (x = w)) as [->|Hne].
      * rewrite od_get_set. intros [= <-]. split; [done|]. right; left. set_solver.
      * rewrite od_get_set_ne by done. intros Hox.
        destruct (i_status _ _ Hi _ _ Hox) as [Hid Hcase]. split; [done|].
        pose proof (Hapart x) as Hax. rewrite elem_of_cons in Hax.
        pose proof (Hgrow x) as Hgx. rewrite elem_of_union, elem_of_singleton. naive_solver.
  - intros x. rewrite Ho. destruct (decide (x ∈ c' ∧ x ∉ s_cancelled s)) as [[Hx Hnx]|Hn].
    + intros _. by apply Hnode.
    + destruct (decide (x = w)) as [->|Hne]; [done|].
      rewrite od_get_set_ne by done. apply (i_nodes _ _ Hi).
  - intros x Hx. destruct (i_wave _ _ Hi x) as [? Hnone]; [by apply list_elem_of_further|].
    split; [done|]. rewrite Ho, decide_False.
    + rewrite od_get_set_ne; [done|]. by intros ->.
    + intros [Hxc _]. apply (Hapart x); [left; by apply list_elem_of_further|done].
  - intros x Hx d Hd. apply (i_deps _ _ Hi x); [|done].
    rewrite elem_of_cons. set_solver.
  - intros x. apply (Hleast (λ x, ∃ f, f ∈ {[w]} ∪ s_failed s ∧ tc (edge (nodes g)) x f)).
    + intros y (f & ? & ?)%(i_cancel_sound _ _ Hi). exists f. set_solver.
    + intros y Hy. exists w. split; [set_solver|]. by apply tc_once, edge_deps_of.
    + intros y d Hd (f & ? & ?). exists f. split; [done|].
      eapply tc_l; [|done]. by apply edge_deps_of.
  - intros x d Hx Hd Hcase. destruct (decide (x ∈ c')) as [|Hnx]; [done|exfalso].
    destruct (decide (x ∈ pending_ids g (s_cancelled s) (od_set w o (s_outcomes s)))) as [Hp|Hp].
    + pose proof (Hclosed x Hp Hnx) as Hds. apply not_true_iff_false in Hds.
      rewrite downstream_of_true in Hds. apply Hnx.
      assert (d ∈ s_failed s) as Hdf.
      { rewrite elem_of_union, elem_of_singleton in Hcase. naive_solver. }
      apply Hgrow, (i_cancel_closed _ _ Hi x d); auto.
    + rewrite pending_ids_spec in Hp.
      assert (x ∉ s_cancelled s) as Hnx' by (intros ?; by apply Hnx, Hgrow).
      assert (x ∈ w :: W ∨ x ∈ s_completed s ∨ x ∈ s_failed s) as Hfin.
      { destruct (decide (x = w)) as [->|Hne]; [left; apply list_elem_of_here|right].
        rewrite od_get_set_ne in Hp by done.
        destruct (od_get x (s_outcomes s)) eqn:Ex; [|naive_solver].
        assert (is_Some (od_get x (s_outcomes s))) as H by eauto.
        rewrite (i_dom _ _ Hi) in H. naive_solver. }
      pose proof (i_deps _ _ Hi x Hfin d Hd) as Hdc.
      destruct (inv_completed _ _ _ Hi Hdc) as (? & ? & _).
      rewrite elem_of_union, elem_of_singleton in Hcase.
      destruct Hcase as [[->|?]|Hdx]; [done|done|]. apply (Hapart d); auto.
Qed.

Lemma inv_records W s os s' acts :
  NoDup W → inv W s → oc_node_id <$> os = W → Forall terminal os →
  record_outcomes g s os = Some (s', acts) → inv [] s'.
Proof.
  intros Hnd Hi <- Ht. revert s acts Hnd Hi. induction Ht as [|o os Ho _ IH]; intros s acts Hnd Hi; cbn.
  { by intros [= <- _]. }
  destruct (record_outcome g s o) as [[s1 a1]|] eqn:E1; [|done].
  destruct (record_outcomes g s1 os) as [[s2 a2]|] eqn:E2; [|done].
  intros [= <- _]. eapply IH; [by apply NoDup_cons in Hnd as [_ ?]| |exact E2].
  destruct Ho as [Ho|Ho]; [by eapply inv_record_completed|by eapply inv_record_failed].
Qed.

(** Starting a wave. *)
Lemma inv_start s :
  inv [] s → inv (node_id <$> ready_now g s) (start_running s (node_id <$> ready_now g s)).
Proof.
  intros Hi.
  assert (∀ x, x ∈ node_id <$> ready_now g s → ∃ n, x = node_id n ∧
    od_get x (nodes g) = Some n ∧ od_get x (s_outcomes s) = None ∧
    ∀ d, d ∈ deps x → d ∈ s_completed s) as Hr.
  { intros x (n & -> & Hn)%list_elem_of_fmap. exists n.
    apply (ready_now_spec g Hwf) in Hn as (Hg & Hc & _ & Hf & Hx & Hd).
    split_and!; [done|done| |by unfold deps_of; rewrite Hg].
    destruct (od_get (node_id n) (s_outcomes s)) eqn:E; [|done].
    assert (is_Some (od_get (node_id n) (s_outcomes s))) as H by eauto.
    apply (i_dom _ _ Hi) in H. naive_solver. }
  split; cbn [start_running s_outcomes s_completed s_running s_failed s_cancelled].
  - rewrite (i_running _ _ Hi). set_solver.
  - apply (i_dom _ _ Hi).
  - apply (i_status _ _ Hi).
  - apply (i_nodes _ _ Hi).
  - intros x (n & -> & Hg & Ho & _)%Hr. split; [|done]. apply od_get_Some_key; eauto.
  - intros x [(n & -> & _ & _ & Hd)%Hr|Hx] d Hdx; [by apply Hd|].
    apply (i_deps _ _ Hi x); [by right|done].
  - apply (i_cancel_sound _ _ Hi).
  - apply (i_cancel_closed _ _ Hi).
Qed.

(** When nothing can be started any more, every node has an outcome. *)
Lemma inv_finished s x :
  inv [] s → ready_now g s = [] → x ∈ node_ids g → is_Some (od_get x (s_outcomes s)).
Proof.
  intros Hi Hr. pose proof (acyclic_grounded (nodes g) (proj1 (proj2 (proj2 Hwf))) x (proj2 (proj2 (proj2 Hwf)))) as Hacc.
  induction Hacc as [x _ IH]. intros Hx. rewrite (i_dom _ _ Hi).
  destruct (decide (x ∈ s_completed s)) as [|Hc]; [by left|].
  destruct (decide (x ∈ s_failed s)) as [|Hf]; [by right; left|].
  destruct (decide (x ∈ s_cancelled s)) as [|Hcan]; [by right; right|exfalso].
  apply od_get_Some_key in Hx as Hn. destruct Hn as [n Hn].
  assert (n ∈ ready_now g s) as Hin; [|rewrite Hr in Hin; by apply elem_of_nil in Hin].
  apply (ready_now_complete g Hwf s x n Hn Hc); [|done|done|].
  { rewrite (i_running _ _ Hi). set_solver. }
  intros d Hd.
  assert (edge (nodes g) x d) as He by (by exists n).
  assert (d ∈ node_ids g) as Hdn by (by eapply (proj1 (proj2 (proj2 Hwf)))).
  apply (IH d He), (i_dom _ _ Hi) in Hdn as [?|Hd']; [done|]. exfalso. apply Hcan.
  apply (i_cancel_closed _ _ Hi x d); [done|by apply edge_deps_of|done].
Qed.
End fresh.

(** ** Properties of [execute] *)

Section runs.
Context (run_handler : TaskNode → Z → pydict → handler_result).
Context (policy : RetryPolicy.RetryPolicy).

#[local] Notation execute := (execute run_handler policy).

Lemma saves_app_nil acts rest : saves rest = [] → saves (acts ++ rest) = saves acts.
Proof. intros E. by rewrite saves_app, E, app_nil_r. Qed.

(** [execute] is its main loop, whose checkpoints are the ones it writes. *)
Lemma execute_main_loop job g base resume store s acts :
  main_loop run_handler policy (S (length (node_ids g))) g job base
    (start_state job store resume) = Some (s, acts) →
  ∃ acts', execute job g base resume store = Some (mkSchedulerResult job (s_outcomes s), acts') ∧
           saves acts' = saves acts.
Proof.
  intros E. unfold Scheduler.execute. rewrite E. eexists. split; [reflexivity|].
  cbn. by rewrite saves_app_nil.
Qed.

(** C2: A fresh run over a valid graph terminates and gives every node of the
    graph, and nothing else, one outcome: a node is cancelled exactly when it
    depends, directly or through others, on a node that failed; a node that was
    run had all its dependencies completed before it. *)
Theorem fresh_run_outcomes job g base store :
  graph_wf g →
  ∃ r acts,
    execute job g base false store = Some (r, acts) ∧
    (∀ x, x ∈ node_ids g ↔ is_Some (od_get x (sr_outcomes r))) ∧
    (∀ x o, od_get x (sr_outcomes r) = Some o →
      oc_node_id o = x ∧
      (oc_status o = Completed ∨ oc_status o = Failed ∨ oc_status o = Cancelled) ∧
      (oc_status o = Cancelled ↔
         ∃ f fo, od_get f (sr_outcomes r) = Some fo ∧ oc_status fo = Failed ∧
                 tc (edge (nodes g)) x f) ∧
      (oc_status o ≠ Cancelled → ∀ d, edge (nodes g) x d →
         ∃ od, od_get d (sr_outcomes r) = Some od ∧ oc_status od = Completed)).
Proof.
  intros Hwf.
  destruct (main_loop_spec g Hwf run_handler policy job base (inv g [])
    (S (length (node_ids g))) initial_sched) as (s & acts & E & Hi & Hr & _).
  { intros s s' acts Hi Hw.
    destruct (wave_cases g Hwf run_handler policy job base s)
      as [[_ E]|(os & s1 & a1 & _ & E & Hids & Ht & [a2 E2] & _)]; rewrite E in Hw; [done|].
    injection Hw as <- <-.
    eapply (inv_records g Hwf); [apply (ready_now_nodup g Hwf)|by apply inv_start|done|done|exact E2]. }
  { by apply inv_initial. }
  { apply unfinished_fuel. }
  destruct (execute_main_loop job g base false store s acts E) as (acts' & Ex & _).
  exists (mkSchedulerResult job (s_outcomes s)), acts'. split; [done|]. cbn.
  assert (∀ x st, (∃ o, od_get x (s_outcomes s) = Some o ∧ oc_status o = st) →
    (st = Completed → x ∈ s_completed s) ∧ (st = Failed → x ∈ s_failed s) ∧
    (st = Cancelled → x ∈ s_cancelled s)) as Hin.
  { intros x st (o & [_ Ho]%(i_status _ _ _ Hi) & <-). split_and!; intros E'; rewrite E' in Ho; naive_solver. }
  assert (∀ x, x ∈ s_completed s ∨ x ∈ s_failed s ∨ x ∈ s_cancelled s →
    ∃ o, od_get x (s_outcomes s) = Some o ∧ (x ∈ s_completed s → oc_status o = Completed) ∧
         (x ∈ s_failed s → oc_status o = Failed) ∧ (x ∈ s_cancelled s → oc_status o = Cancelled))
    as Hout.
  { intros x Hx. apply (i_dom _ _ _ Hi) in Hx as [o Ho]. exists o. split; [done|].
    apply (i_status _ _ _ Hi) in Ho as [_ Ho]. naive_solver. }
  split.
  { intros x. split; [by apply (inv_finished g Hwf)|apply (i_nodes _ _ _ Hi)]. }
  intros x o Ho. pose proof (i_status _ _ _ Hi _ _ Ho) as [Hid Hst].
  split; [done|]. split; [naive_solver|]. split.
  - split.
    + intros Hcan. assert (x ∈ s_cancelled s) as Hx by naive_solver.
      apply (i_cancel_sound _ _ _ Hi) in Hx as (f & Hf & Htc).
      destruct (Hout f) as (fo & Hfo & _ & Hff & _); [auto|]. exists f, fo. auto.
    + intros (f & fo & Hfo & Hff & Htc).
      assert (f ∈ s_failed s) as Hf by (eapply (Hin f Failed); eauto).
      assert (x ∈ s_cancelled s) as Hx; [|by naive_solver].
      clear -Htc Hf Hi. induction Htc as [y z He|y z w He _ IH].
      * apply (i_cancel_closed _ _ _ Hi y z); [by apply od_get_Some_key; destruct He as (n & ? & _); exists n|by apply edge_deps_of|auto].
      * apply (i_cancel_closed _ _ _ Hi y z); [by apply od_get_Some_key; destruct He as (n & ? & _); exists n|by apply edge_deps_of|auto].
  - intros Hnc d Hd%edge_deps_of.
    assert (d ∈ s_completed s) as Hdc by (apply (i_deps _ _ _ Hi x); [naive_solver|done]).
    destruct (Hout d) as (od & Hod & Hc & _); [auto|]. exists od. auto.
Qed.

(** *** Resuming *)

Definition checkpoint_outcome (c : CheckpointRecord) : TaskOutcome :=
  mkTaskOutcome (cp_node_id c) (task_status_from_checkpoint (cp_status c))
    (cp_payload c) (cp_reason_code c) "" (cp_attempt c).

Lemma resume_checkpoint_sets s c x :
  (x ∈ s_completed (resume_checkpoint s c) ↔
     x ∈ s_completed s ∨ x = cp_node_id c ∧ cp_status c = CheckpointCompleted) ∧
  (x ∈ s_failed (resume_checkpoint s c) ↔
     x ∈ s_failed s ∨ x = cp_node_id c ∧ cp_status c = CheckpointFailed) ∧
  s_outcomes (resume_checkpoint s c) =
    od_set (cp_node_id c) (checkpoint_outcome c) (s_outcomes s).
Proof.
  unfold resume_checkpoint, checkpoint_outcome. destruct (cp_status c); cbn; (split_and!; [| |done]);
    rewrite ?elem_of_union, ?elem_of_singleton; naive_solver.
Qed.

Lemma resume_checkpoints_spec l s :
  NoDup (cp_node_id <$> l) →
  (∀ x, x ∉ cp_node_id <$> l →
     od_get x (s_outcomes (foldl resume_checkpoint s l)) = od_get x (s_outcomes s)) ∧
  (∀ x, x ∈ s_completed s → x ∈ s_completed (foldl resume_checkpoint s l)) ∧
  (∀ x, x ∈ s_failed s → x ∈ s_failed (foldl resume_checkpoint s l)) ∧
  (∀ c, c ∈ l →
     od_get (cp_node_id c) (s_outcomes (foldl resume_checkpoint s l))
       = Some (checkpoint_outcome c) ∧
     (cp_status c = CheckpointCompleted →
        cp_node_id c ∈ s_completed (foldl resume_checkpoint s l)) ∧
     (cp_status c = CheckpointFailed →
        cp_node_id c ∈ s_failed (foldl resume_checkpoint s l))).
Proof.
  revert s. induction l as [|c l IH]; intros s Hnd; cbn [foldl].
  { split_and!; [done..|]. by intros c ?%elem_of_nil. }
  rewrite fmap_cons in *. apply NoDup_cons in Hnd as [Hni Hnd].
  destruct (IH (resume_checkpoint s c) Hnd) as (Ho & Hc & Hf & Hl).
  pose proof (resume_checkpoint_sets s c) as Hs.
  split_and!.
  - intros x [Hne Hx]%not_elem_of_cons. rewrite (Ho x Hx).
    rewrite (proj2 (proj2 (Hs x))). by rewrite od_get_set_ne.
  - intros x Hx. apply Hc, Hs. by left.
  - intros x Hx. apply Hf, Hs. by left.
  - intros c' [->|Hin]%elem_of_cons; [|by apply Hl]. split_and!.
    + rewrite (Ho _ Hni), (proj2 (proj2 (Hs ""))). by rewrite od_get_set.
    + intros E. apply Hc, Hs. by right.
    + intros E. apply Hf, Hs. by right.
Qed.

Lemma list_checkpoints_nodup store job tenant :
  InMemoryCheckpointStore.wf store →
  NoDup (cp_node_id <$> InMemoryCheckpointStore.list_checkpoints store job tenant).
Proof.
  intros Hwf. unfold InMemoryCheckpointStore.list_checkpoints.
  destruct (od_get (tenant, job) store) as [recs|] eqn:E; cbn [default from_option]; [|apply NoDup_nil_2].
  destruct (Hwf _ _ _ E) as [Hnd Hk].
  replace (cp_node_id <$> od_values recs) with (od_keys recs); [exact Hnd|].
  unfold od_keys, od_values. rewrite <- list_fmap_compose. apply list_fmap_ext.
  intros i [n c] Hi. cbn. symmetry. eapply (Hk n c), od_elem_get; [done|].
  by eapply list_elem_of_lookup_2.
Qed.

Lemma result_failed_true job x o outcomes :
  od_get x outcomes = Some o → oc_status o = Failed →
  result_failed (mkSchedulerResult job outcomes) = true.
Proof.
  intros Ho Hs. unfold result_failed. apply existsb_exists. exists o.
  split; [|by apply bool_decide_eq_true_2]. apply list_elem_of_In.
  apply list_elem_of_fmap. exists (x, o). split; [done|]. by apply od_get_elem.
Qed.

(** A resumed run terminates, keeps the recorded outcome of every node
    whose checkpoint is completed or failed, and writes no checkpoint for such a
    node, so it is not run again: resuming a job that has a failed checkpoint
    reports the job failed again without retrying the node. *)
Theorem resume_keeps_finished job g base store x c :
  graph_wf g →
  InMemoryCheckpointStore.wf store →
  InMemoryCheckpointStore.get_checkpoint store job x "default" = Some c →
  cp_node_id c = x →
  cp_status c = CheckpointCompleted ∨ cp_status c = CheckpointFailed →
  ∃ r acts,
    execute job g base true store = Some (r, acts) ∧
    od_get x (sr_outcomes r) = Some (checkpoint_outcome c) ∧
    (∀ c', c' ∈ saves acts → cp_node_id c' ≠ x) ∧
    (cp_status c = CheckpointFailed → result_failed r = true).
Proof.
  intros Hwf Hst Hget Hid Hcase.
  destruct (main_loop_spec g Hwf run_handler policy job base (λ _, True)
    (S (length (node_ids g))) (start_state job store true))
    as (s & acts & E & _ & _ & _ & _ & Hk & Hsv); [done|done|apply unfinished_fuel|].
  destruct (execute_main_loop job g base true store s acts E) as (acts' & Ex & Hsa).
  assert (c ∈ InMemoryCheckpointStore.list_checkpoints store job "default") as Hin.
  { apply InMemoryCheckpointStore.elem_of_list_checkpoints; [done|]. by rewrite Hid. }
  destruct (resume_checkpoints_spec _ initial_sched (list_checkpoints_nodup store job "default" Hst))
    as (_ & _ & _ & Hl).
  destruct (Hl c Hin) as (Ho & Hc & Hf). rewrite Hid in *.
  assert (x ∈ s_completed (start_state job store true) ∪ s_failed (start_state job store true))
    as Hx by (rewrite elem_of_union; naive_solver).
  assert (od_get x (s_outcomes s) = Some (checkpoint_outcome c)) as Hox.
  { rewrite (Hk x Hx); [exact Ho|]. eexists. exact Ho. }
  exists (mkSchedulerResult job (s_outcomes s)), acts'. split; [done|]. split; [done|]. split.
  - intros c' Hc' <-. rewrite Hsa in Hc'. by apply (Hsv c' Hc').
  - intros Hcf. eapply result_failed_true; [done|]. cbn. by rewrite Hcf.
Qed.
(** *** Termination *)

Lemma record_outcomes_running g s os s' acts :
  record_outcomes g s os = Some (s', acts) →
  s_running s' = s_running s ∖ list_to_set (oc_node_id <$> os).
Proof.
  revert s acts. induction os as [|o os IH]; intros s acts; cbn [record_outcomes].
  { intros [= <- <-]. cbn. set_solver. }
  destruct (record_outcome g s o) as [[s1 a1]|] eqn:E; [|done].
  destruct (record_outcomes g s1 os) as [[s2 a2]|] eqn:E2; [|done].
  intros [= <- <-]. rewrite (IH _ _ E2).
  assert (s_running s1 = s_running s ∖ {[oc_node_id o]}) as ->.
  { revert E. unfold record_outcome. repeat case_match; intros; by simplify_eq. }
  cbn. set_solver.
Qed.

Lemma start_state_running job store resume : s_running (start_state job store resume) = ∅.
Proof.
  unfold start_state. destruct resume; [|done].
  assert (∀ l s, s_running s = ∅ → s_running (foldl resume_checkpoint s l) = ∅) as H.
  { induction l as [|c l IH]; intros s Hs; [done|]. cbn. apply IH.
    unfold resume_checkpoint. by destruct (cp_status c). }
  by apply H.
Qed.

(** C37: Over a valid graph a run ends, fresh or resumed, whatever checkpoints it finds and
    whatever the handlers do: as many waves as the graph has nodes are enough.  It ends
    with nothing running and nothing left to start: a node that is neither completed nor
    failed nor cancelled waits for a dependency that is not completed. *)
Theorem execute_terminates job g base resume store :
  graph_wf g →
  ∃ s r acts,
    execute job g base resume store = Some (r, acts) ∧ sr_outcomes r = s_outcomes s ∧
    (∀ n, (length (node_ids g) < n)%nat → ∃ acts',
       main_loop run_handler policy n g job base (start_state job store resume)
       = Some (s, acts')) ∧
    s_running s = ∅ ∧
    ∀ x node, od_get x (nodes g) = Some node →
      x ∉ s_completed s → x ∉ s_failed s → x ∉ s_cancelled s →
      ∃ d, d ∈ depends_on node ∧ d ∉ s_completed s.
Proof.
  intros Hwf. set (I s := s_running s = ∅).
  assert (∀ s s' acts, I s → wave run_handler policy g job base s = Some (Some (s', acts)) → I s')
    as Hstep.
  { unfold I. intros s s' acts Hi Hw.
    destruct (wave_cases g Hwf run_handler policy job base s)
      as [[_ E]|(os & s1 & a1 & _ & E & Hids & _ & [a2 E2] & _)]; rewrite E in Hw; [done|].
    injection Hw as <- <-. rewrite (record_outcomes_running _ _ _ _ _ E2), Hids. cbn.
    rewrite Hi. set_solver. }
  assert (∀ n, (length (node_ids g) < n)%nat → ∃ s acts,
    main_loop run_handler policy n g job base (start_state job store resume) = Some (s, acts) ∧
    I s ∧ ready_now g s = []) as Hrun.
  { intros n Hn. destruct (main_loop_spec g Hwf run_handler policy job base I n
      (start_state job store resume) Hstep) as (s & acts & E & Hi & Hr & _);
      [apply start_state_running| |by eauto].
    pose proof (unfinished_fuel g (start_state job store resume)). lia. }
  destruct (Hrun (S (length (node_ids g)))) as (s & acts & E & Hi & Hr); [lia|].
  destruct (execute_main_loop job g base resume store s acts E) as (acts' & Ex & _).
  eexists s, _, acts'. split; [exact Ex|]. split; [done|]. split; [|split; [exact Hi|]].
  - intros n Hn. destruct (Hrun n Hn) as (s' & a' & E' & _).
    exists a'. assert ((s, acts) = (s', a')) as [= -> _]; [by eapply main_loop_fuel|done].
  - intros x node Hx Hc Hf Hca.
    destruct (decide (Exists (λ d, d ∉ s_completed s) (depends_on node))) as [He|He];
      [by apply Exists_exists|].
    exfalso. assert (node ∈ ready_now g s) as Hin; [|by rewrite Hr in Hin; apply elem_of_nil in Hin].
    eapply ready_now_complete; try done; [by rewrite Hi|].
    intros d Hd. destruct (decide (d ∈ s_completed s)) as [|Hn]; [done|].
    destruct He. apply Exists_exists. by exists d.
Qed.
End runs.

(** ** A concrete job *)

Definition demo_node (id : string) (deps : list string) : TaskNode :=
  mkTaskNode id deps 1 1000 [].

Definition demo_nodes : list TaskNode :=
  [demo_node "a" []; demo_node "b" ["a"]; demo_node "c" ["b"]; demo_node "d" []].

Definition demo_graph : TaskGraph := mkTaskGraph (node_pairs demo_nodes).

(** "a" always times out; the others return at once. *)
Definition demo_handler (n : TaskNode) (attempt : Z) (p : pydict) : handler_result :=
  if node_id n =?s "a" then HandlerTimesOut else HandlerReturns [("ok", PBool true)].

Definition demo_policy : RetryPolicy.RetryPolicy := RetryPolicy.mkRetryPolicy 10 100.

Lemma demo_graph_wf : graph_wf demo_graph.
Proof. apply (make_graph_wf demo_nodes). vm_compute. reflexivity. Qed.

Lemma fresh_run_outcomes_witness :
  ∃ r acts,
    execute demo_handler demo_policy "job" demo_graph [] false [] = Some (r, acts) ∧
    (oc_status <$> od_get "c" (sr_outcomes r)) = Some Cancelled ∧
    (∀ x, x ∈ ["a"; "b"; "c"; "d"] ↔ is_Some (od_get x (sr_outcomes r))).
Proof.
  destruct (fresh_run_outcomes demo_handler demo_policy "job" demo_graph [] []
    demo_graph_wf) as (r & acts & E & Hk & _).
  exists r, acts. split; [exact E|]. split; [|exact Hk].
  vm_compute in E. injection E as <- _. reflexivity.
Defined.

Lemma execute_terminates_witness :
  ∃ s r acts,
    execute demo_handler demo_policy "job" demo_graph [] true
      (InMemoryCheckpointStore.save_checkpoint InMemoryCheckpointStore.empty
         (mkCheckpoint "job" "d" CheckpointFailed "default" 2 "TASK_TIMEOUT" []))
    = Some (r, acts) ∧ sr_outcomes r = s_outcomes s ∧ s_running s = ∅.
Proof.
  destruct (execute_terminates demo_handler demo_policy "job" demo_graph [] true
    (InMemoryCheckpointStore.save_checkpoint InMemoryCheckpointStore.empty
       (mkCheckpoint "job" "d" CheckpointFailed "default" 2 "TASK_TIMEOUT" [])) demo_graph_wf)
    as (s & r & acts & E & Ho & _ & Hr & _).
  by exists s, r, acts.
Defined.

Definition demo_store : list ((string * string) * list (string * CheckpointRecord)) :=
  InMemoryCheckpointStore.save_checkpoint InMemoryCheckpointStore.empty
    (mkCheckpoint "job" "a" CheckpointFailed "default" 2 "TASK_TIMEOUT" []).

Lemma resume_keeps_finished_witness :
  ∃ r acts,
    execute demo_handler demo_policy "job" demo_graph [] true demo_store = Some (r, acts) ∧
    (oc_status <$> od_get "a" (sr_outcomes r)) = Some Failed ∧
    (∀ c', c' ∈ saves acts → cp_node_id c' ≠ "a") ∧ result_failed r = true.
Proof.
  destruct (resume_keeps_finished demo_handler demo_policy "job" demo_graph [] demo_store "a"
    (mkCheckpoint "job" "a" CheckpointFailed "default" 2 "TASK_TIMEOUT" []))
    as (r & acts & E & Ho & Hs & Hf).
  - apply demo_graph_wf.
  - apply InMemoryCheckpointStore.wf_save, InMemoryCheckpointStore.wf_empty.
  - reflexivity.
  - reflexivity.
  - right. reflexivity.
  - exists r, acts. split_and!; [exact E|by rewrite Ho|exact Hs|by apply Hf].
Defined.
