(* ===== verification/RunControl.v ===== *)
(** * Run control registries

    Models src/core/run_control_registry.py: the in-memory registry of run
    lifecycles and the SQLite one.  [_utc_now()] is the argument [now] (a string,
    compared as Python and SQLite compare strings); every operation holds the
    registry's lock, so it is one step. *)

From S2P Require Import Prelude PyValue.

(** [_TERMINAL_STATUSES] *)
Definition terminal_statuses : list string := ["completed"; "errored"; "cancelled"].

Definition is_terminal (status : string) : bool := bool_decide (status ∈ terminal_statuses).

Definition is_active (status : string) : bool :=
  bool_decide (status ∈ ["running"; "cancel_requested"]).

Record RunControlRecord := mkRun {
  rn_tenant_id : string;
  rn_session_id : string;
  rn_run_id : string;
  rn_correlation_id : string;
  rn_transport : string;
  rn_status : string;
  rn_call_ids : gset string;
  rn_cancel_requested : bool;
  rn_cancel_reason : string;
  rn_started_at_utc : string;
  rn_updated_at_utc : string;
  rn_finished_at_utc : string;
  rn_terminal_event : string;
  rn_terminal_message : string;
}.


(** The dictionary both registries show for a run. *)
Definition run_dict (tenant session run correlation transport status : string)
    (call_ids : list string) (cancel_requested : bool)
    (cancel_reason started updated finished event message : string) : pydict :=
  [("tenant_id", PStr tenant); ("session_id", PStr session); ("run_id", PStr run);
   ("correlation_id", PStr correlation); ("transport", PStr transport); ("status", PStr status);
   ("call_ids", PList (PStr <$> call_ids)); ("cancel_requested", PBool cancel_requested);
   ("cancel_reason", PStr cancel_reason); ("started_at_utc", PStr started);
   ("updated_at_utc", PStr updated); ("finished_at_utc", PStr finished);
   ("terminal_event", PStr event); ("terminal_message", PStr message)].

Definition to_dict (r : RunControlRecord) : pydict :=
  run_dict (rn_tenant_id r) (rn_session_id r) (rn_run_id r) (rn_correlation_id r)
    (rn_transport r) (rn_status r) (sorted_strings (elements (rn_call_ids r)))
    (rn_cancel_requested r) (rn_cancel_reason r) (rn_started_at_utc r) (rn_updated_at_utc r)
    (rn_finished_at_utc r) (rn_terminal_event r) (rn_terminal_message r).

(** [max(1, min(int(limit), 500))] *)
Definition bounded_limit (limit : Z) : Z := Z.max 1 (Z.min limit 500).

(** ** The in-memory registry *)
Module RunControlRegistry.

Record t := mkRegistry {
  records : list ((string * string) * RunControlRecord);
  max_terminal_records_per_tenant : Z;
}.

Definition init (cap : Z) : t := mkRegistry [] (Z.max 0 cap).

Definition with_records (s : t) (recs : list ((string * string) * RunControlRecord)) : t :=
  mkRegistry recs (max_terminal_records_per_tenant s).

Definition terminal_of (tenant_id : string) (r : RunControlRecord) : bool :=
  (rn_tenant_id r =?s tenant_id) && is_terminal (rn_status r).

(** [(r.finished_at_utc or r.started_at_utc, r.run_id)] *)
Definition prune_key (r : RunControlRecord) : string * string :=
  (py_or (rn_finished_at_utc r) (rn_started_at_utc r), rn_run_id r).

Definition prune_le (r1 r2 : RunControlRecord) : Prop :=
  lex_le String.le String.le (prune_key r1) (prune_key r2).

#[global] Instance prune_le_dec : RelDecision prune_le.
Proof. intros r1 r2. unfold prune_le. apply _. Defined.

#[global] Instance prune_le_trans : Transitive prune_le.
Proof. intros r1 r2 r3. unfold prune_le. apply transitivity. Qed.

#[global] Instance prune_le_total : Total prune_le.
Proof. intros r1 r2. unfold prune_le. apply total, _. Qed.

(** [_prune_memory_terminals_unlocked] *)
Definition prune_terminals (s : t) (tenant_id : string) : t :=
  let cap := max_terminal_records_per_tenant s in
  if cap <=? 0 then s
  else
    let matching := filter (λ r, terminal_of tenant_id r = true) (od_values (records s)) in
    let overflow := Z.of_nat (length matching) - cap in
    if overflow <=? 0 then s
    else
      let doomed := take (Z.to_nat overflow) (sort_by prune_le matching) in
      with_records s
        (od_pop_all ((λ r, (rn_tenant_id r, rn_run_id r)) <$> doomed) (records s)).

(** The record's two timestamps are read from the clock one after the other. *)
Definition start_run (s : t) (now1 now2 tenant_id session_id run_id correlation_id transport : string)
    : RunControlRecord * t :=
  let record :=
    mkRun tenant_id session_id run_id (py_or correlation_id run_id) transport "running" ∅
      false "" now1 now2 "" "" "" in
  (record, with_records s (od_set (tenant_id, run_id) record (records s))).

Definition record_tool_call (s : t) (now tenant_id run_id call_id : string) : bool * t :=
  let normalized := py_strip call_id in
  if negb (py_bool normalized) then (false, s)
  else
    match od_get (tenant_id, run_id) (records s) with
    | None => (false, s)
    | Some r =>
        (true, with_records s (od_set (tenant_id, run_id)
           (mkRun (rn_tenant_id r) (rn_session_id r) (rn_run_id r) (rn_correlation_id r)
              (rn_transport r) (rn_status r) ({[normalized]} ∪ rn_call_ids r)
              (rn_cancel_requested r) (rn_cancel_reason r) (rn_started_at_utc r) now
              (rn_finished_at_utc r) (rn_terminal_event r) (rn_terminal_message r))
           (records s)))
    end.

Definition mark_terminal (s : t) (now tenant_id run_id status terminal_event terminal_message : string)
    : bool * t :=
  match od_get (tenant_id, run_id) (records s) with
  | None => (false, s)
  | Some r =>
      let s' := with_records s (od_set (tenant_id, run_id)
        (mkRun (rn_tenant_id r) (rn_session_id r) (rn_run_id r) (rn_correlation_id r)
           (rn_transport r) status (rn_call_ids r) (rn_cancel_requested r) (rn_cancel_reason r)
           (rn_started_at_utc r) now now terminal_event terminal_message) (records s)) in
      (true, prune_terminals s' tenant_id)
  end.

Definition request_cancel (s : t) (now tenant_id run_id reason : string) : bool * t :=
  match od_get (tenant_id, run_id) (records s) with
  | None => (false, s)
  | Some r =>
      let status := if negb (is_terminal (rn_status r)) then "cancel_requested" else rn_status r in
      (true, with_records s (od_set (tenant_id, run_id)
        (mkRun (rn_tenant_id r) (rn_session_id r) (rn_run_id r) (rn_correlation_id r)
           (rn_transport r) status (rn_call_ids r) true reason (rn_started_at_utc r) now
           (rn_finished_at_utc r) (rn_terminal_event r) (rn_terminal_message r)) (records s)))
  end.

Definition get_run (s : t) (tenant_id run_id : string) : option pydict :=
  to_dict <$> od_get (tenant_id, run_id) (records s).

(** [sort(key=updated, reverse=True)] is stable: equal keys keep their order. *)
Definition newer (r1 r2 : RunControlRecord) : Prop :=
  String.le (rn_updated_at_utc r2) (rn_updated_at_utc r1).

#[global] Instance newer_dec : RelDecision newer.
Proof. intros r1 r2. unfold newer. apply _. Defined.

Definition list_runs (s : t) (tenant_id : string) (limit : Z) : list pydict :=
  let recs := filter (λ r, rn_tenant_id r = tenant_id) (od_values (records s)) in
  to_dict <$> take (Z.to_nat (bounded_limit limit)) (sort_by newer recs).

Definition call_ids_for_run (s : t) (tenant_id run_id : string) : list string :=
  match od_get (tenant_id, run_id) (records s) with
  | None => []
  | Some r => sorted_strings (elements (rn_call_ids r))
  end.

Definition count_active_runs (s : t) (tenant_id : string) : Z :=
  count_if (λ r, (rn_tenant_id r =?s tenant_id) && is_active (rn_status r))
    (od_values (records s)).

(** Every record is stored under its own tenant and run. *)
Definition wf (s : t) : Prop :=
  od_wf (records s) ∧
  ∀ k r, od_get k (records s) = Some r → k = (rn_tenant_id r, rn_run_id r).

End RunControlRegistry.

(** ** The SQLite registry

    A table is the list of its rows in rowid order. *)
Module SQLiteRunControlRegistry.

(** A row of [run_control] without its primary key; [rw_call_ids_json] is the
    decoded JSON of the column. *)
Record row := mkRow {
  rw_session_id : string;
  rw_correlation_id : string;
  rw_transport : string;
  rw_status : string;
  rw_call_ids_json : pyval;
  rw_cancel_requested : Z;
  rw_cancel_reason : string;
  rw_started_at_utc : string;
  rw_updated_at_utc : string;
  rw_finished_at_utc : string;
  rw_terminal_event : string;
  rw_terminal_message : string;
}.

(** [run_control_tool_calls], primary key (tenant_id, run_id, call_id). *)
Record call_row := mkCall { cl_key : string * string; cl_call_id : string; cl_created : string }.

Record t := mkRegistry {
  run_control : list ((string * string) * row);
  tool_calls : list call_row;
  max_terminal_records_per_tenant : Z;
}.

Definition init (cap : Z) : t := mkRegistry [] [] (Z.max 0 cap).

Section with_sqlite.
(** How Python renders a float; SQLite's [datetime()]; the order in which
    SQLite visits rows a query leaves unordered. *)
Variable float_repr : Q → string.
Variable sqlite_datetime : string → string.
Variable scan : list ((string * string) * row) → list ((string * string) * row).

(** [INSERT OR REPLACE] deletes a row with the same primary key and inserts
    the new one. *)
Definition start_run (s : t) (now tenant_id session_id run_id correlation_id transport : string)
    : RunControlRecord * t :=
  let record :=
    mkRun tenant_id session_id run_id (py_or correlation_id run_id) transport "running" ∅
      false "" now now "" "" "" in
  (record,
   mkRegistry
     (od_pop (rn_tenant_id record, rn_run_id record) (run_control s) ++
      [((rn_tenant_id record, rn_run_id record),
        mkRow (rn_session_id record) (rn_correlation_id record) (rn_transport record) (rn_status record)
          (PList []) 0 "" (rn_started_at_utc record) (rn_updated_at_utc record) "" "" "")])
     (tool_calls s) (max_terminal_records_per_tenant s)).

Definition call_ids_of (s : t) (k : string * string) : list string :=
  cl_call_id <$> filter (λ c, cl_key c = k) (tool_calls s).

(** The ids of a row that has no rows in [run_control_tool_calls]. *)
Definition legacy_ids (r : row) : list string :=
  match as_list (rw_call_ids_json r) with
  | Some l => py_str float_repr <$> l
  | None => []
  end.

Definition row_to_dict (k : string * string) (r : row) (call_ids : list string) : pydict :=
  run_dict k.1 (rw_session_id r) k.2 (rw_correlation_id r) (rw_transport r) (rw_status r)
    (sorted_strings call_ids) (negb (rw_cancel_requested r =? 0)) (rw_cancel_reason r)
    (rw_started_at_utc r) (rw_updated_at_utc r) (rw_finished_at_utc r)
    (rw_terminal_event r) (rw_terminal_message r).

Definition record_tool_call (s : t) (now tenant_id run_id call_id : string) : bool * t :=
  let normalized := py_strip call_id in
  let k := (tenant_id, run_id) in
  if negb (py_bool normalized) then (false, s)
  else
    match od_get k (run_control s) with
    | None => (false, s)
    | Some r =>
        let calls :=
          if bool_decide (normalized ∈ call_ids_of s k) then tool_calls s
          else tool_calls s ++ [mkCall k normalized now] in
        (true, mkRegistry
           (od_set k
              (mkRow (rw_session_id r) (rw_correlation_id r) (rw_transport r) (rw_status r)
                 (rw_call_ids_json r) (rw_cancel_requested r) (rw_cancel_reason r)
                 (rw_started_at_utc r) now (rw_finished_at_utc r) (rw_terminal_event r)
                 (rw_terminal_message r)) (run_control s))
           calls (max_terminal_records_per_tenant s))
    end.

Definition terminal_row (tenant_id : string) (p : (string * string) * row) : bool :=
  (p.1.1 =?s tenant_id) && is_terminal (rw_status p.2).

(** [ORDER BY datetime(finished_at_utc), started_at_utc, run_id] *)
Definition prune_le (p q : (string * string) * row) : Prop :=
  lex_le String.le (lex_le String.le String.le)
    (sqlite_datetime (rw_finished_at_utc p.2), (rw_started_at_utc p.2, p.1.2))
    (sqlite_datetime (rw_finished_at_utc q.2), (rw_started_at_utc q.2, q.1.2)).

#[local] Instance prune_le_dec : RelDecision prune_le.
Proof. intros p q. unfold prune_le. apply _. Defined.

(** The two DELETE statements. *)
Definition delete_run (s : t) (k : string * string) : t :=
  mkRegistry (od_pop k (run_control s)) (filter (λ c, cl_key c ≠ k) (tool_calls s))
    (max_terminal_records_per_tenant s).

(** [_prune_sqlite_terminals] *)
Definition prune_terminals (s : t) (tenant_id : string) : t :=
  let cap := max_terminal_records_per_tenant s in
  if cap <=? 0 then s
  else
    let matching := filter (λ p, terminal_row tenant_id p = true) (scan (run_control s)) in
    let overflow := Z.of_nat (length matching) - cap in
    if overflow <=? 0 then s
    else foldl (λ s p, delete_run s (tenant_id, p.1.2)) s
           (take (Z.to_nat overflow) (sort_by prune_le matching)).

Definition mark_terminal (s : t) (now tenant_id run_id status terminal_event terminal_message : string)
    : bool * t :=
  match od_get (tenant_id, run_id) (run_control s) with
  | None => (false, s)
  | Some r =>
      let s' := mkRegistry (od_set (tenant_id, run_id)
        (mkRow (rw_session_id r) (rw_correlation_id r) (rw_transport r) status
           (rw_call_ids_json r) (rw_cancel_requested r) (rw_cancel_reason r)
           (rw_started_at_utc r) now now terminal_event terminal_message) (run_control s))
        (tool_calls s) (max_terminal_records_per_tenant s) in
      (true, prune_terminals s' tenant_id)
  end.

Definition request_cancel (s : t) (now tenant_id run_id reason : string) : bool * t :=
  match od_get (tenant_id, run_id) (run_control s) with
  | None => (false, s)
  | Some r =>
      let new_status := if is_terminal (rw_status r) then rw_status r else "cancel_requested" in
      (true, mkRegistry (od_set (tenant_id, run_id)
        (mkRow (rw_session_id r) (rw_correlation_id r) (rw_transport r) new_status
           (rw_call_ids_json r) 1 reason (rw_started_at_utc r) now (rw_finished_at_utc r)
           (rw_terminal_event r) (rw_terminal_message r)) (run_control s))
        (tool_calls s) (max_terminal_records_per_tenant s))
  end.

(** The ids shown with a row. *)
Definition shown_ids (s : t) (k : string * string) (r : row) : list string :=
  match call_ids_of s k with
  | [] => legacy_ids r
  | ids => ids
  end.

Definition get_run (s : t) (tenant_id run_id : string) : option pydict :=
  let k := (tenant_id, run_id) in
  (λ r, row_to_dict k r (shown_ids s k r)) <$> od_get k (run_control s).

Definition newer (p q : (string * string) * row) : Prop :=
  String.le (rw_updated_at_utc q.2) (rw_updated_at_utc p.2).

#[global] Instance newer_dec : RelDecision newer.
Proof. intros p q. unfold newer. apply _. Defined.

Definition list_runs (s : t) (tenant_id : string) (limit : Z) : list pydict :=
  let rows := filter (λ p, p.1.1 = tenant_id) (scan (run_control s)) in
  (λ p, row_to_dict p.1 p.2 (shown_ids s p.1 p.2)) <$>
    take (Z.to_nat (bounded_limit limit)) (sort_by newer rows).

Definition call_ids_for_run (s : t) (tenant_id run_id : string) : list string :=
  let k := (tenant_id, run_id) in
  match call_ids_of s k with
  | [] =>
      match od_get k (run_control s) with
      | None => []
      | Some r => sorted_strings (legacy_ids r)
      end
  | ids => ids
  end.

Definition count_active_runs (s : t) (tenant_id : string) : Z :=
  count_if (λ p, (p.1.1 =?s tenant_id) && is_active (rw_status p.2)) (run_control s).
End with_sqlite.

End SQLiteRunControlRegistry.

(** ** Pruning finished runs *)
Module PruneFacts.
Import RunControlRegistry.

Lemma prune_wf s t : wf s → wf (prune_terminals s t).
Proof.
  intros [Hnd Hk]. unfold prune_terminals.
  destruct (_ <=? 0); [done|]. destruct (_ <=? 0); [done|].
  set (doomed := take _ _). cbn.
  split; cbn [records with_records].
  - by apply od_wf_pop_all.
  - intros k r. rewrite od_get_pop_all. case_decide; [done|apply Hk].
Qed.

(** Which records pruning keeps, and how many finished ones. *)
Lemma prune_terminals_spec s t :
  wf s → 0 < max_terminal_records_per_tenant s →
  let s' := prune_terminals s t in
  count_if (terminal_of t) (od_values (records s'))
    = Z.min (count_if (terminal_of t) (od_values (records s)))
        (max_terminal_records_per_tenant s) ∧
  (∀ k r, od_get k (records s) = Some r → terminal_of t r = false →
     od_get k (records s') = Some r) ∧
  (∀ k r, od_get k (records s') = Some r → od_get k (records s) = Some r) ∧
  (∀ k r k' r', od_get k (records s) = Some r → od_get k (records s') = None →
     od_get k' (records s') = Some r' → terminal_of t r' = true → prune_le r r').
Proof.
  intros [Hnd Hk] Hcap. unfold prune_terminals.
  destruct (Z.leb_spec (max_terminal_records_per_tenant s) 0); [lia|]. cbv zeta.
  set (matching := filter (λ r, terminal_of t r = true) (od_values (records s))).
  assert (count_if (terminal_of t) (od_values (records s)) = Z.of_nat (length matching)) as Hc by done.
  destruct (Z.leb_spec (Z.of_nat (length matching) - max_terminal_records_per_tenant s) 0) as [Hle|Hgt].
  { split_and!; [lia|done|done|]. by intros k r k' r' -> [=]. }
  set (n := Z.to_nat _). set (doomed := take n (sort_by prune_le matching)).
  set (key := λ r, (rn_tenant_id r, rn_run_id r)).
  fold key. cbn [records with_records].
  assert (∀ k r, (k, r) ∈ records s → key r = k) as Hkey.
  { intros k r Hin. symmetry. by apply Hk, od_elem_get. }
  assert (NoDup (key <$> od_values (records s))) as Hnk.
  { replace (key <$> od_values (records s)) with (od_keys (records s)); [done|].
    unfold od_keys, od_values. rewrite <- list_fmap_compose. apply list_fmap_ext.
    intros i [k r] Hi. cbn. symmetry. apply Hkey. by eapply list_elem_of_lookup_2. }
  pose proof (prune_split key (terminal_of t) prune_le n (od_values (records s)) Hnk) as Hsplit.
  cbv zeta in Hsplit. fold matching in Hsplit. fold doomed in Hsplit.
  assert (∀ r, r ∈ doomed → terminal_of t r = true ∧ od_get (key r) (records s) = Some r) as Hd.
  { intros r Hr. assert (r ∈ sort_by prune_le matching) as Hs.
    { rewrite <- (take_drop n). apply elem_of_app. by left. }
    apply elem_of_sort_by, list_elem_of_filter in Hs as [? Hv]. split; [done|].
    apply od_elem_of_values in Hv as [k Hg]; [|done]. by rewrite (Hk _ _ Hg) in Hg. }
  split_and!.
  - unfold count_if. rewrite (od_values_pop_all key) by done.
    rewrite Hsplit, length_drop, length_sort_by. fold matching. subst n. lia.
  - intros k r Hg Ht. rewrite od_get_pop_all.
    rewrite decide_False; [done|]. intros (r' & E & Hr')%list_elem_of_fmap.
    apply Hd in Hr' as [Ht' Hg']. rewrite <- E, Hg in Hg'. injection Hg' as <-.
    by rewrite Ht in Ht'.
  - intros k r. rewrite od_get_pop_all. by case_decide.
  - intros k r k' r' Hg. rewrite !od_get_pop_all.
    destruct (decide (k ∈ key <$> doomed)) as [Hin|]; [|by rewrite Hg]. intros _.
    destruct (decide (k' ∈ key <$> doomed)) as [|Hnin]; [done|]. intros Hg' Ht'.
    apply list_elem_of_fmap in Hin as (r2 & -> & Hr2).
    assert (r2 = r) as -> by (destruct (Hd _ Hr2) as [_ Hg2]; congruence).
    assert (r' ∈ drop n (sort_by prune_le matching)) as Hr'.
    { assert (r' ∈ sort_by prune_le matching) as Hs.
      { apply elem_of_sort_by, list_elem_of_filter. split; [done|]. by eapply od_get_values. }
      rewrite <- (take_drop n) in Hs. apply elem_of_app in Hs as [Hs|Hs]; [|done].
      exfalso. apply Hnin. rewrite (Hk _ _ Hg'). by apply (list_elem_of_fmap_2 key). }
    pose proof (sort_by_sorted prune_le matching) as Hsort.
    rewrite <- (take_drop n) in Hsort. by eapply StronglySorted_app_1_elem_of.
Qed.


(** With a cap on finished runs, marking a known run terminal leaves the
    tenant with at most that many finished runs; no run of another tenant and no
    unfinished run is lost; and a finished run is dropped only when every
    finished run of the tenant that stays ended no earlier. *)
Theorem mark_terminal_prunes s now t r status ev msg rec :
  wf s → 0 < max_terminal_records_per_tenant s →
  od_get (t, r) (records s) = Some rec →
  let '(known, s') := mark_terminal s now t r status ev msg in
  known = true ∧ wf s' ∧
  count_if (terminal_of t) (od_values (records s')) ≤ max_terminal_records_per_tenant s ∧
  (∀ k old, k ≠ (t, r) → od_get k (records s) = Some old → terminal_of t old = false →
     od_get k (records s') = Some old) ∧
  (∀ k old k' kept, k ≠ (t, r) → od_get k (records s) = Some old →
     od_get k (records s') = None → od_get k' (records s') = Some kept →
     terminal_of t kept = true → prune_le old kept).
Proof.
  intros Hwf Hcap Hg. unfold mark_terminal. rewrite Hg.
  set (rec' := mkRun _ _ _ _ _ _ _ _ _ _ _ _ _ _).
  set (s1 := with_records s _).
  assert (wf s1) as Hwf1.
  { destruct Hwf as [Hnd Hk]. split; [by apply od_wf_set|]. intros k r1. cbn.
    destruct (decide (k = (t, r))) as [->|Hne]; [rewrite od_get_set|by rewrite od_get_set_ne; auto].
    intros [= <-]. by apply Hk in Hg. }
  destruct (prune_terminals_spec s1 t Hwf1 Hcap) as (Hc & Hkeep & _ & Hord).
  split_and!; [done|by apply prune_wf|cbn [max_terminal_records_per_tenant s1 with_records] in Hc; lia| |].
  - intros k old Hne Ho Ht. apply Hkeep; [|done]. cbn. by rewrite od_get_set_ne.
  - intros k old k' kept Hne Ho. apply Hord. cbn. by rewrite od_get_set_ne.
Qed.

Definition demo_run (r status finished : string) : (string * string) * RunControlRecord :=
  (("acme", r), mkRun "acme" "s" r r "sse" status ∅ false "" "t0" "t0" finished "" "").

Definition demo_registry : t :=
  mkRegistry [demo_run "r1" "completed" "t1"; demo_run "r2" "running" "";
              demo_run "r3" "running" ""] 1.

Lemma mark_terminal_prunes_witness :
  od_keys (records (mark_terminal demo_registry "t2" "acme" "r2" "errored" "run.error" "x").2)
    = [("acme", "r2"); ("acme", "r3")] ∧
  count_if (terminal_of "acme")
    (od_values (records (mark_terminal demo_registry "t2" "acme" "r2" "errored" "run.error" "x").2))
    ≤ 1.
Proof.
  split; [vm_compute; reflexivity|].
  refine (proj1 (proj2 (proj2 (mark_terminal_prunes demo_registry "t2" "acme" "r2" "errored"
    "run.error" "x" (demo_run "r2" "running" "").2 _ _ _)))).
  - split; [refine (bool_decide_unpack _ _); vm_compute; exact I|].
    intros k r Hg%od_get_elem. cbn in Hg.
    repeat (apply elem_of_cons in Hg as [[= -> ->]|Hg]; [reflexivity|]). by apply elem_of_nil in Hg.
  - reflexivity.
  - reflexivity.
Defined.

End PruneFacts.

(** ** The two registries, command by command *)
Module Refinement.
Module M := RunControlRegistry.
Module Q := SQLiteRunControlRegistry.

(** [now1] and [now2] are the two readings of the clock that the in-memory registry makes for a start; the
    SQLite registry makes the first only. *)
Inductive command :=
| CStart (now1 now2 tenant session run correlation transport : string)
| CToolCall (now tenant run call_id : string)
| CTerminal (now tenant run status event message : string)
| CCancel (now tenant run reason : string)
| CGet (tenant run : string)
| CList (tenant : string) (limit : Z)
| CCallIds (tenant run : string)
| CActive (tenant : string).

Inductive answer :=
| ABool (b : bool)
| ARun (d : option pydict)
| AList (ds : list pydict)
| AIds (ids : list string)
| ACount (n : Z).

(** A start answers the new record. *)
Definition mem_step (s : M.t) (c : command) : answer * M.t :=
  match c with
  | CStart now1 now2 t se r co tr =>
      let '(record, s') := M.start_run s now1 now2 t se r co tr in (ARun (Some (to_dict record)), s')
  | CToolCall now t r c => let '(b, s') := M.record_tool_call s now t r c in (ABool b, s')
  | CTerminal now t r st ev msg =>
      let '(b, s') := M.mark_terminal s now t r st ev msg in (ABool b, s')
  | CCancel now t r re => let '(b, s') := M.request_cancel s now t r re in (ABool b, s')
  | CGet t r => (ARun (M.get_run s t r), s)
  | CList t limit => (AList (M.list_runs s t limit), s)
  | CCallIds t r => (AIds (M.call_ids_for_run s t r), s)
  | CActive t => (ACount (M.count_active_runs s t), s)
  end.

Section sqlite.
Variable float_repr : Q → string.
Variable sqlite_datetime : string → string.
Variable scan : list ((string * string) * Q.row) → list ((string * string) * Q.row).
(** A query visits every row once. *)
Hypothesis scan_perm : ∀ l, scan l ≡ₚ l.

Definition sql_step (s : Q.t) (c : command) : answer * Q.t :=
  match c with
  | CStart now _ t se r co tr =>
      let '(record, s') := Q.start_run s now t se r co tr in (ARun (Some (to_dict record)), s')
  | CToolCall now t r c => let '(b, s') := Q.record_tool_call s now t r c in (ABool b, s')
  | CTerminal now t r st ev msg =>
      let '(b, s') := Q.mark_terminal sqlite_datetime scan s now t r st ev msg in (ABool b, s')
  | CCancel now t r re => let '(b, s') := Q.request_cancel s now t r re in (ABool b, s')
  | CGet t r => (ARun (Q.get_run float_repr s t r), s)
  | CList t limit => (AList (Q.list_runs float_repr scan s t limit), s)
  | CCallIds t r => (AIds (Q.call_ids_for_run float_repr s t r), s)
  | CActive t => (ACount (Q.count_active_runs s t), s)
  end.

Fixpoint run_mem (s : M.t) (cs : list command) : list answer :=
  match cs with
  | [] => []
  | c :: cs => let '(a, s') := mem_step s c in a :: run_mem s' cs
  end.

Fixpoint run_sql (s : Q.t) (cs : list command) : list answer :=
  match cs with
  | [] => []
  | c :: cs => let '(a, s') := sql_step s c in a :: run_sql s' cs
  end.

(** *** When answers agree *)

Definition with_updated (r : RunControlRecord) (now : string) : RunControlRecord :=
  mkRun (rn_tenant_id r) (rn_session_id r) (rn_run_id r) (rn_correlation_id r) (rn_transport r)
    (rn_status r) (rn_call_ids r) (rn_cancel_requested r) (rn_cancel_reason r) (rn_started_at_utc r) now
    (rn_finished_at_utc r) (rn_terminal_event r) (rn_terminal_message r).

(** A run that nothing was recorded for since its start *)
Definition untouched (r : RunControlRecord) : Prop :=
  rn_status r = "running" ∧ rn_call_ids r = ∅ ∧ rn_cancel_requested r = false ∧ rn_finished_at_utc r = "".

(** The record [r] of the in-memory registry and [r'] that the SQLite registry shows: the same, but that a run
    that was only started was last updated, for SQLite, when it started. *)
Definition run_agrees (r r' : RunControlRecord) : Prop :=
  r' = r ∨ untouched r ∧ r' = with_updated r (rn_started_at_utc r).

(** The in-memory registry sorts the ids of a run, SQLite answers them as they were recorded.  Both list the
    newest runs first, each by its own times of update, and runs updated at one instant in any order. *)
Definition agrees (c : command) (a a' : answer) : Prop :=
  match c, a, a' with
  | (CStart _ _ _ _ _ _ _ | CGet _ _), ARun (Some d), ARun (Some d') =>
      ∃ r r', d = to_dict r ∧ d' = to_dict r' ∧ run_agrees r r'
  | CGet _ _, ARun None, ARun None => True
  | CList _ limit, AList ds, AList ds' =>
      ∃ runs runs', Forall2 run_agrees runs runs' ∧
        shows_first M.newer to_dict (Z.to_nat (bounded_limit limit)) runs ds ∧
        shows_first M.newer to_dict (Z.to_nat (bounded_limit limit)) runs' ds'
  | CCallIds _ _, AIds ids, AIds ids' => ids = sorted_strings ids' ∧ NoDup ids'
  | (CToolCall _ _ _ _ | CTerminal _ _ _ _ _ _ | CCancel _ _ _ _), ABool b, ABool b' => b = b'
  | CActive _, ACount n, ACount n' => n = n'
  | _, _, _ => False
  end.

(** The row an in-memory record is stored as. *)
Definition row_of (r : RunControlRecord) : Q.row :=
  Q.mkRow (rn_session_id r) (rn_correlation_id r) (rn_transport r) (rn_status r) (PList [])
    (if rn_cancel_requested r then 1 else 0) (rn_cancel_reason r) (rn_started_at_utc r)
    (rn_updated_at_utc r) (rn_finished_at_utc r) (rn_terminal_event r) (rn_terminal_message r).

Record sim (m : M.t) (q : Q.t) : Prop := {
  sm_keys : ∀ k r, od_get k (M.records m) = Some r → k = (rn_tenant_id r, rn_run_id r);
  sm_wf : od_wf (M.records m);
  sm_rows : Q.run_control q = od_map (λ _, row_of) (M.records m);
  sm_calls : ∀ k r c, od_get k (M.records m) = Some r →
    c ∈ Q.call_ids_of q k ↔ c ∈ rn_call_ids r;
  sm_none : ∀ k, od_get k (M.records m) = None → Q.call_ids_of q k = [];
  sm_nodup : ∀ k, NoDup (Q.call_ids_of q k);
  sm_mcap : M.max_terminal_records_per_tenant m = 0;
  sm_qcap : Q.max_terminal_records_per_tenant q = 0;
}.

Lemma sm_row m q k : sim m q → od_get k (Q.run_control q) = row_of <$> od_get k (M.records m).
Proof. intros Hs. rewrite (sm_rows _ _ Hs). apply (od_get_map (λ _, row_of)). Qed.

(** The ids of a known run, sorted, are those of the record. *)
Lemma sim_ids m q k r :
  sim m q → od_get k (M.records m) = Some r →
  sorted_strings (Q.call_ids_of q k) = sorted_strings (elements (rn_call_ids r)).
Proof.
  intros Hs Hg. apply (sort_by_unique String.le). apply NoDup_Permutation.
  - apply (sm_nodup _ _ Hs).
  - apply NoDup_elements.
  - intros c. rewrite elem_of_elements. by apply (sm_calls _ _ Hs).
Qed.

(** Rewriting the record of a known run, leaving the tool calls alone. *)
Lemma sim_update m q k r r' :
  sim m q → od_get k (M.records m) = Some r →
  rn_tenant_id r' = rn_tenant_id r → rn_run_id r' = rn_run_id r →
  rn_call_ids r' = rn_call_ids r →
  sim (M.with_records m (od_set k r' (M.records m)))
    (Q.mkRegistry (od_set k (row_of r') (Q.run_control q)) (Q.tool_calls q)
       (Q.max_terminal_records_per_tenant q)).
Proof.
  intros Hs Hg Ht Hr Hc.
  split; cbn [M.with_records M.records M.max_terminal_records_per_tenant Q.run_control
    Q.max_terminal_records_per_tenant]; try apply Hs.
  - intros k' r1. destruct (decide (k' = k)) as [->|Hne].
    + rewrite od_get_set. intros [= <-]. rewrite Ht, Hr. by apply (sm_keys _ _ Hs).
    + rewrite od_get_set_ne by done. apply Hs.
  - by apply od_wf_set, Hs.
  - by rewrite od_map_set, (sm_rows _ _ Hs).
  - intros k' r1 c. destruct (decide (k' = k)) as [->|Hne].
    + rewrite od_get_set. intros [= <-]. rewrite Hc. by apply (sm_calls _ _ Hs).
    + rewrite od_get_set_ne by done. apply (sm_calls _ _ Hs).
  - intros k' E. apply (sm_none _ _ Hs). destruct (decide (k' = k)) as [->|Hne].
    + by rewrite od_get_set in E.
    + by rewrite od_get_set_ne in E.
Qed.

Lemma call_ids_of_app q k cs rc cap :
  Q.call_ids_of (Q.mkRegistry rc (Q.tool_calls q ++ cs) cap) k
  = Q.call_ids_of q k ++ (Q.cl_call_id <$> filter (λ c, Q.cl_key c = k) cs).
Proof. unfold Q.call_ids_of; cbn [Q.tool_calls]. by rewrite filter_app, fmap_app. Qed.

Lemma count_active_agree (recs : list ((string * string) * RunControlRecord)) t :
  (∀ k r, (k, r) ∈ recs → k = (rn_tenant_id r, rn_run_id r)) →
  count_if (λ p : (string * string) * Q.row, (p.1.1 =?s t) && is_active (Q.rw_status p.2))
    (od_map (λ _, row_of) recs) =
  count_if (λ r, (rn_tenant_id r =?s t) && is_active (rn_status r)) (od_values recs).
Proof.
  induction recs as [|[k r] recs IH]; intros Hk; [done|].
  change (od_values ((k, r) :: recs)) with (r :: od_values recs).
  change (od_map (λ _, row_of) ((k, r) :: recs)) with ((k, row_of r) :: od_map (λ _, row_of) recs).
  rewrite !count_if_cons, IH by (intros k' r' Hin; by apply Hk, list_elem_of_further).
  cbn [fst snd]. by rewrite (Hk k r) by apply list_elem_of_here.
Qed.

Lemma sim_start m q now t se r co tr :
  sim m q → od_get (t, r) (M.records m) = None →
  sim (M.start_run m now now t se r co tr).2 (Q.start_run q now t se r co tr).2.
Proof.
  intros Hs Hn. unfold M.start_run, Q.start_run. cbn [snd rn_tenant_id rn_run_id].
  set (rec := mkRun _ _ _ _ _ _ _ _ _ _ _ _ _ _).
  assert (od_get (t, r) (Q.run_control q) = None) as Hq by by rewrite (sm_row _ _ _ Hs), Hn.
  rewrite od_set_fresh by done. rewrite od_pop_fresh by done.
  split; cbn [M.with_records M.records M.max_terminal_records_per_tenant Q.run_control
    Q.max_terminal_records_per_tenant]; try apply Hs.
  - intros k r'. rewrite od_get_app. destruct (od_get k (M.records m)) eqn:E.
    + intros [= <-]. by apply (sm_keys _ _ Hs).
    + cbn. case_decide; [|done]. by intros [= <-].
  - rewrite <- od_set_fresh by done. apply od_wf_set, Hs.
  - unfold od_map. rewrite fmap_app. by rewrite (sm_rows _ _ Hs).
  - intros k r' c. rewrite od_get_app. destruct (od_get k (M.records m)) eqn:E.
    + intros [= <-]. by apply (sm_calls _ _ Hs).
    + cbn [od_get]. case_decide as Hk; [|done]. intros [= <-]. subst k.
      change (Q.call_ids_of _ _) with (Q.call_ids_of q (t, r)).
      rewrite (sm_none _ _ Hs) by done. cbn. by rewrite elem_of_nil, elem_of_empty.
  - intros k. rewrite od_get_app. destruct (od_get k (M.records m)) eqn:E; [done|].
    intros _. by apply (sm_none _ _ Hs).
Qed.

Lemma sim_tool_call m q now t r c :
  sim m q →
  (M.record_tool_call m now t r c).1 = (Q.record_tool_call q now t r c).1 ∧
  sim (M.record_tool_call m now t r c).2 (Q.record_tool_call q now t r c).2.
Proof.
  intros Hs. unfold M.record_tool_call, Q.record_tool_call.
  destruct (negb _); [done|]. rewrite (sm_row _ _ _ Hs).
  destruct (od_get (t, r) (M.records m)) as [rec|] eqn:Hg; [|done]. cbn [fmap option_fmap option_map fst snd].
  split; [done|]. set (n := py_strip c).
  set (rec' := mkRun _ _ _ _ _ _ _ _ _ _ _ _ _ _).
  assert (∀ k, Q.call_ids_of (Q.mkRegistry (Q.run_control q)
      (if bool_decide (n ∈ Q.call_ids_of q (t, r)) then Q.tool_calls q
       else Q.tool_calls q ++ [Q.mkCall (t, r) n now]) 0) k =
    Q.call_ids_of q k ++
      (if decide (k = (t, r)) then if decide (n ∈ Q.call_ids_of q (t, r)) then [] else [n]
       else [])) as Hids.
  { intros k. destruct (decide (n ∈ Q.call_ids_of q (t, r))) as [Hin|Hnin].
    - rewrite bool_decide_true by done. case_decide; by rewrite app_nil_r.
    - rewrite bool_decide_false, call_ids_of_app by done. f_equal.
      rewrite filter_cons. cbn [Q.cl_key].
      case_decide; [rewrite decide_True by done; done|by rewrite decide_False by done]. }
  split; cbn [M.with_records M.records M.max_terminal_records_per_tenant Q.run_control
    Q.max_terminal_records_per_tenant]; try apply Hs.
  - intros k' r1. destruct (decide (k' = (t, r))) as [->|Hne].
    + rewrite od_get_set. intros [= <-]. by apply (sm_keys _ _ Hs) in Hg.
    + rewrite od_get_set_ne by done. apply Hs.
  - by apply od_wf_set, Hs.
  - by rewrite od_map_set, (sm_rows _ _ Hs).
  - intros k r1 c'. change (Q.call_ids_of _ k) with (Q.call_ids_of (Q.mkRegistry (Q.run_control q)
      (if bool_decide (n ∈ Q.call_ids_of q (t, r)) then Q.tool_calls q
       else Q.tool_calls q ++ [Q.mkCall (t, r) n now]) 0) k).
    rewrite Hids, elem_of_app. destruct (decide (k = (t, r))) as [->|Hne].
    + rewrite od_get_set. intros [= <-]. cbn [rn_call_ids rec'].
      rewrite elem_of_union, elem_of_singleton, <- (sm_calls _ _ Hs _ _ c' Hg).
      case_decide as Hd; rewrite ?list_elem_of_singleton, ?elem_of_nil; naive_solver.
    + rewrite od_get_set_ne by done. intros Hg'.
      rewrite (sm_calls _ _ Hs _ _ c' Hg'), elem_of_nil. naive_solver.
  - intros k Hk. change (Q.call_ids_of _ k) with (Q.call_ids_of (Q.mkRegistry (Q.run_control q)
      (if bool_decide (n ∈ Q.call_ids_of q (t, r)) then Q.tool_calls q
       else Q.tool_calls q ++ [Q.mkCall (t, r) n now]) 0) k).
    rewrite Hids. destruct (decide (k = (t, r))) as [->|Hne]; [by rewrite od_get_set in Hk|].
    rewrite od_get_set_ne in Hk by done. by rewrite (sm_none _ _ Hs).
  - intros k. change (Q.call_ids_of _ k) with (Q.call_ids_of (Q.mkRegistry (Q.run_control q)
      (if bool_decide (n ∈ Q.call_ids_of q (t, r)) then Q.tool_calls q
       else Q.tool_calls q ++ [Q.mkCall (t, r) n now]) 0) k).
    rewrite Hids. pose proof (sm_nodup _ _ Hs k) as Hnd.
    destruct (decide (k = (t, r))) as [->|_]; [case_decide as Hd|]; rewrite ?app_nil_r; try done.
    apply NoDup_app. split_and!; [done| |apply NoDup_singleton].
    by intros x Hx ->%list_elem_of_singleton.
Qed.

(** A row shown with its ids is the record it stores. *)
Lemma sim_dict m q k r :
  sim m q → od_get k (M.records m) = Some r →
  Q.row_to_dict k (row_of r) (Q.shown_ids float_repr q k (row_of r)) = to_dict r.
Proof.
  intros Hs Hg. unfold Q.row_to_dict, to_dict. rewrite (sm_keys _ _ Hs _ _ Hg).
  rewrite <- (sim_ids _ _ _ _ Hs Hg), <- (sm_keys _ _ Hs _ _ Hg). unfold Q.shown_ids. cbn [fst snd].
  rewrite (sm_keys _ _ Hs _ _ Hg). cbn.
  destruct (Q.call_ids_of q _); by destruct (rn_cancel_requested r).
Qed.

(** The runs of a tenant *)
Definition runs_of (m : M.t) (t : string) : list RunControlRecord :=
  filter (λ r, rn_tenant_id r = t) (od_values (M.records m)).

#[local] Instance newer_trans : Transitive M.newer.
Proof. intros x y z. unfold M.newer. intros. by etrans. Qed.

#[local] Instance newer_total : Total M.newer.
Proof. intros x y. unfold M.newer. apply total, _. Qed.

#[local] Instance sql_newer_trans : Transitive Q.newer.
Proof. intros x y z. unfold Q.newer. intros. by etrans. Qed.

#[local] Instance sql_newer_total : Total Q.newer.
Proof. intros x y. unfold Q.newer. apply total, _. Qed.

Lemma sim_list m q t limit :
  sim m q →
  shows_first M.newer to_dict (Z.to_nat (bounded_limit limit)) (runs_of m t) (Q.list_runs float_repr scan q t limit).
Proof.
  intros Hs. unfold Q.list_runs. set (n := Z.to_nat _). set (g := λ p : (string * string) * RunControlRecord, (p.1, row_of p.2)).
  set (sorted := sort_by Q.newer _).
  set (mine := filter (λ p : (string * string) * RunControlRecord, p.1.1 = t) (M.records m)).
  assert (sorted ≡ₚ g <$> mine) as Hp.
  { unfold sorted. rewrite (sort_by_perm Q.newer), scan_perm, (sm_rows _ _ Hs).
    by rewrite (filter_od_map row_of _ (λ p, p.1.1 = t)). }
  apply Permutation_map_inv in Hp as (all & Esorted & Hall).
  change (map g all) with (g <$> all) in Esorted.
  assert (∀ k r, (k, r) ∈ all → od_get k (M.records m) = Some r) as Hin.
  { intros k r Hk. rewrite <- Hall in Hk. apply list_elem_of_filter in Hk as [_ Hk].
    by apply od_elem_get; [apply (sm_wf _ _ Hs)|]. }
  exists (all.*2). split_and!.
  - rewrite <- Hall. unfold runs_of, mine, od_values. clear -Hs.
    assert (∀ k r, (k, r) ∈ M.records m → k = (rn_tenant_id r, rn_run_id r)) as Hk.
    { intros k r H. apply (sm_keys _ _ Hs), od_elem_get; [apply (sm_wf _ _ Hs)|done]. }
    induction (M.records m) as [|[k r] l IH]; [done|].
    cbn [fmap list_fmap snd]. rewrite !filter_cons. cbn [fst].
    rewrite (Hk k r) by apply list_elem_of_here. cbn [fst].
    case_decide; cbn; rewrite IH by (intros; by apply Hk, list_elem_of_further); done.
  - pose proof (sort_by_sorted Q.newer (filter (λ p, p.1.1 = t) (scan (Q.run_control q)))) as Hsort.
    fold sorted in Hsort. rewrite Esorted in Hsort. clear -Hsort.
    induction all as [|p all IH]; [constructor|]. apply StronglySorted_inv in Hsort as [Hsort Hhd].
    constructor; [by apply IH|]. apply Forall_fmap. change (Forall (Q.newer (g p)) (g <$> all)) in Hhd.
    by apply (proj1 (Forall_fmap g _ _)) in Hhd.
  - rewrite Esorted, <- !fmap_take, <- list_fmap_compose, <- list_fmap_compose. apply list_fmap_ext.
    intros i [k r] Hi. cbn. apply (sim_dict m); [done|]. apply Hin.
    apply list_elem_of_lookup_2 in Hi. by eapply elem_of_take in Hi as (? & ? & _); eapply list_elem_of_lookup_2.
Qed.

Definition start_key (c : command) : option (string * string) :=
  match c with
  | CStart _ _ t _ r _ _ => Some (t, r)
  | _ => None
  end.

(** The same command with one reading of the clock *)
Definition one_reading (c : command) : command :=
  match c with CStart now _ t se r co tr => CStart now now t se r co tr | c => c end.

(** What the in-memory registry with one reading of the clock and the SQLite registry answer *)
Definition shown_alike (m : M.t) (c : command) (a a' : answer) : Prop :=
  match c, a, a' with
  | CList t limit, AList _, AList ds' =>
      shows_first M.newer to_dict (Z.to_nat (bounded_limit limit)) (runs_of m t) ds'
  | CCallIds _ _, AIds ids, AIds ids' => ids = sorted_strings ids' ∧ NoDup ids'
  | (CList _ _ | CCallIds _ _), _, _ => False
  | _, _, _ => a = a'
  end.

(** One command: the states stay related; only a start makes a run known. *)
Lemma sim_step m q c :
  sim m q →
  (∀ k, start_key c = Some k → od_get k (M.records m) = None) →
  shown_alike m c (mem_step m (one_reading c)).1 (sql_step q c).1 ∧
  sim (mem_step m (one_reading c)).2 (sql_step q c).2.
Proof.
  intros Hs Hfresh.
  destruct c as [now now2 t se r co tr|now t r c|now t r st ev msg|now t r re|t r|t limit|t r|t];
    cbn [one_reading mem_step sql_step shown_alike].
  - split; [done|]. cbn [M.start_run Q.start_run snd]. by apply (sim_start m q now t se r co tr), Hfresh.
  - pose proof (sim_tool_call m q now t r c Hs) as [E Hsim].
    destruct (M.record_tool_call _ _ _ _ _), (Q.record_tool_call _ _ _ _ _); cbn in *.
    split; [by f_equal|done].
  - unfold M.mark_terminal, Q.mark_terminal. rewrite (sm_row _ _ _ Hs).
    destruct (od_get (t, r) (M.records m)) as [rec|] eqn:Hg; [|done].
    cbn [fmap option_fmap option_map fst snd].
    assert (∀ s, M.max_terminal_records_per_tenant s = 0 → M.prune_terminals s t = s) as Hp1.
    { intros s E. unfold M.prune_terminals. by rewrite E. }
    assert (∀ s, Q.max_terminal_records_per_tenant s = 0 →
      Q.prune_terminals sqlite_datetime scan s t = s) as Hp2.
    { intros s E. unfold Q.prune_terminals. by rewrite E. }
    rewrite Hp1 by apply (sm_mcap _ _ Hs). rewrite Hp2 by apply (sm_qcap _ _ Hs).
    split; [done|]. by eapply sim_update.
  - unfold M.request_cancel, Q.request_cancel. rewrite (sm_row _ _ _ Hs).
    destruct (od_get (t, r) (M.records m)) as [rec|] eqn:Hg; [|done].
    cbn [fmap option_fmap option_map fst snd]. split; [done|].
    cbn [Q.rw_status row_of].
    replace (if is_terminal (rn_status rec) then rn_status rec else "cancel_requested")
      with (if negb (is_terminal (rn_status rec)) then "cancel_requested" else rn_status rec)
      by by destruct (is_terminal _).
    match goal with
    | |- sim (M.with_records m (od_set _ ?r' _)) _ => by apply (sim_update m q (t, r) rec r')
    end.
  - split; [|done]. cbn [fst]. f_equal. unfold M.get_run, Q.get_run. rewrite (sm_row _ _ _ Hs).
    destruct (od_get (t, r) (M.records m)) as [rec|] eqn:Hg; [|done]. cbn [fmap option_fmap option_map].
    by rewrite (sim_dict _ _ _ _ Hs Hg).
  - split; [by apply sim_list|done].
  - split; [|done]. cbn [fst]. unfold M.call_ids_for_run, Q.call_ids_for_run.
    rewrite (sm_row _ _ _ Hs). pose proof (sm_nodup _ _ Hs (t, r)) as Hnd.
    destruct (od_get (t, r) (M.records m)) as [rec|] eqn:Hg; cbn [fmap option_fmap option_map].
    + rewrite <- (sim_ids _ _ _ _ Hs Hg).
      destruct (Q.call_ids_of q (t, r)); [split; [done|apply NoDup_nil_2]|done].
    + rewrite (sm_none _ _ Hs _ Hg). split; [done|apply NoDup_nil_2].
  - split; [|done]. cbn [fst]. f_equal. unfold M.count_active_runs, Q.count_active_runs.
    rewrite (sm_rows _ _ Hs), count_active_agree; [done|].
    intros k r Hin. apply (sm_keys _ _ Hs). by apply od_elem_get; [apply (sm_wf _ _ Hs)|].
Qed.

Lemma sim_init cap : cap ≤ 0 → sim (M.init cap) (Q.init cap).
Proof. intros Hc. split; cbn; try done; try lia; intros; apply NoDup_nil_2. Qed.

(** *** One reading of the clock or two *)

(** The registry [m] made two readings at each start, [m'] one. *)
Record twins (m m' : M.t) : Prop := {
  tw_records : Forall2 (λ p p', p'.1 = p.1 ∧ run_agrees p.2 p'.2) (M.records m) (M.records m');
  tw_cap : M.max_terminal_records_per_tenant m = 0;
  tw_cap' : M.max_terminal_records_per_tenant m' = 0;
}.

Lemma run_agrees_fields r r' :
  run_agrees r r' → r' = with_updated r (rn_updated_at_utc r').
Proof. intros [->|[_ ->]]; [|done]. by destruct r. Qed.

Section od.
Context {K V : Type} `{EqDecision K} (P : V → V → Prop).
Notation related := (Forall2 (λ p p' : K * V, p'.1 = p.1 ∧ P p.2 p'.2)).

Lemma related_get l l' k :
  related l l' →
  match od_get k l, od_get k l' with Some v, Some v' => P v v' | None, None => True | _, _ => False end.
Proof.
  induction 1 as [|[k1 v1] [k2 v2] l l' [Hk Hv] _ IH]; [done|]. cbn in *. subst k2. by case_decide.
Qed.

Lemma related_set l l' k v v' : related l l' → P v v' → related (od_set k v l) (od_set k v' l').
Proof.
  intros Hl Hv. induction Hl as [|[k1 v1] [k2 v2] l l' [Hk H1] Hl IH]; cbn in *; [by repeat constructor|].
  subst k2. case_decide; by constructor.
Qed.
End od.

Lemma twins_get m m' k :
  twins m m' →
  (od_get k (M.records m) = None ∧ od_get k (M.records m') = None) ∨
  ∃ r u, od_get k (M.records m) = Some r ∧ od_get k (M.records m') = Some (with_updated r u) ∧
    run_agrees r (with_updated r u).
Proof.
  intros Ht. pose proof (related_get run_agrees _ _ k (tw_records _ _ Ht)) as H.
  destruct (od_get k (M.records m)) as [r|], (od_get k (M.records m')) as [r'|]; try done; [|by left].
  right. exists r, (rn_updated_at_utc r'). by rewrite <- (run_agrees_fields _ _ H).
Qed.

Lemma twins_set m m' k r r' :
  twins m m' → run_agrees r r' →
  twins (M.with_records m (od_set k r (M.records m))) (M.with_records m' (od_set k r' (M.records m'))).
Proof. intros [H1 H2 H3] Hr. split; [by apply related_set|done..]. Qed.

Lemma no_pruning m t : M.max_terminal_records_per_tenant m = 0 → M.prune_terminals m t = m.
Proof. intros E. unfold M.prune_terminals. by rewrite E. Qed.

(** What the two registries hold *)
Lemma twins_values m m' : twins m m' → Forall2 run_agrees (od_values (M.records m)) (od_values (M.records m')).
Proof.
  intros Ht. unfold od_values. apply Forall2_fmap.
  eapply Forall2_impl; [apply Ht|]. by intros ? ? [_ ?].
Qed.

Lemma agreeing_runs_of (l l' : list RunControlRecord) t :
  Forall2 run_agrees l l' →
  Forall2 run_agrees (filter (λ r, rn_tenant_id r = t) l) (filter (λ r, rn_tenant_id r = t) l').
Proof.
  induction 1 as [|r r' l l' Hr _ IH]; [done|]. rewrite !filter_cons.
  rewrite (run_agrees_fields _ _ Hr). cbn [rn_tenant_id with_updated].
  case_decide; [|done]. constructor; [|done]. by rewrite <- (run_agrees_fields _ _ Hr).
Qed.

Lemma agreeing_count (l l' : list RunControlRecord) t :
  Forall2 run_agrees l l' →
  count_if (λ r, (rn_tenant_id r =?s t) && is_active (rn_status r)) l =
  count_if (λ r, (rn_tenant_id r =?s t) && is_active (rn_status r)) l'.
Proof.
  induction 1 as [|r r' l l' Hr _ IH]; [done|]. rewrite !count_if_cons, IH.
  by rewrite (run_agrees_fields _ _ Hr).
Qed.

(** One command of both and of the SQLite registry *)
Lemma twins_step m m' q c :
  twins m m' → sim m' q → (∀ k, start_key c = Some k → od_get k (M.records m) = None) →
  agrees c (mem_step m c).1 (sql_step q c).1 ∧
  twins (mem_step m c).2 (mem_step m' (one_reading c)).2 ∧ sim (mem_step m' (one_reading c)).2 (sql_step q c).2 ∧
  (∀ k, od_get k (M.records m) = None → start_key c ≠ Some k → od_get k (M.records (mem_step m c).2) = None).
Proof.
  intros Ht Hs Hfresh.
  assert (∀ k, start_key c = Some k → od_get k (M.records m') = None) as Hfresh'.
  { intros k Hk. destruct (twins_get _ _ k Ht) as [[_ ?]|(r & u & Hr & _)]; [done|].
    by rewrite (Hfresh k Hk) in Hr. }
  destruct (sim_step m' q c Hs Hfresh') as [Ha Hs']. revert Ha. intros Ha.
  enough ((shown_alike m' c (mem_step m' (one_reading c)).1 (sql_step q c).1 → agrees c (mem_step m c).1 (sql_step q c).1) ∧
    twins (mem_step m c).2 (mem_step m' (one_reading c)).2 ∧
    (∀ k, od_get k (M.records m) = None → start_key c ≠ Some k → od_get k (M.records (mem_step m c).2) = None))
    as (H1 & H2 & H3) by (split_and!; auto).
  clear Ha Hs' Hs. set (a' := (sql_step q c).1). clearbody a'. clear q.
  assert (∀ k k0 r (o : list ((string * string) * RunControlRecord)), is_Some (od_get k0 o) → od_get k o = None →
    od_get k (od_set k0 r o) = None) as Hkeep.
  { intros k k0 r o Hsome Hnone. rewrite od_get_set_ne; [done|]. intros ->. rewrite Hnone in Hsome.
    by destruct Hsome. }
  destruct c as [now now2 t se r co tr|now t r c|now t r st ev msg|now t r re|t r|t limit|t r|t];
    cbn [one_reading mem_step shown_alike agrees].
  - set (rec := mkRun t se r (py_or co r) tr "running" ∅ false "" now now2 "" "" "").
    assert (run_agrees rec (with_updated rec now)) as Hrec by (by right).
    split_and!.
    + cbn [M.start_run fst]. intros <-. by exists rec, (with_updated rec now).
    + apply (twins_set m m' (t, r) rec _ Ht Hrec).
    + intros k Hn Hne. cbn. rewrite od_get_set_ne; [done|]. intros ->. by apply Hne.
  - unfold M.record_tool_call. destruct (negb _); [split_and!; [by intros <-|done|done]|].
    destruct (twins_get m m' (t, r) Ht) as [[-> ->]|(rec & u & Hm & -> & _)]; [split_and!; [by intros <-|done|done]|].
    rewrite Hm. cbn [fst snd]. split_and!; [by intros <-|by apply twins_set; [|left]|].
    intros k Hn _. cbn. eauto.
  - unfold M.mark_terminal.
    destruct (twins_get m m' (t, r) Ht) as [[-> ->]|(rec & u & Hm & -> & _)]; [split_and!; [by intros <-|done|done]|].
    rewrite Hm. cbn [fst snd]. rewrite !no_pruning by apply Ht.
    split_and!; [by intros <-|by apply twins_set; [|left]|]. intros k Hn _. cbn. eauto.
  - unfold M.request_cancel.
    destruct (twins_get m m' (t, r) Ht) as [[-> ->]|(rec & u & Hm & -> & _)]; [split_and!; [by intros <-|done|done]|].
    rewrite Hm. cbn [fst snd]. split_and!; [by intros <-|by apply twins_set; [|left]|]. intros k Hn _. cbn. eauto.
  - split_and!; [|done|done]. cbn [fst]. intros <-. unfold M.get_run.
    destruct (twins_get m m' (t, r) Ht) as [[-> ->]|(rec & u & -> & -> & Hr)]; [done|]. cbn. by eexists _, _.
  - split_and!; [|done|done]. cbn [fst]. destruct a' as [| |ds'| |]; try done. intros Hl.
    exists (runs_of m t), (runs_of m' t). split_and!; [| |done].
    + by apply agreeing_runs_of, twins_values.
    + unfold M.list_runs. by apply sort_by_shows_first; [apply _..|].
  - split_and!; [|done|done]. cbn [fst]. unfold M.call_ids_for_run.
    by destruct (twins_get m m' (t, r) Ht) as [[-> ->]|(rec & u & -> & -> & _)].
  - split_and!; [|done|done]. cbn [fst]. intros <-. unfold M.count_active_runs.
    by apply agreeing_count, twins_values.
Qed.

Lemma sim_runs cs m m' q :
  twins m m' → sim m' q → NoDup (omap start_key cs) →
  (∀ k, k ∈ omap start_key cs → od_get k (M.records m) = None) →
  Forall3 agrees cs (run_mem m cs) (run_sql q cs).
Proof.
  revert m m' q. induction cs as [|c cs IH]; intros m m' q Ht Hs Hnd Hf; [constructor|]. cbn [run_mem run_sql].
  destruct (twins_step m m' q c Ht Hs) as (E & Ht' & Hs' & Hk).
  { intros k Ek. apply Hf. cbn. rewrite Ek. apply list_elem_of_here. }
  destruct (mem_step m c) as [a1 m1], (sql_step q c) as [a2 q1]. cbn [fst snd] in E, Ht', Hs', Hk.
  constructor; [done|]. eapply IH; [done|done| |]; cbn in Hnd, Hf; destruct (start_key c) as [k0|] eqn:Ek.
  - by apply NoDup_cons in Hnd as [_ ?].
  - done.
  - intros k Hin. apply Hk; [by apply Hf, list_elem_of_further|]. intros [= ->].
    by apply NoDup_cons in Hnd as [? _].
  - intros k Hin. apply Hk; [by apply Hf|done].
Qed.

(** C30: When terminal records are not capped and no run id is started twice, the SQLite registry answers every
    sequence of commands as the in-memory one does: the same record of a started run, the same decisions, counts
    and runs, and the same ids of tool calls, which the in-memory registry sorts; a listing shows the newest runs.
    Only a run for which nothing was recorded since its start may differ, in its time of update, because the
    in-memory registry reads the clock twice for a start.  Each registry lists by its own times of update, and runs
    updated at one instant in any order. *)
Theorem sqlite_registry_refines_memory cap cs :
  cap ≤ 0 → NoDup (omap start_key cs) →
  Forall3 agrees cs (run_mem (M.init cap) cs) (run_sql (Q.init cap) cs).
Proof.
  intros Hc Hnd. apply (sim_runs cs _ (M.init cap)); [|by apply sim_init|done|done].
  split; [constructor|cbn; lia..].
Qed.
End sqlite.

Definition demo_commands : list command :=
  [CStart "t0" "t00" "acme" "s" "r1" "" "sse"; CGet "acme" "r1"; CToolCall "t1" "acme" "r1" " call-b ";
   CToolCall "t2" "acme" "r1" "call-a"; CCallIds "acme" "r1"; CCancel "t3" "acme" "r1" "user";
   CActive "acme"; CTerminal "t4" "acme" "r1" "cancelled" "run.cancelled" ""; CList "acme" 10].

Lemma sqlite_registry_refines_memory_witness :
  Forall3 agrees demo_commands (run_mem (M.init 0) demo_commands)
    (run_sql (λ _, "") (λ s, str_take 19 s) (λ l, l) (Q.init 0) demo_commands) ∧
  (run_mem (M.init 0) demo_commands) !! 4%nat = Some (AIds ["call-a"; "call-b"]) ∧
  (run_sql (λ _, "") (λ s, str_take 19 s) (λ l, l) (Q.init 0) demo_commands) !! 4%nat
    = Some (AIds ["call-b"; "call-a"]).
Proof.
  split; [|vm_compute; split; reflexivity].
  apply (sqlite_registry_refines_memory (λ _, "") (λ s, str_take 19 s) (λ l, l) (λ l, reflexivity l) 0 demo_commands).
  - reflexivity || lia.
  - refine (bool_decide_unpack _ _). vm_compute. exact I.
Defined.

(** Starting a run under an id used before empties the tool calls of the
    in-memory record but leaves the rows of the SQLite registry: they are shown
    as the new run's tool calls. *)
Theorem restarted_run_keeps_sqlite_tool_calls float_repr m q now t se r co tr :
  M.call_ids_for_run (M.start_run m now now t se r co tr).2 t r = [] ∧
  (Q.call_ids_of q (t, r) ≠ [] →
   Q.call_ids_for_run float_repr (Q.start_run q now t se r co tr).2 t r = Q.call_ids_of q (t, r)).
Proof.
  split.
  - unfold M.call_ids_for_run. cbn. rewrite od_get_set. done.
  - unfold Q.call_ids_for_run. change (Q.call_ids_of (Q.start_run _ _ _ _ _ _ _).2 _)
      with (Q.call_ids_of q (t, r)). by destruct (Q.call_ids_of q (t, r)).
Qed.
End Refinement.
