(* ===== verification/RunActivity.v ===== *)
(** * Active runs

    How the operations of the in-memory run registry of RunControl.v change the number of a
    tenant's active runs, which is what admission limits. *)

From S2P Require Import Prelude PyValue RunControl.
Import RunControlRegistry.

(** 1 when the test holds *)
Definition one_if (b : bool) : Z := if b then 1 else 0.

Lemma count_od_set {K V} `{EqDecision K} (p : V → bool) (k : K) (v : V) (m : list (K * V)) :
  od_wf m →
  count_if p (od_values (od_set k v m))
    = count_if p (od_values m) - (match od_get k m with Some old => one_if (p old) | None => 0 end)
      + one_if (p v).
Proof.
  unfold od_wf. induction m as [|[k' v'] m IH].
  { intros _. change (od_values (od_set k v [])) with [v]. rewrite count_if_cons. cbn.
    unfold count_if. cbn. by destruct (p v). }
  cbn [od_keys od_set od_get fmap list_fmap]. intros [Hni Hnd]%NoDup_cons. specialize (IH Hnd).
  destruct (decide (k = k')) as [->|Hne].
  - change (od_values ((k', v) :: m)) with (v :: od_values m).
    change (od_values ((k', v') :: m)) with (v' :: od_values m).
    rewrite !count_if_cons. unfold one_if. destruct (p v), (p v'); lia.
  - change (od_values ((k', v') :: od_set k v m)) with (v' :: od_values (od_set k v m)).
    change (od_values ((k', v') :: m)) with (v' :: od_values m).
    rewrite !count_if_cons, IH. lia.
Qed.

Lemma count_run_pop_le {K V} `{EqDecision K} (p : V → bool) (ks : list K) (m : list (K * V)) :
  count_if p (od_values (od_pop_all ks m)) ≤ count_if p (od_values m).
Proof.
  rewrite od_pop_all_filter. unfold count_if, od_values. apply inj_le.
  induction m as [|[k v] m IH]; [done|]. rewrite filter_cons. cbn [fmap list_fmap].
  case_decide; cbn [fmap list_fmap snd]; rewrite !filter_cons; repeat case_decide;
    cbn [length]; lia.
Qed.

Definition active_of (tenant_id : string) (r : RunControlRecord) : bool :=
  (rn_tenant_id r =?s tenant_id) && is_active (rn_status r).

Lemma count_active_eq s t : count_active_runs s t = count_if (active_of t) (od_values (records s)).
Proof. done. Qed.

Lemma active_not_terminal status : is_active status = true → is_terminal status = false.
Proof.
  unfold is_active, is_terminal. rewrite bool_decide_eq_true, bool_decide_eq_false.
  intros H1 H2. unfold terminal_statuses in H2. set_solver.
Qed.

(** ** What the operations keep *)

Lemma with_record_wf s k r :
  wf s → k = (rn_tenant_id r, rn_run_id r) → wf (with_records s (od_set k r (records s))).
Proof.
  intros [Hnd Hk] Hr. split; [by apply od_wf_set|]. intros k' r'. cbn.
  destruct (decide (k' = k)) as [->|Hne]; [rewrite od_get_set|rewrite od_get_set_ne by done; auto].
  by intros [= <-].
Qed.

Lemma start_run_wf s n1 n2 t se r co tr : wf s → wf (start_run s n1 n2 t se r co tr).2.
Proof. intros Hwf. by apply with_record_wf. Qed.

Lemma record_tool_call_wf s n t r c : wf s → wf (record_tool_call s n t r c).2.
Proof.
  intros Hwf. unfold record_tool_call. destruct (negb _); [done|].
  destruct (od_get _ _) as [x|] eqn:E; [|done]. apply with_record_wf; [done|].
  by apply Hwf in E.
Qed.

Lemma mark_terminal_wf s n t r st ev m : wf s → wf (mark_terminal s n t r st ev m).2.
Proof.
  intros Hwf. unfold mark_terminal. destruct (od_get _ _) as [x|] eqn:E; [|done].
  apply PruneFacts.prune_wf, with_record_wf; [done|]. by apply Hwf in E.
Qed.

Lemma request_cancel_wf s n t r re : wf s → wf (request_cancel s n t r re).2.
Proof.
  intros Hwf. unfold request_cancel. destruct (od_get _ _) as [x|] eqn:E; [|done].
  apply with_record_wf; [done|]. by apply Hwf in E.
Qed.

Lemma prune_subset s t k r :
  od_get k (records (prune_terminals s t)) = Some r → od_get k (records s) = Some r.
Proof.
  unfold prune_terminals. destruct (_ <=? 0); [done|]. destruct (_ <=? 0); [done|]. cbn.
  rewrite od_get_pop_all. by case_decide.
Qed.

Lemma prune_count_le s t t' : count_active_runs (prune_terminals s t) t' ≤ count_active_runs s t'.
Proof.
  unfold prune_terminals. destruct (_ <=? 0); [done|]. destruct (_ <=? 0); [done|].
  apply count_run_pop_le.
Qed.

(** ** How the operations count *)

(** Whether a run is active in a registry. *)
Definition run_active (s : t) (tenant run : string) : bool :=
  match od_get (tenant, run) (records s) with Some r => is_active (rn_status r) | None => false end.

Lemma old_active s t t' r :
  wf s →
  (match od_get (t', r) (records s) with Some old => one_if (active_of t old) | None => 0 end)
    = if t' =?s t then one_if (run_active s t' r) else 0.
Proof.
  intros [_ Hk]. unfold run_active, active_of. destruct (od_get (t', r) (records s)) as [old|] eqn:E.
  - apply Hk in E. injection E as -> _. by case_bool_decide.
  - by case_bool_decide.
Qed.

Lemma start_run_count s n1 n2 t' se r co tr t :
  wf s →
  count_active_runs (start_run s n1 n2 t' se r co tr).2 t
    = count_active_runs s t + (if t' =?s t then 1 - one_if (run_active s t' r) else 0).
Proof.
  intros Hwf. rewrite !count_active_eq. unfold start_run. cbn [snd records with_records].
  rewrite count_od_set by apply Hwf.
  rewrite (old_active s t) by done. unfold active_of at 2. cbn [rn_tenant_id rn_status].
  change (is_active "running") with true. rewrite andb_true_r.
  destruct (t' =?s t); unfold one_if; lia.
Qed.

(** Replacing a record by one of the same run. *)
Lemma replace_count s t t' r x y :
  wf s → od_get (t', r) (records s) = Some x → rn_tenant_id y = t' →
  count_active_runs (with_records s (od_set (t', r) y (records s))) t
    = count_active_runs s t
      + (if t' =?s t then one_if (is_active (rn_status y)) - one_if (is_active (rn_status x)) else 0).
Proof.
  intros Hwf Hx Hy. rewrite !count_active_eq. cbn [records with_records].
  rewrite count_od_set by apply Hwf.
  rewrite Hx. unfold active_of. rewrite Hy. apply Hwf in Hx. injection Hx as <- _.
  destruct (t' =?s t); cbn [andb]; unfold one_if; lia.
Qed.

Lemma record_tool_call_count s n t' r c t :
  wf s → count_active_runs (record_tool_call s n t' r c).2 t = count_active_runs s t.
Proof.
  intros Hwf. unfold record_tool_call. destruct (negb _); [done|].
  destruct (od_get _ _) as [x|] eqn:E; [|done]. cbn [snd].
  pose proof E as Hk. apply Hwf in Hk. injection Hk as Ht _.
  erewrite replace_count; [|done|exact E|done]. cbn. destruct (_ =?s _); lia.
Qed.

Lemma mark_terminal_count s n t' r st ev m t :
  wf s → is_active st = false →
  count_active_runs (mark_terminal s n t' r st ev m).2 t
    ≤ count_active_runs s t - (if t' =?s t then one_if (run_active s t' r) else 0).
Proof.
  intros Hwf Hst. unfold mark_terminal, run_active.
  destruct (od_get _ _) as [x|] eqn:E; [|destruct (_ =?s _); cbn; lia]. cbn [snd].
  etrans; [apply prune_count_le|]. pose proof E as Hk. apply Hwf in Hk. injection Hk as Ht _.
  erewrite replace_count; [|done|exact E|done]. cbn [rn_status]. rewrite Hst.
  destruct (_ =?s _); cbn; lia.
Qed.

Lemma request_cancel_count s n t' r re t :
  wf s →
  count_active_runs (request_cancel s n t' r re).2 t
    = count_active_runs s t +
      (if t' =?s t then
         match od_get (t', r) (records s) with
         | Some x => one_if (negb (is_terminal (rn_status x))) - one_if (is_active (rn_status x))
         | None => 0
         end else 0).
Proof.
  intros Hwf. unfold request_cancel.
  destruct (od_get _ _) as [x|] eqn:E; [|destruct (_ =?s _); cbn; lia]. cbn [snd].
  pose proof E as Hk. apply Hwf in Hk. injection Hk as Ht _.
  erewrite replace_count; [|done|exact E|done]. cbn [rn_status].
  destruct (_ =?s _); [|done]. f_equal. f_equal. destruct (is_terminal (rn_status x)) eqn:Hx; cbn.
  - destruct (is_active (rn_status x)) eqn:Ha; [|done]. apply active_not_terminal in Ha. congruence.
  - done.
Qed.

Lemma run_active_cancelled s n t r re :
  run_active (request_cancel s n t r re).2 t r =
  match od_get (t, r) (records s) with
  | Some x => negb (is_terminal (rn_status x))
  | None => false
  end.
Proof.
  unfold run_active, request_cancel. destruct (od_get (t, r) (records s)) as [x|] eqn:E.
  - cbn [snd records with_records]. rewrite od_get_set. cbn [rn_status].
    destruct (is_terminal (rn_status x)) eqn:Ht; [|done]. cbn [negb].
    destruct (is_active (rn_status x)) eqn:Ha; [|done]. apply active_not_terminal in Ha. congruence.
  - cbn [snd]. by rewrite E.
Qed.

(** What marking leaves in the registry for the run. *)
Lemma mark_terminal_status s n t r st ev m x :
  od_get (t, r) (records (mark_terminal s n t r st ev m).2) = Some x → rn_status x = st.
Proof.
  unfold mark_terminal. destruct (od_get (t, r) (records s)) eqn:E.
  - intros H%prune_subset. cbn in H. rewrite od_get_set in H. by injection H as <-.
  - cbn. by rewrite E.
Qed.
