(* ===== verification/AgentScaler.v ===== *)
(** * Autoscaling decisions

    Models src/core/agent_scaler.py.  The product of a concurrency and the
    configured ratio is a float product: [float_mul] stands for its rounding. *)

From S2P Require Import Prelude PyValue.
From Stdlib Require Import Qround.

Record AgentScalerConfig := mkConfig {
  enabled : bool;
  min_concurrency : Z;
  max_concurrency : Z;
  scale_up_backlog_threshold : Z;
  scale_up_step : Z;
  scale_up_cooldown_evaluations : Z;
  scale_up_hysteresis_backlog_delta : Z;
  backpressure_backlog_threshold : Z;
  backpressure_active_ratio_threshold : Q;
}.

Definition default_config : AgentScalerConfig :=
  mkConfig false 1 8 2 1 0 0 8 (inject_Z 1).

Record AgentScalerDecision := mkDecision {
  target_concurrency : Z;
  scale_up : bool;
  backpressure : bool;
  sd_reason_code : string;
  diagnostics : pydict;
}.

Record AgentScaler := mkScaler {
  config : AgentScalerConfig;
  cooldown_remaining : Z;
  last_scale_up_target : Z;
}.

(** The constructor checks the configuration in this order. *)
Definition validate_config (c : AgentScalerConfig) : res AgentScalerConfig :=
  guard! 1 <=? min_concurrency c else ValueError "min_concurrency must be >= 1" in
  guard! min_concurrency c <=? max_concurrency c
    else ValueError "max_concurrency must be >= min_concurrency" in
  guard! 0 <=? scale_up_backlog_threshold c
    else ValueError "scale_up_backlog_threshold must be >= 0" in
  guard! 1 <=? scale_up_step c else ValueError "scale_up_step must be >= 1" in
  guard! 0 <=? scale_up_cooldown_evaluations c
    else ValueError "scale_up_cooldown_evaluations must be >= 0" in
  guard! 0 <=? scale_up_hysteresis_backlog_delta c
    else ValueError "scale_up_hysteresis_backlog_delta must be >= 0" in
  guard! 1 <=? backpressure_backlog_threshold c
    else ValueError "backpressure_backlog_threshold must be >= 1" in
  guard! 0 <? Qnum (backpressure_active_ratio_threshold c)
    else ValueError "backpressure_active_ratio_threshold must be > 0" in
  Ok c.

Definition init (c : AgentScalerConfig) : res AgentScaler :=
  let! c := validate_config c in Ok (mkScaler c 0 0).

Section evaluate.
Variable float_mul : Z → Q → Q.

Definition scaler_diagnostics (threshold active cooldown : Z) : pydict :=
  [("effective_scale_up_threshold", PInt threshold); ("active_threshold", PInt active);
   ("cooldown_remaining", PInt cooldown)].

(** Raised by the hysteresis delta after a scale-up to this size or beyond. *)
Definition effective_scale_up_threshold (s : AgentScaler) (normalized : Z) : Z :=
  let c := config s in
  if (0 <? scale_up_hysteresis_backlog_delta c)
     && (normalized <=? last_scale_up_target s)
     && (min_concurrency c <? normalized)
  then scale_up_backlog_threshold c + scale_up_hysteresis_backlog_delta c
  else scale_up_backlog_threshold c.

Definition evaluate (s : AgentScaler) (active_jobs pending_jobs current_concurrency : Z)
    : AgentScalerDecision * AgentScaler :=
  let c := config s in
  let normalized := Z.max current_concurrency (min_concurrency c) in
  if negb (enabled c) then
    (mkDecision normalized false false "SCALER_DISABLED"
       (scaler_diagnostics (scale_up_backlog_threshold c) 0 (cooldown_remaining s)), s)
  else
    let active_threshold :=
      Qceiling (float_mul normalized (backpressure_active_ratio_threshold c)) in
    let threshold := effective_scale_up_threshold s normalized in
    let cooldown_applied := 0 <? cooldown_remaining s in
    let cooldown := if cooldown_applied then cooldown_remaining s - 1 else cooldown_remaining s in
    let over := (threshold <=? pending_jobs) && (normalized <? max_concurrency c) in
    let '(target, up, cooldown, last, reason) :=
      if over && negb cooldown_applied then
        let target := Z.min (max_concurrency c) (normalized + scale_up_step c) in
        if normalized <? target
        then (target, true, scale_up_cooldown_evaluations c, target, "OK")
        else (target, false, cooldown, last_scale_up_target s, "OK")
      else if cooldown_applied && over
      then (normalized, false, cooldown, last_scale_up_target s, "SCALER_COOLDOWN_ACTIVE")
      else (normalized, false, cooldown, last_scale_up_target s, "OK") in
    let pressed :=
      (backpressure_backlog_threshold c <=? pending_jobs) && (active_threshold <=? active_jobs) in
    let reason :=
      if pressed then "BACKPRESSURE_THRESHOLD_EXCEEDED"
      else if up then "SCALE_UP_THRESHOLD_REACHED" else reason in
    (mkDecision target up pressed reason
       (scaler_diagnostics threshold active_threshold cooldown
          ++ [("cooldown_applied", PBool cooldown_applied)]),
     mkScaler c cooldown last).

(** A sequence of evaluations. *)
Fixpoint evaluations (s : AgentScaler) (inputs : list (Z * Z * Z))
    : list AgentScalerDecision :=
  match inputs with
  | [] => []
  | (active, pending, current) :: inputs =>
      let '(d, s') := evaluate s active pending current in
      d :: evaluations s' inputs
  end.

Definition scaler_wf (s : AgentScaler) : Prop :=
  validate_config (config s) = Ok (config s) ∧
  0 ≤ cooldown_remaining s ≤ scale_up_cooldown_evaluations (config s).

Lemma validate_config_ok c c' :
  validate_config c = Ok c' →
  c' = c ∧ 1 ≤ min_concurrency c ≤ max_concurrency c ∧ 1 ≤ scale_up_step c ∧
  0 ≤ scale_up_cooldown_evaluations c.
Proof.
  unfold validate_config.
  repeat (match goal with |- context [if ?b then _ else _] => destruct b eqn:? end; [|done]).
  intros [= <-]. split_and!; try done; lia.
Qed.

Lemma init_wf c s : init c = Ok s → scaler_wf s ∧ config s = c.
Proof.
  unfold init. destruct (validate_config c) as [c'|] eqn:E; [|done]. cbn. intros [= <-].
  pose proof (validate_config_ok _ _ E) as (-> & ? & ? & ?). split; [|done].
  split; cbn; [done|lia].
Qed.

(** One evaluation: the target's range, when it scales, and the cooldown. *)
Lemma scaler_evaluate_spec s active pending current :
  scaler_wf s →
  let c := config s in
  let normalized := Z.max current (min_concurrency c) in
  let '(d, s') := evaluate s active pending current in
  scaler_wf s' ∧ config s' = c ∧
  normalized ≤ target_concurrency d ≤ Z.max normalized (max_concurrency c) ∧
  (scale_up d = true → enabled c = true ∧ scale_up_backlog_threshold c ≤ pending) ∧
  (scale_up d = true ↔ normalized < target_concurrency d) ∧
  target_concurrency d ≤ normalized + scale_up_step c ∧
  (scale_up d = true → cooldown_remaining s' = scale_up_cooldown_evaluations c) ∧
  (0 < cooldown_remaining s → scale_up d = false) ∧
  (scale_up d = false → cooldown_remaining s - 1 ≤ cooldown_remaining s').
Proof.
  intros [Hv Hcd]. pose proof (validate_config_ok _ _ Hv) as (_ & Hmin & Hstep & Hcool).
  cbv zeta. unfold evaluate.
  destruct (enabled (config s)) eqn:Een; cbn [negb].
  2:{ split_and!; cbn; try done; try lia. }
  set (threshold := effective_scale_up_threshold s _).
  assert (scale_up_backlog_threshold (config s) ≤ threshold) as Hth.
  { subst threshold. unfold effective_scale_up_threshold.
    destruct (Z.ltb_spec 0 (scale_up_hysteresis_backlog_delta (config s))); cbn; [|lia].
    destruct (_ && _); lia. }
  destruct (Z.leb_spec threshold pending), (Z.ltb_spec (Z.max current (min_concurrency (config s)))
    (max_concurrency (config s))), (Z.ltb_spec 0 (cooldown_remaining s)); cbn [andb negb];
    try destruct (Z.ltb_spec (Z.max current (min_concurrency (config s)))
      (Z.min (max_concurrency (config s))
         (Z.max current (min_concurrency (config s)) + scale_up_step (config s))));
    split_and!; cbn; try done; try lia; try (intros; split; [done|lia]); try (split; intros; (done || lia));
    try (split; cbn; [done|lia]).
Qed.
End evaluate.

(** A scaler built from a configuration keeps every target between the
    normalized concurrency and the configured maximum, moves it by at most one
    step, scales exactly when the target really grows and only when enabled and the
    backlog has reached the threshold, and after scaling up refuses
    to scale again for the configured number of evaluations. *)
Theorem scaler_targets_and_cooldown float_mul c s inputs :
  init c = Ok s →
  let ds := evaluations float_mul s inputs in
  (∀ i d a p k, ds !! i = Some d → inputs !! i = Some (a, p, k) →
     let normalized := Z.max k (min_concurrency c) in
     normalized ≤ target_concurrency d ≤ Z.max normalized (max_concurrency c) ∧
     target_concurrency d ≤ normalized + scale_up_step c ∧
     (scale_up d = true ↔ normalized < target_concurrency d) ∧
     (scale_up d = true → enabled c = true ∧ scale_up_backlog_threshold c ≤ p)) ∧
  (∀ i j d e, ds !! i = Some d → ds !! j = Some e → scale_up d = true → (i < j)%nat →
     Z.of_nat (j - i) ≤ scale_up_cooldown_evaluations c → scale_up e = false).
Proof.
  intros [Hwf Hc]%init_wf. cbv zeta.
  assert (∀ inputs s, scaler_wf s → config s = c →
    ∀ j e, evaluations float_mul s inputs !! j = Some e →
      Z.of_nat j < cooldown_remaining s → scale_up e = false) as Hcool.
  { clear. induction inputs as [|[[a p] k] inputs IH]; intros s Hwf Hc j e; [done|].
    cbn [evaluations]. pose proof (scaler_evaluate_spec float_mul s a p k Hwf) as H. cbv zeta in H.
    destruct (evaluate float_mul s a p k) as [d s']. destruct H as (Hwf' & Hc' & _ & _ & _ & _ & _ & H0 & H1).
    destruct j as [|j]; cbn; [intros [= <-] ?; apply H0; lia|]. intros Hj Hlt.
    apply (IH s' Hwf' ltac:(by rewrite Hc') j e Hj).
    specialize (H1 (H0 ltac:(lia))). lia. }
  split.
  - revert s Hwf Hc. induction inputs as [|[[a p] k] inputs IH]; intros s Hwf Hc i d a' p' k'; [done|].
    cbn [evaluations]. pose proof (scaler_evaluate_spec float_mul s a p k Hwf) as H. cbv zeta in H.
    destruct (evaluate float_mul s a p k) as [d0 s']. rewrite Hc in H.
    destruct H as (Hwf' & Hc' & Ht & He & Hu & Hs & _).
    destruct i as [|i]; cbn; [by intros [= <-] [= <- <- <-]|]. by apply (IH s' Hwf' Hc').
  - revert s Hwf Hc. induction inputs as [|[[a p] k] inputs IH]; intros s Hwf Hc i j d e; [done|].
    cbn [evaluations]. pose proof (scaler_evaluate_spec float_mul s a p k Hwf) as H. cbv zeta in H.
    destruct (evaluate float_mul s a p k) as [d0 s']. rewrite Hc in H.
    destruct H as (Hwf' & Hc' & _ & _ & _ & _ & Hcd & _).
    destruct j as [|j]; [lia|]. destruct i as [|i]; cbn.
    + intros [= <-] He Hup _ Hle. apply (Hcool inputs s' Hwf' Hc' j e He).
      rewrite (Hcd Hup). lia.
    + intros Hd He Hup Hlt Hle. apply (IH s' Hwf' Hc' i j d e Hd He Hup); lia.
Qed.

Definition demo_config : AgentScalerConfig := mkConfig true 1 4 2 1 2 0 8 (inject_Z 1).

Lemma scaler_targets_and_cooldown_witness :
  ∃ s,
    init demo_config = Ok s ∧
    let ds := evaluations (λ n q, QArith_base.Qmult (inject_Z n) q) s
                [(1, 5, 1); (1, 5, 2); (1, 5, 2); (1, 5, 2)] in
    scale_up <$> ds = [true; false; false; true] ∧
    ∀ i j d e, ds !! i = Some d → ds !! j = Some e → scale_up d = true → (i < j)%nat →
      Z.of_nat (j - i) ≤ 2 → scale_up e = false.
Proof.
  exists (mkScaler demo_config 0 0). split; [reflexivity|]. split; [vm_compute; reflexivity|].
  apply (scaler_targets_and_cooldown (λ n q, QArith_base.Qmult (inject_Z n) q) demo_config
    (mkScaler demo_config 0 0) [(1, 5, 1); (1, 5, 2); (1, 5, 2); (1, 5, 2)]).
  reflexivity.
Defined.
