(* ===== verification/BackgroundRuntime.v ===== *)
(** * The background runtime

    Models src/core/background_runtime.py.  Job objects are shared between the
    runtime's dictionary and the asyncio tasks that run them, so they live in a
    heap and are named by their index; a task is created, runs, and ends.  The
    event loop's turns are the steps of [bg_step].  What the scheduler does during
    a job is Scheduler.v; here a running job returns a result, is cancelled or
    raises.  Calls on the logger and timeline, the metrics and the tracer are
    [bg_action]s. *)

From S2P Require Import Prelude PyValue Observability Tenancy TaskGraph Scheduler.
From S2P Require Import AgentScaler.
Import Quotas.

Inductive JobStatus := JobPending | JobRunning | JobCompleted | JobFailed | JobCancelled.

#[export] Instance JobStatus_eq_dec : EqDecision JobStatus.
Proof. solve_decision. Defined.

Definition job_status_value (s : JobStatus) : string :=
  match s with
  | JobPending => "pending" | JobRunning => "running" | JobCompleted => "completed"
  | JobFailed => "failed" | JobCancelled => "cancelled"
  end.

Definition terminal_status (s : JobStatus) : bool :=
  match s with JobCompleted | JobFailed | JobCancelled => true | _ => false end.

Definition active_status (s : JobStatus) : bool :=
  match s with JobPending | JobRunning => true | _ => false end.

(** The entries of [job.metadata]. *)
Record JobMetadata := mkMetadata {
  md_payload : option pydict;
  md_graph : option TaskGraph;
  md_tenant_id : option string;
  md_scaler_decision : option AgentScalerDecision;
}.

Record BackgroundJob := mkJob {
  bj_job_id : string;
  bj_status : JobStatus;
  bj_result : option SchedulerResult;
  bj_error : string;
  bj_metadata : JobMetadata;
}.

(** [str(job.metadata.get("tenant_id", "default"))] *)
Definition job_tenant (j : BackgroundJob) : string := default "default" (md_tenant_id (bj_metadata j)).

Inductive task_phase := TaskCreated | TaskRunning | TaskDone.

#[export] Instance task_phase_eq_dec : EqDecision task_phase.
Proof. solve_decision. Defined.

(** An asyncio task running [_run_job]; [tk_cancel]: [cancel()] was called. *)
Record task := mkTask { tk_job : nat; tk_resume : bool; tk_phase : task_phase; tk_cancel : bool }.

Inductive bg_action :=
| BgEmit (correlation tenant event message : string) (context : option pydict) (level : LogLevel)
| BgInc (key : string)
| BgGauge (key : string) (value : Z)
| BgStartSpan (correlation name : string) (attributes : pydict)
| BgFinishSpan (correlation status : string) (attributes : option pydict) (error : string).

Record bg := mkBg {
  heap : list BackgroundJob;
  jobs : list (string * nat);
  tasks : list task;
  job_tasks : list (string * nat);
  pool : WorkerPool.WorkerPool;
  scaler : option AgentScaler;
  quota : TenantQuotaManager;
}.

Definition init_runtime (p : WorkerPool.WorkerPool) (sc : option AgentScaler)
    (q : option TenantQuotaManager) : bg :=
  mkBg [] [] [] [] p sc (default default_manager q).

Definition with_heap (s : bg) (h : list BackgroundJob) : bg :=
  mkBg h (jobs s) (tasks s) (job_tasks s) (pool s) (scaler s) (quota s).

Definition set_job (s : bg) (j : nat) (job : BackgroundJob) : bg :=
  with_heap s (<[j := job]> (heap s)).

Definition with_status (job : BackgroundJob) (st : JobStatus) : BackgroundJob :=
  mkJob (bj_job_id job) st (bj_result job) (bj_error job) (bj_metadata job).

Definition with_tasks (s : bg) (ts : list task) (jt : list (string * nat)) : bg :=
  mkBg (heap s) (jobs s) ts jt (pool s) (scaler s) (quota s).

(** The jobs in the dictionary, in its order. *)
Definition known_jobs (s : bg) : list BackgroundJob := omap (λ j, heap s !! j) (od_values (jobs s)).

Definition active_of (tenant_id : string) (j : BackgroundJob) : bool :=
  (job_tenant j =?s tenant_id) && active_status (bj_status j).

Definition count_active_jobs (s : bg) (tenant_id : string) : Z :=
  count_if (active_of tenant_id) (known_jobs s).

Definition count_pending_jobs (s : bg) (tenant_id : string) : Z :=
  count_if (λ j, (job_tenant j =?s tenant_id) && bool_decide (bj_status j = JobPending)) (known_jobs s).

Definition get_job (s : bg) (job_id : string) : option BackgroundJob :=
  od_get job_id (jobs s) ≫= λ j, heap s !! j.

Definition not_found (job_id : string) : exn := KeyError ("Job '" +:+ job_id +:+ "' was not found").

Section runtime.
Variable float_repr : Q → string.
Variable float_mul : Z → Q → Q.

Definition evaluate_scaler (s : bg) (active_jobs pending_jobs : Z)
    : AgentScalerDecision * option AgentScaler :=
  let current := WorkerPool.max_concurrency (pool s) in
  match scaler s with
  | None =>
      (mkDecision current false false "SCALER_NOT_CONFIGURED"
         (scaler_diagnostics 0 0 0 ++ [("cooldown_applied", PBool false)]), None)
  | Some sc =>
      let '(d, sc') := evaluate float_mul sc active_jobs pending_jobs current in (d, Some sc')
  end.

(** The actions of a scale-up that the pool performed. *)
Definition scale_up_actions (job_id tenant_id : string) (d : AgentScalerDecision)
    : list bg_action :=
  [BgEmit job_id tenant_id "background.scaler_scale_up"
     "Background scaler increased worker pool concurrency"
     (Some [("target_concurrency", PInt (target_concurrency d));
            ("reason_code", PStr (sd_reason_code d)); ("diagnostics", PDict (diagnostics d))])
     Info_;
   BgInc "background.scaler.scale_up";
   BgGauge "background.scaler.target_concurrency" (target_concurrency d)].

Definition scale_pool (p : WorkerPool.WorkerPool) (job_id tenant_id : string)
    (d : AgentScalerDecision) : res (WorkerPool.WorkerPool * list bg_action) :=
  if scale_up d then
    match WorkerPool.scale_up_to p (target_concurrency d) with
    | Ok (true, p') => Ok (p', scale_up_actions job_id tenant_id d)
    | Ok (false, p') => Ok (p', [])
    | Raise e => Raise e
    end
  else Ok (p, []).

Definition new_job (job_id tenant_id : string) (graph : TaskGraph) (payload : pydict)
    (d : AgentScalerDecision) : BackgroundJob :=
  mkJob job_id JobPending None "" (mkMetadata (Some payload) (Some graph) (Some tenant_id) (Some d)).

(** Storing the job and creating its task. *)
Definition register_job (s : bg) (job : BackgroundJob) : bg :=
  mkBg (heap s ++ [job]) (od_set (bj_job_id job) (length (heap s)) (jobs s))
    (tasks s ++ [mkTask (length (heap s)) false TaskCreated false])
    (od_set (bj_job_id job) (length (tasks s)) (job_tasks s)) (pool s) (scaler s) (quota s).

(** [job_id] is the empty string for None; [uuid] is [uuid4().hex]. *)
Definition resolve_job_id (job_id uuid : string) : string := py_or job_id ("job_" +:+ uuid).

Definition submit (s : bg) (graph : TaskGraph) (payload : option pydict) (job_id uuid : string)
    : res string * bg * list bg_action :=
  let id := resolve_job_id job_id uuid in
  let resolved_payload := default [] payload in
  let tenant_id := dict_get_str float_repr resolved_payload "tenant_id" "default" in
  let active_jobs := count_active_jobs s tenant_id in
  let '(d, sc) := evaluate_scaler s active_jobs (count_pending_jobs s tenant_id) in
  let s := mkBg (heap s) (jobs s) (tasks s) (job_tasks s) (pool s) sc (quota s) in
  match scale_pool (pool s) id tenant_id d with
  | Raise e => (Raise e, s, [])
  | Ok (p, acts) =>
      let s := mkBg (heap s) (jobs s) (tasks s) (job_tasks s) p sc (quota s) in
      if backpressure d then
        (Raise (ValueError "BACKPRESSURE_THRESHOLD_EXCEEDED: Submission rejected because backlog and active load exceeded threshold"),
         s, acts ++ [BgInc "background.scaler.backpressure_rejected"])
      else
        let q := check_submission (quota s) tenant_id active_jobs in
        if negb (allowed q) then
          (Raise (ValueError (reason_code q +:+ ": " +:+ message q)), s, acts)
        else
          (Ok id, register_job s (new_job id tenant_id graph resolved_payload d),
           acts ++
           [BgEmit id tenant_id "background.job_submitted" "Background job submitted"
              (Some [("node_count", PInt (Z.of_nat (length (node_ids graph))));
                     ("quota_reason", PStr (reason_code q))]) Info_;
            BgInc "background.job.submitted"])
  end.

Definition cancel_job (s : bg) (job_id : string) : res bool * bg * list bg_action :=
  match get_job s job_id with
  | None => (Raise (not_found job_id), s, [])
  | Some job =>
      if terminal_status (bj_status job) then (Ok false, s, [])
      else
        match od_get job_id (job_tasks s) with
        | None => (Ok false, s, [])
        | Some t =>
            match tasks s !! t with
            | None => (Ok false, s, [])
            | Some tk =>
                if decide (tk_phase tk = TaskDone) then (Ok false, s, [])
                else
                  (Ok true,
                   with_tasks s
                     (<[t := mkTask (tk_job tk) (tk_resume tk) (tk_phase tk) true]> (tasks s))
                     (job_tasks s),
                   [BgEmit job_id (job_tenant job) "background.job_cancel_requested"
                      "Background job cancel requested" None Warning_;
                    BgInc "background.job.cancel.requested"])
            end
        end
  end.

Definition resume_job (s : bg) (job_id : string) : res string * bg * list bg_action :=
  match od_get job_id (jobs s) ≫= λ j, pair j <$> heap s !! j with
  | None => (Raise (not_found job_id), s, [])
  | Some (j, job) =>
      if negb (bool_decide (bj_status job ∈ [JobFailed; JobCancelled])) then
        (Raise (RuntimeError ("Job '" +:+ job_id +:+ "' is in status '"
           +:+ job_status_value (bj_status job) +:+ "' and cannot be resumed")), s, [])
      else
        match md_graph (bj_metadata job) with
        | None =>
            (Raise (RuntimeError ("Job '" +:+ job_id
               +:+ "' cannot be resumed because graph metadata is missing")), s, [])
        | Some _ =>
            let s := set_job s j (mkJob (bj_job_id job) JobPending None "" (bj_metadata job)) in
            (Ok job_id,
             with_tasks s (tasks s ++ [mkTask j true TaskCreated false])
               (od_set job_id (length (tasks s)) (job_tasks s)),
             [BgEmit job_id (job_tenant job) "background.job_resume_requested"
                "Background job resume requested" None Info_;
              BgInc "background.job.resume.requested"])
        end
  end.

(** *** The task's body, [_run_job] *)

(** Up to [await self._scheduler.execute(...)]. *)
Definition run_job_start (s : bg) (t : nat) : option (bg * list bg_action) :=
  tk ← tasks s !! t;
  job ← heap s !! tk_job tk;
  if decide (tk_phase tk = TaskCreated ∧ tk_cancel tk = false) then
    Some (with_tasks (set_job s (tk_job tk) (with_status job JobRunning))
            (<[t := mkTask (tk_job tk) (tk_resume tk) TaskRunning (tk_cancel tk)]> (tasks s))
            (job_tasks s),
          [BgStartSpan (bj_job_id job) "background.run_job" [("resume", PBool (tk_resume tk))];
           BgEmit (bj_job_id job) (job_tenant job) "background.job_started"
             "Background job execution started" (Some [("resume", PBool (tk_resume tk))]) Info_])
  else None.

(** asyncio throws the CancelledError into a coroutine that has not started:
    none of its code runs, and the task is done. *)
Definition run_job_never_started (s : bg) (t : nat) : option bg :=
  tk ← tasks s !! t;
  if decide (tk_phase tk = TaskCreated ∧ tk_cancel tk = true) then
    Some (with_tasks s
            (<[t := mkTask (tk_job tk) (tk_resume tk) TaskDone (tk_cancel tk)]> (tasks s))
            (job_tasks s))
  else None.

(** How awaiting the scheduler ends. *)
Inductive execution :=
| ExecReturns (r : SchedulerResult)
| ExecCancelled
| ExecRaises (message : string).

(** The job and the actions after each ending. *)
Definition finish_job (job : BackgroundJob) (e : execution) : BackgroundJob * list bg_action :=
  let id := bj_job_id job in
  let tenant := job_tenant job in
  match e with
  | ExecReturns r =>
      let failed := result_failed r in
      let ctx := [("failed", PBool failed); ("outcomes", PInt (Z.of_nat (length (sr_outcomes r))))] in
      (mkJob id (if failed then JobFailed else JobCompleted) (Some r) (bj_error job) (bj_metadata job),
       [BgEmit id tenant "background.job_finished" "Background job execution completed"
          (Some ctx) (if failed then Error_ else Info_);
        BgInc (if failed then "background.job.failed" else "background.job.completed");
        BgFinishSpan id (if failed then "error" else "ok") (Some ctx) ""])
  | ExecCancelled =>
      (with_status job JobCancelled,
       [BgEmit id tenant "background.job_cancelled" "Background job execution cancelled" None Warning_;
        BgInc "background.job.cancelled"; BgFinishSpan id "cancelled" None ""])
  | ExecRaises msg =>
      (mkJob id JobFailed (bj_result job) msg (bj_metadata job),
       [BgEmit id tenant "background.job_error" "Background job execution error"
          (Some [("error", PStr msg)]) Error_;
        BgInc "background.job.error"; BgFinishSpan id "error" None msg])
  end.

(** From the end of the await to the end of the task. *)
Definition run_job_finish (s : bg) (t : nat) (e : execution) : option (bg * list bg_action) :=
  tk ← tasks s !! t;
  job ← heap s !! tk_job tk;
  if decide (tk_phase tk = TaskRunning) then
    let '(job', acts) := finish_job job e in
    let jt :=
      if decide (od_get (bj_job_id job) (job_tasks s) = Some t)
      then od_pop (bj_job_id job) (job_tasks s) else job_tasks s in
    Some (with_tasks (set_job s (tk_job tk) job')
            (<[t := mkTask (tk_job tk) (tk_resume tk) TaskDone (tk_cancel tk)]> (tasks s)) jt, acts)
  else None.

(** *** Steps of the event loop *)

Inductive event :=
| EvSubmit (graph : TaskGraph) (payload : option pydict) (job_id uuid : string)
| EvCancel (job_id : string)
| EvResume (job_id : string)
| EvStart (t : nat)
| EvNeverStarted (t : nat)
| EvFinish (t : nat) (e : execution).

(** A running task sees a CancelledError only after [cancel()]. *)
Inductive bg_step : event → bg → bg → Prop :=
| bs_submit s g p id u r s' acts :
    submit s g p id u = (r, s', acts) → bg_step (EvSubmit g p id u) s s'
| bs_cancel s id r s' acts : cancel_job s id = (r, s', acts) → bg_step (EvCancel id) s s'
| bs_resume s id r s' acts : resume_job s id = (r, s', acts) → bg_step (EvResume id) s s'
| bs_start s t s' acts : run_job_start s t = Some (s', acts) → bg_step (EvStart t) s s'
| bs_never_started s t s' : run_job_never_started s t = Some s' → bg_step (EvNeverStarted t) s s'
| bs_finish s t e s' acts tk :
    tasks s !! t = Some tk → (e = ExecCancelled → tk_cancel tk = true) →
    run_job_finish s t e = Some (s', acts) → bg_step (EvFinish t e) s s'.

(** Reachable by events that satisfy [P]. *)
Inductive reachable (P : event → Prop) (s0 : bg) : bg → Prop :=
| reach_refl : reachable P s0 s0
| reach_step s s' e : reachable P s0 s → P e → bg_step e s s' → reachable P s0 s'.
End runtime.
