(* ===== verification/BackgroundFacts.v ===== *)
(** * Properties of the background runtime

    The lifecycle invariant of jobs and their tasks, the tenant quota, and the two
    ways a job escapes them: resuming does not consult the quota, and a job
    cancelled before its task starts never leaves the pending state. *)

From S2P Require Import Prelude PyValue Tenancy TaskGraph Scheduler AgentScaler BackgroundRuntime.
Import Quotas.

Definition live (tk : task) : Prop := tk_phase tk ≠ TaskDone.

(** What relates the heap, the dictionary, the tasks and the task dictionary. *)
Record inv (h : list BackgroundJob) (js : list (string * nat)) (ts : list task)
    (jt : list (string * nat)) : Prop := {
  iv_wf : od_wf js;
  iv_jobs : ∀ id j, od_get id js = Some j → ∃ job, h !! j = Some job ∧ bj_job_id job = id;
  iv_task : ∀ t tk, ts !! t = Some tk → ∃ job, h !! tk_job tk = Some job ∧
    (tk_phase tk = TaskCreated → bj_status job = JobPending) ∧
    (tk_phase tk = TaskRunning → bj_status job = JobRunning);
  iv_unique : ∀ t t' tk tk', ts !! t = Some tk → ts !! t' = Some tk' → live tk → live tk' →
    tk_job tk = tk_job tk' → t = t';
  iv_current : ∀ id t, od_get id jt = Some t →
    ∃ tk, ts !! t = Some tk ∧ od_get id js = Some (tk_job tk);
  iv_live : ∀ t tk id, ts !! t = Some tk → live tk → od_get id js = Some (tk_job tk) →
    od_get id jt = Some t;
  iv_running : ∀ j job, h !! j = Some job → bj_status job = JobRunning →
    ∃ t tk, ts !! t = Some tk ∧ tk_job tk = j ∧ tk_phase tk = TaskRunning;
}.

Definition runtime_inv (s : bg) : Prop := inv (heap s) (jobs s) (tasks s) (job_tasks s).

Lemma inv_empty : inv [] [] [] [].
Proof. split; try done. apply NoDup_nil_2. Qed.

(** A live task moves on: its job is rewritten with it. *)
Lemma inv_task_step h js ts jt jt' t tk tk' job job' :
  inv h js ts jt →
  ts !! t = Some tk → h !! tk_job tk = Some job → live tk →
  tk_job tk' = tk_job tk → bj_job_id job' = bj_job_id job →
  (tk_phase tk' = TaskCreated → bj_status job' = JobPending) →
  (tk_phase tk' = TaskRunning ↔ bj_status job' = JobRunning) →
  jt' = jt ∨ jt' = od_pop (bj_job_id job) jt ∧ od_get (bj_job_id job) jt = Some t ∧
    tk_phase tk' = TaskDone →
  inv (<[tk_job tk := job']> h) js (<[t := tk']> ts) jt'.
Proof.
  intros Hi Ht Hj Hl Etk Eid Hc Hr Hjt.
  assert (t < length ts)%nat as Hlt by (by eapply lookup_lt_Some).
  assert (tk_job tk < length h)%nat as Hjl by (by eapply lookup_lt_Some).
  assert (∀ t1 tk1, <[t:=tk']> ts !! t1 = Some tk1 →
    t1 = t ∧ tk1 = tk' ∨ t1 ≠ t ∧ ts !! t1 = Some tk1) as Hts.
  { intros t1 tk1. destruct (decide (t1 = t)) as [->|Hne].
    - rewrite list_lookup_insert_eq by done. intros [= <-]. by left.
    - rewrite list_lookup_insert_ne by done. by right. }
  assert (∀ t1 tk1, t1 ≠ t → ts !! t1 = Some tk1 → live tk1 → tk_job tk1 ≠ tk_job tk) as Hoth.
  { intros t1 tk1 Hne Ht1 Hl1 E. apply Hne. by apply (iv_unique _ _ _ _ Hi t1 t tk1 tk). }
  split; try apply Hi.
  - intros id j Hid. destruct (iv_jobs _ _ _ _ Hi id j Hid) as (job1 & Hj1 & E1).
    destruct (decide (j = tk_job tk)) as [->|Hne].
    + rewrite list_lookup_insert_eq by done. exists job'. split; [done|]. congruence.
    + rewrite list_lookup_insert_ne by done. eauto.
  - intros t1 tk1 [[-> ->]|[Hne Ht1]]%Hts.
    + exists job'. rewrite Etk, list_lookup_insert_eq by done. naive_solver.
    + destruct (iv_task _ _ _ _ Hi _ _ Ht1) as (job1 & Hj1 & Hs).
      destruct (decide (tk_job tk1 = tk_job tk)) as [E|Hnj].
      * exists job'. rewrite E, list_lookup_insert_eq by done. split; [done|].
        assert (tk_phase tk1 = TaskDone) as ->; [|done].
        destruct (decide (tk_phase tk1 = TaskDone)); [done|]. by apply (Hoth t1 tk1) in E.
      * exists job1. by rewrite list_lookup_insert_ne.
  - intros t1 t2 tk1 tk2 [[-> ->]|[Hne1 Ht1]]%Hts [[-> ->]|[Hne2 Ht2]]%Hts; [done|..]; intros Hl1 Hl2 E.
    + exfalso. apply (Hoth t2 tk2 Hne2 Ht2 Hl2). congruence.
    + exfalso. apply (Hoth t1 tk1 Hne1 Ht1 Hl1). congruence.
    + by apply (iv_unique _ _ _ _ Hi t1 t2 tk1 tk2).
  - intros id t1 Hid.
    assert (od_get id jt = Some t1) as Hid'.
    { destruct Hjt as [->|[-> _]]; [done|]. destruct (decide (id = bj_job_id job)) as [->|Hne].
      - by rewrite od_get_pop in Hid.
      - by rewrite od_get_pop_ne in Hid. }
    destruct (iv_current _ _ _ _ Hi _ _ Hid') as (tk1 & Ht1 & Hd).
    destruct (decide (t1 = t)) as [->|Hne].
    + exists tk'. rewrite list_lookup_insert_eq by done. split; [done|]. congruence.
    + exists tk1. by rewrite list_lookup_insert_ne.
  - intros t1 tk1 id [[-> ->]|[Hne Ht1]]%Hts Hl1 Hd.
    + destruct Hjt as [->|(_ & _ & E)]; [|by destruct Hl1].
      apply (iv_live _ _ _ _ Hi t tk); [done|done|congruence].
    + pose proof (iv_live _ _ _ _ Hi _ _ _ Ht1 Hl1 Hd) as Hg.
      destruct Hjt as [->|(-> & Hgt & _)]; [done|]. rewrite od_get_pop_ne; [done|]. intros ->.
      congruence.
  - intros j job1 Hj1 Hs. destruct (decide (j = tk_job tk)) as [->|Hne].
    + rewrite list_lookup_insert_eq in Hj1 by done. injection Hj1 as <-.
      exists t, tk'. rewrite list_lookup_insert_eq by done. naive_solver.
    + rewrite list_lookup_insert_ne in Hj1 by done.
      destruct (iv_running _ _ _ _ Hi _ _ Hj1 Hs) as (t1 & tk1 & Ht1 & E & Hp).
      exists t1, tk1. rewrite list_lookup_insert_ne; [done|]. intros <-. congruence.
Qed.

(** A new task for a pending job without a live one. *)
Lemma inv_new_task h js ts jt id j job resume :
  inv h js ts jt →
  od_get id js = Some j → h !! j = Some job → bj_job_id job = id →
  bj_status job ≠ JobRunning →
  (∀ t tk, ts !! t = Some tk → tk_job tk = j → ¬ live tk) →
  ∀ job', bj_job_id job' = id → bj_status job' = JobPending →
  inv (<[j := job']> h) js (ts ++ [mkTask j resume TaskCreated false])
    (od_set id (length ts) jt).
Proof.
  intros Hi Hid Hj Eid Hst Hdead job' Eid' Hp.
  assert (j < length h)%nat as Hjl by (by eapply lookup_lt_Some).
  assert (∀ t1 tk1, (ts ++ [mkTask j resume TaskCreated false]) !! t1 = Some tk1 →
    ts !! t1 = Some tk1 ∨ t1 = length ts ∧ tk1 = mkTask j resume TaskCreated false) as Hts.
  { intros t1 tk1 [?|[? H]]%lookup_app_Some; [by left|]. right.
    apply list_lookup_singleton_Some in H as [? <-]. split; [lia|done]. }
  split; try apply Hi.
  - intros id1 j1 H1. destruct (iv_jobs _ _ _ _ Hi _ _ H1) as (job1 & Hj1 & E1).
    destruct (decide (j1 = j)) as [->|Hne].
    + rewrite list_lookup_insert_eq by done. exists job'. split; [done|]. congruence.
    + rewrite list_lookup_insert_ne by done. eauto.
  - intros t1 tk1 [Ht1|[-> ->]]%Hts.
    + destruct (iv_task _ _ _ _ Hi _ _ Ht1) as (job1 & Hj1 & Hs).
      destruct (decide (tk_job tk1 = j)) as [E|Hnj].
      * exists job'. rewrite E, list_lookup_insert_eq by done. split; [done|].
        assert (tk_phase tk1 = TaskDone) as ->; [|done].
        destruct (decide (tk_phase tk1 = TaskDone)); [done|]. by destruct (Hdead t1 tk1 Ht1 E).
      * exists job1. by rewrite list_lookup_insert_ne.
    + exists job'. cbn. by rewrite list_lookup_insert_eq.
  - intros t1 t2 tk1 tk2 [Ht1|[-> ->]]%Hts [Ht2|[-> ->]]%Hts Hl1 Hl2 E; [|exfalso..|done].
    + by apply (iv_unique _ _ _ _ Hi t1 t2 tk1 tk2).
    + by apply (Hdead t1 tk1).
    + by apply (Hdead t2 tk2).
  - intros id1 t1. destruct (decide (id1 = id)) as [->|Hne].
    + rewrite od_get_set. intros [= <-]. eexists.
      by rewrite lookup_app_r, Nat.sub_diag by lia.
    + rewrite od_get_set_ne by done. intros H1.
      destruct (iv_current _ _ _ _ Hi _ _ H1) as (tk1 & Ht1 & Hd). exists tk1.
      split; [|done]. by apply lookup_app_l_Some.
  - intros t1 tk1 id1 [Ht1|[-> ->]]%Hts Hl1 Hd.
    + pose proof (iv_live _ _ _ _ Hi _ _ _ Ht1 Hl1 Hd) as Hg.
      rewrite od_get_set_ne; [done|]. intros ->. apply (Hdead t1 tk1 Ht1); [congruence|done].
    + cbn in Hd. destruct (iv_jobs _ _ _ _ Hi _ _ Hd) as (job1 & Hj1 & E1).
      replace id1 with id by congruence. by rewrite od_get_set.
  - intros j1 job1 Hj1 Hs. destruct (decide (j1 = j)) as [->|Hne].
    + rewrite list_lookup_insert_eq in Hj1 by done. congruence.
    + rewrite list_lookup_insert_ne in Hj1 by done.
      destruct (iv_running _ _ _ _ Hi _ _ Hj1 Hs) as (t1 & tk1 & Ht1 & E & Hr).
      exists t1, tk1. split; [|done]. by apply lookup_app_l_Some.
Qed.

(** A new job, under a new or a used id. *)
Lemma inv_new_job h js ts jt job :
  inv h js ts jt → bj_status job = JobPending →
  inv (h ++ [job]) (od_set (bj_job_id job) (length h) js)
    (ts ++ [mkTask (length h) false TaskCreated false]) (od_set (bj_job_id job) (length ts) jt).
Proof.
  intros Hi Hp. set (id := bj_job_id job).
  assert (∀ t tk, ts !! t = Some tk → (tk_job tk < length h)%nat) as Hlt.
  { intros t tk (job1 & ? & _)%(iv_task _ _ _ _ Hi). by eapply lookup_lt_Some. }
  assert (∀ t1 tk1, (ts ++ [mkTask (length h) false TaskCreated false]) !! t1 = Some tk1 →
    ts !! t1 = Some tk1 ∧ (tk_job tk1 < length h)%nat ∨
    t1 = length ts ∧ tk1 = mkTask (length h) false TaskCreated false) as Hts.
  { intros t1 tk1 [?|[? H]]%lookup_app_Some; [left; eauto|]. right.
    apply list_lookup_singleton_Some in H as [? <-]. split; [lia|done]. }
  split.
  - apply od_wf_set, Hi.
  - intros id1 j1. destruct (decide (id1 = id)) as [->|Hne].
    + rewrite od_get_set. intros [= <-]. exists job. by rewrite lookup_app_r, Nat.sub_diag by lia.
    + rewrite od_get_set_ne by done. intros (job1 & Hj1 & E1)%(iv_jobs _ _ _ _ Hi).
      exists job1. split; [by apply lookup_app_l_Some|done].
  - intros t1 tk1 [[Ht1 _]|[-> ->]]%Hts.
    + destruct (iv_task _ _ _ _ Hi _ _ Ht1) as (job1 & Hj1 & Hs). exists job1.
      split; [by apply lookup_app_l_Some|done].
    + exists job. cbn. by rewrite lookup_app_r, Nat.sub_diag by lia.
  - intros t1 t2 tk1 tk2 [[Ht1 H1]|[-> ->]]%Hts [[Ht2 H2]|[-> ->]]%Hts Hl1 Hl2 E; cbn in *; [|lia|lia|done].
    by apply (iv_unique _ _ _ _ Hi t1 t2 tk1 tk2).
  - intros id1 t1. destruct (decide (id1 = id)) as [->|Hne].
    + rewrite !od_get_set. intros [= <-]. eexists.
      by rewrite lookup_app_r, Nat.sub_diag by lia.
    + rewrite !od_get_set_ne by done. intros (tk1 & Ht1 & Hd)%(iv_current _ _ _ _ Hi).
      exists tk1. split; [by apply lookup_app_l_Some|done].
  - intros t1 tk1 id1 [[Ht1 H1]|[-> ->]]%Hts Hl1; destruct (decide (id1 = id)) as [->|Hne].
    + rewrite od_get_set. intros [= E]. lia.
    + rewrite !od_get_set_ne by done. by apply (iv_live _ _ _ _ Hi).
    + by rewrite !od_get_set.
    + rewrite od_get_set_ne by done. cbn. intros (job1 & Hj1%lookup_lt_Some & _)%(iv_jobs _ _ _ _ Hi). lia.
  - intros j1 job1 [Hj1|[? H]]%lookup_app_Some Hs.
    + destruct (iv_running _ _ _ _ Hi _ _ Hj1 Hs) as (t1 & tk1 & Ht1 & E & Hr).
      exists t1, tk1. split; [by apply lookup_app_l_Some|done].
    + apply list_lookup_singleton_Some in H as [_ <-]. congruence.
Qed.

(** ** One operation at a time *)

Definition same_jobs (s s' : bg) : Prop :=
  heap s' = heap s ∧ jobs s' = jobs s ∧ tasks s' = tasks s ∧ job_tasks s' = job_tasks s ∧
  quota s' = quota s.

Section facts.
Context (float_repr : Q → string) (float_mul : Z → Q → Q).

#[local] Notation submit := (submit float_repr float_mul).
#[local] Notation bg_step := (bg_step float_repr float_mul).
#[local] Notation reachable := (reachable float_repr float_mul).

Definition submitted_tenant (payload : option pydict) : string :=
  dict_get_str float_repr (default [] payload) "tenant_id" "default".

(** A submission either changes no job, or registers a new one when the quota
    allows it. *)
Lemma submit_spec s g p id u r s' acts :
  submit s g p id u = (r, s', acts) →
  (∃ e, r = Raise e ∧ same_jobs s s') ∨
  ∃ d s1,
    r = Ok (resolve_job_id id u) ∧ same_jobs s s1 ∧
    s' = register_job s1 (new_job (resolve_job_id id u) (submitted_tenant p) g (default [] p) d) ∧
    allowed (check_submission (quota s) (submitted_tenant p)
      (count_active_jobs s (submitted_tenant p))) = true.
Proof.
  unfold BackgroundRuntime.submit. fold (submitted_tenant p).
  destruct (evaluate_scaler _ _ _ _) as [d sc].
  destruct (scale_pool _ _ _ _) as [[p' a]|e].
  2:{ intros [= <- <- <-]. left. by eexists. }
  destruct (backpressure d); [intros [= <- <- <-]; left; by eexists|].
  cbn [quota]. destruct (allowed _) eqn:Ea; cbn [negb].
  - intros [= <- <- <-]. right. eexists d, _. split_and!; [done| |done|done]. done.
  - intros [= <- <- <-]. left. by eexists.
Qed.

Lemma cancel_job_spec s id r s' acts :
  cancel_job s id = (r, s', acts) →
  s' = s ∨
  ∃ t tk, od_get id (job_tasks s) = Some t ∧ tasks s !! t = Some tk ∧ live tk ∧
    s' = with_tasks s (<[t := mkTask (tk_job tk) (tk_resume tk) (tk_phase tk) true]> (tasks s))
           (job_tasks s).
Proof.
  unfold cancel_job. destruct (get_job s id) as [job|]; [|intros [= _ <- _]; by left].
  destruct (terminal_status _); [intros [= _ <- _]; by left|].
  destruct (od_get id (job_tasks s)) as [t|]; [|intros [= _ <- _]; by left].
  destruct (tasks s !! t) as [tk|] eqn:Et; [|intros [= _ <- _]; by left].
  case_decide; [intros [= _ <- _]; by left|]. intros [= _ <- _]. right. by exists t, tk.
Qed.

Lemma resume_job_spec s id r s' acts :
  resume_job s id = (r, s', acts) →
  s' = s ∧ (∃ e, r = Raise e) ∨
  ∃ j job, od_get id (jobs s) = Some j ∧ heap s !! j = Some job ∧
    (bj_status job = JobFailed ∨ bj_status job = JobCancelled) ∧ r = Ok id ∧
    s' = with_tasks (set_job s j (mkJob (bj_job_id job) JobPending None "" (bj_metadata job)))
           (tasks s ++ [mkTask j true TaskCreated false])
           (od_set id (length (tasks s)) (job_tasks s)).
Proof.
  unfold resume_job. destruct (od_get id (jobs s)) as [j|]; cbn; [|intros [= <- <- _]; left; eauto].
  destruct (heap s !! j) as [job|] eqn:Ej; cbn; [|intros [= <- <- _]; left; eauto].
  case_bool_decide as Hin; cbn; [|intros [= <- <- _]; left; eauto].
  destruct (md_graph _); [|intros [= <- <- _]; left; eauto].
  intros [= <- <- _]. right. exists j, job. split_and!; try done.
  by apply elem_of_cons in Hin as [?|?%list_elem_of_singleton]; auto.
Qed.

Lemma runtime_inv_same s s' : same_jobs s s' → runtime_inv s → runtime_inv s'.
Proof. unfold runtime_inv. by intros (-> & -> & -> & -> & _). Qed.

Lemma live_status s t tk job :
  runtime_inv s → tasks s !! t = Some tk → live tk → heap s !! tk_job tk = Some job →
  active_status (bj_status job) = true.
Proof.
  intros Hi Ht Hl Hj. destruct (iv_task _ _ _ _ Hi _ _ Ht) as (job' & Hj' & Hc & Hr).
  assert (job' = job) as -> by congruence. unfold live in Hl.
  destruct (tk_phase tk); [by rewrite Hc|by rewrite Hr|done].
Qed.

Lemma bg_step_inv e s s' : bg_step e s s' → runtime_inv s → runtime_inv s'.
Proof.
  destruct 1 as [s g p id u r s' acts E|s id r s' acts E|s id r s' acts E|s t s' acts E
    |s t s' E|s t ex s' acts tk Ht Hex E]; intros Hi.
  - apply submit_spec in E as [(e & _ & Hsame)|(d & s1 & _ & Hsame & -> & _)].
    + by eapply runtime_inv_same.
    + pose proof (runtime_inv_same _ _ Hsame Hi) as Hi1. by apply inv_new_job.
  - apply cancel_job_spec in E as [->|(t & tk & Hid & Ht & Hl & ->)]; [done|].
    destruct (iv_task _ _ _ _ Hi _ _ Ht) as (job & Hj & Hc & Hr).
    unfold runtime_inv. cbn.
    rewrite <- (list_insert_id (heap s) (tk_job tk) job) by done.
    eapply inv_task_step; try done; [|by left]. cbn. split; [done|].
    intros Hs. unfold live in Hl. destruct (tk_phase tk); [|done|done].
    rewrite Hc in Hs by done. done.
  - apply resume_job_spec in E as [[-> _]|(j & job & Hid & Hj & Hst & _ & ->)]; [done|].
    destruct (iv_jobs _ _ _ _ Hi _ _ Hid) as (job' & Hj' & Eid).
    assert (job' = job) as -> by congruence.
    apply (inv_new_task (heap s) (jobs s) (tasks s) (job_tasks s) id j job true); try done.
    + by destruct Hst as [->| ->].
    + intros t tk Ht <- Hl. pose proof (live_status s t tk job Hi Ht Hl Hj) as Ha.
      by destruct Hst as [Hst|Hst]; rewrite Hst in Ha.
  - unfold run_job_start in E. destruct (tasks s !! t) as [tk|] eqn:Ht; [|done]. cbn in E.
    destruct (heap s !! tk_job tk) as [job|] eqn:Hj; [|done]. cbn in E.
    case_decide as Hp; [|done]. destruct Hp as [Hp _]. injection E as <- _.
    eapply (inv_task_step (heap s)); try done; [by unfold live; rewrite Hp|by left].
  - unfold run_job_never_started in E. destruct (tasks s !! t) as [tk|] eqn:Ht; [|done]. cbn in E.
    case_decide as Hp; [|done]. destruct Hp as [Hp _]. injection E as <-.
    destruct (iv_task _ _ _ _ Hi _ _ Ht) as (job & Hj & Hc & Hr).
    unfold runtime_inv. cbn.
    rewrite <- (list_insert_id (heap s) (tk_job tk) job) by done.
    eapply inv_task_step; try done; [by unfold live; rewrite Hp| |by left].
    cbn. rewrite Hc by done. done.
  - unfold run_job_finish in E. rewrite Ht in E. cbn in E.
    destruct (heap s !! tk_job tk) as [job|] eqn:Hj; [|done]. cbn in E.
    case_decide as Hp; [|done]. destruct (finish_job job ex) as [job' a] eqn:Ef.
    injection E as <- _.
    assert (bj_job_id job' = bj_job_id job ∧ active_status (bj_status job') = false) as [Eid Hact].
    { unfold finish_job in Ef. destruct ex as [r| |m]; injection Ef as <- _; cbn; [|done|done].
      split; [done|]. by destruct (result_failed r). }
    eapply (inv_task_step (heap s)); try done; [by unfold live; rewrite Hp| |].
    + cbn. split; [done|]. intros Hs. by rewrite Hs in Hact.
    + case_decide; [by right|by left].
Qed.

Lemma runtime_reachable_inv P p sc q s : reachable P (init_runtime p sc q) s → runtime_inv s.
Proof. induction 1; [apply inv_empty|by eapply bg_step_inv]. Qed.

(** ** Lifecycle *)

Definition any_event (e : event) : Prop := True.

(** In every reachable state of the runtime a known job has at most one
    task that is not done; it is running exactly when that task runs, a finished
    job has none, and [cancel_job] answers true exactly when there is one. *)
Theorem job_lifecycle p sc q s id j job :
  reachable any_event (init_runtime p sc q) s →
  od_get id (jobs s) = Some j → heap s !! j = Some job →
  let live_task t := ∃ tk, tasks s !! t = Some tk ∧ tk_job tk = j ∧ live tk in
  (∀ t t', live_task t → live_task t' → t = t') ∧
  (bj_status job = JobRunning ↔
     ∃ t tk, tasks s !! t = Some tk ∧ tk_job tk = j ∧ tk_phase tk = TaskRunning) ∧
  (terminal_status (bj_status job) = true → ∀ t, ¬ live_task t) ∧
  ((cancel_job s id).1.1 = Ok true ↔ ∃ t, live_task t).
Proof.
  intros Hr Hid Hj live_task. pose proof (runtime_reachable_inv _ _ _ _ _ Hr) as Hi.
  assert (∀ t, live_task t → active_status (bj_status job) = true) as Hact.
  { intros t (tk & Ht & <- & Hl). by apply (live_status s t tk). }
  split_and!.
  - intros t t' (tk & Ht & E & Hl) (tk' & Ht' & E' & Hl').
    apply (iv_unique _ _ _ _ Hi t t' tk tk'); try done. congruence.
  - split; [by apply (iv_running _ _ _ _ Hi)|]. intros (t & tk & Ht & <- & Hp).
    destruct (iv_task _ _ _ _ Hi _ _ Ht) as (job' & Hj' & _ & Hrun).
    assert (job' = job) as -> by congruence. auto.
  - intros Hterm t Hl. specialize (Hact t Hl). by destruct (bj_status job).
  - unfold cancel_job, get_job. rewrite Hid. cbn. rewrite Hj. cbn. split.
    + destruct (terminal_status _); [done|].
      destruct (od_get id (job_tasks s)) as [t|] eqn:Et; [|done].
      destruct (iv_current _ _ _ _ Hi _ _ Et) as (tk & Ht & Hjt). rewrite Ht.
      case_decide; [done|]. intros _. exists t, tk. split_and!; [done|congruence|done].
    + intros (t & Hl). pose proof (Hact t Hl) as Ha.
      destruct (terminal_status (bj_status job)) eqn:Eterm; [by destruct (bj_status job)|].
      destruct Hl as (tk & Ht & E & Hl).
      rewrite (iv_live _ _ _ _ Hi t tk id Ht Hl) by (by rewrite E). rewrite Ht.
      by rewrite decide_False.
Qed.

(** ** Quotas *)

Definition count_refs (h : list BackgroundJob) (tenant : string) (l : list nat) : Z :=
  count_if (active_of tenant) (omap (λ j, h !! j) l).

Lemma count_refs_cons h tenant j l :
  count_refs h tenant (j :: l) =
  (if default false (active_of tenant <$> h !! j) then 1 else 0) + count_refs h tenant l.
Proof.
  unfold count_refs. cbn. destruct (h !! j) as [job|]; cbn; [|lia]. by rewrite count_if_cons.
Qed.

Lemma count_refs_nonneg h tenant l : 0 ≤ count_refs h tenant l.
Proof. apply count_if_nonneg. Qed.

(** Rewriting a job that counts no more than before. *)
Lemma count_refs_update h tenant j job job' l :
  h !! j = Some job →
  (active_of tenant job' = true → active_of tenant job = true) →
  count_refs (<[j := job']> h) tenant l ≤ count_refs h tenant l.
Proof.
  intros Hj Ha. induction l as [|k l IH]; [done|]. rewrite !count_refs_cons.
  assert (j < length h)%nat by (by eapply lookup_lt_Some).
  destruct (decide (k = j)) as [->|Hne].
  - rewrite list_lookup_insert_eq, Hj by done. cbn.
    destruct (active_of tenant job'); [rewrite Ha by done; lia|destruct (active_of tenant job); lia].
  - rewrite list_lookup_insert_ne by done. lia.
Qed.

(** References within the heap do not see what is added to it. *)
Lemma count_refs_app h job tenant (l : list nat) :
  (∀ j, j ∈ l → (j < length h)%nat) →
  count_refs (h ++ [job]) tenant l = count_refs h tenant l.
Proof.
  induction l as [|j l IH]; intros Hlt; [done|].
  rewrite !count_refs_cons, IH by (intros; by apply Hlt, list_elem_of_further).
  rewrite lookup_app_l; [done|]. apply Hlt, list_elem_of_here.
Qed.

(** A job added under an id counts for at most one more. *)
Lemma count_refs_new h tenant (id : string) job (js : list (string * nat)) :
  (∀ j, j ∈ od_values js → (j < length h)%nat) →
  count_refs (h ++ [job]) tenant (od_values (od_set id (length h) js))
    ≤ count_refs h tenant (od_values js) + (if active_of tenant job then 1 else 0).
Proof.
  assert ((h ++ [job]) !! length h = Some job) as Hnew
    by (rewrite lookup_app_r, Nat.sub_diag by lia; done).
  induction js as [|[k j] js IH]; intros Hlt; cbn [od_set].
  { change (od_values [(id, length h)]) with [length h].
    change (count_refs h tenant (od_values [])) with 0.
    rewrite count_refs_cons, Hnew. change (count_refs (h ++ [job]) tenant []) with 0. cbn. lia. }
  change (od_values ((k, j) :: js)) with (j :: od_values js) in *.
  assert (0 ≤ (if default false (active_of tenant <$> h !! j) then 1 else 0)) as Hpos
    by (by destruct (default _ _)).
  case_decide.
  - change (od_values ((id, length h) :: js)) with (length h :: od_values js).
    rewrite !count_refs_cons, count_refs_app, Hnew
      by (intros; by apply Hlt, list_elem_of_further). cbn. lia.
  - change (od_values ((k, j) :: ?x)) with (j :: od_values x). rewrite !count_refs_cons.
    rewrite lookup_app_l by apply Hlt, list_elem_of_here.
    specialize (IH (λ j Hin, Hlt j (list_elem_of_further _ _ _ Hin))). lia.
Qed.

Definition not_resume (e : event) : Prop := match e with EvResume _ => False | _ => True end.

(** What every event but a resume keeps. *)
Lemma bg_step_quota e s s' limit tenant :
  bg_step e s s' → not_resume e → runtime_inv s →
  0 < limit → quota s = mkTenantQuotaManager limit true →
  count_active_jobs s tenant ≤ limit →
  quota s' = quota s ∧ count_active_jobs s' tenant ≤ limit.
Proof.
  intros Hstep Hnr Hi Hlim Hq Hc.
  destruct Hstep as [s g p id u r s' acts E|s id r s' acts E|s id r s' acts E|s t s' acts E
    |s t s' E|s t ex s' acts tk Ht Hex E]; [| |done|..].
  - apply submit_spec in E as [(e & _ & Hh & Hj & _ & _ & Hqq)|(d & s1 & _ & Hsame & -> & Ha)].
    + unfold count_active_jobs, known_jobs. by rewrite Hh, Hj, Hqq.
    + destruct Hsame as (Hh & Hj & Htk & Hjt & Hqq). split; [done|].
      set (job := new_job _ _ _ _ _).
      change (count_active_jobs _ _) with (count_refs (heap s1 ++ [job]) tenant
        (od_values (od_set (resolve_job_id id u) (length (heap s1)) (jobs s1)))).
      rewrite Hh, Hj. etrans; [apply count_refs_new|].
      { intros j [k Hin]%od_elem_of_values; [|by apply (iv_wf _ _ _ _ Hi)].
        destruct (iv_jobs _ _ _ _ Hi _ _ Hin) as (job' & ? & _). by eapply lookup_lt_Some. }
      change (count_refs (heap s) tenant (od_values (jobs s))) with (count_active_jobs s tenant).
      destruct (active_of tenant job) eqn:Eact; [|lia].
      unfold active_of in Eact. apply andb_true_iff in Eact as [Et%bool_decide_eq_true_1 _].
      change (job_tenant job) with (submitted_tenant p) in Et. subst tenant.
      destruct (Z.lt_ge_cases (count_active_jobs s (submitted_tenant p)) limit) as [?|Hge]; [lia|].
      exfalso. apply not_false_iff_true in Ha. apply Ha, check_submission_denied.
      rewrite Hq. cbn. split; [lia|done].
  - apply cancel_job_spec in E as [->|(t & tk & _ & _ & _ & ->)]; done.
  - unfold run_job_start in E. destruct (tasks s !! t) as [tk|] eqn:Ht; [|done]. cbn in E.
    destruct (heap s !! tk_job tk) as [job|] eqn:Hj; [|done]. cbn in E.
    case_decide as Hp; [|done]. destruct Hp as [Hp _]. injection E as <- _. split; [done|].
    etrans; [|exact Hc]. apply (count_refs_update (heap s) tenant _ job); [done|].
    destruct (iv_task _ _ _ _ Hi _ _ Ht) as (job' & Hj' & Hcr & _).
    assert (job' = job) as -> by congruence.
    unfold active_of. rewrite (Hcr Hp). done.
  - unfold run_job_never_started in E. destruct (tasks s !! t) as [tk|] eqn:Ht; [|done]. cbn in E.
    case_decide as Hp; [|done]. by injection E as <-.
  - unfold run_job_finish in E. rewrite Ht in E. cbn in E.
    destruct (heap s !! tk_job tk) as [job|] eqn:Hj; [|done]. cbn in E.
    case_decide as Hp; [|done]. destruct (finish_job job ex) as [job' a] eqn:Ef.
    injection E as <- _. split; [done|].
    etrans; [|exact Hc]. apply (count_refs_update (heap s) tenant _ job); [done|].
    unfold finish_job in Ef. unfold active_of.
    destruct ex as [r| |m]; injection Ef as <- _; cbn; rewrite ?andb_false_r; try done.
    by destruct (result_failed r); rewrite andb_false_r.
Qed.

(** *** All jobs, named by the dictionary or not *)

(** The pending and running jobs of a tenant among all job objects *)
Definition active_jobs (s : bg) (tenant : string) : Z := count_if (active_of tenant) (heap s).

(** The dictionary names every active job. *)
Definition covered (s : bg) : Prop :=
  ∀ j job, heap s !! j = Some job → active_status (bj_status job) = true → j ∈ od_values (jobs s).

Lemma count_by_index (f : BackgroundJob → bool) (h : list BackgroundJob) (l : list nat) :
  count_if f (omap (λ j, h !! j) l) = Z.of_nat (length (filter (λ j, f <$> h !! j = Some true) l)).
Proof.
  induction l as [|j l IH]; [done|]. rewrite filter_cons. cbn [omap list_omap].
  destruct (h !! j) as [job|]; cbn [fmap option_fmap option_map].
  - rewrite count_if_cons, IH. destruct (f job).
    + rewrite decide_True by done. cbn [length]. lia.
    + rewrite decide_False by done. lia.
  - rewrite decide_False by done. done.
Qed.

Lemma omap_lookup_seq {B} (h : list B) : omap (λ j, h !! j) (seq 0 (length h)) = h.
Proof.
  induction h as [|x h IH] using rev_ind; [done|].
  rewrite length_app, Nat.add_1_r, seq_S, omap_app, Nat.add_0_l.
  rewrite (list_omap_ext _ (λ j, h !! j) _ (seq 0 (length h))).
  - rewrite IH. cbn. rewrite lookup_app_r, Nat.sub_diag by lia. done.
  - apply Forall2_same_length_lookup. split; [done|]. intros i a b Ha Hb.
    assert (a = b) as <- by congruence. apply lookup_seq in Ha as [-> Hlt]. cbn. by apply lookup_app_l.
Qed.

(** Different ids name different jobs. *)
Lemma inv_values_nodup h js ts jt : inv h js ts jt → NoDup (od_values js).
Proof.
  intros Hi. apply NoDup_fmap_2_strong.
  - intros [k1 j1] [k2 j2] H1 H2 E. cbn in E. subst j2.
    apply od_elem_get in H1; [|apply (iv_wf _ _ _ _ Hi)].
    apply od_elem_get in H2; [|apply (iv_wf _ _ _ _ Hi)].
    destruct (iv_jobs _ _ _ _ Hi _ _ H1) as (b1 & Hb1 & <-).
    destruct (iv_jobs _ _ _ _ Hi _ _ H2) as (b2 & Hb2 & <-). congruence.
  - eapply NoDup_fmap_1. apply (iv_wf _ _ _ _ Hi).
Qed.

(** The runtime's own count is then the number of active jobs. *)
Lemma covered_count s tenant :
  runtime_inv s → covered s → count_active_jobs s tenant = active_jobs s tenant.
Proof.
  intros Hi Hc. unfold count_active_jobs, active_jobs, known_jobs.
  transitivity (count_if (active_of tenant) (omap (λ j, heap s !! j) (seq 0 (length (heap s)))));
    [|by rewrite omap_lookup_seq].
  rewrite !count_by_index. f_equal.
  apply Permutation_length, NoDup_Permutation.
  - apply NoDup_filter. by eapply inv_values_nodup.
  - apply NoDup_filter, NoDup_seq.
  - intros j. rewrite !list_elem_of_filter. destruct (heap s !! j) as [job|] eqn:Ej; cbn; [|naive_solver].
    split; intros [Ha Hin]; (split; [done|]).
    + apply elem_of_seq. apply lookup_lt_Some in Ej. lia.
    + injection Ha as Ha. apply (Hc j job Ej). unfold active_of in Ha. by apply andb_true_iff in Ha as [_ ?].
Qed.

(** No job is resumed, and no id is submitted whose job is pending or running. *)
Definition plain_event (s : bg) (e : event) : Prop :=
  match e with
  | EvResume _ => False
  | EvSubmit _ _ id u =>
      ∀ job, get_job s (resolve_job_id id u) = Some job → active_status (bj_status job) = false
  | _ => True
  end.

(** A job that is rewritten without becoming active *)
Lemma covered_set_job s j job job' ts jt :
  covered s → heap s !! j = Some job →
  (active_status (bj_status job') = true → active_status (bj_status job) = true) →
  covered (with_tasks (set_job s j job') ts jt).
Proof.
  intros Hc Hj Ha j1 job1. cbn. destruct (decide (j1 = j)) as [->|Hne].
  - rewrite list_lookup_insert_eq by (by eapply lookup_lt_Some). intros [= <-] Hact. by apply (Hc j job); auto.
  - rewrite list_lookup_insert_ne by done. apply Hc.
Qed.

Lemma covered_register s job :
  covered s → runtime_inv s →
  (∀ old, get_job s (bj_job_id job) = Some old → active_status (bj_status old) = false) →
  covered (register_job s job).
Proof.
  intros Hc Hi Hfree j job1. cbn [register_job heap jobs]. intros [Hj|[Hle Hj]]%lookup_app_Some Ha.
  - pose proof (Hc j job1 Hj Ha) as Hin. apply od_elem_of_values in Hin as [k Hk]; [|apply (iv_wf _ _ _ _ Hi)].
    apply (od_get_values k). rewrite od_get_set_ne; [done|]. intros ->.
    rewrite (Hfree job1) in Ha; [done|]. unfold get_job. by rewrite Hk.
  - apply list_lookup_singleton_Some in Hj as [Hj _]. replace j with (length (heap s)) by lia.
    apply (od_get_values (bj_job_id job)). by rewrite od_get_set.
Qed.

Lemma bg_step_covered e s s' :
  bg_step e s s' → plain_event s e → runtime_inv s → covered s → covered s'.
Proof.
  intros Hstep Hp Hi Hc.
  destruct Hstep as [s g p id u r s' acts E|s id r s' acts E|s id r s' acts E|s t s' acts E
    |s t s' E|s t ex s' acts tk Ht Hex E]; [| |done|..].
  - apply submit_spec in E as [(e & _ & Hh & Hj & _)|(d & s1 & _ & Hsame & -> & _)].
    + unfold covered. by rewrite Hh, Hj.
    + apply covered_register; [|by eapply runtime_inv_same|]; destruct Hsame as (Hh & Hj & _).
      * unfold covered. by rewrite Hh, Hj.
      * unfold get_job. rewrite Hh, Hj. exact Hp.
  - by apply cancel_job_spec in E as [->|(t & tk & _ & _ & _ & ->)].
  - unfold run_job_start in E. destruct (tasks s !! t) as [tk|] eqn:Ht; [|done]. cbn in E.
    destruct (heap s !! tk_job tk) as [job|] eqn:Hj; [|done]. cbn in E.
    case_decide as Hph; [|done]. destruct Hph as [Hph _]. injection E as <- _.
    apply (covered_set_job s _ job); [done|done|]. intros _.
    by apply (live_status s t tk); [done|done|unfold live; rewrite Hph|].
  - unfold run_job_never_started in E. destruct (tasks s !! t) as [tk|]; [|done]. cbn in E.
    case_decide; [|done]. by injection E as <-.
  - unfold run_job_finish in E. rewrite Ht in E. cbn in E.
    destruct (heap s !! tk_job tk) as [job|] eqn:Hj; [|done]. cbn in E.
    case_decide as Hph; [|done]. destruct (finish_job job ex) as [job' a] eqn:Ef. injection E as <- _.
    apply (covered_set_job s _ job); [done|done|]. intros _.
    by apply (live_status s t tk); [done|done|unfold live; rewrite Hph|].
Qed.

(** C36: As long as no job is resumed and no id is submitted again while its job is pending or running,
    no tenant ever has more pending and running jobs than a hard quota allows, whatever is submitted,
    cancelled, started or finished; and the runtime's own count of them is exact. *)
Theorem submissions_respect_quota p sc limit s tenant :
  0 < limit →
  rtc (λ s s', ∃ e, bg_step e s s' ∧ plain_event s e)
    (init_runtime p sc (Some (mkTenantQuotaManager limit true))) s →
  active_jobs s tenant ≤ limit ∧ count_active_jobs s tenant = active_jobs s tenant.
Proof.
  intros Hlim Hr.
  assert (runtime_inv s ∧ covered s ∧ quota s = mkTenantQuotaManager limit true ∧
          count_active_jobs s tenant ≤ limit) as (Hi & Hc & _ & Hle).
  { revert s Hr. refine (rtc_ind_r _ _ _ _).
    { split_and!; [apply inv_empty|done|done|]. change (count_active_jobs _ tenant) with 0. lia. }
    intros s1 s2 _ (e & Hstep & Hp) (Hi & Hc & Hq & Hle).
    assert (not_resume e) as Hnr by (by destruct e).
    destruct (bg_step_quota e s1 s2 limit tenant Hstep Hnr Hi Hlim Hq Hle) as [Hq' Hle'].
    split_and!; [by eapply bg_step_inv|by eapply bg_step_covered|by rewrite Hq'|done]. }
  pose proof (covered_count s tenant Hi Hc) as E. split; [lia|done].
Qed.

(** One reference among others: making its job active counts one more. *)
Lemma count_refs_resume h tenant j job job' l :
  NoDup l → j ∈ l → h !! j = Some job →
  active_of tenant job = false → active_of tenant job' = true →
  count_refs (<[j := job']> h) tenant l = count_refs h tenant l + 1.
Proof.
  intros Hnd Hin Hj Ha Ha'. assert (j < length h)%nat by (by eapply lookup_lt_Some).
  assert (∀ l, j ∉ l → count_refs (<[j := job']> h) tenant l = count_refs h tenant l) as Hother.
  { clear. induction l as [|k l IH]; [done|]. intros [Hne Hni]%not_elem_of_cons.
    by rewrite !count_refs_cons, IH, list_lookup_insert_ne. }
  induction Hnd as [|k l Hni _ IH]; [by apply elem_of_nil in Hin|]. rewrite !count_refs_cons.
  apply elem_of_cons in Hin as [<-|Hin].
  - rewrite list_lookup_insert_eq, Hj, Hother by done. cbn. rewrite Ha, Ha'. lia.
  - rewrite list_lookup_insert_ne by (by intros ->). rewrite IH by done. lia.
Qed.

(** Resuming a failed or cancelled job is always accepted and makes it count
    as active again, whatever the quota and the number of active jobs: in a
    reachable state at the quota, it takes the tenant over it. *)
Theorem resume_ignores_quota p sc q s id j job :
  reachable any_event (init_runtime p sc q) s →
  od_get id (jobs s) = Some j → heap s !! j = Some job →
  bj_status job = JobFailed ∨ bj_status job = JobCancelled →
  is_Some (md_graph (bj_metadata job)) →
  ∃ s' acts,
    resume_job s id = (Ok id, s', acts) ∧
    count_active_jobs s' (job_tenant job) = count_active_jobs s (job_tenant job) + 1.
Proof.
  intros Hr Hid Hj Hst [g Hg]. pose proof (runtime_reachable_inv _ _ _ _ _ Hr) as Hi.
  unfold resume_job. rewrite Hid. cbn. rewrite Hj. cbn.
  rewrite bool_decide_true by (rewrite elem_of_cons, list_elem_of_singleton; naive_solver).
  cbn. rewrite Hg. eexists _, _. split; [reflexivity|].
  apply (count_refs_resume (heap s) (job_tenant job) j job _ (od_values (jobs s))); try done.
  - by eapply inv_values_nodup.
  - by eapply od_get_values.
  - unfold active_of. by destruct Hst as [->| ->]; rewrite andb_false_r.
  - unfold active_of, job_tenant. cbn. by rewrite bool_decide_true.
Qed.

(** ** A job cancelled before its task starts *)

(** Every event but a new submission under the id. *)
Definition not_resubmitted (id : string) (e : event) : Prop :=
  match e with EvSubmit _ _ id' u => resolve_job_id id' u ≠ id | _ => True end.

(** The job waits for a task that will never run it. *)
Definition stuck (s : bg) (id : string) (j : nat) : Prop :=
  runtime_inv s ∧ od_get id (jobs s) = Some j ∧
  (∃ job, heap s !! j = Some job ∧ bj_status job = JobPending) ∧
  ∀ t tk, tasks s !! t = Some tk → tk_job tk = j → ¬ live tk.

Lemma stuck_step e s s' id j :
  bg_step e s s' → not_resubmitted id e → stuck s id j → stuck s' id j.
Proof.
  intros Hstep Hns (Hi & Hid & (job & Hj & Hp) & Hdead).
  split; [by eapply bg_step_inv|].
  assert (∀ t tk tk' job', tasks s !! t = Some tk → live tk → tk_job tk' = tk_job tk →
    (∃ job, <[tk_job tk := job']> (heap s) !! j = Some job ∧ bj_status job = JobPending) ∧
    ∀ t' tk0, <[t := tk']> (tasks s) !! t' = Some tk0 → tk_job tk0 = j → ¬ live tk0) as Hupd.
  { intros t tk tk' job' Ht Hlt E.
    assert (tk_job tk ≠ j) as Hl by (intros E'; by apply (Hdead t tk)). split.
    - exists job. by rewrite list_lookup_insert_ne.
    - intros t' tk0. destruct (decide (t' = t)) as [->|Hne].
      + rewrite list_lookup_insert_eq by (by eapply lookup_lt_Some). intros [= <-]. congruence.
      + rewrite list_lookup_insert_ne by done. apply Hdead. }
  destruct Hstep as [s g p id' u r s' acts E|s id' r s' acts E|s id' r s' acts E|s t s' acts E
    |s t s' E|s t ex s' acts tk Ht Hex E].
  - apply submit_spec in E as [(e & _ & Hh & Hjs & Hts & _)
      |(d & s1 & _ & (Hh & Hjs & Hts & Hjt & _) & -> & _)].
    + rewrite Hh, Hjs, Hts. eauto.
    + cbn in *. rewrite Hh, Hjs, Hts. rewrite od_get_set_ne by done. split_and!; [done| |].
      * exists job. split; [by apply lookup_app_l_Some|done].
      * intros t tk [Ht|[_ Ht]]%lookup_app_Some; [by apply Hdead with t|].
        apply list_lookup_singleton_Some in Ht as [_ <-]. cbn. intros <-.
        apply lookup_lt_Some in Hj. lia.
  - apply cancel_job_spec in E as [->|(t & tk & _ & Ht & Hlt & ->)]; [eauto|]. cbn.
    split; [done|]. split; [eauto|]. by apply (Hupd t tk _ job).
  - apply resume_job_spec in E as [[-> _]|(j' & job' & Hid' & Hj' & Hst & _ & ->)]; [eauto|].
    assert (j' ≠ j) as Hne by (intros ->; destruct Hst; congruence). cbn.
    split_and!; [done|exists job; by rewrite list_lookup_insert_ne|].
    intros t tk [Ht|[_ Ht]]%lookup_app_Some; [by apply Hdead with t|].
    apply list_lookup_singleton_Some in Ht as [_ <-]. done.
  - unfold run_job_start in E. destruct (tasks s !! t) as [tk|] eqn:Ht; [|done]. cbn in E.
    destruct (heap s !! tk_job tk) as [job'|] eqn:Hj'; [|done]. cbn in E.
    case_decide as Hph; [|done]. destruct Hph as [Hph _]. injection E as <- _. cbn.
    split; [done|]. apply (Hupd t tk); [done|by unfold live; rewrite Hph|done].
  - unfold run_job_never_started in E. destruct (tasks s !! t) as [tk|] eqn:Ht; [|done]. cbn in E.
    case_decide as Hph; [|done]. destruct Hph as [Hph _]. injection E as <-. cbn.
    split; [done|]. split; [eauto|].
    apply (Hupd t tk _ job); [done|by unfold live; rewrite Hph|done].
  - unfold run_job_finish in E. rewrite Ht in E. cbn in E.
    destruct (heap s !! tk_job tk) as [job'|] eqn:Hj'; [|done]. cbn in E.
    case_decide as Hph; [|done]. destruct (finish_job job' ex) as [job2 a].
    injection E as <- _. cbn.
    split; [done|]. apply (Hupd t tk); [done|by unfold live; rewrite Hph|done].
Qed.

Lemma never_started_stuck s t tk s1 id :
  runtime_inv s → tasks s !! t = Some tk → od_get id (jobs s) = Some (tk_job tk) →
  run_job_never_started s t = Some s1 → stuck s1 id (tk_job tk).
Proof.
  intros Hi Ht Hid Hnever.
  split; [eapply bg_step_inv; [by apply bs_never_started|done]|].
  unfold run_job_never_started in Hnever. rewrite Ht in Hnever. cbn in Hnever.
  case_decide as Hp; [|done]. destruct Hp as [Hp _]. injection Hnever as <-. cbn.
  split; [done|]. split.
  - destruct (iv_task _ _ _ _ Hi _ _ Ht) as (job & ? & Hc & _). eauto.
  - intros t' tk'. destruct (decide (t' = t)) as [->|Hne].
    + rewrite list_lookup_insert_eq by (by eapply lookup_lt_Some). intros [= <-] _ Hl. by apply Hl.
    + rewrite list_lookup_insert_ne by done. intros Ht' E Hl. apply Hne.
      apply (iv_unique _ _ _ _ Hi t' t tk' tk); try done. unfold live. by rewrite Hp.
Qed.

(** When a job is cancelled before the event loop starts its task, the task
    ends without running: from then on, until a job is submitted under the same
    id, the job stays pending, cannot be cancelled ([cancel_job] answers false)
    nor resumed (RuntimeError), and keeps counting against its tenant's quota. *)
Theorem cancelled_before_start_is_stuck p sc q s t tk s1 s2 id :
  reachable any_event (init_runtime p sc q) s →
  tasks s !! t = Some tk → od_get id (jobs s) = Some (tk_job tk) →
  run_job_never_started s t = Some s1 →
  reachable (not_resubmitted id) s1 s2 →
  ∃ job,
    get_job s2 id = Some job ∧ bj_status job = JobPending ∧
    cancel_job s2 id = (Ok false, s2, []) ∧
    (∃ m, resume_job s2 id = (Raise (RuntimeError m), s2, [])) ∧
    1 ≤ count_active_jobs s2 (job_tenant job).
Proof.
  intros Hr Ht Hid Hnever Hr2. pose proof (runtime_reachable_inv _ _ _ _ _ Hr) as Hi.
  pose proof (never_started_stuck s t tk s1 id Hi Ht Hid Hnever) as Hs1.
  assert (stuck s2 id (tk_job tk)) as (Hi2 & Hid2 & (job & Hj2 & Hp2) & Hdead).
  { induction Hr2 as [|s2 s3 e _ IH He Hstep]; [done|]. by eapply stuck_step. }
  exists job. unfold get_job, cancel_job, resume_job, get_job. rewrite Hid2. cbn. rewrite Hj2. cbn.
  rewrite Hp2. cbn. split_and!; [done|done| |by eexists|].
  - destruct (od_get id (job_tasks s2)) as [t'|] eqn:Et; [|done].
    destruct (iv_current _ _ _ _ Hi2 _ _ Et) as (tk' & Ht' & Hd). rewrite Ht'.
    rewrite decide_True; [done|]. destruct (decide (tk_phase tk' = TaskDone)); [done|].
    exfalso. apply (Hdead t' tk' Ht'); [congruence|done].
  - change (count_active_jobs s2 (job_tenant job)) with
      (count_refs (heap s2) (job_tenant job) (od_values (jobs s2))).
    apply od_get_values in Hid2. revert Hid2. generalize (od_values (jobs s2)).
    induction l as [|j' l IH]; [by intros ?%elem_of_nil|]. rewrite count_refs_cons.
    pose proof (count_refs_nonneg (heap s2) (job_tenant job) l).
    intros [<-|Hin]%elem_of_cons.
    + rewrite Hj2. cbn. unfold active_of. rewrite bool_decide_true, Hp2 by done. cbn. lia.
    + specialize (IH Hin). destruct (default _ _); lia.
Qed.
End facts.

(** ** A concrete runtime, with a quota of one active job *)

Module Demo.
Definition float_repr : Q → string := λ _, "".
Definition float_mul : Z → Q → Q := λ n q, QArith_base.Qmult (inject_Z n) q.
Definition graph : TaskGraph := mkTaskGraph [].

Definition s0 : bg :=
  init_runtime (WorkerPool.mkWorkerPool 1 1) None (Some (mkTenantQuotaManager 1 true)).
Definition submitted (s : bg) (id : string) : bg :=
  (submit float_repr float_mul s graph None id "").1.2.
Definition s_a : bg := submitted s0 "a".
Definition s_cancel : bg := (cancel_job s_a "a").1.2.
Definition s_never : bg := default s_cancel (run_job_never_started s_cancel 0).
Definition s_run : bg := default s_a (fst <$> run_job_start s_a 0).
Definition s_failed : bg := default s_run (fst <$> run_job_finish s_run 0 (ExecRaises "boom")).
Definition s_b : bg := submitted s_failed "b".

Notation reachable := (reachable float_repr float_mul).
Notation bg_step := (bg_step float_repr float_mul).

Lemma step_a : bg_step (EvSubmit graph None "a" "") s0 s_a.
Proof. eapply bs_submit. vm_compute. reflexivity. Qed.
Lemma step_cancel : bg_step (EvCancel "a") s_a s_cancel.
Proof. eapply bs_cancel. vm_compute. reflexivity. Qed.
Lemma step_run : bg_step (EvStart 0) s_a s_run.
Proof. eapply bs_start. vm_compute. reflexivity. Qed.
Lemma step_failed : bg_step (EvFinish 0 (ExecRaises "boom")) s_run s_failed.
Proof. eapply bs_finish; [reflexivity|done|vm_compute; reflexivity]. Qed.
Lemma step_b : bg_step (EvSubmit graph None "b" "") s_failed s_b.
Proof. eapply bs_submit. vm_compute. reflexivity. Qed.

Lemma reach_a (P : event → Prop) : P (EvSubmit graph None "a" "") → reachable P s0 s_a.
Proof. intros HP. eapply reach_step; [apply reach_refl|exact HP|apply step_a]. Qed.

Lemma reach_cancel : reachable any_event s0 s_cancel.
Proof. eapply reach_step; [by apply reach_a|done|apply step_cancel]. Qed.

Lemma reach_b : reachable any_event s0 s_b.
Proof.
  eapply reach_step; [|done|apply step_b]. eapply reach_step; [|done|apply step_failed].
  eapply reach_step; [|done|apply step_run]. by apply reach_a.
Qed.
End Demo.

Lemma job_lifecycle_witness :
  (cancel_job Demo.s_a "a").1.1 = Ok true ∧
  ∃ t tk, tasks Demo.s_a !! t = Some tk ∧ tk_job tk = 0%nat ∧ live tk.
Proof.
  split; [vm_compute; reflexivity|].
  apply (job_lifecycle Demo.float_repr Demo.float_mul (WorkerPool.mkWorkerPool 1 1) None
    (Some (mkTenantQuotaManager 1 true)) Demo.s_a "a" 0
    (new_job "a" "default" Demo.graph [] (evaluate_scaler Demo.float_mul Demo.s0 0 0).1)).
  - by apply Demo.reach_a.
  - reflexivity.
  - reflexivity.
  - vm_compute. reflexivity.
Defined.

Lemma submissions_respect_quota_witness :
  active_jobs Demo.s_a "default" = 1 ∧ active_jobs Demo.s_a "default" ≤ 1.
Proof.
  split; [vm_compute; reflexivity|].
  refine (proj1 (submissions_respect_quota Demo.float_repr Demo.float_mul
    (WorkerPool.mkWorkerPool 1 1) None 1 Demo.s_a "default" eq_refl _)).
  eapply rtc_l; [|apply rtc_refl]. exists (EvSubmit Demo.graph None "a" ""). split; [apply Demo.step_a|].
  intros job Hjob. vm_compute in Hjob. discriminate Hjob.
Defined.

(** The runtime counts the jobs of its dictionary: with a hard quota of two, an id that is submitted three times
    has three jobs running at once, of which the runtime counts one. *)
Example reused_id_escapes_quota :
  let s0 := init_runtime (WorkerPool.mkWorkerPool 1 1) None (Some (mkTenantQuotaManager 2 true)) in
  let submitted s := (submit Demo.float_repr Demo.float_mul s Demo.graph None "a" "").1.2 in
  let start s t := default s (fst <$> run_job_start s t) in
  let s := start (submitted (start (submitted (start (submitted s0) 0%nat)) 1%nat)) 2%nat in
  (bj_status <$> heap s) = [JobRunning; JobRunning; JobRunning] ∧
  active_jobs s "default" = 3 ∧ count_active_jobs s "default" = 1.
Proof. vm_compute. done. Qed.

Lemma resume_ignores_quota_witness :
  count_active_jobs Demo.s_b "default" = 1 ∧
  ∃ s' acts, resume_job Demo.s_b "a" = (Ok "a", s', acts) ∧
    count_active_jobs s' "default" = count_active_jobs Demo.s_b "default" + 1.
Proof.
  split; [vm_compute; reflexivity|].
  apply (resume_ignores_quota Demo.float_repr Demo.float_mul (WorkerPool.mkWorkerPool 1 1) None
    (Some (mkTenantQuotaManager 1 true)) Demo.s_b "a" 0
    (mkJob "a" JobFailed None "boom"
       (mkMetadata (Some []) (Some Demo.graph) (Some "default")
          (Some (evaluate_scaler Demo.float_mul Demo.s0 0 0).1)))).
  - apply Demo.reach_b.
  - reflexivity.
  - reflexivity.
  - left. reflexivity.
  - by eexists.
Defined.

Lemma cancelled_before_start_is_stuck_witness :
  ∃ job, get_job Demo.s_never "a" = Some job ∧ bj_status job = JobPending ∧
    cancel_job Demo.s_never "a" = (Ok false, Demo.s_never, []) ∧
    (∃ m, resume_job Demo.s_never "a" = (Raise (RuntimeError m), Demo.s_never, [])) ∧
    1 ≤ count_active_jobs Demo.s_never (job_tenant job).
Proof.
  apply (cancelled_before_start_is_stuck Demo.float_repr Demo.float_mul
    (WorkerPool.mkWorkerPool 1 1) None (Some (mkTenantQuotaManager 1 true)) Demo.s_cancel 0
    (mkTask 0 false TaskCreated true) Demo.s_never Demo.s_never "a").
  - apply Demo.reach_cancel.
  - reflexivity.
  - reflexivity.
  - reflexivity.
  - apply reach_refl.
Defined.
