(* ===== verification/ByocJobs.v ===== *)
(** * The BYOC job queue

    Models src/tools/byoc/job_contracts.py and the in-memory queue of
    src/tools/byoc/job_store.py.  Times are microseconds ([time.time()] is the
    argument [now]); a lease token is the argument [token] (the hexadecimal digits
    of a fresh uuid).  Every operation holds the store's lock, so it is one step.
    A claim holds the very envelope object of the job's state, so it is modelled
    by the job's id and read through the store ([claim_envelope]). *)

From S2P Require Import Prelude PyValue.

Definition second : Z := 1000000.

(** [int(t)] of a time *)
Definition int_seconds (t : Z) : Z := t `quot` second.

(** ** src/tools/byoc/job_contracts.py *)

Record ByocToolJobEnvelope := mkEnvelope {
  ev_job_id : string;
  ev_tenant_id : string;
  ev_run_id : string;
  ev_call_id : string;
  ev_tool_name : string;
  ev_arguments : pydict;
  ev_timeout_ms : Z;
  ev_correlation_id : string;
  ev_idempotency_key : string;
  ev_lease_token : string;
  ev_lease_expires_at_epoch : Z;
  ev_claim_attempt : Z;
  ev_tool_version : string;
  ev_package_ref : string;
  ev_entry_file : string;
  ev_entrypoint : string;
  ev_bundle_hash : string;
  ev_bundle_signature : string;
  ev_signature_version : string;
}.

Inductive result_status := ResultSuccess | ResultError | ResultTimeout | ResultCancelled.

Record ByocToolResultEnvelope := mkResult {
  rs_job_id : string;
  rs_tenant_id : string;
  rs_run_id : string;
  rs_call_id : string;
  rs_tool_name : string;
  rs_status : string;
  rs_output : pydict;
  rs_error_code : string;
  rs_error_message : string;
  rs_retryable : bool;
  rs_idempotency_key : string;
  rs_lease_token : string;
  rs_tool_version : string;
  rs_bundle_hash : string;
  rs_bundle_signature : string;
  rs_signature_version : string;
}.

(** ** src/tools/byoc/job_store.py *)

Inductive job_status := Queued | Leased | Completed | Cancelled | DeadLettered.

#[export] Instance job_status_eq_dec : EqDecision job_status.
Proof. solve_decision. Defined.

(** [_JobState] *)
Record JobState := mkState {
  js_envelope : ByocToolJobEnvelope;
  js_status : job_status;
  js_worker : string;
  js_token : string;
  js_expires : Z;
  js_attempt : Z;
  js_completed_at : Z;
  js_cancelled_at : Z;
  js_dead_at : Z;
  js_dead_reason : string;
  js_replays : Z;
}.

Definition new_state (e : ByocToolJobEnvelope) : JobState :=
  mkState e Queued "" "" 0 0 0 0 0 "" 0.

Definition js_tenant (st : JobState) : string := ev_tenant_id (js_envelope st).

Module InMemoryByocJobQueueStore.

Record t := mkStore {
  states : list (string * JobState);
  tenant_queue : gmap string (list string);
}.

Definition empty : t := mkStore [] ∅.

Definition queue_of (q : gmap string (list string)) (tenant : string) : list string :=
  default [] (q !! tenant).

(** [setdefault(tenant, deque()).append(job_id)] *)
Definition push (tenant job_id : string) (q : gmap string (list string))
    : gmap string (list string) :=
  <[tenant := queue_of q tenant ++ [job_id]]> q.

Definition enqueue (s : t) (job : ByocToolJobEnvelope) : t :=
  match od_get (ev_job_id job) (states s) with
  | Some _ => s
  | None =>
      mkStore (od_set (ev_job_id job) (new_state job) (states s))
        (push (ev_tenant_id job) (ev_job_id job) (tenant_queue s))
  end.

Definition expired (now : Z) (st : JobState) : bool :=
  bool_decide (js_status st = Leased) && (js_expires st <=? now).

(** [should_dlq] *)
Definition exhausted (max_attempts : option Z) (st : JobState) : bool :=
  match max_attempts with
  | None => false
  | Some m => (0 <? m) && (m <=? js_attempt st)
  end.

Definition dead_letter (now : Z) (st : JobState) : JobState :=
  mkState (js_envelope st) DeadLettered "" "" 0 (js_attempt st) (js_completed_at st)
    (js_cancelled_at st) now "BYOC_LEASE_RETRY_EXHAUSTED" (js_replays st).

Definition requeue (st : JobState) : JobState :=
  mkState (js_envelope st) Queued "" "" 0 (js_attempt st) (js_completed_at st)
    (js_cancelled_at st) (js_dead_at st) (js_dead_reason st) (js_replays st).

(** [_requeue_expired_leases_unlocked]: the loop over the states, which are
    rewritten in place, the queues and the count. *)
Fixpoint requeue_loop (now : Z) (max_attempts : option Z) (sts : list (string * JobState))
    (q : gmap string (list string)) : list (string * JobState) * gmap string (list string) * Z :=
  match sts with
  | [] => ([], q, 0)
  | (id, st) :: sts =>
      if expired now st then
        if exhausted max_attempts st then
          let '(sts', q', n) := requeue_loop now max_attempts sts q in
          ((id, dead_letter now st) :: sts', q', n)
        else
          let '(sts', q', n) :=
            requeue_loop now max_attempts sts (push (js_tenant st) id q) in
          ((id, requeue st) :: sts', q', n + 1)
      else
        let '(sts', q', n) := requeue_loop now max_attempts sts q in
        ((id, st) :: sts', q', n)
  end.

Definition requeue_unlocked (s : t) (now : Z) (max_attempts : option Z) : t * Z :=
  let '(sts, q, n) := requeue_loop now max_attempts (states s) (tenant_queue s) in
  (mkStore sts q, n).

Definition requeue_expired_leases (s : t) (now : Z) (max_attempts : option Z) : Z * t :=
  let '(s', n) := requeue_unlocked s now max_attempts in (n, s').

(** The [while queue] loop: the first id popped that is queued, and what stays
    in the queue. *)
Fixpoint pop_queued (sts : list (string * JobState)) (queue : list string)
    : option (string * JobState) * list string :=
  match queue with
  | [] => (None, [])
  | id :: queue =>
      match od_get id sts with
      | Some st => if decide (js_status st = Queued) then (Some (id, st), queue) else pop_queued sts queue
      | None => pop_queued sts queue
      end
  end.

Definition lease (now : Z) (worker_id : string) (ttl : Z) (token : string) (st : JobState)
    : JobState :=
  let lease_token := "lease_" +:+ token in
  let expires := now + Z.max ttl 1 * second in
  let attempt := js_attempt st + 1 in
  let e := js_envelope st in
  mkState
    (mkEnvelope (ev_job_id e) (ev_tenant_id e) (ev_run_id e) (ev_call_id e) (ev_tool_name e)
       (ev_arguments e) (ev_timeout_ms e) (ev_correlation_id e) (ev_idempotency_key e)
       lease_token (int_seconds expires) attempt (ev_tool_version e) (ev_package_ref e)
       (ev_entry_file e) (ev_entrypoint e) (ev_bundle_hash e) (ev_bundle_signature e)
       (ev_signature_version e))
    Leased worker_id lease_token expires attempt (js_completed_at st) (js_cancelled_at st)
    (js_dead_at st) (js_dead_reason st) (js_replays st).

(** [JobLeaseClaim]: the id whose envelope the claim holds. *)
Notation JobLeaseClaim := string (only parsing).

Definition claim_envelope (s : t) (c : JobLeaseClaim) : option ByocToolJobEnvelope :=
  js_envelope <$> od_get c (states s).

Definition claim_next (s : t) (now : Z) (tenant_id worker_id : string) (ttl : Z) (token : string)
    : option JobLeaseClaim * t :=
  let '(s1, _) := requeue_unlocked s now None in
  let '(found, rest) := pop_queued (states s1) (queue_of (tenant_queue s1) tenant_id) in
  let q := <[tenant_id := rest]> (tenant_queue s1) in
  match found with
  | None => (None, mkStore (states s1) q)
  | Some (id, st) => (Some id, mkStore (od_set id (lease now worker_id ttl token st) (states s1)) q)
  end.

Definition complete (now : Z) (st : JobState) : JobState :=
  mkState (js_envelope st) Completed (js_worker st) (js_token st) (js_expires st) (js_attempt st)
    now (js_cancelled_at st) (js_dead_at st) (js_dead_reason st) (js_replays st).

Definition complete_claim (s : t) (now : Z) (job_id lease_token : string) : bool * t :=
  match od_get job_id (states s) with
  | None => (false, s)
  | Some st =>
      if negb (bool_decide (js_status st = Leased)) then (false, s)
      else if js_expires st <=? now then (false, (requeue_unlocked s now None).1)
      else if negb (js_token st =?s lease_token) then (false, s)
      else (true, mkStore (od_set job_id (complete now st) (states s)) (tenant_queue s))
  end.

Definition get_leased_job (s : t) (now : Z) (job_id lease_token : string)
    : option ByocToolJobEnvelope * t :=
  match od_get job_id (states s) with
  | None => (None, s)
  | Some st =>
      if negb (bool_decide (js_status st = Leased)) then (None, s)
      else if js_expires st <=? now then (None, (requeue_unlocked s now None).1)
      else if negb (js_token st =?s lease_token) then (None, s)
      else (Some (js_envelope st), s)
  end.

(** The body of the loop of [cancel_pending_call]; [clock] is what the clock
    shows when the job is cancelled. *)
Definition cancel_state (call_id : string) (clock : Z) (st : JobState) : JobState :=
  if negb (ev_call_id (js_envelope st) =?s call_id) then st
  else
    match js_status st with
    | Queued =>
        mkState (js_envelope st) Cancelled (js_worker st) (js_token st) (js_expires st)
          (js_attempt st) (js_completed_at st) clock (js_dead_at st) (js_dead_reason st)
          (js_replays st)
    | Leased =>
        mkState (js_envelope st) Leased (js_worker st) (js_token st) 0 (js_attempt st)
          (js_completed_at st) (js_cancelled_at st) (js_dead_at st) (js_dead_reason st)
          (js_replays st)
    | _ => st
    end.

Definition cancels (call_id : string) (st : JobState) : bool :=
  (ev_call_id (js_envelope st) =?s call_id) && bool_decide (js_status st = Queued).

Definition cancel_pending_call (s : t) (clock : string → Z) (now : Z) (call_id : string) : Z * t :=
  let normalized := py_strip call_id in
  if negb (py_bool normalized) then (0, s)
  else
    let affected := count_if (cancels normalized) (od_values (states s)) in
    let s1 := mkStore (od_map (λ id, cancel_state normalized (clock id)) (states s))
                (tenant_queue s) in
    (affected, (requeue_unlocked s1 now None).1).

Definition queue_depth (s : t) : Z :=
  count_if (λ st, bool_decide (js_status st = Queued)) (od_values (states s)).

Definition has_status (tenant : string) (status : job_status) (st : JobState) : bool :=
  (js_tenant st =?s tenant) && bool_decide (js_status st = status).

Definition dead_letter_count (s : t) (tenant_id : string) : Z :=
  count_if (has_status (py_strip tenant_id) DeadLettered) (od_values (states s)).

Definition dead_row (p : string * JobState) : list (string * string) :=
  let e := js_envelope p.2 in
  [("job_id", p.1); ("call_id", ev_call_id e); ("tool_name", ev_tool_name e);
   ("idempotency_key", ev_idempotency_key e); ("claim_attempt", str_of_Z (js_attempt p.2));
   ("dead_letter_reason_code", js_dead_reason p.2);
   ("dead_lettered_at_epoch", str_of_Z (int_seconds (js_dead_at p.2)));
   ("replay_count", str_of_Z (js_replays p.2))].

Definition newer_dead (p q : string * JobState) : Prop := js_dead_at q.2 ≤ js_dead_at p.2.

#[global] Instance newer_dead_dec : RelDecision newer_dead.
Proof. intros p q. unfold newer_dead. apply _. Defined.

Definition list_dead_letter_jobs (s : t) (tenant_id : string) (limit : Z)
    : list (list (string * string)) :=
  let rows := filter (λ p, has_status (py_strip tenant_id) DeadLettered p.2 = true) (states s) in
  dead_row <$> take (Z.to_nat (Z.max 1 limit)) (sort_by newer_dead rows).

Definition replayed (st : JobState) : JobState :=
  mkState (js_envelope st) Queued "" "" 0 (js_attempt st) (js_completed_at st)
    (js_cancelled_at st) 0 "" (js_replays st + 1).

Definition replay_dead_letter_job (s : t) (tenant_id job_id : string) : bool * t :=
  let tenant := py_strip tenant_id in
  let job := py_strip job_id in
  if negb (py_bool tenant) || negb (py_bool job) then (false, s)
  else
    match od_get job (states s) with
    | None => (false, s)
    | Some st =>
        if negb (has_status tenant DeadLettered st) then (false, s)
        else (true, mkStore (od_set job (replayed st) (states s)) (push tenant job (tenant_queue s)))
    end.

Definition health_metrics (s : t) (tenant_id : string) : list (string * Z) :=
  let count status := count_if (has_status (py_strip tenant_id) status) (od_values (states s)) in
  [("queued_jobs", count Queued); ("leased_jobs", count Leased);
   ("completed_jobs", count Completed); ("cancelled_jobs", count Cancelled);
   ("dead_lettered_jobs", count DeadLettered)].

(** *** Retention *)

Definition ttl_completed (tenant : string) (cutoff : Z) (st : JobState) : bool :=
  has_status tenant Completed st && (0 <? js_completed_at st) && (js_completed_at st <=? cutoff).

Definition ttl_cancelled (tenant : string) (cutoff : Z) (st : JobState) : bool :=
  has_status tenant Cancelled st && (0 <? js_cancelled_at st) && (js_cancelled_at st <=? cutoff).

(** The first [len(rows) - max_records] rows by time, when positive. *)
Definition overflow_ids (tenant : string) (status : job_status) (time : JobState → Z)
    (max_records : Z) (sts : list (string * JobState)) : list string :=
  let rows := filter (λ p, has_status tenant status p.2 = true) sts in
  let overflow := Z.max 0 (Z.of_nat (length rows) - Z.max max_records 0) in
  fst <$> take (Z.to_nat overflow) (sort_by (by_key (λ p : string * JobState, time p.2)) rows).

Definition cleanup_retention (s : t) (now : Z) (tenant_id : string)
    (completed_ttl cancelled_ttl max_completed max_cancelled : Z) : (Z * Z) * t :=
  let tenant := py_strip tenant_id in
  if negb (py_bool tenant) then ((0, 0), s)
  else
    let completed_cutoff := now - Z.max completed_ttl 1 * second in
    let cancelled_cutoff := now - Z.max cancelled_ttl 1 * second in
    let n1 := count_if (ttl_completed tenant completed_cutoff) (od_values (states s)) in
    let n2 := count_if (ttl_cancelled tenant cancelled_cutoff) (od_values (states s)) in
    let sts := filter (λ p, (ttl_completed tenant completed_cutoff p.2
                             || ttl_cancelled tenant cancelled_cutoff p.2) = false) (states s) in
    let done_ids := overflow_ids tenant Completed js_completed_at max_completed sts in
    let cancelled_ids := overflow_ids tenant Cancelled js_cancelled_at max_cancelled sts in
    ((n1 + Z.of_nat (length done_ids), n2 + Z.of_nat (length cancelled_ids)),
     mkStore (od_pop_all cancelled_ids (od_pop_all done_ids sts)) (tenant_queue s)).

End InMemoryByocJobQueueStore.
