(* ===== verification/ByocFacts.v ===== *)
(** * Properties of the BYOC job queue

    Tenants only get their own jobs and no queued job is lost; a job's status
    follows a fixed machine and a claim completes once; retention bounds; and the
    requeues that do not look at the attempt limit. *)

From S2P Require Import Prelude PyValue ByocJobs.
Import InMemoryByocJobQueueStore.

(** ** Requeueing, as a map and an appended list *)

Definition requeued (now : Z) (mx : option Z) (st : JobState) : JobState :=
  if expired now st then if exhausted mx st then dead_letter now st else requeue st else st.

Definition goes_back (now : Z) (mx : option Z) (tenant : string) (p : string * JobState) : bool :=
  expired now p.2 && negb (exhausted mx p.2) && (js_tenant p.2 =?s tenant).

Definition back_ids (now : Z) (mx : option Z) (tenant : string) (sts : list (string * JobState))
    : list string :=
  fst <$> filter (λ p, goes_back now mx tenant p = true) sts.

Lemma queue_of_push q tenant id tenant' :
  queue_of (push tenant id q) tenant' =
  queue_of q tenant' ++ (if decide (tenant = tenant') then [id] else []).
Proof.
  unfold queue_of, push. destruct (decide (tenant = tenant')) as [->|Hne].
  - by rewrite lookup_insert_eq.
  - by rewrite lookup_insert_ne, app_nil_r.
Qed.

Lemma requeue_loop_spec now mx sts q sts' q' n :
  requeue_loop now mx sts q = (sts', q', n) →
  sts' = od_map (λ _, requeued now mx) sts ∧
  ∀ t, queue_of q' t = queue_of q t ++ back_ids now mx t sts.
Proof.
  revert q sts' q' n. induction sts as [|[id st] sts IH]; intros q sts' q' n; cbn [requeue_loop].
  { intros [= <- <- <-]. split; [done|]. intros t. by rewrite app_nil_r. }
  assert (∀ t, back_ids now mx t ((id, st) :: sts) =
    (if goes_back now mx t (id, st) then [id] else []) ++ back_ids now mx t sts) as Hcons.
  { intros t. unfold back_ids. rewrite filter_cons. by case_decide as H; rewrite H || destruct (goes_back _ _ _ _). }
  unfold od_map at 1. rewrite fmap_cons. cbn [fst snd]. fold (od_map (λ _ : string, requeued now mx) sts).
  unfold requeued at 1. unfold goes_back in Hcons. cbn [snd] in Hcons.
  destruct (expired now st) eqn:Ee; [destruct (exhausted mx st) eqn:Ex|].
  - destruct (requeue_loop now mx sts q) as [[s1 q1] n1] eqn:E. intros [= <- <- <-].
    destruct (IH _ _ _ _ E) as [-> Hq]. split; [done|]. intros t. by rewrite Hcons, Hq.
  - destruct (requeue_loop now mx sts _) as [[s1 q1] n1] eqn:E. intros [= <- <- <-].
    destruct (IH _ _ _ _ E) as [-> Hq]. split; [done|]. intros t.
    rewrite Hcons, Hq, queue_of_push, <- app_assoc. cbn. f_equal. f_equal.
    by destruct (decide (js_tenant st = t)); [rewrite bool_decide_true|rewrite bool_decide_false].
  - destruct (requeue_loop now mx sts q) as [[s1 q1] n1] eqn:E. intros [= <- <- <-].
    destruct (IH _ _ _ _ E) as [-> Hq]. split; [done|]. intros t. by rewrite Hcons, Hq.
Qed.

Lemma requeue_unlocked_spec s now mx :
  let s' := (requeue_unlocked s now mx).1 in
  states s' = od_map (λ _, requeued now mx) (states s) ∧
  ∀ t, queue_of (tenant_queue s') t = queue_of (tenant_queue s) t ++ back_ids now mx t (states s).
Proof.
  unfold requeue_unlocked. destruct (requeue_loop _ _ _ _) as [[sts q] n] eqn:E.
  by apply requeue_loop_spec in E.
Qed.

Lemma requeued_tenant now mx st : js_tenant (requeued now mx st) = js_tenant st.
Proof. unfold requeued. by destruct (expired now st), (exhausted mx st). Qed.

Lemma requeued_envelope now mx st : js_envelope (requeued now mx st) = js_envelope st.
Proof. unfold requeued. by destruct (expired now st), (exhausted mx st). Qed.

Lemma expired_true now st : expired now st = true ↔ js_status st = Leased ∧ js_expires st ≤ now.
Proof. unfold expired. rewrite andb_true_iff, bool_decide_eq_true, Z.leb_le. done. Qed.

Lemma requeued_queued now mx st :
  js_status (requeued now mx st) = Queued →
  js_status st = Queued ∨ js_status st = Leased ∧ js_expires st ≤ now.
Proof.
  unfold requeued. destruct (expired now st) eqn:E; [|by left].
  apply expired_true in E. intros _. by right.
Qed.

Lemma requeued_not_queued now st :
  js_status (requeued now None st) ≠ Queued →
  js_status st ≠ Queued ∧ (js_status st = Leased → now < js_expires st).
Proof.
  unfold requeued. destruct (expired now st) eqn:E; [done|]. intros Hs. split; [done|].
  intros Hl. apply not_true_iff_false in E. rewrite expired_true in E.
  destruct (Z.lt_ge_cases now (js_expires st)); [done|]. by destruct E.
Qed.

(** ** The invariant *)

Record wf (s : t) : Prop := {
  wf_keys : od_wf (states s);
  wf_id : ∀ id st, od_get id (states s) = Some st → ev_job_id (js_envelope st) = id;
  wf_queued : ∀ id st, od_get id (states s) = Some st → js_status st = Queued →
    id ∈ queue_of (tenant_queue s) (js_tenant st);
  wf_owner : ∀ id st tenant, od_get id (states s) = Some st →
    id ∈ queue_of (tenant_queue s) tenant → js_tenant st = tenant;
}.

Lemma empty_queue_wf : wf empty.
Proof. split; try done. apply NoDup_nil_2. Qed.

Lemma wf_requeue s now mx : wf s → wf (requeue_unlocked s now mx).1.
Proof.
  intros Hwf. destruct (requeue_unlocked_spec s now mx) as [Es Eq]. cbv zeta in *.
  assert (∀ id st', od_get id (states (requeue_unlocked s now mx).1) = Some st' →
    ∃ st, od_get id (states s) = Some st ∧ st' = requeued now mx st) as Hget.
  { intros id st'. rewrite Es, od_get_map. destruct (od_get id (states s)); [|done].
    intros [= <-]. eauto. }
  split.
  - rewrite Es. unfold od_wf. rewrite od_map_keys. apply Hwf.
  - intros id st' (st & Hst & ->)%Hget. rewrite requeued_envelope. by apply Hwf.
  - intros id st' (st & Hst & ->)%Hget Hq. rewrite Eq, requeued_tenant, elem_of_app.
    unfold requeued in Hq. destruct (expired now st) eqn:Ee; [|left; by apply Hwf].
    right. destruct (exhausted mx st) eqn:Ex; [done|].
    unfold back_ids. apply list_elem_of_fmap. exists (id, st). split; [done|].
    apply list_elem_of_filter. split; [|by apply od_get_elem].
    unfold goes_back. cbn. rewrite Ee, Ex. cbn. by apply bool_decide_eq_true_2.
  - intros id st' tenant (st & Hst & ->)%Hget. rewrite Eq, requeued_tenant, elem_of_app.
    intros [Hin|Hin]; [by eapply wf_owner|].
    unfold back_ids in Hin. apply list_elem_of_fmap in Hin as ([id' st'] & -> & Hin).
    apply list_elem_of_filter in Hin as [Hg Hin]. apply od_elem_get in Hin; [|apply Hwf].
    cbn in *. assert (st' = st) as -> by congruence.
    unfold goes_back in Hg. cbn in Hg. rewrite !andb_true_iff in Hg.
    by destruct Hg as [_ ?%bool_decide_eq_true_1].
Qed.

(** Popping the queue of a tenant. *)
Lemma pop_queued_spec sts queue found rest :
  pop_queued sts queue = (found, rest) →
  ∃ skipped,
    (∀ id st, id ∈ skipped → od_get id sts = Some st → js_status st ≠ Queued) ∧
    match found with
    | None => queue = skipped ∧ rest = []
    | Some (id, st) =>
        queue = skipped ++ id :: rest ∧ od_get id sts = Some st ∧ js_status st = Queued
    end.
Proof.
  revert found rest. induction queue as [|id queue IH]; intros found rest; cbn [pop_queued].
  { intros [= <- <-]. exists []. split; [|done]. by intros id st ?%elem_of_nil. }
  assert (∀ sk (x : string), (∀ i st, i ∈ sk → od_get i sts = Some st → js_status st ≠ Queued) →
    (∀ st, od_get x sts = Some st → js_status st ≠ Queued) →
    ∀ i st, i ∈ x :: sk → od_get i sts = Some st → js_status st ≠ Queued) as Hskip.
  { intros sk x H1 H2 i st [->|Hin]%elem_of_cons; eauto. }
  destruct (od_get id sts) as [st|] eqn:E; [case_decide as Hq|].
  - intros [= <- <-]. exists []. split_and!; try done. by intros i st' ?%elem_of_nil.
  - intros (sk & Hsk & Hf)%IH. exists (id :: sk). split; [apply Hskip; [done|naive_solver]|].
    destruct found as [[i st']|]; naive_solver.
  - intros (sk & Hsk & Hf)%IH. exists (id :: sk). split; [apply Hskip; [done|naive_solver]|].
    destruct found as [[i st']|]; naive_solver.
Qed.

(** A job rewritten in place, keeping its envelope's identity. *)
Lemma wf_update s id st st' :
  wf s → od_get id (states s) = Some st →
  ev_job_id (js_envelope st') = id → js_tenant st' = js_tenant st → js_status st' ≠ Queued →
  wf (mkStore (od_set id st' (states s)) (tenant_queue s)).
Proof.
  intros Hwf Hst Eid Et Hs.
  assert (∀ i s1, od_get i (od_set id st' (states s)) = Some s1 →
    i = id ∧ s1 = st' ∨ i ≠ id ∧ od_get i (states s) = Some s1) as Hget.
  { intros i s1. destruct (decide (i = id)) as [->|Hne].
    - rewrite od_get_set. intros [= <-]. by left.
    - rewrite od_get_set_ne by done. by right. }
  split; cbn.
  - apply od_wf_set, Hwf.
  - intros i s1 [[-> ->]|[_ ?]]%Hget; [done|by apply Hwf].
  - intros i s1 [[-> ->]|[_ ?]]%Hget; [done|by apply Hwf].
  - intros i s1 tenant [[-> ->]|[_ ?]]%Hget; [rewrite Et|]; by apply Hwf.
Qed.

(** Keeping only some of the jobs that are not queued, or fewer queue entries of
    jobs that are not queued. *)
Lemma wf_shrink s sts q :
  wf s → od_wf sts →
  (∀ id st, od_get id sts = Some st → od_get id (states s) = Some st) →
  (∀ id st, od_get id sts = Some st → js_status st = Queued →
     id ∈ queue_of (tenant_queue s) (js_tenant st) → id ∈ queue_of q (js_tenant st)) →
  (∀ id tenant, id ∈ queue_of q tenant → id ∈ queue_of (tenant_queue s) tenant) →
  wf (mkStore sts q).
Proof.
  intros Hwf Hnd Hsub Hq Hq'. split; cbn; [done|..].
  - intros id st ?%Hsub. by apply Hwf.
  - intros id st Hst Hs. apply Hq; [done|done|]. apply Hwf; auto.
  - intros id st tenant ?%Hsub ?%Hq'. by eapply wf_owner.
Qed.

Lemma queue_of_insert q tenant l tenant' :
  queue_of (<[tenant := l]> q) tenant' = if decide (tenant = tenant') then l else queue_of q tenant'.
Proof.
  unfold queue_of. case_decide as H; [subst; by rewrite lookup_insert_eq|by rewrite lookup_insert_ne].
Qed.

(** ** Claiming *)

Lemma claim_next_spec s now tenant worker ttl token :
  wf s →
  let s1 := (requeue_unlocked s now None).1 in
  let '(c, s') := claim_next s now tenant worker ttl token in
  wf s' ∧
  match c with
  | None =>
      states s' = states s1 ∧
      ∀ id st, od_get id (states s1) = Some st → js_tenant st = tenant → js_status st ≠ Queued
  | Some id =>
      ∃ st, od_get id (states s1) = Some st ∧ js_status st = Queued ∧ js_tenant st = tenant ∧
            states s' = od_set id (lease now worker ttl token st) (states s1)
  end.
Proof.
  intros Hwf s1. pose proof (wf_requeue s now None Hwf) as Hwf1. fold s1 in Hwf1.
  unfold claim_next. destruct (requeue_unlocked s now None) as [s1' n] eqn:Er.
  change s1' with s1. clear Er. clearbody s1.
  destruct (pop_queued _ _) as [found rest] eqn:Ep.
  apply pop_queued_spec in Ep as (sk & Hsk & Hf).
  assert (wf (mkStore (states s1) (<[tenant := rest]> (tenant_queue s1))) ∨ is_Some found) as Hnone.
  { destruct found as [[id st]|]; [right; eauto|left]. destruct Hf as [Eq ->].
    apply (wf_shrink s1); [done|apply Hwf1|done|..].
    - intros id st Hst Hs. rewrite queue_of_insert. case_decide as Ht; [|done].
      rewrite <- Ht, Eq. intros Hin. by destruct (Hsk id st Hin Hst).
    - intros id t'. rewrite queue_of_insert. case_decide; [by intros ?%elem_of_nil|done]. }
  destruct found as [[id st]|].
  - destruct Hf as (Eq & Hst & Hs).
    assert (js_tenant st = tenant) as Ht.
    { apply (wf_owner _ Hwf1 id st tenant Hst). rewrite Eq, elem_of_app, elem_of_cons. auto. }
    split; [|eauto].
    assert (wf (mkStore (od_set id (lease now worker ttl token st) (states s1)) (tenant_queue s1)))
      as Hwf2 by (apply (wf_update s1 id st); [done|done|by apply (wf_id _ Hwf1) in Hst|done|done]).
    eapply (wf_shrink _ _ _ Hwf2); cbn; [apply Hwf2|done|..].
    + intros i st' Hi Hsi. rewrite queue_of_insert. case_decide as Hti; [|done].
      rewrite <- Hti, Eq, elem_of_app, elem_of_cons. intros [Hin|[->|Hin]]; [exfalso|exfalso|done].
      * destruct (decide (i = id)) as [->|Hne]; [rewrite od_get_set in Hi; injection Hi as <-; done|].
        rewrite od_get_set_ne in Hi by done. by destruct (Hsk i st' Hin Hi).
      * rewrite od_get_set in Hi. by injection Hi as <-.
    + intros i t'. rewrite queue_of_insert. case_decide as Hti; [|done].
      subst t'. rewrite Eq, elem_of_app, elem_of_cons. auto.
  - destruct Hnone as [Hnone|[? [=]]]. destruct Hf as [Eq ->]. split; [done|]. split; [done|].
    intros id st Hst Ht Hs. apply (Hsk id st); [|done|done].
    rewrite <- Eq, <- Ht. by apply Hwf1.
Qed.

(** ** Commands *)

Inductive command :=
| CEnqueue (job : ByocToolJobEnvelope)
| CClaim (now : Z) (tenant worker : string) (ttl : Z) (token : string)
| CComplete (now : Z) (job_id token : string)
| CGetLeased (now : Z) (job_id token : string)
| CRequeue (now : Z) (max_attempts : option Z)
| CCancel (clock : string → Z) (now : Z) (call_id : string)
| CReplay (tenant job_id : string)
| CCleanup (now : Z) (tenant : string) (completed_ttl cancelled_ttl max_completed max_cancelled : Z).

Definition step (s : t) (c : command) : t :=
  match c with
  | CEnqueue job => enqueue s job
  | CClaim now tenant worker ttl token => (claim_next s now tenant worker ttl token).2
  | CComplete now id token => (complete_claim s now id token).2
  | CGetLeased now id token => (get_leased_job s now id token).2
  | CRequeue now mx => (requeue_expired_leases s now mx).2
  | CCancel clock now call => (cancel_pending_call s clock now call).2
  | CReplay tenant id => (replay_dead_letter_job s tenant id).2
  | CCleanup now tenant a b c d => (cleanup_retention s now tenant a b c d).2
  end.

(** Job ids are fresh uuids: a new job's id is in no queue. *)
Definition fresh (s : t) (c : command) : Prop :=
  match c with
  | CEnqueue job => ∀ tenant, ev_job_id job ∉ queue_of (tenant_queue s) tenant
  | _ => True
  end.

Inductive reachable : t → Prop :=
| reach_empty : reachable empty
| reach_step s c : reachable s → fresh s c → reachable (step s c).

Lemma wf_enqueue s job :
  wf s → (∀ tenant, ev_job_id job ∉ queue_of (tenant_queue s) tenant) → wf (enqueue s job).
Proof.
  intros Hwf Hfresh. unfold enqueue.
  destruct (od_get (ev_job_id job) (states s)) as [st0|] eqn:Enone; [done|].
  assert (∀ i s1, od_get i (od_set (ev_job_id job) (new_state job) (states s)) = Some s1 →
    i = ev_job_id job ∧ s1 = new_state job ∨ i ≠ ev_job_id job ∧ od_get i (states s) = Some s1) as Hget.
  { intros i s1. destruct (decide (i = ev_job_id job)) as [->|Hne].
    - rewrite od_get_set. intros [= <-]. by left.
    - rewrite od_get_set_ne by done. by right. }
  split; cbn.
  - apply od_wf_set, Hwf.
  - intros i s1 [[-> ->]|[_ ?]]%Hget; [done|by apply Hwf].
  - intros i s1 [[-> ->]|[_ H]]%Hget Hs; rewrite queue_of_push, elem_of_app; [right|left; by apply Hwf].
    change (js_tenant (new_state job)) with (ev_tenant_id job).
    rewrite decide_True by done. apply list_elem_of_here.
  - intros i s1 tenant Hg. rewrite queue_of_push, elem_of_app.
    destruct (Hget i s1 Hg) as [[-> ->]|[Hne H]].
    + intros [Hin|Hin]; [by destruct (Hfresh tenant)|]. case_decide; [done|by apply elem_of_nil in Hin].
    + intros [Hin|Hin]; [by eapply wf_owner|].
      case_decide; [by apply list_elem_of_singleton in Hin|by apply elem_of_nil in Hin].
Qed.

Lemma wf_complete s now id token : wf s → wf (complete_claim s now id token).2.
Proof.
  intros Hwf. unfold complete_claim. destruct (od_get id (states s)) as [st|] eqn:Est; [|done].
  destruct (negb _); [done|]. destruct (_ <=? _); [by apply wf_requeue|].
  destruct (negb _); [done|]. cbn. eapply wf_update; try done. by apply (wf_id _ Hwf) in Est.
Qed.

Lemma wf_get_leased s now id token : wf s → wf (get_leased_job s now id token).2.
Proof.
  intros Hwf. unfold get_leased_job. destruct (od_get id (states s)) as [st|]; [|done].
  destruct (negb _); [done|]. destruct (_ <=? _); [by apply wf_requeue|]. by destruct (negb _).
Qed.

Lemma cancel_state_spec call clock st :
  js_envelope (cancel_state call clock st) = js_envelope st ∧
  (js_status (cancel_state call clock st) = js_status st ∨
   js_status st = Queued ∧ js_status (cancel_state call clock st) = Cancelled) ∧
  js_attempt (cancel_state call clock st) = js_attempt st.
Proof.
  unfold cancel_state. destruct (negb _); [auto|]. destruct (js_status st) eqn:E; cbn; rewrite ?E; auto.
Qed.

Lemma wf_cancel s clock now call : wf s → wf (cancel_pending_call s clock now call).2.
Proof.
  intros Hwf. unfold cancel_pending_call. destruct (negb _); [done|]. cbn [snd].
  apply wf_requeue.
  assert (∀ id st', od_get id (od_map (λ id, cancel_state (py_strip call) (clock id)) (states s)) = Some st' →
    ∃ st, od_get id (states s) = Some st ∧ st' = cancel_state (py_strip call) (clock id) st) as Hget.
  { intros id st'. rewrite od_get_map. destruct (od_get id (states s)); [|done]. intros [= <-]. eauto. }
  split; cbn.
  - unfold od_wf. rewrite od_map_keys. apply Hwf.
  - intros id st' (st & Hst & ->)%Hget.
    destruct (cancel_state_spec (py_strip call) (clock id) st) as (-> & _). by apply Hwf.
  - intros id st' (st & Hst & ->)%Hget.
    destruct (cancel_state_spec (py_strip call) (clock id) st) as (E & [->|[_ ->]] & _); [|done].
    unfold js_tenant. rewrite E. by apply Hwf.
  - intros id st' tenant (st & Hst & ->)%Hget.
    destruct (cancel_state_spec (py_strip call) (clock id) st) as (E & _).
    unfold js_tenant. rewrite E. by eapply wf_owner.
Qed.

Lemma wf_replay s tenant id : wf s → wf (replay_dead_letter_job s tenant id).2.
Proof.
  intros Hwf. unfold replay_dead_letter_job. destruct (_ || _); [done|].
  destruct (od_get (py_strip id) (states s)) as [st|] eqn:Est; [|done].
  destruct (has_status (py_strip tenant) DeadLettered st) eqn:Eh; cbn; [|done].
  unfold has_status in Eh. rewrite andb_true_iff, !bool_decide_eq_true in Eh. destruct Eh as [Et _].
  assert (∀ i s1, od_get i (od_set (py_strip id) (replayed st) (states s)) = Some s1 →
    i = py_strip id ∧ s1 = replayed st ∨ i ≠ py_strip id ∧ od_get i (states s) = Some s1) as Hget.
  { intros i s1. destruct (decide (i = py_strip id)) as [->|Hne].
    - rewrite od_get_set. intros [= <-]. by left.
    - rewrite od_get_set_ne by done. by right. }
  split; cbn.
  - apply od_wf_set, Hwf.
  - intros i s1 [[-> ->]|[_ ?]]%Hget; [by apply (wf_id _ Hwf) in Est|by apply Hwf].
  - intros i s1 [[-> ->]|[_ H]]%Hget Hs; rewrite queue_of_push, elem_of_app; [right|left; by apply Hwf].
    change (js_tenant (replayed st)) with (js_tenant st). rewrite Et, decide_True by done.
    apply list_elem_of_here.
  - intros i s1 tn Hg. rewrite queue_of_push, elem_of_app.
    intros [Hin|Hin].
    + destruct (Hget i s1 Hg) as [[-> ->]|[Hne H]].
      * by apply (wf_owner _ Hwf _ st tn) in Hin.
      * by apply (wf_owner _ Hwf _ s1 tn) in Hin.
    + case_decide as Ht; [|by apply elem_of_nil in Hin].
      apply list_elem_of_singleton in Hin as ->.
      destruct (Hget _ _ Hg) as [[_ ->]|[? _]]; [|done]. by rewrite <- Ht.
Qed.

(** What [cleanup_retention] keeps of a dictionary of states. *)
Lemma overflow_ids_status tenant status time mx sts id st :
  od_wf sts → id ∈ overflow_ids tenant status time mx sts → od_get id sts = Some st →
  js_tenant st = tenant ∧ js_status st = status.
Proof.
  intros Hwf Hin Hg. unfold overflow_ids in Hin.
  apply list_elem_of_fmap in Hin as ([id' st'] & -> & Hin).
  assert ((id', st') ∈ filter (λ p, has_status tenant status p.2 = true) sts) as Hin'.
  { rewrite <- (elem_of_sort_by (by_key (λ p : string * JobState, time p.2))).
    rewrite <- (take_drop (Z.to_nat (Z.max 0 (Z.of_nat (length
      (filter (λ p, has_status tenant status p.2 = true) sts)) - Z.max mx 0))) (sort_by _ _)).
    apply elem_of_app. by left. }
  apply list_elem_of_filter in Hin' as [Hs Hin'].
  apply od_elem_get in Hin'; [|done]. cbn in *. assert (st' = st) as -> by congruence.
  unfold has_status in Hs. by rewrite andb_true_iff, !bool_decide_eq_true in Hs.
Qed.

(** A job leaves only when it is the tenant's and finished. *)
Lemma cleanup_spec s now tenant a b c d :
  wf s →
  let s' := (cleanup_retention s now tenant a b c d).2 in
  tenant_queue s' = tenant_queue s ∧ od_wf (states s') ∧
  (∀ id st, od_get id (states s') = Some st → od_get id (states s) = Some st) ∧
  (∀ id st, od_get id (states s) = Some st → od_get id (states s') = None →
     js_tenant st = py_strip tenant ∧ (js_status st = Completed ∨ js_status st = Cancelled)).
Proof.
  intros Hwf. unfold cleanup_retention. destruct (negb _).
  { split_and!; [done|apply Hwf|done|]. cbn. congruence. }
  cbn [snd states tenant_queue].
  set (ttl := λ p : string * JobState, (ttl_completed _ _ p.2 || ttl_cancelled _ _ p.2) = false).
  set (sts := filter ttl (states s)).
  assert (od_wf sts) as Hsts by apply od_wf_filter, Hwf.
  assert (∀ id st, od_get id sts = Some st ↔ od_get id (states s) = Some st ∧ ttl (id, st)) as Hget.
  { intros id st. apply od_get_filter_some, Hwf. }
  split_and!; [done|by repeat apply od_wf_pop_all|..].
  - intros id st. rewrite !od_get_pop_all. do 2 (case_decide; [done|]). by intros [? _]%Hget.
  - intros id st Hst. rewrite !od_get_pop_all. destruct (decide (ttl (id, st))) as [Ht|Ht].
    + assert (od_get id sts = Some st) as Hs by (by apply Hget).
      case_decide as H1; [intros _; apply (overflow_ids_status _ _ _ _ _ _ _ Hsts H1) in Hs; naive_solver|].
      case_decide as H2; [intros _; apply (overflow_ids_status _ _ _ _ _ _ _ Hsts H2) in Hs; naive_solver|].
      by rewrite Hs.
    + intros _. subst ttl. cbn in Ht. rewrite not_false_iff_true, orb_true_iff in Ht.
      unfold ttl_completed, ttl_cancelled, has_status in Ht.
      rewrite !andb_true_iff, !bool_decide_eq_true in Ht. naive_solver.
Qed.

Lemma wf_step s c : wf s → fresh s c → wf (step s c).
Proof.
  intros Hwf Hf. destruct c as [job|now tenant worker ttl token|now id token|now id token|now mx
    |clock now call|tenant id|now tenant a b c d]; cbn [step fresh] in *.
  - by apply wf_enqueue.
  - pose proof (claim_next_spec s now tenant worker ttl token Hwf) as H. cbv zeta in H.
    destruct (claim_next s now tenant worker ttl token) as [r s']. apply H.
  - by apply wf_complete.
  - by apply wf_get_leased.
  - unfold requeue_expired_leases. pose proof (wf_requeue s now mx Hwf) as H.
    by destruct (requeue_unlocked s now mx).
  - by apply wf_cancel.
  - by apply wf_replay.
  - destruct (cleanup_spec s now tenant a b c d Hwf) as (Eq & Hnd & Hsub & _).
    destruct (cleanup_retention s now tenant a b c d).2 as [sts q]. cbn in *. subst q.
    by apply (wf_shrink s).
Qed.

Lemma queue_reachable_wf s : reachable s → wf s.
Proof. induction 1; [apply empty_queue_wf|by apply wf_step]. Qed.

(** ** The status machine *)

Definition allowed (s s' : job_status) : bool :=
  match s, s' with
  | Queued, (Queued | Leased | Cancelled) => true
  | Leased, (Leased | Queued | Completed | DeadLettered) => true
  | DeadLettered, (DeadLettered | Queued) => true
  | Completed, Completed => true
  | Cancelled, Cancelled => true
  | _, _ => false
  end.

(** Whether a command hands the job out *)
Definition leases (s : t) (c : command) (id : string) : bool :=
  match c with
  | CClaim now tenant worker ttl token =>
      bool_decide ((claim_next s now tenant worker ttl token).1 = Some id)
  | _ => false
  end.

Definition follows (leased : bool) (st st' : JobState) : Prop :=
  allowed (js_status st) (js_status st') = true ∧
  js_tenant st' = js_tenant st ∧
  js_attempt st' = js_attempt st + (if leased then 1 else 0) ∧
  (leased = true → js_status st' = Leased).

Lemma follows_refl st : follows false st st.
Proof. split_and!; try lia; try done. by destruct (js_status st). Qed.

Lemma follows_requeued now mx st : follows false st (requeued now mx st).
Proof.
  unfold requeued, expired. destruct (js_status st) eqn:Es; try (cbn; apply follows_refl).
  destruct (js_expires st <=? now); [|apply follows_refl]. rewrite bool_decide_true by done. cbn [andb].
  destruct (exhausted mx st); split_and!; cbn; rewrite ?Es; (done || lia).
Qed.

Lemma requeue_unlocked_get s now mx id :
  od_get id (states (requeue_unlocked s now mx).1) = requeued now mx <$> od_get id (states s).
Proof. destruct (requeue_unlocked_spec s now mx) as [-> _]. apply (od_get_map (λ _, requeued now mx)). Qed.

(** What a command does to one job it finds. *)
Lemma step_follows s c id st :
  wf s → od_get id (states s) = Some st →
  (∃ st', od_get id (states (step s c)) = Some st' ∧ follows (leases s c id) st st') ∨
  od_get id (states (step s c)) = None ∧ (js_status st = Completed ∨ js_status st = Cancelled).
Proof.
  intros Hwf Hst.
  destruct c as [job|now tenant worker ttl token|now id' token|now id' token|now mx
    |clock now call|tenant id'|now tenant a b c d]; cbn [step leases].
  - left. exists st. split; [|apply follows_refl]. unfold enqueue.
    destruct (od_get (ev_job_id job) (states s)) eqn:E; [done|]. cbn.
    rewrite od_get_set_ne; [done|]. intros ->. congruence.
  - pose proof (claim_next_spec s now tenant worker ttl token Hwf) as H. cbv zeta in H.
    pose proof (requeue_unlocked_get s now None id) as Hg. rewrite Hst in Hg. cbn [fmap option_fmap option_map] in Hg.
    pose proof (follows_requeued now None st) as Hr. left.
    destruct (claim_next s now tenant worker ttl token) as [[id1|] s']; cbn [snd].
    + destruct H as (_ & st1 & Hst1 & Hs1 & _ & ->).
      destruct (decide (id = id1)) as [<-|Hne].
      2:{ rewrite od_get_set_ne by done. cbn [fst]. rewrite bool_decide_false by congruence. eauto. }
      rewrite od_get_set. eexists. split; [done|]. cbn [fst]. rewrite bool_decide_true by done.
      rewrite Hg in Hst1. injection Hst1 as <-.
      destruct Hr as (Ha & Ht & Hat & _). rewrite Hs1 in Ha.
      assert (js_status st = Queued ∨ js_status st = Leased) as Hq.
      { apply requeued_queued in Hs1. naive_solver. }
      split_and!; cbn; [by destruct Hq as [->| ->]|done|lia|done].
    + destruct H as (_ & -> & _). cbn [fst]. rewrite bool_decide_false by done. eauto.
  - left. unfold complete_claim. destruct (od_get id' (states s)) as [st0|] eqn:Est; [|eauto using follows_refl].
    destruct (bool_decide (js_status st0 = Leased)) eqn:Es; cbn; [|eauto using follows_refl].
    destruct (_ <=? _); cbn.
    { rewrite requeue_unlocked_get, Hst. cbn. eauto using follows_requeued. }
    destruct (_ =?s _); cbn; [|eauto using follows_refl].
    destruct (decide (id = id')) as [<-|Hne]; [|rewrite od_get_set_ne by done; eauto using follows_refl].
    rewrite od_get_set. eexists. split; [done|].
    assert (st0 = st) as -> by congruence. apply bool_decide_eq_true in Es.
    split_and!; cbn; rewrite ?Es; (done || lia).
  - left. unfold get_leased_job. destruct (od_get id' (states s)) as [st0|] eqn:Est; [|eauto using follows_refl].
    destruct (negb _); cbn; [eauto using follows_refl|]. destruct (_ <=? _); cbn.
    { rewrite requeue_unlocked_get, Hst. cbn. eauto using follows_requeued. }
    destruct (negb _); cbn; eauto using follows_refl.
  - left. unfold requeue_expired_leases. pose proof (requeue_unlocked_get s now mx id) as Hg.
    rewrite Hst in Hg. destruct (requeue_unlocked s now mx). cbn in *. eauto using follows_requeued.
  - left. unfold cancel_pending_call. destruct (negb _); cbn [snd]; [eauto using follows_refl|].
    rewrite requeue_unlocked_get. cbn [states].
    rewrite (od_get_map (λ id, cancel_state (py_strip call) (clock id))), Hst. cbn.
    eexists. split; [done|].
    destruct (cancel_state_spec (py_strip call) (clock id) st) as (Ee & Hs & Ea).
    set (st1 := cancel_state _ _ _) in *.
    destruct (follows_requeued now None st1) as (Ha & Ht & Hat & _).
    split_and!; [| |lia|done].
    + destruct Hs as [Hs|[Hs0 Hs]]; rewrite Hs in Ha; [done|]. rewrite Hs0.
      by destruct (js_status (requeued now None st1)).
    + rewrite Ht. unfold js_tenant. by rewrite Ee.
  - left. unfold replay_dead_letter_job. destruct (_ || _); cbn; [eauto using follows_refl|].
    destruct (od_get (py_strip id') (states s)) as [st0|] eqn:Est; [|eauto using follows_refl].
    destruct (has_status (py_strip tenant) DeadLettered st0) eqn:Eh; cbn; [|eauto using follows_refl].
    destruct (decide (id = py_strip id')) as [->|Hne]; [|rewrite od_get_set_ne by done; eauto using follows_refl].
    rewrite od_get_set. eexists. split; [done|].
    assert (st0 = st) as -> by congruence.
    unfold has_status in Eh. rewrite andb_true_iff, !bool_decide_eq_true in Eh. destruct Eh as [_ Es].
    split_and!; cbn; rewrite ?Es; (done || lia).
  - destruct (cleanup_spec s now tenant a b c d Hwf) as (_ & _ & Hsub & Hgone).
    destruct (od_get id (states (cleanup_retention s now tenant a b c d).2)) as [st'|] eqn:E.
    + left. exists st'. split; [done|]. apply Hsub in E.
      assert (st' = st) as -> by congruence. apply follows_refl.
    + right. split; [done|]. by apply (Hgone id st).
Qed.

Fixpoint run (s : t) (cs : list command) : t :=
  match cs with [] => s | c :: cs => run (step s c) cs end.

(** Every enqueue of the sequence is fresh where it happens. *)
Fixpoint fresh_run (s : t) (cs : list command) : Prop :=
  match cs with [] => True | c :: cs => fresh s c ∧ fresh_run (step s c) cs end.

Definition enqueues (id : string) (c : command) : Prop :=
  match c with CEnqueue job => ev_job_id job = id | _ => False end.

Lemma step_none s c id :
  wf s → od_get id (states s) = None → ¬ enqueues id c → od_get id (states (step s c)) = None.
Proof.
  intros Hwf Hn Hne.
  destruct c as [job|now tenant worker ttl token|now id' token|now id' token|now mx
    |clock now call|tenant id'|now tenant a b c d]; cbn [step enqueues] in *.
  - unfold enqueue. destruct (od_get (ev_job_id job) (states s)); [done|]. cbn.
    by rewrite od_get_set_ne by congruence.
  - pose proof (claim_next_spec s now tenant worker ttl token Hwf) as H. cbv zeta in H.
    pose proof (requeue_unlocked_get s now None id) as Hg. rewrite Hn in Hg. cbn [fmap option_fmap option_map] in Hg.
    destruct (claim_next s now tenant worker ttl token) as [[id1|] s']; cbn [snd].
    + destruct H as (_ & st1 & Hst1 & _ & _ & ->). rewrite od_get_set_ne by congruence. done.
    + by destruct H as (_ & -> & _).
  - unfold complete_claim. destruct (od_get id' (states s)) as [st0|] eqn:Est; [|done].
    destruct (negb _); [done|]. destruct (_ <=? _); cbn; [by rewrite requeue_unlocked_get, Hn|].
    destruct (negb _); [done|]. cbn. by rewrite od_get_set_ne by congruence.
  - unfold get_leased_job. destruct (od_get id' (states s)) as [st0|] eqn:Est; [|done].
    destruct (negb _); [done|]. destruct (_ <=? _); cbn; [by rewrite requeue_unlocked_get, Hn|].
    by destruct (negb _).
  - unfold requeue_expired_leases. pose proof (requeue_unlocked_get s now mx id) as Hg.
    rewrite Hn in Hg. by destruct (requeue_unlocked s now mx).
  - unfold cancel_pending_call. destruct (negb _); [done|]. cbn [snd]. rewrite requeue_unlocked_get.
    cbn [states]. by rewrite (od_get_map (λ id, cancel_state (py_strip call) (clock id))), Hn.
  - unfold replay_dead_letter_job. destruct (_ || _); [done|].
    destruct (od_get (py_strip id') (states s)) as [st0|] eqn:Est; [|done].
    destruct (negb _); [done|]. cbn. by rewrite od_get_set_ne by congruence.
  - destruct (cleanup_spec s now tenant a b c d Hwf) as (_ & _ & Hsub & _).
    apply eq_None_not_Some. intros [st' E%Hsub]. congruence.
Qed.

Lemma run_completed s cs id :
  wf s → fresh_run s cs → Forall (λ c, ¬ enqueues id c) cs →
  (∀ st, od_get id (states s) = Some st → js_status st = Completed) →
  wf (run s cs) ∧ ∀ st, od_get id (states (run s cs)) = Some st → js_status st = Completed.
Proof.
  revert s. induction cs as [|c cs IH]; intros s Hwf Hf Hne Hs; [done|]. cbn [run].
  destruct Hf as [Hf1 Hf]. apply Forall_cons in Hne as [Hn1 Hne].
  apply IH; [by apply wf_step|done|done|]. intros st' Hst'.
  destruct (od_get id (states s)) as [st|] eqn:Est.
  - destruct (step_follows s c id st Hwf Est) as [(st1 & Hst1 & Hfo)|[Hn _]]; [|congruence].
    assert (st1 = st') as -> by congruence. destruct Hfo as (Ha & _).
    rewrite (Hs st eq_refl) in Ha. by destruct (js_status st').
  - pose proof (step_none s c id Hwf Est Hn1). congruence.
Qed.

(** ** The theorems *)

(** Claiming in a reachable queue: the job handed out belongs to the tenant
    asked for, was queued or had an expired lease, and is now leased to the worker
    under the fresh token until now plus the time to live (at least one second),
    which the claim's envelope shows; nothing is handed out only when the tenant
    has no queued job and no expired lease. *)
Theorem claim_next_serves_tenant s now tenant worker ttl token :
  reachable s →
  let '(c, s') := claim_next s now tenant worker ttl token in
  match c with
  | Some id =>
      ∃ st st',
        od_get id (states s) = Some st ∧ js_tenant st = tenant ∧
        (js_status st = Queued ∨ js_status st = Leased ∧ js_expires st ≤ now) ∧
        od_get id (states s') = Some st' ∧ js_status st' = Leased ∧ js_worker st' = worker ∧
        js_token st' = "lease_" +:+ token ∧ js_expires st' = now + Z.max ttl 1 * second ∧
        js_attempt st' = js_attempt st + 1 ∧
        ev_lease_token <$> claim_envelope s' id = Some ("lease_" +:+ token)
  | None =>
      ∀ id st, od_get id (states s) = Some st → js_tenant st = tenant →
        js_status st ≠ Queued ∧ (js_status st = Leased → now < js_expires st)
  end.
Proof.
  intros Hr%queue_reachable_wf. pose proof (claim_next_spec s now tenant worker ttl token Hr) as H.
  cbv zeta in H. destruct (claim_next s now tenant worker ttl token) as [[id|] s'].
  - destruct H as (_ & st1 & Hst1 & Hs1 & Ht & Es).
    rewrite requeue_unlocked_get in Hst1.
    destruct (od_get id (states s)) as [st|] eqn:Est; [|done]. injection Hst1 as <-.
    exists st, (lease now worker ttl token (requeued now None st)).
    rewrite requeued_tenant in Ht. unfold claim_envelope. rewrite Es, od_get_set.
    split_and!; try done.
    + by apply requeued_queued in Hs1.
    + cbn. unfold requeued. by destruct (expired now st).
  - destruct H as (_ & _ & Hnone). intros id st Est Ht.
    assert (od_get id (states (requeue_unlocked s now None).1) = Some (requeued now None st)) as Hg
      by by rewrite requeue_unlocked_get, Est.
    specialize (Hnone id _ Hg). rewrite requeued_tenant in Hnone.
    by apply requeued_not_queued, Hnone.
Qed.

(** C14: A job's status only moves along the documented machine (queued, leased,
    completed, cancelled, dead-lettered) and its tenant never changes; a claim that hands
    the job out leaves it leased and its attempt count one higher, and no other command
    changes the count; and a job disappears only once it is completed or cancelled: no
    command loses a queued, leased or dead-lettered job. *)
Theorem job_status_machine s c id st :
  reachable s → od_get id (states s) = Some st →
  match od_get id (states (step s c)) with
  | Some st' =>
      allowed (js_status st) (js_status st') = true ∧ js_tenant st' = js_tenant st ∧
      js_attempt st' = js_attempt st + (if leases s c id then 1 else 0) ∧
      (leases s c id = true → js_status st' = Leased)
  | None => js_status st = Completed ∨ js_status st = Cancelled
  end.
Proof.
  intros Hr%queue_reachable_wf Hst.
  destruct (step_follows s c id st Hr Hst) as [(st' & -> & Hf)|[-> ?]]; [exact Hf|done].
Qed.

(** A claim is completed exactly when the job is leased, the lease has not
    expired and the token is the lease's; and once completed it can never be
    completed again, whatever happens to the queue, unless its id is enqueued
    anew. *)
Theorem claim_completes_once s now id token :
  reachable s →
  ((complete_claim s now id token).1 = true ↔
     ∃ st, od_get id (states s) = Some st ∧ js_status st = Leased ∧ now < js_expires st ∧
           js_token st = token) ∧
  ((complete_claim s now id token).1 = true →
   ∀ cs, let s1 := (complete_claim s now id token).2 in
     fresh_run s1 cs → Forall (λ c, ¬ enqueues id c) cs →
     ∀ now' token', (complete_claim (run s1 cs) now' id token').1 = false).
Proof.
  intros Hr%queue_reachable_wf. split.
  - unfold complete_claim. destruct (od_get id (states s)) as [st|]; [|naive_solver].
    case_bool_decide as Hs; cbn [negb]; [|naive_solver].
    destruct (Z.leb_spec (js_expires st) now); [cbn; naive_solver lia|].
    case_bool_decide as Ht; cbn [negb]; cbn; naive_solver.
  - intros Hc cs s1 Hf Hne now' token'.
    assert (∀ st, od_get id (states s1) = Some st → js_status st = Completed) as Hdone.
    { subst s1. unfold complete_claim in *. destruct (od_get id (states s)) as [st|]; [|done].
      destruct (negb _); [done|]. destruct (_ <=? _); [done|]. destruct (negb _); [done|]. cbn.
      rewrite od_get_set. by intros ? [= <-]. }
    destruct (run_completed s1 cs id) as [_ Hs]; [by apply wf_complete|done|done|done|].
    unfold complete_claim. destruct (od_get id (states (run s1 cs))) as [st|]; [|done].
    by rewrite (Hs st eq_refl).
Qed.

(** ** Retention *)

Lemma count_values {V} (f : V → bool) (m : list (string * V)) :
  count_if f (od_values m) = count_if (λ p, f p.2) m.
Proof.
  induction m as [|[k v] m IH]; [done|].
  change (od_values ((k, v) :: m)) with (v :: od_values m). by rewrite !count_if_cons, IH.
Qed.

Lemma count_filter_le {A} (f : A → bool) (P : A → Prop) `{!∀ x, Decision (P x)} (l : list A) :
  count_if f (filter P l) ≤ count_if f l.
Proof.
  induction l as [|x l IH]; [done|]. rewrite filter_cons.
  case_decide; rewrite ?count_if_cons; [lia|]. destruct (f x); lia.
Qed.

(** Removing the overflow leaves at most [max mx 0] records of the status. *)
Lemma overflow_bound tenant status time mx (sts : list (string * JobState)) :
  od_wf sts →
  count_if (λ p : string * JobState, has_status tenant status p.2)
    (od_pop_all (overflow_ids tenant status time mx sts) sts) ≤ Z.max mx 0.
Proof.
  intros Hwf. rewrite od_pop_all_filter. unfold overflow_ids, count_if.
  set (n := Z.to_nat _).
  pose proof (prune_split fst (λ p : string * JobState, has_status tenant status p.2)
    (by_key (λ p : string * JobState, time p.2)) n sts Hwf) as Hp.
  cbv zeta in Hp. rewrite Hp, length_drop, length_sort_by. subst n. lia.
Qed.

Lemma od_pop_all_swap {V} (k1 k2 : list string) (m : list (string * V)) :
  od_pop_all k1 (od_pop_all k2 m) = od_pop_all k2 (od_pop_all k1 m).
Proof.
  rewrite !od_pop_all_filter, !list_filter_filter. apply list_filter_iff. intros p. tauto.
Qed.

Lemma count_pop_all_le {V} (f : string * V → bool) ks (m : list (string * V)) :
  count_if f (od_pop_all ks m) ≤ count_if f m.
Proof. rewrite od_pop_all_filter. apply count_filter_le. Qed.

(** Cleaning up a tenant leaves it at most the configured number of completed
    and of cancelled records, removes nothing but its own completed and cancelled
    jobs, and changes no job that stays. *)
Theorem cleanup_bounds_retention s now tenant a b c d :
  reachable s → py_strip tenant ≠ "" →
  let s' := (cleanup_retention s now tenant a b c d).2 in
  count_if (has_status (py_strip tenant) Completed) (od_values (states s')) ≤ Z.max c 0 ∧
  count_if (has_status (py_strip tenant) Cancelled) (od_values (states s')) ≤ Z.max d 0 ∧
  (∀ id st, od_get id (states s') = Some st → od_get id (states s) = Some st) ∧
  (∀ id st, od_get id (states s) = Some st → od_get id (states s') = None →
     js_tenant st = py_strip tenant ∧ (js_status st = Completed ∨ js_status st = Cancelled)).
Proof.
  intros Hr%queue_reachable_wf Ht. destruct (cleanup_spec s now tenant a b c d Hr) as (_ & _ & H1 & H2).
  cbv zeta in *. split_and!; [..|exact H1|exact H2]; clear H1 H2;
    unfold cleanup_retention; apply py_bool_true in Ht; rewrite Ht; cbn [negb snd states];
    set (sts := filter _ (states s)); assert (od_wf sts) as Hsts by apply od_wf_filter, Hr;
    rewrite count_values.
  - etrans; [apply count_pop_all_le|]. by apply overflow_bound.
  - rewrite od_pop_all_swap. etrans; [apply count_pop_all_le|]. by apply overflow_bound.
Qed.

(** ** Leases that expire without a bound *)

(** The periodic requeue sends a job whose attempts are exhausted to the
    dead-letter state; but when the worker itself asks to complete, or fetches, its
    expired lease, the job goes back to the queue whatever its number of attempts:
    a job whose worker always answers late is never dead-lettered. *)
Theorem late_worker_escapes_dead_letter s now id token st m :
  od_get id (states s) = Some st → js_status st = Leased → js_expires st ≤ now →
  0 < m → m ≤ js_attempt st →
  js_status <$> od_get id (states (requeue_expired_leases s now (Some m)).2) = Some DeadLettered ∧
  js_status <$> od_get id (states (complete_claim s now id token).2) = Some Queued ∧
  js_status <$> od_get id (states (get_leased_job s now id token).2) = Some Queued ∧
  (complete_claim s now id token).1 = false ∧ (get_leased_job s now id token).1 = None.
Proof.
  intros Hst Hs He Hm Ha.
  assert (expired now st = true) as Hx by (by apply expired_true).
  assert (exhausted (Some m) st = true) as Hxx by (cbn; lia).
  unfold requeue_expired_leases, complete_claim, get_leased_job. rewrite Hst.
  rewrite bool_decide_true by done. cbn [negb].
  destruct (Z.leb_spec (js_expires st) now); [|lia]. cbn [fst snd].
  pose proof (requeue_unlocked_get s now (Some m) id) as H1.
  destruct (requeue_unlocked s now (Some m)) as [s1 n]. cbn [fst snd] in *.
  rewrite H1, requeue_unlocked_get, Hst. cbn. unfold requeued. rewrite Hx, Hxx. done.
Qed.

(** ** A concrete queue *)

Definition demo_job (id tenant call : string) : ByocToolJobEnvelope :=
  mkEnvelope id tenant "run" call "tool" [] 1000 call "" "" 0 0 "" "" "" "" "" "" "".

Definition demo_commands : list command :=
  [CEnqueue (demo_job "j1" "acme" "c1"); CEnqueue (demo_job "j2" "beta" "c2");
   CClaim 1000000 "acme" "w1" 10 "aa"].

Definition demo_queue : t := run empty demo_commands.

Lemma demo_queue_reachable : reachable demo_queue.
Proof.
  assert (∀ cs s, reachable s → fresh_run s cs → reachable (run s cs)) as Hrun.
  { induction cs as [|c cs IH]; intros s Hr; [done|]. intros [Hf Hf'].
    apply IH; [by apply reach_step|done]. }
  apply Hrun; [apply reach_empty|]. cbn. split_and!; try done.
  - intros tenant. cbn. unfold queue_of. rewrite lookup_empty. by intros ?%elem_of_nil.
  - intros tenant. change ("j2" ∉ queue_of (push "acme" "j1" ∅) tenant).
    rewrite queue_of_push. unfold queue_of. rewrite lookup_empty. cbn.
    case_decide; [by intros ?%list_elem_of_singleton|by intros ?%elem_of_nil].
Qed.

Lemma claim_next_serves_tenant_witness :
  (claim_next demo_queue 20000000 "acme" "w2" 10 "bb").1 = Some "j1" ∧
  (claim_next demo_queue 20000000 "gamma" "w2" 10 "bb").1 = None ∧
  ∀ id st, od_get id (states demo_queue) = Some st → js_tenant st = "gamma" →
    js_status st ≠ Queued ∧ (js_status st = Leased → 20000000 < js_expires st).
Proof.
  split; [vm_compute; reflexivity|]. split; [vm_compute; reflexivity|].
  exact (claim_next_serves_tenant demo_queue 20000000 "gamma" "w2" 10 "bb" demo_queue_reachable).
Defined.

Lemma job_status_machine_witness :
  match od_get "j1" (states (step demo_queue (CComplete 2000000 "j1" "lease_aa"))) with
  | Some st' => js_status st' = Completed ∧ allowed Leased (js_status st') = true
  | None => False
  end.
Proof.
  pose proof (job_status_machine demo_queue (CComplete 2000000 "j1" "lease_aa") "j1"
    (lease 1000000 "w1" 10 "aa" (new_state (demo_job "j1" "acme" "c1"))) demo_queue_reachable eq_refl) as H.
  vm_compute in H. vm_compute. split; [reflexivity|apply H].
Defined.

Lemma claim_completes_once_witness :
  (complete_claim demo_queue 2000000 "j1" "lease_aa").1 = true ∧
  ∀ now' token',
    (complete_claim (run (complete_claim demo_queue 2000000 "j1" "lease_aa").2
       [CClaim 3000000 "acme" "w2" 10 "bb"; CRequeue 90000000 None]) now' "j1" token').1 = false.
Proof.
  split; [vm_compute; reflexivity|].
  apply (claim_completes_once demo_queue 2000000 "j1" "lease_aa" demo_queue_reachable).
  - vm_compute. reflexivity.
  - cbn. split_and!; exact I.
  - repeat constructor; intros [].
Defined.

Lemma cleanup_bounds_retention_witness :
  let s := run demo_queue [CComplete 2000000 "j1" "lease_aa"] in
  queue_depth (cleanup_retention s 3000000 "acme" 60 60 0 0).2 = 1 ∧
  count_if (has_status "acme" Completed)
    (od_values (states (cleanup_retention s 3000000 "acme" 60 60 0 0).2)) ≤ 0.
Proof.
  split; [vm_compute; reflexivity|].
  apply (cleanup_bounds_retention (run demo_queue [CComplete 2000000 "j1" "lease_aa"])
    3000000 "acme" 60 60 0 0).
  - apply (reach_step _ (CComplete 2000000 "j1" "lease_aa")); [apply demo_queue_reachable|exact I].
  - discriminate.
Defined.

Lemma late_worker_escapes_dead_letter_witness :
  js_status <$> od_get "j1" (states (requeue_expired_leases demo_queue 20000000 (Some 1)).2)
    = Some DeadLettered ∧
  js_status <$> od_get "j1" (states (complete_claim demo_queue 20000000 "j1" "lease_aa").2)
    = Some Queued ∧
  js_status <$> od_get "j1" (states (get_leased_job demo_queue 20000000 "j1" "lease_aa").2)
    = Some Queued ∧
  (complete_claim demo_queue 20000000 "j1" "lease_aa").1 = false ∧
  (get_leased_job demo_queue 20000000 "j1" "lease_aa").1 = None.
Proof.
  apply (late_worker_escapes_dead_letter demo_queue 20000000 "j1" "lease_aa"
    (lease 1000000 "w1" 10 "aa" (new_state (demo_job "j1" "acme" "c1"))) 1).
  - vm_compute. reflexivity.
  - reflexivity.
  - vm_compute. discriminate.
  - lia.
  - vm_compute. discriminate.
Defined.
