(* ===== verification/ByocResults.v ===== *)
(** * BYOC results, replay protection and worker tokens

    Models the in-memory stores of src/tools/byoc/result_store.py,
    src/tools/byoc/integrity_verifier.py and src/tools/byoc/worker_auth.py.  The JWT
    library is not part of the repository: [jwt_encode] and [jwt_decode] are
    parameters. *)

From S2P Require Import Prelude PyValue ByocJobs.

(** ** src/tools/byoc/result_store.py *)

Record ByocResultIngestOutcome := mkOutcome {
  ro_accepted : bool;
  ro_duplicate : bool;
  ro_reason_code : string;
}.

Inductive conflict_strategy := FirstWriteWins | LastWriteWins | PreferSuccess.

#[export] Instance conflict_strategy_eq_dec : EqDecision conflict_strategy.
Proof. solve_decision. Defined.

Definition strategy_value (s : conflict_strategy) : string :=
  match s with
  | FirstWriteWins => "first_write_wins"
  | LastWriteWins => "last_write_wins"
  | PreferSuccess => "prefer_success"
  end.

(** [str(status).strip().lower() == "success"] *)
Definition is_success (r : ByocToolResultEnvelope) : bool :=
  py_lower (py_strip (rs_status r)) =?s "success".

Definition resolve_result_conflict (existing incoming : ByocToolResultEnvelope)
    (strategy : conflict_strategy) : bool :=
  match strategy with
  | LastWriteWins => true
  | PreferSuccess => is_success incoming && negb (is_success existing)
  | FirstWriteWins => false
  end.

Record ByocConflictCountRecord := mkConflict {
  cc_strategy : string;
  cc_tool_name : string;
  cc_tool_version : string;
  cc_reason_code : string;
  cc_count : Z;
}.

(** [s.rsplit(c, 1)] when [c] occurs in [s] *)
Fixpoint rsplit (c : ascii) (s : string) : option (string * string) :=
  match s with
  | EmptyString => None
  | String a s' =>
      match rsplit c s' with
      | Some (l, r) => Some (String a l, r)
      | None => if bool_decide (a = c) then Some (EmptyString, s') else None
      end
  end.

Module InMemoryByocResultStore.

Record t := mkStore {
  strategy : conflict_strategy;
  seen_keys : gset string;
  results : gmap string ByocToolResultEnvelope;
  conflicts : gmap (string * (string * string)) Z;
}.

Definition init (strategy : conflict_strategy) : t := mkStore strategy ∅ ∅ ∅.

(** [_record_conflict] *)
Definition conflict_key (r : ByocToolResultEnvelope) (reason_code : string)
    : string * (string * string) :=
  (py_or (py_strip (rs_tenant_id r)) "default",
   (py_or (py_strip reason_code) "BYOC_RESULT_CONFLICT_UNKNOWN",
    py_or (py_strip (rs_tool_name r)) "unknown_tool" +:+ "@" +:+ py_strip (rs_tool_version r))).

Definition record_conflict (s : t) (r : ByocToolResultEnvelope) (reason_code : string) : t :=
  let key := conflict_key r reason_code in
  mkStore (strategy s) (seen_keys s) (results s)
    (<[key := default 0 (conflicts s !! key) + 1]> (conflicts s)).

Definition store_result (s : t) (key : string) (r : ByocToolResultEnvelope) : t :=
  mkStore (strategy s) ({[key]} ∪ seen_keys s) (<[rs_job_id r := r]> (results s)) (conflicts s).

Definition ingest (s : t) (r : ByocToolResultEnvelope) : ByocResultIngestOutcome * t :=
  let key := py_strip (rs_idempotency_key r) in
  if negb (py_bool key) then (mkOutcome false false "IDEMPOTENCY_KEY_REQUIRED", s)
  else if bool_decide (key ∈ seen_keys s) then (mkOutcome true true "IDEMPOTENT_DUPLICATE", s)
  else
    let conflicting :=
      match results s !! rs_job_id r with
      | Some existing =>
          if py_strip (rs_idempotency_key existing) =?s key then None else Some existing
      | None => None
      end in
    match conflicting with
    | Some existing =>
        if resolve_result_conflict existing r (strategy s) then
          (mkOutcome true false "BYOC_RESULT_CONFLICT_REPLACED",
           record_conflict (store_result s key r) r "BYOC_RESULT_CONFLICT_REPLACED")
        else
          (mkOutcome false false "BYOC_RESULT_CONFLICT_REJECTED",
           record_conflict s r "BYOC_RESULT_CONFLICT_REJECTED")
    | None => (mkOutcome true false "INGESTED", store_result s key r)
    end.

Definition consume (s : t) (job_id : string) : option ByocToolResultEnvelope * t :=
  let normalized := py_strip job_id in
  if negb (py_bool normalized) then (None, s)
  else
    (results s !! normalized,
     mkStore (strategy s) (seen_keys s) (delete normalized (results s)) (conflicts s)).

Definition has_idempotency_key (s : t) (key : string) : bool :=
  let normalized := py_strip key in
  py_bool normalized && bool_decide (normalized ∈ seen_keys s).

Definition health_metrics (s : t) (tenant_id : string) : list (string * Z) :=
  let normalized := py_strip tenant_id in
  [("pending_result_payloads",
    count_if (λ p : string * ByocToolResultEnvelope, rs_tenant_id p.2 =?s normalized)
      (map_to_list (results s)));
   ("idempotency_keys_seen",
    count_if (λ key, startswith key (normalized +:+ ":")) (elements (seen_keys s)))].

(** [sorted(self._conflict_counts.items())] *)
Definition conflict_le (p q : (string * (string * string)) * Z) : Prop :=
  lex_le (lex_le String.le (lex_le String.le String.le)) Z.le p q.

#[global] Instance conflict_le_dec : RelDecision conflict_le.
Proof. intros p q. unfold conflict_le. apply _. Defined.

Definition list_conflict_counts (s : t) (tenant_id : string) : list ByocConflictCountRecord :=
  let normalized := py_strip tenant_id in
  if negb (py_bool normalized) then []
  else
    (λ p : (string * (string * string)) * Z,
       let '((_, (reason, tool_key)), count) := p in
       let '(name, version) := default (tool_key, "") (rsplit (Ascii.ascii_of_nat 64) tool_key) in
       mkConflict (strategy_value (strategy s)) name version reason count)
    <$> filter (λ p, p.1.1 = normalized) (sort_by conflict_le (map_to_list (conflicts s))).

(** *** What one ingestion does *)

Lemma ingest_cases s r :
  let key := py_strip (rs_idempotency_key r) in
  let '(o, s') := ingest s r in
  (ro_accepted o = true ∧ ro_duplicate o = false ∧ key ≠ "" ∧ key ∉ seen_keys s ∧
   seen_keys s' = {[key]} ∪ seen_keys s ∧ results s' = <[rs_job_id r := r]> (results s)) ∨
  (ro_accepted o = true ∧ ro_duplicate o = true ∧ key ∈ seen_keys s ∧ s' = s) ∨
  (ro_accepted o = false ∧ ro_duplicate o = false ∧
   (key = "" ∨ ∃ old, results s !! rs_job_id r = Some old ∧ py_strip (rs_idempotency_key old) ≠ key ∧
      resolve_result_conflict old r (strategy s) = false) ∧
   seen_keys s' = seen_keys s ∧ results s' = results s).
Proof.
  intros key. unfold ingest. fold key. destruct (py_bool key) eqn:Ek; cbn [negb].
  2:{ apply py_bool_false in Ek. right; right. split_and!; auto. }
  apply py_bool_true in Ek. case_bool_decide as Hs; [right; left; done|].
  destruct (results s !! rs_job_id r) as [old|] eqn:Eo; [case_bool_decide as Hk|].
  - left. split_and!; done.
  - destruct (resolve_result_conflict old r (strategy s)) eqn:Er.
    + left. split_and!; done.
    + right; right. split_and!; try done. right. exists old. by rewrite bool_decide_eq_false in Hk || done.
  - left. split_and!; done.
Qed.

(** A sequence of ingested results: what was answered. *)
Fixpoint ingest_all (s : t) (rs : list ByocToolResultEnvelope)
    : list ByocResultIngestOutcome * t :=
  match rs with
  | [] => ([], s)
  | r :: rs => let '(o, s1) := ingest s r in let '(os, s2) := ingest_all s1 rs in (o :: os, s2)
  end.

(** New results accepted under a key. *)
Definition stored_under (key : string) (p : ByocToolResultEnvelope * ByocResultIngestOutcome) : bool :=
  (py_strip (rs_idempotency_key p.1) =?s key) && ro_accepted p.2 && negb (ro_duplicate p.2).

Lemma ingest_all_seen s rs key :
  key ∈ seen_keys s → count_if (stored_under key) (zip rs (ingest_all s rs).1) = 0.
Proof.
  revert s. induction rs as [|r rs IH]; intros s Hin; [done|]. cbn [ingest_all].
  pose proof (ingest_cases s r) as H. destruct (ingest s r) as [o s1]. cbv zeta in H.
  assert (key ∈ seen_keys s1) as Hin1.
  { destruct H as [(_ & _ & _ & _ & -> & _)|[(_ & _ & _ & ->)|(_ & _ & _ & -> & _)]]; set_solver. }
  specialize (IH s1 Hin1). destruct (ingest_all s1 rs) as [os s2]. cbn [fst zip zip_with] in *.
  rewrite count_if_cons, IH.
  destruct (stored_under key (r, o)) eqn:E; [|done]. unfold stored_under in E. cbn in E.
  rewrite !andb_true_iff, negb_true_iff, bool_decide_eq_true in E. destruct E as [[Ek Ea] Ed].
  destruct H as [(_ & _ & _ & Hn & _)|[(_ & Hd & _)|(Hna & _)]]; congruence.
Qed.

(** A stored result's key was seen. *)
Definition keys_seen (s : t) : Prop :=
  ∀ j old, results s !! j = Some old → py_strip (rs_idempotency_key old) ∈ seen_keys s.

Lemma ingest_keys_seen s r : keys_seen s → keys_seen (ingest s r).2.
Proof.
  intros Hk j old. pose proof (ingest_cases s r) as H. destruct (ingest s r) as [o s'].
  cbv zeta in H. cbn [snd].
  destruct H as [(_ & _ & _ & _ & -> & ->)|[(_ & _ & _ & ->)|(_ & _ & _ & -> & ->)]]; [|apply Hk..].
  destruct (decide (j = rs_job_id r)) as [->|Hne].
  - rewrite lookup_insert_eq. intros [= <-]. set_solver.
  - rewrite lookup_insert_ne by done. intros Hj%Hk. set_solver.
Qed.

(** However results arrive, at most one is newly stored under an idempotency
    key (every later one with that key is answered as a duplicate and changes
    nothing), and under first-write-wins a stored result is never replaced by
    later ones before it is consumed. *)
Theorem results_stored_once strategy rs key :
  let '(os, s) := ingest_all (init strategy) rs in
  count_if (stored_under key) (zip rs os) ≤ 1 ∧
  (strategy = FirstWriteWins → ∀ r,
     let '(o, s') := ingest s r in
     ∀ old, results s !! rs_job_id r = Some old → results s' !! rs_job_id r = Some old).
Proof.
  assert (∀ s, count_if (stored_under key) (zip rs (ingest_all s rs).1) ≤ 1 ∧
    InMemoryByocResultStore.strategy (ingest_all s rs).2 = InMemoryByocResultStore.strategy s ∧
    (keys_seen s → keys_seen (ingest_all s rs).2)) as Hall.
  { induction rs as [|r rs IH]; intros s; [done|]. cbn [ingest_all].
    pose proof (ingest_keys_seen s r) as Hks.
    pose proof (ingest_cases s r) as H. pose proof (ingest_all_seen) as Hseen.
    assert (InMemoryByocResultStore.strategy (ingest s r).2 = InMemoryByocResultStore.strategy s) as Hstr.
    { unfold ingest. destruct (negb _); [done|]. case_bool_decide; [done|].
      destruct (results s !! _); [case_bool_decide; [done|]|done].
      by destruct (resolve_result_conflict _ _ _). }
    destruct (ingest s r) as [o s1] eqn:E. cbv zeta in H. cbn [snd] in Hstr, Hks.
    specialize (Hseen s1 rs key). destruct (IH s1) as (IH1 & IH2 & IH3).
    destruct (ingest_all s1 rs) as [os s2]. cbn [fst snd zip zip_with] in *.
    split; [|split; [congruence|auto]]. rewrite count_if_cons.
    destruct (stored_under key (r, o)) eqn:Es; [|lia]. rewrite Hseen; [lia|].
    unfold stored_under in Es. cbn in Es.
    rewrite !andb_true_iff, negb_true_iff, bool_decide_eq_true in Es. destruct Es as [[Ek Ea] Ed].
    destruct H as [(_ & _ & _ & _ & -> & _)|[(_ & Hd & _)|(Hna & _)]]; [set_solver|congruence..]. }
  specialize (Hall (init strategy)). destruct (ingest_all (init strategy) rs) as [os s].
  destruct Hall as (Hc & Hstr & Hks). cbn in Hc, Hstr, Hks. split; [done|]. intros -> r.
  pose proof (ingest_cases s r) as H. destruct (ingest s r) as [o s'] eqn:E. cbv zeta in H.
  intros old Hold. destruct H as [(Ha & Hd & Hk & Hn & _ & Hr)|[(_ & _ & _ & ->)|(_ & _ & _ & _ & ->)]];
    [exfalso|done|done].
  assert (py_strip (rs_idempotency_key old) ∈ seen_keys s) as Hin.
  { eapply Hks; [|done]. intros j old'. cbn. by rewrite lookup_empty. }
  unfold ingest in E. apply py_bool_true in Hk. rewrite Hk in E. cbn [negb] in E.
  rewrite bool_decide_false, Hold in E by done. case_bool_decide as Heq; [congruence|].
  rewrite Hstr in E. cbn in E. injection E as <- <-. done.
Qed.

End InMemoryByocResultStore.

(** ** Replay protection *)
Module InMemoryReplayGuard.

(** [_expires_at_epoch], times in microseconds. *)
Notation t := (gmap string Z) (only parsing).

(** [_cleanup_unlocked] *)
Definition cleanup (g : gmap string Z) (now : Z) : gmap string Z :=
  filter (λ p, ¬ p.2 ≤ now) g.

Definition mark_once (g : gmap string Z) (now : Z) (key : string) (ttl_seconds : Z)
    : bool * gmap string Z :=
  let normalized := py_strip key in
  if negb (py_bool normalized) then (false, g)
  else
    let ttl := Z.max ttl_seconds 1 in
    let g := cleanup g now in
    match g !! normalized with
    | Some _ => (false, g)
    | None => (true, <[normalized := now + ttl * second]> g)
    end.

Definition active_keys (g : gmap string Z) (tenant_id : string) : Z :=
  count_if (λ p : string * Z, startswith p.1 (py_strip tenant_id +:+ ":")) (map_to_list g).

Definition health_metrics (g : gmap string Z) (now : Z) (tenant_id : string)
    : list (string * Z) * gmap string Z :=
  let g := cleanup g now in
  ([("replay_keys_active", active_keys g tenant_id)], g).

Definition cleanup_retention (g : gmap string Z) (now : Z) (tenant_id : string)
    : Z * gmap string Z :=
  let before := active_keys g tenant_id in
  let g' := cleanup g now in
  (Z.max 0 (before - active_keys g' tenant_id), g').

Inductive command :=
| GMark (now : Z) (key : string) (ttl : Z)
| GHealth (now : Z) (tenant : string)
| GCleanup (now : Z) (tenant : string).

Definition command_time (c : command) : Z :=
  match c with GMark now _ _ | GHealth now _ | GCleanup now _ => now end.

Definition step (g : gmap string Z) (c : command) : gmap string Z :=
  match c with
  | GMark now key ttl => (mark_once g now key ttl).2
  | GHealth now tenant => (health_metrics g now tenant).2
  | GCleanup now tenant => (cleanup_retention g now tenant).2
  end.

Lemma cleanup_lookup g now k e :
  g !! k = Some e → now < e → cleanup g now !! k = Some e.
Proof. intros Hg Hlt. apply map_lookup_filter_Some. split; [done|]. cbn. lia. Qed.

Lemma step_keeps g c k e :
  g !! k = Some e → command_time c < e → step g c !! k = Some e.
Proof.
  intros Hg Hlt. destruct c as [now key ttl|now tenant|now tenant]; cbn in *;
    try by apply cleanup_lookup.
  unfold mark_once. destruct (negb _); [done|].
  destruct (cleanup g now !! py_strip key) eqn:E; cbn; [by apply cleanup_lookup|].
  rewrite lookup_insert_ne; [by apply cleanup_lookup|].
  intros Heq. by rewrite Heq, (cleanup_lookup _ _ _ _ Hg Hlt) in E.
Qed.

Lemma replay_guard_rejects_again g now key ttl cs now' ttl' :
  (mark_once g now key ttl).1 = true →
  Forall (λ c, command_time c < now + Z.max ttl 1 * second) cs →
  now' < now + Z.max ttl 1 * second →
  (mark_once (foldl step (mark_once g now key ttl).2 cs) now' key ttl').1 = false.
Proof.
  intros Hm Hcs Hlt.
  assert ((mark_once g now key ttl).2 !! py_strip key = Some (now + Z.max ttl 1 * second)) as Hin.
  { unfold mark_once in *. destruct (negb _); [done|].
    destruct (cleanup g now !! py_strip key); [done|]. cbn. by rewrite lookup_insert_eq. }
  revert Hin. generalize (mark_once g now key ttl).2. clear Hm.
  induction Hcs as [|c cs Hc _ IH]; intros g1 Hin; cbn [foldl].
  - unfold mark_once. destruct (negb _); [done|].
    by rewrite (cleanup_lookup _ _ _ _ Hin Hlt).
  - apply IH. by apply step_keeps.
Qed.

(** Once a key was marked, no later attempt to mark it succeeds before its
    time to live (at least one second) is over, whatever the guard is asked in
    between; attempts whose key is blank never succeed. *)
Theorem replay_guard_rejects g now key ttl cs now' key' ttl' :
  (mark_once g now key ttl).1 = true →
  py_strip key' = py_strip key →
  Forall (λ c, command_time c < now + Z.max ttl 1 * second) cs →
  now' < now + Z.max ttl 1 * second →
  (mark_once (foldl step (mark_once g now key ttl).2 cs) now' key' ttl').1 = false.
Proof.
  intros Hm Hk Hcs Hlt. rewrite <- (replay_guard_rejects_again g now key ttl cs now' ttl') by done.
  unfold mark_once at 1 3. by rewrite Hk.
Qed.

Lemma replay_guard_rejects_witness :
  (mark_once ∅ 0 "acme:claim:jti:n1" 300).1 = true ∧
  (mark_once (foldl step (mark_once ∅ 0 "acme:claim:jti:n1" 300).2 [GCleanup 5 "acme"])
     (299 * second) " acme:claim:jti:n1 " 300).1 = false.
Proof.
  split; [vm_compute; reflexivity|].
  apply (replay_guard_rejects ∅ 0 "acme:claim:jti:n1" 300 [GCleanup 5 "acme"]).
  - vm_compute. reflexivity.
  - reflexivity.
  - repeat constructor.
  - reflexivity.
Defined.

End InMemoryReplayGuard.

(** ** src/tools/byoc/integrity_verifier.py *)

Definition verify_result_artifact_metadata (job : ByocToolJobEnvelope)
    (result : ByocToolResultEnvelope) : string :=
  let expected_version := py_strip (ev_signature_version job) in
  let submitted_version := py_strip (rs_signature_version result) in
  let expected_hash := py_strip (ev_bundle_hash job) in
  let submitted_hash := py_strip (rs_bundle_hash result) in
  let expected_sig := py_strip (ev_bundle_signature job) in
  let submitted_sig := py_strip (rs_bundle_signature result) in
  let mismatch expected submitted :=
    py_bool expected && py_bool submitted && negb (expected =?s submitted) in
  if mismatch expected_version submitted_version then "BYOC_ARTIFACT_SIGNATURE_VERSION_MISMATCH"
  else if mismatch expected_hash submitted_hash then "BYOC_ARTIFACT_INTEGRITY_MISMATCH"
  else if mismatch expected_sig submitted_sig then "BYOC_ARTIFACT_INTEGRITY_MISMATCH"
  else if py_bool expected_hash && negb (py_bool submitted_hash) then "BYOC_ARTIFACT_INTEGRITY_MISSING"
  else if py_bool expected_sig && negb (py_bool submitted_sig) then "BYOC_ARTIFACT_INTEGRITY_MISSING"
  else "".

Lemma verify_artifact_ok job result :
  verify_result_artifact_metadata job result = "" →
  (py_strip (ev_bundle_hash job) ≠ "" → py_strip (rs_bundle_hash result) = py_strip (ev_bundle_hash job)) ∧
  (py_strip (ev_bundle_signature job) ≠ "" →
     py_strip (rs_bundle_signature result) = py_strip (ev_bundle_signature job)).
Proof.
  unfold verify_result_artifact_metadata, py_bool.
  repeat case_bool_decide; cbn; try done; naive_solver.
Qed.

(** ** src/tools/byoc/worker_auth.py *)

Record WorkerAuthClaims := mkClaims {
  wc_tenant_id : string;
  wc_worker_id : string;
  wc_token_id : string;
  wc_issued_at_epoch : Z;
  wc_expires_at_epoch : Z;
}.

(** What decoding a token with its required claims does. *)
Inductive jwt_result :=
| JwtPayload (payload : pydict)
| JwtExpired
| JwtInvalid.

Section worker_auth.
Variable float_repr : Q → string.
(** [jwt.encode(payload, secret, "HS256")], [jwt.decode(token, secret, ...)] at a
    time in microseconds, and [int(x)] of a claim (None: it raises). *)
Variable jwt_encode : pydict → string → string.
Variable jwt_decode : Z → string → string → jwt_result.
Variable py_int : pyval → option Z.

Definition mint_worker_token (now : Z) (uuid_hex16 tenant_id worker_id secret : string)
    (ttl_seconds : Z) : string :=
  let exp := now + Z.max ttl_seconds 1 * second in
  jwt_encode
    [("sub", PStr ("byoc-worker:" +:+ worker_id)); ("tenant_id", PStr tenant_id);
     ("worker_id", PStr worker_id); ("jti", PStr ("jti_" +:+ uuid_hex16));
     ("iat", PInt (int_seconds now)); ("exp", PInt (int_seconds exp))] secret.

Definition claim_str (payload : pydict) (name : string) : string :=
  py_strip (dict_get_str float_repr payload name "").

Definition claim_int (payload : pydict) (name : string) : res Z :=
  match py_int (dict_get payload name (PInt 0)) with
  | Some z => Ok z
  | None => Raise (ValueError "invalid literal for int()")
  end.

Definition verify_worker_token (now : Z) (token secret expected_tenant_id : string)
    : res WorkerAuthClaims :=
  match jwt_decode now token secret with
  | JwtExpired => Raise (ValueError "WORKER_TOKEN_EXPIRED")
  | JwtInvalid => Raise (ValueError "WORKER_TOKEN_INVALID")
  | JwtPayload payload =>
      let tenant_id := claim_str payload "tenant_id" in
      guard! tenant_id =?s expected_tenant_id else ValueError "WORKER_TOKEN_TENANT_MISMATCH" in
      let worker_id := claim_str payload "worker_id" in
      guard! py_bool worker_id else ValueError "WORKER_TOKEN_INVALID" in
      let token_id := claim_str payload "jti" in
      guard! py_bool token_id else ValueError "WORKER_TOKEN_INVALID" in
      let! iat := claim_int payload "iat" in
      let! exp := claim_int payload "exp" in
      Ok (mkClaims tenant_id worker_id token_id iat exp)
  end.

Lemma verify_worker_token_ok now token secret tenant c :
  verify_worker_token now token secret tenant = Ok c →
  wc_tenant_id c = tenant ∧ wc_worker_id c ≠ "" ∧ wc_token_id c ≠ "" ∧
  ∃ payload, jwt_decode now token secret = JwtPayload payload ∧
    claim_str payload "tenant_id" = tenant.
Proof.
  clear jwt_encode. unfold verify_worker_token.
  destruct (jwt_decode _ _ _) as [payload| |]; [|done|done].
  case_bool_decide as Ht; [|done].
  destruct (py_bool (claim_str payload "worker_id")) eqn:Ew; [|done].
  destruct (py_bool (claim_str payload "jti")) eqn:Ej; [|done].
  destruct (claim_int payload "iat"); [|done]. cbn.
  destruct (claim_int payload "exp"); [|done]. cbn. intros [= <-]. cbn.
  apply py_bool_true in Ew, Ej. naive_solver.
Qed.
End worker_auth.
