(* ===== verification/ByocConnector.v ===== *)
(** * The BYOC connector runtime

    Models the worker-facing part of src/tools/byoc/connector_runtime.py over the
    in-memory stores: claiming, submitting results (pull and webhook), cancelling,
    requeueing, dead-letter replay, retention, progress events and tenant costs.
    A call that reads the clock several times gets the readings in order:
    [clock 0], [clock 1], ...  The integer attributes of the class are kept under
    their names in [counters].  [execute] is in ByocExecution.v. *)

From S2P Require Import Prelude PyValue ByocJobs ByocResults.
Module Jobs := InMemoryByocJobQueueStore.
Module Results := InMemoryByocResultStore.
Module Guard := InMemoryReplayGuard.

Inductive budget_scope := ScopeTenant | ScopePerProvider | ScopePerTool.

#[export] Instance budget_scope_eq_dec : EqDecision budget_scope.
Proof. solve_decision. Defined.

(** The attributes [__init__] computes from its arguments. *)
Record config := mkConnConfig {
  worker_jwt_secret : string;
  worker_token_ttl : Z;
  lease_ttl : Z;
  replay_ttl : Z;
  cleanup_interval : Z;
  completed_ttl : Z;
  cancelled_ttl : Z;
  max_completed_records : Z;
  max_cancelled_records : Z;
  max_claim_attempts : Z;
  cost_limit : Z;
  enforce_cost_limit : bool;
  enable_cost_window : bool;
  cost_window_seconds : Z;
  cost_success : Z;
  cost_error : Z;
  cost_timeout : Z;
  cost_cancelled : Z;
  budget_partition_scope : budget_scope;
  budget_partition_limits : gmap string Z;
}.

(** [_normalize_budget_partition_scope] *)
Definition normalize_budget_partition_scope (scope : string) : budget_scope :=
  let normalized := py_lower (py_strip scope) in
  if bool_decide (normalized ∈ ["per_provider"; "provider"]) then ScopePerProvider
  else if bool_decide (normalized ∈ ["per_tool"; "tool"]) then ScopePerTool
  else ScopeTenant.

(** [_normalize_budget_partition_limits]; [py_int] is [int()], None when it
    raises TypeError or ValueError. *)
Definition normalize_budget_partition_limits (py_int : pyval → option Z)
    (raw : list (string * pyval)) : gmap string Z :=
  foldl (λ acc p,
    let token := py_lower (py_strip p.1) in
    if negb (py_bool token) then acc
    else match py_int p.2 with
         | Some z => <[token := Z.max z 0]> acc
         | None => acc
         end) ∅ raw.

(** The normalizations of [__init__]. *)
Definition normalize_config (py_int : pyval → option Z) (c : config) (scope : string)
    (raw_limits : list (string * pyval)) : config :=
  mkConnConfig (worker_jwt_secret c) (Z.max (worker_token_ttl c) 1) (Z.max (lease_ttl c) 1)
    (Z.max (replay_ttl c) 1) (Z.max (cleanup_interval c) 1) (Z.max (completed_ttl c) 1)
    (Z.max (cancelled_ttl c) 1) (Z.max (max_completed_records c) 0)
    (Z.max (max_cancelled_records c) 0) (Z.max (max_claim_attempts c) 1) (Z.max (cost_limit c) 0)
    (enforce_cost_limit c) (enable_cost_window c) (Z.max (cost_window_seconds c) 1)
    (Z.max (cost_success c) 0) (Z.max (cost_error c) 0) (Z.max (cost_timeout c) 0)
    (Z.max (cost_cancelled c) 0) (normalize_budget_partition_scope scope)
    (normalize_budget_partition_limits py_int raw_limits).

Record progress_event := mkProgress {
  pe_call_id : string;
  pe_tool_name : string;
  pe_state : string;
  pe_tool_status : string;
  pe_error_code : string;
  pe_job_id : string;
  pe_lease_token : string;
  pe_lease_expires_at_epoch : string;
  pe_claim_attempt : string;
}.

(** Costs per tenant and per tenant and partition. *)
Record cost_state := mkCosts {
  tenant_cost_total : gmap string Z;
  tenant_window_started : gmap string Z;
  tenant_window_cost : gmap string Z;
  partition_cost_total : gmap (string * string) Z;
  partition_window_started : gmap (string * string) Z;
  partition_window_cost : gmap (string * string) Z;
}.

Record connector := mkConnector {
  cfg : config;
  job_store : Jobs.t;
  result_store : Results.t;
  replay_guard : gmap string Z;
  counters : gmap string Z;
  last_cleanup : Z;
  progress : gmap string (list progress_event);
  submit_attempts : gmap string Z;
  rejected_results : gmap string Z;
  rejections_by_reason : gmap (string * string) Z;
  costs : cost_state;
}.

Definition init_connector (c : config) (strategy : conflict_strategy) : connector :=
  mkConnector c Jobs.empty (Results.init strategy) ∅ ∅ 0 ∅ ∅ ∅ ∅ (mkCosts ∅ ∅ ∅ ∅ ∅ ∅).

Definition with_jobs (s : connector) (j : Jobs.t) : connector :=
  mkConnector (cfg s) j (result_store s) (replay_guard s) (counters s) (last_cleanup s)
    (progress s) (submit_attempts s) (rejected_results s) (rejections_by_reason s) (costs s).

Definition with_results (s : connector) (r : Results.t) : connector :=
  mkConnector (cfg s) (job_store s) r (replay_guard s) (counters s) (last_cleanup s)
    (progress s) (submit_attempts s) (rejected_results s) (rejections_by_reason s) (costs s).

Definition with_guard (s : connector) (g : gmap string Z) : connector :=
  mkConnector (cfg s) (job_store s) (result_store s) g (counters s) (last_cleanup s)
    (progress s) (submit_attempts s) (rejected_results s) (rejections_by_reason s) (costs s).

Definition with_costs (s : connector) (c : cost_state) : connector :=
  mkConnector (cfg s) (job_store s) (result_store s) (replay_guard s) (counters s) (last_cleanup s)
    (progress s) (submit_attempts s) (rejected_results s) (rejections_by_reason s) c.

Definition bump_in (m : gmap string Z) (name : string) (n : Z) : gmap string Z :=
  <[name := default 0 (m !! name) + n]> m.

(** [self.<name> += n] *)
Definition bump (s : connector) (name : string) (n : Z) : connector :=
  mkConnector (cfg s) (job_store s) (result_store s) (replay_guard s) (bump_in (counters s) name n)
    (last_cleanup s) (progress s) (submit_attempts s) (rejected_results s)
    (rejections_by_reason s) (costs s).

Definition normalized_tenant (tenant_id : string) : string := py_or (py_strip tenant_id) "default".

(** [_increment_tenant_submit_attempt] *)
Definition increment_submit_attempt (s : connector) (tenant_id : string) : connector :=
  mkConnector (cfg s) (job_store s) (result_store s) (replay_guard s) (counters s) (last_cleanup s)
    (progress s) (bump_in (submit_attempts s) (normalized_tenant tenant_id) 1) (rejected_results s)
    (rejections_by_reason s) (costs s).

(** [_increment_tenant_rejection] *)
Definition increment_rejection (s : connector) (tenant_id reason_code : string) : connector :=
  let tenant := normalized_tenant tenant_id in
  let reason := py_or (py_strip (py_or reason_code "UNKNOWN")) "UNKNOWN" in
  mkConnector (cfg s) (job_store s) (result_store s) (replay_guard s) (counters s) (last_cleanup s)
    (progress s) (submit_attempts s) (bump_in (rejected_results s) tenant 1)
    (<[(tenant, reason) := default 0 (rejections_by_reason s !! (tenant, reason)) + 1]>
       (rejections_by_reason s)) (costs s).

(** [_record_progress] *)
Definition record_progress (s : connector) (e : progress_event) : connector :=
  let normalized := py_strip (pe_call_id e) in
  if negb (py_bool normalized) then s
  else
    let e := mkProgress normalized (pe_tool_name e) (pe_state e) (pe_tool_status e)
               (pe_error_code e) (pe_job_id e) (pe_lease_token e) (pe_lease_expires_at_epoch e)
               (pe_claim_attempt e) in
    mkConnector (cfg s) (job_store s) (result_store s) (replay_guard s) (counters s) (last_cleanup s)
      (<[normalized := default [] (progress s !! normalized) ++ [e]]> (progress s))
      (submit_attempts s) (rejected_results s) (rejections_by_reason s) (costs s).

Definition drain_progress_events (s : connector) (call_id : string)
    : list progress_event * connector :=
  let normalized := py_strip call_id in
  if negb (py_bool normalized) then ([], s)
  else
    (default [] (progress s !! normalized),
     mkConnector (cfg s) (job_store s) (result_store s) (replay_guard s) (counters s)
       (last_cleanup s) (delete normalized (progress s)) (submit_attempts s) (rejected_results s)
       (rejections_by_reason s) (costs s)).

(** [_run_cleanup]: reads the clock for itself, for the job store and for the
    replay guard; the in-memory result store prunes nothing. *)
Definition run_cleanup (s : connector) (clock : nat → Z) (tenant_id : string) (force : bool)
    : (Z * Z * Z) * connector :=
  let now := clock 0%nat in
  if negb (force || (cleanup_interval (cfg s) * second <=? now - last_cleanup s)) then ((0, 0, 0), s)
  else
    let '((completed_pruned, cancelled_pruned), jobs) :=
      Jobs.cleanup_retention (job_store s) (clock 1%nat) tenant_id (completed_ttl (cfg s))
        (cancelled_ttl (cfg s)) (max_completed_records (cfg s)) (max_cancelled_records (cfg s)) in
    let '(replay_total, guard) := Guard.cleanup_retention (replay_guard s) (clock 2%nat) tenant_id in
    let job_total := completed_pruned + cancelled_pruned in
    let s := mkConnector (cfg s) jobs (result_store s) guard (counters s) now (progress s)
               (submit_attempts s) (rejected_results s) (rejections_by_reason s) (costs s) in
    ((job_total, 0, replay_total),
     bump (bump s "cleanup_runs_total" 1) "cleanup_pruned_total" (job_total + 0 + replay_total)).

Definition cleanup_retention (s : connector) (clock : nat → Z) (tenant_id : string) (force : bool)
    : (Z * Z * Z) * connector :=
  run_cleanup s clock tenant_id force.

Definition run_periodic_cleanup (s : connector) (clock : nat → Z) (tenant_id : string) : connector :=
  (run_cleanup s clock tenant_id false).2.

(** [_requeue_expired_leases] *)
Definition requeue_expired_leases (s : connector) (now : Z) (tenant_id : string) : connector :=
  let tenant := py_strip tenant_id in
  let dlq j := if py_bool tenant then Jobs.dead_letter_count j tenant else 0 in
  let before_dlq := dlq (job_store s) in
  let '(requeued, jobs) :=
    Jobs.requeue_expired_leases (job_store s) now (Some (max_claim_attempts (cfg s))) in
  let s := with_jobs s jobs in
  let s := if 0 <? requeued then bump s "lease_requeue_total" requeued else s in
  let after_dlq := dlq jobs in
  if before_dlq <? after_dlq then bump s "dlq_moved_total" (Z.max (after_dlq - before_dlq) 0) else s.

(** The clock from its [n]-th reading on. *)
Definition clock_after (clock : nat → Z) (n : nat) : nat → Z := λ i, clock (n + i)%nat.

Section connector_ops.
Variable float_repr : Q → string.
Variable jwt_encode : pydict → string → string.
Variable jwt_decode : Z → string → string → jwt_result.
Variable py_int : pyval → option Z.

Definition issue_worker_token (s : connector) (now : Z) (uuid_hex16 tenant_id worker_id : string)
    (ttl : option Z) : string :=
  mint_worker_token jwt_encode now uuid_hex16 tenant_id worker_id (worker_jwt_secret (cfg s))
    (default (worker_token_ttl (cfg s)) ttl).

(** Authenticating a worker's request: the claims of its token, and the nonce
    marked in the replay guard. *)
Definition authenticate (s : connector) (verify_now mark_now : Z)
    (action tenant_id worker_token request_nonce : string)
    : res WorkerAuthClaims * connector :=
  match verify_worker_token float_repr jwt_decode py_int verify_now worker_token
          (worker_jwt_secret (cfg s)) tenant_id with
  | Raise e => (Raise e, s)
  | Ok claims =>
      let nonce := py_strip request_nonce in
      if negb (py_bool nonce) then (Raise (ValueError "WORKER_NONCE_REQUIRED"), s)
      else
        let key := tenant_id +:+ ":" +:+ action +:+ ":" +:+ wc_token_id claims +:+ ":" +:+ nonce in
        let '(marked, guard) := Guard.mark_once (replay_guard s) mark_now key (replay_ttl (cfg s)) in
        let s := with_guard s guard in
        if marked then (Ok claims, s) else (Raise (ValueError "WORKER_REQUEST_REPLAYED"), s)
  end.

(** Clock readings: 0-2 the cleanup, 3 the requeue, 4 the token, 5 the replay
    guard, 6 the claim; [token] is the fresh lease token.  The answer is the
    envelope whose fields the source copies into a dictionary. *)
Definition claim_next_job (s : connector) (clock : nat → Z) (token tenant_id worker_token request_nonce : string)
    : res (option ByocToolJobEnvelope) * connector :=
  let s := run_periodic_cleanup s clock tenant_id in
  let s := requeue_expired_leases s (clock 3%nat) tenant_id in
  match authenticate s (clock 4%nat) (clock 5%nat) "claim" tenant_id worker_token request_nonce with
  | (Raise e, s) => (Raise e, s)
  | (Ok claims, s) =>
      let '(claim, jobs) :=
        Jobs.claim_next (job_store s) (clock 6%nat) tenant_id (wc_worker_id claims)
          (lease_ttl (cfg s)) token in
      let s := with_jobs s jobs in
      match claim ≫= Jobs.claim_envelope jobs with
      | None => (Ok None, s)
      | Some job =>
          let s := bump s "claimed_jobs_total" 1 in
          let s := record_progress s
            (mkProgress (ev_call_id job) (ev_tool_name job) "running" "" "" (ev_job_id job)
               (ev_lease_token job) (str_of_Z (ev_lease_expires_at_epoch job))
               (str_of_Z (ev_claim_attempt job))) in
          (Ok (Some job), s)
      end
  end.

Definition lease_rejection : ByocResultIngestOutcome :=
  mkOutcome false false "BYOC_LEASE_INVALID_OR_EXPIRED".

(** [_ingest_result_after_auth]; the lease is looked up at [now1] and completed
    at [now2]. *)
Definition ingest_result_after_auth (s : connector) (now1 now2 : Z) (tenant_id : string)
    (result : ByocToolResultEnvelope) : res ByocResultIngestOutcome * connector :=
  let s := increment_submit_attempt s tenant_id in
  if negb (rs_tenant_id result =?s tenant_id) then
    (Raise (ValueError "WORKER_RESULT_TENANT_MISMATCH"),
     increment_rejection s tenant_id "WORKER_RESULT_TENANT_MISMATCH")
  else
    let existing_key := py_strip (rs_idempotency_key result) in
    if py_bool existing_key && Results.has_idempotency_key (result_store s) existing_key then
      (Ok (mkOutcome true true "IDEMPOTENT_DUPLICATE"), bump s "duplicate_results_total" 1)
    else
      let '(leased, jobs) :=
        Jobs.get_leased_job (job_store s) now1 (rs_job_id result) (rs_lease_token result) in
      let s := with_jobs s jobs in
      match leased with
      | None => (Ok lease_rejection, increment_rejection s tenant_id "BYOC_LEASE_INVALID_OR_EXPIRED")
      | Some job =>
          let artifact_reason := verify_result_artifact_metadata job result in
          if py_bool artifact_reason then
            (Ok (mkOutcome false false artifact_reason), increment_rejection s tenant_id artifact_reason)
          else
            let '(lease_ok, jobs) :=
              Jobs.complete_claim (job_store s) now2 (rs_job_id result) (rs_lease_token result) in
            let s := with_jobs s jobs in
            if negb lease_ok then
              (Ok lease_rejection, increment_rejection s tenant_id "BYOC_LEASE_INVALID_OR_EXPIRED")
            else
              let '(outcome, results) := Results.ingest (result_store s) result in
              let s := with_results s results in
              (Ok outcome,
               if ro_duplicate outcome then bump s "duplicate_results_total" 1
               else if ro_accepted outcome then bump s "submitted_results_total" 1
               else increment_rejection s tenant_id (ro_reason_code outcome))
      end.

(** Clock readings: 0-2 the cleanup, 3 the token, 4 the replay guard, 5 and 6
    the ingestion. *)
Definition submit_result (s : connector) (clock : nat → Z)
    (tenant_id worker_token request_nonce : string) (result : ByocToolResultEnvelope)
    : res ByocResultIngestOutcome * connector :=
  let s := run_periodic_cleanup s clock tenant_id in
  match authenticate s (clock 3%nat) (clock 4%nat) "submit" tenant_id worker_token request_nonce with
  | (Raise e, s) => (Raise e, s)
  | (Ok _, s) => ingest_result_after_auth s (clock 5%nat) (clock 6%nat) tenant_id result
  end.

(** Clock readings: 0-2 the cleanup, 3 the replay guard, 4 and 5 the ingestion. *)
Definition submit_result_webhook (s : connector) (clock : nat → Z)
    (tenant_id webhook_secret webhook_request_id : string) (result : ByocToolResultEnvelope)
    : res ByocResultIngestOutcome * connector :=
  let s := run_periodic_cleanup s clock tenant_id in
  let provided := py_strip webhook_secret in
  if negb (py_bool provided) || negb (provided =?s worker_jwt_secret (cfg s)) then
    (Raise (ValueError "WEBHOOK_AUTH_INVALID"), s)
  else
    let request_id := py_strip webhook_request_id in
    if negb (py_bool request_id) then (Raise (ValueError "WEBHOOK_REQUEST_ID_REQUIRED"), s)
    else
      let key := tenant_id +:+ ":webhook:" +:+ request_id in
      let '(marked, guard) := Guard.mark_once (replay_guard s) (clock 3%nat) key (replay_ttl (cfg s)) in
      let s := with_guard s guard in
      if marked then ingest_result_after_auth s (clock 4%nat) (clock 5%nat) tenant_id result
      else (Raise (ValueError "WEBHOOK_REQUEST_REPLAYED"), s).

Definition request_cancellation (s : connector) (cancel_clock : string → Z) (now : Z)
    (call_id : string) : bool * connector :=
  let normalized := py_strip call_id in
  if negb (py_bool normalized) then (false, s)
  else
    let '(affected, jobs) := Jobs.cancel_pending_call (job_store s) cancel_clock now normalized in
    (0 <? affected, bump (with_jobs s jobs) "cancel_requested_total" 1).

Definition list_dead_letter_jobs (s : connector) (tenant_id : string) (limit : Z)
    : list (list (string * string)) :=
  Jobs.list_dead_letter_jobs (job_store s) tenant_id limit.

Definition replay_dead_letter_job (s : connector) (tenant_id job_id : string) : bool * connector :=
  let '(replayed, jobs) := Jobs.replay_dead_letter_job (job_store s) tenant_id job_id in
  (replayed,
   bump (with_jobs s jobs)
     (if replayed then "dlq_replayed_total" else "dlq_replay_failed_total") 1).

(** [list(dict.fromkeys(ids))] *)
Definition distinct (ids : list string) : list string := od_keys (foldl (λ d i, od_set i tt d) [] ids).

(** The loop over the targets: the store, and the ids that failed. *)
Fixpoint replay_loop (jobs : Jobs.t) (tenant_id : string) (ids : list string)
    : Z * list string * Jobs.t :=
  match ids with
  | [] => (0, [], jobs)
  | id :: ids =>
      let '(ok, jobs1) := Jobs.replay_dead_letter_job jobs tenant_id id in
      let '(n, failures, jobs2) := replay_loop jobs1 tenant_id ids in
      if ok then (n + 1, failures, jobs2) else (n, id :: failures, jobs2)
  end.

Definition replay_dead_letter_jobs (s : connector) (tenant_id : string)
    (job_ids : list string) (limit : Z) : (Z * Z * list string) * connector :=
  let bounded := Z.max 1 (Z.min limit 500) in
  let selected := filter (λ i, i ≠ "") (py_strip <$> job_ids) in
  let targets :=
    match selected with
    | [] =>
        filter (λ i, i ≠ "")
          ((λ row, py_strip (default "" (od_get "job_id" row))) <$>
             Jobs.list_dead_letter_jobs (job_store s) tenant_id bounded)
    | _ => take (Z.to_nat bounded) (distinct selected)
    end in
  let '(replayed, failures, jobs) := replay_loop (job_store s) tenant_id targets in
  let s := with_jobs s jobs in
  ((Z.of_nat (length targets), replayed, failures),
   bump (bump s "dlq_replayed_total" replayed) "dlq_replay_failed_total"
     (Z.of_nat (length failures))).
End connector_ops.

(** [_metric_token] *)
Fixpoint sanitize (s : string) : string :=
  match s with
  | EmptyString => EmptyString
  | String c s => String (if ascii_alnum c then c else Ascii.ascii_of_nat 95) (sanitize s)
  end.

Fixpoint lstrip_underscores (s : string) : string :=
  match s with
  | EmptyString => EmptyString
  | String c s' => if bool_decide (c = Ascii.ascii_of_nat 95) then lstrip_underscores s' else s
  end.

Fixpoint rstrip_underscores (s : string) : string :=
  match s with
  | EmptyString => EmptyString
  | String c s' =>
      match rstrip_underscores s' with
      | EmptyString =>
          if bool_decide (c = Ascii.ascii_of_nat 95) then EmptyString else String c EmptyString
      | r => String c r
      end
  end.

Definition metric_token (value : string) : string :=
  let token := py_lower (py_strip value) in
  if negb (py_bool token) then "unknown"
  else py_or (rstrip_underscores (lstrip_underscores (sanitize token))) "unknown".

(** ** Costs *)

(** [_resolve_partition_limit]: the partition a call is charged to, its limit, and
    whether the limit is the partition's own. *)
Definition partition_candidate (c : config) (provider_id tool_name : string) : string :=
  match budget_partition_scope c with
  | ScopeTenant => ""
  | ScopePerProvider =>
      let provider := py_lower (py_strip provider_id) in
      if py_bool provider then "provider:" +:+ provider else ""
  | ScopePerTool =>
      let tool := py_lower (py_strip tool_name) in
      if py_bool tool then "tool:" +:+ tool else ""
  end.

Definition resolve_partition_limit (c : config) (provider_id tool_name : string)
    : string * Z * bool :=
  let candidate := partition_candidate c provider_id tool_name in
  match (if py_bool candidate then budget_partition_limits c !! candidate else None) with
  | Some limit => (candidate, Z.max limit 0, true)
  | None => ("tenant", Z.max (cost_limit c) 0, false)
  end.

Definition partition_limit_for_key (c : config) (partition_key : string) : Z :=
  let normalized := py_lower (py_strip partition_key) in
  match (if py_bool normalized then budget_partition_limits c !! normalized else None) with
  | Some limit => limit
  | None => cost_limit c
  end.

(** The window of a key in a pair of maps (its start and its cost): read, renewed
    when it is over, else created when absent. *)
Definition window_state {K} `{Countable K} (window_seconds : Z) (started window : gmap K Z) (k : K)
    (now : Z) : (Z * Z) * (gmap K Z * gmap K Z) :=
  let start0 := default (int_seconds now) (started !! k) in
  let cost := default 0 (window !! k) in
  let start := if start0 <=? 0 then int_seconds now else start0 in
  if window_seconds <=? int_seconds now - start then
    ((int_seconds now, 0), (<[k := int_seconds now]> started, <[k := 0]> window))
  else
    ((start, cost),
     (match started !! k with Some _ => started | None => <[k := start]> started end,
      match window !! k with Some _ => window | None => <[k := cost]> window end)).

(** [_window_state_unlocked] *)
Definition tenant_window_state (c : config) (st : cost_state) (tenant : string) (now : Z)
    : (Z * Z) * cost_state :=
  let '(r, (started, window)) :=
    window_state (cost_window_seconds c) (tenant_window_started st) (tenant_window_cost st) tenant now in
  (r, mkCosts (tenant_cost_total st) started window (partition_cost_total st)
        (partition_window_started st) (partition_window_cost st)).

(** [_partition_window_state_unlocked] *)
Definition partition_window_state (c : config) (st : cost_state) (tenant partition_key : string)
    (now : Z) : (Z * Z) * cost_state :=
  let '(r, (started, window)) :=
    window_state (cost_window_seconds c) (partition_window_started st) (partition_window_cost st)
      (tenant, partition_key) now in
  (r, mkCosts (tenant_cost_total st) (tenant_window_started st) (tenant_window_cost st)
        (partition_cost_total st) started window).

(** [_record_tenant_cost] *)
Definition record_tenant_cost (c : config) (st : cost_state) (now : Z)
    (tenant_id provider_id tool_name : string) (amount : Z) : cost_state :=
  let tenant := normalized_tenant tenant_id in
  let '(pk, _, _) := resolve_partition_limit c provider_id tool_name in
  let amount := Z.max amount 0 in
  let st :=
    mkCosts (bump_in (tenant_cost_total st) tenant amount) (tenant_window_started st)
      (tenant_window_cost st)
      (<[(tenant, pk) := default 0 (partition_cost_total st !! (tenant, pk)) + amount]>
         (partition_cost_total st))
      (partition_window_started st) (partition_window_cost st) in
  if negb (enable_cost_window c) then st
  else
    let '((started, current), st) := tenant_window_state c st tenant now in
    let st := mkCosts (tenant_cost_total st) (<[tenant := started]> (tenant_window_started st))
                (<[tenant := current + amount]> (tenant_window_cost st)) (partition_cost_total st)
                (partition_window_started st) (partition_window_cost st) in
    let '((pstarted, pcurrent), st) := partition_window_state c st tenant pk now in
    mkCosts (tenant_cost_total st) (tenant_window_started st) (tenant_window_cost st)
      (partition_cost_total st) (<[(tenant, pk) := pstarted]> (partition_window_started st))
      (<[(tenant, pk) := pcurrent + amount]> (partition_window_cost st)).

(** [_cost_limit_exceeded]: whether, with which reason, and what was consumed. *)
Definition cost_limit_exceeded (c : config) (st : cost_state) (now : Z)
    (tenant_id provider_id tool_name : string) : (bool * string * Z) * cost_state :=
  let tenant := normalized_tenant tenant_id in
  let '(pk, limit, partitioned) := resolve_partition_limit c provider_id tool_name in
  if limit <=? 0 then ((false, "", 0), st)
  else if enable_cost_window c then
    let '((_, window_cost), st) := partition_window_state c st tenant pk now in
    ((limit <=? window_cost,
      if partitioned then "BYOC_COST_WINDOW_PARTITION_LIMIT_EXCEEDED"
      else "BYOC_COST_WINDOW_LIMIT_EXCEEDED", window_cost), st)
  else
    let consumed := default 0 (partition_cost_total st !! (tenant, pk)) in
    ((limit <=? consumed,
      if partitioned then "BYOC_COST_PARTITION_LIMIT_EXCEEDED" else "BYOC_COST_LIMIT_EXCEEDED",
      consumed), st).

Inductive tool_status := ToolSuccess | ToolError | ToolTimeout | ToolCancelled.

(** [_cost_for_status], and the status map of [_map_result] *)
Definition cost_for_status (c : config) (s : tool_status) : Z :=
  match s with
  | ToolSuccess => cost_success c
  | ToolTimeout => cost_timeout c
  | ToolCancelled => cost_cancelled c
  | ToolError => cost_error c
  end.

Definition map_status (status : string) : tool_status :=
  if status =?s "success" then ToolSuccess
  else if status =?s "timeout" then ToolTimeout
  else if status =?s "cancelled" then ToolCancelled
  else ToolError.

Definition terminal_state (s : tool_status) : string :=
  match s with
  | ToolSuccess => "completed"
  | ToolTimeout => "timed_out"
  | ToolCancelled => "cancelled"
  | ToolError => "failed"
  end.
