(* ===== verification/ByocConnectorFacts.v ===== *)
(** * Properties of the BYOC connector runtime

    What is accepted and when, that a job's result is accepted once, two ways a
    worker's result is lost, who can claim, and the bound on costs. *)

From S2P Require Import Prelude PyValue ByocJobs ByocFacts ByocResults ByocConnector.

(** ** Ingestion *)

(** The three answers of the lease lookup and of the completion. *)
Lemma get_leased_job_some js now id token e js' :
  Jobs.get_leased_job js now id token = (Some e, js') →
  js' = js ∧ ∃ st, od_get id (Jobs.states js) = Some st ∧ js_status st = Leased ∧
    now < js_expires st ∧ js_token st = token ∧ e = js_envelope st.
Proof.
  unfold Jobs.get_leased_job. destruct (od_get id (Jobs.states js)) as [st|]; [|done].
  case_bool_decide as Hs; cbn [negb]; [|done].
  destruct (Z.leb_spec (js_expires st) now); [done|].
  case_bool_decide as Ht; cbn [negb]; [|done]. intros [= <- <-]. split; [done|]. by exists st.
Qed.

Lemma get_leased_job_valid js now id st :
  od_get id (Jobs.states js) = Some st → js_status st = Leased → now < js_expires st →
  Jobs.get_leased_job js now id (js_token st) = (Some (js_envelope st), js).
Proof.
  intros Hst Hs Hlt. unfold Jobs.get_leased_job. rewrite Hst, bool_decide_true by done. cbn [negb].
  destruct (Z.leb_spec (js_expires st) now); [lia|]. by rewrite bool_decide_true.
Qed.

Lemma complete_claim_valid js now id st :
  od_get id (Jobs.states js) = Some st → js_status st = Leased → now < js_expires st →
  Jobs.complete_claim js now id (js_token st) =
    (true, Jobs.mkStore (od_set id (Jobs.complete now st) (Jobs.states js)) (Jobs.tenant_queue js)).
Proof.
  intros Hst Hs Hlt. unfold Jobs.complete_claim. rewrite Hst, bool_decide_true by done. cbn [negb].
  destruct (Z.leb_spec (js_expires st) now); [lia|]. by rewrite bool_decide_true.
Qed.

Lemma get_leased_job_completed js now id token :
  (∀ st, od_get id (Jobs.states js) = Some st → js_status st = Completed) →
  Jobs.get_leased_job js now id token = (None, js).
Proof.
  intros Hs. unfold Jobs.get_leased_job. destruct (od_get id (Jobs.states js)) as [st|]; [|done].
  by rewrite (Hs st eq_refl).
Qed.

Section facts.
Context (float_repr : Q → string) (jwt_decode : Z → string → string → jwt_result).
Context (py_int : pyval → option Z).

(** The stores are all an ingestion reads. *)
Definition valid_lease (s : connector) (now1 now2 : Z) (r : ByocToolResultEnvelope)
    (st : JobState) : Prop :=
  od_get (rs_job_id r) (Jobs.states (job_store s)) = Some st ∧ js_status st = Leased ∧
  now1 < js_expires st ∧ now2 < js_expires st ∧ js_token st = rs_lease_token r ∧
  verify_result_artifact_metadata (js_envelope st) r = "".

(** With a valid lease and a key not seen before, the job is completed and the
    result store decides. *)
Lemma ingest_valid s now1 now2 tenant r st :
  rs_tenant_id r = tenant → valid_lease s now1 now2 r st →
  py_strip (rs_idempotency_key r) ∉ Results.seen_keys (result_store s) →
  let '(o, rs) := Results.ingest (result_store s) r in
  ∃ s', ingest_result_after_auth s now1 now2 tenant r = (Ok o, s') ∧
    result_store s' = rs ∧
    job_store s' = Jobs.mkStore (od_set (rs_job_id r) (Jobs.complete now2 st) (Jobs.states (job_store s)))
                     (Jobs.tenant_queue (job_store s)).
Proof.
  intros Ht (Hst & Hs & H1 & H2 & Htok & Hart) Hkey.
  destruct (Results.ingest (result_store s) r) as [o rs] eqn:Ei.
  unfold ingest_result_after_auth. rewrite bool_decide_true by done. cbn [negb].
  assert (py_bool (py_strip (rs_idempotency_key r)) &&
    Results.has_idempotency_key (result_store (increment_submit_attempt s tenant))
      (py_strip (rs_idempotency_key r)) = false) as ->.
  { unfold Results.has_idempotency_key. rewrite py_strip_idem.
    change (result_store (increment_submit_attempt s tenant)) with (result_store s).
    rewrite (bool_decide_false (_ ∈ _)) by done. by rewrite !andb_false_r. }
  change (job_store (increment_submit_attempt s tenant)) with (job_store s).
  rewrite <- Htok, (get_leased_job_valid _ _ _ st) by done. rewrite Hart.
  change (py_bool "") with false. cbn [negb].
  change (job_store (with_jobs _ ?j)) with j.
  rewrite (complete_claim_valid _ _ _ st) by done. cbn [negb].
  change (result_store (with_jobs _ _)) with (result_store s). rewrite Ei.
  eexists. split; [reflexivity|]. by destruct (ro_duplicate o), (ro_accepted o).
Qed.

(** What a newly accepted result needed. *)
Lemma ingest_accepted s now1 now2 tenant r o s' :
  ingest_result_after_auth s now1 now2 tenant r = (Ok o, s') →
  ro_accepted o = true → ro_duplicate o = false →
  rs_tenant_id r = tenant ∧ py_strip (rs_idempotency_key r) ≠ "" ∧
  py_strip (rs_idempotency_key r) ∉ Results.seen_keys (result_store s) ∧
  ∃ st, valid_lease s now1 now2 r st.
Proof.
  unfold ingest_result_after_auth. case_bool_decide as Ht; cbn [negb]; [|done].
  change (result_store (increment_submit_attempt s tenant)) with (result_store s).
  change (job_store (increment_submit_attempt s tenant)) with (job_store s).
  destruct (py_bool _ && _) eqn:Ek; [by intros [= <- _] _ [=]|].
  destruct (Jobs.get_leased_job (job_store s) now1 (rs_job_id r) (rs_lease_token r)) as [[e|] js] eqn:El.
  2:{ intros [= <- _] [=]. }
  apply get_leased_job_some in El as (-> & st & Hst & Hs & H1 & Htok & ->).
  unfold py_bool at 1. case_bool_decide as Hart; cbn [negb]; [|intros [= <- _] [=]].
  change (job_store (with_jobs _ ?j)) with j.
  destruct (Jobs.complete_claim (job_store s) now2 (rs_job_id r) (rs_lease_token r)) as [ok js] eqn:Ec.
  destruct ok; cbn [negb]; [|intros [= <- _] [=]].
  change (result_store (with_jobs _ _)) with (result_store s).
  pose proof (Results.ingest_cases (result_store s) r) as Hc. cbv zeta in Hc.
  destruct (Results.ingest (result_store s) r) as [o1 rs].
  intros [= <- _] Ha Hd.
  destruct Hc as [(_ & _ & Hk & Hn & _)|[(_ & Hd' & _)|(Ha' & _)]]; [|congruence..].
  split_and!; try done. exists st. split_and!; try done.
  unfold Jobs.complete_claim in Ec. rewrite Hst, bool_decide_true in Ec by done. cbn [negb] in Ec.
  by destruct (Z.leb_spec (js_expires st) now2).
Qed.

(** Whether the result store takes a result for a job that another key's result may hold *)
Definition storable (rs : Results.t) (r : ByocToolResultEnvelope) : Prop :=
  ∀ old, Results.results rs !! rs_job_id r = Some old →
    py_strip (rs_idempotency_key old) = py_strip (rs_idempotency_key r) ∨
    resolve_result_conflict old r (Results.strategy rs) = true.

Definition newly_accepted (x : res ByocResultIngestOutcome * connector) : Prop :=
  ∃ o, x.1 = Ok o ∧ ro_accepted o = true ∧ ro_duplicate o = false.

(** What the submission of a result needs to be newly accepted *)
Definition acceptable (s : connector) (now1 now2 : Z) (tenant : string) (r : ByocToolResultEnvelope) : Prop :=
  rs_tenant_id r = tenant ∧ py_strip (rs_idempotency_key r) ≠ "" ∧
  py_strip (rs_idempotency_key r) ∉ Results.seen_keys (result_store s) ∧
  (∃ st, valid_lease s now1 now2 r st) ∧ storable (result_store s) r.

Lemma storable_ingest rs r :
  py_strip (rs_idempotency_key r) ≠ "" → py_strip (rs_idempotency_key r) ∉ Results.seen_keys rs →
  let o := (Results.ingest rs r).1 in
  ro_duplicate o = false ∧ (ro_accepted o = true ↔ storable rs r).
Proof.
  intros Hk Hn. unfold Results.ingest, storable. apply py_bool_true in Hk as ->. cbn [negb].
  rewrite bool_decide_false by done.
  destruct (Results.results rs !! rs_job_id r) as [old|]; [case_bool_decide as Hkey|].
  - split; [done|]. split; [|done]. intros _ old' [= <-]. by left.
  - destruct (resolve_result_conflict old r (Results.strategy rs)) eqn:E; (split; [done|]); split; try done.
    + intros _ old' [= <-]. by right.
    + intros Ho. destruct (Ho old eq_refl); congruence.
  - by split.
Qed.

Lemma newly_accepted_exactly s now1 now2 tenant r :
  newly_accepted (ingest_result_after_auth s now1 now2 tenant r) ↔ acceptable s now1 now2 tenant r.
Proof.
  unfold newly_accepted, acceptable. split.
  - intros (o & Ho & Ha & Hd). destruct (ingest_result_after_auth s now1 now2 tenant r) as [x s'] eqn:E.
    cbn in Ho. subst x. destruct (ingest_accepted _ _ _ _ _ _ _ E Ha Hd) as (Ht & Hk & Hn & st & Hv).
    split_and!; [done|done|done|by exists st|].
    pose proof (ingest_valid s now1 now2 tenant r st Ht Hv Hn) as Hi.
    destruct (storable_ingest (result_store s) r Hk Hn) as [_ Hs].
    destruct (Results.ingest (result_store s) r) as [o1 rs]. destruct Hi as (s1 & Hi & _).
    rewrite E in Hi. injection Hi as -> _. by apply Hs.
  - intros (Ht & Hk & Hn & (st & Hv) & Hs). pose proof (ingest_valid s now1 now2 tenant r st Ht Hv Hn) as Hi.
    destruct (storable_ingest (result_store s) r Hk Hn) as [Hd Ha].
    destruct (Results.ingest (result_store s) r) as [o rs]. destruct Hi as (s1 & -> & _).
    exists o. cbn in *. split_and!; [done|by apply Ha|done].
Qed.

(** C10: A result is newly accepted exactly when it names its tenant and its job's
    valid lease (unexpired when looked up and when completed, same token, matching
    artifact metadata), carries a key not blank and not seen, and the result store
    holds no result of the job under another key that its conflict strategy keeps;
    and once one is, whatever happens to the queue afterwards short of enqueueing the
    id anew, no later submission for that job is newly accepted. *)
Theorem result_accepted_once s now1 now2 tenant r :
  reachable (job_store s) →
  (newly_accepted (ingest_result_after_auth s now1 now2 tenant r) ↔
   rs_tenant_id r = tenant ∧ py_strip (rs_idempotency_key r) ≠ "" ∧
   py_strip (rs_idempotency_key r) ∉ Results.seen_keys (result_store s) ∧
   (∃ st, valid_lease s now1 now2 r st) ∧ storable (result_store s) r) ∧
  (newly_accepted (ingest_result_after_auth s now1 now2 tenant r) →
   let s' := (ingest_result_after_auth s now1 now2 tenant r).2 in
   ∀ cs s2 n1 n2 tenant2 r2,
     fresh_run (job_store s') cs → Forall (λ c, ¬ enqueues (rs_job_id r) c) cs →
     job_store s2 = run (job_store s') cs → rs_job_id r2 = rs_job_id r →
     ¬ newly_accepted (ingest_result_after_auth s2 n1 n2 tenant2 r2)).
Proof.
  intros Hr%queue_reachable_wf. split; [apply newly_accepted_exactly|].
  intros (Ht & Hk & Hn & (st & Hv) & _)%newly_accepted_exactly.
  pose proof (ingest_valid s now1 now2 tenant r st Ht Hv Hn) as Hi.
  destruct (Results.ingest (result_store s) r) as [o1 rs1]. destruct Hi as (s' & -> & _ & Hjs). cbn [snd].
  assert (job_store s' = (Jobs.complete_claim (job_store s) now2 (rs_job_id r) (js_token st)).2) as Hjs'.
  { destruct Hv as (Hst & Hs & _ & H2 & _). by rewrite (complete_claim_valid _ _ _ st). }
  intros cs s2 n1 n2 tenant2 r2 Hf Hne Hjs2 Hid (_ & _ & _ & (st2 & Hst2 & Hs2 & _) & _)%newly_accepted_exactly.
  destruct (run_completed (job_store s') cs (rs_job_id r)) as [_ Hdone].
  { rewrite Hjs'. by apply wf_complete. }
  { done. }
  { done. }
  { intros st1. rewrite Hjs. cbn. rewrite od_get_set. by intros [= <-]. }
  rewrite Hjs2, Hid in Hst2. apply Hdone in Hst2. congruence.
Qed.

(** A worker with a valid lease whose result carries a blank idempotency key
    is refused (IDEMPOTENCY_KEY_REQUIRED), but its job is completed all the same
    and nothing is stored: no later result for the job can be accepted and
    [consume] will never yield one. *)
Theorem blank_key_loses_result s now1 now2 tenant r st :
  rs_tenant_id r = tenant → valid_lease s now1 now2 r st →
  py_strip (rs_idempotency_key r) = "" → "" ∉ Results.seen_keys (result_store s) →
  ∃ s', ingest_result_after_auth s now1 now2 tenant r
          = (Ok (mkOutcome false false "IDEMPOTENCY_KEY_REQUIRED"), s') ∧
    result_store s' = result_store s ∧
    (js_status <$> od_get (rs_job_id r) (Jobs.states (job_store s'))) = Some Completed ∧
    ∀ n1 n2 r2, rs_tenant_id r2 = tenant → rs_job_id r2 = rs_job_id r →
      py_strip (rs_idempotency_key r2) ∉ Results.seen_keys (result_store s) →
      (ingest_result_after_auth s' n1 n2 tenant r2).1 = Ok lease_rejection.
Proof.
  intros Ht Hv Hk Hn.
  pose proof (ingest_valid s now1 now2 tenant r st Ht Hv ltac:(by rewrite Hk)) as Hi.
  unfold Results.ingest in Hi at 1. rewrite Hk in Hi. cbn [py_bool negb] in Hi.
  destruct Hi as (s' & Hi & Hrs & Hjs). exists s'. split; [exact Hi|]. split; [done|].
  rewrite Hjs. cbn [Jobs.states]. rewrite od_get_set. split; [done|].
  intros n1 n2 r2 Ht2 Hid2 Hn2. unfold ingest_result_after_auth.
  rewrite bool_decide_true by done. cbn [negb].
  assert (py_bool (py_strip (rs_idempotency_key r2)) &&
    Results.has_idempotency_key (result_store (increment_submit_attempt s' tenant))
      (py_strip (rs_idempotency_key r2)) = false) as ->.
  { unfold Results.has_idempotency_key. rewrite py_strip_idem.
    change (result_store (increment_submit_attempt s' tenant)) with (result_store s').
    rewrite Hrs, (bool_decide_false (_ ∈ _)) by done. by rewrite !andb_false_r. }
  change (job_store (increment_submit_attempt s' tenant)) with (job_store s').
  rewrite get_leased_job_completed; [done|]. intros st1. rewrite Hjs, Hid2. cbn.
  rewrite od_get_set. by intros [= <-].
Qed.

(** The key of a result is not compared with its job's: once a worker's valid
    result was stored under a key, a result of another job (of any tenant) with
    that key is answered as an accepted duplicate, whether or not its lease is
    valid, and is not stored. *)
Theorem foreign_key_blocks_result s now1 now2 tenant r st n1 n2 tenant2 r2 :
  rs_tenant_id r = tenant → valid_lease s now1 now2 r st →
  py_strip (rs_idempotency_key r) ≠ "" →
  py_strip (rs_idempotency_key r) ∉ Results.seen_keys (result_store s) →
  Results.results (result_store s) !! rs_job_id r = None →
  rs_tenant_id r2 = tenant2 → py_strip (rs_idempotency_key r2) = py_strip (rs_idempotency_key r) →
  ∃ s1 s2,
    ingest_result_after_auth s now1 now2 tenant r = (Ok (mkOutcome true false "INGESTED"), s1) ∧
    ingest_result_after_auth s1 n1 n2 tenant2 r2 = (Ok (mkOutcome true true "IDEMPOTENT_DUPLICATE"), s2) ∧
    result_store s2 = result_store s1 ∧ job_store s2 = job_store s1.
Proof.
  clear float_repr jwt_decode py_int. intros Ht Hv Hk Hn Hnone Ht2 Hk2.
  pose proof (ingest_valid s now1 now2 tenant r st Ht Hv Hn) as Hi.
  unfold Results.ingest in Hi at 1. apply py_bool_true in Hk as Hkb. rewrite Hkb in Hi.
  cbn [negb] in Hi. rewrite bool_decide_false, Hnone in Hi by done.
  destruct Hi as (s1 & Hi & Hrs & Hjs). exists s1. eexists. split; [exact Hi|].
  unfold ingest_result_after_auth at 1. rewrite bool_decide_true by done. cbn [negb].
  unfold Results.has_idempotency_key. rewrite py_strip_idem, Hk2, Hkb. cbn [andb].
  change (result_store (increment_submit_attempt s1 tenant2)) with (result_store s1).
  rewrite bool_decide_true by (rewrite Hrs; cbn; set_solver). done.
Qed.

(** ** Claiming *)

Lemma cleanup_job_store s clock tenant :
  job_store (run_periodic_cleanup s clock tenant) = job_store s ∨
  job_store (run_periodic_cleanup s clock tenant) =
    step (job_store s) (CCleanup (clock 1%nat) tenant (completed_ttl (cfg s)) (cancelled_ttl (cfg s))
      (max_completed_records (cfg s)) (max_cancelled_records (cfg s))).
Proof.
  unfold run_periodic_cleanup, run_cleanup. destruct (negb _); [by left|right].
  cbn [step]. by destruct (Jobs.cleanup_retention _ _ _ _ _ _ _) as [[? ?] ?].
Qed.

Lemma requeue_job_store s now tenant :
  job_store (requeue_expired_leases s now tenant) =
    step (job_store s) (CRequeue now (Some (max_claim_attempts (cfg s)))).
Proof.
  unfold requeue_expired_leases. cbn [step].
  destruct (Jobs.requeue_expired_leases _ _ _) as [n js]. by destruct (0 <? n), (_ <? _).
Qed.

Lemma authenticate_ok s n1 n2 action tenant wt nonce c s' :
  authenticate float_repr jwt_decode py_int s n1 n2 action tenant wt nonce = (Ok c, s') →
  verify_worker_token float_repr jwt_decode py_int n1 wt (worker_jwt_secret (cfg s)) tenant = Ok c ∧
  py_strip nonce ≠ "" ∧ job_store s' = job_store s ∧ cfg s' = cfg s ∧
  Guard.mark_once (replay_guard s) n2
    (tenant +:+ ":" +:+ action +:+ ":" +:+ wc_token_id c +:+ ":" +:+ py_strip nonce)
    (replay_ttl (cfg s)) = (true, replay_guard s').
Proof.
  unfold authenticate. destruct (verify_worker_token _ _ _ _ _ _ _) as [c'|]; [|done].
  destruct (py_bool (py_strip nonce)) eqn:En; cbn [negb]; [|done]. apply py_bool_true in En.
  destruct (Guard.mark_once _ _ _ _) as [[] g] eqn:Em; [|done]. by intros [= <- <-].
Qed.

(** A worker is handed a job only with a token that decodes under the
    connector's secret to claims of the tenant asked for and a nonce that is not
    blank; the job is that tenant's and carries the fresh lease; and until the
    replay time to live is over, whatever the guard serves meanwhile, the same
    token and nonce are refused as a replay. *)
Theorem claim_authenticated s clock token tenant wt nonce job s' :
  reachable (job_store s) →
  claim_next_job float_repr jwt_decode py_int s clock token tenant wt nonce = (Ok (Some job), s') →
  ∃ c, verify_worker_token float_repr jwt_decode py_int (clock 4%nat) wt
         (worker_jwt_secret (cfg (requeue_expired_leases (run_periodic_cleanup s clock tenant)
            (clock 3%nat) tenant))) tenant = Ok c ∧
    wc_tenant_id c = tenant ∧ wc_worker_id c ≠ "" ∧ py_strip nonce ≠ "" ∧
    ev_tenant_id job = tenant ∧ ev_lease_token job = "lease_" +:+ token ∧
    ∀ cs s2 n1 n2,
      let deadline := clock 5%nat + Z.max (replay_ttl (cfg s')) 1 * second in
      replay_guard s2 = foldl Guard.step (replay_guard s') cs → cfg s2 = cfg s' →
      Forall (λ c, Guard.command_time c < deadline) cs → n2 < deadline →
      verify_worker_token float_repr jwt_decode py_int n1 wt (worker_jwt_secret (cfg s2)) tenant = Ok c →
      (authenticate float_repr jwt_decode py_int s2 n1 n2 "claim" tenant wt nonce).1
        = Raise (ValueError "WORKER_REQUEST_REPLAYED").
Proof.
  intros Hr. unfold claim_next_job.
  set (s0 := requeue_expired_leases _ _ _).
  assert (reachable (job_store s0)) as Hr0.
  { unfold s0. rewrite requeue_job_store. apply reach_step; [|exact I].
    destruct (cleanup_job_store s clock tenant) as [->| ->]; [done|by apply reach_step]. }
  destruct (authenticate _ _ _ s0 _ _ _ _ _ _) as [[c|e] s1] eqn:Ea; [|done].
  pose proof (authenticate_ok _ _ _ _ _ _ _ _ _ Ea) as (Hv & Hn & Hjs & Hcfg & Hm).
  pose proof (verify_worker_token_ok _ _ _ _ _ _ _ _ Hv) as (Hct & Hcw & _ & _).
  pose proof (claim_next_spec (job_store s1) (clock 6%nat) tenant (wc_worker_id c)
    (lease_ttl (cfg s1)) token) as Hc. rewrite Hjs in Hc at 1.
  specialize (Hc (queue_reachable_wf _ Hr0)). cbv zeta in Hc.
  destruct (Jobs.claim_next (job_store s1) (clock 6%nat) tenant (wc_worker_id c)
    (lease_ttl (cfg s1)) token) as [[id|] js]; cbn [mbind option_bind]; [|done].
  destruct Hc as (_ & st & _ & _ & Htn & Es).
  unfold Jobs.claim_envelope. rewrite Es, od_get_set. cbn [fmap option_fmap option_map].
  intros Heq. injection Heq as Hjob Hs'. exists c.
  assert (replay_guard s' = replay_guard s1 ∧ cfg s' = cfg s1) as [Hg' Hcfg'].
  { rewrite <- Hs'. unfold record_progress. by destruct (negb _). }
  split_and!; try done; [by rewrite <- Hjob|by rewrite <- Hjob|].
  intros cs s2 n1 n2 Hg Hc2 Hcs Hn2 Hv2. unfold authenticate. rewrite Hv2.
  apply py_bool_true in Hn as Hnb. rewrite Hnb. cbn [negb].
  assert ((Guard.mark_once (replay_guard s2) n2
    (tenant +:+ ":" +:+ "claim" +:+ ":" +:+ wc_token_id c +:+ ":" +:+ py_strip nonce)
    (replay_ttl (cfg s2))).1 = false) as Hf.
  { rewrite Hg, Hg'.
    pose proof (Guard.replay_guard_rejects_again (replay_guard s0) (clock 5%nat)
      (tenant +:+ ":" +:+ "claim" +:+ ":" +:+ wc_token_id c +:+ ":" +:+ py_strip nonce)
      (replay_ttl (cfg s0)) cs n2 (replay_ttl (cfg s2))) as Hrej.
    rewrite Hm in Hrej. cbn [fst snd] in Hrej.
    apply Hrej; [done|by rewrite <- Hcfg, <- Hcfg'|by rewrite <- Hcfg, <- Hcfg']. }
  match type of Hf with (?m).1 = _ => destruct m as [marked g] eqn:Em end.
  cbn [fst] in Hf. by subst marked.
Qed.
End facts.

(** ** Costs *)

(** A call as the connector serves it: refused when the limit is reached, else
    charged. *)
Record charge := mkCharge {
  ch_now : Z; ch_tenant : string; ch_provider : string; ch_tool : string; ch_amount : Z }.

Definition serve (c : config) (st : cost_state) (ch : charge) : bool * cost_state :=
  let '((exceeded, _, _), st) :=
    cost_limit_exceeded c st (ch_now ch) (ch_tenant ch) (ch_provider ch) (ch_tool ch) in
  if exceeded then (false, st)
  else (true, record_tenant_cost c st (ch_now ch) (ch_tenant ch) (ch_provider ch) (ch_tool ch)
                (ch_amount ch)).

Definition no_costs : cost_state := mkCosts ∅ ∅ ∅ ∅ ∅ ∅.

(** What the enforced policy looks at: the window's cost, or the total. *)
Definition charged (c : config) (st : cost_state) (k : string * string) : Z :=
  default 0 ((if enable_cost_window c then partition_window_cost st else partition_cost_total st) !! k).

Lemma resolve_limit_of_key c p1 t1 p2 t2 k l1 l2 b1 b2 :
  resolve_partition_limit c p1 t1 = (k, l1, b1) → resolve_partition_limit c p2 t2 = (k, l2, b2) →
  l1 = l2.
Proof.
  assert (∀ p t, partition_candidate c p t ≠ "tenant") as Hne.
  { intros p t. unfold partition_candidate.
    destruct (budget_partition_scope c); [done|destruct (py_bool _)..]; done. }
  unfold resolve_partition_limit.
  destruct (if py_bool (partition_candidate c p1 t1) then _ else None) as [x1|] eqn:E1,
    (if py_bool (partition_candidate c p2 t2) then _ else None) as [x2|] eqn:E2;
    intros [= Hk1 <- <-] [= Hk2 <- <-].
  - destruct (py_bool _), (py_bool _); try done. rewrite Hk1 in E1. rewrite Hk2 in E2. congruence.
  - by destruct (Hne p1 t1); rewrite Hk1.
  - by destruct (Hne p2 t2); rewrite Hk2.
  - done.
Qed.

(** Reading a window never raises its cost, and leaves the others alone. *)
Lemma window_state_cost {K} `{Countable K} w (started window : gmap K Z) k now r started' window' :
  window_state w started window k now = (r, (started', window')) →
  r.2 = default 0 (window' !! k) ∧
  (r.2 = 0 ∨ r.2 = default 0 (window !! k)) ∧
  ∀ k', k' ≠ k → window' !! k' = window !! k'.
Proof.
  unfold window_state. destruct (_ <=? int_seconds now - _).
  - intros [= <- <- <-]. rewrite lookup_insert_eq. split_and!; [done|by left|].
    intros k' Hne. by rewrite lookup_insert_ne.
  - intros [= <- <- <-]. cbn. destruct (window !! k) as [x|] eqn:E.
    + rewrite E. split_and!; [done|by right|done].
    + rewrite lookup_insert_eq. split_and!; [done|by left|]. intros k' Hne. by rewrite lookup_insert_ne.
Qed.

Lemma record_tenant_cost_charged c st now tenant provider tool amount k l b k' :
  resolve_partition_limit c provider tool = (k, l, b) →
  let st' := record_tenant_cost c st now tenant provider tool amount in
  (k' ≠ (normalized_tenant tenant, k) → charged c st' k' = charged c st k') ∧
  (k' = (normalized_tenant tenant, k) →
   charged c st' k' ≤ Z.max 0 (charged c st k') + Z.max amount 0).
Proof.
  intros Hres. unfold record_tenant_cost, charged. rewrite Hres.
  destruct (enable_cost_window c); cbn [negb].
  - unfold tenant_window_state. destruct (window_state _ _ _ (normalized_tenant tenant) now)
      as [[ws wc] [tws twc]]. cbn [fst snd].
    unfold partition_window_state. cbn [partition_window_started partition_window_cost
      tenant_cost_total tenant_window_started tenant_window_cost partition_cost_total].
    destruct (window_state _ (partition_window_started st) (partition_window_cost st)
      (normalized_tenant tenant, k) now) as [[ps pc] [pws pwc]] eqn:Ew.
    apply window_state_cost in Ew as (Hr & Hle & Hoth). cbn [snd] in *. cbn. split.
    + intros Hne. rewrite lookup_insert_ne by done. by rewrite Hoth.
    + intros ->. rewrite lookup_insert_eq. cbn. destruct Hle as [->| ->]; lia.
  - cbn. split.
    + intros Hne. by rewrite lookup_insert_ne.
    + intros ->. rewrite lookup_insert_eq. cbn. lia.
Qed.

Lemma cost_limit_exceeded_spec c st now tenant provider tool k l b :
  resolve_partition_limit c provider tool = (k, l, b) →
  let '((exceeded, _, _), st') := cost_limit_exceeded c st now tenant provider tool in
  (exceeded = true ↔ 0 < l ∧ l ≤ charged c st' (normalized_tenant tenant, k)) ∧
  ∀ k', charged c st' k' = charged c st k' ∨ charged c st' k' = 0.
Proof.
  intros Hres. unfold cost_limit_exceeded, charged. rewrite Hres.
  destruct (Z.leb_spec l 0).
  { split; [split; [done|lia]|]. by left. }
  destruct (enable_cost_window c).
  - unfold partition_window_state. destruct (window_state _ _ _ _ _) as [[ws wc] [pws pwc]] eqn:Ew.
    apply window_state_cost in Ew as (Hr & Hle & Hoth). cbn [fst snd] in *. cbn [partition_window_cost].
    split; [rewrite <- Hr; lia|]. intros k'.
    destruct (decide (k' = (normalized_tenant tenant, k))) as [->|Hne].
    + rewrite <- Hr. destruct Hle; auto.
    + rewrite Hoth by done. by left.
  - split; [lia|]. by left.
Qed.

(** When the limit of a partition is enforced on calls served one after the
    other, no tenant is ever charged, within the current window (or in total
    without the window policy), more than the limit less one plus the cost of one
    call. *)
Theorem cost_limit_bounds_charges c amount_bound charges tenant provider tool k l b :
  0 ≤ amount_bound →
  Forall (λ ch, ch_amount ch ≤ amount_bound) charges →
  resolve_partition_limit c provider tool = (k, l, b) → 0 < l →
  charged c (foldl (λ st ch, (serve c st ch).2) no_costs charges) (normalized_tenant tenant, k)
    ≤ l - 1 + amount_bound.
Proof.
  intros Hb Hch Hres Hl.
  assert (∀ st, charged c st (normalized_tenant tenant, k) ≤ l - 1 + amount_bound →
    charged c (foldl (λ st ch, (serve c st ch).2) st charges) (normalized_tenant tenant, k)
      ≤ l - 1 + amount_bound) as Hind.
  { induction Hch as [|ch charges Hamt _ IH]; intros st Hst; [done|]. cbn [foldl]. apply IH.
    unfold serve. destruct (resolve_partition_limit c (ch_provider ch) (ch_tool ch)) as [[k1 l1] b1] eqn:Hr1.
    pose proof (cost_limit_exceeded_spec c st (ch_now ch) (ch_tenant ch) _ _ k1 l1 b1 Hr1) as Hx.
    destruct (cost_limit_exceeded c st _ _ _ _) as [[[ex re] co] st1].
    destruct Hx as [Hex Hk]. specialize (Hk (normalized_tenant tenant, k)).
    assert (charged c st1 (normalized_tenant tenant, k) ≤ l - 1 + amount_bound) as Hst1 by lia.
    destruct ex; cbn [snd]; [done|].
    pose proof (record_tenant_cost_charged c st1 (ch_now ch) (ch_tenant ch) _ _ (ch_amount ch) k1 l1 b1
      (normalized_tenant tenant, k) Hr1) as [Hne Heq].
    destruct (decide ((normalized_tenant tenant, k) = (normalized_tenant (ch_tenant ch), k1))) as [E|E].
    - specialize (Heq E). injection E as Et ->.
      assert (l1 = l) as -> by (by eapply resolve_limit_of_key).
      rewrite <- Et in Hex. destruct (Z.lt_ge_cases (charged c st1 (normalized_tenant tenant, k1)) l); [lia|].
      exfalso. assert (false = true) as [=]. apply Hex. lia.
    - by rewrite Hne. }
  apply Hind. unfold charged. destruct (enable_cost_window c); cbn; rewrite lookup_empty; cbn; lia.
Qed.

(** ** A concrete connector: job "j1" of tenant "acme" is leased under "lease_aa" *)

Module Demo.
Definition float_repr : Q → string := λ _, "".
Definition jwt_decode : Z → string → string → jwt_result := λ _ token secret,
  if token =?s "good" then
    JwtPayload [("tenant_id", PStr "acme"); ("worker_id", PStr "w1"); ("jti", PStr "jti_1");
                ("iat", PInt 0); ("exp", PInt 100)]
  else JwtInvalid.

Definition cfg : config :=
  mkConnConfig "secret" 300 30 300 30 3600 3600 10 10 3 150 true false 3600 100 40 60 20
    ScopeTenant ∅.

Definition s : connector := with_jobs (init_connector cfg FirstWriteWins) demo_queue.

Definition result (job tenant key token : string) : ByocToolResultEnvelope :=
  mkResult job tenant "run" "c1" "tool" "success" [] "" "" false key token "" "" "" "".

Definition leased : JobState := Jobs.lease 1000000 "w1" 10 "aa" (new_state (demo_job "j1" "acme" "c1")).

Lemma valid key : valid_lease s 2000000 2000001 (result "j1" "acme" key "lease_aa") leased.
Proof. split_and!; vm_compute; reflexivity. Qed.

Definition ingest (s : connector) (tenant : string) (r : ByocToolResultEnvelope) :=
  ingest_result_after_auth s 2000000 2000001 tenant r.

Definition after : connector := (ingest s "acme" (result "j1" "acme" "k1" "lease_aa")).2.

Lemma accepted :
  ingest_result_after_auth s 2000000 2000001 "acme" (result "j1" "acme" "k1" "lease_aa")
  = (Ok (mkOutcome true false "INGESTED"), after).
Proof. vm_compute. reflexivity. Qed.
End Demo.

Lemma result_accepted_once_witness :
  newly_accepted (ingest_result_after_auth Demo.s 2000000 2000001 "acme"
    (Demo.result "j1" "acme" "k1" "lease_aa")) ∧
  ¬ newly_accepted (ingest_result_after_auth Demo.after 3000000 3000001 "acme"
      (Demo.result "j1" "acme" "k2" "lease_aa")).
Proof.
  destruct (result_accepted_once Demo.s 2000000 2000001 "acme"
    (Demo.result "j1" "acme" "k1" "lease_aa") demo_queue_reachable) as [_ H].
  assert (newly_accepted (ingest_result_after_auth Demo.s 2000000 2000001 "acme"
    (Demo.result "j1" "acme" "k1" "lease_aa"))) as Hacc.
  { rewrite Demo.accepted. by eexists. }
  split; [exact Hacc|].
  refine (H Hacc [] Demo.after 3000000 3000001 "acme" (Demo.result "j1" "acme" "k2" "lease_aa") _ _ _ _);
    [exact I|constructor|reflexivity|reflexivity].
Defined.

Lemma blank_key_loses_result_witness :
  ∃ s', Demo.ingest Demo.s "acme" (Demo.result "j1" "acme" " " "lease_aa")
          = (Ok (mkOutcome false false "IDEMPOTENCY_KEY_REQUIRED"), s') ∧
    result_store s' = result_store Demo.s ∧
    (js_status <$> od_get "j1" (Jobs.states (job_store s'))) = Some Completed ∧
    ∀ n1 n2 r2, rs_tenant_id r2 = "acme" → rs_job_id r2 = "j1" →
      py_strip (rs_idempotency_key r2) ∉ Results.seen_keys (result_store Demo.s) →
      (ingest_result_after_auth s' n1 n2 "acme" r2).1 = Ok lease_rejection.
Proof.
  apply (blank_key_loses_result Demo.s 2000000 2000001 "acme"
    (Demo.result "j1" "acme" " " "lease_aa") Demo.leased).
  - reflexivity.
  - apply Demo.valid.
  - reflexivity.
  - apply not_elem_of_empty.
Defined.

Lemma foreign_key_blocks_result_witness :
  ∃ s1 s2,
    ingest_result_after_auth Demo.s 2000000 2000001 "acme"
      (Demo.result "j1" "acme" "beta:c2:run" "lease_aa") = (Ok (mkOutcome true false "INGESTED"), s1) ∧
    ingest_result_after_auth s1 3000000 3000000 "beta" (Demo.result "j2" "beta" "beta:c2:run" "")
      = (Ok (mkOutcome true true "IDEMPOTENT_DUPLICATE"), s2) ∧
    result_store s2 = result_store s1 ∧ job_store s2 = job_store s1.
Proof.
  apply (foreign_key_blocks_result Demo.s 2000000 2000001 "acme"
    (Demo.result "j1" "acme" "beta:c2:run" "lease_aa") Demo.leased).
  - reflexivity.
  - apply Demo.valid.
  - discriminate.
  - apply not_elem_of_empty.
  - reflexivity.
  - reflexivity.
  - reflexivity.
Defined.

Lemma claim_authenticated_witness :
  ∃ job s',
    claim_next_job Demo.float_repr Demo.jwt_decode as_int Demo.s (λ _, 20000000) "bb" "acme" "good" "n1"
      = (Ok (Some job), s') ∧ ev_tenant_id job = "acme" ∧ ev_lease_token job = "lease_bb".
Proof.
  destruct (claim_next_job Demo.float_repr Demo.jwt_decode as_int Demo.s (λ _, 20000000) "bb" "acme"
    "good" "n1") as [[[job|]|e] s'] eqn:E; [|vm_compute in E; discriminate..].
  exists job, s'. split; [reflexivity|].
  destruct (claim_authenticated Demo.float_repr Demo.jwt_decode as_int Demo.s (λ _, 20000000) "bb"
    "acme" "good" "n1" job s' demo_queue_reachable E) as (c & _ & _ & _ & _ & Ht & Hl & _).
  split; [exact Ht|exact Hl].
Defined.

Lemma cost_limit_bounds_charges_witness :
  let charges := [mkCharge 0 "acme" "p" "t" 100; mkCharge 1 "acme" "p" "t" 100;
                  mkCharge 2 "acme" "p" "t" 100] in
  charged Demo.cfg (foldl (λ st ch, (serve Demo.cfg st ch).2) no_costs charges) ("acme", "tenant") = 200 ∧
  charged Demo.cfg (foldl (λ st ch, (serve Demo.cfg st ch).2) no_costs charges) ("acme", "tenant")
    ≤ 150 - 1 + 100.
Proof.
  split; [vm_compute; reflexivity|].
  apply (cost_limit_bounds_charges Demo.cfg 100
    [mkCharge 0 "acme" "p" "t" 100; mkCharge 1 "acme" "p" "t" 100; mkCharge 2 "acme" "p" "t" 100]
    "acme" "p" "t" "tenant" 150 false).
  - lia.
  - repeat constructor; discriminate.
  - reflexivity.
  - lia.
Defined.
