(* ===== verification/SqliteByoc.v ===== *)
(** * The SQLite stores of the BYOC connector

    Models src/tools/byoc/sqlite_store.py: the job queue, the result store and the replay
    guard.  A table is the list of its rows in the order of their rowids: INSERT appends,
    UPDATE rewrites in place, DELETE keeps the order of the rest.  A row of [byoc_jobs]
    is a [JobState] whose envelope holds only the columns of the job ([stored]).  What a
    column stores is read back unchanged: the arguments and outputs are JSON values.

    [shared]: the store was opened on ":memory:" and has one connection for its life;
    otherwise each operation opens a connection of its own, and what it leaves
    uncommitted is rolled back when the connection is dropped.  The tables and indexes
    that [_ensure_schema] creates are the empty lists the stores start with. *)

From S2P Require Import Prelude PyValue ByocJobs ByocResults.

(** ** Tables *)

Section tables.
Context {K V : Type}.
Implicit Types (rows : list (K * V)) (p : K * V → bool).

(** [UPDATE ... SET f WHERE p]: the rows, and how many it changed. *)
Definition update_where p (f : V → V) rows : list (K * V) * Z :=
  ((λ r, if p r then (r.1, f r.2) else r) <$> rows, count_if p rows).

(** [DELETE ... WHERE p] *)
Definition delete_where p rows : list (K * V) * Z :=
  (filter (λ r, p r = false) rows, count_if p rows).
End tables.

(** [LIKE]: "%" is any text, "_" any character, letters match in either case. *)
Fixpoint sql_like (pattern s : string) : bool :=
  match pattern with
  | EmptyString => bool_decide (s = EmptyString)
  | String c rest =>
      if bool_decide (c = Ascii.ascii_of_nat 37) then
        (fix any s :=
           sql_like rest s || match s with String _ s => any s | EmptyString => false end) s
      else
        match s with
        | EmptyString => false
        | String a s =>
            (bool_decide (c = Ascii.ascii_of_nat 95) || bool_decide (ascii_lower a = ascii_lower c))
            && sql_like rest s
        end
  end.

(** ** The job queue *)
Module SQLiteByocJobQueueStore.

(** The columns of a row that come from the job. *)
Definition with_lease (e : ByocToolJobEnvelope) (token : string) (expires attempt : Z)
    : ByocToolJobEnvelope :=
  mkEnvelope (ev_job_id e) (ev_tenant_id e) (ev_run_id e) (ev_call_id e) (ev_tool_name e)
    (ev_arguments e) (ev_timeout_ms e) (ev_correlation_id e) (ev_idempotency_key e)
    token expires attempt (ev_tool_version e) (ev_package_ref e) (ev_entry_file e)
    (ev_entrypoint e) (ev_bundle_hash e) (ev_bundle_signature e) (ev_signature_version e).

Definition stored (e : ByocToolJobEnvelope) : ByocToolJobEnvelope := with_lease e "" 0 0.

(** [changes] is [total_changes] of the shared connection. *)
Record t := mkDb {
  shared : bool;
  rows : list (string * JobState);
  changes : Z;
}.

Definition empty (shared : bool) : t := mkDb shared [] 0.

(** The state after a statement that changed [n] rows. *)
Definition executed (s : t) (r : list (string * JobState) * Z) : t :=
  mkDb (shared s) r.1 (if shared s then changes s + r.2 else 0).

Definition enqueue (s : t) (job : ByocToolJobEnvelope) : t :=
  match od_get (ev_job_id job) (rows s) with
  | Some _ => s
  | None => executed s (rows s ++ [(ev_job_id job, new_state (stored job))], 1)
  end.

Definition expired_row (now : Z) (r : string * JobState) : bool :=
  bool_decide (js_status r.2 = Leased) && (js_expires r.2 <=? now).

Definition dead_letter_row (now : Z) (st : JobState) : JobState :=
  mkState (js_envelope st) DeadLettered "" "" 0 (js_attempt st) 0 0 now
    "BYOC_LEASE_RETRY_EXHAUSTED" (js_replays st).

Definition requeue_row (st : JobState) : JobState :=
  mkState (js_envelope st) Queued "" "" 0 (js_attempt st) 0 0
    (js_dead_at st) (js_dead_reason st) (js_replays st).

(** [_requeue_expired_leases_unlocked]: the count is [conn.total_changes]. *)
Definition requeue_expired_leases (s : t) (now : Z) (max_claim_attempts_before_dlq : option Z)
    : Z * t :=
  let dead_lettered :=
    match max_claim_attempts_before_dlq with
    | Some m =>
        if 0 <? m then
          update_where (λ r, expired_row now r && (m <=? js_attempt r.2)) (dead_letter_row now) (rows s)
        else (rows s, 0)
    | None => (rows s, 0)
    end in
  let s1 := executed s dead_lettered in
  let requeued := update_where (expired_row now) requeue_row (rows s1) in
  let s2 := executed s1 requeued in
  (if shared s then changes s2 else dead_lettered.2 + requeued.2, s2).

(** [SELECT ... WHERE tenant_id = ? AND status = 'queued' ORDER BY rowid ASC LIMIT 1] *)
Definition first_queued (tenant_id : string) (rows : list (string * JobState))
    : option (string * JobState) :=
  head (filter (λ r, js_tenant r.2 = tenant_id ∧ js_status r.2 = Queued) rows).

Definition lease_row (worker_id lease_token : string) (expires attempt : Z) (st : JobState)
    : JobState :=
  mkState (js_envelope st) Leased worker_id lease_token expires attempt (js_completed_at st)
    (js_cancelled_at st) (js_dead_at st) (js_dead_reason st) (js_replays st).

Definition with_id (id : string) (r : string * JobState) : bool := r.1 =?s id.

Definition claim_next (s : t) (now : Z) (tenant_id worker_id : string) (ttl : Z) (token : string)
    : option ByocToolJobEnvelope * t :=
  let '(_, s) := requeue_expired_leases s now None in
  match first_queued tenant_id (rows s) with
  | None => (None, s)
  | Some (id, st) =>
      let lease_token := "lease_" +:+ token in
      let lease_expires := now + Z.max ttl 1 * second in
      let claim_attempt := js_attempt st + 1 in
      (Some (with_lease (js_envelope st) lease_token (int_seconds lease_expires) claim_attempt),
       executed s (update_where (with_id id)
         (lease_row worker_id lease_token lease_expires claim_attempt) (rows s)))
  end.

Definition complete_row (now : Z) (st : JobState) : JobState :=
  mkState (js_envelope st) Completed (js_worker st) (js_token st) (js_expires st) (js_attempt st)
    now 0 (js_dead_at st) (js_dead_reason st) (js_replays st).

Definition complete_claim (s : t) (now : Z) (job_id lease_token : string) : bool * t :=
  match od_get job_id (rows s) with
  | None => (false, s)
  | Some st =>
      if negb (bool_decide (js_status st = Leased)) then (false, s)
      else if js_expires st <=? now then (false, (requeue_expired_leases s now None).2)
      else if negb (js_token st =?s lease_token) then (false, s)
      else (true, executed s (update_where (with_id job_id) (complete_row now) (rows s)))
  end.

Definition get_leased_job (s : t) (now : Z) (job_id lease_token : string)
    : option ByocToolJobEnvelope * t :=
  match od_get job_id (rows s) with
  | None => (None, s)
  | Some st =>
      if negb (bool_decide (js_status st = Leased)) then (None, s)
      else if js_expires st <=? now then (None, (requeue_expired_leases s now None).2)
      else if negb (js_token st =?s lease_token) then (None, s)
      else (Some (with_lease (js_envelope st) (js_token st) (int_seconds (js_expires st))
                    (js_attempt st)), s)
  end.

Definition of_call (call_id : string) (status : job_status) (r : string * JobState) : bool :=
  (ev_call_id (js_envelope r.2) =?s call_id) && bool_decide (js_status r.2 = status).

Definition cancel_row (clock : Z) (st : JobState) : JobState :=
  mkState (js_envelope st) Cancelled (js_worker st) (js_token st) (js_expires st) (js_attempt st)
    (js_completed_at st) clock (js_dead_at st) (js_dead_reason st) (js_replays st).

Definition expire_row (st : JobState) : JobState :=
  mkState (js_envelope st) (js_status st) (js_worker st) (js_token st) 0 (js_attempt st)
    (js_completed_at st) (js_cancelled_at st) (js_dead_at st) (js_dead_reason st) (js_replays st).

(** [clock] and [now]: the two readings of the clock. *)
Definition cancel_pending_call (s : t) (clock now : Z) (call_id : string) : Z * t :=
  let normalized := py_strip call_id in
  if negb (py_bool normalized) then (0, s)
  else
    let cancelled := update_where (of_call normalized Queued) (cancel_row clock) (rows s) in
    let s1 := executed s cancelled in
    let s2 := executed s1 (update_where (of_call normalized Leased) expire_row (rows s1)) in
    (Z.max cancelled.2 0, (requeue_expired_leases s2 now None).2).

Definition queue_depth (s : t) : Z :=
  count_if (λ r, bool_decide (js_status r.2 = Queued)) (rows s).

Definition of_tenant (tenant : string) (status : job_status) (r : string * JobState) : bool :=
  (js_tenant r.2 =?s tenant) && bool_decide (js_status r.2 = status).

Definition dead_letter_count (s : t) (tenant_id : string) : Z :=
  let normalized := py_strip tenant_id in
  if negb (py_bool normalized) then 0 else count_if (of_tenant normalized DeadLettered) (rows s).

(** [ORDER BY dead_lettered_at_epoch DESC, rowid DESC] *)
Definition list_dead_letter_jobs (s : t) (tenant_id : string) (limit : Z)
    : list (list (string * string)) :=
  let normalized := py_strip tenant_id in
  if negb (py_bool normalized) then []
  else
    let dead := filter (λ r, of_tenant normalized DeadLettered r = true) (rows s) in
    InMemoryByocJobQueueStore.dead_row
      <$> take (Z.to_nat (Z.max 1 limit))
            (sort_by InMemoryByocJobQueueStore.newer_dead (reverse dead)).

Definition replay_row (st : JobState) : JobState :=
  mkState (js_envelope st) Queued "" "" 0 (js_attempt st) (js_completed_at st)
    (js_cancelled_at st) 0 "" (js_replays st + 1).

(** [WHERE tenant_id = ? AND job_id = ?] *)
Definition of_tenant_id (tenant job : string) (r : string * JobState) : bool :=
  with_id job r && (js_tenant r.2 =?s tenant).

Definition replay_dead_letter_job (s : t) (tenant_id job_id : string) : bool * t :=
  let tenant := py_strip tenant_id in
  let job := py_strip job_id in
  if negb (py_bool tenant) || negb (py_bool job) then (false, s)
  else
    match head (filter (λ r, of_tenant_id tenant job r = true) (rows s)) with
    | None => (false, s)
    | Some (_, st) =>
        if negb (bool_decide (js_status st = DeadLettered)) then (false, s)
        else (true, executed s (update_where (of_tenant_id tenant job) replay_row (rows s)))
    end.

Definition health_metrics (s : t) (tenant_id : string) : list (string * Z) :=
  let normalized := py_strip tenant_id in
  if negb (py_bool normalized) then
    [("queued_jobs", 0); ("leased_jobs", 0); ("completed_jobs", 0); ("cancelled_jobs", 0)]
  else
    let count status := count_if (of_tenant normalized status) (rows s) in
    [("queued_jobs", count Queued); ("leased_jobs", count Leased);
     ("completed_jobs", count Completed); ("cancelled_jobs", count Cancelled);
     ("dead_lettered_jobs", count DeadLettered)].

(** The tenant's rows whose time is set and not after the cutoff. *)
Definition old_row (tenant : string) (status : job_status) (time : JobState → Z) (cutoff : Z)
    (r : string * JobState) : bool :=
  of_tenant tenant status r && (0 <? time r.2) && (time r.2 <=? cutoff).

(** The first [len(rows) - max_records] of the tenant's rows by time, when positive. *)
Definition overflow (tenant : string) (status : job_status) (time : JobState → Z)
    (max_records : Z) (rows : list (string * JobState)) : list (string * JobState) :=
  let found := filter (λ r, of_tenant tenant status r = true) rows in
  let overflow := Z.max 0 (Z.of_nat (length found) - Z.max max_records 0) in
  take (Z.to_nat overflow) (sort_by (by_key (λ r : string * JobState, time r.2)) found).

(** The loop of [DELETE ... WHERE job_id = ?] *)
Definition delete_ids (s : t) (ids : list string) : t :=
  foldl (λ s id, executed s (delete_where (with_id id) (rows s))) s ids.

Definition cleanup_retention (s : t) (now : Z) (tenant_id : string)
    (completed_ttl cancelled_ttl max_completed max_cancelled : Z) : (Z * Z) * t :=
  let tenant := py_strip tenant_id in
  if negb (py_bool tenant) then ((0, 0), s)
  else
    let completed_cutoff := now - Z.max completed_ttl 1 * second in
    let cancelled_cutoff := now - Z.max cancelled_ttl 1 * second in
    let old_completed :=
      delete_where (old_row tenant Completed js_completed_at completed_cutoff) (rows s) in
    let s1 := executed s old_completed in
    let old_cancelled :=
      delete_where (old_row tenant Cancelled js_cancelled_at cancelled_cutoff) (rows s1) in
    let s2 := executed s1 old_cancelled in
    let completed_rows := overflow tenant Completed js_completed_at max_completed (rows s2) in
    let cancelled_rows := overflow tenant Cancelled js_cancelled_at max_cancelled (rows s2) in
    ((old_completed.2 + Z.of_nat (length completed_rows),
      old_cancelled.2 + Z.of_nat (length cancelled_rows)),
     delete_ids (delete_ids s2 completed_rows.*1) cancelled_rows.*1).

End SQLiteByocJobQueueStore.

(** ** The result store *)
Module SQLiteByocResultStore.

Record payload_row := mkPayload {
  pr_tenant_id : string;
  pr_payload : ByocToolResultEnvelope;
  pr_created_at : Z;
}.

Record key_row := mkKey {
  kr_tenant_id : string;
  kr_job_id : string;
  kr_created_at : Z;
}.

(** tenant, strategy, tool name, tool version, reason code *)
Notation conflict_id := (string * string * string * string * string)%type.

Record t := mkDb {
  shared : bool;
  strategy : conflict_strategy;
  idempotency : list (string * key_row);
  payloads : list (string * payload_row);
  conflicts : list (conflict_id * Z);
}.

Definition init (shared : bool) (strategy : conflict_strategy) : t := mkDb shared strategy [] [] [].

(** [_record_conflict]; the upsert keeps the row of a known conflict. *)
Definition conflict_of (s : t) (r : ByocToolResultEnvelope) (reason_code : string) : conflict_id :=
  (py_or (py_strip (rs_tenant_id r)) "default", strategy_value (strategy s),
   py_or (py_strip (rs_tool_name r)) "unknown_tool", py_strip (rs_tool_version r),
   py_or (py_strip reason_code) "BYOC_RESULT_CONFLICT_UNKNOWN").

Definition record_conflict (s : t) (r : ByocToolResultEnvelope) (reason_code : string) : t :=
  let id := conflict_of s r reason_code in
  mkDb (shared s) (strategy s) (idempotency s) (payloads s)
    (od_set id (od_get_default 0 id (conflicts s) + 1) (conflicts s)).

Definition insert_result (s : t) (now : Z) (key : string) (r : ByocToolResultEnvelope) : t :=
  mkDb (shared s) (strategy s)
    (idempotency s ++ [(key, mkKey (rs_tenant_id r) (rs_job_id r) now)])
    (od_set (rs_job_id r) (mkPayload (rs_tenant_id r) r now) (payloads s))
    (conflicts s).

(** What is left of [s'] when the operation that began in [s] returns without a commit:
    only the shared connection keeps it. *)
Definition uncommitted (s s' : t) : t := if shared s then s' else s.

Definition ingest (s : t) (now : Z) (r : ByocToolResultEnvelope) : ByocResultIngestOutcome * t :=
  let key := py_strip (rs_idempotency_key r) in
  if negb (py_bool key) then (mkOutcome false false "IDEMPOTENCY_KEY_REQUIRED", s)
  else
    let existing := od_get (rs_job_id r) (payloads s) in
    let conflicting :=
      match existing with
      | Some row =>
          if py_strip (rs_idempotency_key (pr_payload row)) =?s key then None
          else Some (pr_payload row)
      | None => None
      end in
    let rejected :=
      match conflicting with
      | Some old => negb (resolve_result_conflict old r (strategy s))
      | None => false
      end in
    if rejected then
      (mkOutcome false false "BYOC_RESULT_CONFLICT_REJECTED",
       uncommitted s (record_conflict s r "BYOC_RESULT_CONFLICT_REJECTED"))
    else
      let s1 :=
        match conflicting with
        | Some _ => record_conflict s r "BYOC_RESULT_CONFLICT_REPLACED"
        | None => s
        end in
      match od_get key (idempotency s1) with
      | Some _ => (mkOutcome true true "IDEMPOTENT_DUPLICATE", uncommitted s s1)
      | None =>
          (mkOutcome true false
             match existing with
             | Some _ => "BYOC_RESULT_CONFLICT_REPLACED"
             | None => "INGESTED"
             end,
           insert_result s1 now key r)
      end.

Definition consume (s : t) (job_id : string) : option ByocToolResultEnvelope * t :=
  let normalized := py_strip job_id in
  if negb (py_bool normalized) then (None, s)
  else
    match od_get normalized (payloads s) with
    | None => (None, s)
    | Some row =>
        (Some (pr_payload row),
         mkDb (shared s) (strategy s) (idempotency s)
           (delete_where (λ p, p.1 =?s normalized) (payloads s)).1 (conflicts s))
    end.

Definition has_idempotency_key (s : t) (key : string) : bool :=
  let normalized := py_strip key in
  py_bool normalized && od_mem normalized (idempotency s).

Definition health_metrics (s : t) (tenant_id : string) : list (string * Z) :=
  let normalized := py_strip tenant_id in
  if negb (py_bool normalized) then [("pending_result_payloads", 0); ("idempotency_keys_total", 0)]
  else
    [("pending_result_payloads",
      count_if (λ p : string * payload_row, pr_tenant_id p.2 =?s normalized) (payloads s));
     ("idempotency_keys_total",
      count_if (λ p : string * key_row, kr_tenant_id p.2 =?s normalized) (idempotency s))].

Definition cleanup_retention (s : t) (now : Z) (tenant_id : string)
    (result_ttl idempotency_ttl max_result_records : Z) : (Z * Z) * t :=
  let tenant := py_strip tenant_id in
  if negb (py_bool tenant) then ((0, 0), s)
  else
    let result_cutoff := now - Z.max result_ttl 1 * second in
    let idempotency_cutoff := now - Z.max idempotency_ttl 1 * second in
    let '(payloads', pruned) := delete_where (λ p : string * payload_row,
      (pr_tenant_id p.2 =?s tenant) && (pr_created_at p.2 <=? result_cutoff)) (payloads s) in
    let '(idempotency', keys_pruned) := delete_where (λ p : string * key_row,
      (kr_tenant_id p.2 =?s tenant) && (kr_created_at p.2 <=? idempotency_cutoff)) (idempotency s) in
    let found := filter (λ p, pr_tenant_id p.2 = tenant) payloads' in
    let overflow := Z.max 0 (Z.of_nat (length found) - Z.max max_result_records 0) in
    let over := take (Z.to_nat overflow)
      (sort_by (by_key (λ p : string * payload_row, pr_created_at p.2)) found) in
    ((pruned + Z.of_nat (length over), keys_pruned),
     mkDb (shared s) (strategy s) idempotency' (od_pop_all over.*1 payloads') (conflicts s)).

Definition conflict_strategy_name (s : t) : string := strategy_value (strategy s).

(** [ORDER BY count DESC, reason_code ASC, tool_name ASC, tool_version ASC] *)
Definition conflict_order (p q : conflict_id * Z) : Prop :=
  let '((_, _, name, version, reason), count) := p in
  let '((_, _, name', version', reason'), count') := q in
  lex_le (λ a b : Z, b ≤ a) (lex_le String.le (lex_le String.le String.le))
    (count, (reason, (name, version))) (count', (reason', (name', version'))).

#[export] Instance conflict_order_dec : RelDecision conflict_order.
Proof. intros [[[[[]]]] ?] [[[[[]]]] ?]. unfold conflict_order. apply _. Defined.

Definition list_conflict_counts (s : t) (tenant_id : string) : list ByocConflictCountRecord :=
  let normalized := py_strip tenant_id in
  if negb (py_bool normalized) then []
  else
    (λ p : conflict_id * Z,
       let '((_, strategy, name, version, reason), count) := p in
       mkConflict strategy name version reason count)
    <$> sort_by conflict_order
          (filter (λ p : conflict_id * Z, p.1.1.1.1.1 = normalized) (conflicts s)).

End SQLiteByocResultStore.

(** ** The replay guard: rows of [guard_key] and [expires_at_epoch] *)
Module SQLiteReplayGuard.

Notation t := (list (string * Z)).

Definition expired_key (now : Z) (p : string * Z) : bool := p.2 <=? now.

Definition mark_once (s : t) (now : Z) (key : string) (ttl_seconds : Z) : bool * t :=
  let normalized := py_strip key in
  if negb (py_bool normalized) then (false, s)
  else
    let ttl := Z.max ttl_seconds 1 in
    let s := (delete_where (expired_key now) s).1 in
    match od_get normalized s with
    | Some _ => (false, s)
    | None => (true, s ++ [(normalized, now + ttl * second)])
    end.

Definition like_tenant (tenant : string) (p : string * Z) : bool :=
  sql_like (tenant +:+ ":%") p.1.

Definition health_metrics (s : t) (now : Z) (tenant_id : string) : list (string * Z) * t :=
  let normalized := py_strip tenant_id in
  if negb (py_bool normalized) then ([("replay_keys_active", 0)], s)
  else
    let s := (delete_where (expired_key now) s).1 in
    ([("replay_keys_active", count_if (like_tenant normalized) s)], s).

Definition cleanup_retention (s : t) (now : Z) (tenant_id : string) : Z * t :=
  let normalized := py_strip tenant_id in
  if negb (py_bool normalized) then (0, s)
  else
    let '(s, pruned) :=
      delete_where (λ p, like_tenant normalized p && expired_key now p) s in
    (Z.max pruned 0, s).

End SQLiteReplayGuard.
