(* ===== verification/SqliteByocFacts.v ===== *)
(** * Properties of the SQLite stores of the BYOC connector

    Each operation of the SQLite queue does to the jobs what the in-memory queue does to
    the same jobs held in rowid order ([memory]); the job machine and the single
    completion of a claim follow.  The SQLite result store and replay guard against the
    in-memory ones. *)

From S2P Require Import Prelude PyValue ByocJobs ByocFacts ByocResults SqliteByoc.

(** ** Statements on rows *)

Section tables.
Context {V : Type}.
Implicit Types m : list (string * V).

Lemma update_where_map (p : string * V → bool) f m :
  (update_where p f m).1 = od_map (λ k v, if p (k, v) then f v else v) m.
Proof.
  unfold update_where, od_map. apply list_fmap_ext. intros i [k v] _. cbn. by destruct (p (k, v)).
Qed.

Lemma update_where_id (p : string * V → bool) f m k v :
  od_wf m → od_get k m = Some v → (∀ r, r ∈ m → p r = true ↔ r.1 = k) →
  (update_where p f m).1 = od_set k (f v) m.
Proof.
  intros Hwf Hk Hp. apply (od_elem_of_get _ _ _ Hwf) in Hk. unfold update_where; cbn [fst].
  induction m as [|[k' v'] m IH]; [by apply elem_of_nil in Hk|].
  apply NoDup_cons in Hwf as [Hni Hwf]. cbn [fmap list_fmap od_set].
  assert (∀ r, r ∈ m → p r = true ↔ r.1 = k) as Hp' by (intros r Hr; apply Hp; by right).
  assert (p (k', v') = true ↔ k' = k) as Hh by (apply Hp; left).
  case_decide as E.
  - subst k'. rewrite (proj2 Hh eq_refl). apply elem_of_cons in Hk as [[= <-]|Hk].
    2:{ destruct Hni. apply list_elem_of_fmap. by exists (k, v). }
    cbn. f_equal. transitivity (id <$> m); [|apply list_fmap_id].
    apply list_fmap_ext. intros i [k1 v1] Hi. apply list_elem_of_lookup_2 in Hi.
    destruct (p (k1, v1)) eqn:E1; [|done]. apply (Hp' _ Hi) in E1. cbn in E1. subst k1.
    destruct Hni. apply list_elem_of_fmap. by exists (k, v1).
  - destruct (p (k', v')) eqn:E1; [by destruct E; symmetry; apply Hh|]. f_equal.
    apply elem_of_cons in Hk as [[= -> ->]|Hk]; [done|]. by apply IH.
Qed.

Lemma od_map_ext (f g : string → V → V) m :
  (∀ k v, (k, v) ∈ m → f k v = g k v) → od_map f m = od_map g m.
Proof.
  intros H. apply list_fmap_ext. intros i [k v] Hi%list_elem_of_lookup_2. cbn. by rewrite H.
Qed.

Lemma od_map_compose {W X} (f : V → W) (g : W → X) m :
  od_map (λ _, g) (od_map (λ _, f) m) = od_map (λ _ v, g (f v)) m.
Proof. unfold od_map. rewrite <- list_fmap_compose. by apply list_fmap_ext. Qed.

Lemma od_map_same (f : V → V) m : (∀ k v, (k, v) ∈ m → f v = v) → od_map (λ _, f) m = m.
Proof.
  intros H. transitivity (id <$> m); [|apply list_fmap_id].
  apply list_fmap_ext. intros i [k v] Hi%list_elem_of_lookup_2. cbn. by rewrite (H k v).
Qed.
End tables.

(** The first element of a list with a property. *)
Lemma head_filter_Some {A} (P : A → Prop) `{!∀ x, Decision (P x)} (l : list A) x :
  head (filter P l) = Some x →
  ∃ before after, l = before ++ x :: after ∧ P x ∧ ∀ y, y ∈ before → ¬ P y.
Proof.
  induction l as [|y l IH]; [done|]. rewrite filter_cons. case_decide as Hy.
  - intros [= <-]. exists [], l. split_and!; [done|done|]. by intros y' ?%elem_of_nil.
  - intros (l1 & l2 & -> & Hx & Hl1)%IH. exists (y :: l1), l2. split_and!; [done|done|].
    intros y' [->|Hin]%elem_of_cons; [done|by apply Hl1].
Qed.

Lemma head_filter_None {A} (P : A → Prop) `{!∀ x, Decision (P x)} (l : list A) :
  head (filter P l) = None → ∀ x, x ∈ l → ¬ P x.
Proof.
  intros Hh x Hx Hp. assert (x ∈ filter P l) as Hin by (by apply list_elem_of_filter).
  destruct (filter P l); [by apply elem_of_nil in Hin|done].
Qed.

(** ** The job queue *)

Module Queue.
Module Mem := InMemoryByocJobQueueStore.
Import SQLiteByocJobQueueStore.

(** A row and the state of the in-memory queue for the same job: the envelope of a state
    shows the lease. *)
Definition loaded (st : JobState) : JobState :=
  mkState (with_lease (js_envelope st) (js_token st) (int_seconds (js_expires st)) (js_attempt st))
    (js_status st) (js_worker st) (js_token st) (js_expires st) (js_attempt st)
    (js_completed_at st) (js_cancelled_at st) (js_dead_at st) (js_dead_reason st) (js_replays st).

Definition row_of (st : JobState) : JobState :=
  mkState (stored (js_envelope st))
    (js_status st) (js_worker st) (js_token st) (js_expires st) (js_attempt st)
    (js_completed_at st) (js_cancelled_at st) (js_dead_at st) (js_dead_reason st) (js_replays st).

(** Every tenant's jobs in rowid order. *)
Definition queues (rows : list (string * JobState)) : gmap string (list string) :=
  foldl (λ q r, Mem.push (js_tenant r.2) r.1 q) ∅ rows.

(** The in-memory queue of the same jobs. *)
Definition memory (s : t) : Mem.t :=
  Mem.mkStore (od_map (λ _, loaded) (rows s)) (queues (rows s)).

Inductive command :=
| QEnqueue (job : ByocToolJobEnvelope)
| QClaim (now : Z) (tenant worker : string) (ttl : Z) (token : string)
| QComplete (now : Z) (job_id token : string)
| QGetLeased (now : Z) (job_id token : string)
| QRequeue (now : Z) (max_attempts : option Z)
| QCancel (clock now : Z) (call_id : string)
| QReplay (tenant job_id : string)
| QCleanup (now : Z) (tenant : string) (completed_ttl cancelled_ttl max_completed max_cancelled : Z).

Inductive answer :=
| Nothing
| Flag (b : bool)
| Envelope (e : option ByocToolJobEnvelope)
| Count (n : Z)
| Counts (n : Z * Z).

(** What a command answers and leaves.  An enqueue answers nothing. *)
Definition run_command (s : t) (c : command) : answer * t :=
  match c with
  | QEnqueue job => (Nothing, enqueue s job)
  | QClaim now tenant worker ttl token =>
      let '(e, s) := claim_next s now tenant worker ttl token in (Envelope e, s)
  | QComplete now id token => let '(b, s) := complete_claim s now id token in (Flag b, s)
  | QGetLeased now id token => let '(e, s) := get_leased_job s now id token in (Envelope e, s)
  | QRequeue now mx => let '(n, s) := requeue_expired_leases s now mx in (Count n, s)
  | QCancel clock now call => let '(n, s) := cancel_pending_call s clock now call in (Count n, s)
  | QReplay tenant id => let '(b, s) := replay_dead_letter_job s tenant id in (Flag b, s)
  | QCleanup now tenant a b c d =>
      let '(n, s) := cleanup_retention s now tenant a b c d in (Counts n, s)
  end.

Definition memory_command (m : Mem.t) (c : command) : answer * Mem.t :=
  match c with
  | QEnqueue job => (Nothing, Mem.enqueue m job)
  | QClaim now tenant worker ttl token =>
      let '(id, m) := Mem.claim_next m now tenant worker ttl token in
      (Envelope (id ≫= Mem.claim_envelope m), m)
  | QComplete now id token => let '(b, m) := Mem.complete_claim m now id token in (Flag b, m)
  | QGetLeased now id token => let '(e, m) := Mem.get_leased_job m now id token in (Envelope e, m)
  | QRequeue now mx => let '(n, m) := Mem.requeue_expired_leases m now mx in (Count n, m)
  | QCancel clock now call =>
      let '(n, m) := Mem.cancel_pending_call m (λ _, clock) now call in (Count n, m)
  | QReplay tenant id => let '(b, m) := Mem.replay_dead_letter_job m tenant id in (Flag b, m)
  | QCleanup now tenant a b c d =>
      let '(n, m) := Mem.cleanup_retention m now tenant a b c d in (Counts n, m)
  end.

(** The commands that only read *)
Inductive query :=
| QDepth
| QDeadCount (tenant : string)
| QDeadList (tenant : string) (limit : Z)
| QHealth (tenant : string).

Inductive reply :=
| Number (n : Z)
| Rows (l : list (list (string * string)))
| Metrics (l : list (string * Z)).

Definition ask (s : t) (q : query) : reply :=
  match q with
  | QDepth => Number (queue_depth s)
  | QDeadCount tenant => Number (dead_letter_count s tenant)
  | QDeadList tenant limit => Rows (list_dead_letter_jobs s tenant limit)
  | QHealth tenant => Metrics (health_metrics s tenant)
  end.

Definition ask_memory (m : Mem.t) (q : query) : reply :=
  match q with
  | QDepth => Number (Mem.queue_depth m)
  | QDeadCount tenant => Number (Mem.dead_letter_count m tenant)
  | QDeadList tenant limit => Rows (Mem.list_dead_letter_jobs m tenant limit)
  | QHealth tenant => Metrics (Mem.health_metrics m tenant)
  end.

(** The jobs whose expired lease goes back to the queue, and those that are dead-lettered *)
Definition requeues (now : Z) (mx : option Z) (s : t) : Z :=
  count_if (λ r, Mem.expired now r.2 && negb (Mem.exhausted mx r.2)) (rows s).
Definition dead_letters (now : Z) (mx : option Z) (s : t) : Z :=
  count_if (λ r, Mem.expired now r.2 && Mem.exhausted mx r.2) (rows s).

(** The answers [a] of the durable queue, which is [s'] afterwards, and [a'] of the in-memory one: they are
    the same, but the durable queue counts the dead-lettered jobs as requeued too, and on the shared connection
    of a ":memory:" database every change that was ever made on it. *)
Definition answers_agree (s : t) (c : command) (a : answer) (s' : t) (a' : answer) : Prop :=
  match c with
  | QRequeue now mx =>
      a' = Count (requeues now mx s) ∧
      a = Count (if shared s then changes s' else requeues now mx s + dead_letters now mx s)
  | _ => a = a'
  end.

Definition dead_jobs (s : t) (tenant : string) : list (string * JobState) :=
  filter (λ r, of_tenant tenant DeadLettered r = true) (rows s).

(** For a tenant with a name the replies are the same, up to the order of jobs that were dead-lettered at the
    same instant.  For a blank name the durable queue replies that there is nothing. *)
Definition replies_agree (s : t) (q : query) (a a' : reply) : Prop :=
  match q with
  | QDepth => a = a'
  | QDeadCount tenant => if decide (py_strip tenant = "") then a = Number 0 else a = a'
  | QHealth tenant =>
      if decide (py_strip tenant = "") then
        a = Metrics [("queued_jobs", 0); ("leased_jobs", 0); ("completed_jobs", 0); ("cancelled_jobs", 0)]
      else a = a'
  | QDeadList tenant limit =>
      if decide (py_strip tenant = "") then a = Rows []
      else ∃ l l', a = Rows l ∧ a' = Rows l' ∧
        shows_first Mem.newer_dead Mem.dead_row (Z.to_nat (Z.max 1 limit)) (dead_jobs s (py_strip tenant)) l ∧
        shows_first Mem.newer_dead Mem.dead_row (Z.to_nat (Z.max 1 limit)) (dead_jobs s (py_strip tenant)) l'
  end.

Inductive reachable : t → Prop :=
| reach_empty shared : reachable (empty shared)
| reach_step s c : reachable s → reachable (run_command s c).2.

(** *** The invariant *)

(** Only a completed job has a completion time, only a cancelled one a cancellation time;
    the row keeps nothing of a lease in the job's columns. *)
Record row_wf (id : string) (st : JobState) : Prop := {
  rw_id : ev_job_id (js_envelope st) = id;
  rw_stored : stored (js_envelope st) = js_envelope st;
  rw_completed : js_status st ≠ Completed → js_completed_at st = 0;
  rw_cancelled : js_status st ≠ Cancelled → js_cancelled_at st = 0;
}.

Record wf (s : t) : Prop := {
  wf_rows : od_wf (rows s);
  wf_row : ∀ id st, (id, st) ∈ rows s → row_wf id st;
}.

Lemma rows_wf_empty shared : wf (empty shared).
Proof. split; [apply NoDup_nil_2|]. by intros id st ?%elem_of_nil. Qed.

Lemma wf_get s id st : wf s → od_get id (rows s) = Some st → row_wf id st.
Proof. intros Hwf Hg. apply Hwf. by apply od_get_elem. Qed.

Lemma row_loaded id st : row_wf id st → row_of (loaded st) = st.
Proof. intros [_ E _ _]. unfold row_of, loaded; cbn. destruct st; cbn in *. by rewrite <- E at 2. Qed.

Lemma rows_loaded s : wf s → od_map (λ _, row_of) (Mem.states (memory s)) = rows s.
Proof.
  intros Hwf. unfold memory; cbn [Mem.states]. rewrite od_map_compose. apply od_map_same.
  intros k v Hin. eapply row_loaded, Hwf, Hin.
Qed.

Lemma wf_map s rows' f :
  wf s → rows' = od_map f (rows s) → (∀ id st, row_wf id st → row_wf id (f id st)) →
  ∀ c, wf (mkDb (shared s) rows' c).
Proof.
  intros Hwf -> Hf c. split; cbn.
  - unfold od_wf. rewrite od_map_keys. apply Hwf.
  - intros id st ([k v] & [= -> ->] & Hin)%list_elem_of_fmap. by apply Hf, Hwf.
Qed.

(** *** Requeueing *)

Definition requeued_row (now : Z) (mx : option Z) (st : JobState) : JobState :=
  if Mem.expired now st then
    if Mem.exhausted mx st then dead_letter_row now st else requeue_row st
  else st.

Lemma requeue_rows s now mx :
  rows (requeue_expired_leases s now mx).2 = od_map (λ _, requeued_row now mx) (rows s) ∧
  shared (requeue_expired_leases s now mx).2 = shared s.
Proof.
  split; [|done]. unfold requeue_expired_leases, executed; cbn [snd rows].
  rewrite update_where_map. unfold requeued_row.
  assert (∀ k st, expired_row now (k, st) = Mem.expired now st) as Hx by done.
  destruct mx as [m|]; [destruct (Z.ltb_spec 0 m) as [Hm|Hm]|]; cbn [fst].
  - rewrite update_where_map. unfold od_map. rewrite <- list_fmap_compose. apply list_fmap_ext.
    intros i [k st] _. unfold Mem.exhausted. apply Z.ltb_lt in Hm. rewrite Hm. cbn [fst snd compose].
    rewrite !Hx. destruct (Mem.expired now st) eqn:E; cbn [andb]; [|by rewrite E].
    destruct (m <=? js_attempt st); [done|by rewrite E].
  - apply od_map_ext. intros k st _. rewrite Hx. cbn.
    destruct (Z.ltb_spec 0 m); [lia|]. done.
  - apply od_map_ext. intros k st _. by rewrite Hx.
Qed.

Lemma requeued_row_wf now mx id st : row_wf id st → row_wf id (requeued_row now mx st).
Proof.
  intros [H1 H2 H3 H4]. unfold requeued_row.
  destruct (Mem.expired now st), (Mem.exhausted mx st); by split.
Qed.

Lemma rows_wf_requeue s now mx : wf s → wf (requeue_expired_leases s now mx).2.
Proof.
  intros Hwf. destruct (requeue_rows s now mx) as [E _].
  destruct (requeue_expired_leases s now mx).2 as [sh r c] eqn:Es. cbn in E.
  assert (sh = shared s) as -> by (by injection Es).
  eapply wf_map; [done|exact E|]. intros id st. apply requeued_row_wf.
Qed.

(** The expired jobs of an in-memory queue with the same jobs end in the same rows. *)
Lemma requeued_row_of now mx id st :
  row_wf id (row_of st) → row_of (requeued now mx st) = requeued_row now mx (row_of st).
Proof.
  intros [_ _ H3 H4]. unfold requeued, requeued_row.
  change (Mem.expired now (row_of st)) with (Mem.expired now st).
  change (Mem.exhausted mx (row_of st)) with (Mem.exhausted mx st).
  destruct (Mem.expired now st) eqn:Ex; [|done]. apply expired_true in Ex as [Hl _].
  cbn in H3, H4. rewrite Hl in H3, H4.
  destruct (Mem.exhausted mx st); unfold row_of, dead_letter_row, requeue_row; cbn;
    by rewrite H3, H4.
Qed.

Lemma same_requeue m s now mx :
  wf s → od_map (λ _, row_of) (Mem.states m) = rows s →
  od_map (λ _, row_of) (Mem.states (Mem.requeue_unlocked m now mx).1) =
  rows (requeue_expired_leases s now mx).2.
Proof.
  intros Hwf Hm. destruct (requeue_rows s now mx) as [-> _].
  destruct (requeue_unlocked_spec m now mx) as [-> _]. rewrite <- Hm, !od_map_compose.
  apply od_map_ext. intros id st Hin. eapply requeued_row_of, Hwf. rewrite <- Hm.
  apply list_elem_of_fmap. by exists (id, st).
Qed.

Lemma memory_requeue s now mx :
  wf s →
  od_map (λ _, row_of) (Mem.states (Mem.requeue_unlocked (memory s) now mx).1) =
  rows (requeue_expired_leases s now mx).2.
Proof. intros Hwf. apply same_requeue; [done|by apply rows_loaded]. Qed.

(** *** The commands, one by one *)

Definition refined (s : t) (c : command) : Prop :=
  answers_agree s c (run_command s c).1 (run_command s c).2 (memory_command (memory s) c).1 ∧
  rows (run_command s c).2 = od_map (λ _, row_of) (Mem.states (memory_command (memory s) c).2).

Lemma memory_get s id : od_get id (Mem.states (memory s)) = loaded <$> od_get id (rows s).
Proof. apply (od_get_map (λ _, loaded)). Qed.

Lemma wf_set s id st c :
  wf s → row_wf id st → ∀ rows', rows' = od_set id st (rows s) → wf (mkDb (shared s) rows' c).
Proof.
  intros Hwf Hst ? ->. split; cbn; [by apply od_wf_set, Hwf|].
  intros id' st' Hin%od_elem_of_get; [|by apply od_wf_set, Hwf].
  destruct (decide (id' = id)) as [->|Hne].
  - rewrite od_get_set in Hin. by injection Hin as <-.
  - rewrite od_get_set_ne in Hin by done. by eapply wf_get.
Qed.

Lemma enqueue_refined s job : wf s → refined s (QEnqueue job) ∧ wf (enqueue s job).
Proof.
  intros Hwf. unfold refined; cbn [run_command memory_command fst snd]. unfold enqueue, Mem.enqueue.
  rewrite memory_get. destruct (od_get (ev_job_id job) (rows s)) as [st|] eqn:E; cbn [fmap option_fmap option_map].
  { split; [split; [done|]|done]. symmetry. by apply rows_loaded. }
  rewrite <- od_set_fresh by done. split.
  - split; [done|]. cbn [Mem.states executed rows fst]. rewrite od_map_set. by rewrite rows_loaded.
  - unfold executed. cbn [fst]. eapply wf_set; [done| |done]. by split.
Qed.

(** A store on a file answers with the jobs it requeued or dead-lettered; a store on
    ":memory:" with all the changes its connection ever made. *)
Lemma sqlite_requeue_count s now mx :
  let '(n, s') := requeue_expired_leases s now mx in
  n = if shared s then changes s' else requeues now mx s + dead_letters now mx s.
Proof.
  unfold requeue_expired_leases. destruct (shared s) eqn:Es; cbn; [by rewrite Es|].
  assert (∀ r, expired_row now r = Mem.expired now r.2) as Hx by done. unfold requeues, dead_letters.
  assert (∀ mx, (∀ st, Mem.exhausted mx st = false) →
    0 + count_if (expired_row now) (rows s) =
    count_if (λ r, Mem.expired now r.2 && negb (Mem.exhausted mx r.2)) (rows s) +
    count_if (λ r, Mem.expired now r.2 && Mem.exhausted mx r.2) (rows s)) as Hnone.
  { intros mx' Hm. clear Es. induction (rows s) as [|[id st] l IH]; [done|]. rewrite !count_if_cons, !Hm, !Hx. cbn [snd].
    destruct (Mem.expired now st); cbn [andb negb]; lia. }
  destruct mx as [m|]; [destruct (Z.ltb_spec 0 m) as [Hm|Hm]|]; cbn [fst snd].
  - clear Es Hnone. induction (rows s) as [|[id st] l IH]; [done|].
    cbn [update_where fst fmap list_fmap snd] in *. rewrite !count_if_cons, Hx. cbn [snd Mem.exhausted] in *.
    rewrite (proj2 (Z.ltb_lt _ _) Hm) in *. cbn [andb] in *.
    destruct (Mem.expired now st) eqn:Ee; cbn [andb]; [destruct (m <=? js_attempt st)|].
    + change (expired_row now (id, dead_letter_row now st)) with false. cbn [negb]. cbv match. lia.
    + rewrite Hx. cbn [snd]. rewrite Ee. cbn [negb]. cbv match. lia.
    + rewrite Hx. cbn [snd]. rewrite Ee. cbv match. lia.
  - apply Hnone. intros st. cbn. by destruct (Z.ltb_spec 0 m); [lia|].
  - by apply Hnone.
Qed.

(** The in-memory store answers with the jobs it requeued. *)
Lemma memory_requeue_count s now mx :
  (Mem.requeue_expired_leases (memory s) now mx).1 = requeues now mx s.
Proof.
  unfold Mem.requeue_expired_leases, Mem.requeue_unlocked, requeues, memory. cbn [Mem.states Mem.tenant_queue].
  generalize (queues (rows s)) as q. induction (rows s) as [|[id st] l IH]; intros q; [done|].
  unfold od_map in *. cbn [fmap list_fmap Mem.requeue_loop fst snd]. rewrite count_if_cons. cbn [snd].
  change (Mem.expired now (loaded st)) with (Mem.expired now st).
  change (Mem.exhausted mx (loaded st)) with (Mem.exhausted mx st).
  destruct (Mem.expired now st); [destruct (Mem.exhausted mx st)|]; cbn [andb negb].
  - specialize (IH q). by destruct (Mem.requeue_loop _ _ _ _) as [[? ?] ?].
  - specialize (IH (Mem.push (js_tenant (loaded st)) id q)).
    destruct (Mem.requeue_loop _ _ _ _) as [[? ?] ?]. cbn in *. lia.
  - specialize (IH q). by destruct (Mem.requeue_loop _ _ _ _) as [[? ?] ?].
Qed.

Lemma requeue_refined s now mx : wf s → refined s (QRequeue now mx).
Proof.
  intros Hwf. unfold refined; cbn [run_command memory_command answers_agree].
  pose proof (sqlite_requeue_count s now mx) as Hn. pose proof (memory_requeue_count s now mx) as Hn'.
  pose proof (memory_requeue s now mx Hwf) as Hm. unfold Mem.requeue_expired_leases in *.
  destruct (requeue_expired_leases s now mx), (Mem.requeue_unlocked (memory s) now mx).
  cbn in *. by rewrite Hn, Hn', Hm.
Qed.

(** *** The queries *)

Lemma of_tenant_loaded tenant status (r : string * JobState) :
  Mem.has_status tenant status (loaded r.2) = of_tenant tenant status r.
Proof. done. Qed.

Lemma count_loaded (f : JobState → bool) (g : string * JobState → bool) s :
  (∀ r, f (loaded r.2) = g r) → count_if f (od_values (Mem.states (memory s))) = count_if g (rows s).
Proof.
  intros Hfg. unfold memory; cbn [Mem.states]. induction (rows s) as [|r l IH]; [done|].
  change (od_values (od_map (λ _, loaded) (r :: l))) with (loaded r.2 :: od_values (od_map (λ _, loaded) l)).
  by rewrite !count_if_cons, IH, Hfg.
Qed.

#[local] Instance newer_dead_trans : Transitive Mem.newer_dead.
Proof. intros x y z. unfold Mem.newer_dead. lia. Qed.

#[local] Instance newer_dead_total : Total Mem.newer_dead.
Proof. intros x y. unfold Mem.newer_dead. lia. Qed.

Lemma dead_listing s tenant limit :
  py_strip tenant ≠ "" →
  let n := Z.to_nat (Z.max 1 limit) in
  let base := dead_jobs s (py_strip tenant) in
  shows_first Mem.newer_dead Mem.dead_row n base (list_dead_letter_jobs s tenant limit) ∧
  shows_first Mem.newer_dead Mem.dead_row n base (Mem.list_dead_letter_jobs (memory s) tenant limit).
Proof.
  intros Ht n base. split.
  - unfold list_dead_letter_jobs. apply py_bool_true in Ht as ->. cbn [negb].
    apply sort_by_shows_first; [apply _..|]. by rewrite reverse_Permutation.
  - unfold Mem.list_dead_letter_jobs, memory; cbn [Mem.states].
    rewrite (filter_od_map loaded _ (λ r, of_tenant (py_strip tenant) DeadLettered r = true)) by done.
    unfold od_map. rewrite (sort_by_fmap _ _ Mem.newer_dead) by done.
    rewrite <- fmap_take, <- list_fmap_compose. rewrite (list_fmap_ext _ Mem.dead_row) by done.
    apply sort_by_shows_first; [apply _..|done].
Qed.

Lemma queries_agree s q : replies_agree s q (ask s q) (ask_memory (memory s) q).
Proof.
  destruct q as [|tenant|tenant limit|tenant]; cbn [ask ask_memory replies_agree].
  - f_equal. unfold queue_depth, Mem.queue_depth. symmetry. by apply count_loaded.
  - unfold dead_letter_count, Mem.dead_letter_count. case_decide as E.
    + apply py_bool_false in E as ->. done.
    + apply py_bool_true in E as ->. cbn [negb]. f_equal. symmetry. by apply count_loaded.
  - case_decide as E; [unfold list_dead_letter_jobs; by apply py_bool_false in E as ->|].
    eexists _, _. split; [done|]. split; [done|]. by apply dead_listing.
  - unfold health_metrics, Mem.health_metrics. case_decide as E.
    + apply py_bool_false in E as ->. done.
    + apply py_bool_true in E as ->. cbn [negb]. f_equal. repeat f_equal; symmetry; by apply count_loaded.
Qed.

(** An update of the row of a job that is there. *)
Lemma update_id s id f st :
  wf s → od_get id (rows s) = Some st →
  (update_where (with_id id) f (rows s)).1 = od_set id (f st) (rows s).
Proof.
  intros Hwf Hst. apply update_where_id; [apply Hwf|done|]. intros r _. apply bool_decide_eq_true.
Qed.

Lemma set_refined s id st st' :
  wf s → od_get id (rows s) = Some st → 
  od_map (λ _, row_of) (od_set id st' (Mem.states (memory s))) = od_set id (row_of st') (rows s).
Proof. intros Hwf Hst. by rewrite od_map_set, rows_loaded. Qed.

Lemma complete_refined s now id token :
  wf s → refined s (QComplete now id token) ∧ wf (complete_claim s now id token).2.
Proof.
  intros Hwf. unfold refined; cbn [run_command memory_command]. unfold complete_claim, Mem.complete_claim.
  rewrite memory_get. destruct (od_get id (rows s)) as [st|] eqn:Est; cbn [fmap option_fmap option_map].
  2:{ split; [split; [done|]|done]. symmetry. by apply rows_loaded. }
  change (js_status (loaded st)) with (js_status st). change (js_expires (loaded st)) with (js_expires st).
  change (js_token (loaded st)) with (js_token st).
  case_bool_decide as Hs; cbn [negb].
  2:{ split; [split; [done|]|done]. symmetry. by apply rows_loaded. }
  destruct (_ <=? _); cbn [fst snd].
  { split; [split; [done|]|by apply rows_wf_requeue]. by rewrite memory_requeue. }
  destruct (negb _); cbn [fst snd].
  { split; [split; [done|]|done]. symmetry. by apply rows_loaded. }
  pose proof (wf_get _ _ _ Hwf Est) as Hr.
  assert (row_of (Mem.complete now (loaded st)) = complete_row now st) as Ec.
  { destruct Hr as [_ H2 _ H4]. unfold row_of, complete_row; cbn. rewrite H4 by congruence.
    rewrite <- H2. done. }
  unfold executed. cbn [rows fst]. rewrite (update_id _ _ _ _ Hwf Est). split; [split; [done|]|].
  - cbn [Mem.states]. by rewrite (set_refined _ _ st), Ec.
  - eapply wf_set; [done| |done]. destruct Hr. by split.
Qed.

Lemma get_leased_refined s now id token :
  wf s → refined s (QGetLeased now id token) ∧ wf (get_leased_job s now id token).2.
Proof.
  intros Hwf. unfold refined; cbn [run_command memory_command]. unfold get_leased_job, Mem.get_leased_job.
  rewrite memory_get. destruct (od_get id (rows s)) as [st|] eqn:Est; cbn [fmap option_fmap option_map].
  2:{ split; [split; [done|]|done]. symmetry. by apply rows_loaded. }
  change (js_status (loaded st)) with (js_status st). change (js_expires (loaded st)) with (js_expires st).
  change (js_token (loaded st)) with (js_token st).
  destruct (negb _); cbn [fst snd].
  { split; [split; [done|]|done]. symmetry. by apply rows_loaded. }
  destruct (_ <=? _); cbn [fst snd].
  { split; [split; [done|]|by apply rows_wf_requeue]. by rewrite memory_requeue. }
  destruct (negb _); cbn [fst snd]; (split; [split; [done|]|done]); symmetry; by apply rows_loaded.
Qed.

Lemma replay_refined s tenant id :
  wf s → refined s (QReplay tenant id) ∧ wf (replay_dead_letter_job s tenant id).2.
Proof.
  intros Hwf. unfold refined; cbn [run_command memory_command].
  unfold replay_dead_letter_job, Mem.replay_dead_letter_job.
  destruct (_ || _).
  { split; [split; [done|]|done]. symmetry. by apply rows_loaded. }
  set (job := py_strip id). set (tn := py_strip tenant). rewrite memory_get.
  assert (head (filter (λ r, of_tenant_id tn job r = true) (rows s)) =
    match od_get job (rows s) with
    | Some st => if js_tenant st =?s tn then Some (job, st) else None
    | None => None
    end) as ->.
  { destruct Hwf as [Hnd _]. induction (rows s) as [|[k v] m IH]; [done|].
    apply NoDup_cons in Hnd as [Hni Hnd]. rewrite filter_cons. cbn [od_get].
    unfold of_tenant_id, with_id; cbn [fst snd]. destruct (decide (job = k)) as [->|Hne].
    - rewrite (bool_decide_eq_true_2 (k = k)) by done. cbn [andb].
      destruct (js_tenant v =?s tn); cbn; [done|].
      assert (od_get k m = None) as Hn by (by apply od_get_None).
      specialize (IH Hnd). by rewrite Hn in IH.
    - rewrite (bool_decide_eq_false_2 (k = job)) by congruence. cbn. by apply IH. }
  destruct (od_get job (rows s)) as [st|] eqn:Est; cbn [fmap option_fmap option_map].
  2:{ split; [split; [done|]|done]. symmetry. by apply rows_loaded. }
  unfold Mem.has_status. change (js_status (loaded st)) with (js_status st).
  change (js_tenant (loaded st)) with (js_tenant st).
  destruct (js_tenant st =?s tn) eqn:Et; cbn [andb negb].
  2:{ split; [split; [done|]|done]. symmetry. by apply rows_loaded. }
  apply bool_decide_eq_true in Et. case_bool_decide as Hs; cbn [negb fst snd].
  2:{ split; [split; [done|]|done]. symmetry. by apply rows_loaded. }
  pose proof (wf_get _ _ _ Hwf Est) as Hr.
  assert ((update_where (of_tenant_id tn job) replay_row (rows s)).1 = od_set job (replay_row st) (rows s)) as Eu.
  { apply update_where_id; [apply Hwf|done|]. intros [k v] Hin. unfold of_tenant_id, with_id; cbn [fst snd].
    rewrite andb_true_iff, !bool_decide_eq_true. split; [by intros []|]. intros ->. split; [done|].
    apply (od_elem_of_get _ _ _ (wf_rows _ Hwf)) in Hin. congruence. }
  unfold executed. cbn [rows fst]. rewrite Eu. split; [split; [done|]|].
  - cbn [Mem.states]. rewrite (set_refined _ _ st) by done. f_equal.
    destruct Hr as [_ H2 _ _]. unfold row_of, replay_row; cbn. rewrite <- H2. done.
  - eapply wf_set; [done| |done]. destruct Hr as [? ? Hc Hca]. split; cbn; [done|done|..];
      intros _; [apply Hc|apply Hca]; by rewrite Hs.
Qed.

(** *** Claiming *)

Lemma queues_of rows tenant :
  Mem.queue_of (queues rows) tenant = fst <$> filter (λ r, js_tenant r.2 = tenant) rows.
Proof.
  unfold queues.
  assert (∀ q, Mem.queue_of (foldl (λ q r, Mem.push (js_tenant r.2) r.1 q) q rows) tenant =
    Mem.queue_of q tenant ++ (fst <$> filter (λ r, js_tenant r.2 = tenant) rows)) as H.
  { induction rows as [|[id st] rows IH]; intros q; cbn [foldl]; [by rewrite app_nil_r|].
    rewrite IH, queue_of_push, filter_cons, <- app_assoc. cbn [fst snd].
    by destruct (decide (js_tenant st = tenant)). }
  rewrite H. done.
Qed.

(** Popping a queue that starts with the keys of [l]: the first queued job of [l]. *)
Lemma pop_first sts (l : list (string * JobState)) back :
  (∀ p, p ∈ l → od_get p.1 sts = Some p.2) →
  (Mem.pop_queued sts (l.*1 ++ back)).1 =
  match head (filter (λ p, js_status p.2 = Queued) l) with
  | Some p => Some p
  | None => (Mem.pop_queued sts back).1
  end.
Proof.
  induction l as [|[id st] l IH]; intros Hl; [done|].
  cbn [fmap list_fmap app Mem.pop_queued fst]. 
  assert (od_get id sts = Some st) as -> by (apply (Hl (id, st)); left).
  rewrite filter_cons. cbn [snd]. case_decide; [done|]. apply IH. intros p Hp. apply Hl. by right.
Qed.

Lemma pop_canonical s now tenant :
  wf s →
  let m1 := (Mem.requeue_unlocked (memory s) now None).1 in
  (Mem.pop_queued (Mem.states m1) (Mem.queue_of (Mem.tenant_queue m1) tenant)).1 =
  head (filter (λ p, js_tenant p.2 = tenant ∧ js_status p.2 = Queued) (Mem.states m1)).
Proof.
  intros Hwf m1. destruct (requeue_unlocked_spec (memory s) now None) as [Es Eq]. cbv zeta in *.
  fold m1 in Es, Eq. rewrite Eq. cbn [memory Mem.tenant_queue]. rewrite queues_of.
  set (back := back_ids _ _ _ _).
  assert (od_wf (Mem.states m1)) as Hnd.
  { rewrite Es. unfold od_wf. rewrite !od_map_keys. cbn [memory Mem.states].
    rewrite od_map_keys. apply Hwf. }
  assert (fst <$> filter (λ r, js_tenant r.2 = tenant) (rows s) =
    (filter (λ r, js_tenant r.2 = tenant) (Mem.states m1)).*1) as ->.
  { rewrite Es. cbn [memory Mem.states]. rewrite od_map_compose.
    rewrite (filter_od_map _ _ (λ r, js_tenant r.2 = tenant)).
    - symmetry. apply od_map_keys.
    - intros k v. cbn. by rewrite requeued_tenant. }
  rewrite pop_first.
  2:{ intros [k v] [_ Hin]%list_elem_of_filter. by apply od_elem_of_get. }
  rewrite list_filter_filter.
  rewrite (list_filter_iff _ (λ p : string * JobState, js_tenant p.2 = tenant ∧ js_status p.2 = Queued))
    by (intros p; tauto).
  destruct (head _) as [p|] eqn:Eh; [done|].
  destruct (Mem.pop_queued (Mem.states m1) back) as [[[id st]|] rest] eqn:Ep; [exfalso|done].
  apply pop_queued_spec in Ep as (sk & _ & Eb & Hst & Hs).
  assert (id ∈ back) as Hin by (rewrite Eb; set_solver).
  unfold back, back_ids in Hin. apply list_elem_of_fmap in Hin as ([id' st'] & -> & Hin).
  apply list_elem_of_filter in Hin as [Hg Hin]. cbn [fst] in *.
  assert (js_tenant st = tenant) as Ht.
  { apply (od_elem_of_get _ _ _ Hnd) in Hst. rewrite Es in Hst.
    apply list_elem_of_fmap in Hst as ([k v] & [= -> ->] & Hst).
    unfold goes_back in Hg. rewrite !andb_true_iff, bool_decide_eq_true in Hg. cbn in *.
    rewrite requeued_tenant. destruct Hg as [_ <-]. f_equal.
    assert (od_wf (Mem.states (memory s))) as Hm by (unfold od_wf; cbn [memory Mem.states]; rewrite od_map_keys; apply Hwf).
    apply (od_elem_of_get _ _ _ Hm) in Hin, Hst. congruence. }
  assert ((id', st) ∈ filter (λ p : string * JobState, js_tenant p.2 = tenant ∧ js_status p.2 = Queued)
    (Mem.states m1)) as Hx.
  { apply list_elem_of_filter. split; [done|]. by apply od_elem_of_get. }
  destruct (filter _ _); [by apply elem_of_nil in Hx|done].
Qed.

Lemma requeued_row_tenant now mx st : js_tenant (requeued_row now mx st) = js_tenant st.
Proof. unfold requeued_row. by destruct (Mem.expired now st), (Mem.exhausted mx st). Qed.

Lemma claim_refined s now tenant worker ttl token :
  wf s → refined s (QClaim now tenant worker ttl token) ∧
         wf (claim_next s now tenant worker ttl token).2.
Proof.
  intros Hwf. unfold refined; cbn [run_command memory_command].
  unfold claim_next, Mem.claim_next.
  pose proof (rows_wf_requeue s now None Hwf) as Hwf1. pose proof (memory_requeue s now None Hwf) as Er.
  pose proof (pop_canonical s now tenant Hwf) as Ep. cbv zeta in Ep.
  destruct (requeue_expired_leases s now None) as [n s1]. cbn [snd] in *.
  destruct (Mem.requeue_unlocked (memory s) now None) as [m1 n1]. cbn [fst] in *.
  assert (first_queued tenant (rows s1) =
    (λ p, (p.1, row_of p.2)) <$> head (filter (λ p, js_tenant p.2 = tenant ∧ js_status p.2 = Queued)
      (Mem.states m1))) as ->.
  { unfold first_queued. rewrite <- Er.
    rewrite (filter_od_map _ _ (λ p, js_tenant p.2 = tenant ∧ js_status p.2 = Queued)) by done.
    by destruct (filter _ _). }
  destruct (Mem.pop_queued _ _) as [found rest]. cbn [fst] in Ep. rewrite <- Ep.
  destruct found as [[id st]|]; cbn [fmap option_fmap option_map fst snd mbind option_bind].
  2:{ split; [|done]. split; [done|]. symmetry. exact Er. }
  assert (od_get id (rows s1) = Some (row_of st)) as Hg.
  { apply od_elem_of_get; [apply Hwf1|]. rewrite <- Er. apply list_elem_of_fmap.
    exists (id, st). split; [done|].
    assert ((id, st) ∈ filter (λ p : string * JobState, js_tenant p.2 = tenant ∧ js_status p.2 = Queued)
      (Mem.states m1)) as Hx by (destruct (filter _ _); [done|injection Ep as <-; left]).
    by apply list_elem_of_filter in Hx as [_ ?]. }
  split; [split|].
  - f_equal. unfold Mem.claim_envelope. cbn [Mem.states]. by rewrite od_get_set.
  - cbn [Mem.states]. unfold executed; cbn [rows fst]. by rewrite (update_id _ _ _ _ Hwf1 Hg), od_map_set, Er.
  - unfold executed. cbn [fst snd]. rewrite (update_id _ _ _ _ Hwf1 Hg).
    eapply wf_set; [done| |done]. pose proof (wf_get _ _ _ Hwf1 Hg) as [H1 H2 H3 H4].
    assert (js_status st = Queued) as Hq.
    { destruct (filter _ _) as [|x xs] eqn:Ef; [done|]. injection Ep as <-.
      assert ((id, st) ∈ (id, st) :: xs) as Hx by left. rewrite <- Ef in Hx.
      by apply list_elem_of_filter in Hx as [[_ ?] _]. }
    split; cbn; [done|done|intros _; by apply H3; cbn; rewrite Hq|intros _; by apply H4; cbn; rewrite Hq].
Qed.

(** *** Cancelling *)

Lemma count_od_map {V W} (f : V → W) (p : string * W → bool) (m : list (string * V)) :
  count_if p (od_map (λ _, f) m) = count_if (λ r, p (r.1, f r.2)) m.
Proof. induction m as [|[k v] m IH]; [done|].
  change (od_map (λ _, f) ((k, v) :: m)) with ((k, f v) :: od_map (λ _, f) m).
  by rewrite !count_if_cons, IH. Qed.

(** Compute the comparisons of status constants. *)
Ltac decide_status :=
  repeat match goal with
  | |- context [bool_decide (@eq job_status ?a ?b)] =>
      is_constructor a; is_constructor b;
      let v := eval vm_compute in (bool_decide (a = b)) in
      change (bool_decide (a = b)) with v
  end.

Lemma cancel_refined s clock now call :
  wf s → refined s (QCancel clock now call) ∧ wf (cancel_pending_call s clock now call).2.
Proof.
  intros Hwf. unfold refined; cbn [run_command memory_command].
  unfold cancel_pending_call, Mem.cancel_pending_call.
  destruct (negb _).
  { split; [split; [done|]|done]. symmetry. by apply rows_loaded. }
  set (n := py_strip call). cbn [fst snd].
  set (s2 := executed _ _).
  assert (rows s2 = od_map (λ _ st, row_of (Mem.cancel_state n clock (loaded st))) (rows s)) as Es2.
  { unfold s2, executed. cbn [rows fst]. rewrite !update_where_map. unfold od_map.
    rewrite <- list_fmap_compose. apply list_fmap_ext. intros i [k st] Hin%list_elem_of_lookup_2.
    pose proof (row_loaded _ _ (wf_row _ Hwf _ _ Hin)) as El. cbn. f_equal.
    destruct (wf_row _ Hwf _ _ Hin) as [_ H2 _ _].
    unfold of_call, Mem.cancel_state. cbn.
    destruct (ev_call_id (js_envelope st) =?s n) eqn:Hc; cbn; [|by rewrite Hc, El].
    destruct (js_status st) eqn:Es; repeat progress (rewrite ?Hc, ?Es; decide_status; cbn);
      try (by rewrite El); unfold cancel_row, expire_row, row_of; cbn; rewrite ?Es; by rewrite <- H2. }
  assert (wf s2) as Hwf2.
  { unfold s2, executed in *. cbn [rows fst shared] in *.
    eapply (wf_map s _ (λ _ st, row_of (Mem.cancel_state n clock (loaded st)))); [done|exact Es2|].
    intros id st Hr. pose proof (row_loaded _ _ Hr) as El. destruct Hr as [H1 H2 H3 H4].
    unfold Mem.cancel_state. cbn. destruct (negb _); [by rewrite El|].
    destruct (js_status st) eqn:Es; try (by rewrite El; split; rewrite ?Es);
      split; cbn; rewrite ?Es in *; auto; congruence. }
  split; [split|by apply rows_wf_requeue].
  - f_equal. unfold executed, update_where. cbn [snd]. rewrite count_values. cbn [memory Mem.states].
    rewrite count_od_map. pose proof (count_if_nonneg (of_call n Queued) (rows s)).
    rewrite Z.max_l by done. by apply count_if_ext.
  - symmetry. apply same_requeue; [done|]. cbn [Mem.states memory]. rewrite Es2. unfold od_map.
    rewrite <- !list_fmap_compose. by apply list_fmap_ext.
Qed.

(** *** Retention *)

Lemma delete_ids_rows s ids :
  rows (delete_ids s ids) = od_pop_all ids (rows s) ∧ shared (delete_ids s ids) = shared s.
Proof.
  revert s. induction ids as [|id ids IH]; intros s; [done|].
  unfold delete_ids, od_pop_all in *. cbn [foldl]. destruct (IH (executed s
    (delete_where (with_id id) (rows s)))) as [-> ->]. split; [|done]. f_equal.
  unfold executed, delete_where. cbn [rows fst]. rewrite od_pop_filter. apply list_filter_iff.
  intros p. unfold with_id. by rewrite bool_decide_eq_false.
Qed.

Lemma overflow_memory tenant status time mx (m : list (string * JobState)) :
  (∀ st, time (loaded st) = time st) →
  Mem.overflow_ids tenant status time mx (od_map (λ _, loaded) m) =
  (overflow tenant status time mx m).*1.
Proof.
  intros Ht. unfold Mem.overflow_ids, overflow.
  rewrite (filter_od_map _ _ (λ r, of_tenant tenant status r = true)) by done.
  unfold od_map at 1. rewrite length_fmap. unfold od_map.
  rewrite (sort_by_fmap _ _ (by_key (λ r : string * JobState, time r.2))).
  2:{ intros [] []. unfold by_key. cbn. by rewrite !Ht. }
  rewrite <- fmap_take, <- list_fmap_compose. by apply list_fmap_ext.
Qed.

Lemma od_pop_all_map {V W} (f : V → W) ids (m : list (string * V)) :
  od_pop_all ids (od_map (λ _, f) m) = od_map (λ _, f) (od_pop_all ids m).
Proof. rewrite !od_pop_all_filter. by apply filter_od_map. Qed.

Lemma cleanup_refined s now tenant a b c d :
  wf s → refined s (QCleanup now tenant a b c d) ∧ wf (cleanup_retention s now tenant a b c d).2.
Proof.
  intros Hwf. unfold refined; cbn [run_command memory_command].
  unfold cleanup_retention, Mem.cleanup_retention.
  destruct (negb _).
  { split; [split; [done|]|done]. symmetry. by apply rows_loaded. }
  set (tn := py_strip tenant). cbv zeta. set (cc := now - Z.max a 1 * second).
  set (ca := now - Z.max b 1 * second).
  set (pc := old_row tn Completed js_completed_at cc).
  set (pa := old_row tn Cancelled js_cancelled_at ca).
  cbn [memory Mem.states Mem.tenant_queue].
  rewrite (filter_od_map _ _ (λ r, pc r || pa r = false)) by done.
  rewrite !overflow_memory by done. rewrite !od_pop_all_map.
  set (m := filter (λ r, pc r || pa r = false) (rows s)).
  assert (∀ r, pc r = true → pa r = false) as Hdis.
  { intros r. unfold pc, pa, old_row, of_tenant. rewrite !andb_true_iff, !bool_decide_eq_true.
    intros [[[_ ->] _] _]. by rewrite (bool_decide_eq_false_2 (Completed = Cancelled)), andb_false_r. }
  set (s2 := executed _ (delete_where pa _)).
  assert (rows s2 = m) as Em.
  { unfold s2, executed, delete_where. cbn [rows fst]. rewrite list_filter_filter.
    apply list_filter_iff. intros r. rewrite orb_false_iff. tauto. }
  rewrite Em. set (i1 := overflow tn Completed js_completed_at c m).
  set (i2 := overflow tn Cancelled js_cancelled_at d m).
  destruct (delete_ids_rows s2 i1.*1) as [E1 E1']. destruct (delete_ids_rows (delete_ids s2 i1.*1) i2.*1) as [E2 E2'].
  rewrite E1, Em in E2. rewrite !length_fmap.
  assert (∀ id st, od_get id (od_pop_all i2.*1 (od_pop_all i1.*1 m)) = Some st →
    od_get id (rows s) = Some st) as Hsub.
  { intros id st. rewrite !od_get_pop_all. do 2 (case_decide; [done|]).
    intros Hg. apply (od_get_filter_some (λ r, pc r || pa r = false)) in Hg; [by destruct Hg|apply Hwf]. }
  assert (od_wf (od_pop_all i2.*1 (od_pop_all i1.*1 m))) as Hnd.
  { do 2 apply od_wf_pop_all. apply od_wf_filter, Hwf. }
  split; [split|].
  - cbn [fst]. do 2 f_equal; f_equal; unfold delete_where; cbn [snd]; rewrite count_values, count_od_map.
    + done.
    + unfold s2, executed, delete_where; cbn [rows fst].
      transitivity (count_if pa (rows s)); [|done].
      clear -Hdis. induction (rows s) as [|r l IH]; [done|]. rewrite filter_cons, (count_if_cons _ r l).
      destruct (pc r) eqn:Ec.
      * rewrite decide_False, (Hdis _ Ec) by done. exact IH.
      * rewrite decide_True, count_if_cons, IH by done. done.
  - cbn [snd Mem.states]. rewrite E2. symmetry. rewrite od_map_compose. apply od_map_same.
    intros id st Hin. apply (od_elem_of_get _ _ _ Hnd) in Hin. eapply row_loaded, wf_get; [exact Hwf|by apply Hsub].
  - cbn [snd]. split; rewrite E2; [done|]. intros id st Hin%od_elem_of_get; [|done].
    eapply wf_get; [exact Hwf|by apply Hsub].
Qed.

(** *** All commands *)

Lemma command_refined s c : wf s → refined s c ∧ wf (run_command s c).2.
Proof.
  intros Hwf. destruct c as [job|now tenant worker ttl token|now id token|now id token|now mx
    |clock now call|tenant id|now tenant a b c d]; cbn [run_command].
  - by apply enqueue_refined.
  - destruct (claim_refined s now tenant worker ttl token Hwf) as [? H]. split; [done|].
    by destruct (claim_next _ _ _ _ _ _).
  - destruct (complete_refined s now id token Hwf) as [? H]. split; [done|].
    by destruct (complete_claim _ _ _ _).
  - destruct (get_leased_refined s now id token Hwf) as [? H]. split; [done|].
    by destruct (get_leased_job _ _ _ _).
  - split; [by apply requeue_refined|]. pose proof (rows_wf_requeue s now mx Hwf).
    by destruct (requeue_expired_leases s now mx).
  - destruct (cancel_refined s clock now call Hwf) as [? H]. split; [done|].
    by destruct (cancel_pending_call _ _ _ _).
  - destruct (replay_refined s tenant id Hwf) as [? H]. split; [done|].
    by destruct (replay_dead_letter_job _ _ _).
  - destruct (cleanup_refined s now tenant a b c d Hwf) as [? H]. split; [done|].
    by destruct (cleanup_retention _ _ _ _ _ _ _).
Qed.

Lemma rows_reachable_wf s : reachable s → wf s.
Proof. induction 1; [apply rows_wf_empty|by apply command_refined]. Qed.

Lemma memory_wf s : wf s → ByocFacts.wf (memory s).
Proof.
  intros Hwf.
  assert (∀ id st, od_get id (Mem.states (memory s)) = Some st →
    ∃ st0, (id, st0) ∈ rows s ∧ st = loaded st0) as Hget.
  { intros id st. rewrite memory_get. destruct (od_get id (rows s)) as [st0|] eqn:E; [|done].
    intros [= <-]. exists st0. split; [by apply od_get_elem|done]. }
  split.
  - unfold od_wf. cbn [memory Mem.states]. rewrite od_map_keys. apply Hwf.
  - intros id st (st0 & Hin & ->)%Hget. by destruct (wf_row _ Hwf _ _ Hin).
  - intros id st (st0 & Hin & ->)%Hget _. cbn [memory Mem.tenant_queue]. rewrite queues_of.
    apply list_elem_of_fmap. exists (id, st0). split; [done|]. by apply list_elem_of_filter.
  - intros id st tenant (st0 & Hin & ->)%Hget. cbn [memory Mem.tenant_queue]. rewrite queues_of.
    intros ([id' st1] & -> & [Ht Hin']%list_elem_of_filter)%list_elem_of_fmap. cbn in *.
    apply (od_elem_of_get _ _ _ (wf_rows _ Hwf)) in Hin, Hin'. assert (st1 = st0) as -> by congruence.
    done.
Qed.

(** The command of the in-memory queue. *)
Definition in_memory (c : command) : ByocFacts.command :=
  match c with
  | QEnqueue job => CEnqueue job
  | QClaim now tenant worker ttl token => CClaim now tenant worker ttl token
  | QComplete now id token => CComplete now id token
  | QGetLeased now id token => CGetLeased now id token
  | QRequeue now mx => CRequeue now mx
  | QCancel clock now call => CCancel (λ _, clock) now call
  | QReplay tenant id => CReplay tenant id
  | QCleanup now tenant a b c d => CCleanup now tenant a b c d
  end.

Lemma memory_command_step m c : (memory_command m c).2 = step m (in_memory c).
Proof. destruct c; cbn; by repeat case_match. Qed.

Lemma command_get s c id :
  wf s → od_get id (rows (run_command s c).2) = row_of <$> od_get id (Mem.states (step (memory s) (in_memory c))).
Proof.
  intros Hwf. destruct (command_refined s c Hwf) as [[_ E] _]. rewrite E, memory_command_step.
  apply (od_get_map (λ _, row_of)).
Qed.

Lemma command_follows s c id st :
  wf s → od_get id (rows s) = Some st →
  (∃ st', od_get id (rows (run_command s c).2) = Some st' ∧
     follows (leases (memory s) (in_memory c) id) st st') ∨
  od_get id (rows (run_command s c).2) = None ∧ (js_status st = Completed ∨ js_status st = Cancelled).
Proof.
  intros Hwf Hst. rewrite command_get by done.
  destruct (step_follows (memory s) (in_memory c) id (loaded st)) as [(st' & -> & Hf)|[-> Hn]].
  - by apply memory_wf.
  - by rewrite memory_get, Hst.
  - left. eexists. split; [done|exact Hf].
  - right. split; [done|exact Hn].
Qed.

Definition available (now : Z) (tenant : string) (st : JobState) : Prop :=
  js_tenant st = tenant ∧ (js_status st = Queued ∨ js_status st = Leased ∧ js_expires st ≤ now).

Lemma available_requeued now tenant st :
  js_tenant (requeued_row now None st) = tenant ∧ js_status (requeued_row now None st) = Queued ↔
  available now tenant st.
Proof.
  unfold available. rewrite requeued_row_tenant. unfold requeued_row, Mem.expired. cbn [Mem.exhausted].
  destruct (js_status st) eqn:Es; decide_status; cbn [andb]; rewrite ?Es;
    try (destruct (Z.leb_spec (js_expires st) now); cbn; rewrite ?Es); naive_solver lia.
Qed.

(** ** The theorems of the queue *)

(** C15: The SQLite queue does what the in-memory queue does to the same jobs.  From any
    database the store can reach, a command leaves the rows that the in-memory queue's jobs
    are left as that holds the same jobs, each tenant's in the order of their rowids, and
    answers the same, but for the count of requeued jobs, which includes the dead-lettered
    ones and on a shared connection all earlier changes; and a query about a tenant that has
    a name answers the same, jobs dead-lettered at one instant being listed in any order. *)
Theorem sqlite_queue_refines_memory s c :
  reachable s →
  let '(a, s') := run_command s c in
  let '(a', m') := memory_command (memory s) c in
  answers_agree s c a s' a' ∧ rows s' = od_map (λ _, row_of) (Mem.states m') ∧
  rows s = od_map (λ _, row_of) (Mem.states (memory s)) ∧ ByocFacts.wf (memory s) ∧
  ∀ q, replies_agree s q (ask s q) (ask_memory (memory s) q).
Proof.
  intros Hr%rows_reachable_wf. destruct (command_refined s c Hr) as [[Ha Es] _].
  destruct (run_command s c), (memory_command (memory s) c). split_and!; [done|done| | |apply queries_agree].
  - symmetry. by apply rows_loaded.
  - by apply memory_wf.
Qed.

(** The durable queue serves each tenant oldest job first: a claim takes the first of
    the tenant's rows that is queued or whose lease has expired, no earlier row of the
    tenant is available, and the row ends leased to the worker under the fresh token until
    now plus the time to live (at least a second), as the envelope handed out says; no
    job is handed out only when the tenant has no available row. *)
Theorem sqlite_claim_takes_oldest s now tenant worker ttl token :
  reachable s →
  let '(e, s') := claim_next s now tenant worker ttl token in
  match e with
  | Some e =>
      ∃ older st newer st',
        rows s = older ++ (ev_job_id e, st) :: newer ∧ available now tenant st ∧
        (∀ r, r ∈ older → ¬ available now tenant r.2) ∧
        od_get (ev_job_id e) (rows s') = Some st' ∧ js_status st' = Leased ∧
        js_worker st' = worker ∧ js_attempt st' = js_attempt st + 1 ∧
        js_token st' = "lease_" +:+ token ∧ js_expires st' = now + Z.max ttl 1 * second ∧
        e = with_lease (js_envelope st) (js_token st') (int_seconds (js_expires st')) (js_attempt st')
  | None => ∀ r, r ∈ rows s → ¬ available now tenant r.2
  end.
Proof.
  intros Hr%rows_reachable_wf. pose proof (rows_wf_requeue s now None Hr) as Hwf1. unfold claim_next.
  destruct (requeue_rows s now None) as [Er _].
  destruct (requeue_expired_leases s now None) as [n s1]. cbn [snd] in *.
  unfold first_queued. destruct (head _) as [[id st1]|] eqn:Eh.
  - apply head_filter_Some in Eh as (l1 & l2 & El & Ha & Hl1). cbn in Ha.
    pose proof El as El'. rewrite Er in El'.
    apply fmap_app_inv in El' as (older & rest & E1 & E2 & E3).
    destruct rest as [|[id' st] newer]; [done|]. injection E2 as -> -> E2. cbn [fst snd] in *.
    assert ((id', st) ∈ rows s) as Hin by (rewrite E3; apply elem_of_app; right; left).
    pose proof (wf_row _ Hr _ _ Hin) as Hrw.
    assert (od_get id' (rows s1) = Some (requeued_row now None st)) as Hg.
    { apply od_elem_of_get; [apply Hwf1|]. rewrite El. apply elem_of_app. right. left. }
    assert (js_envelope (requeued_row now None st) = js_envelope st ∧
            js_attempt (requeued_row now None st) = js_attempt st) as [Ee Ea].
    { unfold requeued_row. by destruct (Mem.expired now st). }
    assert (∀ e w x a, ev_job_id (with_lease e w x a) = ev_job_id e) as Hid by done.
    rewrite Hid, Ee, (rw_id _ _ Hrw).
    eexists older, st, newer, _. split; [by rewrite E3|]. split; [by apply available_requeued|].
    split.
    { intros r Hr' Hav. apply (Hl1 (r.1, requeued_row now None r.2)); [|by apply available_requeued].
      rewrite E1. apply list_elem_of_fmap. by exists r. }
    unfold executed. cbn [rows fst]. rewrite (update_id _ _ _ _ Hwf1 Hg), od_get_set. split; [done|].
    cbn. by rewrite Ea.
  - intros r Hin Hav. eapply (head_filter_None _ _ Eh (r.1, requeued_row now None r.2));
      [|by apply available_requeued].
    rewrite Er. apply list_elem_of_fmap. by exists r.
Qed.

(** A job of the durable queue follows the same machine as in memory: its status only
    moves along it, its tenant never changes, its attempts grow by one exactly when a claim
    hands it out, and its row is deleted only once it is completed or cancelled. *)
Theorem sqlite_job_machine s c id st :
  reachable s → od_get id (rows s) = Some st →
  match od_get id (rows (run_command s c).2) with
  | Some st' =>
      allowed (js_status st) (js_status st') = true ∧ js_tenant st' = js_tenant st ∧
      js_attempt st' = js_attempt st + (if leases (memory s) (in_memory c) id then 1 else 0) ∧
      (leases (memory s) (in_memory c) id = true → js_status st' = Leased)
  | None => js_status st = Completed ∨ js_status st = Cancelled
  end.
Proof.
  intros Hr%rows_reachable_wf Hst.
  destruct (command_follows s c id st Hr Hst) as [(st' & -> & Hf)|[-> ?]]; [exact Hf|done].
Qed.

Fixpoint run (s : t) (cs : list command) : t :=
  match cs with [] => s | c :: cs => run (run_command s c).2 cs end.

Definition enqueues (id : string) (c : command) : Prop :=
  match c with QEnqueue job => ev_job_id job = id | _ => False end.

Lemma sqlite_run_completed s cs id :
  wf s → Forall (λ c, ¬ enqueues id c) cs →
  (∀ st, od_get id (rows s) = Some st → js_status st = Completed) →
  ∀ st, od_get id (rows (run s cs)) = Some st → js_status st = Completed.
Proof.
  revert s. induction cs as [|c cs IH]; intros s Hwf Hne Hs; [done|]. cbn [run].
  apply Forall_cons in Hne as [Hn1 Hne]. apply IH; [by apply command_refined|done|].
  intros st' Hst'. destruct (od_get id (rows s)) as [st|] eqn:Est.
  - destruct (command_follows s c id st Hwf Est) as [(st1 & Hst1 & Hfo)|[Hn _]]; [|congruence].
    assert (st1 = st') as -> by congruence. destruct Hfo as (Ha & _).
    rewrite (Hs st eq_refl) in Ha. by destruct (js_status st').
  - rewrite command_get in Hst' by done.
    rewrite step_none in Hst'; [done|by apply memory_wf|by rewrite memory_get, Est|by destruct c].
Qed.

(** In the durable queue too a claim is completed exactly while its lease is held
    under its token and not expired, and at most once: after it, no command completes the
    job again, unless its id is enqueued anew. *)
Theorem sqlite_claim_completes_once s now id token :
  reachable s →
  ((complete_claim s now id token).1 = true ↔
     ∃ st, od_get id (rows s) = Some st ∧ js_status st = Leased ∧ now < js_expires st ∧
           js_token st = token) ∧
  ((complete_claim s now id token).1 = true →
   ∀ cs now' token', Forall (λ c, ¬ enqueues id c) cs →
     (complete_claim (run (complete_claim s now id token).2 cs) now' id token').1 = false).
Proof.
  intros Hr%rows_reachable_wf. split.
  - unfold complete_claim. destruct (od_get id (rows s)) as [st|]; [|naive_solver].
    case_bool_decide as Hs; cbn [negb]; [|naive_solver].
    destruct (Z.leb_spec (js_expires st) now); [cbn; naive_solver lia|].
    case_bool_decide as Ht; cbn [negb]; cbn; naive_solver.
  - intros Hc cs now' token' Hne.
    destruct (complete_refined s now id token Hr) as [_ Hwf1].
    assert (∀ st, od_get id (rows (complete_claim s now id token).2) = Some st →
      js_status st = Completed) as Hdone.
    { unfold complete_claim in *. destruct (od_get id (rows s)) as [st|] eqn:Est; [|done].
      destruct (negb _); [done|]. destruct (_ <=? _); [done|]. destruct (negb _); [done|].
      cbn [snd]. unfold executed; cbn [rows fst].
      rewrite (update_id _ _ _ _ Hr Est), od_get_set. by intros ? [= <-]. }
    pose proof (sqlite_run_completed _ cs id Hwf1 Hne Hdone) as Hrun.
    unfold complete_claim at 1. destruct (od_get id (rows (run _ cs))) as [st|]; [|done].
    by rewrite (Hrun st eq_refl).
Qed.

(** *** A concrete database *)

Definition demo_db : t :=
  run (empty false)
    [QEnqueue (demo_job "j1" "acme" "c1"); QEnqueue (demo_job "j2" "acme" "c2");
     QEnqueue (demo_job "j3" "beta" "c3"); QClaim 1000000 "acme" "w1" 10 "aa"].

Lemma demo_db_reachable : reachable demo_db.
Proof. do 4 apply (reach_step _ _). apply reach_empty. Qed.

(** The expired lease of the oldest job is claimed before the younger queued job. *)
Lemma sqlite_claim_takes_oldest_witness :
  ∃ older st newer,
    rows demo_db = older ++ ("j1", st) :: newer ∧ js_status st = Leased ∧
    (ev_job_id <$> (claim_next demo_db 20000000 "acme" "w2" 10 "bb").1) = Some "j1".
Proof.
  pose proof (sqlite_claim_takes_oldest demo_db 20000000 "acme" "w2" 10 "bb" demo_db_reachable) as H.
  destruct (claim_next demo_db 20000000 "acme" "w2" 10 "bb") as [e s'] eqn:E.
  vm_compute in E. injection E as <- <-. cbv zeta in H. destruct H as (older & st & newer & st' & Er & _).
  exists older, st, newer. split; [exact Er|]. split; [|reflexivity].
  assert (od_get "j1" (rows demo_db) = Some st) as Hg.
  { apply od_elem_of_get; [apply (rows_reachable_wf _ demo_db_reachable)|]. rewrite Er. apply elem_of_app.
    right. left. }
  vm_compute in Hg. by injection Hg as <-.
Defined.

Lemma sqlite_queue_refines_memory_witness :
  (run_command demo_db (QClaim 20000000 "beta" "w2" 10 "bb")).1
  = (memory_command (memory demo_db) (QClaim 20000000 "beta" "w2" 10 "bb")).1 ∧
  ask demo_db (QHealth "acme") = ask_memory (memory demo_db) (QHealth "acme").
Proof.
  pose proof (sqlite_queue_refines_memory demo_db (QClaim 20000000 "beta" "w2" 10 "bb")
    demo_db_reachable) as H.
  destruct (run_command _ _), (memory_command _ _). destruct H as (Ha & _ & _ & _ & Hq).
  split; [exact Ha|exact (Hq (QHealth "acme"))].
Defined.

(** The counts of one requeue: one job goes back to the queue and one is dead-lettered. *)
Example requeue_counts_differ :
  let s := run (empty false)
    [QEnqueue (demo_job "j1" "acme" "c1"); QEnqueue (demo_job "j2" "acme" "c2");
     QClaim 0 "acme" "w1" 1 "aa"; QClaim 1000000 "acme" "w1" 1 "bb"; QClaim 1500000 "acme" "w1" 1 "cc"] in
  (run_command s (QRequeue 9000000 (Some 2))).1 = Count 2 ∧
  (memory_command (memory s) (QRequeue 9000000 (Some 2))).1 = Count 1.
Proof. split; vm_compute; reflexivity. Qed.

Lemma sqlite_job_machine_witness :
  match od_get "j1" (rows (run_command demo_db (QComplete 2000000 "j1" "lease_aa")).2) with
  | Some st' => js_status st' = Completed ∧ allowed Leased (js_status st') = true
  | None => False
  end.
Proof.
  pose proof (sqlite_job_machine demo_db (QComplete 2000000 "j1" "lease_aa") "j1"
    (lease_row "w1" "lease_aa" 11000000 1 (new_state (demo_job "j1" "acme" "c1")))
    demo_db_reachable eq_refl) as H.
  vm_compute in H. vm_compute. split; [reflexivity|apply H].
Defined.

Lemma sqlite_claim_completes_once_witness :
  (complete_claim demo_db 2000000 "j1" "lease_aa").1 = true ∧
  ∀ now' token',
    (complete_claim (run (complete_claim demo_db 2000000 "j1" "lease_aa").2
       [QClaim 3000000 "acme" "w2" 10 "bb"; QRequeue 90000000 None]) now' "j1" token').1 = false.
Proof.
  split; [vm_compute; reflexivity|]. intros now' token'.
  apply (sqlite_claim_completes_once demo_db 2000000 "j1" "lease_aa" demo_db_reachable).
  - vm_compute. reflexivity.
  - repeat constructor; intros [].
Defined.
End Queue.

(** ** The result store *)

Module Results.
Module Mem := InMemoryByocResultStore.
Import SQLiteByocResultStore.

(** The in-memory store with the same keys and results. *)
Definition memory (s : t) : Mem.t :=
  Mem.mkStore (strategy s) (list_to_set (od_keys (idempotency s)))
    (pr_payload <$> (list_to_map (payloads s) : gmap string payload_row)) ∅.

Inductive command :=
| RIngest (now : Z) (r : ByocToolResultEnvelope)
| RConsume (job_id : string)
| RCleanup (now : Z) (tenant : string) (result_ttl idempotency_ttl max_result_records : Z).

Definition step (s : t) (c : command) : t :=
  match c with
  | RIngest now r => (ingest s now r).2
  | RConsume id => (consume s id).2
  | RCleanup now tenant a b c => (cleanup_retention s now tenant a b c).2
  end.

Fixpoint run (s : t) (cs : list command) : t :=
  match cs with [] => s | c :: cs => run (step s c) cs end.

Record wf (s : t) : Prop := {
  wf_keys : od_wf (idempotency s);
  wf_payloads : od_wf (payloads s);
}.

Lemma wf_init shared strategy : wf (init shared strategy).
Proof. split; apply NoDup_nil_2. Qed.

Lemma list_to_map_get {V} (m : list (string * V)) k :
  (list_to_map m : gmap string V) !! k = od_get k m.
Proof.
  induction m as [|[k' v] m IH]; cbn; [by rewrite lookup_empty|].
  case_decide as E; [subst; by rewrite lookup_insert_eq|by rewrite lookup_insert_ne].
Qed.

Lemma memory_result s id : Mem.results (memory s) !! id = pr_payload <$> od_get id (payloads s).
Proof. unfold memory; cbn [Mem.results]. by rewrite lookup_fmap, list_to_map_get. Qed.

Lemma memory_seen s key : key ∈ Mem.seen_keys (memory s) ↔ is_Some (od_get key (idempotency s)).
Proof. unfold memory; cbn [Mem.seen_keys]. by rewrite elem_of_list_to_set, od_get_Some_key. Qed.

Definition stores (o : ByocResultIngestOutcome) : bool := ro_accepted o && negb (ro_duplicate o).

Lemma record_conflict_same s r reason :
  idempotency (record_conflict s r reason) = idempotency s ∧
  payloads (record_conflict s r reason) = payloads s ∧
  strategy (record_conflict s r reason) = strategy s ∧ shared (record_conflict s r reason) = shared s.
Proof. done. Qed.

(** What one ingestion does to the tables of keys and payloads. *)
Lemma sqlite_ingest_cases s now r :
  let key := py_strip (rs_idempotency_key r) in
  let '(o, s') := ingest s now r in
  if stores o then
    key ≠ "" ∧ od_get key (idempotency s) = None ∧
    idempotency s' = idempotency s ++ [(key, mkKey (rs_tenant_id r) (rs_job_id r) now)] ∧
    payloads s' = od_set (rs_job_id r) (mkPayload (rs_tenant_id r) r now) (payloads s)
  else idempotency s' = idempotency s ∧ payloads s' = payloads s ∧
       (ro_accepted o = false → ro_duplicate o = false).
Proof.
  intros key. unfold ingest. fold key. destruct (py_bool key) eqn:Ek; cbn [negb]; [|done].
  apply py_bool_true in Ek. cbv zeta.
  destruct (od_get (rs_job_id r) (payloads s)) as [row|];
    [destruct (_ =?s key); [|destruct (resolve_result_conflict (pr_payload row) r (strategy s))]|];
    cbn [negb]; rewrite ?(proj1 (record_conflict_same _ _ _)).
  3: by cbn; unfold uncommitted; destruct (shared s).
  all: destruct (od_get key (idempotency s)) as [row'|] eqn:E; cbn; [|done].
  all: unfold uncommitted; by destruct (shared s).
Qed.

Lemma rows_wf_step s c : wf s → wf (step s c).
Proof.
  intros Hwf. destruct c as [now r|id|now tenant a b c]; cbn [step].
  - pose proof (sqlite_ingest_cases s now r) as H. cbv zeta in H. destruct (ingest s now r) as [o s'].
    cbn [snd]. destruct (stores o).
    + destruct H as (_ & Hn & Ei & Ep). split; [rewrite Ei|rewrite Ep; by apply od_wf_set, Hwf].
      rewrite <- od_set_fresh by done. by apply od_wf_set, Hwf.
    + destruct H as (Ei & Ep & _). split; [rewrite Ei|rewrite Ep]; apply Hwf.
  - unfold consume. destruct (negb _); [done|]. destruct (od_get _ _); [|done].
    split; cbn; [apply Hwf|]. apply od_wf_filter, Hwf.
  - unfold cleanup_retention. destruct (negb _); [done|]. cbv zeta. cbn [fst snd delete_where].
    split; cbn; [|apply od_wf_pop_all]; apply od_wf_filter, Hwf.
Qed.

Lemma wf_run s cs : wf s → wf (run s cs).
Proof. revert s. induction cs; intros s Hwf; [done|]. cbn [run]. auto using rows_wf_step. Qed.

Lemma memory_insert s now key r :
  Mem.seen_keys (memory (insert_result s now key r)) = {[key]} ∪ Mem.seen_keys (memory s) ∧
  Mem.results (memory (insert_result s now key r)) = <[rs_job_id r := r]> (Mem.results (memory s)).
Proof.
  split.
  - apply set_eq. intros k. unfold memory; cbn [Mem.seen_keys insert_result idempotency].
    unfold od_keys. rewrite fmap_app. rewrite elem_of_list_to_set. set_solver.
  - apply map_eq. intros k. rewrite memory_result. cbn [insert_result payloads].
    destruct (decide (k = rs_job_id r)) as [->|Hne].
    + by rewrite od_get_set, lookup_insert_eq.
    + by rewrite od_get_set_ne, lookup_insert_ne, memory_result.
Qed.

Lemma memory_uncommitted s r reason :
  Mem.seen_keys (memory (uncommitted s (record_conflict s r reason))) = Mem.seen_keys (memory s) ∧
  Mem.results (memory (uncommitted s (record_conflict s r reason))) = Mem.results (memory s).
Proof. unfold uncommitted. by destruct (shared s). Qed.

(** The stored result that the strategy keeps against [r]. *)
Definition kept_against (s : t) (r old : ByocToolResultEnvelope) : Prop :=
  Mem.results (memory s) !! rs_job_id r = Some old ∧
  py_strip (rs_idempotency_key old) ≠ py_strip (rs_idempotency_key r) ∧
  resolve_result_conflict old r (strategy s) = false.

(** Ingesting into the SQLite result store is ingesting into the in-memory store with
    the same keys and results: the same result is stored, or nothing is, and the answers
    agree; they differ only when a known key comes for a job that holds another key's
    result, which the strategy keeps: the SQLite store rejects what the in-memory store
    answers as a duplicate. *)
Theorem sqlite_ingest_refines_memory s now r :
  let '(o, s') := ingest s now r in
  let '(o', m') := Mem.ingest (memory s) r in
  Mem.seen_keys (memory s') = Mem.seen_keys m' ∧ Mem.results (memory s') = Mem.results m' ∧
  ((ro_accepted o, ro_duplicate o) = (ro_accepted o', ro_duplicate o') ∨
   py_strip (rs_idempotency_key r) ∈ Mem.seen_keys (memory s) ∧ (∃ old, kept_against s r old) ∧
   ro_reason_code o = "BYOC_RESULT_CONFLICT_REJECTED" ∧ ro_reason_code o' = "IDEMPOTENT_DUPLICATE").
Proof.
  unfold ingest, Mem.ingest, kept_against. set (key := py_strip (rs_idempotency_key r)).
  rewrite memory_result. cbn [Mem.strategy memory].
  destruct (negb (py_bool key)); [auto|]. cbv zeta.
  assert (∀ x, od_get key (idempotency (record_conflict s r x)) = od_get key (idempotency s)) as Hc by done.
  pose proof (memory_insert s now key r) as [Is Ir].
  pose proof (λ x, memory_insert (record_conflict s r x) now key r) as Ic.
  pose proof (memory_uncommitted s r) as Hu.
  destruct (decide (key ∈ Mem.seen_keys (memory s))) as [Hk|Hk].
  - rewrite (bool_decide_eq_true_2 _ Hk). apply memory_seen in Hk as [row Hrow].
    destruct (od_get (rs_job_id r) (payloads s)) as [p|] eqn:Ep; cbn [fmap option_fmap option_map].
    2:{ cbn. rewrite Hrow. unfold uncommitted. destruct (shared s); auto. }
    destruct (_ =?s key) eqn:Eq; cbn [negb].
    { rewrite Hrow. unfold uncommitted. destruct (shared s); auto. }
    destruct (resolve_result_conflict (pr_payload p) r (strategy s)) eqn:Er; cbn [negb].
    { rewrite Hc, Hrow. destruct (Hu "BYOC_RESULT_CONFLICT_REPLACED") as [-> ->]. auto. }
    destruct (Hu "BYOC_RESULT_CONFLICT_REJECTED") as [-> ->]. split_and!; [done|done|]. right.
    split_and!; [apply memory_seen; by exists row| |done|done].
    exists (pr_payload p). split_and!; [done| |done]. by apply bool_decide_eq_false in Eq.
  - rewrite (bool_decide_eq_false_2 _ Hk).
    assert (od_get key (idempotency s) = None) as Hrow.
    { apply eq_None_not_Some. intros H. by apply Hk, memory_seen. }
    destruct (od_get (rs_job_id r) (payloads s)) as [p|] eqn:Ep; cbn [fmap option_fmap option_map].
    2:{ cbn. rewrite Hrow. auto. }
    destruct (_ =?s key) eqn:Eq; cbn [negb].
    { rewrite Hrow. auto. }
    destruct (resolve_result_conflict (pr_payload p) r (strategy s)) eqn:Er; cbn [negb].
    { rewrite Hc, Hrow. destruct (Ic "BYOC_RESULT_CONFLICT_REPLACED") as [-> ->]. auto. }
    destruct (Hu "BYOC_RESULT_CONFLICT_REJECTED") as [-> ->]. auto.
Qed.

(** *** A key is used once while it is kept *)

(** A clean-up later than the key's time to live forgets it. *)
Definition keeps (created : Z) (c : command) : Prop :=
  match c with
  | RCleanup now _ _ idempotency_ttl _ => now - Z.max idempotency_ttl 1 * second < created
  | _ => True
  end.

Definition key_known (key : string) (created : Z) (s : t) : Prop :=
  ∃ row, od_get key (idempotency s) = Some row ∧ kr_created_at row = created.

Lemma step_key_known s c key created :
  wf s → key_known key created s → keeps created c → key_known key created (step s c).
Proof.
  intros Hwf (row & Hrow & Hc) Hk. destruct c as [now r|id|now tenant a b c]; cbn [step].
  - pose proof (sqlite_ingest_cases s now r) as H. cbv zeta in H. destruct (ingest s now r) as [o s'].
    exists row. split; [|done]. cbn [snd].
    destruct (stores o); [destruct H as (_ & _ & -> & _)|by destruct H as (-> & _)].
    by rewrite od_get_app, Hrow.
  - exists row. split; [|done]. unfold consume. destruct (negb _); [done|]. by destruct (od_get _ (payloads s)).
  - exists row. split; [|done]. unfold cleanup_retention. destruct (negb _); [done|].
    cbv zeta. cbn [snd fst delete_where idempotency].
    apply od_get_filter_some; [apply Hwf|]. split; [done|]. cbn [snd keeps] in *.
    rewrite andb_false_iff. right. lia.
Qed.

Lemma run_key_known s cs key created :
  wf s → key_known key created s → Forall (keeps created) cs → key_known key created (run s cs).
Proof.
  revert s. induction cs as [|c cs IH]; intros s Hwf Hk; [done|].
  intros [Hc Hcs]%Forall_cons. cbn [run]. apply IH; [by apply rows_wf_step|by apply step_key_known|done].
Qed.

(** A result is stored at most once under its idempotency key: after one was, nothing
    that comes under the key changes the stored results, whatever is ingested and consumed
    in between, as long as no clean-up is later than the key's time to live. *)
Theorem sqlite_result_stored_once shared strategy before now r cs now' r' :
  let s := run (init shared strategy) before in
  let s' := run (ingest s now r).2 cs in
  stores (ingest s now r).1 = true →
  Forall (keeps now) cs →
  py_strip (rs_idempotency_key r') = py_strip (rs_idempotency_key r) →
  stores (ingest s' now' r').1 = false ∧ payloads (ingest s' now' r').2 = payloads s'.
Proof.
  intros s s' Ho Hcs Ekey.
  assert (wf s) as Hwf by (apply wf_run, wf_init).
  assert (key_known (py_strip (rs_idempotency_key r)) now (ingest s now r).2) as Hk.
  { pose proof (sqlite_ingest_cases s now r) as H. cbv zeta in H. destruct (ingest s now r) as [o s1].
    cbn [fst snd] in *. rewrite Ho in H. destruct H as (_ & Hn & Ei & _).
    eexists. rewrite Ei, od_get_app, Hn. cbn. rewrite decide_True by done. split; [done|]. done. }
  assert (wf (ingest s now r).2) as Hwf1 by apply (rows_wf_step s (RIngest now r) Hwf).
  destruct (run_key_known _ cs _ _ Hwf1 Hk Hcs) as (row & Hrow & _). fold s' in Hrow.
  pose proof (sqlite_ingest_cases s' now' r') as H. cbv zeta in H.
  destruct (ingest s' now' r') as [o' s2]. cbn [fst snd].
  rewrite Ekey in H. destruct (stores o'); [|by destruct H as (_ & -> & _)].
  destruct H as (_ & Hn & _). congruence.
Qed.

Definition demo_result (key status : string) : ByocToolResultEnvelope :=
  mkResult "j1" "acme" "run" "c1" "tool" status [] "" "" false key "lease_aa" "" "" "" "".

Lemma sqlite_result_stored_once_witness :
  stores (ingest (run (ingest (init false PreferSuccess) 0 (demo_result "k1" "error")).2
    [RConsume "j1"; RCleanup second "acme" 60 60 10]) 5 (demo_result " k1 " "success")).1 = false.
Proof.
  destruct (sqlite_result_stored_once false PreferSuccess [] 0 (demo_result "k1" "error")
    [RConsume "j1"; RCleanup second "acme" 60 60 10] 5 (demo_result " k1 " "success")) as [H _].
  - vm_compute. reflexivity.
  - repeat constructor.
  - vm_compute. reflexivity.
  - exact H.
Defined.

(** *** Conflicts of a store on a file *)

(** A rejected result, and a duplicate that conflicts, leave no trace in the conflict
    counts: the transaction that counted them is never committed. *)
Lemma sqlite_rejected_conflicts_are_not_counted s now r tenant :
  shared s = false → stores (ingest s now r).1 = false →
  list_conflict_counts (ingest s now r).2 tenant = list_conflict_counts s tenant.
Proof.
  intros Hs. assert (stores (ingest s now r).1 = false → (ingest s now r).2 = s) as Hsame.
  { unfold ingest. destruct (negb _); [done|]. cbv zeta.
    assert (∀ x, uncommitted s x = s) as Hu by (intros x; unfold uncommitted; by rewrite Hs).
    destruct (match od_get _ (payloads s) with Some _ => _ | None => _ end) as [old|];
      [destruct (negb _); [by cbn; rewrite Hu|]|];
      (destruct (od_get _ (idempotency _)); [by cbn; rewrite Hu|done]). }
  intros Ho. by rewrite Hsame.
Qed.

(** A redelivered result is rejected where the in-memory store takes it for a duplicate. *)
Example redelivery_rejected :
  let results := [demo_result "k1" "error"; demo_result "k2" "success"; demo_result "k1" "error"] in
  (ingest (run (init false PreferSuccess) (RIngest 0 <$> take 2 results)) 0
     (demo_result "k1" "error")).1 = mkOutcome false false "BYOC_RESULT_CONFLICT_REJECTED" ∧
  last (Mem.ingest_all (Mem.init PreferSuccess) results).1
    = Some (mkOutcome true true "IDEMPOTENT_DUPLICATE").
Proof. split; vm_compute; reflexivity. Qed.
End Results.

(** ** The replay guard *)

Module Guard.
Module Mem := InMemoryReplayGuard.
Import SQLiteReplayGuard.

Definition run_command (s : list (string * Z)) (c : Mem.command) : list (string * Z) :=
  match c with
  | Mem.GMark now key ttl => (mark_once s now key ttl).2
  | Mem.GHealth now tenant => (health_metrics s now tenant).2
  | Mem.GCleanup now tenant => (cleanup_retention s now tenant).2
  end.

(** What each [mark_once] of a sequence answers. *)
Fixpoint marks (s : list (string * Z)) (cs : list Mem.command) : list bool :=
  match cs with
  | [] => []
  | c :: cs =>
      match c with Mem.GMark now key ttl => [(mark_once s now key ttl).1] | _ => [] end
      ++ marks (run_command s c) cs
  end.

Fixpoint memory_marks (g : gmap string Z) (cs : list Mem.command) : list bool :=
  match cs with
  | [] => []
  | c :: cs =>
      match c with Mem.GMark now key ttl => [(Mem.mark_once g now key ttl).1] | _ => [] end
      ++ memory_marks (Mem.step g c) cs
  end.

(** The guards agree on the keys that are alive after [now]. *)
Record agree (now : Z) (s : list (string * Z)) (g : gmap string Z) : Prop := {
  ag_wf : od_wf s;
  ag_alive : ∀ k e, now < e → od_get k s = Some e ↔ g !! k = Some e;
}.

Lemma agree_later now now' s g : now ≤ now' → agree now s g → agree now' s g.
Proof. intros Hle [Hw Ha]. split; [done|]. intros k e He. apply Ha. lia. Qed.

Lemma alive_get s now k e :
  od_wf s → od_get k ((delete_where (expired_key now) s).1) = Some e ↔ od_get k s = Some e ∧ now < e.
Proof.
  intros Hw. cbn. rewrite (od_get_filter_some _ _ _ _ Hw). unfold expired_key. cbn.
  rewrite Z.leb_gt. done.
Qed.

Lemma cleanup_get g now k e : Mem.cleanup g now !! k = Some e ↔ g !! k = Some e ∧ now < e.
Proof. unfold Mem.cleanup. rewrite map_lookup_filter_Some. cbn. rewrite Z.nle_gt. done. Qed.

Lemma agree_purged now s g :
  agree now s g →
  od_wf (delete_where (expired_key now) s).1 ∧
  ∀ k, od_get k (delete_where (expired_key now) s).1 = Mem.cleanup g now !! k.
Proof.
  intros [Hw Ha]. split; [apply od_wf_filter, Hw|]. intros k. apply option_eq. intros e.
  rewrite (alive_get _ _ _ _ Hw), cleanup_get. naive_solver.
Qed.

Lemma mark_agrees now s g key ttl :
  agree now s g →
  (mark_once s now key ttl).1 = (Mem.mark_once g now key ttl).1 ∧
  agree now (mark_once s now key ttl).2 (Mem.mark_once g now key ttl).2.
Proof.
  intros Hag. destruct (agree_purged now s g Hag) as [Hw He].
  unfold mark_once, Mem.mark_once. destruct (negb _); [done|]. cbv zeta. rewrite He.
  destruct (Mem.cleanup g now !! py_strip key) eqn:E; cbn [fst snd].
  - split; [done|]. split; [done|]. intros k e _. by rewrite He.
  - split; [done|]. rewrite <- od_set_fresh by (by rewrite He). split; [by apply od_wf_set|].
    intros k e _. destruct (decide (k = py_strip key)) as [->|Hne].
    + by rewrite od_get_set, lookup_insert_eq.
    + by rewrite od_get_set_ne, lookup_insert_ne, He.
Qed.

Lemma health_agrees now s g tenant :
  agree now s g → agree now (health_metrics s now tenant).2 (Mem.health_metrics g now tenant).2.
Proof.
  intros Hag. destruct (agree_purged now s g Hag) as [Hw He].
  unfold health_metrics, Mem.health_metrics. destruct (negb _); cbn [snd].
  - split; [apply Hag|]. intros k e Hlt. rewrite cleanup_get, (ag_alive _ _ _ Hag k e Hlt). naive_solver.
  - split; [done|]. intros k e _. by rewrite He.
Qed.

Lemma cleanup_agrees now s g tenant :
  agree now s g → agree now (cleanup_retention s now tenant).2 (Mem.cleanup_retention g now tenant).2.
Proof.
  intros Hag. destruct Hag as [Hw Ha].
  assert (∀ s', od_wf s' → (∀ k e, now < e → od_get k s' = Some e ↔ od_get k s = Some e) →
    agree now s' (Mem.cleanup_retention g now tenant).2) as Hs.
  { intros s' Hw' Hs'. split; [done|]. intros k e Hlt. rewrite Hs', Ha by done.
    unfold Mem.cleanup_retention. cbn [snd]. rewrite cleanup_get. naive_solver. }
  unfold cleanup_retention. destruct (negb _); [by apply Hs|]. cbn [snd delete_where].
  apply Hs; [by apply od_wf_filter|]. intros k e Hlt.
  rewrite (od_get_filter_some _ _ _ _ Hw). unfold expired_key. cbn.
  rewrite andb_false_iff, Z.leb_gt. naive_solver.
Qed.

(** With a clock that does not run backwards the SQLite replay guard accepts and
    rejects exactly what the in-memory guard does, whatever is asked of them in between. *)
Theorem sqlite_guard_equals_memory cs :
  StronglySorted (by_key Mem.command_time) cs →
  marks [] cs = memory_marks ∅ cs.
Proof.
  assert (∀ now s g, agree now s g → Forall (λ c, now ≤ Mem.command_time c) cs →
    StronglySorted (by_key Mem.command_time) cs → marks s cs = memory_marks g cs) as Hall.
  { induction cs as [|c cs IH]; intros now s g Hag Hle Hs; [done|]. cbn [marks memory_marks].
    apply Forall_cons in Hle as [Hc _]. apply StronglySorted_inv in Hs as [Hs Hge].
    apply (agree_later _ _ _ _ Hc) in Hag.
    assert (agree (Mem.command_time c) (run_command s c) (Mem.step g c)) as Hag'.
    { destruct c; cbn [run_command Mem.step Mem.command_time] in *;
        [by apply mark_agrees|by apply health_agrees|by apply cleanup_agrees]. }
    f_equal; [|by eapply IH].
    destruct c as [now' key ttl| |]; [|done..]. f_equal. by apply mark_agrees. }
  intros Hs. destruct cs as [|c cs]; [done|].
  apply (Hall (Mem.command_time c)); [| |done].
  - split; [apply NoDup_nil_2|]. intros k e _. by rewrite lookup_empty.
  - apply StronglySorted_inv in Hs as [_ Hge]. constructor; [lia|exact Hge].
Qed.

Lemma sqlite_guard_equals_memory_witness :
  marks [] [Mem.GMark 0 "acme:claim:jti:n1" 10; Mem.GHealth 5 ""; Mem.GMark 6 "acme:claim:jti:n1 " 10;
            Mem.GMark (10 * second) "acme:claim:jti:n1" 10]
  = [true; false; true].
Proof.
  rewrite sqlite_guard_equals_memory; [vm_compute; reflexivity|].
  repeat constructor; vm_compute; discriminate.
Defined.

(** The keys a tenant's metrics count are found by [LIKE]: an underscore in the tenant's
    name matches any character, and letters match in either case. *)
Example like_counts_other_tenants :
  (health_metrics [("acme-eu:claim:jti:n1", 10); ("ACME_EU:claim:jti:n2", 10)] 0 "acme_eu").1
    = [("replay_keys_active", 2)] ∧
  (Mem.health_metrics (<["acme-eu:claim:jti:n1" := 10]> {["ACME_EU:claim:jti:n2" := 10]}) 0 "acme_eu").1
    = [("replay_keys_active", 0)].
Proof. split; vm_compute; reflexivity. Qed.
End Guard.
