(* ===== verification/FairAdmission.v ===== *)
(** * Fair admission across tenants

    Models src/policies/byoc_fairness.py: the process-local coordinator (Module
    FairAdmission) and the SQLite one (Module SQLiteFairAdmission).  A call of
    [acquire] that waits is split where it releases the lock: [acquire_start] runs up
    to the first wait, [acquire_wake] is one turn of its loop afterwards, with the
    answer of the deadline test.  [release] and the wake-ups of the waiting calls may
    interleave in any way. *)

From S2P Require Import Prelude PyValue.

Record FairAdmissionToken := mkToken { tok_tenant : string; tok_id : Z }.

#[export] Instance FairAdmissionToken_eq_dec : EqDecision FairAdmissionToken.
Proof. solve_decision. Defined.

(** [str(tenant_id).strip() or "default"] *)
Definition admission_tenant (tenant_id : string) : string := py_or (py_strip tenant_id) "default".

Lemma admission_tenant_nonempty t : admission_tenant t ≠ "".
Proof. by apply py_or_nonempty. Qed.

Lemma admission_tenant_idem t : admission_tenant (admission_tenant t) = admission_tenant t.
Proof.
  unfold admission_tenant. destruct (py_bool (py_strip t)) eqn:E; unfold py_or at 2 3; rewrite E.
  - unfold py_or. by rewrite py_strip_idem, E.
  - done.
Qed.

Module FairAdmission.

(** A pending entry is a request not granted yet; [granted] holds the ids whose
    request object has [granted] set. *)
Record t := mkCoordinator {
  max_inflight_global : Z;
  next_request_id : Z;
  pending : list FairAdmissionToken;
  inflight_by_tenant : list (string * Z);
  grants_total : list (string * Z);
  inflight_total : Z;
  granted : gset Z;
}.

Definition init (max_inflight : Z) : t := mkCoordinator (Z.max max_inflight 1) 0 [] [] [] 0 ∅.

(** *** [_pick_next_tenant] *)

Fixpoint first_seq (d : list (string * Z)) (pending : list FairAdmissionToken)
    : list (string * Z) :=
  match pending with
  | [] => d
  | item :: pending =>
      first_seq (match od_get (tok_tenant item) d with
                 | Some _ => d
                 | None => od_set (tok_tenant item) (tok_id item) d
                 end) pending
  end.

Definition count_of (m : list (string * Z)) (tenant : string) : Z := od_get_default 0 tenant m.

(** The sort key: grants so far, oldest pending request, name. *)
Definition tenant_key (grants first : list (string * Z)) (tenant : string) : Z * (Z * string) :=
  (count_of grants tenant, (count_of first tenant, tenant)).

Definition tenant_le (grants first : list (string * Z)) : relation string := λ a b,
  lex_le Z.le (lex_le Z.le String.le) (tenant_key grants first a) (tenant_key grants first b).

#[global] Instance tenant_le_dec grants first : RelDecision (tenant_le grants first).
Proof. intros a b. unfold tenant_le. apply _. Defined.

#[global] Instance tenant_le_trans grants first : Transitive (tenant_le grants first).
Proof. intros a b c. unfold tenant_le. intros. by etrans. Qed.

#[global] Instance tenant_le_total grants first : Total (tenant_le grants first).
Proof. intros a b. unfold tenant_le. apply total, _. Qed.

Definition pick_next_tenant (pending : list FairAdmissionToken) (grants : list (string * Z))
    : option string :=
  let first := first_seq [] pending in
  head (sort_by (tenant_le grants first) (od_keys first)).

(** *** [_try_grant_unlocked] *)

(** The tenant's oldest pending request, and the others. *)
Fixpoint pop_first (tenant : string) (pending : list FairAdmissionToken)
    : option (FairAdmissionToken * list FairAdmissionToken) :=
  match pending with
  | [] => None
  | item :: pending =>
      if tok_tenant item =?s tenant then Some (item, pending)
      else
        match pop_first tenant pending with
        | Some (x, rest) => Some (x, item :: rest)
        | None => None
        end
  end.

Definition grant (s : t) (tenant : string) (item : FairAdmissionToken)
    (rest : list FairAdmissionToken) : t :=
  mkCoordinator (max_inflight_global s) (next_request_id s) rest
    (od_set tenant (count_of (inflight_by_tenant s) tenant + 1) (inflight_by_tenant s))
    (od_set tenant (count_of (grants_total s) tenant + 1) (grants_total s))
    (inflight_total s + 1) ({[tok_id item]} ∪ granted s).

(** One iteration; [None] leaves the loop. *)
Definition grant_one (s : t) : option (FairAdmissionToken * t) :=
  if negb (inflight_total s <? max_inflight_global s) then None
  else
    match pick_next_tenant (pending s) (grants_total s) with
    | None => None
    | Some tenant =>
        if negb (py_bool tenant) then None
        else
          match pop_first tenant (pending s) with
          | None => None
          | Some (item, rest) => Some (item, grant s tenant item rest)
          end
    end.

(** The requests granted, in order; every iteration takes one out of [pending]. *)
Fixpoint grant_loop (fuel : nat) (s : t) : list FairAdmissionToken * t :=
  match fuel with
  | O => ([], s)
  | S fuel =>
      match grant_one s with
      | None => ([], s)
      | Some (item, s) => let '(items, s) := grant_loop fuel s in (item :: items, s)
      end
  end.

Definition try_grant (s : t) : list FairAdmissionToken * t := grant_loop (length (pending s)) s.

(** *** [acquire] *)

Inductive answer :=
| Granted (token : FairAdmissionToken)
| TimedOut
| Waits.

Definition drop_request (s : t) (id : Z) : t :=
  mkCoordinator (max_inflight_global s) (next_request_id s)
    (filter (λ item, tok_id item ≠ id) (pending s)) (inflight_by_tenant s) (grants_total s)
    (inflight_total s) (granted s).

(** One turn of [while True] for the request [token]. *)
Definition acquire_wake (s : t) (token : FairAdmissionToken) (expired : bool) : answer * t :=
  let '(_, s) := try_grant s in
  if decide (tok_id token ∈ granted s) then (Granted token, s)
  else if expired then (TimedOut, drop_request s (tok_id token))
  else (Waits, s).

Definition add_request (s : t) (tenant_id : string) : FairAdmissionToken * t :=
  let id := next_request_id s + 1 in
  let token := mkToken (admission_tenant tenant_id) id in
  (token, mkCoordinator (max_inflight_global s) id (pending s ++ [token])
            (inflight_by_tenant s) (grants_total s) (inflight_total s) (granted s)).

Definition acquire_start (s : t) (tenant_id : string) (expired : bool)
    : FairAdmissionToken * answer * t :=
  let '(token, s) := add_request s tenant_id in
  let '(a, s) := acquire_wake s token expired in
  (token, a, s).

(** *** [release] and [stats] *)

Definition give_back (s : t) (token : FairAdmissionToken) : t :=
  let tenant := admission_tenant (tok_tenant token) in
  let total := if 0 <? inflight_total s then inflight_total s - 1 else inflight_total s in
  let active := count_of (inflight_by_tenant s) tenant in
  let by_tenant :=
    if active <=? 1 then od_pop tenant (inflight_by_tenant s)
    else od_set tenant (active - 1) (inflight_by_tenant s) in
  mkCoordinator (max_inflight_global s) (next_request_id s) (pending s) by_tenant
    (grants_total s) total (granted s).

Definition release (s : t) (token : FairAdmissionToken) : t := (try_grant (give_back s token)).2.

Definition stats (s : t) : list (string * Z) :=
  [("fair_admission_max_inflight_global", max_inflight_global s);
   ("fair_admission_inflight_total", inflight_total s);
   ("fair_admission_pending_total", Z.of_nat (length (pending s)))].

(** *** Runs

    A run tracks the requests that wait and the tokens that are held: a request
    joins the holders when a grant loop takes it out of [pending], and leaves them
    when its token is released, once. *)

Inductive event :=
| EvAcquire (tenant_id : string) (expired : bool)
| EvWake (token : FairAdmissionToken) (expired : bool)
| EvRelease (token : FairAdmissionToken).

(** The granted requests of each event. *)
Definition granted_by (s : t) (e : event) : list FairAdmissionToken :=
  match e with
  | EvAcquire tenant _ => (try_grant (add_request s tenant).2).1
  | EvWake _ _ => (try_grant s).1
  | EvRelease token => (try_grant (give_back s token)).1
  end.

Definition after (s : t) (e : event) : t :=
  match e with
  | EvAcquire tenant expired => (acquire_start s tenant expired).2
  | EvWake token expired => (acquire_wake s token expired).2
  | EvRelease token => release s token
  end.

Definition released_by (e : event) : list FairAdmissionToken :=
  match e with EvRelease token => [token] | _ => [] end.

(** The state and the tokens held; only held tokens are released. *)
Inductive reachable (max_inflight : Z) : t → list FairAdmissionToken → Prop :=
| reach_init : reachable max_inflight (init max_inflight) []
| reach_event s held held' e :
    reachable max_inflight s held →
    held ++ granted_by s e ≡ₚ released_by e ++ held' →
    (∀ token, e = EvRelease token → token ∈ held) →
    reachable max_inflight (after s e) held'.

End FairAdmission.

Module SQLiteFairAdmission.

Record slot := mkSlot {
  slot_id : Z;
  slot_tenant : string;
  acquired_at : Z;
  expires_at : Z;
  slot_released : bool;
}.

Record t := mkSlots {
  max_inflight_global : Z;
  lease_seconds : Z;
  slots : list slot;
  last_slot_id : Z;
}.

Definition init (max_inflight lease : Z) : t :=
  mkSlots (Z.max max_inflight 1) (Z.max lease 1) [] 0.

Definition with_slots (s : t) (l : list slot) : t :=
  mkSlots (max_inflight_global s) (lease_seconds s) l (last_slot_id s).

Definition stale (now : Z) (r : slot) : bool := slot_released r || (expires_at r <=? now).

(** [_cleanup_expired] *)
Definition cleanup_expired (s : t) (now : Z) : t :=
  with_slots s (filter (λ r, stale now r = false) (slots s)).

(** [SELECT COUNT( * ) ... WHERE released = 0] *)
Definition inflight (s : t) : Z := count_if (λ r, negb (slot_released r)) (slots s).

(** One turn of [acquire]'s loop, at [now] seconds. *)
Definition try_acquire (s : t) (now : Z) (tenant_id : string) : option FairAdmissionToken * t :=
  let s := cleanup_expired s now in
  if inflight s <? max_inflight_global s then
    let id := last_slot_id s + 1 in
    let tenant := admission_tenant tenant_id in
    (Some (mkToken tenant id),
     mkSlots (max_inflight_global s) (lease_seconds s)
       (slots s ++ [mkSlot id tenant now (now + lease_seconds s) false]) id)
  else (None, s).

(** [acquire]: the clock at each turn, up to the one that meets the deadline. *)
Fixpoint acquire (s : t) (nows : list Z) (tenant_id : string) : option FairAdmissionToken * t :=
  match nows with
  | [] => (None, s)
  | now :: nows =>
      match try_acquire s now tenant_id with
      | (Some token, s) => (Some token, s)
      | (None, s) => acquire s nows tenant_id
      end
  end.

Definition release_slot (id : Z) (r : slot) : slot :=
  if slot_id r =? id
  then mkSlot (slot_id r) (slot_tenant r) (acquired_at r) (expires_at r) true else r.

Definition release (s : t) (now : Z) (token : FairAdmissionToken) : t :=
  cleanup_expired (with_slots s (release_slot (tok_id token) <$> slots s)) now.

Definition stats (s : t) (now : Z) : list (string * Z) * t :=
  let s := cleanup_expired s now in
  ([("fair_admission_max_inflight_global", max_inflight_global s);
    ("fair_admission_inflight_total", inflight s); ("fair_admission_pending_total", 0)], s).

Inductive reachable (max_inflight lease : Z) : t → Prop :=
| reach_init : reachable max_inflight lease (init max_inflight lease)
| reach_acquire s nows tenant :
    reachable max_inflight lease s →
    reachable max_inflight lease (acquire s nows tenant).2
| reach_release s now token :
    reachable max_inflight lease s → reachable max_inflight lease (release s now token)
| reach_stats s now :
    reachable max_inflight lease s → reachable max_inflight lease (stats s now).2.

(** A slot whose lease runs at [now]. *)
Definition holds (s : t) (now : Z) (r : slot) : Prop :=
  r ∈ slots s ∧ slot_released r = false ∧ now < expires_at r.

Record wf (s : t) : Prop := {
  wf_max : 1 ≤ max_inflight_global s;
  wf_lease : 1 ≤ lease_seconds s;
  wf_bound : inflight s ≤ max_inflight_global s;
  wf_ids : Forall (λ r, slot_id r ≤ last_slot_id s) (slots s);
  wf_nodup : NoDup (slot_id <$> slots s);
}.

Lemma count_if_filter_le {A} (p q : A → bool) l :
  count_if p (filter (λ x, q x = true) l) ≤ count_if p l.
Proof.
  induction l as [|x l IH]; [done|]. rewrite filter_cons. case_decide; rewrite !count_if_cons; destruct (p x); lia.
Qed.

Lemma cleanup_wf s now : wf s → wf (cleanup_expired s now).
Proof.
  intros []. unfold cleanup_expired, with_slots. split; cbn; try done.
  - etrans; [|exact wf_bound0]. unfold inflight; cbn.
    rewrite (list_filter_iff _ (λ r, negb (stale now r) = true)).
    + apply count_if_filter_le.
    + intros r. by destruct (stale now r).
  - apply Forall_forall. intros r [_ Hr]%list_elem_of_filter.
    rewrite Forall_forall in wf_ids0. by apply wf_ids0.
  - eapply sublist_NoDup; [exact wf_nodup0|]. apply fmap_sublist, sublist_filter.
Qed.

Definition live (s : t) (now : Z) : Z := count_if (λ r, negb (stale now r)) (slots s).

Lemma count_if_filter {A} (p q : A → bool) l :
  count_if p (filter (λ x, q x = true) l) = count_if (λ x, q x && p x) l.
Proof.
  induction l as [|x l IH]; [done|]. rewrite filter_cons, count_if_cons.
  destruct (q x); cbn; rewrite ?decide_True, ?decide_False by done; rewrite ?count_if_cons; lia.
Qed.

Lemma inflight_cleanup s now : inflight (cleanup_expired s now) = live s now.
Proof.
  unfold inflight, live, cleanup_expired, with_slots; cbn.
  rewrite (list_filter_iff _ (λ r, negb (stale now r) = true)) by (intros r; by destruct (stale now r)).
  rewrite count_if_filter. apply count_if_ext. intros r _. unfold stale.
  by destruct (slot_released r), (_ <=? _).
Qed.

Lemma try_acquire_wf s now tenant : wf s → wf (try_acquire s now tenant).2.
Proof.
  intros Hs. pose proof (cleanup_wf s now Hs) as Hc. unfold try_acquire.
  destruct (Z.ltb_spec (inflight (cleanup_expired s now)) (max_inflight_global (cleanup_expired s now)));
    [|exact Hc].
  destruct Hc. split; cbn [snd max_inflight_global lease_seconds slots last_slot_id]; [done|done|..].
  - unfold inflight in *; cbn [slots]. rewrite count_if_app, count_if_cons, count_if_nil. cbn -[cleanup_expired].
    lia.
  - apply Forall_app. split; [|repeat constructor; cbn; lia].
    eapply Forall_impl; [exact wf_ids0|]. intros r; cbn -[cleanup_expired]. unfold cleanup_expired; cbn. lia.
  - rewrite fmap_app. apply NoDup_app. split_and!; [done| |apply NoDup_singleton].
    intros i (r & -> & Hr)%list_elem_of_fmap Hi%list_elem_of_singleton.
    rewrite Forall_forall in wf_ids0. apply wf_ids0 in Hr. cbn in Hi, Hr. lia.
Qed.

Lemma acquire_wf s nows tenant : wf s → wf (acquire s nows tenant).2.
Proof.
  revert s. induction nows as [|now nows IH]; intros s Hs; [done|]. cbn [acquire].
  pose proof (try_acquire_wf s now tenant Hs). destruct (try_acquire s now tenant) as [[tok|] s']; [done|].
  by apply IH.
Qed.

Lemma release_slots s now token :
  slots (release s now token) =
  filter (λ r, stale now r = false ∧ slot_id r ≠ tok_id token) (slots s).
Proof.
  unfold release, cleanup_expired, with_slots; cbn. induction (slots s) as [|r l IH]; [done|].
  rewrite fmap_cons, !filter_cons, IH. unfold release_slot.
  destruct (Z.eqb_spec (slot_id r) (tok_id token)) as [E|E].
  - rewrite decide_False by (unfold stale; cbn; done). by rewrite decide_False by naive_solver.
  - apply decide_ext. naive_solver.
Qed.

Lemma release_wf s now token : wf s → wf (release s now token).
Proof.
  intros []. pose proof (release_slots s now token) as E. split; [done|done|..].
  - etrans; [|exact wf_bound0]. unfold inflight. rewrite E.
    rewrite (list_filter_iff _ (λ r, negb (stale now r) && negb (slot_id r =? tok_id token) = true)).
    + by apply count_if_filter_le.
    + intros r. destruct (stale now r), (Z.eqb_spec (slot_id r) (tok_id token)); naive_solver.
  - rewrite E. apply Forall_forall. intros r [_ Hr]%list_elem_of_filter.
    rewrite Forall_forall in wf_ids0. by apply wf_ids0.
  - rewrite E. eapply sublist_NoDup; [exact wf_nodup0|]. apply fmap_sublist, sublist_filter.
Qed.

Lemma slots_reachable_wf m l s : reachable m l s → wf s ∧ max_inflight_global s = Z.max m 1.
Proof.
  induction 1 as [|s nows tenant _ [IH Hm]|s now token _ [IH Hm]|s now _ [IH Hm]].
  - split; [|done]. split; unfold inflight, count_if; cbn; (lia || constructor).
  - split; [by apply acquire_wf|]. clear -Hm. revert s Hm. induction nows as [|now nows IH]; intros s Hm; [done|].
    cbn [acquire]. unfold try_acquire.
    destruct (_ <? _); [exact Hm|by apply IH].
  - split; [by apply release_wf|exact Hm].
  - split; [by apply cleanup_wf|exact Hm].
Qed.

(** At any time at most the configured number of slots hold an unexpired lease; a
    caller of any tenant gets a slot exactly when fewer do, under an id no other
    stored slot has, and leased from that moment; releasing a token frees that slot
    and, of the others, only those already expired or released. *)
Theorem sqlite_slots_bounded m l s now tenant token :
  reachable m l s →
  live s now ≤ Z.max m 1 ∧
  match try_acquire s now tenant with
  | (Some tok, s') =>
      live s now < Z.max m 1 ∧ live s' now = live s now + 1 ∧
      tok_tenant tok = admission_tenant tenant ∧
      (∀ r, r ∈ slots s → slot_id r ≠ tok_id tok) ∧
      ∃ r, r ∈ slots s' ∧ slot_id r = tok_id tok ∧ now < expires_at r
  | (None, s') => live s now = Z.max m 1 ∧ live s' now = live s now
  end ∧
  slots (release s now token) =
    filter (λ r, stale now r = false ∧ slot_id r ≠ tok_id token) (slots s).
Proof.
  intros [Hwf Hm]%slots_reachable_wf. pose proof (cleanup_wf s now Hwf) as Hc.
  pose proof (inflight_cleanup s now) as Hi.
  assert (live s now ≤ Z.max m 1) as Hle.
  { rewrite <- Hi, <- Hm. exact (wf_bound _ Hc). }
  assert (live (cleanup_expired s now) now = live s now) as Hl.
  { unfold live at 1, cleanup_expired, with_slots; cbn.
    rewrite (list_filter_iff _ (λ r, negb (stale now r) = true)) by (intros r; by destruct (stale now r)).
    rewrite count_if_filter. apply count_if_ext. intros r _. by destruct (stale now r). }
  split; [done|]. split; [|apply release_slots]. unfold try_acquire. rewrite Hi.
  change (max_inflight_global (cleanup_expired s now)) with (max_inflight_global s). rewrite Hm.
  destruct (Z.ltb_spec (live s now) (Z.max m 1)); [|split; [lia|done]].
  pose proof (wf_lease _ Hwf) as Hlease.
  split_and!; [done| |done| |].
  - unfold live at 1; cbn [slots]. rewrite count_if_app, count_if_cons, count_if_nil.
    fold (live (cleanup_expired s now) now). rewrite Hl. unfold stale; cbn.
    destruct (Z.leb_spec (now + lease_seconds s) now); cbn; lia.
  - intros r Hr. pose proof (wf_ids _ Hwf) as Hids. rewrite Forall_forall in Hids.
    specialize (Hids r Hr). cbn. lia.
  - eexists. split; [apply elem_of_app; right; apply list_elem_of_here|]. cbn. split; [done|lia].
Qed.

Lemma sqlite_slots_bounded_witness :
  let s := (acquire (acquire (init 1 30) [100] "a").2 [110; 129] "b").2 in
  (acquire s [130] "b").1 = Some (mkToken "b" 2) ∧ (acquire s [129] "b").1 = None ∧
  live s 129 ≤ 1.
Proof.
  cbv zeta. split; [vm_compute; reflexivity|]. split; [vm_compute; reflexivity|].
  apply (sqlite_slots_bounded 1 30 _ 129 "b" (mkToken "a" 1)).
  repeat constructor.
Defined.

End SQLiteFairAdmission.

(** ** What the process-local coordinator guarantees *)
Module FairFacts.
Import FairAdmission.

(** *** The next tenant *)

Lemma od_get_first_seq d p u :
  od_get u (first_seq d p) =
  match od_get u d with
  | Some v => Some v
  | None => tok_id <$> head (filter (λ i, tok_tenant i = u) p)
  end.
Proof.
  revert d. induction p as [|x p IH]; intros d; cbn [first_seq]; [by destruct (od_get u d)|].
  rewrite IH, filter_cons. destruct (decide (tok_tenant x = u)) as [<-|Hne].
  - destruct (od_get (tok_tenant x) d) eqn:E; [by rewrite E|]. by rewrite od_get_set.
  - destruct (od_get (tok_tenant x) d) eqn:E; [done|]. by rewrite od_get_set_ne.
Qed.

Lemma first_seq_keys p u : u ∈ od_keys (first_seq [] p) ↔ u ∈ tok_tenant <$> p.
Proof.
  rewrite <- od_get_Some_key, od_get_first_seq. cbn [od_get].
  rewrite fmap_is_Some, list_elem_of_fmap. split.
  - intros [x Hx]. assert (x ∈ filter (λ i, tok_tenant i = u) p) as Hin.
    { destruct (filter _ p); [done|]. injection Hx as ->. apply list_elem_of_here. }
    apply list_elem_of_filter in Hin as [<- Hin]. eauto.
  - intros (x & -> & Hx). destruct (filter _ p) eqn:E; [|eauto]. exfalso.
    assert (x ∈ filter (λ i, tok_tenant i = tok_tenant x) p) as Hin by by apply list_elem_of_filter.
    rewrite E in Hin. by apply elem_of_nil in Hin.
Qed.

Lemma pick_next_tenant_spec p grants :
  match pick_next_tenant p grants with
  | Some u =>
      u ∈ tok_tenant <$> p ∧
      ∀ v, v ∈ tok_tenant <$> p → count_of grants u ≤ count_of grants v
  | None => p = []
  end.
Proof.
  unfold pick_next_tenant. set (first := first_seq [] p).
  pose proof (sort_by_sorted (tenant_le grants first) (od_keys first)) as Hs.
  pose proof (elem_of_sort_by (tenant_le grants first)) as Hin.
  destruct (sort_by _ _) as [|u l] eqn:E; cbn [head].
  - destruct p as [|x p]; [done|]. exfalso.
    assert (tok_tenant x ∈ od_keys first) as Hx by (apply first_seq_keys, list_elem_of_here).
    rewrite <- Hin, E in Hx. by apply elem_of_nil in Hx.
  - assert (∀ v, v ∈ tok_tenant <$> p → v ∈ u :: l) as Hall.
    { intros v Hv. apply first_seq_keys in Hv. by rewrite <- E, Hin. }
    split.
    + apply first_seq_keys. fold first. rewrite <- Hin, E. apply list_elem_of_here.
    + intros v [->|Hv]%Hall%elem_of_cons; [done|]. apply StronglySorted_inv in Hs as [_ Hs].
      rewrite Forall_forall in Hs. specialize (Hs v Hv).
      destruct Hs as [[_ H]|[H _]]; cbn in H; lia.
Qed.

Lemma pop_first_spec u p x rest :
  pop_first u p = Some (x, rest) →
  ∃ pre post, p = pre ++ x :: post ∧ rest = pre ++ post ∧ tok_tenant x = u ∧
    Forall (λ y, tok_tenant y ≠ u) pre.
Proof.
  revert rest. induction p as [|y p IH]; intros rest; [done|]. cbn [pop_first].
  case_bool_decide as Hy.
  - intros [= <- <-]. exists [], p. by split_and!.
  - destruct (pop_first u p) as [[x' rest']|]; [|done]. intros [= <- <-].
    destruct (IH rest' eq_refl) as (pre & post & -> & -> & ? & ?).
    exists (y :: pre), post. split_and!; try done. by constructor.
Qed.

Lemma pop_first_is_Some u p : u ∈ tok_tenant <$> p → is_Some (pop_first u p).
Proof.
  induction p as [|y p IH]; [by intros ?%elem_of_nil|]. cbn [pop_first].
  case_bool_decide as Hy; [eauto|]. rewrite fmap_cons. intros [->|Hu]%elem_of_cons; [done|].
  destruct (IH Hu) as [[x rest] ->]. eauto.
Qed.

Definition named (p : list FairAdmissionToken) : Prop :=
  Forall (λ x, tok_tenant x ≠ "" ∧ admission_tenant (tok_tenant x) = tok_tenant x) p.

(** One grant: the oldest request of a tenant with the fewest grants. *)
Lemma grant_one_spec s :
  named (pending s) →
  match grant_one s with
  | None => pending s = [] ∨ max_inflight_global s ≤ inflight_total s
  | Some (x, s') =>
      inflight_total s < max_inflight_global s ∧
      ∃ pre post, pending s = pre ++ x :: post ∧ s' = grant s (tok_tenant x) x (pre ++ post) ∧
        Forall (λ y, tok_tenant y ≠ tok_tenant x) pre ∧
        ∀ v, v ∈ tok_tenant <$> pending s →
          count_of (grants_total s) (tok_tenant x) ≤ count_of (grants_total s) v
  end.
Proof.
  intros Hn. unfold grant_one.
  destruct (Z.ltb_spec (inflight_total s) (max_inflight_global s)) as [Hlt|]; cbn [negb]; [|by right].
  pose proof (pick_next_tenant_spec (pending s) (grants_total s)) as Hp.
  destruct (pick_next_tenant _ _) as [u|]; [|by left]. destruct Hp as [Hu Hmin].
  assert (py_bool u = true) as ->.
  { apply list_elem_of_fmap in Hu as (x & -> & Hx). unfold named in Hn. rewrite Forall_forall in Hn.
    apply py_bool_true, Hn, Hx. }
  cbn [negb]. destruct (pop_first_is_Some _ _ Hu) as [[x rest] E]. rewrite E.
  apply pop_first_spec in E as (pre & post & Ep & -> & <- & Hpre). split; [done|].
  exists pre, post. by split_and!.
Qed.

(** *** The invariant *)

Record inv (m : Z) (s : t) (held : list FairAdmissionToken) : Prop := {
  i_max : max_inflight_global s = Z.max m 1;
  i_total : inflight_total s = Z.of_nat (length held);
  i_bound : Z.of_nat (length held) ≤ Z.max m 1;
  i_by : ∀ u, count_of (inflight_by_tenant s) u = count_if (λ x, tok_tenant x =?s u) held;
  i_named : named (held ++ pending s);
  i_nodup : NoDup (tok_id <$> held ++ pending s);
  i_next : ∀ x, x ∈ held ++ pending s → tok_id x ≤ next_request_id s;
  i_held : ∀ x, x ∈ held → tok_id x ∈ granted s;
  i_pending : ∀ x, x ∈ pending s → tok_id x ∉ granted s;
  i_ids : ∀ i, i ∈ granted s → i ≤ next_request_id s;
}.

Lemma inv_perm m s held held' : held ≡ₚ held' → inv m s held → inv m s held'.
Proof.
  intros E []. split; try done.
  - by rewrite <- E.
  - by rewrite <- E.
  - intros u. rewrite i_by0. unfold count_if. by rewrite E.
  - unfold named. by rewrite <- E.
  - by rewrite <- E.
  - intros x. rewrite <- E. apply i_next0.
  - intros x. rewrite <- E. apply i_held0.
Qed.

Lemma count_of_set m u n v : count_of (od_set u n m) v = if decide (u = v) then n else count_of m v.
Proof.
  unfold count_of, od_get_default. case_decide as E; [subst; by rewrite od_get_set|].
  by rewrite od_get_set_ne.
Qed.

Lemma count_of_pop m u v : count_of (od_pop u m) v = if decide (u = v) then 0 else count_of m v.
Proof.
  unfold count_of, od_get_default. case_decide as E; [subst; by rewrite od_get_pop|].
  by rewrite od_get_pop_ne.
Qed.

Lemma inv_grant_one m s held x s' :
  inv m s held → grant_one s = Some (x, s') → inv m s' (held ++ [x]).
Proof.
  intros Hi E. pose proof (grant_one_spec s) as Hs. rewrite E in Hs. destruct Hi.
  destruct Hs as (Hlt & pre & post & Hp & -> & _ & _).
  { unfold named in *. by apply Forall_app in i_named0 as [_ ?]. }
  assert ((held ++ [x]) ++ pre ++ post ≡ₚ held ++ pending s) as Hperm.
  { rewrite Hp, <- app_assoc. apply Permutation_app_head. cbn. apply Permutation_middle. }
  split; cbn [max_inflight_global inflight_total pending inflight_by_tenant next_request_id granted grant].
  - done.
  - rewrite length_app. cbn. lia.
  - rewrite length_app. cbn. lia.
  - intros u. rewrite count_of_set, count_if_app, count_if_cons, count_if_nil, !i_by0.
    repeat case_bool_decide; case_decide; try congruence; subst; lia.
  - unfold named. by rewrite Hperm.
  - by rewrite Hperm.
  - intros y. rewrite Hperm. apply i_next0.
  - intros y [Hy| ->%list_elem_of_singleton]%elem_of_app; [|set_solver]. apply elem_of_union_r. auto.
  - intros y Hy. assert (y ∈ pending s) as Hy' by (rewrite Hp; set_solver).
    apply not_elem_of_union. split; [|by apply i_pending0].
    rewrite not_elem_of_singleton. intros Eid. rewrite <- Hperm, <- app_assoc, fmap_app in i_nodup0.
    apply NoDup_app in i_nodup0 as (_ & _ & Hnd). cbn in Hnd. apply NoDup_cons in Hnd as [Hnd _].
    apply Hnd. rewrite <- Eid. by apply list_elem_of_fmap_2.
  - intros i [->%elem_of_singleton|Hg]%elem_of_union; [|auto]. apply i_next0. rewrite Hp. set_solver.
Qed.

Lemma grant_loop_ind m (P : t → Prop) :
  (∀ s held x s', inv m s held → grant_one s = Some (x, s') → P s → P s') →
  ∀ fuel s held, inv m s held → P s →
  let '(items, s') := grant_loop fuel s in P s' ∧ inv m s' (held ++ items).
Proof.
  intros Hstep fuel. induction fuel as [|fuel IH]; intros s held Hi HP; cbn [grant_loop].
  { by rewrite app_nil_r. }
  destruct (grant_one s) as [[x s1]|] eqn:E; [|by rewrite app_nil_r].
  pose proof (inv_grant_one _ _ _ _ _ Hi E) as Hi1.
  specialize (IH s1 (held ++ [x]) Hi1 (Hstep _ _ _ _ Hi E HP)).
  destruct (grant_loop fuel s1) as [items s2]. by rewrite <- app_assoc in IH.
Qed.

Lemma grant_loop_done m fuel s held :
  inv m s held → (length (pending s) ≤ fuel)%nat →
  let '(items, s') := grant_loop fuel s in
  inv m s' (held ++ items) ∧ items ++ pending s' ≡ₚ pending s ∧
  (pending s' = [] ∨ Z.of_nat (length (held ++ items)) = Z.max m 1).
Proof.
  revert s held. induction fuel as [|fuel IH]; intros s held Hi Hf; cbn [grant_loop].
  { rewrite app_nil_r. split_and!; [done|done|]. left. by destruct (pending s); [|cbn in Hf; lia]. }
  pose proof (grant_one_spec s) as Hs.
  destruct (grant_one s) as [[x s1]|] eqn:E.
  - destruct Hs as (_ & pre & post & Hp & Hs1 & _).
    { destruct Hi. unfold named in *. by apply Forall_app in i_named0 as [_ ?]. }
    assert (pending s1 = pre ++ post) as Hp1 by by subst.
    specialize (IH s1 (held ++ [x]) (inv_grant_one _ _ _ _ _ Hi E)).
    destruct (grant_loop fuel s1) as [items s2]. rewrite <- app_assoc in IH.
    destruct IH as (Hi2 & Hperm & Hw).
    { rewrite Hp1. rewrite Hp in Hf. rewrite length_app in *. cbn in Hf. lia. }
    split_and!; [done| |done]. cbn [app]. rewrite Hperm, Hp1, Hp. apply Permutation_middle.
  - rewrite app_nil_r. split_and!; [done|done|].
    destruct Hi. destruct Hs as [Hs|Hs]; [|by left|right; lia].
    unfold named in *. by apply Forall_app in i_named0 as [_ ?].
Qed.

Lemma inv_add_request m s held tenant :
  inv m s held → inv m (add_request s tenant).2 held.
Proof.
  intros []. split; cbn [snd add_request max_inflight_global inflight_total pending inflight_by_tenant
    next_request_id granted]; try done.
  - rewrite app_assoc. apply Forall_app. split; [done|]. repeat constructor; cbn.
    + apply admission_tenant_nonempty.
    + apply admission_tenant_idem.
  - rewrite app_assoc, fmap_app. apply NoDup_app. split_and!; [done| |apply NoDup_singleton].
    intros i (x & -> & Hx)%list_elem_of_fmap Hi%list_elem_of_singleton. apply i_next0 in Hx. cbn in Hi. lia.
  - intros x. rewrite app_assoc. intros [Hx| ->%list_elem_of_singleton]%elem_of_app; [|cbn; lia].
    apply i_next0 in Hx. lia.
  - intros x [Hx| ->%list_elem_of_singleton]%elem_of_app; [by apply i_pending0|].
    cbn. intros Hg%i_ids0. lia.
  - intros i Hi%i_ids0. lia.
Qed.

Lemma inv_drop_request m s held id : inv m s held → inv m (drop_request s id) held.
Proof.
  intros []. assert (∀ x, x ∈ held ++ filter (λ i, tok_id i ≠ id) (pending s) → x ∈ held ++ pending s) as Hsub.
  { intros x. rewrite !elem_of_app, list_elem_of_filter. tauto. }
  split; cbn [drop_request max_inflight_global inflight_total pending inflight_by_tenant
    next_request_id granted]; try done.
  - apply Forall_forall. intros x Hx%Hsub. unfold named in i_named0. rewrite Forall_forall in i_named0. auto.
  - eapply sublist_NoDup; [exact i_nodup0|]. apply fmap_sublist, sublist_app; [done|apply sublist_filter].
  - intros x Hx%Hsub. auto.
  - intros x [_ Hx]%list_elem_of_filter. auto.
Qed.

Lemma inv_give_back m s token held : inv m s (token :: held) → inv m (give_back s token) held.
Proof.
  intros []. assert (admission_tenant (tok_tenant token) = tok_tenant token) as Ht.
  { unfold named in i_named0. rewrite Forall_forall in i_named0. by apply i_named0, list_elem_of_here. }
  assert (∀ x, x ∈ held ++ pending s → x ∈ token :: held ++ pending s) as Hsub
    by (intros; by apply list_elem_of_further).
  cbn in i_total0, i_bound0.
  split; unfold give_back; rewrite ?Ht; cbn [max_inflight_global inflight_total pending
    inflight_by_tenant next_request_id granted]; try done.
  - destruct (Z.ltb_spec 0 (inflight_total s)); lia.
  - lia.
  - intros u. specialize (i_by0 u) as Hu. rewrite count_if_cons in Hu.
    pose proof (i_by0 (tok_tenant token)) as Hown. rewrite count_if_cons, bool_decide_true in Hown by done.
    pose proof (count_if_nonneg (λ x, tok_tenant x =?s tok_tenant token) held).
    destruct (Z.leb_spec (count_of (inflight_by_tenant s) (tok_tenant token)) 1);
      rewrite ?count_of_pop, ?count_of_set; destruct (decide (tok_tenant token = u)) as [<-|];
      (lia || (rewrite bool_decide_false in Hu by done; lia)).
  - by apply Forall_cons in i_named0 as [_ ?].
  - by apply NoDup_cons in i_nodup0 as [_ ?].
  - auto.
  - intros x Hx. apply i_held0. by apply list_elem_of_further.
Qed.

Lemma try_grant_inv m s held :
  inv m s held →
  let '(items, s') := try_grant s in
  inv m s' (held ++ items) ∧ items ++ pending s' ≡ₚ pending s ∧
  (pending s' = [] ∨ Z.of_nat (length (held ++ items)) = Z.max m 1).
Proof. intros Hi. by apply grant_loop_done. Qed.

Lemma wake_inv m s held token expired :
  inv m s held →
  inv m (acquire_wake s token expired).2 (held ++ (try_grant s).1) ∧
  (pending (acquire_wake s token expired).2 = [] ∨
   Z.of_nat (length (held ++ (try_grant s).1)) = Z.max m 1).
Proof.
  intros Hi%try_grant_inv. unfold acquire_wake. destruct (try_grant s) as [items s'].
  destruct Hi as (Hi & _ & Hw). case_decide; [done|]. destruct expired; [|done]. cbn [fst snd].
  split; [by apply inv_drop_request|]. destruct Hw as [E|Hw]; [left|by right].
  unfold drop_request; cbn. by rewrite E.
Qed.

Definition settled (m : Z) (s : t) (held : list FairAdmissionToken) : Prop :=
  inv m s held ∧ (pending s = [] ∨ Z.of_nat (length held) = Z.max m 1).

Lemma settled_perm m s held held' : held ≡ₚ held' → settled m s held → settled m s held'.
Proof. intros E [Hi Hw]. split; [by eapply inv_perm|]. by rewrite <- E. Qed.

Lemma admission_reachable_inv m s held : reachable m s held → settled m s held.
Proof.
  induction 1 as [|s held held' e _ [IH Hw] Hperm Hrel].
  - split; [|by left]. split; try done; cbn; try lia; try constructor; try set_solver.
  - destruct e as [tenant expired|token expired|token]; cbn [granted_by released_by after app] in *.
    + apply (settled_perm _ _ _ _ Hperm). apply (inv_add_request _ _ _ tenant) in IH.
      unfold acquire_start. destruct (add_request s tenant) as [token s1]; cbn [fst snd] in *.
      apply (wake_inv _ _ _ token expired) in IH. by destruct (acquire_wake s1 token expired).
    + apply (settled_perm _ _ _ _ Hperm). by apply wake_inv.
    + specialize (Hrel token eq_refl). apply elem_of_Permutation in Hrel as [held0 E].
      rewrite E in Hperm. cbn in Hperm. apply Permutation_cons_inv in Hperm.
      apply (settled_perm _ _ _ _ Hperm).
      apply (inv_perm _ _ _ _ E), inv_give_back, try_grant_inv in IH. unfold release.
      change (grant_loop _ _) with (try_grant (give_back s token)).
      destruct (try_grant _) as [items s']. destruct IH as (IH & _ & Hw'). by split.
Qed.

(** C39: In every run in which only held tokens are released, and each once, the
    coordinator's counters are exactly the tokens held, in total and per tenant, never
    more than the configured maximum; it leaves no request waiting while capacity is
    free; and a call of [acquire] is answered by its own token exactly when its request
    is among the granted, otherwise it waits in the queue or, past its deadline, times
    out and leaves the queue. *)
Theorem admission_bounded_work_conserving m s held token expired :
  reachable m s held →
  inflight_total s = Z.of_nat (length held) ∧ inflight_total s ≤ Z.max m 1 ∧
  (pending s = [] ∨ inflight_total s = Z.max m 1) ∧
  (∀ u, count_of (inflight_by_tenant s) u = count_if (λ x, tok_tenant x =?s u) held) ∧
  NoDup (held ++ pending s) ∧
  (token ∈ held ++ pending s →
   let '(a, s') := acquire_wake s token expired in
   let held' := held ++ (try_grant s).1 in
   match a with
   | Granted token' => token' = token ∧ token ∈ held'
   | TimedOut => expired = true ∧ token ∉ held' ∧ token ∉ pending s'
   | Waits => expired = false ∧ token ∉ held' ∧ token ∈ pending s'
   end).
Proof.
  intros Hr. destruct (admission_reachable_inv _ _ _ Hr) as [Hi Hw]. pose proof (try_grant_inv _ _ _ Hi) as Ht.
  pose proof (NoDup_fmap_1 tok_id _ (i_nodup _ _ _ Hi)) as Hnd.
  split_and!; [apply Hi|destruct Hi; lia|destruct Hi; intuition lia|apply Hi|done|].
  intros Htok. unfold acquire_wake. destruct (try_grant s) as [items s']. cbn [fst].
  destruct Ht as (Hi' & Hperm & _).
  assert (token ∈ (held ++ items) ++ pending s') as Hin by (by rewrite <- app_assoc, Hperm).
  apply elem_of_app in Hin as [Hin|Hin].
  - rewrite decide_True by (by apply Hi'). done.
  - rewrite decide_False by (by apply Hi'). pose proof (i_nodup _ _ _ Hi') as Hnd'.
    assert (token ∉ held ++ items) as Hnot.
    { intros Hh. rewrite fmap_app in Hnd'. apply NoDup_app in Hnd' as (_ & Hdis & _).
      apply (Hdis (tok_id token)); by apply list_elem_of_fmap_2. }
    destruct expired; split_and!; try done.
    cbn [pending drop_request]. by intros [? _]%list_elem_of_filter.
Qed.

(** *** Fairness *)

(** How many requests of its own tenant are before [b] in the queue. *)
Fixpoint ahead (b : FairAdmissionToken) (p : list FairAdmissionToken) : Z :=
  match p with
  | [] => 0
  | x :: p =>
      if decide (x = b) then 0
      else (if tok_tenant x =?s tok_tenant b then 1 else 0) + ahead b p
  end.

Lemma ahead_nonneg b p : 0 ≤ ahead b p.
Proof. induction p as [|x p IH]; cbn [ahead]; [lia|]. case_decide; [lia|]. case_bool_decide; lia. Qed.

Lemma ahead_app_in b p q : b ∈ p → ahead b (p ++ q) = ahead b p.
Proof.
  induction p as [|x p IH]; [by intros ?%elem_of_nil|]. cbn [ahead app]. case_decide as Hx; [done|].
  intros [->|Hb]%elem_of_cons; [done|]. by rewrite IH.
Qed.

Lemma ahead_filter b (P : FairAdmissionToken → Prop) `{!∀ x, Decision (P x)} p :
  b ∈ filter P p → ahead b (filter P p) ≤ ahead b p.
Proof.
  induction p as [|x p IH]; [done|]. rewrite filter_cons. cbn [ahead].
  destruct (decide (P x)) as [HP|HP].
  - cbn [ahead]. destruct (decide (x = b)) as [|Hne]; [done|].
    intros [->|Hb]%elem_of_cons; [done|]. specialize (IH Hb). lia.
  - intros Hb. destruct (decide (x = b)) as [->|Hne]; [by apply list_elem_of_filter in Hb as [? _]|].
    specialize (IH Hb). case_bool_decide; lia.
Qed.

Lemma ahead_skip b pre q :
  Forall (λ y, tok_tenant y ≠ tok_tenant b) pre → ahead b (pre ++ q) = ahead b q.
Proof.
  induction 1 as [|y pre Hy _ IH]; [done|]. cbn [ahead app].
  rewrite decide_False by congruence. by rewrite bool_decide_false, IH by done.
Qed.

Lemma ahead_other b pre x q :
  tok_tenant x ≠ tok_tenant b → ahead b (pre ++ x :: q) = ahead b (pre ++ q).
Proof.
  intros Hx. induction pre as [|y pre IH]; cbn [ahead app]; [|case_decide; [done|by rewrite IH]].
  rewrite decide_False by congruence. by rewrite bool_decide_false by done.
Qed.

(** Runs during which the request [b] stays in the queue. *)
Inductive waiting (b : FairAdmissionToken) (s0 : t) (held0 : list FairAdmissionToken)
    : t → list FairAdmissionToken → Prop :=
| wait_refl : b ∈ pending s0 → waiting b s0 held0 s0 held0
| wait_event s held held' e :
    waiting b s0 held0 s held →
    held ++ granted_by s e ≡ₚ released_by e ++ held' →
    (∀ token, e = EvRelease token → token ∈ held) →
    b ∈ pending (after s e) →
    waiting b s0 held0 (after s e) held'.

Definition within (b : FairAdmissionToken) (s0 : t) (s : t) : Prop :=
  let bound := count_of (grants_total s0) (tok_tenant b) + ahead b (pending s0) in
  b ∈ pending s →
  count_of (grants_total s) (tok_tenant b) + ahead b (pending s) ≤ bound ∧
  ∀ u, count_of (grants_total s) u ≤ Z.max (count_of (grants_total s0) u) (bound + 1).

Lemma within_grant_one b s0 m s held x s' :
  inv m s held → grant_one s = Some (x, s') → within b s0 s → within b s0 s'.
Proof.
  intros Hi E HP. pose proof (grant_one_spec s) as Hs. rewrite E in Hs. destruct Hi.
  destruct Hs as (_ & pre & post & Hp & -> & Hpre & Hmin).
  { unfold named in *. by apply Forall_app in i_named0 as [_ ?]. }
  unfold within in *. cbn [grant pending grants_total]. intros Hb.
  assert (b ∈ pending s) as Hb' by (rewrite Hp; set_solver). specialize (HP Hb') as [H1 H2].
  assert (x ≠ b) as Hne.
  { intros ->. rewrite Hp, fmap_app in i_nodup0. apply NoDup_app in i_nodup0 as (_ & _ & Hnd).
    rewrite fmap_app, fmap_cons, <- Permutation_middle, <- fmap_app in Hnd.
    apply NoDup_cons in Hnd as [Hnd _]. apply Hnd. by apply list_elem_of_fmap_2. }
  pose proof (Hmin (tok_tenant b) (list_elem_of_fmap_2 _ _ _ Hb')) as Hle.
  pose proof (ahead_nonneg b (pending s)). rewrite Hp in H1, H.
  destruct (decide (tok_tenant x = tok_tenant b)) as [Et|Et].
  - rewrite Et in *. rewrite (ahead_skip b pre) in * by done. cbn [ahead] in *.
    rewrite decide_False in * by done. rewrite bool_decide_true in * by done.
    pose proof (ahead_nonneg b post). split.
    + rewrite count_of_set, decide_True by done. lia.
    + intros u. rewrite count_of_set. destruct (decide (tok_tenant b = u)) as [<-|]; [lia|apply H2].
  - rewrite (ahead_other b pre x post Et) in *. split.
    + by rewrite count_of_set, decide_False by done.
    + intros u. rewrite count_of_set. destruct (decide (tok_tenant x = u)) as [<-|]; [|apply H2].
      pose proof (H2 (tok_tenant x)). lia.
Qed.

Lemma within_try_grant b s0 m s held :
  inv m s held → within b s0 s → within b s0 (try_grant s).2.
Proof.
  intros Hi HP. unfold try_grant.
  pose proof (grant_loop_ind m (within b s0) (within_grant_one b s0 m) (length (pending s)) s held Hi HP).
  destruct (grant_loop _ _). tauto.
Qed.

Lemma within_wake b s0 m s held token expired :
  inv m s held → within b s0 s → within b s0 (acquire_wake s token expired).2.
Proof.
  intros Hi HP. pose proof (within_try_grant b s0 m s held Hi HP) as H. unfold acquire_wake.
  destruct (try_grant s) as [items s']. cbn [snd] in H. case_decide; [done|]. destruct expired; [|done].
  unfold within in *. cbn [snd drop_request pending grants_total]. intros Hb.
  pose proof (ahead_filter b _ _ Hb). apply list_elem_of_filter in Hb as [_ Hb].
  destruct (H Hb). split; [lia|done].
Qed.

Lemma waiting_within b s0 held0 m s held :
  reachable m s0 held0 → waiting b s0 held0 s held →
  reachable m s held ∧ within b s0 s ∧ b ∈ pending s.
Proof.
  intros Hr. induction 1 as [|s held held' e _ (Hr' & HP & Hb) Hperm Hrel Hb'].
  - split_and!; [done| |done]. intros _. split; [lia|]. intros u. lia.
  - split_and!; [by eapply reach_event| |done].
    pose proof (admission_reachable_inv _ _ _ Hr') as [Hi _].
    destruct e as [tenant expired|token expired|token]; cbn [after].
    + unfold acquire_start. pose proof (inv_add_request m s held tenant Hi) as Hi1.
      assert (within b s0 (add_request s tenant).2) as HP1.
      { unfold within in *. cbn [snd add_request pending grants_total]. intros _. rewrite ahead_app_in by done.
        auto. }
      destruct (add_request s tenant) as [token s1]; cbn [fst snd] in *.
      pose proof (within_wake b s0 m s1 held token expired Hi1 HP1). by destruct (acquire_wake s1 token expired).
    + by eapply within_wake.
    + specialize (Hrel token eq_refl). apply elem_of_Permutation in Hrel as [h E].
      eapply within_try_grant; [by eapply inv_give_back, inv_perm|]. exact HP.
Qed.

(** However the calls interleave, while a request waits its tenant gets at most as
    many grants as it had requests ahead of it, and no other tenant's lifetime grants
    grow beyond that tenant's by more than one: a request is overtaken only by older
    requests of its tenant and by tenants that have had fewer grants. *)
Theorem bypass_bounded m s0 held0 b s held :
  reachable m s0 held0 →
  waiting b s0 held0 s held →
  let bound := count_of (grants_total s0) (tok_tenant b) + ahead b (pending s0) in
  count_of (grants_total s) (tok_tenant b) ≤ bound ∧
  ∀ u, count_of (grants_total s) u ≤ Z.max (count_of (grants_total s0) u) (bound + 1).
Proof.
  intros Hr Hw. destruct (waiting_within _ _ _ _ _ _ Hr Hw) as (_ & HP & Hb).
  destruct (HP Hb) as [H1 H2]. pose proof (ahead_nonneg b (pending s)). cbv zeta. split; [lia|exact H2].
Qed.

(** *** A run

    One slot: tenant a is served twice and asks again, then the newcomer b asks
    twice; b is served first although a's request is older. *)

Definition tok (tenant : string) (id : Z) : FairAdmissionToken := mkToken tenant id.
Definition s1 : t := after (init 1) (EvAcquire "a" false).
Definition s2 : t := after s1 (EvAcquire " a " false).
Definition s3 : t := after s2 (EvRelease (tok "a" 1)).
Definition s4 : t := after s3 (EvAcquire "a" false).
Definition s5 : t := after s4 (EvAcquire "b" false).
Definition s6 : t := after s5 (EvRelease (tok "a" 2)).

Ltac reach_event H e :=
  refine (reach_event _ _ _ _ e H _ _);
  [vm_compute; reflexivity
  |intros ? E; first [discriminate E | injection E as <-; apply list_elem_of_here]].

Lemma s1_reachable : reachable 1 s1 [tok "a" 1].
Proof. reach_event (reach_init 1) (EvAcquire "a" false). Qed.
Lemma s2_reachable : reachable 1 s2 [tok "a" 1].
Proof. reach_event s1_reachable (EvAcquire " a " false). Qed.
Lemma s3_reachable : reachable 1 s3 [tok "a" 2].
Proof. reach_event s2_reachable (EvRelease (tok "a" 1)). Qed.
Lemma s4_reachable : reachable 1 s4 [tok "a" 2].
Proof. reach_event s3_reachable (EvAcquire "a" false). Qed.

Lemma admission_bounded_work_conserving_witness :
  inflight_total s4 = 1 ∧ pending s4 = [tok "a" 3] ∧
  (acquire_wake s4 (tok "a" 3) true).1 = TimedOut ∧
  NoDup ([tok "a" 2] ++ pending s4).
Proof.
  split; [vm_compute; reflexivity|]. split; [vm_compute; reflexivity|].
  split; [vm_compute; reflexivity|].
  destruct (admission_bounded_work_conserving 1 s4 [tok "a" 2] (tok "a" 3) true s4_reachable)
    as (_ & _ & _ & _ & H & _).
  exact H.
Defined.

Lemma s6_waiting : waiting (tok "a" 3) s4 [tok "a" 2] s6 [tok "b" 4].
Proof.
  refine (wait_event _ _ _ _ [tok "a" 2] _ (EvRelease (tok "a" 2)) _ _ _ _).
  - refine (wait_event _ _ _ _ [tok "a" 2] _ (EvAcquire "b" false) (wait_refl _ _ _ _) _ _ _).
    + apply list_elem_of_here.
    + vm_compute. reflexivity.
    + intros ? E. discriminate E.
    + refine (bool_decide_unpack _ _). vm_compute. exact I.
  - vm_compute. reflexivity.
  - intros ? E. injection E as <-. apply list_elem_of_here.
  - refine (bool_decide_unpack _ _). vm_compute. exact I.
Qed.

Lemma bypass_bounded_witness :
  count_of (grants_total s4) "a" = 2 ∧ count_of (grants_total s6) "b" = 1 ∧
  (count_of (grants_total s4) "a" + ahead (tok "a" 3) (pending s4) = 2) ∧
  let bound := count_of (grants_total s4) (tok_tenant (tok "a" 3)) + ahead (tok "a" 3) (pending s4) in
  count_of (grants_total s6) (tok_tenant (tok "a" 3)) ≤ bound ∧
  ∀ u, count_of (grants_total s6) u ≤ Z.max (count_of (grants_total s4) u) (bound + 1).
Proof.
  split; [vm_compute; reflexivity|]. split; [vm_compute; reflexivity|].
  split; [vm_compute; reflexivity|].
  exact (bypass_bounded 1 s4 [tok "a" 2] (tok "a" 3) s6 [tok "b" 4] s4_reachable s6_waiting).
Defined.

End FairFacts.
