(* ===== verification/AgentRegistry.v ===== *)
(** * Agents and handoff routing

    Models src/agents/contracts.py and src/agents/registry.py: the registry of agents
    by id and role, the handoff routes between roles and their fallback policies, and
    the choice of a handoff target.  An operation that may raise after it has changed
    the registry returns the registry with its answer. *)

From S2P Require Import Prelude PyValue.

Inductive AgentCapabilityTag :=
| TOOL_USE | WORKFLOW_ROUTING | REVIEW | RETRIEVAL | MCP | BACKGROUND_EXECUTION.

#[export] Instance AgentCapabilityTag_eq_dec : EqDecision AgentCapabilityTag.
Proof. solve_decision. Defined.

Definition capability_number (c : AgentCapabilityTag) : nat :=
  match c with
  | TOOL_USE => 0 | WORKFLOW_ROUTING => 1 | REVIEW => 2 | RETRIEVAL => 3 | MCP => 4
  | BACKGROUND_EXECUTION => 5
  end.

Definition numbered_capability (n : nat) : AgentCapabilityTag :=
  match n with
  | 0 => TOOL_USE | 1 => WORKFLOW_ROUTING | 2 => REVIEW | 3 => RETRIEVAL | 4 => MCP
  | _ => BACKGROUND_EXECUTION
  end%nat.

#[export] Instance AgentCapabilityTag_countable : Countable AgentCapabilityTag.
Proof. by apply (inj_countable' capability_number numbered_capability); intros []. Defined.

Definition capability_value (c : AgentCapabilityTag) : string :=
  match c with
  | TOOL_USE => "tool_use" | WORKFLOW_ROUTING => "workflow_routing" | REVIEW => "review"
  | RETRIEVAL => "retrieval" | MCP => "mcp" | BACKGROUND_EXECUTION => "background_execution"
  end.

Record AgentSpec := mkAgent {
  agent_id : string;
  role : string;
  capability_tags : gset AgentCapabilityTag;
  instructions : string;
  metadata : pydict;
}.

Record HandoffRoute := mkRoute {
  source_role : string;
  target_role : string;
  reason : string;
  required_target_capabilities : gset AgentCapabilityTag;
}.

Record HandoffFallbackPolicy := mkPolicy {
  fp_source_role : string;
  fp_target_role : string;
  fallback_target_roles : list string;
  target_role_priorities : list (string * Z);
}.

Definition has_capability (a : AgentSpec) (c : AgentCapabilityTag) : bool :=
  bool_decide (c ∈ capability_tags a).

Record AgentRegistry := mkRegistry {
  agents : list (string * AgentSpec);
  roles : list (string * string);
  routes : list ((string * string) * HandoffRoute);
  fallback_roles : list ((string * string) * list string);
  fallback_role_priorities : list ((string * string) * list (string * Z));
}.

Definition empty_registry : AgentRegistry := mkRegistry [] [] [] [] [].

Definition quoted (s : string) : string := "'" +:+ s +:+ "'".

Definition register (r : AgentRegistry) (a : AgentSpec) : res AgentRegistry :=
  guard! py_bool (py_strip (agent_id a)) else ValueError "agent_id must be a non-empty string" in
  guard! py_bool (py_strip (role a)) else ValueError "role must be a non-empty string" in
  guard! negb (od_mem (agent_id a) (agents r))
    else ValueError ("Agent " +:+ quoted (agent_id a) +:+ " is already registered") in
  guard! negb (od_mem (role a) (roles r))
    else ValueError ("Role " +:+ quoted (role a) +:+ " is already bound to another agent") in
  Ok (mkRegistry (od_set (agent_id a) a (agents r)) (od_set (role a) (agent_id a) (roles r))
        (routes r) (fallback_roles r) (fallback_role_priorities r)).

Definition get (r : AgentRegistry) (id : string) : res AgentSpec :=
  match od_get id (agents r) with
  | Some a => Ok a
  | None => Raise (KeyError ("Unknown agent_id " +:+ quoted id))
  end.

Definition get_by_role (r : AgentRegistry) (role : string) : res AgentSpec :=
  match od_get role (roles r) with
  | None => Raise (KeyError ("Unknown role " +:+ quoted role))
  | Some id =>
      match od_get id (agents r) with
      | Some a => Ok a
      | None => Raise (KeyError id)
      end
  end.

Definition unregister (r : AgentRegistry) (id : string) : res AgentRegistry :=
  let! agent := get r id in
  let role := role agent in
  Ok (mkRegistry (od_pop id (agents r)) (od_pop role (roles r))
        (filter (λ p, p.1.1 ≠ role ∧ p.1.2 ≠ role) (routes r))
        ((λ p, (p.1, filter (λ f, f ≠ role) p.2)) <$>
           filter (λ p, p.1.1 ≠ role) (fallback_roles r))
        ((λ p, (p.1, filter (λ q, q.1 ≠ role) p.2)) <$>
           filter (λ p, p.1.1 ≠ role) (fallback_role_priorities r))).

(** [[self._agents[agent_id] for agent_id in sorted(self._agents.keys())]] *)
Definition list_agents (r : AgentRegistry) : list AgentSpec :=
  omap (λ id, od_get id (agents r)) (sort_by String.le (od_keys (agents r))).

Definition list_routes (r : AgentRegistry) : list HandoffRoute := od_values (routes r).

Definition list_fallback_policies (r : AgentRegistry) : list HandoffFallbackPolicy :=
  (λ p, mkPolicy p.1.1 p.1.2 p.2 (od_get_default [] p.1 (fallback_role_priorities r)))
    <$> fallback_roles r.

Definition find_with_capability (r : AgentRegistry) (c : AgentCapabilityTag) : list AgentSpec :=
  filter (λ a, c ∈ capability_tags a) (list_agents r).

(** [all(capability in target.capability_tags for capability in required)] *)
Definition satisfies (required : gset AgentCapabilityTag) (target : AgentSpec) : bool :=
  bool_decide (required ⊆ capability_tags target).

Definition missing_capabilities (required : gset AgentCapabilityTag) (target : AgentSpec)
    : list string :=
  sort_by String.le (capability_value <$> elements (required ∖ capability_tags target)).

Definition add_handoff_route (r : AgentRegistry) (route : HandoffRoute) : res AgentRegistry :=
  guard! od_mem (source_role route) (roles r)
    else ValueError ("Cannot route from unknown source role " +:+ quoted (source_role route)) in
  guard! od_mem (target_role route) (roles r)
    else ValueError ("Cannot route to unknown target role " +:+ quoted (target_role route)) in
  let! target := get_by_role r (target_role route) in
  match missing_capabilities (required_target_capabilities route) target with
  | [] =>
      Ok (mkRegistry (agents r) (roles r)
            (od_set (source_role route, target_role route) route (routes r))
            (fallback_roles r) (fallback_role_priorities r))
  | missing =>
      Raise (ValueError ("Target role does not satisfy required capabilities: "
                           +:+ join ", " missing))
  end.

(** The loop over [policy.fallback_target_roles]; [seen] is what it has kept. *)
Fixpoint normalize_fallbacks (target : string) (names seen : list string) : list string :=
  match names with
  | [] => seen
  | name :: names =>
      let role_name := py_strip name in
      if negb (py_bool role_name) || (role_name =?s target) || bool_decide (role_name ∈ seen)
      then normalize_fallbacks target names seen
      else normalize_fallbacks target names (seen ++ [role_name])
  end.

(** The loop over [policy.target_role_priorities]. *)
Fixpoint normalize_priorities (known : list (string * string)) (priorities acc : list (string * Z))
    : res (list (string * Z)) :=
  match priorities with
  | [] => Ok acc
  | (name, priority) :: priorities =>
      let role_name := py_strip name in
      if negb (py_bool role_name) then normalize_priorities known priorities acc
      else if negb (od_mem role_name known) then
        Raise (ValueError ("Cannot configure priority for unknown target role " +:+ quoted role_name))
      else normalize_priorities known priorities (od_set role_name priority acc)
  end.

Definition set_handoff_fallback_policy (r : AgentRegistry) (p : HandoffFallbackPolicy)
    : res unit * AgentRegistry :=
  if negb (od_mem (fp_source_role p) (roles r)) then
    (Raise (ValueError ("Cannot configure fallback from unknown source role "
                          +:+ quoted (fp_source_role p))), r)
  else if negb (od_mem (fp_target_role p) (roles r)) then
    (Raise (ValueError ("Cannot configure fallback for unknown target role "
                          +:+ quoted (fp_target_role p))), r)
  else
    let key := (fp_source_role p, fp_target_role p) in
    let normalized := normalize_fallbacks (fp_target_role p) (fallback_target_roles p) [] in
    let r := mkRegistry (agents r) (roles r) (routes r) (od_set key normalized (fallback_roles r))
               (fallback_role_priorities r) in
    match normalize_priorities (roles r) (target_role_priorities p) [] with
    | Raise e => (Raise e, r)
    | Ok priorities =>
        (Ok tt, mkRegistry (agents r) (roles r) (routes r) (fallback_roles r)
                  (od_set key priorities (fallback_role_priorities r)))
    end.

Definition can_handoff (r : AgentRegistry) (source_id target_id : string) : res bool :=
  let! source := get r source_id in
  let! target := get r target_id in
  Ok match od_get (role source, role target) (routes r) with
     | None => false
     | Some route => satisfies (required_target_capabilities route) target
     end.

(** [required_capability and required_capability not in tags] fails. *)
Definition offers (required : option AgentCapabilityTag) (target : AgentSpec) : bool :=
  match required with Some c => has_capability target c | None => true end.

Fixpoint targets_of (r : AgentRegistry) (source : AgentSpec) (required : option AgentCapabilityTag)
    (l : list ((string * string) * HandoffRoute)) : res (list AgentSpec) :=
  match l with
  | [] => Ok []
  | ((from, to), route) :: l =>
      if negb (from =?s role source) then targets_of r source required l
      else
        let! target := get_by_role r to in
        let! rest := targets_of r source required l in
        Ok (if offers required target && satisfies (required_target_capabilities route) target
            then target :: rest else rest)
  end.

Definition agent_id_le : relation AgentSpec := λ a b, String.le (agent_id a) (agent_id b).

#[export] Instance agent_id_le_dec : RelDecision agent_id_le.
Proof. intros a b. unfold agent_id_le. apply _. Defined.
#[export] Instance agent_id_le_trans : Transitive agent_id_le.
Proof. intros a b c. unfold agent_id_le. intros. by etrans. Qed.
#[export] Instance agent_id_le_total : Total agent_id_le.
Proof. intros a b. unfold agent_id_le. apply total, _. Qed.

Definition handoff_targets (r : AgentRegistry) (source_id : string)
    (required : option AgentCapabilityTag) : res (list AgentSpec) :=
  let! source := get r source_id in
  let! targets := targets_of r source required (routes r) in
  Ok (sort_by agent_id_le targets).

Definition agent_for_role (r : AgentRegistry) (role : string) : option AgentSpec :=
  od_get role (roles r) ≫= λ id, od_get id (agents r).

Definition is_candidate_eligible (r : AgentRegistry) (source_id : string) (target : AgentSpec)
    (required : option AgentCapabilityTag) : res bool :=
  let! ok := can_handoff r source_id (agent_id target) in
  Ok (ok && offers required target).

(** The loop over the fallback roles, after those of [seen]. *)
Fixpoint fallback_candidates (r : AgentRegistry) (source_id : string)
    (required : option AgentCapabilityTag) (seen names : list string) : res (list AgentSpec) :=
  match names with
  | [] => Ok []
  | name :: names =>
      if bool_decide (name ∈ seen) then fallback_candidates r source_id required seen names
      else
        match agent_for_role r name with
        | None => fallback_candidates r source_id required (name :: seen) names
        | Some target =>
            let! ok := is_candidate_eligible r source_id target required in
            let! rest := fallback_candidates r source_id required (name :: seen) names in
            Ok (if ok then target :: rest else rest)
        end
  end.

(** [(-priorities.get(agent.role, 0), agent.agent_id)] *)
Definition candidate_key (priorities : list (string * Z)) (a : AgentSpec) : Z * string :=
  (- od_get_default 0 (role a) priorities, agent_id a).

Definition candidate_le (priorities : list (string * Z)) : relation AgentSpec := λ a b,
  lex_le Z.le String.le (candidate_key priorities a) (candidate_key priorities b).

#[export] Instance candidate_le_dec p : RelDecision (candidate_le p).
Proof. intros a b. unfold candidate_le. apply _. Defined.
#[export] Instance candidate_le_trans p : Transitive (candidate_le p).
Proof. intros a b c. unfold candidate_le. intros. by etrans. Qed.
#[export] Instance candidate_le_total p : Total (candidate_le p).
Proof. intros a b. unfold candidate_le. apply total, _. Qed.

(** [target_role] is the empty string for None. *)
Definition resolve_handoff_target (r : AgentRegistry) (source_id target_role : string)
    (required : option AgentCapabilityTag) : res (option AgentSpec) :=
  let! source := get r source_id in
  if negb (py_bool target_role) then
    let! targets := handoff_targets r source_id required in
    Ok (head targets)
  else
    let! primary :=
      match agent_for_role r target_role with
      | None => Ok None
      | Some target =>
          let! ok := is_candidate_eligible r source_id target required in
          Ok (if ok then Some target else None)
      end in
    match primary with
    | Some target => Ok (Some target)
    | None =>
        let names := od_get_default [] (role source, target_role) (fallback_roles r) in
        let priorities := od_get_default [] (role source, target_role) (fallback_role_priorities r) in
        let! candidates := fallback_candidates r source_id required [target_role] names in
        Ok (head (sort_by (candidate_le priorities) candidates))
    end.

(** Registries built by the operations. *)
Inductive reachable : AgentRegistry → Prop :=
| reach_empty : reachable empty_registry
| reach_register r a r' : reachable r → register r a = Ok r' → reachable r'
| reach_unregister r id r' : reachable r → unregister r id = Ok r' → reachable r'
| reach_route r route r' : reachable r → add_handoff_route r route = Ok r' → reachable r'
| reach_fallback r p : reachable r → reachable (set_handoff_fallback_policy r p).2.

(** ** The registry's invariant *)

Record wf (r : AgentRegistry) : Prop := {
  w_agents : od_wf (agents r);
  w_roles : od_wf (roles r);
  w_routes : od_wf (routes r);
  w_id : ∀ id a, od_get id (agents r) = Some a →
           agent_id a = id ∧ od_get (role a) (roles r) = Some id;
  w_role : ∀ ρ id, od_get ρ (roles r) = Some id → ∃ a, od_get id (agents r) = Some a ∧ role a = ρ;
  w_route : ∀ s t route, od_get (s, t) (routes r) = Some route →
              source_role route = s ∧ target_role route = t ∧ is_Some (od_get s (roles r)) ∧
              ∃ a, agent_for_role r t = Some a ∧
                   required_target_capabilities route ⊆ capability_tags a;
  w_fallback : ∀ k l, od_get k (fallback_roles r) = Some l → is_Some (od_get k.1 (roles r));
}.

Lemma agent_for_role_Some r ρ a :
  wf r → agent_for_role r ρ = Some a ↔ od_get (agent_id a) (agents r) = Some a ∧ role a = ρ.
Proof.
  intros []. unfold agent_for_role. rewrite bind_Some. split.
  - intros (id & Hr & Ha). destruct (w_id0 id a Ha) as [<- _]. destruct (w_role0 ρ _ Hr) as (a' & Ha' & <-).
    split; [done|]. by rewrite Ha in Ha'; injection Ha' as ->.
  - intros [Ha <-]. exists (agent_id a). split; [|done]. by apply w_id0.
Qed.

Lemma get_by_role_agent r ρ : wf r → ∀ a, get_by_role r ρ = Ok a ↔ agent_for_role r ρ = Some a.
Proof.
  intros Hw a. unfold get_by_role, agent_for_role. destruct (od_get ρ (roles r)) as [id|] eqn:E; [|done].
  cbn. destruct (od_get id (agents r)); naive_solver.
Qed.

Lemma known_role_agent r ρ : wf r → is_Some (od_get ρ (roles r)) ↔ is_Some (agent_for_role r ρ).
Proof.
  intros Hw. split.
  - intros [id E]. destruct (w_role _ Hw _ _ E) as (a & Ha & <-). exists a.
    apply agent_for_role_Some; [done|]. split; [|done]. by destruct (w_id _ Hw _ _ Ha) as [-> _].
  - intros [a Ha]. unfold agent_for_role in Ha. apply bind_Some in Ha as (id & E & _). eauto.
Qed.

Lemma missing_none required a : missing_capabilities required a = [] ↔ required ⊆ capability_tags a.
Proof.
  unfold missing_capabilities. split.
  - intros E. assert (elements (required ∖ capability_tags a) = []) as He.
    { apply (f_equal length) in E. rewrite length_sort_by, length_fmap in E. by apply nil_length_inv. }
    apply elements_empty_inv in He. set_solver.
  - intros Hs. assert (required ∖ capability_tags a = ∅) as -> by set_solver. done.
Qed.

Lemma empty_registry_wf : wf empty_registry.
Proof. split; try done; apply NoDup_nil_2. Qed.

Lemma register_wf r a r' : wf r → register r a = Ok r' → wf r'.
Proof.
  intros Hw. unfold register. destruct (py_bool (py_strip (agent_id a))); [|done].
  destruct (py_bool (py_strip (role a))); [|done].
  destruct (od_mem (agent_id a) (agents r)) eqn:Ea; [done|].
  destruct (od_mem (role a) (roles r)) eqn:Er; [done|]. cbn. intros [= <-].
  apply od_mem_false in Ea, Er.
  assert (∀ ρ x, od_get ρ (roles r) = Some x → ρ ≠ role a) as Hne by (intros ρ x E ->; congruence).
  assert (∀ ρ b, agent_for_role r ρ = Some b →
    od_get ρ (od_set (role a) (agent_id a) (roles r)) ≫= (λ id, od_get id (od_set (agent_id a) a (agents r)))
      = Some b) as Hfor.
  { intros ρ b. unfold agent_for_role. rewrite !bind_Some. intros (id & E & Eb). exists id.
    rewrite od_get_set_ne by (by eapply Hne). split; [done|]. rewrite od_get_set_ne; [done|]. by intros ->; congruence. }
  destruct Hw. split; cbn [agents roles routes fallback_roles fallback_role_priorities]; auto with od.
  - intros id b. destruct (decide (id = agent_id a)) as [->|Hid].
    + rewrite od_get_set. intros [= <-]. by rewrite od_get_set.
    + rewrite od_get_set_ne by done. intros Hb. destruct (w_id0 _ _ Hb) as [? E]. split; [done|].
      by rewrite od_get_set_ne by (by eapply Hne).
  - intros ρ id. destruct (decide (ρ = role a)) as [->|Hρ].
    + rewrite od_get_set. intros [= <-]. exists a. by rewrite od_get_set.
    + rewrite od_get_set_ne by done. intros (b & Hb & <-)%w_role0. exists b. split; [|done].
      rewrite od_get_set_ne; [done|]. intros ->. congruence.
  - intros s t route Hr. destruct (w_route0 _ _ _ Hr) as (-> & -> & [x Hs] & b & Hb & Hc).
    split_and!; [done|done| |exists b; split; [by apply Hfor|done]].
    exists x. by rewrite od_get_set_ne by (by eapply Hne).
  - intros k l Hk. destruct (w_fallback0 _ _ Hk) as [x Hx]. exists x.
    by rewrite od_get_set_ne by (by eapply Hne).
Qed.

Lemma unregister_wf r id r' : wf r → unregister r id = Ok r' → wf r'.
Proof.
  intros Hw. unfold unregister, get. destruct (od_get id (agents r)) as [a|] eqn:Ea; [|done].
  cbn. intros [= <-]. pose proof (w_id _ Hw _ _ Ea) as [Hid Hrole].
  assert (∀ ρ b, agent_for_role r ρ = Some b → ρ ≠ role a →
    od_get ρ (od_pop (role a) (roles r)) ≫= (λ i, od_get i (od_pop id (agents r))) = Some b) as Hfor.
  { intros ρ b Hb Hne. pose proof Hb as Hb'. apply agent_for_role_Some in Hb' as [Hg Hρ]; [|done].
    unfold agent_for_role in Hb. apply bind_Some in Hb as (i & E & Eb). rewrite bind_Some. exists i.
    rewrite od_get_pop_ne by done. split; [done|]. rewrite od_get_pop_ne; [done|]. intros ->. congruence. }
  destruct Hw. split; cbn [agents roles routes fallback_roles fallback_role_priorities]; auto with od.
  - by apply od_wf_filter.
  - intros i b. destruct (decide (i = id)) as [->|Hi]; [by rewrite od_get_pop|].
    rewrite od_get_pop_ne by done. intros Hb. destruct (w_id0 _ _ Hb) as [? E]. split; [done|].
    rewrite od_get_pop_ne; [done|]. intros Heq. rewrite Heq in E. congruence.
  - intros ρ i. destruct (decide (ρ = role a)) as [->|Hρ]; [by rewrite od_get_pop|].
    rewrite od_get_pop_ne by done. intros (b & Hb & Hr)%w_role0. exists b. split; [|done].
    rewrite od_get_pop_ne; [done|]. intros ->. congruence.
  - intros s t route.
    rewrite (od_get_filter_key (λ k, k.1 ≠ role a ∧ k.2 ≠ role a)) by done. case_decide as Hk; [|done].
    cbn in Hk. destruct Hk as [Hks Hkt].
    intros Hr. destruct (w_route0 _ _ _ Hr) as (-> & -> & [x Hs] & b & Hb & Hc).
    split_and!; [done|done| |exists b; split; [by apply Hfor|done]].
    exists x. by rewrite od_get_pop_ne.
  - intros k l. change ((λ p, (p.1, ?f p.2)) <$> ?m) with (od_map (λ _, f) m).
    rewrite od_get_map, (od_get_filter_key (λ k, k.1 ≠ role a)) by done. case_decide as Hk; [|done].
    intros (l' & Hl & _)%fmap_Some. destruct (w_fallback0 _ _ Hl) as [x Hx]. exists x.
    by rewrite od_get_pop_ne.
Qed.

Lemma add_handoff_route_ok r route r' :
  wf r → add_handoff_route r route = Ok r' →
  ∃ a, agent_for_role r (target_role route) = Some a ∧
    required_target_capabilities route ⊆ capability_tags a ∧
    is_Some (od_get (source_role route) (roles r)) ∧
    r' = mkRegistry (agents r) (roles r)
           (od_set (source_role route, target_role route) route (routes r))
           (fallback_roles r) (fallback_role_priorities r).
Proof.
  intros Hw. unfold add_handoff_route.
  destruct (od_mem (source_role route) (roles r)) eqn:Es; [|done].
  destruct (od_mem (target_role route) (roles r)) eqn:Et; [|done].
  destruct (get_by_role r (target_role route)) as [a|] eqn:Ea; [|done]. cbn.
  destruct (missing_capabilities _ a) eqn:Em; [|done]. intros [= <-].
  exists a. split_and!; [by apply get_by_role_agent|by apply missing_none|by apply od_mem_true|done].
Qed.

Lemma add_handoff_route_wf r route r' : wf r → add_handoff_route r route = Ok r' → wf r'.
Proof.
  intros Hw E. destruct (add_handoff_route_ok _ _ _ Hw E) as (a & Ha & Hc & Hs & ->).
  destruct Hw. split; cbn [agents roles routes fallback_roles fallback_role_priorities]; auto with od.
  intros s t rt. destruct (decide ((s, t) = (source_role route, target_role route))) as [[= -> ->]|Hne].
  - rewrite od_get_set. intros [= <-]. split_and!; [done|done|done|]. by exists a.
  - rewrite od_get_set_ne by done. apply w_route0.
Qed.

Lemma set_fallback_wf r p : wf r → wf (set_handoff_fallback_policy r p).2.
Proof.
  intros Hw. unfold set_handoff_fallback_policy.
  destruct (od_mem (fp_source_role p) (roles r)) eqn:Es; cbn [negb]; [|done].
  destruct (od_mem (fp_target_role p) (roles r)) eqn:Et; cbn [negb]; [|done].
  apply od_mem_true in Es. cbn [roles].
  destruct (normalize_priorities _ _ _); destruct Hw;
    (split; cbn [snd agents roles routes fallback_roles fallback_role_priorities]; auto with od);
    intros k l; (destruct (decide (k = (fp_source_role p, fp_target_role p))) as [->|Hk];
      [done|rewrite od_get_set_ne by done; apply w_fallback0]).
Qed.

Lemma registry_reachable_wf r : reachable r → wf r.
Proof.
  induction 1; [apply empty_registry_wf|by eapply register_wf|by eapply unregister_wf
    |by eapply add_handoff_route_wf|by apply set_fallback_wf].
Qed.

(** ** The choice of a handoff target *)

(** A registered agent that the source may hand off to. *)
Definition eligible (r : AgentRegistry) (source : AgentSpec) (required : option AgentCapabilityTag)
    (t : AgentSpec) : Prop :=
  od_get (agent_id t) (agents r) = Some t ∧
  (∃ route, od_get (role source, role t) (routes r) = Some route ∧
            required_target_capabilities route ⊆ capability_tags t) ∧
  (∀ c, required = Some c → c ∈ capability_tags t).

Lemma offers_true required t : offers required t = true ↔ ∀ c, required = Some c → c ∈ capability_tags t.
Proof.
  unfold offers, has_capability. destruct required as [c|]; [|naive_solver].
  rewrite bool_decide_eq_true. naive_solver.
Qed.

Lemma eligible_spec r source required t :
  od_get (agent_id source) (agents r) = Some source →
  od_get (agent_id t) (agents r) = Some t →
  ∃ b, is_candidate_eligible r (agent_id source) t required = Ok b ∧
       (b = true ↔ eligible r source required t).
Proof.
  intros Hs Ht. unfold is_candidate_eligible, can_handoff, get. rewrite Hs, Ht. cbn [res_bind].
  eexists. split; [done|]. rewrite andb_true_iff, offers_true. unfold eligible.
  destruct (od_get (role source, role t) (routes r)) as [route|] eqn:Er.
  - unfold satisfies. rewrite bool_decide_eq_true. split; [|naive_solver]. intros [? ?]. eauto.
  - split; [naive_solver|]. intros (_ & (? & ? & _) & _). done.
Qed.

Lemma agent_for_role_registered r ρ t :
  wf r → agent_for_role r ρ = Some t → od_get (agent_id t) (agents r) = Some t ∧ role t = ρ.
Proof. intros Hw. by apply agent_for_role_Some. Qed.

(** The targets over the routes are the eligible agents. *)
Lemma targets_of_spec r source required l :
  wf r → (∀ k route, (k, route) ∈ l → od_get k (routes r) = Some route) →
  ∃ ts, targets_of r source required l = Ok ts ∧
    ∀ t, t ∈ ts ↔ od_get (agent_id t) (agents r) = Some t ∧
      (∃ route, ((role source, role t), route) ∈ l ∧
                required_target_capabilities route ⊆ capability_tags t) ∧
      (∀ c, required = Some c → c ∈ capability_tags t).
Proof.
  intros Hw. induction l as [|[[s ρ] route] l IH]; intros Hl.
  { exists []. split; [done|]. intros t. split; [by intros ?%elem_of_nil|].
    by intros (_ & (? & ?%elem_of_nil & _) & _). }
  destruct IH as (ts & E & Hts); [intros; apply Hl; by apply list_elem_of_further|].
  cbn [targets_of]. case_bool_decide as Hs; cbn [negb]; subst.
  - destruct (w_route _ Hw _ _ _ (Hl _ _ (list_elem_of_here _ _))) as (_ & _ & _ & a & Ha & Hc).
    apply get_by_role_agent in Ha as Hg; [|done]. rewrite Hg, E. cbn [res_bind].
    apply agent_for_role_Some in Ha as [Hid <-]; [|done].
    assert (satisfies (required_target_capabilities route) a = true) as -> by (by apply bool_decide_eq_true).
    rewrite andb_true_r. eexists. split; [done|]. intros t.
    assert (∀ rt, ((role source, role t), rt) ∈ ((role source, role a), route) :: l ↔
      (role t = role a ∧ rt = route) ∨ ((role source, role t), rt) ∈ l) as Hin.
    { intros rt. rewrite elem_of_cons. split; [intros [[= ? ?]|?]; auto|intros [[-> ->]|?]; auto]. }
    assert (role t = role a → od_get (agent_id t) (agents r) = Some t → t = a) as Huniq.
    { intros Hρ Ht. destruct (w_id _ Hw _ _ Ht) as [_ H1]. destruct (w_id _ Hw _ _ Hid) as [_ H2].
      rewrite Hρ, H2 in H1. injection H1 as H1. rewrite H1 in Hid. congruence. }
    setoid_rewrite Hin. destruct (offers required a) eqn:Eo.
    + pose proof (proj1 (offers_true _ _) Eo) as Eo1. rewrite elem_of_cons, Hts. split.
      * intros [->|(Ht & (rt & Hr & Hsub) & Hq)]; [|by split_and!; [|exists rt; auto|]].
        split_and!; [done| |done]. exists route. auto.
      * intros (Ht & (rt & [[Hρ ->]|Hr] & Hsub) & Hq); [left; by apply Huniq|right].
        split_and!; [done|by exists rt|done].
    + rewrite Hts. split.
      * intros (Ht & (rt & Hr & Hsub) & Hq). split_and!; [done|exists rt; auto|done].
      * intros (Ht & (rt & [[Hρ ->]|Hr] & Hsub) & Hq); [|split_and!; [done|by exists rt|done]].
        exfalso. rewrite (Huniq Hρ Ht) in Hq. pose proof (proj2 (offers_true _ _) Hq) as Hq1. congruence.
  - exists ts. split; [done|]. intros t. rewrite Hts. setoid_rewrite elem_of_cons. naive_solver.
Qed.

Lemma head_sorted {A} (R : relation A) `{!RelDecision R, !Transitive R, !Total R} (l : list A) :
  match head (sort_by R l) with
  | None => l = []
  | Some x => x ∈ l ∧ ∀ y, y ∈ l → R x y
  end.
Proof.
  pose proof (sort_by_sorted R l) as Hs. pose proof (sort_by_perm R l) as Hp.
  destruct (sort_by R l) as [|x l']; cbn [head]; [by apply Permutation_nil|].
  apply StronglySorted_inv in Hs as [_ Hs]. rewrite Forall_forall in Hs.
  split; [rewrite <- Hp; apply list_elem_of_here|]. intros y. rewrite <- Hp.
  intros [->|Hy]%elem_of_cons; [|by apply Hs]. by destruct (total R x x).
Qed.

Lemma fallback_candidates_spec r source required seen names :
  wf r → od_get (agent_id source) (agents r) = Some source →
  ∃ ts, fallback_candidates r (agent_id source) required seen names = Ok ts ∧
    ∀ t, t ∈ ts ↔ role t ∈ names ∧ role t ∉ seen ∧ eligible r source required t.
Proof.
  intros Hw Hs. revert seen. induction names as [|name names IH]; intros seen.
  { exists []. split; [done|]. intros t. split; [by intros ?%elem_of_nil|]. by intros (?%elem_of_nil & _). }
  cbn [fallback_candidates]. case_bool_decide as Hseen.
  - destruct (IH seen) as (ts & E & Hts). exists ts. split; [done|]. intros t. rewrite Hts, elem_of_cons.
    naive_solver.
  - destruct (IH (name :: seen)) as (ts & E & Hts).
    destruct (agent_for_role r name) as [a|] eqn:Ea.
    + apply agent_for_role_Some in Ea as [Hid <-]; [|done].
      destruct (eligible_spec r source required a Hs Hid) as (b & Eb & Hb). rewrite Eb, E. cbn [res_bind].
      eexists. split; [done|]. intros t.
      assert (eligible r source required t → role t = role a → t = a) as Huniq.
      { intros (Ht & _) Hρ. destruct (w_id _ Hw _ _ Ht) as [_ H1]. destruct (w_id _ Hw _ _ Hid) as [_ H2].
        rewrite Hρ, H2 in H1. injection H1 as H1. rewrite H1 in Hid. congruence. }
      rewrite elem_of_cons. destruct (decide (role t = role a)) as [Eρ|Hne].
      * assert (t ∉ ts) as Hnot by (rewrite Hts, not_elem_of_cons; by intros (_ & [? _] & _)).
        destruct b; [rewrite elem_of_cons|]; split.
        -- intros [->|]; [|done]. split_and!; [by left|done|by apply Hb].
        -- intros (_ & _ & Hel). left. by apply Huniq.
        -- done.
        -- intros (_ & _ & Hel). rewrite (Huniq Hel Eρ) in Hel. by apply Hb in Hel.
      * assert (t ∈ (if b then a :: ts else ts) ↔ t ∈ ts) as ->.
        { destruct b; [rewrite elem_of_cons|done]. split; [intros [->|]; done|by right]. }
        rewrite Hts, not_elem_of_cons. naive_solver.
    + exists ts. split; [done|]. intros t. rewrite Hts, not_elem_of_cons, elem_of_cons.
      split; [naive_solver|]. intros (Ht & Hn & Hel). split_and!; [|  |done|done].
      * destruct Ht as [Ht|]; [|done]. exfalso. destruct Hel as (Hid & _).
        assert (agent_for_role r name = Some t) by (apply agent_for_role_Some; naive_solver). congruence.
      * intros Hρ. destruct Hel as (Hid & _).
        assert (agent_for_role r name = Some t) by (apply agent_for_role_Some; naive_solver). congruence.
Qed.

(** ** Properties *)

(** Whatever sequence of registrations, removals, routes and policies built it, the
    registry keeps ids and roles in one-to-one correspondence, every route joins two
    registered roles under its own key with a target that has all the capabilities the
    route requires, and every fallback list belongs to a registered source role. *)
Theorem registry_invariant r :
  reachable r →
  (∀ id a, od_get id (agents r) = Some a → agent_id a = id ∧ od_get (role a) (roles r) = Some id) ∧
  (∀ ρ id, od_get ρ (roles r) = Some id → ∃ a, od_get id (agents r) = Some a ∧ role a = ρ) ∧
  (∀ s t route, od_get (s, t) (routes r) = Some route →
     source_role route = s ∧ target_role route = t ∧ is_Some (agent_for_role r s) ∧
     ∃ a, agent_for_role r t = Some a ∧ required_target_capabilities route ⊆ capability_tags a) ∧
  (∀ k l, od_get k (fallback_roles r) = Some l → is_Some (agent_for_role r k.1)).
Proof.
  intros Hw%registry_reachable_wf. split_and!; [apply Hw|apply Hw| |].
  - intros s t route Hr. destruct (w_route _ Hw _ _ _ Hr) as (? & ? & Hs & ?).
    split_and!; [done|done|by apply known_role_agent|done].
  - intros k l Hk. apply known_role_agent; [done|]. by eapply w_fallback.
Qed.

(** The agent of the role itself, when it is eligible. *)
Lemma primary_target_spec r source target required :
  wf r → od_get (agent_id source) (agents r) = Some source →
  ∃ primary,
    match agent_for_role r target with
    | Some a => let! ok := is_candidate_eligible r (agent_id source) a required in
                Ok (if ok then Some a else None)
    | None => Ok None
    end = Ok primary ∧
    match primary with
    | Some t => role t = target ∧ eligible r source required t
    | None => ∀ u, role u = target → ¬ eligible r source required u
    end.
Proof.
  intros Hw Hs. destruct (agent_for_role r target) as [a|] eqn:Ea.
  - apply agent_for_role_registered in Ea as [Hid Hρ]; [|done].
    destruct (eligible_spec r source required a Hs Hid) as (b & -> & Hb). cbn [res_bind].
    exists (if b then Some a else None). split; [done|]. destruct b; [split; [done|by apply Hb]|].
    intros u Hu Hel. assert (u = a) as ->; [|by apply Hb in Hel].
    destruct Hel as (Hg & _). destruct (w_id _ Hw _ _ Hg) as [_ H1]. destruct (w_id _ Hw _ _ Hid) as [_ H2].
    rewrite Hu, <- Hρ, H2 in H1. injection H1 as H1. rewrite H1 in Hid. congruence.
  - exists None. split; [done|]. intros u Hu (Hg & _).
    assert (agent_for_role r target = Some u) by (by apply agent_for_role_Some). congruence.
Qed.

(** What an answer of [resolve_handoff_target] has to be. *)
Definition handoff_answer (r : AgentRegistry) (source : AgentSpec) (target : string)
    (required : option AgentCapabilityTag) (answer : option AgentSpec) : Prop :=
  let key := (role source, target) in
  let names := od_get_default [] key (fallback_roles r) in
  let priorities := od_get_default [] key (fallback_role_priorities r) in
  if py_bool target then
    match answer with
    | Some t =>
          eligible r source required t ∧
          (role t = target ∨
           role t ∈ names ∧
           (∀ u, role u = target → ¬ eligible r source required u) ∧
           ∀ u, role u ∈ names → eligible r source required u → candidate_le priorities t u)
    | None => ∀ u, role u = target ∨ role u ∈ names → ¬ eligible r source required u
    end
  else
    match answer with
    | Some t => eligible r source required t ∧ ∀ u, eligible r source required u → agent_id_le t u
    | None => ∀ u, ¬ eligible r source required u
    end.

Lemma resolve_handoff_target_spec r source target required :
  wf r → od_get (agent_id source) (agents r) = Some source →
  ∃ answer, resolve_handoff_target r (agent_id source) target required = Ok answer ∧
    handoff_answer r source target required answer.
Proof.
  intros Hw Hs. unfold handoff_answer. cbv zeta. unfold resolve_handoff_target, get at 1. rewrite Hs. cbn [res_bind].
  destruct (py_bool target) eqn:Et; cbn [negb].
  - destruct (primary_target_spec r source target required Hw Hs) as (primary & -> & Hp).
    cbn [res_bind]. destruct primary as [t|]; [exists (Some t); naive_solver|].
    set (names := od_get_default [] _ (fallback_roles r)). set (prios := od_get_default [] _ _).
    destruct (fallback_candidates_spec r source required [target] names Hw Hs) as (ts & -> & Hts).
    cbn [res_bind]. eexists. split; [done|].
    assert (∀ u, eligible r source required u → role u ∈ names → u ∈ ts) as Hin.
    { intros u Hu Hn. apply Hts. split_and!; [done| |done].
      intros Heq%list_elem_of_singleton. by apply (Hp u). }
    pose proof (head_sorted (candidate_le prios) ts) as Hh.
    destruct (head (sort_by (candidate_le prios) ts)) as [t|].
    + destruct Hh as [(Hn & _ & Hel)%Hts Hmin]. split; [done|]. right. auto.
    + intros u [Hu|Hn] Hel; [by apply (Hp u)|]. specialize (Hin u Hel Hn). rewrite Hh in Hin.
      by apply elem_of_nil in Hin.
  - unfold handoff_targets, get. rewrite Hs. cbn [res_bind].
    destruct (targets_of_spec r source required (routes r) Hw) as (ts & -> & Hts).
    { intros k route. apply od_elem_of_get, Hw. }
    cbn [res_bind]. eexists. split; [done|].
    assert (∀ t, t ∈ ts ↔ eligible r source required t) as Hel.
    { intros t. rewrite Hts. unfold eligible. by setoid_rewrite (od_elem_of_get _ _ _ (w_routes _ Hw)). }
    pose proof (head_sorted agent_id_le ts) as Hh. destruct (head (sort_by agent_id_le ts)) as [t|].
    + destruct Hh as [Ht Hmin]. split; [by apply Hel|]. intros u Hu. by apply Hmin, Hel.
    + intros u Hu%Hel. rewrite Hh in Hu. by apply elem_of_nil in Hu.
Qed.

(** C33: Resolving a handoff from a registered agent never raises.  Without a target
    role it answers the eligible agent with the least id; with one it answers that
    role's agent when eligible, else the eligible agent among the roles of the pair's
    fallback list that comes first by priority, then id; and None only when there is
    none.  Eligible means: registered, reached by a route from the source's role whose
    requirements it meets, and offering the required capability. *)
Theorem resolve_handoff_target_correct r source target required :
  reachable r →
  od_get (agent_id source) (agents r) = Some source →
  let key := (role source, target) in
  let names := od_get_default [] key (fallback_roles r) in
  let priorities := od_get_default [] key (fallback_role_priorities r) in
  ∃ answer, resolve_handoff_target r (agent_id source) target required = Ok answer ∧
    if py_bool target then
      match answer with
      | Some t =>
          eligible r source required t ∧
          (role t = target ∨
           role t ∈ names ∧
           (∀ u, role u = target → ¬ eligible r source required u) ∧
           ∀ u, role u ∈ names → eligible r source required u → candidate_le priorities t u)
      | None => ∀ u, role u = target ∨ role u ∈ names → ¬ eligible r source required u
      end
    else
      match answer with
      | Some t => eligible r source required t ∧ ∀ u, eligible r source required u → agent_id_le t u
      | None => ∀ u, ¬ eligible r source required u
      end.
Proof. intros Hw%registry_reachable_wf Hs. by apply resolve_handoff_target_spec. Qed.

Lemma normalize_fallbacks_spec target names seen :
  NoDup seen →
  NoDup (normalize_fallbacks target names seen) ∧
  ∀ n, n ∈ normalize_fallbacks target names seen ↔
       n ∈ seen ∨ n ≠ "" ∧ n ≠ target ∧ ∃ raw, raw ∈ names ∧ py_strip raw = n.
Proof.
  revert seen. induction names as [|name names IH]; intros seen Hnd; cbn [normalize_fallbacks].
  { split; [done|]. intros n. split; [by left|]. intros [|(_ & _ & ? & ?%elem_of_nil & _)]; done. }
  destruct (negb (py_bool (py_strip name))) eqn:Eb; cbn [orb].
  { apply negb_true_iff, py_bool_false in Eb. destruct (IH seen Hnd) as [H1 H2]. split; [done|]. intros n.
    rewrite H2. setoid_rewrite elem_of_cons. naive_solver. }
  apply negb_false_iff, py_bool_true in Eb.
  case_bool_decide as Et; cbn [orb].
  { destruct (IH seen Hnd) as [H1 H2]. split; [done|]. intros n.
    rewrite H2. setoid_rewrite elem_of_cons. naive_solver. }
  case_bool_decide as Es.
  { destruct (IH seen Hnd) as [H1 H2]. split; [done|]. intros n.
    rewrite H2. setoid_rewrite elem_of_cons. naive_solver. }
  destruct (IH (seen ++ [py_strip name])) as [H1 H2].
  { apply NoDup_app. split_and!; [done| |apply NoDup_singleton]. intros x Hx ->%list_elem_of_singleton. done. }
  split; [done|]. intros n. rewrite H2, elem_of_app, list_elem_of_singleton. setoid_rewrite elem_of_cons.
  naive_solver.
Qed.

Lemma normalize_priorities_raises known priorities acc e :
  normalize_priorities known priorities acc = Raise e →
  ∃ raw n, (raw, n) ∈ priorities ∧ py_strip raw ≠ "" ∧ od_get (py_strip raw) known = None.
Proof.
  revert acc. induction priorities as [|[raw n] l IH]; intros acc; [done|]. cbn [normalize_priorities].
  assert (∀ acc, normalize_priorities known l acc = Raise e →
    ∃ raw' n', (raw', n') ∈ (raw, n) :: l ∧ py_strip raw' ≠ "" ∧ od_get (py_strip raw') known = None) as Hl.
  { intros acc' (raw' & n' & ? & ?)%IH. exists raw', n'. split; [by apply list_elem_of_further|done]. }
  destruct (py_bool (py_strip raw)) eqn:Eb; cbn [negb]; [|apply Hl].
  destruct (od_mem _ known) eqn:Em; cbn [negb]; [apply Hl|]. intros _. exists raw, n.
  split_and!; [apply list_elem_of_here|by apply py_bool_true|by apply od_mem_false].
Qed.

(** Setting a fallback policy never touches agents, roles or routes; it stores the
    stripped, distinct, non-blank names other than the target.  When it raises for an
    unknown source or target role nothing changes, but when it raises for an unknown role
    among the priorities the new fallback list is already stored while the old
    priorities stay. *)
Theorem fallback_policy_update r p :
  let '(answer, r') := set_handoff_fallback_policy r p in
  let key := (fp_source_role p, fp_target_role p) in
  let stored := od_get key (fallback_roles r') in
  agents r' = agents r ∧ roles r' = roles r ∧ routes r' = routes r ∧
  (∀ names, (∃ priorities, answer = Ok priorities) ∨ r' ≠ r → stored = Some names →
     NoDup names ∧
     ∀ n, n ∈ names ↔ n ≠ "" ∧ n ≠ fp_target_role p ∧
       ∃ raw, raw ∈ fallback_target_roles p ∧ py_strip raw = n) ∧
  match answer with
  | Ok _ => is_Some stored ∧ is_Some (od_get key (fallback_role_priorities r'))
  | Raise _ =>
      fallback_role_priorities r' = fallback_role_priorities r ∧
      (r' = r ∧ (od_get (fp_source_role p) (roles r) = None ∨ od_get (fp_target_role p) (roles r) = None) ∨
       is_Some stored ∧
       ∃ raw n, (raw, n) ∈ target_role_priorities p ∧ py_strip raw ≠ "" ∧
                od_get (py_strip raw) (roles r) = None)
  end.
Proof.
  unfold set_handoff_fallback_policy.
  destruct (od_mem (fp_source_role p) (roles r)) eqn:Es; cbn [negb].
  2:{ apply od_mem_false in Es. split_and!; try done; [by intros ? [[? ?]|]|auto]. }
  destruct (od_mem (fp_target_role p) (roles r)) eqn:Et; cbn [negb].
  2:{ apply od_mem_false in Et. split_and!; try done; [by intros ? [[? ?]|]|auto]. }
  destruct (normalize_fallbacks_spec (fp_target_role p) (fallback_target_roles p) [] (NoDup_nil_2)) as [Hnd Hin].
  cbn [roles]. destruct (normalize_priorities (roles r) (target_role_priorities p) []) as [ps|e] eqn:Ep;
    cbn [agents roles routes fallback_roles fallback_role_priorities]; rewrite ?od_get_set;
    split_and!; try done; try eauto.
  - intros names _ [= <-]. split; [done|]. intros n. rewrite Hin. set_solver.
  - intros names _ [= <-]. split; [done|]. intros n. rewrite Hin. set_solver.
  - right. split; [eauto|]. by eapply normalize_priorities_raises.
Qed.

(** *** An example *)

Definition demo_agent (id ρ : string) (tags : gset AgentCapabilityTag) : AgentSpec :=
  mkAgent id ρ tags "" [].

Definition demo_step (r : res AgentRegistry) (f : AgentRegistry → res AgentRegistry) : AgentRegistry :=
  match res_bind r f with Ok r => r | Raise _ => empty_registry end.

Definition demo_1 : AgentRegistry :=
  demo_step (Ok empty_registry) (λ r, register r (demo_agent "a1" "planner" ∅)).
Definition demo_2 : AgentRegistry :=
  demo_step (Ok demo_1) (λ r, register r (demo_agent "a2" "coder" ∅)).
Definition demo_3 : AgentRegistry :=
  demo_step (Ok demo_2) (λ r, register r (demo_agent "a3" "reviewer" {[REVIEW]})).
Definition demo_4 : AgentRegistry :=
  demo_step (Ok demo_3) (λ r, add_handoff_route r (mkRoute "planner" "coder" "work" ∅)).
Definition demo_5 : AgentRegistry :=
  demo_step (Ok demo_4) (λ r, add_handoff_route r (mkRoute "planner" "reviewer" "check" {[REVIEW]})).
Definition demo_registry : AgentRegistry :=
  (set_handoff_fallback_policy demo_5
     (mkPolicy "planner" "coder" [" reviewer "; "coder"; "ghost"] [("reviewer", 5)])).2.

Lemma demo_registry_reachable : reachable demo_registry.
Proof.
  apply reach_fallback.
  refine (reach_route demo_4 (mkRoute "planner" "reviewer" "check" {[REVIEW]}) demo_5 _ _); [|vm_compute; reflexivity].
  refine (reach_route demo_3 (mkRoute "planner" "coder" "work" ∅) demo_4 _ _); [|vm_compute; reflexivity].
  refine (reach_register demo_2 (demo_agent "a3" "reviewer" {[REVIEW]}) demo_3 _ _); [|vm_compute; reflexivity].
  refine (reach_register demo_1 (demo_agent "a2" "coder" ∅) demo_2 _ _); [|vm_compute; reflexivity].
  refine (reach_register empty_registry (demo_agent "a1" "planner" ∅) demo_1 reach_empty _). vm_compute; reflexivity.
Qed.

Lemma registry_invariant_witness :
  od_get "reviewer" (roles demo_registry) = Some "a3" ∧
  ∀ id a, od_get id (agents demo_registry) = Some a →
    agent_id a = id ∧ od_get (role a) (roles demo_registry) = Some id.
Proof.
  split; [vm_compute; reflexivity|].
  destruct (registry_invariant demo_registry demo_registry_reachable) as [H _]. exact H.
Defined.

(** The planner's coder lacks the review capability, so the reviewer is chosen. *)
Lemma resolve_handoff_target_correct_witness :
  let planner := demo_agent "a1" "planner" ∅ in
  let reviewer := demo_agent "a3" "reviewer" {[REVIEW]} in
  resolve_handoff_target demo_registry (agent_id planner) "coder" (Some REVIEW) = Ok (Some reviewer) ∧
  ∃ answer, resolve_handoff_target demo_registry (agent_id planner) "coder" (Some REVIEW) = Ok answer.
Proof.
  cbv zeta. split; [vm_compute; reflexivity|].
  destruct (resolve_handoff_target_correct demo_registry (demo_agent "a1" "planner" ∅) "coder"
    (Some REVIEW) demo_registry_reachable eq_refl) as (answer & E & _).
  exists answer. exact E.
Defined.

(** * Lemmas about the registry of agents

    What registering and removing one agent do to the agents, the roles and the routes, shared by
    the theorems about plugins and about the agent routes. *)

Definition keyed (l : list AgentSpec) : list (string * AgentSpec) := (λ a, (agent_id a, a)) <$> l.
Definition role_bindings (l : list AgentSpec) : list (string * string) := (λ a, (role a, agent_id a)) <$> l.
Notation ids_of l := (agent_id <$> l).

#[local] Ltac fields := cbn [agents roles routes fallback_roles fallback_role_priorities] in *.

Lemma keyed_app l1 l2 : keyed (l1 ++ l2) = keyed l1 ++ keyed l2.
Proof. apply fmap_app. Qed.

Lemma role_bindings_app l1 l2 : role_bindings (l1 ++ l2) = role_bindings l1 ++ role_bindings l2.
Proof. apply fmap_app. Qed.

#[export] Instance keyed_perm : Proper ((≡ₚ) ==> (≡ₚ)) keyed.
Proof. intros l1 l2 E. by apply fmap_Permutation. Qed.

Lemma keyed_keys l : od_keys (keyed l) = ids_of l.
Proof. unfold od_keys, keyed. rewrite <- list_fmap_compose. done. Qed.

Lemma role_bindings_keys l : od_keys (role_bindings l) = role <$> l.
Proof. unfold od_keys, role_bindings. rewrite <- list_fmap_compose. done. Qed.

(** ** Single operations of the registry *)

Lemma register_keeps_policies r a r' :
  register r a = Ok r' →
  fallback_roles r' = fallback_roles r ∧ fallback_role_priorities r' = fallback_role_priorities r.
Proof.
  unfold register. repeat (case_match; [|done]). by intros [= <-].
Qed.

Lemma register_ok r a r' :
  register r a = Ok r' →
  od_get (agent_id a) (agents r) = None ∧ od_get (role a) (roles r) = None ∧
  agents r' = agents r ++ keyed [a] ∧ roles r' = roles r ++ role_bindings [a] ∧ routes r' = routes r.
Proof.
  unfold register. destruct (py_bool (py_strip (agent_id a))); [|done].
  destruct (py_bool (py_strip (role a))); [|done].
  destruct (od_mem (agent_id a) (agents r)) eqn:Ea; [done|].
  destruct (od_mem (role a) (roles r)) eqn:Er; [done|]. intros [= <-]. fields.
  apply od_mem_false in Ea, Er. by rewrite !od_set_fresh.
Qed.

Lemma unregister_ok r id r' :
  unregister r id = Ok r' →
  ∃ a, od_get id (agents r) = Some a ∧ agents r' = od_pop id (agents r) ∧
    roles r' = od_pop (role a) (roles r) ∧
    ∀ s t, od_get (s, t) (routes r') =
      if decide (s ≠ role a ∧ t ≠ role a) then od_get (s, t) (routes r) else None.
Proof.
  unfold unregister, get. destruct (od_get id (agents r)) as [a|]; [|done]. intros [= <-]. fields.
  exists a. split_and!; [done..|]. intros s t.
  by rewrite (od_get_filter_key (λ k, k.1 ≠ role a ∧ k.2 ≠ role a)).
Qed.

Lemma unregister_raises r id e : unregister r id = Raise e → od_get id (agents r) = None.
Proof. unfold unregister, get. by destruct (od_get id (agents r)). Qed.

(** An agent that [register] takes for its own sake: neither name is blank. *)
Definition named (a : AgentSpec) : Prop := py_strip (agent_id a) ≠ "" ∧ py_strip (role a) ≠ "".

Lemma register_named r a r' : register r a = Ok r' → named a.
Proof.
  unfold register, named. destruct (py_bool (py_strip (agent_id a))) eqn:E1; [|done].
  destruct (py_bool (py_strip (role a))) eqn:E2; [|done]. by rewrite <- !py_bool_true.
Qed.

(** Names of its own that nobody has: the agent is registered. *)
Lemma register_complete r a :
  named a → od_get (agent_id a) (agents r) = None → od_get (role a) (roles r) = None →
  ∃ r', register r a = Ok r'.
Proof.
  intros [Hn1 Hn2] Ha Hr. unfold register. rewrite !(proj2 (py_bool_true _)) by done.
  rewrite !(proj2 (od_mem_false _ _)) by done. by eexists.
Qed.

(** Two agents of a registry with one role are one. *)
Lemma one_agent_per_role r i j a b :
  wf r → od_get i (agents r) = Some a → od_get j (agents r) = Some b → role a = role b → i = j.
Proof.
  intros Hw Ha Hb Hρ. destruct (w_id _ Hw _ _ Ha) as [_ H1]. destruct (w_id _ Hw _ _ Hb) as [_ H2].
  rewrite Hρ in H1. congruence.
Qed.

(** A registry with routes and policies changed: the same agents. *)
Definition same_agents (r r' : AgentRegistry) : Prop := agents r' = agents r ∧ roles r' = roles r.

Lemma set_policy_same r p :
  let r' := (set_handoff_fallback_policy r p).2 in same_agents r r' ∧ routes r' = routes r.
Proof.
  unfold set_handoff_fallback_policy. destruct (negb _); [done|]. destruct (negb _); [done|].
  fields. by destruct (normalize_priorities _ _ _).
Qed.
