(* ===== verification/AgentPlugins.v ===== *)
(** * Agent plugins

    Models src/agents/plugin_manager.py with src/agents/plugin_contract.py: a plugin is a
    manifest with agents, handoff routes and fallback policies; the manager loads, unloads and
    reloads plugins over one registry of agents, asks a lifecycle policy first and keeps an audit
    record of every decision.  An operation that may raise after it has changed the manager
    returns the manager with its answer.  The lifecycle policy is a parameter, as it is an
    argument of the code. *)

From S2P Require Import Prelude PyValue Sample ToolIO AgentRegistry.

Record AgentPluginManifest := mkManifest {
  plugin_id : string;
  version : string;
  compatible_core_major : Z;
  display_name : string;
  manifest_metadata : list (string * string);
}.

Record AgentPlugin := mkPlugin {
  manifest : AgentPluginManifest;
  plugin_agents : list AgentSpec;
  plugin_routes : list HandoffRoute;
  plugin_fallback_policies : list HandoffFallbackPolicy;
}.

(** ** Registering what a plugin has *)

(** The loop over [plugin.agents]: [ids] are the registered ids. *)
Fixpoint register_agents (r : AgentRegistry) (l : list AgentSpec) (ids : list string)
    : res unit * AgentRegistry * list string :=
  match l with
  | [] => (Ok tt, r, ids)
  | a :: l =>
      match AgentRegistry.register r a with
      | Raise e => (Raise e, r, ids)
      | Ok r => register_agents r l (ids ++ [agent_id a])
      end
  end.

Fixpoint add_routes (r : AgentRegistry) (l : list HandoffRoute) : res unit * AgentRegistry :=
  match l with
  | [] => (Ok tt, r)
  | route :: l =>
      match add_handoff_route r route with
      | Raise e => (Raise e, r)
      | Ok r => add_routes r l
      end
  end.

Fixpoint set_policies (r : AgentRegistry) (l : list HandoffFallbackPolicy) : res unit * AgentRegistry :=
  match l with
  | [] => (Ok tt, r)
  | p :: l =>
      match set_handoff_fallback_policy r p with
      | (Raise e, r) => (Raise e, r)
      | (Ok _, r) => set_policies r l
      end
  end.

(** The body of the [try] of [load_plugin] *)
Definition register_plugin (r : AgentRegistry) (p : AgentPlugin)
    : res unit * AgentRegistry * list string :=
  match register_agents r (plugin_agents p) [] with
  | (Raise e, r, ids) => (Raise e, r, ids)
  | (Ok _, r, ids) =>
      match add_routes r (plugin_routes p) with
      | (Raise e, r) => (Raise e, r, ids)
      | (Ok _, r) =>
          let '(answer, r) := set_policies r (plugin_fallback_policies p) in (answer, r, ids)
      end
  end.

(** The loop of the [except]: an agent that is missing stops it. *)
Fixpoint unregister_each (r : AgentRegistry) (ids : list string) : res unit * AgentRegistry :=
  match ids with
  | [] => (Ok tt, r)
  | id :: ids =>
      match AgentRegistry.unregister r id with
      | Raise e => (Raise e, r)
      | Ok r => unregister_each r ids
      end
  end.

(** The loop of [unload_plugin]: an agent that is missing is passed over. *)
Fixpoint unregister_present (r : AgentRegistry) (ids : list string) : AgentRegistry :=
  match ids with
  | [] => r
  | id :: ids =>
      match AgentRegistry.unregister r id with
      | Raise _ => unregister_present r ids
      | Ok r => unregister_present r ids
      end
  end.

(** ** The manager *)

Section manager.
Context {A : Type} `{!PolicyActions A}.

Record LifecyclePolicyDecision := mkLifecycleDecision {
  ld_decision : A;
  ld_reason_code : string;
  ld_message : string;
}.

Record LifecycleAuditRecord := mkLifecycleAudit {
  la_action : string;
  la_plugin_id : string;
  la_decision : A;
  la_reason_code : string;
  la_detail : string;
}.

(** [LifecyclePolicy.evaluate] of an action, a plugin and whether it has active tasks *)
Definition LifecyclePolicy := string → string → bool → LifecyclePolicyDecision.

Definition AllowAllLifecyclePolicy : LifecyclePolicy := λ action id _,
  mkLifecycleDecision ALLOW "AGENT_LIFECYCLE_ALLOWED"
    ("Lifecycle action " +:+ quoted action +:+ " allowed for plugin " +:+ quoted id +:+ ".").

Record AgentPluginManager := mkManager {
  mg_registry : AgentRegistry;
  core_major_version : Z;
  lifecycle_policy : LifecyclePolicy;
  plugins : list (string * AgentPlugin);
  plugin_agent_ids : list (string * list string);
  lifecycle_audit_records : list LifecycleAuditRecord;
}.

Definition new_manager (registry : AgentRegistry) (core_major_version : Z)
    (policy : option LifecyclePolicy) : AgentPluginManager :=
  mkManager registry core_major_version (default AllowAllLifecyclePolicy policy) [] [] [].

Definition with_registry (m : AgentPluginManager) (r : AgentRegistry) : AgentPluginManager :=
  mkManager r (core_major_version m) (lifecycle_policy m) (plugins m) (plugin_agent_ids m)
    (lifecycle_audit_records m).

Definition record_lifecycle_event (m : AgentPluginManager) (action id : string) (decision : A)
    (reason_code detail : string) : AgentPluginManager :=
  mkManager (mg_registry m) (core_major_version m) (lifecycle_policy m) (plugins m) (plugin_agent_ids m)
    (lifecycle_audit_records m ++ [mkLifecycleAudit action id decision reason_code detail]).

Definition authorize (m : AgentPluginManager) (action id : string) (active : bool)
    : res unit * AgentPluginManager :=
  let d := lifecycle_policy m action id active in
  let m := record_lifecycle_event m action id (ld_decision d) (ld_reason_code d) (ld_message d) in
  if bool_decide (ld_decision d = ALLOW) then (Ok tt, m)
  else
    (Raise (PermissionError ("Lifecycle action " +:+ quoted action +:+ " blocked for plugin "
                               +:+ quoted id +:+ ": " +:+ ld_reason_code d)), m).

Definition validate_compatibility (m : AgentPluginManager) (p : AgentPlugin) : res unit :=
  guard! compatible_core_major (manifest p) =? core_major_version m
    else ValueError ("Plugin " +:+ quoted (plugin_id (manifest p)) +:+ " requires core major "
           +:+ str_of_Z (compatible_core_major (manifest p)) +:+ ", expected "
           +:+ str_of_Z (core_major_version m)) in
  Ok tt.

Definition load_plugin (m : AgentPluginManager) (p : AgentPlugin) : res unit * AgentPluginManager :=
  match validate_compatibility m p with
  | Raise e => (Raise e, m)
  | Ok _ =>
      let id := plugin_id (manifest p) in
      match authorize m "load" id false with
      | (Raise e, m) => (Raise e, m)
      | (Ok _, m) =>
          if od_mem id (plugins m) then
            (Raise (ValueError ("Plugin " +:+ quoted id +:+ " is already loaded")), m)
          else
            match register_plugin (mg_registry m) p with
            | (Raise e, r, ids) =>
                match unregister_each r (reverse ids) with
                | (Raise e', r) => (Raise e', with_registry m r)
                | (Ok _, r) => (Raise e, with_registry m r)
                end
            | (Ok _, r, ids) =>
                let m := mkManager r (core_major_version m) (lifecycle_policy m)
                           (od_set id p (plugins m)) (od_set id ids (plugin_agent_ids m))
                           (lifecycle_audit_records m) in
                (Ok tt, record_lifecycle_event m "load" id ALLOW "AGENT_PLUGIN_LOADED"
                          ("Registered " +:+ str_of_nat (length ids) +:+ " agents."))
            end
      end
  end.

Definition unload_plugin (m : AgentPluginManager) (id : string) (active : bool)
    : res unit * AgentPluginManager :=
  match authorize m "unload" id active with
  | (Raise e, m) => (Raise e, m)
  | (Ok _, m) =>
      if active then
        (Raise (RuntimeError "Cannot unload plugin while active non-idempotent tasks exist"), m)
      else if negb (od_mem id (plugins m)) then
        (Raise (KeyError ("Plugin " +:+ quoted id +:+ " is not loaded")), m)
      else
        match od_get id (plugin_agent_ids m) with
        | None => (Raise (KeyError id), m)
        | Some ids =>
            let m := mkManager (unregister_present (mg_registry m) (reverse ids)) (core_major_version m)
                       (lifecycle_policy m) (od_pop id (plugins m)) (od_pop id (plugin_agent_ids m))
                       (lifecycle_audit_records m) in
            (Ok tt, record_lifecycle_event m "unload" id ALLOW "AGENT_PLUGIN_UNLOADED"
                      "Plugin agents and routes removed from registry.")
        end
  end.

(** The part of [reload_plugin] after the previous plugin is unloaded *)
Definition load_or_restore (m : AgentPluginManager) (p : AgentPlugin) (previous : option AgentPlugin)
    : res unit * AgentPluginManager :=
  match load_plugin m p with
  | (Ok _, m) =>
      (Ok tt, record_lifecycle_event m "reload" (plugin_id (manifest p)) ALLOW "AGENT_PLUGIN_RELOADED"
                "Reload completed successfully.")
  | (Raise e, m) =>
      match previous with
      | None => (Raise e, m)
      | Some previous =>
          match load_plugin m previous with
          | (Raise e', m) => (Raise e', m)
          | (Ok _, m) => (Raise e, m)
          end
      end
  end.

Definition reload_plugin (m : AgentPluginManager) (p : AgentPlugin) (active : bool)
    : res unit * AgentPluginManager :=
  let id := plugin_id (manifest p) in
  match authorize m "reload" id active with
  | (Raise e, m) => (Raise e, m)
  | (Ok _, m) =>
      let previous := od_get id (plugins m) in
      if od_mem id (plugins m) then
        match unload_plugin m id active with
        | (Raise e, m) => (Raise e, m)
        | (Ok _, m) => load_or_restore m p previous
        end
      else load_or_restore m p previous
  end.

Definition list_plugins (m : AgentPluginManager) : list string := sorted_strings (od_keys (plugins m)).

Definition list_lifecycle_audit_records (m : AgentPluginManager) : list LifecycleAuditRecord :=
  lifecycle_audit_records m.
End manager.
Arguments LifecyclePolicyDecision : clear implicits.
Arguments LifecycleAuditRecord : clear implicits.
Arguments LifecyclePolicy : clear implicits.
Arguments AgentPluginManager : clear implicits.

(** * Theorems about agent plugins

    Loading a plugin is all or nothing for the agents, and unloading it right away puts the
    agents back as they were; whatever plugins are loaded, unloaded and reloaded, the agents
    registered are those of the loaded plugins; and what a failed load, an unload and a reload
    leave behind among the routes. *)

#[local] Ltac fields := cbn [agents roles routes fallback_roles fallback_role_priorities] in *.

(** ** The loops *)

Lemma register_agents_spec r l ids :
  wf r →
  let '(answer, r', ids') := register_agents r l ids in
  wf r' ∧ ∃ added rest, l = added ++ rest ∧ ids' = ids ++ ids_of added ∧
    agents r' = agents r ++ keyed added ∧ roles r' = roles r ++ role_bindings added ∧
    routes r' = routes r ∧ (answer = Ok tt → rest = []).
Proof.
  revert r ids. induction l as [|a l IH]; intros r ids Hw; cbn [register_agents].
  { split; [done|]. exists [], []. by rewrite !app_nil_r. }
  destruct (register r a) as [r1|e] eqn:E.
  2:{ split; [done|]. exists [], (a :: l). by rewrite !app_nil_r. }
  pose proof (register_wf _ _ _ Hw E) as Hw1. apply register_ok in E as (_ & _ & Ea & Er & Et).
  specialize (IH r1 (ids ++ [agent_id a]) Hw1).
  destruct (register_agents r1 l _) as [[answer r'] ids'].
  destruct IH as (Hw' & added & rest & -> & -> & Ha & Hr & Ht & Hend). split; [done|].
  exists (a :: added), rest. rewrite Ha, Hr, Ht, Ea, Er, <- !app_assoc. done.
Qed.

(** A route under a key of [r'] that is not the one of [r] is new, and joins roles of [r']. *)
Definition routes_from (added : list HandoffRoute) (r r' : AgentRegistry) : Prop := ∀ k,
  od_get k (routes r') = od_get k (routes r) ∨
  is_Some (od_get k.1 (roles r')) ∧ is_Some (od_get k.2 (roles r')) ∧
  ∃ route, route ∈ added ∧ k = (source_role route, target_role route) ∧ od_get k (routes r') = Some route.

Lemma add_routes_spec r l :
  wf r → let '(_, r') := add_routes r l in wf r' ∧ same_agents r r' ∧ routes_from l r r'.
Proof.
  revert r. induction l as [|route l IH]; intros r Hw; cbn [add_routes].
  { split_and!; [done..|]. by left. }
  destruct (add_handoff_route r route) as [r1|e] eqn:E; [|split_and!; [done..|by left]].
  pose proof (add_handoff_route_wf _ _ _ Hw E) as Hw1.
  destruct (add_handoff_route_ok _ _ _ Hw E) as (a & Ha & _ & Hs & E1).
  specialize (IH r1 Hw1). destruct (add_routes r1 l) as [answer r'].
  destruct IH as (Hw' & [Hag Hro] & Hrt). subst r1. fields. split_and!; [done| |]; [split; congruence|].
  assert (is_Some (od_get (target_role route) (roles r))) as Ht by (apply known_role_agent; eauto).
  intros k. destruct (Hrt k) as [Hk|(? & ? & rt & Hin & ? & ?)]; fields.
  - destruct (decide (k = (source_role route, target_role route))) as [->|Hne].
    + right. rewrite Hro, Hk, od_get_set. split_and!; [done|done|]. exists route.
      by split; [left|].
    + left. by rewrite Hk, od_get_set_ne.
  - right. split_and!; [done..|]. exists rt. split; [by right|done].
Qed.

Lemma set_policies_spec r l :
  wf r → let '(_, r') := set_policies r l in wf r' ∧ same_agents r r' ∧ routes r' = routes r.
Proof.
  revert r. induction l as [|p l IH]; intros r Hw; cbn [set_policies]; [done|].
  pose proof (set_policy_same r p) as [[Ha Hr] Ht]. pose proof (set_fallback_wf r p Hw) as Hw1.
  destruct (set_handoff_fallback_policy r p) as [[[]|e] r1]; cbn [snd] in *; [|done].
  specialize (IH r1 Hw1). destruct (set_policies r1 l) as [answer r'].
  destruct IH as (? & [? ?] & ?). unfold same_agents. split_and!; congruence.
Qed.

(** What registering a plugin does, whether it succeeds or stops half way *)
Lemma register_plugin_spec r p :
  wf r →
  let '(answer, r', ids) := register_plugin r p in
  wf r' ∧ ∃ added rest, plugin_agents p = added ++ rest ∧ ids = ids_of added ∧
    agents r' = agents r ++ keyed added ∧ roles r' = roles r ++ role_bindings added ∧
    routes_from (plugin_routes p) r r' ∧ (answer = Ok tt → rest = []).
Proof.
  intros Hw. unfold register_plugin. pose proof (register_agents_spec r (plugin_agents p) [] Hw) as Hs.
  destruct (register_agents r (plugin_agents p) []) as [[answer r1] ids].
  destruct Hs as (Hw1 & added & rest & El & -> & Ea & Er & Et & Hend).
  destruct answer as [[]|e].
  2:{ split; [done|]. exists added, rest. split_and!; try done. intros k. left. by rewrite Et. }
  pose proof (add_routes_spec r1 (plugin_routes p) Hw1) as Hs.
  destruct (add_routes r1 (plugin_routes p)) as [answer r2]. destruct Hs as (Hw2 & [Ha2 Hr2] & Ht2).
  assert (∀ r', same_agents r2 r' → routes r' = routes r2 → routes_from (plugin_routes p) r r') as Hfrom.
  { intros r' [_ Hr'] Ht' k. unfold routes_from in *. rewrite Hr', Ht', <- Et. apply Ht2. }
  destruct answer as [[]|e].
  2:{ split; [done|]. exists added, rest. rewrite Ha2, Hr2. split_and!; try done. by apply Hfrom. }
  pose proof (set_policies_spec r2 (plugin_fallback_policies p) Hw2) as Hs.
  destruct (set_policies r2 _) as [answer r3]. destruct Hs as (Hw3 & [Ha3 Hr3] & Ht3).
  split; [done|]. exists added, rest. rewrite Ha3, Hr3, Ha2, Hr2. split_and!; try done; [by apply Hfrom|].
  intros _. by apply Hend.
Qed.

(** Taking back the agents registered last, newest first, never fails and leaves what was there
    before; of the routes it leaves those between other roles. *)
Lemma unregister_suffix added r X Y :
  wf r → agents r = X ++ keyed added → roles r = Y ++ role_bindings added →
  ∃ r', unregister_each r (reverse (ids_of added)) = (Ok tt, r') ∧ wf r' ∧ agents r' = X ∧ roles r' = Y ∧
    ∀ s t, od_get (s, t) (routes r') =
      if decide (s ∉ role <$> added ∧ t ∉ role <$> added) then od_get (s, t) (routes r) else None.
Proof.
  revert r. induction added as [|a added IH] using rev_ind; intros r Hw Ha Hr.
  { exists r. rewrite app_nil_r in Ha, Hr. split_and!; try done. }
  rewrite fmap_app, reverse_app. cbn [fmap list_fmap reverse rev_append app unregister_each].
  rewrite keyed_app, app_assoc in Ha. rewrite role_bindings_app, app_assoc in Hr.
  change (keyed [a]) with [(agent_id a, a)] in Ha. change (role_bindings [a]) with [(role a, agent_id a)] in Hr.
  assert (od_get (agent_id a) (X ++ keyed added) = None) as Hfa.
  { apply (od_wf_app_fresh _ _ a). rewrite <- Ha. apply w_agents, Hw. }
  destruct (unregister r (agent_id a)) as [r1|e] eqn:E.
  2:{ apply unregister_raises in E. rewrite Ha, od_get_app, Hfa in E. cbn in E. by rewrite decide_True in E. }
  pose proof (unregister_wf _ _ _ Hw E) as Hw1.
  destruct (unregister_ok _ _ _ E) as (b & Hb & Ea & Er & Et).
  rewrite Ha, od_get_app, Hfa in Hb. cbn in Hb. rewrite decide_True in Hb by done. injection Hb as <-.
  assert (agents r1 = X ++ keyed added) as Ha1 by (by rewrite Ea, Ha, od_pop_app_last).
  assert (od_get (role a) (Y ++ role_bindings added) = None) as Hfr.
  { apply (od_wf_app_fresh _ _ (agent_id a)). rewrite <- Hr. apply w_roles, Hw. }
  assert (roles r1 = Y ++ role_bindings added) as Hr1 by (by rewrite Er, Hr, od_pop_app_last).
  destruct (IH r1 Hw1 Ha1 Hr1) as (r' & -> & Hw' & ? & ? & Hrt). exists r'. split_and!; try done.
  intros s t. rewrite Hrt, Et. repeat case_decide; try done; exfalso; set_solver.
Qed.

Lemma unregister_each_present r ids r' :
  unregister_each r ids = (Ok tt, r') → unregister_present r ids = r'.
Proof.
  revert r. induction ids as [|id ids IH]; intros r; cbn; [by intros [= ->]|].
  destruct (unregister r id); [apply IH|done].
Qed.

Lemma unregister_present_wf r ids : wf r → wf (unregister_present r ids).
Proof.
  revert r. induction ids as [|id ids IH]; intros r Hw; cbn; [done|].
  destruct (unregister r id) eqn:E; [|by apply IH]. apply IH. by eapply unregister_wf.
Qed.

(** Passing over the missing agents, what remains is every agent with another id. *)
Lemma unregister_present_agents r ids :
  agents (unregister_present r ids) = filter (λ p, p.1 ∉ ids) (agents r).
Proof.
  revert r. induction ids as [|id ids IH]; intros r; cbn.
  { induction (agents r) as [|p l IH]; [done|]. rewrite filter_cons, decide_True by apply not_elem_of_nil.
    by rewrite <- IH. }
  assert (∀ r1, agents r1 = od_pop id (agents r) →
    filter (λ p, p.1 ∉ ids) (agents r1) = filter (λ p, p.1 ∉ id :: ids) (agents r)) as Hpop.
  { intros r1 ->. rewrite od_pop_filter, list_filter_filter. apply list_filter_iff. intros p.
    rewrite not_elem_of_cons. tauto. }
  destruct (unregister r id) as [r1|e] eqn:E; rewrite IH; apply Hpop.
  - by destruct (unregister_ok _ _ _ E) as (? & _ & ? & _).
  - by rewrite od_pop_fresh by by eapply unregister_raises.
Qed.

(** ** The manager *)

Section manager.
Context {A : Type} `{!PolicyActions A}.
#[local] Notation manager := (AgentPluginManager A).
Implicit Types (m : manager) (p : AgentPlugin).

#[local] Notation id_of p := (plugin_id (manifest p)).

Definition add_audit m (l : list (LifecycleAuditRecord A)) : manager :=
  mkManager (mg_registry m) (core_major_version m) (lifecycle_policy m) (plugins m) (plugin_agent_ids m)
    (lifecycle_audit_records m ++ l).

(** The record of a decision of the policy *)
Definition decided m (action id : string) (active : bool) : LifecycleAuditRecord A :=
  let d := lifecycle_policy m action id active in
  mkLifecycleAudit action id (ld_decision d) (ld_reason_code d) (ld_message d).

Definition allows m (action id : string) (active : bool) : Prop :=
  ld_decision (lifecycle_policy m action id active) = ALLOW.

Lemma authorize_spec m action id active :
  ∃ answer, authorize m action id active = (answer, add_audit m [decided m action id active]) ∧
    (is_ok answer = true ↔ allows m action id active).
Proof.
  unfold authorize, allows. case_bool_decide as E; eexists; split; try done; split; done.
Qed.

Lemma add_audit_app m l1 l2 : add_audit (add_audit m l1) l2 = add_audit m (l1 ++ l2).
Proof. unfold add_audit. cbn. by rewrite app_assoc. Qed.

(** What holds of a manager whatever its operations and those of others did to the registry *)
Record manager_ok m : Prop := {
  mo_registry : wf (mg_registry m);
  mo_plugins : od_wf (plugins m);
  mo_ids : plugin_agent_ids m = od_map (λ _ p, ids_of (plugin_agents p)) (plugins m);
  mo_loaded : ∀ id p, od_get id (plugins m) = Some p →
    id_of p = id ∧ compatible_core_major (manifest p) = core_major_version m ∧
    Forall named (plugin_agents p) ∧
    NoDup (ids_of (plugin_agents p)) ∧ NoDup (role <$> plugin_agents p);
}.

Lemma add_audit_ok m l : manager_ok m → manager_ok (add_audit m l).
Proof. intros []. by split. Qed.

Lemma register_agents_named r l ids :
  let '(answer, _, _) := register_agents r l ids in answer = Ok tt → Forall named l.
Proof.
  revert r ids. induction l as [|a l IH]; intros r ids; cbn [register_agents]; [by constructor|].
  destruct (register r a) as [r1|e] eqn:E; [|done]. specialize (IH r1 (ids ++ [agent_id a])).
  destruct (register_agents r1 l _) as [[answer r'] ids']. intros H1. constructor; [|by apply IH].
  by eapply register_named.
Qed.

Lemma register_plugin_named r p :
  let '(answer, _, _) := register_plugin r p in answer = Ok tt → Forall named (plugin_agents p).
Proof.
  unfold register_plugin. pose proof (register_agents_named r (plugin_agents p) []) as Hn.
  destruct (register_agents r (plugin_agents p) []) as [[[[]|e] r1] ids]; [|done].
  destruct (add_routes r1 _) as [[[]|e] r2]; [|done]. destruct (set_policies r2 _) as [answer r3].
  intros _. by apply Hn.
Qed.

Lemma wf_suffix_NoDup r r' l :
  wf r' → agents r' = agents r ++ keyed l → roles r' = roles r ++ role_bindings l →
  NoDup (ids_of l) ∧ NoDup (role <$> l).
Proof.
  intros Hw Ha Hr. pose proof (w_agents _ Hw) as H1. pose proof (w_roles _ Hw) as H2. unfold od_wf in H1, H2.
  rewrite Ha, od_keys_app, keyed_keys in H1. rewrite Hr, od_keys_app, role_bindings_keys in H2.
  apply NoDup_app in H1 as (_ & _ & ?). by apply NoDup_app in H2 as (_ & _ & ?).
Qed.

(** The routes that a failed load leaves: those of before, but where the plugin has a route
    between two roles that were there before it. *)
Definition routes_left p (r r' : AgentRegistry) : Prop := ∀ s t,
  od_get (s, t) (routes r') = od_get (s, t) (routes r) ∨
  is_Some (od_get s (roles r)) ∧ is_Some (od_get t (roles r)) ∧
  ∃ route, route ∈ plugin_routes p ∧ source_role route = s ∧ target_role route = t ∧
    od_get (s, t) (routes r') = Some route.

Lemma rolled_back_routes p r r1 r' added :
  wf r → routes_from (plugin_routes p) r r1 → roles r1 = roles r ++ role_bindings added →
  wf r1 →
  (∀ s t, od_get (s, t) (routes r') =
     if decide (s ∉ role <$> added ∧ t ∉ role <$> added) then od_get (s, t) (routes r1) else None) →
  routes_left p r r'.
Proof.
  intros Hw Hfrom Hr Hw1 Hrt s t. rewrite Hrt.
  assert (∀ ρ, ρ ∈ role <$> added → od_get ρ (roles r) = None) as Hfresh.
  { intros ρ Hρ. apply od_get_None. intros Hin. pose proof (w_roles _ Hw1) as Hnd. unfold od_wf in Hnd.
    rewrite Hr, od_keys_app, role_bindings_keys in Hnd. apply NoDup_app in Hnd as (_ & Hn & _).
    by apply (Hn ρ Hin). }
  case_decide as Hd.
  - destruct (Hfrom (s, t)) as [E|(Hs & Ht & route & Hin & [= -> ->] & E)]; [by left|right].
    assert (∀ ρ, ρ ∉ role <$> added → is_Some (od_get ρ (roles r1)) → is_Some (od_get ρ (roles r))) as Hold.
    { intros ρ Hn. rewrite Hr, od_get_app. destruct (od_get ρ (roles r)); [done|].
      intros Hk%od_get_Some_key. by rewrite role_bindings_keys in Hk. }
    destruct Hd. split_and!; [by apply Hold|by apply Hold|]. by exists route.
  - left. destruct (od_get (s, t) (routes r)) as [route|] eqn:E; [|done]. exfalso. apply Hd.
    destruct (w_route _ Hw _ _ _ E) as (_ & _ & [x Hs] & Ht).
    assert (is_Some (od_get t (roles r))) as [y Hy].
    { apply known_role_agent; [done|]. destruct Ht as (a & ? & _). by exists a. }
    split; intros Hin%Hfresh; congruence.
Qed.

(** What every answer of [load_plugin] comes with *)
Definition loaded_as m p m' : Prop :=
  let id := id_of p in
  compatible_core_major (manifest p) = core_major_version m ∧ allows m "load" id false ∧
  od_get id (plugins m) = None ∧ Forall named (plugin_agents p) ∧
  ∃ r' l, m' = mkManager r' (core_major_version m) (lifecycle_policy m) (plugins m ++ [(id, p)])
      (plugin_agent_ids m ++ [(id, ids_of (plugin_agents p))]) (lifecycle_audit_records m ++ l) ∧
    l = [decided m "load" id false;
         mkLifecycleAudit "load" id ALLOW "AGENT_PLUGIN_LOADED"
           ("Registered " +:+ str_of_nat (length (plugin_agents p)) +:+ " agents.")] ∧
    wf r' ∧ agents r' = agents (mg_registry m) ++ keyed (plugin_agents p) ∧
    roles r' = roles (mg_registry m) ++ role_bindings (plugin_agents p).

Definition refused_load m p m' : Prop :=
  ∃ r' l, m' = add_audit (with_registry m r') l ∧ wf r' ∧
    same_agents (mg_registry m) r' ∧ routes_left p (mg_registry m) r'.

Lemma ids_fresh m id : manager_ok m → od_get id (plugins m) = None → od_get id (plugin_agent_ids m) = None.
Proof. intros Hm E. by rewrite (mo_ids _ Hm), od_get_map, E. Qed.

Lemma load_spec m p :
  manager_ok m →
  match load_plugin m p with
  | (Ok _, m') => loaded_as m p m'
  | (Raise _, m') => refused_load m p m'
  end.
Proof.
  intros Hm. pose proof (mo_registry _ Hm) as Hw.
  assert (∀ l, refused_load m p (add_audit m l)) as Hsame.
  { intros l. exists (mg_registry m), l. split_and!; try done. intros s t. by left. }
  unfold load_plugin, validate_compatibility. destruct (Z.eqb_spec (compatible_core_major (manifest p)) (core_major_version m)) as [Hc|].
  2:{ exists (mg_registry m), []. split_and!; [|done..|intros s t; by left]. unfold add_audit, with_registry. rewrite app_nil_r. by destruct m. }
  destruct (authorize_spec m "load" (id_of p) false) as (answer & -> & Hall). destruct answer as [[]|e]; [|apply Hsame].
  pose proof (proj1 Hall eq_refl) as Ha. cbn [plugins add_audit].
  destruct (od_mem (id_of p) (plugins m)) eqn:Em; [apply Hsame|]. apply od_mem_false in Em.
  cbn [mg_registry add_audit]. pose proof (register_plugin_spec (mg_registry m) p Hw) as Hr.
  pose proof (register_plugin_named (mg_registry m) p) as Hn.
  destruct (register_plugin (mg_registry m) p) as [[answer r1] ids].
  destruct Hr as (Hw1 & added & rest & El & -> & Hag & Hro & Hrt & Hend). destruct answer as [[]|e].
  - rewrite (Hend eq_refl), app_nil_r in El. subst added. specialize (Hn eq_refl).
    split_and!; try done. exists r1. eexists. split; [|by split_and!].
    unfold record_lifecycle_event. cbn [mg_registry core_major_version lifecycle_policy plugins plugin_agent_ids lifecycle_audit_records add_audit].
    rewrite !od_set_fresh by (done || by apply ids_fresh). by rewrite length_fmap, <- app_assoc.
  - destruct (unregister_suffix added r1 _ _ Hw1 Hag Hro) as (r' & -> & Hw' & Hag' & Hro' & Hrt').
    exists r', [decided m "load" (id_of p) false]. split_and!; [done|done|done|].
    by eapply rolled_back_routes.
Qed.

Lemma loaded_as_ok m p m' : manager_ok m → loaded_as m p m' → manager_ok m'.
Proof.
  intros Hm (Hc & _ & Hfree & Hn & r' & l & -> & _ & Hw & Ha & Hr). pose proof Hm as [Hw0 Hp Hi Hl].
  destruct (wf_suffix_NoDup _ _ _ Hw Ha Hr). split; cbn [mg_registry plugins plugin_agent_ids].
  - done.
  - rewrite <- od_set_fresh by done. by apply od_wf_set.
  - rewrite Hi. unfold od_map. by rewrite fmap_app.
  - intros id q. rewrite od_get_app. destruct (od_get id (plugins m)) as [q'|] eqn:E.
    + intros [= <-]. by apply Hl.
    + cbn. case_decide as Hid; [|done]. by intros [= <-].
Qed.

Lemma refused_load_ok m p m' : manager_ok m → refused_load m p m' → manager_ok m'.
Proof. intros [Hw Hp Hi Hl] (r' & l & -> & Hw' & _). by split. Qed.

Lemma load_ok m p : manager_ok m → manager_ok (load_plugin m p).2.
Proof.
  intros Hm. pose proof (load_spec m p Hm) as Hs. destruct (load_plugin m p) as [[?|e] m'].
  - by eapply loaded_as_ok.
  - by eapply refused_load_ok.
Qed.

(** What every answer of [unload_plugin] comes with *)
Definition unloaded_as m (id : string) (active : bool) p m' : Prop :=
  allows m "unload" id active ∧ active = false ∧ od_get id (plugins m) = Some p ∧
  ∃ l, m' = mkManager (unregister_present (mg_registry m) (reverse (ids_of (plugin_agents p))))
    (core_major_version m) (lifecycle_policy m) (od_pop id (plugins m)) (od_pop id (plugin_agent_ids m))
    (lifecycle_audit_records m ++ decided m "unload" id active :: l).

Lemma unload_spec m id active :
  manager_ok m →
  match unload_plugin m id active with
  | (Ok _, m') => ∃ p, unloaded_as m id active p m'
  | (Raise _, m') => ∃ l, m' = add_audit m l ∧
      (active = true ∨ od_get id (plugins m) = None ∨ ¬ allows m "unload" id active)
  end.
Proof.
  intros Hm. unfold unload_plugin. destruct (authorize_spec m "unload" id active) as (answer & -> & Hall).
  destruct answer as [[]|e].
  2:{ eexists. split; [done|]. right. right. intros Hd%Hall. done. }
  destruct active; [eexists; auto|]. cbn [plugins plugin_agent_ids mg_registry add_audit].
  destruct (od_mem id (plugins m)) eqn:Em; cbn [negb].
  2:{ apply od_mem_false in Em. eexists. auto. }
  apply od_mem_true in Em as [p Hp]. rewrite (mo_ids _ Hm), od_get_map, Hp. cbn [fmap option_fmap option_map].
  exists p. split_and!; [by apply Hall|done|done|]. eexists. unfold record_lifecycle_event.
  cbn [mg_registry core_major_version lifecycle_policy plugins plugin_agent_ids lifecycle_audit_records add_audit].
  rewrite (mo_ids _ Hm), <- app_assoc. done.
Qed.

Lemma unloaded_as_ok m id active p m' : manager_ok m → unloaded_as m id active p m' → manager_ok m'.
Proof.
  intros [Hw Hp Hi Hl] (_ & _ & _ & l & ->). split; cbn [mg_registry plugins plugin_agent_ids].
  - by apply unregister_present_wf.
  - by apply od_wf_pop.
  - by rewrite Hi, od_map_pop.
  - intros id' q. destruct (decide (id' = id)) as [->|Hne]; [by rewrite od_get_pop|].
    rewrite od_get_pop_ne by done. apply Hl.
Qed.

Lemma unload_ok m id active : manager_ok m → manager_ok (unload_plugin m id active).2.
Proof.
  intros Hm. pose proof (unload_spec m id active Hm) as Hs. destruct (unload_plugin m id active) as [[?|e] m'].
  - destruct Hs as [p Hs]. by eapply unloaded_as_ok.
  - destruct Hs as (l & -> & _). by apply add_audit_ok.
Qed.

(** What loads, unloads and records preserve, a reload preserves. *)
Lemma reload_preserves (P : manager → Prop) m p active :
  (∀ m l, P m → P (add_audit m l)) → (∀ m p, P m → P (load_plugin m p).2) →
  (∀ m id active, P m → P (unload_plugin m id active).2) → P m → P (reload_plugin m p active).2.
Proof.
  intros Hrec Hload Hunload Hm. unfold reload_plugin.
  assert (∀ m previous, P m → P (load_or_restore m p previous).2) as Hlr.
  { intros m1 previous H1. unfold load_or_restore. pose proof (Hload m1 p H1) as H2.
    destruct (load_plugin m1 p) as [[?|e] m2]; cbn [snd] in *; [by apply Hrec|].
    destruct previous as [q|]; [|done]. pose proof (Hload m2 q H2) as H3.
    by destruct (load_plugin m2 q) as [[?|e'] m3]. }
  destruct (authorize_spec m "reload" (id_of p) active) as (answer & -> & _).
  pose proof (Hrec m [decided m "reload" (id_of p) active] Hm) as H1. destruct answer as [[]|e]; [|done].
  destruct (od_mem _ _); [|by apply Hlr].
  pose proof (Hunload (add_audit m [decided m "reload" (id_of p) active]) (id_of p) active H1) as H2.
  destruct (unload_plugin _ _ _) as [[?|e] m2]; [by apply Hlr|done].
Qed.

Lemma reload_ok m p active : manager_ok m → manager_ok (reload_plugin m p active).2.
Proof. apply reload_preserves; [apply add_audit_ok|apply load_ok|apply unload_ok]. Qed.

(** ** Operations one after another *)

Inductive plugin_step : manager → manager → Prop :=
| step_load m p : plugin_step m (load_plugin m p).2
| step_unload m id active : plugin_step m (unload_plugin m id active).2
| step_reload m p active : plugin_step m (reload_plugin m p active).2.

(** What others do to the registry in between *)
Inductive other_step : manager → manager → Prop :=
| step_register m a r : register (mg_registry m) a = Ok r → other_step m (with_registry m r)
| step_unregister m id r : unregister (mg_registry m) id = Ok r → other_step m (with_registry m r)
| step_route m route r : add_handoff_route (mg_registry m) route = Ok r → other_step m (with_registry m r)
| step_fallback m policy : other_step m (with_registry m (set_handoff_fallback_policy (mg_registry m) policy).2).

Lemma plugin_step_ok m m' : plugin_step m m' → manager_ok m → manager_ok m'.
Proof. intros [] Hm; [by apply load_ok|by apply unload_ok|by apply reload_ok]. Qed.

Lemma with_registry_ok m r : manager_ok m → wf r → manager_ok (with_registry m r).
Proof. intros []. by split. Qed.

Lemma other_step_ok m m' : other_step m m' → manager_ok m → manager_ok m'.
Proof.
  intros Hs Hm. pose proof (mo_registry _ Hm) as Hw. destruct Hs; (apply with_registry_ok; [done|]).
  - by eapply register_wf.
  - by eapply unregister_wf.
  - by eapply add_handoff_route_wf.
  - by apply set_fallback_wf.
Qed.

Lemma new_manager_ok r core policy : reachable r → manager_ok (new_manager r core policy).
Proof. intros Hr. split; [by apply registry_reachable_wf|constructor|done|done]. Qed.

Lemma run_ok r core policy m :
  reachable r → rtc (λ m m', plugin_step m m' ∨ other_step m m') (new_manager r core policy) m → manager_ok m.
Proof.
  intros Hr Hrun. pose proof (new_manager_ok r core policy Hr) as Hm. revert Hrun Hm.
  induction 1 as [|m1 m2 m3 [Hs|Hs] _ IH]; intros Hm; [done| |]; apply IH;
    [by eapply plugin_step_ok|by eapply other_step_ok].
Qed.

Lemma plugin_run_ok r core policy m :
  reachable r → rtc plugin_step (new_manager r core policy) m → manager_ok m.
Proof.
  intros Hr Hrun. eapply run_ok; [done|]. eapply rtc_subrel; [|exact Hrun]. intros ? ? ?. by left.
Qed.

(** Unloading a plugin right after it was loaded takes back exactly what the load added. *)
Lemma unload_after_load m p m' :
  manager_ok m → loaded_as m p m' → allows m "unload" (id_of p) false →
  ∃ m'', unload_plugin m' (id_of p) false = (Ok tt, m'') ∧
    same_agents (mg_registry m) (mg_registry m'') ∧
    plugins m'' = plugins m ∧ plugin_agent_ids m'' = plugin_agent_ids m.
Proof.
  intros Hm Hload Hallow. pose proof (loaded_as_ok _ _ _ Hm Hload) as Hm'.
  destruct Hload as (_ & _ & Hfree & _ & r' & l & -> & _ & Hw & Ha & Hr).
  pose proof (unload_spec _ (id_of p) false Hm') as Hs.
  destruct (unload_plugin _ _ _) as [[[]|e] m''].
  - destruct Hs as (q & _ & _ & Hq & l' & ->). cbn [plugins plugin_agent_ids mg_registry] in *. eexists.
    split; [done|]. cbn [mg_registry plugins plugin_agent_ids].
    rewrite od_get_app, Hfree in Hq. cbn in Hq. rewrite decide_True in Hq by done. injection Hq as <-.
    destruct (unregister_suffix (plugin_agents p) r' _ _ Hw Ha Hr) as (r2 & E & _ & Ha2 & Hr2 & _).
    rewrite (unregister_each_present _ _ _ E). split_and!; [done|by apply od_pop_app_last|].
    apply od_pop_app_last. by apply ids_fresh.
  - destruct Hs as (l' & _ & [?|[Hn|Hn]]); [done| |by destruct Hn].
    cbn [plugins] in Hn. rewrite od_get_app, Hfree in Hn. cbn in Hn. by rewrite decide_True in Hn.
Qed.

(** C34: Loading a plugin is all or nothing for the agents, whatever the operations of the manager
    and of others did before.  A load that succeeds was allowed, of a compatible plugin not loaded
    yet, and adds its agents, each under its role, after those that were there; unloading the plugin
    right away, when allowed, gives back the agents, the roles and the plugins as they were.  A load that
    fails, even half way, leaves agents, roles and plugins as they were, and changes a route only
    where the plugin has one between two roles that were there before it. *)
Theorem load_plugin_all_or_nothing r core policy m p :
  reachable r → rtc (λ m m', plugin_step m m' ∨ other_step m m') (new_manager r core policy) m →
  let id := plugin_id (manifest p) in
  match load_plugin m p with
  | (Ok _, m') =>
      compatible_core_major (manifest p) = core_major_version m ∧ allows m "load" id false ∧
      od_get id (plugins m) = None ∧ plugins m' = plugins m ++ [(id, p)] ∧
      agents (mg_registry m') = agents (mg_registry m) ++ keyed (plugin_agents p) ∧
      roles (mg_registry m') = roles (mg_registry m) ++ role_bindings (plugin_agents p) ∧
      (allows m "unload" id false →
       ∃ m'', unload_plugin m' id false = (Ok tt, m'') ∧ same_agents (mg_registry m) (mg_registry m'') ∧
         plugins m'' = plugins m ∧ plugin_agent_ids m'' = plugin_agent_ids m)
  | (Raise _, m') =>
      same_agents (mg_registry m) (mg_registry m') ∧ plugins m' = plugins m ∧
      plugin_agent_ids m' = plugin_agent_ids m ∧ routes_left p (mg_registry m) (mg_registry m')
  end.
Proof.
  intros Hr Hrun. pose proof (run_ok _ _ _ _ Hr Hrun) as Hm. pose proof (load_spec m p Hm) as Hs. cbv zeta.
  destruct (load_plugin m p) as [[?|e] m'].
  - pose proof (unload_after_load _ _ _ Hm Hs) as Hun.
    destruct Hs as (? & ? & ? & ? & r' & l & -> & _ & ? & ? & ?). by split_and!.
  - destruct Hs as (r' & l & -> & ? & ? & ?). by split_and!.
Qed.

(** *** The agents of the loaded plugins *)

Definition loaded_agents m : list AgentSpec := od_values (plugins m) ≫= plugin_agents.

Definition accounted (base : list (string * AgentSpec)) m : Prop :=
  manager_ok m ∧ agents (mg_registry m) ≡ₚ base ++ keyed (loaded_agents m).

Lemma load_accounted base m p : accounted base m → accounted base (load_plugin m p).2.
Proof.
  intros [Hm Ha]. split; [by apply load_ok|]. pose proof (load_spec m p Hm) as Hs.
  destruct (load_plugin m p) as [[?|e] m']; cbn [snd].
  - destruct Hs as (_ & _ & _ & _ & r' & l & -> & _ & _ & Ha' & _). unfold loaded_agents in *.
    cbn [mg_registry plugins]. rewrite Ha', Ha. unfold od_values.
    rewrite fmap_app, bind_app, keyed_app. cbn. by rewrite app_nil_r, app_assoc.
  - destruct Hs as (r' & l & -> & _ & [Ha' _] & _). unfold loaded_agents. cbn. by rewrite Ha'.
Qed.

Lemma unload_accounted base m id active :
  accounted base m → accounted base (unload_plugin m id active).2.
Proof.
  intros [Hm Ha]. split; [by apply unload_ok|]. pose proof (unload_spec m id active Hm) as Hs.
  destruct (unload_plugin m id active) as [[?|e] m']; cbn [snd].
  2:{ by destruct Hs as (l & -> & _). }
  destruct Hs as (p & _ & _ & Hp & l & ->). unfold loaded_agents in *. cbn [mg_registry plugins].
  rewrite unregister_present_agents. rewrite (od_values_pop _ _ _ (mo_plugins _ Hm) Hp) in Ha.
  set (rest := keyed (od_values (od_pop id _) ≫= _)). rewrite bind_cons, keyed_app in Ha. fold rest in Ha.
  assert (NoDup (od_keys (agents (mg_registry m)))) as Hnd by apply (w_agents _ (mo_registry _ Hm)).
  assert (agents (mg_registry m) ≡ₚ keyed (plugin_agents p) ++ (base ++ rest)) as Hp'.
  { rewrite Ha, (Permutation_app_comm base), <- app_assoc, (Permutation_app_comm _ base). done. }
  unfold od_keys in Hnd. rewrite Hp' in Hnd. change (NoDup (od_keys (keyed (plugin_agents p) ++ (base ++ rest)))) in Hnd.
  rewrite od_keys_app, keyed_keys in Hnd. apply NoDup_app in Hnd as (_ & Hdis & _).
  rewrite Hp', filter_app, filter_all_out, filter_all_in; [done| |].
  - intros [k b] Hk. cbn. rewrite elem_of_reverse. intros Hin. apply (Hdis k Hin).
    by apply (list_elem_of_fmap_2 fst _ (k, b)).
  - intros [k b] Hk Hn. apply Hn. cbn. rewrite elem_of_reverse, <- keyed_keys.
    by apply (list_elem_of_fmap_2 fst _ (k, b)).
Qed.

Lemma add_audit_accounted base m l : accounted base m → accounted base (add_audit m l).
Proof. intros [Hm Ha]. split; [by apply add_audit_ok|done]. Qed.

Lemma plugin_run_accounted r core policy m :
  reachable r → rtc plugin_step (new_manager r core policy) m → accounted (agents r) m.
Proof.
  intros Hr Hrun. assert (accounted (agents r) (new_manager r core policy)) as H0.
  { split; [by apply new_manager_ok|]. cbn. by rewrite app_nil_r. }
  revert Hrun H0. induction 1 as [|m1 m2 m3 Hs _ IH]; intros H1; [done|]. apply IH. destruct Hs.
  - by apply load_accounted.
  - by apply unload_accounted.
  - apply reload_preserves; [apply add_audit_accounted|apply load_accounted|apply unload_accounted|done].
Qed.
(** The agents registered, as long as only the manager changes the registry, are those it
    started with and those of the loaded plugins, each exactly once: no load, unload or reload,
    whether it succeeds or fails, loses an agent or leaves one behind. *)
Theorem plugin_agents_accounted r core policy m :
  reachable r → rtc plugin_step (new_manager r core policy) m →
  agents (mg_registry m) ≡ₚ agents r ++ keyed (loaded_agents m) ∧
  plugin_agent_ids m = od_map (λ _ p, ids_of (plugin_agents p)) (plugins m).
Proof.
  intros Hr Hrun. destruct (plugin_run_accounted _ _ _ _ Hr Hrun) as [Hm Ha].
  split; [exact Ha|apply (mo_ids _ Hm)].
Qed.

(** *** Reloading *)

(** The routes and the policies of a plugin are between its own agents. *)
Definition self_contained p : Prop :=
  (∀ route, route ∈ plugin_routes p → source_role route ∈ role <$> plugin_agents p ∧
     ∃ a, a ∈ plugin_agents p ∧ role a = target_role route ∧
          required_target_capabilities route ⊆ capability_tags a) ∧
  (∀ q, q ∈ plugin_fallback_policies p →
     fp_source_role q ∈ role <$> plugin_agents p ∧ fp_target_role q ∈ role <$> plugin_agents p ∧
     ∀ raw n, (raw, n) ∈ target_role_priorities q →
       py_strip raw = "" ∨ py_strip raw ∈ role <$> plugin_agents p).

Lemma register_agents_complete r l ids :
  Forall named l → NoDup (ids_of l) → NoDup (role <$> l) →
  (∀ a, a ∈ l → od_get (agent_id a) (agents r) = None ∧ od_get (role a) (roles r) = None) →
  ∃ r', register_agents r l ids = (Ok tt, r', ids ++ ids_of l).
Proof.
  revert r ids. induction l as [|a l IH]; intros r ids Hn Hi Hr Hfree.
  { exists r. cbn. by rewrite app_nil_r. }
  apply Forall_cons in Hn as [[Hn1 Hn2] Hn]. apply NoDup_cons in Hi as [Hia Hi]. apply NoDup_cons in Hr as [Hra Hr].
  destruct (Hfree a (list_elem_of_here _ _)) as [Ha Hro].
  destruct (register_complete r a (conj Hn1 Hn2) Ha Hro) as [r1 E].
  cbn [register_agents]. rewrite E. apply register_ok in E as (_ & _ & Ea & Er & _).
  destruct (IH r1 (ids ++ [agent_id a]) Hn Hi Hr) as [r' E'].
  - intros b Hb. destruct (Hfree b (list_elem_of_further _ _ _ Hb)) as [Hb1 Hb2].
    rewrite Ea, Er, !od_get_app, Hb1, Hb2. cbn. rewrite !decide_False; [done| |].
    + intros Heq. apply Hra. rewrite <- Heq. by apply list_elem_of_fmap_2.
    + intros Heq. apply Hia. rewrite <- Heq. by apply list_elem_of_fmap_2.
  - exists r'. by rewrite E', <- app_assoc.
Qed.

Lemma add_routes_complete r l :
  wf r →
  (∀ route, route ∈ l → is_Some (od_get (source_role route) (roles r)) ∧
     ∃ a, agent_for_role r (target_role route) = Some a ∧
          required_target_capabilities route ⊆ capability_tags a) →
  ∃ r', add_routes r l = (Ok tt, r').
Proof.
  revert r. induction l as [|route l IH]; intros r Hw Hl; [by exists r|]. cbn [add_routes].
  destruct (Hl route (list_elem_of_here _ _)) as [Hs (a & Ha & Hc)].
  assert (∃ r1, add_handoff_route r route = Ok r1) as [r1 E].
  { unfold add_handoff_route. rewrite (proj2 (od_mem_true _ _)) by done.
    rewrite (proj2 (od_mem_true _ _)) by (apply known_role_agent; eauto).
    apply get_by_role_agent in Ha as ->; [|done]. cbn. apply missing_none in Hc as ->. by eexists. }
  rewrite E. pose proof (add_handoff_route_wf _ _ _ Hw E) as Hw1.
  destruct (add_handoff_route_ok _ _ _ Hw E) as (_ & _ & _ & _ & E1). apply IH; [done|].
  intros rt Hrt. destruct (Hl rt (list_elem_of_further _ _ _ Hrt)). subst r1. done.
Qed.

Lemma normalize_priorities_complete known l acc :
  (∀ raw n, (raw, n) ∈ l → py_strip raw = "" ∨ is_Some (od_get (py_strip raw) known)) →
  ∃ ps, normalize_priorities known l acc = Ok ps.
Proof.
  intros Hl. destruct (normalize_priorities known l acc) as [ps|e] eqn:E; [by exists ps|].
  apply normalize_priorities_raises in E as (raw & n & Hin & Hne & Hk).
  destruct (Hl _ _ Hin) as [?|[x Hx]]; [done|congruence].
Qed.

Lemma set_policies_complete r l :
  (∀ q, q ∈ l → is_Some (od_get (fp_source_role q) (roles r)) ∧ is_Some (od_get (fp_target_role q) (roles r)) ∧
     ∀ raw n, (raw, n) ∈ target_role_priorities q → py_strip raw = "" ∨ is_Some (od_get (py_strip raw) (roles r))) →
  ∃ r', set_policies r l = (Ok tt, r').
Proof.
  revert r. induction l as [|q l IH]; intros r Hl; [by exists r|]. cbn [set_policies].
  destruct (Hl q (list_elem_of_here _ _)) as (Hs & Ht & Hp).
  pose proof (set_policy_same r q) as [[_ Hro] _].
  destruct (normalize_priorities_complete (roles r) _ [] Hp) as [ps Eps].
  destruct (set_handoff_fallback_policy r q) as [answer r1] eqn:E. cbn [snd] in Hro.
  assert (answer = Ok tt) as ->.
  { apply (f_equal fst) in E. revert E. unfold set_handoff_fallback_policy.
    rewrite !(proj2 (od_mem_true _ _)) by done. cbn [negb roles]. rewrite Eps. cbn [fst]. congruence. }
  apply IH. intros q' Hq'. rewrite Hro. apply Hl. by right.
Qed.

Lemma load_complete m p :
  manager_ok m → compatible_core_major (manifest p) = core_major_version m →
  allows m "load" (id_of p) false → od_get (id_of p) (plugins m) = None → self_contained p →
  Forall named (plugin_agents p) → NoDup (ids_of (plugin_agents p)) → NoDup (role <$> plugin_agents p) →
  (∀ a, a ∈ plugin_agents p → od_get (agent_id a) (agents (mg_registry m)) = None ∧
     od_get (role a) (roles (mg_registry m)) = None) →
  (load_plugin m p).1 = Ok tt.
Proof.
  intros Hm Hc Hall Hfree [Hroutes Hpol] Hn Hi Hr Hfresh. pose proof (mo_registry _ Hm) as Hw.
  unfold load_plugin, validate_compatibility. rewrite Hc, Z.eqb_refl.
  destruct (authorize_spec m "load" (id_of p) false) as (answer & -> & Ha).
  destruct answer as [[]|e]; [|by apply Ha in Hall]. cbn [plugins add_audit mg_registry].
  rewrite (proj2 (od_mem_false _ _)) by done. unfold register_plugin.
  destruct (register_agents_complete _ _ [] Hn Hi Hr Hfresh) as [r1 E].
  pose proof (register_agents_spec (mg_registry m) (plugin_agents p) [] Hw) as Hs. rewrite E in Hs |- *.
  destruct Hs as (Hw1 & added & rest & El & _ & Ha1 & Hr1 & _ & Hend). rewrite (Hend eq_refl), app_nil_r in El.
  subst added. assert (∀ ρ, ρ ∈ role <$> plugin_agents p → is_Some (od_get ρ (roles r1))) as Hknown.
  { intros ρ Hρ. apply od_get_Some_key. rewrite Hr1, od_keys_app, role_bindings_keys, elem_of_app. by right. }
  destruct (add_routes_complete r1 (plugin_routes p) Hw1) as [r2 E2].
  { intros route [Hs (a & Hin & Hρ & Hcap)]%Hroutes. split; [by apply Hknown|]. exists a. split; [|done].
    apply agent_for_role_Some; [done|]. split; [|done]. apply od_elem_get; [apply Hw1|].
    rewrite Ha1. apply elem_of_app. right. by apply (list_elem_of_fmap_2 (λ a, (agent_id a, a))). }
  pose proof (add_routes_spec r1 (plugin_routes p) Hw1) as Hs2. rewrite E2 in Hs2 |- *. destruct Hs2 as (_ & [_ Hro2] & _).
  destruct (set_policies_complete r2 (plugin_fallback_policies p)) as [r3 E3].
  { intros q (Hs & Ht & Hp)%Hpol. rewrite Hro2. split_and!; [by apply Hknown..|].
    intros raw n [?|?]%Hp; [by left|right; by apply Hknown]. }
  rewrite E3. done.
Qed.

Lemma accounted_registered base m id p a :
  accounted base m → od_get id (plugins m) = Some p → a ∈ plugin_agents p →
  od_get (agent_id a) (agents (mg_registry m)) = Some a.
Proof.
  intros [Hm Ha] Hp Hin. apply od_elem_get; [apply (w_agents _ (mo_registry _ Hm))|].
  rewrite Ha. apply elem_of_app. right. apply (list_elem_of_fmap_2 (λ a, (agent_id a, a))).
  unfold loaded_agents. apply list_elem_of_bind. exists p. split; [done|]. by eapply od_get_values.
Qed.

Lemma unloaded_fresh base m id active p m' a :
  accounted base m → unloaded_as m id active p m' → a ∈ plugin_agents p →
  od_get (agent_id a) (agents (mg_registry m')) = None ∧ od_get (role a) (roles (mg_registry m')) = None.
Proof.
  intros Hacc (_ & _ & Hp & l & ->) Hin. cbn [mg_registry]. pose proof Hacc as [Hm _].
  pose proof (mo_registry _ Hm) as Hw. pose proof (accounted_registered _ _ _ _ _ Hacc Hp Hin) as Ha.
  pose proof (unregister_present_wf _ (reverse (ids_of (plugin_agents p))) Hw) as Hw'.
  assert (agent_id a ∈ reverse (ids_of (plugin_agents p))) as Hid
    by (apply elem_of_reverse; by apply list_elem_of_fmap_2).
  assert (∀ i, od_get i (agents (unregister_present (mg_registry m) (reverse (ids_of (plugin_agents p)))))
    = if decide (i ∉ reverse (ids_of (plugin_agents p))) then od_get i (agents (mg_registry m)) else None) as Hget.
  { intros i. rewrite unregister_present_agents. by rewrite (od_get_filter_key (λ k, k ∉ reverse (ids_of (plugin_agents p)))). }
  split; [rewrite Hget; by rewrite decide_False by tauto|]. apply eq_None_not_Some. intros [i Hi].
  destruct (w_role _ Hw' _ _ Hi) as (b & Hb & Hρ). rewrite Hget in Hb. case_decide as Hni; [|done].
  apply Hni. by rewrite (one_agent_per_role _ _ _ _ _ Hw Hb Ha Hρ).
Qed.

Lemma plugins_pop m p : od_get (id_of p) (plugins m) = None →
  ∀ other, od_get other (plugins m ++ [(id_of p, p)]) = if decide (other = id_of p) then Some p else od_get other (plugins m).
Proof.
  intros Hfree other. rewrite od_get_app. cbn. case_decide as E; [by rewrite E, Hfree|].
  by destruct (od_get other (plugins m)).
Qed.

(** After the previous plugin is unloaded: either the new one is loaded or the old one is back. *)
Lemma load_or_restore_outcome base m id active p previous m1 :
  accounted base m → id = id_of p → unloaded_as m id active previous m1 →
  self_contained previous → allows m "load" id false →
  let '(answer, m') := load_or_restore m1 p (Some previous) in
  od_get id (plugins m') = Some (if is_ok answer then p else previous) ∧
  ∀ other, other ≠ id → od_get other (plugins m') = od_get other (plugins m).
Proof.
  intros Hacc -> Hun Hself Hallow. pose proof Hacc as [Hm _]. pose proof (unloaded_as_ok _ _ _ _ _ Hm Hun) as Hm1.
  pose proof (λ a, unloaded_fresh _ _ _ _ _ _ a Hacc Hun) as Hfresh.
  destruct Hun as (_ & _ & Hprev & l1 & E1).
  destruct (mo_loaded _ Hm _ _ Hprev) as (Hid & Hc & Hn & Hi & Hr).
  assert (∀ other, od_get other (plugins m1) = if decide (other = id_of p) then None else od_get other (plugins m)) as Hplug.
  { intros other. rewrite E1. cbn [plugins]. case_decide as E; [by rewrite E, od_get_pop|by rewrite od_get_pop_ne]. }
  assert (∀ q other, id_of q = id_of p →
    od_get other (plugins m1 ++ [(id_of q, q)]) = if decide (other = id_of p) then Some q else od_get other (plugins m)) as Hnew.
  { intros q other Hq. rewrite plugins_pop by (rewrite Hq, Hplug; by rewrite decide_True). rewrite Hq, Hplug. by case_decide. }
  unfold load_or_restore. pose proof (load_spec m1 p Hm1) as Hs. destruct (load_plugin m1 p) as [[?|e] m2].
  - destruct Hs as (_ & _ & _ & _ & r' & l & -> & _). cbn [plugins record_lifecycle_event is_ok].
    split; [rewrite Hnew by done; by rewrite decide_True|]. intros other Hne. rewrite Hnew by done. by rewrite decide_False.
  - pose proof (refused_load_ok _ _ _ Hm1 Hs) as Hm2. destruct Hs as (r2 & l2 & E2 & _ & [Ha2 Hr2] & _).
    assert ((load_plugin m2 previous).1 = Ok tt) as Hok.
    { rewrite E2, E1 in *. apply load_complete; try done.
      - unfold allows in *. cbn [lifecycle_policy add_audit with_registry]. by rewrite Hid.
      - rewrite Hid. cbn [plugins add_audit with_registry]. by rewrite od_get_pop.
      - intros a Ha. cbn [mg_registry add_audit with_registry] in *. rewrite Ha2, Hr2. by apply Hfresh. }
    pose proof (load_spec m2 previous Hm2) as Hs. destruct (load_plugin m2 previous) as [[?|e'] m3]; [|done].
    destruct Hs as (_ & _ & _ & _ & r' & l & -> & _). cbn [plugins is_ok].
    assert (plugins m2 = plugins m1) as -> by by rewrite E2.
    split; [rewrite Hnew by done; by rewrite decide_True|]. intros other Hne. rewrite Hnew by done. by rewrite decide_False.
Qed.

(** Reloading a loaded plugin whose routes and policies are between its own agents, under a policy
    that allows to load it, ends with the new plugin loaded when it succeeds and with the previous one
    loaded when it fails, wherever it failed; the other plugins stay, and the agents registered are
    then exactly those of the plugins that are loaded. *)
Theorem reload_keeps_plugins r core policy m p previous active :
  reachable r → rtc plugin_step (new_manager r core policy) m →
  let id := plugin_id (manifest p) in
  od_get id (plugins m) = Some previous → self_contained previous → allows m "load" id false →
  let '(answer, m') := reload_plugin m p active in
  od_get id (plugins m') = Some (if is_ok answer then p else previous) ∧
  (∀ other, other ≠ id → od_get other (plugins m') = od_get other (plugins m)) ∧
  agents (mg_registry m') ≡ₚ agents r ++ keyed (loaded_agents m').
Proof.
  intros Hr Hrun id Hprev Hself Hallow. pose proof (plugin_run_accounted _ _ _ _ Hr Hrun) as Hacc.
  assert (accounted (agents r) (reload_plugin m p active).2) as [_ Hacc'].
  { apply reload_preserves; [apply add_audit_accounted|apply load_accounted|apply unload_accounted|done]. }
  destruct (reload_plugin m p active) as [answer m'] eqn:E. cbn [snd] in Hacc'. apply and_assoc.
  split; [|exact Hacc']. clear Hacc'. revert E. unfold reload_plugin. fold id.
  destruct (authorize_spec m "reload" id active) as (an & -> & _). destruct an as [[]|e]; [|by intros [= <- <-]].
  set (m0 := add_audit m _). assert (accounted (agents r) m0) as Hacc0 by by apply add_audit_accounted.
  cbn [plugins m0 add_audit]. rewrite (proj2 (od_mem_true _ _)) by (by exists previous). rewrite Hprev.
  pose proof (unload_spec m0 id active (proj1 Hacc0)) as Hs. destruct (unload_plugin m0 id active) as [[?|e] m1].
  - destruct Hs as [q Hun]. pose proof Hun as (_ & _ & Hq & _). cbn [plugins m0 add_audit] in Hq.
    rewrite Hprev in Hq. injection Hq as <-. intros E.
    pose proof (load_or_restore_outcome _ m0 id active p previous m1 Hacc0 eq_refl Hun Hself Hallow) as Ho.
    by rewrite E in Ho.
  - destruct Hs as (l & -> & _). by intros [= <- <-].
Qed.
End manager.

(** *** Examples *)

Module PluginExamples.
Import Sample.
Notation manager := (AgentPluginManager action).

Definition plugin (id : string) (core : Z) (l : list AgentSpec) (rs : list HandoffRoute)
    (ps : list HandoffFallbackPolicy) : AgentPlugin :=
  mkPlugin (mkManifest id "1.0.0" core "" []) l rs ps.

Definition route (from to : string) : HandoffRoute := mkRoute from to "" ∅.

Definition start (r : AgentRegistry) : manager := new_manager r 1 None.

Definition tester : AgentPlugin :=
  plugin "qa" 1 [demo_agent "t1" "tester" ∅; demo_agent "t2" "auditor" ∅] [route "tester" "auditor"]
    [mkPolicy "tester" "auditor" ["auditor"] [("tester", 2)]].
Definition planner : AgentPlugin := plugin "plan" 1 [demo_agent "p1" "chief" ∅] [] [].
(** Its route leads to the role of another plugin. *)
Definition clerk : AgentPlugin := plugin "desk" 1 [demo_agent "d1" "clerk" ∅] [route "clerk" "chief"] [].
Definition newer (core : Z) (p : AgentPlugin) : AgentPlugin :=
  plugin (plugin_id (manifest p)) core (plugin_agents p) (plugin_routes p) (plugin_fallback_policies p).
(** A route between roles that are there before it, and a policy of an unknown role *)
Definition meddler (ps : list HandoffFallbackPolicy) : AgentPlugin :=
  plugin "extra" 1 [demo_agent "x1" "extra" ∅] [route "planner" "coder"] ps.

Definition with_plugin (m : manager) (p : AgentPlugin) : manager := (load_plugin m p).2.

Lemma demo_2_reachable : reachable demo_2.
Proof.
  refine (reach_register demo_1 (demo_agent "a2" "coder" ∅) demo_2 _ _); [|vm_compute; reflexivity].
  refine (reach_register empty_registry (demo_agent "a1" "planner" ∅) demo_1 reach_empty _). vm_compute; reflexivity.
Qed.

Lemma with_plugin_run r (m : manager) p : rtc plugin_step (start r) m → rtc plugin_step (start r) (with_plugin m p).
Proof. intros Hm. eapply rtc_r; [exact Hm|apply step_load]. Qed.

Definition qa_loaded : manager := with_plugin (start demo_2) tester.

Lemma tester_self_contained : self_contained tester.
Proof.
  split.
  - intros rt [->|[]%elem_of_nil]%elem_of_cons. split; [by left|].
    exists (demo_agent "t2" "auditor" ∅). split; [right; by left|done].
  - intros q [->|[]%elem_of_nil]%elem_of_cons. split_and!; [by left|right; by left|].
    intros raw n [[= -> ->]|[]%elem_of_nil]%elem_of_cons. right. by left.
Qed.

(** A load that fails at a policy takes its agents back; its route between two roles of others
    stays. *)
Lemma failed_load_keeps_route :
  let '(answer, m) := load_plugin (start demo_2) (meddler [mkPolicy "ghost" "coder" [] []]) in
  is_ok answer = false ∧ plugins m = [] ∧ od_get ("planner", "coder") (routes demo_2) = None ∧
  od_get ("planner", "coder") (routes (mg_registry m)) = Some (route "planner" "coder").
Proof. vm_compute. done. Qed.

(** So does an unload, whose record says that the routes are removed. *)
Lemma unload_leaves_route :
  let '(answer, m) := unload_plugin (with_plugin (start demo_2) (meddler [])) "extra" false in
  answer = Ok tt ∧ plugins m = [] ∧
  (la_detail <$> last (lifecycle_audit_records m)) = Some "Plugin agents and routes removed from registry." ∧
  od_get ("planner", "coder") (routes (mg_registry m)) = Some (route "planner" "coder").
Proof. vm_compute. done. Qed.

(** Reloading a plugin as it is drops the routes that other plugins have to its agents. *)
Lemma reload_drops_routes_of_others :
  let m := with_plugin (with_plugin (start empty_registry) planner) clerk in
  let '(answer, m') := reload_plugin m planner false in
  answer = Ok tt ∧ od_get ("clerk", "chief") (routes (mg_registry m)) = Some (route "clerk" "chief") ∧
  routes (mg_registry m') = [].
Proof. vm_compute. done. Qed.

(** A failed reload loses the previous plugin when its routes lead to a plugin that is gone by
    then. *)
Lemma failed_reload_loses_plugin :
  let m := with_plugin (with_plugin (start empty_registry) planner) clerk in
  let m := (unload_plugin m "plan" false).2 in
  let '(answer, m') := reload_plugin m (newer 2 clerk) false in
  list_plugins m = ["desk"] ∧ is_ok answer = false ∧ list_plugins m' = [] ∧ agents (mg_registry m') = [].
Proof. vm_compute. done. Qed.

Lemma load_plugin_all_or_nothing_witness :
  is_ok (load_plugin (start demo_2) tester).1 = true ∧
  match load_plugin (start demo_2) tester with
  | (Ok _, m') => agents (mg_registry m') = agents demo_2 ++ keyed (plugin_agents tester)
  | (Raise _, m') => same_agents demo_2 (mg_registry m')
  end.
Proof.
  split; [vm_compute; reflexivity|].
  pose proof (load_plugin_all_or_nothing demo_2 1 None (start demo_2) tester demo_2_reachable (rtc_refl _ _)) as H0.
  cbv zeta in H0. destruct (load_plugin (start demo_2) tester) as [[a|e] m'].
  - destruct H0 as (_ & _ & _ & _ & Ha & _). exact Ha.
  - destruct H0 as (Hs & _). exact Hs.
Defined.

Lemma plugin_agents_accounted_witness :
  ids_of (loaded_agents qa_loaded) = ["t1"; "t2"] ∧
  agents (mg_registry qa_loaded) ≡ₚ agents demo_2 ++ keyed (loaded_agents qa_loaded).
Proof.
  split; [vm_compute; reflexivity|].
  exact (proj1 (plugin_agents_accounted demo_2 1 None qa_loaded demo_2_reachable
    (with_plugin_run demo_2 (start demo_2) tester (rtc_refl _ _)))).
Defined.

(** The reload fails, and the plugin is the one of before. *)
Lemma reload_keeps_plugins_witness :
  is_ok (reload_plugin qa_loaded (newer 2 tester) false).1 = false ∧
  let '(answer, m') := reload_plugin qa_loaded (newer 2 tester) false in
  od_get "qa" (plugins m') = Some (if is_ok answer then newer 2 tester else tester).
Proof.
  split; [vm_compute; reflexivity|].
  pose proof (reload_keeps_plugins demo_2 1 None qa_loaded (newer 2 tester) tester false demo_2_reachable
    (with_plugin_run demo_2 (start demo_2) tester (rtc_refl _ _)) eq_refl tester_self_contained eq_refl) as H0.
  destruct (reload_plugin qa_loaded (newer 2 tester) false) as [answer m']. exact (proj1 H0).
Defined.
End PluginExamples.
