(* ===== verification/TenantRuntime.v ===== *)
(** * Tenant contexts and session runtimes

    Models src/runtime/tenant_runtime.py: the state a tenant gets ([build]), and the
    factory that caches tenant contexts and the runtimes of their sessions, with their
    eviction.  Contexts are shared objects: a session runtime keeps a reference to the
    context it was created with, so the factory has a heap of contexts and its caches hold
    references.  [time.monotonic()] is an argument.  Parameters: loading an adapter class
    ([resolve_adapter]) and what the hosted tool runtimes do with a call. *)

From S2P Require Import Prelude PyValue Tenancy RiskGates AgentRegistry ToolExecutor.

Section tenant_runtime.
Context `{!ToolIO} {Handler Adapter : Type}.
Variable float_repr : Q → string.
(** [execute] of TenantByocConnectorRuntime and of TenantSandboxToolRuntime *)
Variable byoc_execute sandbox_execute : ToolCallContext → ToolRegistry.ToolDescriptor Handler → res ToolResult.
(** [SessionAdapterResolver.resolve], and the [_provider_id] of an adapter *)
Variable resolve_adapter : string → res Adapter.
Variable adapter_provider : Adapter → string.

Record RuntimeSettings := mkRuntimeSettings {
  enable_hosted_tool_runtime : bool;
  enable_byoc_tool_runtime : bool;
  session_runtime_idle_ttl_seconds : Z;
  session_runtime_max_cached_sessions : Z;
  tenant_runtime_max_cached_contexts : Z;
}.

(** ** TenantContextBuilder *)

Record TenantRuntimeContext := mkContext {
  cx_tenant_id : string;
  cx_tool_registry : list (string * ToolRegistry.ToolDescriptor Handler);
  cx_policy_middleware : DeterministicFirstPolicyMiddleware;
  cx_tool_executor : DeterministicToolExecutor (Handler := Handler);
  cx_agent_registry : AgentRegistry;
  cx_quota_manager : Quotas.TenantQuotaManager;
}.

Definition default_middleware : DeterministicFirstPolicyMiddleware :=
  mkDeterministicFirst "policy-risk-gate-v1" "1.0.0" default_risk_config None.

(** [_build_execution_adapter] *)
Definition build_execution_adapter (c : RuntimeSettings)
    : option (ToolCallContext → ToolRegistry.ToolDescriptor Handler → res ToolResult) :=
  if enable_byoc_tool_runtime c then Some byoc_execute
  else if enable_hosted_tool_runtime c then Some sandbox_execute
  else None.

Definition build (c : RuntimeSettings) (tenant_id : string) : TenantRuntimeContext :=
  mkContext tenant_id ToolRegistry.empty default_middleware
    (mkExecutor ToolRegistry.empty (deterministic_first float_repr default_middleware) false false
       (build_execution_adapter c)
       (enable_hosted_tool_runtime c || enable_byoc_tool_runtime c))
    empty_registry Quotas.default_manager.

(** ** TenantRuntimeFactory *)

(** The host adapter of a session: its orchestrator has the adapter and the context. *)
Record HostAdapter := mkHost { ha_adapter : Adapter; ha_context : nat }.

Record t := mkFactory {
  heap : list (nat * TenantRuntimeContext);
  contexts : list (string * nat);
  tenant_last_touch : list (string * Z);
  session_runtimes : list (string * HostAdapter);
  session_adapters : list (string * Adapter);
  session_tenant : list (string * string);
  session_last_access : list (string * Z);
}.

Definition empty : t := mkFactory [] [] [] [] [] [] [].

(** Assigning to the attributes of a context, as the routers that register tools and agents
    and set quotas do. *)
Definition update_context (s : t) (ctx : nat) (x : TenantRuntimeContext) : t :=
  mkFactory (od_set ctx x (heap s)) (contexts s) (tenant_last_touch s) (session_runtimes s)
    (session_adapters s) (session_tenant s) (session_last_access s).

(** Dropping a session from the four session dictionaries. *)
Definition drop_session (s : t) (sid : string) : t :=
  mkFactory (heap s) (contexts s) (tenant_last_touch s) (od_pop sid (session_runtimes s))
    (od_pop sid (session_adapters s)) (od_pop sid (session_tenant s))
    (od_pop sid (session_last_access s)).

Definition drop_sessions (s : t) (sids : list string) : t := foldl drop_session s sids.

(** [_evict_idle_sessions_only] *)
Definition evict_idle (c : RuntimeSettings) (s : t) (now : Z) : t :=
  let ttl := session_runtime_idle_ttl_seconds c in
  if ttl <=? 0 then s
  else drop_sessions s (od_keys (filter (λ p, ttl < now - p.2) (session_last_access s))).

(** The loop of [_evict_lru_until_under_cap]. *)
Fixpoint evict_oldest (cap : Z) (sorted : list string) (s : t) : t :=
  match sorted with
  | [] => s
  | sid :: sorted =>
      if Z.of_nat (length (session_runtimes s)) <? cap then s
      else evict_oldest cap sorted (if od_mem sid (session_runtimes s) then drop_session s sid else s)
  end.

Definition older (p q : string * Z) : Prop := p.2 ≤ q.2.

#[export] Instance older_dec : RelDecision older.
Proof. intros p q. unfold older. apply _. Defined.

Definition evict_lru (c : RuntimeSettings) (s : t) : t :=
  let cap := session_runtime_max_cached_sessions c in
  if cap <=? 0 then s
  else evict_oldest cap (od_keys (sort_by older (session_last_access s))) s.

Definition touch_session (s : t) (now : Z) (sid : string) : t :=
  mkFactory (heap s) (contexts s) (tenant_last_touch s) (session_runtimes s) (session_adapters s)
    (session_tenant s) (od_set sid now (session_last_access s)).

(** [destroy] *)
Definition destroy (s : t) (tenant_id : string) : t :=
  let s := drop_sessions s (od_keys (filter (λ p, p.2 = tenant_id) (session_tenant s))) in
  mkFactory (heap s) (od_pop tenant_id (contexts s)) (od_pop tenant_id (tenant_last_touch s))
    (session_runtimes s) (session_adapters s) (session_tenant s) (session_last_access s).

(** The loop of [_evict_tenant_contexts_over_capacity]: each iteration removes a context. *)
Fixpoint evict_contexts_loop (fuel : nat) (cap : Z) (s : t) : t :=
  match fuel with
  | O => s
  | S fuel =>
      match od_keys (contexts s) with
      | [] => s
      | k :: keys =>
          if Z.of_nat (length (contexts s)) <? cap then s
          else
            let touched tid := od_get_default 0 tid (tenant_last_touch s) in
            evict_contexts_loop fuel cap (destroy s (first_min touched k keys))
      end
  end.

Definition evict_contexts (c : RuntimeSettings) (s : t) (incoming_tenant_id : string) : t :=
  let cap := tenant_runtime_max_cached_contexts c in
  if (cap <=? 0) || od_mem incoming_tenant_id (contexts s) then s
  else evict_contexts_loop (length (contexts s)) cap s.

(** A fresh reference. *)
Definition fresh (s : t) : nat := length (heap s).

Definition get_or_create (c : RuntimeSettings) (s : t) (now touched : Z) (tenant_id : string)
    : nat * t :=
  let s := evict_contexts c (evict_idle c s now) tenant_id in
  let s :=
    match od_get tenant_id (contexts s) with
    | Some _ => s
    | None =>
        mkFactory (heap s ++ [(fresh s, build c tenant_id)])
          (od_set tenant_id (fresh s) (contexts s)) (tenant_last_touch s) (session_runtimes s)
          (session_adapters s) (session_tenant s) (session_last_access s)
    end in
  (od_get_default 0%nat tenant_id (contexts s),
   mkFactory (heap s) (contexts s) (od_set tenant_id touched (tenant_last_touch s))
     (session_runtimes s) (session_adapters s) (session_tenant s) (session_last_access s)).

(** [SessionRuntimeAssembler.create]; starting the adapter's session runs in the
    background. *)
Definition assemble (s : t) (ctx : nat) (agent_id provider_id : string) : res (HostAdapter * string) :=
  match od_get ctx (heap s) with
  | None => Raise (OtherException "no such context")
  | Some x =>
      let! _ := AgentRegistry.get (cx_agent_registry x) agent_id in
      let! adapter := resolve_adapter provider_id in
      Ok (mkHost adapter ctx, cx_tenant_id x)
  end.

(** The evictions happen before the lookups that may raise. *)
Definition create_session_runtime (c : RuntimeSettings) (s : t) (now touched : Z) (ctx : nat)
    (agent_id provider_id session_id : string) : res HostAdapter * t :=
  let s := evict_lru c (evict_idle c s now) in
  match assemble s ctx agent_id provider_id with
  | Raise e => (Raise e, s)
  | Ok (host, tenant) =>
      (Ok host,
       touch_session
         (mkFactory (heap s) (contexts s) (tenant_last_touch s)
            (od_set session_id host (session_runtimes s))
            (od_set session_id (ha_adapter host) (session_adapters s))
            (od_set session_id tenant (session_tenant s)) (session_last_access s))
         touched session_id)
  end.

Definition get_session_runtime (c : RuntimeSettings) (s : t) (now touched : Z) (session_id : string)
    : res HostAdapter * t :=
  let s := evict_idle c s now in
  match od_get session_id (session_runtimes s) with
  | None => (Raise (KeyError ("No session runtime found for session_id '" +:+ session_id +:+ "'")), s)
  | Some h => (Ok h, touch_session s touched session_id)
  end.

Definition get_session_adapter (c : RuntimeSettings) (s : t) (now touched : Z) (session_id : string)
    : res Adapter * t :=
  let s := evict_idle c s now in
  match od_get session_id (session_adapters s) with
  | None => (Raise (KeyError ("No session adapter found for session_id '" +:+ session_id +:+ "'")), s)
  | Some h => (Ok h, touch_session s touched session_id)
  end.

Definition list_tenants (s : t) : list string := sorted_strings (od_keys (contexts s)).

Definition evict_sessions_for_provider (s : t) (provider_id : string) : Z * t :=
  let sids := od_keys (filter (λ p, py_strip (adapter_provider p.2) = provider_id)
                         (session_adapters s)) in
  (Z.of_nat (length sids), drop_sessions s sids).
End tenant_runtime.
