(* ===== verification/TenantRuntimeFacts.v ===== *)
(** * Theorems about tenant contexts and session runtimes

    The theorems about TenantRuntime.v: in every reachable state of the factory the four
    session dictionaries agree, a session's runtime sits on the live context of the tenant it
    was created for, and the caches respect their caps; eviction takes the sessions used
    longest ago. *)

From S2P Require Import Prelude PyValue Tenancy AgentRegistry TenantRuntime.
From S2P Require Import RiskGates ToolExecutor Sample.

Section facts.
Context `{!ToolIO} {Handler Adapter : Type}.
Variable float_repr : Q → string.
Variable byoc_execute sandbox_execute :
  ToolCallContext → ToolRegistry.ToolDescriptor Handler → res ToolResult.
Variable resolve_adapter : string → res Adapter.
Variable adapter_provider : Adapter → string.

Notation factory := (TenantRuntime.t (Handler := Handler) (Adapter := Adapter)).
Notation get_or_create := (get_or_create float_repr byoc_execute sandbox_execute).
Notation create_session_runtime := (create_session_runtime resolve_adapter).
Notation evict_provider := (evict_sessions_for_provider adapter_provider).
Implicit Types (s : factory) (c : RuntimeSettings).

(** ** The invariant *)

Definition session_ok s (sid : string) : Prop :=
  match od_get sid (session_runtimes s), od_get sid (session_adapters s),
        od_get sid (session_tenant s), od_get sid (session_last_access s) with
  | Some h, Some a, Some t, Some _ => a = ha_adapter h ∧ od_get t (contexts s) = Some (ha_context h)
  | None, None, None, None => True
  | _, _, _, _ => False
  end.

Definition contexts_ok s : Prop :=
  od_wf (contexts s) ∧
  od_keys (heap s) = seq 0 (length (heap s)) ∧
  ∀ t ref, od_get t (contexts s) = Some ref →
    ∃ x, od_get ref (heap s) = Some x ∧ cx_tenant_id x = t.

Definition sessions_wf s : Prop :=
  od_wf (session_runtimes s) ∧ od_wf (session_adapters s) ∧ od_wf (session_tenant s) ∧
  od_wf (session_last_access s).

Definition factory_wf s : Prop := contexts_ok s ∧ sessions_wf s ∧ ∀ sid, session_ok s sid.

Definition within_caps c s : Prop :=
  (0 < session_runtime_max_cached_sessions c →
     Z.of_nat (length (session_runtimes s)) ≤ session_runtime_max_cached_sessions c) ∧
  (0 < tenant_runtime_max_cached_contexts c →
     Z.of_nat (length (contexts s)) ≤ tenant_runtime_max_cached_contexts c).

(** ** Dropping sessions *)

Lemma drop_sessions_eq s sids :
  drop_sessions s sids =
  mkFactory (heap s) (contexts s) (tenant_last_touch s) (od_pop_all sids (session_runtimes s))
    (od_pop_all sids (session_adapters s)) (od_pop_all sids (session_tenant s))
    (od_pop_all sids (session_last_access s)).
Proof.
  revert s. induction sids as [|sid sids IH]; intros s; [by destruct s|].
  cbn [drop_sessions foldl]. unfold drop_sessions in IH. by rewrite IH.
Qed.

Lemma length_od_pop {K V} `{EqDecision K} (k : K) (m : list (K * V)) :
  (length (od_pop k m) ≤ length m)%nat.
Proof. induction m as [|[k' v] m IH]; cbn; [done|]. case_decide; cbn; lia. Qed.

Lemma length_od_pop_all {K V} `{EqDecision K} (ks : list K) (m : list (K * V)) :
  (length (od_pop_all ks m) ≤ length m)%nat.
Proof.
  revert m. induction ks as [|k ks IH]; intros m; [done|]. cbn. etrans; [apply IH|].
  apply length_od_pop.
Qed.

Lemma drop_sessions_wf s sids : factory_wf s → factory_wf (drop_sessions s sids).
Proof.
  intros (Hc & (H1 & H2 & H3 & H4) & Hs). rewrite drop_sessions_eq. split; [done|].
  split; [split_and!; by apply od_wf_pop_all|].
  intros sid. specialize (Hs sid). unfold session_ok in *. cbn. rewrite !od_get_pop_all.
  by case_decide.
Qed.

Lemma drop_sessions_caps c s sids : within_caps c s → within_caps c (drop_sessions s sids).
Proof.
  intros [H1 H2]. rewrite drop_sessions_eq. split; cbn; [|done]. intros Hp. specialize (H1 Hp).
  pose proof (length_od_pop_all sids (session_runtimes s)). lia.
Qed.

(** Eviction drops sessions and nothing else. *)
Definition drops s s' : Prop := ∃ sids, s' = drop_sessions s sids.

Lemma drops_refl s : drops s s.
Proof. by exists []. Qed.

Lemma drops_trans s1 s2 s3 : drops s1 s2 → drops s2 s3 → drops s1 s3.
Proof. intros [l1 ->] [l2 ->]. exists (l1 ++ l2). unfold drop_sessions. by rewrite foldl_app. Qed.

Lemma evict_idle_drops c s now : drops s (evict_idle c s now).
Proof. unfold evict_idle. case_match; [apply drops_refl|by eexists]. Qed.

Lemma evict_oldest_drops cap sorted s : drops s (evict_oldest cap sorted s).
Proof.
  revert s. induction sorted as [|sid sorted IH]; intros s; cbn; [apply drops_refl|].
  destruct (_ <? _); [apply drops_refl|]. eapply drops_trans; [|apply IH].
  destruct (od_mem _ _); [by exists [sid]|apply drops_refl].
Qed.

Lemma evict_lru_drops c s : drops s (evict_lru c s).
Proof. unfold evict_lru. case_match; [apply drops_refl|apply evict_oldest_drops]. Qed.

Lemma drops_wf s s' : drops s s' → factory_wf s → factory_wf s'.
Proof. intros [sids ->]. apply drop_sessions_wf. Qed.

Lemma drops_caps c s s' : drops s s' → within_caps c s → within_caps c s'.
Proof. intros [sids ->]. apply drop_sessions_caps. Qed.

Lemma drops_contexts s s' : drops s s' → contexts s' = contexts s ∧ heap s' = heap s.
Proof. intros [sids ->]. by rewrite drop_sessions_eq. Qed.

(** ** Destroying a tenant *)

Lemma destroy_wf s tid : factory_wf s → factory_wf (destroy s tid).
Proof.
  intros Hwf. unfold destroy. set (sids := od_keys _).
  pose proof (drop_sessions_wf s sids Hwf) as ((Hc1 & Hc2 & Hc3) & Hw & Hs).
  rewrite drop_sessions_eq in *. split; cbn in *.
  - split; [by apply od_wf_pop|]. split; [done|]. intros t ref.
    destruct (decide (t = tid)) as [->|Hne]; cbn; [by rewrite od_get_pop|].
    rewrite od_get_pop_ne by done. apply Hc3.
  - split; [done|]. intros sid. specialize (Hs sid). unfold session_ok in *. cbn in *.
    rewrite !od_get_pop_all in *. case_decide as Hin; [done|].
    destruct (od_get sid (session_runtimes s)), (od_get sid (session_adapters s)),
      (od_get sid (session_tenant s)) as [t|] eqn:Et, (od_get sid (session_last_access s)); try done.
    destruct Hs as [-> Ht]. split; [done|]. rewrite od_get_pop_ne; [done|].
    intros ->. apply Hin. unfold sids. apply od_get_Some_key. exists tid.
    apply od_elem_get; [apply od_wf_filter; apply Hwf|].
    apply list_elem_of_filter. split; [done|]. by apply od_get_elem.
Qed.

Lemma destroy_caps c s tid : within_caps c s → within_caps c (destroy s tid).
Proof.
  intros Hc. unfold destroy. set (sids := od_keys _).
  destruct (drop_sessions_caps c s sids Hc) as [H1 H2]. split; cbn; [done|].
  intros Hp. specialize (H2 Hp). etrans; [|exact H2].
  pose proof (length_od_pop tid (contexts (drop_sessions s sids))). lia.
Qed.

(** ** Making room *)

Lemma length_od_pop_lt {K V} `{EqDecision K} (k : K) (m : list (K * V)) :
  k ∈ od_keys m → (length (od_pop k m) < length m)%nat.
Proof.
  induction m as [|[k' v] m IH]; cbn; [by intros ?%elem_of_nil|].
  intros [->|Hin]%elem_of_cons.
  - rewrite decide_True by done. pose proof (length_od_pop k' m). lia.
  - case_decide; cbn; [pose proof (length_od_pop k m); lia|]. specialize (IH Hin). lia.
Qed.

Lemma evict_contexts_loop_spec c fuel cap s :
  0 < cap → (length (contexts s) ≤ fuel)%nat → factory_wf s → within_caps c s →
  let s' := evict_contexts_loop fuel cap s in
  factory_wf s' ∧ within_caps c s' ∧ Z.of_nat (length (contexts s')) < cap.
Proof.
  intros Hcap. revert s. induction fuel as [|fuel IH]; intros s Hf Hw Hc; cbn.
  { split; [done|]. split; [done|]. lia. }
  destruct (od_keys (contexts s)) as [|k keys] eqn:Ek.
  { split; [done|]. split; [done|]. unfold od_keys in Ek. apply fmap_nil_inv in Ek. rewrite Ek.
    cbn. lia. }
  destruct (Z.ltb_spec (Z.of_nat (length (contexts s))) cap); [done|].
  set (victim := first_min _ k keys). apply IH.
  - assert (victim ∈ od_keys (contexts s)) as Hv by (rewrite Ek; apply first_min_elem).
    unfold destroy. cbn. rewrite drop_sessions_eq. cbn. apply length_od_pop_lt in Hv. lia.
  - by apply destroy_wf.
  - by apply destroy_caps.
Qed.

Lemma evict_contexts_spec c s tid :
  factory_wf s → within_caps c s →
  let s' := evict_contexts c s tid in
  factory_wf s' ∧ within_caps c s' ∧
  (0 < tenant_runtime_max_cached_contexts c →
     od_mem tid (contexts s') = true ∨
     Z.of_nat (length (contexts s')) < tenant_runtime_max_cached_contexts c).
Proof.
  intros Hw Hc. cbn. unfold evict_contexts.
  destruct (Z.leb_spec (tenant_runtime_max_cached_contexts c) 0) as [|Hp]; cbn [orb].
  { split; [done|]. split; [done|]. lia. }
  destruct (od_mem tid (contexts s)) eqn:E; [by auto|].
  destruct (evict_contexts_loop_spec c (length (contexts s)) _ s Hp (Nat.le_refl _) Hw Hc)
    as (? & ? & ?). auto.
Qed.

(** *** Whose context is dropped *)

(** The tenant whose context is dropped when [tid] asks for its own: the one used least recently, when the
    cache is full and has no context of [tid]. *)
Definition evicted c s (tid : string) : option string :=
  let cap := tenant_runtime_max_cached_contexts c in
  if (cap <=? 0) || od_mem tid (contexts s) || (Z.of_nat (length (contexts s)) <? cap) then None
  else
    match od_keys (contexts s) with
    | [] => None
    | k :: keys => Some (first_min (λ t, od_get_default 0 t (tenant_last_touch s)) k keys)
    end.

Lemma evicted_spec c s tid v :
  evicted c s tid = Some v →
  0 < tenant_runtime_max_cached_contexts c ≤ Z.of_nat (length (contexts s)) ∧
  od_get tid (contexts s) = None ∧ v ∈ od_keys (contexts s) ∧
  ∀ t, t ∈ od_keys (contexts s) →
    od_get_default 0 v (tenant_last_touch s) ≤ od_get_default 0 t (tenant_last_touch s).
Proof.
  unfold evicted. destruct (Z.leb_spec (tenant_runtime_max_cached_contexts c) 0); [done|]. cbn [orb].
  destruct (od_mem tid (contexts s)) eqn:E; [done|]. cbn [orb].
  destruct (Z.ltb_spec (Z.of_nat (length (contexts s))) (tenant_runtime_max_cached_contexts c)); [done|].
  destruct (od_keys (contexts s)) as [|k keys]; [done|]. intros [= <-].
  split; [done|]. split.
  - destruct (od_get tid (contexts s)) eqn:Eg; [|done].
    assert (od_mem tid (contexts s) = true) by (apply od_mem_true; by eexists). congruence.
  - split; [apply first_min_elem|]. intros t. apply (first_min_least (λ t, od_get_default 0 t (tenant_last_touch s))).
Qed.

Lemma evict_contexts_evicted c s tid :
  within_caps c s →
  evict_contexts c s tid = match evicted c s tid with Some v => destroy s v | None => s end.
Proof.
  intros [_ Hcap]. unfold evict_contexts, evicted.
  destruct (Z.leb_spec (tenant_runtime_max_cached_contexts c) 0) as [|Hpos]; [done|]. cbn [orb].
  destruct (od_mem tid (contexts s)); [done|]. cbn [orb]. specialize (Hcap Hpos).
  destruct (length (contexts s)) as [|n] eqn:En.
  { rewrite (proj2 (Z.ltb_lt _ _)) by lia. done. }
  cbn [evict_contexts_loop]. rewrite En.
  destruct (od_keys (contexts s)) as [|k keys] eqn:Ek; [by destruct (_ <? _)|].
  destruct (Z.ltb_spec (Z.of_nat (S n)) (tenant_runtime_max_cached_contexts c)) as [|Hfull]; [done|].
  set (v := first_min _ k keys). assert (v ∈ od_keys (contexts s)) as Hv by (rewrite Ek; apply first_min_elem).
  apply length_od_pop_lt in Hv. assert (length (contexts (destroy s v)) < S n)%nat as Hlt.
  { rewrite <- En. unfold destroy. cbn [contexts]. by rewrite drop_sessions_eq. }
  destruct n as [|n]; [done|]. cbn [evict_contexts_loop].
  destruct (od_keys (contexts (destroy s v))); [done|]. rewrite (proj2 (Z.ltb_lt _ _)) by lia. done.
Qed.

Lemma drop_sessions_touch s sids : tenant_last_touch (drop_sessions s sids) = tenant_last_touch s.
Proof. by rewrite drop_sessions_eq. Qed.

Lemma evicted_idle c s now tid : evicted c (evict_idle c s now) tid = evicted c s tid.
Proof.
  destruct (evict_idle_drops c s now) as [sids ->]. unfold evicted. rewrite drop_sessions_touch.
  by destruct (drops_contexts s (drop_sessions s sids) (ex_intro _ sids eq_refl)) as [-> _].
Qed.

(** The contexts after a tenant asked for its own *)
Lemma get_or_create_contexts c s now touched tid :
  within_caps c s →
  let '(ref, s') := get_or_create c s now touched tid in
  od_get tid (contexts s') = Some ref ∧
  (∀ t, t ≠ tid →
     od_get t (contexts s') = if decide (evicted c s tid = Some t) then None else od_get t (contexts s)) ∧
  ((od_get tid (contexts s) = Some ref ∧ heap s' = heap s) ∨
   (od_get tid (contexts s) = None ∧ ref = fresh s ∧ heap s' = heap s ++ [(ref, build float_repr byoc_execute sandbox_execute c tid)])).
Proof.
  intros Hcap. unfold TenantRuntime.get_or_create. pose proof (evict_idle_drops c s now) as Hd.
  pose proof (drops_caps _ _ _ Hd Hcap) as Hcap1. pose proof (drops_contexts _ _ Hd) as [Hc Hh].
  rewrite (evict_contexts_evicted c _ tid Hcap1), evicted_idle. set (s1 := evict_idle c s now) in *.
  set (s2 := match evicted c s tid with Some v => destroy s1 v | None => s1 end).
  assert (heap s2 = heap s) as Hh2.
  { unfold s2. destruct (evicted c s tid); [|done]. unfold destroy. cbn [heap]. by rewrite drop_sessions_eq. }
  assert (∀ t, od_get t (contexts s2) =
    if decide (evicted c s tid = Some t) then None else od_get t (contexts s)) as Hc2.
  { intros t. unfold s2. destruct (evicted c s tid) as [v|] eqn:Ev; [|by rewrite Hc].
    unfold destroy. cbn [contexts]. rewrite drop_sessions_eq. cbn [contexts]. rewrite Hc.
    destruct (decide (Some v = Some t)) as [[= ->]|Hne]; [by rewrite od_get_pop|].
    rewrite od_get_pop_ne; [done|]. intros ->. done. }
  assert (od_get tid (contexts s2) = od_get tid (contexts s)) as Htid.
  { rewrite Hc2. case_decide as Ev; [|done]. by apply evicted_spec in Ev as (_ & -> & _). }
  destruct (od_get tid (contexts s2)) as [ref|] eqn:E.
  - cbn [contexts heap]. unfold od_get_default. rewrite E. cbn [default from_option id].
    split_and!; [done|by intros; rewrite Hc2|by left].
  - cbn [contexts heap]. unfold od_get_default. rewrite od_get_set. cbn [default from_option id].
    split_and!; [done| |right].
    + intros t Hne. by rewrite od_get_set_ne, Hc2.
    + unfold fresh. by rewrite Hh2.
Qed.

(** ** The operations *)

Lemma touch_wf s now sid :
  is_Some (od_get sid (session_runtimes s)) → factory_wf s → factory_wf (touch_session s now sid).
Proof.
  intros Hsid (Hc & (H1 & H2 & H3 & H4) & Hs). split; [done|].
  split; [split_and!; cbn; try done; by apply od_wf_set|].
  intros k. specialize (Hs k). unfold session_ok in *. cbn.
  destruct (decide (k = sid)) as [->|Hne]; [|by rewrite od_get_set_ne].
  rewrite od_get_set. destruct Hsid as [h Hh]. rewrite Hh in *.
  destruct (od_get sid (session_adapters s)), (od_get sid (session_tenant s)),
    (od_get sid (session_last_access s)); done.
Qed.

Lemma with_context_wf s tid x touched :
  factory_wf s → od_get tid (contexts s) = None → cx_tenant_id x = tid →
  factory_wf (mkFactory (heap s ++ [(fresh s, x)]) (od_set tid (fresh s) (contexts s)) touched
    (session_runtimes s) (session_adapters s) (session_tenant s) (session_last_access s)).
Proof.
  intros ((Hc1 & Hc2 & Hc3) & Hw & Hs) Hn Hx. split; [|split; [done|]].
  - assert (od_get (fresh s) (heap s) = None) as Hf.
    { apply od_get_None. rewrite Hc2. unfold fresh. intros ?%elem_of_seq. lia. }
    split; [by apply od_wf_set|]. cbn. split.
    { unfold od_keys in *. rewrite fmap_app, length_app, Hc2. cbn.
      by rewrite Nat.add_1_r, seq_S. }
    intros t ref. destruct (decide (t = tid)) as [->|Hne].
    + rewrite od_get_set. intros [= <-]. exists x. split; [|done].
      rewrite od_get_app, Hf. cbn. by rewrite decide_True.
    + rewrite od_get_set_ne by done. intros Hr. destruct (Hc3 _ _ Hr) as (y & Hy & ?).
      exists y. by rewrite od_get_app, Hy.
  - intros sid. specialize (Hs sid). unfold session_ok in *. cbn.
    destruct (od_get sid (session_runtimes s)), (od_get sid (session_adapters s)),
      (od_get sid (session_tenant s)) as [t|], (od_get sid (session_last_access s)); try done.
    destruct Hs as [-> Ht]. split; [done|]. rewrite od_get_set_ne; [done|]. congruence.
Qed.

Lemma get_or_create_spec c s now touched tid :
  factory_wf s → within_caps c s →
  let r := get_or_create c s now touched tid in
  factory_wf r.2 ∧ within_caps c r.2 ∧ od_get tid (contexts r.2) = Some r.1.
Proof.
  intros Hw Hc. cbn. pose proof (evict_idle_drops c s now) as Hd.
  pose proof (drops_wf _ _ Hd Hw) as Hw1. pose proof (drops_caps _ _ _ Hd Hc) as Hc1.
  destruct (evict_contexts_spec c _ tid Hw1 Hc1) as (Hw2 & Hc2 & Hroom).
  unfold TenantRuntime.get_or_create. set (s2 := evict_contexts c _ tid) in *. cbn.
  destruct (od_get tid (contexts s2)) as [ref|] eqn:E.
  - split; [exact Hw2|]. split; [exact Hc2|]. cbn. unfold od_get_default. by rewrite E.
  - cbn [fst snd heap contexts tenant_last_touch session_runtimes session_adapters session_tenant
      session_last_access]. split; [by apply with_context_wf|]. split.
    + destruct Hc2 as [? ?]. split; [done|]. cbn. intros Hp. rewrite od_set_fresh by done.
      rewrite length_app. cbn. destruct (Hroom Hp) as [Hm|]; [|lia].
      apply od_mem_true in Hm. rewrite E in Hm. by destruct Hm.
    + cbn. unfold od_get_default. by rewrite od_get_set.
Qed.

Lemma get_session_runtime_spec c s now touched sid :
  factory_wf s → within_caps c s →
  let r := get_session_runtime c s now touched sid in
  factory_wf r.2 ∧ within_caps c r.2.
Proof.
  intros Hw Hc. cbn. pose proof (evict_idle_drops c s now) as Hd.
  pose proof (drops_wf _ _ Hd Hw). pose proof (drops_caps _ _ _ Hd Hc).
  unfold get_session_runtime. set (s1 := evict_idle c s now) in *.
  destruct (od_get sid (session_runtimes s1)) eqn:E; cbn; [|done].
  split; [by apply touch_wf|done].
Qed.

Lemma get_session_adapter_spec c s now touched sid :
  factory_wf s → within_caps c s →
  let r := get_session_adapter c s now touched sid in
  factory_wf r.2 ∧ within_caps c r.2.
Proof.
  intros Hw Hc. cbn. pose proof (evict_idle_drops c s now) as Hd.
  pose proof (drops_wf _ _ Hd Hw) as Hw1. pose proof (drops_caps _ _ _ Hd Hc).
  unfold get_session_adapter. set (s1 := evict_idle c s now) in *.
  destruct (od_get sid (session_adapters s1)) eqn:E; cbn; [|done].
  split; [|done]. apply touch_wf; [|done]. destruct Hw1 as (_ & _ & Hs). specialize (Hs sid).
  unfold session_ok in Hs. rewrite E in Hs. destruct (od_get sid (session_runtimes s1)); [by eexists|done].
Qed.

(** ** The least recently used sessions go first *)

Lemma length_od_pop_key {K V} `{EqDecision K} (k : K) (m : list (K * V)) :
  od_wf m → k ∈ od_keys m → S (length (od_pop k m)) = length m.
Proof.
  unfold od_wf. induction m as [|[k' v] m IH]; cbn; [by intros _ ?%elem_of_nil|].
  intros [Hni Hnd]%NoDup_cons [->|Hin]%elem_of_cons.
  - rewrite decide_True by done. by rewrite od_pop_fresh by (by apply od_get_None).
  - case_decide as Hk; cbn; [by subst|]. by rewrite IH.
Qed.

Lemma evict_oldest_spec cap sorted s :
  0 < cap → factory_wf s → NoDup sorted →
  (∀ sid, sid ∈ sorted ↔ sid ∈ od_keys (session_runtimes s)) →
  ∃ n, evict_oldest cap sorted s = drop_sessions s (take n sorted) ∧
    Z.of_nat (length (session_runtimes (drop_sessions s (take n sorted))))
      = Z.min (Z.of_nat (length (session_runtimes s))) (cap - 1).
Proof.
  intros Hcap. revert s. induction sorted as [|sid sorted IH]; intros s Hw Hnd Hk; cbn [evict_oldest].
  { exists 0%nat. split; [done|]. cbn. destruct (session_runtimes s) as [|[k h] l] eqn:E; cbn; [lia|].
    exfalso. apply (not_elem_of_nil k), Hk. cbn. by apply list_elem_of_here. }
  destruct (Z.ltb_spec (Z.of_nat (length (session_runtimes s))) cap) as [Hlt|Hge].
  { exists 0%nat. split; [done|]. cbn. lia. }
  assert (sid ∈ od_keys (session_runtimes s)) as Hin by (apply Hk; set_solver).
  rewrite (proj2 (od_mem_true _ _)) by (by apply od_get_Some_key).
  apply NoDup_cons in Hnd as [Hni Hnd].
  pose proof (drop_sessions_wf s [sid] Hw) as Hw'. cbn in Hw'.
  destruct (IH (drop_session s sid) Hw' Hnd) as (n & -> & Hn).
  { intros k. change (session_runtimes (drop_session s sid)) with (od_pop sid (session_runtimes s)).
    rewrite od_keys_pop, <- Hk, elem_of_cons. split; [|naive_solver].
    intros Hin'. split; [|by right]. by intros ->. }
  exists (S n). split; [done|]. cbn [take]. change (drop_sessions s (sid :: take n sorted))
    with (drop_sessions (drop_session s sid) (take n sorted)). rewrite Hn. cbn.
  destruct Hw as (_ & (Hwr & _) & _). pose proof (length_od_pop_key sid _ Hwr Hin). lia.
Qed.

Lemma sessions_same_keys s sid :
  factory_wf s →
  (sid ∈ od_keys (session_last_access s) ↔ sid ∈ od_keys (session_runtimes s)).
Proof.
  intros (_ & _ & Hs). specialize (Hs sid). unfold session_ok in Hs. rewrite <- !od_get_Some_key.
  destruct (od_get sid (session_runtimes s)), (od_get sid (session_adapters s)),
    (od_get sid (session_tenant s)), (od_get sid (session_last_access s)); try done;
    split; intros [? ?]; (done || by eexists).
Qed.

Notation by_age s := (sort_by older (session_last_access s)).

Lemma by_age_keys s :
  factory_wf s → NoDup (od_keys (by_age s)) ∧
  ∀ sid, sid ∈ od_keys (by_age s) ↔ sid ∈ od_keys (session_runtimes s).
Proof.
  intros Hw. assert (od_keys (by_age s) ≡ₚ od_keys (session_last_access s)) as Hp.
  { unfold od_keys. apply fmap_Permutation, sort_by_perm. }
  split; [rewrite Hp; by destruct Hw as (_ & (_ & _ & _ & ?) & _)|].
  intros sid. rewrite Hp. by apply sessions_same_keys.
Qed.

Lemma evict_lru_room c s :
  factory_wf s → 0 < session_runtime_max_cached_sessions c →
  Z.of_nat (length (session_runtimes (evict_lru c s)))
    = Z.min (Z.of_nat (length (session_runtimes s))) (session_runtime_max_cached_sessions c - 1).
Proof.
  intros Hw Hp. unfold evict_lru. destruct (Z.leb_spec (session_runtime_max_cached_sessions c) 0); [lia|].
  destruct (by_age_keys s Hw) as [Hnd Hk].
  destruct (evict_oldest_spec _ _ s Hp Hw Hnd Hk) as (n & -> & Hn). done.
Qed.

#[local] Instance older_trans : Transitive older.
Proof. intros [? ?] [? ?] [? ?]. unfold older. cbn. lia. Qed.

#[local] Instance older_total : Total older.
Proof. intros [? ?] [? ?]. unfold older. cbn. lia. Qed.

Lemma sorted_prefix_le {A} (R : relation A) (l : list A) n x y :
  StronglySorted R l → x ∈ take n l → y ∈ drop n l → R x y.
Proof.
  intros Hs Hx Hy. rewrite <- (take_drop n l) in Hs. by eapply StronglySorted_app_1_elem_of in Hs.
Qed.

Lemma create_session_spec c s now touched tid ctx agent provider sid :
  factory_wf s → within_caps c s → od_get tid (contexts s) = Some ctx →
  let r := create_session_runtime c s now touched ctx agent provider sid in
  factory_wf r.2 ∧ within_caps c r.2.
Proof.
  intros Hw Hc Hctx. cbn.
  assert (drops s (evict_lru c (evict_idle c s now))) as Hd
    by (eapply drops_trans; [apply evict_idle_drops|apply evict_lru_drops]).
  pose proof (drops_wf _ _ Hd Hw) as Hw1. pose proof (drops_caps _ _ _ Hd Hc) as Hc1.
  pose proof (drops_contexts _ _ Hd) as [Hcs Hhs].
  pose proof (drops_wf _ _ (evict_idle_drops c s now) Hw) as Hw0.
  pose proof (evict_lru_room c _ Hw0) as Hroom.
  unfold TenantRuntime.create_session_runtime. set (s1 := evict_lru c (evict_idle c s now)) in *.
  unfold assemble.
  destruct Hw as ((_ & _ & Hlive) & _ & _). destruct (Hlive _ _ Hctx) as (x & Hx & Hxt).
  rewrite <- Hhs in Hx. rewrite Hx. destruct (AgentRegistry.get (cx_agent_registry x) agent) as [a|]; [|done]. cbn [res_bind].
  destruct (resolve_adapter provider) as [ad|]; [|done].
  cbn [res_bind snd ha_adapter].
  destruct Hw1 as (Hco & (H1 & H2 & H3 & H4) & Hs). split.
  - split; [exact Hco|]. split; [unfold sessions_wf; cbn; split_and!; by apply od_wf_set|].
    intros k. specialize (Hs k). unfold session_ok in *. cbn.
    destruct (decide (k = sid)) as [->|Hne]; [|by rewrite !od_get_set_ne].
    rewrite !od_get_set. split; [done|]. by rewrite Hcs, Hxt.
  - destruct Hc1 as [Hc1 Hc2]. split; [|done]. cbn. intros Hp.
    destruct (decide (is_Some (od_get sid (session_runtimes s1)))) as [Hin|Hni].
    + etrans; [|by apply Hc1]. apply od_keys_set_present with (v := mkHost ad ctx) in Hin.
      apply (f_equal length) in Hin. unfold od_keys in Hin. rewrite !length_fmap in Hin. lia.
    + rewrite od_set_fresh by (by apply eq_None_not_Some). rewrite length_app. cbn.
      specialize (Hroom Hp). lia.
Qed.

(** ** Reachable states *)

(** The operations of the factory; a session is created on the context that its tenant's
    [get_or_create] returned, and a router changes the context of its tenant. *)
Inductive step c : factory → factory → Prop :=
| step_get_or_create s now touched tid : step c s (get_or_create c s now touched tid).2
| step_create s now touched tid ctx agent provider sid :
    od_get tid (contexts s) = Some ctx →
    step c s (create_session_runtime c s now touched ctx agent provider sid).2
| step_get_runtime s now touched sid : step c s (get_session_runtime c s now touched sid).2
| step_get_adapter s now touched sid : step c s (get_session_adapter c s now touched sid).2
| step_destroy s tid : step c s (destroy s tid)
| step_evict_provider s pid : step c s (evict_provider s pid).2
| step_update s tid ctx x :
    od_get tid (contexts s) = Some ctx → cx_tenant_id x = tid → step c s (update_context s ctx x).

Lemma update_context_wf c s tid ctx x :
  factory_wf s → within_caps c s → od_get tid (contexts s) = Some ctx → cx_tenant_id x = tid →
  factory_wf (update_context s ctx x) ∧ within_caps c (update_context s ctx x).
Proof.
  intros ((Hc1 & Hc2 & Hc3) & Hw & Hs) Hc Hctx Hx. split; [|done].
  split; [|done]. destruct (Hc3 _ _ Hctx) as (y & Hy & Hyt).
  pose proof (od_keys_set_present ctx x (heap s) (ex_intro _ y Hy)) as Hks.
  split; [done|]. cbn [heap contexts update_context]. split.
  - rewrite Hks, Hc2. f_equal. apply (f_equal length) in Hks. unfold od_keys in Hks.
    by rewrite !length_fmap in Hks.
  - intros t ref Hr. destruct (decide (ref = ctx)) as [->|Hne].
    + exists x. rewrite od_get_set. split; [done|]. destruct (Hc3 _ _ Hr) as (z & Hz & Hzt).
      rewrite Hy in Hz. injection Hz as ->. congruence.
    + rewrite od_get_set_ne by done. by apply Hc3.
Qed.

Lemma factory_reachable_wf c s : rtc (step c) empty s → factory_wf s ∧ within_caps c s.
Proof.
  intros Hr. refine (rtc_ind_r (λ s, factory_wf s ∧ within_caps c s) _ _ _ _ Hr); clear s Hr.
  - split; [|by split; cbn; lia]. split; [|split; [|done]].
    + split; [apply NoDup_nil_2|]. split; done.
    + split_and!; apply NoDup_nil_2.
  - intros s s' _ Hstep [Hw Hc]. destruct Hstep.
    + by destruct (get_or_create_spec c s now touched tid Hw Hc) as (? & ? & _).
    + eapply create_session_spec; eauto.
    + by apply get_session_runtime_spec.
    + by apply get_session_adapter_spec.
    + split; [by apply destroy_wf|by apply destroy_caps].
    + cbn. split; [by apply drop_sessions_wf|by apply drop_sessions_caps].
    + eapply update_context_wf; eauto.
Qed.

(** However the factory is used, a session's runtime keeps the adapter and the tenant
    context it was created with, the context is still the one that requests of that tenant
    get, the session was used within the idle time when there is one, and the caches of
    sessions and of contexts respect their caps. *)
Theorem session_runtimes_live c s now touched sid h s' :
  rtc (step c) empty s → get_session_runtime c s now touched sid = (Ok h, s') →
  within_caps c s ∧
  ∃ tid x last,
    od_get sid (session_tenant s) = Some tid ∧ od_get tid (contexts s) = Some (ha_context h) ∧
    od_get (ha_context h) (heap s) = Some x ∧ cx_tenant_id x = tid ∧
    od_get sid (session_adapters s) = Some (ha_adapter h) ∧
    od_get sid (session_last_access s) = Some last ∧
    (0 < session_runtime_idle_ttl_seconds c → now - last ≤ session_runtime_idle_ttl_seconds c).
Proof.
  intros Hr Hg. apply factory_reachable_wf in Hr as [Hw Hc]. split; [done|].
  destruct Hw as ((_ & _ & Hlive) & (_ & _ & _ & Hwa) & Hs).
  assert (od_get sid (session_runtimes s) = Some h ∧
    (0 < session_runtime_idle_ttl_seconds c → ∀ last, od_get sid (session_last_access s) = Some last →
       now - last ≤ session_runtime_idle_ttl_seconds c)) as [Hh Hidle].
  { unfold get_session_runtime, evict_idle in Hg.
    destruct (Z.leb_spec (session_runtime_idle_ttl_seconds c) 0).
    { destruct (od_get sid (session_runtimes s)) eqn:E; [|done]. injection Hg as -> _.
      split; [done|]. lia. }
    rewrite drop_sessions_eq in Hg. cbn in Hg. rewrite od_get_pop_all in Hg.
    case_decide as Hd; [done|]. destruct (od_get sid (session_runtimes s)) eqn:E; [|done].
    injection Hg as -> _. split; [done|]. intros _ last Hl. apply Z.nlt_ge. intros Hlt. apply Hd.
    apply od_get_Some_key. exists last. apply od_elem_get; [by apply od_wf_filter|].
    apply list_elem_of_filter. split; [done|]. by apply od_get_elem. }
  specialize (Hs sid). unfold session_ok in Hs. rewrite Hh in Hs.
  destruct (od_get sid (session_adapters s)), (od_get sid (session_tenant s)) as [tid|],
    (od_get sid (session_last_access s)) as [last|]; try done.
  destruct Hs as [-> Ht]. destruct (Hlive _ _ Ht) as (x & Hx & Hxt).
  exists tid, x, last. split_and!; try done. intros Hp. by apply Hidle.
Qed.

(** Before a session is cached, the sessions used longest ago are dropped, as many as it
    takes to stay under the cap and no more: what is dropped was used no later than what is
    kept. *)
Theorem oldest_sessions_evicted c s :
  rtc (step c) empty s → 0 < session_runtime_max_cached_sessions c →
  Z.of_nat (length (session_runtimes (evict_lru c s)))
    = Z.min (Z.of_nat (length (session_runtimes s))) (session_runtime_max_cached_sessions c - 1) ∧
  ∀ dropped kept td tk,
    od_get dropped (session_last_access s) = Some td → od_get kept (session_last_access s) = Some tk →
    od_get dropped (session_runtimes (evict_lru c s)) = None →
    is_Some (od_get kept (session_runtimes (evict_lru c s))) → td ≤ tk.
Proof.
  intros Hr Hp. apply factory_reachable_wf in Hr as [Hw _]. split; [by apply evict_lru_room|].
  intros dropped kept td tk Htd Htk Hd Hk. unfold evict_lru in *.
  destruct (Z.leb_spec (session_runtime_max_cached_sessions c) 0); [lia|].
  destruct (by_age_keys s Hw) as [Hnd Hkeys].
  destruct (evict_oldest_spec _ _ s Hp Hw Hnd Hkeys) as (n & Heq & _). rewrite Heq in *.
  rewrite drop_sessions_eq in *. cbn in Hd, Hk. rewrite od_get_pop_all in Hd, Hk.
  unfold od_keys in Hd, Hk. rewrite <- fmap_take in Hd, Hk.
  assert (∀ k v, od_get k (session_last_access s) = Some v → (k, v) ∈ by_age s) as Hel.
  { intros k v Hkv. apply elem_of_sort_by. by apply od_get_elem. }
  pose proof (Hel _ _ Htd) as Hdin. pose proof (Hel _ _ Htk) as Hkin.
  assert (NoDup (by_age s).*1) as Hnd' by exact Hnd.
  assert ((dropped, td) ∈ take n (by_age s)) as Hd'.
  { destruct (decide (dropped ∈ (take n (by_age s)).*1)) as [Hin|Hin].
    - apply list_elem_of_fmap in Hin as ([k v] & Hkd & Hin). cbn in Hkd. subst k.
      replace td with v; [done|]. assert ((dropped, v) ∈ by_age s) as Hin'.
      { rewrite <- (take_drop n (by_age s)). set_solver. }
      apply (od_elem_get dropped v (by_age s) Hnd') in Hin'.
      apply (od_elem_get dropped td (by_age s) Hnd') in Hdin. cbn in Hdin. congruence.
    - exfalso. apply eq_None_not_Some in Hd. apply Hd, od_get_Some_key, Hkeys.
      apply list_elem_of_fmap. by exists (dropped, td). }
  assert ((kept, tk) ∈ drop n (by_age s)) as Hk'.
  { destruct (decide (kept ∈ (take n (by_age s)).*1)) as [Hin|Hin]; [by destruct Hk|]. rewrite <- (take_drop n (by_age s)) in Hkin.
    apply elem_of_app in Hkin as [Hin'|]; [|done]. exfalso. apply Hin.
    apply list_elem_of_fmap. by exists (kept, tk). }
  assert (StronglySorted older (by_age s)) as Hsorted by (apply sort_by_sorted; apply _).
  apply (sorted_prefix_le older (by_age s) n _ _ Hsorted Hd' Hk').
Qed.

(** Destroying a tenant removes its context and every session it has, and nothing of the
    other tenants. *)
Theorem destroy_removes_tenant c s tid :
  rtc (step c) empty s →
  od_get tid (contexts (destroy s tid)) = None ∧
  (∀ t, t ≠ tid → od_get t (contexts (destroy s tid)) = od_get t (contexts s)) ∧
  ∀ sid,
    od_get sid (session_runtimes (destroy s tid))
      = (if decide (od_get sid (session_tenant s) = Some tid) then None
         else od_get sid (session_runtimes s)) ∧
    od_get sid (session_adapters (destroy s tid))
      = (if decide (od_get sid (session_tenant s) = Some tid) then None
         else od_get sid (session_adapters s)).
Proof.
  intros Hr. apply factory_reachable_wf in Hr as [(_ & (_ & _ & Hwt & _) & _) _].
  unfold destroy. set (sids := od_keys _). rewrite drop_sessions_eq. cbn.
  split; [by rewrite od_get_pop|]. split; [intros t Hne; by rewrite od_get_pop_ne|].
  assert (∀ sid, sid ∈ sids ↔ od_get sid (session_tenant s) = Some tid) as Hsids.
  { intros sid. unfold sids. rewrite <- od_get_Some_key. split.
    - intros [t Ht]. apply od_get_elem, list_elem_of_filter in Ht as [Heq Ht]. cbn in Heq. subst t.
      by apply od_elem_get.
    - intros Ht. exists tid. apply od_elem_get; [by apply od_wf_filter|].
      apply list_elem_of_filter. split; [done|]. by apply od_get_elem. }
  intros sid. rewrite !od_get_pop_all. specialize (Hsids sid).
  split; repeat case_decide; tauto.
Qed.

Notation build := (build float_repr byoc_execute sandbox_execute).

(** The middleware of a tenant, if it were given the overlays the tenants stored. *)
Definition with_overlays (overlays : TenantPolicyOverlayStore.t) : DeterministicFirstPolicyMiddleware :=
  mkDeterministicFirst "policy-risk-gate-v1" "1.0.0" default_risk_config (Some overlays).

Lemma default_allows x pid pv :
  pd_decision (evaluate_risk float_repr default_risk_config x pid pv None) = ALLOW.
Proof.
  unfold evaluate_risk. cbn.
  destruct (gate_decision_spec default_risk_config x pid pv) as [(Hd & _)|[(_ & Hn & _)|(_ & _ & Ha & _)]].
  - destruct Hd as [Hd|Hd]; cbn in Hd; [set_solver|by apply elem_of_nil in Hd].
  - destruct Hn as [Hn|[Hn|[_ Hn]]]; cbn in Hn; [set_solver|by apply elem_of_nil in Hn|done].
  - exact Ha.
Qed.

(** The policy overlay of a tenant does not reach its tools: the middleware that the
    tenant's executor is built with has no overlay store, so it allows every call, also of a
    tool the stored overlay denies, which a middleware with that store would refuse. *)
Theorem tenant_overlay_never_reaches_tools c tid x overlays tools :
  dict_get (TenantPolicyOverlayStore.get_overlay overlays (tc_tenant_id x)) "deny_tools" PNone
    = PList (PStr <$> tools) →
  tc_tool_name x ∈ tools → py_strip (tc_tool_name x) = tc_tool_name x → tc_tool_name x ≠ "" →
  pd_decision (before_tool_call (policy (cx_tool_executor (build c tid))) x) = ALLOW ∧
  pd_decision (before_tool_call (deterministic_first float_repr (with_overlays overlays)) x) = DENY.
Proof.
  intros Ho Hin Hstrip Hne. split; [apply default_allows|].
  cbn. unfold evaluate_risk. cbn. set (o := TenantPolicyOverlayStore.get_overlay _ _) in *.
  assert (tc_tool_name x ∈ deny_tools (effective_config float_repr default_risk_config o)) as Hd.
  { destruct o as [|p o']; [done|]. cbn [effective_config deny_tools]. unfold overlay_str_set.
    rewrite Ho. apply elem_of_list_to_set, list_elem_of_filter. split; [done|].
    apply list_elem_of_fmap. exists (PStr (tc_tool_name x)). split; [by cbn|].
    apply list_elem_of_fmap. by eexists. }
  replace (access_policy_engine (effective_config float_repr default_risk_config o))
    with (@None AccessControl.AccessControlConfig) by (by destruct o).
  destruct (gate_decision_spec (effective_config float_repr default_risk_config o) x
    "policy-risk-gate-v1" "1.0.0") as [(_ & Ha & _)|[(Hn & _)|(Hn & _)]]; [exact Ha| |];
    exfalso; apply Hn; by left.
Qed.
End facts.

(** ** A concrete factory

    Tenant acme registers an agent and opens a session; the caches hold one entry each. *)
Module Concrete.
Import Sample.

Definition settings : RuntimeSettings := mkRuntimeSettings false false 10 1 1.

Notation no_adapter := (λ _ _, Raise (OtherException "not hosted")) (only parsing).

Notation resolve := (λ provider : string, Ok provider) (only parsing).

Definition agent : AgentSpec := mkAgent "agent" "helper" ∅ "" [].

Definition acme : TenantRuntimeContext (Handler := unit) :=
  let x := build (Handler := unit) (λ _, "") no_adapter no_adapter settings "acme" in
  mkContext (cx_tenant_id x) (cx_tool_registry x) (cx_policy_middleware x) (cx_tool_executor x)
    (mkRegistry [("agent", agent)] [] [] [] []) (cx_quota_manager x).

Definition with_tenant : TenantRuntime.t (Handler := unit) (Adapter := string) :=
  (get_or_create (λ _, "") no_adapter no_adapter settings empty 0 0 "acme").2.

Definition with_session : TenantRuntime.t (Handler := unit) (Adapter := string) :=
  (create_session_runtime resolve settings (update_context with_tenant 0 acme) 1 2 0 "agent" "p" "s1").2.

Lemma with_session_reachable :
  rtc (step (λ _, "") no_adapter no_adapter resolve id settings) empty with_session.
Proof.
  eapply rtc_l; [by apply (step_get_or_create _ _ _ _ _ _ empty 0 0 "acme")|].
  eapply rtc_l; [by eapply (step_update _ _ _ _ _ _ _ "acme" 0 acme)|].
  eapply rtc_l; [|apply rtc_refl].
  by eapply (step_create _ _ _ _ _ _ _ 1 2 "acme" 0 "agent" "p" "s1").
Qed.
End Concrete.

Lemma session_runtimes_live_witness :
  ∃ h s', get_session_runtime Concrete.settings Concrete.with_session 12 12 "s1" = (Ok h, s') ∧
    od_get "s1" (session_tenant Concrete.with_session) = Some "acme" ∧
    within_caps Concrete.settings Concrete.with_session.
Proof.
  destruct (get_session_runtime Concrete.settings Concrete.with_session 12 12 "s1") as [[h|e] s'] eqn:E.
  - exists h, s'. split; [done|]. split; [vm_compute; reflexivity|].
    by destruct (session_runtimes_live _ _ _ _ _ Concrete.settings Concrete.with_session 12 12 "s1"
      h s' Concrete.with_session_reachable E) as [H _].
  - vm_compute in E. discriminate E.
Defined.

Lemma oldest_sessions_evicted_witness :
  0 < session_runtime_max_cached_sessions Concrete.settings ∧
  length (session_runtimes (evict_lru Concrete.settings Concrete.with_session)) = 0%nat.
Proof.
  split; [done|].
  destruct (oldest_sessions_evicted _ _ _ _ _ Concrete.settings Concrete.with_session
    Concrete.with_session_reachable) as [H _]; [done|].
  apply Nat2Z.inj. rewrite H. reflexivity.
Defined.

Lemma destroy_removes_tenant_witness :
  od_get "s1" (session_runtimes (destroy Concrete.with_session "acme")) = None.
Proof.
  destruct (destroy_removes_tenant _ _ _ _ _ Concrete.settings Concrete.with_session "acme"
    Concrete.with_session_reachable) as (_ & _ & H).
  destruct (H "s1") as [Hs _]. rewrite Hs. reflexivity.
Defined.

Import Sample.

(** Tenant acme denies its tool wipe, and a session calls it. *)
Lemma tenant_overlay_never_reaches_tools_witness :
  let overlays := TenantPolicyOverlayStore.set_overlay TenantPolicyOverlayStore.empty "acme"
                    [("deny_tools", PList [PStr "wipe"])] in
  let x := Sample.low_call "wipe" "acme" in
  pd_decision (before_tool_call (policy (cx_tool_executor Concrete.acme)) x) = Sample.Allow ∧
  pd_decision (before_tool_call (deterministic_first (λ _, "") (with_overlays overlays)) x)
    = Sample.Deny.
Proof.
  apply (tenant_overlay_never_reaches_tools (H := io) (Handler := unit) (λ _, "")
    (λ _ _, Raise (OtherException "not hosted")) (λ _ _, Raise (OtherException "not hosted"))
    Concrete.settings "acme" (Sample.low_call "wipe" "acme")
    (TenantPolicyOverlayStore.set_overlay TenantPolicyOverlayStore.empty "acme"
       [("deny_tools", PList [PStr "wipe"])]) ["wipe"]);
    [reflexivity|by apply list_elem_of_here|reflexivity|done].
Defined.
