(* ===== verification/Providers.v ===== *)
(** * Providers and sessions

    Models src/runtime/adapter_factory.py (finding an adapter class), the registry of
    src/config/provider_registry.py, src/modules/provider_management/service.py and
    src/modules/session_runtime/service.py.  What both services need of a session store is the
    class [SessionStore]; the in-memory store and the SQLite store on a file are instances.
    Parameters: importing a class ([import_class]), constructing an adapter ([construct]), its
    health check, the environment's secrets. *)

From S2P Require Import Prelude PyValue Identity Checkpoints SqliteStores SqliteStoresFacts.
From S2P Require Import Authentication ToolIO ToolExecutor TenantRuntime.

(** ** Session stores *)

Class SessionStore (T : Type) := {
  save_session : T → SessionRecord → res T;
  get_session : T → string → string → res (option SessionRecord);
  count_active_sessions_by_provider : T → string → res Z;
  deactivate_sessions_by_provider : T → string → res (T * Z);
  (** The states a store can be in *)
  store_ok : T → Prop;
  (** What a store keeps of a record *)
  kept : SessionRecord → SessionRecord;
  save_works s r : store_ok s → ∃ s', save_session s r = Ok s' ∧ store_ok s' ∧
    get_session s' (sc_session_id (sr_session r)) (sr_tenant_id r) = Ok (Some (kept r)) ∧
    (sr_state r = "active" →
     ∃ n, count_active_sessions_by_provider s' (sc_provider_id (sr_session r)) = Ok n ∧ 0 < n);
  count_works s p : store_ok s → ∃ n, count_active_sessions_by_provider s p = Ok n ∧ 0 ≤ n;
  deactivate_works s p : store_ok s → ∃ s' n, deactivate_sessions_by_provider s p = Ok (s', n) ∧
    store_ok s' ∧ count_active_sessions_by_provider s p = Ok n ∧
    count_active_sessions_by_provider s' p = Ok 0;
}.

(** ** src/runtime/adapter_factory.py *)

Definition openai_class_ref : string := "exo_adapter_openai.runtime.OpenAIAgentsRuntimeAdapter".
Definition echo_class_ref : string := "exo_adapter_echo.runtime.EchoRuntimeAdapter".

Definition openai_aliases : list string :=
  ["OpenAIAgentsRuntimeAdapter"; "exo_adapter_openai.OpenAIAgentsRuntimeAdapter"; openai_class_ref].
Definition echo_aliases : list string := ["EchoRuntimeAdapter"; echo_class_ref].

Definition canonicalize_adapter_class_ref (adapter_class_ref : string) : res string :=
  let ref := py_strip adapter_class_ref in
  guard! py_bool ref else ValueError "adapter_class_ref cannot be empty" in
  Ok (if bool_decide (ref ∈ echo_aliases) then echo_class_ref
      else if bool_decide (ref ∈ openai_aliases) then openai_class_ref
      else ref).

(** [s.rsplit(".", 1)] of a text with a dot *)
Fixpoint rsplit_dot (s : string) : option (string * string) :=
  match s with
  | EmptyString => None
  | String c s' =>
      match rsplit_dot s' with
      | Some (a, b) => Some (String c a, b)
      | None => if bool_decide (c = Ascii.ascii_of_nat 46) then Some (EmptyString, s') else None
      end
  end.

(** Importing a module and looking a class up in it: ImportError, another exception, no such
    attribute, something else than a subclass of RuntimeAdapter (with the name of its type), or
    the class *)
Inductive class_outcome (C : Type) :=
| ImportFails
| ImportRaises (e : exn)
| NoClass
| NotAnAdapter (type_name : string)
| AdapterClass (c : C).
Arguments ImportFails {C}.
Arguments ImportRaises {C} e.
Arguments NoClass {C}.
Arguments NotAnAdapter {C} type_name.
Arguments AdapterClass {C} c.

(** What loading comes to: a value, a ValueError or ImportError with its message, which the callers
    catch, or another exception. *)
Inductive loading (A : Type) :=
| Loaded (a : A)
| LoadFails (message : string)
| LoadCrashes (e : exn).
Arguments Loaded {A} a.
Arguments LoadFails {A} message.
Arguments LoadCrashes {A} e.

(** ** src/config/provider_registry.py *)

Inductive ProviderProfile := MANAGED_VENDOR | SELF_MANAGED | LOCAL_ONLY.
Inductive EndpointApiType := OPENAI_NATIVE | OPENAI_COMPATIBLE | CUSTOM.

#[export] Instance ProviderProfile_eq_dec : EqDecision ProviderProfile.
Proof. solve_decision. Defined.
#[export] Instance EndpointApiType_eq_dec : EqDecision EndpointApiType.
Proof. solve_decision. Defined.

Definition profile_value (p : ProviderProfile) : string :=
  match p with
  | MANAGED_VENDOR => "managed_vendor" | SELF_MANAGED => "self_managed" | LOCAL_ONLY => "local_only"
  end.

Definition profile_of (s : string) : option ProviderProfile :=
  if s =?s "managed_vendor" then Some MANAGED_VENDOR
  else if s =?s "self_managed" then Some SELF_MANAGED
  else if s =?s "local_only" then Some LOCAL_ONLY else None.

Definition api_type_value (t : EndpointApiType) : string :=
  match t with
  | OPENAI_NATIVE => "openai_native" | OPENAI_COMPATIBLE => "openai_compatible" | CUSTOM => "custom"
  end.

Definition api_type_of (s : string) : option EndpointApiType :=
  if s =?s "openai_native" then Some OPENAI_NATIVE
  else if s =?s "openai_compatible" then Some OPENAI_COMPATIBLE
  else if s =?s "custom" then Some CUSTOM else None.

Record ProviderRecord := mkProvider {
  pv_provider_id : string;
  pv_display_name : string;
  pv_adapter_class : string;
  pv_enabled : bool;
  pv_profile : ProviderProfile;
  pv_priority : Z;
  pv_base_url : string;
  pv_api_type : EndpointApiType;
  pv_auth_type : string;
  pv_api_key_env_var : string;
  pv_model : string;
  pv_temperature : Q;
  pv_max_output_tokens : Z;
}.

(** The default temperature of [ModelDefaults] and of [PersistedProviderRecord], the double 0.2 *)
Definition double_02 : Q := QArith_base.Qmake 3602879701896397 18014398509481984.

(** [HealthStatus] and whether its state is HEALTHY *)
Record HealthStatus := mkHealth { hs_healthy : bool; hs_state : string; hs_reason : string }.

Section providers.
Context {Class_ Adapter : Type}.
Variable import_class : string → string → class_outcome Class_.
(** [cls(provider_id=...)] *)
Variable construct : Class_ → string → loading Adapter.
Variable healthcheck : Adapter → HealthStatus.
Variable secret_of : string → option string.

Definition load_adapter_class (ref : string) : loading Class_ :=
  match rsplit_dot ref with
  | None => LoadFails ("adapter_class_ref must be a dotted path, got: " +:+ repr_str ref)
  | Some (module_path, class_name) =>
      match import_class module_path class_name with
      | AdapterClass c => Loaded c
      | ImportFails => LoadFails ("No module named " +:+ repr_str module_path)
      | ImportRaises e => LoadCrashes e
      | NoClass =>
          LoadFails ("Class " +:+ repr_str class_name +:+ " not found in " +:+ repr_str module_path)
      | NotAnAdapter type_name =>
          LoadFails (repr_str ref +:+ " must be a RuntimeAdapter subclass, got " +:+ type_name)
      end
  end.

(** [load_adapter] without further keyword arguments *)
Definition load_adapter (adapter_class_ref provider_id : string) : loading Adapter :=
  match canonicalize_adapter_class_ref adapter_class_ref with
  | Raise e => LoadFails (exn_message e)
  | Ok canonical_ref =>
      match load_adapter_class canonical_ref with
      | Loaded c => construct c provider_id
      | LoadFails _ =>
          LoadFails ("Could not load adapter class for " +:+ repr_str adapter_class_ref
            +:+ " (canonical=" +:+ repr_str canonical_ref +:+ "). Install adapter packages: "
            +:+ "pip install -r requirements.txt "
            +:+ "or bash scripts/dev/install_adapter_dependencies.sh")
      | LoadCrashes e => LoadCrashes e
      end
  end.

Record ProviderRegistry := mkProviderRegistry {
  providers : list (string * ProviderRecord);
  adapters : list (string * Adapter);
}.

Definition get_adapter (r : ProviderRegistry) (provider_id : string) : res Adapter :=
  match od_get provider_id (adapters r) with
  | Some a => Ok a
  | None => Raise (KeyError ("No adapter bound for provider '" +:+ provider_id +:+ "'"))
  end.

Definition get (r : ProviderRegistry) (provider_id : string) : res ProviderRecord :=
  match od_get provider_id (providers r) with
  | Some p => Ok p
  | None => Raise (KeyError ("Provider '" +:+ provider_id +:+ "' is not registered"))
  end.

Definition enabled_provider_ids (r : ProviderRegistry) : list string :=
  sorted_strings (od_keys (filter (λ p, pv_enabled p.2 = true) (providers r))).

Definition register (r : ProviderRegistry) (p : ProviderRecord) (a : Adapter) : ProviderRegistry :=
  mkProviderRegistry (od_set (pv_provider_id p) p (providers r))
    (od_set (pv_provider_id p) a (adapters r)).

Definition unregister (r : ProviderRegistry) (provider_id : string) : res ProviderRegistry :=
  guard! od_mem provider_id (providers r)
    else KeyError ("Provider '" +:+ provider_id +:+ "' is not registered") in
  Ok (mkProviderRegistry (od_pop provider_id (providers r)) (od_pop provider_id (adapters r))).

(** *** [validate_startup] *)

Record StartupSettings := mkStartup {
  default_provider_id : string;
  fallback_provider_id : option string;
  allowed_provider_ids : list string;
  require_provider_healthcheck_on_start : bool;
}.

Definition validate_health (r : ProviderRegistry) (c : StartupSettings) (provider_id : string)
    (h : HealthStatus) : res unit :=
  if hs_healthy h then Ok tt
  else if provider_id =?s default_provider_id c then
    match fallback_provider_id c with
    | None =>
        Raise (ValueError ("Default provider '" +:+ provider_id
                           +:+ "' is not healthy and no fallback is configured"))
    | Some fallback =>
        guard! od_mem fallback (adapters r)
          else ValueError ("Fallback provider '" +:+ fallback +:+ "' adapter is missing") in
        Ok tt
    end
  else Ok tt.

Definition validate_provider (r : ProviderRegistry) (c : StartupSettings) (provider_id : string)
    : res unit :=
  match od_get provider_id (providers r) with
  | None => Ok tt
  | Some p =>
      if negb (pv_enabled p) then Ok tt
      else
        let env := pv_api_key_env_var p in
        guard! negb (py_bool env) || bool_decide (is_Some (secret_of env))
          else ValueError ("Missing provider secret for '" +:+ provider_id +:+ "' from '" +:+ env +:+ "'") in
        match od_get provider_id (adapters r) with
        | None => Raise (ValueError ("Missing adapter binding for provider '" +:+ provider_id +:+ "'"))
        | Some a => validate_health r c provider_id (healthcheck a)
        end
  end.

Fixpoint validate_all (r : ProviderRegistry) (c : StartupSettings) (ids : list string) : res unit :=
  match ids with
  | [] => Ok tt
  | id :: ids => let! _ := validate_provider r c id in validate_all r c ids
  end.

(** [visit] is the order in which Python iterates over the set of active ids. *)
Definition validate_startup (visit : list string → list string) (r : ProviderRegistry)
    (c : StartupSettings) : res unit :=
  guard! od_mem (default_provider_id c) (providers r)
    else ValueError "default_provider_id is not registered" in
  guard! bool_decide (default_provider_id c ∈ enabled_provider_ids r)
    else ValueError "default_provider_id must be enabled" in
  let missing := filter (λ id, id ∉ od_keys (providers r)) (remove_dups (allowed_provider_ids c)) in
  guard! bool_decide (missing = [])
    else ValueError ("allowed_provider_ids contain unknown providers: "
                     +:+ py_repr (λ _, "") (PList (PStr <$> sorted_strings missing))) in
  if negb (require_provider_healthcheck_on_start c) then Ok tt
  else validate_all r c (visit (remove_dups (default_provider_id c :: allowed_provider_ids c))).

(** ** src/modules/provider_management/service.py *)

Record ProviderManagementService := mkProviderService {
  pm_registry : ProviderRegistry;
  pm_store : option (list (string * SQLiteProviderStore.row));
  pm_identity_access : IdentityAccessService.t;
}.

Definition require_provider_store (s : ProviderManagementService)
    : http (list (string * SQLiteProviderStore.row)) :=
  match pm_store s with
  | Some store => Reply store
  | None => HTTPException 503 "Provider store is not configured (memory backend)."
  end.

Definition parse_api_type (api_type : string) : http EndpointApiType :=
  let normalized := py_lower (py_strip api_type) in
  if negb (py_bool normalized) then HTTPException 422 "api_type is required."
  else
    match api_type_of normalized with
    | Some t => Reply t
    | None => HTTPException 422 ("Unsupported api_type '" +:+ api_type +:+ "'.")
    end.

Definition persisted_provider (p : ProviderRecord) : PersistedProviderRecord :=
  mkPersistedProvider (pv_provider_id p) (pv_display_name p) (pv_adapter_class p) (pv_enabled p)
    (profile_value (pv_profile p)) (pv_priority p) (pv_base_url p) (api_type_value (pv_api_type p))
    (pv_auth_type p) (pv_api_key_env_var p) (pv_model p) (pv_temperature p) (pv_max_output_tokens p).

Record ProviderRegisterRequest := mkProviderRequest {
  pr_provider_id : string;
  pr_display_name : string;
  pr_adapter_class_ref : string;
  pr_api_key_env_var : string;
  pr_base_url : string;
  pr_model : string;
  pr_profile : string;
  pr_api_type : string;
}.

Definition new_provider (b : ProviderRegisterRequest) (canonical_ref : string) (t : EndpointApiType)
    : ProviderRecord :=
  mkProvider (pr_provider_id b) (pr_display_name b) canonical_ref true
    (default MANAGED_VENDOR (profile_of (pr_profile b))) 100 (pr_base_url b) t "api_key"
    (pr_api_key_env_var b) (pr_model b) double_02 1500.

(** What a registration needs before it changes anything; a class reference that is blank is
    not caught. *)
Definition check_registration (s : ProviderManagementService) (i : IdentityContext)
    (b : ProviderRegisterRequest) : http (ProviderRecord * Adapter) :=
  let? _ := IdentityAccessService.require_platform_admin i "providers:register" in
  let? _ := require_provider_store s in
  if od_mem (pr_provider_id b) (providers (pm_registry s)) then
    HTTPException 409 ("Provider '" +:+ pr_provider_id b +:+ "' is already registered.")
  else
    match canonicalize_adapter_class_ref (pr_adapter_class_ref b) with
    | Raise e => HTTPException 500 (exn_message e)
    | Ok canonical_ref =>
        match load_adapter canonical_ref (pr_provider_id b) with
        | LoadFails m => HTTPException 422 m
        | LoadCrashes e => HTTPException 500 (exn_message e)
        | Loaded adapter =>
            let h := healthcheck adapter in
            if negb (hs_healthy h) then
              HTTPException 422 ("Adapter healthcheck failed: " +:+ py_or (hs_reason h) (hs_state h))
            else
              let? t := parse_api_type (pr_api_type b) in
              Reply (new_provider b canonical_ref t, adapter)
        end
    end.

Definition register_provider (s : ProviderManagementService) (i : IdentityContext)
    (b : ProviderRegisterRequest) : http ProviderRecord * ProviderManagementService :=
  match check_registration s i b with
  | HTTPException code m => (HTTPException code m, s)
  | Reply (p, adapter) =>
      (Reply p,
       mkProviderService (register (pm_registry s) p adapter)
         ((λ rows, SQLiteProviderStore.save_provider rows (persisted_provider p)) <$> pm_store s)
         (pm_identity_access s))
  end.

(** *** Removing a provider *)

Section sessions.
Context `{!ToolIO} {Handler T : Type} `{!SessionStore T}.
Variable adapter_provider : Adapter → string.
Notation factory := (TenantRuntime.t (Handler := Handler) (Adapter := Adapter)).

(** Draining: the sessions of the provider are cancelled in the store, then their runtimes are
    dropped.  [None] stands for a check that lets the removal go on. *)
Definition drain_provider (store : T) (f : factory) (provider_id : string)
    (force_drain drain_enabled : bool) : http unit * T * factory :=
  let fail code m := (HTTPException code m, store, f) in
  match count_active_sessions_by_provider store provider_id with
  | Raise e => fail 500 (exn_message e)
  | Ok count =>
      if negb (0 <? count) then (Reply tt, store, f)
      else if negb force_drain then
        fail 409 ("Cannot delete provider '" +:+ provider_id +:+ "': " +:+ str_of_Z count
                  +:+ " active session(s) depend on it.")
      else if negb drain_enabled then
        fail 403 "Graceful drain is disabled or caller lacks admin role required for provider-drain override."
      else
        match deactivate_sessions_by_provider store provider_id with
        | Raise e => fail 500 (exn_message e)
        | Ok (store, _) =>
            let '(_, f) := evict_sessions_for_provider adapter_provider f provider_id in
            match count_active_sessions_by_provider store provider_id with
            | Raise e => (HTTPException 500 (exn_message e), store, f)
            | Ok remaining =>
                if 0 <? remaining then
                  (HTTPException 409 ("Cannot delete provider '" +:+ provider_id +:+ "': "
                     +:+ str_of_Z remaining +:+ " active session(s) remain after attempted drain."), store, f)
                else (Reply tt, store, f)
            end
        end
  end.

Definition remove_provider (s : ProviderManagementService) (rows : list (string * SQLiteProviderStore.row))
    (provider_id : string) : http unit * ProviderManagementService :=
  let in_registry := od_mem provider_id (providers (pm_registry s)) in
  let persisted := SQLiteProviderStore.get_provider rows provider_id in
  if negb in_registry && bool_decide (persisted = None :> option _) then
    (HTTPException 404 ("Provider '" +:+ provider_id +:+ "' not found"), s)
  else
    let registry :=
      match unregister (pm_registry s) provider_id with Ok r => r | Raise _ => pm_registry s end in
    let rows :=
      match persisted with
      | Some _ => SQLiteProviderStore.delete_provider rows provider_id
      | None => rows
      end in
    (Reply tt, mkProviderService registry (Some rows) (pm_identity_access s)).

(** [unregister_provider], with a session store that can drain *)
Definition unregister_provider (s : ProviderManagementService) (i : IdentityContext)
    (session_store : option T) (f : factory) (provider_id : string) (force_drain drain_enabled : bool)
    : http unit * ProviderManagementService * option T * factory :=
  match (let? _ := IdentityAccessService.require_platform_admin i "providers:delete" in
         require_provider_store s) with
  | HTTPException code m => (HTTPException code m, s, session_store, f)
  | Reply rows =>
      let '(drained, session_store, f) :=
        match session_store with
        | None => (Reply tt, None, f)
        | Some store =>
            let '(h, store, f) := drain_provider store f provider_id force_drain drain_enabled in
            (h, Some store, f)
        end in
      match drained with
      | HTTPException code m => (HTTPException code m, s, session_store, f)
      | Reply _ =>
          let '(h, s) := remove_provider s rows provider_id in
          (h, s, session_store, f)
      end
  end.

(** ** src/modules/session_runtime/service.py *)

Variable float_repr : Q → string.
Variable byoc_execute sandbox_execute :
  ToolCallContext → ToolRegistry.ToolDescriptor Handler → res ToolResult.
Variable resolve_adapter : string → res Adapter.
Notation get_or_create := (get_or_create float_repr byoc_execute sandbox_execute (Adapter := Adapter)).
Notation create_session_runtime := (create_session_runtime resolve_adapter).

(** The identifiers drawn for a session *)
Record fresh_ids := mkFreshIds { fi_session : string; fi_run : string; fi_job : string; fi_task : string }.

Definition session_fields (agent_id provider_id correlation_id : string) : pydict :=
  [("agent_id", PStr agent_id); ("provider_id", PStr provider_id);
   ("correlation_id", PStr correlation_id)].

(** The runtime of a session is made before its record is saved.  The two readings of the
    clock of each operation of the factory are arguments. *)
Definition create_session (c : RuntimeSettings) (f : factory) (store : option T)
    (m1 m2 m3 m4 : Z) (ids : fresh_ids) (tenant_id agent_id provider_id : string)
    (correlation_id : option string) (i : IdentityContext)
    : http SessionContext * factory * option T :=
  match store with
  | None =>
      (HTTPException 503 "Session store is not configured on this server.", f, None)
  | Some s =>
      let correlation := py_or (default "" correlation_id) (fi_session ids) in
      let '(ctx, f) := get_or_create c f m1 m2 tenant_id in
      match create_session_runtime c f m3 m4 ctx agent_id provider_id (fi_session ids) with
      | (Raise (KeyError m), f) => (HTTPException 404 (repr_str m), f, Some s)
      | (Raise e, f) => (HTTPException 500 (exn_message e), f, Some s)
      | (Ok _, f) =>
          let session :=
            mkSessionContext (fi_session ids) (fi_run ids) (fi_job ids) (fi_task ids) agent_id
              provider_id correlation (Some i) (session_fields agent_id provider_id correlation) in
          match save_session s
                  (mkSessionRecord session tenant_id "active"
                     (session_fields agent_id provider_id correlation)) with
          | Raise e => (HTTPException 500 (exn_message e), f, Some s)
          | Ok s => (Reply session, f, Some s)
          end
      end
  end.

Definition service_get_session (c : RuntimeSettings) (f : factory) (store : option T) (m1 m2 : Z)
    (tenant_id session_id : string) : http (option SessionRecord) * factory :=
  match store with
  | None => (HTTPException 503 "Session store is not configured on this server.", f)
  | Some s =>
      let '(_, f) := get_or_create c f m1 m2 tenant_id in
      match get_session s session_id tenant_id with
      | Raise e => (HTTPException 500 (exn_message e), f)
      | Ok r => (Reply r, f)
      end
  end.
End sessions.
End providers.
