(* ===== verification/ProvidersFacts.v ===== *)
(** * Theorems about providers and sessions

    The two session stores keep the promises of [SessionStore]; against those promises alone:
    when a provider can be removed and what its removal leaves, what creating a session stores,
    and which configurations pass the startup check of the provider registry. *)

From S2P Require Import Prelude PyValue Identity Checkpoints SqliteStores SqliteStoresFacts.
From S2P Require Import Authentication ToolIO Sample ToolExecutor AgentRegistry TenantRuntime TenantRuntimeFacts.
From S2P Require Import Providers.

(** ** The two session stores *)

Lemma count_active_pos {A} (p : A → bool) l x : x ∈ l → p x = true → 0 < count_if p l.
Proof.
  intros Hin Hp. induction l as [|y l IH]; [by apply elem_of_nil in Hin|].
  rewrite count_if_cons. pose proof (count_if_nonneg p l).
  apply elem_of_cons in Hin as [<-|Hin]; [rewrite Hp; lia|]. specialize (IH Hin). destruct (p y); lia.
Qed.

Module MemorySessions.
Module M := InMemorySessionStore.

#[export] Program Instance memory_session_store : SessionStore (list ((string * string) * SessionRecord)) := {|
  save_session s r := Ok (M.save_session s r);
  get_session s sid tenant := Ok (M.get_session s sid tenant);
  count_active_sessions_by_provider s p := Ok (M.count_active_sessions_by_provider s p);
  deactivate_sessions_by_provider s p := Ok (M.deactivate_sessions_by_provider s p);
  store_ok s := od_wf s;
  kept r := r;
|}.
Next Obligation.
  intros s r Hs. exists (M.save_session s r). split; [done|]. split; [by apply od_wf_set|].
  unfold M.save_session, M.get_session. rewrite od_get_set. split; [done|]. intros Ha.
  eexists. split; [done|]. eapply count_active_pos; [eapply od_get_values, od_get_set|].
  unfold M.active_on. rewrite Ha. by rewrite !bool_decide_true.
Qed.
Next Obligation. intros s p _. eexists. split; [done|]. apply count_if_nonneg. Qed.
Next Obligation.
  intros s p Hs. pose proof (M.deactivate_drains_provider s p Hs) as Hd. cbn in *.
  destruct (M.deactivate_sessions_by_provider s p) as [s' n]. destruct Hd as (-> & H0 & Hk & _).
  eexists _, _. split; [done|]. rewrite H0. split; [|done]. unfold od_wf in *. by rewrite Hk.
Qed.
End MemorySessions.
Import MemorySessions.

Module SqliteSessions.
Module Q := SQLiteSessionStore.

Lemma none_active_after_update p (rows : list ((string * string) * Q.row)) :
  count_if (Q.active_on p) (od_values (update_rows (λ _, Q.active_on p) Q.cancelled rows)) = 0.
Proof.
  induction rows as [|[k w] rows IH]; [done|].
  change (count_if (Q.active_on p)
    ((if Q.active_on p w then Q.cancelled w else w)
       :: od_values (update_rows (λ _, Q.active_on p) Q.cancelled rows)) = 0).
  rewrite count_if_cons, IH. destruct (Q.active_on p w) eqn:E; [|by rewrite E].
  unfold Q.active_on. cbn. by rewrite andb_false_r.
Qed.

Program Definition sqlite_session_store
    (scan : list ((string * string) * Q.row) → list ((string * string) * Q.row)) : SessionStore Q.t := {|
  save_session := Q.save_session;
  get_session := Q.get_session scan;
  count_active_sessions_by_provider := Q.count_active_sessions_by_provider;
  deactivate_sessions_by_provider := Q.deactivate_sessions_by_provider;
  store_ok s := Q.db_path s ≠ ":memory:";
  kept := Sessions.without_identity;
|}.
Next Obligation.
  intros scan s r Hs. cbn in *. unfold Q.save_session. rewrite Sessions.connected_file by done.
  eexists. split; [done|]. split; [done|].
  unfold Q.get_session, Q.count_active_sessions_by_provider. cbn [Q.db_path Q.sessions].
  rewrite !Sessions.connected_file by done. cbn [res_bind]. unfold upsert. rewrite od_get_set.
  unfold assert_tenant_match. rewrite bool_decide_true by done. cbn [res_bind]. split; [done|].
  intros Ha. eexists. split; [done|].
  eapply count_active_pos; [eapply od_get_values, od_get_set|].
  unfold Q.active_on. cbn. rewrite Ha. by rewrite !bool_decide_true.
Qed.
Next Obligation.
  intros scan s p Hs. cbn in *. unfold Q.count_active_sessions_by_provider.
  rewrite Sessions.connected_file by done. eexists. split; [done|]. apply count_if_nonneg.
Qed.
Next Obligation.
  intros scan s p Hs. cbn in *.
  unfold Q.deactivate_sessions_by_provider, Q.count_active_sessions_by_provider.
  rewrite !Sessions.connected_file by done. eexists _, _. split; [done|].
  cbn [Q.db_path Q.sessions]. split; [done|]. split; [done|].
  rewrite Sessions.connected_file by done. by rewrite none_active_after_update.
Qed.
End SqliteSessions.

(** ** Removing a provider *)

Section removal.
Context `{!ToolIO} {Handler Adapter T : Type} `{!SessionStore T}.
Variable adapter_provider : Adapter → string.
Notation factory := (TenantRuntime.t (Handler := Handler) (Adapter := Adapter)).
Notation service := (ProviderManagementService (Adapter := Adapter)).
Notation drain := (drain_provider (Handler := Handler) adapter_provider).
Notation unregister_provider := (unregister_provider (Handler := Handler) adapter_provider).
Implicit Types (store : T) (f : factory) (s : service).

Definition registry_ok (r : ProviderRegistry (Adapter := Adapter)) : Prop :=
  ∀ id, is_Some (od_get id (adapters r)) ↔ is_Some (od_get id (providers r)).

(** No runtime of the factory is on an adapter of the provider. *)
Definition no_runtime_on (provider_id : string) f : Prop :=
  ∀ sid a, od_get sid (session_adapters f) = Some a → py_strip (adapter_provider a) ≠ provider_id.

Lemma evict_provider_clears f p : no_runtime_on p (evict_sessions_for_provider adapter_provider f p).2.
Proof.
  intros sid a. unfold evict_sessions_for_provider. cbn [snd]. rewrite drop_sessions_eq. cbn.
  rewrite od_get_pop_all. case_decide as Hd; [done|]. intros Ha Hp. apply Hd. unfold od_keys.
  apply list_elem_of_fmap. exists (sid, a). split; [done|]. apply list_elem_of_filter.
  split; [done|]. by apply od_get_elem.
Qed.

(** What draining comes to over a store that keeps its promises. *)
Lemma drain_spec store f p force enabled n :
  store_ok store → count_active_sessions_by_provider store p = Ok n →
  let '(h, store', f') := drain store f p force enabled in
  if decide (n ≤ 0) then h = Reply tt ∧ store' = store ∧ f' = f
  else if force && enabled then
    h = Reply tt ∧ store_ok store' ∧ count_active_sessions_by_provider store' p = Ok 0 ∧
    no_runtime_on p f' ∧ deactivate_sessions_by_provider store p = Ok (store', n)
  else store' = store ∧ f' = f ∧
    ∃ m, h = HTTPException (if force then 403 else 409) m.
Proof.
  intros Hok Hn. unfold drain_provider. rewrite Hn.
  destruct (Z.ltb_spec 0 n) as [Hlt|Hle]; cbn [negb]; [|by rewrite decide_True by lia].
  destruct force; cbn [negb andb]; [|rewrite decide_False by lia; by eauto].
  destruct enabled; cbn [negb]; [|rewrite decide_False by lia; by eauto].
  destruct (deactivate_works store p Hok) as (store' & k & Hd & Hok' & Hk & H0). rewrite Hd.
  pose proof (evict_provider_clears f p) as He.
  destruct (evict_sessions_for_provider adapter_provider f p) as [ev f']. cbn [snd] in He.
  rewrite H0. rewrite Hn in Hk. injection Hk as ->. cbn. rewrite decide_False by lia. by split_and!.
Qed.

(** Every entry of the tables but the provider's is kept, and the provider's is gone. *)
Definition removed_from {V} (p : string) (m m' : list (string * V)) : Prop :=
  od_get p m' = None ∧ ∀ q, q ≠ p → od_get q m' = od_get q m.

Lemma removed_pop {V} p (m : list (string * V)) : removed_from p m (od_pop p m).
Proof. split; [apply od_get_pop|]. intros q Hq. by apply od_get_pop_ne. Qed.

Lemma removed_fresh {V} p (m : list (string * V)) : od_get p m = None → removed_from p m m.
Proof. by split. Qed.

Lemma get_provider_None (rows : list (string * SQLiteProviderStore.row)) p :
  SQLiteProviderStore.get_provider rows p = None ↔ od_get p rows = None.
Proof. unfold SQLiteProviderStore.get_provider. by destruct (od_get p rows). Qed.

Lemma remove_spec s rows p :
  registry_ok (pm_registry s) →
  let '(h, s') := remove_provider s rows p in
  match h with
  | Reply _ =>
      removed_from p (providers (pm_registry s)) (providers (pm_registry s')) ∧
      removed_from p (adapters (pm_registry s)) (adapters (pm_registry s')) ∧
      registry_ok (pm_registry s') ∧
      ∃ rows', pm_store s' = Some rows' ∧ removed_from p rows rows'
  | HTTPException code _ =>
      code = 404 ∧ s' = s ∧ od_get p (providers (pm_registry s)) = None ∧ od_get p rows = None
  end.
Proof.
  intros Hr. unfold remove_provider, unregister.
  destruct (od_mem p (providers (pm_registry s))) eqn:Em; cbn [negb andb].
  - cbn [pm_registry pm_store providers adapters]. split; [apply removed_pop|].
    split; [apply removed_pop|]. split.
    + intros q. cbn. destruct (decide (q = p)) as [->|Hq]; [by rewrite !od_get_pop|].
      by rewrite !od_get_pop_ne.
    + eexists. split; [done|]. destruct (SQLiteProviderStore.get_provider rows p) eqn:E.
      * apply removed_pop.
      * apply removed_fresh. by apply get_provider_None.
  - apply od_mem_false in Em.
    assert (od_get p (adapters (pm_registry s)) = None) as Ha.
    { apply eq_None_not_Some. intros Hs%Hr. rewrite Em in Hs. by destruct Hs. }
    destruct (SQLiteProviderStore.get_provider rows p) eqn:E.
    + rewrite bool_decide_false by done. cbn [pm_registry pm_store].
      split; [by apply removed_fresh|]. split; [by apply removed_fresh|]. split; [done|].
      eexists. split; [done|]. apply removed_pop.
    + rewrite bool_decide_true by done. apply get_provider_None in E. by split_and!.
Qed.


(** The status of a refusal that happens before anything else. *)
Definition refusal s (i : IdentityContext) (n : Z) (force enabled : bool) : option Z :=
  if negb (IdentityAccessService.is_platform_admin i) then Some 403
  else
    match pm_store s with
    | None => Some 503
    | Some _ =>
        if n <=? 0 then None else if negb force then Some 409
        else if negb enabled then Some 403 else None
    end.

(** A platform administrator removes a provider when no active session uses it or when they
    may drain it; draining cancels its sessions and drops every runtime on it.  Then no active
    session is left on it, and the provider is gone from the registry and from the store while
    every other one is as before.  A refusal changes nothing, with one exception: draining an
    unknown provider answers 404 after the sessions that name it were cancelled. *)
Theorem provider_removal s i store f p force enabled n :
  registry_ok (pm_registry s) → store_ok store →
  count_active_sessions_by_provider store p = Ok n → 0 ≤ n →
  match refusal s i n force enabled with
  | Some code => ∃ m,
      unregister_provider s i (Some store) f p force enabled =
      (HTTPException code m, s, Some store, f)
  | None => ∃ h s' store' f',
      unregister_provider s i (Some store) f p force enabled = (h, s', Some store', f') ∧
      count_active_sessions_by_provider store' p = Ok 0 ∧
      (if decide (n = 0) then store' = store ∧ f' = f
       else deactivate_sessions_by_provider store p = Ok (store', n) ∧ no_runtime_on p f') ∧
      match h with
      | Reply _ =>
          removed_from p (providers (pm_registry s)) (providers (pm_registry s')) ∧
          removed_from p (adapters (pm_registry s)) (adapters (pm_registry s')) ∧
          registry_ok (pm_registry s') ∧
          removed_from p (default [] (pm_store s)) (default [] (pm_store s'))
      | HTTPException code _ =>
          code = 404 ∧ s' = s ∧ od_get p (providers (pm_registry s)) = None ∧
          od_get p (default [] (pm_store s)) = None
      end
  end.
Proof.
  intros Hr Hok Hn H0. unfold refusal, Providers.unregister_provider, require_provider_store.
  unfold IdentityAccessService.require_platform_admin.
  destruct (IdentityAccessService.is_platform_admin i); cbn [negb http_bind]; [|by eexists].
  destruct (pm_store s) as [rows|] eqn:Es; [|by eexists].
  pose proof (drain_spec store f p force enabled n Hok Hn) as Hd.
  destruct (drain store f p force enabled) as [[h store'] f'].
  pose proof (remove_spec s rows p Hr) as Hrm.
  destruct (remove_provider s rows p) as [h2 s'].
  destruct (Z.leb_spec n 0) as [Hle|Hlt].
  - rewrite decide_True in Hd by done. destruct Hd as (-> & -> & ->). eexists _, _, _, _.
    split; [reflexivity|]. assert (n = 0) as -> by lia. rewrite decide_True by done.
    split; [done|]. split; [done|]. destruct h2; [|by destruct Hrm as (-> & -> & ? & ?)].
    destruct Hrm as (? & ? & ? & rows' & Hrs & ?). by rewrite Hrs.
  - rewrite decide_False in Hd by lia. destruct force, enabled; cbn [negb andb] in *.
    2-4: by destruct Hd as (-> & -> & m & ->); eexists.
    destruct Hd as (-> & _ & Hc & Hf & Hde). eexists _, _, _, _.
    split; [reflexivity|]. rewrite decide_False by lia. split; [done|]. split; [done|].
    destruct h2; [|by destruct Hrm as (-> & -> & ? & ?)].
    destruct Hrm as (? & ? & ? & rows' & Hrs & ?). by rewrite Hrs.
Qed.
End removal.

Lemma provider_removal_witness :
  let session := mkSessionRecord
    (mkSessionContext "s1" "r" "j" "t" "a" "openai" "c" None []) "acme" "active" [] in
  let admin := mkIdentityContext "root" Human ["platform_admin"] "acme" "" TokenValid "" "" false in
  let p := mkProvider "openai" "OpenAI" openai_class_ref true MANAGED_VENDOR 100 "" OPENAI_NATIVE
             "api_key" "KEY" "m" double_02 1500 in
  let registry := mkProviderRegistry [("openai", p)] [("openai", "openai")] in
  let s := mkProviderService registry (Some [])
             (IdentityAccessService.mkService None false []) in
  let store := [(("acme", "s1"), session)] in
  refusal s admin 1 false true = Some 409 ∧ refusal s admin 1 true true = None ∧
  match unregister_provider (H := Sample.io) (Handler := unit) (λ a, a) s admin (Some store)
          TenantRuntime.empty "openai" true true with
  | (Reply _, s', Some store', _) =>
      od_get "openai" (providers (pm_registry s')) = None ∧
      InMemorySessionStore.count_active_sessions_by_provider store' "openai" = 0
  | _ => False
  end ∧
  ∃ h s' store' f',
    unregister_provider (H := Sample.io) (Handler := unit) (λ a, a) s admin (Some store)
      TenantRuntime.empty "openai" true true = (h, s', Some store', f').
Proof.
  intros session admin p registry s store. split; [reflexivity|]. split; [reflexivity|].
  split; [by vm_compute|].
  pose proof (provider_removal (H := Sample.io) (Handler := unit) (λ a, a) s admin store
    TenantRuntime.empty "openai" true true 1) as Hx.
  change (refusal s admin 1 true true) with (None (A := Z)) in Hx.
  destruct Hx as (h & s' & store' & f' & Hu & _); [|refine (bool_decide_unpack _ _); vm_compute; exact I
    |reflexivity|done|by exists h, s', store', f'].
  intros id. cbn. by case_decide.
Defined.

(** ** The startup check of the provider registry *)

Section startup.
Context {Adapter : Type}.
Variable healthcheck : Adapter → HealthStatus.
Variable secret_of : string → option string.
Implicit Types (r : ProviderRegistry (Adapter := Adapter)) (c : StartupSettings).
Notation validate_provider := (validate_provider healthcheck secret_of).
Notation validate_all := (validate_all healthcheck secret_of).
Notation validate_startup := (validate_startup healthcheck secret_of).

(** A provider the server may start with: enabled, it has its secret and an adapter, which is
    healthy unless another provider is the default or a fallback stands in. *)
Definition provider_ready r c (id : string) : Prop :=
  ∀ p, od_get id (providers r) = Some p → pv_enabled p = true →
    (pv_api_key_env_var p = "" ∨ is_Some (secret_of (pv_api_key_env_var p))) ∧
    ∃ a, od_get id (adapters r) = Some a ∧
      (hs_healthy (healthcheck a) = true ∨ id ≠ default_provider_id c ∨
       ∃ fallback, fallback_provider_id c = Some fallback ∧ is_Some (od_get fallback (adapters r))).

Definition startup_ready r c : Prop :=
  (∃ p, od_get (default_provider_id c) (providers r) = Some p ∧ pv_enabled p = true) ∧
  (∀ id, id ∈ allowed_provider_ids c → is_Some (od_get id (providers r))) ∧
  (require_provider_healthcheck_on_start c = true →
   ∀ id, id = default_provider_id c ∨ id ∈ allowed_provider_ids c → provider_ready r c id).

Lemma validate_health_ok r c id a :
  validate_health r c id (healthcheck a) = Ok tt ↔
  hs_healthy (healthcheck a) = true ∨ id ≠ default_provider_id c ∨
  ∃ fallback, fallback_provider_id c = Some fallback ∧ is_Some (od_get fallback (adapters r)).
Proof.
  unfold validate_health. destruct (hs_healthy (healthcheck a)); [by split; [left|]|].
  destruct (decide (id = default_provider_id c)) as [E|E].
  - rewrite bool_decide_true by done. destruct (fallback_provider_id c) as [fb|].
    + destruct (od_mem fb (adapters r)) eqn:Em.
      * apply od_mem_true in Em. split; [|done]. intros _. right. right. by eexists.
      * apply od_mem_false in Em. split; [done|].
        intros [?|[?|(fb' & [= <-] & Hs)]]; [done..|]. rewrite Em in Hs. by destruct Hs.
    + split; [done|]. by intros [?|[?|(fb' & [=] & Hs)]].
  - rewrite bool_decide_false by done. split; [|done]. intros _. right. by left.
Qed.

Lemma validate_provider_ok r c id : validate_provider r c id = Ok tt ↔ provider_ready r c id.
Proof.
  unfold Providers.validate_provider, provider_ready.
  destruct (od_get id (providers r)) as [p|]; [|by split].
  destruct (pv_enabled p) eqn:Ee; cbn [negb].
  2:{ split; [|done]. intros _ p' [= <-]. by rewrite Ee. }
  assert (∀ P : Prop, (∀ p', Some p = Some p' → pv_enabled p' = true → P) ↔ P) as Hsimp.
  { intros P. split; [by intros Hx; apply (Hx p)|done]. }
  transitivity ((pv_api_key_env_var p = "" ∨ is_Some (secret_of (pv_api_key_env_var p))) ∧
    ∃ a, od_get id (adapters r) = Some a ∧
      (hs_healthy (healthcheck a) = true ∨ id ≠ default_provider_id c ∨
       ∃ fallback, fallback_provider_id c = Some fallback ∧ is_Some (od_get fallback (adapters r)))).
  2:{ split; [by intros Hx p' [= <-]|]. intros Hx. by apply Hx. }
  clear Hsimp.
  destruct (negb (py_bool (pv_api_key_env_var p)) || bool_decide (is_Some (secret_of (pv_api_key_env_var p)))) eqn:Es.
  - assert (pv_api_key_env_var p = "" ∨ is_Some (secret_of (pv_api_key_env_var p))) as Hs.
    { apply orb_true_iff in Es as [Es|Es%bool_decide_eq_true]; [left|by right].
      by destruct (pv_api_key_env_var p). }
    destruct (od_get id (adapters r)) as [a|].
    + rewrite validate_health_ok. split; [by eauto|]. by intros (_ & a' & [= <-] & Hx).
    + split; [done|]. by intros (_ & a' & [=] & _).
  - split; [done|]. apply orb_false_iff in Es as [Es1 Es2%bool_decide_eq_false].
    intros [[He|He] _]; [|done]. by rewrite He in Es1.
Qed.

Lemma validate_all_ok r c ids : validate_all r c ids = Ok tt ↔ ∀ id, id ∈ ids → provider_ready r c id.
Proof.
  induction ids as [|id ids IH]; [split; [by intros _ ? ?%elem_of_nil|done]|].
  cbn [Providers.validate_all]. pose proof (validate_provider_ok r c id) as Hp.
  destruct (validate_provider r c id) as [[]|e]; cbn [res_bind].
  - rewrite IH. split.
    + intros Hall id' [->|Hin]%elem_of_cons; [by apply Hp|by apply Hall].
    + intros Hall id' Hin. apply Hall. by apply list_elem_of_further.
  - split; [done|]. intros Hall. assert (Raise e = Ok tt) as [=].
    apply Hp, Hall, list_elem_of_here.
Qed.

(** The server starts exactly when its default provider is registered and enabled, every
    allowed provider is registered and, when health is required, each provider in use is ready;
    the order in which the providers are visited does not matter. *)
Theorem startup_accepts_exactly_ready visit r c :
  (∀ l, visit l ≡ₚ l) → od_wf (providers r) →
  validate_startup visit r c = Ok tt ↔ startup_ready r c.
Proof.
  intros Hv Hwf. unfold Providers.validate_startup, startup_ready.
  assert (default_provider_id c ∈ enabled_provider_ids r ↔
    ∃ p, od_get (default_provider_id c) (providers r) = Some p ∧ pv_enabled p = true) as Hen.
  { unfold enabled_provider_ids, sorted_strings. rewrite elem_of_sort_by, <- od_get_Some_key.
    split.
    - intros [p Hp]. apply od_get_filter_some in Hp as [Hp He]; [|done]. by exists p.
    - intros (p & Hp & He). exists p. by apply od_get_filter_some. }
  destruct (od_mem (default_provider_id c) (providers r)) eqn:Em.
  2:{ apply od_mem_false in Em. split; [done|]. intros [(p & Hp & _) _]. congruence. }
  case_bool_decide as Hd; [|split; [done|]; by intros [?%Hen _]]. apply Hen in Hd.
  set (missing := filter _ _).
  assert (missing = [] ↔ ∀ id, id ∈ allowed_provider_ids c → is_Some (od_get id (providers r))) as Hm.
  { unfold missing. split.
    - intros E id Hin. apply od_get_Some_key.
      destruct (decide (id ∈ od_keys (providers r))) as [|Hni]; [done|]. exfalso.
      eapply (not_elem_of_nil id). rewrite <- E. apply list_elem_of_filter.
      split; [done|]. by apply elem_of_remove_dups.
    - intros Hall. destruct (filter _ _) as [|id l] eqn:E; [done|].
      assert (id ∈ id :: l) as Hin by apply list_elem_of_here. rewrite <- E in Hin.
      apply list_elem_of_filter in Hin as [Hni Hin]. apply elem_of_remove_dups, Hall in Hin.
      by apply od_get_Some_key in Hin. }
  case_bool_decide as Hmd; [|split; [done|]; intros (_ & Ha & _); by apply Hm in Ha].
  pose proof (proj1 Hm Hmd) as Ha.
  destruct (require_provider_healthcheck_on_start c); cbn [negb]; [|by split].
  rewrite validate_all_ok. split.
  - intros Hall. split; [done|]. split; [done|]. intros _ id Hid. apply Hall. rewrite Hv.
    by rewrite elem_of_remove_dups, elem_of_cons.
  - intros (_ & _ & Hall) id Hin. rewrite Hv, elem_of_remove_dups, elem_of_cons in Hin. by apply Hall.
Qed.
End startup.

Lemma startup_accepts_exactly_ready_witness :
  let p id := mkProvider id id openai_class_ref true MANAGED_VENDOR 100 "" OPENAI_NATIVE
             "api_key" "KEY" "m" double_02 1500 in
  let r := mkProviderRegistry [("openai", p "openai"); ("echo", p "echo")]
             [("openai", false); ("echo", true)] in
  let health ok := mkHealth ok "degraded" "" in
  let secret name := if name =?s "KEY" then Some "k" else None in
  let c fallback := mkStartup "openai" fallback ["echo"] true in
  validate_startup health secret (λ l, rev l) r (c None) ≠ Ok tt ∧
  startup_ready health secret r (c (Some "echo")).
Proof.
  intros p r health secret c. split; [by vm_compute|].
  refine (proj1 (startup_accepts_exactly_ready health secret (λ l, rev l) r (c (Some "echo")) _ _) _).
  - intros l. symmetry. apply Permutation_rev.
  - refine (bool_decide_unpack _ _). vm_compute. exact I.
  - by vm_compute.
Defined.

(** ** Creating a session *)

Section creation.
Context `{!ToolIO} {Handler Adapter T : Type} `{!SessionStore T}.
Variable float_repr : Q → string.
Variable byoc_execute sandbox_execute :
  ToolCallContext → ToolRegistry.ToolDescriptor Handler → res ToolResult.
Variable resolve_adapter : string → res Adapter.
Variable adapter_provider : Adapter → string.
Notation factory := (TenantRuntime.t (Handler := Handler) (Adapter := Adapter)).
Notation create_session := (create_session float_repr byoc_execute sandbox_execute resolve_adapter).
Notation get_or_create := (get_or_create float_repr byoc_execute sandbox_execute (Adapter := Adapter)).

Lemma create_runtime_bound c (f : factory) now touched tid ctx agent provider sid h f' :
  factory_wf f → od_get tid (contexts f) = Some ctx →
  create_session_runtime resolve_adapter c f now touched ctx agent provider sid = (Ok h, f') →
  od_get sid (session_runtimes f') = Some h ∧ od_get sid (session_tenant f') = Some tid ∧
  od_get sid (session_adapters f') = Some (ha_adapter h) ∧
  resolve_adapter provider = Ok (ha_adapter h) ∧ ha_context h = ctx ∧
  od_get tid (contexts f') = Some ctx.
Proof.
  intros Hw Hctx. unfold create_session_runtime.
  assert (drops f (evict_lru c (evict_idle c f now))) as Hd
    by (eapply drops_trans; [apply evict_idle_drops|apply evict_lru_drops]).
  pose proof (drops_contexts _ _ Hd) as [Hcs Hhs].
  set (f1 := evict_lru c (evict_idle c f now)) in *.
  destruct Hw as ((_ & _ & Hlive) & _ & _). destruct (Hlive _ _ Hctx) as (x & Hx & <-).
  unfold assemble. rewrite <- Hhs in Hx. rewrite Hx.
  destruct (AgentRegistry.get (cx_agent_registry x) agent) as [a|e]; [|done]. cbn [res_bind].
  destruct (resolve_adapter provider) as [ad|e] eqn:Er; [|done]. cbn [res_bind].
  intros [= <- <-]. cbn. rewrite !od_get_set. by rewrite Hcs.
Qed.

(** Creating a session either fails and leaves the session store as it was, or stores the
    session as active under its tenant, counts it against its provider and binds a runtime to the
    adapter of that provider and to the tenant's current context. *)
Theorem created_session_is_live c (f : factory) store m1 m2 m3 m4 ids tid agent provider corr i :
  rtc (step float_repr byoc_execute sandbox_execute resolve_adapter adapter_provider c) empty f →
  store_ok store →
  let '(h, f', store') :=
    create_session c f (Some store) m1 m2 m3 m4 ids tid agent provider corr i in
  match h with
  | HTTPException code _ => store' = Some store ∧ (code = 404 ∨ code = 500)
  | Reply session => ∃ s' record host ctx,
      store' = Some s' ∧ store_ok s' ∧
      get_session s' (fi_session ids) tid = Ok (Some (kept record)) ∧
      sr_session record = session ∧ sr_tenant_id record = tid ∧ sr_state record = "active" ∧
      sc_session_id session = fi_session ids ∧ sc_identity session = Some i ∧
      sc_provider_id session = provider ∧
      (∃ n, count_active_sessions_by_provider s' provider = Ok n ∧ 0 < n) ∧
      resolve_adapter provider = Ok (ha_adapter host) ∧
      od_get (fi_session ids) (session_runtimes f') = Some host ∧
      od_get (fi_session ids) (session_tenant f') = Some tid ∧
      od_get tid (contexts f') = Some ctx ∧ ha_context host = ctx
  end.
Proof.
  intros [Hw Hc]%factory_reachable_wf Hok. unfold Providers.create_session.
  pose proof (get_or_create_spec float_repr byoc_execute sandbox_execute c f m1 m2 tid Hw Hc) as Hg.
  destruct (get_or_create c f m1 m2 tid) as [ctx f1]. destruct Hg as (Hw1 & Hc1 & Hctx).
  destruct (create_session_runtime resolve_adapter c f1 m3 m4 ctx agent provider (fi_session ids))
    as [[host|e] f2] eqn:Er.
  2:{ destruct e; eauto. }
  eapply create_runtime_bound in Er as (Hr & Ht & _ & Hra & Hh & Hctx2); [|done..].
  set (session := mkSessionContext _ _ _ _ _ _ _ _ _). set (record := mkSessionRecord _ _ _ _).
  destruct (save_works store record Hok) as (s' & Hs & Hok' & Hget & Hcount). rewrite Hs.
  eexists s', record, host, ctx. split_and!; try done. by apply Hcount.
Qed.
End creation.

Lemma with_acme_reachable :
  rtc (step (λ _, "") (λ _ _, Raise (OtherException "not hosted"))
         (λ _ _, Raise (OtherException "not hosted")) (λ provider : string, Ok provider) id
         Concrete.settings) empty (update_context Concrete.with_tenant 0 Concrete.acme).
Proof.
  eapply rtc_l; [by apply (step_get_or_create _ _ _ _ _ _ empty 0 0 "acme")|].
  apply rtc_once. by eapply (step_update _ _ _ _ _ _ _ "acme" 0 Concrete.acme).
Qed.

Lemma created_session_is_live_witness :
  let none := λ _, "" in
  let f := update_context Concrete.with_tenant 0 Concrete.acme in
  let i := mkIdentityContext "bob" Human [] "acme" "" TokenValid "" "" false in
  let ids := mkFreshIds "sess_1" "run_1" "job_1" "task_1" in
  match create_session (H := Sample.io) none (λ _ _, Raise (OtherException "not hosted"))
          (λ _ _, Raise (OtherException "not hosted")) (λ provider : string, Ok provider)
          Concrete.settings f (Some (A := list ((string * string) * SessionRecord)) [])
          1 1 2 2 ids "acme" "agent" "openai" None i with
  | (Reply session, f', Some s') =>
      sc_provider_id session = "openai" ∧
      InMemorySessionStore.count_active_sessions_by_provider s' "openai" = 1
  | _ => False
  end ∧
  ∃ h f' s', create_session (H := Sample.io) none (λ _ _, Raise (OtherException "not hosted"))
          (λ _ _, Raise (OtherException "not hosted")) (λ provider : string, Ok provider)
          Concrete.settings f (Some (A := list ((string * string) * SessionRecord)) [])
          1 1 2 2 ids "acme" "agent" "openai" None i = (h, f', s') ∧
    match h with Reply _ => s' ≠ None | HTTPException code _ => code = 404 ∨ code = 500 end.
Proof.
  intros none f i ids. split; [by vm_compute|].
  pose proof (created_session_is_live (H := Sample.io) none
    (λ _ _, Raise (OtherException "not hosted")) (λ _ _, Raise (OtherException "not hosted"))
    (λ provider : string, Ok provider) id Concrete.settings f
    ([] : list ((string * string) * SessionRecord))
    1 1 2 2 ids "acme" "agent" "openai" None i) as Hx.
  destruct (create_session _ _ _ _ _ _ _ _ _ _ _ _ _ _ _ _ _) as [[h f'] s'].
  specialize (Hx with_acme_reachable (NoDup_nil_2 (A := string * string))).
  exists h, f', s'. split; [done|]. destruct h.
  - by destruct Hx as (s2 & _ & _ & _ & -> & _).
  - by destruct Hx as [_ Hx].
Defined.
