(* ===== verification/ManagementApi.v ===== *)
(** * The provider, session and key routes

    Models src/api/routers/providers.py, sessions.py and admin_keys.py with the requests and answers of
    src/api/schemas/provider_schemas.py, session_schemas.py and auth_schemas.py, over the services of
    Providers.v and Authentication.v.  [management] is the modules these routes use; a route has [None]
    while the application has no modules.  The capabilities and the health of an adapter, the clocks and the
    identifiers drawn are parameters or arguments, as in Providers.v. *)

From S2P Require Import Prelude PyValue SqliteStoresFacts Sample AgentRegistry TenantRuntimeFacts.
From S2P Require Import ProvidersFacts Identity Checkpoints SqliteStores Authentication ToolIO.
From S2P Require Import ToolExecutor TenantRuntime Providers.

(** ** Answers *)

Record ProviderRegisterResponse := mkRegisterResponse {
  po_provider_id : string;
  po_display_name : string;
  po_enabled : bool;
  po_profile : string;
}.

Record ProviderSummaryResponse := mkSummary {
  ps_provider_id : string;
  ps_display_name : string;
  ps_enabled : bool;
  ps_profile : string;
  ps_recommended_runtime_mode : string;
}.

Record ProviderListResponse := mkProviderList { pl_providers : list ProviderSummaryResponse; pl_total : Z }.

Record ProviderHealthResponse := mkHealthResponse { ph_provider_id : string; ph_state : string; ph_reason : string }.

(** What an adapter can do, of [ProviderCapabilityMap], and the answer of the route, which names the provider *)
Record capabilities := mkCapabilities {
  supports_streaming : bool;
  supports_function_calling : bool;
  supports_structured_output : bool;
  supports_handoffs : bool;
  supports_agents_sdk_native : bool;
  supports_openai_compatible_api : bool;
  reliability_score : Z;
  security_tier : string;
  recommended_runtime_mode : string;
}.

Record ProviderCapabilitiesResponse := mkCapabilitiesResponse { pc_provider_id : string; pc_capabilities : capabilities }.

Record SessionCreateRequest := mkSessionRequest {
  sq_agent_id : string;
  sq_provider_id : string;
  sq_correlation_id : string;
}.

(** [SessionCreateResponse], and [SessionStateResponse] without its constant [created_at] *)
Record SessionResponse := mkSessionResponse {
  so_session_id : string;
  so_tenant_id : string;
  so_agent_id : string;
  so_provider_id : string;
  so_correlation_id : string;
}.

Record ApiKeyCreateRequest := mkKeyRequest {
  kq_tenant_id : string;
  kq_subject : string;
  kq_roles : list string;
  kq_description : string;
}.

Record ApiKeyCreateResponse := mkKeyResponse {
  kr_key_id : string;
  kr_key : string;
  kr_tenant_id : string;
  kr_subject : string;
  kr_roles : list string;
  kr_description : string;
  kr_created_at : string;
}.

Record ApiKeyInfo := mkKeyInfo {
  ki_key_id : string;
  ki_tenant_id : string;
  ki_subject : string;
  ki_roles : list string;
  ki_description : string;
  ki_enabled : bool;
  ki_created_at : string;
}.

Record ApiKeyListResponse := mkKeyList { kl_keys : list ApiKeyInfo; kl_total : Z }.

Section routes.
Context `{!ToolIO} {Class_ Adapter Handler T : Type} `{!SessionStore T}.
Variable import_class : string → string → class_outcome Class_.
Variable construct : Class_ → string → loading Adapter.
Variable healthcheck : Adapter → HealthStatus.
Variable get_capabilities : Adapter → capabilities.
Variable adapter_provider : Adapter → string.
Variable float_repr : Q → string.
Variable byoc_execute sandbox_execute :
  ToolCallContext → ToolRegistry.ToolDescriptor Handler → res ToolResult.
Variable resolve_adapter : string → res Adapter.
Variable sha256_hex : string → string.
Notation factory := (TenantRuntime.t (Handler := Handler) (Adapter := Adapter)).

Record management := mkManagement {
  provider_service : ProviderManagementService (Adapter := Adapter);
  identity_access_service : IdentityAccessService.t;
  session_store : option T;
  tenant_factory : factory;
  enable_provider_delete_graceful_drain : bool;
}.

Definition with_providers (m : management) (s : ProviderManagementService (Adapter := Adapter)) : management :=
  mkManagement s (identity_access_service m) (session_store m) (tenant_factory m)
    (enable_provider_delete_graceful_drain m).

Definition with_sessions (m : management) (store : option T) (f : factory) : management :=
  mkManagement (provider_service m) (identity_access_service m) store f (enable_provider_delete_graceful_drain m).

Definition with_keys (m : management) (s : IdentityAccessService.t) : management :=
  mkManagement (provider_service m) s (session_store m) (tenant_factory m) (enable_provider_delete_graceful_drain m).

(** The answer of a route to an application without modules *)
Definition not_configured {B} (what : string) : http B := HTTPException 503 (what +:+ " module is not configured.").

(** *** src/api/routers/providers.py *)

(** [_can_use_provider_drain] *)
Definition can_use_provider_drain (m : management) (i : IdentityContext) : bool :=
  enable_provider_delete_graceful_drain m && IdentityAccessService.is_platform_admin i.

Definition register_provider_route (a : option management) (i : IdentityContext) (b : ProviderRegisterRequest)
    : http ProviderRegisterResponse * option management :=
  match a with
  | None => (not_configured "Provider management", None)
  | Some m =>
      let '(h, s) := register_provider import_class construct healthcheck (provider_service m) i b in
      ((let? p := h in
        Reply (mkRegisterResponse (pv_provider_id p) (pv_display_name p) (pv_enabled p) (profile_value (pv_profile p)))),
       Some (with_providers m s))
  end.

Definition unregister_provider_route (a : option management) (i : IdentityContext) (provider_id : string)
    (force_drain : bool) : http unit * option management :=
  match a with
  | None => (not_configured "Provider management", None)
  | Some m =>
      let '(h, s, store, f) :=
        unregister_provider adapter_provider (provider_service m) i (session_store m) (tenant_factory m) provider_id
          force_drain (can_use_provider_drain m i) in
      (h, Some (with_sessions (with_providers m s) store f))
  end.

Definition provider_summary (p : ProviderRecord) : ProviderSummaryResponse :=
  mkSummary (pv_provider_id p) (pv_display_name p) (pv_enabled p) (profile_value (pv_profile p)) "hybrid".

Definition list_providers_route (a : option management) : http ProviderListResponse :=
  match a with
  | None => not_configured "Provider management"
  | Some m =>
      let ps := providers (pm_registry (provider_service m)) in
      let l := provider_summary <$> omap (λ id, od_get id ps) (sorted_strings (od_keys ps)) in
      Reply (mkProviderList l (Z.of_nat (length l)))
  end.

(** The adapter of a provider, or 404 *)
Definition adapter_or_404 (a : option management) (provider_id : string) : http Adapter :=
  match a with
  | None => not_configured "Provider management"
  | Some m =>
      match get_adapter (pm_registry (provider_service m)) provider_id with
      | Ok x => Reply x
      | Raise _ => HTTPException 404 ("Provider '" +:+ provider_id +:+ "' not found")
      end
  end.

Definition get_provider_health (a : option management) (provider_id : string) : http ProviderHealthResponse :=
  let? x := adapter_or_404 a provider_id in
  Reply (mkHealthResponse provider_id (hs_state (healthcheck x)) (hs_reason (healthcheck x))).

Definition get_provider_capabilities (a : option management) (provider_id : string)
    : http ProviderCapabilitiesResponse :=
  let? x := adapter_or_404 a provider_id in
  Reply (mkCapabilitiesResponse provider_id (get_capabilities x)).

(** *** src/api/routers/sessions.py

    [t] is the readings of the clock by the factory. *)

Record factory_clock := mkClock { m1 : Z; m2 : Z; m3 : Z; m4 : Z }.

Definition create_session_route (c : RuntimeSettings) (a : option management) (t : factory_clock) (ids : fresh_ids)
    (tenant_id : string) (b : SessionCreateRequest) (i : IdentityContext)
    : http SessionResponse * option management :=
  match a with
  | None => (not_configured "Session runtime", None)
  | Some m =>
      let '(h, f, store) :=
        create_session float_repr byoc_execute sandbox_execute resolve_adapter c (tenant_factory m) (session_store m)
          (m1 t) (m2 t) (m3 t) (m4 t) ids tenant_id (sq_agent_id b) (sq_provider_id b) (Some (sq_correlation_id b)) i in
      ((let? s := h in
        Reply (mkSessionResponse (sc_session_id s) tenant_id (sq_agent_id b) (sq_provider_id b) (sc_correlation_id s))),
       Some (with_sessions m store f))
  end.

(** [record.data.get(key, ...)], which the answer has only when it is a string *)
Definition stored_text (data : pydict) (key dflt : string) : http string :=
  match od_get key data with
  | None => Reply dflt
  | Some (PStr s) => Reply s
  | Some _ => internal_error (OtherException "Input should be a valid string")
  end.

Definition get_session_route (c : RuntimeSettings) (a : option management) (t : factory_clock)
    (tenant_id session_id : string) : http SessionResponse * option management :=
  match a with
  | None => (not_configured "Session runtime", None)
  | Some m =>
      let '(h, f) :=
        service_get_session float_repr byoc_execute sandbox_execute c (tenant_factory m) (session_store m) (m1 t) (m2 t)
          tenant_id session_id in
      ((let? found := h in
        match found with
        | None => HTTPException 404 ("Session '" +:+ session_id +:+ "' not found")
        | Some r =>
            let? agent := stored_text (sr_data r) "agent_id" (sc_agent_id (sr_session r)) in
            let? provider := stored_text (sr_data r) "provider_id" (sc_provider_id (sr_session r)) in
            let? correlation := stored_text (sr_data r) "correlation_id" (sc_correlation_id (sr_session r)) in
            Reply (mkSessionResponse session_id tenant_id agent provider correlation)
        end),
       Some (with_sessions m (session_store m) f))
  end.

(** *** src/api/routers/admin_keys.py *)

Definition record_to_info (r : ApiKeyRecord) : ApiKeyInfo :=
  mkKeyInfo (ak_key_id r) (ak_tenant_id r) (ak_subject r) (ak_roles r) (ak_description r) (ak_enabled r)
    (ak_created_at r).

(** [raw] and [key_id] are the random digits drawn, [now] the time. *)
Definition create_api_key_route (a : option management) (raw key_id now : string) (i : IdentityContext)
    (b : ApiKeyCreateRequest) : http ApiKeyCreateResponse * option management :=
  match a with
  | None => (not_configured "Identity access", None)
  | Some m =>
      match IdentityAccessService.create_api_key sha256_hex (identity_access_service m) raw key_id now i
              (kq_tenant_id b) (kq_subject b) (kq_roles b) (kq_description b) with
      | HTTPException code d => (HTTPException code d, Some m)
      | Reply (r, raw_key, s) =>
          (Reply (mkKeyResponse (ak_key_id r) raw_key (ak_tenant_id r) (ak_subject r) (ak_roles r) (ak_description r)
                    (ak_created_at r)), Some (with_keys m s))
      end
  end.

Definition list_api_keys_route (a : option management) (i : IdentityContext) (tenant_id : option string)
    : http ApiKeyListResponse :=
  match a with
  | None => not_configured "Identity access"
  | Some m =>
      let? records := IdentityAccessService.list_api_keys (identity_access_service m) i tenant_id in
      Reply (mkKeyList (record_to_info <$> records) (Z.of_nat (length records)))
  end.

Definition delete_api_key_route (a : option management) (i : IdentityContext) (key_id : string)
    : http unit * option management :=
  match a with
  | None => (not_configured "Identity access", None)
  | Some m =>
      match IdentityAccessService.delete_api_key (identity_access_service m) i key_id with
      | HTTPException code d => (HTTPException code d, Some m)
      | Reply (_, s) => (Reply tt, Some (with_keys m s))
      end
  end.
End routes.

(** * What the provider, session and key routes guarantee

    A session is read by the tenant that created it and by no other, over any store that keeps what it
    saves ([SessionReads]: the in-memory store and the SQLite store on a file); a provider in use is only
    drained by a platform administrator where the settings allow it. *)

Import MemorySessions.

(** ** What a session store keeps *)

Class SessionReads (T : Type) `{!SessionStore T} := {
  (** What is kept for a tenant under a session id *)
  stored : T → string → string → option SessionRecord;
  stored_save s r s' tenant sid : store_ok s → save_session s r = Ok s' →
    stored s' tenant sid =
      if decide (tenant = sr_tenant_id r ∧ sid = sc_session_id (sr_session r)) then Some (kept r)
      else stored s tenant sid;
  stored_get s tenant sid r : store_ok s → get_session s sid tenant = Ok (Some r) ↔ stored s tenant sid = Some r;
  kept_data r : sr_data (kept r) = sr_data r;
}.

#[export] Program Instance memory_session_reads : SessionReads (list ((string * string) * SessionRecord)) := {|
  stored s tenant sid := InMemorySessionStore.get_session s sid tenant;
|}.
Next Obligation.
  intros s r s' tenant sid _ [= <-]. unfold InMemorySessionStore.save_session, InMemorySessionStore.get_session.
  case_decide as Hd; [destruct Hd as [-> ->]; by rewrite od_get_set|]. rewrite od_get_set_ne; [done|].
  intros [= -> ->]. by apply Hd.
Qed.
Next Obligation. intros s tenant sid r _. cbn. split; congruence. Qed.
Next Obligation. done. Qed.

Section sqlite.
Variable scan : list ((string * string) * SQLiteSessionStore.row) → list ((string * string) * SQLiteSessionStore.row).
#[local] Instance sqlite_sessions : SessionStore SQLiteSessionStore.t := SqliteSessions.sqlite_session_store scan.

#[export] Program Instance sqlite_session_reads : SessionReads SQLiteSessionStore.t := {|
  stored s tenant sid :=
    SQLiteSessionStore.record_of (tenant, sid) <$> od_get (tenant, sid) (SQLiteSessionStore.sessions s);
|}.
Next Obligation.
  intros s r s' tenant sid Hok. cbn in *. unfold SQLiteSessionStore.save_session.
  rewrite Sessions.connected_file by done. intros [= <-]. cbn. unfold upsert.
  case_decide as Hd; [destruct Hd as [-> ->]; by rewrite od_get_set|]. rewrite od_get_set_ne; [done|].
  intros [= -> ->]. by apply Hd.
Qed.
Next Obligation.
  intros s tenant sid r Hok. cbn in *. unfold SQLiteSessionStore.get_session.
  rewrite Sessions.connected_file by done. cbn [res_bind].
  destruct (od_get _ _) as [w|]; cbn.
  - unfold assert_tenant_match. rewrite bool_decide_true by done. cbn. split; congruence.
  - split; [|done]. destruct (head _) as [p|]; [|done]. unfold assert_tenant_match. by destruct (bool_decide _).
Qed.
Next Obligation. done. Qed.
End sqlite.

(** ** Sessions *)

Section sessions.
Context `{!ToolIO} {Adapter Handler T : Type} `{!SessionStore T} `{!SessionReads T}.
Variable float_repr : Q → string.
Variable byoc_execute sandbox_execute :
  ToolCallContext → ToolRegistry.ToolDescriptor Handler → res ToolResult.
Variable resolve_adapter : string → res Adapter.
Notation management := (management (Adapter := Adapter) (Handler := Handler) (T := T)).
Notation create := (create_session_route float_repr byoc_execute sandbox_execute resolve_adapter).
Notation read := (get_session_route float_repr byoc_execute sandbox_execute).
Implicit Types (m : management) (s : T).

(** The data that an answered session is stored with *)
Definition answered_data (r : SessionResponse) : pydict :=
  session_fields (so_agent_id r) (so_provider_id r) (so_correlation_id r).

Lemma create_route_saves c m s t ids tenant b i :
  session_store m = Some s →
  let '(h, a) := create c (Some m) t ids tenant b i in
  ∃ m', a = Some m' ∧
  match h with
  | Reply r => ∃ s' record, session_store m' = Some s' ∧ save_session s record = Ok s' ∧
      sr_tenant_id record = tenant ∧ sc_session_id (sr_session record) = fi_session ids ∧
      sr_data record = answered_data r ∧ so_tenant_id r = tenant ∧ so_session_id r = fi_session ids
  | HTTPException _ _ => session_store m' = Some s
  end.
Proof.
  intros Hs. unfold create_session_route, create_session. rewrite Hs.
  destruct (get_or_create _ _ _ _ _ _ _ _) as [ctx f1].
  destruct (create_session_runtime _ _ _ _ _ _ _ _ _) as [[host|e] f2]; [|destruct e; by eexists].
  set (record := mkSessionRecord _ _ _ _). destruct (save_session s record) as [s'|e] eqn:E; [|by eexists].
  eexists. split; [done|]. cbn. exists s', record. split_and!; done.
Qed.

Lemma read_route c m s t tenant sid r :
  session_store m = Some s → store_ok s →
  (∀ record, stored s tenant sid = Some record →
     ∃ r, sr_data record = answered_data r ∧ so_tenant_id r = tenant ∧ so_session_id r = sid) →
  (read c (Some m) t tenant sid).1 = Reply r ↔
  ∃ record, stored s tenant sid = Some record ∧ sr_data record = answered_data r ∧
    so_tenant_id r = tenant ∧ so_session_id r = sid.
Proof.
  intros Hs Hok Hdata. unfold get_session_route, service_get_session. rewrite Hs.
  destruct (get_or_create _ _ _ _ _ _ _ _) as [ctx f1].
  destruct (get_session s sid tenant) as [[record|]|e] eqn:E; cbn [fst http_bind].
  - apply (stored_get _ _ _ _ Hok) in E. destruct (Hdata _ E) as (r' & Hr' & <- & <-). rewrite Hr'. cbn.
    split.
    + intros [= <-]. exists record. by destruct r'.
    + intros (record' & Hr & Hd & Ht & Hi). rewrite E in Hr. injection Hr as <-. rewrite Hr' in Hd.
      injection Hd as E1 E2 E3. destruct r, r'; cbn in *. by subst.
  - split; [done|]. intros (record & Hr & _). apply (stored_get _ _ _ _ Hok) in Hr. congruence.
  - split; [done|]. intros (record & Hr & _). apply (stored_get _ _ _ _ Hok) in Hr. congruence.
Qed.

(** A request to create a session: the clocks, the identifiers drawn, the tenant, the body and the caller *)
Record creation := mkCreation {
  cr_clock : factory_clock;
  cr_ids : fresh_ids;
  cr_tenant_id : string;
  cr_body : SessionCreateRequest;
  cr_identity : IdentityContext;
}.

Definition drawn (qs : list creation) : list string := fi_session ∘ cr_ids <$> qs.

(** The answers of requests one after the other, and the modules after them *)
Fixpoint create_all (c : RuntimeSettings) (m : management) (qs : list creation)
    : list SessionResponse * management :=
  match qs with
  | [] => ([], m)
  | q :: qs =>
      match create c (Some m) (cr_clock q) (cr_ids q) (cr_tenant_id q) (cr_body q) (cr_identity q) with
      | (Reply r, Some m) => let '(rs, m) := create_all c m qs in (r :: rs, m)
      | (_, Some m) => create_all c m qs
      | (_, None) => ([], m)
      end
  end.

(** The store holds the answered sessions, and nothing else of the ids drawn from here on. *)
Definition holds (rs : list SessionResponse) (s : T) : Prop :=
  store_ok s ∧
  (∀ tenant sid record, stored s tenant sid = Some record →
     ∃ r, r ∈ rs ∧ sr_data record = answered_data r ∧ so_tenant_id r = tenant ∧ so_session_id r = sid) ∧
  (∀ r, r ∈ rs → ∃ record, stored s (so_tenant_id r) (so_session_id r) = Some record ∧
     sr_data record = answered_data r).

Lemma holds_save rs s record s' r :
  holds rs s → save_session s record = Ok s' → (∀ r', r' ∈ rs → so_session_id r' ≠ so_session_id r) →
  sr_tenant_id record = so_tenant_id r → sc_session_id (sr_session record) = so_session_id r →
  sr_data record = answered_data r → holds (rs ++ [r]) s'.
Proof.
  intros (Hok & Hin & Hout) Hsave Hnew Ht Hi Hd.
  pose proof (stored_save s record s') as Hst. rewrite Ht, Hi in Hst.
  split_and!.
  - destruct (save_works s record Hok) as (s2 & Hs2 & Hok2 & _). congruence.
  - intros tenant sid x. rewrite (Hst tenant sid Hok Hsave). case_decide as Hk.
    + destruct Hk as [-> ->]. intros [= <-]. exists r. rewrite kept_data. split; [|done].
      apply elem_of_app. right. by left.
    + intros Hx. destruct (Hin _ _ _ Hx) as (r' & Hr' & Hrest). exists r'. split; [|done]. apply elem_of_app. by left.
  - intros r' [Hr'| ->%list_elem_of_singleton]%elem_of_app; rewrite (Hst _ _ Hok Hsave).
    + rewrite decide_False; [by apply Hout|]. intros [_ E]. by destruct (Hnew r' Hr').
    + rewrite decide_True by done. eexists. split; [done|]. by rewrite kept_data.
Qed.

Lemma create_all_holds c m s qs rs :
  session_store m = Some s → holds rs s → NoDup (drawn qs) →
  (∀ r, r ∈ rs → so_session_id r ∉ drawn qs) →
  let '(rs', m') := create_all c m qs in
  ∃ s', session_store m' = Some s' ∧ holds (rs ++ rs') s'.
Proof.
  revert m s rs. induction qs as [|q qs IH]; intros m s rs Hs Hh Hnd Hnew; cbn [create_all].
  { exists s. by rewrite app_nil_r. }
  apply NoDup_cons in Hnd as [Hq Hnd].
  pose proof (create_route_saves c m s (cr_clock q) (cr_ids q) (cr_tenant_id q) (cr_body q) (cr_identity q) Hs) as Hc.
  destruct (create _ _ _ _ _ _ _) as [h a]. destruct Hc as (m1 & -> & Hc). destruct h as [r|code d].
  - destruct Hc as (s1 & record & Hs1 & Hsave & Ht & Hi & Hd & Hrt & Hri).
    specialize (IH m1 s1 (rs ++ [r]) Hs1). destruct (create_all c m1 qs) as [rs' m'].
    destruct IH as (s' & Hs' & Hh').
    + eapply holds_save; [exact Hh|exact Hsave| |congruence|congruence|done].
      intros r' Hr' E. apply (Hnew r' Hr'). rewrite E, Hri. by left.
    + done.
    + intros r' [Hr'| ->%list_elem_of_singleton]%elem_of_app; [|by rewrite Hri].
      intros Hx. apply (Hnew r' Hr'). by right.
    + exists s'. split; [done|]. by rewrite <- app_assoc in Hh'.
  - apply (IH m1 s rs); [done|done|done|]. intros r Hr Hx. apply (Hnew r Hr). by right.
Qed.

(** However many sessions are created by however many tenants over a store that was empty, with distinct
    identifiers, a tenant that asks for a session is answered with exactly what was answered to it when it
    created the session: the same agent, provider and correlation id.  A session of another tenant and a
    session that was not created are refused. *)
Theorem sessions_stay_with_tenant c m s qs t tenant sid r :
  session_store m = Some s → store_ok s → (∀ tenant sid, stored s tenant sid = None) → NoDup (drawn qs) →
  let '(rs, m') := create_all c m qs in
  (read c (Some m') t tenant sid).1 = Reply r ↔ r ∈ rs ∧ so_tenant_id r = tenant ∧ so_session_id r = sid.
Proof.
  intros Hs Hok Hempty Hnd.
  pose proof (create_all_holds c m s qs [] Hs) as Hc. destruct (create_all c m qs) as [rs m'].
  destruct Hc as (s' & Hs' & Hok' & Hin & Hout); [|done|by intros r' Hr'%elem_of_nil|].
  { split_and!; [done| |by intros r' Hr'%elem_of_nil]. intros x y z. by rewrite Hempty. }
  cbn [app] in *. rewrite read_route; [|done|done|].
  - split.
    + intros (record & Hr & Hd & Ht & Hi). destruct (Hin _ _ _ Hr) as (r' & Hr' & Hd' & Ht' & Hi').
      rewrite Hd in Hd'. injection Hd' as E1 E2 E3.
      assert (r = r') as -> by (destruct r, r'; cbn in *; by subst). done.
    + intros (Hr & <- & <-). destruct (Hout r Hr) as (record & Hs1 & Hd). by exists record.
  - intros record Hr. destruct (Hin _ _ _ Hr) as (r' & _ & Hrest). by exists r'.
Qed.
End sessions.

(** ** Providers *)

Section drains.
Context `{!ToolIO} {Adapter Handler T : Type} `{!SessionStore T}.
Variable adapter_provider : Adapter → string.
Notation management := (management (Adapter := Adapter) (Handler := Handler) (T := T)).
Implicit Types (m : management) (s : T).

(** A provider with active sessions is only removed by a platform administrator who asks to drain it where
    the settings allow that; any other request is refused and changes nothing: neither the sessions, nor
    their runtimes, nor the providers. *)
Theorem provider_in_use_kept m s i provider force n :
  session_store m = Some s → store_ok s → registry_ok (pm_registry (provider_service m)) →
  count_active_sessions_by_provider s provider = Ok n → 0 < n →
  (force && enable_provider_delete_graceful_drain m && IdentityAccessService.is_platform_admin i = false) →
  ∃ code d, unregister_provider_route adapter_provider (Some m) i provider force = (HTTPException code d, Some m) ∧
    code ∈ [403; 409; 503].
Proof.
  intros Hs Hok Hr Hn Hpos Hrefused. unfold unregister_provider_route. rewrite Hs.
  pose proof (provider_removal adapter_provider (provider_service m) i s (tenant_factory m) provider force
    (can_use_provider_drain m i) n Hr Hok Hn) as Hp.
  assert (∃ code, refusal (provider_service m) i n force (can_use_provider_drain m i) = Some code ∧
    code ∈ [403; 409; 503]) as (code & Hcode & Hin).
  { unfold refusal, can_use_provider_drain. destruct (IdentityAccessService.is_platform_admin i); cbn [negb].
    2: { eexists. split; [done|]. by left. }
    rewrite !andb_true_r in *. destruct (pm_store _) as [rows|].
    2: { eexists. split; [done|]. by right; right; left. }
    rewrite (proj2 (Z.leb_gt n 0) Hpos). destruct force; cbn [negb].
    2: { eexists. split; [done|]. by right; left. }
    cbn in Hrefused. rewrite Hrefused. eexists. split; [done|]. by left. }
  rewrite Hcode in Hp. destruct Hp as [d Hd]; [lia|]. rewrite Hd. exists code, d. split; [|done].
  f_equal. unfold with_sessions, with_providers. cbn. rewrite <- Hs. by destruct m.
Qed.
End drains.

(** ** Keys *)

(** The keys a caller is shown: none to a caller who is no platform administrator, and to one with a
    tenant, or who names one, the keys of that tenant only. *)
Lemma listed_keys_are_scoped {Adapter Handler T} `{!ToolIO}
    (m : management (Adapter := Adapter) (Handler := Handler) (T := T)) i tenant l :
  list_api_keys_route (Some m) i tenant = Reply l →
  IdentityAccessService.is_platform_admin i = true ∧ kl_total l = Z.of_nat (length (kl_keys l)) ∧
  let scope := py_or (py_strip (default "" tenant)) (py_strip (id_tenant_id i)) in
  (scope ≠ "" → ∀ k, k ∈ kl_keys l → ki_tenant_id k = scope).
Proof.
  unfold list_api_keys_route, IdentityAccessService.list_api_keys, IdentityAccessService.require_platform_admin.
  intros (records & Hr & [= <-])%http_bind_reply. cbn [kl_keys kl_total].
  destruct (IdentityAccessService.is_platform_admin i) eqn:Ea; [|done]. cbn [http_bind] in Hr.
  apply http_bind_reply in Hr as (store & _ & Hr). apply http_bind_reply in Hr as (scope & Hscope & [= <-]).
  split; [done|]. split; [by rewrite length_fmap|]. cbv zeta. intros Hne k Hk.
  assert (scope = Some (py_or (py_strip (default "" tenant)) (py_strip (id_tenant_id i)))) as ->.
  { unfold IdentityAccessService.scoped_tenant_id, IdentityAccessService.require_platform_admin in Hscope.
    rewrite Ea in Hscope. unfold py_or in *. destruct (py_bool (py_strip (default "" tenant))).
    - case_bool_decide; cbn in Hscope; by injection Hscope as <-.
    - unfold py_bool in Hscope. rewrite bool_decide_false in Hscope by done. by injection Hscope as <-. }
  apply list_elem_of_fmap in Hk as (r & -> & Hk). unfold SQLiteApiKeyStore.list_keys in Hk.
  apply list_elem_of_fmap in Hk as ([id row] & -> & Hk). apply elem_of_sort_by, list_elem_of_filter in Hk as [Hk _].
  exact Hk.
Qed.

(** ** Concrete requests *)
Module ManagementExamples.
Import Sample.

#[local] Notation create m qs :=
  (create_all (λ _, "") (λ _ _, Raise (OtherException "not hosted")) (λ _ _, Raise (OtherException "not hosted"))
     (λ provider : string, Ok provider) Concrete.settings m qs).
#[local] Notation read m tenant sid :=
  (get_session_route (λ _, "") (λ _ _, Raise (OtherException "not hosted")) (λ _ _, Raise (OtherException "not hosted"))
     Concrete.settings (Some m) (mkClock 3 3 3 3) tenant sid).1.

Definition someone (roles : list string) : IdentityContext :=
  mkIdentityContext "bob" Human roles "acme" "" TokenValid "" "" false.

(** The context of tenant acme has an agent. *)
Definition factory := update_context Concrete.with_tenant 0 Concrete.acme.

Definition service : ProviderManagementService (Adapter := string) :=
  mkProviderService (mkProviderRegistry [] []) (Some []) (IdentityAccessService.mkService None false []).

Definition modules {T} (store : T) : management (Adapter := string) (Handler := unit) (T := T) :=
  mkManagement service (IdentityAccessService.mkService None false []) (Some store) factory true.

Definition requests : list creation :=
  [mkCreation (mkClock 1 1 2 2) (mkFreshIds "sess_1" "run_1" "job_1" "task_1") "acme"
     (mkSessionRequest "agent" "openai" "") (someone [])].

Notation memory := (list ((string * string) * SessionRecord)).

Definition answer : SessionResponse := mkSessionResponse "sess_1" "acme" "agent" "openai" "sess_1".

Lemma sessions_stay_with_tenant_witness :
  let created := create (modules ([] : memory)) requests in
  answer ∈ created.1 ∧ read created.2 "acme" "sess_1" = Reply answer.
Proof.
  assert (answer ∈ (create (modules ([] : memory)) requests).1) as Hin by (vm_compute; left).
  split; [exact Hin|].
  pose proof (sessions_stay_with_tenant (λ _, "") (λ _ _, Raise (OtherException "not hosted"))
    (λ _ _, Raise (OtherException "not hosted")) (λ provider : string, Ok provider) Concrete.settings
    (modules ([] : memory)) [] requests (mkClock 3 3 3 3) "acme" "sess_1" answer eq_refl) as Hs.
  destruct (create (modules ([] : memory)) requests) as [rs m'].
  apply Hs; [apply (NoDup_nil_2 (A := string * string))|done|apply NoDup_singleton|]. done.
Defined.

(** Over the SQLite store, a session of another tenant makes the request fail inside, where a session that
    does not exist is not found. *)
Lemma foreign_session_fails_inside :
  let m := (create_all (SessionStore0 := SqliteSessions.sqlite_session_store (λ l, l)) (λ _, "")
     (λ _ _, Raise (OtherException "not hosted")) (λ _ _, Raise (OtherException "not hosted"))
     (λ provider : string, Ok provider) Concrete.settings
     (modules (SQLiteSessionStore.empty "exo.db")) requests).2 in
  let status (tenant sid : string) :=
    match (get_session_route (SessionStore0 := SqliteSessions.sqlite_session_store (λ l, l)) (λ _, "")
       (λ _ _, Raise (OtherException "not hosted")) (λ _ _, Raise (OtherException "not hosted"))
       Concrete.settings (Some m) (mkClock 3 3 3 3) tenant sid).1 with
    | Reply _ => 200 | HTTPException code _ => code end in
  status "acme" "sess_1" = 200 ∧ status "beta" "sess_1" = 500 ∧ status "beta" "sess_2" = 404.
Proof. vm_compute. done. Qed.
End ManagementExamples.
