(* ===== verification/Orchestrator.v ===== *)
(** * The orchestrator of a turn

    Models src/core/orchestrator.py and src/modules/turn_execution/service.py's
    [adapter_manages_progress_events].  A turn reads the provider adapter's events one by
    one; a tool intent is decided by the policy and goes to the executor or back to the
    provider, other events are passed on.  The provider adapter is not part of the
    repository: it is a state [S] with the functions the orchestrator calls
    ([next_event] is the generator of [run_turn], [submit_tool_results] also returns what
    its generator yields).  A [step] is what the turn does in order: an event it yields, a
    result it submits, an effect of the executor. *)

From S2P Require Import Prelude PyValue AgentRegistry.
From S2P Require Export ToolExecutor.

(** [AgentCapabilityTag(s)] *)
Definition capability_of (s : string) : option AgentCapabilityTag :=
  List.find (λ c, capability_value c =?s s)
    [TOOL_USE; WORKFLOW_ROUTING; REVIEW; RETRIEVAL; MCP; BACKGROUND_EXECUTION].

Record handoff_error := mkHandoffError { he_code : string; he_message : string }.

Section handoff.
Variable float_repr : Q → string.

(** [_parse_required_capability] *)
Definition parse_required_capability (raw_capability : pyval)
    : option AgentCapabilityTag + handoff_error :=
  match raw_capability with
  | PNone | PStr EmptyString => inl None
  | _ =>
      match capability_of (py_str float_repr raw_capability) with
      | Some c => inl (Some c)
      | None =>
          inr (mkHandoffError "ORCH_HANDOFF_REQUIRED_CAPABILITY_INVALID"
                 ("Unknown required_capability '" +:+ py_str float_repr raw_capability +:+ "'."))
      end
  end.

(** [_apply_agent_handoff]: the error it returns, if any, and the context after it. *)
Definition apply_agent_handoff (agent_registry : option AgentRegistry) (context : pydict)
    : res (option handoff_error * pydict) :=
  let error code message := Ok (Some (mkHandoffError code message), context) in
  match agent_registry with
  | None => Ok (None, context)
  | Some r =>
      match dict_get context "handoff" PNone with
      | PNone => Ok (None, context)
      | PDict raw_handoff =>
          let source_agent_id := py_strip (dict_get_str float_repr context "agent_id" "") in
          if negb (py_bool source_agent_id) then
            error "ORCH_HANDOFF_SOURCE_AGENT_MISSING" "agent_id is required for handoff routing."
          else
            match AgentRegistry.get r source_agent_id with
            | Raise _ =>
                error "ORCH_HANDOFF_SOURCE_AGENT_UNKNOWN"
                  ("Unknown handoff source agent '" +:+ source_agent_id +:+ "'.")
            | Ok _ =>
                match parse_required_capability (dict_get raw_handoff "required_capability" PNone) with
                | inr e => Ok (Some e, context)
                | inl required_capability =>
                    let target_role := py_strip (dict_get_str float_repr raw_handoff "target_role" "") in
                    let! target :=
                      resolve_handoff_target r source_agent_id target_role required_capability in
                    match target with
                    | None =>
                        if py_bool target_role then
                          error "ORCH_HANDOFF_ROUTE_DENIED"
                            ("No allowed handoff route from '" +:+ source_agent_id +:+ "' to role '"
                             +:+ target_role +:+ "' (including fallback candidates).")
                        else
                          error "ORCH_HANDOFF_TARGET_NOT_FOUND"
                            "No handoff target available for requested constraints."
                    | Some target =>
                        let context := od_set "agent_id" (PStr (agent_id target)) context in
                        let! metadata := dict_of (dict_get context "session_metadata" (PDict [])) in
                        let handoff := PDict
                          [("source_agent_id", PStr source_agent_id);
                           ("target_agent_id", PStr (agent_id target));
                           ("target_role", PStr (role target));
                           ("reason", PStr (dict_get_str float_repr raw_handoff "reason" "unspecified"))] in
                        Ok (None, od_set "session_metadata"
                                    (PDict (od_set "handoff" handoff metadata)) context)
                    end
                end
            end
      | _ => error "ORCH_HANDOFF_INVALID" "handoff must be an object when provided."
      end
  end.
End handoff.

Section turn.
Context `{!ToolIO} `{!RuntimeEvents} {Handler : Type}.
Variable float_repr : Q → string.
Variable run_handler : Handler → Z → pydict → res pyval.
Variable clock : nat → string.

(** The provider adapter. *)
Context {S : Type}.
Variable start_session : S → string → pyval → S.
Variable next_event : S → option (RuntimeEvent * S).
Variable submit_tool_results : S → string → string → list ToolResult → list RuntimeEvent * S.
Variable should_force_deterministic : S → bool.

(** What the executor's adapter says of its progress events, when there is one:
    [manages_progress_events()] and [drain_progress_events(call_id)]. *)
Variable manages_progress_events : bool.
Variable drain_progress_events : string → pyval.

Inductive step :=
| Yield (e : RuntimeEvent)
| Submit (run_id : string) (r : ToolResult)
| Effect (f : effect).

Notation executor := (DeterministicToolExecutor (Handler := Handler)).

Definition apply_output_policy (p : PolicyMiddleware) (e : RuntimeEvent) : RuntimeEvent :=
  if is_output e then set_payload e (before_output p (ev_payload e)) else e.

Definition terminal_tool_state (s : ToolStatus) : string :=
  if bool_decide (s = SUCCESS) then "completed"
  else if bool_decide (s = TIMEOUT) then "timed_out"
  else if bool_decide (s = CANCELLED) then "cancelled"
  else "failed".

(** [adapter_manages_progress_events] *)
Definition adapter_manages_progress_events (x : executor) : bool :=
  match hosted_adapter x with None => false | Some _ => manages_progress_events end.

Definition rendered_progress (call_id : string) (d : pydict) : progress :=
  let field k dflt := dict_get_str float_repr d k dflt in
  mkProgress (field "call_id" call_id) (field "tool_name" "") (field "state" "")
    (field "tool_status" "") (field "error_code" "") (field "job_id" "") (field "lease_token" "")
    (field "lease_expires_at_epoch" "") (field "claim_attempt" "").

(** [_emit_adapter_progress] *)
Definition emit_adapter_progress (session_id run_id correlation_id call_id : string)
    : list RuntimeEvent :=
  match drain_progress_events call_id with
  | PList raw_events =>
      (λ d, tool_progress session_id run_id (rendered_progress call_id d) correlation_id)
        <$> omap as_dict raw_events
  | _ => []
  end.

(** Submitting a result, and the events that follow. *)
Definition submit_result (p : PolicyMiddleware) (s : S) (session_id run_id : string)
    (r : ToolResult) : list step * S :=
  let '(follow_ups, s) := submit_tool_results s session_id run_id [r] in
  (Submit run_id r :: ((λ e, Yield (apply_output_policy p e)) <$> follow_ups), s).

(** One iteration of the loop of [run_turn]. *)
Definition handle_event (p : PolicyMiddleware) (x : executor) (session_id : string) (s : S)
    (e : RuntimeEvent) : list step * S :=
  match (if is_tool_intent e then ev_tool_call e else None) with
  | None => ([Yield (apply_output_policy p e)], s)
  | Some call =>
      let run_id := ev_run_id e in
      let correlation_id := ev_correlation_id e in
      let use_adapter_progress := adapter_manages_progress_events x in
      let progress state tool_status error_code :=
        Yield (tool_progress session_id run_id
                 (mkProgress (tc_call_id call) (tc_tool_name call) state tool_status error_code
                    "" "" "" "") correlation_id) in
      let unless_adapter l := if use_adapter_progress then [] else l in
      let queued := unless_adapter [progress "queued" "" ""] in
      let decision := before_tool_call p call in
      if negb (bool_decide (pd_decision decision = ALLOW)) then
        let '(blocked, effects) := execute float_repr run_handler clock x call in
        let '(submitted, s) := submit_result p s session_id run_id blocked in
        (queued ++ (Effect <$> effects) ++
         unless_adapter
           [progress "failed" (status_value (tr_status blocked)) (error_code (tr_error blocked))] ++
         submitted, s)
      else if bool_decide (select_execution_mode call (should_force_deterministic s) decision
                           = DETERMINISTIC) then
        let '(result, effects) := execute float_repr run_handler clock x call in
        let adapter_progress :=
          if use_adapter_progress
          then Yield <$> emit_adapter_progress session_id run_id correlation_id (tc_call_id call)
          else [] in
        let finished :=
          match adapter_progress with
          | [] =>
              [progress (terminal_tool_state (tr_status result))
                 (status_value (tr_status result)) (error_code (tr_error result))]
          | _ => []
          end in
        let '(submitted, s) := submit_result p s session_id run_id result in
        (queued ++ unless_adapter [progress "running" "" ""] ++ (Effect <$> effects) ++
         adapter_progress ++ finished ++ submitted, s)
      else if impactful call then
        let blocked := blocked_result call "PROVIDER_NATIVE_STATE_CHANGE_BLOCKED"
          "Provider-native execution is blocked for state-changing or high-impact operations; a deterministic envelope is enforced." in
        let '(submitted, s) := submit_result p s session_id run_id blocked in
        (queued ++ submitted, s)
      else (queued ++ [Yield (apply_output_policy p e)], s)
  end.

(** The loop of [run_turn], for at most [n] events of the adapter. *)
Fixpoint turn_loop (n : nat) (p : PolicyMiddleware) (x : executor) (session_id : string) (s : S)
    : list step * S :=
  match n with
  | O => ([], s)
  | Datatypes.S n =>
      match next_event s with
      | None => ([], s)
      | Some (e, s) =>
          let '(steps, s) := handle_event p x session_id s e in
          let '(steps', s) := turn_loop n p x session_id s in
          (steps ++ steps', s)
      end
  end.

Definition run_turn (n : nat) (agent_registry : option AgentRegistry) (p : PolicyMiddleware)
    (x : executor) (session_id : string) (context : pydict) (s : S) : res (list step * S) :=
  let! handoff := apply_agent_handoff float_repr agent_registry context in
  let '(error, context) := handoff in
  match error with
  | Some e =>
      Ok ([Yield (error_event session_id (dict_get_str float_repr context "run_id" "run_unknown")
                    (he_code e) (he_message e)
                    (dict_get_str float_repr context "correlation_id" ""))], s)
  | None =>
      let s := start_session s session_id (dict_get context "session_metadata" PNone) in
      Ok (turn_loop n p x session_id s)
  end.
End turn.
