(* ===== verification/OrchestratorFacts.v ===== *)
(** * What a turn guarantees

    Every tool intent a turn reads is decided by the policy and ends in exactly one
    place; handlers run only for allowed calls of registered tools; a handoff redirects
    the turn to an eligible agent and changes nothing else. *)

From S2P Require Import Prelude PyValue AgentRegistry ToolExecutorFacts Orchestrator.

(** ** Tool intents *)

Section turn.
Context `{!ToolIO} `{!RuntimeEvents} {Handler S : Type}.
Context (float_repr : Q → string) (run_handler : Handler → Z → pydict → res pyval).
Context (clock : nat → string).
Context (start_session : S → string → pyval → S) (next_event : S → option (RuntimeEvent * S)).
Context (submit_tool_results : S → string → string → list ToolResult → list RuntimeEvent * S).
Context (should_force_deterministic : S → bool).
Context (manages_progress_events : bool) (drain_progress_events : string → pyval).
Notation handle_event := (handle_event float_repr run_handler clock submit_tool_results
  should_force_deterministic manages_progress_events drain_progress_events).
Notation turn_loop := (turn_loop float_repr run_handler clock next_event submit_tool_results
  should_force_deterministic manages_progress_events drain_progress_events).
Notation run_turn := (run_turn float_repr run_handler clock start_session next_event
  submit_tool_results should_force_deterministic manages_progress_events drain_progress_events).
Notation execute := (execute float_repr run_handler clock).
Implicit Types (p : PolicyMiddleware) (x : DeterministicToolExecutor (Handler := Handler)).

Definition submitted (l : list step) : list ToolResult :=
  omap (λ st, match st with Submit _ r => Some r | _ => None end) l.
Definition effects_of (l : list step) : list effect :=
  omap (λ st, match st with Effect f => Some f | _ => None end) l.

Lemma submitted_app l l' : submitted (l ++ l') = submitted l ++ submitted l'.
Proof. apply omap_app. Qed.
Lemma effects_of_app l l' : effects_of (l ++ l') = effects_of l ++ effects_of l'.
Proof. apply omap_app. Qed.

(** Steps that only yield events. *)
Definition quiet (l : list step) : Prop := Forall (λ st, ∃ e, st = Yield e) l.

Lemma quiet_nothing l : quiet l → submitted l = [] ∧ effects_of l = [].
Proof. induction 1 as [|st l [e ->] _ [IH1 IH2]]; [done|]. by cbn. Qed.

Lemma effects_of_effects fs : effects_of (Effect <$> fs) = fs ∧ submitted (Effect <$> fs) = [].
Proof. induction fs as [|f fs [IH1 IH2]]; [done|]. cbn. by split; [f_equal|]. Qed.

Lemma quiet_yields {B} (f : B → RuntimeEvent) l : quiet ((λ b, Yield (f b)) <$> l).
Proof. induction l as [|b l IH]; constructor; [by eexists|done]. Qed.

Lemma quiet_if (b : bool) e : quiet (if b then [] else [Yield e]).
Proof. destruct b; repeat constructor. by eexists. Qed.

Lemma submit_result_steps p s session run_id r :
  submitted (submit_result submit_tool_results p s session run_id r).1 = [r] ∧
  effects_of (submit_result submit_tool_results p s session run_id r).1 = [].
Proof.
  unfold submit_result. destruct (submit_tool_results s session run_id [r]) as [fs s']. cbn [fst].
  destruct (quiet_nothing _ (quiet_yields (apply_output_policy p) fs)) as [H1 H2].
  split; [exact (f_equal (cons r) H1)|exact H2].
Qed.

Lemma submitted_around a fs b sub :
  quiet a → quiet b →
  submitted (a ++ (Effect <$> fs) ++ b ++ sub) = submitted sub ∧
  effects_of (a ++ (Effect <$> fs) ++ b ++ sub) = fs ++ effects_of sub.
Proof.
  intros [Ha Ha']%quiet_nothing [Hb Hb']%quiet_nothing. destruct (effects_of_effects fs) as [Hf Hf'].
  by rewrite !submitted_app, !effects_of_app, Ha, Ha', Hb, Hb', Hf, Hf'.
Qed.

(** Executing a call between yields, and submitting its result. *)
Lemma executed_between p x s session run_id call a b :
  quiet a → quiet b →
  let steps := a ++ (Effect <$> (execute x call).2) ++ b ++
    (submit_result submit_tool_results p s session run_id (execute x call).1).1 in
  submitted steps = [(execute x call).1] ∧ effects_of steps = (execute x call).2.
Proof.
  intros Ha Hb. cbv zeta. destruct (submitted_around a (execute x call).2 b
    (submit_result submit_tool_results p s session run_id (execute x call).1).1 Ha Hb) as [-> ->].
  destruct (submit_result_steps p s session run_id (execute x call).1) as [-> ->].
  by rewrite app_nil_r.
Qed.

(** Where an event of the provider ends. *)
Lemma event_cases p x session s e :
  let steps := (handle_event p x session s e).1 in
  match (if is_tool_intent e then ev_tool_call e else None) with
  | None => steps = [Yield (apply_output_policy p e)]
  | Some call =>
      (submitted steps = [(execute x call).1] ∧ effects_of steps = (execute x call).2) ∨
      (submitted steps = [] ∧ effects_of steps = [] ∧ last steps = Some (Yield e) ∧
       pd_decision (before_tool_call p call) = ALLOW ∧ impactful call = false ∧
       should_force_deterministic s = false)
  end.
Proof.
  cbv zeta. unfold Orchestrator.handle_event.
  destruct (if is_tool_intent e then ev_tool_call e else None) as [call|] eqn:Ec; [|done].
  assert (is_tool_intent e = true) as Hi by (by destruct (is_tool_intent e)). clear Ec.
  case_bool_decide as Ha; cbn [negb].
  - case_bool_decide as Hm.
    + left. rewrite (surjective_pairing (execute x call)).
      rewrite (surjective_pairing (submit_result _ p s session _ _)). cbn [fst snd].
      set (ap := if adapter_manages_progress_events _ x then Yield <$> _ else _).
      assert (quiet ap) as Hap.
      { unfold ap. destruct (adapter_manages_progress_events _ x); [exact (quiet_yields id _)|constructor]. }
      set (fin := match ap with [] => _ | _ => _ end).
      assert (quiet fin) as Hfin by (unfold fin; destruct ap; repeat constructor; by eexists).
      rewrite (app_assoc ap), app_assoc.
      apply executed_between; apply Forall_app; split; first [done | apply quiet_if].
    + right. destruct (mode_deterministic_unless call _ _ Hm) as (_ & Himp & Hf & _). rewrite Himp. cbn.
      assert (apply_output_policy p e = e) as ->.
      { unfold apply_output_policy. by rewrite (intent_not_output e Hi). }
      destruct (adapter_manages_progress_events manages_progress_events x); done.
  - left. rewrite (surjective_pairing (execute x call)).
    rewrite (surjective_pairing (submit_result _ p s session _ _)). cbn [fst snd].
    apply executed_between; apply quiet_if.
Qed.

(** Whatever the policy, the executor and the provider adapter do, a tool intent that a
    turn reads ends in exactly one of two ways: the executor handles the call and its
    result, the only one, is submitted; or the event is handed back to the provider, nothing
    is executed or submitted, and then the policy allows the call, it is neither state
    changing nor high impact, and the provider's capabilities are certain.  Any other
    event is only passed on. *)
Theorem tool_intents_governed p x session s e :
  let steps := (handle_event p x session s e).1 in
  match (if is_tool_intent e then ev_tool_call e else None) with
  | None => steps = [Yield (apply_output_policy p e)]
  | Some call =>
      (submitted steps = [(execute x call).1] ∧ effects_of steps = (execute x call).2) ∨
      (submitted steps = [] ∧ effects_of steps = [] ∧ last steps = Some (Yield e) ∧
       pd_decision (before_tool_call p call) = ALLOW ∧ impactful call = false ∧
       should_force_deterministic s = false)
  end.
Proof. apply event_cases. Qed.

(** What a step of a turn may do under the policy of its executor: run the handler of a
    registered tool for a call that the policy allows, and submit what the executor
    answers to some call. *)
Definition governed x (st : step) : Prop :=
  match st with
  | Effect (RunHandler t kwargs) =>
      ∃ call d, pd_decision (before_tool_call (policy x) call) = ALLOW ∧
        valid_call call kwargs ∧ od_get (tc_tool_name call) (registry x) = Some d ∧
        ToolRegistry.name d = t
  | Submit _ r => ∃ call, r = (execute x call).1
  | _ => True
  end.

Lemma governed_effects x call : Forall (governed x) (Effect <$> (execute x call).2).
Proof.
  apply Forall_forall. intros st (f & -> & Hf)%list_elem_of_fmap.
  destruct f as [c|t kwargs|ev m]; try done. cbn.
  assert (runs (execute x call).2 ≠ []) as Hne.
  { intros E. assert (RunHandler t kwargs ∈ runs (execute x call).2) as Hin
      by (by apply list_elem_of_filter). rewrite E in Hin. by apply elem_of_nil in Hin. }
  apply execute_idle in Hne as (kw & d & n & Hr).
  destruct (execute_runnable float_repr run_handler clock x call kw d n Hr) as (k & r & keys & _ & _ & E & _).
  assert (RunHandler t kwargs ∈ runs (execute x call).2) as Hin by (by apply list_elem_of_filter).
  rewrite E in Hin. apply elem_of_replicate in Hin as [[= -> ->] _].
  destruct Hr. by exists call, d.
Qed.

(** Steps that submit at most [r] and have at most the effects [fs]. *)
Lemma governed_steps x (l : list step) :
  (∀ r, r ∈ submitted l → ∃ call, r = (execute x call).1) →
  (∀ f, f ∈ effects_of l → governed x (Effect f)) →
  Forall (governed x) l.
Proof.
  intros Hs Hf. apply Forall_forall. intros [e|run_id r|f] Hin; [done| |].
  - apply Hs. unfold submitted. apply list_elem_of_omap. by eexists.
  - apply Hf. unfold effects_of. apply list_elem_of_omap. by eexists.
Qed.

Lemma handle_event_governed x session s e :
  Forall (governed x) (handle_event (policy x) x session s e).1.
Proof.
  pose proof (event_cases (policy x) x session s e) as Hev. cbv zeta in Hev.
  destruct (if is_tool_intent e then ev_tool_call e else None) as [call|].
  - destruct Hev as [[Hs Hf]|(Hs & Hf & _)]; apply governed_steps; rewrite ?Hs, ?Hf.
    + intros r ->%list_elem_of_singleton. by exists call.
    + intros f Hin. pose proof (governed_effects x call) as Hg. rewrite Forall_forall in Hg.
      apply Hg. by apply list_elem_of_fmap_2.
    + by intros r ?%elem_of_nil.
    + by intros f ?%elem_of_nil.
  - rewrite Hev. by repeat constructor.
Qed.

Lemma turn_loop_governed n x session s : Forall (governed x) (turn_loop n (policy x) x session s).1.
Proof.
  revert s. induction n as [|n IH]; intros s; cbn [Orchestrator.turn_loop]; [constructor|].
  destruct (next_event s) as [[e s']|]; [|constructor].
  pose proof (handle_event_governed x session s' e) as Hh.
  destruct (handle_event (policy x) x session s' e) as [steps s1]. specialize (IH s1).
  destruct (turn_loop n (policy x) x session s1) as [steps' s2].
  by apply Forall_app.
Qed.

(** C4: In a whole turn, however many events the provider sends and whatever it does with the
    results, a handler runs only for a well-formed call of a registered tool that the
    executor's policy allows, and every result given to the provider is what the
    executor answered to a call.  A refused handoff yields one error event and no more. *)
Theorem turn_is_governed n agents x session context s :
  match run_turn n agents (policy x) x session context s with
  | Ok (steps, _) =>
      Forall (governed x) steps ∧
      (∀ e context', apply_agent_handoff float_repr agents context = Ok (Some e, context') →
         ∃ f, steps = [Yield f] ∧ is_tool_intent f = false)
  | Raise _ => ∃ e, apply_agent_handoff float_repr agents context = Raise e
  end.
Proof.
  unfold Orchestrator.run_turn.
  destruct (apply_agent_handoff float_repr agents context) as [[[e|] context']|e]; cbn [res_bind].
  - split; [by repeat constructor|]. intros. eexists. split; [done|]. apply error_no_intent.
  - pose proof (turn_loop_governed n x session
      (start_session s session (dict_get context' "session_metadata" PNone))) as Hg.
    destruct (turn_loop n (policy x) x session _) as [steps s']. by split.
  - by eexists.
Qed.

(** A tool intent among the events that follow a submitted result is yielded as it is: no
    policy decides it and no executor runs it. *)
Lemma follow_up_intents_not_governed p s session run_id r f fs s' :
  submit_tool_results s session run_id [r] = (fs, s') → f ∈ fs → is_tool_intent f = true →
  Yield f ∈ (submit_result submit_tool_results p s session run_id r).1.
Proof.
  intros E Hin Hi. unfold submit_result. rewrite E. apply list_elem_of_further.
  apply list_elem_of_fmap. exists f. split; [|done]. unfold apply_output_policy.
  by rewrite (intent_not_output f Hi).
Qed.
End turn.

(** ** Handoffs *)

Section handoff.
Context (float_repr : Q → string).
Notation apply_agent_handoff := (apply_agent_handoff float_repr).

(** The metadata of the session, when the context has any. *)
Definition has_metadata (context metadata : pydict) : Prop :=
  dict_get context "session_metadata" (PDict []) = PDict metadata.

(** A handoff was asked for and granted: [source] hands over to [target]. *)
Record granted (r : AgentRegistry) (context metadata context' : pydict)
    (raw : pydict) (source target : AgentSpec) : Prop := {
  gr_asked : dict_get context "handoff" PNone = PDict raw;
  gr_source : od_get (py_strip (dict_get_str float_repr context "agent_id" "")) (agents r) = Some source;
  gr_target : ∃ required,
    parse_required_capability float_repr (dict_get raw "required_capability" PNone) = inl required ∧
    handoff_answer r source (py_strip (dict_get_str float_repr raw "target_role" "")) required (Some target);
  gr_agent : od_get "agent_id" context' = Some (PStr (agent_id target));
  gr_metadata : ∃ metadata', od_get "session_metadata" context' = Some (PDict metadata') ∧
    od_get "handoff" metadata' = Some (PDict
      [("source_agent_id", PStr (agent_id source)); ("target_agent_id", PStr (agent_id target));
       ("target_role", PStr (role target));
       ("reason", PStr (dict_get_str float_repr raw "reason" "unspecified"))]) ∧
    ∀ k, k ≠ "handoff" → od_get k metadata' = od_get k metadata;
  gr_rest : ∀ k, k ≠ "agent_id" → k ≠ "session_metadata" → od_get k context' = od_get k context;
}.

(** A handoff was asked for and there is nobody to hand over to. *)
Definition nobody (r : AgentRegistry) (context raw : pydict) : Prop :=
  ∃ source required,
    od_get (py_strip (dict_get_str float_repr context "agent_id" "")) (agents r) = Some source ∧
    parse_required_capability float_repr (dict_get raw "required_capability" PNone) = inl required ∧
    handoff_answer r source (py_strip (dict_get_str float_repr raw "target_role" "")) required None.

(** Asked for, but not well formed. *)
Definition malformed (r : AgentRegistry) (context : pydict) : Prop :=
  (∀ raw, dict_get context "handoff" PNone ≠ PDict raw) ∨
  od_get (py_strip (dict_get_str float_repr context "agent_id" "")) (agents r) = None ∨
  py_strip (dict_get_str float_repr context "agent_id" "") = "" ∨
  ∃ raw e, dict_get context "handoff" PNone = PDict raw ∧
    parse_required_capability float_repr (dict_get raw "required_capability" PNone) = inr e.

(** With a reachable registry and well-formed session metadata, routing a turn never
    raises.  Without a handoff the context stays as it is.  A handoff is either granted:
    the context's agent becomes the eligible target the registry chooses, the session
    metadata records the handoff, and nothing else changes; or refused: the context
    stays as it is, and then the request is malformed, its source unknown, or there is
    no eligible target. *)
Theorem handoff_routes_to_eligible_agents r context metadata :
  reachable r → has_metadata context metadata →
  ∃ error context', apply_agent_handoff (Some r) context = Ok (error, context') ∧
    match error with
    | None =>
        dict_get context "handoff" PNone = PNone ∧ context' = context ∨
        ∃ raw source target, granted r context metadata context' raw source target
    | Some _ =>
        context' = context ∧
        (malformed r context ∨
         ∃ raw, dict_get context "handoff" PNone = PDict raw ∧ nobody r context raw)
    end.
Proof.
  intros Hr%registry_reachable_wf Hm. unfold Orchestrator.apply_agent_handoff.
  destruct (dict_get context "handoff" PNone) as [|b|z|q|str|l|raw] eqn:Eh;
    try (do 2 eexists; split; [reflexivity|]; split; [done|]; left; left; congruence).
  { do 2 eexists. split; [reflexivity|]. by left. }
  set (source_id := py_strip _). destruct (py_bool source_id) eqn:Es; cbn [negb].
  2: { apply py_bool_false in Es. do 2 eexists. split; [reflexivity|]. split; [done|].
       left. right; right; left. exact Es. }
  unfold AgentRegistry.get. destruct (od_get source_id (agents r)) as [source|] eqn:Eg.
  2: { do 2 eexists. split; [reflexivity|]. split; [done|]. left. right; left. exact Eg. }
  destruct (parse_required_capability float_repr _) as [required|e] eqn:Ep.
  2: { do 2 eexists. split; [reflexivity|]. split; [done|]. left. right; right; right. eauto. }
  assert (agent_id source = source_id) as Hid by apply (w_id _ Hr _ _ Eg).
  destruct (resolve_handoff_target_spec r source (py_strip (dict_get_str float_repr raw "target_role" ""))
    required Hr) as (answer & Ea & Hans); [by rewrite Hid|].
  rewrite Hid in Ea. rewrite Ea. cbn [res_bind]. destruct answer as [target|].
  - unfold dict_get. rewrite od_get_set_ne by done. fold (dict_get context "session_metadata" (PDict [])).
    unfold has_metadata in Hm. rewrite Hm. cbn [dict_of res_bind]. do 2 eexists. split; [reflexivity|].
    right. exists raw, source, target. split; [done|done|by eauto| | |].
    + rewrite od_get_set_ne by done. apply od_get_set.
    + eexists. split; [apply od_get_set|]. split; [rewrite od_get_set, Hid; reflexivity|].
      intros k Hk. by rewrite od_get_set_ne.
    + intros k H1 H2. by rewrite !od_get_set_ne.
  - assert (nobody r context raw) as Hn by (by exists source, required).
    destruct (py_bool (py_strip _)); do 2 eexists; (split; [reflexivity|]; split; [done|]; right; eauto).
Qed.
End handoff.

(** The planner of the example registry hands over to the reviewer. *)
Lemma handoff_routes_to_eligible_agents_witness :
  let context :=
    [("agent_id", PStr "a1");
     ("handoff", PDict [("target_role", PStr "coder"); ("required_capability", PStr "review")])] in
  ∃ error context',
    Orchestrator.apply_agent_handoff (λ _, "") (Some demo_registry) context = Ok (error, context') ∧
    error = None ∧ od_get "agent_id" context' = Some (PStr "a3").
Proof.
  cbv zeta. set (context := [_; _]).
  destruct (handoff_routes_to_eligible_agents (λ _, "") demo_registry context [] demo_registry_reachable
    eq_refl) as (error & context' & E & _).
  exists error, context'. split; [exact E|]. vm_compute in E. injection E as <- <-. by vm_compute.
Defined.
