(* ===== verification/SignedPlugins.v ===== *)
(** * Signed ingress plugins

    Models src/policies/ingress_signed_plugins.py: declarative rules, the manifest and
    its signature over the canonical JSON of the plugin, the registry of built-in
    plugins and the lifecycle guard.  [re_search pattern text ignore_case] stands for
    [re.search(...) is not None], [sha256_hex] for the hexadecimal SHA-256 digest.
    [IngressCustomRule] of src/policies/ingress_profiles.py has the same fields and
    the same [matches], and is the same record here. *)

From S2P Require Import Prelude PyValue.

Record IngressRule := mkRule {
  rule_id : string;
  rl_action : string;
  match_type : string;
  patterns : list string;
  rl_reason_code : string;
  rl_message : string;
  case_sensitive : bool;
  rl_review_channel : string;
}.

Record Manifest := mkManifest {
  plugin_ref : string;
  version : string;
  compatible_core_major : Z;
  signer : string;
  signature_sha256 : string;
  sandbox_mode : string;
}.

Record SignedIngressPlugin := mkPlugin { manifest : Manifest; rules : list IngressRule }.

Definition to_payload (r : IngressRule) : pydict :=
  [("rule_id", PStr (rule_id r)); ("action", PStr (rl_action r));
   ("match_type", PStr (match_type r)); ("patterns", PList (PStr <$> patterns r));
   ("reason_code", PStr (rl_reason_code r)); ("message", PStr (rl_message r));
   ("case_sensitive", PBool (case_sensitive r)); ("review_channel", PStr (rl_review_channel r))].

(** ** [json.dumps(..., sort_keys=True, separators=(",", ":"))] *)

Definition json_char (c : ascii) : string :=
  let n := Ascii.nat_of_ascii c in
  let backslash s := String (Ascii.ascii_of_nat 92) s in
  if (n =? 34)%nat || (n =? 92)%nat then backslash (String c EmptyString)
  else if (n =? 10)%nat then backslash "n" else if (n =? 13)%nat then backslash "r"
  else if (n =? 9)%nat then backslash "t" else if (n =? 8)%nat then backslash "b"
  else if (n =? 12)%nat then backslash "f"
  else if (n <? 32)%nat
  then backslash ("u00" +:+ String (hex_digit (n / 16)) (String (hex_digit (n mod 16)) EmptyString))
  else String c EmptyString.

Fixpoint json_body (s : string) : string :=
  match s with
  | EmptyString => EmptyString
  | String c s => json_char c +:+ json_body s
  end.

Definition json_string (s : string) : string :=
  let quote := String (Ascii.ascii_of_nat 34) EmptyString in
  quote +:+ json_body s +:+ quote.

Definition key_le : relation (string * string) := λ p q, String.le p.1 q.1.

#[export] Instance key_le_dec : RelDecision key_le.
Proof. intros p q. unfold key_le. apply _. Defined.

Section signed_plugins.
Variable float_repr : Q → string.
Variable re_search : string → string → bool → bool.
Variable sha256_hex : string → string.

Fixpoint json_dumps (v : pyval) : string :=
  match v with
  | PNone => "null"
  | PBool true => "true"
  | PBool false => "false"
  | PInt z => str_of_Z z
  | PFloat q => float_repr q
  | PStr s => json_string s
  | PList l => "[" +:+ join "," (map json_dumps l) +:+ "]"
  | PDict d =>
      "{" +:+ join "," ((λ p, json_string p.1 +:+ ":" +:+ p.2) <$>
        sort_by key_le (map (λ p, (p.1, json_dumps p.2)) d)) +:+ "}"
  end.

(** *** [matches] *)

Definition pattern_matches (r : IngressRule) (user_input pattern : string) : bool :=
  if match_type r =?s "contains_any" then
    let haystack := if case_sensitive r then user_input else py_lower user_input in
    let needle := if case_sensitive r then pattern else py_lower pattern in
    py_bool needle && py_in needle haystack
  else re_search pattern user_input (negb (case_sensitive r)).

Definition matches (r : IngressRule) (user_input : string) : bool :=
  existsb (pattern_matches r user_input) (patterns r).

(** *** The signature *)

Definition signature_payload (p : SignedIngressPlugin) : pydict :=
  let m := manifest p in
  [("plugin_ref", PStr (plugin_ref m)); ("version", PStr (version m));
   ("compatible_core_major", PInt (compatible_core_major m)); ("signer", PStr (signer m));
   ("sandbox_mode", PStr (sandbox_mode m));
   ("rules", PList (PDict <$> (to_payload <$> rules p)))].

Definition signature_digest (payload : pydict) : string := sha256_hex (json_dumps (PDict payload)).

Definition declarative_only : string := "declarative_rules_only".
Definition trusted_signers : list string := ["exo-security"].

Definition validate_compatibility (p : SignedIngressPlugin) (core_major : Z) : res unit :=
  guard! compatible_core_major (manifest p) =? core_major
    else ValueError ("INGRESS_SIGNED_PLUGIN_INCOMPATIBLE_CORE: plugin '"
      +:+ plugin_ref (manifest p) +:+ "' requires core major "
      +:+ str_of_Z (compatible_core_major (manifest p)) +:+ ", expected "
      +:+ str_of_Z core_major +:+ ".") in
  Ok tt.

Definition validate_signer (p : SignedIngressPlugin) : res unit :=
  let s := py_strip (signer (manifest p)) in
  guard! bool_decide (s ∈ trusted_signers)
    else ValueError ("INGRESS_SIGNED_PLUGIN_SIGNER_UNTRUSTED: plugin signer '"
      +:+ s +:+ "' is not trusted.") in
  Ok tt.

Definition validate_sandbox_policy (p : SignedIngressPlugin) : res unit :=
  let mode := py_lower (py_strip (sandbox_mode (manifest p))) in
  guard! mode =?s declarative_only
    else ValueError ("INGRESS_SIGNED_PLUGIN_SANDBOX_POLICY_INVALID: plugin '"
      +:+ plugin_ref (manifest p) +:+ "' uses unsupported sandbox_mode '" +:+ mode +:+ "'.") in
  Ok tt.

Definition validate_signature (p : SignedIngressPlugin) : res unit :=
  guard! signature_digest (signature_payload p)
           =?s py_lower (py_strip (signature_sha256 (manifest p)))
    else ValueError ("INGRESS_SIGNED_PLUGIN_SIGNATURE_INVALID: signature check failed for plugin '"
      +:+ plugin_ref (manifest p) +:+ "'.") in
  Ok tt.

(** *** The built-in plugins *)

Definition build_signed_plugin (ref version : string) (core_major : Z) (signer : string)
    (rules : list IngressRule) : SignedIngressPlugin :=
  let unsigned := mkPlugin (mkManifest ref version core_major signer "" declarative_only) rules in
  mkPlugin (mkManifest ref version core_major signer
              (signature_digest (signature_payload unsigned)) declarative_only) rules.

Definition signed_ingress_plugins : list SignedIngressPlugin :=
  [build_signed_plugin "plugin://trusted/signed-v1" "1.0.0" 1 "exo-security"
     [mkRule "signed-deny-credential-exfil" "deny" "contains_any"
        ["private key"; "seed phrase"; "api key"]
        "INGRESS_SIGNED_PLUGIN_DENY_CREDENTIAL_EXFIL"
        "Signed ingress plugin denied potential credential exfiltration pattern."
        false "security-review";
      mkRule "signed-escalate-system-bypass" "escalate" "regex_any"
        ["(?:disable|bypass)\s+(?:all\s+)?(?:security|safety)\s+(?:controls|checks)"]
        "INGRESS_SIGNED_PLUGIN_ESCALATE_BYPASS_PATTERN"
        "Signed ingress plugin escalated potential security-control bypass request."
        false "security-review"];
   build_signed_plugin "plugin://trusted/signed-v2" "1.1.0" 1 "exo-security"
     [mkRule "signed-v2-deny-secret-export" "deny" "contains_any"
        ["export secrets"; "dump credentials"; "reveal private key"]
        "INGRESS_SIGNED_PLUGIN_DENY_SECRET_EXPORT"
        "Signed ingress plugin denied explicit secret export intent." false "security-review";
      mkRule "signed-v2-escalate-data-exfil" "escalate" "regex_any"
        ["(?:exfiltrate|extract)\s+(?:customer|tenant|internal)\s+data"]
        "INGRESS_SIGNED_PLUGIN_ESCALATE_DATA_EXFIL"
        "Signed ingress plugin escalated potential data exfiltration intent."
        false "security-review"]].

Definition plugin_registry : list (string * SignedIngressPlugin) :=
  foldl (λ d p, od_set (plugin_ref (manifest p)) p d) [] signed_ingress_plugins.

Definition list_signed_ingress_plugins : list string :=
  sort_by String.le (od_keys plugin_registry).

Definition resolve_from (registry : list (string * SignedIngressPlugin)) (ref : string)
    (core_major : Z) : res SignedIngressPlugin :=
  let normalized := py_strip ref in
  guard! py_bool normalized
    else ValueError "INGRESS_SIGNED_PLUGIN_REF_INVALID: signed_gate_plugin_ref cannot be empty." in
  match od_get normalized registry with
  | None =>
      Raise (ValueError ("INGRESS_SIGNED_PLUGIN_UNKNOWN: unknown signed_gate_plugin_ref '"
        +:+ normalized +:+ "'. Allowed refs: ["
        +:+ py_or (join ", " (sort_by String.le (od_keys registry))) "<none>" +:+ "]."))
  | Some plugin =>
      let! _ := validate_compatibility plugin core_major in
      let! _ := validate_signer plugin in
      let! _ := validate_sandbox_policy plugin in
      let! _ := validate_signature plugin in
      Ok plugin
  end.

Definition resolve_signed_ingress_plugin (ref : string) (core_major : Z)
    : res SignedIngressPlugin :=
  resolve_from plugin_registry ref core_major.

(** [str(plugin_ref or "").strip()] *)
Definition resolve_optional_signed_ingress_plugin (ref : pyval) (core_major : Z)
    : res (option SignedIngressPlugin) :=
  let normalized := py_strip (if truthy ref then py_str float_repr ref else "") in
  if negb (py_bool normalized) then Ok None
  else let! plugin := resolve_signed_ingress_plugin normalized core_major in Ok (Some plugin).

(** *** Lifecycle *)

Definition lifecycle_action (previous new : string) : string :=
  if previous =?s new then "none"
  else if negb (py_bool previous) && py_bool new then "load"
  else if py_bool previous && negb (py_bool new) then "unload"
  else "reload".

Definition classify_lifecycle_transition (previous_ref new_ref : string) (active_run_count : Z)
    : res (string * string * string) :=
  let previous := py_strip previous_ref in
  let new := py_strip new_ref in
  let action := lifecycle_action previous new in
  guard! negb (bool_decide (action ∈ ["unload"; "reload"]) && (0 <? active_run_count))
    else ValueError "INGRESS_SIGNED_PLUGIN_LIFECYCLE_BLOCKED_ACTIVE_RUNS: cannot unload or reload signed ingress plugin while active runs exist." in
  Ok (action, previous, new).

(** What a plugin passes to be used. *)
Definition trusted (p : SignedIngressPlugin) (core_major : Z) : Prop :=
  compatible_core_major (manifest p) = core_major ∧
  py_strip (signer (manifest p)) ∈ trusted_signers ∧
  py_lower (py_strip (sandbox_mode (manifest p))) = declarative_only ∧
  signature_digest (signature_payload p) = py_lower (py_strip (signature_sha256 (manifest p))).

Lemma resolve_from_ok registry ref core_major p :
  resolve_from registry ref core_major = Ok p ↔
  py_strip ref ≠ "" ∧ od_get (py_strip ref) registry = Some p ∧ trusted p core_major.
Proof.
  clear re_search. unfold resolve_from, trusted, validate_compatibility, validate_signer, validate_sandbox_policy,
    validate_signature.
  destruct (py_bool (py_strip ref)) eqn:E.
  2:{ apply py_bool_false in E. naive_solver. }
  apply py_bool_true in E. destruct (od_get (py_strip ref) registry) as [q|]; [|naive_solver].
  destruct (Z.eqb_spec (compatible_core_major (manifest q)) core_major); [|naive_solver].
  case_bool_decide; [|naive_solver]. case_bool_decide; [|naive_solver].
  case_bool_decide; naive_solver.
Qed.
End signed_plugins.

(** A plugin reference resolves only to the plugin registered under it, and only if
    it declares the running core version, a trusted signer and the declarative sandbox,
    and its signature is the digest of its manifest and rules: two plugins that both
    resolve with the same signature have the same payload unless the digest collides.
    With a digest in lower-case hexadecimal every built-in plugin resolves, and nothing
    else does. *)
Theorem plugin_resolution_sound float_repr sha256_hex registry ref core_major p :
  (∀ q r, resolve_from float_repr sha256_hex registry ref core_major = Ok q →
     resolve_from float_repr sha256_hex registry r core_major = Ok p →
     py_lower (py_strip (signature_sha256 (manifest q))) =
       py_lower (py_strip (signature_sha256 (manifest p))) →
     sha256_hex (json_dumps float_repr (PDict (signature_payload q))) =
       sha256_hex (json_dumps float_repr (PDict (signature_payload p)))) ∧
  (resolve_from float_repr sha256_hex registry ref core_major = Ok p ↔
   py_strip ref ≠ "" ∧ od_get (py_strip ref) registry = Some p ∧
   trusted float_repr sha256_hex p core_major) ∧
  ((∀ s, py_lower (py_strip (sha256_hex s)) = sha256_hex s) →
   is_ok (resolve_signed_ingress_plugin float_repr sha256_hex ref 1) = true ↔
   py_strip ref ∈ ["plugin://trusted/signed-v1"; "plugin://trusted/signed-v2"]).
Proof.
  split_and!.
  - intros q r (_ & _ & _ & _ & _ & Hq)%resolve_from_ok (_ & _ & _ & _ & _ & Hp)%resolve_from_ok E.
    unfold signature_digest in *. congruence.
  - exact (resolve_from_ok _ _ _ _ _ _).
  - intros Hlow. unfold resolve_signed_ingress_plugin.
    split.
    + intros H. destruct (resolve_from _ _ _ _ _) as [q|] eqn:E; [|done].
      apply resolve_from_ok in E as (_ & Hg & _). apply od_get_elem in Hg.
      change (py_strip ref ∈ od_keys (plugin_registry float_repr sha256_hex)).
      apply list_elem_of_fmap. by exists (py_strip ref, q).
    + intros Hin.
      assert (∃ q, resolve_from float_repr sha256_hex (plugin_registry float_repr sha256_hex) ref 1 = Ok q)
        as [q ->]; [|done].
      setoid_rewrite resolve_from_ok.
      apply elem_of_cons in Hin as [->|[->|?%elem_of_nil]%elem_of_cons]; [| |done];
        eexists; (split; [done|]); (split; [reflexivity|]);
        (split_and!; [done|apply list_elem_of_here|done|]); symmetry; apply Hlow.
Qed.

(** Loading a plugin, or keeping the same one, is always allowed; removing or
    replacing one is refused exactly while runs are active. *)
Theorem plugin_lifecycle_guard previous new active :
  match classify_lifecycle_transition previous new active with
  | Ok (action, p, n) =>
      p = py_strip previous ∧ n = py_strip new ∧
      (action = "none" ↔ p = n) ∧ (action = "load" ↔ p = "" ∧ n ≠ "") ∧
      (action = "unload" ↔ p ≠ "" ∧ n = "") ∧ (action = "reload" ↔ p ≠ "" ∧ n ≠ "" ∧ p ≠ n) ∧
      (0 < active → p = n ∨ p = "")
  | Raise _ => 0 < active ∧ py_strip previous ≠ "" ∧ py_strip previous ≠ py_strip new
  end.
Proof.
  unfold classify_lifecycle_transition, lifecycle_action.
  generalize (py_strip previous) (py_strip new). intros p n. unfold py_bool.
  destruct (decide (p = n)) as [->|Hne].
  { rewrite (bool_decide_true (n = n)) by done. cbn. split_and!; try done; naive_solver. }
  rewrite (bool_decide_false (p = n)) by done.
  destruct (decide (p = "")) as [->|Hp]; destruct (decide (n = "")) as [->|Hn]; try done;
    rewrite ?(bool_decide_true (_ = "")) by done; rewrite ?(bool_decide_false (_ = "")) by done;
    cbn; destruct (Z.ltb_spec 0 active); cbn; split_and!; try done; try lia; naive_solver.
Qed.

(** With a constant digest the first built-in plugin resolves, white space around its
    reference ignored. *)
Lemma plugin_resolution_sound_witness :
  is_ok (resolve_signed_ingress_plugin (λ _, "") (λ _, "ab") " plugin://trusted/signed-v1 " 1) = true.
Proof.
  destruct (plugin_resolution_sound (λ _, "") (λ _, "ab") [] " plugin://trusted/signed-v1 " 1
    (build_signed_plugin (λ _, "") (λ _, "ab") "r" "1" 1 "exo-security" [])) as (_ & _ & H).
  apply H; [reflexivity|]. refine (bool_decide_unpack _ _). vm_compute. exact I.
Defined.
