(* ===== verification/ToolPackages.v ===== *)
(** * Packages of tenant tools

    Models src/tools/user_tool_contracts.py, src/policies/tool_package_policy.py,
    src/tools/artifact_store.py and src/tools/version_projection.py: what an upload may
    contain, where its files are kept and how they are signed, and how a stored version becomes
    a tool of the registry.  The file system is a dictionary from paths to contents.
    Parameters: SHA-256 and HMAC as hex digests, importing a module and executing a source
    ([import_attr], [exec_attr]), [ast.parse] ([parse_source]). *)

From S2P Require Import Prelude PyValue SignedPlugins ToolIO ToolExecutor SqliteStores.

(** ** src/tools/user_tool_contracts.py *)

Record NormalizedToolPayload := mkPayload {
  np_name : string;
  np_description : string;
  np_parameters_schema : pydict;
}.

Record SandboxLimits := mkSandboxLimits {
  cpu_budget_ms : option Z;
  memory_budget_mb : option Z;
}.

Definition default_handler_ref (tool_name : string) : string := "src.tools.user_tools:" +:+ tool_name.

Definition sandbox_limits_key : string := "sandbox_limits".

(** [_parse_optional_int]; [int()] raises TypeError and ValueError only on these values. *)
Definition parse_optional_int (payload : pydict) (key : string) (minimum maximum : Z) : res (option Z) :=
  match dict_get payload key PNone with
  | PNone => Ok None
  | value =>
      match int_of value with
      | Raise _ => Raise (ValueError (key +:+ " must be an integer"))
      | Ok parsed =>
          guard! (minimum <=? parsed) && (parsed <=? maximum)
            else ValueError (key +:+ " must be between " +:+ str_of_Z minimum +:+ " and "
                             +:+ str_of_Z maximum) in
          Ok (Some parsed)
      end
  end.

Definition parse_sandbox_limits (metadata : pydict) : res (option SandboxLimits) :=
  match dict_get metadata sandbox_limits_key PNone with
  | PNone => Ok None
  | PDict raw_limits =>
      let! cpu := parse_optional_int raw_limits "cpu_budget_ms" 10 600000 in
      let! memory := parse_optional_int raw_limits "memory_budget_mb" 16 4096 in
      Ok (Some (mkSandboxLimits cpu memory))
  | _ => Raise (ValueError "metadata.sandbox_limits must be an object")
  end.

Definition optional_int (z : option Z) : pyval := match z with Some z => PInt z | None => PNone end.

Definition normalize_manifest_metadata (metadata : pydict) : res pydict :=
  let! limits := parse_sandbox_limits metadata in
  Ok (match limits with
      | None => metadata
      | Some l =>
          od_set sandbox_limits_key
            (PDict [("cpu_budget_ms", optional_int (cpu_budget_ms l));
                    ("memory_budget_mb", optional_int (memory_budget_mb l))]) metadata
      end).

Section contracts.
Variable float_repr : Q → string.
Variable sha256_hex : string → string.

Definition normalize_tool_payload (payload : pydict) : res NormalizedToolPayload :=
  let! candidate :=
    match dict_get payload "type" PNone with
    | PStr "function" =>
        match dict_get payload "function" PNone with
        | PDict fn => Ok fn
        | _ => Raise (ValueError "Function wrapper payload must include object field 'function'.")
        end
    | _ => Ok payload
    end in
  let schema :=
    match dict_get candidate "parameters" PNone with PDict p => p | _ => candidate end in
  Ok (mkPayload (py_strip (dict_get_str float_repr candidate "name" ""))
        (py_strip (dict_get_str float_repr candidate "description" "")) schema).

Definition schema_fingerprint (parameters_schema : pydict) : string :=
  sha256_hex (json_dumps float_repr (PDict parameters_schema)).
End contracts.

(** ** src/policies/tool_package_policy.py *)

Record LimitsSettings := mkLimitsSettings {
  max_tool_upload_size_bytes : Z;
  allowed_tool_dependency_prefixes : list string;
}.

Definition char (n : nat) : string := String (Ascii.ascii_of_nat n) EmptyString.

Definition dangerous_requirement_tokens : list string :=
  ["git+"; "http://"; "https://"; "file:"; "../"; ".." +:+ char 92; "--index-url";
   "--extra-index-url"; "-e "].

Definition dangerous_package_ref_tokens : list string :=
  [".."; char 0; char 10; char 13; "file://"].

Record ToolPackagePolicyDecision := mkPackageDecision {
  pk_allowed : bool;
  pk_errors : list string;
  pk_warnings : list string;
}.

(** [A-Za-z0-9_.-] *)
Definition name_char (c : ascii) : bool :=
  ascii_alnum c || bool_decide (c = Ascii.ascii_of_nat 95) || bool_decide (c = Ascii.ascii_of_nat 46)
  || bool_decide (c = Ascii.ascii_of_nat 45).

Fixpoint take_while (p : ascii → bool) (s : string) : string :=
  match s with
  | EmptyString => EmptyString
  | String c s' => if p c then String c (take_while p s') else EmptyString
  end.

(** [_extract_requirement_name]: the match of [^\s*([A-Za-z0-9_.-]+)], or "" *)
Definition extract_requirement_name (requirement : string) : string :=
  py_lower (py_strip (take_while name_char (lstrip requirement))).

(** The first blocked token that occurs *)
Definition blocked_token (tokens : list string) (text : string) : option string :=
  List.find (λ token, py_in token text) tokens.

(** The errors of one requirement *)
Definition requirement_errors (allowlist : list string) (raw : string) : list string :=
  let requirement := py_strip raw in
  let blocked :=
    match blocked_token dangerous_requirement_tokens (py_lower requirement) with
    | Some token => ["requirement '" +:+ requirement +:+ "' uses blocked token '" +:+ token +:+ "'"]
    | None => []
    end in
  let name := extract_requirement_name requirement in
  if negb (py_bool name) then
    blocked ++ ["requirement '" +:+ requirement +:+ "' has invalid package name format"]
  else if negb (bool_decide (allowlist = [])) && negb (existsb (startswith name) allowlist) then
    blocked ++ ["requirement '" +:+ requirement +:+ "' is not allowed by dependency allowlist"]
  else blocked.

Definition validate_tool_package_upload (manifest : ToolPackageManifest) (package_ref : string)
    (artifact_size_bytes : Z) (limits : LimitsSettings) : ToolPackagePolicyDecision :=
  let size := Z.max artifact_size_bytes 0 in
  let too_large := max_tool_upload_size_bytes limits <? size in
  let warnings :=
    if size <=? 0
    then ["artifact_size_bytes was not provided; size gate cannot be fully enforced"] else [] in
  let size_errors :=
    if negb (size <=? 0) && too_large then
      ["artifact_size_bytes exceeds max_tool_upload_size_bytes (" +:+ str_of_Z size +:+ " > "
       +:+ str_of_Z (max_tool_upload_size_bytes limits) +:+ ")"]
    else [] in
  let normalized_ref := py_strip package_ref in
  let length_errors :=
    if 2048 <? py_len normalized_ref then ["package_ref length exceeds 2048 characters"] else [] in
  let ref_errors :=
    match blocked_token dangerous_package_ref_tokens (py_lower normalized_ref) with
    | Some token => ["package_ref contains blocked token '" +:+ token +:+ "'"]
    | None => []
    end in
  let allowlist :=
    (λ item, py_lower (py_strip item)) <$>
      filter (λ item, py_strip item ≠ "") (allowed_tool_dependency_prefixes limits) in
  let errors :=
    size_errors ++ length_errors ++ ref_errors ++
    concat (requirement_errors allowlist <$> mf_requirements manifest) in
  mkPackageDecision (bool_decide (errors = [])) errors warnings.

(** ** src/tools/artifact_store.py *)

Definition handler_path_key : string := "artifact_handler_path".
Definition manifest_path_key : string := "artifact_manifest_path".
Definition bundle_dir_key : string := "artifact_bundle_dir".
Definition bundle_hash_key : string := "artifact_bundle_hash_sha256".
Definition bundle_signature_key : string := "artifact_bundle_signature_hmac_sha256".
Definition signature_version_key : string := "artifact_signature_version".
Definition default_signature_version : string := "v1".

(** [re.sub(r"[^A-Za-z0-9_.-]+", "_", s)]; [run] says whether a run of other characters is open. *)
Fixpoint squash (run : bool) (s : string) : string :=
  match s with
  | EmptyString => EmptyString
  | String c s' =>
      if name_char c then String c (squash false s')
      else if run then squash true s' else String (Ascii.ascii_of_nat 95) (squash true s')
  end.

(** [s.strip("._")] *)
Definition dot_or_underscore (c : ascii) : bool :=
  bool_decide (c = Ascii.ascii_of_nat 46) || bool_decide (c = Ascii.ascii_of_nat 95).

Fixpoint drop_while (p : ascii → bool) (s : string) : string :=
  match s with
  | EmptyString => EmptyString
  | String c s' => if p c then drop_while p s' else s
  end.

Fixpoint drop_while_end (p : ascii → bool) (s : string) : string :=
  match s with
  | EmptyString => EmptyString
  | String c s' =>
      match drop_while_end p s' with
      | EmptyString => if p c then EmptyString else String c EmptyString
      | r => String c r
      end
  end.

Definition safe_segment (value : string) : string :=
  py_or (drop_while_end dot_or_underscore
           (drop_while dot_or_underscore (squash false (py_strip value)))) "unknown".

Definition newline : string := char 10.

Definition render_tool_yaml (m : ToolPackageManifest) : string :=
  let req_lines :=
    match mf_requirements m with
    | [] => "  []"
    | l => join newline ((λ item, "  - " +:+ item) <$> l)
    end in
  "tool_name: " +:+ mf_tool_name m +:+ newline +:+
  "version: " +:+ mf_version m +:+ newline +:+
  "description: " +:+ mf_description m +:+ newline +:+
  "entry_file: " +:+ mf_entry_file m +:+ newline +:+
  "entrypoint: " +:+ mf_entrypoint m +:+ newline +:+
  "risk_tier: " +:+ mf_risk_tier m +:+ newline +:+
  "timeout_ms: " +:+ str_of_Z (mf_timeout_ms m) +:+ newline +:+
  "requirements:" +:+ newline +:+ req_lines +:+ newline.

Notation files := (list (string * string)) (only parsing).

Record ToolArtifactBundlePaths := mkBundlePaths {
  bundle_dir : string;
  manifest_path : string;
  handler_path : string;
}.

(** The paths of the bundle of a version below [root_dir] *)
Definition bundle_paths (root_dir tenant_id tool_name version : string) : ToolArtifactBundlePaths :=
  let dir := root_dir +:+ "/" +:+ safe_segment tenant_id +:+ "/" +:+ safe_segment tool_name
               +:+ "/" +:+ safe_segment version in
  mkBundlePaths dir (dir +:+ "/tool.yaml") (dir +:+ "/handler.py").

Definition persist_bundle (fs : files) (root_dir tenant_id tool_name version tool_yaml handler_py : string)
    : files * ToolArtifactBundlePaths :=
  let p := bundle_paths root_dir tenant_id tool_name version in
  (od_set (handler_path p) handler_py (od_set (manifest_path p) tool_yaml fs), p).

(** [Path(path).read_text()] *)
Definition read_text (fs : files) (path : string) : res string :=
  match od_get path fs with
  | Some s => Ok s
  | None => Raise (OtherException ("[Errno 2] No such file or directory: " +:+ repr_str path))
  end.

Section artifacts.
Variable sha256_hex : string → string.
Variable hmac_sha256_hex : string → string → string.

Definition compute_bundle_hash (tool_yaml handler_py : string) : string :=
  sha256_hex (tool_yaml +:+ newline +:+ "---" +:+ newline +:+ handler_py).

Definition compute_bundle_hash_from_files (fs : files) (manifest_path handler_path : string) : res string :=
  let! tool_yaml := read_text fs manifest_path in
  let! handler_py := read_text fs handler_path in
  Ok (compute_bundle_hash tool_yaml handler_py).

Definition sign_bundle_hash (bundle_hash signing_secret version : string) : res string :=
  guard! py_bool (py_strip signing_secret)
    else ValueError "tool artifact signing secret is required" in
  Ok (hmac_sha256_hex signing_secret (version +:+ ":" +:+ bundle_hash)).

Definition verify_bundle_signature (bundle_hash signature signing_secret version : string) : res bool :=
  let! expected := sign_bundle_hash bundle_hash signing_secret version in
  Ok (expected =?s signature).
End artifacts.

(** ** src/tools/version_projection.py *)

Definition inline_source_key : string := "inline_handler_source".

(** Looking a function up in a module that is imported, or in the globals of a source that is
    executed. *)
Inductive attr_outcome (Handler : Type) :=
| ModuleNotFound (message : string)
| LoadRaises (e : exn)
| NoAttribute
| NotCallable
| Found (h : Handler).
Arguments ModuleNotFound {Handler} message.
Arguments LoadRaises {Handler} e.
Arguments NoAttribute {Handler}.
Arguments NotCallable {Handler}.
Arguments Found {Handler} h.

(** [ast.parse]: the functions defined at the top level, or the message of a SyntaxError *)
Inductive parse_outcome := ParsedFunctions (names : list string) | SyntaxFailure (message : string).

(** [s.rsplit(":", 1)] of a text with a colon *)
Fixpoint rsplit_colon (s : string) : option (string * string) :=
  match s with
  | EmptyString => None
  | String c s' =>
      match rsplit_colon s' with
      | Some (a, b) => Some (String c a, b)
      | None => if bool_decide (c = Ascii.ascii_of_nat 58) then Some (EmptyString, s') else None
      end
  end.

Section projection.
Context `{!ToolIO} {Handler : Type}.
Variable float_repr : Q → string.
Variable sha256_hex : string → string.
Variable hmac_sha256_hex : string → string → string.
Variable import_attr : string → string → attr_outcome Handler.
(** The source, the name of the module it is executed as and the attribute *)
Variable exec_attr : string → string → string → attr_outcome Handler.
Variable parse_source : string → parse_outcome.

Notation ToolDescriptor := (ToolDescriptor Handler).

Definition metadata_text (r : ToolVersionRecord) (key : string) : string :=
  py_strip (dict_get_str float_repr (mf_metadata (vr_manifest r)) key "").

Definition validate_inline_handler_source (source entrypoint : string) : res unit :=
  match parse_source source with
  | SyntaxFailure message =>
      Raise (ValueError ("inline handler source has invalid syntax: " +:+ message))
  | ParsedFunctions names =>
      guard! bool_decide (entrypoint ∈ names)
        else ValueError ("inline handler source does not define entrypoint function '"
                         +:+ entrypoint +:+ "'") in
      Ok tt
  end.

Definition entrypoint_of (r : ToolVersionRecord) : string :=
  py_or (py_strip (py_or (mf_entrypoint (vr_manifest r)) "run")) "run".

Fixpoint replace_dashes (s : string) : string :=
  match s with
  | EmptyString => EmptyString
  | String c s' =>
      String (if bool_decide (c = Ascii.ascii_of_nat 45) then Ascii.ascii_of_nat 95 else c)
        (replace_dashes s')
  end.

Definition version_name (r : ToolVersionRecord) : string :=
  vr_tenant_id r +:+ "_" +:+ vr_tool_name r +:+ "_" +:+ vr_version r.

Definition resolve_inline_handler (r : ToolVersionRecord) : res Handler :=
  let source := metadata_text r inline_source_key in
  guard! py_bool source else ValueError "inline handler source is empty" in
  let entrypoint := entrypoint_of r in
  let! _ := validate_inline_handler_source source entrypoint in
  match exec_attr source (replace_dashes ("tenant_tool_" +:+ version_name r)) entrypoint with
  | LoadRaises e => Raise e
  | ModuleNotFound message => Raise (OtherException message)
  | NoAttribute =>
      Raise (ValueError ("inline handler source does not expose entrypoint '" +:+ entrypoint
                         +:+ "' at runtime"))
  | NotCallable => Raise (ValueError ("inline entrypoint '" +:+ entrypoint +:+ "' is not callable"))
  | Found h => Ok h
  end.

(** [re.sub(r"[^A-Za-z0-9_]+", "_", s)] *)
Fixpoint module_suffix (run : bool) (s : string) : string :=
  match s with
  | EmptyString => EmptyString
  | String c s' =>
      if ascii_alnum c || bool_decide (c = Ascii.ascii_of_nat 95) then String c (module_suffix false s')
      else if run then module_suffix true s'
      else String (Ascii.ascii_of_nat 95) (module_suffix true s')
  end.

Definition resolve_artifact_handler (fs : files) (r : ToolVersionRecord) : res Handler :=
  let path := metadata_text r handler_path_key in
  guard! py_bool path else ValueError "artifact handler path is empty" in
  match od_get path fs with
  | None => Raise (ValueError ("artifact handler file does not exist: " +:+ path))
  | Some source =>
      let entrypoint := entrypoint_of r in
      match exec_attr source ("tenant_tool_artifact_" +:+ module_suffix false (version_name r))
              entrypoint with
      | LoadRaises e => Raise e
      | ModuleNotFound message => Raise (OtherException message)
      | NoAttribute =>
          Raise (ValueError ("artifact handler does not define entrypoint '" +:+ entrypoint +:+ "'"))
      | NotCallable => Raise (ValueError ("artifact entrypoint '" +:+ entrypoint +:+ "' is not callable"))
      | Found h => Ok h
      end
  end.

Definition verify_artifact_bundle_integrity (fs : files) (r : ToolVersionRecord) (signing_secret : string)
    : res unit :=
  let manifest_path := metadata_text r manifest_path_key in
  let handler_path := metadata_text r handler_path_key in
  let expected_hash := metadata_text r bundle_hash_key in
  let expected_signature := metadata_text r bundle_signature_key in
  let signature_version := py_or (metadata_text r signature_version_key) default_signature_version in
  guard! py_bool manifest_path && py_bool handler_path
    else ValueError "artifact integrity verification requires persisted manifest and handler paths" in
  guard! py_bool expected_hash else ValueError "artifact integrity metadata is missing bundle hash" in
  guard! py_bool expected_signature
    else ValueError "artifact integrity metadata is missing bundle signature" in
  let! actual_hash := compute_bundle_hash_from_files sha256_hex fs manifest_path handler_path in
  guard! actual_hash =?s expected_hash
    else ValueError "artifact integrity verification failed: bundle hash mismatch" in
  let! valid :=
    verify_bundle_signature hmac_sha256_hex actual_hash expected_signature signing_secret
      signature_version in
  guard! valid else ValueError "artifact integrity verification failed: invalid bundle signature" in
  Ok tt.

Definition resolve_version_handler_ref (r : ToolVersionRecord) : string :=
  py_or (metadata_text r "handler_ref") (default_handler_ref (vr_tool_name r)).

(** [_resolve_handler], the same function in api/routers/tools.py and in version_projection.py *)
Definition resolve_handler (handler_ref : string) : res Handler :=
  match rsplit_colon handler_ref with
  | None =>
      Raise (ValueError ("Invalid handler_ref format '" +:+ handler_ref
                         +:+ "'. Expected 'module.path:function_name'."))
  | Some (module_path, func_name) =>
      match import_attr module_path func_name with
      | ModuleNotFound message =>
          Raise (ValueError ("Module '" +:+ module_path +:+ "' not found: " +:+ message))
      | LoadRaises e => Raise e
      | NoAttribute =>
          Raise (ValueError ("Function '" +:+ func_name +:+ "' not found in module '"
                             +:+ module_path +:+ "'"))
      | NotCallable =>
          Raise (ValueError ("'" +:+ func_name +:+ "' in '" +:+ module_path +:+ "' is not callable"))
      | Found h => Ok h
      end
  end.

(** The handler of a version, its reference and the metadata that marks where it came from *)
Definition version_handler (fs : files) (r : ToolVersionRecord) (signing_secret : string)
    : res (Handler * string * pydict) :=
  let metadata := mf_metadata (vr_manifest r) in
  if py_bool (metadata_text r handler_path_key) then
    let! _ := verify_artifact_bundle_integrity fs r signing_secret in
    let! h := resolve_artifact_handler fs r in
    Ok (h, "artifact://uploaded-bundle", od_set "artifact_handler" (PBool true) metadata)
  else if py_bool (metadata_text r inline_source_key) then
    let! h := resolve_inline_handler r in
    Ok (h, "inline://uploaded-source", od_set "inline_handler" (PBool true) metadata)
  else
    let handler_ref := resolve_version_handler_ref r in
    let! h := resolve_handler handler_ref in
    Ok (h, handler_ref, metadata).

Definition descriptor_from_tool_version (fs : files) (r : ToolVersionRecord) (signing_secret : string)
    : res ToolDescriptor :=
  guard! negb (bool_decide (tv_state <$> vr_validation r = Some INVALID))
    else ValueError ("Tool version '" +:+ vr_tool_name r +:+ "@" +:+ vr_version r
                     +:+ "' is invalid and cannot be activated.") in
  let! '(handler, handler_ref, metadata) := version_handler fs r signing_secret in
  let m := vr_manifest r in
  let metadata :=
    dict_update metadata
      [("handler_ref", PStr handler_ref); ("tool_version", PStr (vr_version r));
       ("package_ref", PStr (vr_package_ref r)); ("entry_file", PStr (mf_entry_file m));
       ("entrypoint", PStr (mf_entrypoint m)); ("source", PStr "tool_version_store")] in
  let risk := default LOW (RiskTier_of (py_lower (py_or (mf_risk_tier m) "low"))) in
  Ok (mkDescriptor (vr_tool_name r) handler risk
        (truthy (dict_get metadata "is_state_changing" (PBool true)))
        (Z.max (mf_timeout_ms m) 1) (mf_description m) (mf_input_schema m) metadata).
End projection.
