(* ===== verification/ToolPackagesFacts.v ===== *)
(** * Theorems about packages of tenant tools

    What the package policy accepts, stated as a condition on the upload, and what has to be
    true of the files of a bundle before its code becomes a tool. *)

From S2P Require Import Prelude PyValue SignedPlugins ToolIO Sample ToolExecutor SqliteStores ToolPackages.

(** ** The package policy *)

(** No token of the list occurs in the text. *)
Definition free_of (tokens : list string) (text : string) : Prop :=
  ∀ token, token ∈ tokens → py_in token text = false.

Definition allowlist_of (limits : LimitsSettings) : list string :=
  (λ item, py_lower (py_strip item)) <$>
    filter (λ item, py_strip item ≠ "") (allowed_tool_dependency_prefixes limits).

Definition requirement_ok (allowlist : list string) (requirement : string) : Prop :=
  let name := extract_requirement_name (py_strip requirement) in
  free_of dangerous_requirement_tokens (py_lower (py_strip requirement)) ∧ name ≠ "" ∧
  (allowlist = [] ∨ ∃ prefix, prefix ∈ allowlist ∧ startswith name prefix = true).

Definition package_ok (m : ToolPackageManifest) (package_ref : string) (size : Z) (limits : LimitsSettings)
    : Prop :=
  (0 < size → size ≤ max_tool_upload_size_bytes limits) ∧
  py_len (py_strip package_ref) ≤ 2048 ∧
  free_of dangerous_package_ref_tokens (py_lower (py_strip package_ref)) ∧
  ∀ requirement, requirement ∈ mf_requirements m → requirement_ok (allowlist_of limits) requirement.

Lemma blocked_token_None tokens text : blocked_token tokens text = None ↔ free_of tokens text.
Proof.
  unfold blocked_token, free_of. split.
  - intros Hf token Hin. eapply find_none in Hf; [exact Hf|]. by apply list_elem_of_In.
  - intros Hfree. destruct (List.find _ tokens) as [token|] eqn:E; [|done].
    apply find_some in E as [Hin%list_elem_of_In Ht]. by rewrite Hfree in Ht.
Qed.

Lemma requirement_errors_nil allowlist requirement :
  requirement_errors allowlist requirement = [] ↔ requirement_ok allowlist requirement.
Proof.
  unfold requirement_errors, requirement_ok. rewrite <- blocked_token_None.
  set (name := extract_requirement_name _).
  destruct (blocked_token _ _) as [token|].
  { split; [|by intros [[=] _]]. destruct (negb (py_bool name)); [done|]. by destruct (_ && _). }
  destruct (decide (name = "")) as [->|Hne].
  { split; [done|]. by intros (_ & ? & _). }
  assert (py_bool name = true) as -> by by destruct name. cbn [negb].
  destruct (decide (allowlist = [])) as [->|Ha]; [by split; [|]; auto|].
  rewrite bool_decide_false by done. cbn [negb andb].
  destruct (existsb (startswith name) allowlist) eqn:Ex; cbn [negb app].
  - apply existsb_exists in Ex as (prefix & Hin%list_elem_of_In & Hp). split; [|done].
    intros _. split; [done|]. split; [done|]. right. by exists prefix.
  - split; [done|]. intros (_ & _ & [|(prefix & Hin & Hp)]); [done|].
    assert (existsb (startswith name) allowlist = true); [|congruence].
    apply existsb_exists. exists prefix. split; [by apply list_elem_of_In|done].
Qed.

Lemma concat_nil {A B} (f : A → list B) l : concat (f <$> l) = [] ↔ ∀ x, x ∈ l → f x = [].
Proof.
  induction l as [|x l IH]; [split; [by intros _ ? ?%elem_of_nil|done]|].
  rewrite fmap_cons. cbn. split.
  - intros [Hx Hl]%app_nil y [->|Hy]%elem_of_cons; [done|]. by apply IH.
  - intros Hall. rewrite (Hall x) by by left. cbn. apply IH. intros y Hy. apply Hall. by right.
Qed.

Lemma package_errors_nil m package_ref size limits :
  pk_errors (validate_tool_package_upload m package_ref size limits) = [] ↔
  package_ok m package_ref size limits.
Proof.
  unfold validate_tool_package_upload, package_ok. cbn [pk_errors]. fold (allowlist_of limits).
  assert (∀ (b : bool) (e : string), (if b then [e] else []) = [] ↔ b = false) as Hif
    by (intros [] e; split; done).
  assert (∀ l1 l2 : list string, l1 ++ l2 = [] ↔ l1 = [] ∧ l2 = []) as Happ.
  { intros l1 l2. split; [apply app_nil|]. by intros [-> ->]. }
  rewrite !Happ, !Hif, concat_nil, <- blocked_token_None.
  assert ((negb (Z.max size 0 <=? 0) && (max_tool_upload_size_bytes limits <? Z.max size 0)) = false ↔
    (0 < size → size ≤ max_tool_upload_size_bytes limits)) as -> by lia.
  assert (2048 <? py_len (py_strip package_ref) = false ↔ py_len (py_strip package_ref) ≤ 2048) as -> by lia.
  assert (match blocked_token dangerous_package_ref_tokens (py_lower (py_strip package_ref)) with
          | Some token => ["package_ref contains blocked token '" +:+ token +:+ "'"]
          | None => []
          end = [] ↔ blocked_token dangerous_package_ref_tokens (py_lower (py_strip package_ref)) = None) as ->.
  { by destruct (blocked_token _ _). }
  assert ((∀ r, r ∈ mf_requirements m → requirement_errors (allowlist_of limits) r = []) ↔
    ∀ r, r ∈ mf_requirements m → requirement_ok (allowlist_of limits) r) as ->; [|done].
  split; intros Hall r Hr; by apply requirement_errors_nil, Hall.
Qed.

(** The package policy accepts exactly the uploads that respect the size limit, have a short
    package reference without a blocked token, and require only packages with a name that the
    allowlist admits and no blocked token; an accepted upload has no errors. *)
Theorem package_policy_exact m package_ref size limits :
  let d := validate_tool_package_upload m package_ref size limits in
  (pk_allowed d = true ↔ package_ok m package_ref size limits) ∧
  (pk_errors d = [] ↔ pk_allowed d = true).
Proof.
  intros d. rewrite <- package_errors_nil. fold d.
  assert (pk_allowed d = true ↔ pk_errors d = []) as ->; [|done].
  unfold d, validate_tool_package_upload. cbn [pk_allowed pk_errors]. apply bool_decide_eq_true.
Qed.

(** ** The files of a bundle *)

Section integrity.
Context `{!ToolIO} {Handler : Type}.
Variable float_repr : Q → string.
Variable sha256_hex : string → string.
Variable hmac_sha256_hex : string → string → string.
Variable import_attr : string → string → attr_outcome Handler.
Variable exec_attr : string → string → string → attr_outcome Handler.
Variable parse_source : string → parse_outcome.
Notation text := (metadata_text float_repr).
Notation verify := (verify_artifact_bundle_integrity float_repr sha256_hex hmac_sha256_hex).
Notation descriptor_of :=
  (descriptor_from_tool_version float_repr sha256_hex hmac_sha256_hex import_attr exec_attr parse_source).

(** The files that the version names are there, hash to the recorded hash, and the recorded
    signature is that of the hash under the secret. *)
Definition signed_files (fs : list (string * string)) (r : ToolVersionRecord) (secret yaml handler : string)
    : Prop :=
  od_get (text r manifest_path_key) fs = Some yaml ∧
  od_get (text r handler_path_key) fs = Some handler ∧
  text r bundle_hash_key = compute_bundle_hash sha256_hex yaml handler ∧
  py_strip secret ≠ "" ∧
  text r bundle_signature_key =
    hmac_sha256_hex secret (py_or (text r signature_version_key) default_signature_version
                            +:+ ":" +:+ text r bundle_hash_key).

Lemma py_bool_nonempty s : py_bool s = true ↔ s ≠ "".
Proof. by destruct s. Qed.

Local Ltac refuted :=
  split; [done|]; intros (? & ? & ? & ? & ? & ? & ? & ? & ? & Hsecret & ?);
  try (apply py_bool_nonempty in Hsecret); congruence.

Lemma verify_spec fs r secret :
  verify fs r secret = Ok tt ↔
  text r manifest_path_key ≠ "" ∧ text r handler_path_key ≠ "" ∧ text r bundle_hash_key ≠ "" ∧
  text r bundle_signature_key ≠ "" ∧ ∃ yaml handler, signed_files fs r secret yaml handler.
Proof.
  unfold verify_artifact_bundle_integrity, signed_files, compute_bundle_hash_from_files, read_text,
    verify_bundle_signature, sign_bundle_hash.
  rewrite <- !py_bool_nonempty. set (mp := text r manifest_path_key). set (hp := text r handler_path_key).
  destruct (py_bool mp), (py_bool hp); cbn [andb]; try refuted.
  destruct (py_bool (text r bundle_hash_key)); [|refuted].
  destruct (py_bool (text r bundle_signature_key)); [|refuted].
  destruct (od_get mp fs) as [yaml|]; cbn [res_bind]; [|refuted].
  destruct (od_get hp fs) as [handler|]; cbn [res_bind]; [|refuted].
  case_bool_decide as Hh; [|refuted].
  destruct (py_bool (py_strip secret)) eqn:Esecret; cbn [res_bind]; [|refuted].
  apply py_bool_nonempty in Esecret.
  rewrite Hh. case_bool_decide as Hsig; split; try done;
    [|by intros (_ & _ & _ & _ & ? & ? & _ & _ & _ & _ & Hs)].
  intros _. split_and!; try done. exists yaml, handler. by rewrite Hsig.
Qed.

(** C21: A version that was uploaded with its files becomes a tool only when the files are those
    whose hash was signed with the secret: the handler is the entry point of exactly that source;
    a version found invalid never becomes one. *)
Theorem only_signed_code_loads fs r secret d :
  descriptor_of fs r secret = Ok d → text r handler_path_key ≠ "" →
  tv_state <$> vr_validation r ≠ Some INVALID ∧
  ∃ yaml source, signed_files fs r secret yaml source ∧
    exec_attr source ("tenant_tool_artifact_" +:+ module_suffix false (version_name r)) (entrypoint_of r)
      = Found (ToolRegistry.handler d).
Proof.
  unfold descriptor_from_tool_version. case_bool_decide as Hv; [done|]. cbn [negb].
  unfold version_handler. intros Hd Hp%py_bool_nonempty. rewrite Hp in Hd. split; [done|].
  destruct (verify fs r secret) as [[]|] eqn:Ev; [|done]. cbn [res_bind] in Hd.
  apply verify_spec in Ev as (_ & _ & _ & _ & yaml & source & Hs). exists yaml, source. split; [done|].
  unfold resolve_artifact_handler in Hd. rewrite Hp in Hd.
  pose proof Hs as (_ & Hfile & _). rewrite Hfile in Hd. cbn in Hd.
  destruct (exec_attr source _ _); try done. by injection Hd as <-.
Qed.

Lemma text_assoc (a b c : string) : (a +:+ b) +:+ c = a +:+ b +:+ c.
Proof. induction a as [|x a IH]; [done|].
  change (String x ((a +:+ b) +:+ c) = String x (a +:+ b +:+ c)). by rewrite IH.
Qed.

(** The hash does not say where the manifest ends: a separator inside one of the files lets part
    of the handler pass for the manifest under the same signature. *)
Lemma bundle_hash_ambiguous a b c :
  let sep := newline +:+ "---" +:+ newline in
  compute_bundle_hash sha256_hex (a +:+ sep +:+ b) c = compute_bundle_hash sha256_hex a (b +:+ sep +:+ c).
Proof. cbn zeta. unfold compute_bundle_hash. f_equal. by rewrite !text_assoc. Qed.
End integrity.

Lemma only_signed_code_loads_witness :
  let manifest := mkManifest "sum" "1" "" [] 1000 "low" "handler.py" "run" []
    [(manifest_path_key, PStr "/a/tool.yaml"); (handler_path_key, PStr "/a/handler.py");
     (bundle_hash_key, PStr (compute_bundle_hash id "y" "h"));
     (bundle_signature_key, PStr ("k" +:+ "v1:" +:+ compute_bundle_hash id "y" "h"))] in
  let r := mkToolVersion "acme" "sum" "1" manifest None "ref" false "t0" in
  let fs := [("/a/tool.yaml", "y"); ("/a/handler.py", "h")] in
  ∃ d, descriptor_from_tool_version (H := Sample.io) (Handler := string) (λ _, "") id String.append
         (λ _ _, NoAttribute) (λ source _ _, Found source) (λ _, ParsedFunctions ["run"]) fs r "k" = Ok d ∧
    ToolRegistry.handler d = "h" ∧
    ∃ yaml source, signed_files (λ _, "") id String.append fs r "k" yaml source.
Proof.
  intros manifest r fs.
  destruct (descriptor_from_tool_version _ _ _ _ _ _ fs r "k") as [d|] eqn:E; [|vm_compute in E; discriminate E].
  exists d. split; [done|]. split; [vm_compute in E; by injection E as <-|].
  destruct (only_signed_code_loads _ _ _ _ _ _ fs r "k" d E) as (_ & yaml & source & Hs & _); [by vm_compute|].
  by exists yaml, source.
Defined.
