(* ===== verification/Sandbox.v ===== *)
(** * The hosted sandbox runtime

    Models src/tools/sandbox/: the policy, the pool of one worker per tenant, the runner of child
    processes, the resource hooks and the runtime that executes a tool call with them, with its
    cancellation tokens.  The clocks are arguments; what a handler does when it is run, or how a
    child process ends, is an argument ([dispatch]); an executor of a worker is its number, and
    shutting one down is recorded. *)

From S2P Require Import Prelude PyValue Sample ToolIO ToolExecutor ToolPackages.

(** ** src/tools/sandbox/pool.py *)
Module TenantSandboxPool.

Record TenantSandboxWorker := mkWorker {
  wk_executor : nat;
  wk_created_at_utc : string;
  wk_last_used_at_utc : string;
  wk_last_used_monotonic : Z;
  wk_execution_count : Z;
}.

Record WorkerCleanupEvent := mkCleanup {
  ce_tenant_id : string;
  ce_reason : string;
  ce_timestamp_utc : string;
}.

Record t := mkPool {
  max_tenants : option Z;
  workers : list (string * TenantSandboxWorker);
  created_workers : Z;
  evicted_workers_total : Z;
  evicted_workers_explicit : Z;
  evicted_workers_idle : Z;
  evicted_workers_capacity : Z;
  closed_workers : Z;
  cleanup_log : list WorkerCleanupEvent;
  (** The next executor's number, and the executors that were shut down *)
  next_executor : nat;
  shut_down : list nat;
}.

(** [__init__]: a cap on the tenants is at least one. *)
Definition init (max_tenants : option Z) : t :=
  mkPool (Z.max 1 <$> max_tenants) [] 0 0 0 0 0 0 [] 0 [].

Definition with_workers (s : t) (w : list (string * TenantSandboxWorker)) : t :=
  mkPool (max_tenants s) w (created_workers s) (evicted_workers_total s) (evicted_workers_explicit s)
    (evicted_workers_idle s) (evicted_workers_capacity s) (closed_workers s) (cleanup_log s)
    (next_executor s) (shut_down s).

(** [l[-n:]] *)
Definition last_items {A} (n : nat) (l : list A) : list A := drop (length l - n) l.

(** [_remove_worker_unlocked] *)
Definition remove_worker (s : t) (now tenant_id reason : string) : bool * t :=
  match od_get tenant_id (workers s) with
  | None => (false, s)
  | Some w =>
      let one r : Z := if reason =?s r then 1 else 0 in
      (true,
       mkPool (max_tenants s) (od_pop tenant_id (workers s)) (created_workers s)
         (evicted_workers_total s + 1) (evicted_workers_explicit s + one "explicit")
         (evicted_workers_idle s + one "idle_ttl") (evicted_workers_capacity s + one "capacity_lru")
         (closed_workers s + one "close")
         (last_items 200 (cleanup_log s ++ [mkCleanup tenant_id reason now]))
         (next_executor s) (shut_down s ++ [wk_executor w]))
  end.

(** [_evict_one_for_capacity_unlocked]: the least recently used worker goes. *)
Definition evict_one_for_capacity (s : t) (now : string) : t :=
  match max_tenants s with
  | None => s
  | Some cap =>
      if Z.of_nat (length (workers s)) <? cap then s
      else
        match workers s with
        | [] => s
        | w :: ws =>
            (remove_worker s now (first_min (λ p, wk_last_used_monotonic p.2) w ws).1 "capacity_lru").2
        end
  end.

(** [tenant_id.strip() or "default"] *)
Definition normalized (tenant_id : string) : string := py_or (py_strip tenant_id) "default".

(** Assigning the fields of a worker that is used. *)
Definition touch (w : TenantSandboxWorker) (now : string) (now_monotonic : Z) : TenantSandboxWorker :=
  mkWorker (wk_executor w) (wk_created_at_utc w) now now_monotonic (wk_execution_count w + 1).

(** The executor of the worker, and the pool. *)
Definition acquire (s : t) (now : string) (now_monotonic : Z) (tenant_id : string) : nat * t :=
  let tenant := normalized tenant_id in
  match od_get tenant (workers s) with
  | Some w => (wk_executor w, with_workers s (od_set tenant (touch w now now_monotonic) (workers s)))
  | None =>
      let s := evict_one_for_capacity s now in
      let w := mkWorker (next_executor s) now now now_monotonic 0 in
      (next_executor s,
       mkPool (max_tenants s) (od_set tenant (touch w now now_monotonic) (workers s))
         (created_workers s + 1) (evicted_workers_total s) (evicted_workers_explicit s)
         (evicted_workers_idle s) (evicted_workers_capacity s) (closed_workers s) (cleanup_log s)
         (S (next_executor s)) (shut_down s))
  end.

Definition evict_tenant (s : t) (now tenant_id reason : string) : bool * t :=
  remove_worker s now (normalized tenant_id) reason.

Definition stats (s : t) : list (string * Z) :=
  [("tenants", Z.of_nat (length (workers s))); ("created_workers", created_workers s);
   ("evicted_workers_total", evicted_workers_total s);
   ("evicted_workers_explicit", evicted_workers_explicit s);
   ("evicted_workers_idle", evicted_workers_idle s);
   ("evicted_workers_capacity", evicted_workers_capacity s); ("closed_workers", closed_workers s)].

Definition cleanup_event_row (e : WorkerCleanupEvent) : list (string * string) :=
  [("tenant_id", ce_tenant_id e); ("reason", ce_reason e); ("timestamp_utc", ce_timestamp_utc e)].

Definition cleanup_events (s : t) (limit : Z) : list (list (string * string)) :=
  cleanup_event_row <$> last_items (Z.to_nat (Z.max 1 limit)) (cleanup_log s).

(** Removing each of the tenants: those removed, in order. *)
Fixpoint evict_each (s : t) (now : string → string) (ids : list string) (reason : string) : list string * t :=
  match ids with
  | [] => ([], s)
  | id :: ids =>
      let '(removed, s) := evict_tenant s (now id) id reason in
      let '(evicted, s) := evict_each s now ids reason in
      (if removed then id :: evicted else evicted, s)
  end.

(** The workers idle longer than [max_idle], in units of the monotonic clock. *)
Definition evict_idle (s : t) (now : string → string) (now_monotonic max_idle : Z) : list string * t :=
  let threshold := Z.max 0 max_idle in
  evict_each s now
    (od_keys (filter (λ p, threshold < now_monotonic - wk_last_used_monotonic p.2) (workers s))) "idle_ttl".

Definition close (s : t) (now : string → string) : t :=
  foldl (λ s id, (remove_worker s (now id) id "close").2) s (od_keys (workers s)).
End TenantSandboxPool.

(** ** src/tools/sandbox/process_runner.py *)

(** How a child process is found when its time is over: still alive, or ended with an exit code; and
    what its queue then holds. *)
Inductive child_outcome (V : Type) :=
| StillAlive
| Exited (exitcode : option Z) (payload : option (V + string * string)).
Arguments StillAlive {V}.
Arguments Exited {V} exitcode payload.

(** [ProcessSandboxRunner.run]; a timeout is told apart from the exceptions. *)
Inductive run_outcome (V : Type) := Returned (v : V) | Raised (e : exn) | TimedOut.
Arguments Returned {V} v.
Arguments Raised {V} e.
Arguments TimedOut {V}.

Definition run_in_child {V} (o : child_outcome V) : run_outcome V :=
  match o with
  | StillAlive => TimedOut
  | Exited exitcode payload =>
      let crashed := match exitcode with Some code => negb (code =? 0) | None => false end in
      if crashed then
        Raised (RuntimeError ("Process-isolated runtime crashed with exit code "
                              +:+ str_of_Z (default 0 exitcode) +:+ "."))
      else
        match payload with
        | None => Raised (RuntimeError "Process-isolated runtime finished without returning a result.")
        | Some (inl v) => Returned v
        | Some (inr (error_type, message)) => Raised (RuntimeError (error_type +:+ ": " +:+ message))
        end
  end.

(** What a handler returns: a value, or an object with a [model_dump] method and the value it
    dumps. *)
Inductive raw_output := PlainOutput (v : pyval) | ModelOutput (dump v : pyval).

(** [_normalize_output] *)
Definition normalize_output (o : raw_output) : pyval :=
  match o with
  | ModelOutput (PDict d) _ => PDict d
  | ModelOutput _ v => PDict [("value", v)]
  | PlainOutput (PDict d) => PDict d
  | PlainOutput v => PDict [("value", v)]
  end.

(** ** src/tools/sandbox/policy.py *)

Record SandboxRuntimePolicy := mkSandboxPolicy { min_timeout_ms : Z; max_timeout_ms : Z }.

Definition default_sandbox_policy : SandboxRuntimePolicy := mkSandboxPolicy 100 300000.

Section sandbox.
Context `{!ToolIO} `{!ToolDetails} {Handler : Type}.
(** [int(x)], None when it raises TypeError or ValueError *)
Variable py_int : pyval → option Z.
#[local] Notation ToolDescriptor := (ToolRegistry.ToolDescriptor Handler).

Definition resolve_tenant_id (call : ToolCallContext) : string :=
  py_or (py_strip (tc_tenant_id call)) "default".

Definition resolve_timeout_ms (p : SandboxRuntimePolicy) (d : ToolDescriptor) : Z :=
  let declared := ToolRegistry.timeout_ms d in
  let parsed :=
    match od_get "sandbox_timeout_ms" (ToolRegistry.metadata d) with
    | Some raw => default declared (py_int raw)
    | None => declared
    end in
  Z.max (min_timeout_ms p) (Z.min parsed (max_timeout_ms p)).

(** ** Resource hooks *)

Record SandboxResourceDecision := mkResourceDecision {
  rd_allow : bool;
  rd_reason_code : string;
  rd_message : string;
  rd_details : pydict;
}.

Definition resource_allow : SandboxResourceDecision := mkResourceDecision true "ALLOW" "" [].

Definition resource_deny (reason_code message : string) (details : pydict) : SandboxResourceDecision :=
  mkResourceDecision false reason_code message details.

Record SandboxResourceHooks := mkHooks {
  before_execute : ToolCallContext → ToolDescriptor → SandboxResourceDecision;
  after_execute : ToolCallContext → ToolDescriptor → Z → SandboxResourceDecision;
}.

Definition AllowAllSandboxResourceHooks : SandboxResourceHooks :=
  mkHooks (λ _ _, resource_allow) (λ _ _ _, resource_allow).

(** [_limits_for_descriptor] *)
Definition limits_for_descriptor (d : ToolDescriptor) : res SandboxLimits :=
  let! limits := parse_sandbox_limits (ToolRegistry.metadata d) in
  Ok (default (mkSandboxLimits None None) limits).

(** A limit that is set and above the platform's *)
Definition exceeds (limit : option Z) (platform : Z) : option Z :=
  match limit with Some n => if platform <? n then Some n else None | None => None end.

Definition limits_invalid (e : exn) : SandboxResourceDecision :=
  resource_deny "SANDBOX_LIMITS_INVALID" (exn_message e) [].

Definition budget_before (platform_cpu_budget_ms platform_memory_budget_mb : Z) (d : ToolDescriptor)
    : SandboxResourceDecision :=
  match limits_for_descriptor d with
  | Raise e => limits_invalid e
  | Ok limits =>
      match exceeds (memory_budget_mb limits) platform_memory_budget_mb with
      | Some n =>
          resource_deny "MEMORY_BUDGET_EXCEEDED"
            ("memory_budget_mb=" +:+ str_of_Z n +:+ " exceeds platform limit "
             +:+ str_of_Z platform_memory_budget_mb +:+ ".") [("memory_budget_mb", PInt n)]
      | None =>
          match exceeds (cpu_budget_ms limits) platform_cpu_budget_ms with
          | Some n =>
              resource_deny "CPU_BUDGET_EXCEEDED"
                ("cpu_budget_ms=" +:+ str_of_Z n +:+ " exceeds platform limit "
                 +:+ str_of_Z platform_cpu_budget_ms +:+ ".") [("cpu_budget_ms", PInt n)]
          | None => resource_allow
          end
      end
  end.

Definition budget_after (d : ToolDescriptor) (duration : Z) : SandboxResourceDecision :=
  match limits_for_descriptor d with
  | Raise e => limits_invalid e
  | Ok limits =>
      match cpu_budget_ms limits with
      | Some budget =>
          if budget <? duration then
            resource_deny "CPU_BUDGET_RUNTIME_EXCEEDED"
              ("execution duration " +:+ str_of_Z duration +:+ "ms exceeded cpu_budget_ms "
               +:+ str_of_Z budget +:+ ".")
              [("cpu_budget_ms", PInt budget); ("duration_ms", PInt duration)]
          else resource_allow
      | None => resource_allow
      end
  end.

Definition ManifestBudgetResourceHooks (platform_cpu_budget_ms platform_memory_budget_mb : Z)
    : SandboxResourceHooks :=
  mkHooks (λ _ d, budget_before platform_cpu_budget_ms platform_memory_budget_mb d)
    (λ _ d duration, budget_after d duration).

(** The default budgets of the platform are the largest that a manifest may ask for. *)
Definition default_hooks : SandboxResourceHooks := ManifestBudgetResourceHooks 600000 4096.

(** ** TenantSandboxToolRuntime *)

Record sandbox_runtime := mkSandbox {
  runtime_pool : TenantSandboxPool.t;
  runtime_policy : SandboxRuntimePolicy;
  enable_process_isolation : bool;
  pending_cancellations : gset string;
  cancel_requested_total : Z;
  cancel_consumed_total : Z;
  timeout_total : Z;
}.

Definition sandbox_backend_id : string := "hosted_sandbox_runtime".

Definition with_pool (s : sandbox_runtime) (p : TenantSandboxPool.t) : sandbox_runtime :=
  mkSandbox p (runtime_policy s) (enable_process_isolation s) (pending_cancellations s)
    (cancel_requested_total s) (cancel_consumed_total s) (timeout_total s).

Definition with_cancellations (s : sandbox_runtime) (pending : gset string) (requested consumed : Z)
    : sandbox_runtime :=
  mkSandbox (runtime_pool s) (runtime_policy s) (enable_process_isolation s) pending
    (cancel_requested_total s + requested) (cancel_consumed_total s + consumed) (timeout_total s).

(** [request_cancellation] *)
Definition request_token (s : sandbox_runtime) (call_id : string) : bool * sandbox_runtime :=
  let normalized := py_strip call_id in
  if negb (py_bool normalized) then (false, s)
  else if decide (normalized ∈ pending_cancellations s) then (false, s)
  else (true, with_cancellations s ({[normalized]} ∪ pending_cancellations s) 1 0).

(** [clear_cancellation] *)
Definition clear_token (s : sandbox_runtime) (call_id : string) : bool * sandbox_runtime :=
  let normalized := py_strip call_id in
  if negb (py_bool normalized) then (false, s)
  else if decide (normalized ∈ pending_cancellations s) then
    (true, with_cancellations s (pending_cancellations s ∖ {[normalized]}) 0 0)
  else (false, s).

(** [_consume_cancellation] *)
Definition consume_token (s : sandbox_runtime) (call_id : string) : bool * sandbox_runtime :=
  let normalized := py_strip call_id in
  if negb (py_bool normalized) then (false, s)
  else if decide (normalized ∈ pending_cancellations s) then
    (true, with_cancellations s (pending_cancellations s ∖ {[normalized]}) 0 1)
  else (false, s).

Definition sandbox_control_stats (s : sandbox_runtime) : list (string * Z) :=
  [("cancel_requested_total", cancel_requested_total s);
   ("cancel_consumed_total", cancel_consumed_total s); ("timeout_total", timeout_total s);
   ("pending_cancellations", Z.of_nat (size (pending_cancellations s)))].

(** [_record_timeout] *)
Definition record_timeout (s : sandbox_runtime) : sandbox_runtime :=
  mkSandbox (runtime_pool s) (runtime_policy s) (enable_process_isolation s) (pending_cancellations s)
    (cancel_requested_total s) (cancel_consumed_total s) (timeout_total s + 1).

(** *** [execute] *)

(** A result of the runtime that is not a success. *)
Definition failed_call (call : ToolCallContext) (t : timing) (timeout : Z) (status : ToolStatus)
    (code message : string) (retryable : bool) (details : pydict) : ToolResult :=
  new_result "1.0" (tc_call_id call) (tc_tool_name call) status None
    (Some (new_detailed_error code "tool_runtime" message retryable details))
    (timed t timeout) (Some (new_audit (tc_call_id call) None)).

Definition isolation_mode (s : sandbox_runtime) : string :=
  if enable_process_isolation s then "process" else "thread_pool".

Definition cancelled_result (s : sandbox_runtime) (call : ToolCallContext) (t : timing) (timeout : Z)
    (reason_code : string) : ToolResult :=
  failed_call call t timeout CANCELLED "HOSTED_RUNTIME_CANCELLED"
    "Hosted runtime call cancelled before execution dispatch." true
    [("backend_id", PStr sandbox_backend_id); ("tenant_id", PStr (resolve_tenant_id call));
     ("isolation_mode", PStr (isolation_mode s)); ("reason_code", PStr reason_code)].

(** [_blocked_for_resources] *)
Definition blocked_for_resources (call : ToolCallContext) (t : timing) (timeout : Z)
    (d : SandboxResourceDecision) : ToolResult :=
  failed_call call t timeout BLOCKED "HOSTED_RUNTIME_RESOURCE_BLOCKED"
    (py_or (rd_message d) "Hosted runtime resource hooks blocked execution.") false
    (dict_update
       [("backend_id", PStr sandbox_backend_id); ("reason_code", PStr (rd_reason_code d));
        ("tenant_id", PStr (resolve_tenant_id call))] (rd_details d)).

Definition sandbox_timeout_result (s : sandbox_runtime) (call : ToolCallContext) (t : timing) (timeout : Z)
    : ToolResult :=
  failed_call call t timeout TIMEOUT "HOSTED_RUNTIME_TIMEOUT"
    ("Hosted runtime timed out after " +:+ str_of_Z timeout +:+ "ms.") true
    ([("backend_id", PStr sandbox_backend_id); ("timeout_ms", PInt timeout);
      ("tenant_id", PStr (resolve_tenant_id call))] ++
     if enable_process_isolation s then [("isolation_mode", PStr "process")] else []).

Definition sandbox_success (s : sandbox_runtime) (call : ToolCallContext) (t : timing) (timeout : Z)
    (o : raw_output) : ToolResult :=
  new_result "1.0" (tc_call_id call) (tc_tool_name call) SUCCESS
    (Some (PDict
       [("value", normalize_output o);
        ("runtime", PDict
           [("backend_id", PStr sandbox_backend_id); ("timeout_ms", PInt timeout);
            ("tenant_id", PStr (resolve_tenant_id call)); ("isolation_mode", PStr (isolation_mode s))])]))
    None (timed t timeout) (Some (new_audit (tc_call_id call) None)).

(** What the dispatched handler does: in a worker's executor, by the executor's number, or in a child
    process; with the clocks when the pool is asked. *)
Record dispatch := mkDispatch {
  dp_now : string;
  dp_now_monotonic : Z;
  dp_thread : nat → run_outcome raw_output;
  dp_child : child_outcome raw_output;
}.

(** Running the handler: in the pool a handler that raises TimeoutError is taken for one that is out of
    time; a child's exception is a RuntimeError of the parent. *)
Definition run_handler (s : sandbox_runtime) (call : ToolCallContext) (dp : dispatch)
    : run_outcome raw_output * sandbox_runtime :=
  if enable_process_isolation s then (run_in_child (dp_child dp), s)
  else
    let '(executor, pool) :=
      TenantSandboxPool.acquire (runtime_pool s) (dp_now dp) (dp_now_monotonic dp) (resolve_tenant_id call) in
    (match dp_thread dp executor with
     | Raised (TimeoutError _) => TimedOut
     | o => o
     end, with_pool s pool).

Definition sandbox_execute (hooks : SandboxResourceHooks) (s : sandbox_runtime) (call : ToolCallContext)
    (d : ToolDescriptor) (dp : dispatch) (t : timing) : ToolResult * sandbox_runtime :=
  let timeout := resolve_timeout_ms (runtime_policy s) d in
  match consume_token s (tc_call_id call) with
  | (true, s) => (cancelled_result s call t timeout "CANCEL_TOKEN_PRE_DISPATCH", s)
  | (false, s) =>
      let pre := before_execute hooks call d in
      if negb (rd_allow pre) then (blocked_for_resources call t timeout pre, s)
      else
        let '(o, s) := run_handler s call dp in
        match o with
        | Returned raw =>
            let post := after_execute hooks call d (duration_ms t) in
            if negb (rd_allow post) then (blocked_for_resources call t timeout post, s)
            else (sandbox_success s call t timeout raw, s)
        | TimedOut => (sandbox_timeout_result s call t timeout, record_timeout s)
        | Raised e =>
            (failed_call call t timeout ERROR "HOSTED_RUNTIME_EXECUTION_ERROR" (str_exc e) false
               [("backend_id", PStr sandbox_backend_id); ("tenant_id", PStr (resolve_tenant_id call))], s)
        end
  end.
End sandbox.

(** * Properties of the hosted sandbox runtime

    The pool accounts for every executor it ever made: each is one tenant's or was shut down, and
    the counters agree.  A call is answered as its cancellation token, the resource hooks and the
    handler's outcome say, and nothing of the handler is seen unless all of them let it. *)

(** ** The pool *)
Module SandboxPool.
Import TenantSandboxPool.

(** What can happen to the pool: a call acquires the tenant's worker, an operator evicts a tenant or
    the idle ones, the platform closes it. *)
Inductive operation :=
| Acquire (now : string) (now_monotonic : Z) (tenant_id : string)
| EvictTenant (now tenant_id : string)
| EvictIdle (now : string → string) (now_monotonic max_idle : Z)
| Close (now : string → string).

Definition step (s : t) (o : operation) : t :=
  match o with
  | Acquire now m id => (acquire s now m id).2
  | EvictTenant now id => (evict_tenant s now id "explicit").2
  | EvictIdle now m idle => (evict_idle s now m idle).2
  | Close now => close s now
  end.

Definition after (cap : option Z) (os : list operation) : t := foldl step (init cap) os.

Definition live (s : t) : list nat := wk_executor <$> od_values (workers s).

(** The accounts of the pool. *)
Record balanced (s : t) : Prop := mkBalanced {
  tenants_once : od_wf (workers s);
  executors_once : live s ++ shut_down s ≡ₚ seq 0 (next_executor s);
  created_all : created_workers s = Z.of_nat (next_executor s);
  evicted_all : evicted_workers_total s = Z.of_nat (length (shut_down s));
  evicted_why : evicted_workers_total s =
    evicted_workers_explicit s + evicted_workers_idle s + evicted_workers_capacity s + closed_workers s;
  log_bounded : (length (cleanup_log s) ≤ 200)%nat;
}.

Definition within_cap (s : t) : Prop :=
  ∀ cap, max_tenants s = Some cap → 1 ≤ cap ∧ Z.of_nat (length (workers s)) ≤ cap.

Definition reasons : list string := ["explicit"; "idle_ttl"; "capacity_lru"; "close"].

#[local] Ltac fields :=
  cbn [workers created_workers evicted_workers_total evicted_workers_explicit evicted_workers_idle
    evicted_workers_capacity closed_workers cleanup_log next_executor shut_down max_tenants with_workers
    fst snd].

Lemma last_items_length {A} n (l : list A) : (length (last_items n l) ≤ n)%nat.
Proof. unfold last_items. rewrite length_drop. lia. Qed.

(** Taking a worker out of the dictionary takes its executor out of those alive. *)
Lemma live_pop k w (m : list (string * TenantSandboxWorker)) :
  od_wf m → od_get k m = Some w →
  (wk_executor <$> od_values m) ≡ₚ wk_executor w :: (wk_executor <$> od_values (od_pop k m)).
Proof.
  induction m as [|[k' w'] m IH]; intros Hm Hg; [done|]. cbn in Hg |- *.
  apply NoDup_cons in Hm as [Hk Hm]. destruct (decide (k = k')) as [->|Hne].
  - injection Hg as ->. rewrite od_pop_fresh; [done|]. by apply od_get_None.
  - cbn. rewrite (IH Hm Hg). apply Permutation_swap.
Qed.

Lemma length_pop k w (m : list (string * TenantSandboxWorker)) :
  od_wf m → od_get k m = Some w → length m = S (length (od_pop k m)).
Proof.
  intros Hm Hg. pose proof (Permutation_length (live_pop k w m Hm Hg)) as Hl.
  unfold od_values in Hl. cbn in Hl. by rewrite !length_fmap in Hl.
Qed.

(** Each reason is counted by one counter. *)
Lemma reason_counted r :
  r ∈ reasons →
  (if r =?s "explicit" then 1 else 0) + (if r =?s "idle_ttl" then 1 else 0)
  + (if r =?s "capacity_lru" then 1 else 0) + (if r =?s "close" then 1 else 0) = 1.
Proof.
  unfold reasons. rewrite !elem_of_cons, elem_of_nil.
  intros [->|[->|[->|[->|[]]]]]; vm_compute; reflexivity.
Qed.

Lemma remove_worker_balanced s now id reason :
  reason ∈ reasons → balanced s → balanced (remove_worker s now id reason).2.
Proof.
  intros Hr [Hw He Hc Ht Hy Hl]. unfold remove_worker.
  destruct (od_get id (workers s)) as [w|] eqn:Eg; [|done]. pose proof (reason_counted _ Hr) as Hone.
  cbn [snd]. split; fields.
  - by apply od_wf_pop.
  - unfold live in *. cbn. rewrite <- He, (live_pop id w _ Hw Eg).
    rewrite app_assoc. rewrite Permutation_app_comm. done.
  - done.
  - rewrite length_app, Ht. cbn. lia.
  - lia.
  - apply last_items_length.
Qed.

Lemma remove_worker_cap s now id reason :
  max_tenants (remove_worker s now id reason).2 = max_tenants s.
Proof. unfold remove_worker. by destruct (od_get id (workers s)). Qed.

(** Removing a tenant takes exactly its own worker. *)
Lemma remove_worker_exact s now id reason :
  (remove_worker s now id reason).1 = od_mem id (workers s) ∧
  workers (remove_worker s now id reason).2 = od_pop id (workers s).
Proof.
  unfold remove_worker. destruct (od_get id (workers s)) as [w|] eqn:Eg; cbn [fst snd workers].
  - split; [|done]. symmetry. by apply od_mem_true.
  - split; [symmetry; by apply od_mem_false|by rewrite od_pop_fresh].
Qed.

Lemma remove_worker_shrinks s now id reason :
  od_wf (workers s) →
  length (workers s) =
    ((if od_mem id (workers s) then 1 else 0) + length (workers (remove_worker s now id reason).2))%nat.
Proof.
  intros Hw. rewrite (proj2 (remove_worker_exact s now id reason)).
  destruct (od_mem id (workers s)) eqn:Em.
  - apply od_mem_true in Em as [w Hw']. by apply (length_pop id w).
  - apply od_mem_false in Em. by rewrite od_pop_fresh.
Qed.

#[local] Hint Resolve remove_worker_balanced : core.

Lemma remove_worker_within s now id reason :
  od_wf (workers s) → within_cap s → within_cap (remove_worker s now id reason).2.
Proof.
  intros Hw Hin cap. rewrite remove_worker_cap. intros Hcap. specialize (Hin _ Hcap).
  pose proof (remove_worker_shrinks s now id reason Hw) as Hl.
  split; [lia|]. destruct (od_mem id (workers s)); lia.
Qed.

(** Both invariants. *)
Definition pool_ok (s : t) : Prop := balanced s ∧ within_cap s.

Lemma remove_worker_ok s now id reason :
  reason ∈ reasons → pool_ok s → pool_ok (remove_worker s now id reason).2.
Proof. intros Hr [Hb Hc]. split; [auto|]. apply remove_worker_within; [apply Hb|done]. Qed.

#[local] Hint Resolve remove_worker_ok : core.

(** After making room there is room. *)
Lemma evict_one_room s now :
  pool_ok s →
  pool_ok (evict_one_for_capacity s now) ∧
  max_tenants (evict_one_for_capacity s now) = max_tenants s ∧
  next_executor (evict_one_for_capacity s now) = next_executor s ∧
  (∀ cap, max_tenants s = Some cap → Z.of_nat (length (workers (evict_one_for_capacity s now))) < cap).
Proof.
  intros Hok. unfold evict_one_for_capacity. destruct (max_tenants s) as [cap|] eqn:Ecap.
  2: { split_and!; done. }
  destruct (Z.ltb_spec (Z.of_nat (length (workers s))) cap) as [Hlt|Hge].
  { split_and!; [done..|]. by intros ? [= <-]. }
  destruct (proj2 Hok _ Ecap) as [Hcap Hle].
  destruct (workers s) as [|w ws] eqn:Ew; [cbn in Hge; lia|].
  set (victim := first_min _ w ws).
  assert (victim.1 ∈ od_keys (workers s)) as Hv.
  { rewrite Ew. apply list_elem_of_fmap. exists victim. split; [done|]. apply first_min_elem. }
  pose proof (remove_worker_shrinks s now victim.1 "capacity_lru" (tenants_once _ (proj1 Hok))) as Hl.
  split_and!.
  - apply remove_worker_ok; [|done]. unfold reasons. set_solver.
  - by rewrite remove_worker_cap.
  - unfold remove_worker. by destruct (od_get victim.1 (workers s)).
  - intros ? [= <-]. assert (od_mem victim.1 (workers s) = true) as Hm.
    { apply od_mem_true. by apply od_get_Some_key. }
    rewrite Hm, Ew in Hl. cbn in Hl. cbn in Hle. lia.
Qed.

(** Making room does not make a tenant appear. *)
Lemma evict_one_get s now id :
  od_get id (workers s) = None → od_get id (workers (evict_one_for_capacity s now)) = None.
Proof.
  intros Hg. unfold evict_one_for_capacity. destruct (max_tenants s) as [cap|]; [|done].
  destruct (Z.of_nat (length (workers s)) <? cap); [done|].
  destruct (workers s) as [|w ws] eqn:Ew; [by rewrite Ew|]. rewrite <- Ew in Hg.
  rewrite (proj2 (remove_worker_exact s now _ "capacity_lru")).
  destruct (decide (id = (first_min (λ p, wk_last_used_monotonic p.2) w ws).1)) as [->|Hne].
  - apply od_get_pop.
  - by rewrite od_get_pop_ne.
Qed.

Lemma live_set_present k w w' (m : list (string * TenantSandboxWorker)) :
  od_get k m = Some w → wk_executor w' = wk_executor w →
  (wk_executor <$> od_values (od_set k w' m)) = wk_executor <$> od_values m.
Proof.
  intros Hg He. induction m as [|[k' v] m IH]; [done|]. cbn in Hg |- *.
  destruct (decide (k = k')) as [->|]; cbn.
  - injection Hg as ->. by rewrite He.
  - f_equal. by apply IH.
Qed.

Lemma length_set_present k v (m : list (string * TenantSandboxWorker)) :
  is_Some (od_get k m) → length (od_set k v m) = length m.
Proof.
  intros Hg. pose proof (f_equal length (od_keys_set_present k v m Hg)) as H.
  unfold od_keys in H. by rewrite !length_fmap in H.
Qed.

Lemma acquire_ok s now m id : pool_ok s → pool_ok (acquire s now m id).2.
Proof.
  intros Hok. unfold acquire. destruct (od_get (normalized id) (workers s)) as [w|] eqn:Eg; fields.
  - destruct Hok as [[Hw He Hc Ht Hy Hl] Hcap]. split; [split; fields; try done|].
    + by apply od_wf_set.
    + unfold live. fields.
      by rewrite (live_set_present _ w) by done.
    + intros cap. cbn. intros E. rewrite length_set_present by done. by apply Hcap.
  - destruct (evict_one_room s now Hok) as ([[Hw He Hc Ht Hy Hl] Hcap] & Hmax & Hnext & Hroom).
    pose proof (evict_one_get s now _ Eg) as Hnone.
    set (s' := evict_one_for_capacity s now) in *. split; [split; fields; try done|].
    + by apply od_wf_set.
    + unfold live. fields.
      rewrite od_set_fresh by done. unfold od_values in *. rewrite !fmap_app. cbn [fmap list_fmap touch wk_executor snd].
      rewrite <- app_assoc, (Permutation_app_comm [next_executor s']), app_assoc.
      unfold live in He. unfold od_values in He. rewrite He, <- seq_S. done.
    + rewrite Hc. lia.
    + intros cap. cbn. rewrite Hmax. intros E. specialize (Hroom _ E).
      rewrite od_set_fresh, length_app by done. cbn.
      split; [by apply (Hcap cap); rewrite Hmax|lia].
Qed.

Lemma evict_tenant_ok s now id reason :
  reason ∈ reasons → pool_ok s → pool_ok (evict_tenant s now id reason).2.
Proof. unfold evict_tenant. auto. Qed.

Lemma evict_each_ok s now ids reason :
  reason ∈ reasons → pool_ok s → pool_ok (evict_each s now ids reason).2.
Proof.
  intros Hr. revert s. induction ids as [|id ids IH]; intros s Hs; [done|]. cbn.
  pose proof (evict_tenant_ok s (now id) id reason Hr Hs) as H1.
  destruct (evict_tenant s (now id) id reason) as [removed s1]. cbn in H1.
  specialize (IH s1 H1). by destruct (evict_each s1 now ids reason).
Qed.

Lemma close_ok s now : pool_ok s → pool_ok (close s now).
Proof.
  unfold close. generalize (od_keys (workers s)) as ids. intros ids. revert s.
  induction ids as [|id ids IH]; intros s Hs; [done|]. cbn. apply IH, remove_worker_ok; [|done].
  unfold reasons. set_solver.
Qed.

Lemma step_ok s o : pool_ok s → pool_ok (step s o).
Proof.
  intros Hs. destruct o; cbn.
  - by apply acquire_ok.
  - apply evict_tenant_ok; [unfold reasons; set_solver|done].
  - apply evict_each_ok; [unfold reasons; set_solver|done].
  - by apply close_ok.
Qed.

Lemma init_ok cap : pool_ok (init cap).
Proof.
  split.
  - split; cbn; try done; try lia. constructor.
  - intros c. destruct cap as [n|]; cbn; [|done]. intros [= <-]. lia.
Qed.

Lemma after_ok cap os : pool_ok (after cap os).
Proof.
  unfold after. generalize (init_ok cap). generalize (init cap). induction os as [|o os IH]; intros s Hs.
  - done.
  - cbn. apply IH. by apply step_ok.
Qed.

Lemma max_tenants_after cap os : max_tenants (after cap os) = Z.max 1 <$> cap.
Proof.
  assert (∀ s id now r, max_tenants (evict_tenant s now id r).2 = max_tenants s) as Ht.
  { intros. unfold evict_tenant. apply remove_worker_cap. }
  assert (∀ s now ids r, max_tenants (evict_each s now ids r).2 = max_tenants s) as He.
  { intros s now ids r. revert s. induction ids as [|id ids IH]; intros s; [done|]. cbn.
    specialize (Ht s id (now id) r). destruct (evict_tenant s (now id) id r) as [b s1]. cbn in Ht.
    specialize (IH s1). destruct (evict_each s1 now ids r). cbn in *. congruence. }
  assert (∀ s now, max_tenants (close s now) = max_tenants s) as Hc.
  { intros s now. unfold close. generalize (od_keys (workers s)). intros ids. revert s.
    induction ids as [|id ids IH]; intros s; [done|]. cbn. by rewrite IH, remove_worker_cap. }
  assert (∀ s o, max_tenants (step s o) = max_tenants s) as Hs.
  { intros s []; cbn; [|apply Ht|apply He|apply Hc]. unfold acquire.
    destruct (od_get (normalized tenant_id) (workers s)); [done|]. cbn.
    unfold evict_one_for_capacity. destruct (max_tenants s) as [c|] eqn:E; [|done].
    destruct (_ <? c); [done|]. destruct (workers s); [done|]. by rewrite remove_worker_cap. }
  unfold after. change (Z.max 1 <$> cap) with (max_tenants (init cap)). generalize (init cap).
  induction os as [|o os IH]; intros s; [done|]. cbn. by rewrite IH.
Qed.

(** What acquiring does to the workers: the tenant's own is found, or a new one is made, after the one
    that was used least recently was shut down if the pool is full. *)
Inductive acquired (s s' : t) (tenant : string) (e : nat) : Prop :=
| Reused w :
    od_get tenant (workers s) = Some w → e = wk_executor w → shut_down s' = shut_down s →
    (∀ id, id ≠ tenant → od_get id (workers s') = od_get id (workers s)) → acquired s s' tenant e
| Made :
    od_get tenant (workers s) = None → e = next_executor s → shut_down s' = shut_down s →
    (∀ cap, max_tenants s = Some cap → Z.of_nat (length (workers s)) < cap) →
    (∀ id, id ≠ tenant → od_get id (workers s') = od_get id (workers s)) → acquired s s' tenant e
| Replaced victim v cap :
    od_get tenant (workers s) = None → e = next_executor s →
    max_tenants s = Some cap → Z.of_nat (length (workers s)) = cap →
    od_get victim (workers s) = Some v →
    (∀ id w, od_get id (workers s) = Some w → wk_last_used_monotonic v ≤ wk_last_used_monotonic w) →
    shut_down s' = shut_down s ++ [wk_executor v] →
    (∀ id, id ≠ tenant → od_get id (workers s') = if decide (id = victim) then None else od_get id (workers s)) →
    acquired s s' tenant e.

Lemma acquire_acquired s now m id :
  pool_ok s → acquired s (acquire s now m id).2 (normalized id) (acquire s now m id).1.
Proof.
  intros Hok. unfold acquire. destruct (od_get (normalized id) (workers s)) as [w|] eqn:Eg; fields.
  { apply (Reused _ _ _ _ w); [done..|]. intros id' Hne. fields. by rewrite od_get_set_ne. }
  unfold evict_one_for_capacity. destruct (max_tenants s) as [cap|] eqn:Ecap.
  2: { apply Made; fields; [done..|by rewrite Ecap|]. intros id' Hne. by rewrite od_get_set_ne. }
  destruct (Z.ltb_spec (Z.of_nat (length (workers s))) cap) as [Hlt|Hge].
  { apply Made; fields; [done..|rewrite Ecap; by intros ? [= <-]|]. intros id' Hne. by rewrite od_get_set_ne. }
  destruct (proj2 Hok _ Ecap) as [Hcap Hle]. pose proof (tenants_once _ (proj1 Hok)) as Hwf.
  destruct (workers s) as [|w ws] eqn:Ew; [cbn in Hge; lia|].
  set (victim := first_min _ w ws).
  assert (od_get victim.1 (workers s) = Some victim.2) as Hv.
  { rewrite Ew. apply od_elem_get; [done|]. rewrite <- surjective_pairing. apply first_min_elem. }
  pose proof Hv as Hrm. unfold remove_worker. rewrite Hv. fields.
  apply (Replaced _ _ _ _ victim.1 victim.2 cap); fields; rewrite ?Ew; try done; [cbn in *; lia|by rewrite <- Ew| |].
  - intros id' w' Hg%od_get_elem. apply (first_min_least (λ p, wk_last_used_monotonic p.2) w ws (id', w') Hg).
  - intros id' Hne. rewrite od_get_set_ne by done. rewrite <- Ew. case_decide as E; [subst; apply od_get_pop|].
    by rewrite od_get_pop_ne.
Qed.

Lemma acquire_get s now m id :
  ∃ w, od_get (normalized id) (workers (acquire s now m id).2) = Some w ∧
    wk_executor w = (acquire s now m id).1 ∧ wk_last_used_monotonic w = m.
Proof.
  unfold acquire. destruct (od_get (normalized id) (workers s)) as [w|] eqn:Eg; fields;
    (eexists; split; [apply od_get_set|done]).
Qed.

(** In a balanced pool an executor that is alive is of one tenant, and was not shut down. *)
Lemma balanced_executor s id w :
  balanced s → od_get id (workers s) = Some w →
  wk_executor w ∉ shut_down s ∧
  ∀ id' w', od_get id' (workers s) = Some w' → wk_executor w' = wk_executor w → id' = id.
Proof.
  intros [Hw He _ _ _ _] Hg.
  assert (NoDup (live s ++ shut_down s)) as Hnd by (rewrite He; apply NoDup_seq).
  apply NoDup_app in Hnd as (Hl & Hd & _). split.
  { apply Hd. unfold live. apply list_elem_of_fmap. exists w. split; [done|]. by apply od_get_values with id. }
  intros id' w' Hg' Heq. destruct (decide (id' = id)) as [|Hne]; [done|exfalso].
  unfold live in Hl. rewrite (live_pop id w) in Hl by done. apply NoDup_cons in Hl as [Hn _]. apply Hn.
  apply list_elem_of_fmap. exists w'. split; [done|]. apply od_get_values with id'.
  by rewrite od_get_pop_ne.
Qed.

(** whatever sequence of acquisitions, evictions and closings the pool has gone through, it accounts
    for every executor it made: the executors alive are of one tenant each and together with those shut
    down they are exactly the executors made, each once; the counters are those numbers, each eviction
    is counted under one reason, there are never more workers than the cap on tenants, and the log of
    clean-ups holds at most two hundred events. *)
Theorem pool_accounts cap os :
  let s := after cap os in
  NoDup (od_keys (workers s)) ∧
  (wk_executor <$> od_values (workers s)) ++ shut_down s ≡ₚ seq 0 (next_executor s) ∧
  created_workers s = Z.of_nat (length (workers s)) + evicted_workers_total s ∧
  evicted_workers_total s = Z.of_nat (length (shut_down s)) ∧
  evicted_workers_total s =
    evicted_workers_explicit s + evicted_workers_idle s + evicted_workers_capacity s + closed_workers s ∧
  (∀ n, cap = Some n → Z.of_nat (length (workers s)) ≤ Z.max 1 n) ∧
  (length (cleanup_log s) ≤ 200)%nat.
Proof.
  destruct (after_ok cap os) as [[Hw He Hc Ht Hy Hl] Hin]. pose proof (max_tenants_after cap os) as Hmax.
  split_and!; try done.
  - rewrite Hc, Ht. pose proof (Permutation_length He) as Hlen. unfold live, od_values in Hlen.
    rewrite length_app, !length_fmap, length_seq in Hlen. cbn in *. lia.
  - intros n ->. cbn in Hmax. by destruct (Hin _ Hmax).
Qed.

(** a call of a tenant gets an executor of its own: the pool then holds it under the tenant's name,
    no other tenant's worker has it and it was not shut down.  An acquisition disturbs nobody else,
    except that when the pool is full a new tenant takes the place of the worker that was used least
    recently, whose executor is the only one shut down. *)
Theorem executor_is_own cap os now m id :
  let s := after cap os in
  let '(e, s') := acquire s now m id in
  (∃ w, od_get (normalized id) (workers s') = Some w ∧ wk_executor w = e) ∧
  e ∉ shut_down s' ∧
  (∀ id' w', od_get id' (workers s') = Some w' → wk_executor w' = e → id' = normalized id) ∧
  acquired s s' (normalized id) e.
Proof.
  cbn zeta. destruct (acquire (after cap os) now m id) as [e s'] eqn:E.
  pose proof (acquire_acquired (after cap os) now m id (after_ok cap os)) as Ha.
  pose proof (acquire_get (after cap os) now m id) as (w & Hg & He & _).
  pose proof (acquire_ok (after cap os) now m id (after_ok cap os)) as [Hb _].
  rewrite E in Ha, Hg, He, Hb. cbn in Ha, Hg, He, Hb.
  destruct (balanced_executor s' _ w Hb Hg) as [Hs Ho]. rewrite He in Hs, Ho. eauto 10.
Qed.
End SandboxPool.

(** ** Executing a call *)
Section execute.
Context `{!ToolIO} `{!ToolDetails} {Handler : Type}.
Variable py_int : pyval → option Z.
#[local] Notation ToolDescriptor := (ToolRegistry.ToolDescriptor Handler).
#[local] Notation sandbox_execute := (sandbox_execute (Handler := Handler) py_int).
#[local] Notation timeout_of s d := (resolve_timeout_ms (Handler := Handler) py_int (runtime_policy s) d).

(** A cancellation of the call is pending. *)
Definition cancelled (s : sandbox_runtime) (call : ToolCallContext) : Prop :=
  py_strip (tc_call_id call) ≠ "" ∧ py_strip (tc_call_id call) ∈ pending_cancellations s.

Lemma consume_token_spec s id :
  consume_token s id =
    if decide (py_strip id ≠ "" ∧ py_strip id ∈ pending_cancellations s) then
      (true, with_cancellations s (pending_cancellations s ∖ {[py_strip id]}) 0 1)
    else (false, s).
Proof.
  unfold consume_token, py_bool. rewrite negb_involutive. case_bool_decide as E.
  - by rewrite decide_False by naive_solver.
  - case_decide as Ep; [by rewrite decide_True|]. by rewrite decide_False by naive_solver.
Qed.

Lemma timeout_within s d :
  min_timeout_ms (runtime_policy s) ≤ max_timeout_ms (runtime_policy s) →
  min_timeout_ms (runtime_policy s) ≤ timeout_of s d ≤ max_timeout_ms (runtime_policy s).
Proof. unfold resolve_timeout_ms. intros. lia. Qed.

Lemma failed_call_status call t timeout st code msg r d :
  tr_status (failed_call call t timeout st code msg r d) = st.
Proof. unfold failed_call. apply tr_new. Qed.

Lemma run_handler_rest s call dp :
  let s' := (run_handler s call dp).2 in
  runtime_policy s' = runtime_policy s ∧ enable_process_isolation s' = enable_process_isolation s ∧
  pending_cancellations s' = pending_cancellations s ∧ cancel_consumed_total s' = cancel_consumed_total s ∧
  timeout_total s' = timeout_total s ∧ (enable_process_isolation s = true → runtime_pool s' = runtime_pool s).
Proof.
  unfold run_handler. destruct (enable_process_isolation s) eqn:E; cbn; [done|].
  by destruct (TenantSandboxPool.acquire _ _ _ _).
Qed.

(** How a call ends, with the state after it. *)
Inductive ending (hooks : SandboxResourceHooks) (s : sandbox_runtime) (call : ToolCallContext)
    (d : ToolDescriptor) (dp : dispatch) (t : timing) : ToolResult → sandbox_runtime → Prop :=
| EndedCancelled s' :
    cancelled s call → runtime_pool s' = runtime_pool s →
    pending_cancellations s' = pending_cancellations s ∖ {[py_strip (tc_call_id call)]} →
    cancel_consumed_total s' = cancel_consumed_total s + 1 → timeout_total s' = timeout_total s →
    ending hooks s call d dp t (cancelled_result s call t (timeout_of s d) "CANCEL_TOKEN_PRE_DISPATCH") s'
| EndedRefused :
    ¬ cancelled s call → rd_allow (before_execute hooks call d) = false →
    ending hooks s call d dp t (blocked_for_resources call t (timeout_of s d) (before_execute hooks call d)) s
| EndedDispatched answer s' :
    ¬ cancelled s call → rd_allow (before_execute hooks call d) = true →
    pending_cancellations s' = pending_cancellations s → cancel_consumed_total s' = cancel_consumed_total s →
    runtime_pool s' = runtime_pool (run_handler s call dp).2 →
    timeout_total s' = timeout_total s + (match (run_handler s call dp).1 with TimedOut => 1 | _ => 0 end) →
    answer =
      match (run_handler s call dp).1 with
      | Returned raw =>
          let post := after_execute hooks call d (duration_ms t) in
          if rd_allow post then sandbox_success s call t (timeout_of s d) raw
          else blocked_for_resources call t (timeout_of s d) post
      | TimedOut => sandbox_timeout_result s call t (timeout_of s d)
      | Raised e =>
          failed_call call t (timeout_of s d) ERROR "HOSTED_RUNTIME_EXECUTION_ERROR" (str_exc e) false
            [("backend_id", PStr sandbox_backend_id); ("tenant_id", PStr (resolve_tenant_id call))]
      end →
    ending hooks s call d dp t answer s'.

Lemma sandbox_execute_ending hooks s call d dp t :
  let '(answer, s') := sandbox_execute hooks s call d dp t in ending hooks s call d dp t answer s'.
Proof.
  unfold sandbox_execute. rewrite consume_token_spec. case_decide as Hc; cbn [fst snd].
  - by refine (EndedCancelled hooks s call d dp t _ Hc _ _ _ _).
  - destruct (rd_allow (before_execute hooks call d)) eqn:Hp; cbn [negb].
    2: { by apply EndedRefused. }
    pose proof (run_handler_rest s call dp) as (Hpol & Hiso & Hpend & Hcons & Htime & _).
    destruct (run_handler s call dp) as [o s1] eqn:Er. cbn in Hpol, Hiso, Hpend, Hcons, Htime.
    destruct o as [raw|e|].
    + destruct (rd_allow (after_execute hooks call d (duration_ms t))) eqn:Ha; cbn [negb].
      all: apply EndedDispatched; rewrite ?Er; cbn; rewrite ?Ha; try done; try lia.
      unfold sandbox_success, isolation_mode. by rewrite Hiso.
    + apply EndedDispatched; rewrite ?Er; cbn; try done; lia.
    + apply EndedDispatched; rewrite ?Er; cbn; try done; try lia.
      unfold sandbox_timeout_result. by rewrite Hiso.
Qed.

(** C19: a call is answered with success exactly when no cancellation of it is pending, the resource
    hooks let it start, its handler returns within the timeout and the hooks accept the measured
    duration; then the answer is the handler's output.  Otherwise the answer says which of these
    failed, a call that was cancelled or refused leaves the pool alone whatever the handler would do,
    a pending cancellation is used up by the call it is for and by no other call, and the timeout that
    is applied lies between the limits of the policy. *)
Theorem sandbox_call_answered hooks s call d dp t :
  let '(answer, s') := sandbox_execute hooks s call d dp t in
  ending hooks s call d dp t answer s' ∧
  (tr_status answer = SUCCESS ↔
     ¬ cancelled s call ∧ rd_allow (before_execute hooks call d) = true ∧
     ∃ raw, (run_handler s call dp).1 = Returned raw ∧
       rd_allow (after_execute hooks call d (duration_ms t)) = true ∧
       answer = sandbox_success s call t (timeout_of s d) raw) ∧
  (cancelled s call ∨ rd_allow (before_execute hooks call d) = false →
     runtime_pool s' = runtime_pool s ∧ ∀ dp', sandbox_execute hooks s call d dp' t = (answer, s')) ∧
  ¬ cancelled s' call ∧
  (∀ call', py_strip (tc_call_id call') ≠ py_strip (tc_call_id call) → cancelled s' call' ↔ cancelled s call') ∧
  (min_timeout_ms (runtime_policy s) ≤ max_timeout_ms (runtime_policy s) →
     min_timeout_ms (runtime_policy s) ≤ timeout_of s d ≤ max_timeout_ms (runtime_policy s)).
Proof.
  pose proof (sandbox_execute_ending hooks s call d dp t) as He.
  destruct (sandbox_execute hooks s call d dp t) as [answer s'] eqn:Ex. split; [exact He|].
  split_and!.
  - destruct He as [s' Hc|Hc Hp|answer s' Hc Hp _ _ _ _ ->].
    + unfold cancelled_result. rewrite failed_call_status.
      split; [intros Hs; by destruct cancelled_not_success|by intros [? _]].
    + unfold blocked_for_resources. rewrite failed_call_status.
      split; [intros Hs; by destruct blocked_not_success|]. intros (_ & Hp' & _). congruence.
    + destruct ((run_handler s call dp).1) as [raw|e|] eqn:Er.
      * cbn zeta. destruct (rd_allow (after_execute hooks call d (duration_ms t))) eqn:Ha.
        -- split; [intros _; split_and!; [done..|]; by exists raw|]. intros _. unfold sandbox_success. apply tr_new.
        -- unfold blocked_for_resources. rewrite failed_call_status.
           split; [intros Hs; by destruct blocked_not_success|]. by intros (_ & _ & ? & _ & ? & _).
      * rewrite failed_call_status. split; [intros Hs; by destruct error_not_success|].
        by intros (_ & _ & ? & [=] & _).
      * unfold sandbox_timeout_result. rewrite failed_call_status.
        split; [intros Hs; by destruct timeout_not_success|]. by intros (_ & _ & ? & [=] & _).
  - intros Hor. split.
    + destruct He as [s' Hc|Hc Hp|answer s' Hc Hp]; [done..|]. destruct Hor; congruence.
    + intros dp'. rewrite <- Ex. unfold Sandbox.sandbox_execute. rewrite consume_token_spec.
      case_decide as Hc; cbn [fst snd]; [done|]. destruct Hor as [Hc'|Hp]; [done|]. by rewrite Hp.
  - intros [Hne Hin]. destruct He as [s' Hc Hpool Hpend|Hc Hp|answer s' Hc Hp Hpend].
    + rewrite Hpend in Hin. set_solver.
    + by apply Hc.
    + rewrite Hpend in Hin. by apply Hc.
  - intros call' Hne. unfold cancelled.
    destruct He as [s' Hc Hpool Hpend|Hc Hp|answer s' Hc Hp Hpend]; rewrite ?Hpend; set_solver.
  - apply timeout_within.
Qed.

(** *** The budgets *)

Lemma parse_optional_int_within payload key lo hi n :
  parse_optional_int payload key lo hi = Ok (Some n) → lo ≤ n ≤ hi.
Proof.
  unfold parse_optional_int. destruct (dict_get payload key PNone); [done|..];
    (destruct (int_of _) as [k|e]; [|done]); cbn;
    (destruct (Z.leb_spec lo k); [|done]); (destruct (Z.leb_spec k hi); [|done]);
    cbn; intros [= <-]; lia.
Qed.

Lemma limits_within d limits :
  limits_for_descriptor (Handler := Handler) d = Ok limits →
  (∀ n, cpu_budget_ms limits = Some n → 10 ≤ n ≤ 600000) ∧
  (∀ n, memory_budget_mb limits = Some n → 16 ≤ n ≤ 4096).
Proof.
  unfold limits_for_descriptor, parse_sandbox_limits.
  destruct (dict_get (ToolRegistry.metadata d) sandbox_limits_key PNone) as [| | | | | |raw];
    cbn; try discriminate.
  - by intros [= <-].
  - destruct (parse_optional_int raw "cpu_budget_ms" 10 600000) as [cpu|] eqn:Ec; [|discriminate]. cbn.
    destruct (parse_optional_int raw "memory_budget_mb" 16 4096) as [memory|] eqn:Em; [|discriminate].
    cbn. intros [= <-]. cbn.
    split; intros n ->; by eapply parse_optional_int_within.
Qed.

(** With the budgets the runtime has by default, no call is refused because of a budget before it
    starts, and a memory budget decides nothing: only limits that cannot be read are refused, and only
    the duration of the call is compared with a budget, when the call is over. *)
Lemma memory_budget_decides_nothing call d limits duration :
  limits_for_descriptor d = Ok limits →
  before_execute default_hooks call d = resource_allow ∧
  (rd_allow (after_execute (Handler := Handler) default_hooks call d duration) = true ↔
     ∀ n, cpu_budget_ms limits = Some n → duration ≤ n).
Proof.
  intros Hl. destruct (limits_within _ _ Hl) as [Hc Hm]. cbn. unfold budget_before, budget_after. rewrite Hl.
  split.
  - unfold exceeds. destruct (memory_budget_mb limits) as [m|] eqn:Em.
    + destruct (Z.ltb_spec 4096 m) as [?|_]; [specialize (Hm _ eq_refl); lia|].
      destruct (cpu_budget_ms limits) as [c|]; [|done].
      destruct (Z.ltb_spec 600000 c) as [?|_]; [specialize (Hc _ eq_refl); lia|done].
    + destruct (cpu_budget_ms limits) as [c|]; [|done].
      destruct (Z.ltb_spec 600000 c) as [?|_]; [specialize (Hc _ eq_refl); lia|done].
  - destruct (cpu_budget_ms limits) as [c|]; [|naive_solver].
    destruct (Z.ltb_spec c duration); cbn; [|naive_solver]. split; [done|].
    intros Hle. specialize (Hle _ eq_refl). lia.
Qed.

(** A handler that itself raises TimeoutError at once is answered as one that ran out of time. *)
Lemma raised_timeout_is_timeout s call m now now_monotonic child :
  enable_process_isolation s = false →
  (run_handler s call (mkDispatch now now_monotonic (λ _, Raised (TimeoutError m)) child)).1 = TimedOut.
Proof. intros Hiso. unfold run_handler. rewrite Hiso. by destruct (TenantSandboxPool.acquire _ _ _ _). Qed.
End execute.
