(* ===== verification/Mcp.v ===== *)
(** * MCP servers and their tools

    Models src/mcp/mcp_registry.py, the clients of src/mcp/mcp_client_adapter.py and
    src/mcp/network_mcp_client_adapter.py, src/resilience/compensation_hooks.py, and the adapter
    src/mcp/mcp_tool_adapter.py that executes a tool of a server.  [mcp_state] is what the adapter
    changes: the health of the servers, the circuit breaker and the dead-letter queue.  An execution
    gives its result, the state after it and its effects in order; a log line is its level and its
    event.  A client is what its calls return or raise: the [n]-th attempt of an execution is the argument
    [n], and a call that outlives its timeout raises TimeoutError, which is what [asyncio.wait_for] raises. *)

From S2P Require Import Prelude PyValue Sample ToolIO RiskGates ToolExecutor Resilience.

(** ** src/mcp/mcp_registry.py *)

Inductive McpTrustTier := TRUSTED | RESTRICTED | SANDBOXED.
Inductive McpHealthState := HEALTHY | DEGRADED | UNAVAILABLE.

#[export] Instance McpTrustTier_eq_dec : EqDecision McpTrustTier.
Proof. solve_decision. Defined.
#[export] Instance McpHealthState_eq_dec : EqDecision McpHealthState.
Proof. solve_decision. Defined.

Record McpServerRecord := mkServer {
  server_id : string;
  endpoint : string;
  trust_tier : McpTrustTier;
  enabled : bool;
  timeout_ms : Z;
  metadata : pydict;
}.

Record McpServerHealth := mkHealth { state : McpHealthState; reason : string }.

Definition default_health : McpServerHealth := mkHealth HEALTHY "".

Module McpRegistry.
Record t := mkRegistry {
  servers : list (string * McpServerRecord);
  health : list (string * McpServerHealth);
}.

Definition empty : t := mkRegistry [] [].

Definition quoted (s : string) : string := "'" +:+ s +:+ "'".

(** [self._health.setdefault(...)] keeps the health of a server registered again. *)
Definition register_server (r : t) (record : McpServerRecord) : t :=
  mkRegistry (od_set (server_id record) record (servers r))
    (if od_mem (server_id record) (health r) then health r
     else od_set (server_id record) default_health (health r)).

Definition health_of (r : t) (id : string) : McpServerHealth := od_get_default default_health id (health r).

Definition get_server (r : t) (id : string) : res McpServerRecord :=
  match od_get id (servers r) with
  | None => Raise (KeyError ("MCP server " +:+ quoted id +:+ " is not registered"))
  | Some record =>
      guard! enabled record else ValueError ("MCP server " +:+ quoted id +:+ " is disabled") in
      let h := health_of r id in
      guard! negb (bool_decide (state h = UNAVAILABLE))
        else ValueError ("MCP server " +:+ quoted id +:+ " is unavailable"
               +:+ (if py_bool (reason h) then ": " +:+ reason h else "")) in
      Ok record
  end.

Definition list_servers (r : t) : list string := sorted_strings (od_keys (servers r)).

Definition set_server_health (r : t) (id : string) (s : McpHealthState) (why : string) : res t :=
  guard! od_mem id (servers r) else KeyError ("MCP server " +:+ quoted id +:+ " is not registered") in
  Ok (mkRegistry (servers r) (od_set id (mkHealth s why) (health r))).

Definition get_server_health (r : t) (id : string) : res McpServerHealth :=
  guard! od_mem id (servers r) else KeyError ("MCP server " +:+ quoted id +:+ " is not registered") in
  Ok (health_of r id).

Definition list_server_health (r : t) : list (string * McpServerHealth) :=
  (λ id, (id, health_of r id)) <$> list_servers r.
End McpRegistry.

(** ** src/resilience/compensation_hooks.py *)

Module CompensationHooks.
(** A hook, as what it raises *)
Notation t := (list (string * (pydict → res unit))).

Definition register (h : t) (reason_code : string) (hook : pydict → res unit) : t := od_set reason_code hook h.

Definition run (h : t) (reason_code : string) (payload : pydict) : res unit :=
  match od_get reason_code h with
  | Some hook => hook payload
  | None => Ok tt
  end.
End CompensationHooks.

(** ** Clients *)

Record McpClientAdapter := mkClient {
  call_tool : string → string → pydict → nat → res pyval;
  healthcheck : string → res pyval;
}.

(** [LocalCallableMcpClientAdapter] *)
Definition LocalCallableMcpClientAdapter (tools : list ((string * string) * (pydict → nat → res pyval)))
    : McpClientAdapter :=
  mkClient
    (λ id tool arguments n,
       match od_get (id, tool) tools with
       | None => Raise (KeyError ("MCP tool '" +:+ tool +:+ "' not registered for server '" +:+ id +:+ "'"))
       | Some handler => handler arguments n
       end)
    (λ id, Ok (PDict [("state", PStr "healthy"); ("server_id", PStr id)])).

(** [NetworkMcpClientAdapter] *)
Definition NetworkMcpClientAdapter (call_transport : string → string → pydict → nat → res pyval)
    (health_transport : string → res pyval) : McpClientAdapter :=
  mkClient call_transport health_transport.

(** ** src/mcp/mcp_tool_adapter.py *)

(** What the adapter builds besides: execution metadata without a timeout, and with an attempt. *)
Class AttemptMetadata `{!ToolIO} := {
  new_untimed_execution (mode : ToolExecutionMode) (started_at_utc finished_at_utc : string)
    (duration_ms : Z) : ExecutionMetadata;
  untimed_mode m s f d : mode_used (new_untimed_execution m s f d) = m;
  new_attempt_execution (mode : ToolExecutionMode) (started_at_utc finished_at_utc : string)
    (duration_ms timeout_ms attempt : Z) : ExecutionMetadata;
  attempt_mode m s f d t n : mode_used (new_attempt_execution m s f d t n) = m;
}.

Inductive LogLevel := DEBUG | INFO | WARNING | LOG_ERROR.

Inductive mcp_effect :=
| Log (level : LogLevel) (event : string)
| CheckHealth (server : string) (timeout_ms : Z)
| CallTool (server tool : string) (arguments : pydict) (timeout_ms : Z)
| RunHook (reason_code : string) (payload : pydict).

Definition trust_tier_value (t : McpTrustTier) : string :=
  match t with TRUSTED => "trusted" | RESTRICTED => "restricted" | SANDBOXED => "sandboxed" end.

Definition health_state_of (value : string) : McpHealthState :=
  if value =?s "healthy" then HEALTHY
  else if value =?s "degraded" then DEGRADED
  else if value =?s "unavailable" then UNAVAILABLE
  else DEGRADED.

(** [_resolve_max_retries] *)
Definition resolve_max_retries (metadata : pydict) : Z :=
  match int_of (dict_get metadata "max_retries" (PInt 0)) with
  | Ok n => Z.max 0 n
  | Raise _ => 0
  end.

Record mcp_state := mkMcpState {
  mcp_registry : McpRegistry.t;
  circuit_breaker : CircuitBreaker.CircuitBreaker;
  dlq : Dlq.DeadLetterQueue (Payload := pydict);
}.

Section adapter.
Context `{!ToolIO} `{!ToolDetails} `{!AttemptMetadata}.
Variable float_repr : Q → string.

Record McpToolAdapter := mkMcpAdapter {
  client : McpClientAdapter;
  mcp_policy : PolicyMiddleware;
  compensation_hooks : CompensationHooks.t;
  has_logger : bool;
}.

Definition log (x : McpToolAdapter) (level : LogLevel) (event : string) : list mcp_effect :=
  if has_logger x then [Log level event] else [].

Definition circuit_key (server tool : string) : string := server +:+ ":" +:+ tool.

Definition record_failure (s : mcp_state) (key : string) : mcp_state :=
  mkMcpState (mcp_registry s) (CircuitBreaker.record_failure (circuit_breaker s) key) (dlq s).

Definition record_success (s : mcp_state) (key : string) : mcp_state :=
  mkMcpState (mcp_registry s) (CircuitBreaker.record_success (circuit_breaker s) key) (dlq s).

Definition push_dlq (s : mcp_state) (correlation_id reason_code : string) (payload : pydict) : mcp_state :=
  mkMcpState (mcp_registry s) (circuit_breaker s)
    (Dlq.push (dlq s) (Dlq.mkDlqRecord correlation_id reason_code payload)).

(** [_run_compensation_hook]: what a hook raises is logged. *)
Definition run_compensation_hook (x : McpToolAdapter) (reason_code : string) (payload : pydict)
    : list mcp_effect :=
  RunHook reason_code payload ::
  match CompensationHooks.run (compensation_hooks x) reason_code payload with
  | Ok _ => []
  | Raise _ => log x LOG_ERROR "mcp.compensation_hook.failed"
  end.

(** [max(timeout_ms, 1)] *)
Definition wait_ms (timeout_ms : Z) : Z := Z.max timeout_ms 1.

(** [response.get(key, default)] *)
Definition response_text (response : pyval) (key dflt : string) : res string :=
  match response with
  | PDict d => Ok (py_strip (dict_get_str float_repr d key dflt))
  | v => Raise (OtherException ("'" +:+ type_name v +:+ "' object has no attribute 'get'"))
  end.

(** [_sync_server_health] *)
Definition sync_server_health (x : McpToolAdapter) (s : mcp_state) (id : string) (timeout_ms : Z)
    : res unit * mcp_state * list mcp_effect :=
  let started := log x DEBUG "mcp.healthcheck.started" ++ [CheckHealth id (wait_ms timeout_ms)] in
  match (let! response := healthcheck (client x) id in
         let! raw_state := response_text response "state" "healthy" in
         let! reason := response_text response "reason" "" in
         let st := health_state_of (py_lower raw_state) in
         let! r := McpRegistry.set_server_health (mcp_registry s) id st reason in
         Ok (st, reason, r)) with
  | Raise e => (Raise e, s, started)
  | Ok (st, reason, r) =>
      (if bool_decide (st = UNAVAILABLE)
       then Raise (ValueError ("MCP server '" +:+ id +:+ "' is unavailable: " +:+ py_or reason "healthcheck failed"))
       else Ok tt,
       mkMcpState r (circuit_breaker s) (dlq s),
       started ++ log x (if bool_decide (st = HEALTHY) then INFO else WARNING) "mcp.healthcheck.updated")
  end.

(** [_enforce_trust_tier] *)
Definition enforce_trust_tier (t : McpTrustTier) (call : ToolCallContext) : res unit :=
  match t with
  | TRUSTED => Ok tt
  | RESTRICTED =>
      guard! negb (tc_is_state_changing call)
        else ValueError "Restricted MCP tier blocks state-changing tool calls" in Ok tt
  | SANDBOXED =>
      guard! negb (tc_is_state_changing call
                   || bool_decide (risk_value (tc_risk_tier call) ∈ ["high"; "critical"]))
        else ValueError "Sandboxed MCP tier blocks high-impact or state-changing calls" in Ok tt
  end.

(** What the results of an execution share: the call, the decision's reason, the clocks *)
Record mcp_execution := mkExecution {
  me_server : string;
  me_tool : string;
  me_call : ToolCallContext;
  me_reason_code : string;
  me_timing : timing;
}.

Definition execution_audit (e : mcp_execution) : option ToolAudit :=
  Some (new_audit (tc_call_id (me_call e)) (Some (me_reason_code e))).

Definition attempt_metadata (e : mcp_execution) (timeout_ms attempt : Z) : ExecutionMetadata :=
  let t := me_timing e in
  new_attempt_execution DETERMINISTIC (tm_started t) (tm_finished t) (duration_ms t) timeout_ms attempt.

Definition circuit_open_result (e : mcp_execution) : ToolResult :=
  let t := me_timing e in
  new_result "1.0" (tc_call_id (me_call e)) (tc_tool_name (me_call e)) ERROR None
    (Some (new_error "MCP_CIRCUIT_OPEN" "mcp_adapter"
             ("Circuit is open for '" +:+ circuit_key (me_server e) (me_tool e) +:+ "'") true))
    (new_untimed_execution DETERMINISTIC (tm_started t) (tm_finished t) (duration_ms t)) (execution_audit e).

Definition mcp_success_result (e : mcp_execution) (server : McpServerRecord) (output : pyval)
    (attempt max_retries : Z) : ToolResult :=
  new_result "1.0" (tc_call_id (me_call e)) (tc_tool_name (me_call e)) SUCCESS
    (Some (PDict
       [("value", output);
        ("mcp_observability", PDict
           [("server_id", PStr (me_server e)); ("trust_tier", PStr (trust_tier_value (trust_tier server)));
            ("attempt", PInt attempt); ("max_retries", PInt max_retries)])]))
    None (attempt_metadata e (timeout_ms server) attempt) (execution_audit e).

Definition mcp_timeout_result (e : mcp_execution) (timeout_ms attempt max_retries : Z) : ToolResult :=
  new_result "1.0" (tc_call_id (me_call e)) (tc_tool_name (me_call e)) TIMEOUT None
    (Some (new_detailed_error "MCP_TIMEOUT" "mcp_adapter"
       ("MCP call timed out after " +:+ str_of_Z attempt +:+ " attempt(s) for server '" +:+ me_server e
        +:+ "' and tool '" +:+ me_tool e +:+ "'") true
       [("attempt", PInt attempt); ("max_retries", PInt max_retries); ("timeout_ms", PInt timeout_ms)]))
    (attempt_metadata e timeout_ms attempt) (execution_audit e).

Definition mcp_error_result (e : mcp_execution) (code message : string) (timeout_ms attempt : Z) : ToolResult :=
  new_result "1.0" (tc_call_id (me_call e)) (tc_tool_name (me_call e)) ERROR None
    (Some (new_error code "mcp_adapter" message false))
    (attempt_metadata e timeout_ms attempt) (execution_audit e).

(** The payload of a dead letter, and the one of a hook, which has the correlation id too *)
Definition letter (x : McpToolAdapter) (s : mcp_state) (e : mcp_execution) (reason_code : string)
    (payload : pydict) : mcp_state * list mcp_effect :=
  let payload := [("server_id", PStr (me_server e)); ("tool_name", PStr (me_tool e))] ++ payload in
  (push_dlq s (tc_call_id (me_call e)) reason_code payload,
   run_compensation_hook x reason_code (payload ++ [("correlation_id", PStr (tc_call_id (me_call e)))])).

(** The loop around the calls of the client, before attempt number [attempt], with [retries] more allowed
    after it.  An exception that is not a TimeoutError leaves it, with the number of its attempt. *)
Fixpoint call_loop (x : McpToolAdapter) (e : mcp_execution) (server : McpServerRecord) (max_retries : Z)
    (retries : nat) (attempt : Z) (s : mcp_state) : res ToolResult * Z * mcp_state * list mcp_effect :=
  let key := circuit_key (me_server e) (me_tool e) in
  let arguments := default [] (as_dict (tc_arguments (me_call e))) in
  let called := [CallTool (me_server e) (me_tool e) arguments (wait_ms (timeout_ms server))] in
  match call_tool (client x) (me_server e) (me_tool e) arguments (Z.to_nat attempt) with
  | Ok output =>
      (Ok (after_tool_call (mcp_policy x) (mcp_success_result e server output attempt max_retries)), attempt,
       record_success s key, called ++ log x INFO "mcp.call.succeeded")
  | Raise (TimeoutError _) =>
      let s := record_failure s key in
      let timed_out := called ++ log x WARNING "mcp.call.timeout" in
      match retries with
      | S retries =>
          let '(r, attempt, s, effects) := call_loop x e server max_retries retries (attempt + 1) s in
          (r, attempt, s, timed_out ++ log x INFO "mcp.call.retry" ++ effects)
      | O =>
          let '(s, hooked) := letter x s e "MCP_TIMEOUT"
            [("attempt", PInt attempt); ("max_retries", PInt max_retries)] in
          (Ok (mcp_timeout_result e (timeout_ms server) attempt max_retries), attempt, s, timed_out ++ hooked)
      end
  | Raise exc => (Raise exc, attempt, s, called)
  end.

(** The [try] block, with the timeout and the attempt that its handlers see *)
Definition try_call (x : McpToolAdapter) (e : mcp_execution) (s : mcp_state)
    : res ToolResult * (Z * Z) * mcp_state * list mcp_effect :=
  match McpRegistry.get_server (mcp_registry s) (me_server e) with
  | Raise exc => (Raise exc, (30000, 1), s, [])
  | Ok server =>
      let max_retries := resolve_max_retries (metadata server) in
      match sync_server_health x s (me_server e) (timeout_ms server) with
      | (Raise exc, s, effects) => (Raise exc, (timeout_ms server, 1), s, effects)
      | (Ok _, s, effects) =>
          let effects := effects ++ log x DEBUG "mcp.trust_tier.checked" in
          match enforce_trust_tier (trust_tier server) (me_call e) with
          | Raise exc => (Raise exc, (timeout_ms server, 1), s, effects)
          | Ok _ =>
              let '(r, attempt, s, called) :=
                call_loop x e server max_retries (Z.to_nat max_retries) 1 s in
              (r, (timeout_ms server, attempt), s, effects ++ log x INFO "mcp.call.started" ++ called)
          end
      end
  end.

(** The handlers of the exceptions: a KeyError or a ValueError, and any other *)
Definition failed (x : McpToolAdapter) (e : mcp_execution) (s : mcp_state) (exc : exn) (timeout_ms attempt : Z)
    : ToolResult * mcp_state * list mcp_effect :=
  let '(code, event) :=
    match exc with
    | KeyError _ | ValueError _ => ("MCP_VALIDATION_ERROR", "mcp.call.validation_error")
    | _ => ("MCP_EXECUTION_ERROR", "mcp.call.execution_error")
    end in
  let s := record_failure s (circuit_key (me_server e) (me_tool e)) in
  let '(s, hooked) := letter x s e code [("error", PStr (str_exc exc))] in
  (mcp_error_result e code (str_exc exc) timeout_ms attempt, s, log x LOG_ERROR event ++ hooked).

(** [execute]; [t]: the readings of the clocks at its start and at its result *)
Definition execute (x : McpToolAdapter) (s : mcp_state) (server tool : string) (call : ToolCallContext)
    (t : timing) : ToolResult * mcp_state * list mcp_effect :=
  let decision := before_tool_call (mcp_policy x) call in
  if negb (bool_decide (pd_decision decision = ALLOW)) then
    (blocked_result call (pd_reason_code decision) (pd_message decision), s,
     log x WARNING "mcp.policy.blocked")
  else
    let e := mkExecution server tool call (pd_reason_code decision) t in
    if negb (CircuitBreaker.allow (circuit_breaker s) (circuit_key server tool)) then
      (circuit_open_result e, s, log x LOG_ERROR "mcp.circuit.open")
    else
      match try_call x e s with
      | (Ok r, _, s, effects) => (r, s, effects)
      | (Raise exc, (timeout_ms, attempt), s, effects) =>
          let '(r, s, handled) := failed x e s exc timeout_ms attempt in
          (r, s, effects ++ handled)
      end.
End adapter.

(** * What the MCP adapter guarantees

    Which calls reach a server, how often a call is made, and what an execution leaves behind in the
    circuit breaker and in the dead-letter queue; an unavailable server stays unavailable. *)

(** ** The calls among the effects *)

Definition is_call (e : mcp_effect) : Prop := match e with CallTool _ _ _ _ => True | _ => False end.

#[export] Instance is_call_dec e : Decision (is_call e).
Proof. destruct e; apply _. Defined.

Definition calls (l : list mcp_effect) : list mcp_effect := filter is_call l.

Lemma calls_app l l' : calls (l ++ l') = calls l ++ calls l'.
Proof. apply filter_app. Qed.

Lemma calls_snoc n s t a ms :
  replicate n (CallTool s t a ms) ++ [CallTool s t a ms] = replicate (S n) (CallTool s t a ms).
Proof. by rewrite <- replicate_S_end. Qed.

(** The outcomes that a circuit breaker records *)
Definition failures_of (n : nat) (key : string) : list CircuitBreaker.outcome :=
  replicate n (CircuitBreaker.Failure key).

Section facts.
Context `{!ToolIO} `{!ToolDetails} `{!AttemptMetadata}.
Variable float_repr : Q → string.
Implicit Types (x : McpToolAdapter) (s : mcp_state).

Lemma calls_log x level event : calls (log x level event) = [].
Proof. unfold log. by destruct (has_logger x). Qed.

Lemma calls_hook x code payload : calls (run_compensation_hook x code payload) = [].
Proof.
  unfold run_compensation_hook, calls. rewrite filter_cons_False by (intros []).
  destruct (CompensationHooks.run _ _ _); [done|apply calls_log].
Qed.

Lemma calls_health id ms l : calls (CheckHealth id ms :: l) = calls l.
Proof. unfold calls. by rewrite filter_cons_False by (intros []). Qed.

Lemma calls_call id t a ms l : calls (CallTool id t a ms :: l) = CallTool id t a ms :: calls l.
Proof. unfold calls. by rewrite filter_cons_True by exact I. Qed.

(** The state after outcomes that the breaker records *)
Definition recorded (s : mcp_state) (h : list CircuitBreaker.outcome) : mcp_state :=
  mkMcpState (mcp_registry s) (CircuitBreaker.replay (circuit_breaker s) h) (dlq s).

Lemma recorded_nil s : recorded s [] = s.
Proof. by destruct s. Qed.

Lemma recorded_app s h h' : recorded (recorded s h) h' = recorded s (h ++ h').
Proof. unfold recorded, CircuitBreaker.replay. cbn. by rewrite foldl_app. Qed.

Lemma replay_failure b k key :
  CircuitBreaker.record_failure (CircuitBreaker.replay b (failures_of k key)) key =
  CircuitBreaker.replay b (failures_of (S k) key).
Proof.
  unfold CircuitBreaker.replay, failures_of. rewrite replicate_S_end, foldl_app. done.
Qed.

Lemma replay_app b h h' : CircuitBreaker.replay b (h ++ h') = CircuitBreaker.replay (CircuitBreaker.replay b h) h'.
Proof. apply foldl_app. Qed.

(** ** The loop around the client *)

Section loop.
Variables (x : McpToolAdapter) (e : mcp_execution) (server : McpServerRecord) (max_retries : Z).

Definition loop_key : string := circuit_key (me_server e) (me_tool e).
Definition loop_arguments : pydict := default [] (as_dict (tc_arguments (me_call e))).
Definition loop_call : mcp_effect :=
  CallTool (me_server e) (me_tool e) loop_arguments (wait_ms (timeout_ms server)).
(** What attempt number [n] returns or raises *)
Definition attempted (n : Z) : res pyval :=
  call_tool (client x) (me_server e) (me_tool e) loop_arguments (Z.to_nat n).

(** How the loop ends at attempt number [n], when the attempts before it have timed out and been recorded *)
Inductive loop_end (s : mcp_state) (n : Z) (last : Prop) : res ToolResult → mcp_state → Prop :=
| loop_succeeds output :
    attempted n = Ok output →
    loop_end s n last (Ok (after_tool_call (mcp_policy x) (mcp_success_result e server output n max_retries)))
      (recorded s [CircuitBreaker.Success loop_key])
| loop_times_out m :
    attempted n = Raise (TimeoutError m) → last →
    loop_end s n last (Ok (mcp_timeout_result e (timeout_ms server) n max_retries))
      (letter x (recorded s (failures_of 1 loop_key)) e "MCP_TIMEOUT"
         [("attempt", PInt n); ("max_retries", PInt max_retries)]).1
| loop_raises exc :
    attempted n = Raise exc → loop_end s n last (Raise exc) s.

Lemma call_loop_spec retries n s :
  let '(r, m, s', effects) := call_loop x e server max_retries retries n s in
  ∃ k : nat, (k ≤ retries)%nat ∧ m = n + Z.of_nat k ∧
    (∀ i, n ≤ i < m → ∃ msg, attempted i = Raise (TimeoutError msg)) ∧
    calls effects = replicate (S k) loop_call ∧
    loop_end (recorded s (failures_of k loop_key)) m (k = retries) r s'.
Proof.
  assert (∀ r s', loop_end s n (0%nat = retries) r s' →
    ∃ k : nat, (k ≤ retries)%nat ∧ n = n + Z.of_nat k ∧
      (∀ i, n ≤ i < n → ∃ msg, attempted i = Raise (TimeoutError msg)) ∧
      [loop_call] = replicate (S k) loop_call ∧
      loop_end (recorded s (failures_of k loop_key)) n (k = retries) r s') as Hnow.
  { intros r s' Hend. exists 0%nat. rewrite recorded_nil. split_and!; try done; lia. }
  revert n s Hnow. induction retries as [|retries IH]; intros n s Hnow; cbn [call_loop];
    fold loop_arguments; destruct (call_tool _ _ _ _ _) as [output|[]] eqn:E;
    try (rewrite calls_call; apply Hnow; by apply loop_raises).
  - rewrite calls_app, calls_call, calls_log. apply Hnow. by apply loop_succeeds.
  - cbv [letter]. rewrite !calls_app, calls_call, calls_log, calls_hook. apply Hnow.
    by eapply loop_times_out.
  - rewrite calls_app, calls_call, calls_log. apply Hnow. by apply loop_succeeds.
  - specialize (IH (n + 1) (recorded s (failures_of 1 loop_key))).
    change (record_failure s _) with (recorded s (failures_of 1 loop_key)).
    destruct (call_loop x e server max_retries retries (n + 1) _) as [[[r' m'] s'] effects'] eqn:El.
    destruct IH as (k & Hk & -> & Hi & Hc & He).
    { intros r s'' Hend. exists 0%nat. rewrite recorded_nil. split_and!; try done; lia. }
    exists (S k). split_and!; [lia|lia| | |].
    + intros i Hin. destruct (decide (i = n)) as [->|]; [by eexists|]. apply Hi. lia.
    + rewrite !calls_app, calls_call, !calls_log. cbn. by rewrite Hc.
    + rewrite recorded_app in He. change (failures_of 1 loop_key ++ failures_of k loop_key)
        with (failures_of (S k) loop_key) in He.
      inversion He; subst; econstructor; done || (subst; done) || (f_equal; done).
Qed.
End loop.

(** ** The steps before the loop *)

(** The server [id] may be called in [r]. *)
Definition available (r : McpRegistry.t) (id : string) : Prop := state (McpRegistry.health_of r id) ≠ UNAVAILABLE.

Lemma get_server_ok r id record :
  McpRegistry.get_server r id = Ok record →
  od_get id (McpRegistry.servers r) = Some record ∧ enabled record = true ∧ available r id.
Proof.
  unfold McpRegistry.get_server, available. destruct (od_get _ _) as [record'|]; [|done].
  destruct (enabled record') eqn:E; [|done]. case_bool_decide; cbn; [done|]. by intros [= <-].
Qed.

Lemma get_server_unavailable r id : ¬ available r id → ∃ exc, McpRegistry.get_server r id = Raise exc.
Proof.
  intros Hn. destruct (McpRegistry.get_server r id) as [record|exc] eqn:E; [|by eexists].
  by apply get_server_ok in E as (_ & _ & ?).
Qed.

Lemma set_health_of r id st why r' id' :
  McpRegistry.set_server_health r id st why = Ok r' →
  McpRegistry.servers r' = McpRegistry.servers r ∧
  McpRegistry.health_of r' id' = if decide (id' = id) then mkHealth st why else McpRegistry.health_of r id'.
Proof.
  unfold McpRegistry.set_server_health, McpRegistry.health_of, od_get_default. destruct (od_mem _ _); [|done].
  intros [= <-]. cbn. destruct (decide (id' = id)) as [->|]; [by rewrite od_get_set|by rewrite od_get_set_ne].
Qed.

(** What reaches a server: its health checks and its calls *)
Definition reaches (id : string) (e : mcp_effect) : Prop :=
  match e with CheckHealth i _ | CallTool i _ _ _ => i = id | _ => False end.

Lemma reaches_log id x level event : Forall (λ e, ¬ reaches id e) (log x level event).
Proof. unfold log. destruct (has_logger x); [|apply Forall_nil_2]. apply Forall_singleton. by intros []. Qed.

(** The server has not reported itself as unavailable. *)
Definition healthy_answer (x : McpToolAdapter) (id : string) : Prop :=
  ∃ answer st, healthcheck (client x) id = Ok answer ∧
    response_text float_repr answer "state" "healthy" = Ok st ∧ py_lower st ≠ "unavailable".

Lemma sync_server_health_spec x s id ms :
  let '(r, s', effects) := sync_server_health float_repr x s id ms in
  calls effects = [] ∧ circuit_breaker s' = circuit_breaker s ∧ dlq s' = dlq s ∧
  (r = Ok tt → healthy_answer x id) ∧
  (∀ id', id' ≠ id → McpRegistry.health_of (mcp_registry s') id' = McpRegistry.health_of (mcp_registry s) id') ∧
  (∀ id', id' ≠ id → Forall (λ e, ¬ reaches id' e) effects).
Proof.
  assert (∀ id', id' ≠ id → Forall (λ e, ¬ reaches id' e)
    (log x DEBUG "mcp.healthcheck.started" ++ [CheckHealth id (wait_ms ms)])) as Hc.
  { intros id' Hne. apply Forall_app. split; [apply reaches_log|]. apply Forall_singleton. cbn. congruence. }
  unfold sync_server_health. destruct (healthcheck (client x) id) as [response|exc] eqn:Eh; cbn [res_bind].
  2: { by rewrite calls_app, calls_log, calls_health. }
  destruct (response_text _ response "state" _) as [raw|exc] eqn:Est; cbn [res_bind].
  2: { by rewrite calls_app, calls_log, calls_health. }
  destruct (response_text _ response "reason" _) as [why|exc]; cbn [res_bind].
  2: { by rewrite calls_app, calls_log, calls_health. }
  destruct (McpRegistry.set_server_health _ _ _ _) as [r|exc] eqn:E; cbn [res_bind].
  2: { by rewrite calls_app, calls_log, calls_health. }
  rewrite !calls_app, !calls_log, calls_health. cbn.
  split_and!; try done.
  - intros Hok. exists response, raw. split_and!; [done|done|]. intros El. revert Hok. by rewrite El.
  - intros id' Hne. rewrite (proj2 (set_health_of _ _ _ _ _ id' E)). by rewrite decide_False.
  - intros id' Hne. apply Forall_app. split; [by apply Hc|apply reaches_log].
Qed.

Lemma letter_spec x s e code payload :
  let '(s', effects) := letter x s e code payload in
  calls effects = [] ∧ circuit_breaker s' = circuit_breaker s ∧ mcp_registry s' = mcp_registry s ∧
  dlq s' = dlq s ++ [Dlq.mkDlqRecord (tc_call_id (me_call e)) code
    ([("server_id", PStr (me_server e)); ("tool_name", PStr (me_tool e))] ++ payload)].
Proof. cbv [letter]. by rewrite calls_hook. Qed.

Lemma failed_spec x e s exc ms n :
  let '(r, s', effects) := failed x e s exc ms n in
  let code := error_code (tr_error r) in
  calls effects = [] ∧ mcp_registry s' = mcp_registry s ∧
  circuit_breaker s' = CircuitBreaker.record_failure (circuit_breaker s) (loop_key e) ∧
  tr_status r = ERROR ∧ tr_call_id r = tc_call_id (me_call e) ∧
  code = (if exc is (KeyError _ | ValueError _) then "MCP_VALIDATION_ERROR" else "MCP_EXECUTION_ERROR") ∧
  dlq s' = dlq s ++ [Dlq.mkDlqRecord (tc_call_id (me_call e)) code
    [("server_id", PStr (me_server e)); ("tool_name", PStr (me_tool e)); ("error", PStr (str_exc exc))]].
Proof.
  unfold failed. set (c := match exc with KeyError _ | ValueError _ => _ | _ => _ end).
  destruct c as [code event] eqn:Ec. cbv [letter mcp_error_result].
  rewrite calls_app, calls_log, calls_hook, tr_new_error, error_code_new.
  split_and!; try done; try apply tr_new. by destruct exc; injection Ec as <-.
Qed.

(** ** Whole executions *)

(** The tier of a server lets a call through. *)
Definition tier_permits (t : McpTrustTier) (call : ToolCallContext) : Prop :=
  match t with
  | TRUSTED => True
  | RESTRICTED => tc_is_state_changing call = false
  | SANDBOXED =>
      tc_is_state_changing call = false ∧ risk_value (tc_risk_tier call) ≠ "high" ∧
      risk_value (tc_risk_tier call) ≠ "critical"
  end.

Lemma enforce_trust_tier_ok t call : enforce_trust_tier t call = Ok tt → tier_permits t call.
Proof.
  destruct t; cbn; [done|by destruct (tc_is_state_changing call)|].
  destruct (tc_is_state_changing call); cbn; [done|].
  case_bool_decide as Hr; cbn; [done|]. intros _. rewrite !elem_of_cons in Hr. naive_solver.
Qed.

Lemma calls_try x e s :
  let '(r, attempt, s', effects) := try_call float_repr x e s in
  (calls effects = [] ∧ (∃ exc, r = Raise exc) ∧ circuit_breaker s' = circuit_breaker s ∧ dlq s' = dlq s) ∨
  (∃ record (k : nat) s1,
     McpRegistry.get_server (mcp_registry s) (me_server e) = Ok record ∧
     enforce_trust_tier (trust_tier record) (me_call e) = Ok tt ∧
     healthy_answer x (me_server e) ∧ circuit_breaker s1 = circuit_breaker s ∧ dlq s1 = dlq s ∧
     (k ≤ Z.to_nat (resolve_max_retries (metadata record)))%nat ∧
     (∀ i, 1 ≤ i < 1 + Z.of_nat k → ∃ msg, attempted x e i = Raise (TimeoutError msg)) ∧
     calls effects = replicate (S k) (loop_call e record) ∧
     loop_end x e record (resolve_max_retries (metadata record)) (recorded s1 (failures_of k (loop_key e)))
       (1 + Z.of_nat k) (k = Z.to_nat (resolve_max_retries (metadata record))) r s').
Proof.
  unfold try_call. destruct (McpRegistry.get_server _ _) as [record|exc] eqn:Eg; [|left; eauto].
  pose proof (sync_server_health_spec x s (me_server e) (timeout_ms record)) as Hs.
  destruct (sync_server_health _ _ _ _ _) as [[[[]|exc] s1] effects]; destruct Hs as (Hc & Hb & Hd & Ha & _);
    [|left; eauto].
  destruct (enforce_trust_tier _ _) as [[]|exc] eqn:Et.
  2: { left. rewrite calls_app, Hc, calls_log. eauto. }
  set (n := Z.to_nat _).
  pose proof (call_loop_spec x e record (resolve_max_retries (metadata record)) n 1 s1) as Hl.
  destruct (call_loop _ _ _ _ _ _ _) as [[[r m] s'] called]. destruct Hl as (k & Hk & -> & Hi & Hcs & Hend).
  right. exists record, k, s1. rewrite !calls_app, Hc, !calls_log. split_and!; auto.
Qed.

(** C11: A call reaches a server only when the policy allows it, the circuit of the server and the tool is
    closed, the server is registered, enabled and not known to be unavailable, the health check of this
    execution has not found it unavailable either, and its trust tier lets the call through; and what is
    called is the requested tool of the requested server with the arguments of the call, under the timeout
    of the server. *)
Theorem mcp_calls_are_permitted x s server tool call t :
  let '(r, s', effects) := execute float_repr x s server tool call t in
  ∀ c, c ∈ effects → is_call c →
  pd_decision (before_tool_call (mcp_policy x) call) = ALLOW ∧
  CircuitBreaker.allow (circuit_breaker s) (circuit_key server tool) = true ∧
  available (mcp_registry s) server ∧
  ∃ record, od_get server (McpRegistry.servers (mcp_registry s)) = Some record ∧ enabled record = true ∧
    tier_permits (trust_tier record) call ∧
    healthy_answer x server ∧
    c = CallTool server tool (default [] (as_dict (tc_arguments call))) (Z.max (timeout_ms record) 1).
Proof.
  assert (∀ l, calls l = [] → ∀ c, c ∈ l → ¬ is_call c) as Hnone.
  { intros l Hl c Hc Hi. assert (c ∈ calls l) as Hin by by apply list_elem_of_filter.
    rewrite Hl in Hin. by apply not_elem_of_nil in Hin. }
  unfold execute. case_bool_decide as Ed; cbn [negb].
  2: { intros c Hc Hi. exfalso. eapply Hnone; [apply calls_log|done|done]. }
  destruct (CircuitBreaker.allow _ _) eqn:Ea; cbn [negb].
  2: { intros c Hc Hi. exfalso. eapply Hnone; [apply calls_log|done|done]. }
  set (e := mkExecution _ _ _ _ _). pose proof (calls_try x e s) as Ht.
  assert (∀ l c, calls l = calls (try_call float_repr x e s).2 → c ∈ l → is_call c →
    c ∈ calls (try_call float_repr x e s).2) as Hin.
  { intros l c <- Hc Hi. by apply list_elem_of_filter. }
  destruct (try_call _ _ _ _) as [[[[r|exc] [ms n]] s1] effects]; cbn [snd] in Hin;
    [|pose proof (failed_spec x e s1 exc ms n) as Hf; destruct (failed _ _ _ _ _ _) as [[r s2] handled];
      destruct Hf as [Hf _]];
    intros c Hc Hi; (eapply Hin in Hc; [|rewrite ?calls_app, ?Hf, ?app_nil_r; done|done]);
    (destruct Ht as [(Hn & _)|(record & k & s3 & Hg & Hp & Hh & _ & _ & _ & _ & Hr & _)];
      [rewrite Hn in Hc; by apply not_elem_of_nil in Hc|]);
    rewrite Hr in Hc; apply elem_of_replicate in Hc as [-> _];
    apply get_server_ok in Hg as (Hg & He & Hv); apply enforce_trust_tier_ok in Hp;
    split_and!; try done; by exists record.
Qed.

Lemma resolve_max_retries_nonneg m : 0 ≤ resolve_max_retries m.
Proof. unfold resolve_max_retries. destruct (int_of _); lia. Qed.

Lemma attempted_nat x e n :
  attempted x e (Z.of_nat n) =
  call_tool (client x) (me_server e) (me_tool e) (default [] (as_dict (tc_arguments (me_call e)))) n.
Proof. unfold attempted, loop_arguments. by rewrite Nat2Z.id. Qed.

(** The result [r] of a failed execution, and what it leaves in the breaker and the queue of [s'] after [n]
    attempts, from the breaker [b] and the queue [q] *)
Definition letter_left (b : CircuitBreaker.CircuitBreaker) (q : Dlq.DeadLetterQueue) (key : string)
    (call : ToolCallContext) (n : nat) (r : ToolResult) (s' : mcp_state) : Prop :=
  ∃ payload, tr_call_id r = tc_call_id call ∧ tr_status r ∈ [ERROR; TIMEOUT] ∧
    error_code (tr_error r) ∈ ["MCP_TIMEOUT"; "MCP_VALIDATION_ERROR"; "MCP_EXECUTION_ERROR"] ∧
    circuit_breaker s' = CircuitBreaker.replay b (failures_of (Nat.max 1 n) key) ∧
    dlq s' = q ++ [Dlq.mkDlqRecord (tc_call_id call) (error_code (tr_error r)) payload].

Lemma failed_letter x e s exc ms m b k :
  circuit_breaker s = CircuitBreaker.replay b (failures_of k (loop_key e)) →
  let '(r, s', _) := failed x e s exc ms m in
  letter_left b (dlq s) (loop_key e) (me_call e) (S k) r s'.
Proof.
  intros Hb. pose proof (failed_spec x e s exc ms m) as Hf.
  destruct (failed _ _ _ _ _ _) as [[r s'] effects]. destruct Hf as (_ & _ & Hfb & Hst & Hid & Hc & Hd).
  eexists. split_and!; [done|by rewrite Hst; left| | |exact Hd].
  - rewrite Hc. destruct exc; apply (bool_decide_unpack _); done.
  - rewrite Hfb, Hb. by rewrite replay_failure.
Qed.

Lemma timed_out_letter x e s ms max_retries k :
  letter_left (circuit_breaker s) (dlq s) (loop_key e) (me_call e) (S k)
    (mcp_timeout_result e ms (1 + Z.of_nat k) max_retries)
    (letter x (recorded (recorded s (failures_of k (loop_key e))) (failures_of 1 (loop_key e))) e "MCP_TIMEOUT"
       [("attempt", PInt (1 + Z.of_nat k)); ("max_retries", PInt max_retries)]).1.
Proof.
  eexists. unfold mcp_timeout_result. rewrite tr_new_error, detailed_error_code. split_and!; try apply tr_new.
  - rewrite (proj1 (tr_new _ _ _ _ _ _ _ _)). by right; left.
  - by left.
  - exact (replay_failure (circuit_breaker s) k (loop_key e)).
  - done.
Qed.

(** C12: An execution that the policy allows and the circuit lets through either succeeds, and then its last
    attempt returned the value of the result, every attempt before it timed out, the breaker has recorded
    those timeouts and one success, and nothing is put in the dead-letter queue; or it fails, and then the
    queue gains one letter, for this call and with the error code of the result, and the breaker has recorded
    one failure per attempt (one when nothing was attempted). *)
Theorem mcp_executions_accounted x s server tool call t :
  pd_decision (before_tool_call (mcp_policy x) call) = ALLOW →
  CircuitBreaker.allow (circuit_breaker s) (circuit_key server tool) = true →
  let '(r, s', effects) := execute float_repr x s server tool call t in
  let key := circuit_key server tool in
  let arguments := default [] (as_dict (tc_arguments call)) in
  let n := length (calls effects) in
  (∀ i, (1 ≤ i < n)%nat → ∃ m, call_tool (client x) server tool arguments i = Raise (TimeoutError m)) ∧
  ((∃ record output y,
      od_get server (McpRegistry.servers (mcp_registry s)) = Some record ∧
      1 ≤ Z.of_nat n ≤ 1 + resolve_max_retries (metadata record) ∧
      call_tool (client x) server tool arguments n = Ok output ∧
      r = after_tool_call (mcp_policy x) y ∧ tr_status y = SUCCESS ∧
      (∃ d, tr_result y = Some (PDict (("value", output) :: d))) ∧
      circuit_breaker s' = CircuitBreaker.replay (circuit_breaker s)
        (failures_of (n - 1) key ++ [CircuitBreaker.Success key]) ∧
      dlq s' = dlq s) ∨
   letter_left (circuit_breaker s) (dlq s) key call n r s').
Proof.
  intros Ed Ea. unfold execute. rewrite (bool_decide_true _ Ed), Ea. cbn [negb].
  set (e := mkExecution _ _ _ _ _). pose proof (calls_try x e s) as Ht.
  destruct (try_call _ _ _ _) as [[[[r|exc] [ms n]] s1] effects].
  - destruct Ht as [(_ & [exc He] & _)|(record & k & s3 & Hg & _ & _ & Hb & Hd & Hk & Hi & Hc & Hend)]; [done|].
    apply get_server_ok in Hg as (Hg & _). rewrite Hc, length_replicate. split.
    { intros i Hin. destruct (Hi (Z.of_nat i)) as [m Hm]; [lia|]. exists m. by rewrite <- Hm, attempted_nat. }
    inversion Hend as [output Ho Er Es|m Ho Hl Er Es|]; subst.
    + left. pose proof (resolve_max_retries_nonneg (metadata record)).
      eexists record, output, _. split_and!; try done; try (apply tr_new || lia).
      * replace (1 + Z.of_nat k) with (Z.of_nat (S k)) in Ho by lia. by rewrite attempted_nat in Ho.
      * unfold mcp_success_result. rewrite tr_new_result. by eexists.
      * replace (S k - 1)%nat with k by lia. by rewrite <- Hb, replay_app.
    + right. rewrite <- Hb, <- Hd. apply timed_out_letter.
  - pose proof (failed_letter x e s1 exc ms n) as Hl. pose proof (failed_spec x e s1 exc ms n) as Hf.
    destruct (failed _ _ _ _ _ _) as [[r s2] handled]. destruct Hf as [Hf _]. rewrite calls_app, Hf, app_nil_r.
    destruct Ht as [(-> & _ & <- & <-)|(record & k & s3 & _ & _ & _ & <- & <- & _ & Hi & -> & Hend)].
    + split; [cbn; lia|]. right. exact (Hl (circuit_breaker s1) 0%nat eq_refl).
    + rewrite length_replicate. split.
      { intros i Hin. destruct (Hi (Z.of_nat i)) as [m Hm]; [lia|]. exists m. by rewrite <- Hm, attempted_nat. }
      right. inversion Hend; subst. exact (Hl (circuit_breaker s3) k eq_refl).
Qed.

(** ** Answers within the retries *)

Lemma call_loop_answers x e server max_retries output k retries n s :
  (k ≤ retries)%nat →
  (∀ i, n ≤ i < n + Z.of_nat k → ∃ msg, attempted x e i = Raise (TimeoutError msg)) →
  attempted x e (n + Z.of_nat k) = Ok output →
  (call_loop x e server max_retries retries n s).1.1.1 =
  Ok (after_tool_call (mcp_policy x) (mcp_success_result e server output (n + Z.of_nat k) max_retries)).
Proof.
  revert retries n s. induction k as [|k IH]; intros retries n s Hk Hi Ho.
  - rewrite Z.add_0_r in Ho |- *. destruct retries; cbn [call_loop]; unfold attempted, loop_arguments in Ho; by rewrite Ho.
  - destruct retries as [|retries]; [lia|]. cbn [call_loop].
    destruct (Hi n) as [m Hm]; [lia|]. unfold attempted, loop_arguments in Hm. rewrite Hm.
    specialize (IH retries (n + 1) (record_failure s (circuit_key (me_server e) (me_tool e)))).
    replace (n + 1 + Z.of_nat k) with (n + Z.of_nat (S k)) in IH by lia.
    destruct (call_loop _ _ _ _ _ (n + 1) _) as [[[r a] s'] effects]. apply IH; [lia| |done].
    intros i Hin. apply Hi. lia.
Qed.

(** Nothing stands between a call and its server. *)
Record callable (x : McpToolAdapter) (s : mcp_state) (server tool : string) (call : ToolCallContext)
    (record : McpServerRecord) : Prop := {
  ca_allowed : pd_decision (before_tool_call (mcp_policy x) call) = ALLOW;
  ca_closed : CircuitBreaker.allow (circuit_breaker s) (circuit_key server tool) = true;
  ca_server : McpRegistry.get_server (mcp_registry s) server = Ok record;
  ca_healthy : ∃ d, healthcheck (client x) server = Ok (PDict d) ∧
    py_lower (py_strip (dict_get_str float_repr d "state" "healthy")) ≠ "unavailable";
  ca_tier : tier_permits (trust_tier record) call;
}.

Lemma health_state_not_unavailable v : v ≠ "unavailable" → health_state_of v ≠ UNAVAILABLE.
Proof.
  intros Hv. unfold health_state_of. repeat case_bool_decide; try done.
Qed.

Lemma sync_server_health_healthy x s server tool call record ms :
  callable x s server tool call record → (sync_server_health float_repr x s server ms).1.1 = Ok tt.
Proof.
  intros [_ _ Hs (d & Hd & Hu) _]. unfold sync_server_health. rewrite Hd. cbn [res_bind response_text].
  unfold McpRegistry.set_server_health, od_mem. apply get_server_ok in Hs as (-> & _).
  rewrite (bool_decide_true (is_Some (Some record))) by by eexists. cbn [res_bind].
  by rewrite (bool_decide_false _ (health_state_not_unavailable _ Hu)).
Qed.

Lemma tier_permits_enforced t call : tier_permits t call → enforce_trust_tier t call = Ok tt.
Proof.
  destruct t; cbn [tier_permits enforce_trust_tier]; [done|by intros E; rewrite E|]. intros (E & Hh & Hc).
  rewrite E. cbn [orb]. rewrite (bool_decide_false (_ ∈ _)); [done|].
  intros [?|[?|[]%elem_of_nil]%elem_of_cons]%elem_of_cons; done.
Qed.

(** When nothing stands between a call and its server and the first attempt that does not time out is within
    the retries that the metadata of the server allow, the execution succeeds with the value that this
    attempt returns. *)
Theorem mcp_answers_within_retries x s server tool call t record k output :
  callable x s server tool call record →
  Z.of_nat k ≤ resolve_max_retries (metadata record) →
  let attempt := call_tool (client x) server tool (default [] (as_dict (tc_arguments call))) in
  (∀ i, (1 ≤ i ≤ k)%nat → ∃ m, attempt i = Raise (TimeoutError m)) →
  attempt (S k) = Ok output →
  ∃ y, (execute float_repr x s server tool call t).1.1 = after_tool_call (mcp_policy x) y ∧
    tr_status y = SUCCESS ∧ tr_call_id y = tc_call_id call ∧
    ∃ d, tr_result y = Some (PDict (("value", output) :: d)).
Proof.
  intros Hc Hk attempt Hi Ho. unfold execute.
  rewrite (bool_decide_true _ (ca_allowed _ _ _ _ _ _ Hc)), (ca_closed _ _ _ _ _ _ Hc). cbn [negb].
  set (e := mkExecution _ _ _ _ _). unfold try_call.
  change (me_server e) with server. change (me_call e) with call. rewrite (ca_server _ _ _ _ _ _ Hc).
  pose proof (sync_server_health_healthy x s server tool call record (timeout_ms record) Hc) as Hs.
  destruct (sync_server_health _ _ _ _ _) as [[r s1] effects]. cbn in Hs. subst r.
  rewrite (tier_permits_enforced _ _ (ca_tier _ _ _ _ _ _ Hc)).
  pose proof (call_loop_answers x e record (resolve_max_retries (metadata record)) output k
    (Z.to_nat (resolve_max_retries (metadata record))) 1 s1) as Hl.
  destruct (call_loop _ _ _ _ _ _ _) as [[[r a] s2] called]. cbn [fst] in Hl. rewrite Hl; [|lia| |].
  - eexists. split; [done|]. unfold mcp_success_result. rewrite tr_new_result.
    split_and!; try apply tr_new. by eexists.
  - intros i Hin. destruct (Hi (Z.to_nat i)) as [m Hm]; [lia|]. exists m.
    rewrite <- (Z2Nat.id i) by lia. rewrite attempted_nat. exact Hm.
  - replace (1 + Z.of_nat k) with (Z.of_nat (S k)) by lia. by rewrite attempted_nat.
Qed.

(** ** An unavailable server *)

(** A request: server, tool, call, clocks *)
Definition mcp_request : Type := string * string * ToolCallContext * timing.

Definition served (x : McpToolAdapter) (s : mcp_state) (q : mcp_request) : mcp_state * list mcp_effect :=
  let '(server, tool, call, t) := q in
  let '(_, s, effects) := execute float_repr x s server tool call t in (s, effects).

(** Requests one after the other *)
Fixpoint served_all (x : McpToolAdapter) (s : mcp_state) (qs : list mcp_request) : mcp_state * list mcp_effect :=
  match qs with
  | [] => (s, [])
  | q :: qs =>
      let '(s, effects) := served x s q in
      let '(s, effects') := served_all x s qs in (s, effects ++ effects')
  end.

Lemma reaches_hook id x code payload : Forall (λ f, ¬ reaches id f) (run_compensation_hook x code payload).
Proof.
  unfold run_compensation_hook. apply Forall_cons_2; [by intros []|].
  destruct (CompensationHooks.run _ _ _); [apply Forall_nil_2|apply reaches_log].
Qed.

Ltac quiet :=
  repeat first
    [ apply reaches_hook | apply reaches_log | apply Forall_nil_2 | apply Forall_app_2 | apply Forall_cons_2
    | assumption | by intros [] ].

(** What an execution does not touch: the health of the other servers, which it does not reach either *)
Definition untouched (id : string) (s : mcp_state) (effects : list mcp_effect) (s' : mcp_state) : Prop :=
  McpRegistry.health_of (mcp_registry s') id = McpRegistry.health_of (mcp_registry s) id ∧
  Forall (λ f, ¬ reaches id f) effects.

Lemma untouched_app id s1 e1 s2 e2 s3 :
  untouched id s1 e1 s2 → untouched id s2 e2 s3 → untouched id s1 (e1 ++ e2) s3.
Proof. intros [Eh Fh] [Eh' Fh']. split; [by rewrite Eh'|by apply Forall_app]. Qed.

Lemma call_loop_untouched x e server max_retries retries n s id :
  me_server e ≠ id →
  let '(_, _, s', effects) := call_loop x e server max_retries retries n s in untouched id s effects s'.
Proof.
  intros Hne. revert n s. induction retries as [|retries IH]; intros n s; cbn [call_loop];
    destruct (call_tool _ _ _ _ _) as [output|[]]; cbv [letter]; try (split; [done|quiet]).
  specialize (IH (n + 1) (record_failure s (circuit_key (me_server e) (me_tool e)))).
  destruct (call_loop _ _ _ _ _ _ _) as [[[r m] s'] effects]. destruct IH as [Eh Fh]. split; [done|quiet].
Qed.

Lemma failed_untouched x e s exc ms n id :
  let '(_, s', effects) := failed x e s exc ms n in untouched id s effects s'.
Proof.
  unfold failed. destruct (match exc with KeyError _ | ValueError _ => _ | _ => _ end) as [code event].
  cbv [letter]. split; [done|quiet].
Qed.

Lemma try_call_untouched x e s id :
  me_server e ≠ id ∨ ¬ available (mcp_registry s) id →
  let '(_, _, s', effects) := try_call float_repr x e s in untouched id s effects s'.
Proof.
  intros Hid. unfold try_call. destruct (McpRegistry.get_server _ _) as [record|exc] eqn:Eg; [|by split].
  assert (me_server e ≠ id) as Hne.
  { destruct Hid as [|Hn]; [done|]. apply get_server_ok in Eg as (_ & _ & Ha). by intros <-. }
  pose proof (sync_server_health_spec x s (me_server e) (timeout_ms record)) as Hs.
  destruct (sync_server_health _ _ _ _ _) as [[[[]|exc] s1] effects]; destruct Hs as (_ & _ & _ & _ & Hh & Hf);
    [|by split; [apply Hh|apply Hf]].
  assert (untouched id s (effects ++ log x DEBUG "mcp.trust_tier.checked") s1) as Hs1.
  { split; [by apply Hh|]. specialize (Hf id (not_eq_sym Hne)). quiet. }
  destruct (enforce_trust_tier _ _); [|exact Hs1].
  pose proof (call_loop_untouched x e record (resolve_max_retries (metadata record))
    (Z.to_nat (resolve_max_retries (metadata record))) 1 s1 id Hne) as Hl.
  destruct (call_loop _ _ _ _ _ _ _) as [[[r m] s2] called].
  eapply untouched_app; [exact Hs1|]. destruct Hl. split; [done|quiet].
Qed.

Lemma served_untouched x s q id :
  ¬ available (mcp_registry s) id → let '(s', effects) := served x s q in untouched id s effects s'.
Proof.
  destruct q as [[[server tool] call] t]. intros Hn. unfold served, execute.
  destruct (negb _); [split; [done|apply reaches_log]|].
  destruct (negb _); [split; [done|apply reaches_log]|]. set (e := mkExecution _ _ _ _ _).
  pose proof (try_call_untouched x e s id (or_intror Hn)) as Ht.
  destruct (try_call _ _ _ _) as [[[[r|exc] [ms n]] s1] effects]; [done|].
  pose proof (failed_untouched x e s1 exc ms n id) as Hf.
  destruct (failed _ _ _ _ _ _) as [[r s2] handled]. by eapply untouched_app.
Qed.

(** A server that has reported itself as unavailable stays unavailable: whatever requests follow, no effect
    of theirs, not even a health check, reaches the server, and its recorded health never changes. *)
Theorem unavailable_server_stays_unavailable x s id qs :
  ¬ available (mcp_registry s) id →
  let '(s', effects) := served_all x s qs in
  McpRegistry.health_of (mcp_registry s') id = McpRegistry.health_of (mcp_registry s) id ∧
  Forall (λ f, ¬ reaches id f) effects.
Proof.
  revert s. induction qs as [|q qs IH]; intros s Hn; [by split|]. cbn [served_all].
  pose proof (served_untouched x s q id Hn) as Hq. destruct (served x s q) as [s1 effects].
  destruct Hq as [Hh Hf]. specialize (IH s1). unfold available in IH. rewrite Hh in IH. specialize (IH Hn).
  destruct (served_all x s1 qs) as [s2 effects']. destruct IH as [-> Hf']. split; [done|by apply Forall_app].
Qed.
End facts.

(** ** Concrete servers *)
Module McpExamples.
Import Sample.

#[export] Program Instance attempts : AttemptMetadata := {|
  new_untimed_execution m _ _ _ := m;
  new_attempt_execution m _ _ _ _ _ := m;
|}.
Solve All Obligations with done.

#[local] Notation run := (execute (λ _, "")).

(** A trusted server that allows one retry, and a restricted one *)
Definition registry : McpRegistry.t :=
  McpRegistry.register_server
    (McpRegistry.register_server McpRegistry.empty
       (mkServer "crm" "local://crm" TRUSTED true 1000 [("max_retries", PStr "1")]))
    (mkServer "wiki" "local://wiki" RESTRICTED true 1000 []).

(** The first attempt of a tool times out, and the second one answers; [health] is what a health check returns. *)
Definition slow_client (health : string) : McpClientAdapter :=
  mkClient (λ _ _ _ n, if Nat.eqb n 1 then Raise (TimeoutError "") else Ok (PStr "found"))
    (λ _, Ok (PDict [("state", PStr health)])).

Definition adapter (health : string) : McpToolAdapter :=
  mkMcpAdapter (slow_client health)
    (mkMiddleware (λ _, mkDecision Allow "ok" "" None false None) (λ r, r) (λ p, p)) [] true.

Definition new_state : mcp_state := mkMcpState registry (CircuitBreaker.init 5) [].

Definition clocks : timing := mkTiming "t0" 0 "t1" 500000.

#[local] Notation call := (low_call "find" "acme" : ToolCallContext (ToolIO := io)).

(** A call that changes state *)
Definition writing : ToolCallContext (ToolIO := io) :=
  Sample.mkCall "1.0" "c2" "put" (PDict []) Low true None "bob" ["dev"] "acme" "acme" "".

Lemma mcp_calls_are_permitted_witness :
  ∃ effects, (run (adapter "healthy") new_state "crm" "find" call clocks).2 = effects ∧
    CallTool "crm" "find" [] 1000 ∈ effects ∧ available (mcp_registry new_state) "crm" ∧
    ∃ record, od_get "crm" (McpRegistry.servers registry) = Some record ∧ enabled record = true.
Proof.
  eexists. split; [reflexivity|].
  assert (CallTool "crm" "find" [] 1000 ∈ (run (adapter "healthy") new_state "crm" "find" call clocks).2) as Hin.
  { vm_compute. repeat (apply list_elem_of_here || apply list_elem_of_further). }
  split; [exact Hin|].
  pose proof (mcp_calls_are_permitted (λ _, "") (adapter "healthy") new_state "crm" "find" call clocks) as Hc.
  destruct (run _ _ _ _ _ _) as [[r s'] effects].
  destruct (Hc _ Hin I) as (_ & _ & Ha & record & Hr & He & _). split; [exact Ha|]. by exists record.
Defined.

(** One timeout, then an answer: two calls, and the breaker's count of the pair is back at zero. *)
Lemma mcp_executions_accounted_witness :
  length (calls (run (adapter "healthy") new_state "crm" "find" call clocks).2) = 2%nat ∧
  (dlq (run (adapter "healthy") new_state "crm" "find" call clocks).1.2 = [] ∨
   letter_left (CircuitBreaker.init 5) [] "crm:find" call 2
     (run (adapter "healthy") new_state "crm" "find" call clocks).1.1
     (run (adapter "healthy") new_state "crm" "find" call clocks).1.2).
Proof.
  assert (length (calls (run (adapter "healthy") new_state "crm" "find" call clocks).2) = 2%nat) as Hn
    by (vm_compute; reflexivity).
  split; [exact Hn|].
  pose proof (mcp_executions_accounted (λ _, "") (adapter "healthy") new_state "crm" "find" call clocks
    eq_refl eq_refl) as Hc.
  destruct (run _ _ _ _ _ _) as [[r s'] effects]. cbn [fst snd] in *. rewrite Hn in Hc.
  destruct Hc as [_ [(? & ? & ? & _ & _ & _ & _ & _ & _ & _ & Hd)|Hl]]; [by left|by right].
Defined.

Lemma mcp_answers_within_retries_witness :
  ∃ y, (run (adapter "healthy") new_state "crm" "find" call clocks).1.1 = y ∧
    tr_status y = SUCCESS ∧ tr_call_id y = "c1" ∧ ∃ d, tr_result y = Some (PDict (("value", PStr "found") :: d)).
Proof.
  apply (mcp_answers_within_retries (λ _, "") (adapter "healthy") new_state "crm" "find" call clocks
    (mkServer "crm" "local://crm" TRUSTED true 1000 [("max_retries", PStr "1")]) 1 (PStr "found")).
  - split; try reflexivity; try exact I. eexists. split; [reflexivity|].
    refine (bool_decide_unpack _ _). vm_compute. exact I.
  - refine (bool_decide_unpack _ _). vm_compute. exact I.
  - intros i Hi. assert (i = 1%nat) as -> by lia. by exists "".
  - reflexivity.
Defined.

(** The server "crm" has reported itself as unavailable once. *)
Definition after_outage : mcp_state := (served (λ _, "") (adapter "unavailable") new_state ("crm", "find", call, clocks)).1.

Lemma unavailable_server_stays_unavailable_witness :
  ¬ available (mcp_registry after_outage) "crm" ∧
  Forall (λ f, ¬ reaches "crm" f)
    (served_all (λ _, "") (adapter "healthy") after_outage
       [("crm", "find", call, clocks); ("wiki", "find", call, clocks)]).2.
Proof.
  assert (¬ available (mcp_registry after_outage) "crm") as Hn.
  { unfold available. refine (bool_decide_unpack _ _). vm_compute. exact I. }
  split; [exact Hn|].
  pose proof (unavailable_server_stays_unavailable (λ _, "") (adapter "healthy") after_outage "crm"
    [("crm", "find", call, clocks); ("wiki", "find", call, clocks)] Hn) as Hu.
  destruct (served_all _ _ _ _) as [s' effects]. exact (proj2 Hu).
Defined.

(** Calls that the trust tier of a server refuses count as failures of the server: after five of them the
    circuit of the tool is open, for the calls the tier permits too. *)
Lemma refused_calls_open_the_circuit :
  let s := (served_all (λ _, "") (adapter "healthy") new_state (replicate 5 ("wiki", "find", writing, clocks))).1 in
  tr_status (run (adapter "healthy") new_state "wiki" "find" call clocks).1.1 = TIMEOUT ∧
  tr_status (run (mkMcpAdapter (LocalCallableMcpClientAdapter [(("wiki", "find"), λ _ _, Ok (PStr "page"))])
    (mcp_policy (adapter "healthy")) [] true) new_state "wiki" "find" call clocks).1.1 = SUCCESS ∧
  error_code (tr_error (run (mkMcpAdapter (LocalCallableMcpClientAdapter [(("wiki", "find"), λ _ _, Ok (PStr "page"))])
    (mcp_policy (adapter "healthy")) [] true) s "wiki" "find" call clocks).1.1) = "MCP_CIRCUIT_OPEN".
Proof. vm_compute. done. Qed.

(** A state-changing call that times out is sent again. *)
Lemma timed_out_write_is_repeated :
  calls (run (adapter "healthy") new_state "crm" "put" writing clocks).2 =
  [CallTool "crm" "put" [] 1000; CallTool "crm" "put" [] 1000].
Proof. vm_compute. done. Qed.
End McpExamples.
