(* ===== verification/Workflow.v ===== *)
(** * Workflow definitions

    Models src/schemas/workflow_schema.py, the definitions of a workflow and their validation, and
    src/core/workflow_loader.py, which reads them from files into a registry of versions.  The errors
    of both carry a code and details; a definition or such an error is [checked].  The file system is a
    dictionary from paths to texts; [json.loads] and the YAML library, which may not be installed, give a
    value or the text of their error.  A bool is an int in Python: a timeout or a retry limit is stored as
    the integer it equals. *)

From S2P Require Import Prelude PyValue TaskGraph.

(** [WorkflowSchemaError], [WorkflowLoadError] *)
Record WorkflowError := mkWorkflowError { code : string; message : string; details : pydict }.

Inductive checked (A : Type) := Valid (a : A) | Invalid (e : WorkflowError).
Arguments Valid {A} a.
Arguments Invalid {A} e.

Definition checked_bind {A B} (m : checked A) (k : A → checked B) : checked B :=
  match m with Valid a => k a | Invalid e => Invalid e end.

(** The value of an option, or an error of a code with a message and details *)
Definition required {A} (m : option A) (code message : string) (details : pydict) : checked A :=
  match m with Some a => Valid a | None => Invalid (mkWorkflowError code message details) end.

Declare Scope workflow_scope.
Notation "'let^' x ':=' m 'in' k" := (checked_bind m (fun x => k))
  (at level 200, x binder, m at level 100, k at level 200) : workflow_scope.
#[local] Open Scope workflow_scope.

(** ** src/schemas/workflow_schema.py *)

Definition WORKFLOW_SCHEMA_VERSION : string := "1.0".

Record WorkflowNode := mkNode {
  node_id : string;
  agent_role : string;
  depends_on : list string;
  timeout_s : Z;
  retry_limit : Z;
  node_metadata : pydict;
}.

Record WorkflowDefinition := mkDefinition {
  schema_version : string;
  workflow_id : string;
  version : string;
  nodes : list WorkflowNode;
  metadata : pydict;
}.

(** [isinstance(v, str) and v.strip()] *)
Definition nonblank (v : pyval) : option string :=
  match v with PStr s => if py_bool (py_strip s) then Some s else None | _ => None end.

(** A list of non-blank strings *)
Definition texts (v : pyval) : option (list string) :=
  match v with PList l => mapM nonblank l | _ => None end.

(** [isinstance(v, int)], and at least [least] *)
Definition int_at_least (least : Z) (v : pyval) : option Z :=
  match as_int v with Some n => if least <=? n then Some n else None | None => None end.

Definition received (v : pyval) : pydict := [("received_type", PStr (type_name v))].

Definition node_from_dict (payload : pyval) : checked WorkflowNode :=
  let^ d := required (as_dict payload) "WORKFLOW_NODE_TYPE_INVALID" "Workflow node must be an object"
              (received payload) in
  let^ id := required (nonblank (dict_get d "node_id" PNone)) "WORKFLOW_NODE_ID_INVALID"
               "Workflow node 'node_id' must be a non-empty string" [] in
  let here := [("node_id", PStr id)] in
  let^ role := required (nonblank (dict_get d "agent_role" PNone)) "WORKFLOW_NODE_AGENT_ROLE_INVALID"
                 "Workflow node 'agent_role' must be a non-empty string" here in
  let^ deps := required (texts (dict_get d "depends_on" (PList []))) "WORKFLOW_NODE_DEPENDENCIES_INVALID"
                 "Workflow node 'depends_on' must be a list of non-empty strings" here in
  let^ timeout := required (int_at_least 1 (dict_get d "timeout_s" (PInt 30))) "WORKFLOW_NODE_TIMEOUT_INVALID"
                    "Workflow node 'timeout_s' must be a positive integer" here in
  let^ retries := required (int_at_least 0 (dict_get d "retry_limit" (PInt 0)))
                    "WORKFLOW_NODE_RETRY_LIMIT_INVALID"
                    "Workflow node 'retry_limit' must be an integer >= 0" here in
  let^ meta := required (as_dict (dict_get d "metadata" (PDict []))) "WORKFLOW_NODE_METADATA_INVALID"
                 "Workflow node 'metadata' must be an object" here in
  Valid (mkNode (py_strip id) (py_strip role) (py_strip <$> deps) timeout retries meta).

Fixpoint nodes_from (l : list pyval) : checked (list WorkflowNode) :=
  match l with
  | [] => Valid []
  | p :: l =>
      let^ n := node_from_dict p in
      let^ ns := nodes_from l in
      Valid (n :: ns)
  end.

(** [sorted({node_id for node_id in node_ids if node_ids.count(node_id) > 1})] *)
Definition duplicate_ids (ids : list string) : list string :=
  sorted_strings (remove_dups (filter (λ id, (1 < count_occ String.string_dec ids id)%nat) ids)).

Definition texts_value (l : list string) : pyval := PList (PStr <$> l).

(** The loop of [validate] *)
Fixpoint validate_nodes (known : list string) (l : list WorkflowNode) : checked unit :=
  match l with
  | [] => Valid tt
  | n :: l =>
      if bool_decide (node_id n ∈ depends_on n) then
        Invalid (mkWorkflowError "WORKFLOW_NODE_SELF_DEPENDENCY" "Workflow node cannot depend on itself"
                   [("node_id", PStr (node_id n))])
      else
        match sorted_strings (remove_dups (filter (λ d, d ∉ known) (depends_on n))) with
        | [] => validate_nodes known l
        | unknown =>
            Invalid (mkWorkflowError "WORKFLOW_NODE_UNKNOWN_DEPENDENCY"
                       "Workflow node dependency references unknown node ID"
                       [("node_id", PStr (node_id n)); ("unknown_dependencies", texts_value unknown)])
        end
  end.

Definition validate (w : WorkflowDefinition) : checked unit :=
  if negb (schema_version w =?s WORKFLOW_SCHEMA_VERSION) then
    Invalid (mkWorkflowError "WORKFLOW_SCHEMA_VERSION_UNSUPPORTED"
               ("Unsupported workflow schema version '" +:+ schema_version w +:+ "'. Expected '"
                  +:+ WORKFLOW_SCHEMA_VERSION +:+ "'.")
               [("schema_version", PStr (schema_version w)); ("expected", PStr WORKFLOW_SCHEMA_VERSION)])
  else
    let ids := node_id <$> nodes w in
    match duplicate_ids ids with
    | [] => validate_nodes ids (nodes w)
    | duplicates =>
        Invalid (mkWorkflowError "WORKFLOW_NODE_DUPLICATE_ID" "Workflow contains duplicate node IDs"
                   [("duplicate_node_ids", texts_value duplicates)])
    end.

(** A list that is not empty *)
Definition nonempty_list (v : pyval) : option (list pyval) :=
  match v with PList (x :: l) => Some (x :: l) | _ => None end.

Definition from_dict (payload : pyval) : checked WorkflowDefinition :=
  let^ d := required (as_dict payload) "WORKFLOW_DEFINITION_TYPE_INVALID"
              "Workflow definition must be an object" (received payload) in
  let^ schema := required (nonblank (dict_get d "schema_version" PNone)) "WORKFLOW_SCHEMA_VERSION_INVALID"
                   "Workflow 'schema_version' must be a non-empty string" [] in
  let^ id := required (nonblank (dict_get d "workflow_id" PNone)) "WORKFLOW_ID_INVALID"
               "Workflow 'workflow_id' must be a non-empty string" [] in
  let here := [("workflow_id", PStr id)] in
  let^ ver := required (nonblank (dict_get d "version" PNone)) "WORKFLOW_VERSION_INVALID"
                "Workflow 'version' must be a non-empty string" here in
  let^ raw_nodes := required (nonempty_list (dict_get d "nodes" PNone)) "WORKFLOW_NODES_INVALID"
                      "Workflow 'nodes' must be a non-empty list" here in
  let^ meta := required (as_dict (dict_get d "metadata" (PDict []))) "WORKFLOW_METADATA_INVALID"
                 "Workflow 'metadata' must be an object" here in
  let^ nodes := nodes_from raw_nodes in
  let w := mkDefinition (py_strip schema) (py_strip id) (py_strip ver) nodes meta in
  let^ _ := validate w in
  Valid w.

Definition node_to_dict (n : WorkflowNode) : pydict :=
  [("node_id", PStr (node_id n)); ("agent_role", PStr (agent_role n));
   ("depends_on", texts_value (depends_on n)); ("timeout_s", PInt (timeout_s n));
   ("retry_limit", PInt (retry_limit n)); ("metadata", PDict (node_metadata n))].

Definition to_dict (w : WorkflowDefinition) : pydict :=
  [("schema_version", PStr (schema_version w)); ("workflow_id", PStr (workflow_id w));
   ("version", PStr (version w)); ("nodes", PList (PDict ∘ node_to_dict <$> nodes w));
   ("metadata", PDict (metadata w))].

(** ** src/core/workflow_loader.py *)

Record WorkflowHandle := mkHandle {
  h_workflow_id : string;
  h_version : string;
  h_definition : WorkflowDefinition;
  h_source : string;
  h_loaded_at_utc : string;
}.

(** The registry of a loader: handles under workflow id and version *)
Definition WorkflowLoader : Type := list ((string * string) * WorkflowHandle).

(** What the loader reads with: the files, [json.loads], and [yaml.safe_load] when the library is there *)
Record reading := mkReading {
  files : list (string * string);
  json_loads : string → pyval + string;
  yaml_load : option (string → pyval + string);
}.

(** The part of a path after its last slash *)
Fixpoint path_name_from (name s : string) : string :=
  match s with
  | EmptyString => name
  | String c s' => path_name_from (if bool_decide (c = Ascii.ascii_of_nat 47) then s' else name) s'
  end.

Definition path_name (s : string) : string := path_name_from s s.

(** The longest part from a dot on: [s[s.rfind("."):]], when there is a dot *)
Fixpoint from_last_dot (s : string) : option string :=
  match s with
  | EmptyString => None
  | String c s' =>
      match from_last_dot s' with
      | Some r => Some r
      | None => if bool_decide (c = Ascii.ascii_of_nat 46) then Some s else None
      end
  end.

(** [Path.suffix]: a dot at the start or at the end of the name makes no suffix. *)
Definition path_suffix (path : string) : string :=
  match path_name path with
  | EmptyString => ""
  | String _ rest =>
      match from_last_dot rest with
      | Some s => if (py_len s =? 1) then "" else s
      | None => ""
      end
  end.

Definition quoted (s : string) : string := "'" +:+ s +:+ "'".

(** The payload that a text is parsed to, which has to be an object *)
Definition payload_object (source : string) (payload : pyval) : checked pydict :=
  required (as_dict payload) "WORKFLOW_PAYLOAD_TYPE_INVALID"
    ("Workflow payload in " +:+ quoted source +:+ " must be an object")
    [("source", PStr source); ("received_type", PStr (type_name payload))].

(** [_load_json], and the part of [_load_yaml] after the import *)
Definition load_text (load : string → pyval + string) (code kind raw source : string) : checked pydict :=
  match load raw with
  | inl payload => payload_object source payload
  | inr error =>
      Invalid (mkWorkflowError code ("Invalid " +:+ kind +:+ " workflow definition in " +:+ quoted source)
                 [("source", PStr source); ("error", PStr error)])
  end.

Definition read_payload (w : reading) (source raw : string) : checked pydict :=
  let suffix := py_lower (path_suffix source) in
  if suffix =?s ".json" then load_text (json_loads w) "WORKFLOW_JSON_INVALID" "JSON" raw source
  else if (suffix =?s ".yaml") || (suffix =?s ".yml") then
    match yaml_load w with
    | None =>
        Invalid (mkWorkflowError "WORKFLOW_YAML_DEPENDENCY_MISSING"
                   "PyYAML is required to load YAML workflow definitions" [("source", PStr source)])
    | Some load => load_text load "WORKFLOW_YAML_INVALID" "YAML" raw source
    end
  else
    Invalid (mkWorkflowError "WORKFLOW_EXTENSION_UNSUPPORTED"
               ("Unsupported workflow source extension " +:+ quoted suffix)
               [("source", PStr source); ("extension", PStr suffix)]).

Definition parse_definition (payload : pydict) (source : string) : checked WorkflowDefinition :=
  match from_dict (PDict payload) with
  | Valid w => Valid w
  | Invalid e =>
      Invalid (mkWorkflowError (code e)
                 ("Workflow schema validation failed for " +:+ quoted source +:+ ": " +:+ message e)
                 (dict_update [("source", PStr source)] (details e)))
  end.

(** The definition that a source has *)
Definition read_definition (w : reading) (source : string) : checked WorkflowDefinition :=
  match od_get source (files w) with
  | None =>
      Invalid (mkWorkflowError "WORKFLOW_SOURCE_NOT_FOUND"
                 ("Workflow source " +:+ quoted source +:+ " was not found") [("source", PStr source)])
  | Some raw =>
      let^ payload := read_payload w source raw in
      parse_definition payload source
  end.

Definition key_of (d : WorkflowDefinition) : string * string := (workflow_id d, version d).

Definition named (id ver : string) : string := "Workflow " +:+ quoted id +:+ " version " +:+ quoted ver.

Definition versioned (id ver : string) : pydict := [("workflow_id", PStr id); ("version", PStr ver)].

Definition load_workflow (l : WorkflowLoader) (w : reading) (now source : string) (replace_existing : bool)
    : checked WorkflowHandle * WorkflowLoader :=
  match read_definition w source with
  | Invalid e => (Invalid e, l)
  | Valid d =>
      if od_mem (key_of d) l && negb replace_existing then
        (Invalid (mkWorkflowError "WORKFLOW_ALREADY_REGISTERED"
                    (named (workflow_id d) (version d) +:+ " is already loaded")
                    (versioned (workflow_id d) (version d))), l)
      else
        let h := mkHandle (workflow_id d) (version d) d source now in
        (Valid h, od_set (key_of d) h l)
  end.

Definition reload_workflow (l : WorkflowLoader) (w : reading) (now source : string)
    : checked WorkflowHandle * WorkflowLoader :=
  load_workflow l w now source true.

Definition get_workflow (l : WorkflowLoader) (id ver : string) : checked WorkflowHandle :=
  required (od_get (id, ver) l) "WORKFLOW_NOT_FOUND" (named id ver +:+ " is not loaded") (versioned id ver).

(** [sorted(..., key=lambda handle: (handle.workflow_id, handle.version))] *)
Definition handle_le : relation WorkflowHandle :=
  λ h k, lex_le String.le String.le (h_workflow_id h, h_version h) (h_workflow_id k, h_version k).

#[export] Instance handle_le_dec : RelDecision handle_le.
Proof. intros h k. unfold handle_le, lex_le. apply _. Defined.

Definition list_workflows (l : WorkflowLoader) : list WorkflowHandle := sort_by handle_le (od_values l).

(** ** src/persistence/workflow_store.py *)

Record WorkflowRecord := mkWorkflowRecord {
  wr_workflow_id : string;
  wr_version : string;
  wr_tenant_id : string;
  wr_payload : pydict;
}.

Module InMemoryWorkflowStore.
Notation t := (list ((string * string * string) * WorkflowRecord)).

Definition save_workflow (s : t) (r : WorkflowRecord) : t :=
  od_set (wr_tenant_id r, wr_workflow_id r, wr_version r) r s.

Definition load_workflow (s : t) (id ver tenant_id : string) : option WorkflowRecord :=
  od_get (tenant_id, id, ver) s.
End InMemoryWorkflowStore.

(** * What the workflow schema and the loader guarantee

    Which payloads are accepted as which definitions, that a definition written out is read back, and
    what the registry of a loader holds. *)

(** ** Fields *)

Lemma required_valid {A} (m : option A) c msg d a : required m c msg d = Valid a ↔ m = Some a.
Proof. destruct m as [b|]; cbn; split; congruence. Qed.

Lemma bind_valid {A B} (m : checked A) (k : A → checked B) b :
  checked_bind m k = Valid b ↔ ∃ a, m = Valid a ∧ k a = Valid b.
Proof. destruct m as [a|e]; cbn; [|split; [done|by intros (? & ? & _)]]. split; [eauto|]. by intros (? & [= <-] & ?). Qed.

(** A value is the text [s] but for blanks around it. *)
Definition is_text (v : pyval) (s : string) : Prop := ∃ t, v = PStr t ∧ py_strip t = s ∧ s ≠ "".

Lemma is_text_self s : py_strip s = s → s ≠ "" → is_text (PStr s) s.
Proof. intros Hs Hne. by exists s. Qed.

Lemma is_text_stripped v s : is_text v s → py_strip s = s ∧ s ≠ "".
Proof. intros (t & _ & <- & Hne). split; [apply py_strip_idem|done]. Qed.

Lemma nonblank_text v s : (∃ t, nonblank v = Some t ∧ py_strip t = s) ↔ is_text v s.
Proof.
  unfold nonblank, is_text, py_bool. split.
  - intros (t & Ht & <-). destruct v; try done. case_bool_decide; [done|]. injection Ht as <-. eauto.
  - intros (t & -> & <- & Hne). exists t. by rewrite bool_decide_false.
Qed.

Lemma mapM_texts l ss : (∃ ts, mapM nonblank l = Some ts ∧ py_strip <$> ts = ss) ↔ Forall2 is_text l ss.
Proof.
  split.
  - intros (ts & Ht & <-). apply mapM_Some in Ht. induction Ht as [|v t l ts Hv Ht IH]; constructor; [|done].
    apply nonblank_text. eauto.
  - induction 1 as [|v s l ss Hv Hl (ts & Hts & <-)]; [by exists []|].
    apply nonblank_text in Hv as (t & Ht & <-). exists (t :: ts). split; [|done].
    cbn. rewrite Ht. cbn. by rewrite Hts.
Qed.

Definition are_texts (v : pyval) (ss : list string) : Prop := ∃ l, v = PList l ∧ Forall2 is_text l ss.

Lemma texts_are v ss : (∃ ts, texts v = Some ts ∧ py_strip <$> ts = ss) ↔ are_texts v ss.
Proof.
  unfold texts, are_texts. split.
  - intros (ts & Ht & Hs). destruct v; try done. eexists. split; [done|]. apply mapM_texts. eauto.
  - intros (l & -> & Hl). by apply mapM_texts.
Qed.

Lemma int_at_least_spec least v n : int_at_least least v = Some n ↔ as_int v = Some n ∧ least ≤ n.
Proof.
  unfold int_at_least. destruct (as_int v) as [m|]; [|naive_solver].
  destruct (Z.leb_spec least m); split; [intros [= ->]|intros [[= ->] _]| |intros [[= ->] ?]]; try done; lia.
Qed.

Lemma as_dict_some v d : as_dict v = Some d ↔ v = PDict d.
Proof. destruct v; cbn; split; congruence. Qed.

(** ** Nodes *)

(** The node [n] that an object describes *)
Definition describes_node (d : pydict) (n : WorkflowNode) : Prop :=
  is_text (dict_get d "node_id" PNone) (node_id n) ∧
  is_text (dict_get d "agent_role" PNone) (agent_role n) ∧
  are_texts (dict_get d "depends_on" (PList [])) (depends_on n) ∧
  as_int (dict_get d "timeout_s" (PInt 30)) = Some (timeout_s n) ∧ 1 ≤ timeout_s n ∧
  as_int (dict_get d "retry_limit" (PInt 0)) = Some (retry_limit n) ∧ 0 ≤ retry_limit n ∧
  dict_get d "metadata" (PDict []) = PDict (node_metadata n).

Lemma node_from_dict_exact p n : node_from_dict p = Valid n ↔ ∃ d, p = PDict d ∧ describes_node d n.
Proof.
  unfold node_from_dict, describes_node. split.
  - intros (d & Hp & H)%bind_valid. apply required_valid, as_dict_some in Hp. exists d. split; [done|].
    apply bind_valid in H as (id & Hid & H). apply required_valid in Hid.
    apply bind_valid in H as (role & Hr & H). apply required_valid in Hr.
    apply bind_valid in H as (deps & Hd & H). apply required_valid in Hd.
    apply bind_valid in H as (t & Ht & H). apply required_valid, int_at_least_spec in Ht as [Ht Hle].
    apply bind_valid in H as (k & Hk & H). apply required_valid, int_at_least_spec in Hk as [Hk Hle'].
    apply bind_valid in H as (m & Hm & H). apply required_valid, as_dict_some in Hm. injection H as <-. cbn.
    split_and!; try done; [apply nonblank_text; eauto..|apply texts_are; eauto].
  - intros (d & -> & (id & Hid & Eid)%nonblank_text & (role & Hr & Er)%nonblank_text & (deps & Hd & Ed)%texts_are
      & Ht & Hle & Hk & Hle' & Hm).
    cbn [as_dict required checked_bind]. rewrite Hid. cbn [required checked_bind]. rewrite Hr.
    cbn [required checked_bind]. rewrite Hd. cbn [required checked_bind]. rewrite (proj2 (int_at_least_spec 1 _ _) (conj Ht Hle)). cbn [required checked_bind].
    rewrite (proj2 (int_at_least_spec 0 _ _) (conj Hk Hle')). cbn [required checked_bind]. rewrite Hm.
    cbn. rewrite Eid, Er, Ed. by destruct n.
Qed.

Lemma nodes_from_exact l ns :
  nodes_from l = Valid ns ↔ Forall2 (λ p n, ∃ d, p = PDict d ∧ describes_node d n) l ns.
Proof.
  revert ns. induction l as [|p l IH]; intros ns; cbn.
  - split; [intros [= <-]; constructor|]. by inversion 1.
  - split.
    + intros (n & Hn & (ns' & Hns & [= <-])%bind_valid)%bind_valid.
      constructor; [by apply node_from_dict_exact in Hn|by apply IH].
    + intros (n & ns' & Hn & Hns & ->)%Forall2_cons_inv_l. apply bind_valid. exists n.
      split; [by apply (proj2 (node_from_dict_exact p n))|]. apply bind_valid. exists ns'. split; [by apply IH|done].
Qed.

(** ** Validation *)

(** The nodes have distinct ids and depend on other nodes of the workflow. *)
Definition sound_nodes (ns : list WorkflowNode) : Prop :=
  NoDup (node_id <$> ns) ∧
  ∀ n, n ∈ ns → node_id n ∉ depends_on n ∧ ∀ d, d ∈ depends_on n → d ∈ node_id <$> ns.

Lemma sorted_strings_nil l : sorted_strings l = [] ↔ l = [].
Proof.
  unfold sorted_strings. split; [|by intros ->]. intros H. apply Permutation_nil_r.
  rewrite <- H. symmetry. apply sort_by_perm.
Qed.

Lemma remove_dups_nil (l : list string) : remove_dups l = [] ↔ l = [].
Proof.
  split; [|by intros ->]. intros H. destruct l as [|x l]; [done|].
  assert (x ∈ remove_dups (x :: l)) as Hx by (rewrite elem_of_remove_dups; left).
  rewrite H in Hx. by apply elem_of_nil in Hx.
Qed.

Lemma filter_nil {A} (P : A → Prop) `{!∀ x, Decision (P x)} (l : list A) :
  filter P l = [] ↔ ∀ x, x ∈ l → ¬ P x.
Proof.
  split; [|by apply filter_all_out]. intros Hf x Hx Hp.
  assert (x ∈ filter P l) as Hin by by apply list_elem_of_filter. rewrite Hf in Hin. by apply elem_of_nil in Hin.
Qed.

Lemma duplicate_ids_nil ids : duplicate_ids ids = [] ↔ NoDup ids.
Proof.
  unfold duplicate_ids. rewrite sorted_strings_nil, remove_dups_nil, filter_nil.
  rewrite NoDup_ListNoDup, (NoDup_count_occ String.string_dec). split.
  - intros H x. destruct (decide (x ∈ ids)) as [Hx|Hx]; [specialize (H x Hx); lia|].
    rewrite list_elem_of_In, (count_occ_not_In String.string_dec) in Hx. lia.
  - intros H x _. specialize (H x). lia.
Qed.

Lemma unknown_nil (known deps : list string) :
  sorted_strings (remove_dups (filter (λ d, d ∉ known) deps)) = [] ↔ ∀ d, d ∈ deps → d ∈ known.
Proof.
  rewrite sorted_strings_nil, remove_dups_nil. split.
  - intros Hf d Hd. apply dec_stable. exact (proj1 (filter_nil _ _) Hf d Hd).
  - intros Hk. apply (proj2 (filter_nil _ _)). intros d Hd Hn. by apply Hn, Hk.
Qed.

Lemma validate_nodes_valid known ns :
  validate_nodes known ns = Valid tt ↔
  ∀ n, n ∈ ns → node_id n ∉ depends_on n ∧ ∀ d, d ∈ depends_on n → d ∈ known.
Proof.
  induction ns as [|n ns IH]; cbn [validate_nodes]; [split; [by intros _ n Hn%elem_of_nil|done]|].
  case_bool_decide as Hs.
  { split; [done|]. intros H. by destruct (H n) as [? _]; [left|]. }
  destruct (sorted_strings _) as [|u us] eqn:E.
  - rewrite unknown_nil in E. rewrite IH. split.
    + intros H m [->|Hm]%elem_of_cons; [done|by apply H].
    + intros H m Hm. apply H. by right.
  - split; [done|]. intros H. destruct (H n) as [_ Hk]; [left|]. apply unknown_nil in Hk. congruence.
Qed.

Lemma validate_valid w :
  validate w = Valid tt ↔ schema_version w = WORKFLOW_SCHEMA_VERSION ∧ sound_nodes (nodes w).
Proof.
  unfold validate, sound_nodes. case_bool_decide as Hv; cbn [negb]; [|split; [done|by intros []]].
  rewrite <- duplicate_ids_nil. destruct (duplicate_ids _) as [|i dups]; [|split; [done|by intros (_ & ? & _)]].
  rewrite validate_nodes_valid. naive_solver.
Qed.

(** ** Definitions *)

(** The definition [w] that a payload describes *)
Definition describes (p : pyval) (w : WorkflowDefinition) : Prop :=
  ∃ d l, p = PDict d ∧
    is_text (dict_get d "schema_version" PNone) WORKFLOW_SCHEMA_VERSION ∧
    schema_version w = WORKFLOW_SCHEMA_VERSION ∧
    is_text (dict_get d "workflow_id" PNone) (workflow_id w) ∧
    is_text (dict_get d "version" PNone) (version w) ∧
    dict_get d "nodes" PNone = PList l ∧ l ≠ [] ∧
    Forall2 (λ p n, ∃ d, p = PDict d ∧ describes_node d n) l (nodes w) ∧
    dict_get d "metadata" (PDict []) = PDict (metadata w) ∧
    sound_nodes (nodes w).

Lemma nonempty_list_some v l : nonempty_list v = Some l ↔ v = PList l ∧ l ≠ [].
Proof. destruct v as [| | | | |[|x l']|]; cbn; split; naive_solver. Qed.

Lemma from_dict_sound p w : from_dict p = Valid w → describes p w.
Proof.
  unfold from_dict, describes.
  intros (d & Hp & H)%bind_valid. apply required_valid, as_dict_some in Hp.
  apply bind_valid in H as (sv & Hsv & H). apply required_valid in Hsv.
  apply bind_valid in H as (id & Hid & H). apply required_valid in Hid.
  apply bind_valid in H as (ver & Hver & H). apply required_valid in Hver.
  apply bind_valid in H as (l & Hl & H). apply required_valid, nonempty_list_some in Hl as [Hl Hne].
  apply bind_valid in H as (m & Hm & H). apply required_valid, as_dict_some in Hm.
  apply bind_valid in H as (ns & Hns & H). apply nodes_from_exact in Hns.
  apply bind_valid in H as ([] & Hv & [= <-]). apply validate_valid in Hv as [Hs Hv].
  exists d, l. cbn in *. split_and!; try done; apply nonblank_text; eauto.
Qed.

Lemma from_dict_complete p w : describes p w → from_dict p = Valid w.
Proof.
  unfold from_dict, describes.
  intros (d & l & -> & (sv & Hsv & Esv)%nonblank_text & Ew & (id & Hid & Eid)%nonblank_text
    & (ver & Hver & Ever)%nonblank_text & Hl & Hne & Hns & Hm & Hs).
  cbn [as_dict required checked_bind]. rewrite Hsv. cbn [required checked_bind].
  rewrite Hid. cbn [required checked_bind]. rewrite Hver. cbn [required checked_bind].
  rewrite (proj2 (nonempty_list_some _ l) (conj Hl Hne)). cbn [required checked_bind]. rewrite Hm.
  cbn [as_dict required checked_bind]. rewrite (proj2 (nodes_from_exact l _) Hns). cbn [checked_bind].
  rewrite Esv, Eid, Ever, (proj2 (validate_valid _)) by (cbn; split; [done|exact Hs]).
  cbn [checked_bind]. f_equal. destruct w. cbn in *. by subst.
Qed.

(** C28: The payloads that are accepted, and the definition that each gives: the schema version is 1.0,
    identifiers are texts and are stripped of blanks, there is a node at least, timeouts are positive and
    retry limits not negative, the nodes have distinct ids, and every dependency is another node of the
    workflow; what a payload leaves out has its default. *)
Theorem workflow_accepted_exactly p w : from_dict p = Valid w ↔ describes p w.
Proof. split; [apply from_dict_sound|apply from_dict_complete]. Qed.

(** ** Writing a definition *)

Lemma texts_value_are ss : Forall (λ s, py_strip s = s ∧ s ≠ "") ss → are_texts (texts_value ss) ss.
Proof.
  intros H. eexists. split; [done|]. induction H as [|s ss [Hs Hne] _ IH]; cbn; constructor; [|done].
  by apply is_text_self.
Qed.

Lemma texts_are_stripped v ss : are_texts v ss → Forall (λ s, py_strip s = s ∧ s ≠ "") ss.
Proof.
  intros (l & _ & Hl). induction Hl as [|v' s l ss Hv _ IH]; constructor; [by eapply is_text_stripped|done].
Qed.

Lemma node_to_dict_describes d n : describes_node d n → describes_node (node_to_dict n) n.
Proof.
  intros ([Hi Hin]%is_text_stripped & [Hr Hrn]%is_text_stripped & Hd%texts_are_stripped & _ & Ht & _ & Hk & _).
  split_and!; try done; [by apply is_text_self..|by apply texts_value_are].
Qed.

(** An accepted definition that is written out is read back as it is. *)
Theorem workflow_round_trip p w : from_dict p = Valid w → from_dict (PDict (to_dict w)) = Valid w.
Proof.
  intros H%from_dict_sound. apply from_dict_complete. revert H.
  intros (d & l & _ & _ & Es & [Hi Hin]%is_text_stripped & [Hv Hvn]%is_text_stripped & _ & Hne & Hns & _ & Hs).
  exists (to_dict w), (PDict ∘ node_to_dict <$> nodes w). split_and!; try done.
  - change (is_text (PStr (schema_version w)) WORKFLOW_SCHEMA_VERSION). rewrite Es. by apply is_text_self.
  - by apply is_text_self.
  - by apply is_text_self.
  - intros E%fmap_nil_inv. rewrite E in Hns. by apply Forall2_nil_inv_r in Hns.
  - clear -Hns. induction Hns as [|p n l ns (d & _ & Hn) _ IH]; cbn; constructor; [|done].
    eexists. split; [done|]. by eapply node_to_dict_describes.
Qed.

(** ** The registry of a loader *)

#[export] Instance handle_le_trans : Transitive handle_le.
Proof. intros h k m. unfold handle_le. apply lex_le_trans; apply _. Qed.

#[export] Instance handle_le_total : Total handle_le.
Proof. intros h k. unfold handle_le. apply lex_le_total; apply _. Qed.

(** A request to load a source: what is read then, the time, and whether a version may be replaced *)
Record load_request := mkRequest {
  lq_reading : reading;
  lq_now : string;
  lq_source : string;
  lq_replace : bool;
}.

Definition answer_load (l : WorkflowLoader) (q : load_request) : checked WorkflowHandle * WorkflowLoader :=
  load_workflow l (lq_reading q) (lq_now q) (lq_source q) (lq_replace q).

(** The definition that the source of a request has *)
Definition requested (q : load_request) : checked WorkflowDefinition := read_definition (lq_reading q) (lq_source q).

(** A loader after requests *)
Definition loaded (qs : list load_request) : WorkflowLoader := foldl (λ l q, (answer_load l q).2) [] qs.

(** The handle that a request gives for a definition *)
Definition handle_of (q : load_request) (d : WorkflowDefinition) : WorkflowHandle :=
  mkHandle (workflow_id d) (version d) d (lq_source q) (lq_now q).

Lemma answer_load_cases l q :
  let '(answer, l') := answer_load l q in
  match answer with
  | Valid h =>
      ∃ d, requested q = Valid d ∧ h = handle_of q d ∧ l' = od_set (key_of d) h l ∧
        (od_get (key_of d) l = None ∨ lq_replace q = true)
  | Invalid e =>
      l' = l ∧
      (requested q = Invalid e ∨
       ∃ d, requested q = Valid d ∧ code e = "WORKFLOW_ALREADY_REGISTERED" ∧ is_Some (od_get (key_of d) l) ∧
         lq_replace q = false)
  end.
Proof.
  unfold answer_load, load_workflow, requested. destruct (read_definition _ _) as [d|e]; [|by auto].
  unfold od_mem. case_bool_decide as Hm; cbn [andb].
  - destruct (lq_replace q); cbn [negb]; [|split; [done|right; by exists d]].
    exists d. split_and!; auto.
  - exists d. split_and!; try done. left. by apply eq_None_not_Some.
Qed.

(** Every handle is under the id and the version of its definition, which is what some request read from
    the source of the handle at the time of the handle. *)
Definition handles_read (qs : list load_request) (l : WorkflowLoader) : Prop :=
  ∀ key h, od_get key l = Some h →
    ∃ q d, q ∈ qs ∧ requested q = Valid d ∧ h = handle_of q d ∧ key = key_of d.

Lemma handles_read_weaken qs qs' l : handles_read qs l → handles_read (qs ++ qs') l.
Proof.
  intros Hl key h Hk. destruct (Hl key h Hk) as (q & d & Hq & H). exists q, d.
  split; [|done]. by apply elem_of_app; left.
Qed.

Lemma loaded_snoc qs q : loaded (qs ++ [q]) = (answer_load (loaded qs) q).2.
Proof. unfold loaded. by rewrite foldl_app. Qed.

Lemma loaded_read qs : handles_read qs (loaded qs).
Proof.
  induction qs as [|q qs IH] using rev_ind; [done|]. rewrite loaded_snoc.
  pose proof (answer_load_cases (loaded qs) q) as Hc.
  destruct (answer_load _ _) as [[h|e] l']; cbn [snd].
  - destruct Hc as (d & Hd & -> & -> & _). intros key h Hk. destruct (decide (key = key_of d)) as [->|Hne].
    + rewrite od_get_set in Hk. injection Hk as <-. exists q, d. split_and!; try done.
      apply elem_of_app. right. by left.
    + rewrite od_get_set_ne in Hk by done. by apply (handles_read_weaken qs [q] _ IH).
  - destruct Hc as [-> _]. by apply handles_read_weaken.
Qed.

(** A loader, whatever it loaded before: a request answers a handle with the definition of its source, and
    from then on the handle is what the loader gives for that workflow and version, every other version
    being as before; a version that is loaded is only replaced when the request says so; and a
    request that fails leaves the registry as it was and fails as its source does, or because the version is loaded.  Every
    handle is under the id and version of its definition, which an earlier request read from its source, and the
    listing has every handle, in the order of ids and versions. *)
Theorem loader_registry_kept qs q :
  let l := loaded qs in
  let '(answer, l') := answer_load l q in
  match answer with
  | Valid h =>
      requested q = Valid (h_definition h) ∧ h = handle_of q (h_definition h) ∧
      get_workflow l' (h_workflow_id h) (h_version h) = Valid h ∧
      (∀ id ver, (id, ver) ≠ key_of (h_definition h) → get_workflow l' id ver = get_workflow l id ver) ∧
      (lq_replace q = false → ¬ ∃ h', get_workflow l (h_workflow_id h) (h_version h) = Valid h')
  | Invalid e =>
      l' = l ∧
      (requested q = Invalid e ∨
       ∃ d h', requested q = Valid d ∧ get_workflow l (workflow_id d) (version d) = Valid h' ∧
         code e = "WORKFLOW_ALREADY_REGISTERED" ∧ lq_replace q = false)
  end ∧
  (∀ id ver h, get_workflow l' id ver = Valid h →
     ∃ q' d, q' ∈ qs ++ [q] ∧ requested q' = Valid d ∧ h = handle_of q' d ∧ (id, ver) = key_of d) ∧
  list_workflows l' ≡ₚ od_values l' ∧ StronglySorted handle_le (list_workflows l').
Proof.
  cbv zeta. pose proof (answer_load_cases (loaded qs) q) as Hc. pose proof (loaded_read (qs ++ [q])) as Hr.
  rewrite loaded_snoc in Hr. destruct (answer_load _ _) as [answer l']. cbn [snd] in Hr. split.
  - unfold get_workflow. destruct answer as [h|e].
    + destruct Hc as (d & Hd & -> & -> & Ho). cbn [handle_of h_definition h_workflow_id h_version].
      change (workflow_id d, version d) with (key_of d). rewrite od_get_set. split_and!; try done.
      * intros id ver Hne. by rewrite od_get_set_ne.
      * intros Hrep [h' Hh%required_valid]. destruct Ho; congruence.
    + destruct Hc as [-> [He|(d & Hd & Hcode & [h' Hh] & Hrep)]]; split; auto.
      right. exists d, h'. split_and!; try done. by apply required_valid.
  - split; [|split; [apply sort_by_perm|apply sort_by_sorted; apply _]].
    intros id ver h Hh%required_valid. exact (Hr _ _ Hh).
Qed.

(** ** Concrete workflows *)
Module WorkflowExamples.

Definition node (id : string) (deps : list string) : pyval :=
  PDict [("node_id", PStr id); ("agent_role", PStr "planner"); ("depends_on", texts_value deps)].

Definition payload (nodes : list pyval) : pyval :=
  PDict [("schema_version", PStr "1.0"); ("workflow_id", PStr " release "); ("version", PStr "1"); ("nodes", PList nodes)].

(** Two nodes that depend on each other *)
Definition circle : pyval := payload [node "a" ["b"]; node "b" ["a"]].

Definition task (n : WorkflowNode) : TaskNode :=
  mkTaskNode (node_id n) (depends_on n) (retry_limit n) (1000 * timeout_s n) (node_metadata n).

(** The schema accepts a circle of dependencies, which the graph of the scheduler refuses. *)
Lemma circular_workflow_is_accepted :
  match from_dict circle with
  | Valid w => make_graph (task <$> nodes w) = Raise (ValueError "Cycle detected at task node 'a'")
  | Invalid _ => False
  end.
Proof. vm_compute. done. Qed.

Definition plan : WorkflowDefinition :=
  mkDefinition "1.0" "release" "1" [mkNode "a" "planner" [] 30 0 []; mkNode "b" "planner" ["a"] 30 0 []] [].

Lemma workflow_round_trip_witness :
  from_dict (payload [node "a" []; node " b " ["a "]]) = Valid plan ∧ from_dict (PDict (to_dict plan)) = Valid plan.
Proof.
  assert (from_dict (payload [node "a" []; node " b " ["a "]]) = Valid plan) as H by (vm_compute; reflexivity).
  split; [exact H|]. exact (workflow_round_trip _ _ H).
Defined.

(** The codes of some payloads that are refused *)
Lemma refused_codes :
  let code_of (p : pyval) := match from_dict p with Valid _ => "" | Invalid e => code e end in
  code_of (payload []) = "WORKFLOW_NODES_INVALID" ∧
  code_of (payload [node "a" []; node "a" []]) = "WORKFLOW_NODE_DUPLICATE_ID" ∧
  code_of (payload [node "a" ["a"]]) = "WORKFLOW_NODE_SELF_DEPENDENCY" ∧
  code_of (payload [node "a" ["c"]]) = "WORKFLOW_NODE_UNKNOWN_DEPENDENCY" ∧
  code_of (PStr "a") = "WORKFLOW_DEFINITION_TYPE_INVALID".
Proof. vm_compute. done. Qed.

(** The suffix of a path *)
Lemma suffixes :
  map path_suffix ["plans/release.json"; "release.v1.YAML"; "plans.d/release"; ".json"; "release."] =
  [".json"; ".YAML"; ""; ""; ""].
Proof. vm_compute. done. Qed.
End WorkflowExamples.
