(* ===== verification/ByocExecution.v ===== *)
(** * Executing a tool call with a BYOC worker

    Models [execute] of src/tools/byoc/connector_runtime.py and the results it builds: the cost
    limit, fair admission, the job, the wait for its result, and the costs.  While a call waits
    for its result other requests run; each turn of the wait comes with the operations that
    ran since the last one ([operation], [poll]).  The answer of the fair-admission
    coordinator, which FairAdmission.v models, is an argument.  [job_uuid] is the random part
    of the job's id, the clocks are arguments, and times of the wait are in microseconds.
    Calls, results and errors are those of the contracts package (ToolIO.v). *)

From S2P Require Import Prelude PyValue ToolIO ToolExecutor ToolPackages ByocJobs ByocResults.
From S2P Require Import ByocConnector.

(** ** The runtime *)

Record byoc_runtime := mkByocRuntime {
  conn : connector;
  fair_admission_enabled : bool;
  non_blocking_execute : bool;
  fair_admission_timeout_total : Z;
  tenant_fair_admission_timeout_total : gmap string Z;
}.

Definition with_conn (s : byoc_runtime) (c : connector) : byoc_runtime :=
  mkByocRuntime c (fair_admission_enabled s) (non_blocking_execute s)
    (fair_admission_timeout_total s) (tenant_fair_admission_timeout_total s).

Definition backend_id : string := "byoc_pull_worker_runtime".

(** ** Other requests

    What may run while a call waits: the operations of workers and administrators, and the steps of
    other calls of [execute] (their enqueues, polls and charges). *)
Inductive operation :=
| OpClaim (clock : nat → Z) (token tenant_id worker_token request_nonce : string)
| OpSubmit (clock : nat → Z) (tenant_id worker_token request_nonce : string)
    (result : ByocToolResultEnvelope)
| OpWebhook (clock : nat → Z) (tenant_id webhook_secret webhook_request_id : string)
    (result : ByocToolResultEnvelope)
| OpCancel (cancel_clock : string → Z) (now : Z) (call_id : string)
| OpReplay (tenant_id job_id : string)
| OpReplayBulk (tenant_id : string) (job_ids : list string) (limit : Z)
| OpCleanup (clock : nat → Z) (tenant_id : string) (force : bool)
| OpDrain (call_id : string)
| OpEnqueue (job : ByocToolJobEnvelope)
| OpRequeue (now : Z) (tenant_id : string)
| OpConsume (job_id : string)
| OpCharge (now : Z) (tenant_id provider_id tool_name : string) (amount : Z).

(** The [queued] progress of a job. *)
Definition queued_progress (job : ByocToolJobEnvelope) : progress_event :=
  mkProgress (ev_call_id job) (ev_tool_name job) "queued" "" "" (ev_job_id job) "" "" "".

(** Enqueueing a job, its progress event and the counter. *)
Definition enqueue_job (s : connector) (job : ByocToolJobEnvelope) : connector :=
  bump (record_progress (with_jobs s (Jobs.enqueue (job_store s) job)) (queued_progress job))
    "enqueued_jobs_total" 1.

(** [self._result_store.consume] *)
Definition consume_result (s : connector) (job_id : string)
    : option ByocToolResultEnvelope * connector :=
  let '(r, results) := Results.consume (result_store s) job_id in (r, with_results s results).

Section byoc_execution.
Variable float_repr : Q → string.
Variable jwt_decode : Z → string → string → jwt_result.
Variable py_int : pyval → option Z.

#[local] Notation claim_next_job := (claim_next_job float_repr jwt_decode py_int).
#[local] Notation submit_result := (submit_result float_repr jwt_decode py_int).

Definition apply_operation (s : connector) (o : operation) : connector :=
  match o with
  | OpClaim clock token t wt nonce => (claim_next_job s clock token t wt nonce).2
  | OpSubmit clock t wt nonce r => (submit_result s clock t wt nonce r).2
  | OpWebhook clock t secret id r => (submit_result_webhook s clock t secret id r).2
  | OpCancel cc now call => (request_cancellation s cc now call).2
  | OpReplay t id => (replay_dead_letter_job s t id).2
  | OpReplayBulk t ids limit => (replay_dead_letter_jobs s t ids limit).2
  | OpCleanup clock t force => (cleanup_retention s clock t force).2
  | OpDrain call => (drain_progress_events s call).2
  | OpEnqueue job => enqueue_job s job
  | OpRequeue now t => requeue_expired_leases s now t
  | OpConsume id => (consume_result s id).2
  | OpCharge now t p n amount => with_costs s (record_tenant_cost (cfg s) (costs s) now t p n amount)
  end.

Definition apply_operations (s : connector) (os : list operation) : connector := foldl apply_operation s os.

(** ** Waiting for a result *)

(** One turn of [while True]: what ran before it, the reading of the clock for the requeue, and the
    performance counter after the store was asked. *)
Record poll := mkPoll { pl_before : list operation; pl_requeue_now : Z; pl_counter : Z }.

(** [None]: the call still waits after these turns.  A turn that finds no result ends the wait
    when the deadline is reached; the pause of at most 0.1 seconds is left out. *)
Fixpoint wait_for_result (s : connector) (tenant_id job_id : string) (deadline : Z) (polls : list poll)
    : option (option ByocToolResultEnvelope) * connector :=
  match polls with
  | [] => (None, s)
  | p :: polls =>
      let s := apply_operations s (pl_before p) in
      let s := requeue_expired_leases s (pl_requeue_now p) tenant_id in
      match consume_result s job_id with
      | (Some r, s) => (Some (Some r), s)
      | (None, s) =>
          if deadline - pl_counter p <=? 0 then (Some None, s)
          else wait_for_result s tenant_id job_id deadline polls
      end
  end.

(** ** [execute] *)
Section execute.
Context `{!ToolIO} `{!ToolDetails} {Handler : Type}.
#[local] Notation ToolDescriptor := (ToolRegistry.ToolDescriptor Handler).

(** [max(int(descriptor.timeout_ms), 1)] *)
Definition call_timeout (d : ToolDescriptor) : Z := Z.max (ToolRegistry.timeout_ms d) 1.

(** [str(call.tenant_id or "default").strip() or "default"] *)
Definition call_tenant (call : ToolCallContext) : string :=
  py_or (py_strip (py_or (tc_tenant_id call) "default")) "default".

(** The details of [_cost_limit_exceeded] for a call over its limit *)
Definition cost_limit_details (c : config) (tenant_id provider_id tool_name : string) (consumed : Z)
    : pydict :=
  let '(pk, limit, partitioned) := resolve_partition_limit c provider_id tool_name in
  [("tenant_id", PStr (normalized_tenant tenant_id)); ("partition_key", PStr pk);
   ("partition_consumed_microunits", PInt consumed); ("partition_limit_microunits", PInt limit);
   ("partitioned_policy_applied", PInt (if partitioned then 1 else 0))] ++
  (if enable_cost_window c then [("window_seconds", PInt (cost_window_seconds c))] else []).

(** A call refused before it became a job. *)
Definition refused_call (call : ToolCallContext) (timeout_ms : Z) (code message : string)
    (retryable : bool) (details : pydict) : ToolResult :=
  new_result "1.0" (tc_call_id call) (tc_tool_name call) ERROR None
    (Some (new_detailed_error code "policy" message retryable details))
    (new_execution DETERMINISTIC None None (Some timeout_ms))
    (Some (new_audit (tc_call_id call) None)).

Definition runtime_fields (tenant_id : string) : pydict :=
  [("backend_id", PStr backend_id); ("tenant_id", PStr tenant_id)].

(** [_cost_limit_result] *)
Definition cost_limit_result (s : connector) (call : ToolCallContext) (timeout_ms : Z)
    (tenant_id reason_code : string) (details : pydict) : ToolResult * connector :=
  let reason := py_or (py_strip reason_code) "BYOC_COST_LIMIT_EXCEEDED" in
  (refused_call call timeout_ms reason "BYOC tenant cost limit exceeded." false
     (dict_update (runtime_fields tenant_id) details),
   increment_rejection s tenant_id reason).

(** [_fair_admission_timeout_result] *)
Definition fair_admission_timeout_result (s : byoc_runtime) (call : ToolCallContext) (timeout_ms : Z)
    (tenant_id : string) : ToolResult * byoc_runtime :=
  (refused_call call timeout_ms "BYOC_FAIR_ADMISSION_TIMEOUT"
     "BYOC fair admission wait timeout exceeded." true (runtime_fields tenant_id),
   mkByocRuntime (increment_rejection (conn s) tenant_id "BYOC_FAIR_ADMISSION_TIMEOUT")
     (fair_admission_enabled s) (non_blocking_execute s) (fair_admission_timeout_total s + 1)
     (bump_in (tenant_fair_admission_timeout_total s) tenant_id 1)).

Definition job_idempotency_key (call : ToolCallContext) : string :=
  call_tenant call +:+ ":" +:+ tc_call_id call +:+ ":" +:+ py_or (tc_run_id call) "run".

(** The job of a call.  The executor has checked that the arguments are a dictionary. *)
Definition job_of (call : ToolCallContext) (d : ToolDescriptor) (job_uuid : string) : ByocToolJobEnvelope :=
  let meta key := dict_get_str float_repr (ToolRegistry.metadata d) key "" in
  mkEnvelope ("job_" +:+ job_uuid) (call_tenant call) (tc_run_id call) (tc_call_id call)
    (ToolRegistry.name d) (default [] (as_dict (tc_arguments call))) (call_timeout d) (tc_call_id call)
    (job_idempotency_key call) "" 0 0 (meta "tool_version") (meta "package_ref") (meta "entry_file")
    (meta "entrypoint") (meta bundle_hash_key) (meta bundle_signature_key) (meta signature_version_key).

Definition queued_result (call : ToolCallContext) (t : timing) (timeout_ms : Z) (tenant_id job_id : string)
    : ToolResult :=
  new_result "1.0" (tc_call_id call) (tc_tool_name call) SUCCESS
    (Some (PDict
       [("value", PDict [("queued", PBool true); ("job_id", PStr job_id)]);
        ("runtime", PDict (runtime_fields tenant_id ++ [("mode", PStr "non_blocking_submit")]))]))
    None (timed t timeout_ms) (Some (new_audit (tc_call_id call) None)).

Definition timeout_result (call : ToolCallContext) (t : timing) (timeout_ms : Z) (tenant_id job_id : string)
    : ToolResult :=
  new_result "1.0" (tc_call_id call) (tc_tool_name call) TIMEOUT None
    (Some (new_detailed_error "BYOC_RUNTIME_TIMEOUT" "tool_runtime"
       ("BYOC worker result not received before timeout (" +:+ str_of_Z timeout_ms +:+ "ms).") true
       (runtime_fields tenant_id ++ [("job_id", PStr job_id)])))
    (timed t timeout_ms) (Some (new_audit (tc_call_id call) None)).

Definition status_of (s : tool_status) : ToolStatus :=
  match s with
  | ToolSuccess => SUCCESS
  | ToolError => ERROR
  | ToolTimeout => TIMEOUT
  | ToolCancelled => CANCELLED
  end.

Definition artifact_fields (r : ByocToolResultEnvelope) : pydict :=
  [("tool_version", PStr (rs_tool_version r));
   ("artifact_bundle_hash_sha256", PStr (rs_bundle_hash r));
   ("artifact_bundle_signature_hmac_sha256", PStr (rs_bundle_signature r));
   ("artifact_signature_version", PStr (rs_signature_version r))].

(** [_map_result], without the charge *)
Definition mapped_result (call : ToolCallContext) (t : timing) (timeout_ms : Z) (tenant_id : string)
    (r : ByocToolResultEnvelope) : ToolResult :=
  let status := map_status (rs_status r) in
  let succeeded := match status with ToolSuccess => true | _ => false end in
  let payload := PDict
    [("value", PDict (rs_output r));
     ("runtime", PDict
        ([("backend_id", PStr backend_id); ("job_id", PStr (rs_job_id r));
          ("idempotency_key", PStr (rs_idempotency_key r)); ("tenant_id", PStr tenant_id)] ++
         artifact_fields r))] in
  let err := new_detailed_error (rs_error_code r) "tool_runtime" (rs_error_message r) (rs_retryable r)
    (runtime_fields tenant_id ++
     [("job_id", PStr (rs_job_id r)); ("idempotency_key", PStr (rs_idempotency_key r))] ++
     artifact_fields r) in
  new_result "1.0" (tc_call_id call) (tc_tool_name call) (status_of status)
    (if succeeded then Some payload else None) (Some (if succeeded then no_error else err))
    (timed t timeout_ms) (Some (new_audit (tc_call_id call) None)).

Definition charge (s : connector) (call : ToolCallContext) (now : Z) (tenant_id tool_name : string) (amount : Z)
    : connector :=
  with_costs s (record_tenant_cost (cfg s) (costs s) now tenant_id (tc_provider_id call) tool_name amount).

(** The progress event at the end of a call. *)
Definition final_progress (s : connector) (call : ToolCallContext) (d : ToolDescriptor) (state : string)
    (r : ToolResult) (job_id lease_token : string) : connector :=
  record_progress s
    (mkProgress (tc_call_id call) (ToolRegistry.name d) state (status_value (tr_status r))
       (error_code (tr_error r)) job_id lease_token "" "").

(** What happens around a call, in the order it happens: the clock of the cost check, the
    operations that run while the call waits for admission and the coordinator's answer, the clock
    of the periodic cleanup, the job's uuid, the performance counter when the wait begins, its
    turns, the clocks at the end, and the clock of the charge. *)
Record circumstances := mkCircumstances {
  ci_cost_now : Z;
  ci_before_admission : list operation;
  ci_admitted : bool;
  ci_cleanup_clock : nat → Z;
  ci_job_uuid : string;
  ci_wait_counter : Z;
  ci_polls : list poll;
  ci_timing : timing;
  ci_charge_now : Z;
}.

(** What a call does with its admission token *)
Inductive admission_effect := AcquireFairAdmission | ReleaseFairAdmission.

#[export] Instance admission_effect_eq_dec : EqDecision admission_effect.
Proof. solve_decision. Defined.

(** The part of [execute] inside [try]: the answer, or None while the call waits. *)
Definition run_job (s : byoc_runtime) (call : ToolCallContext) (d : ToolDescriptor) (ci : circumstances)
    : option ToolResult * connector :=
  let timeout_ms := call_timeout d in
  let tenant_id := call_tenant call in
  let t := ci_timing ci in
  let job := job_of call d (ci_job_uuid ci) in
  let c := enqueue_job (conn s) job in
  if non_blocking_execute s then (Some (queued_result call t timeout_ms tenant_id (ev_job_id job)), c)
  else
    let deadline := ci_wait_counter ci + timeout_ms * 1000 in
    match wait_for_result c tenant_id (ev_job_id job) deadline (ci_polls ci) with
    | (None, c) => (None, c)
    | (Some None, c) =>
        let r := timeout_result call t timeout_ms tenant_id (ev_job_id job) in
        let c := charge c call (ci_charge_now ci) tenant_id (ToolRegistry.name d) (cost_timeout (cfg c)) in
        (Some r, final_progress c call d "timed_out" r (ev_job_id job) "")
    | (Some (Some result), c) =>
        let status := map_status (rs_status result) in
        let r := mapped_result call t timeout_ms tenant_id result in
        let c := charge c call (ci_charge_now ci) tenant_id (tc_tool_name call) (cost_for_status (cfg c) status) in
        (Some r, final_progress c call d (terminal_state status) r (rs_job_id result) (rs_lease_token result))
    end.

Definition execute (s : byoc_runtime) (call : ToolCallContext) (d : ToolDescriptor) (ci : circumstances)
    : option ToolResult * byoc_runtime * list admission_effect :=
  let timeout_ms := call_timeout d in
  let tenant_id := call_tenant call in
  let '((exceeded, reason, consumed), st) :=
    if enforce_cost_limit (cfg (conn s)) then
      cost_limit_exceeded (cfg (conn s)) (costs (conn s)) (ci_cost_now ci) tenant_id
        (tc_provider_id call) (ToolRegistry.name d)
    else ((false, "", 0), costs (conn s)) in
  let c := with_costs (conn s) st in
  if exceeded then
    let '(r, c) := cost_limit_result c call timeout_ms tenant_id reason
      (cost_limit_details (cfg c) tenant_id (tc_provider_id call) (ToolRegistry.name d) consumed) in
    (Some r, with_conn s c, [])
  else
    let s := with_conn s (apply_operations c (ci_before_admission ci)) in
    if fair_admission_enabled s && negb (ci_admitted ci) then
      let '(r, s) := fair_admission_timeout_result s call timeout_ms tenant_id in (Some r, s, [])
    else
      let s := with_conn s (run_periodic_cleanup (conn s) (ci_cleanup_clock ci) tenant_id) in
      let '(answer, c) := run_job s call d ci in
      let taken := if fair_admission_enabled s then [AcquireFairAdmission] else [] in
      let returned := match answer with
                      | Some _ => if fair_admission_enabled s then [ReleaseFairAdmission] else []
                      | None => []
                      end in
      (answer, with_conn s c, taken ++ returned).
End execute.
End byoc_execution.
