(* ===== verification/ByocExecutionFacts.v ===== *)
(** * Properties of executing a tool call with a BYOC worker

    Every entry of the queue stems from the one that was enqueued, every stored result from a
    submission that was accepted; so the answer of a call is what a worker submitted for the
    call's own job.  The wait ends with the deadline, and admission tokens are returned. *)

From S2P Require Import Prelude PyValue ToolIO ToolExecutor ByocJobs ByocFacts ByocResults.
From S2P Require Import ByocConnector ByocConnectorFacts ByocExecution Sample.

(** ** The entries of the queue *)
Section entries.
Import Jobs.

(** The envelope without the fields that a lease sets. *)
Definition unleased (e : ByocToolJobEnvelope) : ByocToolJobEnvelope :=
  mkEnvelope (ev_job_id e) (ev_tenant_id e) (ev_run_id e) (ev_call_id e) (ev_tool_name e)
    (ev_arguments e) (ev_timeout_ms e) (ev_correlation_id e) (ev_idempotency_key e) "" 0 0
    (ev_tool_version e) (ev_package_ref e) (ev_entry_file e) (ev_entrypoint e) (ev_bundle_hash e)
    (ev_bundle_signature e) (ev_signature_version e).

(** Every entry for [id] after stems from one for [id] before: the job is the same. *)
Definition descends (id : string) (s s' : Jobs.t) : Prop :=
  ∀ st', (id, st') ∈ states s' → ∃ st, (id, st) ∈ states s ∧
    unleased (js_envelope st') = unleased (js_envelope st).

Lemma descends_refl id s : descends id s s.
Proof. intros st Hst. by exists st. Qed.

Lemma descends_trans id s1 s2 s3 : descends id s1 s2 → descends id s2 s3 → descends id s1 s3.
Proof.
  intros H12 H23 st Hst. destruct (H23 _ Hst) as (st2 & H2 & ->). by apply H12.
Qed.

Lemma od_set_elem {K V} `{EqDecision K} (k : K) (v : V) m p : p ∈ od_set k v m → p = (k, v) ∨ p ∈ m.
Proof.
  induction m as [|[k' v'] m IH]; cbn; [rewrite elem_of_cons, elem_of_nil; tauto|].
  destruct (decide (k = k')); rewrite !elem_of_cons; naive_solver.
Qed.

(** Replacing the entry of a job that is there. *)
Lemma descends_set id id' st st' s q :
  od_get id' (states s) = Some st → unleased (js_envelope st') = unleased (js_envelope st) →
  descends id s (Jobs.mkStore (od_set id' st' (states s)) q).
Proof.
  intros Hst He st1 [[= -> ->]|Hin]%od_set_elem; [|by exists st1].
  exists st. split; [by apply od_get_elem|done].
Qed.

Lemma descends_map id s q (f : string → JobState → JobState) :
  (∀ i st, js_envelope (f i st) = js_envelope st) →
  descends id s (Jobs.mkStore (od_map f (states s)) q).
Proof.
  intros He st' Hin. unfold od_map in Hin. apply list_elem_of_fmap in Hin as ([i st] & [= -> ->] & Hin).
  exists st. by rewrite He.
Qed.

Lemma descends_requeue id s now mx : descends id s (requeue_unlocked s now mx).1.
Proof.
  intros st'. destruct (requeue_unlocked_spec s now mx) as [-> _].
  apply (descends_map id s (tenant_queue s) (λ _, requeued now mx)). intros. apply requeued_envelope.
Qed.

Lemma pop_queued_found sts q id st rest : pop_queued sts q = (Some (id, st), rest) → od_get id sts = Some st.
Proof.
  induction q as [|i q IH]; cbn [pop_queued]; [done|]. destruct (od_get i sts) eqn:E; [|done].
  case_decide; [|done]. by intros [= <- <- _].
Qed.

Lemma step_descends id s c : ¬ enqueues id c → descends id s (step s c).
Proof.
  intros Hne. destruct c as [job|now tenant worker ttl token|now id' token|now id' token|now mx
    |clock now call|tenant id'|now tenant a b c d]; cbn [step enqueues] in *.
  - unfold enqueue. destruct (od_get _ _); [apply descends_refl|].
    intros st [[= ? _]|Hin]%od_set_elem; [congruence|by exists st].
  - unfold claim_next. pose proof (descends_requeue id s now None) as Hr.
    destruct (requeue_unlocked s now None) as [s1 n]. cbn [fst] in Hr.
    destruct (pop_queued _ _) as [[[id1 st1]|] rest] eqn:Ep; cbn [snd].
    + eapply descends_trans; [done|]. apply pop_queued_found in Ep. by eapply descends_set.
    + intros st Hst. by apply Hr.
  - unfold complete_claim. destruct (od_get id' (states s)) as [st0|] eqn:Est; [|apply descends_refl].
    destruct (negb _); [apply descends_refl|]. destruct (_ <=? _); [apply descends_requeue|].
    destruct (negb _); [apply descends_refl|]. by eapply descends_set.
  - unfold get_leased_job. destruct (od_get id' (states s)); [|apply descends_refl].
    destruct (negb _); [apply descends_refl|]. destruct (_ <=? _); [apply descends_requeue|].
    destruct (negb _); apply descends_refl.
  - unfold requeue_expired_leases. pose proof (descends_requeue id s now mx) as Hr.
    by destruct (requeue_unlocked s now mx).
  - unfold cancel_pending_call. destruct (negb _); [apply descends_refl|]. cbn [snd].
    eapply descends_trans; [|apply descends_requeue]. apply (descends_map id s _ _).
    intros i st. by destruct (cancel_state_spec (py_strip call) (clock i) st) as [-> _].
  - unfold replay_dead_letter_job. destruct (_ || _); [apply descends_refl|].
    destruct (od_get _ _) as [st0|] eqn:Est; [|apply descends_refl].
    destruct (negb _); [apply descends_refl|]. by eapply descends_set.
  - unfold cleanup_retention. destruct (negb _); [apply descends_refl|]. cbn [snd].
    intros st. cbn [states]. rewrite !od_pop_all_filter, !list_elem_of_filter.
    intros (_ & _ & _ & Hin). by exists st.
Qed.
End entries.

(** ** Operations *)

Section operations.
#[local] Notation states := Jobs.states.
Context (float_repr : Q → string) (jwt_decode : Z → string → string → jwt_result) (py_int : pyval → option Z).
#[local] Notation apply_operation := (apply_operation float_repr jwt_decode py_int).
#[local] Notation apply_operations := (apply_operations float_repr jwt_decode py_int).
#[local] Notation authenticate := (authenticate float_repr jwt_decode py_int).
#[local] Notation verify_worker_token := (verify_worker_token float_repr jwt_decode py_int).
#[local] Notation submit_result := (submit_result float_repr jwt_decode py_int).

Lemma authenticate_stores s n1 n2 action tenant wt nonce :
  let s' := (authenticate s n1 n2 action tenant wt nonce).2 in
  job_store s' = job_store s ∧ result_store s' = result_store s ∧ cfg s' = cfg s.
Proof.
  unfold ByocConnector.authenticate. destruct (verify_worker_token _ _ _ _); [|done]. destruct (negb _); [done|].
  by destruct (Guard.mark_once _ _ _ _) as [[] ?].
Qed.

Lemma cleanup_stores s clock tenant force :
  let s' := (ByocConnector.cleanup_retention s clock tenant force).2 in
  result_store s' = result_store s ∧ cfg s' = cfg s ∧
  (∀ p, p ∈ states (job_store s') → p ∈ states (job_store s)).
Proof.
  unfold ByocConnector.cleanup_retention, run_cleanup. destruct (negb _); [done|].
  destruct (Jobs.cleanup_retention _ _ _ _ _ _ _) as [[n1 n2] js] eqn:E. cbn.
  split; [done|]. split; [done|]. intros p.
  assert (js = (Jobs.cleanup_retention (job_store s) (clock 1%nat) tenant (completed_ttl (cfg s))
    (cancelled_ttl (cfg s)) (max_completed_records (cfg s)) (max_cancelled_records (cfg s))).2) as -> by by rewrite E.
  clear E. unfold Jobs.cleanup_retention. destruct (negb _); [done|]. cbn [snd states].
  rewrite !od_pop_all_filter, !list_elem_of_filter. by intros (_ & _ & _ & ?).
Qed.

Lemma ingest_stores s n1 n2 tenant r :
  let '(o, s') := ingest_result_after_auth s n1 n2 tenant r in
  (∀ id, descends id (job_store s) (job_store s')) ∧ cfg s' = cfg s ∧
  (result_store s' = result_store s ∨ ∃ out, o = Ok out ∧ (out, result_store s') = Results.ingest (result_store s) r).
Proof.
  unfold ingest_result_after_auth. destruct (negb _).
  { split; [intros; apply descends_refl|by split; [|left]]. }
  destruct (_ && _). { split; [intros; apply descends_refl|by split; [|left]]. }
  change (job_store (increment_submit_attempt s tenant)) with (job_store s).
  change (result_store (increment_submit_attempt s tenant)) with (result_store s).
  destruct (Jobs.get_leased_job (job_store s) n1 (rs_job_id r) (rs_lease_token r)) as [leased js1] eqn:El.
  assert (∀ id, descends id (job_store s) js1) as H1.
  { intros id. pose proof (step_descends id (job_store s) (CGetLeased n1 (rs_job_id r) (rs_lease_token r)) (λ F, F)) as H.
    cbn [step] in H. by rewrite El in H. }
  destruct leased as [e|]; [|by split_and!; [|done|left]].
  destruct (py_bool _); [by split_and!; [|done|left]|].
  change (job_store (with_jobs _ ?j)) with j.
  destruct (Jobs.complete_claim js1 n2 (rs_job_id r) (rs_lease_token r)) as [ok js2] eqn:Ec.
  assert (∀ id, descends id (job_store s) js2) as H2.
  { intros id. eapply descends_trans; [apply H1|].
    pose proof (step_descends id js1 (CComplete n2 (rs_job_id r) (rs_lease_token r)) (λ F, F)) as H.
    cbn [step] in H. by rewrite Ec in H. }
  destruct ok; cbn [negb]; [|by split_and!; [|done|left]].
  change (result_store (with_jobs _ _)) with (result_store s).
  destruct (Results.ingest (result_store s) r) as [out rs] eqn:Ei. split_and!.
  - by destruct (ro_duplicate out), (ro_accepted out).
  - by destruct (ro_duplicate out), (ro_accepted out).
  - right. exists out. split; [done|]. by destruct (ro_duplicate out), (ro_accepted out).
Qed.

(** An operation enqueues a job of this id. *)
Definition enqueues_job (id : string) (o : operation) : Prop :=
  match o with OpEnqueue job => ev_job_id job = id | _ => False end.

Lemma bump_stores s name n :
  job_store (bump s name n) = job_store s ∧ result_store (bump s name n) = result_store s ∧
  cfg (bump s name n) = cfg s.
Proof. done. Qed.

Lemma progress_stores s e :
  job_store (record_progress s e) = job_store s ∧ result_store (record_progress s e) = result_store s ∧
  cfg (record_progress s e) = cfg s.
Proof. unfold record_progress. by destruct (negb _). Qed.

Lemma replay_loop_descends id js tenant ids : descends id js (replay_loop js tenant ids).2.
Proof.
  revert js. induction ids as [|i ids IH]; intros js; cbn [replay_loop]; [apply descends_refl|].
  pose proof (step_descends id js (CReplay tenant i) (λ F, F)) as H. cbn [step] in H.
  destruct (Jobs.replay_dead_letter_job js tenant i) as [ok js1]. specialize (IH js1).
  destruct (replay_loop js1 tenant ids) as [[n fs] js2]. cbn [snd] in *.
  destruct ok; by eapply descends_trans.
Qed.

Lemma requeue_stores s now tenant :
  let s' := ByocConnector.requeue_expired_leases s now tenant in
  (∀ id, descends id (job_store s) (job_store s')) ∧ result_store s' = result_store s ∧ cfg s' = cfg s.
Proof.
  split.
  - intros id. rewrite requeue_job_store. apply step_descends. intros [].
  - unfold ByocConnector.requeue_expired_leases. destruct (Jobs.requeue_expired_leases _ _ _) as [n js].
    by destruct (0 <? n), (_ <? _).
Qed.

Lemma claim_stores s clock token tenant wt nonce :
  let s' := (claim_next_job float_repr jwt_decode py_int s clock token tenant wt nonce).2 in
  (∀ id, descends id (job_store s) (job_store s')) ∧ result_store s' = result_store s ∧ cfg s' = cfg s.
Proof.
  unfold claim_next_job. destruct (cleanup_stores s clock tenant false) as (Hr1 & Hc1 & Hj1).
  change (ByocConnector.cleanup_retention s clock tenant false).2 with (run_periodic_cleanup s clock tenant)
    in Hr1, Hc1, Hj1. set (s1 := run_periodic_cleanup s clock tenant) in *.
  destruct (requeue_stores s1 (clock 3%nat) tenant) as (Hj2 & Hr2 & Hc2).
  set (s2 := ByocConnector.requeue_expired_leases s1 _ tenant) in *.
  destruct (authenticate_stores s2 (clock 4%nat) (clock 5%nat) "claim" tenant wt nonce) as (Hj3 & Hr3 & Hc3).
  assert (∀ id, descends id (job_store s) (job_store s2)) as Hd2.
  { intros id. eapply descends_trans; [|apply Hj2]. intros st Hst. exists st. auto. }
  destruct (authenticate s2 _ _ _ _ _ _) as [[claims|e] s3]; cbn [fst snd] in *.
  2:{ rewrite Hj3, Hr3, Hc3, Hr2, Hc2, Hr1, Hc1. done. }
  pose proof (λ id, step_descends id (job_store s3)
    (CClaim (clock 6%nat) tenant (wc_worker_id claims) (lease_ttl (cfg s3)) token) (λ F, F)) as Hd.
  cbn [step] in Hd. destruct (Jobs.claim_next _ _ _ _ _ _) as [claim js]. cbn [snd] in Hd.
  assert (∀ id, descends id (job_store s) js) as Hd4.
  { intros id. eapply descends_trans; [apply Hd2|]. rewrite <- Hj3. apply Hd. }
  destruct (claim ≫= _) as [job|]; cbn [snd];
    [set (e := mkProgress _ _ _ _ _ _ _ _ _); destruct (progress_stores (bump (with_jobs s3 js) "claimed_jobs_total" 1) e)
       as (-> & -> & ->)|];
    cbn [job_store result_store cfg bump with_jobs]; split; auto; split; congruence.
Qed.

(** A worker's request with a result [r] of tenant [t]: by a token of the tenant, or with the secret
    of the webhook. *)
Definition submitted_by (s : connector) (o : operation) (t : string) (r : ByocToolResultEnvelope) : Prop :=
  match o with
  | OpSubmit clock t' wt _ r' =>
      t' = t ∧ r' = r ∧ ∃ claims, verify_worker_token (clock 3%nat) wt (worker_jwt_secret (cfg s)) t = Ok claims
  | OpWebhook _ t' secret _ r' =>
      t' = t ∧ r' = r ∧ py_strip secret ≠ "" ∧ py_strip secret = worker_jwt_secret (cfg s)
  | _ => False
  end.

(** The result of such a request for the job of entry [st], which holds the result's lease. *)
Record accepted_for (s : connector) (o : operation) (r : ByocToolResultEnvelope) (st : JobState) : Prop := {
  af_submitted : submitted_by s o (rs_tenant_id r) r;
  af_entry : (rs_job_id r, st) ∈ states (job_store s);
  af_leased : js_status st = Leased;
  af_token : js_token st = rs_lease_token r;
  af_artifact : verify_result_artifact_metadata (js_envelope st) r = "";
}.

(** A result that is stored by an ingestion was accepted, for a job that is leased. *)
Lemma ingest_origin s n1 n2 tenant r j r' :
  Results.results (result_store (ingest_result_after_auth s n1 n2 tenant r).2) !! j = Some r' →
  Results.results (result_store s) !! j = Some r' ∨
  (r' = r ∧ rs_job_id r = j ∧ rs_tenant_id r = tenant ∧ ∃ st, valid_lease s n1 n2 r st).
Proof.
  pose proof (ingest_stores s n1 n2 tenant r) as H. pose proof (ingest_accepted s n1 n2 tenant r) as Ha.
  destruct (ingest_result_after_auth s n1 n2 tenant r) as [o s'] eqn:E. cbn [snd].
  destruct H as (_ & _ & [->|(out & -> & Hi)]); [by left|].
  pose proof (Results.ingest_cases (result_store s) r) as Hc. cbv zeta in Hc. rewrite <- Hi in Hc.
  destruct Hc as [(H1 & H2 & _ & _ & _ & ->)|[(_ & _ & _ & ->)|(_ & _ & _ & _ & ->)]]; [|by left..].
  destruct (Ha out s' eq_refl H1 H2) as (Ht & _ & _ & Hv).
  destruct (decide (j = rs_job_id r)) as [->|Hne]; [|rewrite lookup_insert_ne by done; by left].
  rewrite lookup_insert_eq. intros [= <-]. by right.
Qed.

Lemma valid_lease_entry s n1 n2 r st :
  valid_lease s n1 n2 r st →
  (rs_job_id r, st) ∈ states (job_store s) ∧ js_status st = Leased ∧ js_token st = rs_lease_token r ∧
  verify_result_artifact_metadata (js_envelope st) r = "".
Proof. intros (Hst & Hs & _ & _ & Ht & Ha). split; [by apply od_get_elem|done]. Qed.

(** What an operation keeps, and where a result that it stores comes from. *)
Record operation_effect (s : connector) (o : operation) (s' : connector) : Prop := {
  oe_cfg : cfg s' = cfg s;
  oe_jobs : ∀ id, ¬ enqueues_job id o → descends id (job_store s) (job_store s');
  oe_results : ∀ j r, Results.results (result_store s') !! j = Some r →
    Results.results (result_store s) !! j = Some r ∨ ∃ st, accepted_for s o r st ∧ rs_job_id r = j;
}.

(** Operations that leave the results alone. *)
Lemma quiet_effect s o s' :
  cfg s' = cfg s → (∀ id, ¬ enqueues_job id o → descends id (job_store s) (job_store s')) →
  result_store s' = result_store s → operation_effect s o s'.
Proof. intros Hc Hj Hr. split; [done|done|]. rewrite Hr. by left. Qed.

(** A submission: [s1] is the connector that ingests the result. *)
Lemma submission_effect s s1 o n1 n2 tenant r :
  cfg s1 = cfg s → result_store s1 = result_store s →
  (∀ p, p ∈ states (job_store s1) → p ∈ states (job_store s)) → submitted_by s o tenant r →
  operation_effect s o (ingest_result_after_auth s1 n1 n2 tenant r).2.
Proof.
  intros Hc Hr Hj Hsub. split.
  - pose proof (ingest_stores s1 n1 n2 tenant r) as H.
    destruct (ingest_result_after_auth _ _ _ _ _) as [out s']. cbn. destruct H as (_ & -> & _). done.
  - intros id _. pose proof (ingest_stores s1 n1 n2 tenant r) as H.
    destruct (ingest_result_after_auth _ _ _ _ _) as [out s']. cbn. destruct H as [H _].
    eapply descends_trans; [|apply H]. intros st Hst. exists st. auto.
  - intros j r' [H|(-> & <- & Ht & st & Hv)]%ingest_origin; [left; by rewrite <- Hr|right].
    exists st. split; [|done]. apply valid_lease_entry in Hv as (He & Hl & Htok & Ha).
    split; [by rewrite Ht|by apply Hj|done..].
Qed.

Lemma submit_effect s clock t wt nonce r :
  operation_effect s (OpSubmit clock t wt nonce r) (submit_result s clock t wt nonce r).2.
Proof.
  unfold ByocConnector.submit_result. destruct (cleanup_stores s clock t false) as (Hr1 & Hc1 & Hj1).
  change (ByocConnector.cleanup_retention s clock t false).2 with (run_periodic_cleanup s clock t) in *.
  set (s1 := run_periodic_cleanup s clock t) in *.
  destruct (authenticate_stores s1 (clock 3%nat) (clock 4%nat) "submit" t wt nonce) as (Hj2 & Hr2 & Hc2).
  pose proof (authenticate_ok float_repr jwt_decode py_int s1 (clock 3%nat) (clock 4%nat) "submit" t wt nonce) as Ha.
  destruct (authenticate s1 _ _ _ _ _ _) as [[claims|e] s2]; cbn [fst snd] in *.
  - destruct (Ha claims s2 eq_refl) as (Hv & _). apply submission_effect; [congruence..|by rewrite Hj2|].
    split; [done|]. split; [done|]. exists claims. by rewrite <- Hc1.
  - apply quiet_effect; [congruence| |congruence]. intros id _ st. rewrite Hj2. intros Hst. exists st. auto.
Qed.

Lemma webhook_effect s clock t secret request_id r :
  operation_effect s (OpWebhook clock t secret request_id r)
    (submit_result_webhook s clock t secret request_id r).2.
Proof.
  unfold submit_result_webhook. destruct (cleanup_stores s clock t false) as (Hr1 & Hc1 & Hj1).
  change (ByocConnector.cleanup_retention s clock t false).2 with (run_periodic_cleanup s clock t) in *.
  set (s1 := run_periodic_cleanup s clock t) in *.
  assert (operation_effect s (OpWebhook clock t secret request_id r) s1) as Hs1.
  { apply quiet_effect; [done| |done]. intros id _ st Hst. exists st. auto. }
  destruct (negb (py_bool (py_strip secret)) || _) eqn:Es; [done|].
  apply orb_false_iff in Es as [E1%negb_false_iff E2%negb_false_iff].
  apply py_bool_true in E1. apply bool_decide_eq_true in E2.
  destruct (negb _); [done|]. destruct (Guard.mark_once _ _ _ _) as [[] guard].
  - apply submission_effect; [done..|]. split; [done|]. split; [done|]. by rewrite <- Hc1.
  - apply quiet_effect; [done| |done]. intros id _ st Hst. exists st. auto.
Qed.

Lemma operation_effects s o : operation_effect s o (apply_operation s o).
Proof.
  destruct o as [clock token t wt nonce|clock t wt nonce r|clock t secret id r|cc now call|t id|t ids limit
    |clock t force|call|job|now t|id|now t p n amount]; cbn [ByocExecution.apply_operation].
  - destruct (claim_stores s clock token t wt nonce) as (Hj & Hr & Hc). by apply quiet_effect.
  - apply submit_effect.
  - apply webhook_effect.
  - unfold request_cancellation. destruct (negb _); [by apply quiet_effect; [|intros; apply descends_refl|]|].
    pose proof (λ id, step_descends id (job_store s) (CCancel cc now (py_strip call)) (λ F, F)) as Hd.
    cbn [step] in Hd. destruct (Jobs.cancel_pending_call _ _ _ _) as [n js]. by apply quiet_effect.
  - unfold ByocConnector.replay_dead_letter_job.
    pose proof (λ i, step_descends i (job_store s) (CReplay t id) (λ F, F)) as Hd. cbn [step] in Hd.
    destruct (Jobs.replay_dead_letter_job _ _ _) as [ok js]. by apply quiet_effect.
  - unfold replay_dead_letter_jobs. set (targets := match _ with [] => _ | _ => _ end).
    pose proof (λ i, replay_loop_descends i (job_store s) t targets) as Hd.
    destruct (replay_loop _ _ _) as [[n fs] js]. by apply quiet_effect.
  - destruct (cleanup_stores s clock t force) as (Hr & Hc & Hj). apply quiet_effect; [done| |done].
    intros id _ st Hst. exists st. auto.
  - unfold drain_progress_events. destruct (negb _); apply quiet_effect; try done; intros; apply descends_refl.
  - unfold enqueue_job. set (s1 := with_jobs s _). set (s2 := record_progress s1 _).
    destruct (progress_stores s1 (queued_progress job)) as (Hj & Hr & Hc).
    apply quiet_effect; [done| |done]. intros id Hne.
    change (job_store (bump s2 _ _)) with (job_store s2). subst s2. rewrite Hj.
    exact (step_descends id (job_store s) (CEnqueue job) Hne).
  - destruct (requeue_stores s now t) as (Hj & Hr & Hc). by apply quiet_effect.
  - unfold consume_result, Results.consume. destruct (negb _).
    + apply quiet_effect; try done. intros; apply descends_refl.
    + split; [done|intros; apply descends_refl|]. cbn. intros j r [_ H]%lookup_delete_Some. by left.
  - apply quiet_effect; try done. intros; apply descends_refl.
Qed.

(** ** Sequences of operations *)

Lemma apply_operations_app s os1 os2 :
  apply_operations s (os1 ++ os2) = apply_operations (apply_operations s os1) os2.
Proof. apply foldl_app. Qed.

Lemma apply_operations_snoc s os o : apply_operations s (os ++ [o]) = apply_operation (apply_operations s os) o.
Proof. by rewrite apply_operations_app. Qed.

(** A result that is stored after some operations was stored before them, or one of them was its
    accepted submission. *)
Lemma result_origin s os j r :
  Results.results (result_store (apply_operations s os)) !! j = Some r →
  Results.results (result_store s) !! j = Some r ∨
  ∃ pre o post st, os = pre ++ o :: post ∧ accepted_for (apply_operations s pre) o r st ∧ rs_job_id r = j.
Proof.
  induction os as [|o os IH] using rev_ind; [by left|].
  rewrite apply_operations_snoc. intros H.
  destruct (oe_results _ _ _ (operation_effects (apply_operations s os) o) j r H) as [Hr|(st & Ha & Hid)].
  - destruct (IH Hr) as [?|(pre & o' & post & st & -> & Ha & Hid)]; [by left|right].
    exists pre, o', (post ++ [o]), st. by rewrite <- app_assoc.
  - right. exists os, o, [], st. done.
Qed.

Lemma apply_operations_cfg s os : cfg (apply_operations s os) = cfg s.
Proof.
  induction os as [|o os IH] using rev_ind; [done|].
  by rewrite apply_operations_snoc, (oe_cfg _ _ _ (operation_effects _ o)).
Qed.

(** All entries for an id are one job. *)
Definition is_job (id : string) (e : ByocToolJobEnvelope) (js : Jobs.t) : Prop :=
  ∀ st, (id, st) ∈ states js → unleased (js_envelope st) = unleased e.

Lemma is_job_descends id e js js' : is_job id e js → descends id js js' → is_job id e js'.
Proof. intros Hj Hd st Hst. destruct (Hd st Hst) as (st0 & H0 & ->). by apply Hj. Qed.

Lemma apply_operations_job s os e :
  is_job (ev_job_id e) e (job_store s) → Forall (λ o, enqueues_job (ev_job_id e) o → o = OpEnqueue e) os →
  is_job (ev_job_id e) e (job_store (apply_operations s os)).
Proof.
  intros Hs. induction os as [|o os IH] using rev_ind; [done|].
  intros [Hos [Ho _]%Forall_cons]%Forall_app. specialize (IH Hos).
  rewrite apply_operations_snoc. set (s1 := apply_operations s os) in *.
  destruct o; try (eapply is_job_descends; [done|]; apply (oe_jobs _ _ _ (operation_effects s1 _)); cbn; tauto).
  destruct (decide (ev_job_id job = ev_job_id e)) as [E|E].
  2:{ eapply is_job_descends; [done|]. by apply (oe_jobs _ _ _ (operation_effects s1 _)). }
  specialize (Ho E). injection Ho as ->. cbn. unfold enqueue_job.
  destruct (progress_stores (with_jobs s1 (Jobs.enqueue (job_store s1) e)) (queued_progress e)) as (Hj & _ & _).
  intros st. cbn [job_store bump]. rewrite Hj. cbn [job_store with_jobs]. unfold Jobs.enqueue.
  destruct (od_get _ _); [apply IH|]. by intros [[= ->]|Hin]%od_set_elem; [|apply IH].
Qed.

(** The operations of the turns of a wait. *)
Definition wait_operations (tenant_id job_id : string) (polls : list poll) : list operation :=
  concat ((λ p, pl_before p ++ [OpRequeue (pl_requeue_now p) tenant_id; OpConsume job_id]) <$> polls).

#[local] Notation wait_for_result := (wait_for_result float_repr jwt_decode py_int).

Lemma wait_found s tenant id deadline polls r s' :
  wait_for_result s tenant id deadline polls = (Some (Some r), s') →
  ∃ pre post, wait_operations tenant id polls = pre ++ post ∧
    Results.results (result_store (apply_operations s pre)) !! py_strip id = Some r.
Proof.
  revert s. induction polls as [|p polls IH]; intros s; cbn [ByocExecution.wait_for_result]; [done|].
  set (s1 := ByocConnector.requeue_expired_leases _ _ _).
  assert (s1 = apply_operations s (pl_before p ++ [OpRequeue (pl_requeue_now p) tenant])) as Es1
    by by rewrite apply_operations_app.
  assert (consume_result s1 id = (Results.results (result_store s1) !! py_strip id, (consume_result s1 id).2) ∨
    (consume_result s1 id).1 = None) as Hc.
  { unfold consume_result, Results.consume. destruct (negb _); [by right|by left]. }
  destruct (consume_result s1 id) as [[r1|] s2] eqn:E; cbn [fst snd] in Hc.
  - intros [= -> ->]. destruct Hc as [Hr|[=]]. apply (f_equal fst) in Hr. cbn in Hr.
    exists (pl_before p ++ [OpRequeue (pl_requeue_now p) tenant]), (OpConsume id :: wait_operations tenant id polls).
    split; [|by rewrite <- Es1, Hr]. unfold wait_operations. cbn. by rewrite <- !app_assoc.
  - destruct (_ <=? _); [done|]. intros Hw. destruct (IH s2 Hw) as (pre & post & Epp & Hr).
    exists (pl_before p ++ [OpRequeue (pl_requeue_now p) tenant; OpConsume id] ++ pre), post. split.
    + unfold wait_operations in *. cbn. rewrite Epp. by rewrite <- !app_assoc.
    + assert (apply_operations s (pl_before p ++ [OpRequeue (pl_requeue_now p) tenant; OpConsume id] ++ pre)
        = apply_operations s2 pre) as ->; [|done].
      rewrite app_assoc, apply_operations_app. f_equal.
      change [OpRequeue (pl_requeue_now p) tenant; OpConsume id] with
        ([OpRequeue (pl_requeue_now p) tenant] ++ [OpConsume id]).
      rewrite app_assoc, apply_operations_app, <- Es1. cbn. by rewrite E.
Qed.
End operations.

(** ** The answer of a call *)

Section executions.
Context (float_repr : Q → string) (jwt_decode : Z → string → string → jwt_result) (py_int : pyval → option Z).
Context `{!ToolIO} `{!ToolDetails} {Handler : Type}.
#[local] Notation apply_operations := (apply_operations float_repr jwt_decode py_int).
#[local] Notation execute := (execute float_repr jwt_decode py_int (Handler := Handler)).
#[local] Notation run_job := (run_job float_repr jwt_decode py_int (Handler := Handler)).
#[local] Notation job_of := (job_of float_repr (Handler := Handler)).
#[local] Notation accepted_for := (accepted_for float_repr jwt_decode py_int).
#[local] Notation states := Jobs.states.

(** Everything that happens to the connector from the call's start to the end of its wait. *)
Definition execution_operations (call : ToolCallContext) (d : ToolRegistry.ToolDescriptor Handler)
    (ci : circumstances) : list operation :=
  let job := job_of call d (ci_job_uuid ci) in
  ci_before_admission ci ++
  [OpCleanup (ci_cleanup_clock ci) (call_tenant call) false; OpEnqueue job] ++
  wait_operations (call_tenant call) (ev_job_id job) (ci_polls ci).

(** The call ends before it has a job. *)
Definition refused (call : ToolCallContext) (d : ToolRegistry.ToolDescriptor Handler) (answer : ToolResult) : Prop :=
  ∃ code message retryable details,
    answer = refused_call call (call_timeout d) code message retryable details.

(** [execute] by its outcomes; [c] is the connector after the cost check. *)
Lemma execute_cases s call d ci :
  ∃ costs0, let c := with_costs (conn s) costs0 in
    (∃ answer s', execute s call d ci = (Some answer, s', []) ∧ refused call d answer ∧
       (job_store (conn s') = job_store (conn s) ∨
        job_store (conn s') = job_store (apply_operations c (ci_before_admission ci)))) ∨
    ∃ s1 s' effects,
      conn s1 = apply_operations c
        (ci_before_admission ci ++ [OpCleanup (ci_cleanup_clock ci) (call_tenant call) false]) ∧
      non_blocking_execute s1 = non_blocking_execute s ∧
      execute s call d ci = ((run_job s1 call d ci).1, s', effects) ∧
      conn s' = (run_job s1 call d ci).2 ∧
      effects = if fair_admission_enabled s then
                  AcquireFairAdmission ::
                  match (run_job s1 call d ci).1 with Some _ => [ReleaseFairAdmission] | None => [] end
                else [].
Proof.
  unfold ByocExecution.execute. set (p := if enforce_cost_limit _ then _ else _).
  destruct p as [[[exceeded reason] consumed] st]. exists st. cbv zeta. destruct exceeded.
  { left. do 2 eexists. split; [reflexivity|]. split; [by repeat eexists|by left]. }
  cbn [fair_admission_enabled with_conn]. destruct (fair_admission_enabled s && negb (ci_admitted ci)).
  { left. do 2 eexists. split; [reflexivity|]. split; [by repeat eexists|by right]. }
  right. rewrite apply_operations_snoc.
  set (s1 := with_conn (with_conn s _) _). exists s1.
  destruct (run_job s1 call d ci) as [answer c1] eqn:E.
  do 2 eexists. split; [done|]. split; [done|]. split; [reflexivity|]. split; [done|].
  by destruct (fair_admission_enabled s), answer.
Qed.

(** C13: The answer of a call that waits is what a worker submitted for the call's own job.  Where the
    id of the job is new, the answer is a refusal before there was a job, the timeout, or the
    mapping of a result; and then, among everything that happened since the call began, there is the
    submission of that very result, authenticated for the tenant that the result names, for an entry
    of the queue that is leased with the result's token, passes the artifact check, and holds the job
    of this call: its tenant, tool, arguments and artifact are the call's. *)
Theorem byoc_answer_is_own_result s call d ci answer s' effects :
  let job := job_of call d (ci_job_uuid ci) in
  non_blocking_execute s = false → py_strip (ev_job_id job) = ev_job_id job →
  (∀ st, (ev_job_id job, st) ∉ states (job_store (conn s))) →
  Results.results (result_store (conn s)) !! ev_job_id job = None →
  Forall (λ o, ¬ enqueues_job (ev_job_id job) o)
    (ci_before_admission ci ++ concat (pl_before <$> ci_polls ci)) →
  execute s call d ci = (Some answer, s', effects) →
  refused call d answer ∨
  answer = timeout_result call (ci_timing ci) (call_timeout d) (call_tenant call) (ev_job_id job) ∨
  ∃ r costs0 pre o post st,
    answer = mapped_result call (ci_timing ci) (call_timeout d) (call_tenant call) r ∧
    execution_operations call d ci = pre ++ o :: post ∧
    accepted_for (apply_operations (with_costs (conn s) costs0) pre) o r st ∧
    rs_job_id r = ev_job_id job ∧ unleased (js_envelope st) = job.
Proof.
  intros job Hnb Hid Hfresh Hnone Hops He.
  destruct (execute_cases s call d ci) as (costs0 & [(answer' & s1 & He' & Href & _)|
    (s1 & s2 & eff & Hc & Hnb1 & He' & _)]); rewrite He in He'.
  { left. by injection He' as -> -> ->. }
  right. injection He' as Hans _ _. symmetry in Hans. revert Hans. unfold ByocExecution.run_job.
  rewrite Hnb1, Hnb. fold job.
  destruct (wait_for_result _ _ _ _ _ _ _ _) as [[[r|]|] c] eqn:Ew; [|intros [= <-]; by left|done].
  intros [= <-]. right. apply wait_found in Ew as (pre1 & post1 & Epp & Hr). rewrite Hid in Hr.
  set (c0 := with_costs (conn s) costs0) in *.
  set (before := ci_before_admission ci ++ [OpCleanup (ci_cleanup_clock ci) (call_tenant call) false; OpEnqueue job]).
  assert (apply_operations (enqueue_job (conn s1) job) pre1 = apply_operations c0 (before ++ pre1)) as Ec.
  { rewrite apply_operations_app. f_equal. subst before.
    change [OpCleanup (ci_cleanup_clock ci) (call_tenant call) false; OpEnqueue job] with
      ([OpCleanup (ci_cleanup_clock ci) (call_tenant call) false] ++ [OpEnqueue job]).
    by rewrite app_assoc, apply_operations_snoc, <- Hc. }
  rewrite Ec in Hr. apply result_origin in Hr as [Hr|(pre & o & post & st & Hsplit & Ha & Hj)].
  { change (result_store c0) with (result_store (conn s)) in Hr. congruence. }
  assert (execution_operations call d ci = pre ++ o :: (post ++ post1)) as Eall.
  { unfold execution_operations. fold job. rewrite Epp.
    change (ci_before_admission ci ++ [_; _] ++ pre1 ++ post1) with
      (ci_before_admission ci ++ [OpCleanup (ci_cleanup_clock ci) (call_tenant call) false; OpEnqueue job]
         ++ pre1 ++ post1).
    rewrite app_assoc. fold before. by rewrite app_assoc, Hsplit, <- app_assoc. }
  exists r, costs0, pre, o, (post ++ post1), st. split_and!; try done.
  assert (is_job (ev_job_id job) job (job_store (apply_operations c0 pre))) as Hjob.
  { apply apply_operations_job; [by intros st0 ?%Hfresh|].
    assert (Forall (λ o, enqueues_job (ev_job_id job) o → o = OpEnqueue job) (execution_operations call d ci)) as Hall.
    { apply Forall_app in Hops as [H1 H2]. unfold execution_operations. fold job.
      apply Forall_app. split; [by eapply Forall_impl; [exact H1|]|]. constructor; [done|]. constructor; [done|].
      unfold wait_operations. apply Forall_concat, Forall_fmap.
      apply Forall_concat in H2. rewrite Forall_fmap in H2.
      eapply Forall_impl; [exact H2|]. intros p Hp. cbn. apply Forall_app.
      split; [by eapply Forall_impl; [exact Hp|]|]. by repeat constructor. }
    rewrite Eall in Hall. by apply Forall_app in Hall as [? _]. }
  rewrite (Hjob st); [done|]. rewrite <- Hj. apply (af_entry _ _ _ _ _ _ _ Ha).
Qed.

(** C25: A call does not wait for ever: by the first turn of its wait at or after its deadline it has
    an answer; and whatever the answer, the admission token that the call acquired, if it acquired
    one, is returned exactly once. *)
Theorem byoc_call_ends s call d ci p :
  p ∈ ci_polls ci → ci_wait_counter ci + call_timeout d * 1000 ≤ pl_counter p →
  ∃ answer s' effects, execute s call d ci = (Some answer, s', effects) ∧
    (effects = [] ∨ fair_admission_enabled s = true ∧ effects = [AcquireFairAdmission; ReleaseFairAdmission]).
Proof.
  intros Hp Hd. destruct (execute_cases s call d ci) as (costs0 & [(answer & s1 & He & _)|
    (s1 & s2 & eff & Hc & Hnb1 & He & _ & ->)]).
  { exists answer, s1, []. split; [done|by left]. }
  assert (∃ answer, (run_job s1 call d ci).1 = Some answer) as [answer Ha].
  { unfold ByocExecution.run_job. destruct (non_blocking_execute s1); [by eexists|].
    assert (∀ c tenant id polls, p ∈ polls →
      (wait_for_result float_repr jwt_decode py_int c tenant id (ci_wait_counter ci + call_timeout d * 1000) polls).1
        ≠ None) as Hw.
    { clear -Hd. intros c tenant id polls. revert c.
      induction polls as [|q polls IH]; intros c; [by intros ?%elem_of_nil|].
      cbn [wait_for_result]. destruct (consume_result _ _) as [[r|] c1]; [done|].
      intros [<-|Hin]%elem_of_cons; [by rewrite (proj2 (Z.leb_le _ _)) by lia|].
      destruct (_ <=? _); [done|]. by apply IH. }
    set (c := enqueue_job _ _). specialize (Hw c (call_tenant call) (ev_job_id (job_of call d (ci_job_uuid ci))) _ Hp).
    destruct (wait_for_result _ _ _ _ _ _ _ _) as [[[r|]|] c1]; [by eexists..|done]. }
  rewrite Ha in He. eexists _, _, _. split; [exact He|].
  destruct (fair_admission_enabled s); [by right|by left].
Qed.
End executions.

(** ** Costs without waiting *)

(** No operation of a worker or an administrator charges a tenant. *)
Lemma operation_costs float_repr jwt_decode py_int s o :
  (∀ now t p n amount, o ≠ OpCharge now t p n amount) →
  costs (apply_operation float_repr jwt_decode py_int s o) = costs s.
Proof.
  assert (∀ s clock t force, costs (ByocConnector.cleanup_retention s clock t force).2 = costs s) as Hclean.
  { intros. unfold ByocConnector.cleanup_retention, run_cleanup. destruct (negb _); [done|].
    by destruct (Jobs.cleanup_retention _ _ _ _ _ _ _) as [[? ?] ?]. }
  assert (∀ s clock t, costs (run_periodic_cleanup s clock t) = costs s) as Hperiodic by (intros; apply Hclean).
  assert (∀ s now t, costs (ByocConnector.requeue_expired_leases s now t) = costs s) as Hrequeue.
  { intros. unfold ByocConnector.requeue_expired_leases. destruct (Jobs.requeue_expired_leases _ _ _).
    by destruct (0 <? _), (_ <? _). }
  assert (∀ s e, costs (record_progress s e) = costs s) as Hprogress.
  { intros. unfold record_progress. by destruct (negb _). }
  assert (∀ s n1 n2 a t wt nonce, costs (authenticate float_repr jwt_decode py_int s n1 n2 a t wt nonce).2 = costs s)
    as Hauth.
  { intros. unfold authenticate. destruct (verify_worker_token _ _ _ _ _ _ _); [|done]. destruct (negb _); [done|].
    by destruct (Guard.mark_once _ _ _ _) as [[] ?]. }
  assert (∀ s n1 n2 t r, costs (ingest_result_after_auth s n1 n2 t r).2 = costs s) as Hingest.
  { intros. unfold ingest_result_after_auth. destruct (negb _); [done|]. destruct (_ && _); [done|].
    destruct (Jobs.get_leased_job _ _ _ _) as [[e|] js]; [|done]. destruct (py_bool _); [done|].
    destruct (Jobs.complete_claim _ _ _ _) as [[] js2]; [|done]. cbn [negb].
    destruct (Results.ingest _ _) as [out rs]. by destruct (ro_duplicate out), (ro_accepted out). }
  destruct o; cbn [apply_operation]; intros Hne.
  - unfold claim_next_job. set (s1 := ByocConnector.requeue_expired_leases _ _ _).
    specialize (Hauth s1 (clock 4%nat) (clock 5%nat) "claim" tenant_id worker_token request_nonce).
    destruct (authenticate _ _ _ _ _ _ _ _ _ _) as [[claims|e] s2]; cbn [snd] in *.
    2:{ rewrite Hauth. subst s1. by rewrite Hrequeue, Hperiodic. }
    destruct (Jobs.claim_next _ _ _ _ _ _) as [claim js]. destruct (claim ≫= _); cbn [snd];
      rewrite ?Hprogress; cbn [costs bump with_jobs]; rewrite Hauth; subst s1; by rewrite Hrequeue, Hperiodic.
  - unfold submit_result. set (s1 := run_periodic_cleanup _ _ _).
    specialize (Hauth s1 (clock 3%nat) (clock 4%nat) "submit" tenant_id worker_token request_nonce).
    destruct (authenticate _ _ _ _ _ _ _ _ _ _) as [[claims|e] s2]; cbn [snd] in *; rewrite ?Hingest, Hauth;
      apply Hperiodic.
  - unfold submit_result_webhook. destruct (negb _ || _); [apply Hperiodic|]. destruct (negb _); [apply Hperiodic|].
    destruct (Guard.mark_once _ _ _ _) as [[] g]; rewrite ?Hingest; apply Hperiodic.
  - unfold request_cancellation. destruct (negb _); [done|]. by destruct (Jobs.cancel_pending_call _ _ _ _).
  - unfold ByocConnector.replay_dead_letter_job. by destruct (Jobs.replay_dead_letter_job _ _ _) as [[] ?].
  - unfold replay_dead_letter_jobs. by destruct (replay_loop _ _ _) as [[? ?] ?].
  - apply Hclean.
  - unfold drain_progress_events. by destruct (negb _).
  - unfold enqueue_job. cbn [costs bump]. by rewrite Hprogress.
  - apply Hrequeue.
  - unfold consume_result. by destruct (Results.consume _ _).
  - by destruct (Hne now tenant_id provider_id tool_name amount).
Qed.

(** Where calls do not wait, no call and no result is ever charged: the consumption that the cost limit
    is compared with stays as it is. *)
Lemma non_blocking_never_charges float_repr jwt_decode py_int `{!ToolIO} `{!ToolDetails} {Handler : Type}
    s call (d : ToolRegistry.ToolDescriptor Handler) ci :
  non_blocking_execute s = true →
  Forall (λ o, ∀ now t p n amount, o ≠ OpCharge now t p n amount) (ci_before_admission ci) →
  let s' := (execute float_repr jwt_decode py_int s call d ci).1.2 in
  partition_cost_total (costs (conn s')) = partition_cost_total (costs (conn s)) ∧
  tenant_cost_total (costs (conn s')) = tenant_cost_total (costs (conn s)).
Proof.
  intros Hnb Hops. unfold execute.
  set (p := if enforce_cost_limit _ then _ else _).
  assert (partition_cost_total p.2 = partition_cost_total (costs (conn s)) ∧
          tenant_cost_total p.2 = tenant_cost_total (costs (conn s))) as [Hp1 Hp2].
  { subst p. destruct (enforce_cost_limit _); [|done]. unfold cost_limit_exceeded, resolve_partition_limit.
    destruct (if py_bool _ then _ else _) as [l|]; (destruct (_ <=? 0); [done|]);
      (destruct (enable_cost_window _); [|done]); unfold partition_window_state;
      by destruct (window_state _ _ _ _ _) as [[? ?] [? ?]]. }
  destruct p as [[[exceeded reason] consumed] st]. cbn [snd] in *. destruct exceeded; [done|].
  assert (costs (apply_operations float_repr jwt_decode py_int (with_costs (conn s) st) (ci_before_admission ci)) = st)
    as Hbefore.
  { revert Hops. generalize (ci_before_admission ci) as os. induction os as [|o os IH] using rev_ind; [done|].
    intros [Hos [Ho _]%Forall_cons]%Forall_app. rewrite apply_operations_snoc, operation_costs by done. by apply IH. }
  destruct (_ && negb _); [by cbn; rewrite Hbefore|].
  unfold run_job. cbn [non_blocking_execute with_conn]. rewrite Hnb. cbn [fst snd conn with_conn costs enqueue_job bump].
  set (c := run_periodic_cleanup _ _ _).
  assert (costs c = st) as Hc.
  { rewrite <- Hbefore. subst c.
    exact (operation_costs float_repr jwt_decode py_int _ (OpCleanup (ci_cleanup_clock ci) (call_tenant call) false)
      ltac:(done)). }
  unfold record_progress. destruct (negb _); cbn [costs with_jobs]; by rewrite Hc.
Qed.

(** ** Concrete calls *)
Module Calls.
Import Sample.

(** Workers of two tenants *)
Definition jwt_decode : Z → string → string → jwt_result := λ _ token _,
  if bool_decide (token ∈ ["acme"; "beta"]) then
    JwtPayload [("tenant_id", PStr token); ("worker_id", PStr "w1"); ("jti", PStr "jti_1");
                ("iat", PInt 0); ("exp", PInt 100)]
  else JwtInvalid.

#[local] Notation run := (execute (λ _, "") jwt_decode as_int (Handler := unit)).

Definition tool : ToolRegistry.ToolDescriptor unit := ToolRegistry.mkDescriptor "tool" tt Low false 1000 "" [] [].

Definition runtime (fair non_blocking : bool) : byoc_runtime :=
  mkByocRuntime (init_connector Demo.cfg FirstWriteWins) fair non_blocking 0 ∅.

Definition clock : nat → Z := λ _, 1000000.

(** A worker claims the job, and a worker of [tenant] submits a result. *)
Definition claim : operation := OpClaim clock "aa" "acme" "acme" "n1".
Definition submit (tenant : string) : operation :=
  OpSubmit clock tenant tenant "n2" (Demo.result "job_u1" tenant "k1" "lease_aa").

Definition with_polls (polls : list poll) : circumstances :=
  mkCircumstances 1000000 [] true clock "u1" 0 polls (mkTiming "t0" 0 "t1" 500000) 1000000.

Definition answered : circumstances := with_polls [mkPoll [claim; submit "acme"] 1000000 1000].

(** The wait is over without a result. *)
Definition late : circumstances := with_polls [mkPoll [] 1000000 1000; mkPoll [] 1000000 2000000].

#[local] Notation call := (low_call "tool" "acme" : ToolCallContext (ToolIO := io)).

Lemma byoc_answer_is_own_result_witness :
  ∃ answer s', run (runtime true false) call tool answered =
      (Some answer, s', [AcquireFairAdmission; ReleaseFairAdmission]) ∧
    tr_status answer = SUCCESS ∧ submit "acme" ∈ execution_operations (λ _, "") call tool answered ∧
    (refused call tool answer ∨
     answer = timeout_result call (ci_timing answered) (call_timeout tool) (call_tenant call) "job_u1" ∨
     ∃ r, rs_job_id r = "job_u1" ∧
       answer = mapped_result call (ci_timing answered) (call_timeout tool) (call_tenant call) r).
Proof.
  destruct (run (runtime true false) call tool answered) as [[[answer|] s'] effects] eqn:E.
  2:{ exfalso. vm_compute in E. discriminate E. }
  assert (effects = [AcquireFairAdmission; ReleaseFairAdmission]) as ->.
  { apply (f_equal snd) in E. vm_compute in E. by rewrite <- E. }
  exists answer, s'. split; [done|]. split.
  { assert (tr_status <$> (run (runtime true false) call tool answered).1.1 = Some SUCCESS) as Hs
      by (vm_compute; reflexivity).
    rewrite E in Hs. by injection Hs. }
  split. { unfold execution_operations, wait_operations. cbn. repeat (apply list_elem_of_here || apply list_elem_of_further). }
  destruct (byoc_answer_is_own_result (λ _, "") jwt_decode as_int (runtime true false) call tool answered
    answer s' [AcquireFairAdmission; ReleaseFairAdmission] eq_refl eq_refl (λ st, proj1 (elem_of_nil _)) eq_refl) as [H|[H|H]].
  - repeat constructor; cbn; tauto.
  - exact E.
  - by left.
  - right. by left.
  - right. right. destruct H as (r & costs0 & pre & o & post & st & Ha & _ & _ & Hr & _).
    exists r. split; [exact Hr|exact Ha].
Defined.

Lemma byoc_call_ends_witness :
  ∃ answer s' effects, run (runtime true false) call tool late = (Some answer, s', effects) ∧
    effects ≠ [AcquireFairAdmission].
Proof.
  destruct (byoc_call_ends (λ _, "") jwt_decode as_int (runtime true false) call tool late
    (mkPoll [] 1000000 2000000)) as (answer & s' & effects & He & Heff).
  - apply list_elem_of_further, list_elem_of_here.
  - vm_compute. discriminate.
  - exists answer, s', effects. split; [exact He|]. by destruct Heff as [->|[_ ->]].
Defined.

(** A call that is cancelled while its job is queued is not told: it waits until its deadline and then
    answers that it timed out, although its job was cancelled at once. *)
Lemma cancelled_call_waits :
  let cancel := mkPoll [OpCancel (λ _, 1000000) 1000000 "c1"] 1000000 1000 in
  let '(answer, s', _) := run (runtime false false) call tool (with_polls [cancel]) in
  answer = None ∧
  (js_status <$> od_get "job_u1" (Jobs.states (job_store (conn s')))) = Some ByocJobs.Cancelled ∧
  ∃ answer, (run (runtime false false) call tool (with_polls [cancel; mkPoll [] 1000000 2000000])).1.1 = Some answer ∧
    tr_status answer = TIMEOUT.
Proof. vm_compute. split_and!; [done|done|]. by eexists. Qed.

(** A job whose call has timed out stays in the queue: a worker is handed it afterwards, and so the
    tool runs although the caller was told that it failed and may retry. *)
Lemma timed_out_job_still_runs :
  let '(answer, s', _) := run (runtime false false) call tool late in
  (tr_status <$> answer) = Some TIMEOUT ∧
  ∃ job, (claim_next_job (λ _, "") jwt_decode as_int (conn s') clock "bb" "acme" "acme" "n3").1 = Ok (Some job) ∧
    ev_job_id job = "job_u1".
Proof. vm_compute. split; [done|]. by eexists. Qed.

(** A submission is checked against its worker's tenant and the job's lease, never against the job's
    tenant: whoever knows the lease answers the call, also a worker of another tenant. *)
Lemma lease_crosses_tenants :
  ∃ answer s' effects,
    run (runtime false false) call tool (with_polls [mkPoll [claim; submit "beta"] 1000000 1000])
    = (Some answer, s', effects) ∧ tr_status answer = SUCCESS.
Proof. do 3 eexists. vm_compute. split; reflexivity. Qed.
End Calls.
