(* ===== verification/AuditStores.v ===== *)
(** * Audit stores, the hash chain and signed bundles

    Models AuditStore of src/persistence/contracts.py with its implementations
    src/persistence/audit_store.py and src/persistence/adapters/sqlite_audit.py, the hash chain of
    src/audit/trail.py and the bundles of src/compliance/evidence_bundle.py.  SHA-256 and HMAC are
    parameters; the canonical JSON that is hashed and signed is [json_dumps] of SignedPlugins.v.  A
    payload column of SQLite holds the value that was written (SqliteStores.v). *)

From S2P Require Import Prelude PyValue SignedPlugins.

Record AuditRecord := mkAuditRecord {
  au_event_id : string;
  au_correlation_id : string;
  au_tenant_id : string;
  au_event_type : string;
  au_payload : pydict;
}.

(** [l[-n:]] for a positive [n] *)
Definition last_n {X} (n : Z) (l : list X) : list X := drop (length l - Z.to_nat n) l.

(** [max(1, min(int(limit), 1000))] *)
Definition bounded_limit (limit : Z) : Z := Z.max 1 (Z.min limit 1000).

(** ** The contract

    [now] is the reading of the clock when the event is written. *)
Class AuditStore (S : Type) := {
  append_audit_event : S → string → AuditRecord → res S;
  query_audit_events : S → string → string → list AuditRecord;
  list_audit_events : S → string → Z → list AuditRecord;
  cleanup_audit_events : S → string → Z → Z * S;
}.

Module InMemoryAuditStore.
Notation t := (list AuditRecord).

Definition append (s : t) (_ : string) (r : AuditRecord) : res t := Ok (s ++ [r]).

Definition query (s : t) (correlation_id tenant_id : string) : list AuditRecord :=
  filter (λ r, au_correlation_id r = correlation_id ∧ au_tenant_id r = tenant_id) s.

Definition list_events (s : t) (tenant_id : string) (limit : Z) : list AuditRecord :=
  last_n (bounded_limit limit) (filter (λ r, au_tenant_id r = tenant_id) s).

(** [enumerate(self._records)] *)
Definition indexed (s : t) : list (nat * AuditRecord) := zip (seq 0 (length s)) s.

Definition cleanup (s : t) (tenant_id : string) (max_records : Z) : Z * t :=
  let bounded := Z.max max_records 0 in
  let tenant_indexes := (filter (λ p, au_tenant_id p.2 = tenant_id) (indexed s)).*1 in
  let overflow := Z.max 0 (Z.of_nat (length tenant_indexes) - bounded) in
  if overflow <=? 0 then (0, s)
  else
    let indexes_to_remove := take (Z.to_nat overflow) tenant_indexes in
    (overflow, (filter (λ p, p.1 ∉ indexes_to_remove) (indexed s)).*2).
End InMemoryAuditStore.

#[export] Instance in_memory_audit_store : AuditStore InMemoryAuditStore.t := {|
  append_audit_event := InMemoryAuditStore.append;
  query_audit_events := InMemoryAuditStore.query;
  list_audit_events := InMemoryAuditStore.list_events;
  cleanup_audit_events := InMemoryAuditStore.cleanup;
|}.

Module SQLiteAuditStore.
Record row := mkRow { rw_sequence_id : Z; rw_record : AuditRecord; rw_created_at_utc : string }.

(** The table, and the largest sequence id that AUTOINCREMENT ever gave *)
Record t := mkStore { events : list row; last_sequence : Z }.

Definition empty : t := mkStore [] 0.

(** [event_id] is UNIQUE. *)
Definition append (s : t) (now : string) (r : AuditRecord) : res t :=
  guard! negb (bool_decide (au_event_id r ∈ (au_event_id ∘ rw_record) <$> events s))
    else OtherException "UNIQUE constraint failed: audit_events.event_id" in
  let id := last_sequence s + 1 in
  Ok (mkStore (events s ++ [mkRow id r now]) id).

Definition query (s : t) (correlation_id tenant_id : string) : list AuditRecord :=
  rw_record <$> sort_by (by_key rw_sequence_id)
    (filter (λ w, au_correlation_id (rw_record w) = correlation_id ∧ au_tenant_id (rw_record w) = tenant_id)
       (events s)).

(** The rows of a tenant, [ORDER BY sequence_id ASC] *)
Definition tenant_rows (s : t) (tenant_id : string) : list row :=
  sort_by (by_key rw_sequence_id) (filter (λ w, au_tenant_id (rw_record w) = tenant_id) (events s)).

(** [ORDER BY sequence_id DESC LIMIT ?], and then [reversed(rows)] *)
Definition list_events (s : t) (tenant_id : string) (limit : Z) : list AuditRecord :=
  let rows := take (Z.to_nat (bounded_limit limit)) (reverse (tenant_rows s tenant_id)) in
  rw_record <$> reverse rows.

Definition cleanup (s : t) (tenant_id : string) (max_records : Z) : Z * t :=
  let bounded := Z.max max_records 0 in
  let total := Z.of_nat (length (filter (λ w, au_tenant_id (rw_record w) = tenant_id) (events s))) in
  let overflow := Z.max 0 (total - bounded) in
  if overflow <=? 0 then (0, s)
  else
    let ids := rw_sequence_id <$> take (Z.to_nat overflow) (tenant_rows s tenant_id) in
    (overflow, mkStore (filter (λ w, rw_sequence_id w ∉ ids) (events s)) (last_sequence s)).
End SQLiteAuditStore.

#[export] Instance sqlite_audit_store : AuditStore SQLiteAuditStore.t := {|
  append_audit_event := SQLiteAuditStore.append;
  query_audit_events := SQLiteAuditStore.query;
  list_audit_events := SQLiteAuditStore.list_events;
  cleanup_audit_events := SQLiteAuditStore.cleanup;
|}.

(** ** The hash chain *)

Record AuditChainRecord := mkChainRecord {
  ch_payload : pydict;
  ch_previous_hash : string;
  ch_record_hash : string;
}.

Record EvidenceBundle := mkEvidence {
  ev_release_id : string;
  ev_gate_results : pydict;
  ev_audit_chain_valid : bool;
  ev_metadata : pydict;
}.

Section evidence.
Variable float_repr : Q → string.
Variable sha256_hex : string → string.
(** [hmac.new(key, message, sha256).hexdigest()] *)
Variable hmac_sha256_hex : string → string → string.

Definition chain_record (payload : pydict) (previous_hash : string) : AuditChainRecord :=
  let serialized := json_dumps float_repr (PDict payload) in
  mkChainRecord payload previous_hash (sha256_hex (previous_hash +:+ ":" +:+ serialized)).

(** The loop of [verify_chain], from a hash on *)
Fixpoint verify_from (previous : string) (records : list AuditChainRecord) : bool :=
  match records with
  | [] => true
  | r :: records =>
      let expected := chain_record (ch_payload r) previous in
      if negb (ch_record_hash expected =?s ch_record_hash r) || negb (ch_previous_hash r =?s previous)
      then false
      else verify_from (ch_record_hash r) records
  end.

Definition verify_chain (records : list AuditChainRecord) : bool := verify_from "" records.

Definition build_evidence_bundle (release_id : string) (gate_results : pydict)
    (audit_records : list AuditChainRecord) (metadata : option pydict) : EvidenceBundle :=
  mkEvidence release_id gate_results (verify_chain audit_records) (default [] metadata).

(** The loop of [compute_audit_chain_fingerprint] *)
Fixpoint chain_from (previous : string) (records : list pydict) : list AuditChainRecord :=
  match records with
  | [] => []
  | r :: records =>
      let chained := chain_record r previous in
      chained :: chain_from (ch_record_hash chained) records
  end.

Definition compute_audit_chain_fingerprint (records : list pydict) : bool * string :=
  let chain_records := chain_from "" records in
  (verify_chain chain_records,
   match last chain_records with Some r => ch_record_hash r | None => "" end).

(** ** Signatures *)

Definition sign_bundle_payload (payload : pydict) (secret : string) : string :=
  hmac_sha256_hex secret (json_dumps float_repr (PDict payload)).

Definition verify_signed_bundle_payload (payload : pydict) (signature secret : string) : bool :=
  sign_bundle_payload payload secret =?s signature.

Definition build_signing_keyring (legacy_secret : string) (versioned_secrets : list (string * string))
    : list (string * string) :=
  let keyring :=
    foldl (λ keyring p,
      let ver := py_strip p.1 in
      let sec := py_strip p.2 in
      if py_bool ver && py_bool sec then od_set ver sec keyring else keyring) [] versioned_secrets in
  let legacy := py_strip legacy_secret in
  if py_bool legacy && negb (od_mem "v1" keyring) then od_set "v1" legacy keyring else keyring.

(** The secret of a version, when it is not blank *)
Definition usable_secret (keyring : list (string * string)) (version : string) : option string :=
  match od_get version keyring with
  | Some secret => if py_bool (py_strip secret) then Some (py_strip secret) else None
  | None => None
  end.

(** The loop over [sorted(keyring.keys())] *)
Fixpoint first_usable (keyring : list (string * string)) (versions : list string) : option (string * string) :=
  match versions with
  | [] => None
  | version :: versions =>
      match usable_secret keyring version with
      | Some secret => Some (version, secret)
      | None => first_usable keyring versions
      end
  end.

Definition resolve_signing_secret (active_version : string) (keyring : list (string * string))
    : string * string :=
  let target := py_or (py_strip active_version) "v1" in
  match usable_secret keyring target with
  | Some secret => (target, secret)
  | None =>
      match usable_secret keyring "v1" with
      | Some secret => ("v1", secret)
      | None => default (target, "") (first_usable keyring (sorted_strings (od_keys keyring)))
      end
  end.

(** The loop over [sorted(keyring.keys())] *)
Fixpoint verify_with_any (payload : pydict) (signature : string) (keyring : list (string * string))
    (versions : list string) : bool * string :=
  match versions with
  | [] => (false, "")
  | version :: versions =>
      if verify_signed_bundle_payload payload signature (od_get_default "" version keyring)
      then (true, version)
      else verify_with_any payload signature keyring versions
  end.

Definition verify_signed_bundle_with_keyring (payload : pydict) (signature declared_version : string)
    (keyring : list (string * string)) : bool * string :=
  let declared := py_strip declared_version in
  if py_bool declared && od_mem declared keyring then
    (verify_signed_bundle_payload payload signature (od_get_default "" declared keyring), declared)
  else if negb (py_bool declared) && od_mem "v1" keyring &&
          verify_signed_bundle_payload payload signature (od_get_default "" "v1" keyring)
  then (true, "v1")
  else verify_with_any payload signature keyring (sorted_strings (od_keys keyring)).
End evidence.
