(* ===== verification/AuditStoresFacts.v ===== *)
(** * Theorems about audit stores and the hash chain

    Both stores keep the history they were given: a query, a listing and a cleanup are the same
    functions of it, whichever store answers.  A chain that was just computed always verifies, and
    what a keyring signs it verifies under the version it signed with. *)

From S2P Require Import Prelude PyValue SignedPlugins AuditStores.

(** ** The history of a store *)

(** The history without the oldest [n] events of a tenant *)
Fixpoint drop_oldest (n : nat) (t : string) (l : list AuditRecord) : list AuditRecord :=
  match l with
  | [] => []
  | r :: l =>
      if decide (au_tenant_id r = t) then
        match n with O => r :: l | S n => drop_oldest n t l end
      else r :: drop_oldest n t l
  end.

Definition of_tenant (t : string) (l : list AuditRecord) : list AuditRecord :=
  filter (λ r, au_tenant_id r = t) l.

(** How many events of a tenant a cleanup removes *)
Definition overflow (t : string) (k : Z) (l : list AuditRecord) : Z :=
  Z.max 0 (Z.of_nat (length (of_tenant t l)) - Z.max k 0).

(** What an audit store promises: its answers are those of its history, and an append fails only for an
    event id that the history has. *)
Class AuditHistory (S : Type) `{!AuditStore S} := {
  store_ok : S → Prop;
  history : S → list AuditRecord;
  append_history s now r :
    store_ok s →
    match append_audit_event s now r with
    | Ok s' => store_ok s' ∧ history s' = history s ++ [r]
    | Raise _ => au_event_id r ∈ au_event_id <$> history s
    end;
  query_history s c t :
    store_ok s →
    query_audit_events s c t = filter (λ r, au_correlation_id r = c ∧ au_tenant_id r = t) (history s);
  list_history s t n :
    store_ok s → list_audit_events s t n = last_n (bounded_limit n) (of_tenant t (history s));
  cleanup_history s t k :
    store_ok s →
    let '(n, s') := cleanup_audit_events s t k in
    n = overflow t k (history s) ∧ store_ok s' ∧ history s' = drop_oldest (Z.to_nat n) t (history s);
}.

Lemma drop_oldest_0 t l : drop_oldest 0 t l = l.
Proof. induction l as [|r l IH]; [done|]. cbn. case_decide; [done|by f_equal]. Qed.

(** A tenant loses its oldest events, the others nothing. *)
Lemma drop_oldest_tenant n t l : of_tenant t (drop_oldest n t l) = drop n (of_tenant t l).
Proof.
  unfold of_tenant. revert n. induction l as [|r l IH]; intros n; [by destruct n|]. cbn [drop_oldest].
  rewrite (filter_cons _ r l). case_decide as E.
  - destruct n as [|n]; [by rewrite filter_cons, decide_True|]. apply IH.
  - by rewrite filter_cons, decide_False, IH.
Qed.

Lemma drop_oldest_other n t t' l : t' ≠ t → of_tenant t' (drop_oldest n t l) = of_tenant t' l.
Proof.
  intros Hne. unfold of_tenant. revert n. induction l as [|r l IH]; intros n; [done|]. cbn [drop_oldest].
  case_decide as E.
  - destruct n as [|n]; [done|]. rewrite IH, filter_cons, decide_False; [done|]. congruence.
  - by rewrite !filter_cons, IH.
Qed.

Lemma list_filter_iff_on {X} (P Q : X → Prop) `{!∀ x, Decision (P x), !∀ x, Decision (Q x)} (l : list X) :
  (∀ x, x ∈ l → P x ↔ Q x) → filter P l = filter Q l.
Proof.
  induction l as [|x l IH]; intros HPQ; [done|]. rewrite !filter_cons.
  rewrite IH by (intros y Hy; apply HPQ; by right). apply decide_ext, HPQ. by left.
Qed.

(** Removing elements by their keys: those of the first [n] of a tenant *)
Lemma drop_oldest_keys {K X} `{EqDecision K} (key : X → K) (rec : X → AuditRecord) (l : list X) n t :
  NoDup (key <$> l) →
  rec <$> filter (λ x, key x ∉ take n (key <$> filter (λ x, au_tenant_id (rec x) = t) l)) l
    = drop_oldest n t (rec <$> l).
Proof.
  revert n. induction l as [|x l IH]; intros n; [done|]. rewrite fmap_cons. intros [Hx Hnd]%NoDup_cons.
  rewrite fmap_cons. cbn [drop_oldest]. destruct (decide (au_tenant_id (rec x) = t)) as [E|E].
  - rewrite (filter_cons_True (λ x, au_tenant_id (rec x) = t)) by done. destruct n as [|n].
    + rewrite take_0, filter_all_in; [done|]. intros y _. apply not_elem_of_nil.
    + rewrite fmap_cons. cbn [take]. rewrite filter_cons, decide_False by (rewrite not_elem_of_cons; tauto).
      rewrite <- IH by done. f_equal. apply list_filter_iff_on. intros y Hy. rewrite not_elem_of_cons.
      split; [by intros []|]. intros Hn. split; [|done]. intros Heq. apply Hx. rewrite <- Heq.
      by apply list_elem_of_fmap_2.
  - rewrite (filter_cons_False (λ x, au_tenant_id (rec x) = t)) by done.
    rewrite filter_cons, decide_True, fmap_cons, IH; [done|done|].
    intros Hin%elem_of_take. destruct Hin as (i & Hin & _). apply list_elem_of_lookup_2 in Hin.
    apply list_elem_of_fmap in Hin as (y & Heq & [_ Hy]%list_elem_of_filter). apply Hx. rewrite Heq.
    by apply list_elem_of_fmap_2.
Qed.

(** ** The two stores *)

Lemma indexed_spec (s : list AuditRecord) : (InMemoryAuditStore.indexed s).*2 = s ∧ NoDup (InMemoryAuditStore.indexed s).*1.
Proof.
  unfold InMemoryAuditStore.indexed. split; [by apply snd_zip; rewrite length_seq|].
  rewrite fst_zip by by rewrite length_seq. apply NoDup_seq.
Qed.

Lemma length_tenant_index t (s : list AuditRecord) :
  length (filter (λ p, au_tenant_id p.2 = t) (InMemoryAuditStore.indexed s)) = length (of_tenant t s).
Proof.
  rewrite <- (proj1 (indexed_spec s)) at 2. generalize (InMemoryAuditStore.indexed s) as l. unfold of_tenant.
  induction l as [|[i r] l IH]; [done|]. rewrite fmap_cons, !filter_cons. cbn. case_decide; cbn; by rewrite ?IH.
Qed.

Lemma in_memory_cleanup s t k :
  let '(n, s') := InMemoryAuditStore.cleanup s t k in
  n = overflow t k s ∧ s' = drop_oldest (Z.to_nat n) t s.
Proof.
  unfold InMemoryAuditStore.cleanup. rewrite length_fmap, length_tenant_index. fold (overflow t k s).
  destruct (Z.leb_spec (overflow t k s) 0) as [Hle|Hlt].
  { split; [unfold overflow in *; lia|]. by rewrite drop_oldest_0. }
  split; [done|]. destruct (indexed_spec s) as [E Hnd].
  pose proof (drop_oldest_keys fst snd (InMemoryAuditStore.indexed s) (Z.to_nat (overflow t k s)) t Hnd) as Hd.
  by rewrite E in Hd.
Qed.

#[export] Program Instance in_memory_history : AuditHistory InMemoryAuditStore.t := {|
  store_ok _ := True;
  history s := s;
|}.
Next Obligation. intros s now r _. done. Qed.
Next Obligation. done. Qed.
Next Obligation. done. Qed.
Next Obligation.
  intros s t k _. pose proof (in_memory_cleanup s t k) as Hc. cbn.
  destruct (InMemoryAuditStore.cleanup s t k) as [n s']. by destruct Hc.
Qed.

(** The rows are in the order of their sequence ids, and no later id was ever given. *)
Record sqlite_ok (s : SQLiteAuditStore.t) : Prop := {
  sq_order : StronglySorted (λ a b, SQLiteAuditStore.rw_sequence_id a < SQLiteAuditStore.rw_sequence_id b)
    (SQLiteAuditStore.events s);
  sq_last : ∀ w, w ∈ SQLiteAuditStore.events s →
    SQLiteAuditStore.rw_sequence_id w ≤ SQLiteAuditStore.last_sequence s;
}.

Definition sqlite_rows_history (s : SQLiteAuditStore.t) : list AuditRecord :=
  SQLiteAuditStore.rw_record <$> SQLiteAuditStore.events s.

Lemma sorted_filter {X} (R : relation X) (P : X → Prop) `{!∀ x, Decision (P x)} (l : list X) :
  StronglySorted R l → StronglySorted R (filter P l).
Proof.
  induction 1 as [|x l Hs IH Hx]; [constructor|]. rewrite filter_cons. case_decide; [|done].
  constructor; [done|]. rewrite Forall_forall in Hx |- *. intros y [_ Hy]%list_elem_of_filter. by apply Hx.
Qed.

(** Selecting in the order of the sequence ids *)
Lemma select_rows s (P : AuditRecord → Prop) `{!∀ r, Decision (P r)} :
  sqlite_ok s →
  sort_by (by_key SQLiteAuditStore.rw_sequence_id)
    (filter (λ w, P (SQLiteAuditStore.rw_record w)) (SQLiteAuditStore.events s))
    = filter (λ w, P (SQLiteAuditStore.rw_record w)) (SQLiteAuditStore.events s).
Proof.
  intros Hs. apply sort_by_id. apply sorted_filter.
  generalize (sq_order _ Hs). generalize (SQLiteAuditStore.events s) as l.
  induction 1 as [|w l Hl IH Hw]; constructor; [done|]. eapply Forall_impl; [exact Hw|].
  intros w'. unfold by_key. lia.
Qed.

Lemma filter_rows s (P : AuditRecord → Prop) `{!∀ r, Decision (P r)} :
  SQLiteAuditStore.rw_record <$> filter (λ w, P (SQLiteAuditStore.rw_record w)) (SQLiteAuditStore.events s)
    = filter P (sqlite_rows_history s).
Proof.
  unfold sqlite_rows_history. induction (SQLiteAuditStore.events s) as [|w l IH]; [done|].
  rewrite fmap_cons, !filter_cons. case_decide; [by rewrite fmap_cons, IH|done].
Qed.

Lemma tenant_rows_spec s t :
  sqlite_ok s →
  SQLiteAuditStore.tenant_rows s t =
    filter (λ w, au_tenant_id (SQLiteAuditStore.rw_record w) = t) (SQLiteAuditStore.events s).
Proof. exact (select_rows s (λ r, au_tenant_id r = t)). Qed.

Lemma tenant_rows_history s t :
  SQLiteAuditStore.rw_record <$> filter (λ w, au_tenant_id (SQLiteAuditStore.rw_record w) = t) (SQLiteAuditStore.events s)
    = of_tenant t (sqlite_rows_history s).
Proof. exact (filter_rows s (λ r, au_tenant_id r = t)). Qed.

Lemma take_reverse_last {X} n (l : list X) : reverse (take n (reverse l)) = drop (length l - n) l.
Proof. by rewrite take_reverse, reverse_involutive. Qed.

Lemma sorted_ids_NoDup (l : list SQLiteAuditStore.row) :
  StronglySorted (λ a b, SQLiteAuditStore.rw_sequence_id a < SQLiteAuditStore.rw_sequence_id b) l →
  NoDup (SQLiteAuditStore.rw_sequence_id <$> l).
Proof.
  induction 1 as [|w l Hs IH Hw]; [constructor|]. rewrite fmap_cons. constructor; [|done].
  intros (w' & E & Hin)%list_elem_of_fmap. rewrite Forall_forall in Hw. specialize (Hw w' Hin). lia.
Qed.

#[export] Program Instance sqlite_history : AuditHistory SQLiteAuditStore.t := {|
  store_ok := sqlite_ok;
  history := sqlite_rows_history;
|}.
Next Obligation.
  intros s now r [Ho Hl]. cbn. unfold SQLiteAuditStore.append. case_bool_decide as E; cbn [negb].
  - by rewrite list_fmap_compose in E.
  - split; [|unfold sqlite_rows_history; cbn; by rewrite fmap_app]. split; cbn.
    + apply StronglySorted_app_2; [|done|by repeat constructor]. intros w1 w2 H1 ->%list_elem_of_singleton.
      specialize (Hl w1 H1). cbn. lia.
    + intros w [Hw%Hl| ->%list_elem_of_singleton]%elem_of_app; [lia|cbn; lia].
Qed.
Next Obligation.
  intros s c t Hs. cbn. unfold SQLiteAuditStore.query.
  etrans; [|apply (filter_rows s (λ r, au_correlation_id r = c ∧ au_tenant_id r = t))].
  exact (f_equal (fmap SQLiteAuditStore.rw_record)
    (select_rows s (λ r, au_correlation_id r = c ∧ au_tenant_id r = t) Hs)).
Qed.
Next Obligation.
  intros s t n Hs. cbn. unfold SQLiteAuditStore.list_events, last_n.
  rewrite tenant_rows_spec by done. rewrite take_reverse_last, fmap_drop.
  by rewrite <- !tenant_rows_history, length_fmap.
Qed.
Next Obligation.
  intros s t k Hs. cbn. unfold SQLiteAuditStore.cleanup. rewrite tenant_rows_spec by done.
  assert (length (filter (λ w, au_tenant_id (SQLiteAuditStore.rw_record w) = t) (SQLiteAuditStore.events s))
    = length (of_tenant t (sqlite_rows_history s))) as -> by by rewrite <- tenant_rows_history, length_fmap.
  fold (overflow t k (sqlite_rows_history s)).
  destruct (Z.leb_spec (overflow t k (sqlite_rows_history s)) 0) as [Hle|Hlt].
  { split_and!; [unfold overflow in *; lia|done|]. by rewrite drop_oldest_0. }
  pose proof Hs as [Ho Hl]. split; [done|]. split.
  - split; cbn; [by apply sorted_filter|]. intros w [_ Hw]%list_elem_of_filter. by apply Hl.
  - pose proof (drop_oldest_keys SQLiteAuditStore.rw_sequence_id SQLiteAuditStore.rw_record
      (SQLiteAuditStore.events s) (Z.to_nat (overflow t k (sqlite_rows_history s))) t (sorted_ids_NoDup _ Ho)) as Hd.
    rewrite <- fmap_take in Hd. exact Hd.
Qed.

(** *** Commands one after another *)

Inductive audit_command := AppendEvent (now : string) (r : AuditRecord) | CleanupEvents (t : string) (k : Z).

Definition run_command {S} `{!AuditStore S} (s : S) (c : audit_command) : S :=
  match c with
  | AppendEvent now r => match append_audit_event s now r with Ok s => s | Raise _ => s end
  | CleanupEvents t k => (cleanup_audit_events s t k).2
  end.

Definition spec_command (l : list AuditRecord) (c : audit_command) : list AuditRecord :=
  match c with
  | AppendEvent _ r => l ++ [r]
  | CleanupEvents t k => drop_oldest (Z.to_nat (overflow t k l)) t l
  end.

Definition event_ids (cs : list audit_command) : list string :=
  omap (λ c, match c with AppendEvent _ r => Some (au_event_id r) | CleanupEvents _ _ => None end) cs.

(** What a store that holds a history answers *)
Definition answers_of {S} `{!AuditStore S} (l : list AuditRecord) (s : S) : Prop :=
  (∀ c t, query_audit_events s c t = filter (λ r, au_correlation_id r = c ∧ au_tenant_id r = t) l) ∧
  (∀ t n, list_audit_events s t n = last_n (bounded_limit n) (of_tenant t l)) ∧
  ∀ t k, let '(n, s') := cleanup_audit_events s t k in
    n = overflow t k l ∧
    ∀ t' m, list_audit_events s' t' m =
      last_n (bounded_limit m) (if decide (t' = t) then last_n (Z.max k 0) (of_tenant t l) else of_tenant t' l).

Lemma drop_overflow t k l :
  drop (Z.to_nat (overflow t k l)) (of_tenant t l) = last_n (Z.max k 0) (of_tenant t l).
Proof. unfold last_n, overflow. f_equal. lia. Qed.

Lemma drop_oldest_elem n t l r : r ∈ drop_oldest n t l → r ∈ l.
Proof.
  revert n. induction l as [|r' l IH]; intros n; [done|]. cbn [drop_oldest]. case_decide.
  - destruct n as [|n]; [done|]. intros Hr%IH. by right.
  - rewrite !elem_of_cons. naive_solver.
Qed.

Lemma history_answers {S} `{!AuditStore S, !AuditHistory S} (s : S) :
  store_ok s → answers_of (history s) s.
Proof.
  intros Hs. split_and!; [intros; by apply query_history|intros; by apply list_history|].
  intros t k. pose proof (cleanup_history s t k Hs) as Hc. destruct (cleanup_audit_events s t k) as [n s'].
  destruct Hc as (-> & Hs' & Hh). split; [done|]. intros t' m. rewrite list_history, Hh by done.
  case_decide as E; [subst t'; by rewrite drop_oldest_tenant, drop_overflow|by rewrite drop_oldest_other].
Qed.

Lemma run_history {S} `{!AuditStore S, !AuditHistory S} cs (s : S) :
  store_ok s → NoDup (event_ids cs) → (∀ id, id ∈ event_ids cs → id ∉ au_event_id <$> history s) →
  store_ok (foldl run_command s cs) ∧ history (foldl run_command s cs) = foldl spec_command (history s) cs.
Proof.
  revert s. induction cs as [|c cs IH]; intros s Hs Hnd Hfree; [done|]. cbn [foldl].
  destruct c as [now r|t k]; cbn [run_command spec_command].
  - cbn in Hnd, Hfree. apply NoDup_cons in Hnd as [Hr Hnd]. pose proof (append_history s now r Hs) as Ha.
    destruct (append_audit_event s now r) as [s'|e].
    2:{ by destruct (Hfree (au_event_id r) (list_elem_of_here _ _)). }
    destruct Ha as [Hs' Hh]. rewrite <- Hh. apply IH; [done|done|]. intros id Hid. rewrite Hh, fmap_app, not_elem_of_app.
    split; [apply Hfree; by right|]. intros ->%list_elem_of_singleton. done.
  - pose proof (cleanup_history s t k Hs) as Hc. destruct (cleanup_audit_events s t k) as [n s'].
    destruct Hc as (-> & Hs' & Hh). cbn [snd]. rewrite <- Hh. apply IH; [done|done|].
    intros id Hid Hin. apply (Hfree id Hid). rewrite Hh in Hin.
    apply list_elem_of_fmap in Hin as (r & -> & Hr%drop_oldest_elem). by apply list_elem_of_fmap_2.
Qed.

(** C16: Whatever events with distinct ids are appended and whatever cleanups are made of any tenants,
    the in-memory store and the SQLite store give the same answers: a query has the events of the
    correlation in the order they were appended, a listing the last ones of the tenant, at most
    the limit and 1000, and a cleanup leaves a tenant its last events and every other tenant all of its own, and answers
    how many it removed. *)
Theorem audit_stores_agree cs :
  NoDup (event_ids cs) →
  let l := foldl spec_command [] cs in
  answers_of l (foldl (run_command (S := InMemoryAuditStore.t)) [] cs) ∧
  answers_of l (foldl run_command SQLiteAuditStore.empty cs).
Proof.
  intros Hnd l. split.
  - destruct (run_history cs ([] : InMemoryAuditStore.t)) as [Hs Hh]; [done|done|intros ? _; apply not_elem_of_nil|].
    unfold l. change [] with (history ([] : InMemoryAuditStore.t)) at 1. rewrite <- Hh. by apply history_answers.
  - destruct (run_history cs SQLiteAuditStore.empty) as [Hs Hh];
      [split; [constructor|intros w Hw; by apply elem_of_nil in Hw]|done|intros ? _; apply not_elem_of_nil|].
    unfold l. change (@nil AuditRecord) with (history SQLiteAuditStore.empty). rewrite <- Hh. by apply history_answers.
Qed.

(** ** Chains and signatures *)

Section evidence.
Variable float_repr : Q → string.
Variable sha256_hex : string → string.
Variable hmac_sha256_hex : string → string → string.
#[local] Notation dumps := (json_dumps float_repr).
#[local] Notation chain_from := (chain_from float_repr sha256_hex).
#[local] Notation fingerprint := (compute_audit_chain_fingerprint float_repr sha256_hex).
#[local] Notation sign := (sign_bundle_payload float_repr hmac_sha256_hex).
#[local] Notation verify := (verify_signed_bundle_with_keyring float_repr hmac_sha256_hex).

Lemma chain_from_verifies prev rs : verify_from float_repr sha256_hex prev (chain_from prev rs) = true.
Proof.
  revert prev. induction rs as [|r rs IH]; intros prev; [done|]. cbn.
  rewrite !bool_decide_true by done. apply IH.
Qed.

(** The chain of a list of records is computed from them, so it is always valid. *)
Lemma fingerprint_always_valid rs : (fingerprint rs).1 = true.
Proof. apply chain_from_verifies. Qed.

(** The hash only depends on the canonical JSON of the records. *)
Lemma fingerprint_ext rs rs' :
  Forall2 (λ r r', dumps (PDict r) = dumps (PDict r')) rs rs' → fingerprint rs = fingerprint rs'.
Proof.
  intros Hall. unfold compute_audit_chain_fingerprint. unfold verify_chain. rewrite !chain_from_verifies. f_equal.
  assert (∀ prev, (ch_record_hash <$> chain_from prev rs) = (ch_record_hash <$> chain_from prev rs')) as Hh.
  { induction Hall as [|r r' rs rs' E _ IH]; intros prev; [done|]. cbn [AuditStores.chain_from fmap list_fmap].
    unfold chain_record in *. cbn [ch_record_hash] in *. rewrite E. by f_equal. }
  specialize (Hh ""). apply (f_equal last) in Hh. rewrite !fmap_last in Hh.
  destruct (last (chain_from "" rs)), (last (chain_from "" rs')); cbn in Hh; congruence.
Qed.

(** A keyring as it is built: versions and secrets stripped, and none blank *)
Definition keyring_ok (keyring : list (string * string)) : Prop :=
  ∀ v s, od_get v keyring = Some s → py_strip v = v ∧ v ≠ "" ∧ py_strip s = s ∧ s ≠ "".

Lemma keyring_set v s keyring :
  py_strip v ≠ "" → py_strip s ≠ "" → keyring_ok keyring → keyring_ok (od_set (py_strip v) (py_strip s) keyring).
Proof.
  intros Hv Hs Hk v' s'. destruct (decide (v' = py_strip v)) as [->|Hne].
  - rewrite od_get_set. intros [= <-]. by rewrite !py_strip_idem.
  - rewrite od_get_set_ne by done. apply Hk.
Qed.

Lemma build_keyring_ok legacy versioned : keyring_ok (build_signing_keyring legacy versioned).
Proof.
  unfold build_signing_keyring. set (f := λ (keyring : list (string * string)) (p : string * string), _).
  assert (keyring_ok (foldl f [] versioned)) as Hk.
  { assert (keyring_ok []) as H0 by done. revert H0. generalize (@nil (string * string)) as k.
    induction versioned as [|[v s] l IH]; intros k Hk; [done|]. cbn [foldl]. apply IH. unfold f. cbn [fst snd].
    destruct (py_bool (py_strip v)) eqn:Ev; [|exact Hk]. destruct (py_bool (py_strip s)) eqn:Es; [|exact Hk].
    apply py_bool_true in Ev, Es. by apply keyring_set. }
  destruct (py_bool (py_strip legacy)) eqn:El; [|exact Hk]. destruct (negb _); [|exact Hk].
  apply py_bool_true in El. cbn [andb]. change "v1" with (py_strip "v1"). by apply keyring_set.
Qed.

Lemma usable_of_keyring keyring v : keyring_ok keyring → usable_secret keyring v = od_get v keyring.
Proof.
  intros Hk. unfold usable_secret. destruct (od_get v keyring) as [s|] eqn:E; [|done].
  destruct (Hk v s E) as (_ & _ & Hs & Hne). rewrite Hs. by rewrite (proj2 (py_bool_true s)).
Qed.

(** A keyring with a secret signs with one it has. *)
Lemma resolved_secret active keyring :
  keyring_ok keyring → keyring ≠ [] →
  let '(v, s) := resolve_signing_secret active keyring in od_get v keyring = Some s.
Proof.
  intros Hk Hne. unfold resolve_signing_secret. rewrite !usable_of_keyring by done.
  destruct (od_get (py_or _ _) keyring) as [s|] eqn:E1; [done|].
  destruct (od_get "v1" keyring) as [s|] eqn:E2; [done|].
  assert (∀ vs, match first_usable keyring vs with
    | Some (v, s) => od_get v keyring = Some s | None => ∀ v, v ∈ vs → od_get v keyring = None end) as Hf.
  { induction vs as [|v vs IH]; cbn; [by intros v ?%elem_of_nil|]. rewrite usable_of_keyring by done.
    destruct (od_get v keyring) as [s|] eqn:E; [done|]. destruct (first_usable keyring vs) as [[]|]; [done|].
    intros v' [->|Hv]%elem_of_cons; [done|by apply IH]. }
  specialize (Hf (sorted_strings (od_keys keyring))). destruct (first_usable _ _) as [[v s]|]; [done|].
  destruct keyring as [|[v s] keyring]; [done|]. exfalso.
  assert (od_get v ((v, s) :: keyring) = None) as E; [|cbn in E; by rewrite decide_True in E].
  apply Hf. unfold sorted_strings. rewrite elem_of_sort_by. by left.
Qed.

(** What is signed under a version of the keyring verifies, under that version. *)
Lemma signed_verifies keyring v s payload payload' :
  keyring_ok keyring → od_get v keyring = Some s → dumps (PDict payload') = dumps (PDict payload) →
  verify payload' (sign payload s) v keyring = (true, v).
Proof.
  intros Hk E Hd. destruct (Hk v s E) as (Hv & Hne & _). unfold verify_signed_bundle_with_keyring.
  rewrite Hv, (proj2 (py_bool_true v)), (proj2 (od_mem_true v keyring)) by done. cbn [andb].
  unfold od_get_default, verify_signed_bundle_payload, sign_bundle_payload. rewrite E, Hd. cbn.
  by rewrite bool_decide_true.
Qed.

(** A signature that verifies is the HMAC of the payload under a secret of the keyring. *)
Lemma verified_is_signed keyring v payload signature declared :
  verify payload signature declared keyring = (true, v) →
  ∃ s, od_get v keyring = Some s ∧ signature = sign payload s.
Proof.
  assert (∀ vs, (∀ w, w ∈ vs → is_Some (od_get w keyring)) →
    verify_with_any float_repr hmac_sha256_hex payload signature keyring vs = (true, v) →
    ∃ s, od_get v keyring = Some s ∧ signature = sign payload s) as Hany.
  { induction vs as [|w vs IH]; intros Hvs; cbn; [done|]. unfold verify_signed_bundle_payload at 1.
    case_bool_decide as E; [|apply IH; intros; apply Hvs; by right]. intros [= ->].
    destruct (Hvs v (list_elem_of_here _ _)) as [s Hs]. exists s. unfold od_get_default in E. by rewrite Hs in E. }
  unfold verify_signed_bundle_with_keyring. destruct (py_bool _ && od_mem _ keyring) eqn:E1.
  - apply andb_true_iff in E1 as [_ [s Hs]%od_mem_true]. unfold verify_signed_bundle_payload, od_get_default.
    rewrite Hs. change (default "" (Some s)) with s. intros [= E2 <-]. apply bool_decide_eq_true in E2. by exists s.
  - destruct (negb _ && _ && _) eqn:E2; [intros [= <-]|].
    + apply andb_true_iff in E2 as [[_ [s Hs]%od_mem_true]%andb_true_iff E2]. exists s. split; [done|].
      unfold verify_signed_bundle_payload, od_get_default in E2. rewrite Hs in E2. by apply bool_decide_eq_true in E2.
    + apply Hany. intros w. unfold sorted_strings. rewrite elem_of_sort_by. by apply od_get_Some_key.
Qed.
End evidence.
