(* ===== verification/Bootstrap.v ===== *)
(** * Starting the application

    Models src/api/app.py (settings from the environment, create_app), the checks and the default provider
    of src/modules/platform_bootstrap/service.py, src/api/bootstrap.py (which stores and limiters an
    application has) and src/api/readiness.py.  The environment is a dictionary of texts.  Parameters:
    [json.loads], [float()], the class import and construction of Providers.v, and what
    PRAGMA quick_check answers for a file.  Settings that the environment does not set keep the defaults
    of src/config/settings.py and are left out; the attachment of routers is the two flags for those that
    are optional. *)

From S2P Require Import Prelude PyValue AuditStores Authentication Providers.

(** ** Settings *)

Module Settings.

Inductive DeploymentProfile := MANAGED_CLOUD | SELF_HOSTED | HYBRID.

Record RuntimeSettings := mkRuntime {
  default_provider_id : string;
  allowed_provider_ids : list string;
  enable_hosted_tool_runtime : bool;
  enable_hosted_tool_process_isolation : bool;
  enable_byoc_tool_runtime : bool;
  enable_provider_delete_graceful_drain : bool;
  byoc_worker_jwt_secret : string;
  byoc_worker_token_ttl_seconds : Z;
  byoc_store_backend : string;
  byoc_sqlite_db_path : string;
  byoc_lease_ttl_seconds : Z;
  byoc_replay_ttl_seconds : Z;
  byoc_cleanup_interval_seconds : Z;
  byoc_completed_ttl_seconds : Z;
  byoc_cancelled_ttl_seconds : Z;
  byoc_result_ttl_seconds : Z;
  byoc_idempotency_ttl_seconds : Z;
  byoc_max_completed_records : Z;
  byoc_max_cancelled_records : Z;
  byoc_max_result_records : Z;
  byoc_max_claim_attempts_before_dlq : Z;
  byoc_result_conflict_strategy : string;
  byoc_cost_limit_microunits_per_tenant : Z;
  byoc_enforce_cost_limit : bool;
  byoc_enable_cost_window_policy : bool;
  byoc_cost_window_seconds : Z;
  byoc_cost_success_microunits : Z;
  byoc_cost_error_microunits : Z;
  byoc_cost_timeout_microunits : Z;
  byoc_cost_cancelled_microunits : Z;
  byoc_budget_partition_scope : string;
  byoc_budget_partition_limits_microunits : list (string * Z);
  byoc_anomaly_detection_enabled : bool;
  byoc_anomaly_cost_utilization_threshold : Q;
  byoc_anomaly_rejection_rate_threshold : Q;
  byoc_anomaly_reason_share_threshold : Q;
  byoc_anomaly_min_submit_attempts : Z;
  byoc_anomaly_min_rejection_count : Z;
  byoc_fair_admission_enabled : bool;
  byoc_fair_admission_max_inflight_global : Z;
  byoc_fair_admission_wait_timeout_ms : Z;
  control_state_backend : string;
  control_state_sqlite_db_path : string;
  session_runtime_idle_ttl_seconds : Z;
  session_runtime_max_cached_sessions : Z;
  run_control_max_terminal_records_per_tenant : Z;
  tenant_runtime_max_cached_contexts : Z;
}.

Record PolicySettings := mkPolicy {
  ingress_latency_budget_ms : Z;
  ingress_timeout_ms : Z;
  ingress_timeout_fail_mode : string;
}.

Record LimitsSettings := mkLimits {
  max_parallel_jobs : Z;
  max_concurrent_risky_tools_per_session : Z;
  default_tool_timeout_ms : Z;
  max_active_runs_per_tenant : Z;
  max_turn_requests_per_minute_per_tenant : Z;
  max_tool_uploads_per_minute_per_tenant : Z;
  max_tool_upload_size_bytes : Z;
  tool_artifact_directory : string;
  tool_artifact_signing_secret : string;
  allowed_tool_dependency_prefixes : list string;
  max_audit_records_per_tenant : Z;
  max_audit_export_records : Z;
  audit_export_directory : string;
  audit_bundle_signing_secret : string;
  audit_bundle_signing_active_version : string;
  audit_bundle_signing_secrets_by_version : list (string * string);
}.

Record AppSettings := mkSettings {
  environment : string;
  deployment_profile : DeploymentProfile;
  runtime : RuntimeSettings;
  auth : AuthSettings;
  policy : PolicySettings;
  limits : LimitsSettings;
}.
End Settings.
Import Settings.

(** ** The environment *)

Notation environ := (list (string * string)).

(** [os.environ.get(name, dflt)] *)
Definition getenv (e : environ) (name dflt : string) : string := od_get_default dflt name e.

Definition env_bool (e : environ) (name : string) (dflt : bool) : bool :=
  match od_get name e with
  | None => dflt
  | Some raw => bool_decide (py_lower (py_strip raw) ∈ ["1"; "true"; "yes"; "on"])
  end.

Definition control_state_backend_from_env (e : environ) : string :=
  if py_lower (py_strip (getenv e "EXO_CONTROL_STATE_BACKEND" "memory")) =?s "sqlite" then "sqlite" else "memory".

Definition env_int_non_negative (e : environ) (name : string) (dflt : Z) : Z :=
  match od_get name e with
  | None => dflt
  | Some raw =>
      let text := py_strip raw in
      if negb (py_bool text) then dflt
      else match parse_int text with Some v => Z.max 0 v | None => dflt end
  end.

Definition control_state_sqlite_db_path_from_env (e : environ) : string :=
  match od_get "EXO_CONTROL_STATE_SQLITE_DB_PATH" e with
  | None => ".exo_data/exo_control_state.db"
  | Some raw => py_or (py_strip raw) ".exo_data/exo_control_state.db"
  end.

(** [[part.strip() for part in raw.split(",") if part.strip()]] *)
Definition comma_list (raw : string) : list string :=
  filter (λ s, s ≠ "") (py_strip <$> split_on (Ascii.ascii_of_nat 44) raw).

Definition cors_origins_for_environment (e : environ) (exo_env : string) : list string :=
  let raw := py_strip (getenv e "EXO_CORS_ORIGINS" "") in
  if py_bool raw then comma_list raw
  else if bool_decide (exo_env ∈ ["development"; "test"]) then ["*"]
  else [].

Definition resolve_deployment_profile (raw : string) : DeploymentProfile :=
  let normalized := py_lower (py_strip raw) in
  if normalized =?s "self_hosted" then SELF_HOSTED
  else if normalized =?s "hybrid" then HYBRID
  else MANAGED_CLOUD.

Definition profile_defaults (p : DeploymentProfile) : list (string * string) :=
  let given name interval :=
    [("tool_artifact_directory", ".exo_data/tool_artifacts/" +:+ name);
     ("audit_export_directory", ".exo_data/audit_exports/" +:+ name);
     ("byoc_store_backend", "sqlite"); ("byoc_cleanup_interval_seconds", interval)] in
  match p with
  | MANAGED_CLOUD => given "managed_cloud" "20"
  | SELF_HOSTED => given "self_hosted" "30"
  | HYBRID => given "hybrid" "25"
  end.

Definition profile_default (p : DeploymentProfile) (key fallback : string) : string :=
  od_get_default fallback key (profile_defaults p).

Section startup.
Variable float_repr : Q → string.
(** [json.loads], None for a JSONDecodeError; [float()], None for a ValueError *)
Variable json_loads : string → option pyval.
Variable float_of : string → option Q.

(** [int(os.environ.get(name, dflt))] *)
Definition env_int (e : environ) (name dflt : string) : res Z := int_of (PStr (getenv e name dflt)).

Definition env_float (e : environ) (name dflt : string) : res Q :=
  match float_of (getenv e name dflt) with
  | Some q => Ok q
  | None => Raise (ValueError ("could not convert string to float: " +:+ repr_str (getenv e name dflt)))
  end.

(** A JSON object in a variable; anything else counts as an empty one. *)
Definition env_object (e : environ) (name : string) : pydict :=
  let raw := py_strip (getenv e name "") in
  if py_bool raw then
    match json_loads raw with Some v => default [] (as_dict v) | None => [] end
  else [].

Definition signing_secrets_by_version (e : environ) : list (string * string) :=
  foldl (λ keys p,
    let version := py_strip p.1 in
    let secret := py_strip (py_str float_repr p.2) in
    if py_bool version && py_bool secret then od_set version secret keys else keys)
    [] (env_object e "EXO_AUDIT_BUNDLE_SIGNING_SECRETS_BY_VERSION").

Definition budget_partition_limits (e : environ) : list (string * Z) :=
  foldl (λ limits p,
    let key := py_lower (py_strip p.1) in
    if py_bool key then
      match int_of p.2 with Ok v => od_set key (Z.max v 0) limits | Raise _ => limits end
    else limits)
    [] (env_object e "EXO_BYOC_BUDGET_PARTITION_LIMITS_MICROUNITS_JSON").

Definition runtime_settings (e : environ) (profile : DeploymentProfile) (provider_id : string)
    : res RuntimeSettings :=
  let int := env_int e in
  let flag name := env_bool e name false in
  let! worker_ttl := int "EXO_BYOC_WORKER_TOKEN_TTL_SECONDS" "300" in
  let! lease_ttl := int "EXO_BYOC_LEASE_TTL_SECONDS" "30" in
  let! replay_ttl := int "EXO_BYOC_REPLAY_TTL_SECONDS" "300" in
  let! cleanup := int "EXO_BYOC_CLEANUP_INTERVAL_SECONDS"
                    (profile_default profile "byoc_cleanup_interval_seconds" "30") in
  let! completed_ttl := int "EXO_BYOC_COMPLETED_TTL_SECONDS" "3600" in
  let! cancelled_ttl := int "EXO_BYOC_CANCELLED_TTL_SECONDS" "3600" in
  let! result_ttl := int "EXO_BYOC_RESULT_TTL_SECONDS" "3600" in
  let! idempotency_ttl := int "EXO_BYOC_IDEMPOTENCY_TTL_SECONDS" "3600" in
  let! max_completed := int "EXO_BYOC_MAX_COMPLETED_RECORDS" "2000" in
  let! max_cancelled := int "EXO_BYOC_MAX_CANCELLED_RECORDS" "2000" in
  let! max_result := int "EXO_BYOC_MAX_RESULT_RECORDS" "2000" in
  let! attempts := int "EXO_BYOC_MAX_CLAIM_ATTEMPTS_BEFORE_DLQ" "3" in
  let! cost_limit := int "EXO_BYOC_COST_LIMIT_MICROUNITS_PER_TENANT" "1000000" in
  let! window := int "EXO_BYOC_COST_WINDOW_SECONDS" "3600" in
  let! success := int "EXO_BYOC_COST_SUCCESS_MICROUNITS" "100" in
  let! error := int "EXO_BYOC_COST_ERROR_MICROUNITS" "40" in
  let! timeout := int "EXO_BYOC_COST_TIMEOUT_MICROUNITS" "60" in
  let! cancelled := int "EXO_BYOC_COST_CANCELLED_MICROUNITS" "20" in
  let! utilization := env_float e "EXO_BYOC_ANOMALY_COST_UTILIZATION_THRESHOLD" "0.9" in
  let! rejection := env_float e "EXO_BYOC_ANOMALY_REJECTION_RATE_THRESHOLD" "0.2" in
  let! share := env_float e "EXO_BYOC_ANOMALY_REASON_SHARE_THRESHOLD" "0.6" in
  let! min_attempts := int "EXO_BYOC_ANOMALY_MIN_SUBMIT_ATTEMPTS" "5" in
  let! min_rejections := int "EXO_BYOC_ANOMALY_MIN_REJECTION_COUNT" "3" in
  let! inflight := int "EXO_BYOC_FAIR_ADMISSION_MAX_INFLIGHT_GLOBAL" "8" in
  let! wait_ms := int "EXO_BYOC_FAIR_ADMISSION_WAIT_TIMEOUT_MS" "1000" in
  Ok {|
    default_provider_id := provider_id;
    allowed_provider_ids := [provider_id];
    enable_hosted_tool_runtime := flag "EXO_ENABLE_HOSTED_TOOL_RUNTIME";
    enable_hosted_tool_process_isolation := flag "EXO_ENABLE_HOSTED_TOOL_PROCESS_ISOLATION";
    enable_byoc_tool_runtime := flag "EXO_ENABLE_BYOC_TOOL_RUNTIME";
    enable_provider_delete_graceful_drain := flag "EXO_ENABLE_PROVIDER_DELETE_GRACEFUL_DRAIN";
    byoc_worker_jwt_secret := getenv e "EXO_BYOC_WORKER_JWT_SECRET" "exo-byoc-dev-secret";
    byoc_worker_token_ttl_seconds := worker_ttl;
    byoc_store_backend :=
      getenv e "EXO_BYOC_STORE_BACKEND" (profile_default profile "byoc_store_backend" "memory");
    byoc_sqlite_db_path := getenv e "EXO_BYOC_DB_PATH" (getenv e "EXO_DB_PATH" ".exo_data/exo.db");
    byoc_lease_ttl_seconds := lease_ttl;
    byoc_replay_ttl_seconds := replay_ttl;
    byoc_cleanup_interval_seconds := cleanup;
    byoc_completed_ttl_seconds := completed_ttl;
    byoc_cancelled_ttl_seconds := cancelled_ttl;
    byoc_result_ttl_seconds := result_ttl;
    byoc_idempotency_ttl_seconds := idempotency_ttl;
    byoc_max_completed_records := max_completed;
    byoc_max_cancelled_records := max_cancelled;
    byoc_max_result_records := max_result;
    byoc_max_claim_attempts_before_dlq := attempts;
    byoc_result_conflict_strategy := getenv e "EXO_BYOC_RESULT_CONFLICT_STRATEGY" "first_write_wins";
    byoc_cost_limit_microunits_per_tenant := cost_limit;
    byoc_enforce_cost_limit := flag "EXO_BYOC_ENFORCE_COST_LIMIT";
    byoc_enable_cost_window_policy := flag "EXO_BYOC_ENABLE_COST_WINDOW_POLICY";
    byoc_cost_window_seconds := window;
    byoc_cost_success_microunits := success;
    byoc_cost_error_microunits := error;
    byoc_cost_timeout_microunits := timeout;
    byoc_cost_cancelled_microunits := cancelled;
    byoc_budget_partition_scope := getenv e "EXO_BYOC_BUDGET_PARTITION_SCOPE" "tenant";
    byoc_budget_partition_limits_microunits := budget_partition_limits e;
    byoc_anomaly_detection_enabled := env_bool e "EXO_BYOC_ANOMALY_DETECTION_ENABLED" true;
    byoc_anomaly_cost_utilization_threshold := utilization;
    byoc_anomaly_rejection_rate_threshold := rejection;
    byoc_anomaly_reason_share_threshold := share;
    byoc_anomaly_min_submit_attempts := min_attempts;
    byoc_anomaly_min_rejection_count := min_rejections;
    byoc_fair_admission_enabled := flag "EXO_BYOC_FAIR_ADMISSION_ENABLED";
    byoc_fair_admission_max_inflight_global := inflight;
    byoc_fair_admission_wait_timeout_ms := wait_ms;
    control_state_backend := control_state_backend_from_env e;
    control_state_sqlite_db_path := control_state_sqlite_db_path_from_env e;
    session_runtime_idle_ttl_seconds := env_int_non_negative e "EXO_SESSION_RUNTIME_IDLE_TTL_SECONDS" 0;
    session_runtime_max_cached_sessions := env_int_non_negative e "EXO_SESSION_RUNTIME_MAX_CACHED_SESSIONS" 0;
    run_control_max_terminal_records_per_tenant :=
      env_int_non_negative e "EXO_RUN_CONTROL_MAX_TERMINAL_RECORDS_PER_TENANT" 0;
    tenant_runtime_max_cached_contexts := env_int_non_negative e "EXO_TENANT_RUNTIME_MAX_CACHED_CONTEXTS" 0;
  |}.

Definition auth_settings (e : environ) : AuthSettings :=
  mkAuth (getenv e "EXO_AUTH_JWT_SECRET" "") (getenv e "EXO_AUTH_JWKS_URL" "")
    (getenv e "EXO_AUTH_JWT_ALGORITHM" "HS256") (env_bool e "EXO_ALLOW_CROSS_TENANT_ADMIN" false)
    (comma_list (getenv e "EXO_CROSS_TENANT_ADMIN_ROLES" "super_admin")).

Definition policy_settings (e : environ) : res PolicySettings :=
  let! budget := env_int e "EXO_INGRESS_LATENCY_BUDGET_MS" "75" in
  let! timeout := env_int e "EXO_INGRESS_TIMEOUT_MS" "150" in
  Ok (mkPolicy budget timeout (getenv e "EXO_INGRESS_TIMEOUT_FAIL_MODE" "fail_closed")).

Definition limits_settings (e : environ) (profile : DeploymentProfile) : res LimitsSettings :=
  let int := env_int e in
  let! parallel := int "EXO_MAX_PARALLEL_JOBS" "20" in
  let! risky := int "EXO_MAX_CONCURRENT_RISKY_TOOLS_PER_SESSION" "1" in
  let! timeout := int "EXO_DEFAULT_TOOL_TIMEOUT_MS" "30000" in
  let! runs := int "EXO_MAX_ACTIVE_RUNS_PER_TENANT" "50" in
  let! turns := int "EXO_MAX_TURN_REQUESTS_PER_MINUTE_PER_TENANT" "120" in
  let! uploads := int "EXO_MAX_TOOL_UPLOADS_PER_MINUTE_PER_TENANT" "30" in
  let! size := int "EXO_MAX_TOOL_UPLOAD_SIZE_BYTES" "5000000" in
  let! records := int "EXO_MAX_AUDIT_RECORDS_PER_TENANT" "10000" in
  let! exports := int "EXO_MAX_AUDIT_EXPORT_RECORDS" "2000" in
  Ok {|
    max_parallel_jobs := parallel;
    max_concurrent_risky_tools_per_session := risky;
    default_tool_timeout_ms := timeout;
    max_active_runs_per_tenant := runs;
    max_turn_requests_per_minute_per_tenant := turns;
    max_tool_uploads_per_minute_per_tenant := uploads;
    max_tool_upload_size_bytes := size;
    tool_artifact_directory :=
      getenv e "EXO_TOOL_ARTIFACT_DIRECTORY"
        (profile_default profile "tool_artifact_directory" ".exo_data/tool_artifacts");
    tool_artifact_signing_secret := getenv e "EXO_TOOL_ARTIFACT_SIGNING_SECRET" "exo-tool-artifact-dev-secret";
    allowed_tool_dependency_prefixes := comma_list (getenv e "EXO_ALLOWED_TOOL_DEPENDENCY_PREFIXES" "");
    max_audit_records_per_tenant := records;
    max_audit_export_records := exports;
    audit_export_directory :=
      getenv e "EXO_AUDIT_EXPORT_DIRECTORY"
        (profile_default profile "audit_export_directory" ".exo_data/audit_exports");
    audit_bundle_signing_secret := getenv e "EXO_AUDIT_BUNDLE_SIGNING_SECRET" "exo-audit-dev-secret";
    audit_bundle_signing_active_version := getenv e "EXO_AUDIT_BUNDLE_SIGNING_ACTIVE_VERSION" "v1";
    audit_bundle_signing_secrets_by_version := signing_secrets_by_version e;
  |}.

Definition default_settings (e : environ) : res AppSettings :=
  let profile := resolve_deployment_profile (getenv e "EXO_DEPLOYMENT_PROFILE" "managed_cloud") in
  let! runtime := runtime_settings e profile (getenv e "EXO_DEFAULT_PROVIDER_ID" "openai") in
  let! policy := policy_settings e in
  let! limits := limits_settings e profile in
  Ok (mkSettings (getenv e "EXO_ENV" "development") profile runtime (auth_settings e) policy limits).

(** ** src/modules/platform_bootstrap/service.py *)

Definition DEVELOPMENT_ENVIRONMENTS : list string := ["development"; "test"].

Definition normalized_environment (s : AppSettings) : string := py_lower (py_strip (environment s)).

Definition dev_mode (s : AppSettings) : bool := bool_decide (normalized_environment s ∈ DEVELOPMENT_ENVIRONMENTS).

(** The signing secrets by their variables, each with its default for development *)
Definition signing_secrets (s : AppSettings) : list (string * (string * string)) :=
  [("EXO_BYOC_WORKER_JWT_SECRET", (byoc_worker_jwt_secret (runtime s), "exo-byoc-dev-secret"));
   ("EXO_TOOL_ARTIFACT_SIGNING_SECRET", (tool_artifact_signing_secret (limits s), "exo-tool-artifact-dev-secret"));
   ("EXO_AUDIT_BUNDLE_SIGNING_SECRET", (audit_bundle_signing_secret (limits s), "exo-audit-dev-secret"))].

(** Whether a secret is missing or the default *)
Definition invalid_secret (value dev_default : string) : bool :=
  let current := py_strip value in
  negb (py_bool current) || (current =?s dev_default).

Definition weak_jwt_secret (a : AuthSettings) : bool :=
  let secret := py_strip (jwt_secret a) in
  py_bool secret && negb (py_bool (py_strip (jwks_url a))) && (py_len secret <? 32).

Definition validate_non_dev_secrets (s : AppSettings) : res unit :=
  if dev_mode s then Ok tt
  else
    let here := "environment='" +:+ normalized_environment s +:+ "'" in
    let invalid :=
      fst <$> filter (λ p, invalid_secret p.2.1 p.2.2 = true) (signing_secrets s) in
    guard! bool_decide (invalid = [])
      else ValueError ("Refusing to start with missing or development-only signing secrets in "
             +:+ here +:+ ": " +:+ join ", " (sorted_strings invalid)) in
    guard! negb (weak_jwt_secret (auth s))
      else ValueError ("Refusing to start: EXO_AUTH_JWT_SECRET must be at least 32 characters when "
             +:+ "EXO_AUTH_JWKS_URL is unset (" +:+ here +:+ ").") in
    Ok tt.

Context {Class_ Adapter : Type}.
Variable import_class : string → string → class_outcome Class_.
Variable construct : Class_ → string → loading Adapter.

(** A variable that has to be set, unless there is a default for the case *)
Definition setting_or (value : string) (dflt : option string) (error : string) : res string :=
  if py_bool value then Ok value
  else match dflt with Some d => Ok d | None => Raise (ValueError error) end.

Definition outside_dev (name : string) : string :=
  name +:+ " must be configured outside development/test bootstrap.".

(** What an exception of [load_adapter] is *)
Definition raised {A} (l : loading A) : res A :=
  match l with
  | Loaded a => Ok a
  | LoadFails message => Raise (OtherException message)
  | LoadCrashes e => Raise e
  end.

Definition build_default_provider_registry (e : environ) (s : AppSettings)
    : res (ProviderRegistry (Adapter := Adapter)) :=
  let dev := dev_mode s in
  let provider_id := py_strip (default_provider_id (runtime s)) in
  let var name := py_strip (getenv e name "") in
  let! class_ref :=
    setting_or (var "EXO_DEFAULT_PROVIDER_ADAPTER_CLASS") (if dev then Some openai_class_ref else None)
      (outside_dev "EXO_DEFAULT_PROVIDER_ADAPTER_CLASS") in
  let! api_type_raw :=
    setting_or (py_lower (var "EXO_DEFAULT_PROVIDER_API_TYPE")) (if dev then Some "openai_native" else None)
      (outside_dev "EXO_DEFAULT_PROVIDER_API_TYPE") in
  let! api_type :=
    match api_type_of api_type_raw with
    | Some t => Ok t
    | None => Raise (ValueError ("Unsupported EXO_DEFAULT_PROVIDER_API_TYPE '" +:+ api_type_raw +:+ "'."))
    end in
  let native := bool_decide (api_type = OPENAI_NATIVE) in
  let! base_url :=
    setting_or (var "EXO_DEFAULT_PROVIDER_BASE_URL")
      (if dev && native then Some "https://api.openai.com" else None)
      (outside_dev "EXO_DEFAULT_PROVIDER_BASE_URL") in
  let! model :=
    setting_or (var "EXO_DEFAULT_PROVIDER_MODEL") (if dev then Some "gpt-4o-mini" else None)
      (outside_dev "EXO_DEFAULT_PROVIDER_MODEL") in
  let key_var := var "EXO_DEFAULT_PROVIDER_API_KEY_ENV_VAR" in
  let api_key_env_var := if negb (py_bool key_var) && dev && native then "OPENAI_API_KEY" else key_var in
  let! canonical_ref := canonicalize_adapter_class_ref class_ref in
  let! adapter := raised (load_adapter import_class construct canonical_ref provider_id) in
  let p := mkProvider provider_id (provider_id +:+ " (default)") canonical_ref true MANAGED_VENDOR 1 base_url api_type
             "api_key" api_key_env_var model double_02 1500 in
  Ok (mkProviderRegistry [(provider_id, p)] [(provider_id, adapter)]).

(** ** src/api/bootstrap.py *)

(** A store by the name of its class and the path of its database, when it has one *)
Record store_ref := mkStoreRef { class_name : string; db_path : string }.

(** The state of an application as far as it differs between applications *)
Record application := mkApplication {
  ap_settings : AppSettings;
  ap_provider_registry : ProviderRegistry (Adapter := Adapter);
  ap_session_store : store_ref;
  ap_audit_store : store_ref;
  ap_record_stores : option string;
  ap_run_control_registry : store_ref;
  ap_terminal_records : Z;
  ap_turn_limit : Z;
  ap_upload_limit : Z;
  ap_hydrates : bool;
}.

Definition bootstrap (e : environ) (registry : ProviderRegistry (Adapter := Adapter)) (s : AppSettings)
    (sqlite : bool) : res application :=
  let! _ := validate_non_dev_secrets s in
  let path := getenv e "EXO_DB_PATH" ".exo_data/exo.db" in
  let store name memory := if sqlite then mkStoreRef name path else mkStoreRef memory "" in
  let control :=
    if py_lower (py_strip (control_state_backend (runtime s))) =?s "sqlite" then
      mkStoreRef "SQLiteRunControlRegistry" (control_state_sqlite_db_path (runtime s))
    else mkStoreRef "RunControlRegistry" "" in
  Ok (mkApplication s registry (store "SQLiteSessionStore" "InMemorySessionStore")
        (store "SQLiteAuditStore" "InMemoryAuditStore") (if sqlite then Some path else None) control
        (run_control_max_terminal_records_per_tenant (runtime s))
        (max_turn_requests_per_minute_per_tenant (limits s))
        (max_tool_uploads_per_minute_per_tenant (limits s)) sqlite).

(** ** [create_app] *)

(** What the HTTP application is configured with, and the application behind it *)
Record fastapi := mkFastApi {
  fa_docs : bool;
  fa_cors_origins : list string;
  fa_allow_credentials : bool;
  fa_prometheus : bool;
  fa_openai_gateway : bool;
  fa_application : application;
}.

Definition create_app (e : environ) : res fastapi :=
  let exo_env := getenv e "EXO_ENV" "development" in
  let docs := env_bool e "EXO_ENABLE_OPENAPI" (bool_decide (exo_env ∈ ["development"; "test"])) in
  let origins := cors_origins_for_environment e exo_env in
  let! s := default_settings e in
  let! _ := validate_non_dev_secrets s in
  let! registry := build_default_provider_registry e s in
  let! app := bootstrap e registry s true in
  Ok (mkFastApi docs origins (negb (bool_decide (origins = ["*"])))
        (env_bool e "EXO_ENABLE_PROMETHEUS_METRICS" false)
        (env_bool e "EXO_ENABLE_OPENAI_COMPAT_GATEWAY" false) app).

(** ** src/api/readiness.py *)

(** What PRAGMA quick_check of a database comes to *)
Inductive quick_check := NoRow | Row (message : string) | OsError (message : string) | SqliteError (message : string).
Variable pragma_quick_check : string → quick_check.

Definition sqlite_quick_check (db_path : string) : bool * string :=
  let path := py_strip db_path in
  if negb (py_bool path) || (path =?s ":memory:") then (true, "skipped_memory")
  else
    match pragma_quick_check path with
    | NoRow => (false, "no_result")
    | Row message => if py_lower message =?s "ok" then (true, "ok") else (false, message)
    | OsError message => (false, "os_error:" +:+ message)
    | SqliteError message => (false, "sqlite_error:" +:+ message)
    end.

(** One check: whether it succeeds, and its entry *)
Definition check_entry (key : string) (s : store_ref) : bool * (string * string) :=
  let '(ok, detail) := sqlite_quick_check (db_path s) in (ok, (key, detail)).

Definition readiness_snapshot (a : application) : bool * list (string * string) :=
  let session :=
    if startswith (class_name (ap_session_store a)) "SQLite"
    then check_entry "primary_sqlite" (ap_session_store a)
    else (true, ("session_store", class_name (ap_session_store a))) in
  let checks :=
    session ::
    (if class_name (ap_run_control_registry a) =?s "SQLiteRunControlRegistry"
     then [check_entry "control_state_sqlite" (ap_run_control_registry a)] else []) ++
    (if class_name (ap_audit_store a) =?s "SQLiteAuditStore"
     then [check_entry "audit_sqlite" (ap_audit_store a)] else []) in
  (forallb fst checks, snd <$> checks).
End startup.

(** * Theorems about starting the application

    What an environment has to hold for the application to start: outside development, secrets of its own
    and a provider that is spelled out; the provider that the application starts with; what its readiness
    says; and three environments that are accepted and should not be. *)

Section facts.
Variable float_repr : Q → string.
Variable json_loads : string → option pyval.
Variable float_of : string → option Q.
Context {Class_ Adapter : Type}.
Variable import_class : string → string → class_outcome Class_.
Variable construct : Class_ → string → loading Adapter.
Implicit Types (e : list (string * string)) (s : Settings.AppSettings).

Notation default_settings := (default_settings float_repr json_loads float_of).
Notation build_default_provider_registry := (build_default_provider_registry import_class construct).
Notation create_app := (create_app float_repr json_loads float_of import_class construct).

(** ** Secrets *)

(** Every signing secret is set and is not the one of development; a JWT secret has 32 characters unless a
    JWKS endpoint takes precedence. *)
Definition sound_secrets s : Prop :=
  (∀ name value dflt, (name, (value, dflt)) ∈ signing_secrets s → py_strip value ≠ "" ∧ py_strip value ≠ dflt) ∧
  (py_strip (jwt_secret (Settings.auth s)) = "" ∨ py_strip (jwks_url (Settings.auth s)) ≠ "" ∨
   32 ≤ py_len (py_strip (jwt_secret (Settings.auth s)))).

Lemma py_bool_spec t : py_bool t = true ↔ t ≠ "".
Proof. unfold py_bool. by case_bool_decide. Qed.

Lemma invalid_secret_spec value dflt :
  invalid_secret value dflt = true ↔ ¬ (py_strip value ≠ "" ∧ py_strip value ≠ dflt).
Proof.
  unfold invalid_secret, py_bool. do 2 case_bool_decide; cbn; naive_solver.
Qed.

Lemma weak_jwt_secret_spec a :
  weak_jwt_secret a = false ↔
  py_strip (jwt_secret a) = "" ∨ py_strip (jwks_url a) ≠ "" ∨ 32 ≤ py_len (py_strip (jwt_secret a)).
Proof.
  unfold weak_jwt_secret, py_bool.
  destruct (Z.ltb_spec (py_len (py_strip (jwt_secret a))) 32); do 2 case_bool_decide; cbn; naive_solver lia.
Qed.

(** The secrets check passes exactly in a development environment and with sound secrets. *)
Theorem secrets_accepted_exactly s :
  validate_non_dev_secrets s = Ok tt ↔ dev_mode s = true ∨ sound_secrets s.
Proof.
  unfold validate_non_dev_secrets, sound_secrets. destruct (dev_mode s); [by split; [left|]|].
  rewrite <- weak_jwt_secret_spec. case_bool_decide as Hi.
  - assert (∀ name value dflt, (name, (value, dflt)) ∈ signing_secrets s →
              py_strip value ≠ "" ∧ py_strip value ≠ dflt) as Hall.
    { intros name value dflt Hin. apply dec_stable. rewrite <- invalid_secret_spec. intros Hbad.
      apply fmap_nil_inv in Hi. enough ((name, (value, dflt)) ∈ ([] : list (string * (string * string)))) as Hn
        by (by apply elem_of_nil in Hn).
      rewrite <- Hi. by apply list_elem_of_filter. }
    destruct (weak_jwt_secret _); cbn [negb]; split; intros Hx; try done; [|by right].
    destruct Hx as [?|[_ ?]]; done.
  - split; [done|]. intros [?|[Hall _]]; [done|]. destruct Hi.
    destruct (filter _ (signing_secrets s)) as [|[name [value dflt]] l] eqn:Ef; [done|]. exfalso.
    assert ((name, (value, dflt)) ∈ filter (λ p, invalid_secret p.2.1 p.2.2 = true) (signing_secrets s)) as Hin
      by (rewrite Ef; left).
    apply list_elem_of_filter in Hin as [Hbad Hin]. cbn in Hbad. apply invalid_secret_spec in Hbad. by eauto.
Qed.

(** ** The environment's numbers *)

Lemma env_int_non_negative_ge e name dflt : 0 ≤ dflt → 0 ≤ env_int_non_negative e name dflt.
Proof. intros Hd. unfold env_int_non_negative. repeat case_match; lia. Qed.

(** ** The default provider *)

Lemma setting_or_ok value dflt error v :
  setting_or value dflt error = Ok v → value ≠ "" ∧ v = value ∨ value = "" ∧ dflt = Some v.
Proof.
  unfold setting_or, py_bool. case_bool_decide as Hv; cbn [negb]; [|left; by simplify_eq].
  destruct dflt; [|done]. intros [= ->]. by right.
Qed.

Lemma cache_limits_nonneg e s n :
  default_settings e = Ok s →
  n ∈ [Settings.session_runtime_idle_ttl_seconds; Settings.session_runtime_max_cached_sessions;
       Settings.run_control_max_terminal_records_per_tenant; Settings.tenant_runtime_max_cached_contexts] →
  0 ≤ n (Settings.runtime s).
Proof.
  unfold Bootstrap.default_settings. intros Hs. apply res_bind_ok in Hs as (rt & Hrt & Hs).
  apply res_bind_ok in Hs as (pol & _ & Hs). apply res_bind_ok in Hs as (lim & _ & Hs). injection Hs as <-.
  unfold runtime_settings in Hrt. repeat (apply res_bind_ok in Hrt as (? & _ & Hrt)). injection Hrt as <-.
  rewrite !elem_of_cons, elem_of_nil. cbn [Settings.runtime].
  intros [->|[->|[->|[->|[]]]]]; by apply env_int_non_negative_ge.
Qed.

(** The provider that an application is started with *)
Definition default_provider e s (r : ProviderRegistry (Adapter := Adapter)) : Prop :=
  let id := py_strip (Settings.default_provider_id (Settings.runtime s)) in
  ∃ p a, providers r = [(id, p)] ∧ adapters r = [(id, a)] ∧
    pv_provider_id p = id ∧ pv_enabled p = true ∧
    load_adapter import_class construct (pv_adapter_class p) id = Loaded a ∧
    (dev_mode s = false →
     ∀ name, name ∈ ["EXO_DEFAULT_PROVIDER_ADAPTER_CLASS"; "EXO_DEFAULT_PROVIDER_API_TYPE";
                     "EXO_DEFAULT_PROVIDER_BASE_URL"; "EXO_DEFAULT_PROVIDER_MODEL"] →
       py_strip (getenv e name "") ≠ "").

Lemma py_lower_empty t : py_lower t ≠ "" → t ≠ "".
Proof. by intros Ht ->. Qed.

Lemma built_default_provider e s r :
  build_default_provider_registry e s = Ok r → default_provider e s r.
Proof.
  unfold Bootstrap.build_default_provider_registry. intros Hb.
  apply res_bind_ok in Hb as (class_ref & Hc & Hb). apply res_bind_ok in Hb as (raw & Hr & Hb).
  apply res_bind_ok in Hb as (t & _ & Hb). apply res_bind_ok in Hb as (url & Hu & Hb).
  apply res_bind_ok in Hb as (model & Hm & Hb). apply res_bind_ok in Hb as (ref & _ & Hb).
  apply res_bind_ok in Hb as (a & Ha & Hb). injection Hb as <-.
  eexists _, a. cbn [providers adapters pv_provider_id pv_enabled pv_adapter_class]. split_and!; try done.
  - unfold raised in Ha. by destruct (load_adapter _ _ _ _); simplify_eq.
  - intros Hd. rewrite Hd in *. cbn [andb] in *.
    apply setting_or_ok in Hc as [[Hc _]|[_ [=]]]. apply setting_or_ok in Hr as [[Hr _]|[_ [=]]].
    apply setting_or_ok in Hu as [[Hu _]|[_ [=]]]. apply setting_or_ok in Hm as [[Hm _]|[_ [=]]].
    apply py_lower_empty in Hr.
    intros name. rewrite !elem_of_cons, elem_of_nil. by intros [->|[->|[->|[->|[]]]]].
Qed.

(** The value of a variable: what it is set to, or when it is blank the default, if there is one *)
Definition given e (name : string) (dflt : option string) (v : string) : Prop :=
  let value := py_strip (getenv e name "") in
  value ≠ "" ∧ v = value ∨ value = "" ∧ dflt = Some v.

Lemma setting_or_given e name dflt error v :
  setting_or (py_strip (getenv e name "")) dflt error = Ok v ↔ given e name dflt v.
Proof.
  split; [apply setting_or_ok|]. unfold setting_or, given, py_bool.
  case_bool_decide as E; intros [[Hne ->]|[He Hd]]; try done. cbn. by rewrite Hd.
Qed.

Lemma py_lower_nonempty t : py_lower t = "" → t = "".
Proof. by destruct t. Qed.

(** The API type is compared in lower case. *)
Lemma api_type_given e (dev : bool) error raw :
  let name := "EXO_DEFAULT_PROVIDER_API_TYPE" in
  let dflt := if dev then Some "openai_native" else None in
  setting_or (py_lower (py_strip (getenv e name ""))) dflt error = Ok raw ↔
  ∃ raw', raw = py_lower raw' ∧ given e name dflt raw'.
Proof.
  intros name dflt. unfold setting_or, given, py_bool. set (v := py_strip _). case_bool_decide as Hv; cbn [negb].
  - apply py_lower_nonempty in Hv as ->. subst dflt. split.
    + destruct dev; [|done]. intros [= <-]. exists "openai_native". by split; [|right].
    + intros (raw' & -> & [[[] _]|[_ Hd]]); [done|]. destruct dev; [|done]. by injection Hd as <-.
  - split.
    + intros [= <-]. exists v. split; [done|]. left. by split; [intros ->|].
    + intros (raw' & -> & [[_ ->]|[-> _]]); done.
Qed.

(** The provider [p] with its adapter [ad], as the environment describes it.  In development the class, the API
    type and the model have defaults, and so have the base URL and the key variable of the native API; otherwise
    the first four have to be set, and the key variable may be blank. *)
Definition described_provider e s (p : ProviderRecord) (ad : Adapter) : Prop :=
  let dev := dev_mode s in
  let id := py_strip (Settings.default_provider_id (Settings.runtime s)) in
  let in_dev (d : string) := if dev then Some d else None in
  ∃ class_ref raw t url model canonical,
    given e "EXO_DEFAULT_PROVIDER_ADAPTER_CLASS" (in_dev openai_class_ref) class_ref ∧
    given e "EXO_DEFAULT_PROVIDER_API_TYPE" (in_dev "openai_native") raw ∧ api_type_of (py_lower raw) = Some t ∧
    given e "EXO_DEFAULT_PROVIDER_BASE_URL"
      (if bool_decide (t = OPENAI_NATIVE) then in_dev "https://api.openai.com" else None) url ∧
    given e "EXO_DEFAULT_PROVIDER_MODEL" (in_dev "gpt-4o-mini") model ∧
    canonicalize_adapter_class_ref class_ref = Ok canonical ∧
    load_adapter import_class construct canonical id = Loaded ad ∧
    let key_var := py_strip (getenv e "EXO_DEFAULT_PROVIDER_API_KEY_ENV_VAR" "") in
    p = mkProvider id (id +:+ " (default)") canonical true MANAGED_VENDOR 1 url t "api_key"
          (if negb (py_bool key_var) && dev && bool_decide (t = OPENAI_NATIVE) then "OPENAI_API_KEY" else key_var)
          model double_02 1500.

Lemma default_registry_exactly e s r :
  let id := py_strip (Settings.default_provider_id (Settings.runtime s)) in
  build_default_provider_registry e s = Ok r ↔
  ∃ p ad, described_provider e s p ad ∧ r = mkProviderRegistry [(id, p)] [(id, ad)].
Proof.
  intros id. unfold Bootstrap.build_default_provider_registry, described_provider. fold id.
  assert (∀ d, (if dev_mode s && d then Some "https://api.openai.com" else None) =
    (if d then if dev_mode s then Some "https://api.openai.com" else None else None)) as Hurl
    by (intros []; by destruct (dev_mode s)).
  split.
  - intros Hb.
    apply res_bind_ok in Hb as (class_ref & Hc & Hb). apply res_bind_ok in Hb as (raw & Hr & Hb).
    apply res_bind_ok in Hb as (t & Ht & Hb). apply res_bind_ok in Hb as (url & Hu & Hb).
    apply res_bind_ok in Hb as (model & Hm & Hb). apply res_bind_ok in Hb as (ref & Hcan & Hb).
    apply res_bind_ok in Hb as (ad & Ha & Hb). injection Hb as <-.
    eexists _, ad. split; [|done].
    apply api_type_given in Hr as (raw' & -> & Hr).
    apply setting_or_given in Hc, Hm. rewrite Hurl in Hu. apply setting_or_given in Hu.
    destruct (api_type_of (py_lower raw')) as [t'|] eqn:Eapi; [|done]. injection Ht as ->.
    exists class_ref, raw', t, url, model, ref. split_and!; try done.
    unfold raised in Ha. by destruct (load_adapter _ _ _ _); simplify_eq.
  - intros (p & ad & (class_ref & raw & t & url & model & ref & Hc & Hr & Ht & Hu & Hm & Hcan & Ha & ->) & ->).
    apply setting_or_given with (error := outside_dev "EXO_DEFAULT_PROVIDER_ADAPTER_CLASS") in Hc. rewrite Hc. cbn [res_bind].
    rewrite (proj2 (api_type_given e (dev_mode s) (outside_dev "EXO_DEFAULT_PROVIDER_API_TYPE") (py_lower raw)))
      by (by exists raw). cbn [res_bind].
    rewrite Ht. cbn [res_bind]. rewrite Hurl.
    apply setting_or_given with (error := outside_dev "EXO_DEFAULT_PROVIDER_BASE_URL") in Hu. rewrite Hu. cbn [res_bind].
    apply setting_or_given with (error := outside_dev "EXO_DEFAULT_PROVIDER_MODEL") in Hm. rewrite Hm. cbn [res_bind].
    rewrite Hcan. cbn [res_bind]. by rewrite Ha.
Qed.


(** What [validate_startup] is given by settings of this kind *)
Definition startup_settings s : StartupSettings :=
  mkStartup (Settings.default_provider_id (Settings.runtime s)) None
    (Settings.allowed_provider_ids (Settings.runtime s)) false.

(** The registry that the application builds passes its own startup validation exactly when the identifier in
    the environment has no blanks around it. *)
Lemma default_provider_valid (healthcheck : Adapter → HealthStatus) secret_of visit e s r :
  default_settings e = Ok s → build_default_provider_registry e s = Ok r →
  let id := Settings.default_provider_id (Settings.runtime s) in
  validate_startup healthcheck secret_of visit r (startup_settings s) = Ok tt ↔ py_strip id = id.
Proof.
  intros Hs Hb id. apply built_default_provider in Hb as (p & a & Hp & _ & _ & He & _).
  assert (Settings.allowed_provider_ids (Settings.runtime s) = [id]) as Hal.
  { unfold Bootstrap.default_settings in Hs. apply res_bind_ok in Hs as (rt & Hrt & Hs).
    apply res_bind_ok in Hs as (pol & _ & Hs). apply res_bind_ok in Hs as (lim & _ & Hs). injection Hs as <-.
    unfold runtime_settings in Hrt. repeat (apply res_bind_ok in Hrt as (? & _ & Hrt)). by injection Hrt as <-. }
  fold id in Hp. unfold validate_startup, startup_settings. cbn [Providers.default_provider_id
    Providers.allowed_provider_ids require_provider_healthcheck_on_start]. rewrite Hal. fold id.
  unfold od_mem, enabled_provider_ids. rewrite Hp. cbn [od_get].
  destruct (decide (id = py_strip id)) as [E|E].
  - rewrite <- E. rewrite (bool_decide_true (is_Some _)) by (by eexists).
    rewrite filter_cons_True by done. cbn. rewrite (bool_decide_true (id ∈ [id])) by left.
    rewrite bool_decide_true; [done|]. destruct (decide_rel _ _ _); [done|].
    rewrite filter_cons_False; [done|]. intros Hn. apply Hn. left.
  - rewrite (bool_decide_false (is_Some _)) by (by intros [? [=]]). by split; [|intros Hx; symmetry in Hx].
Qed.

End facts.

(** ** Readiness *)

Section readiness.
Context {Adapter : Type}.
Variable pragma_quick_check : string → quick_check.

Definition healthy (path : string) : Prop :=
  py_strip path = "" ∨ py_strip path = ":memory:" ∨
  ∃ message, pragma_quick_check (py_strip path) = Row message ∧ py_lower message = "ok".

Lemma sqlite_quick_check_spec path : (sqlite_quick_check pragma_quick_check path).1 = true ↔ healthy path.
Proof.
  unfold sqlite_quick_check, healthy, py_bool. do 2 case_bool_decide; cbn [negb orb]; [by split; auto..|].
  destruct (pragma_quick_check _) as [|m|m|m] eqn:E; cbn; [naive_solver| |naive_solver..].
  case_bool_decide; cbn; naive_solver.
Qed.

Lemma check_entry_healthy key r : (check_entry pragma_quick_check key r).1 = true ↔ healthy (db_path r).
Proof. rewrite <- sqlite_quick_check_spec. unfold check_entry. by destruct (sqlite_quick_check _ _). Qed.

(** An application says that it is ready exactly when every database it was started with is healthy: the
    database of its sessions and audit events, and that of the run registry when it has one. *)
Theorem ready_exactly_healthy e r s sqlite (a : application (Adapter := Adapter)) :
  bootstrap e r s sqlite = Ok a →
  (readiness_snapshot pragma_quick_check a).1 = true ↔
  (sqlite = true → healthy (getenv e "EXO_DB_PATH" ".exo_data/exo.db")) ∧
  (py_lower (py_strip (Settings.control_state_backend (Settings.runtime s))) = "sqlite" →
   healthy (Settings.control_state_sqlite_db_path (Settings.runtime s))).
Proof.
  unfold bootstrap. intros Ha. apply res_bind_ok in Ha as ([] & _ & Ha). injection Ha as <-.
  unfold readiness_snapshot.
  cbn [ap_session_store ap_run_control_registry ap_audit_store].
  set (backend := py_lower _).
  destruct (decide (backend = "sqlite")) as [Hc|Hc];
    [rewrite (bool_decide_true (backend = "sqlite")) by done|rewrite (bool_decide_false (backend = "sqlite")) by done];
    destruct sqlite; cbn [class_name].
  all: change (startswith "SQLiteSessionStore" "SQLite") with true;
    change (startswith "InMemorySessionStore" "SQLite") with false;
    change ("SQLiteRunControlRegistry" =?s "SQLiteRunControlRegistry") with true;
    change ("RunControlRegistry" =?s "SQLiteRunControlRegistry") with false;
    change ("SQLiteAuditStore" =?s "SQLiteAuditStore") with true;
    change ("InMemoryAuditStore" =?s "SQLiteAuditStore") with false.
  all: cbv beta iota; cbn [app fst snd forallb]; rewrite ?andb_true_iff, ?check_entry_healthy; cbn [db_path].
  all: naive_solver.
Qed.
End readiness.

(** ** Concrete environments *)
Module BootstrapExamples.

(** A production environment *)
Definition production : list (string * string) :=
  [("EXO_ENV", "production");
   ("EXO_BYOC_WORKER_JWT_SECRET", "w-secret"); ("EXO_TOOL_ARTIFACT_SIGNING_SECRET", "t-secret");
   ("EXO_AUDIT_BUNDLE_SIGNING_SECRET", "a-secret");
   ("EXO_DEFAULT_PROVIDER_ADAPTER_CLASS", "EchoRuntimeAdapter"); ("EXO_DEFAULT_PROVIDER_API_TYPE", "custom");
   ("EXO_DEFAULT_PROVIDER_BASE_URL", "http://echo"); ("EXO_DEFAULT_PROVIDER_MODEL", "echo")].

(** A JSON reader that knows one text *)
Definition json (text : string) : option pyval :=
  if text =?s "{v1: dev}" then Some (PDict [("v1", PStr "exo-audit-dev-secret")]) else None.

Notation start e := (create_app (λ _, "") json (λ _, Some (inject_Z 0)) (λ _ _, AdapterClass tt)
  (λ (_ : unit) (id : string), Loaded id) e).

Definition started (e : list (string * string)) : option (fastapi (Adapter := string)) :=
  match start e with Ok a => Some a | Raise _ => None end.

Lemma production_starts : is_ok (start production) = true.
Proof. vm_compute. reflexivity. Qed.

(** Without secrets of its own production does not start; with nothing set, development does. *)
Lemma production_without_secrets_refused :
  is_ok (start [("EXO_ENV", "production")]) = false ∧ is_ok (start []) = true.
Proof. vm_compute. done. Qed.


Lemma ready_exactly_healthy_witness :
  ∃ a, started production = Some a ∧
  ((readiness_snapshot (λ _, Row "ok") (fa_application a)).1 = true ↔
   (true = true → healthy (λ _, Row "ok") (getenv production "EXO_DB_PATH" ".exo_data/exo.db")) ∧
   (py_lower (py_strip (Settings.control_state_backend (Settings.runtime (ap_settings (fa_application a))))) = "sqlite" →
    healthy (λ _, Row "ok") (Settings.control_state_sqlite_db_path (Settings.runtime (ap_settings (fa_application a)))))).
Proof.
  destruct (started production) as [a|] eqn:E; [|exfalso; vm_compute in E; discriminate E].
  exists a. split; [reflexivity|].
  apply (ready_exactly_healthy (λ _, Row "ok") production (ap_provider_registry (fa_application a))
    (ap_settings (fa_application a)) true (fa_application a)).
  assert ((λ a, bootstrap production (ap_provider_registry (fa_application a)) (ap_settings (fa_application a)) true)
    <$> started production = Ok ∘ fa_application <$> started production) as Hb by (vm_compute; reflexivity).
  rewrite E in Hb. cbn in Hb. injection Hb as Hb. exact Hb.
Defined.

(** Only the list that is exactly the wildcard loses its credentials: with one more origin the wildcard is
    allowed together with credentials. *)
Lemma cors_wildcard_with_credentials :
  (λ a, (fa_cors_origins a, fa_allow_credentials a)) <$>
    started (("EXO_CORS_ORIGINS", "*, https://app.example") :: production) = Some (["*"; "https://app.example"], true).
Proof. vm_compute. reflexivity. Qed.

(** The keys by version are not checked: production starts, and signs its bundles, with the secret of
    development. *)
Lemma versioned_dev_secret_accepted :
  (λ a, let l := Settings.limits (ap_settings (fa_application a)) in
        resolve_signing_secret (Settings.audit_bundle_signing_active_version l)
          (build_signing_keyring (Settings.audit_bundle_signing_secret l)
             (Settings.audit_bundle_signing_secrets_by_version l))) <$>
    started (("EXO_AUDIT_BUNDLE_SIGNING_SECRETS_BY_VERSION", "{v1: dev}") :: production)
  = Some ("v1", "exo-audit-dev-secret").
Proof. vm_compute. reflexivity. Qed.

(** A blank around the provider's identifier: the application starts, but the identifier in its settings names
    no provider. *)
Lemma blank_default_provider_unknown :
  (λ a, is_ok (get_adapter (ap_provider_registry (fa_application a))
                 (Settings.default_provider_id (Settings.runtime (ap_settings (fa_application a)))))) <$>
    started (("EXO_DEFAULT_PROVIDER_ID", "echo ") :: production) = Some false.
Proof. vm_compute. reflexivity. Qed.
End BootstrapExamples.
