(* ===== verification/AuditApi.v ===== *)
(** * The audit routes

    Models src/api/routers/audit.py with the requests of src/api/schemas/audit_schemas.py and
    src/modules/audit_observability/service.py, over any audit store.  [audit_app] is what the routes
    read and change: the module, and the files of the export directory.  The audit pipeline writes to
    the same store as the routes read, as the bootstrap wires it.  A file is what [json.loads] makes of
    its text, [None] when that fails.  The current time, random digits and [Path.resolve] are
    parameters; the tenant scope is checked before a route runs (Authentication.v). *)

From S2P Require Import Prelude PyValue Sample AuditStoresFacts Tenancy Identity Authentication.
From S2P Require Import ToolIO Entitlements SignedPlugins AuditStores.

(** ** Requests and answers *)

Record AuditEventListResponse := mkEventList {
  el_tenant_id : string;
  el_correlation_id : string;
  el_total : Z;
  el_events : list AuditRecord;
}.

Record AuditReportResponse := mkReport {
  rp_tenant_id : string;
  rp_total_events : Z;
  rp_by_event_type : list (string * Z);
}.

Record AuditCleanupResponse := mkCleanup {
  cl_tenant_id : string;
  cl_pruned_records : Z;
  cl_retained_cap : Z;
}.

Record AuditExportFileRequest := mkExportRequest { ex_limit : Z; ex_filename_prefix : string }.

Record AuditExportFileResponse := mkExportResponse {
  xf_tenant_id : string;
  xf_file_path : string;
  xf_record_count : Z;
  xf_signature_version : string;
  xf_signature : string;
  xf_chain_valid : bool;
  xf_last_record_hash : string;
}.

Record AuditVerifyRequest := mkVerifyRequest { vq_file_path : string; vq_bundle : pydict }.

Record AuditVerifyResponse := mkVerifyResponse {
  vr_tenant_id : string;
  vr_signature_version : string;
  vr_verified_with_version : string;
  vr_signature_valid : bool;
  vr_chain_valid : bool;
  vr_verified : bool;
  vr_reason : string;
}.

(** ** The module and the application *)

Record AuditObservabilityModule {S : Type} := mkAuditModule {
  audit_store : option S;
  tool_audit_pipeline : bool;
  audit_export_directory : string;
  max_audit_records_per_tenant : Z;
  max_audit_export_records : Z;
  audit_bundle_signing_secret : string;
  audit_bundle_signing_active_version : string;
  audit_bundle_signing_secrets_by_version : list (string * string);
}.
Arguments AuditObservabilityModule : clear implicits.
Arguments mkAuditModule {S}.

Record audit_app {S : Type} := mkAuditApp {
  audit_module : option (AuditObservabilityModule S);
  export_files : list (string * option pyval);
}.
Arguments audit_app : clear implicits.
Arguments mkAuditApp {S}.

(** What a request is made with: the caller, the time and the random digits of the correlation id and
    of the event id *)
Record audit_call := mkAuditCall {
  ac_identity : IdentityContext;
  ac_now : string;
  ac_timestamp : string;
  ac_token : string;
  ac_event_token : string;
}.

Definition with_audit_store {S} (m : AuditObservabilityModule S) (s : S) : AuditObservabilityModule S :=
  mkAuditModule (Some s) (tool_audit_pipeline m) (audit_export_directory m) (max_audit_records_per_tenant m)
    (max_audit_export_records m) (audit_bundle_signing_secret m) (audit_bundle_signing_active_version m)
    (audit_bundle_signing_secrets_by_version m).

Definition with_audit_module {S} (a : audit_app S) (m : AuditObservabilityModule S) : audit_app S :=
  mkAuditApp (Some m) (export_files a).

(** A field with bounds, as the request model checks it *)
Definition in_bounds (lo hi n : Z) : http unit :=
  if (lo <=? n) && (n <=? hi) then Reply tt
  else HTTPException 422 ("Input should be between " +:+ str_of_Z lo +:+ " and " +:+ str_of_Z hi).

(** [Counter(...)], and the loop that counts *)
Definition count_types (records : list AuditRecord) : list (string * Z) :=
  foldl (λ counts r, let key := py_or (au_event_type r) "unknown" in
    od_set key (od_get_default 0 key counts + 1) counts) [] records.

(** [_record_to_response(record).model_dump()] *)
Definition event_row (r : AuditRecord) : pydict :=
  [("event_id", PStr (au_event_id r)); ("correlation_id", PStr (au_correlation_id r));
   ("tenant_id", PStr (au_tenant_id r)); ("event_type", PStr (au_event_type r));
   ("payload", PDict (au_payload r))].

(** The fields of [AuditExportBundleResponse], in its order *)
Definition bundle_fields : list string :=
  ["tenant_id"; "record_count"; "chain_valid"; "last_record_hash"; "exported_at_utc"; "signature_version";
   "signature"; "event_type_counts"; "records"].

Definition export_response (bundle : pydict) : pydict := (λ k, (k, dict_get bundle k PNone)) <$> bundle_fields.

Definition sanitize_char (c : ascii) : ascii :=
  if ascii_alnum c || bool_decide (c = Ascii.ascii_of_nat 95) || bool_decide (c = Ascii.ascii_of_nat 45) then c
  else Ascii.ascii_of_nat 95.

(** Of normalised absolute paths: [directory in path.parents] *)
Definition has_parent (path directory : string) : bool := startswith path (directory +:+ "/").

(** What [json.loads] gives back for what [json.dumps(..., sort_keys=True)] wrote *)
Definition value_key_le : relation (string * pyval) := λ p q, String.le p.1 q.1.
#[export] Instance value_key_le_dec : RelDecision value_key_le.
Proof. intros p q. unfold value_key_le. apply _. Defined.

Fixpoint sort_keys (v : pyval) : pyval :=
  match v with
  | PList l => PList (map sort_keys l)
  | PDict d => PDict (sort_by value_key_le (map (λ p, (p.1, sort_keys p.2)) d))
  | v => v
  end.

Section audit_routes.
Context {A : Type} `{!PolicyActions A} {S : Type} `{!AuditStore S}.
Variable float_repr : Q → string.
Variable sha256_hex : string → string.
Variable hmac_sha256_hex : string → string → string.
Variable resolve_path : string → string.
#[local] Notation app := (audit_app S).
#[local] Notation module := (AuditObservabilityModule S).
#[local] Notation evaluate_feature_entitlement := (evaluate_feature_entitlement (A := A)).
#[local] Notation fingerprint := (compute_audit_chain_fingerprint float_repr sha256_hex).

(** [_audit_module] *)
Definition require_module (a : app) : http module :=
  match audit_module a with
  | None => HTTPException 503 "Audit observability module is not configured."
  | Some m => Reply m
  end.

(** [_audit_store_or_503] *)
Definition audit_store_or_503 (a : app) : http (module * S) :=
  let? m := require_module a in
  match audit_store m with
  | None => HTTPException 503 "Audit store is not configured."
  | Some s => Reply (m, s)
  end.

(** [ToolAuditPipeline.emit] of the events, into the store *)
Definition emit_into (m : module) (now event_token : string) (events : list audit_event) : res module :=
  match audit_store m, events with
  | Some s, e :: _ =>
      let! s := append_audit_event s now
        (mkAuditRecord ("audit_" +:+ event_token) (ae_correlation_id e) (ae_tenant_id e) (ae_event_type e)
           (ae_payload e)) in
      Ok (with_audit_store m s)
  | _, _ => Ok m
  end.

(** [_require_signed_audit_entitlement]: the application after it, even when it refuses *)
Definition require_signed_audit_entitlement (a : app) (tenant_id route : string) (c : audit_call)
    : http unit * app :=
  match require_module a with
  | HTTPException code d => (HTTPException code d, a)
  | Reply m =>
      let d := evaluate_feature_entitlement (ac_identity c) AuditSignedExportVerify in
      let events := emit_entitlement_decision_event (tool_audit_pipeline m) ("entitlement_" +:+ ac_token c)
        tenant_id "audit_signed_export_verify" route d [] in
      match emit_into m (ac_now c) (ac_event_token c) events with
      | Raise e => (internal_error e, a)
      | Ok m =>
          (if bool_decide (ed_decision d = ALLOW) then Reply tt
           else HTTPException 403 (ed_reason_code d +:+ ": " +:+ ed_message d),
           with_audit_module a m)
      end
  end.

(** [_build_signed_export_bundle] *)
Definition unsigned_bundle (tenant_id now : string) (records : list AuditRecord) : pydict :=
  let '(chain_valid, last_hash) := fingerprint (event_row <$> records) in
  [("tenant_id", PStr tenant_id); ("record_count", PInt (Z.of_nat (length records)));
   ("chain_valid", PBool chain_valid); ("last_record_hash", PStr last_hash);
   ("event_type_counts", PDict ((λ p, (p.1, PInt p.2)) <$> count_types records));
   ("records", PList (PDict ∘ event_row <$> records)); ("exported_at_utc", PStr now)].

Definition keyring_of (m : module) : list (string * string) :=
  build_signing_keyring (audit_bundle_signing_secret m) (audit_bundle_signing_secrets_by_version m).

Definition build_signed_export_bundle (m : module) (tenant_id now : string) (records : list AuditRecord) : pydict :=
  let '(signature_version, secret) :=
    resolve_signing_secret (audit_bundle_signing_active_version m) (keyring_of m) in
  let payload := od_set "signature_version" (PStr signature_version) (unsigned_bundle tenant_id now records) in
  od_set "signature" (PStr (sign_bundle_payload float_repr hmac_sha256_hex payload secret)) payload.

(** ** The routes *)

Definition list_audit_events_route (a : app) (tenant_id correlation_id : string) (limit : Z)
    : http AuditEventListResponse :=
  let? _ := in_bounds 1 1000 limit in
  let? p := audit_store_or_503 a in
  let records :=
    if py_bool (py_strip correlation_id) then query_audit_events p.2 (py_strip correlation_id) tenant_id
    else list_audit_events p.2 tenant_id limit in
  Reply (mkEventList tenant_id (py_strip correlation_id) (Z.of_nat (length records)) records).

Definition audit_report (a : app) (tenant_id : string) (limit : Z) : http AuditReportResponse :=
  let? _ := in_bounds 1 2000 limit in
  let? p := audit_store_or_503 a in
  let records := list_audit_events p.2 tenant_id limit in
  Reply (mkReport tenant_id (Z.of_nat (length records)) (count_types records)).

(** [max_records] has to be 0 or more. *)
Definition cleanup_audit_events_route (a : app) (tenant_id : string) (max_records : Z)
    : http AuditCleanupResponse * app :=
  match (let? _ := if 0 <=? max_records then Reply tt
                   else HTTPException 422 "Input should be greater than or equal to 0" in
         audit_store_or_503 a) with
  | HTTPException code d => (HTTPException code d, a)
  | Reply (m, s) =>
      let retained_cap := if 0 <? max_records then max_records else max_audit_records_per_tenant m in
      let '(pruned, s) := cleanup_audit_events s tenant_id retained_cap in
      (Reply (mkCleanup tenant_id pruned retained_cap), with_audit_module a (with_audit_store m s))
  end.

(** [min(max(int(limit), 1), max(configured_max, 1))] *)
Definition export_bound (m : module) (limit : Z) : Z :=
  Z.min (Z.max limit 1) (Z.max (max_audit_export_records m) 1).

Definition export_audit_bundle (a : app) (tenant_id : string) (limit : Z) (now : string) : http pydict :=
  let? _ := in_bounds 1 5000 limit in
  let? p := audit_store_or_503 a in
  let records := list_audit_events p.2 tenant_id (export_bound p.1 limit) in
  Reply (export_response (build_signed_export_bundle p.1 tenant_id now records)).

Definition text_of (d : pydict) (key dflt : string) : string := dict_get_str float_repr d key dflt.

Definition export_response_of (tenant_id path : string) (bundle : pydict) : AuditExportFileResponse :=
  mkExportResponse tenant_id path
    (match dict_get bundle "record_count" PNone with PInt n => n | _ => 0 end)
    (text_of bundle "signature_version" "v1") (text_of bundle "signature" "")
    (truthy (dict_get bundle "chain_valid" PNone)) (text_of bundle "last_record_hash" "").

(** The part of [export_audit_bundle_to_file] behind the entitlement *)
Definition write_export (a : app) (tenant_id : string) (b : AuditExportFileRequest) (c : audit_call)
    : http AuditExportFileResponse * app :=
  match audit_store_or_503 a with
  | HTTPException code d => (HTTPException code d, a)
  | Reply (m, s) =>
      let records := list_audit_events s tenant_id (export_bound m (ex_limit b)) in
      let bundle := build_signed_export_bundle m tenant_id (ac_now c) records in
      let filename := str_map sanitize_char (ex_filename_prefix b) +:+ "_" +:+ tenant_id +:+ "_"
        +:+ ac_timestamp c +:+ ".json" in
      let export_dir := resolve_path (audit_export_directory m) in
      let file_path := resolve_path (export_dir +:+ "/" +:+ filename) in
      if negb (has_parent file_path export_dir) then
        (HTTPException 400 "Invalid export file path.", a)
      else
        (Reply (export_response_of tenant_id file_path bundle),
         mkAuditApp (audit_module a) (od_set file_path (Some (sort_keys (PDict bundle))) (export_files a)))
  end.

(** The prefix has 1 to 64 characters; the entitlement is checked first. *)
Definition export_audit_bundle_to_file (a : app) (tenant_id : string) (b : AuditExportFileRequest)
    (c : audit_call) : http AuditExportFileResponse * app :=
  match require_signed_audit_entitlement a tenant_id "POST /tenants/{tenant_id}/admin/audit/export-file" c with
  | (HTTPException code d, a) => (HTTPException code d, a)
  | (Reply _, a) =>
      match (let? _ := in_bounds 1 5000 (ex_limit b) in in_bounds 1 64 (py_len (ex_filename_prefix b))) with
      | HTTPException code d => (HTTPException code d, a)
      | Reply _ => write_export a tenant_id b c
      end
  end.

(** *** Verification *)

(** The bundle that a request names or has *)
Definition bundle_to_verify (a : app) (m : module) (b : AuditVerifyRequest) : http pydict :=
  if py_bool (py_strip (vq_file_path b)) then
    let export_dir := resolve_path (audit_export_directory m) in
    let candidate := resolve_path (vq_file_path b) in
    if negb (candidate =?s export_dir) && negb (has_parent candidate export_dir) then
      HTTPException 400 "file_path must be inside audit export directory."
    else if candidate =?s export_dir then internal_error (OtherException "Is a directory")
    else
      match od_get candidate (export_files a) with
      | None => HTTPException 404 "Audit export file not found."
      | Some (Some (PDict d)) => Reply d
      | Some (Some v) => internal_error (OtherException ("'" +:+ type_name v +:+ "' object has no attribute 'get'"))
      | Some None => internal_error (ValueError "Expecting value")
      end
  else if truthy (PDict (vq_bundle b)) then Reply (vq_bundle b)
  else HTTPException 422 "Either file_path or bundle payload must be provided.".

(** One row of the loop over the records; [dict(...)] of the payload may raise. *)
Definition chain_row (row : pyval) : res pydict :=
  match row with
  | PDict d =>
      let! payload := dict_of (dict_get d "payload" (PDict [])) in
      Ok [("event_id", PStr (text_of d "event_id" "")); ("correlation_id", PStr (text_of d "correlation_id" ""));
          ("tenant_id", PStr (text_of d "tenant_id" "")); ("event_type", PStr (text_of d "event_type" ""));
          ("payload", PDict payload)]
  | v => Raise (OtherException ("'" +:+ type_name v +:+ "' object has no attribute 'get'"))
  end.

Fixpoint chain_rows (rows : list pyval) : res (list pydict) :=
  match rows with
  | [] => Ok []
  | row :: rows =>
      let! r := chain_row row in
      let! rs := chain_rows rows in
      Ok (r :: rs)
  end.

Definition verify_bundle (m : module) (tenant_id : string) (bundle : pydict) : res AuditVerifyResponse :=
  if negb (text_of bundle "tenant_id" "" =?s tenant_id) then
    Ok (mkVerifyResponse tenant_id (text_of bundle "signature_version" "") "" false false false "TENANT_MISMATCH")
  else
    let signature := py_strip (text_of bundle "signature" "") in
    let declared_version := py_strip (text_of bundle "signature_version" "") in
    let '(signature_valid, verified_with_version) :=
      verify_signed_bundle_with_keyring float_repr hmac_sha256_hex (od_pop "signature" bundle) signature
        declared_version (keyring_of m) in
    let! rows := list_of (dict_get bundle "records" (PList [])) in
    let! rows := chain_rows rows in
    let '(computed_valid, computed_last_hash) := fingerprint rows in
    let chain_valid := computed_valid && truthy (dict_get bundle "chain_valid" (PBool false))
      && (computed_last_hash =?s text_of bundle "last_record_hash" "") in
    let verified := signature_valid && chain_valid in
    Ok (mkVerifyResponse tenant_id declared_version verified_with_version signature_valid chain_valid verified
          (if verified then "" else "AUDIT_BUNDLE_VERIFICATION_FAILED")).

Definition verify_audit_bundle (a : app) (tenant_id : string) (b : AuditVerifyRequest) (c : audit_call)
    : http AuditVerifyResponse * app :=
  match require_signed_audit_entitlement a tenant_id "POST /tenants/{tenant_id}/admin/audit/verify" c with
  | (HTTPException code d, a) => (HTTPException code d, a)
  | (Reply _, a) =>
      (let? m := require_module a in
       let? bundle := bundle_to_verify a m b in
       or_500 (verify_bundle m tenant_id bundle), a)
  end.
End audit_routes.

(** * Theorems about the audit routes

    What is exported, as an answer or as a file, verifies; what verifies was signed with a secret of the
    keyring and has the hash of its records; and what the routes leave open. *)

(** ** Canonical JSON *)

Lemma key_le_spec (p q : string * string) : key_le p q ↔ String.le p.1 q.1.
Proof. done. Qed.

Lemma value_key_le_spec (p q : string * pyval) : value_key_le p q ↔ String.le p.1 q.1.
Proof. done. Qed.

#[export] Instance key_le_trans : Transitive key_le.
Proof. intros p q r. unfold key_le. intros. by etrans. Qed.
#[export] Instance key_le_total : Total key_le.
Proof. intros p q. unfold key_le. apply total, _. Qed.

Section canonical.
Variable float_repr : Q → string.
#[local] Notation dumps := (json_dumps float_repr).

Lemma dumps_list l : dumps (PList l) = "[" +:+ join "," (dumps <$> l) +:+ "]".
Proof. done. Qed.

Definition entries (d : pydict) : list (string * string) := (λ p, (p.1, dumps p.2)) <$> d.

Lemma dumps_dict d :
  dumps (PDict d) =
    "{" +:+ join "," ((λ p, json_string p.1 +:+ ":" +:+ p.2) <$> sort_by key_le (entries d)) +:+ "}".
Proof. done. Qed.

(** Sorting the keys of the dictionaries in a value does not change its canonical JSON. *)
Lemma dumps_sort_keys v : dumps (sort_keys v) = dumps v.
Proof.
  revert v. fix IH 1. intros [|b|z|q|s|l|d]; [reflexivity..| |].
  - cbn [sort_keys]. rewrite !dumps_list. do 3 f_equal. rewrite <- list_fmap_compose.
    induction l as [|v l IHl]; [done|]. cbn. by rewrite IH, IHl.
  - cbn [sort_keys]. rewrite !dumps_dict. do 4 f_equal. unfold entries.
    rewrite <- (sort_by_fmap (λ p : string * pyval, (p.1, dumps p.2)) key_le value_key_le) by done.
    rewrite sort_by_id by apply (sort_by_sorted key_le). f_equal. rewrite <- list_fmap_compose.
    induction d as [|[k v] d IHd]; [done|]. cbn. by rewrite IH, IHd.
Qed.

(** With distinct keys, their order does not matter. *)
Lemma dumps_perm d d' : NoDup d.*1 → entries d ≡ₚ entries d' → dumps (PDict d) = dumps (PDict d').
Proof.
  intros Hnd Hp. rewrite !dumps_dict. do 4 f_equal.
  apply (sort_by_keys String.le); [apply key_le_spec| |done].
  unfold entries. by rewrite <- list_fmap_compose.
Qed.
End canonical.

(** ** Exporting and verifying *)

Section verify.
Context {A : Type} `{!PolicyActions A} {S : Type} `{!AuditStore S}.
Variable float_repr : Q → string.
Variable sha256_hex : string → string.
Variable hmac_sha256_hex : string → string → string.
Variable resolve_path : string → string.
(** A digest in hexadecimal digits has no blanks around it. *)
Hypothesis hmac_no_blanks : ∀ key message, py_strip (hmac_sha256_hex key message) = hmac_sha256_hex key message.
(** [Path.resolve] of a resolved path *)
Hypothesis resolve_idem : ∀ path, resolve_path (resolve_path path) = resolve_path path.
#[local] Notation dumps := (json_dumps float_repr).
#[local] Notation verify_bundle := (verify_bundle (S := S) float_repr sha256_hex hmac_sha256_hex).
#[local] Notation chain_row := (chain_row float_repr).
#[local] Notation chain_rows := (chain_rows float_repr).
#[local] Notation fingerprint := (compute_audit_chain_fingerprint float_repr sha256_hex).
#[local] Notation build := (build_signed_export_bundle (S := S) float_repr sha256_hex hmac_sha256_hex).
#[local] Notation unsigned := (unsigned_bundle float_repr sha256_hex).
Implicit Types (m : AuditObservabilityModule S) (a : audit_app S).

(** How a bundle may be represented when it comes back: with the same canonical JSON *)
Record represents (g : pyval → pyval) : Prop := {
  rep_dumps v : dumps (g v) = dumps v;
  rep_str s : g (PStr s) = PStr s;
  rep_bool b : g (PBool b) = PBool b;
  rep_list l : g (PList l) = PList (g <$> l);
  rep_row r : ∃ d, chain_row (g (PDict (event_row r))) = Ok d ∧ dumps (PDict d) = dumps (PDict (event_row r));
}.

Lemma represents_itself : represents (λ v, v).
Proof.
  split; try done; [by intros l; rewrite list_fmap_id|]. intros r. exists (event_row r). done.
Qed.

Lemma chain_row_fields d payload :
  dict_get d "payload" (PDict []) = PDict payload →
  chain_row (PDict d) =
    Ok [("event_id", PStr (text_of float_repr d "event_id" "")); ("correlation_id", PStr (text_of float_repr d "correlation_id" ""));
        ("tenant_id", PStr (text_of float_repr d "tenant_id" "")); ("event_type", PStr (text_of float_repr d "event_type" ""));
        ("payload", PDict payload)].
Proof. intros E. cbn [AuditApi.chain_row]. by rewrite E. Qed.

(** What [json.loads] gives back for a written file *)
Lemma represents_sorted : represents sort_keys.
Proof.
  split; try done; [apply dumps_sort_keys|]. intros r.
  exists [("event_id", PStr (au_event_id r)); ("correlation_id", PStr (au_correlation_id r));
    ("tenant_id", PStr (au_tenant_id r)); ("event_type", PStr (au_event_type r));
    ("payload", sort_keys (PDict (au_payload r)))].
  split; [reflexivity|]. rewrite !dumps_dict. unfold entries, event_row.
  cbn [fmap list_fmap fst snd]. by rewrite dumps_sort_keys.
Qed.

Lemma chain_rows_represent g records :
  represents g →
  ∃ rows, chain_rows (g <$> (PDict ∘ event_row <$> records)) = Ok rows ∧
    fingerprint rows = fingerprint (event_row <$> records).
Proof.
  intros Hg.
  assert (∃ rows, chain_rows (g <$> (PDict ∘ event_row <$> records)) = Ok rows ∧
    Forall2 (λ r r', dumps (PDict r) = dumps (PDict r')) rows (event_row <$> records)) as (rows & E & Hall).
  { induction records as [|r records (rows & E & Hall)]; [by exists []|].
    destruct (rep_row _ Hg r) as (d & Ed & Hd). exists (d :: rows). rewrite !fmap_cons.
    cbn [AuditApi.chain_rows]. unfold compose at 1. rewrite Ed. cbn [res_bind]. rewrite E. split; [done|]. by constructor. }
  exists rows. split; [done|]. by apply fingerprint_ext.
Qed.
(** The fields of a bundle that are signed *)
Definition signed_fields tenant now records version : pydict :=
  [("tenant_id", PStr tenant); ("record_count", PInt (Z.of_nat (length records)));
   ("chain_valid", PBool true); ("last_record_hash", PStr (fingerprint (event_row <$> records)).2);
   ("event_type_counts", PDict ((λ p, (p.1, PInt p.2)) <$> count_types records));
   ("records", PList (PDict ∘ event_row <$> records)); ("exported_at_utc", PStr now);
   ("signature_version", PStr version)].

Definition signing_version m : string :=
  (resolve_signing_secret (audit_bundle_signing_active_version m) (keyring_of m)).1.
Definition signing_secret m : string :=
  (resolve_signing_secret (audit_bundle_signing_active_version m) (keyring_of m)).2.

Lemma build_explicit m tenant now records :
  let payload := signed_fields tenant now records (signing_version m) in
  build m tenant now records =
    payload ++ [("signature", PStr (sign_bundle_payload float_repr hmac_sha256_hex payload (signing_secret m)))].
Proof.
  cbv zeta. unfold build_signed_export_bundle, unsigned_bundle, signing_version, signing_secret.
  destruct (resolve_signing_secret _ _) as [v s]. pose proof (fingerprint_always_valid float_repr sha256_hex (event_row <$> records)) as Hv.
  unfold signed_fields. destruct (fingerprint (event_row <$> records)) as [valid h]. cbn [fst snd] in *. subst valid.
  reflexivity.
Qed.

Lemma od_get_perm {K V} `{EqDecision K} (l l' : list (K * V)) k : od_wf l → l' ≡ₚ l → od_get k l' = od_get k l.
Proof.
  intros Hwf Hp. assert (od_wf l') as Hwf' by (unfold od_wf, od_keys in *; by rewrite Hp).
  apply option_eq. intros v. rewrite <- !od_elem_of_get by done. by rewrite Hp.
Qed.

Definition represent (g : pyval → pyval) (d : pydict) : pydict := (λ p, (p.1, g p.2)) <$> d.

Lemma represent_keys g d : od_keys (represent g d) = od_keys d.
Proof. unfold od_keys, represent. rewrite <- list_fmap_compose. done. Qed.

Lemma represent_entries g d : represents g → entries float_repr (represent g d) = entries float_repr d.
Proof.
  intros Hg. unfold entries, represent. rewrite <- list_fmap_compose. apply list_fmap_ext. intros i [k v] _.
  cbn. by rewrite (rep_dumps _ Hg).
Qed.

Lemma od_pop_perm {K V} `{EqDecision K} (l l' : list (K * V)) k : l' ≡ₚ l → od_pop k l' ≡ₚ od_pop k l.
Proof. intros Hp. rewrite !od_pop_filter. by rewrite Hp. Qed.

(** A bundle that comes back, whatever the order of its fields, verifies. *)
Lemma verify_represented g m tenant now records b :
  represents g → keyring_of m ≠ [] → b ≡ₚ represent g (build m tenant now records) →
  verify_bundle m tenant b =
    Ok (mkVerifyResponse tenant (signing_version m) (signing_version m) true true true "").
Proof.
  intros Hg Hk Hb. rewrite build_explicit in Hb.
  set (payload := signed_fields tenant now records (signing_version m)) in *.
  set (signature := sign_bundle_payload float_repr hmac_sha256_hex payload (signing_secret m)) in *.
  pose proof (build_keyring_ok (audit_bundle_signing_secret m) (audit_bundle_signing_secrets_by_version m)) as Hok.
  pose proof (resolved_secret (audit_bundle_signing_active_version m) _ Hok Hk) as Hres.
  change (build_signing_keyring _ _) with (keyring_of m) in *.
  assert (od_get (signing_version m) (keyring_of m) = Some (signing_secret m)) as Hsecret.
  { unfold signing_version, signing_secret. by destruct (resolve_signing_secret _ _). }
  destruct (Hok _ _ Hsecret) as (Hstrip & _).
  assert (od_wf (represent g (payload ++ [("signature", PStr signature)]))) as Hwf.
  { unfold od_wf. rewrite represent_keys. unfold payload, signed_fields. cbn.
    refine (bool_decide_unpack _ _). vm_compute. exact I. }
  assert (od_wf b) as Hwfb by (unfold od_wf, od_keys in *; by rewrite Hb).
  assert (∀ k v, od_get k (payload ++ [("signature", PStr signature)]) = Some v → ∀ dflt, dict_get b k dflt = g v) as Hget.
  { intros k v E dflt. unfold dict_get. rewrite (od_get_perm _ _ k Hwf Hb). unfold represent.
    assert (od_get k ((λ p : string * pyval, (p.1, g p.2)) <$> (payload ++ [("signature", PStr signature)]))
      = Some (g v)) as ->; [|done].
    change ((λ p : string * pyval, (p.1, g p.2)) <$> ?l) with (od_map (λ _, g) l).
    by rewrite od_get_map, E. }
  assert (∀ k x dflt, od_get k (payload ++ [("signature", PStr signature)]) = Some (PStr x) →
    text_of float_repr b k dflt = x) as Htext.
  { intros k x dflt E. unfold text_of, dict_get_str. by rewrite (Hget _ _ E), (rep_str _ Hg). }
  unfold AuditApi.verify_bundle. rewrite (Htext "tenant_id" tenant), bool_decide_true by done. cbn [negb].
  rewrite (Htext "signature" signature), (Htext "signature_version" (signing_version m)) by done.
  rewrite Hstrip. unfold signature at 1. unfold sign_bundle_payload at 1. rewrite hmac_no_blanks.
  fold (sign_bundle_payload float_repr hmac_sha256_hex payload (signing_secret m)).
  assert (dumps (PDict (od_pop "signature" b)) = dumps (PDict payload)) as Hd.
  { apply dumps_perm; [by apply od_wf_pop|]. rewrite <- (represent_entries g payload Hg). unfold entries.
    apply fmap_Permutation. rewrite (od_pop_perm _ _ "signature" Hb). reflexivity. }
  rewrite (signed_verifies _ _ _ _ _ _ _ Hok Hsecret Hd).
  rewrite (Hget "records" _ eq_refl), (rep_list _ Hg). cbn [list_of res_bind].
  destruct (chain_rows_represent g records Hg) as (rows & -> & Hrows). cbn [res_bind]. rewrite Hrows.
  rewrite (Hget "chain_valid" _ eq_refl), (rep_bool _ Hg), (Htext "last_record_hash" _ "" eq_refl).
  rewrite (surjective_pairing (fingerprint (event_row <$> records))), fingerprint_always_valid.
  cbn [truthy andb snd]. by rewrite bool_decide_true.
Qed.
(** *** The exported answer and the exported file *)

Lemma reordered (d : pydict) ks :
  od_wf d → NoDup ks → (∀ k, k ∈ ks ↔ k ∈ od_keys d) → (λ k, (k, dict_get d k PNone)) <$> ks ≡ₚ d.
Proof.
  intros Hwf Hks Hin. apply NoDup_Permutation.
  - apply NoDup_fmap_2; [|done]. by intros k1 k2 [= ->].
  - by eapply NoDup_fmap_1.
  - intros [k v]. rewrite list_elem_of_fmap. rewrite od_elem_of_get by done. split.
    + intros (k' & [= -> ->] & Hk). apply Hin, od_get_Some_key in Hk as [w Hw]. unfold dict_get. by rewrite Hw.
    + intros E. exists k. split; [unfold dict_get; by rewrite E|]. apply Hin, od_get_Some_key. by rewrite E.
Qed.

Lemma export_response_perm m tenant now records :
  export_response (build m tenant now records) ≡ₚ represent (λ v, v) (build m tenant now records).
Proof.
  assert (represent (λ v, v) (build m tenant now records) = build m tenant now records) as ->.
  { unfold represent. rewrite <- (list_fmap_id (build _ _ _ _)) at 2. apply list_fmap_ext. by intros ? []. }
  apply reordered; rewrite ?build_explicit.
  - unfold od_wf, signed_fields. cbn. refine (bool_decide_unpack _ _). vm_compute. exact I.
  - refine (bool_decide_unpack _ _). vm_compute. exact I.
  - intros k. unfold bundle_fields, signed_fields. cbn. set_solver.
Qed.

Lemma sorted_bundle_perm d :
  ∃ d', sort_keys (PDict d) = PDict d' ∧ d' ≡ₚ represent sort_keys d.
Proof. eexists. split; [reflexivity|]. by rewrite sort_by_perm. Qed.

(** The answer to a bundle of the module that was not changed *)
Definition verified_answer m tenant : AuditVerifyResponse :=
  mkVerifyResponse tenant (signing_version m) (signing_version m) true true true "".

Lemma exported_verifies a m tenant limit now bundle :
  audit_module a = Some m → keyring_of m ≠ [] →
  export_audit_bundle float_repr sha256_hex hmac_sha256_hex a tenant limit now = Reply bundle →
  bundle ≠ [] ∧ verify_bundle m tenant bundle = Ok (verified_answer m tenant).
Proof.
  intros Hm Hk. unfold export_audit_bundle. destruct (in_bounds 1 5000 limit) as [[]|]; [|done]. cbn [http_bind].
  unfold audit_store_or_503, require_module. rewrite Hm. cbn [http_bind]. destruct (audit_store m) as [s|]; [|done].
  cbn [http_bind fst snd]. set (records := list_audit_events s tenant _). intros E.
  assert (bundle = export_response (build m tenant now records)) as -> by congruence. split; [done|].
  apply (verify_represented (λ v, v) m tenant now records); [apply represents_itself|done|apply export_response_perm].
Qed.

Lemma startswith_nonblank path d : startswith path (d +:+ "/") = true → py_strip path ≠ "".
Proof.
  assert (lstrip path = "" → startswith path (d +:+ "/") = true → False) as Hl.
  { revert d. induction path as [|c path IH]; intros d; [by destruct d|]. cbn [lstrip].
    destruct (is_py_space c) eqn:Ec; [|done]. intros Hp. destruct d as [|c' d]; cbn.
    - intros [E _]%andb_true_iff. apply bool_decide_eq_true in E. subst c. by vm_compute in Ec.
    - intros [_ Hs]%andb_true_iff. by eapply IH. }
  intros Hs E. destruct (lstrip_cases path) as [Hb|(c & path' & Hb & Hc)]; [by apply Hl|].
  unfold py_strip in E. rewrite Hb in E. by apply (rstrip_nonspace c path') in Hc.
Qed.

Lemma parent_not_itself path d : has_parent path d = true → path ≠ d.
Proof.
  unfold has_parent. intros Hs ->. revert Hs. induction d as [|c d IH]; cbn; [done|].
  intros [_ Hs]%andb_true_iff. by apply IH.
Qed.

(** The file that an export wrote is the one a request with its path verifies. *)
Lemma written_verifies a m tenant b c x a' :
  audit_module a = Some m → keyring_of m ≠ [] →
  write_export float_repr sha256_hex hmac_sha256_hex resolve_path a tenant b c = (Reply x, a') →
  audit_module a' = Some m ∧ has_parent (xf_file_path x) (resolve_path (audit_export_directory m)) = true ∧
  ∃ d, bundle_to_verify resolve_path a' m (mkVerifyRequest (xf_file_path x) []) = Reply d ∧
    verify_bundle m tenant d = Ok (verified_answer m tenant).
Proof.
  intros Hm Hk. unfold write_export, audit_store_or_503, require_module. rewrite Hm. cbn [http_bind].
  destruct (audit_store m) as [s|]; [|done]. cbn [http_bind]. cbv zeta.
  set (records := list_audit_events s tenant _). set (path := resolve_path (_ +:+ "/" +:+ _)).
  destruct (has_parent path (resolve_path (audit_export_directory m))) eqn:Hp; cbn [negb]; [|done].
  destruct (sorted_bundle_perm (build m tenant (ac_now c) records)) as (d & Ed & Hd). rewrite Ed.
  intros E. assert (xf_file_path x = path) as Ex by (injection E as <- _; reflexivity).
  assert (a' = mkAuditApp (Some m) (od_set path (Some (PDict d)) (export_files a))) as -> by congruence.
  rewrite Ex. split_and!; [done|done|]. exists d. split.
  - unfold bundle_to_verify. cbn [vq_file_path export_files].
    rewrite (proj2 (py_bool_true _)) by (by eapply startswith_nonblank).
    assert (resolve_path path = path) as Hr by apply resolve_idem. rewrite Hr, Hp. cbn [negb]. rewrite andb_false_r.
    rewrite bool_decide_false by (by apply parent_not_itself). by rewrite od_get_set.
  - apply (verify_represented sort_keys m tenant (ac_now c) records); [apply represents_sorted|done|done].
Qed.

Lemma emit_keeps_config m now token events m' :
  emit_into m now token events = Ok m' →
  keyring_of m' = keyring_of m ∧ audit_export_directory m' = audit_export_directory m ∧
  audit_bundle_signing_active_version m' = audit_bundle_signing_active_version m.
Proof.
  unfold emit_into. destruct (audit_store m) as [s|], events as [|e events]; try by intros [= <-].
  destruct (append_audit_event s now _) as [s'|]; [|done]. by intros [= <-].
Qed.

(** The entitlement only changes the store. *)
Lemma entitlement_keeps_config a m tenant route c h a' :
  audit_module a = Some m → require_signed_audit_entitlement (A := A) a tenant route c = (h, a') →
  export_files a' = export_files a ∧ ∃ m', audit_module a' = Some m' ∧ keyring_of m' = keyring_of m ∧
    audit_export_directory m' = audit_export_directory m ∧
    audit_bundle_signing_active_version m' = audit_bundle_signing_active_version m.
Proof.
  intros Hm. unfold require_signed_audit_entitlement, require_module. rewrite Hm.
  destruct (emit_into _ _ _ _) as [m'|e] eqn:E; [|intros [= <- <-]; split; [done|by exists m]].
  intros Eh. assert (a' = with_audit_module a m') as -> by congruence. split; [done|].
  exists m'. split; [done|]. by eapply emit_keeps_config.
Qed.

Lemma same_config_verifies m m' tenant b :
  keyring_of m' = keyring_of m → verify_bundle m' tenant b = verify_bundle m tenant b.
Proof. intros E. unfold AuditApi.verify_bundle. by rewrite E. Qed.

(** C24: What a tenant exports verifies: the answer of the export, posted back with its fields in whatever
    order the answer has, and the file an export wrote, named by its path, both for a caller whose
    entitlement to verify was granted; as long as the keyring has a secret.  The verification is under the version the
    bundle was signed with. *)
Theorem exported_bundle_verifies a m tenant :
  audit_module a = Some m → keyring_of m ≠ [] →
  let verify a q c := verify_audit_bundle (A := A) float_repr sha256_hex hmac_sha256_hex resolve_path a tenant q c in
  let granted a c :=
    (require_signed_audit_entitlement (A := A) a tenant "POST /tenants/{tenant_id}/admin/audit/verify" c).1 = Reply tt in
  (∀ limit now bundle c, granted a c →
     export_audit_bundle float_repr sha256_hex hmac_sha256_hex a tenant limit now = Reply bundle →
     (verify a (mkVerifyRequest "" bundle) c).1 = Reply (verified_answer m tenant)) ∧
  (∀ b c' x a' c, granted a' c →
     write_export float_repr sha256_hex hmac_sha256_hex resolve_path a tenant b c' = (Reply x, a') →
     has_parent (xf_file_path x) (resolve_path (audit_export_directory m)) = true ∧
     (verify a' (mkVerifyRequest (xf_file_path x) []) c).1 = Reply (verified_answer m tenant)).
Proof.
  intros Hm Hk verify granted. unfold verify, granted. clear verify granted. split.
  - intros limit now bundle c Hg He. destruct (exported_verifies _ _ _ _ _ _ Hm Hk He) as [Hne Hv].
    unfold verify_audit_bundle. destruct (require_signed_audit_entitlement _ _ _ _) as [h a1] eqn:E. cbn [fst] in Hg. subst h.
    destruct (entitlement_keeps_config _ _ _ _ _ _ _ Hm E) as (_ & m' & Hm' & Hkr & _).
    unfold require_module. rewrite Hm'. cbn [http_bind fst]. unfold bundle_to_verify. cbn [vq_file_path vq_bundle].
    change (py_bool (py_strip "")) with false. cbv iota.
    assert (truthy (PDict bundle) = true) as -> by (by destruct bundle). cbn [http_bind].
    by rewrite (same_config_verifies m m'), Hv.
  - intros b c' x a' c Hg Hw. destruct (written_verifies _ _ _ _ _ _ _ Hm Hk Hw) as (Ha & Hp & d & Hd & Hv).
    split; [done|]. unfold verify_audit_bundle. destruct (require_signed_audit_entitlement _ _ _ _) as [h a1] eqn:E. cbn [fst] in Hg. subst h.
    destruct (entitlement_keeps_config _ _ _ _ _ _ _ Ha E) as (Hf & m' & Hm' & Hkr & Hdir & _).
    unfold require_module. rewrite Hm'. cbn [http_bind fst].
    assert (bundle_to_verify resolve_path a1 m' (mkVerifyRequest (xf_file_path x) []) = Reply d) as ->.
    { rewrite <- Hd. unfold bundle_to_verify. by rewrite Hdir, Hf. }
    cbn [http_bind]. by rewrite (same_config_verifies m m'), Hv.
Qed.

(** C23: A bundle is only verified with a signature made with a secret of the keyring over everything else it
    has, for its own tenant, and with the hash of its records. *)
Theorem verified_bundle_is_signed m tenant b r :
  verify_bundle m tenant b = Ok r → vr_verified r = true →
  text_of float_repr b "tenant_id" "" = tenant ∧
  (∃ secret, od_get (vr_verified_with_version r) (keyring_of m) = Some secret ∧
     py_strip (text_of float_repr b "signature" "") =
       hmac_sha256_hex secret (dumps (PDict (od_pop "signature" b)))) ∧
  ∃ records rows, list_of (dict_get b "records" (PList [])) = Ok records ∧ chain_rows records = Ok rows ∧
    text_of float_repr b "last_record_hash" "" = (fingerprint rows).2.
Proof.
  unfold AuditApi.verify_bundle. case_bool_decide as Ht; cbn [negb]; [|by intros [= <-]].
  destruct (verify_signed_bundle_with_keyring _ _ _ _ _ _) as [valid version] eqn:Ev.
  destruct (list_of _) as [records|e] eqn:Er; [|done]. cbn [res_bind].
  destruct (chain_rows records) as [rows|e] eqn:Ec; [|done]. cbn [res_bind].
  destruct (fingerprint rows) as [cv h] eqn:Ef. intros E Hver.
  assert (vr_verified r = valid && (cv && truthy (dict_get b "chain_valid" (PBool false)) && (h =?s text_of float_repr b "last_record_hash" ""))
    ∧ vr_verified_with_version r = version) as [E1 E2] by (by injection E as <-).
  rewrite E1 in Hver. apply andb_true_iff in Hver as [-> [_ Hh]%andb_true_iff]. apply bool_decide_eq_true in Hh.
  split_and!; [done| |].
  - rewrite E2. destruct (verified_is_signed _ _ _ _ _ _ _ Ev) as (s & Hs & Hsig). exists s. done.
  - exists records, rows. rewrite Ef. done.
Qed.
End verify.

(** *** What the routes leave open *)

(** The store cuts every listing to 1000 events, so a report of up to 2000 and an export of up to 5000
    never has more. *)
Lemma listing_at_most_1000 {S} `{!AuditStore S, !AuditHistory S} (s : S) tenant limit :
  store_ok s → (length (list_audit_events s tenant limit) ≤ 1000)%nat.
Proof.
  intros Hs. rewrite list_history by done. unfold last_n, bounded_limit. rewrite length_drop. lia.
Qed.

Module AuditExamples.
Import Sample.
Notation store := SQLiteAuditStore.t.

Definition no_float (_ : Q) : string := "".
Definition digest (s : string) : string := "h" +:+ s.
Definition hmac (key _ : string) : string := if key =?s "k1" then "aa" else "bb".

Lemma hmac_no_blanks key message : py_strip (hmac key message) = hmac key message.
Proof. unfold hmac. by case_bool_decide. Qed.

Definition event (id type : string) : AuditRecord :=
  mkAuditRecord id "c1" "acme" type [("z", PInt 1); ("a", PDict [("y", PNone); ("b", PStr "x")])].
Definition events : list audit_command :=
  [AppendEvent "t1" (event "e1" "tool"); AppendEvent "t2" (event "e2" ""); AppendEvent "t3" (event "e3" "tool");
   CleanupEvents "acme" 2].
Definition filled : store := foldl run_command SQLiteAuditStore.empty events.

Definition module_with (secrets : list (string * string)) : AuditObservabilityModule store :=
  mkAuditModule (Some filled) true "/exports" 1000 5000 "" "v2" secrets.
Definition app_with (secrets : list (string * string)) : audit_app store :=
  mkAuditApp (Some (module_with secrets)) [].
Definition someone (roles : list string) : audit_call :=
  mkAuditCall (mkIdentityContext "ann" Human roles "acme" "" TokenValid "" "" false) "now" "20260101T000000Z" "0000" "e4".

Definition export (a : audit_app store) := export_audit_bundle no_float digest hmac a "acme" 500 "now".
Definition write (a : audit_app store) :=
  write_export no_float digest hmac (λ p, p) a "acme" (mkExportRequest 500 "my bundle") (someone []).
Definition verify (a : audit_app store) (q : AuditVerifyRequest) (roles : list string) :=
  (verify_audit_bundle (A := action) no_float digest hmac (λ p, p) a "acme" q (someone roles)).1.

(** The two stores differ when an event id is used again. *)
Lemma repeated_event_id_differs :
  length (query_audit_events (foldl (run_command (S := InMemoryAuditStore.t)) []
    [AppendEvent "" (event "e1" "a"); AppendEvent "" (event "e1" "b")]) "c1" "acme") = 2%nat ∧
  is_ok (append_audit_event filled "" (event "e3" "b")) = false.
Proof. vm_compute. done. Qed.

(** Without a secret a bundle is exported all the same, signed with the empty key, and never verifies. *)
Lemma unsigned_bundle_is_exported :
  match export (app_with []) with
  | Reply bundle =>
      dict_get_str no_float bundle "signature" "" = hmac "" "" ∧
      dict_get_str no_float bundle "signature_version" "" = "v2" ∧
      match verify (app_with []) (mkVerifyRequest "" bundle) ["enterprise"] with
      | Reply r => vr_verified r = false
      | HTTPException _ _ => False
      end
  | HTTPException _ _ => False
  end.
Proof. vm_compute. done. Qed.

(** A request that names the export directory itself fails inside. *)
Lemma verify_directory_fails :
  verify (app_with [("v2", "k1")]) (mkVerifyRequest "/exports" []) ["enterprise"] = HTTPException 500 "Is a directory".
Proof. vm_compute. done. Qed.

Lemma audit_stores_agree_witness :
  NoDup (event_ids events) ∧
  (∀ t n, list_audit_events filled t n = list_audit_events (foldl (run_command (S := InMemoryAuditStore.t)) [] events) t n).
Proof.
  assert (NoDup (event_ids events)) as Hnd by (refine (bool_decide_unpack _ _); vm_compute; exact I).
  split; [exact Hnd|]. destruct (audit_stores_agree events Hnd) as [(_ & Hm & _) (_ & Hs & _)].
  intros t n. rewrite Hm. apply Hs.
Defined.

Definition exported : pydict := match export (app_with [("v2", "k1")]) with Reply b => b | HTTPException _ _ => [] end.

Lemma exported_bundle_verifies_witness :
  export (app_with [("v2", "k1")]) = Reply exported ∧
  verify (app_with [("v2", "k1")]) (mkVerifyRequest "" exported) ["enterprise"]
    = Reply (verified_answer (module_with [("v2", "k1")]) "acme").
Proof.
  split; [vm_compute; reflexivity|].
  refine (proj1 (exported_bundle_verifies (A := action) no_float digest hmac (λ p, p) hmac_no_blanks (λ _, eq_refl)
    (app_with [("v2", "k1")]) (module_with [("v2", "k1")]) "acme" eq_refl _) 500 "now" exported (someone ["enterprise"]) _ _).
  - intros E. vm_compute in E. discriminate E.
  - vm_compute. reflexivity.
  - vm_compute. reflexivity.
Defined.

Definition answer : AuditVerifyResponse :=
  mkVerifyResponse "acme" "v2" "v2" true true true "".

Lemma verified_bundle_is_signed_witness :
  verify_bundle no_float digest hmac (module_with [("v2", "k1")]) "acme" exported = Ok answer ∧
  text_of no_float exported "tenant_id" "" = "acme".
Proof.
  assert (verify_bundle no_float digest hmac (module_with [("v2", "k1")]) "acme" exported = Ok answer) as E
    by (vm_compute; reflexivity).
  split; [exact E|].
  exact (proj1 (verified_bundle_is_signed no_float digest hmac (module_with [("v2", "k1")]) "acme" exported answer E eq_refl)).
Defined.
End AuditExamples.
