(* ===== verification/IngressProfiles.v ===== *)
(** * Ingress profiles

    Models src/policies/ingress_profiles.py: a tenant's policy overlay is validated and
    normalized into the settings of the ingress gates, never weaker than the selected
    profile.  [re_compiles] says whether [re.compile] accepts a pattern; floats are
    rationals, so the NaN threshold is not among them. *)

From S2P Require Import Prelude PyValue SignedPlugins.

Definition baseline_phrases : list string :=
  ["ignore previous instructions"; "reveal system prompt"; "developer instructions"; "jailbreak"].

(** [_INGRESS_PROFILE_BASELINES]: the maximal input length and the phrases. *)
Definition profile_baselines : list (string * (Z * list string)) :=
  [("baseline", (8000, baseline_phrases));
   ("strict", (4000, baseline_phrases ++ ["disregard safety policy"; "prompt leak"]));
   ("hardened", (2000, baseline_phrases ++
      ["override compliance controls"; "disable moderation"; "simulate unrestricted mode"]))].

Definition profile_aliases : list (string * string) := [("default", "baseline")].

Definition classifier_mode_aliases : list (string * string) :=
  [("disabled", "off"); ("none", "off"); ("monitor", "shadow")].

Definition default_classifier_signals : list string :=
  ["ignore previous instructions"; "reveal system prompt"; "developer instructions"; "jailbreak";
   "bypass safety"; "disable moderation"; "exfiltrate data"; "reveal secrets"].

Record IngressClassifierSettings := mkClassifier {
  cl_mode : string;
  cl_threshold : Q;
  cl_model_version : string;
  cl_signals : list string;
  cl_review_channel : string;
  external_endpoint : string;
  external_timeout_ms : Z;
}.

Definition classifier_enabled (c : IngressClassifierSettings) : bool :=
  bool_decide (cl_mode c ∈ ["shadow"; "enforce"]).

Record IngressProfileResolution := mkResolution {
  profile_name : string;
  max_input_chars : Z;
  prompt_injection_phrases : list string;
  classifier : IngressClassifierSettings;
  signed_plugin : option SignedIngressPlugin;
  custom_rules : list IngressRule;
  compatibility_mode : string;
}.

Definition plugin_field (r : IngressProfileResolution) (f : Manifest → string) : pyval :=
  PStr (match signed_plugin r with Some p => f (manifest p) | None => "" end).

Definition to_overlay_patch (r : IngressProfileResolution) : pydict :=
  let c := classifier r in
  [("ingress_profile", PStr (profile_name r));
   ("ingress_max_input_chars", PInt (max_input_chars r));
   ("ingress_prompt_injection_phrases", PList (PStr <$> prompt_injection_phrases r));
   ("ingress_custom_rules", PList (PDict <$> (to_payload <$> custom_rules r)));
   ("ingress_classifier_mode", PStr (cl_mode c));
   ("ingress_classifier_threshold", PFloat (cl_threshold c));
   ("ingress_classifier_model_version", PStr (cl_model_version c));
   ("ingress_classifier_signals", PList (PStr <$> cl_signals c));
   ("ingress_classifier_review_channel", PStr (cl_review_channel c));
   ("ingress_classifier_external_endpoint", PStr (external_endpoint c));
   ("ingress_classifier_external_timeout_ms", PInt (external_timeout_ms c));
   ("signed_gate_plugin_ref", plugin_field r plugin_ref);
   ("signed_gate_plugin_version", plugin_field r version);
   ("signed_gate_plugin_signer", plugin_field r signer);
   ("signed_gate_plugin_signature_sha256", plugin_field r signature_sha256);
   ("signed_gate_plugin_sandbox_mode", plugin_field r sandbox_mode);
   ("ingress_profile_compatibility_mode", PStr (compatibility_mode r))].

Definition count {A} (l : list A) : pyval := PInt (Z.of_nat (length l)).

Definition to_audit_payload (r : IngressProfileResolution) : pydict :=
  let c := classifier r in
  let plugin_rules := match signed_plugin r with Some p => rules p | None => [] end in
  [("ingress_profile", PStr (profile_name r));
   ("ingress_max_input_chars", PInt (max_input_chars r));
   ("ingress_prompt_injection_phrase_count", count (prompt_injection_phrases r));
   ("ingress_custom_rule_count", count (custom_rules r));
   ("ingress_custom_rule_ids", PList (PStr <$> (rule_id <$> custom_rules r)));
   ("ingress_classifier_mode", PStr (cl_mode c));
   ("ingress_classifier_threshold", PFloat (cl_threshold c));
   ("ingress_classifier_model_version", PStr (cl_model_version c));
   ("ingress_classifier_signal_count", count (cl_signals c));
   ("ingress_classifier_review_channel", PStr (cl_review_channel c));
   ("ingress_classifier_external_endpoint_configured", PBool (py_bool (external_endpoint c)));
   ("ingress_classifier_external_timeout_ms", PInt (external_timeout_ms c));
   ("signed_gate_plugin_ref", plugin_field r plugin_ref);
   ("signed_gate_plugin_version", plugin_field r version);
   ("signed_gate_plugin_signer", plugin_field r signer);
   ("signed_gate_plugin_signature_sha256", plugin_field r signature_sha256);
   ("signed_gate_plugin_sandbox_mode", plugin_field r sandbox_mode);
   ("signed_gate_plugin_rule_count", count plugin_rules);
   ("signed_gate_plugin_rule_ids", PList (PStr <$> (rule_id <$> plugin_rules)));
   ("ingress_profile_compatibility_mode", PStr (compatibility_mode r))].

Definition supported_ingress_profiles : list string :=
  sort_by String.le (od_keys profile_baselines).

(** [d.get(key)] *)
Definition overlay_get (o : pydict) (key : string) : pyval := dict_get o key PNone.

Section profiles.
Variable float_repr : Q → string.
Variable re_compiles : string → bool.
Variable sha256_hex : string → string.
#[local] Notation str := (py_str float_repr).

Definition normalize_profile_name (raw : pyval) : res string :=
  let normalized := py_lower (py_strip (if truthy raw then str raw else "baseline")) in
  let normalized := od_get_default normalized normalized profile_aliases in
  guard! od_mem normalized profile_baselines
    else ValueError ("INGRESS_PROFILE_UNSUPPORTED: ingress_profile must be one of ["
      +:+ join ", " supported_ingress_profiles +:+ "], got '" +:+ normalized +:+ "'.") in
  Ok normalized.

Definition resolve_max_input_chars (raw : pyval) (baseline : Z) : res Z :=
  if is_none raw then Ok baseline
  else
    match as_int raw with
    | None => Raise (ValueError "INGRESS_PROFILE_MAX_INPUT_INVALID: ingress_max_input_chars must be a positive integer.")
    | Some n =>
        guard! 0 <? n
          else ValueError "INGRESS_PROFILE_MAX_INPUT_INVALID: ingress_max_input_chars must be a positive integer." in
        guard! n <=? baseline
          else ValueError "INGRESS_PROFILE_COMPATIBILITY_MAX_INPUT_RELAXATION_NOT_ALLOWED: ingress_max_input_chars cannot exceed the selected ingress profile baseline." in
        Ok n
    end.

(** The loop that the phrases and the signals share; [seen] is what it has kept. *)
Fixpoint normalize_entries (too_long : exn) (items : list pyval) (seen : list string)
    : res (list string) :=
  match items with
  | [] => Ok seen
  | item :: items =>
      let value := py_lower (py_strip (str item)) in
      if negb (py_bool value) then normalize_entries too_long items seen
      else if 160 <? py_len value then Raise too_long
      else if bool_decide (value ∈ seen) then normalize_entries too_long items seen
      else normalize_entries too_long items (seen ++ [value])
  end.

Definition resolve_prompt_injection_phrases (raw : pyval) (baseline : list string)
    : res (list string) :=
  if is_none raw then Ok baseline
  else
    match as_list raw with
    | None => Raise (ValueError "INGRESS_PROFILE_PHRASES_INVALID: ingress_prompt_injection_phrases must be a list of strings.")
    | Some items =>
        let! normalized := normalize_entries (ValueError
          "INGRESS_PROFILE_PHRASES_INVALID: phrase entries must be <=160 characters.") items [] in
        guard! negb (bool_decide (normalized = []))
          else ValueError "INGRESS_PROFILE_PHRASES_INVALID: ingress_prompt_injection_phrases cannot be empty." in
        guard! forallb (λ p, bool_decide (p ∈ normalized)) baseline
          else ValueError "INGRESS_PROFILE_COMPATIBILITY_BASELINE_PHRASES_REQUIRED: custom phrase lists must include baseline prompt-injection phrases." in
        guard! (length normalized <=? 64)%nat
          else ValueError "INGRESS_PROFILE_PHRASES_INVALID: ingress_prompt_injection_phrases supports at most 64 entries." in
        Ok normalized
    end.

(** *** The classifier's settings *)

Definition resolve_classifier_signals (raw : pyval) : res (list string) :=
  if is_none raw then Ok default_classifier_signals
  else
    match as_list raw with
    | None => Raise (ValueError "INGRESS_CLASSIFIER_SIGNALS_INVALID: ingress_classifier_signals must be a list.")
    | Some items =>
        let! normalized := normalize_entries (ValueError
          "INGRESS_CLASSIFIER_SIGNALS_INVALID: signal entries must be <=160 characters.") items [] in
        guard! negb (bool_decide (normalized = []))
          else ValueError "INGRESS_CLASSIFIER_SIGNALS_INVALID: ingress_classifier_signals cannot be empty." in
        guard! (length normalized <=? 64)%nat
          else ValueError "INGRESS_CLASSIFIER_SIGNALS_INVALID: ingress_classifier_signals supports at most 64 entries." in
        Ok normalized
    end.

Definition resolve_external_classifier_config (overlay : pydict) : res (string * Z) :=
  let raw := dict_get overlay "ingress_classifier_external_endpoint" (PStr "") in
  let endpoint := if truthy raw then py_strip (str raw) else "" in
  guard! negb (py_bool endpoint) || startswith endpoint "https://"
    else ValueError "INGRESS_CLASSIFIER_EXTERNAL_ENDPOINT_INVALID: ingress_classifier_external_endpoint must start with 'https://'." in
  guard! negb (py_bool endpoint) || (py_len endpoint <=? 512)
    else ValueError "INGRESS_CLASSIFIER_EXTERNAL_ENDPOINT_INVALID: ingress_classifier_external_endpoint must be <=512 characters." in
  match as_int (dict_get overlay "ingress_classifier_external_timeout_ms" (PInt 2000)) with
  | None => Raise (ValueError "INGRESS_CLASSIFIER_EXTERNAL_TIMEOUT_INVALID: ingress_classifier_external_timeout_ms must be an integer.")
  | Some timeout =>
      guard! (100 <=? timeout) && (timeout <=? 10000)
        else ValueError "INGRESS_CLASSIFIER_EXTERNAL_TIMEOUT_INVALID: ingress_classifier_external_timeout_ms must be in [100, 10000]." in
      Ok (endpoint, timeout)
  end.

(** The double nearest to 0.65. *)
Definition default_threshold : Q := QArith_base.Qmake 5854679515581645 9007199254740992.

Definition unit_interval (q : Q) : bool := (0 <=? Qnum q) && (Qnum q <=? Z.pos (Qden q)).

Definition resolve_classifier_settings (overlay : pydict) : res IngressClassifierSettings :=
  let raw_mode := py_lower (py_strip (dict_get_str float_repr overlay "ingress_classifier_mode" "off")) in
  let mode := od_get_default raw_mode raw_mode classifier_mode_aliases in
  guard! bool_decide (mode ∈ ["off"; "shadow"; "enforce"])
    else ValueError "INGRESS_CLASSIFIER_MODE_INVALID: ingress_classifier_mode must be one of ['off', 'shadow', 'enforce']." in
  match as_number (dict_get overlay "ingress_classifier_threshold" (PFloat default_threshold)) with
  | None => Raise (ValueError "INGRESS_CLASSIFIER_THRESHOLD_INVALID: ingress_classifier_threshold must be a number in [0,1].")
  | Some threshold =>
      guard! unit_interval threshold
        else ValueError "INGRESS_CLASSIFIER_THRESHOLD_INVALID: ingress_classifier_threshold must be in [0,1]." in
      let model_version := py_or (py_strip (dict_get_str float_repr overlay
        "ingress_classifier_model_version" "heuristic-ingress-v1")) "heuristic-ingress-v1" in
      guard! py_len model_version <=? 80
        else ValueError "INGRESS_CLASSIFIER_MODEL_VERSION_INVALID: ingress_classifier_model_version must be <=80 chars." in
      let review_channel := py_or (py_strip (dict_get_str float_repr overlay
        "ingress_classifier_review_channel" "security-review")) "security-review" in
      guard! py_len review_channel <=? 80
        else ValueError "INGRESS_CLASSIFIER_REVIEW_CHANNEL_INVALID: ingress_classifier_review_channel must be <=80 chars." in
      let! signals := resolve_classifier_signals (overlay_get overlay "ingress_classifier_signals") in
      let! external := resolve_external_classifier_config overlay in
      Ok (mkClassifier mode threshold model_version signals review_channel external.1 external.2)
  end.
(** *** Custom rules *)

Definition rules_invalid (detail : string) : exn :=
  ValueError ("INGRESS_CUSTOM_RULES_INVALID: " +:+ detail).

Definition rule_invalid (id detail : string) : exn :=
  rules_invalid ("rule '" +:+ id +:+ "' " +:+ detail).

Fixpoint normalize_patterns (id : string) (items : list pyval) : res (list string) :=
  match items with
  | [] => Ok []
  | item :: items =>
      let value := py_strip (str item) in
      if negb (py_bool value) then normalize_patterns id items
      else
        guard! py_len value <=? 256
          else rule_invalid id "pattern entries must be <=256 characters." in
        let! rest := normalize_patterns id items in Ok (value :: rest)
  end.

Fixpoint validate_regex_patterns (id : string) (patterns : list string) : res unit :=
  match patterns with
  | [] => Ok tt
  | p :: patterns =>
      guard! re_compiles p
        else ValueError ("INGRESS_CUSTOM_RULE_REGEX_INVALID: rule '" +:+ id
          +:+ "' contains invalid regex pattern '" +:+ p +:+ "'.") in
      validate_regex_patterns id patterns
  end.

Definition underscore : ascii := Ascii.ascii_of_nat 95.

(** [s.split("_")], [cur] being the part read so far. *)
Fixpoint split_underscores (s cur : string) : list string :=
  match s with
  | EmptyString => [cur]
  | String c s =>
      if bool_decide (c = underscore) then cur :: split_underscores s EmptyString
      else split_underscores s (cur +:+ String c EmptyString)
  end.

Definition default_custom_rule_reason_code (id action : string) : string :=
  let fragment := str_map (λ c, if ascii_alnum c then c else underscore) (py_upper id) in
  let fragment := join "_" (filter (λ part, part ≠ "") (split_underscores fragment EmptyString)) in
  let fragment := py_or fragment "RULE" in
  "INGRESS_CUSTOM_RULE_" +:+ str_take 48 fragment +:+ "_" +:+ py_upper action.

(** [str(d.get(key, dflt)).strip() or fallback] *)
Definition stripped (d : pydict) (key dflt : string) : string :=
  py_strip (dict_get_str float_repr d key dflt).

(** One iteration of the loop: the rule at [index], after the ids [seen]. *)
Definition resolve_rule (index : nat) (seen : list string) (raw : pyval) : res IngressRule :=
  match as_dict raw with
  | None => Raise (rules_invalid ("rule at index " +:+ str_of_nat index +:+ " must be an object."))
  | Some d =>
      let id := stripped d "rule_id" "" in
      guard! py_bool id
        else rules_invalid ("rule at index " +:+ str_of_nat index +:+ " requires non-empty rule_id.") in
      guard! negb (bool_decide (id ∈ seen))
        else rules_invalid ("duplicate rule_id '" +:+ id +:+ "' is not allowed.") in
      let action := py_lower (stripped d "action" "") in
      guard! bool_decide (action ∈ ["deny"; "escalate"])
        else rule_invalid id "action must be 'deny' or 'escalate'." in
      let kind := py_lower (stripped d "match_type" "") in
      guard! bool_decide (kind ∈ ["contains_any"; "regex_any"])
        else rule_invalid id "match_type must be 'contains_any' or 'regex_any'." in
      match as_list (overlay_get d "patterns") with
      | None => Raise (rule_invalid id "patterns must be a list.")
      | Some raw_patterns =>
          let! patterns := normalize_patterns id raw_patterns in
          guard! negb (bool_decide (patterns = []))
            else rule_invalid id "must include at least one pattern." in
          guard! (length patterns <=? 20)%nat
            else rule_invalid id "supports at most 20 patterns." in
          let! _ := if kind =?s "regex_any" then validate_regex_patterns id patterns else Ok tt in
          Ok (mkRule id action kind patterns
                (py_or (stripped d "reason_code" "") (default_custom_rule_reason_code id action))
                (py_or (stripped d "message" "")
                   ("Ingress custom rule '" +:+ id +:+ "' matched input content."))
                (truthy (dict_get d "case_sensitive" (PBool false)))
                (py_or (stripped d "review_channel" "security-review") "security-review"))
      end
  end.

Fixpoint resolve_rules (index : nat) (seen : list string) (raws : list pyval)
    : res (list IngressRule) :=
  match raws with
  | [] => Ok []
  | raw :: raws =>
      let! rule := resolve_rule index seen raw in
      let! rest := resolve_rules (S index) (rule_id rule :: seen) raws in
      Ok (rule :: rest)
  end.

Definition resolve_custom_rules (raw : pyval) : res (list IngressRule) :=
  if is_none raw then Ok []
  else
    match as_list raw with
    | None => Raise (rules_invalid "ingress_custom_rules must be a list.")
    | Some raws =>
        guard! (length raws <=? 20)%nat
          else rules_invalid "at most 20 ingress_custom_rules are allowed." in
        resolve_rules 0 [] raws
    end.

(** *** [resolve_ingress_profile_settings] *)

Definition baseline_of (profile : string) : Z * list string :=
  let b := od_get_default (0, []) profile profile_baselines in
  (b.1, (λ p, py_lower (py_strip p)) <$> b.2).

Definition resolve_ingress_profile_settings (overlay : pydict) : res IngressProfileResolution :=
  let! profile := normalize_profile_name (overlay_get overlay "ingress_profile") in
  let baseline := baseline_of profile in
  let! max_chars :=
    resolve_max_input_chars (overlay_get overlay "ingress_max_input_chars") baseline.1 in
  let! phrases := resolve_prompt_injection_phrases
    (overlay_get overlay "ingress_prompt_injection_phrases") baseline.2 in
  let! classifier := resolve_classifier_settings overlay in
  let! plugin := resolve_optional_signed_ingress_plugin float_repr sha256_hex
    (overlay_get overlay "signed_gate_plugin_ref") 1 in
  let! rules := resolve_custom_rules (overlay_get overlay "ingress_custom_rules") in
  Ok (mkResolution profile max_chars phrases classifier plugin rules "strict").
End profiles.

(** The default overlay gives the baseline profile. *)
Example default_profile float_repr re_compiles sha256_hex :
  resolve_ingress_profile_settings float_repr re_compiles sha256_hex [] =
  Ok (mkResolution "baseline" 8000 baseline_phrases
        (mkClassifier "off" default_threshold "heuristic-ingress-v1" default_classifier_signals
           "security-review" "" 2000) None [] "strict").
Proof. vm_compute. reflexivity. Qed.
