(* ===== verification/IngressProfilesFacts.v ===== *)
(** * What a resolved ingress profile guarantees

    Theorems about IngressProfiles.v: a resolved profile is never weaker than its
    baseline, and storing its overlay patch and resolving it again gives it back. *)

From S2P Require Import Prelude PyValue SignedPlugins IngressProfiles.

(** ** Normal forms of strings *)

Definition norm (s : string) : string := py_lower (py_strip s).

Lemma ascii_lower_space c : is_py_space (ascii_lower c) = is_py_space c.
Proof. by destruct c as [[] [] [] [] [] [] [] []]. Qed.

Lemma ascii_lower_idem c : ascii_lower (ascii_lower c) = ascii_lower c.
Proof. by destruct c as [[] [] [] [] [] [] [] []]. Qed.

Lemma py_lower_idem s : py_lower (py_lower s) = py_lower s.
Proof.
  unfold py_lower. induction s as [|c s IH]; cbn [str_map]; [done|]. by rewrite ascii_lower_idem, IH.
Qed.

Lemma lstrip_lower s : lstrip (py_lower s) = py_lower (lstrip s).
Proof.
  unfold py_lower. induction s as [|c s IH]; cbn [str_map lstrip]; [done|].
  rewrite ascii_lower_space. by destruct (is_py_space c).
Qed.

Lemma rstrip_lower s : rstrip (py_lower s) = py_lower (rstrip s).
Proof.
  unfold py_lower. induction s as [|c s IH]; cbn [str_map rstrip]; [done|].
  rewrite IH, ascii_lower_space. destruct (rstrip s); cbn [str_map]; [by destruct (is_py_space c)|done].
Qed.

Lemma py_strip_lower s : py_strip (py_lower s) = py_lower (py_strip s).
Proof. unfold py_strip. by rewrite lstrip_lower, rstrip_lower. Qed.

Lemma norm_idem s : norm (norm s) = norm s.
Proof. unfold norm. by rewrite py_strip_lower, py_strip_idem, py_lower_idem. Qed.

Lemma rstrip_app a b : b ≠ "" → rstrip b = b → rstrip (a +:+ b) = a +:+ b.
Proof.
  intros Hb E. induction a as [|c a IH]; [done|].
  change (String c a +:+ b) with (String c (a +:+ b)). cbn [rstrip]. rewrite IH.
  destruct (a +:+ b) eqn:Eab; [|done]. destruct a; [by destruct b|done].
Qed.

(** A text that starts and ends with a character kept by [strip]. *)
Lemma strip_framed c s b :
  is_py_space c = false → b ≠ "" → rstrip b = b → py_strip (String c s +:+ b) = String c s +:+ b.
Proof.
  intros Hc Hb E. unfold py_strip.
  assert (lstrip (String c s +:+ b) = String c s +:+ b) as ->; [|by apply rstrip_app].
  change (String c s +:+ b) with (String c (s +:+ b)). cbn [lstrip]. by rewrite Hc.
Qed.

Definition stripped_text (s : string) : Prop := s ≠ "" ∧ py_strip s = s.

Lemma py_or_stripped s d : stripped_text d → stripped_text (py_or (py_strip s) d).
Proof.
  intros Hd. unfold py_or. destruct (py_bool (py_strip s)) eqn:E; [|done].
  split; [by apply py_bool_true|apply py_strip_idem].
Qed.

Lemma py_or_self s d : stripped_text s → py_or (py_strip s) d = s.
Proof. intros [Hs E]. unfold py_or. rewrite E. by rewrite (proj2 (py_bool_true s) Hs). Qed.

(** Splits the goal on the scrutinee of each guard; a branch that raises is closed. *)
Ltac guards :=
  repeat match goal with
    | |- (if ?b then _ else Raise _) = Ok _ → _ => destruct b eqn:?; [|done]
    | |- (if ?b then Raise _ else _) = Ok _ → _ => destruct b eqn:?; [done|]
    | |- res_bind ?m _ = Ok _ → _ => destruct m eqn:?; [|done]; cbn [res_bind]
    end.

Ltac solve_bools :=
  rewrite ?bool_decide_true by done; rewrite ?bool_decide_false by done.

Section facts.
Context (float_repr : Q → string) (re_compiles : string → bool) (sha256_hex : string → string).

(** ** Phrases and signals *)

Definition entry_ok (x : string) : Prop := x ≠ "" ∧ norm x = x ∧ py_len x ≤ 160.

Definition entries_ok (l : list string) : Prop :=
  l ≠ [] ∧ NoDup l ∧ (length l ≤ 64)%nat ∧ Forall entry_ok l.

Lemma normalize_entries_ok e items seen l :
  NoDup seen → Forall entry_ok seen →
  normalize_entries float_repr e items seen = Ok l → NoDup l ∧ Forall entry_ok l.
Proof using.
  clear. revert seen. induction items as [|item items IH]; intros seen Hnd Hok; cbn [normalize_entries].
  { by intros [= <-]. }
  destruct (py_bool (py_lower (py_strip (py_str float_repr item)))) eqn:Eb; cbn [negb]; [|by apply IH].
  destruct (Z.ltb_spec 160 (py_len (py_lower (py_strip (py_str float_repr item))))); [done|].
  case_bool_decide as Hs; [by apply IH|]. apply IH.
  - apply NoDup_app. split_and!; [done| |apply NoDup_singleton]. by intros x Hx ->%list_elem_of_singleton.
  - apply Forall_app. split; [done|]. repeat constructor; [by apply py_bool_true|apply norm_idem|done].
Qed.

Lemma normalize_entries_fixed e l seen :
  NoDup (seen ++ l) → Forall entry_ok l →
  normalize_entries float_repr e (PStr <$> l) seen = Ok (seen ++ l).
Proof using.
  clear. revert seen. induction l as [|x l IH]; intros seen Hnd Hok.
  { by rewrite app_nil_r. }
  apply Forall_cons in Hok as [(Hx & Hn & Hlen) Hok]. rewrite fmap_cons. cbn [normalize_entries py_str].
  change (py_lower (py_strip x)) with (norm x). rewrite Hn, (proj2 (py_bool_true x) Hx). cbn [negb].
  destruct (Z.ltb_spec 160 (py_len x)); [lia|].
  rewrite bool_decide_false.
  - rewrite IH; [by rewrite <- app_assoc|by rewrite <- app_assoc|done].
  - intros Hin. apply NoDup_app in Hnd as (_ & Hdis & _). apply (Hdis x Hin), list_elem_of_here.
Qed.

Lemma phrases_ok raw baseline l :
  entries_ok baseline →
  resolve_prompt_injection_phrases float_repr raw baseline = Ok l →
  entries_ok l ∧ ∀ p, p ∈ baseline → p ∈ l.
Proof using.
  clear. intros Hb. unfold resolve_prompt_injection_phrases. destruct (is_none raw); [by intros [= <-]|].
  destruct (as_list raw) as [items|]; [|done]. guards. intros [= <-].
  apply normalize_entries_ok in Heqr as [? ?]; [|apply NoDup_nil_2|constructor].
  apply negb_true_iff, bool_decide_eq_false in Heqb. apply Nat.leb_le in Heqb1. split; [done|].
  intros p Hp. rewrite forallb_forall in Heqb0. apply (bool_decide_eq_true (p ∈ a)), Heqb0.
  by apply list_elem_of_In.
Qed.

Lemma phrases_fixed baseline l :
  entries_ok l → (∀ p, p ∈ baseline → p ∈ l) →
  resolve_prompt_injection_phrases float_repr (PList (PStr <$> l)) baseline = Ok l.
Proof using.
  clear. intros (Hne & Hnd & Hlen & Hok) Hsub. unfold resolve_prompt_injection_phrases. cbn [is_none as_list].
  rewrite normalize_entries_fixed by done. cbn [app res_bind].
  rewrite bool_decide_false by done. cbn [negb].
  assert (forallb (λ p, bool_decide (p ∈ l)) baseline = true) as ->.
  { apply forallb_forall. intros p Hp%list_elem_of_In. apply bool_decide_eq_true. auto. }
  by rewrite (proj2 (Nat.leb_le _ _) Hlen).
Qed.

Lemma signals_ok raw l : resolve_classifier_signals float_repr raw = Ok l → entries_ok l.
Proof using.
  clear. unfold resolve_classifier_signals. destruct (is_none raw).
  { intros [= <-]. split_and!; [done| |cbn; lia|];
      refine (bool_decide_unpack _ _); vm_compute; exact I. }
  destruct (as_list raw) as [items|]; [|done]. guards. intros [= <-].
  apply normalize_entries_ok in Heqr as [? ?]; [|apply NoDup_nil_2|constructor].
  apply negb_true_iff, bool_decide_eq_false in Heqb. by apply Nat.leb_le in Heqb0.
Qed.

Lemma signals_fixed l :
  entries_ok l → resolve_classifier_signals float_repr (PList (PStr <$> l)) = Ok l.
Proof using.
  clear. intros (Hne & Hnd & Hlen & Hok). unfold resolve_classifier_signals. cbn [is_none as_list].
  rewrite normalize_entries_fixed by done. cbn [app res_bind].
  rewrite bool_decide_false by done. cbn [negb]. by rewrite (proj2 (Nat.leb_le _ _) Hlen).
Qed.

(** ** The classifier *)

Definition text80 (s : string) : Prop := stripped_text s ∧ py_len s ≤ 80.

Record classifier_ok (c : IngressClassifierSettings) : Prop := {
  co_mode : cl_mode c ∈ ["off"; "shadow"; "enforce"];
  co_threshold : unit_interval (cl_threshold c) = true;
  co_version : text80 (cl_model_version c);
  co_channel : text80 (cl_review_channel c);
  co_signals : entries_ok (cl_signals c);
  co_endpoint : external_endpoint c = "" ∨
    py_strip (external_endpoint c) = external_endpoint c ∧
    startswith (external_endpoint c) "https://" = true ∧ py_len (external_endpoint c) ≤ 512;
  co_timeout : 100 ≤ external_timeout_ms c ≤ 10000;
}.

Lemma external_ok overlay ep t :
  resolve_external_classifier_config float_repr overlay = Ok (ep, t) →
  (ep = "" ∨ py_strip ep = ep ∧ startswith ep "https://" = true ∧ py_len ep ≤ 512) ∧ 100 ≤ t ≤ 10000.
Proof using.
  clear. unfold resolve_external_classifier_config. set (endpoint := if truthy _ then _ else _).
  guards. destruct (as_int _) as [n|]; [|done]. guards. intros [= <- <-]. split; [|lia].
  destruct (py_bool endpoint) eqn:E; [right|left; by apply py_bool_false].
  cbn in Heqb, Heqb0. split_and!; [|done|lia].
  subst endpoint. destruct (truthy _); [apply py_strip_idem|done].
Qed.

Lemma classifier_settings_ok overlay c :
  resolve_classifier_settings float_repr overlay = Ok c → classifier_ok c.
Proof using.
  clear. unfold resolve_classifier_settings. guards. destruct (as_number _) as [q|]; [|done].
  guards. destruct a0 as [ep t]. apply external_ok in Heqr0 as [Hep Ht]. apply signals_ok in Heqr.
  intros [= <-]. apply bool_decide_eq_true in Heqb. split; cbn; try done.
  - split; [by apply py_or_stripped|lia].
  - split; [by apply py_or_stripped|lia].
Qed.

(** The overlay entries that carry the classifier's settings. *)
Definition carries (overlay : pydict) (c : IngressClassifierSettings) : Prop :=
  od_get "ingress_classifier_mode" overlay = Some (PStr (cl_mode c)) ∧
  od_get "ingress_classifier_threshold" overlay = Some (PFloat (cl_threshold c)) ∧
  od_get "ingress_classifier_model_version" overlay = Some (PStr (cl_model_version c)) ∧
  od_get "ingress_classifier_signals" overlay = Some (PList (PStr <$> cl_signals c)) ∧
  od_get "ingress_classifier_review_channel" overlay = Some (PStr (cl_review_channel c)) ∧
  od_get "ingress_classifier_external_endpoint" overlay = Some (PStr (external_endpoint c)) ∧
  od_get "ingress_classifier_external_timeout_ms" overlay = Some (PInt (external_timeout_ms c)).

Lemma startswith_nonempty s p : startswith s p = true → p ≠ "" → s ≠ "".
Proof using. clear. by destruct s, p. Qed.

Lemma classifier_settings_fixed overlay c :
  classifier_ok c → carries overlay c → resolve_classifier_settings float_repr overlay = Ok c.
Proof using.
  clear. intros [Hmode Hth [Hver Hverl] [Hch Hchl] Hsig Hep Ht] (E1 & E2 & E3 & E4 & E5 & E6 & E7).
  unfold resolve_classifier_settings, dict_get_str, overlay_get, dict_get.
  rewrite E1, E2, E3, E4, E5. cbn [from_option id py_str as_number]. cbv zeta.
  assert (od_get_default (py_lower (py_strip (cl_mode c))) (py_lower (py_strip (cl_mode c)))
    classifier_mode_aliases = cl_mode c) as ->.
  { clear -Hmode. destruct (cl_mode c) as [|a s]; [by repeat apply not_elem_of_cons in Hmode as [? Hmode]|].
    repeat apply elem_of_cons in Hmode as [[= -> ->]|Hmode]; [done..|]. by apply elem_of_nil in Hmode. }
  rewrite (bool_decide_true (cl_mode c ∈ _)) by done. rewrite Hth.
  rewrite !py_or_self by done. rewrite (proj2 (Z.leb_le _ _) Hverl), (proj2 (Z.leb_le _ _) Hchl).
  rewrite signals_fixed by done. cbn [res_bind].
  assert (resolve_external_classifier_config float_repr overlay =
    Ok (external_endpoint c, external_timeout_ms c)) as ->; [|by destruct c].
  unfold resolve_external_classifier_config, dict_get. rewrite E6, E7. cbn [from_option id truthy py_str as_int].
  assert ((if py_bool (external_endpoint c) then py_strip (external_endpoint c) else "")
    = external_endpoint c) as ->.
  { destruct Hep as [->|(Hs & Hp & _)]; [done|]. rewrite Hs.
    by rewrite (proj2 (py_bool_true _) (startswith_nonempty _ _ Hp ltac:(done))). }
  assert ((100 <=? external_timeout_ms c) && (external_timeout_ms c <=? 10000) = true) as -> by lia.
  destruct Hep as [->|(_ & Hp & Hl)]; [done|]. rewrite Hp, orb_true_r.
  by rewrite (proj2 (Z.leb_le _ _) Hl), orb_true_r.
Qed.

(** ** Custom rules *)

Definition pattern_ok (p : string) : Prop := stripped_text p ∧ py_len p ≤ 256.

Record rule_ok (r : IngressRule) : Prop := {
  ro_id : stripped_text (rule_id r);
  ro_action : rl_action r ∈ ["deny"; "escalate"];
  ro_kind : match_type r ∈ ["contains_any"; "regex_any"];
  ro_patterns : patterns r ≠ [] ∧ (length (patterns r) ≤ 20)%nat ∧ Forall pattern_ok (patterns r);
  ro_regex : match_type r = "regex_any" → Forall (λ p, re_compiles p = true) (patterns r);
  ro_reason : stripped_text (rl_reason_code r);
  ro_message : stripped_text (rl_message r);
  ro_channel : stripped_text (rl_review_channel r);
}.

Lemma normalize_patterns_ok id items l :
  normalize_patterns float_repr id items = Ok l → Forall pattern_ok l.
Proof using.
  clear. revert l. induction items as [|item items IH]; intros l; cbn [normalize_patterns]; [by intros [= <-]|].
  destruct (py_bool (py_strip (py_str float_repr item))) eqn:E; cbn [negb]; [|apply IH].
  guards. intros [= <-]. constructor; [|by apply IH].
  split; [split; [by apply py_bool_true|apply py_strip_idem]|lia].
Qed.

Lemma normalize_patterns_fixed id l :
  Forall pattern_ok l → normalize_patterns float_repr id (PStr <$> l) = Ok l.
Proof using.
  clear. induction 1 as [|x l [[Hx Es] Hlen] _ IH]; [done|]. rewrite fmap_cons. cbn [normalize_patterns py_str].
  rewrite Es, (proj2 (py_bool_true x) Hx), (proj2 (Z.leb_le _ _) Hlen). cbn [negb]. by rewrite IH.
Qed.

Lemma validate_regex_ok id l :
  validate_regex_patterns re_compiles id l = Ok tt ↔ Forall (λ p, re_compiles p = true) l.
Proof using.
  clear. induction l as [|p l IH]; cbn [validate_regex_patterns]; [done|]. rewrite Forall_cons, <- IH.
  destruct (re_compiles p); naive_solver.
Qed.

Lemma app_nonempty a b : b ≠ "" → a +:+ b ≠ "".
Proof using. clear. destruct a; [done|]. by intros _ [=]. Qed.

Lemma default_reason_stripped id action :
  action ∈ ["deny"; "escalate"] → stripped_text (default_custom_rule_reason_code id action).
Proof using.
  clear. intros Ha. unfold default_custom_rule_reason_code. cbv zeta. set (t := str_take 48 _).
  assert (py_upper action ≠ "" ∧ rstrip ("_" +:+ py_upper action) = "_" +:+ py_upper action) as [Hne Hr].
  { apply elem_of_cons in Ha as [->|[->|?%elem_of_nil]%elem_of_cons]; done. }
  assert ("_" +:+ py_upper action ≠ "") as Hne' by (by apply app_nonempty).
  split; [by apply app_nonempty, app_nonempty|].
  apply strip_framed; [done|by apply app_nonempty|]. by apply rstrip_app.
Qed.

Lemma default_message_stripped id :
  stripped_text ("Ingress custom rule '" +:+ id +:+ "' matched input content.").
Proof using.
  clear. split; [by apply app_nonempty, app_nonempty|].
  apply strip_framed; [done|by apply app_nonempty|]. by apply rstrip_app.
Qed.

#[local] Notation resolve_rule := (resolve_rule float_repr re_compiles).
#[local] Notation resolve_rules := (resolve_rules float_repr re_compiles).

Lemma resolve_rule_ok index seen raw r :
  resolve_rule index seen raw = Ok r → rule_ok r ∧ rule_id r ∉ seen.
Proof using.
  clear. unfold IngressProfiles.resolve_rule. destruct (as_dict raw) as [d|]; [|done]. guards.
  destruct (as_list _) as [raws|]; [|done]. guards. intros [= <-].
  apply negb_true_iff, bool_decide_eq_false in Heqb0, Heqb3. apply bool_decide_eq_true in Heqb1, Heqb2.
  apply Nat.leb_le in Heqb4. split; [|done].
  split; cbn [rule_id rl_action match_type patterns rl_reason_code rl_message rl_review_channel].
  - split; [by apply py_bool_true|apply py_strip_idem].
  - done.
  - done.
  - split_and!; [done|done|by eapply normalize_patterns_ok].
  - intros E. rewrite E in Heqr1. rewrite bool_decide_true in Heqr1 by done. destruct a0.
    by eapply validate_regex_ok.
  - apply py_or_stripped. by apply default_reason_stripped.
  - apply py_or_stripped, default_message_stripped.
  - by apply py_or_stripped.
Qed.

Lemma lower_fixed s l : s ∈ l → Forall (λ x, py_lower (py_strip x) = x) l → py_lower (py_strip s) = s.
Proof using. clear. intros Hs Hl. rewrite Forall_forall in Hl. auto. Qed.

Lemma resolve_rule_fixed index seen r :
  rule_ok r → rule_id r ∉ seen → resolve_rule index seen (PDict (to_payload r)) = Ok r.
Proof using.
  clear. intros [Hid Ha Hk (Hp1 & Hp2 & Hp3) Hre Hr Hm Hc] Hs. unfold IngressProfiles.resolve_rule.
  cbn [as_dict]. unfold stripped, dict_get_str, overlay_get, dict_get.
  change (od_get "rule_id" (to_payload r)) with (Some (PStr (rule_id r))).
  change (od_get "action" (to_payload r)) with (Some (PStr (rl_action r))).
  change (od_get "match_type" (to_payload r)) with (Some (PStr (match_type r))).
  change (od_get "patterns" (to_payload r)) with (Some (PList (PStr <$> patterns r))).
  change (od_get "reason_code" (to_payload r)) with (Some (PStr (rl_reason_code r))).
  change (od_get "message" (to_payload r)) with (Some (PStr (rl_message r))).
  change (od_get "case_sensitive" (to_payload r)) with (Some (PBool (case_sensitive r))).
  change (od_get "review_channel" (to_payload r)) with (Some (PStr (rl_review_channel r))).
  cbn [from_option id py_str as_list truthy]. cbv zeta.
  rewrite (proj2 Hid), (proj2 (py_bool_true _) (proj1 Hid)).
  rewrite (lower_fixed _ _ Ha) by (repeat constructor). rewrite (lower_fixed _ _ Hk) by (repeat constructor).
  rewrite (bool_decide_false (rule_id r ∈ seen)) by done.
  rewrite (bool_decide_true (rl_action r ∈ _)), (bool_decide_true (match_type r ∈ _)) by done. cbn [negb].
  rewrite normalize_patterns_fixed by done. cbn [res_bind].
  rewrite (bool_decide_false (patterns r = [])), (proj2 (Nat.leb_le _ _) Hp2) by done. cbn [negb].
  assert ((if match_type r =?s "regex_any" then validate_regex_patterns re_compiles (rule_id r) (patterns r)
           else Ok tt) = Ok tt) as ->.
  { case_bool_decide; [|done]. apply validate_regex_ok. auto. }
  cbn [res_bind]. rewrite !py_or_self by done. by destruct r.
Qed.

Definition rules_ok (l : list IngressRule) : Prop :=
  (length l ≤ 20)%nat ∧ NoDup (rule_id <$> l) ∧ Forall rule_ok l.

Lemma resolve_rules_ok index seen raws l :
  resolve_rules index seen raws = Ok l →
  length l = length raws ∧ Forall rule_ok l ∧ NoDup (rule_id <$> l) ∧
  ∀ r, r ∈ l → rule_id r ∉ seen.
Proof using.
  clear. revert index seen l. induction raws as [|raw raws IH]; intros index seen l; cbn [IngressProfiles.resolve_rules].
  { intros [= <-]. split_and!; [done|done|apply NoDup_nil_2|by intros ? ?%elem_of_nil]. }
  guards. intros [= <-]. apply resolve_rule_ok in Heqr as [Hr Hs].
  apply IH in Heqr0 as (Hl & Hall & Hnd & Hseen). split_and!.
  - cbn. by rewrite Hl.
  - by constructor.
  - rewrite fmap_cons. apply NoDup_cons. split; [|done].
    intros (r & E & Hr')%list_elem_of_fmap. apply (Hseen r Hr'). rewrite <- E. apply list_elem_of_here.
  - intros r [->|Hin]%elem_of_cons; [done|]. specialize (Hseen r Hin).
    by apply not_elem_of_cons in Hseen as [_ ?].
Qed.

Lemma resolve_rules_fixed index seen l :
  Forall rule_ok l → NoDup (rule_id <$> l) → (∀ r, r ∈ l → rule_id r ∉ seen) →
  resolve_rules index seen (PDict <$> (to_payload <$> l)) = Ok l.
Proof using.
  clear. intros Hall. revert index seen. induction Hall as [|r l Hr _ IH]; intros index seen Hnd Hs; [done|].
  rewrite !fmap_cons. cbn [IngressProfiles.resolve_rules]. rewrite fmap_cons in Hnd.
  apply NoDup_cons in Hnd as [Hni Hnd].
  rewrite resolve_rule_fixed by (done || apply Hs, list_elem_of_here). cbn [res_bind].
  rewrite IH; [done|done|]. intros r' Hr'. apply not_elem_of_cons. split.
  - intros E. apply Hni. rewrite <- E. by apply list_elem_of_fmap_2.
  - apply Hs. by apply list_elem_of_further.
Qed.

Lemma custom_rules_ok raw l :
  resolve_custom_rules float_repr re_compiles raw = Ok l → rules_ok l.
Proof using.
  clear. unfold resolve_custom_rules. destruct (is_none raw).
  { intros [= <-]. split_and!; [cbn; lia|apply NoDup_nil_2|constructor]. }
  destruct (as_list raw) as [raws|]; [|done]. guards. intros (Hl & ? & ? & _)%resolve_rules_ok.
  apply Nat.leb_le in Heqb. split; [lia|done].
Qed.

Lemma custom_rules_fixed l :
  rules_ok l →
  resolve_custom_rules float_repr re_compiles (PList (PDict <$> (to_payload <$> l))) = Ok l.
Proof using.
  clear. intros (Hlen & Hnd & Hall). unfold resolve_custom_rules. cbn [is_none as_list].
  rewrite !length_fmap, (proj2 (Nat.leb_le _ _) Hlen). apply resolve_rules_fixed; [done|done|].
  intros r _. apply not_elem_of_nil.
Qed.

(** ** The signed plugin, the profile and the input length *)

Lemma registry_keyed k p :
  od_get k (plugin_registry float_repr sha256_hex) = Some p →
  stripped_text k ∧ plugin_ref (manifest p) = k.
Proof using.
  clear. intros Hin%od_get_elem.
  change (plugin_registry float_repr sha256_hex) with
    ((λ p, (plugin_ref (manifest p), p)) <$> signed_ingress_plugins float_repr sha256_hex) in Hin.
  apply list_elem_of_fmap in Hin as (q & [= -> <-] & Hq). split; [|done].
  apply elem_of_cons in Hq as [->|[->|?%elem_of_nil]%elem_of_cons]; done.
Qed.

Definition plugin_text (p : option SignedIngressPlugin) : string :=
  match p with Some p => plugin_ref (manifest p) | None => "" end.

Lemma optional_plugin_ok ref p :
  resolve_optional_signed_ingress_plugin float_repr sha256_hex ref 1 = Ok p →
  (∀ q, p = Some q → trusted float_repr sha256_hex q 1) ∧
  resolve_optional_signed_ingress_plugin float_repr sha256_hex (PStr (plugin_text p)) 1 = Ok p.
Proof using.
  clear. unfold resolve_optional_signed_ingress_plugin.
  generalize (py_strip (if truthy ref then py_str float_repr ref else "")). intros k.
  destruct (py_bool k); cbn [negb]; [|by intros [= <-]]. guards. intros [= <-].
  unfold resolve_signed_ingress_plugin in Heqr. apply resolve_from_ok in Heqr as (Hk & Hg & Ht).
  split; [by intros q [= <-]|]. destruct (registry_keyed _ _ Hg) as [[Hne Hs] Href].
  cbn [plugin_text truthy py_str]. rewrite Href, (proj2 (py_bool_true _) Hne), Hs.
  rewrite (proj2 (py_bool_true _) Hne). cbn [negb].
  assert (resolve_signed_ingress_plugin float_repr sha256_hex (py_strip k) 1 = Ok a) as ->; [|done].
  apply resolve_from_ok. by rewrite Hs.
Qed.

Lemma profile_name_ok raw name :
  normalize_profile_name float_repr raw = Ok name →
  name ∈ ["baseline"; "strict"; "hardened"] ∧ normalize_profile_name float_repr (PStr name) = Ok name.
Proof using.
  clear. unfold normalize_profile_name.
  set (n := od_get_default _ _ _). guards. intros [= <-].
  assert (n ∈ ["baseline"; "strict"; "hardened"]) as Hn.
  { unfold od_mem in Heqb. apply bool_decide_eq_true, od_get_Some_key in Heqb. exact Heqb. }
  split; [done|]. clear Heqb. clearbody n.
  repeat apply elem_of_cons in Hn as [->|Hn]; try done. by apply elem_of_nil in Hn.
Qed.

Lemma baseline_entries name :
  name ∈ ["baseline"; "strict"; "hardened"] →
  0 < (baseline_of name).1 ∧ entries_ok (baseline_of name).2 ∧
  od_get name profile_baselines = Some (baseline_of name).
Proof using.
  clear. intros Hn. repeat apply elem_of_cons in Hn as [->|Hn]; try by apply elem_of_nil in Hn.
  all: split_and!; [vm_compute; done| |vm_compute; reflexivity].
  all: split_and!; [vm_compute; done|refine (bool_decide_unpack _ _); vm_compute; exact I
    |apply Nat.leb_le; vm_compute; reflexivity|refine (bool_decide_unpack _ _); vm_compute; exact I].
Qed.

Lemma max_chars_ok raw baseline n :
  0 < baseline → resolve_max_input_chars raw baseline = Ok n →
  0 < n ≤ baseline ∧ resolve_max_input_chars (PInt n) baseline = Ok n.
Proof using.
  clear. intros Hb Hr. assert (0 < n ≤ baseline) as Hn.
  { revert Hr. unfold resolve_max_input_chars. destruct (is_none raw); [intros [= <-]; lia|].
    destruct (as_int raw) as [m|]; [|done]. guards. intros [= <-]. lia. }
  split; [done|]. unfold resolve_max_input_chars. cbn [is_none as_int].
  by rewrite (proj2 (Z.ltb_lt _ _)), (proj2 (Z.leb_le _ _)) by lia.
Qed.

(** What the resolution of an overlay establishes, and that the overlay patch of the
    result establishes it again. *)
Lemma resolution_ok overlay r :
  resolve_ingress_profile_settings float_repr re_compiles sha256_hex overlay = Ok r →
  (profile_name r ∈ ["baseline"; "strict"; "hardened"] ∧
   0 < max_input_chars r ≤ (baseline_of (profile_name r)).1 ∧
   entries_ok (prompt_injection_phrases r) ∧
   (∀ p, p ∈ (baseline_of (profile_name r)).2 → p ∈ prompt_injection_phrases r) ∧
   classifier_ok (classifier r) ∧
   (∀ p, signed_plugin r = Some p → trusted float_repr sha256_hex p 1) ∧
   rules_ok (custom_rules r)) ∧
  resolve_ingress_profile_settings float_repr re_compiles sha256_hex (to_overlay_patch r) = Ok r.
Proof using.
  clear. unfold resolve_ingress_profile_settings at 1. cbv zeta. guards. intros [= <-].
  cbn [profile_name max_input_chars prompt_injection_phrases classifier signed_plugin custom_rules].
  apply profile_name_ok in Heqr0 as [Hname Hfix]. destruct (baseline_entries _ Hname) as (Hpos & Hbase & _).
  apply max_chars_ok in Heqr1 as [Hmax Hmaxfix]; [|done].
  apply phrases_ok in Heqr2 as [Hphr Hsub]; [|done].
  apply classifier_settings_ok in Heqr3. apply optional_plugin_ok in Heqr4 as [Hpl Hplfix].
  apply custom_rules_ok in Heqr5. split; [done|].
  set (res := mkResolution _ _ _ _ _ _ _). unfold resolve_ingress_profile_settings.
  change (overlay_get (to_overlay_patch res) "ingress_profile") with (PStr a).
  rewrite Hfix. cbn [res_bind]. cbv zeta.
  change (overlay_get (to_overlay_patch res) "ingress_max_input_chars") with (PInt a0).
  rewrite Hmaxfix. cbn [res_bind].
  change (overlay_get (to_overlay_patch res) "ingress_prompt_injection_phrases") with (PList (PStr <$> a1)).
  rewrite phrases_fixed by done. cbn [res_bind].
  rewrite (classifier_settings_fixed _ a2) by done. cbn [res_bind].
  change (overlay_get (to_overlay_patch res) "signed_gate_plugin_ref") with (PStr (plugin_text a3)).
  rewrite Hplfix. cbn [res_bind].
  change (overlay_get (to_overlay_patch res) "ingress_custom_rules")
    with (PList (PDict <$> (to_payload <$> a4))).
  by rewrite custom_rules_fixed.
Qed.
End facts.

(** A resolved profile never weakens its baseline: the input limit is positive and at
    most the profile's, and the profile's phrases are all kept; the classifier's threshold
    lies in [0, 1], its timeout in 100..10000 ms and its endpoint is https or absent; the
    plugin passed every trust check; there are at most 20 custom rules, with distinct ids,
    each denying or escalating on at least one non-empty pattern. *)
Theorem profile_never_weaker float_repr re_compiles sha256_hex overlay r :
  resolve_ingress_profile_settings float_repr re_compiles sha256_hex overlay = Ok r →
  ∃ max_chars phrases,
    od_get (profile_name r) profile_baselines = Some (max_chars, phrases) ∧
    0 < max_input_chars r ≤ max_chars ∧
    (∀ p, p ∈ phrases → p ∈ prompt_injection_phrases r) ∧
    entries_ok (prompt_injection_phrases r) ∧ classifier_ok (classifier r) ∧
    (∀ p, signed_plugin r = Some p → trusted float_repr sha256_hex p 1) ∧
    (length (custom_rules r) ≤ 20)%nat ∧ NoDup (rule_id <$> custom_rules r) ∧
    Forall (rule_ok re_compiles) (custom_rules r).
Proof.
  intros ((Hn & Hm & Hp & Hs & Hc & Ht & Hl & Hnd & Hr) & _)%resolution_ok.
  destruct (baseline_entries _ Hn) as (_ & _ & Hb).
  exists (baseline_of (profile_name r)).1, (baseline_of (profile_name r)).2.
  split_and!; (done || lia).
Qed.

(** The overlay patch of a resolved profile resolves to the same profile, so storing
    the normalized settings and loading them again changes nothing. *)
Theorem overlay_patch_round_trip float_repr re_compiles sha256_hex overlay r :
  resolve_ingress_profile_settings float_repr re_compiles sha256_hex overlay = Ok r →
  resolve_ingress_profile_settings float_repr re_compiles sha256_hex (to_overlay_patch r) = Ok r.
Proof. intros [_ H]%resolution_ok. exact H. Qed.

(** *** An example *)

Definition demo_overlay : pydict :=
  [("ingress_profile", PStr " Default "); ("ingress_max_input_chars", PInt 500);
   ("ingress_classifier_mode", PStr "monitor"); ("ingress_classifier_threshold", PInt 1);
   ("signed_gate_plugin_ref", PStr "plugin://trusted/signed-v2");
   ("ingress_custom_rules", PList
      [PDict [("rule_id", PStr " no-secrets "); ("action", PStr "DENY");
              ("match_type", PStr "contains_any"); ("patterns", PList [PStr " Secret "; PStr ""])]])].

Definition demo_resolution : IngressProfileResolution :=
  mkResolution "baseline" 500 baseline_phrases
    (mkClassifier "shadow" (inject_Z 1) "heuristic-ingress-v1" default_classifier_signals
       "security-review" "" 2000)
    (od_get "plugin://trusted/signed-v2" (plugin_registry (λ _, "") (λ _, "ab")))
    [mkRule "no-secrets" "deny" "contains_any" ["Secret"] "INGRESS_CUSTOM_RULE_NO_SECRETS_DENY"
       "Ingress custom rule 'no-secrets' matched input content." false "security-review"] "strict".

Lemma profile_never_weaker_witness :
  resolve_ingress_profile_settings (λ _, "") (λ _, true) (λ _, "ab") demo_overlay = Ok demo_resolution ∧
  ∃ max_chars phrases, od_get (profile_name demo_resolution) profile_baselines = Some (max_chars, phrases) ∧
    0 < max_input_chars demo_resolution ≤ max_chars.
Proof.
  split; [vm_compute; reflexivity|].
  destruct (profile_never_weaker (λ _, "") (λ _, true) (λ _, "ab") demo_overlay demo_resolution)
    as (m & ph & H1 & H2 & _); [vm_compute; reflexivity|].
  exists m, ph. split; [exact H1|exact H2].
Defined.

Lemma overlay_patch_round_trip_witness :
  resolve_ingress_profile_settings (λ _, "") (λ _, true) (λ _, "ab") (to_overlay_patch demo_resolution)
    = Ok demo_resolution.
Proof.
  apply (overlay_patch_round_trip (λ _, "") (λ _, true) (λ _, "ab") demo_overlay demo_resolution).
  vm_compute. reflexivity.
Defined.
