(* ===== verification/PolicyTemplates.v ===== *)
(** * Policy templates

    Models src/policies/policy_templates.py: the packaged templates and the compiler that
    turns one into a tenant's policy overlay.  An overlay is JSON data, so it holds lists
    where the code also accepts tuples, and a deep copy is the value itself. *)

From S2P Require Import Prelude PyValue SignedPlugins IngressProfiles IngressProfilesFacts ToolIO RiskGates.

Definition locked_template_keys : list string :=
  ["ingress_profile"; "ingress_max_input_chars"; "ingress_prompt_injection_phrases";
   "ingress_custom_rules"; "ingress_classifier_mode"; "ingress_classifier_threshold";
   "ingress_classifier_model_version"; "ingress_classifier_signals";
   "ingress_classifier_review_channel"; "signed_gate_plugin_ref"; "signed_gate_plugin_version";
   "signed_gate_plugin_signer"; "signed_gate_plugin_signature_sha256";
   "signed_gate_plugin_sandbox_mode"; "ingress_profile_compatibility_mode"].

Record PolicyTemplateDefinition := mkTemplate {
  template_id : string;
  packaged_risk_profile_id : string;
  title : string;
  description : string;
  minimum_tier : string;
  overlay : pydict;
}.

Definition strs (l : list string) : pyval := PList (PStr <$> l).

(** A rule of a packaged overlay. *)
Definition packaged_rule (rule_id action match_type : string) (patterns : list string)
    (reason_code message : string) : pyval :=
  PDict [("rule_id", PStr rule_id); ("action", PStr action); ("match_type", PStr match_type);
         ("patterns", strs patterns); ("reason_code", PStr reason_code); ("message", PStr message)].

(** The doubles nearest to 0.35 and 0.28. *)
Definition double_035 : Q := QArith_base.Qmake 3152519739159347 9007199254740992.
Definition double_028 : Q := QArith_base.Qmake 1261007895663739 4503599627370496.

Definition protocol_guard : PolicyTemplateDefinition :=
  mkTemplate "template://governance/protocol-guard-v1" "risk://packaged/protocol-guard-v1"
    "Protocol Guard"
    "Strict protocol-integrity profile with classifier shadow telemetry and escalation on policy-bypass intent."
    "pro"
    [("deny_tools", PList []); ("escalate_risk_tiers", strs ["HIGH"]);
     ("escalate_state_changing", PBool true); ("ingress_profile", PStr "strict");
     ("ingress_custom_rules", PList
       [packaged_rule "template-protocol-bypass-escalate" "escalate" "regex_any"
          ["(?:ignore|bypass|override)\s+(?:protocol|policy|guardrail)s?"]
          "INGRESS_TEMPLATE_PROTOCOL_BYPASS_ESCALATE"
          "Protocol-guard template escalated potential policy-bypass phrasing."]);
     ("ingress_classifier_mode", PStr "shadow");
     ("ingress_classifier_threshold", PFloat double_035);
     ("ingress_classifier_model_version", PStr "template-protocol-guard-v1");
     ("ingress_classifier_signals",
       strs ["ignore protocol"; "bypass policy"; "skip guardrails"; "disable moderation"]);
     ("ingress_classifier_review_channel", PStr "security-review")].

Definition data_perimeter : PolicyTemplateDefinition :=
  mkTemplate "template://governance/data-perimeter-v1" "risk://packaged/data-perimeter-v1"
    "Data Perimeter"
    "Hardened data-protection profile with classifier enforce mode and packaged deny/escalate rules for secret export prompts."
    "pro"
    [("deny_tools", strs ["delete_records"]); ("escalate_risk_tiers", strs ["MEDIUM"; "HIGH"]);
     ("escalate_state_changing", PBool true); ("ingress_profile", PStr "hardened");
     ("ingress_custom_rules", PList
       [packaged_rule "template-deny-secret-export" "deny" "contains_any"
          ["export secrets"; "dump credentials"; "reveal private key"]
          "INGRESS_TEMPLATE_DENY_SECRET_EXPORT"
          "Data-perimeter template denied explicit secret-export request.";
        packaged_rule "template-escalate-tenant-data-exfil" "escalate" "regex_any"
          ["(?:exfiltrate|extract)\s+(?:tenant|customer|internal)\s+data"]
          "INGRESS_TEMPLATE_ESCALATE_DATA_EXFIL"
          "Data-perimeter template escalated potential data-exfiltration intent."]);
     ("ingress_classifier_mode", PStr "enforce");
     ("ingress_classifier_threshold", PFloat double_028);
     ("ingress_classifier_model_version", PStr "template-data-perimeter-v1");
     ("ingress_classifier_signals",
       strs ["export secrets"; "dump credentials"; "extract customer data"; "bypass compliance controls"]);
     ("ingress_classifier_review_channel", PStr "security-review")].

(** [_POLICY_TEMPLATE_REGISTRY] *)
Definition policy_template_registry : list (string * PolicyTemplateDefinition) :=
  (λ t, (template_id t, t)) <$> [protocol_guard; data_perimeter].

Definition list_policy_templates : list PolicyTemplateDefinition :=
  omap (λ key, od_get key policy_template_registry)
    (sorted_strings (od_keys policy_template_registry)).

Definition resolve_policy_template (template_id : string) : res PolicyTemplateDefinition :=
  let normalized := py_strip template_id in
  guard! py_bool normalized
    else ValueError "POLICY_TEMPLATE_REF_INVALID: template_id cannot be empty." in
  match od_get normalized policy_template_registry with
  | Some t => Ok t
  | None =>
      Raise (ValueError ("POLICY_TEMPLATE_UNKNOWN: unknown template_id '" +:+ normalized
        +:+ "'. Allowed template IDs: ["
        +:+ join ", " (sorted_strings (od_keys policy_template_registry)) +:+ "]."))
  end.

Definition normalize_overlay_fragment (fragment : pydict) : pydict :=
  match od_get "escalate_state_changing" fragment with
  | Some v => od_set "escalate_state_changing" (PBool (truthy v)) fragment
  | None => fragment
  end.

Definition validate_template_extra_keys (extra : pydict) : res unit :=
  match sorted_strings (filter (λ key, key ∈ locked_template_keys) (od_keys extra)) with
  | [] => Ok tt
  | locked =>
      Raise (ValueError ("POLICY_TEMPLATE_EXTRA_LOCKED_FIELDS: extra cannot override template-governed ingress fields ["
        +:+ join ", " locked +:+ "]."))
  end.

Section templates.
Variable float_repr : Q → string.
Variable re_compiles : string → bool.
Variable sha256_hex : string → string.
#[local] Notation resolve_ingress := (resolve_ingress_profile_settings float_repr re_compiles sha256_hex).

Definition policy_template_summary_payload (t : PolicyTemplateDefinition) : res pydict :=
  let! r := resolve_ingress (overlay t) in
  Ok [("template_id", PStr (template_id t));
      ("packaged_risk_profile_id", PStr (packaged_risk_profile_id t));
      ("title", PStr (title t)); ("description", PStr (description t));
      ("minimum_tier", PStr (minimum_tier t)); ("ingress_profile", PStr (profile_name r));
      ("ingress_classifier_mode", PStr (cl_mode (classifier r)));
      ("ingress_custom_rule_count", count (custom_rules r));
      ("includes_signed_plugin", PBool (bool_decide (is_Some (signed_plugin r))))].

(** The overlay before the ingress settings are resolved. *)
Definition template_overlay (t : PolicyTemplateDefinition) (merge_with_overlay extra : pydict) : pydict :=
  let merged :=
    match merge_with_overlay with
    | [] => []
    | _ => od_pop_all locked_template_keys (dict_update [] (normalize_overlay_fragment merge_with_overlay))
    end in
  let compiled := dict_update merged (normalize_overlay_fragment (overlay t)) in
  let compiled := dict_update compiled extra in
  let compiled := dict_setdefault compiled "deny_tools" (PList []) in
  let compiled := dict_setdefault compiled "escalate_risk_tiers" (PList []) in
  dict_setdefault compiled "escalate_state_changing" (PBool false).

(** [None] and an empty overlay are the same argument. *)
Definition compile_policy_template_overlay (template_id : string)
    (merge_with_overlay overlay_extra : pydict)
    : res (PolicyTemplateDefinition * pydict * IngressProfileResolution) :=
  let! t := resolve_policy_template template_id in
  let extra := normalize_overlay_fragment overlay_extra in
  let! _ := validate_template_extra_keys extra in
  let compiled := template_overlay t merge_with_overlay extra in
  let! r := resolve_ingress compiled in
  Ok (t, dict_update compiled (to_overlay_patch r), r).

(** ** A template governs the ingress settings *)

Lemma od_get_update_absent d e k : k ∉ od_keys e → od_get k (dict_update d e) = od_get k d.
Proof.
  unfold dict_update. revert d. induction e as [|[k' v] e IH]; intros d Hk; [done|].
  cbn in Hk. apply not_elem_of_cons in Hk as [Hne Hk]. cbn [foldl fst snd].
  rewrite IH by done. by apply od_get_set_ne.
Qed.

Lemma od_get_update d e k : od_wf e →
  od_get k (dict_update d e) = match od_get k e with Some v => Some v | None => od_get k d end.
Proof.
  unfold dict_update. revert d. induction e as [|[k' v] e IH]; intros d Hw; [done|].
  apply NoDup_cons in Hw as [Hni Hw]. cbn [foldl fst snd od_get]. rewrite IH by done.
  case_decide as Hk; [subst k'|].
  - assert (od_get k e = None) as -> by (by apply od_get_None). by rewrite od_get_set.
  - by rewrite od_get_set_ne.
Qed.

Lemma od_get_setdefault d k v k' : k ≠ k' → od_get k (dict_setdefault d k' v) = od_get k d.
Proof. intros Hne. unfold dict_setdefault. destruct (od_get k' d); [done|]. by apply od_get_set_ne. Qed.

Lemma normalize_fragment_get f k :
  k ≠ "escalate_state_changing" → od_get k (normalize_overlay_fragment f) = od_get k f.
Proof.
  intros Hne. unfold normalize_overlay_fragment. destruct (od_get _ f); [|done]. by apply od_get_set_ne.
Qed.

Lemma validate_extra_ok extra :
  validate_template_extra_keys extra = Ok tt ↔ ∀ k, k ∈ od_keys extra → k ∉ locked_template_keys.
Proof.
  unfold validate_template_extra_keys.
  set (locked := filter (λ key, key ∈ locked_template_keys) (od_keys extra)).
  assert (sorted_strings locked = [] ↔ locked = []) as Hs.
  { split; [|by intros ->]. intros E. unfold sorted_strings in E.
    apply Permutation_nil. rewrite <- E. apply sort_by_perm. }
  assert (locked = [] ↔ ∀ k, k ∈ od_keys extra → k ∉ locked_template_keys) as <-.
  { split.
    - intros E k Hk Hin. assert (k ∈ locked) as Hl by (by apply list_elem_of_filter).
      rewrite E in Hl. by apply elem_of_nil in Hl.
    - intros H. destruct locked as [|k l] eqn:E; [done|].
      assert (k ∈ locked) as Hl by (rewrite E; left). apply list_elem_of_filter in Hl as [Hl Hk].
      by destruct (H k Hk). }
  rewrite <- Hs. destruct (sorted_strings locked); naive_solver.
Qed.

Lemma templates_well_formed t :
  t ∈ [protocol_guard; data_perimeter] → od_wf (normalize_overlay_fragment (overlay t)).
Proof.
  intros [->|[->|?%elem_of_nil]%elem_of_cons]%elem_of_cons; [| |done];
    apply (bool_decide_unpack _); vm_compute; exact I.
Qed.

Lemma resolve_template_in id t : resolve_policy_template id = Ok t → t ∈ [protocol_guard; data_perimeter].
Proof.
  unfold resolve_policy_template. destruct (py_bool _); [|done].
  destruct (od_get _ _) as [t'|] eqn:E; [|done]. intros [= ->].
  apply od_get_elem in E. unfold policy_template_registry in E.
  by apply list_elem_of_fmap in E as (t' & [= _ ->] & Hin).
Qed.

(** A locked key keeps the template's value, or stays absent. *)
Lemma template_overlay_locked t merge extra k :
  t ∈ [protocol_guard; data_perimeter] →
  (∀ k, k ∈ od_keys extra → k ∉ locked_template_keys) → k ∈ locked_template_keys →
  od_get k (template_overlay t merge extra) = od_get k (overlay t).
Proof.
  intros Ht Hextra Hk. unfold template_overlay.
  assert (k ≠ "deny_tools" ∧ k ≠ "escalate_risk_tiers" ∧ k ≠ "escalate_state_changing") as (H1 & H2 & H3).
  { split_and!; intros ->; revert Hk; apply (bool_decide_unpack _); vm_compute; exact I. }
  rewrite !od_get_setdefault by done.
  rewrite od_get_update_absent by (intros Hin; by apply (Hextra k)).
  rewrite od_get_update by (by apply templates_well_formed).
  rewrite normalize_fragment_get by done.
  destruct (od_get k (overlay t)); [done|]. destruct merge; [done|].
  rewrite od_get_pop_all. by rewrite decide_True.
Qed.

(** Membership in a list of literals. *)
Local Ltac known_key := refine (bool_decide_unpack _ _); vm_compute; exact I.

(** The same resolution without an external classifier. *)
Definition without_external (r : IngressProfileResolution) : IngressProfileResolution :=
  let c := classifier r in
  mkResolution (profile_name r) (max_input_chars r) (prompt_injection_phrases r)
    (mkClassifier (cl_mode c) (cl_threshold c) (cl_model_version c) (cl_signals c)
       (cl_review_channel c) "" 2000)
    (signed_plugin r) (custom_rules r) (compatibility_mode r).

Lemma resolve_ingress_same o o0 r :
  (∀ k, k ∈ locked_template_keys → od_get k o = od_get k o0) →
  od_get "ingress_classifier_external_endpoint" o0 = None →
  od_get "ingress_classifier_external_timeout_ms" o0 = None →
  resolve_ingress o = Ok r → resolve_ingress o0 = Ok (without_external r).
Proof.
  intros Hk He Ht.
  assert (∀ k d, k ∈ locked_template_keys → dict_get o k d = dict_get o0 k d) as Hget.
  { intros k d Hin. unfold dict_get. by rewrite Hk. }
  assert (∀ k, k ∈ locked_template_keys → overlay_get o k = overlay_get o0 k) as Hov
    by (intros; by apply Hget).
  assert (resolve_external_classifier_config float_repr o0 = Ok ("", 2000)) as Hext.
  { unfold resolve_external_classifier_config, dict_get. by rewrite He, Ht. }
  assert (∀ c, resolve_classifier_settings float_repr o = Ok c →
    resolve_classifier_settings float_repr o0 =
    Ok (mkClassifier (cl_mode c) (cl_threshold c) (cl_model_version c) (cl_signals c)
          (cl_review_channel c) "" 2000)) as Hcl.
  { intros c. unfold resolve_classifier_settings, dict_get_str.
    rewrite Hext, !Hget, Hov by known_key.
    destruct (bool_decide _); [|done]. destruct (as_number _); [|done].
    destruct (unit_interval _); [|done]. destruct (_ <=? 80); [|done].
    destruct (_ <=? 80); [|done]. destruct (resolve_classifier_signals _ _); [|done].
    destruct (resolve_external_classifier_config float_repr o); [|done].
    cbn. by intros [= <-]. }
  unfold resolve_ingress_profile_settings. rewrite !Hov by known_key.
  destruct (normalize_profile_name _ _); [|done]. cbn.
  destruct (resolve_max_input_chars _ _); [|done]. cbn.
  destruct (resolve_prompt_injection_phrases _ _); [|done]. cbn.
  destruct (resolve_classifier_settings float_repr o) as [c|]; [|done].
  rewrite (Hcl c eq_refl). cbn.
  destruct (resolve_optional_signed_ingress_plugin _ _ _ _); [|done]. cbn.
  destruct (resolve_custom_rules _ _ _); [|done]. cbn. by intros [= <-].
Qed.

(** The keys the ingress settings are read from. *)
Definition ingress_keys : list string :=
  "ingress_classifier_external_endpoint" :: "ingress_classifier_external_timeout_ms" ::
  locked_template_keys.

Lemma resolve_ingress_ext o o0 :
  (∀ k, k ∈ ingress_keys → od_get k o = od_get k o0) → resolve_ingress o = resolve_ingress o0.
Proof.
  intros Hk.
  assert (∀ k d, k ∈ ingress_keys → dict_get o k d = dict_get o0 k d) as Hget.
  { intros k d Hin. unfold dict_get. by rewrite Hk. }
  assert (∀ k, k ∈ ingress_keys → overlay_get o k = overlay_get o0 k) as Hov
    by (intros; by apply Hget).
  unfold resolve_ingress_profile_settings, resolve_classifier_settings,
    resolve_external_classifier_config, dict_get_str.
  rewrite !Hov, !Hget by known_key. done.
Qed.

Lemma patch_keys r k :
  k ∈ od_keys (to_overlay_patch r) ↔ k ∈ ingress_keys.
Proof.
  change (od_keys (to_overlay_patch r)) with
    ["ingress_profile"; "ingress_max_input_chars"; "ingress_prompt_injection_phrases";
     "ingress_custom_rules"; "ingress_classifier_mode"; "ingress_classifier_threshold";
     "ingress_classifier_model_version"; "ingress_classifier_signals";
     "ingress_classifier_review_channel"; "ingress_classifier_external_endpoint";
     "ingress_classifier_external_timeout_ms"; "signed_gate_plugin_ref";
     "signed_gate_plugin_version"; "signed_gate_plugin_signer";
     "signed_gate_plugin_signature_sha256"; "signed_gate_plugin_sandbox_mode";
     "ingress_profile_compatibility_mode"].
  unfold ingress_keys, locked_template_keys. rewrite !elem_of_cons, elem_of_nil. tauto.
Qed.

Lemma patch_wf r : od_wf (to_overlay_patch r).
Proof. apply (bool_decide_unpack (NoDup (od_keys (to_overlay_patch r)))). vm_compute. exact I. Qed.

Lemma od_get_patched o r k v :
  od_get k (to_overlay_patch r) = Some v → od_get k (dict_update o (to_overlay_patch r)) = Some v.
Proof. intros Hk. rewrite od_get_update by apply patch_wf. by rewrite Hk. Qed.

(** An overlay that stores the patch of a resolution resolves to it. *)
Lemma resolve_patched o r o' :
  resolve_ingress o = Ok r → resolve_ingress (dict_update o' (to_overlay_patch r)) = Ok r.
Proof.
  intros [_ Hr]%resolution_ok. rewrite <- Hr. apply resolve_ingress_ext. intros k Hk.
  apply (patch_keys r), od_get_Some_key in Hk as [v Hv]. by rewrite (od_get_patched _ _ _ _ Hv).
Qed.

Lemma normalize_fragment_keys f k : k ∈ od_keys (normalize_overlay_fragment f) ↔ k ∈ od_keys f.
Proof.
  unfold normalize_overlay_fragment. destruct (od_get _ f) as [v|] eqn:E; [|done].
  rewrite <- !od_get_Some_key. destruct (decide (k = "escalate_state_changing")) as [->|Hne].
  - rewrite od_get_set, E. split; intros _; by eexists.
  - by rewrite od_get_set_ne.
Qed.

(** A compiled template governs the ingress settings: neither the merged overlay nor the
    extra fields change the profile, limit, phrases, rules, plugin or classifier settings of
    the template (only an external endpoint can be added); extra fields that name a governed
    setting are refused; and the overlay that is stored holds the resolved settings and
    resolves to them again. *)
Theorem template_governs_ingress id merge extra t o r :
  compile_policy_template_overlay id merge extra = Ok (t, o, r) →
  resolve_ingress (overlay t) = Ok (without_external r) ∧
  (∀ k, k ∈ od_keys extra → k ∉ locked_template_keys) ∧
  (∀ k v, od_get k (to_overlay_patch r) = Some v → od_get k o = Some v) ∧
  resolve_ingress o = Ok r.
Proof.
  unfold compile_policy_template_overlay. destruct (resolve_policy_template id) as [t'|] eqn:Et; [|done].
  cbn [res_bind]. destruct (validate_template_extra_keys _) as [[]|] eqn:Ev; [|done]. cbn [res_bind].
  destruct (resolve_ingress (template_overlay t' _ _)) as [r'|] eqn:Er; [|done]. cbn [res_bind].
  intros (-> & <- & ->)%ok_triple. apply resolve_template_in in Et. pose proof (proj1 (validate_extra_ok _) Ev) as Hv.
  split_and!.
  - eapply resolve_ingress_same; [| | |exact Er].
    + intros k Hk. by apply template_overlay_locked.
    + by repeat apply elem_of_cons in Et as [->|Et]; [..|by apply elem_of_nil in Et].
    + by repeat apply elem_of_cons in Et as [->|Et]; [..|by apply elem_of_nil in Et].
  - intros k Hk. apply (Hv k). by apply normalize_fragment_keys.
  - intros k v. apply od_get_patched.
  - by eapply resolve_patched.
Qed.
End templates.

(** The extra fields that add an external endpoint are accepted, and merging an overlay
    with a weaker profile keeps the template's. *)
Lemma template_governs_ingress_witness :
  ∃ o r,
    compile_policy_template_overlay (λ _, "") (λ _, true) (λ _, "") "template://governance/data-perimeter-v1"
      [("ingress_profile", PStr "baseline"); ("escalate_tools", strs ["wire"])]
      [("ingress_classifier_external_endpoint", PStr "https://x")] = Ok (data_perimeter, o, r) ∧
    od_get "ingress_profile" o = Some (PStr "hardened") ∧
    resolve_ingress_profile_settings (λ _, "") (λ _, true) (λ _, "") (overlay data_perimeter)
      = Ok (without_external r).
Proof.
  destruct (compile_policy_template_overlay (λ _, "") (λ _, true) (λ _, "")
    "template://governance/data-perimeter-v1"
    [("ingress_profile", PStr "baseline"); ("escalate_tools", strs ["wire"])]
    [("ingress_classifier_external_endpoint", PStr "https://x")]) as [[[t o] r]|] eqn:E.
  - assert (t = data_perimeter) as -> by (vm_compute in E; by injection E).
    exists o, r. split; [reflexivity|].
    destruct (template_governs_ingress (λ _, "") (λ _, true) (λ _, "")
      "template://governance/data-perimeter-v1"
      [("ingress_profile", PStr "baseline"); ("escalate_tools", strs ["wire"])]
      [("ingress_classifier_external_endpoint", PStr "https://x")] data_perimeter o r E) as (H1 & _).
    split; [|exact H1]. vm_compute in E. injection E as <- _. reflexivity.
  - vm_compute in E. discriminate E.
Defined.

(** The packaged overlays name risk tiers in upper case.  Where the values of the tiers are
    in lower case the risk gates drop the names, and with them the tiers they escalate by
    default: applying a template escalates no tier at all. *)
Lemma packaged_risk_tiers_ignored `{!ToolIO} float_repr re_compiles sha256_hex id t o r fallback :
  RiskTier_of (R := RiskTier) "HIGH" = None → RiskTier_of (R := RiskTier) "MEDIUM" = None →
  compile_policy_template_overlay float_repr re_compiles sha256_hex id [] [] = Ok (t, o, r) →
  overlay_risk_tiers float_repr "escalate_risk_tiers" fallback o = [].
Proof.
  intros Hh Hm. unfold compile_policy_template_overlay.
  destruct (resolve_policy_template id) as [t'|] eqn:Et; [|done]. cbn [res_bind].
  change (validate_template_extra_keys (normalize_overlay_fragment [])) with (Ok (A := unit) tt).
  cbn [res_bind]. destruct (resolve_ingress_profile_settings _ _ _ _) as [r'|]; [|done].
  cbn [res_bind]. intros (-> & Ho & ->)%ok_triple. apply resolve_template_in in Et.
  assert (t = protocol_guard ∨ t = data_perimeter) as Ht
    by (by repeat apply elem_of_cons in Et as [->|Et]; [left|right|apply elem_of_nil in Et]).
  assert (od_get "escalate_risk_tiers" (dict_update (template_overlay t [] (normalize_overlay_fragment []))
    (to_overlay_patch r)) = od_get "escalate_risk_tiers" (overlay t)) as Hg.
  { rewrite od_get_update_absent; [by destruct Ht as [-> | ->]|].
    unfold to_overlay_patch, od_keys. apply (bool_decide_unpack (¬ _)). vm_compute. exact I. }
  assert (od_get "escalate_risk_tiers" o = od_get "escalate_risk_tiers" (overlay t)) as Hg'
    by (by rewrite <- Ho). clear Hg Ho. rename Hg' into Hg.
  unfold overlay_risk_tiers, dict_get. rewrite Hg.
  destruct Ht as [-> | ->];
    [change (od_get _ (overlay _)) with (Some (strs ["HIGH"]))
    |change (od_get _ (overlay _)) with (Some (strs ["MEDIUM"; "HIGH"]))];
    cbn -[RiskTier_of]; by rewrite ?Hm, ?Hh.
Qed.
