(* ===== verification/IngressGates.v ===== *)
(** * Ingress gates

    Models src/policies/ingress_gates.py and src/policies/ingress_classifier_router.py:
    the gates a turn passes before orchestration and the chain that runs them.  The
    actions of a decision are those of an external package: the class
    [PolicyActions] of ToolIO.v is the interface the gates use.  [float_div] and [round4] are float division and
    [round(_, 4)]; a classifier adapter is a function from the input and its timeout to
    its outcome and the elapsed milliseconds. *)

From S2P Require Import Prelude PyValue SignedPlugins IngressProfiles.
From S2P Require Export ToolIO.

Record IngressTurnContext := mkTurn {
  tc_tenant_id : string;
  tc_session_id : string;
  tc_correlation_id : string;
  tc_transport : string;
  user_input : string;
  tc_identity_subject : string;
  tc_identity_roles : list string;
  tc_identity_tenant_id : string;
}.

(** The [classifier_*] fields of a decision. *)
Record classifier_fields := mkClassifierFields {
  cf_mode : string;
  cf_model_version : string;
  cf_score : Q;
  cf_threshold : Q;
  cf_signal_count : Z;
  cf_signals_matched : list string;
  cf_shadow_triggered : bool;
  cf_routing_used : string;
  cf_fallback_reason : string;
  cf_external_latency_ms : Z;
  cf_labels : list string;
}.

(** The [signed_plugin_*] fields of a decision. *)
Record plugin_fields := mkPluginFields {
  pf_ref : string;
  pf_version : string;
  pf_signer : string;
  pf_rule_id : string;
  pf_rule_action : string;
  pf_sandbox_mode : string;
  pf_matched : bool;
}.

Definition no_classifier : classifier_fields :=
  mkClassifierFields "" "" (inject_Z 0) (inject_Z 0) 0 [] false "" "" 0 [].

Definition no_plugin : plugin_fields := mkPluginFields "" "" "" "" "" "" false.

Inductive external_outcome :=
| ExternalReturns (score : Q) (labels : list string) (model_version : string) (latency_ms : Z)
| ExternalRaises (type_name message : string).

(** [ExternalClassifierResult]: its constructor checks the score. *)
Record ExternalClassifierResult := mkExternal {
  er_score : Q;
  er_labels : list string;
  er_model_version : string;
  er_latency_ms : Z;
}.

Record ClassifierRoutingResult := mkRouting {
  ro_score : Q;
  ro_model_version : string;
  ro_routing_used : string;
  ro_labels : list string;
  ro_fallback_reason : string;
  ro_external_latency_ms : Z;
  ro_signals_matched : list string;
  ro_signal_count : Z;
}.

Definition used_external (r : ClassifierRoutingResult) : bool := ro_routing_used r =?s "external".
Definition used_fallback (r : ClassifierRoutingResult) : bool := py_bool (ro_fallback_reason r).

Definition classifier_adapter : Type := string → Z → external_outcome * Z.

Section gates.
Context {A : Type} `{!PolicyActions A}.
Variable float_repr : Q → string.
Variable re_search : string → string → bool → bool.
Variable float_div : Z → Z → Q.
Variable round4 : Q → Q.

Record IngressDecision := mkDecision {
  schema_version : string;
  decision : A;
  reason_code : string;
  message : string;
  gate_id : string;
  gate_version : string;
  review_required : bool;
  review_channel : string;
  classifier_of : classifier_fields;
  plugin_of : plugin_fields;
}.

(** A decision without evidence. *)
Definition plain (action : A) (reason message gate : string) (review : bool) (channel : string)
    : IngressDecision :=
  mkDecision "1.0" action reason message gate "1.0.0" review channel no_classifier no_plugin.

Definition strings (l : list string) : pyval := PList (PStr <$> l).

Definition to_payload (d : IngressDecision) : pydict :=
  let c := classifier_of d in
  let p := plugin_of d in
  [("schema_version", PStr (schema_version d)); ("decision", PStr (action_value (decision d)));
   ("reason_code", PStr (reason_code d)); ("message", PStr (message d));
   ("gate_id", PStr (gate_id d)); ("gate_version", PStr (gate_version d));
   ("review_required", PBool (review_required d)); ("review_channel", PStr (review_channel d))]
  ++ (if py_bool (cf_mode c) then
        [("classifier_mode", PStr (cf_mode c)); ("classifier_model_version", PStr (cf_model_version c));
         ("classifier_score", PFloat (cf_score c)); ("classifier_threshold", PFloat (cf_threshold c));
         ("classifier_signal_count", PInt (cf_signal_count c));
         ("classifier_signals_matched", strings (cf_signals_matched c));
         ("classifier_shadow_triggered", PBool (cf_shadow_triggered c))] else [])
  ++ (if py_bool (cf_routing_used c) then
        [("classifier_routing_used", PStr (cf_routing_used c));
         ("classifier_fallback_reason", PStr (cf_fallback_reason c));
         ("classifier_external_latency_ms", PInt (cf_external_latency_ms c));
         ("classifier_labels", strings (cf_labels c))] else [])
  ++ (if py_bool (pf_ref p) then
        [("signed_plugin_ref", PStr (pf_ref p)); ("signed_plugin_version", PStr (pf_version p));
         ("signed_plugin_signer", PStr (pf_signer p)); ("signed_plugin_rule_id", PStr (pf_rule_id p));
         ("signed_plugin_rule_action", PStr (pf_rule_action p));
         ("signed_plugin_sandbox_mode", PStr (pf_sandbox_mode p));
         ("signed_plugin_matched", PBool (pf_matched p))] else []).

(** *** Input gates *)

Definition empty_input_gate (input : string) : option IngressDecision :=
  if py_bool (py_strip input) then None
  else Some (plain DENY "INGRESS_INPUT_EMPTY" "Turn input is empty after normalization."
               "ingress-empty-input" false "").

Definition max_input_chars_gate (max_chars : Z) (input : string) : option IngressDecision :=
  if py_len input <=? Z.max max_chars 1 then None
  else Some (plain DENY "INGRESS_INPUT_TOO_LARGE"
               ("Turn input exceeds max allowed characters (" +:+ str_of_Z max_chars +:+ ").")
               "ingress-max-input-chars" false "").

(** [phrase and phrase in normalized_input] *)
Definition occurs (normalized_input phrase : string) : bool :=
  py_bool phrase && py_in phrase normalized_input.

Definition prompt_injection_gate (phrases : list string) (input : string)
    : option IngressDecision :=
  match head (filter (λ p, occurs (py_lower input) p = true) phrases) with
  | None => None
  | Some phrase =>
      Some (plain ESCALATE "INGRESS_PROMPT_INJECTION_SUSPECTED"
              ("Turn input matched suspicious phrase '" +:+ phrase +:+ "'.")
              "ingress-prompt-injection-heuristic" true "security-review")
  end.

(** *** Classifier gates *)

Definition matched_signals (c : IngressClassifierSettings) (input : string) : list string :=
  filter (λ s, occurs (py_lower input) s = true) (cl_signals c).

(** [min(1.0, x)] *)
Definition min_one (x : Q) : Q := if QArith_base.Qle_bool (inject_Z 1) x then inject_Z 1 else x.

Definition heuristic_score (c : IngressClassifierSettings) (input : string) : Q :=
  round4 (min_one (float_div (Z.of_nat (length (matched_signals c input)))
                     (Z.max (Z.of_nat (length (cl_signals c))) 1))).

Definition at_least (score threshold : Q) : bool := QArith_base.Qle_bool threshold score.

Definition shadow_message : string :=
  "Ingress classifier flagged high-risk input in shadow mode; decision recorded without blocking.".

Definition with_classifier (d : IngressDecision) (c : classifier_fields) : IngressDecision :=
  mkDecision (schema_version d) (decision d) (reason_code d) (message d) (gate_id d)
    (gate_version d) (review_required d) (review_channel d) c (plugin_of d).

Definition with_plugin (d : IngressDecision) (p : plugin_fields) : IngressDecision :=
  mkDecision (schema_version d) (decision d) (reason_code d) (message d) (gate_id d)
    (gate_version d) (review_required d) (review_channel d) (classifier_of d) p.

Definition heuristic_fields (c : IngressClassifierSettings) (input : string) (shadow : bool)
    : classifier_fields :=
  mkClassifierFields (cl_mode c) (cl_model_version c) (heuristic_score c input) (cl_threshold c)
    (Z.of_nat (length (cl_signals c))) (matched_signals c input) shadow "" "" 0 [].

(** [IngressClassifierHeuristicGate.evaluate] *)
Definition classifier_heuristic_gate (c : IngressClassifierSettings) (input : string)
    : option IngressDecision :=
  let gate := "ingress-classifier-heuristic" in
  if negb (classifier_enabled c) then None
  else
    let score := heuristic_score c input in
    let high_risk :=
      negb (bool_decide (matched_signals c input = [])) && at_least score (cl_threshold c) in
    if high_risk && (cl_mode c =?s "enforce") then
      Some (with_classifier
        (plain ESCALATE "INGRESS_CLASSIFIER_HIGH_RISK"
           ("Ingress classifier marked input as high-risk in enforce mode (score="
              +:+ float_repr score +:+ ", threshold=" +:+ float_repr (cl_threshold c) +:+ ").")
           gate true (cl_review_channel c))
        (heuristic_fields c input false))
    else if high_risk && (cl_mode c =?s "shadow") then
      Some (with_classifier
        (plain ALLOW "INGRESS_CLASSIFIER_SHADOW_HIGH_RISK" shadow_message gate false "")
        (heuristic_fields c input true))
    else
      Some (with_classifier
        (plain ALLOW "INGRESS_CLASSIFIER_ALLOW_LOW_RISK"
           "Ingress classifier evaluated input as low-risk." gate false "")
        (heuristic_fields c input false)).

(** [ExternalClassifierResult.__post_init__] *)
Definition external_result (score : Q) (labels : list string) (model_version : string)
    (latency : Z) : res ExternalClassifierResult :=
  guard! unit_interval score
    else ValueError ("EXTERNAL_CLASSIFIER_SCORE_INVALID: score must be in [0,1], got "
      +:+ float_repr score) in
  Ok (mkExternal score labels model_version latency).

Definition heuristic_result (c : IngressClassifierSettings) (input fallback_reason : string)
    (latency : Z) : ClassifierRoutingResult :=
  mkRouting (heuristic_score c input) (cl_model_version c) "heuristic" [] fallback_reason latency
    (matched_signals c input) (Z.of_nat (length (cl_signals c))).

(** What calling the adapter gives: the result, or the fallback reason. *)
Definition call_adapter (adapter : classifier_adapter) (input : string)
    : (ExternalClassifierResult + string) * Z :=
  let '(outcome, latency) := adapter input 2000 in
  (match outcome with
   | ExternalReturns score labels version ms =>
       match external_result score labels version ms with
       | Ok r => inl r
       | Raise e => inr ("ValueError: " +:+ exn_message e)
       end
   | ExternalRaises name msg => inr (name +:+ ": " +:+ msg)
   end, latency).

(** [_route] *)
Definition route (c : IngressClassifierSettings) (adapter : option classifier_adapter)
    (input : string) : ClassifierRoutingResult :=
  match adapter with
  | None => heuristic_result c input "" 0
  | Some adapter =>
      match call_adapter adapter input with
      | (inl r, latency) =>
          mkRouting (er_score r) (py_or (er_model_version r) (cl_model_version c)) "external"
            (er_labels r) "" latency [] 0
      | (inr reason, latency) => heuristic_result c input reason latency
      end
  end.

(** [_build_decision] *)
Definition build_decision (c : IngressClassifierSettings) (action : A) (reason message : string)
    (r : ClassifierRoutingResult) (review shadow : bool) : IngressDecision :=
  with_classifier
    (plain action reason message "ingress-external-classifier-routing" review
       (if review then cl_review_channel c else ""))
    (mkClassifierFields (cl_mode c) (ro_model_version r) (ro_score r) (cl_threshold c)
       (ro_signal_count r) (ro_signals_matched r) shadow (ro_routing_used r)
       (ro_fallback_reason r) (ro_external_latency_ms r) (ro_labels r)).

(** [ExternalClassifierRoutingGate.evaluate] *)
Definition external_classifier_gate (c : IngressClassifierSettings)
    (adapter : option classifier_adapter) (input : string) : option IngressDecision :=
  if negb (classifier_enabled c) then None
  else
    let r := route c adapter input in
    let high_risk := at_least (ro_score r) (cl_threshold c) in
    if high_risk && (cl_mode c =?s "enforce") then
      Some (build_decision c ESCALATE "INGRESS_CLASSIFIER_HIGH_RISK"
        ("Ingress classifier marked input as high-risk in enforce mode (score="
           +:+ float_repr (ro_score r) +:+ ", threshold=" +:+ float_repr (cl_threshold c)
           +:+ ", routing=" +:+ ro_routing_used r +:+ ").") r true false)
    else if high_risk && (cl_mode c =?s "shadow") then
      Some (build_decision c ALLOW "INGRESS_CLASSIFIER_SHADOW_HIGH_RISK" shadow_message r false true)
    else
      Some (build_decision c ALLOW "INGRESS_CLASSIFIER_ALLOW_LOW_RISK"
        "Ingress classifier evaluated input as low-risk." r false false).

(** *** Rule gates *)

Definition first_match (rules : list IngressRule) (input : string) : option IngressRule :=
  head (filter (λ r, matches re_search r input = true) rules).

(** The decision of a matching rule. *)
Definition rule_decision (gate : string) (r : IngressRule) : IngressDecision :=
  if rl_action r =?s "deny"
  then plain DENY (rl_reason_code r) (rl_message r) gate false ""
  else plain ESCALATE (rl_reason_code r) (rl_message r) gate true (rl_review_channel r).

Definition custom_rules_gate (rules : list IngressRule) (input : string)
    : option IngressDecision :=
  rule_decision "ingress-custom-rules" <$> first_match rules input.

Definition signed_plugin_gate (plugin : option SignedIngressPlugin) (input : string)
    : option IngressDecision :=
  match plugin with
  | None => None
  | Some p =>
      let m := manifest p in
      let evidence r_id r_action :=
        mkPluginFields (plugin_ref m) (version m) (signer m) r_id r_action (sandbox_mode m) in
      match first_match (rules p) input with
      | Some r =>
          Some (with_plugin (rule_decision "ingress-signed-plugin" r)
                  (evidence (rule_id r) (rl_action r) true))
      | None =>
          Some (with_plugin
            (plain ALLOW "INGRESS_SIGNED_PLUGIN_ALLOW_NO_MATCH"
               "Signed ingress plugin evaluated input with no matching rule."
               "ingress-signed-plugin" false "") (evidence "" "" false))
      end
  end.

Inductive gate :=
| EmptyInputGate
| MaxInputCharsGate (max_chars : Z)
| PromptInjectionHeuristicGate (phrases : list string)
| IngressClassifierHeuristicGate (c : IngressClassifierSettings)
| ExternalClassifierRoutingGate (c : IngressClassifierSettings) (adapter : option classifier_adapter)
| CustomIngressRulesGate (rules : list IngressRule)
| SignedPluginIngressGate (plugin : option SignedIngressPlugin).

Definition evaluate_gate (g : gate) (t : IngressTurnContext) : option IngressDecision :=
  let input := user_input t in
  match g with
  | EmptyInputGate => empty_input_gate input
  | MaxInputCharsGate n => max_input_chars_gate n input
  | PromptInjectionHeuristicGate phrases => prompt_injection_gate phrases input
  | IngressClassifierHeuristicGate c => classifier_heuristic_gate c input
  | ExternalClassifierRoutingGate c adapter => external_classifier_gate c adapter input
  | CustomIngressRulesGate rules => custom_rules_gate rules input
  | SignedPluginIngressGate plugin => signed_plugin_gate plugin input
  end.

(** *** The chain *)

(** The telemetry dictionary: the classifier's entries and the plugin's. *)
Definition telemetry : Type := option classifier_fields * option plugin_fields.

Definition extract_allow_telemetry (d : IngressDecision) : telemetry :=
  (if py_bool (cf_mode (classifier_of d)) then Some (classifier_of d) else None,
   if py_bool (pf_ref (plugin_of d)) then Some (plugin_of d) else None).

Definition merge_allow_telemetry (existing incoming : telemetry) : telemetry :=
  (match incoming.1 with Some c => Some c | None => existing.1 end,
   match incoming.2 with Some p => Some p | None => existing.2 end).

Definition apply_allow_telemetry (d : IngressDecision) (t : telemetry) : IngressDecision :=
  let d := match t.1 with
           | Some c => if py_bool (cf_mode (classifier_of d)) then d else with_classifier d c
           | None => d
           end in
  match t.2 with
  | Some p => if py_bool (pf_ref (plugin_of d)) then d else with_plugin d p
  | None => d
  end.

(** [IngressGateChain.evaluate], from the telemetry collected so far. *)
Fixpoint evaluate_from (seen : telemetry) (gates : list gate) (t : IngressTurnContext)
    : IngressDecision :=
  match gates with
  | [] =>
      apply_allow_telemetry
        (plain ALLOW "INGRESS_ALLOW_DEFAULT" "Turn allowed by ingress gate chain."
           "ingress-gate-chain" false "") seen
  | g :: gates =>
      match evaluate_gate g t with
      | None => evaluate_from seen gates t
      | Some d =>
          if decide (decision d = ALLOW)
          then evaluate_from (merge_allow_telemetry seen (extract_allow_telemetry d)) gates t
          else if decide (decision d = DENY ∨ decision d = ESCALATE)
          then apply_allow_telemetry d seen
          else evaluate_from seen gates t
      end
  end.

Record IngressGateChain := mkChain {
  chain_gates : list gate;
  ch_profile_name : string;
  ch_custom_rule_ids : list string;
  ch_compatibility_mode : string;
  ch_classifier : IngressClassifierSettings;
  ch_classifier_routing : string;
  ch_signed_plugin : option SignedIngressPlugin;
}.

Definition evaluate (ch : IngressGateChain) (t : IngressTurnContext) : IngressDecision :=
  evaluate_from (None, None) (chain_gates ch) t.

Definition policy_metadata (ch : IngressGateChain) : pydict :=
  let c := ch_classifier ch in
  let field f := PStr (match ch_signed_plugin ch with Some p => f (manifest p) | None => "" end) in
  [("ingress_profile", PStr (ch_profile_name ch));
   ("ingress_custom_rule_count", count (ch_custom_rule_ids ch));
   ("ingress_custom_rule_ids", strings (ch_custom_rule_ids ch));
   ("ingress_profile_compatibility_mode", PStr (ch_compatibility_mode ch));
   ("ingress_classifier_mode", PStr (cl_mode c));
   ("ingress_classifier_threshold", PFloat (cl_threshold c));
   ("ingress_classifier_model_version", PStr (cl_model_version c));
   ("ingress_classifier_signal_count", count (cl_signals c));
   ("ingress_classifier_routing", PStr (ch_classifier_routing ch));
   ("signed_gate_plugin_ref", field plugin_ref); ("signed_gate_plugin_version", field version);
   ("signed_gate_plugin_signer", field signer);
   ("signed_gate_plugin_sandbox_mode", field sandbox_mode);
   ("signed_gate_plugin_rule_count",
      count (match ch_signed_plugin ch with Some p => rules p | None => [] end))].

(** The chain of a resolved profile, in the order of [build_ingress_gate_chain_from_overlay]. *)
Definition chain_of (r : IngressProfileResolution) (adapter : option classifier_adapter)
    : IngressGateChain :=
  let classifier_gate :=
    match adapter with
    | Some _ => ExternalClassifierRoutingGate (classifier r) adapter
    | None => IngressClassifierHeuristicGate (classifier r)
    end in
  mkChain
    [EmptyInputGate; MaxInputCharsGate (max_input_chars r); classifier_gate;
     PromptInjectionHeuristicGate (prompt_injection_phrases r);
     CustomIngressRulesGate (custom_rules r); SignedPluginIngressGate (signed_plugin r)]
    (profile_name r) (rule_id <$> custom_rules r) (compatibility_mode r) (classifier r)
    (match adapter with Some _ => "external" | None => "heuristic" end) (signed_plugin r).

Definition build_ingress_gate_chain_from_overlay (re_compiles : string → bool)
    (sha256_hex : string → string) (overlay : pydict) (adapter : option classifier_adapter)
    : res IngressGateChain :=
  let! r := resolve_ingress_profile_settings float_repr re_compiles sha256_hex overlay in
  Ok (chain_of r adapter).
End gates.
