(* ===== verification/IngressGatesFacts.v ===== *)
(** * What the ingress gate chain guarantees

    Theorems about IngressGates.v, with those of IngressProfilesFacts.v about the
    settings the chain is built from. *)

From S2P Require Import Prelude PyValue SignedPlugins IngressProfiles IngressProfilesFacts.
From S2P Require Import IngressGates.

Section facts.
Context {A : Type} `{!PolicyActions A}.
Context (float_repr : Q → string) (re_search : string → string → bool → bool).
Context (float_div : Z → Z → Q) (round4 : Q → Q).

#[local] Notation evaluate_gate := (evaluate_gate float_repr re_search float_div round4).
#[local] Notation evaluate_from := (evaluate_from float_repr re_search float_div round4).
#[local] Notation evaluate := (evaluate float_repr re_search float_div round4).
#[local] Notation gate := (@gate).

(** What a decision says, without its evidence. *)
Definition core (d : IngressDecision (A := A)) : A * string * string * string * bool * string :=
  (decision d, reason_code d, message d, gate_id d, review_required d, review_channel d).

Definition blocks (d : IngressDecision (A := A)) : bool :=
  bool_decide (decision d = DENY ∨ decision d = ESCALATE).

(** The decisions of the gates, in order. *)
Definition decisions (gates : list gate) (t : IngressTurnContext) : list IngressDecision :=
  omap (λ g, evaluate_gate g t) gates.

Definition allowed_by_default : IngressDecision (A := A) :=
  plain ALLOW "INGRESS_ALLOW_DEFAULT" "Turn allowed by ingress gate chain."
    "ingress-gate-chain" false "".

Lemma core_apply d seen : core (apply_allow_telemetry d seen) = core d.
Proof using.
  unfold apply_allow_telemetry. destruct seen as [[c|] [p|]]; cbn [fst snd]; try done;
    repeat (case_match; try done).
Qed.

Lemma evaluate_from_core seen gates t :
  core (evaluate_from seen gates t) =
  core (default allowed_by_default (head (filter (λ d, blocks d = true) (decisions gates t)))).
Proof using.
  revert seen. induction gates as [|g gates IH]; intros seen; [apply core_apply|].
  cbn [IngressGates.evaluate_from]. unfold decisions. cbn [omap list_omap].
  destruct (evaluate_gate g t) as [d|]; [|apply IH]. rewrite filter_cons.
  destruct (decide (decision d = ALLOW)) as [E|E].
  - assert (blocks d = false) as ->; [|apply IH].
    apply bool_decide_eq_false. rewrite E.
    intros [H|H]; [by apply allow_not_deny in H|by apply allow_not_escalate in H].
  - case_decide as Hb.
    + assert (blocks d = true) as -> by (by apply bool_decide_eq_true). apply core_apply.
    + assert (blocks d = false) as -> by (by apply bool_decide_eq_false). apply IH.
Qed.

Lemma core_decision d d' : core d = core d' → decision d = decision d'.
Proof using. by intros [=]. Qed.

(** Some gate blocks, so the turn is not allowed. *)
Lemma blocked gates t g d seen :
  g ∈ gates → evaluate_gate g t = Some d → blocks d = true →
  decision (evaluate_from seen gates t) ≠ ALLOW.
Proof using.
  intros Hg E Hb. rewrite (core_decision _ _ (evaluate_from_core seen gates t)).
  destruct (head (filter (λ d, blocks d = true) (decisions gates t))) as [d'|] eqn:Eh.
  - apply head_Some_elem_of, list_elem_of_filter in Eh as [Hb' _]. cbn [from_option id].
    unfold blocks in Hb'. apply bool_decide_eq_true in Hb' as [-> | ->].
    + intros H. by apply allow_not_deny.
    + intros H. by apply allow_not_escalate.
  - exfalso. apply head_None in Eh.
    assert (d ∈ filter (λ d, blocks d = true) (decisions gates t)) as Hin.
    { apply list_elem_of_filter. split; [done|]. unfold decisions. apply list_elem_of_omap. eauto. }
    rewrite Eh in Hin. by apply elem_of_nil in Hin.
Qed.

(** The gate of the classifier never blocks in shadow mode. *)
Definition classifier_gate (r : IngressProfileResolution) (adapter : option classifier_adapter) : gate :=
  match adapter with
  | Some _ => ExternalClassifierRoutingGate (classifier r) adapter
  | None => IngressClassifierHeuristicGate (classifier r)
  end.

Lemma shadow_gate_passes r adapter t d :
  cl_mode (classifier r) = "shadow" → evaluate_gate (classifier_gate r adapter) t = Some d → blocks d = false.
Proof using.
  intros Hm. unfold classifier_gate. assert (decision d = ALLOW → blocks d = false) as Hallow.
  { intros E. apply bool_decide_eq_false. rewrite E.
    intros [H|H]; [by apply allow_not_deny in H|by apply allow_not_escalate in H]. }
  destruct adapter; cbn [IngressGates.evaluate_gate]; intros E; apply Hallow; revert E;
    unfold external_classifier_gate, classifier_heuristic_gate; rewrite Hm;
    destruct (classifier_enabled _); cbn [negb]; try done;
    rewrite (bool_decide_false ("shadow" = "enforce")), andb_false_r by done;
    destruct (_ && _); by intros [= <-].
Qed.

Definition with_mode (r : IngressProfileResolution) (mode : string) : IngressProfileResolution :=
  let c := classifier r in
  mkResolution (profile_name r) (max_input_chars r) (prompt_injection_phrases r)
    (mkClassifier mode (cl_threshold c) (cl_model_version c) (cl_signals c) (cl_review_channel c)
       (external_endpoint c) (external_timeout_ms c))
    (signed_plugin r) (custom_rules r) (compatibility_mode r).

Lemma off_gate r adapter t : evaluate_gate (classifier_gate (with_mode r "off") adapter) t = None.
Proof using. by destruct adapter. Qed.

Lemma decisions_chain r adapter t :
  decisions (chain_gates (chain_of r adapter)) t =
  omap (λ g, evaluate_gate g t) [EmptyInputGate; MaxInputCharsGate (max_input_chars r)] ++
  omap (λ g, evaluate_gate g t) [classifier_gate r adapter] ++
  omap (λ g, evaluate_gate g t)
    [PromptInjectionHeuristicGate (prompt_injection_phrases r);
     CustomIngressRulesGate (custom_rules r); SignedPluginIngressGate (signed_plugin r)].
Proof using. unfold decisions. by rewrite <- !omap_app. Qed.

Lemma shadow_core r adapter t :
  cl_mode (classifier r) = "shadow" →
  core (evaluate (chain_of r adapter) t) = core (evaluate (chain_of (with_mode r "off") adapter) t).
Proof using.
  intros Hm. unfold IngressGates.evaluate. rewrite !evaluate_from_core, !decisions_chain, !filter_app.
  do 4 f_equal. cbn [omap list_omap]. rewrite off_gate.
  destruct (evaluate_gate (classifier_gate r adapter) t) as [d|] eqn:E; [|done].
  rewrite filter_cons, decide_False; [done|]. by rewrite (shadow_gate_passes _ _ _ _ Hm E).
Qed.

Lemma too_long_denied r adapter t :
  0 < max_input_chars r → max_input_chars r < py_len (user_input t) →
  decision (evaluate (chain_of r adapter) t) = DENY.
Proof using.
  intros Hpos Hlen. unfold IngressGates.evaluate. cbn [chain_of chain_gates IngressGates.evaluate_from IngressGates.evaluate_gate].
  unfold empty_input_gate. destruct (py_bool (py_strip (user_input t))).
  - unfold max_input_chars_gate. destruct (Z.leb_spec (py_len (user_input t)) (Z.max (max_input_chars r) 1)); [lia|].
    cbn [decision plain]. rewrite decide_False by (intros E; by apply allow_not_deny).
    by rewrite decide_True by by left.
  - cbn [decision plain]. rewrite decide_False by (intros E; by apply allow_not_deny).
    by rewrite decide_True by by left.
Qed.

Lemma phrase_blocks r adapter t p :
  p ∈ prompt_injection_phrases r → p ≠ "" → py_in p (py_lower (user_input t)) = true →
  decision (evaluate (chain_of r adapter) t) ≠ ALLOW.
Proof using.
  intros Hp Hne Hin. unfold IngressGates.evaluate.
  destruct (head (filter (λ p, occurs (py_lower (user_input t)) p = true) (prompt_injection_phrases r)))
    as [q|] eqn:E.
  - eapply (blocked _ _ (PromptInjectionHeuristicGate (prompt_injection_phrases r))).
    + cbn. set_solver.
    + cbn [IngressGates.evaluate_gate]. unfold prompt_injection_gate. by rewrite E.
    + apply bool_decide_eq_true. by right.
  - exfalso. apply head_None in E.
    assert (p ∈ filter (λ p, occurs (py_lower (user_input t)) p = true) (prompt_injection_phrases r)) as Hf.
    { apply list_elem_of_filter. split; [|done]. unfold occurs.
      by rewrite (proj2 (py_bool_true p) Hne), Hin. }
    rewrite E in Hf. by apply elem_of_nil in Hf.
Qed.

Lemma rule_decision_blocks gate_name r : blocks (rule_decision (A := A) gate_name r) = true.
Proof using. apply bool_decide_eq_true. unfold rule_decision. case_match; [by left|by right]. Qed.

Lemma first_match_some rules input rule :
  rule ∈ rules → matches re_search rule input = true → is_Some (first_match re_search rules input).
Proof using.
  intros Hr Hm. unfold first_match. destruct (filter _ rules) eqn:E; [|eauto]. exfalso.
  assert (rule ∈ filter (λ r, matches re_search r input = true) rules) as Hf by by apply list_elem_of_filter.
  rewrite E in Hf. by apply elem_of_nil in Hf.
Qed.

Lemma custom_rule_blocks r adapter t rule :
  rule ∈ custom_rules r → matches re_search rule (user_input t) = true →
  decision (evaluate (chain_of r adapter) t) ≠ ALLOW.
Proof using.
  intros Hr Hm. unfold IngressGates.evaluate.
  destruct (first_match_some _ _ _ Hr Hm) as [q Hq].
  eapply (blocked _ _ (CustomIngressRulesGate (custom_rules r))).
  - cbn. set_solver.
  - cbn [IngressGates.evaluate_gate]. unfold custom_rules_gate. by rewrite Hq.
  - apply rule_decision_blocks.
Qed.

Lemma plugin_rule_blocks r adapter t p rule :
  signed_plugin r = Some p → rule ∈ rules p → matches re_search rule (user_input t) = true →
  decision (evaluate (chain_of r adapter) t) ≠ ALLOW.
Proof using.
  intros Hp Hr Hm. unfold IngressGates.evaluate.
  destruct (first_match_some _ _ _ Hr Hm) as [q Hq].
  eapply (blocked _ _ (SignedPluginIngressGate (signed_plugin r))).
  - cbn. set_solver.
  - cbn [IngressGates.evaluate_gate]. unfold signed_plugin_gate. by rewrite Hp, Hq.
  - apply (rule_decision_blocks "ingress-signed-plugin" q).
Qed.
End facts.

(** A chain answers with the decision of its first gate that denies or escalates,
    and allows by default when none does: evidence collected from gates that allowed
    the turn is added to the answer without changing its decision, reason, message, gate
    or review. *)
Theorem chain_first_blocker {A} `{!PolicyActions A} float_repr re_search float_div round4
    (ch : IngressGateChain) t :
  core (evaluate (A := A) float_repr re_search float_div round4 ch t) =
  core (default allowed_by_default
    (head (filter (λ d, blocks d = true)
      (omap (λ g, evaluate_gate float_repr re_search float_div round4 g t) (chain_gates ch))))).
Proof. apply evaluate_from_core. Qed.

(** C6: Whatever a tenant puts in its overlay and whatever an external classifier
    answers, a chain built from an overlay never allows a turn that contains one of the
    baseline phrases of its profile, or that a custom rule or a rule of its signed
    plugin matches, and denies every turn longer than the profile's limit. *)
Theorem overlay_cannot_weaken_baseline {A} `{!PolicyActions A} float_repr re_search float_div round4
    re_compiles sha256_hex overlay adapter r max_chars phrases t :
  resolve_ingress_profile_settings float_repr re_compiles sha256_hex overlay = Ok r →
  od_get (profile_name r) profile_baselines = Some (max_chars, phrases) →
  let verdict := decision (evaluate (A := A) float_repr re_search float_div round4 (chain_of r adapter) t) in
  (∀ p, p ∈ phrases → py_in p (py_lower (user_input t)) = true → verdict ≠ ALLOW) ∧
  (max_chars < py_len (user_input t) → verdict = DENY) ∧
  (∀ rule, rule ∈ custom_rules r → matches re_search rule (user_input t) = true → verdict ≠ ALLOW) ∧
  (∀ p rule, signed_plugin r = Some p → rule ∈ rules p → matches re_search rule (user_input t) = true →
     verdict ≠ ALLOW).
Proof.
  intros Hres Hbase verdict.
  apply resolution_ok in Hres as ((Hn & Hm & (_ & _ & _ & Hok) & Hsub & _) & _).
  destruct (baseline_entries _ Hn) as (_ & _ & Hb). rewrite Hbase in Hb.
  assert (baseline_of (profile_name r) = (max_chars, phrases)) as Hbn by congruence.
  rewrite Hbn in Hm, Hsub. cbn [fst snd] in Hm, Hsub. split_and!.
  - intros p Hp Hin. apply Hsub in Hp as Hp'. rewrite Forall_forall in Hok.
    apply (phrase_blocks _ _ _ _ r adapter t p); [done|by apply Hok|done].
  - intros Hlen. apply too_long_denied; lia.
  - intros rule. apply custom_rule_blocks.
  - intros p rule. apply plugin_rule_blocks.
Qed.

(** A classifier in shadow mode is only observed: the chain decides, for the same
    reason and through the same gate, as with the classifier off, whatever the external
    adapter answers. *)
Theorem shadow_mode_only_observes {A} `{!PolicyActions A} float_repr re_search float_div round4 r adapter t :
  cl_mode (classifier r) = "shadow" →
  core (evaluate (A := A) float_repr re_search float_div round4 (chain_of r adapter) t) =
  core (evaluate float_repr re_search float_div round4 (chain_of (with_mode r "off") adapter) t).
Proof. apply shadow_core. Qed.

(** When the external classifier fails, the routing gate decides as the heuristic
    gate would, unless no signal matched and the score of no signals already reaches
    the threshold: then the fallback treats the turn as high-risk and the heuristic gate
    does not. *)
Theorem external_fallback_decides {A} `{!PolicyActions A} float_repr float_div round4 c adapter input reason ms :
  call_adapter float_repr adapter input = (inr reason, ms) →
  classifier_enabled c = true →
  let outcome d := (λ d, (decision d, reason_code d)) <$> d in
  outcome (external_classifier_gate (A := A) float_repr float_div round4 c (Some adapter) input) =
  outcome (classifier_heuristic_gate float_repr float_div round4 c input) ↔
  ¬ (matched_signals c input = [] ∧ at_least (heuristic_score float_div round4 c input) (cl_threshold c) = true).
Proof.
  intros Hcall Hen outcome. unfold external_classifier_gate, classifier_heuristic_gate, route.
  rewrite Hcall, Hen. cbn [negb]. cbn [heuristic_result ro_score].
  assert (cl_mode c = "enforce" ∨ cl_mode c = "shadow") as Hmode.
  { unfold classifier_enabled in Hen. apply bool_decide_eq_true in Hen. set_solver. }
  destruct (at_least _ _) eqn:Ea; [|rewrite !andb_false_r; by split; [intros _ [_ ?]|]].
  destruct (decide (matched_signals c input = [])) as [Em|Em].
  - rewrite (bool_decide_true (matched_signals c input = [])) by done. cbn [andb negb].
    split; [|by intros []]. destruct Hmode as [->| ->].
    + rewrite (bool_decide_true ("enforce" = "enforce")) by done. intros H. exfalso.
      injection H as _ H. discriminate H.
    + rewrite (bool_decide_false ("shadow" = "enforce")), (bool_decide_true ("shadow" = "shadow")) by done.
      intros H. exfalso. injection H as H. discriminate H.
  - rewrite (bool_decide_false (matched_signals c input = [])) by done. cbn [andb negb].
    split; [by intros _ [? _]|intros _]. destruct Hmode as [->| ->].
    + by rewrite (bool_decide_true ("enforce" = "enforce")) by done.
    + by rewrite (bool_decide_false ("shadow" = "enforce")), (bool_decide_true ("shadow" = "shadow")) by done.
Qed.

(** *** An example *)

Inductive demo_action := DemoAllow | DemoDeny | DemoEscalate.

#[export] Instance demo_action_eq_dec : EqDecision demo_action.
Proof. solve_decision. Defined.

#[export] Instance demo_actions : PolicyActions demo_action := {|
  ALLOW := DemoAllow; DENY := DemoDeny; ESCALATE := DemoEscalate;
  action_value a := match a with DemoAllow => "allow" | DemoDeny => "deny" | DemoEscalate => "escalate" end;
  allow_not_deny := ltac:(discriminate);
  allow_not_escalate := ltac:(discriminate);
  deny_not_escalate := ltac:(discriminate);
|}.

Definition demo_div (n d : Z) : Q := QArith_base.Qdiv (inject_Z n) (inject_Z d).
Definition demo_search (pattern text : string) (ignore_case : bool) : bool := false.

Definition demo_turn (input : string) : IngressTurnContext :=
  mkTurn "t" "s" "c" "http" input "" [] "".

Definition failing_adapter : classifier_adapter := λ _ _, (ExternalRaises "TimeoutError" "slow", 7).

Lemma overlay_cannot_weaken_baseline_witness :
  let turn := demo_turn "Please JAILBREAK the model" in
  let verdict := decision (evaluate (A := demo_action) (λ _, "") demo_search demo_div id
                             (chain_of demo_resolution (Some failing_adapter)) turn) in
  verdict = DemoEscalate ∧ verdict ≠ ALLOW.
Proof.
  cbv zeta. split; [vm_compute; reflexivity|].
  destruct (overlay_cannot_weaken_baseline (A := demo_action) (λ _, "") demo_search demo_div id
    (λ _, true) (λ _, "ab") demo_overlay (Some failing_adapter) demo_resolution 8000 baseline_phrases
    (demo_turn "Please JAILBREAK the model")) as (H & _).
  - vm_compute. reflexivity.
  - vm_compute. reflexivity.
  - apply (H "jailbreak").
    + refine (bool_decide_unpack _ _). vm_compute. exact I.
    + vm_compute. reflexivity.
Defined.

Lemma shadow_mode_only_observes_witness :
  core (evaluate (A := demo_action) (λ _, "") demo_search demo_div id
          (chain_of demo_resolution None) (demo_turn "reveal secrets")) =
  core (evaluate (λ _, "") demo_search demo_div id
          (chain_of (with_mode demo_resolution "off") None) (demo_turn "reveal secrets")).
Proof. apply shadow_mode_only_observes. reflexivity. Defined.

(** A threshold of 0 in enforce mode: a turn without signals passes the heuristic gate,
    but is escalated when the external classifier times out. *)
Definition zero_threshold : IngressClassifierSettings :=
  mkClassifier "enforce" (inject_Z 0) "v1" ["jailbreak"] "security-review" "" 2000.

Lemma external_fallback_decides_witness :
  let outcome d := (λ d, (decision d, reason_code d)) <$> d in
  ¬ (outcome (external_classifier_gate (A := demo_action) (λ _, "") demo_div id zero_threshold
                (Some failing_adapter) "hello") =
     outcome (classifier_heuristic_gate (λ _, "") demo_div id zero_threshold "hello")).
Proof.
  intros outcome H.
  apply (external_fallback_decides (A := demo_action) (λ _, "") demo_div id zero_threshold failing_adapter
    "hello" "TimeoutError: slow" 7) in H; [|reflexivity|reflexivity].
  apply H. split; reflexivity.
Defined.
