(* ===== verification/IngressBudget.v ===== *)
(** * The latency budget of the ingress gates

    Models src/observability/ingress_budget.py.  Latencies are rationals (milliseconds).
    [asyncio.wait_for] gives the timeout a chance only when the coroutine it awaits hands
    control back to the event loop: a coroutine is its result with the times at which the
    loop gets control while it is still pending.  Parameters: float multiplication and
    division, [round(_, n)]. *)

From S2P Require Import Prelude PyValue IngressGates.

Definition default_ingress_profile : string := "baseline".

Definition normalize_profile_name (profile_name : string) : string :=
  py_or (py_lower (py_strip profile_name)) default_ingress_profile.

Record IngressBudgetConfig := mkBudgetConfig {
  latency_budget_ms : Z;
  bc_timeout_ms : Z;
  timeout_fail_mode : string;
}.

Definition normalized_fail_mode (c : IngressBudgetConfig) : string :=
  if py_lower (py_strip (timeout_fail_mode c)) =?s "fail_open" then "fail_open" else "fail_closed".

Record IngressBudgetObservation := mkObservation {
  latency_ms : Q;
  ob_budget_ms : Z;
  ob_timeout_ms : Z;
  ob_timeout_fail_mode : string;
  timed_out : bool;
  budget_exceeded : bool;
  ob_reason_code : string;
  ob_decision : string;
  ob_ingress_profile : string;
}.

(** The attributes [budget_config_from_policy_settings] reads. *)
Record PolicySettings := mkPolicySettings {
  ingress_latency_budget_ms : Z;
  ingress_timeout_ms : Z;
  ingress_timeout_fail_mode : string;
}.

Definition budget_config_from_policy_settings (s : PolicySettings) : IngressBudgetConfig :=
  mkBudgetConfig (Z.max (ingress_latency_budget_ms s) 1) (Z.max (ingress_timeout_ms s) 1)
    (py_or (py_lower (py_strip (ingress_timeout_fail_mode s))) "fail_closed").

(** A coroutine: its result, and when the event loop runs while it is pending. *)
Record coroutine (A : Type) := mkCoroutine { co_result : A; co_pending_at : list Q }.
Arguments mkCoroutine {A}.
Arguments co_result {A}.
Arguments co_pending_at {A}.

(** [asyncio.wait_for(co, timeout)]: None is [asyncio.TimeoutError]. *)
Definition wait_for {A} (co : coroutine A) (timeout_ms : Z) : option A :=
  if existsb (λ t, QArith_base.Qle_bool (inject_Z timeout_ms) t) (co_pending_at co) then None
  else Some (co_result co).

Section budget.
Context {A : Type} `{!PolicyActions A}.
Variable float_mul float_div : Q → Q → Q.
Variable round3 round6 : Q → Q.

Definition observation_payload (o : IngressBudgetObservation) : pydict :=
  [("latency_ms", PFloat (round3 (latency_ms o))); ("budget_ms", PInt (ob_budget_ms o));
   ("timeout_ms", PInt (ob_timeout_ms o)); ("timeout_fail_mode", PStr (ob_timeout_fail_mode o));
   ("timed_out", PBool (timed_out o)); ("budget_exceeded", PBool (budget_exceeded o));
   ("reason_code", PStr (ob_reason_code o)); ("decision", PStr (ob_decision o));
   ("ingress_profile", PStr (normalize_profile_name (ob_ingress_profile o)))].

(** [percentile]; [int(len(ordered) * ratio)] truncates. *)
Definition Qord (p q : Q) : Prop := QArith_base.Qle p q.

#[export] Instance Qord_dec : RelDecision Qord.
Proof. intros p q. unfold Qord. destruct (QArith_base.Qlt_le_dec q p) as [H|H]; [right|by left].
  by apply QArith_base.Qlt_not_le. Defined.

Definition clamp (r : Q) : Q :=
  let r := if QArith_base.Qle_bool (inject_Z 0) r then r else inject_Z 0 in
  if QArith_base.Qle_bool r (inject_Z 1) then r else inject_Z 1.

Definition percentile (values : list Q) (ratio : Q) : Q :=
  match values with
  | [] => inject_Z 0
  | _ =>
      let ordered := sort_by Qord values in
      let x := float_mul (inject_Z (Z.of_nat (length ordered))) (clamp ratio) in
      let index := Z.max (Z.quot (Qnum x) (Zpos (Qden x)) - 1) 0 in
      nth (Z.to_nat index) ordered (inject_Z 0)
  end.

(** The double closest to 0.95. *)
Definition double_095 : Q := QArith_base.Qmake 4278419646001971 4503599627370496.

Definition summary_payload (samples : list IngressBudgetObservation) : pydict :=
  match samples with
  | [] =>
      [("samples", PInt 0); ("p95_latency_ms", PFloat (inject_Z 0)); ("timeout_total", PInt 0);
       ("timeout_rate", PFloat (inject_Z 0)); ("budget_exceeded_total", PInt 0)]
  | _ =>
      let timeout_total := count_if timed_out samples in
      [("samples", PInt (Z.of_nat (length samples)));
       ("p95_latency_ms", PFloat (round3 (percentile (latency_ms <$> samples) double_095)));
       ("timeout_total", PInt timeout_total);
       ("timeout_rate", PFloat (round6 (float_div (inject_Z timeout_total)
                                          (inject_Z (Z.of_nat (length samples))))));
       ("budget_exceeded_total", PInt (count_if budget_exceeded samples))]
  end.

(** ** IngressBudgetRecorder: the samples of each tenant *)

Notation recorder := (list (string * list IngressBudgetObservation)).

Definition observe (r : recorder) (tenant_id : string) (o : IngressBudgetObservation) : recorder :=
  od_set tenant_id (od_get_default [] tenant_id r ++ [o]) r.

Definition profile_of (o : IngressBudgetObservation) : string :=
  normalize_profile_name (ob_ingress_profile o).

(** The names of the profiles in order, each with its samples. *)
Definition profile_samples (samples : list IngressBudgetObservation)
    : list (string * list IngressBudgetObservation) :=
  (λ p, (p, filter (λ o, profile_of o = p) samples))
    <$> sorted_strings (remove_dups (profile_of <$> samples)).

Definition summary (r : recorder) (tenant_id : string) : pydict :=
  let samples := od_get_default [] tenant_id r in
  summary_payload samples ++
  [("profiles", PDict ((λ p, (p.1, PDict (summary_payload p.2))) <$> profile_samples samples))].

(** ** The evaluation *)

Definition timeout_decision (fail_mode : string) : IngressDecision (A := A) :=
  if py_lower (py_strip fail_mode) =?s "fail_open" then
    plain ALLOW "INGRESS_GATE_TIMEOUT_FAIL_OPEN"
      "Ingress gate evaluation timed out and fail-open mode allowed this turn."
      "ingress-budget-controller" false ""
  else
    plain DENY "INGRESS_GATE_TIMEOUT_FAIL_CLOSED"
      "Ingress gate evaluation timed out and fail-closed mode denied this turn."
      "ingress-budget-controller" false "".

(** [elapsed] is what [perf_counter] measures around the evaluation. *)
Definition evaluate_with_budget (co : coroutine (IngressDecision (A := A)))
    (config : IngressBudgetConfig) (profile_name : string) (elapsed : Q)
    : IngressDecision (A := A) * IngressBudgetObservation :=
  let timeout_ms := Z.max (bc_timeout_ms config) 1 in
  let budget_ms := Z.max (latency_budget_ms config) 1 in
  let fail_mode := normalized_fail_mode config in
  let outcome := wait_for co timeout_ms in
  let d := match outcome with Some d => d | None => timeout_decision fail_mode end in
  (d, mkObservation elapsed budget_ms timeout_ms fail_mode
        (match outcome with Some _ => false | None => true end)
        (negb (QArith_base.Qle_bool elapsed (inject_Z budget_ms)))
        (reason_code d) (action_value (decision d)) (normalize_profile_name profile_name)).

(** A turn is let through only by its own gates, or by a timeout under a configuration
    that says fail_open: with any other fail mode a timeout denies it.  The recorded
    observation says whether it timed out and carries the decision that was taken. *)
Theorem budget_is_fail_safe co config profile elapsed :
  let r := evaluate_with_budget co config profile elapsed in
  (timed_out r.2 = false → r.1 = co_result co) ∧
  (timed_out r.2 = true →
     decision r.1 = (if decide (normalized_fail_mode config = "fail_open") then ALLOW else DENY)) ∧
  (timed_out r.2 = true ↔
     ∃ t, t ∈ co_pending_at co ∧ QArith_base.Qle (inject_Z (Z.max (bc_timeout_ms config) 1)) t) ∧
  ob_reason_code r.2 = reason_code r.1 ∧ ob_decision r.2 = action_value (decision r.1) ∧
  (budget_exceeded r.2 = true ↔ ¬ QArith_base.Qle elapsed (inject_Z (Z.max (latency_budget_ms config) 1))).
Proof.
  cbn. unfold wait_for. set (late := λ t, QArith_base.Qle_bool _ t).
  assert (existsb late (co_pending_at co) = true ↔
    ∃ t, t ∈ co_pending_at co ∧ QArith_base.Qle (inject_Z (Z.max (bc_timeout_ms config) 1)) t) as Hl.
  { rewrite existsb_exists. split; intros (t & Hin & Ht); exists t; split.
    - by apply list_elem_of_In.
    - by apply QArith_base.Qle_bool_iff.
    - by apply list_elem_of_In.
    - by apply QArith_base.Qle_bool_iff. }
  assert (negb (QArith_base.Qle_bool elapsed (inject_Z (Z.max (latency_budget_ms config) 1))) = true ↔
    ¬ QArith_base.Qle elapsed (inject_Z (Z.max (latency_budget_ms config) 1))) as Hb.
  { rewrite negb_true_iff, <- not_true_iff_false. by rewrite QArith_base.Qle_bool_iff. }
  destruct (existsb late (co_pending_at co)).
  - split; [done|]. split; [|split; [|done]].
    + intros _. unfold timeout_decision, normalized_fail_mode.
      destruct (py_lower (py_strip (timeout_fail_mode config)) =?s "fail_open"); vm_compute; done.
    + by rewrite <- Hl.
  - split; [done|]. split; [done|]. split; [by rewrite <- Hl|done].
Qed.

(** A coroutine that never suspends is not timed out, however long it takes. *)
Lemma synchronous_never_times_out d config profile elapsed :
  evaluate_with_budget (mkCoroutine d []) config profile elapsed =
  (d, mkObservation elapsed (Z.max (latency_budget_ms config) 1) (Z.max (bc_timeout_ms config) 1)
        (normalized_fail_mode config) false
        (negb (QArith_base.Qle_bool elapsed (inject_Z (Z.max (latency_budget_ms config) 1))))
        (reason_code d) (action_value (decision d)) (normalize_profile_name profile)).
Proof. done. Qed.

Lemma filter_by_key {B K} `{EqDecision K} (f : B → K) (keys : list K) (l : list B) :
  NoDup keys → (∀ x, x ∈ l → f x ∈ keys) →
  mjoin ((λ k, filter (λ x, f x = k) l) <$> keys) ≡ₚ l.
Proof.
  revert l. induction keys as [|k keys IH]; intros l Hnd Hall.
  { destruct l as [|x l]; [done|]. exfalso.
    apply (not_elem_of_nil (f x)), Hall. by apply list_elem_of_here. }
  apply NoDup_cons in Hnd as [Hni Hnd]. cbn [fmap list_fmap mjoin list_join].
  transitivity (filter (λ x, f x = k) l ++ filter (λ x, f x ≠ k) l); [|apply filter_app_complement].
  f_equiv.
  assert ((λ k', filter (λ x, f x = k') l) <$> keys
    = (λ k', filter (λ x, f x = k') (filter (λ x, f x ≠ k) l)) <$> keys) as ->.
  { apply list_fmap_ext. intros i k' Hk'.
    apply list_elem_of_lookup_2 in Hk'. rewrite list_filter_filter. apply list_filter_iff.
    intros x. split; [|tauto]. intros Heq. split; [done|]. intros Hk. apply Hni. congruence. }
  apply IH; [done|]. intros x Hx. apply list_elem_of_filter in Hx as [Hne Hx].
  apply Hall in Hx. set_solver.
Qed.

(** The recorder keeps tenants apart: a sample changes only its own tenant's summary, the
    profiles of a summary split the tenant's samples, and each profile's samples are those
    recorded under its name. *)
Theorem recorder_splits_samples r tenant other o :
  (other ≠ tenant → summary (observe r tenant o) other = summary r other) ∧
  od_get_default [] tenant (observe r tenant o) = od_get_default [] tenant r ++ [o] ∧
  let samples := od_get_default [] tenant r in
  NoDup (profile_samples samples).*1 ∧
  mjoin (profile_samples samples).*2 ≡ₚ samples ∧
  Forall (λ p, Forall (λ o, profile_of o = p.1) p.2) (profile_samples samples).
Proof.
  split; [|split].
  - intros Hne. unfold summary, observe, od_get_default. by rewrite od_get_set_ne.
  - unfold observe, od_get_default. by rewrite od_get_set.
  - cbn. set (samples := od_get_default [] tenant r). unfold profile_samples.
    set (names := sorted_strings _).
    assert (NoDup names) as Hnd.
    { unfold names, sorted_strings. rewrite (sort_by_perm String.le). apply NoDup_remove_dups. }
    rewrite <- !list_fmap_compose. split; [|split].
    + change (NoDup ((λ p, p) <$> names)). by rewrite list_fmap_id.
    + apply (filter_by_key profile_of); [done|]. intros x Hx. unfold names, sorted_strings.
      apply elem_of_sort_by, elem_of_remove_dups. by apply list_elem_of_fmap_2.
    + apply Forall_fmap, Forall_forall. intros p _. cbn. apply Forall_forall. intros x Hx.
      by apply list_elem_of_filter in Hx as [? _].
Qed.
End budget.
