(* ===== verification/TurnGateway.v ===== *)
(** * The turn gateway

    Models src/api/routers/turns.py, the routes a turn enters by: server-sent events, the
    WebSocket, and the generator the OpenAI-compatible gateway reads; and cancel_runtime_run
    of src/api/routers/runtime_control.py.  A turn is admitted by entitlement, ingress gates
    under their budget, rate limit and concurrency limit, in this order ([admit_turn]); an admitted
    turn is a run of the registry until its stream ends.  What else happens to the registry
    while a stream is open is part of the stream ([happening]): the adapter's events and
    the operations of other requests, in the order they occur.  Parameters: the time, the
    host adapter's events, and the [request_cancellation] of the executor's adapter. *)

From S2P Require Import Prelude PyValue Tenancy Identity Entitlements Authentication RunControl.
From S2P Require Import TenantRuntime.
From S2P Require Import ToolIO IngressProfiles IngressGates IngressBudget.

(** ** Runtime events as dictionaries *)

(** [RuntimeEventType]: the members the gateway tells apart, and the value of any other. *)
Inductive event_type :=
| OUTPUT_DELTA | TOOL_INTENT | TOOL_PROGRESS | RUN_COMPLETE | ERROR_EVENT | OtherEvent (value : string).

(** What the gateway reads of an event besides [RuntimeEvents]. *)
Class EventTypes `{RuntimeEvents} := {
  ev_type : RuntimeEvent → event_type;
  ev_type_intent e : is_tool_intent e = true ↔ ev_type e = TOOL_INTENT;
}.

Section turns.
Context `{!ToolIO} `{!RuntimeEvents} `{!EventTypes} {L : Type} `{!FixedWindow L}.
Context {Handler Adapter : Type}.
Variable float_repr : Q → string.
Variable re_search : string → string → bool → bool.
Variable re_compiles : string → bool.
Variable sha256_hex : string → string.
Variable float_div : Z → Z → Q.
Variable round4 round3 : Q → Q.

Notation Decision := (IngressDecision (A := PolicyAction)).
Notation factory := (TenantRuntime.t (Handler := Handler) (Adapter := Adapter)).

Definition runtime_event_to_dict (e : RuntimeEvent) : pydict :=
  let correlation := ("correlation_id", PStr (ev_correlation_id e)) in
  let p := ev_payload e in
  let text key := (key, PStr (dict_get_str float_repr p key "")) in
  match ev_type e with
  | OUTPUT_DELTA =>
      [("event", PStr "output_delta"); ("delta", dict_get p "text" (PStr "")); correlation]
  | TOOL_INTENT =>
      match ev_tool_call e with
      | Some call =>
          [("event", PStr "tool_call"); ("call_id", PStr (tc_call_id call));
           ("tool_name", PStr (tc_tool_name call)); ("arguments", tc_arguments call); correlation]
      | None =>
          [("event", PStr "tool_call"); ("call_id", PStr ""); ("tool_name", PStr "");
           ("arguments", PDict []); correlation]
      end
  | TOOL_PROGRESS =>
      ("event", PStr "tool_progress") ::
      (text <$> ["call_id"; "tool_name"; "state"; "tool_status"; "error_code"; "job_id";
                 "lease_token"; "lease_expires_at_epoch"; "claim_attempt"]) ++ [correlation]
  | RUN_COMPLETE =>
      [("event", PStr "run_complete"); ("run_id", PStr (ev_run_id e)); ("output", PDict p); correlation]
  | ERROR_EVENT =>
      [("event", PStr "error"); ("code", dict_get p "code" (PStr "UNKNOWN_ERROR"));
       ("message", dict_get p "message" (PStr "")); correlation]
  | OtherEvent value => [("event", PStr value); ("payload", PDict p); correlation]
  end.

Definition error_dict (code message correlation_id : string) : pydict :=
  [("event", PStr "error"); ("code", PStr code); ("message", PStr message);
   ("correlation_id", PStr correlation_id)].

(** [_stream_turn]: the events of the host adapter, None when the session is unknown, and the
    exception that ends them, if one does. *)
Definition stream_turn (session_id correlation_id : string)
    (host : option (list RuntimeEvent * option string)) : list pydict :=
  match host with
  | None =>
      [error_dict "SESSION_NOT_FOUND" ("Session '" +:+ session_id +:+ "' not found") correlation_id]
  | Some (events, failure) =>
      (runtime_event_to_dict <$> events) ++
      match failure with
      | Some message => [error_dict "TURN_EXECUTION_ERROR" message correlation_id]
      | None => []
      end
  end.

(** ** Admission *)

Record limits := mkLimits {
  policy_settings : PolicySettings;
  max_active_runs_per_tenant : Z;
}.

(** The state of the application that a turn changes. *)
Record gateway := mkGateway {
  registry : RunControlRegistry.t;
  turn_rate_limiter : option L;
  budget_recorder : option (list (string * list IngressBudgetObservation));
  audit_enabled : bool;
}.

Definition with_registry (g : gateway) (r : RunControlRegistry.t) : gateway :=
  mkGateway r (turn_rate_limiter g) (budget_recorder g) (audit_enabled g).

(** Why a turn is refused. *)
Inductive rejection :=
| NotEntitled (d : EntitlementDecision PolicyAction)
| IngressRefused (d : Decision)
| RateLimited (retry_after_seconds : Z)
| ConcurrencyLimited.

Definition ingress_config_invalid_decision (message : string) : Decision :=
  plain DENY "INGRESS_PROFILE_CONFIG_INVALID" message "ingress-profile-config" false "".

(** The turn that asks to be admitted. *)
Record turn := mkTurnRequest {
  tn_tenant_id : string;
  tn_session_id : string;
  tn_correlation_id : string;
  tn_transport : string;
  tn_user_input : string;
  tn_identity : IdentityContext;
}.

Definition audit (g : gateway) (t : turn) (event_type : string) (payload : pydict)
    : list audit_event :=
  emit (audit_enabled g) (tn_correlation_id t) (tn_tenant_id t) event_type payload.

(** [_evaluate_governance_entitlement] *)
Definition governance_entitlement (t : turn) (overlay : pydict) : EntitlementDecision PolicyAction :=
  evaluate_feature_entitlement (tn_identity t)
    (required_feature_for_governance_overlay float_repr overlay).

Definition entitlement_audit (g : gateway) (t : turn) (d : EntitlementDecision PolicyAction)
    : list audit_event :=
  emit_entitlement_decision_event (audit_enabled g) (tn_correlation_id t) (tn_tenant_id t)
    "turn_ingress" (tn_transport t +:+ "_turn_entry") d
    [("session_id", PStr (tn_session_id t)); ("transport", PStr (tn_transport t))].

Definition input_fields (t : turn) : pydict :=
  [("session_id", PStr (tn_session_id t)); ("transport", PStr (tn_transport t));
   ("input_chars", PInt (py_len (tn_user_input t)))].

(** The audit event of a profile that does not resolve. *)
Definition invalid_config_audit (g : gateway) (t : turn) (d : Decision) : list audit_event :=
  audit g t "turn_ingress_decision"
    (dict_update
       (input_fields t ++
        [("ingress_profile", PStr "invalid"); ("ingress_custom_rule_count", PInt 0);
         ("ingress_custom_rule_ids", PList []); ("ingress_profile_compatibility_mode", PStr "strict");
         ("ingress_classifier_mode", PStr "off"); ("ingress_classifier_threshold", PFloat (inject_Z 0));
         ("ingress_classifier_model_version", PStr ""); ("ingress_classifier_signal_count", PInt 0);
         ("signed_gate_plugin_ref", PStr ""); ("signed_gate_plugin_version", PStr "");
         ("signed_gate_plugin_signer", PStr ""); ("signed_gate_plugin_sandbox_mode", PStr "");
         ("signed_gate_plugin_rule_count", PInt 0)])
       (to_payload d)).

Definition ingress_turn_context (t : turn) : IngressTurnContext :=
  mkTurn (tn_tenant_id t) (tn_session_id t) (tn_correlation_id t) (tn_transport t)
    (tn_user_input t) (id_subject (tn_identity t)) (id_roles (tn_identity t))
    (id_tenant_id (tn_identity t)).

(** [_evaluate_ingress_turn].  The coroutine it awaits evaluates the chain without ever
    handing control back to the event loop. *)
Definition evaluate_ingress_turn (g : gateway) (c : limits) (chain : IngressGateChain) (t : turn)
    (elapsed : Q) : Decision * gateway * list audit_event :=
  let metadata := policy_metadata chain in
  let profile :=
    py_or (py_lower (py_strip (dict_get_str float_repr metadata "ingress_profile"
                                 default_ingress_profile))) default_ingress_profile in
  let co := mkCoroutine (evaluate float_repr re_search float_div round4 chain
                           (ingress_turn_context t)) [] in
  let '(d, observation) :=
    evaluate_with_budget co (budget_config_from_policy_settings (policy_settings c)) profile elapsed in
  let recorder := (λ r, observe r (tn_tenant_id t) observation) <$> budget_recorder g in
  let payload with_observation :=
    dict_update
      (dict_update (dict_update (input_fields t) metadata)
         (if with_observation : bool then observation_payload round3 observation else []))
      (to_payload d) in
  (d, mkGateway (registry g) (turn_rate_limiter g) recorder (audit_enabled g),
   audit g t "turn_ingress_decision" (payload true) ++
   (if py_bool (cf_mode (classifier_of d))
    then audit g t "turn_ingress_classifier_telemetry" (payload false) else []) ++
   (if py_bool (pf_ref (plugin_of d))
    then audit g t "turn_ingress_signed_plugin_telemetry" (payload false) else []) ++
   (if budget_exceeded observation || timed_out observation
    then audit g t "turn_ingress_budget_alert" (payload true) else [])).

(** The checks every route makes before it starts the run [run_id], in their order. *)
Definition check_limits (g : gateway) (c : limits) (t : turn) (now : Z)
    : option rejection * gateway * list audit_event :=
  let '(rate, g) :=
    match turn_rate_limiter g with
    | None => (None, g)
    | Some limiter =>
        let '((allowed, retry_after), limiter) := fw_allow limiter now (tn_tenant_id t) in
        (if allowed then None else Some retry_after,
         mkGateway (registry g) (Some limiter) (budget_recorder g) (audit_enabled g))
    end in
  match rate with
  | Some retry_after =>
      (Some (RateLimited retry_after), g,
       audit g t "turn_rejected_rate_limit"
         [("runtime_id", PStr (tn_transport t)); ("session_id", PStr (tn_session_id t));
          ("retry_after_seconds", PInt retry_after)])
  | None =>
      let max_active_runs := Z.max (max_active_runs_per_tenant c) 0 in
      if (0 <? max_active_runs) &&
         (max_active_runs <=? RunControlRegistry.count_active_runs (registry g) (tn_tenant_id t))
      then
        (Some ConcurrencyLimited, g,
         audit g t "turn_rejected_concurrency_limit"
           [("runtime_id", PStr (tn_transport t)); ("session_id", PStr (tn_session_id t))])
      else (None, g, [])
  end.

Definition admit_turn (g : gateway) (c : limits) (overlay : pydict) (t : turn) (now : Z) (elapsed : Q)
    (started1 started2 run_id : string)
    : (Decision + rejection) * gateway * list audit_event :=
  let entitlement := governance_entitlement t overlay in
  let entitled := entitlement_audit g t entitlement in
  if negb (bool_decide (ed_decision entitlement = ALLOW)) then
    (inr (NotEntitled entitlement), g, entitled)
  else
    match build_ingress_gate_chain_from_overlay float_repr re_compiles sha256_hex overlay None with
    | Raise e =>
        let d := ingress_config_invalid_decision (exn_message e) in
        (inr (IngressRefused d), g, entitled ++ invalid_config_audit g t d)
    | Ok chain =>
        let '(d, g, ingress) := evaluate_ingress_turn g c chain t elapsed in
        if negb (bool_decide (decision d = ALLOW)) then
          (inr (IngressRefused d), g, entitled ++ ingress)
        else
          let '(refused, g, limited) := check_limits g c t now in
          match refused with
          | Some r => (inr r, g, entitled ++ ingress ++ limited)
          | None =>
              (inl d,
               with_registry g
                 (RunControlRegistry.start_run (registry g) started1 started2 (tn_tenant_id t)
                    (tn_session_id t) run_id (tn_correlation_id t) (tn_transport t)).2,
               entitled ++ ingress)
          end
    end.

(** *** How a refusal is told *)

Definition entitlement_error_event (d : EntitlementDecision PolicyAction) (correlation_id : string)
    : pydict :=
  [("event", PStr "error"); ("code", PStr (ed_reason_code d)); ("message", PStr (ed_message d));
   ("correlation_id", PStr correlation_id); ("feature", PStr (feature_value (ed_feature d)));
   ("required_tier", PStr (tier_value (ed_required_tier d)));
   ("current_tier", PStr (tier_value (ed_current_tier d)))].

Definition ingress_error_event (d : Decision) (correlation_id : string) : pydict :=
  [("event", PStr "error"); ("code", PStr (reason_code d)); ("message", PStr (message d));
   ("correlation_id", PStr correlation_id); ("review_required", PBool (review_required d));
   ("review_channel", PStr (review_channel d))].

(** The HTTP routes. *)
Definition http_of_rejection {B} (r : rejection) : http B :=
  match r with
  | NotEntitled d => HTTPException 403 (ed_reason_code d +:+ ": " +:+ ed_message d)
  | IngressRefused d => HTTPException 403 (reason_code d +:+ ": " +:+ message d)
  | RateLimited retry =>
      HTTPException 429
        ("TENANT_TURN_RATE_LIMIT_EXCEEDED: too many turn requests in the current window (retry_after_seconds="
         +:+ str_of_Z retry +:+ ")")
  | ConcurrencyLimited =>
      HTTPException 429 "TENANT_CONCURRENCY_LIMIT_EXCEEDED: too many active runs for this tenant"
  end.

(** The WebSocket. *)
Definition event_of_rejection (r : rejection) (correlation_id : string) : pydict :=
  match r with
  | NotEntitled d => entitlement_error_event d correlation_id
  | IngressRefused d => ingress_error_event d correlation_id
  | RateLimited retry =>
      [("event", PStr "error"); ("code", PStr "TENANT_TURN_RATE_LIMIT_EXCEEDED");
       ("message", PStr "Too many turn requests in the current window.");
       ("retry_after_seconds", PInt retry)]
  | ConcurrencyLimited =>
      [("event", PStr "error"); ("code", PStr "TENANT_CONCURRENCY_LIMIT_EXCEEDED");
       ("message", PStr "Too many active runs for this tenant.")]
  end.

(** ** A stream *)

(** An event of the adapter that arrives at time [now], or what another request does to the
    registry meanwhile. *)
Inductive happening :=
| Event (now : string) (d : pydict)
| Other (f : RunControlRegistry.t → RunControlRegistry.t).

(** The run of the stream. *)
Record run_ref := mkRunRef { rr_tenant_id : string; rr_run_id : string; rr_correlation_id : string }.

(** The local variables of a stream, with the registry it works on. *)
Record stream := mkStream {
  st_registry : RunControlRegistry.t;
  seen_call_id_to_tool_name : list (string * string);
  terminal_event_seen : bool;
  terminal_status : string;
  terminal_event : string;
  terminal_message : string;
}.

Definition open_stream (r : RunControlRegistry.t) : stream := mkStream r [] false "" "" "".

Definition on_registry (st : stream) (r : RunControlRegistry.t) : stream :=
  mkStream r (seen_call_id_to_tool_name st) (terminal_event_seen st) (terminal_status st)
    (terminal_event st) (terminal_message st).

Definition event_name (d : pydict) : string :=
  match dict_get d "event" PNone with PStr s => s | _ => "" end.

Definition str_field (d : pydict) (key : string) : string := dict_get_str float_repr d key "".

(** Recording a tool call the event mentions. *)
Definition track_call (run : run_ref) (now : string) (d : pydict) (st : stream) : stream :=
  if bool_decide (event_name d ∈ ["tool_call"; "tool_progress"]) then
    let call_id := py_strip (str_field d "call_id") in
    if py_bool call_id then
      mkStream
        (RunControlRegistry.record_tool_call (st_registry st) now (rr_tenant_id run) (rr_run_id run)
           call_id).2
        (od_set call_id (str_field d "tool_name") (seen_call_id_to_tool_name st))
        (terminal_event_seen st) (terminal_status st) (terminal_event st) (terminal_message st)
    else st
  else st.

(** Remembering a terminal event. *)
Definition note_terminal (d : pydict) (st : stream) : stream :=
  let set status event message :=
    mkStream (st_registry st) (seen_call_id_to_tool_name st) true status event message in
  if event_name d =?s "run_complete" then set "completed" "run_complete" (terminal_message st)
  else if event_name d =?s "error" then set "errored" "error" (str_field d "message")
  else st.

Definition cancel_requested (r : RunControlRegistry.t) (run : run_ref) : bool :=
  let record := default [] (RunControlRegistry.get_run r (rr_tenant_id run) (rr_run_id run)) in
  truthy (dict_get record "cancel_requested" (PBool false)).

(** [_build_cancelled_progress_events] *)
Definition build_cancelled_progress_events (calls : list (string * string)) (correlation_id : string)
    : list pydict :=
  (λ call_id,
    [("event", PStr "tool_progress"); ("call_id", PStr call_id);
     ("tool_name", PStr (od_get_default "" call_id calls)); ("state", PStr "cancelled");
     ("tool_status", PStr "cancelled"); ("error_code", PStr "CANCEL_REQUESTED"); ("job_id", PStr "");
     ("lease_token", PStr ""); ("lease_expires_at_epoch", PStr ""); ("claim_attempt", PStr "");
     ("correlation_id", PStr correlation_id)])
    <$> sorted_strings (filter (λ s, s ≠ "") (py_strip <$> od_keys calls)).

(** The loop of [event_generator] for the happenings until the generator is closed or the
    adapter ends: what it yields and the stream after it. *)
Fixpoint sse_loop (run : run_ref) (st : stream) (hs : list happening) : list pydict * stream :=
  match hs with
  | [] => ([], st)
  | Other f :: hs => sse_loop run (on_registry st (f (st_registry st))) hs
  | Event now d :: hs =>
      let st := track_call run now d st in
      if cancel_requested (st_registry st) run
         && negb (bool_decide (seen_call_id_to_tool_name st = []))
      then (build_cancelled_progress_events (seen_call_id_to_tool_name st) (rr_correlation_id run), st)
      else
        let '(yields, st) := sse_loop run (note_terminal d st) hs in
        (d :: yields, st)
  end.

(** The loop of [iter_governed_turn_dicts_for_transport]. *)
Fixpoint governed_loop (run : run_ref) (st : stream) (hs : list happening) : list pydict * stream :=
  match hs with
  | [] => ([], st)
  | Other f :: hs => governed_loop run (on_registry st (f (st_registry st))) hs
  | Event now d :: hs =>
      let '(yields, st) := governed_loop run (note_terminal d (track_call run now d st)) hs in
      (d :: yields, st)
  end.

(** The adapter's [request_cancellation]: whether it accepts. *)
Variable request_cancellation : string → bool.

(** [_forward_runtime_cancellations]: the calls asked to be cancelled and how many were
    accepted. *)
Definition forward_runtime_cancellations (has_adapter : bool) (calls : list (string * string))
    (terminal_event_seen : bool) : list string * Z :=
  if negb has_adapter || terminal_event_seen then ([], 0)
  else
    let ids := sorted_strings (od_keys calls) in
    (ids, count_if request_cancellation ids).

(** The [finally] of the stream: the calls it asked to cancel and the registry. *)
Definition close_stream (has_adapter : bool) (reason : string) (run : run_ref) (now1 now2 : string)
    (st : stream) : list string * RunControlRegistry.t :=
  let '(asked, forwarded) :=
    forward_runtime_cancellations has_adapter (seen_call_id_to_tool_name st) (terminal_event_seen st) in
  let requested := cancel_requested (st_registry st) run in
  let r :=
    if 0 <? forwarded
    then (RunControlRegistry.request_cancel (st_registry st) now1 (rr_tenant_id run) (rr_run_id run)
            reason).2
    else st_registry st in
  let mark status event message :=
    (RunControlRegistry.mark_terminal r now2 (rr_tenant_id run) (rr_run_id run) status event message).2 in
  (asked,
   if terminal_event_seen st then
     mark (py_or (terminal_status st) "completed") (py_or (terminal_event st) "run_complete")
       (terminal_message st)
   else if requested then mark "cancelled" "cancel_requested_stream_closed" ""
   else if 0 <? forwarded then mark "cancelled" "cancel_forwarded" ""
   else mark "interrupted" "stream_closed" "").

(** [event_generator], once its first item has been asked for. *)
Definition sse_stream (has_adapter : bool) (run : run_ref) (now1 now2 : string)
    (r : RunControlRegistry.t) (hs : list happening)
    : list pydict * list string * RunControlRegistry.t :=
  let '(yields, st) := sse_loop run (open_stream r) hs in
  let '(asked, r) :=
    close_stream has_adapter "sse_stream_ended_before_terminal_event" run now1 now2 st in
  (yields, asked, r).

Definition governed_stream (has_adapter : bool) (transport : string) (run : run_ref)
    (now1 now2 : string) (r : RunControlRegistry.t) (hs : list happening)
    : list pydict * list string * RunControlRegistry.t :=
  let '(yields, st) := governed_loop run (open_stream r) hs in
  let '(asked, r) :=
    close_stream has_adapter (transport +:+ "_stream_ended_before_terminal_event") run now1 now2 st in
  (yields, asked, r).

(** [submit_turn_sse] up to the stream it answers with: the run is in the registry before the
    generator has started.  The session is looked up by its id alone; [fresh] is the identifier
    drawn when the body has none. *)
Definition submit_turn_sse (rc : RuntimeSettings) (f : factory) (g : gateway) (c : limits)
    (overlay : pydict) (tenant_id session_id input body_correlation_id fresh : string)
    (identity : IdentityContext) (m1 m2 now : Z) (elapsed : Q) (started1 started2 : string)
    : http (Decision * run_ref) * factory * gateway * list audit_event :=
  match get_session_runtime rc f m1 m2 session_id with
  | (Raise _, f) => (HTTPException 404 ("Session '" +:+ session_id +:+ "' not found"), f, g, [])
  | (Ok _, f) =>
      let correlation_id := py_or body_correlation_id fresh in
      let t := mkTurnRequest tenant_id session_id correlation_id "sse" input identity in
      let '(outcome, g, audits) := admit_turn g c overlay t now elapsed started1 started2 correlation_id in
      (match outcome with
       | inl d => Reply (d, mkRunRef tenant_id correlation_id correlation_id)
       | inr r => http_of_rejection r
       end, f, g, audits)
  end.

(** The runtime [_stream_turn] sends the turn to. *)
Definition stream_host (rc : RuntimeSettings) (f : factory) (m1 m2 : Z) (session_id : string)
    : option (HostAdapter (Adapter := Adapter)) :=
  match (get_session_runtime rc f m1 m2 session_id).1 with
  | Ok h => Some h
  | Raise _ => None
  end.

(** [cancel_runtime_run] of runtime_control.py: the calls asked to be cancelled, whether the
    run is known, and the registry. *)
Definition cancel_runtime_run (r : RunControlRegistry.t) (now1 now2 tenant_id run_id : string)
    : bool * list string * RunControlRegistry.t :=
  let '(accepted, r) :=
    RunControlRegistry.request_cancel r now1 tenant_id run_id "admin_runtime_cancel_endpoint" in
  let call_ids := RunControlRegistry.call_ids_for_run r tenant_id run_id in
  let forwarded := count_if request_cancellation call_ids in
  (accepted, call_ids,
   if accepted && (0 <? forwarded)
   then (RunControlRegistry.mark_terminal r now2 tenant_id run_id "cancelled"
           "admin_cancel_forwarded" "").2
   else r).
End turns.
