(* ===== verification/TurnGatewayFacts.v ===== *)
(** * Theorems about the turn gateway

    The theorems about TurnGateway.v: what admission checks and in which order, that a
    stream's run settles, the bound on active runs with the two ways round it, and that the
    session a turn goes to is not checked against its tenant. *)

From S2P Require Import Prelude PyValue Tenancy Identity Entitlements Authentication RunControl.
From S2P Require Import RunActivity Sample TenantRuntime TenantRuntimeFacts.
From S2P Require Import ToolIO IngressProfiles IngressGates IngressBudget TurnGateway.

Section facts.
Context `{!ToolIO} `{!RuntimeEvents} `{!EventTypes} {L : Type} `{!FixedWindow L}.
Context {Handler Adapter : Type}.
Variable float_repr : Q → string.
Variable re_search : string → string → bool → bool.
Variable re_compiles : string → bool.
Variable sha256_hex : string → string.
Variable float_div : Z → Z → Q.
Variable round4 round3 : Q → Q.
Variable request_cancellation : string → bool.

Notation admit_turn := (admit_turn (L := L) float_repr re_search re_compiles sha256_hex float_div round4 round3).
Notation evaluate_ingress_turn :=
  (evaluate_ingress_turn (L := L) float_repr re_search float_div round4 round3).
Notation governance_entitlement := (governance_entitlement float_repr).
Notation chain_for overlay :=
  (build_ingress_gate_chain_from_overlay float_repr re_compiles sha256_hex overlay None).
Notation gate_decision chain t :=
  (evaluate float_repr re_search float_div round4 chain (ingress_turn_context t)).
Notation gateway := (gateway (L := L)).
Implicit Types (g : gateway) (c : limits) (t : turn).

(** ** Admission *)

Lemma ingress_turn_decision g c chain t elapsed :
  let '(d, g', _) := evaluate_ingress_turn g c chain t elapsed in
  d = gate_decision chain t ∧ registry g' = registry g ∧ turn_rate_limiter g' = turn_rate_limiter g.
Proof. done. Qed.

(** The checks of a turn, as predicates. *)
Definition entitled t (overlay : pydict) : Prop :=
  tier_order (min_tier_for_feature (required_feature_for_governance_overlay float_repr overlay))
    ≤ tier_order (resolve_tier_from_roles (id_roles (tn_identity t))).

Definition passes_ingress t (overlay : pydict) (d : IngressDecision (A := PolicyAction)) : Prop :=
  ∃ chain, chain_for overlay = Ok chain ∧ d = gate_decision chain t ∧ decision d = ALLOW.

Definition within_rate g t (now : Z) : Prop :=
  match turn_rate_limiter g with
  | None => True
  | Some limiter => (fw_allow limiter now (tn_tenant_id t)).1.1 = true
  end.

Definition within_concurrency g c t : Prop :=
  max_active_runs_per_tenant c ≤ 0 ∨
  RunControlRegistry.count_active_runs (registry g) (tn_tenant_id t) < max_active_runs_per_tenant c.

Lemma entitled_spec t overlay :
  (ed_decision (governance_entitlement t overlay) = ALLOW ↔ entitled t overlay) ∧
  (ed_decision (governance_entitlement t overlay) ≠ ALLOW ↔ ¬ entitled t overlay).
Proof.
  assert (ed_decision (governance_entitlement t overlay) = ALLOW ↔ entitled t overlay) as Hiff; [|tauto].
  unfold governance_entitlement, evaluate_feature_entitlement, entitled, tier_satisfies.
  destruct (Z.leb_spec (tier_order (min_tier_for_feature (required_feature_for_governance_overlay
    float_repr overlay))) (tier_order (resolve_tier_from_roles (id_roles (tn_identity t))))); cbn.
  - done.
  - split; [|lia]. intros Heq. symmetry in Heq. by apply allow_not_deny in Heq.
Qed.

Lemma check_limits_spec g c t now :
  let '(refused, g', _) := check_limits g c t now in
  registry g' = registry g ∧
  match refused with
  | None => within_rate g t now ∧ within_concurrency g c t
  | Some (RateLimited _) => ¬ within_rate g t now
  | Some ConcurrencyLimited => within_rate g t now ∧ ¬ within_concurrency g c t
  | Some _ => False
  end.
Proof.
  unfold check_limits, within_rate, within_concurrency.
  set (active := RunControlRegistry.count_active_runs _ _).
  assert (((0 <? Z.max (max_active_runs_per_tenant c) 0)
           && (Z.max (max_active_runs_per_tenant c) 0 <=? active)) = true ↔
          ¬ (max_active_runs_per_tenant c ≤ 0 ∨ active < max_active_runs_per_tenant c)) as Hc.
  { rewrite andb_true_iff, Z.ltb_lt, Z.leb_le. lia. }
  destruct (turn_rate_limiter g) as [limiter|].
  - destruct (fw_allow limiter now (tn_tenant_id t)) as [[allowed retry] limiter'] eqn:E. cbn.
    destruct allowed; cbn; [|done]. fold active.
    destruct (_ && _); cbn; (split; [done|]); [by rewrite <- Hc|].
    split; [done|]. destruct (Z.le_gt_cases (max_active_runs_per_tenant c) 0); [by left|right].
    apply Z.lt_nge. intros Hge. assert (false = true); [|done]. apply Hc. lia.
  - cbn. fold active. destruct (_ && _); cbn; (split; [done|]); [by rewrite <- Hc|].
    split; [done|]. destruct (Z.le_gt_cases (max_active_runs_per_tenant c) 0); [by left|right].
    apply Z.lt_nge. intros Hge. assert (false = true); [|done]. apply Hc. lia.
Qed.

(** C8: A turn is started exactly when its caller's tier allows what the tenant's overlay
    needs, every ingress gate of that overlay lets its input pass, the rate limit admits it
    and the tenant has an active run to spare; the run is then in the registry.  Any refusal
    names the first of these that failed, in this order, and leaves the runs alone; a turn
    that is not entitled, or that a gate blocks, does not count against the rate limit. *)
Theorem turn_admission g c overlay t now elapsed s1 s2 run :
  let '(outcome, g', _) := admit_turn g c overlay t now elapsed s1 s2 run in
  match outcome with
  | inl d =>
      entitled t overlay ∧ passes_ingress t overlay d ∧ within_rate g t now ∧
      within_concurrency g c t ∧
      registry g' =
        (RunControlRegistry.start_run (registry g) s1 s2 (tn_tenant_id t) (tn_session_id t) run
           (tn_correlation_id t) (tn_transport t)).2
  | inr r =>
      registry g' = registry g ∧
      match r with
      | NotEntitled _ => ¬ entitled t overlay ∧ turn_rate_limiter g' = turn_rate_limiter g
      | IngressRefused d =>
          entitled t overlay ∧ decision d ≠ ALLOW ∧ turn_rate_limiter g' = turn_rate_limiter g ∧
          ((∃ chain, chain_for overlay = Ok chain ∧ d = gate_decision chain t) ∨
           ∃ e, chain_for overlay = Raise e ∧ d = ingress_config_invalid_decision (exn_message e))
      | RateLimited _ =>
          entitled t overlay ∧ (∃ d, passes_ingress t overlay d) ∧ ¬ within_rate g t now
      | ConcurrencyLimited =>
          entitled t overlay ∧ (∃ d, passes_ingress t overlay d) ∧ within_rate g t now ∧
          ¬ within_concurrency g c t
      end
  end.
Proof.
  unfold TurnGateway.admit_turn. destruct (entitled_spec t overlay) as [He Hn].
  case_bool_decide as Hd; cbn [negb].
  2:{ split; [done|]. split; [by apply Hn|done]. }
  apply He in Hd. destruct (chain_for overlay) as [chain|e] eqn:Ec.
  2:{ split; [done|]. split; [done|]. split; [|split; [done|right; eauto]].
      cbn. intros Heq. symmetry in Heq. by apply allow_not_deny in Heq. }
  pose proof (ingress_turn_decision g c chain t elapsed) as Hi.
  destruct (evaluate_ingress_turn g c chain t elapsed) as [[d g1] ingress] eqn:Ei.
  destruct Hi as (Hdec & Hr & Hl). case_bool_decide as Ha; cbn [negb].
  2:{ split; [done|]. split_and!; try done. left. eauto. }
  assert (passes_ingress t overlay d) as Hp by (exists chain; eauto).
  pose proof (check_limits_spec g1 c t now) as Hcl.
  destruct (check_limits g1 c t now) as [[refused g2] limited].
  destruct Hcl as [Hr2 Hcase]. unfold within_rate, within_concurrency in Hcase. rewrite Hl, Hr in Hcase.
  destruct refused as [[e|d'|retry|]|]; try done; cbn.
  - split; [congruence|]. split_and!; [done|by eexists|done].
  - destruct Hcase. split; [congruence|]. split_and!; [done|by eexists|done|done].
  - destruct Hcase. split_and!; try done. by rewrite Hr2, Hr.
Qed.

(** The timeout of the ingress gates never fires: the coroutine that evaluates them does
    not hand control back to the event loop, so whatever the timeout, the fail mode and the
    time they take, their own decision stands and the observation says it did not time out. *)
Theorem ingress_timeout_never_fires g c chain t elapsed :
  let '(d, g', _) := evaluate_ingress_turn g c chain t elapsed in
  d = gate_decision chain t ∧
  ∀ r, budget_recorder g = Some r →
    ∃ o, budget_recorder g' = Some (observe r (tn_tenant_id t) o) ∧ timed_out o = false ∧
      latency_ms o = elapsed.
Proof. split; [done|]. intros r Hr. cbn. rewrite Hr. eexists. split; [done|]. done. Qed.

(** ** A stream settles its run *)

Definition is_terminal_name (name : string) : bool :=
  bool_decide (name ∈ ["run_complete"; "error"]).

(** The last event that ends a turn, by its name. *)
Definition last_terminal (yields : list pydict) : option string :=
  last (filter (λ n, is_terminal_name n = true) (event_name <$> yields)).

(** What the stream remembers of its last terminal event. *)
Definition remembers (st0 st : stream) (name : option string) : Prop :=
  match name with
  | None => terminal_event_seen st = terminal_event_seen st0 ∧ terminal_status st = terminal_status st0 ∧
            terminal_event st = terminal_event st0
  | Some n => terminal_event_seen st = true ∧
              terminal_status st = (if n =?s "run_complete" then "completed" else "errored") ∧
              terminal_event st = n
  end.

Lemma track_call_remembers run now d st : remembers st (track_call float_repr run now d st) None.
Proof. unfold track_call. by repeat case_match. Qed.

Lemma note_terminal_remembers d st :
  remembers st (note_terminal float_repr d st)
    (if is_terminal_name (event_name d) then Some (event_name d) else None).
Proof.
  unfold note_terminal, is_terminal_name.
  destruct (decide (event_name d = "run_complete")) as [->|Hc]; [done|].
  rewrite (bool_decide_false (event_name d = "run_complete")) by done.
  destruct (decide (event_name d = "error")) as [->|He]; [done|].
  rewrite (bool_decide_false (event_name d = "error")) by done.
  by rewrite bool_decide_false by set_solver.
Qed.

Lemma remembers_trans st0 st1 st2 n1 n2 :
  remembers st0 st1 n1 → remembers st1 st2 n2 →
  remembers st0 st2 (match n2 with Some n => Some n | None => n1 end).
Proof. destruct n1, n2; cbn; [naive_solver| |naive_solver|]; intros (?&?&?) (?&?&?); split_and!; congruence. Qed.

Lemma last_terminal_cons d yields :
  last_terminal (d :: yields) =
  match last_terminal yields with
  | Some n => Some n
  | None => if is_terminal_name (event_name d) then Some (event_name d) else None
  end.
Proof.
  unfold last_terminal. rewrite fmap_cons, filter_cons.
  destruct (is_terminal_name (event_name d)); [rewrite decide_True by done|rewrite decide_False by done].
  - rewrite last_cons. by destruct (last _).
  - by destruct (last _).
Qed.

Lemma cancelled_events_not_terminal calls corr :
  last_terminal (build_cancelled_progress_events calls corr) = None.
Proof.
  unfold build_cancelled_progress_events, last_terminal. rewrite <- list_fmap_compose.
  by induction (sorted_strings _) as [|x l IH]; cbn.
Qed.

Notation sse_loop := (sse_loop float_repr).
Notation governed_loop := (governed_loop float_repr).

Lemma sse_loop_remembers run st hs :
  let '(yields, st') := sse_loop run st hs in remembers st st' (last_terminal yields).
Proof.
  revert st. induction hs as [|[now d|f] hs IH]; intros st; cbn [TurnGateway.sse_loop].
  - done.
  - pose proof (track_call_remembers run now d st) as Ht.
    set (st1 := track_call float_repr run now d st) in *. destruct (_ && _).
    + by rewrite cancelled_events_not_terminal.
    + pose proof (note_terminal_remembers d st1) as Hn.
      specialize (IH (note_terminal float_repr d st1)).
      destruct (sse_loop run (note_terminal float_repr d st1) hs) as [yields st'].
      rewrite last_terminal_cons.
      pose proof (remembers_trans _ _ _ _ _ Ht (remembers_trans _ _ _ _ _ Hn IH)) as Hr.
      destruct (last_terminal yields); [done|]. by destruct (is_terminal_name (event_name d)).
  - specialize (IH (on_registry st (f (st_registry st)))).
    by destruct (sse_loop run (on_registry st (f (st_registry st))) hs).
Qed.

Lemma governed_loop_remembers run st hs :
  let '(yields, st') := governed_loop run st hs in remembers st st' (last_terminal yields).
Proof.
  revert st. induction hs as [|[now d|f] hs IH]; intros st; cbn [TurnGateway.governed_loop].
  - done.
  - pose proof (track_call_remembers run now d st) as Ht.
    set (st1 := track_call float_repr run now d st) in *.
    pose proof (note_terminal_remembers d st1) as Hn.
    specialize (IH (note_terminal float_repr d st1)).
    destruct (governed_loop run (note_terminal float_repr d st1) hs) as [yields st'].
    rewrite last_terminal_cons.
    pose proof (remembers_trans _ _ _ _ _ Ht (remembers_trans _ _ _ _ _ Hn IH)) as Hr.
    destruct (last_terminal yields); [done|]. by destruct (is_terminal_name (event_name d)).
  - specialize (IH (on_registry st (f (st_registry st)))).
    by destruct (governed_loop run (on_registry st (f (st_registry st))) hs).
Qed.

(** Whether closing a stream that saw no terminal event cancels its run. *)
Definition cancels (has_adapter : bool) (run : run_ref) (st : stream) : bool :=
  cancel_requested (st_registry st) run
  || has_adapter && existsb request_cancellation (od_keys (seen_call_id_to_tool_name st)).

(** The status a stream leaves its run in. *)
Definition settled_status (has_adapter : bool) (run : run_ref) (st : stream) (name : option string)
    : string :=
  match name with
  | Some n => if n =?s "run_complete" then "completed" else "errored"
  | None => if cancels has_adapter run st then "cancelled" else "interrupted"
  end.

Lemma settled_inactive has_adapter run st name :
  is_active (settled_status has_adapter run st name) = false.
Proof. unfold settled_status. by repeat case_match. Qed.

Lemma count_if_pos {A} (p : A → bool) l : (0 <? count_if p l) = existsb p l.
Proof.
  induction l as [|x l IH]; [done|]. rewrite count_if_cons. cbn [existsb]. rewrite <- IH.
  pose proof (count_if_nonneg p l). destruct (p x); cbn [orb]; [|done]. apply Z.ltb_lt. lia.
Qed.

Lemma existsb_perm {A} (p : A → bool) l l' : l ≡ₚ l' → existsb p l = existsb p l'.
Proof. induction 1; cbn; [done|by f_equal| |by etrans]. by destruct (p x), (p y). Qed.

Notation close_stream := (close_stream request_cancellation).

(** Closing marks the run, after asking to cancel it when a call's cancellation was accepted. *)
Lemma close_stream_spec has_adapter reason run n1 n2 st :
  ∃ r event message,
    (close_stream has_adapter reason run n1 n2 st).2
      = (RunControlRegistry.mark_terminal r n2 (rr_tenant_id run) (rr_run_id run)
           (if terminal_event_seen st then py_or (terminal_status st) "completed"
            else settled_status has_adapter run st None) event message).2 ∧
    (r = st_registry st ∨
     r = (RunControlRegistry.request_cancel (st_registry st) n1 (rr_tenant_id run) (rr_run_id run)
            reason).2).
Proof.
  unfold TurnGateway.close_stream, forward_runtime_cancellations, settled_status, cancels.
  destruct (terminal_event_seen st); cbn [orb].
  { rewrite orb_true_r. do 3 eexists. split; [done|by left]. }
  rewrite orb_false_r. destruct has_adapter; cbn [negb andb orb].
  2:{ rewrite orb_false_r. destruct (cancel_requested _ _); do 3 eexists; (split; [done|by left]). }
  rewrite count_if_pos, (existsb_perm _ _ (od_keys (seen_call_id_to_tool_name st)))
    by (apply sort_by_perm).
  destruct (existsb _ _); destruct (cancel_requested _ _); cbn [orb]; do 3 eexists;
    (split; [done|by auto]).
Qed.

Lemma close_settles has_adapter reason run n1 n2 r0 st name rec :
  remembers (open_stream r0) st name →
  od_get (rr_tenant_id run, rr_run_id run)
    (RunControlRegistry.records (close_stream has_adapter reason run n1 n2 st).2) = Some rec →
  rn_status rec = settled_status has_adapter run st name.
Proof.
  intros Hm Hrec. destruct (close_stream_spec has_adapter reason run n1 n2 st) as (r & ev & m & Hc & _).
  rewrite Hc in Hrec. apply mark_terminal_status in Hrec. rewrite Hrec.
  destruct name as [n|]; cbn in Hm; destruct Hm as (-> & Hs & _); [|done].
  rewrite Hs. unfold settled_status. by destruct (n =?s "run_complete").
Qed.

(** C31: A stream that was opened settles its run.  Whatever the adapter emits, whatever other
    requests do to the registry meanwhile and wherever the client stops reading, when the
    generator is closed the run, if the registry still has it, is not active: completed or
    errored by the last event that ends a turn, else cancelled when a cancellation had been
    requested or a seen call's cancellation is accepted, else interrupted. *)
Theorem stream_settles_run has_adapter transport run n1 n2 r hs :
  let '(yields, st) := sse_loop run (open_stream r) hs in
  let '(yields', st') := governed_loop run (open_stream r) hs in
  let '(_, _, r1) := sse_stream float_repr request_cancellation has_adapter run n1 n2 r hs in
  let '(_, _, r2) :=
    governed_stream float_repr request_cancellation has_adapter transport run n1 n2 r hs in
  let key := (rr_tenant_id run, rr_run_id run) in
  (∀ rec, od_get key (RunControlRegistry.records r1) = Some rec →
     is_active (rn_status rec) = false ∧
     rn_status rec = settled_status has_adapter run st (last_terminal yields)) ∧
  (∀ rec, od_get key (RunControlRegistry.records r2) = Some rec →
     is_active (rn_status rec) = false ∧
     rn_status rec = settled_status has_adapter run st' (last_terminal yields')).
Proof.
  unfold sse_stream, governed_stream.
  pose proof (sse_loop_remembers run (open_stream r) hs) as H1'.
  pose proof (governed_loop_remembers run (open_stream r) hs) as H2'.
  destruct (sse_loop run (open_stream r) hs) as [yields st].
  destruct (governed_loop run (open_stream r) hs) as [yields' st'].
  destruct (close_stream has_adapter "sse_stream_ended_before_terminal_event" run n1 n2 st)
    as [asked r1] eqn:E1.
  destruct (close_stream has_adapter (transport +:+ "_stream_ended_before_terminal_event") run n1 n2
    st') as [asked' r2] eqn:E2.
  split; intros rec Hrec.
  - change r1 with (asked, r1).2 in Hrec. rewrite <- E1 in Hrec.
    apply (close_settles _ _ _ _ _ r _ _ _ H1') in Hrec. rewrite Hrec.
    split; [apply settled_inactive|done].
  - change r2 with (asked', r2).2 in Hrec. rewrite <- E2 in Hrec.
    apply (close_settles _ _ _ _ _ r _ _ _ H2') in Hrec. rewrite Hrec.
    split; [apply settled_inactive|done].
Qed.

(** ** The bound on active runs *)

Notation active := RunControlRegistry.count_active_runs.
Notation run_of r t run := (od_get (t, run) (RunControlRegistry.records r)).

(** Cancelling a run that has settled as interrupted makes it active again. *)
Definition cancellable (r : RunControlRegistry.t) (tenant run : string) : Prop :=
  ∀ x, run_of r tenant run = Some x → is_active (rn_status x) = true ∨ is_terminal (rn_status x) = true.

(** What the gateway does to the registry: it admits turns, records the calls of streams and
    closes them, and serves cancellations of runs that have not been interrupted. *)
Inductive gateway_step c : RunControlRegistry.t → RunControlRegistry.t → Prop :=
| step_admit g overlay t now elapsed s1 s2 run d g' audits :
    admit_turn g c overlay t now elapsed s1 s2 run = (inl d, g', audits) →
    gateway_step c (registry g) (registry g')
| step_tool_call r now tenant run call :
    gateway_step c r (RunControlRegistry.record_tool_call r now tenant run call).2
| step_close has_adapter reason run n1 n2 r0 st name :
    remembers (open_stream r0) st name →
    gateway_step c (st_registry st) (close_stream has_adapter reason run n1 n2 st).2
| step_cancel r n1 n2 tenant run :
    cancellable r tenant run →
    gateway_step c r (cancel_runtime_run request_cancellation r n1 n2 tenant run).2.

Lemma cancel_runtime_run_le r n1 n2 tenant run u :
  RunControlRegistry.wf r → cancellable r tenant run →
  RunControlRegistry.wf (cancel_runtime_run request_cancellation r n1 n2 tenant run).2 ∧
  active (cancel_runtime_run request_cancellation r n1 n2 tenant run).2 u ≤ active r u.
Proof.
  intros Hwf Hc. unfold cancel_runtime_run.
  pose proof (request_cancel_wf r n1 tenant run "admin_runtime_cancel_endpoint" Hwf) as Hwf1.
  pose proof (request_cancel_count r n1 tenant run "admin_runtime_cancel_endpoint" u Hwf) as Hn.
  destruct (RunControlRegistry.request_cancel r n1 tenant run _) as [accepted r1].
  cbn [snd] in *.
  assert (active r1 u ≤ active r u) as Hle.
  { rewrite Hn. destruct (tenant =?s u); [|lia]. destruct (run_of r tenant run) as [x|] eqn:E; [|lia].
    destruct (Hc x E) as [Ha|Ha].
    - rewrite Ha, (active_not_terminal _ Ha). cbn. lia.
    - rewrite Ha. destruct (is_active (rn_status x)); cbn; lia. }
  destruct (_ && _); [|done]. split; [by apply mark_terminal_wf|].
  pose proof (mark_terminal_count r1 n2 tenant run "cancelled" "admin_cancel_forwarded" "" u Hwf1
    eq_refl) as Hm. destruct (tenant =?s u); [|lia].
  destruct (run_active r1 tenant run); cbn in Hm; lia.
Qed.

Lemma close_stream_le has_adapter reason run n1 n2 r0 st name u :
  remembers (open_stream r0) st name → RunControlRegistry.wf (st_registry st) →
  RunControlRegistry.wf (close_stream has_adapter reason run n1 n2 st).2 ∧
  active (close_stream has_adapter reason run n1 n2 st).2 u ≤ active (st_registry st) u.
Proof.
  intros Hm Hwf. destruct (close_stream_spec has_adapter reason run n1 n2 st) as (r & ev & m & -> & Hr).
  replace (if terminal_event_seen st then _ else _) with (settled_status has_adapter run st name).
  2:{ destruct name as [n|]; cbn in Hm; destruct Hm as (-> & Hs & _); [|done].
      rewrite Hs. unfold settled_status. by destruct (n =?s "run_complete"). }
  assert (RunControlRegistry.wf r) as Hwfr by (destruct Hr as [-> | ->]; [done|by apply request_cancel_wf]).
  split; [by apply mark_terminal_wf|].
  pose proof (mark_terminal_count r n2 (rr_tenant_id run) (rr_run_id run)
    (settled_status has_adapter run st name) ev m u Hwfr (settled_inactive _ _ _ _)) as Hn.
  destruct Hr as [-> | ->].
  - destruct (rr_tenant_id run =?s u); [|lia].
    destruct (run_active (st_registry st) (rr_tenant_id run) (rr_run_id run)); cbn in Hn; lia.
  - pose proof (request_cancel_count (st_registry st) n1 (rr_tenant_id run) (rr_run_id run) reason u
      Hwf) as Hc. rewrite Hc in Hn. destruct (rr_tenant_id run =?s u); [|lia].
    rewrite run_active_cancelled in Hn.
    destruct (run_of (st_registry st) (rr_tenant_id run) (rr_run_id run)) as [x|]; [|cbn in Hn; lia].
    destruct (is_terminal (rn_status x)), (is_active (rn_status x)); cbn in Hn; lia.
Qed.

Lemma admit_le g c overlay t now elapsed s1 s2 run d g' audits u :
  admit_turn g c overlay t now elapsed s1 s2 run = (inl d, g', audits) →
  0 < max_active_runs_per_tenant c → RunControlRegistry.wf (registry g) →
  active (registry g) u ≤ max_active_runs_per_tenant c →
  RunControlRegistry.wf (registry g') ∧ active (registry g') u ≤ max_active_runs_per_tenant c.
Proof.
  intros Ha Hp Hwf Hle. pose proof (turn_admission g c overlay t now elapsed s1 s2 run) as Hspec.
  rewrite Ha in Hspec. destruct Hspec as (_ & _ & _ & Hc & ->).
  split; [by apply start_run_wf|]. rewrite start_run_count by done.
  destruct (decide (tn_tenant_id t = u)) as [<-|Hne].
  - rewrite bool_decide_true by done. destruct Hc as [?|Hc]; [lia|].
    destruct (run_active _ _ _); cbn; lia.
  - rewrite bool_decide_false by done. lia.
Qed.

(** C32: With a limit on active runs, no tenant ever has more active runs than the limit,
    whatever turns are admitted and in whatever order streams record calls and close and runs
    are cancelled, as long as no cancellation is asked for a run that was interrupted. *)
Theorem active_runs_bounded c cap r u :
  0 < max_active_runs_per_tenant c → rtc (gateway_step c) (RunControlRegistry.init cap) r →
  active r u ≤ max_active_runs_per_tenant c.
Proof.
  intros Hp Hr.
  enough (RunControlRegistry.wf r ∧ ∀ u, active r u ≤ max_active_runs_per_tenant c) as [_ Hall] by done.
  refine (rtc_ind_r (λ r, RunControlRegistry.wf r ∧ ∀ u, active r u ≤ max_active_runs_per_tenant c)
    _ _ _ _ Hr); clear r u Hr.
  - split; [split; [apply NoDup_nil_2|done]|]. intros u.
    change (active (RunControlRegistry.init cap) u) with 0. lia.
  - intros r r' _ Hstep [Hwf Hle]. destruct Hstep as [g overlay t now elapsed s1 s2 run d g' audits Ha
      |r now tenant run call|has_adapter reason run n1 n2 r0 st name Hm|r n1 n2 tenant run Hc].
    + split; [by eapply (admit_le _ _ _ _ _ _ _ _ _ _ _ _ "")|]. intros u. by eapply admit_le.
    + split; [by apply record_tool_call_wf|]. intros u. by rewrite record_tool_call_count.
    + split; [by eapply (close_stream_le _ _ _ _ _ _ _ _ "")|]. intros u.
      etrans; [by eapply close_stream_le|done].
    + split; [by eapply (cancel_runtime_run_le _ _ _ _ _ "")|]. intros u.
      etrans; [by eapply cancel_runtime_run_le|done].
Qed.

(** A run that was interrupted and is cancelled afterwards, with no call whose
    cancellation is accepted, counts as active again: it takes one of the tenant's active
    runs, and its stream, which would settle it, is closed already. *)
Theorem cancelled_interrupted_run_is_active r n1 n2 tenant run x :
  RunControlRegistry.wf r → run_of r tenant run = Some x → rn_status x = "interrupted" →
  (∀ call, call ∈ rn_call_ids x → request_cancellation call = false) →
  let '(accepted, _, r') := cancel_runtime_run request_cancellation r n1 n2 tenant run in
  accepted = true ∧ active r' tenant = active r tenant + 1 ∧
  ∃ x', run_of r' tenant run = Some x' ∧ rn_status x' = "cancel_requested".
Proof.
  intros Hwf Hx Hs Hcalls. unfold cancel_runtime_run.
  pose proof (request_cancel_count r n1 tenant run "admin_runtime_cancel_endpoint" tenant Hwf) as Hn.
  rewrite Hx, Hs, bool_decide_true in Hn by done. unfold RunControlRegistry.request_cancel in *.
  rewrite Hx, Hs in *. cbn [snd] in Hn.
  change (negb (is_terminal "interrupted")) with true in *. cbv iota in *.
  set (r1 := RunControlRegistry.with_records _ _) in *.
  assert (run_of r1 tenant run = Some (mkRun (rn_tenant_id x) (rn_session_id x) (rn_run_id x)
    (rn_correlation_id x) (rn_transport x) "cancel_requested" (rn_call_ids x) true
    "admin_runtime_cancel_endpoint" (rn_started_at_utc x) n1 (rn_finished_at_utc x)
    (rn_terminal_event x) (rn_terminal_message x))) as Hr1 by apply od_get_set.
  assert (existsb request_cancellation (RunControlRegistry.call_ids_for_run r1 tenant run) = false) as Hf.
  { unfold RunControlRegistry.call_ids_for_run. rewrite Hr1. cbn [rn_call_ids].
    apply not_true_iff_false. rewrite existsb_exists. intros (call & Hin & Hc).
    apply list_elem_of_In in Hin. unfold sorted_strings in Hin. apply elem_of_sort_by in Hin.
    apply elem_of_elements, Hcalls in Hin. congruence. }
  rewrite count_if_pos, Hf. cbn [andb]. split; [done|]. split; [|by eexists].
  rewrite Hn. reflexivity.
Qed.

(** A turn whose client reuses the identifier of a turn that is still running is admitted
    without adding to the tenant's active runs, so any number of turns can run at once. *)
Theorem reused_run_id_not_counted g c overlay t now elapsed s1 s2 run d g' audits :
  admit_turn g c overlay t now elapsed s1 s2 run = (inl d, g', audits) →
  RunControlRegistry.wf (registry g) → run_active (registry g) (tn_tenant_id t) run = true →
  active (registry g') (tn_tenant_id t) = active (registry g) (tn_tenant_id t).
Proof.
  intros Ha Hwf Hact. pose proof (turn_admission g c overlay t now elapsed s1 s2 run) as Hspec.
  rewrite Ha in Hspec. destruct Hspec as (_ & _ & _ & _ & ->).
  rewrite start_run_count, Hact, bool_decide_true by done. cbn. lia.
Qed.

(** ** Whose session a turn goes to *)

Variable byoc_execute sandbox_execute :
  ToolCallContext → ToolExecutor.ToolRegistry.ToolDescriptor Handler → res ToolResult.
Variable resolve_adapter : string → res Adapter.
Variable adapter_provider : Adapter → string.

Notation factory_step :=
  (TenantRuntimeFacts.step float_repr byoc_execute sandbox_execute resolve_adapter adapter_provider).
Notation submit :=
  (submit_turn_sse (L := L) (Handler := Handler) (Adapter := Adapter) float_repr re_search re_compiles
     sha256_hex float_div round4 round3).

Lemma evict_idle_tenant rc (f : TenantRuntime.t (Handler := Handler) (Adapter := Adapter)) now sid tid :
  od_get sid (session_tenant (evict_idle rc f now)) = Some tid →
  od_get sid (session_tenant f) = Some tid.
Proof.
  destruct (evict_idle_drops rc f now) as [sids ->]. rewrite drop_sessions_eq. cbn.
  rewrite od_get_pop_all. by case_decide.
Qed.

(** The session a turn names is not checked against its tenant.  A turn admitted for one
    tenant, under that tenant's identity, overlay and limits, with the session id of another
    tenant, runs on the other tenant's runtime: its agents, tools, policy and adapter. *)
Theorem foreign_session_turn rc f g c overlay tenant owner sid input corr fresh identity m1 m2 m3 m4 now
    elapsed s1 s2 d run f' g' audits h :
  rtc (factory_step rc) empty f → od_get sid (session_tenant f) = Some owner →
  submit rc f g c overlay tenant sid input corr fresh identity m1 m2 now elapsed s1 s2
    = (Reply (d, run), f', g', audits) →
  stream_host rc f' m3 m4 sid = Some h →
  rr_tenant_id run = tenant ∧
  is_Some (od_get (tenant, rr_run_id run) (RunControlRegistry.records (registry g'))) ∧
  ∃ x, od_get (ha_context h) (heap f') = Some x ∧ cx_tenant_id x = owner.
Proof.
  intros Hf Howner Hs Hh. unfold submit_turn_sse in Hs.
  destruct (get_session_runtime rc f m1 m2 sid) as [[h0|e] f1] eqn:Eg; [|done].
  set (corr' := py_or corr fresh) in *.
  pose proof (turn_admission g c overlay (mkTurnRequest tenant sid corr' "sse" input identity) now
    elapsed s1 s2 corr') as Hadm.
  destruct (admit_turn g c overlay _ now elapsed s1 s2 corr') as [[[d0|r] g1] a1].
  2:{ by destruct r. }
  injection Hs as -> <- <- <- <-. destruct Hadm as (_ & _ & _ & _ & Hr).
  split; [done|]. split.
  { rewrite Hr. cbn. rewrite od_get_set. by eexists. }
  unfold stream_host in Hh. destruct (get_session_runtime rc f1 m3 m4 sid) as [[h1|e] f2] eqn:Eh;
    [|done]. injection Hh as <-.
  assert (rtc (factory_step rc) empty f1) as Hf1.
  { eapply rtc_r; [exact Hf|]. replace f1 with (get_session_runtime rc f m1 m2 sid).2 by (by rewrite Eg).
    apply TenantRuntimeFacts.step_get_runtime. }
  destruct (session_runtimes_live _ _ _ _ _ rc f1 m3 m4 sid h1 f2 Hf1 Eh)
    as (_ & tid & x & last & Htid & _ & Hx & Hxt & _).
  exists x. split; [done|].
  assert (session_tenant f1 = session_tenant (evict_idle rc f m1)) as Ht1.
  { unfold get_session_runtime in Eg.
    destruct (od_get sid (session_runtimes (evict_idle rc f m1))); [|done]. by injection Eg as _ <-. }
  rewrite Ht1 in Htid. apply evict_idle_tenant in Htid. congruence.
Qed.
End facts.

(** ** Concrete turns

    A gateway that allows one active run, with no overlay; bob of tenant acme and eve of
    tenant evil submit the turn "hi". *)
Module ConcreteTurns.
Import Sample.

Definition settings : limits := mkLimits (mkPolicySettings 75 150 "fail_closed") 1.

Definition idle : gateway (L := RateLimiter.TenantRateLimiter) :=
  mkGateway (RunControlRegistry.init 0) None None false.

Definition user (tenant : string) : IdentityContext :=
  mkIdentityContext "bob" Human [] tenant "" TokenValid "" "" false.

Definition hello (tenant correlation : string) : turn :=
  mkTurnRequest tenant "s1" correlation "sse" "hi" (user tenant).

Notation admit_turn :=
  (admit_turn (H := io) (L := RateLimiter.TenantRateLimiter) (λ _, "") (λ _ _ _, false) (λ _, true)
     (λ _, "") (λ _ _, inject_Z 0) id id).

Definition busy : gateway (L := RateLimiter.TenantRateLimiter) :=
  (admit_turn idle settings [] (hello "acme" "r1") 0 (inject_Z 1) "t0" "t0" "r1").1.2.

Notation step := (gateway_step (H := io) (L := RateLimiter.TenantRateLimiter) (λ _, "")
  (λ _ _ _, false) (λ _, true) (λ _, "") (λ _ _, inject_Z 0) id id (λ _, true) settings).

Lemma busy_step : step (RunControlRegistry.init 0) (registry busy).
Proof.
  destruct (admit_turn idle settings [] (hello "acme" "r1") 0 (inject_Z 1) "t0" "t0" "r1")
    as [[[d|r] g] audits] eqn:E.
  - replace busy with g by (unfold busy; by rewrite E).
    change (RunControlRegistry.init 0) with (registry idle).
    by apply (step_admit (H := io) (λ _, "") (λ _ _ _, false) (λ _, true) (λ _, "")
      (λ _ _, inject_Z 0) id id (λ _, true) settings idle [] (hello "acme" "r1") 0 (inject_Z 1) "t0"
      "t0" "r1" d g audits).
  - vm_compute in E. discriminate E.
Qed.
End ConcreteTurns.

(** One turn is active, and a second is refused. *)
Lemma active_runs_bounded_witness :
  RunControlRegistry.count_active_runs (registry ConcreteTurns.busy) "acme" ≤ 1.
Proof.
  apply (active_runs_bounded (H := Sample.io) (L := RateLimiter.TenantRateLimiter) (λ _, "") (λ _ _ _, false) (λ _, true)
    (λ _, "") (λ _ _, inject_Z 0) id id (λ _, true) ConcreteTurns.settings 0
    (registry ConcreteTurns.busy) "acme"); [reflexivity|].
  apply rtc_once, ConcreteTurns.busy_step.
Defined.

(** A run that was interrupted, with no call, is cancelled. *)
Lemma cancelled_interrupted_run_is_active_witness :
  let r := RunControlRegistry.mkRegistry
             [(("acme", "r1"), mkRun "acme" "s1" "r1" "r1" "sse" "interrupted" ∅ false "" "t0" "t0" "t1"
                                 "stream_closed" "")] 0 in
  RunControlRegistry.count_active_runs r "acme" = 0 ∧
  RunControlRegistry.count_active_runs (cancel_runtime_run (λ _, true) r "t2" "t3" "acme" "r1").2 "acme" = 1.
Proof.
  intros r. split; [reflexivity|].
  pose proof (cancelled_interrupted_run_is_active (λ _, true) r "t2" "t3" "acme" "r1"
    (mkRun "acme" "s1" "r1" "r1" "sse" "interrupted" ∅ false "" "t0" "t0" "t1" "stream_closed" "")) as H.
  destruct (cancel_runtime_run (λ _, true) r "t2" "t3" "acme" "r1") as [[accepted asked] r'] eqn:E.
  destruct H as (_ & Hn & _); [| reflexivity | reflexivity | |].
  - split; [refine (bool_decide_unpack _ _); vm_compute; exact I|].
    intros k x Hk. apply od_get_elem, list_elem_of_singleton in Hk. by injection Hk as -> ->.
  - intros call Hc. exfalso. cbn in Hc. by apply elem_of_empty in Hc.
  - cbn [snd]. rewrite Hn. reflexivity.
Defined.

(** A settings object that allows two runs, of which the same identifier takes one. *)
Lemma reused_run_id_not_counted_witness :
  let two := mkLimits (mkPolicySettings 75 150 "fail_closed") 2 in
  ∃ d g' audits,
    admit_turn (H := Sample.io) (λ _, "") (λ _ _ _, false) (λ _, true) (λ _, "") (λ _ _, inject_Z 0) id id
      ConcreteTurns.busy two [] (ConcreteTurns.hello "acme" "r1") 0 (inject_Z 1) "t1" "t1" "r1"
      = (inl d, g', audits) ∧
    RunControlRegistry.count_active_runs (registry g') "acme"
      = RunControlRegistry.count_active_runs (registry ConcreteTurns.busy) "acme".
Proof.
  intros two.
  destruct (admit_turn (H := Sample.io) (λ _, "") (λ _ _ _, false) (λ _, true) (λ _, "")
    (λ _ _, inject_Z 0) id id ConcreteTurns.busy two [] (ConcreteTurns.hello "acme" "r1") 0
    (inject_Z 1) "t1" "t1" "r1") as [[[d|r] g'] audits] eqn:E.
  - exists d, g', audits. split; [done|].
    apply (reused_run_id_not_counted (H := Sample.io) (λ _, "") (λ _ _ _, false) (λ _, true)
    (λ _, "") (λ _ _, inject_Z 0) id id ConcreteTurns.busy two []
      (ConcreteTurns.hello "acme" "r1") 0 (inject_Z 1) "t1" "t1" "r1" d g' audits E).
    + apply (start_run_wf (RunControlRegistry.init 0) "t0" "t0" "acme" "s1" "r1" "r1" "sse").
      split; [apply NoDup_nil_2|done].
    + vm_compute. reflexivity.
  - vm_compute in E. discriminate E.
Defined.

(** Eve's turn on the session of acme. *)
Lemma foreign_session_turn_witness :
  let f := Concrete.with_session in
  ∃ d run f' g' audits (h : HostAdapter (Adapter := string)) x,
    submit_turn_sse (H := Sample.io) (L := RateLimiter.TenantRateLimiter) (λ _, "") (λ _ _ _, false)
      (λ _, true) (λ _, "") (λ _ _, inject_Z 0) id id Concrete.settings f ConcreteTurns.idle
      ConcreteTurns.settings [] "evil" "s1" "hi" "r9" "" (ConcreteTurns.user "evil") 3 3 0 (inject_Z 1)
      "t0" "t0" = (Reply (d, run), f', g', audits) ∧
    rr_tenant_id run = "evil" ∧
    od_get (ha_context h) (heap f') = Some x ∧ cx_tenant_id x = "acme".
Proof.
  intros f.
  destruct (submit_turn_sse (H := Sample.io) (L := RateLimiter.TenantRateLimiter) (λ _, "")
    (λ _ _ _, false) (λ _, true) (λ _, "") (λ _ _, inject_Z 0) id id Concrete.settings f
    ConcreteTurns.idle ConcreteTurns.settings [] "evil" "s1" "hi" "r9" "" (ConcreteTurns.user "evil") 3 3
    0 (inject_Z 1) "t0" "t0") as [[[[[d run]|code detail] f'] g'] audits] eqn:E.
  - destruct (stream_host Concrete.settings f' 4 4 "s1") as [h|] eqn:Eh.
    + destruct (foreign_session_turn (H := Sample.io) (λ _, "") (λ _ _ _, false) (λ _, true)
        (λ _, "") (λ _ _, inject_Z 0) id id (λ _ _, Raise (OtherException "not hosted"))
        (λ _ _, Raise (OtherException "not hosted")) (λ provider, Ok provider) id Concrete.settings f ConcreteTurns.idle
        ConcreteTurns.settings [] "evil" "acme" "s1" "hi" "r9" "" (ConcreteTurns.user "evil") 3 3 4 4 0
        (inject_Z 1) "t0" "t0" d run f' g' audits h Concrete.with_session_reachable) as (Hr & _ & x & Hx & Ht);
        [vm_compute; reflexivity|exact E|exact Eh|].
      exists d, run, f', g', audits, h, x. done.
    + exfalso. replace f' with (get_session_runtime Concrete.settings f 3 3 "s1").2 in Eh.
      * vm_compute in Eh. discriminate Eh.
      * unfold submit_turn_sse in E.
        destruct (get_session_runtime Concrete.settings f 3 3 "s1") as [[h|e] f1]; [|discriminate E].
        destruct (admit_turn _ _ _ _ _ _ _ _ _ _ _ _ _ _ _) as [[o g1] a1]. by injection E as _ <- _ _.
  - vm_compute in E. discriminate E.
Defined.
