(* ===== verification/OpenAiGateway.v ===== *)
(** * The OpenAI-compatible gateway

    Models src/api/routers/openai_gateway.py with the requests and answers of
    src/api/schemas/openai_gateway_schemas.py, and get_openai_gateway_runtime_context of
    src/api/dependencies.py: a chat completion is a turn of the gateway of TurnGateway.v whose events are
    read to the first run_complete and told as one answer.  The identity, the tenant's overlay, the time
    and the identifiers drawn are arguments, as is what happens while the stream is read.  The route leaves
    the generator of events suspended at run_complete; it is closed when it is collected, and what other
    requests do until then is an argument too. *)

From S2P Require Import Prelude PyValue RunActivity Sample TurnGatewayFacts Tenancy Identity.
From S2P Require Import Entitlements Authentication RunControl ToolIO ToolExecutor TenantRuntime.
From S2P Require Import IngressProfiles IngressGates IngressBudget TurnGateway.

(** ** Requests and answers *)

Record OpenAIChatMessage := mkChatMessage { cm_role : string; cm_content : string }.

Record OpenAIChatCompletionRequest := mkChatRequest {
  cr_model : string;
  cr_messages : list OpenAIChatMessage;
  cr_stream : bool;
  cr_user : option string;
}.

(** The answer 200 with one choice, which has finish reason stop, and the answer 502 *)
Inductive chat_reply :=
| Completion (id : string) (created : Z) (model content : string)
| TurnFailed (message code : string).

Definition last_user_text (messages : list OpenAIChatMessage) : string :=
  match List.find (λ m, py_lower (py_strip (cm_role m)) =?s "user") (rev messages) with
  | Some m => cm_content m
  | None => ""
  end.

Section chat.
Context `{!ToolIO} `{!RuntimeEvents} `{!EventTypes} {L : Type} `{!FixedWindow L}.
Context {Handler Adapter : Type}.
Variable float_repr : Q → string.
Variable re_search : string → string → bool → bool.
Variable re_compiles : string → bool.
Variable sha256_hex : string → string.
Variable float_div : Z → Z → Q.
Variable round4 round3 : Q → Q.
Variable request_cancellation : string → bool.
Variable byoc_execute sandbox_execute :
  ToolCallContext → ToolRegistry.ToolDescriptor Handler → res ToolResult.

Notation Decision := (IngressDecision (A := PolicyAction)).
Notation factory := (TenantRuntime.t (Handler := Handler) (Adapter := Adapter)).
Notation gateway := (TurnGateway.gateway (L := L)).

(** ** Reading the events *)

(** The variables of the loop: the deltas, and the code and message of the last error *)
Record reading := mkReading { deltas : list string; failed : option (string * string) }.

Fixpoint read_events (d : reading) (events : list pydict) : reading :=
  match events with
  | [] => d
  | e :: events =>
      if event_name e =?s "output_delta" then
        read_events (mkReading (deltas d ++ [str_field float_repr e "delta"]) (failed d)) events
      else if event_name e =?s "error" then
        read_events (mkReading (deltas d)
          (Some (dict_get_str float_repr e "code" "TURN_ERROR", str_field float_repr e "message"))) events
      else if event_name e =?s "run_complete" then d
      else read_events d events
  end.

Definition chat_answer (b : OpenAIChatCompletionRequest) (id : string) (created : Z) (events : list pydict)
    : chat_reply :=
  let d := read_events (mkReading [] None) events in
  match failed d with
  | Some (code, message) => TurnFailed (py_or message code) code
  | None =>
      Completion ("chatcmpl-" +:+ id) created (py_or (cr_model b) "exo-brain") (String.concat "" (deltas d))
  end.

(** What happens until the route stops reading: its last event is the first run_complete. *)
Fixpoint until_complete (hs : list happening) : list happening :=
  match hs with
  | [] => []
  | Other f :: hs => Other f :: until_complete hs
  | Event now d :: hs =>
      Event now d :: (if event_name d =?s "run_complete" then [] else until_complete hs)
  end.

(** ** The route *)

(** Whether the executor of a context has an execution adapter *)
Definition hosted (f : factory) (ctx : nat) : bool :=
  match od_get ctx (heap f) with
  | Some x => bool_decide (is_Some (execution_adapter (cx_tool_executor x)))
  | None => false
  end.

(** [get_openai_gateway_runtime_context] *)
Definition gateway_context (rc : RuntimeSettings) (f : factory) (m1 m2 : Z) (i : IdentityContext)
    : http (string * nat) * factory :=
  let tid := py_strip (id_tenant_id i) in
  if negb (py_bool tid) then
    (HTTPException 403 ("OPENAI_GATEWAY_TENANT_REQUIRED: identity must include tenant_id for "
       +:+ "OpenAI-compatible gateway calls."), f)
  else
    let '(ctx, f) := get_or_create float_repr byoc_execute sandbox_execute rc f m1 m2 tid in
    (Reply (tid, ctx), f).

(** The route until its turn is admitted: the run is then in the registry. *)
Definition chat_admission (rc : RuntimeSettings) (f : factory) (g : gateway) (c : limits) (overlay : pydict)
    (b : OpenAIChatCompletionRequest) (session_header : option string) (fresh : string)
    (i : IdentityContext) (m1 m2 m3 m4 now : Z) (elapsed : Q) (started1 started2 : string)
    : http (run_ref * bool) * factory * gateway * list audit_event :=
  match gateway_context rc f m1 m2 i with
  | (HTTPException code detail, f) => (HTTPException code detail, f, g, [])
  | (Reply (tid, ctx), f) =>
      let refuse detail := (HTTPException 400 detail, f, g, []) in
      if cr_stream b then refuse "stream=true is not supported for this gateway yet; use stream=false."
      else
      let session_id := py_strip (default "" session_header) in
      if negb (py_bool session_id) then
        refuse ("Missing required header X-eXo-Session-Id (maps to an existing eXo-brain session).")
      else
      let text := last_user_text (cr_messages b) in
      if negb (py_bool (py_strip text)) then
        refuse "messages must include at least one user role with content."
      else
      let correlation := py_or (py_strip (default "" (cr_user b))) ("oai_" +:+ fresh) in
      match get_session_runtime rc f m3 m4 session_id with
      | (Raise _, f) => (HTTPException 404 ("Session '" +:+ session_id +:+ "' not found"), f, g, [])
      | (Ok _, f) =>
          let t := mkTurnRequest tid session_id correlation "openai_compat" text i in
          let '(outcome, g, audits) :=
            admit_turn float_repr re_search re_compiles sha256_hex float_div round4 round3 g c overlay t now
              elapsed started1 started2 correlation in
          (match outcome with
           | inl _ => Reply (mkRunRef tid correlation correlation, hosted f ctx)
           | inr r => http_of_rejection r
           end, f, g, audits)
      end
  end.

(** The whole route: [hs] is what happens while the events are read, [late] what other requests do until the
    generator is closed, [id] and [created] the identifier and the time of the completion. *)
Definition openai_chat_completions (rc : RuntimeSettings) (f : factory) (g : gateway) (c : limits)
    (overlay : pydict) (b : OpenAIChatCompletionRequest) (session_header : option string) (fresh : string)
    (i : IdentityContext) (m1 m2 m3 m4 now : Z) (elapsed : Q) (started1 started2 : string)
    (hs : list happening) (late : list (RunControlRegistry.t → RunControlRegistry.t))
    (id : string) (created : Z) (closed1 closed2 : string)
    : http chat_reply * factory * gateway * list audit_event :=
  let '(h, f, g, audits) :=
    chat_admission rc f g c overlay b session_header fresh i m1 m2 m3 m4 now elapsed started1 started2 in
  match h with
  | HTTPException code detail => (HTTPException code detail, f, g, audits)
  | Reply (run, has_adapter) =>
      let '(events, _, r) :=
        governed_stream float_repr request_cancellation has_adapter "openai_compat" run closed1 closed2
          (registry g) (until_complete hs ++ (Other <$> late)) in
      (Reply (chat_answer b id created events), f, with_registry g r, audits)
  end.
End chat.

(** * Theorems about the OpenAI-compatible gateway

    What a chat completion answers is determined by the events up to the first run_complete; the run of
    an admitted completion settles; and two ways in which the answer and the record of the run disagree. *)

Section facts.
Context `{!ToolIO} `{!RuntimeEvents} `{!EventTypes} {L : Type} `{!FixedWindow L}.
Context {Handler Adapter : Type}.
Variable float_repr : Q → string.
Variable re_search : string → string → bool → bool.
Variable re_compiles : string → bool.
Variable sha256_hex : string → string.
Variable float_div : Z → Z → Q.
Variable round4 round3 : Q → Q.
Variable request_cancellation : string → bool.
Variable byoc_execute sandbox_execute :
  ToolCallContext → ToolRegistry.ToolDescriptor Handler → res ToolResult.

Notation read_events := (read_events float_repr).
Notation governed_loop := (governed_loop float_repr).

(** ** The answer *)

(** The events before the first of a name *)
Fixpoint before (name : string) (events : list pydict) : list pydict :=
  match events with
  | [] => []
  | e :: events => if event_name e =?s name then [] else e :: before name events
  end.

Definition named (name : string) (events : list pydict) : list pydict :=
  filter (λ e, event_name e = name) events.

Lemma read_events_spec d events :
  read_events d events =
  mkReading (deltas d ++ ((λ e, str_field float_repr e "delta") <$> named "output_delta" (before "run_complete" events)))
    (match last (named "error" (before "run_complete" events)) with
     | Some e => Some (dict_get_str float_repr e "code" "TURN_ERROR", str_field float_repr e "message")
     | None => failed d
     end).
Proof.
  revert d. induction events as [|e events IH]; intros d.
  { destruct d. cbn. by rewrite app_nil_r. }
  cbn [OpenAiGateway.read_events before].
  destruct (decide (event_name e = "output_delta")) as [Ed|Ed].
  { rewrite Ed. change ("output_delta" =?s "output_delta") with true.
    change ("output_delta" =?s "run_complete") with false. cbn [Datatypes.andb]. unfold named.
    rewrite filter_cons_True by done. rewrite (filter_cons_False (λ e, event_name e = "error")) by (by rewrite Ed).
    rewrite IH. cbn [deltas failed fmap list_fmap]. by rewrite <- app_assoc. }
  rewrite (bool_decide_false (event_name e = "output_delta")) by done.
  destruct (decide (event_name e = "error")) as [Ee|Ee].
  { rewrite Ee. change ("error" =?s "error") with true.
    change ("error" =?s "run_complete") with false. cbn [Datatypes.andb]. unfold named.
    rewrite filter_cons_False by done. rewrite (filter_cons_True (λ e, event_name e = "error")) by done.
    rewrite IH. cbn [deltas failed]. rewrite last_cons. unfold named. by destruct (last (filter _ _)). }
  rewrite (bool_decide_false (event_name e = "error")) by done.
  destruct (event_name e =?s "run_complete"); unfold named; [cbn; rewrite app_nil_r; by destruct d|].
  rewrite !filter_cons_False by done. apply IH.
Qed.

(** The answer of a chat completion is read off the events before the first run_complete: when there is an
    error among them the completion fails with the code and the message of the last one, whatever text came
    before; otherwise its content is all the deltas put together, in order. *)
Theorem chat_answer_exact b id created events :
  let read := before "run_complete" events in
  chat_answer float_repr b id created events =
  match last (named "error" read) with
  | Some e =>
      let code := dict_get_str float_repr e "code" "TURN_ERROR" in
      TurnFailed (py_or (str_field float_repr e "message") code) code
  | None =>
      Completion ("chatcmpl-" +:+ id) created (py_or (cr_model b) "exo-brain")
        (String.concat "" ((λ e, str_field float_repr e "delta") <$> named "output_delta" read))
  end.
Proof.
  cbn zeta. unfold chat_answer. rewrite read_events_spec. cbn [failed deltas].
  by destruct (last (named "error" _)).
Qed.

(** ** The run of a completion *)

Definition completes (hs : list happening) : bool :=
  existsb (λ h, match h with Event _ d => event_name d =?s "run_complete" | Other _ => false end) hs.

Lemma governed_loop_app run st hs hs' :
  governed_loop run st (hs ++ hs') =
  let '(yields, st) := governed_loop run st hs in
  let '(yields', st) := governed_loop run st hs' in
  (yields ++ yields', st).
Proof.
  revert st. induction hs as [|[now d|f] hs IH]; intros st; cbn [TurnGateway.governed_loop app].
  - by destruct (governed_loop run st hs').
  - rewrite IH. destruct (governed_loop run _ hs) as [yields st1]. by destruct (governed_loop run st1 hs').
  - apply IH.
Qed.

Lemma governed_loop_others run st late :
  (governed_loop run st (Other <$> late)).1 = [].
Proof. revert st. induction late as [|f late IH]; intros st; cbn; [done|apply IH]. Qed.

(** A stream read to the first run_complete ends with it when there is one. *)
Lemma read_terminal run st hs :
  last_terminal (governed_loop run st (until_complete hs)).1 = Some "run_complete" ↔ completes hs = true.
Proof.
  revert st. induction hs as [|[now d|f] hs IH]; intros st; cbn [until_complete TurnGateway.governed_loop].
  - done.
  - unfold completes. cbn [existsb]. fold (completes hs).
    destruct (event_name d =?s "run_complete") eqn:E; cbn [orb].
    + cbn [TurnGateway.governed_loop]. cbn. apply bool_decide_eq_true in E. unfold last_terminal. cbn. rewrite E. done.
    + specialize (IH (note_terminal float_repr d (track_call float_repr run now d st))).
      destruct (governed_loop run _ (until_complete hs)) as [yields st'].
      cbn [fst] in *. rewrite last_terminal_cons. apply bool_decide_eq_false in E.
      destruct (last_terminal yields) as [n|] eqn:El; [exact IH|].
      destruct (is_terminal_name _); [|exact IH]. rewrite <- IH. split; [intros [= ?]; done|done].
  - apply IH.
Qed.

Notation openai_chat_completions :=
  (openai_chat_completions (L := L) (Adapter := Adapter) float_repr re_search re_compiles sha256_hex float_div
     round4 round3 request_cancellation byoc_execute sandbox_execute).
Notation chat_admission :=
  (chat_admission (L := L) (Adapter := Adapter) float_repr re_search re_compiles sha256_hex float_div
     round4 round3 byoc_execute sandbox_execute).

(** C26: A completion that was admitted settles its run: whatever its adapter emits, whatever other requests do to
    the registry while it is read and until its generator is closed, the run, if the registry still has it, is
    no longer active, and it is completed exactly when the adapter emitted run_complete. *)
Theorem chat_run_settled rc f g c overlay b header fresh i m1 m2 m3 m4 now elapsed s1 s2 hs late id created
    t1 t2 run has_adapter f1 g1 audits :
  chat_admission rc f g c overlay b header fresh i m1 m2 m3 m4 now elapsed s1 s2
    = (Reply (run, has_adapter), f1, g1, audits) →
  let '(_, _, g', _) :=
    openai_chat_completions rc f g c overlay b header fresh i m1 m2 m3 m4 now elapsed s1 s2 hs late id created
      t1 t2 in
  ∀ rec, od_get (rr_tenant_id run, rr_run_id run) (RunControlRegistry.records (registry g')) = Some rec →
    is_active (rn_status rec) = false ∧
    (rn_status rec = "completed" ↔ completes hs = true).
Proof.
  intros Ha. unfold OpenAiGateway.openai_chat_completions. rewrite Ha. unfold governed_stream.
  pose proof (governed_loop_remembers float_repr run (open_stream (registry g1)) (until_complete hs ++ (Other <$> late)))
    as Hr.
  rewrite governed_loop_app in Hr |- *.
  pose proof (read_terminal run (open_stream (registry g1)) hs) as Ht.
  destruct (governed_loop run (open_stream (registry g1)) (until_complete hs)) as [yields st].
  pose proof (governed_loop_others run st late) as Hl.
  destruct (governed_loop run st (Other <$> late)) as [yields' st']. cbn [fst] in *. subst yields'.
  rewrite app_nil_r in *.
  destruct (close_stream _ _ _ _ _ _ _) as [asked r] eqn:Ec. cbn [registry with_registry].
  intros rec Hrec. change r with (asked, r).2 in Hrec. rewrite <- Ec in Hrec.
  apply (close_settles _ _ _ _ _ _ (registry g1) _ _ _ Hr) in Hrec. rewrite Hrec. split; [apply settled_inactive|].
  rewrite <- Ht. unfold settled_status. destruct (last_terminal yields) as [n|].
  - destruct (decide (n = "run_complete")) as [->|Hn]; [done|]. rewrite bool_decide_false by done.
    split; [done|]. by intros [= ->].
  - destruct (cancels _ _ _ _); done.
Qed.
End facts.

(** ** Concrete completions *)
Module ChatExamples.
Import Sample.

Notation none := (λ _ _, Raise (OtherException "not hosted")) (only parsing).

(** Tenant acme has the session s1; a gateway admits one run at a time. *)
Definition hosts : TenantRuntime.t (Handler := unit) (Adapter := string) :=
  let f := (get_or_create (Adapter := string) (λ _, "") none none (mkRuntimeSettings false false 0 0 0) empty 0 0 "acme").2 in
  mkFactory (heap f) (contexts f) (tenant_last_touch f) [("s1", mkHost "p" 0%nat)] [("s1", "p")] [("s1", "acme")] [("s1", 0)].

Definition chat : OpenAIChatCompletionRequest :=
  mkChatRequest "" [mkChatMessage "system" "be brief"; mkChatMessage " User" "hi"] false (Some "r1").

Definition event (name : string) (fields : pydict) : happening := Event "t" (("event", PStr name) :: fields).
Definition delta (s : string) : happening := event "output_delta" [("delta", PStr s)].
Definition done_event : happening := event "run_complete" [].

Notation admission := (chat_admission (H := io) (L := RateLimiter.TenantRateLimiter) (λ _, "") (λ _ _ _, false)
  (λ _, true) (λ _, "") (λ _ _, inject_Z 0) id id none none (mkRuntimeSettings false false 0 0 0) hosts
  ConcreteTurns.idle ConcreteTurns.settings [] chat (Some "s1") "" (ConcreteTurns.user "acme") 1 1 1 1 0
  (inject_Z 1) "t0" "t0").

Notation completion hs := (openai_chat_completions (H := io) (L := RateLimiter.TenantRateLimiter) (λ _, "")
  (λ _ _ _, false) (λ _, true) (λ _, "") (λ _ _, inject_Z 0) id id (λ _, true) none none
  (mkRuntimeSettings false false 0 0 0) hosts
  ConcreteTurns.idle ConcreteTurns.settings [] chat (Some "s1") "" (ConcreteTurns.user "acme") 1 1 1 1 0
  (inject_Z 1) "t0" "t0" hs [] "1" 7 "t1" "t2").

(** The answer, and the status of its run *)
Definition outcome (hs : list happening) : http chat_reply * option string :=
  let '(h, _, g, _) := completion hs in
  (h, rn_status <$> od_get ("acme", "r1") (RunControlRegistry.records (TurnGateway.registry g))).

Definition hello : list happening := [delta "Hel"; delta "lo"; done_event].

Lemma hello_is_answered :
  outcome hello = (Reply (Completion "chatcmpl-1" 7 "exo-brain" "Hello"), Some "completed").
Proof. vm_compute. reflexivity. Qed.

Lemma chat_run_settled_witness :
  ∃ run has_adapter f1 g1 audits, admission = (Reply (run, has_adapter), f1, g1, audits) ∧
  let '(_, _, g', _) := completion hello in
  ∀ rec, od_get (rr_tenant_id run, rr_run_id run) (RunControlRegistry.records (TurnGateway.registry g')) = Some rec →
    is_active (rn_status rec) = false ∧ (rn_status rec = "completed" ↔ completes hello = true).
Proof.
  destruct admission as [[[[[run has_adapter]|code detail] f1] g1] audits] eqn:E.
  - exists run, has_adapter, f1, g1, audits. split; [done|].
    exact (chat_run_settled (H := io) (L := RateLimiter.TenantRateLimiter) (λ _, "") (λ _ _ _, false)
      (λ _, true) (λ _, "") (λ _ _, inject_Z 0) id id (λ _, true) none none (mkRuntimeSettings false false 0 0 0) hosts
      ConcreteTurns.idle ConcreteTurns.settings [] chat (Some "s1") "" (ConcreteTurns.user "acme") 1 1 1 1 0
      (inject_Z 1) "t0" "t0" hello [] "1" 7 "t1" "t2" run has_adapter f1 g1 audits E).
  - exfalso. vm_compute in E. discriminate E.
Defined.

(** An adapter that stops without ending its turn: the caller is told a complete answer, with finish reason
    stop, while the run is recorded as interrupted. *)
Lemma interrupted_turn_is_answered :
  outcome [delta "Hel"] = (Reply (Completion "chatcmpl-1" 7 "exo-brain" "Hel"), Some "interrupted").
Proof. vm_compute. reflexivity. Qed.

(** An error the turn recovers from: the caller is told that it failed and loses the text, while the run is
    recorded as completed. *)
Lemma completed_turn_is_failed :
  outcome [delta "Hel"; event "error" [("code", PStr "TOOL_FAILED"); ("message", PStr "once")]; delta "lo"; done_event]
  = (Reply (TurnFailed "once" "TOOL_FAILED"), Some "completed").
Proof. vm_compute. reflexivity. Qed.
End ChatExamples.
