(* ===== verification/RuntimeAdapters.v ===== *)
(** * The local runtime adapters

    Models src/runtime/custom_runtime.py and openai_compatible_runtime.py, the two adapters that the
    repository has itself: they differ in their texts and capabilities only.  The constructors of events, of the
    external contracts package, are the class [AdapterEvents], with the laws that the gateway relies on; the
    names of its security tiers and of a healthy state are parameters. *)

From S2P Require Import Prelude PyValue ToolIO Sample Tenancy RunControl TurnGateway OpenAiGateway.
From S2P Require Import Identity Authentication Providers ManagementApi.

(** [RuntimeEvent.output_delta] and [RuntimeEvent.run_complete]: an event has what it was built with. *)
Class AdapterEvents `{EventTypes} := {
  output_delta (session_id run_id text correlation_id : string) : RuntimeEvent;
  run_complete (session_id run_id : string) (output : pydict) (correlation_id : string) : RuntimeEvent;
  output_delta_type s r t c : ev_type (output_delta s r t c) = OUTPUT_DELTA;
  output_delta_payload s r t c : ev_payload (output_delta s r t c) = [("text", PStr t)];
  run_complete_type s r o c : ev_type (run_complete s r o c) = RUN_COMPLETE;
  run_complete_payload s r o c : ev_payload (run_complete s r o c) = o;
}.

Record SessionHandle := mkSessionHandle { sh_session_id : string; sh_provider_id : string; sh_metadata : pydict }.

(** What the two adapters differ in *)
Inductive adapter_kind := Custom | OpenAICompatible.

Record RuntimeAdapter := mkAdapter { kind : adapter_kind; ad_provider_id : string; ad_sessions : gset string }.

Definition new_adapter (k : adapter_kind) (provider_id : string) : RuntimeAdapter := mkAdapter k provider_id ∅.

Definition echo_prefix (k : adapter_kind) : string :=
  match k with Custom => "custom-adapter-echo: " | OpenAICompatible => "openai-compatible-echo: " end.

Section adapters.
Context `{!ToolIO} `{!RuntimeEvents} `{!EventTypes} `{!AdapterEvents}.
Variable float_repr : Q → string.
Variable local_only self_managed healthy_state : string.

Definition start_session (a : RuntimeAdapter) (session_id : string) (metadata : option pydict)
    : SessionHandle * RuntimeAdapter :=
  (mkSessionHandle session_id (ad_provider_id a) (default [] metadata),
   mkAdapter (kind a) (ad_provider_id a) ({[session_id]} ∪ ad_sessions a)).

(** [fresh] is the identifier drawn when the context has none; a context that is no dictionary counts as an empty
    one. *)
Definition run_turn (a : RuntimeAdapter) (session_id user_input : string) (context : pyval) (fresh : string)
    : list RuntimeEvent :=
  let run_id := dict_get_str float_repr (default [] (as_dict context)) "run_id" ("run_" +:+ fresh) in
  [output_delta session_id run_id (echo_prefix (kind a) +:+ user_input) run_id;
   run_complete session_id run_id
     [("status", PStr "completed"); ("provider_id", PStr (ad_provider_id a))] run_id].

(** [results] is how many results are submitted. *)
Definition submit_tool_results (a : RuntimeAdapter) (session_id run_id : string) (results : Z) : list RuntimeEvent :=
  [run_complete session_id run_id
     [("status", PStr "completed"); ("tool_results_count", PInt results); ("provider_id", PStr (ad_provider_id a))]
     run_id].

Definition get_capabilities (a : RuntimeAdapter) : capabilities :=
  let compatible := match kind a with Custom => false | OpenAICompatible => true end in
  mkCapabilities true true true false false compatible 4
    (match kind a with Custom => local_only | OpenAICompatible => self_managed end)
    (match kind a with Custom => "deterministic" | OpenAICompatible => "hybrid" end).

Definition healthcheck (a : RuntimeAdapter) : HealthStatus := mkHealth true healthy_state "adapter-initialized".

(** ** A turn, from the adapter to the caller *)

(** A chat completion over a session on one of these adapters is answered with the input echoed, and completes
    its run, whatever context the turn is run with. *)
Theorem echoed_completion a session_id input context fresh b id created :
  let events := runtime_event_to_dict float_repr <$> run_turn a session_id input context fresh in
  chat_answer float_repr b id created events =
    Completion ("chatcmpl-" +:+ id) created (py_or (cr_model b) "exo-brain") (echo_prefix (kind a) +:+ input) ∧
  completes (Event "" <$> events) = true.
Proof.
  unfold run_turn. set (run_id := dict_get_str _ _ _ _). cbn [fmap list_fmap].
  unfold runtime_event_to_dict. rewrite output_delta_type, run_complete_type, output_delta_payload.
  split; [|done]. unfold chat_answer. cbn [read_events event_name dict_get od_get decide].
  set (text := echo_prefix (kind a) +:+ input). done.
Qed.
End adapters.

(** ** An instance *)
Module AdapterExamples.
Import Sample.

#[export] Program Instance event_types : EventTypes := {|
  ev_type e := match e with
    | Output _ => OUTPUT_DELTA | Intent _ _ => TOOL_INTENT | Progress _ => TOOL_PROGRESS
    | Failure _ _ => ERROR_EVENT | Complete _ _ => RUN_COMPLETE
    end;
|}.
Next Obligation. by intros []. Qed.

#[export] Program Instance adapter_events : AdapterEvents := {|
  output_delta _ _ text _ := Output [("text", PStr text)];
  run_complete _ run_id output _ := Complete run_id output;
|}.
Solve All Obligations with done.

Lemma echo_hi :
  chat_answer (λ _, "") (mkChatRequest "" [] false None) "1" 7
    (runtime_event_to_dict (λ _, "") <$> run_turn (λ _, "") (new_adapter Custom "custom") "s1" "hi" (PDict []) "r")
  = Completion "chatcmpl-1" 7 "exo-brain" "custom-adapter-echo: hi".
Proof. apply (echoed_completion (λ _, "") (new_adapter Custom "custom")). Qed.
End AdapterExamples.
