(* ===== verification/TurnSocket.v ===== *)
(** * The WebSocket of a session

    Models websocket_turn of src/api/routers/turns.py: one connection runs several turns, each
    in a task of its own.  The connection keeps the task of each run and the tool calls each
    run has shown; a task is not done while it is in [so_tasks].  A step is what the
    connection does between two awaits that matter to it: a message, an event of a task's
    stream, the end of a task, the disconnection.  Tasks that are cancelled settle in a later
    step, except those the cancel message awaits. *)

From S2P Require Import Prelude PyValue Tenancy Identity Entitlements Authentication RunControl.
From S2P Require Import RunActivity.
From S2P Require Import ToolIO IngressProfiles IngressGates IngressBudget TurnGateway.

Record task := mkTask {
  tk_run_id : string;
  tk_started : bool;
  tk_terminal_event_seen : bool;
  tk_terminal_status : string;
  tk_terminal_event : string;
  tk_terminal_message : string;
}.

Record socket := mkSocket {
  so_tenant_id : string;
  so_session_id : string;
  so_identity : IdentityContext;
  so_has_adapter : bool;
  so_tasks : list (nat * task);
  active_tasks : list (string * nat);
  active_run_tool_calls : list (string * list (string * string));
  so_next : nat;
}.

Definition with_tasks (s : socket) (tasks : list (nat * task)) (active : list (string * nat))
    (calls : list (string * list (string * string))) : socket :=
  mkSocket (so_tenant_id s) (so_session_id s) (so_identity s) (so_has_adapter s) tasks active calls
    (so_next s).

Section socket.
Context `{!ToolIO} `{!RuntimeEvents} `{!EventTypes} {L : Type} `{!FixedWindow L}.
Variable float_repr : Q → string.
Variable re_search : string → string → bool → bool.
Variable re_compiles : string → bool.
Variable sha256_hex : string → string.
Variable float_div : Z → Z → Q.
Variable round4 round3 : Q → Q.
Variable request_cancellation : string → bool.

Notation gateway := (gateway (L := L)).
Notation admit_turn := (admit_turn (L := L) float_repr re_search re_compiles sha256_hex float_div round4 round3).
Notation registry_t := RunControlRegistry.t.
Implicit Types (s : socket) (r : registry_t).

(** [_mark_cancelled_if_running] *)
Definition mark_cancelled_if_running r (now tenant_id run_id event : string) : registry_t :=
  match RunControlRegistry.get_run r tenant_id run_id with
  | None => r
  | Some record =>
      let status := dict_get_str float_repr record "status" "" in
      if bool_decide (status ∈ ["completed"; "errored"; "cancelled"]) then r
      else (RunControlRegistry.mark_terminal r now tenant_id run_id "cancelled" event "").2
  end.

(** The [finally] of [run_turn_task]. *)
Definition finish_task s r (id : nat) (t : task) (now : string) : socket * registry_t :=
  (with_tasks s (od_pop id (so_tasks s)) (od_pop (tk_run_id t) (active_tasks s))
     (od_pop (tk_run_id t) (active_run_tool_calls s)),
   if tk_terminal_event_seen t then
     (RunControlRegistry.mark_terminal r now (so_tenant_id s) (tk_run_id t)
        (py_or (tk_terminal_status t) "completed") (py_or (tk_terminal_event t) "run_complete")
        (tk_terminal_message t)).2
   else r).

(** [run_turn_task] when [CancelledError] is raised in it: a task that has not started never
    runs its handlers. *)
Definition cancel_task s r (id : nat) (now1 now2 : string) : socket * registry_t :=
  match od_get id (so_tasks s) with
  | None => (s, r)
  | Some t =>
      if tk_started t then
        let r := (RunControlRegistry.mark_terminal r now1 (so_tenant_id s) (tk_run_id t) "cancelled"
                    "ws_task_cancelled" "").2 in
        finish_task s r id t now2
      else (with_tasks s (od_pop id (so_tasks s)) (active_tasks s) (active_run_tool_calls s), r)
  end.

Definition calls_of s (run_id : string) : list (string * string) :=
  od_get_default [] run_id (active_run_tool_calls s).

(** The tool calls of an event, as [track_call] for a stream. *)
Definition track s r (now run_id : string) (d : pydict) : socket * registry_t :=
  if bool_decide (event_name d ∈ ["tool_call"; "tool_progress"]) then
    let call_id := py_strip (str_field float_repr d "call_id") in
    if py_bool call_id then
      (with_tasks s (so_tasks s) (active_tasks s)
         (od_set run_id (od_set call_id (str_field float_repr d "tool_name") (calls_of s run_id))
            (active_run_tool_calls s)),
       (RunControlRegistry.record_tool_call r now (so_tenant_id s) run_id call_id).2)
    else (s, r)
  else (s, r).

Definition note_terminal_task (d : pydict) (t : task) : task :=
  let set status event message := mkTask (tk_run_id t) true true status event message in
  if event_name d =?s "run_complete" then set "completed" "run_complete" (tk_terminal_message t)
  else if event_name d =?s "error" then set "errored" "error" (str_field float_repr d "message")
  else mkTask (tk_run_id t) true (tk_terminal_event_seen t) (tk_terminal_status t)
         (tk_terminal_event t) (tk_terminal_message t).

(** An event of the stream of a task; [delivered] says whether [send_json] succeeds.  A
    cancellation event that cannot be sent raises before the run is marked. *)
Definition task_event s r (id : nat) (now1 now2 : string) (d : pydict) (delivered : bool)
    : list pydict * socket * registry_t :=
  match od_get id (so_tasks s) with
  | None => ([], s, r)
  | Some t =>
      let run_id := tk_run_id t in
      let '(s, r) := track s r now1 run_id d in
      if cancel_requested r (mkRunRef (so_tenant_id s) run_id run_id) then
        let events := build_cancelled_progress_events (calls_of s run_id) run_id in
        if delivered || bool_decide (events = []) then
          let r' := mark_cancelled_if_running r now1 (so_tenant_id s) run_id "cancel_requested_in_flight" in
          let '(s', r') := finish_task s r' id t now2 in (events, s', r')
        else let '(s', r') := finish_task s r id t now2 in ([], s', r')
      else
        let t := note_terminal_task d t in
        let s := with_tasks s (od_set id t (so_tasks s)) (active_tasks s) (active_run_tool_calls s) in
        if delivered then ([d], s, r)
        else let '(s, r) := finish_task s r id t now2 in ([], s, r)
  end.

(** The stream of a task is exhausted. *)
Definition task_end s r (id : nat) (now : string) : socket * registry_t :=
  match od_get id (so_tasks s) with
  | None => (s, r)
  | Some t => finish_task s r id t now
  end.

(** A message of type "turn" with a non-blank input. *)
Definition turn_message s (g : gateway) (c : limits) (overlay : pydict) (user_input run_id : string)
    (now : Z) (elapsed : Q) (started1 started2 : string)
    : list pydict * socket * gateway * list audit_event :=
  let t := mkTurnRequest (so_tenant_id s) (so_session_id s) run_id "websocket" user_input
             (so_identity s) in
  let '(outcome, g, audits) := admit_turn g c overlay t now elapsed started1 started2 run_id in
  match outcome with
  | inr refused => ([event_of_rejection refused run_id], s, g, audits)
  | inl _ =>
      ([],
       mkSocket (so_tenant_id s) (so_session_id s) (so_identity s) (so_has_adapter s)
         (so_tasks s ++ [(so_next s, mkTask run_id false false "" "" "")])
         (od_set run_id (so_next s) (active_tasks s)) (active_run_tool_calls s) (S (so_next s)),
       g, audits)
  end.

(** A message of type "cancel"; what it sends reaches the client. *)
Definition cancel_message s r (run_id now1 now2 now3 : string)
    : list pydict * list string * socket * registry_t :=
  let r := (RunControlRegistry.request_cancel r now1 (so_tenant_id s) run_id "websocket_cancel_message").2 in
  let calls := calls_of s run_id in
  let '(asked, _) :=
    forward_runtime_cancellations request_cancellation (so_has_adapter s) calls false in
  let '(s', r) :=
    match od_get run_id (active_tasks s) with
    | Some id => cancel_task s r id now2 now2
    | None => (s, r)
    end in
  let s' := with_tasks s' (so_tasks s') (od_pop run_id (active_tasks s'))
              (od_pop run_id (active_run_tool_calls s')) in
  (build_cancelled_progress_events calls run_id ++
     [[("event", PStr "run_cancelled"); ("run_id", PStr run_id)]],
   asked, s',
   mark_cancelled_if_running r now3 (so_tenant_id s) run_id "websocket_cancel_message").

Definition is_str (v : pyval) (s : string) : bool :=
  match v with PStr x => x =?s s | _ => false end.

(** A parsed message: a turn, a cancellation or another type; [fresh] is drawn for a turn
    without run_id. *)
Definition receive s (g : gateway) (c : limits) (overlay : pydict) (msg : pydict) (fresh : string)
    (now : Z) (elapsed : Q) (now1 now2 now3 : string)
    : list pydict * socket * gateway * list audit_event :=
  let type := dict_get msg "type" (PStr "") in
  if is_str type "turn" then
    let user_input := py_strip (dict_get_str float_repr msg "input" "") in
    if negb (py_bool user_input) then
      ([[("event", PStr "error"); ("code", PStr "EMPTY_INPUT"); ("message", PStr "Turn input is empty")]],
       s, g, [])
    else
      let raw := dict_get msg "run_id" (PStr "") in
      let run_id := if truthy raw then py_str float_repr raw else fresh in
      turn_message s g c overlay user_input run_id now elapsed now1 now2
  else if is_str type "cancel" then
    let run_id := dict_get_str float_repr msg "run_id" "" in
    let '(sent, _, s, r) := cancel_message s (registry g) run_id now1 now2 now3 in
    (sent, s, with_registry g r, [])
  else
    ([[("event", PStr "error"); ("code", PStr "UNKNOWN_MESSAGE_TYPE");
       ("message", PStr ("Unknown message type: '" +:+ py_str float_repr type +:+ "'"))]],
     s, g, []).

(** One iteration of the loop after the disconnection: a task that is done is skipped, another
    is told to stop and its run marked. *)
Definition disconnect_run (now : string) (sr : socket * registry_t) (p : string * nat)
    : socket * registry_t :=
  let '(s, r) := sr in
  let '(run_id, id) := p in
  match od_get id (so_tasks s) with
  | None => (s, r)
  | Some _ =>
      let r := (RunControlRegistry.request_cancel r now (so_tenant_id s) run_id "websocket_disconnect").2 in
      (with_tasks s (so_tasks s) (active_tasks s) (od_pop run_id (active_run_tool_calls s)),
       mark_cancelled_if_running r now (so_tenant_id s) run_id "websocket_disconnect")
  end.

Definition disconnect s r (now : string) : socket * registry_t :=
  foldl (disconnect_run now) (s, r) (active_tasks s).
End socket.

(** ** What settles a run *)

Section facts.
Context (float_repr : Q → string) (request_cancellation : string → bool).
Notation registry_t := RunControlRegistry.t.
Notation run_of r t run := (od_get (t, run) (RunControlRegistry.records r)).
Notation mark_cancelled_if_running := (mark_cancelled_if_running float_repr).
Implicit Types (s : socket) (r : registry_t).

(** The run has ended, or the registry does not have it. *)
Definition settled r (tenant run : string) : Prop :=
  ∀ x, run_of r tenant run = Some x → is_terminal (rn_status x) = true.

Lemma get_run_status r tenant run x :
  run_of r tenant run = Some x →
  RunControlRegistry.get_run r tenant run = Some (to_dict x) ∧
  dict_get_str float_repr (to_dict x) "status" "" = rn_status x.
Proof. intros H. unfold RunControlRegistry.get_run. by rewrite H. Qed.

Lemma mark_cancelled_settles r now tenant run ev :
  settled (mark_cancelled_if_running r now tenant run ev) tenant run.
Proof.
  intros x. unfold TurnSocket.mark_cancelled_if_running.
  destruct (run_of r tenant run) as [y|] eqn:E.
  - destruct (get_run_status _ _ _ _ E) as [-> ->].
    fold (is_terminal (rn_status y)). change (bool_decide (rn_status y ∈ _))
      with (is_terminal (rn_status y)). destruct (is_terminal (rn_status y)) eqn:Ht.
    + rewrite E. by intros [= <-].
    + intros Hx. apply mark_terminal_status in Hx. by rewrite Hx.
  - unfold RunControlRegistry.get_run. rewrite E. cbn. by rewrite E.
Qed.

Lemma mark_terminal_keeps_settled r now tenant' run' status ev m tenant run :
  is_terminal status = true → settled r tenant run →
  settled (RunControlRegistry.mark_terminal r now tenant' run' status ev m).2 tenant run.
Proof.
  intros Hs Hr x Hx. destruct (decide ((tenant', run') = (tenant, run))) as [[= -> ->]|Hne].
  - apply mark_terminal_status in Hx. by rewrite Hx.
  - unfold RunControlRegistry.mark_terminal in Hx. destruct (run_of r tenant' run'); [|by apply Hr].
    apply prune_subset in Hx. cbn [RunControlRegistry.records RunControlRegistry.with_records] in Hx.
    rewrite od_get_set_ne in Hx by congruence. by apply Hr.
Qed.

Lemma request_cancel_keeps_settled r now tenant' run' reason tenant run :
  settled r tenant run →
  settled (RunControlRegistry.request_cancel r now tenant' run' reason).2 tenant run.
Proof.
  intros Hr x. unfold RunControlRegistry.request_cancel.
  destruct (run_of r tenant' run') as [y|] eqn:E; [|by apply Hr].
  cbn [snd RunControlRegistry.records RunControlRegistry.with_records].
  destruct (decide ((tenant', run') = (tenant, run))) as [[= -> ->]|Hne].
  - rewrite od_get_set. intros [= <-]. cbn [rn_status]. specialize (Hr _ E).
    rewrite Hr. cbn [negb]. exact Hr.
  - rewrite od_get_set_ne by congruence. apply Hr.
Qed.

Lemma mark_cancelled_keeps_settled r now tenant' run' ev tenant run :
  settled r tenant run → settled (mark_cancelled_if_running r now tenant' run' ev) tenant run.
Proof.
  intros Hr. unfold TurnSocket.mark_cancelled_if_running.
  destruct (RunControlRegistry.get_run _ _ _); [|done]. destruct (bool_decide _); [done|].
  by apply mark_terminal_keeps_settled.
Qed.

Lemma disconnect_run_settles now s r p :
  is_Some (od_get p.2 (so_tasks s)) →
  settled (disconnect_run float_repr now (s, r) p).2 (so_tenant_id s) p.1.
Proof.
  destruct p as [run id]. cbn. intros [t ->]. apply mark_cancelled_settles.
Qed.

Lemma disconnect_run_keeps now sr p tenant run :
  let sr' := disconnect_run float_repr now sr p in
  so_tenant_id sr'.1 = so_tenant_id sr.1 ∧ so_tasks sr'.1 = so_tasks sr.1 ∧
  (settled sr.2 tenant run → settled sr'.2 tenant run).
Proof.
  destruct sr as [s r], p as [run' id]. cbn. destruct (od_get id (so_tasks s)); [|done].
  split; [done|]. split; [done|]. intros Hr.
  by apply mark_cancelled_keeps_settled, request_cancel_keeps_settled.
Qed.

Lemma disconnect_loop now ps sr run id :
  (run, id) ∈ ps → is_Some (od_get id (so_tasks sr.1)) →
  settled (foldl (disconnect_run float_repr now) sr ps).2 (so_tenant_id sr.1) run.
Proof.
  revert sr. induction ps as [|p ps IH]; intros sr Hin Hid; [by apply not_elem_of_nil in Hin|].
  cbn [foldl]. destruct (disconnect_run_keeps now sr p (so_tenant_id sr.1) run) as (Ht & Hk & _).
  apply elem_of_cons in Hin as [<-|Hin].
  - assert (settled (disconnect_run float_repr now sr (run, id)).2 (so_tenant_id sr.1) run) as Hs.
    { destruct sr as [s r]. by apply (disconnect_run_settles now s r (run, id)). }
    clear IH Hk. set (tenant := so_tenant_id sr.1) in *. clearbody tenant.
    revert Hs. generalize (disconnect_run float_repr now sr (run, id)). clear Ht Hid sr.
    induction ps as [|q ps IH]; intros sr Hs; [done|]. cbn [foldl]. apply IH.
    by apply (disconnect_run_keeps now sr q tenant run).
  - rewrite <- Ht. apply IH; [done|]. by rewrite Hk.
Qed.

(** C40: Cancelling a run over its WebSocket settles it, and so does a disconnection for every
    run whose task is still going: the registry has the run no longer, or has it as completed,
    errored or cancelled. *)
Theorem websocket_settles_runs s r run n1 n2 n3 :
  settled (cancel_message float_repr request_cancellation s r run n1 n2 n3).2 (so_tenant_id s) run ∧
  ∀ run' id, (run', id) ∈ active_tasks s → is_Some (od_get id (so_tasks s)) →
    settled (disconnect float_repr s r n1).2 (so_tenant_id s) run'.
Proof.
  split.
  - unfold cancel_message. destruct (forward_runtime_cancellations _ _ _ _) as [asked n].
    destruct (match od_get run (active_tasks s) with Some id => _ | None => _ end) as [s' r'].
    apply mark_cancelled_settles.
  - intros run' id Hin Hid. by apply (disconnect_loop n1 (active_tasks s) (s, r) run' id).
Qed.

(** A WebSocket turn whose stream ends, or whose client cannot be written to, before an
    event that ends the turn leaves its run active for good: the task is forgotten, so the
    disconnection does not settle the run either. *)
Theorem websocket_unterminated_run_leaks s r id t n1 n2 x :
  od_get id (so_tasks s) = Some t → tk_terminal_event_seen t = false →
  (∀ run' id', (run', id') ∈ active_tasks s → run' = tk_run_id t ∨ od_get id' (so_tasks s) = None) →
  run_of r (so_tenant_id s) (tk_run_id t) = Some x → is_active (rn_status x) = true →
  let '(s', r') := task_end s r id n1 in
  ∃ x', run_of (disconnect float_repr s' r' n2).2 (so_tenant_id s) (tk_run_id t) = Some x' ∧
        is_active (rn_status x') = true.
Proof.
  intros Hid Ht Hothers Hx Ha. unfold task_end. rewrite Hid. unfold finish_task. rewrite Ht.
  exists x. split; [|done]. unfold disconnect. cbn [active_tasks with_tasks].
  set (s' := with_tasks _ _ _ _).
  assert (∀ ps, (∀ p, p ∈ ps → od_get p.2 (so_tasks s') = None) →
    foldl (disconnect_run float_repr n2) (s', r) ps = (s', r)) as Hfold.
  { induction ps as [|[run' id'] ps IH]; intros Hps; [done|]. cbn [foldl disconnect_run].
    specialize (Hps (run', id')) as Hp. cbn [snd] in Hp. rewrite Hp by set_solver.
    apply IH. set_solver. }
  rewrite Hfold; [done|]. intros [run' id'] Hp. cbn [snd].
  rewrite od_pop_filter in Hp. apply list_elem_of_filter in Hp as [Hne Hp]. cbn in Hne.
  destruct (Hothers _ _ Hp) as [->|Hn]; [done|]. cbn [so_tasks s' with_tasks].
  destruct (decide (id' = id)) as [->|]; [apply od_get_pop|by rewrite od_get_pop_ne].
Qed.
End facts.

(** A connection with one task, whose run is in the registry. *)
Lemma websocket_unterminated_run_leaks_witness :
  let user := mkIdentityContext "bob" Human [] "acme" "" TokenValid "" "" false in
  let s := mkSocket "acme" "s1" user true [(0%nat, mkTask "r1" true false "" "" "")]
             [("r1", 0%nat)] [] 1 in
  let x := mkRun "acme" "s1" "r1" "r1" "websocket" "running" ∅ false "" "t0" "t0" "" "" "" in
  let r := RunControlRegistry.mkRegistry [(("acme", "r1"), x)] 0 in
  ∃ x', od_get ("acme", "r1")
          (RunControlRegistry.records
             (disconnect (λ _, "") (task_end s r 0 "t1").1 (task_end s r 0 "t1").2 "t2").2) = Some x' ∧
        is_active (rn_status x') = true.
Proof.
  intros user s x r.
  apply (websocket_unterminated_run_leaks (λ _, "") (λ _, true) s r 0 (mkTask "r1" true false "" "" "") "t1" "t2" x);
    [reflexivity|reflexivity| |reflexivity|reflexivity].
  intros run' id' Hin. apply list_elem_of_singleton in Hin. injection Hin as -> _. by left.
Defined.
