(* ===== verification/TenantPolicyApi.v ===== *)
(** * The tenant policy and quota routes

    Models src/api/routers/tenants.py with the requests of
    src/api/schemas/tenant_schemas.py: reading and setting a tenant's policy overlay, listing
    and applying the packaged templates, and the quota of a tenant's context.  [policy_app] is
    what the routes read and change of the application; every route gives its answer, the
    overlays after it and the audit events it emitted, in order.  The tenant scope is checked
    before a route runs (Authentication.v); the random part of a correlation id is an
    argument.  A setting that is not valid fails the request model first, with status 422. *)

From S2P Require Import Prelude PyValue Tenancy Identity Authentication Entitlements RunControl.
From S2P Require Import ToolIO ToolExecutor RiskGates SignedPlugins IngressProfiles PolicyTemplates.
From S2P Require Import TenantRuntime.

(** ** Requests and answers *)

Record PolicyOverlayRequest := mkPolicyRequest {
  po_deny_tools : list string;
  po_escalate_risk_tiers : list string;
  po_escalate_state_changing : bool;
  po_extra : pydict;
}.

Record PolicyOverlayResponse := mkPolicyResponse { pr_tenant_id : string; pr_overlay : pydict }.

Record PolicyTemplateApplyRequest := mkApplyRequest {
  pa_merge_with_existing : bool;
  pa_extra : pydict;
}.

Record PolicyTemplateApplyResponse := mkApplyResponse {
  ap_tenant_id : string;
  ap_template_id : string;
  ap_packaged_risk_profile_id : string;
  ap_overlay : pydict;
}.

Record QuotaResponse := mkQuotaResponse {
  qr_tenant_id : string;
  qr_max_active_jobs : Z;
  qr_active_jobs : Z;
}.

(** The overlay that a request asks for: the extra fields come last. *)
Definition requested_overlay (b : PolicyOverlayRequest) : pydict :=
  dict_update
    [("deny_tools", PList (PStr <$> po_deny_tools b));
     ("escalate_risk_tiers", PList (PStr <$> po_escalate_risk_tiers b));
     ("escalate_state_changing", PBool (po_escalate_state_changing b))]
    (po_extra b).

(** ** The application *)

Record policy_app := mkPolicyApp {
  policy_overlays : TenantPolicyOverlayStore.t;
  (** The run registry of the application's modules, where they are configured *)
  run_registry : option RunControlRegistry.t;
  has_audit_pipeline : bool;
}.

Definition with_overlays (a : policy_app) (s : TenantPolicyOverlayStore.t) : policy_app :=
  mkPolicyApp s (run_registry a) (has_audit_pipeline a).

(** [_active_run_count] *)
Definition active_run_count (a : policy_app) (tenant_id : string) : Z :=
  match run_registry a with
  | None => 0
  | Some r => RunControlRegistry.count_active_runs r tenant_id
  end.

Section policy_routes.
Context {A : Type} `{!PolicyActions A}.
Variable float_repr : Q → string.
Variable re_compiles : string → bool.
Variable sha256_hex : string → string.
#[local] Notation resolve_ingress := (resolve_ingress_profile_settings float_repr re_compiles sha256_hex).
#[local] Notation compile_template := (compile_policy_template_overlay float_repr re_compiles sha256_hex).
#[local] Notation required_feature := (required_feature_for_governance_overlay float_repr).
#[local] Notation evaluate_feature_entitlement := (evaluate_feature_entitlement (A := A)).

(** The validator of [PolicyOverlayRequest] *)
Definition validate_ingress_overlay_compatibility (b : PolicyOverlayRequest) : res unit :=
  let! _ := resolve_ingress (requested_overlay b) in Ok tt.

(** [_policy_entitlement_http_exception] *)
Definition entitlement_refused {B} (d : EntitlementDecision A) : http B :=
  HTTPException 403 (ed_reason_code d +:+ ": " +:+ ed_message d).

(** [str(overlay.get("signed_gate_plugin_ref", "")).strip()] *)
Definition plugin_ref_of (overlay : pydict) : string :=
  py_strip (dict_get_str float_repr overlay "signed_gate_plugin_ref" "").

(** The two events of a changed ingress profile: the second one only when the signed plugin
    changes. *)
Definition emit_ingress_profile_audit_events (a : policy_app) (tenant_id correlation_id surface route : string)
    (ingress_audit_payload : pydict) (lifecycle : string * string * string) (active : Z)
    : list audit_event :=
  let '(action, previous_ref, new_ref) := lifecycle in
  let place := [("surface", PStr surface); ("route", PStr route)] in
  emit (has_audit_pipeline a) correlation_id tenant_id "tenant_policy_ingress_profile_configured"
    (dict_update place ingress_audit_payload) ++
  (if action =?s "none" then []
   else
     emit (has_audit_pipeline a) correlation_id tenant_id "tenant_policy_signed_gate_plugin_lifecycle"
       (dict_update
          (place ++ [("action", PStr action); ("previous_signed_gate_plugin_ref", PStr previous_ref);
                     ("new_signed_gate_plugin_ref", PStr new_ref); ("active_run_count", PInt active)])
          ingress_audit_payload)).

Definition get_policy (a : policy_app) (tenant_id : string) : PolicyOverlayResponse :=
  mkPolicyResponse tenant_id (TenantPolicyOverlayStore.get_overlay (policy_overlays a) tenant_id).

(** The summaries of the templates; one that does not resolve fails the request. *)
Fixpoint summaries (ts : list PolicyTemplateDefinition) : res (list pydict) :=
  match ts with
  | [] => Ok []
  | t :: ts =>
      let! p := policy_template_summary_payload float_repr re_compiles sha256_hex t in
      let! ps := summaries ts in
      Ok (p :: ps)
  end.

(** [list_policy_templates] of the router *)
Definition policy_templates_route (a : policy_app) (tenant_id : string) (identity : IdentityContext)
    (token : string) : http (list pydict) * list audit_event :=
  let d := evaluate_feature_entitlement identity PolicyTemplates in
  let events :=
    emit_entitlement_decision_event (has_audit_pipeline a) ("entitlement_" +:+ token) tenant_id
      "tenant_policy_template_catalog" "GET /tenants/{tenant_id}/policy/templates" d [] in
  if negb (bool_decide (ed_decision d = ALLOW)) then (entitlement_refused d, events)
  else (or_500 (summaries list_policy_templates), events).

Definition apply_route : string := "POST /tenants/{tenant_id}/policy/templates/{template_id}/apply".
Definition set_route : string := "PUT /tenants/{tenant_id}/policy".

(** [classify_signed_plugin_lifecycle_transition] of a route: a blocked change is a conflict. *)
Definition lifecycle_of (previous_ref new_ref : string) (active : Z) : http (string * string * string) :=
  value_error_as 409 (classify_lifecycle_transition previous_ref new_ref active).

(** Where a route stands once it has emitted its entitlement decisions.  Emitting suspends the
    route, so other requests run between this point and [store_update]; what the route read of
    the overlays before is kept here. *)
Record pending_update := mkPending {
  up_tenant_id : string;
  up_correlation_id : string;
  up_surface : string;
  up_route : string;
  (** The plugin of the overlay that the route read at its start *)
  up_previous_ref : string;
  up_next_ref : string;
  up_overlay : pydict;
  up_resolution : IngressProfileResolution;
}.

(** The rest of a route: the plugin's lifecycle, the overlay, the profile's audit events. *)
Definition store_update (a : policy_app) (p : pending_update) : http unit * policy_app * list audit_event :=
  let active := active_run_count a (up_tenant_id p) in
  match lifecycle_of (up_previous_ref p) (up_next_ref p) active with
  | HTTPException c m => (HTTPException c m, a, [])
  | Reply lifecycle =>
      (Reply tt,
       with_overlays a
         (TenantPolicyOverlayStore.set_overlay (policy_overlays a) (up_tenant_id p) (up_overlay p)),
       emit_ingress_profile_audit_events a (up_tenant_id p) (up_correlation_id p) (up_surface p)
         (up_route p) (to_audit_payload (up_resolution p)) lifecycle active)
  end.

(** [set_policy] up to its first suspension *)
Definition begin_set_policy (a : policy_app) (tenant_id : string) (b : PolicyOverlayRequest)
    (identity : IdentityContext) (token : string) : http pending_update * list audit_event :=
  let previous := TenantPolicyOverlayStore.get_overlay (policy_overlays a) tenant_id in
  let overlay := requested_overlay b in
  match value_error_as 422 (resolve_ingress overlay) with
  | HTTPException c m => (HTTPException c m, [])
  | Reply resolution =>
      let patch := to_overlay_patch resolution in
      let d := evaluate_feature_entitlement identity (required_feature overlay) in
      let correlation_id := "entitlement_" +:+ token in
      let events :=
        emit_entitlement_decision_event (has_audit_pipeline a) correlation_id tenant_id
          "tenant_policy_overlay" set_route d [] in
      if negb (bool_decide (ed_decision d = ALLOW)) then (entitlement_refused d, events)
      else
        (Reply (mkPending tenant_id correlation_id "tenant_policy_overlay" set_route
                  (plugin_ref_of previous) (plugin_ref_of patch) (dict_update overlay patch) resolution),
         events)
  end.

Definition set_policy (a : policy_app) (tenant_id : string) (b : PolicyOverlayRequest)
    (identity : IdentityContext) (token : string)
    : http PolicyOverlayResponse * policy_app * list audit_event :=
  match begin_set_policy a tenant_id b identity token with
  | (HTTPException c m, events) => (HTTPException c m, a, events)
  | (Reply p, events) =>
      let '(h, a, stored) := store_update a p in
      ((let? _ := h in Reply (mkPolicyResponse tenant_id (up_overlay p))), a, events ++ stored)
  end.

(** [apply_policy_template] up to its last suspension before it stores the overlay *)
Definition begin_apply (a : policy_app) (tenant_id template_id : string)
    (b : PolicyTemplateApplyRequest) (identity : IdentityContext) (token : string)
    : http (PolicyTemplateDefinition * pending_update) * list audit_event :=
  let previous := TenantPolicyOverlayStore.get_overlay (policy_overlays a) tenant_id in
  match value_error_as 422
          (compile_template template_id (if pa_merge_with_existing b then previous else []) (pa_extra b)) with
  | HTTPException c m => (HTTPException c m, [])
  | Reply (template, overlay, resolution) =>
      let correlation_id := "entitlement_" +:+ token in
      let entitlement surface d :=
        emit_entitlement_decision_event (has_audit_pipeline a) correlation_id tenant_id surface
          apply_route d
          [("template_id", PStr (PolicyTemplates.template_id template));
           ("packaged_risk_profile_id", PStr (packaged_risk_profile_id template));
           ("merge_with_existing", PBool (pa_merge_with_existing b))] in
      let access := evaluate_feature_entitlement identity PolicyTemplates in
      let events := entitlement "tenant_policy_template_apply" access in
      if negb (bool_decide (ed_decision access = ALLOW)) then (entitlement_refused access, events)
      else
        let d := evaluate_feature_entitlement identity (required_feature overlay) in
        let events := events ++ entitlement "tenant_policy_template_apply_overlay" d in
        if negb (bool_decide (ed_decision d = ALLOW)) then (entitlement_refused d, events)
        else
          (Reply (template,
                  mkPending tenant_id correlation_id "tenant_policy_template_apply" apply_route
                    (plugin_ref_of previous) (plugin_ref_of overlay) overlay resolution),
           events)
  end.

Definition apply_policy_template (a : policy_app) (tenant_id template_id : string)
    (b : PolicyTemplateApplyRequest) (identity : IdentityContext) (token : string)
    : http PolicyTemplateApplyResponse * policy_app * list audit_event :=
  match begin_apply a tenant_id template_id b identity token with
  | (HTTPException c m, events) => (HTTPException c m, a, events)
  | (Reply (template, p), events) =>
      match store_update a p with
      | (HTTPException c m, a, stored) => (HTTPException c m, a, events ++ stored)
      | (Reply _, a, stored) =>
          (Reply (mkApplyResponse tenant_id (PolicyTemplates.template_id template)
                    (packaged_risk_profile_id template) (up_overlay p)),
           a,
           events ++ stored ++
           emit (has_audit_pipeline a) (up_correlation_id p) tenant_id "tenant_policy_template_applied"
             (dict_update
                [("surface", PStr "tenant_policy_template_apply"); ("route", PStr apply_route);
                 ("template_id", PStr (PolicyTemplates.template_id template));
                 ("packaged_risk_profile_id", PStr (packaged_risk_profile_id template));
                 ("minimum_tier", PStr (minimum_tier template));
                 ("merge_with_existing", PBool (pa_merge_with_existing b));
                 ("extra_keys", PList (PStr <$> sorted_strings (od_keys (pa_extra b))))]
                (to_audit_payload (up_resolution p))))
      end
  end.

(** The whole request: the model is validated before the route runs. *)
Definition put_policy (a : policy_app) (tenant_id : string) (b : PolicyOverlayRequest)
    (identity : IdentityContext) (token : string)
    : http PolicyOverlayResponse * policy_app * list audit_event :=
  match validate_ingress_overlay_compatibility b with
  | Raise e => (HTTPException 422 (exn_message e), a, [])
  | Ok _ => set_policy a tenant_id b identity token
  end.
End policy_routes.

(** ** Quotas

    The routes work on the context that [get_tenant_context] finds or creates. *)
Section quota_routes.
Context `{!ToolIO} {Handler Adapter : Type}.
Variable float_repr : Q → string.
Variable byoc_execute sandbox_execute :
  ToolCallContext → ToolRegistry.ToolDescriptor Handler → res ToolResult.
#[local] Notation factory := (TenantRuntime.t (Handler := Handler) (Adapter := Adapter)).
#[local] Notation get_or_create := (get_or_create float_repr byoc_execute sandbox_execute (Adapter := Adapter)).

(** Assigning to [ctx.quota_manager]'s limit. *)
Definition with_quota (x : TenantRuntimeContext (Handler := Handler)) (q : Quotas.TenantQuotaManager)
    : TenantRuntimeContext :=
  mkContext (cx_tenant_id x) (cx_tool_registry x) (cx_policy_middleware x) (cx_tool_executor x)
    (cx_agent_registry x) q.

Definition quota_response (tenant_id : string) (q : Quotas.TenantQuotaManager) : QuotaResponse :=
  mkQuotaResponse tenant_id (Quotas.max_active_jobs q) 0.

(** [readings]: the two readings of the clock that [get_or_create] makes *)
Definition get_quota (c : RuntimeSettings) (f : factory) (readings : Z * Z) (tenant_id : string)
    : http QuotaResponse * factory :=
  let '(ctx, f) := get_or_create c f readings.1 readings.2 tenant_id in
  match od_get ctx (heap f) with
  | None => (internal_error (OtherException "no such context"), f)
  | Some x => (Reply (quota_response tenant_id (cx_quota_manager x)), f)
  end.

(** [ge=0] of [QuotaUpdateRequest] *)
Definition quota_request_valid (max_active_jobs : Z) : bool := 0 <=? max_active_jobs.

Definition update_quota (c : RuntimeSettings) (f : factory) (readings : Z * Z) (tenant_id : string)
    (max_active_jobs : Z) : http QuotaResponse * factory :=
  if negb (quota_request_valid max_active_jobs) then
    (HTTPException 422 "Input should be greater than or equal to 0", f)
  else
    let '(ctx, f) := get_or_create c f readings.1 readings.2 tenant_id in
    match od_get ctx (heap f) with
    | None => (internal_error (OtherException "no such context"), f)
    | Some x =>
        match value_error_as 422 (Quotas.set_limit (cx_quota_manager x) max_active_jobs) with
        | HTTPException code m => (HTTPException code m, f)
        | Reply q => (Reply (quota_response tenant_id q), update_context f ctx (with_quota x q))
        end
    end.
End quota_routes.
