(* ===== verification/TenantPolicyFacts.v ===== *)
(** * Properties of the tenant policy routes

    What setting an overlay answers and stores, that every stored overlay loads again and what
    it asks of the callers' tiers, and when a loaded signed plugin stays. *)

From S2P Require Import Prelude PyValue Identity Authentication Entitlements RunControl.
From S2P Require Import ToolIO RiskGates SignedPlugins IngressProfiles IngressProfilesFacts IngressGates.
From S2P Require Import PolicyTemplates TenantRuntime TenantPolicyApi Sample.

Section policy_facts.
Context {A : Type} `{!PolicyActions A}.
Context (float_repr : Q → string) (re_compiles : string → bool) (sha256_hex : string → string).
#[local] Notation resolve_ingress := (resolve_ingress_profile_settings float_repr re_compiles sha256_hex).
#[local] Notation required_feature := (required_feature_for_governance_overlay float_repr).
#[local] Notation entitlement := (evaluate_feature_entitlement (A := A)).
#[local] Notation put_policy := (put_policy (A := A) float_repr re_compiles sha256_hex).
#[local] Notation set_policy := (set_policy (A := A) float_repr re_compiles sha256_hex).
#[local] Notation begin_set_policy := (begin_set_policy (A := A) float_repr re_compiles sha256_hex).
#[local] Notation begin_apply := (begin_apply (A := A) float_repr re_compiles sha256_hex).
#[local] Notation apply_policy_template := (apply_policy_template (A := A) float_repr re_compiles sha256_hex).
#[local] Notation plugin_ref_of := (plugin_ref_of float_repr).

(** The plugin of a tenant's overlay. *)
Definition loaded_plugin (a : policy_app) (tid : string) : string :=
  plugin_ref_of (TenantPolicyOverlayStore.get_overlay (policy_overlays a) tid).

Lemma plugin_ref_patched o r :
  plugin_ref_of (dict_update o (to_overlay_patch r)) = plugin_ref_of (to_overlay_patch r).
Proof.
  unfold TenantPolicyApi.plugin_ref_of, dict_get_str, dict_get.
  by rewrite (od_get_patched o r "signed_gate_plugin_ref" (plugin_field r plugin_ref)).
Qed.

(** An overlay with its normalized settings is for tenants of the Pro tier at least: it always
    has an input limit. *)
Lemma patched_needs_pro o o' r :
  resolve_ingress o = Ok r →
  0 < tier_order (min_tier_for_feature (required_feature (dict_update o' (to_overlay_patch r)))).
Proof.
  intros [(_ & [Hpos _] & _) _]%resolution_ok. unfold required_feature_for_governance_overlay. cbv zeta.
  assert (dict_get (dict_update o' (to_overlay_patch r)) "ingress_max_input_chars" PNone
          = PInt (max_input_chars r)) as ->.
  { unfold dict_get. by rewrite (od_get_patched o' r "ingress_max_input_chars" (PInt (max_input_chars r))). }
  unfold positive_int. cbn [as_int]. rewrite (proj2 (Z.ltb_lt _ _) Hpos).
  repeat case_match; cbn; lia.
Qed.

(** When the lifecycle guard lets an overlay in. *)
Definition plugin_change_allowed (previous next : string) (active : Z) : Prop :=
  previous = "" ∨ previous = next ∨ active ≤ 0.

#[export] Instance plugin_change_allowed_dec p n k : Decision (plugin_change_allowed p n k).
Proof. unfold plugin_change_allowed. apply _. Defined.

Lemma plugin_ref_stripped o : py_strip (plugin_ref_of o) = plugin_ref_of o.
Proof. apply py_strip_idem. Qed.

Lemma lifecycle_replaces prev next :
  lifecycle_action prev next ∈ ["unload"; "reload"] ↔ prev ≠ "" ∧ prev ≠ next.
Proof.
  unfold lifecycle_action. rewrite !elem_of_cons, elem_of_nil. destruct (decide (prev = next)) as [->|Hne].
  { rewrite bool_decide_true by done. split; [by intros [?|[?|[]]]|by intros [_ []]]. }
  rewrite bool_decide_false by done.
  destruct prev as [|c s], next as [|c' s']; cbn; naive_solver.
Qed.

Lemma lifecycle_spec prev next active :
  py_strip prev = prev → py_strip next = next →
  if decide (plugin_change_allowed prev next active)
  then ∃ action, lifecycle_of prev next active = Reply (action, prev, next)
  else ∃ m, lifecycle_of prev next active = HTTPException 409 m.
Proof.
  intros Hp Hn. unfold lifecycle_of, classify_lifecycle_transition. rewrite Hp, Hn. cbv zeta.
  destruct (bool_decide (lifecycle_action prev next ∈ ["unload"; "reload"])) eqn:E.
  - apply bool_decide_eq_true, lifecycle_replaces in E as [? ?]. unfold plugin_change_allowed.
    destruct (Z.ltb_spec 0 active).
    + rewrite decide_False by naive_solver lia. by eexists.
    + rewrite decide_True by auto. by eexists.
  - apply bool_decide_eq_false in E. rewrite lifecycle_replaces in E.
    rewrite decide_True; [by eexists|]. unfold plugin_change_allowed.
    destruct (decide (prev = "")), (decide (prev = next)); tauto.
Qed.

(** What [store_update] does, by the plugin's lifecycle. *)
Lemma store_update_spec a p :
  py_strip (up_previous_ref p) = up_previous_ref p → py_strip (up_next_ref p) = up_next_ref p →
  if decide (plugin_change_allowed (up_previous_ref p) (up_next_ref p) (active_run_count a (up_tenant_id p)))
  then ∃ events, store_update a p =
         (Reply tt, with_overlays a (<[up_tenant_id p := up_overlay p]> (policy_overlays a)), events)
  else ∃ m, store_update a p = (HTTPException 409 m, a, []).
Proof.
  intros Hp Hn. unfold store_update.
  pose proof (lifecycle_spec _ _ (active_run_count a (up_tenant_id p)) Hp Hn) as Hl. case_decide.
  - destruct Hl as [action ->]. by eexists.
  - destruct Hl as [m ->]. by eexists.
Qed.

(** An overlay that the routes store: it loads, and is not for the lowest tier. *)
Definition good_overlay (o : pydict) : Prop :=
  (∃ r, resolve_ingress o = Ok r) ∧ 0 < tier_order (min_tier_for_feature (required_feature o)).

Lemma patched_good o o' r : resolve_ingress o = Ok r → good_overlay (dict_update o' (to_overlay_patch r)).
Proof. intros Hr. split; [eexists; by eapply resolve_patched|by eapply patched_needs_pro]. Qed.

(** What a route that is about to store an overlay knows. *)
Record pending_ok (a : policy_app) (tid : string) (p : pending_update) : Prop := {
  pk_tenant : up_tenant_id p = tid;
  pk_previous : up_previous_ref p = loaded_plugin a tid;
  pk_next : up_next_ref p = plugin_ref_of (up_overlay p);
  pk_overlay : good_overlay (up_overlay p);
}.

Lemma begin_set_ok a tid b i token p events :
  begin_set_policy a tid b i token = (Reply p, events) → pending_ok a tid p.
Proof.
  unfold TenantPolicyApi.begin_set_policy. destruct (value_error_as _ _) as [r|] eqn:Er; [|done].
  apply value_error_as_reply in Er. case_bool_decide; [|done]. cbn [negb]. intros [= <- _].
  split; [done|done|by rewrite <- plugin_ref_patched with (o := requested_overlay b)|].
  by eapply patched_good.
Qed.

Lemma begin_apply_ok a tid id b i token t p events :
  begin_apply a tid id b i token = (Reply (t, p), events) → pending_ok a tid p.
Proof.
  unfold TenantPolicyApi.begin_apply. destruct (value_error_as _ _) as [[[t' o] r]|] eqn:Er; [|done].
  apply value_error_as_reply in Er. revert Er. unfold compile_policy_template_overlay.
  destruct (resolve_policy_template id) as [t''|]; [|done]. cbn [res_bind].
  destruct (validate_template_extra_keys _); [|done]. cbn [res_bind].
  destruct (resolve_ingress (template_overlay _ _ _)) as [r'|] eqn:Er'; [|done]. cbn [res_bind].
  intros (-> & <- & ->)%ok_triple. do 2 (case_bool_decide; [|done]; cbn [negb]). intros [= _ <- _].
  split; [done..|]. by eapply patched_good.
Qed.

(** ** Setting an overlay *)

(** C20: Setting a tenant's policy, on every branch: an overlay whose ingress settings do not resolve
    is refused with 422 and nothing is emitted; a caller without the feature the requested
    overlay needs with 403; an overlay that replaces or drops the loaded signed plugin while the
    tenant has active runs with 409; in each case no overlay changes.  Otherwise the answer is
    the overlay that is stored: it loads as the resolved settings, its plugin is the resolved
    one, and what is not an ingress setting is as requested. *)
Theorem policy_update_exact a tid b i token :
  let o := requested_overlay b in
  let d := entitlement i (required_feature o) in
  let '(h, a', events) := put_policy a tid b i token in
  match resolve_ingress o with
  | Raise e => h = HTTPException 422 (exn_message e) ∧ a' = a ∧ events = []
  | Ok r =>
      let next := plugin_ref_of (to_overlay_patch r) in
      if decide (ed_decision d = ALLOW) then
        if decide (plugin_change_allowed (loaded_plugin a tid) next (active_run_count a tid)) then
          ∃ stored,
            h = Reply (mkPolicyResponse tid stored) ∧
            a' = with_overlays a (<[tid := stored]> (policy_overlays a)) ∧
            get_policy a' tid = mkPolicyResponse tid stored ∧
            resolve_ingress stored = Ok r ∧ loaded_plugin a' tid = next ∧
            ∀ k, k ∉ ingress_keys → od_get k stored = od_get k o
        else (∃ m, h = HTTPException 409 m) ∧ a' = a
      else h = HTTPException 403 (ed_reason_code d +:+ ": " +:+ ed_message d) ∧ a' = a
  end.
Proof.
  intros o d. unfold TenantPolicyApi.put_policy, validate_ingress_overlay_compatibility. fold o.
  destruct (resolve_ingress o) as [r|e] eqn:Er; cbn [res_bind]; [|done].
  unfold TenantPolicyApi.set_policy, TenantPolicyApi.begin_set_policy. fold o d. rewrite Er.
  cbn [value_error_as]. case_bool_decide as Hd; cbn [negb]; cbv beta iota.
  2:{ by destruct (decide (ed_decision d = ALLOW)). }
  destruct (decide (ed_decision d = ALLOW)); [|done].
  pose proof (store_update_spec a (mkPending tid ("entitlement_" +:+ token) "tenant_policy_overlay" set_route
    (loaded_plugin a tid) (plugin_ref_of (to_overlay_patch r)) (dict_update o (to_overlay_patch r)) r)
    (plugin_ref_stripped _) (plugin_ref_stripped _)) as Hl.
  fold (loaded_plugin a tid). cbn [up_tenant_id up_previous_ref up_next_ref up_overlay] in *.
  destruct (decide (plugin_change_allowed _ _ _)).
  - destruct Hl as [events ->]. eexists. split; [done|]. split; [done|].
    unfold get_policy, loaded_plugin, TenantPolicyOverlayStore.get_overlay. cbn [policy_overlays with_overlays].
    rewrite lookup_insert_eq. cbn [default].
    split; [done|]. split; [by eapply resolve_patched|]. split; [apply plugin_ref_patched|].
    intros k Hk. apply od_get_update_absent. by rewrite patch_keys.
  - destruct Hl as [m ->]. split; [by eexists|done].
Qed.

(** ** Policies over the life of the application

    Requests interleave: what routes are about to store is a list, and any of them may go on.
    Runs start and end in between. *)

Inductive policy_step : policy_app * list pending_update → policy_app * list pending_update → Prop :=
| step_begin_set a ps tid b i token p events :
    begin_set_policy a tid b i token = (Reply p, events) → policy_step (a, ps) (a, p :: ps)
| step_begin_apply a ps tid id b i token t p events :
    begin_apply a tid id b i token = (Reply (t, p), events) → policy_step (a, ps) (a, p :: ps)
| step_store a ps1 p ps2 : policy_step (a, ps1 ++ p :: ps2) ((store_update a p).1.2, ps1 ++ ps2)
| step_runs a r ps :
    policy_step (a, ps) (mkPolicyApp (policy_overlays a) r (has_audit_pipeline a), ps).

Definition policies_ok (x : policy_app * list pending_update) : Prop :=
  map_Forall (λ _, good_overlay) (policy_overlays x.1) ∧
  Forall (λ p, good_overlay (up_overlay p)) x.2.

Lemma policies_ok_step x y : policies_ok x → policy_step x y → policies_ok y.
Proof.
  intros Hok Hs. destruct Hs; destruct Hok as [Ho Hp]; cbn in *.
  - split; [done|]. constructor; [|done]. by eapply pk_overlay, begin_set_ok.
  - split; [done|]. constructor; [|done]. by eapply pk_overlay, begin_apply_ok.
  - apply Forall_app in Hp as [Hp1 Hp2]. inversion_clear Hp2. split; cbn; [|by apply Forall_app].
    unfold store_update. destruct (lifecycle_of _ _ _); [|done]. cbn.
    by apply map_Forall_insert_2.
  - by split.
Qed.

Lemma empty_overlay_loads : ∃ r, resolve_ingress [] = Ok r.
Proof. eexists. reflexivity. Qed.

Lemma foundation_denied i f :
  resolve_tier_from_roles (id_roles i) = Foundation → 0 < tier_order (min_tier_for_feature f) →
  ed_decision (entitlement i f) = DENY.
Proof.
  intros Hi Hf. unfold evaluate_feature_entitlement, tier_satisfies. rewrite Hi.
  by rewrite (proj2 (Z.leb_gt _ _)) by (cbn; lia).
Qed.

(** However policy requests and runs interleave, the overlay of every tenant, set or not, loads into
    a gate chain, so no turn is refused for an invalid ingress configuration.  And once a policy
    was set for a tenant, by a request or from a template, whatever it says and whoever set it, its
    turns are denied to callers of the Foundation tier. *)
Theorem stored_policies_load runs audited a ps tid :
  rtc policy_step (mkPolicyApp ∅ runs audited, []) (a, ps) →
  let o := TenantPolicyOverlayStore.get_overlay (policy_overlays a) tid in
  (∃ chain, build_ingress_gate_chain_from_overlay float_repr re_compiles sha256_hex o None = Ok chain) ∧
  (is_Some (policy_overlays a !! tid) → ∀ i, resolve_tier_from_roles (id_roles i) = Foundation →
     ed_decision (entitlement i (required_feature o)) = DENY).
Proof.
  intros Hr. assert (policies_ok (a, ps)) as [Ho _].
  { remember (mkPolicyApp ∅ runs audited, []) as x eqn:Ex. assert (policies_ok x) as Hx.
    { subst x. split; [apply map_Forall_empty|constructor]. }
    clear Ex. remember (a, ps) as y. clear Heqy. induction Hr; [done|]. eauto using policies_ok_step. }
  cbn in Ho. unfold TenantPolicyOverlayStore.get_overlay, build_ingress_gate_chain_from_overlay.
  destruct (policy_overlays a !! tid) as [o|] eqn:E; cbn [default from_option]; unfold id.
  - destruct (Ho _ _ E) as [[r ->] Hpro]. split; [by eexists|]. intros _ i Hi. by apply foundation_denied.
  - destruct empty_overlay_loads as [r ->]. split; [by eexists|]. by intros [? ?].
Qed.

(** ** The loaded plugin

    A policy request that no other one interleaves with. *)
Inductive route_step : policy_app → policy_app → Prop :=
| step_put a tid b i token : route_step a (put_policy a tid b i token).1.2
| step_apply a tid id b i token : route_step a (apply_policy_template a tid id b i token).1.2
| step_activity a r : route_step a (mkPolicyApp (policy_overlays a) r (has_audit_pipeline a)).

(** What such a request does to the overlays. *)
Lemma store_update_keeps a tid p t :
  pending_ok a tid p → 0 < active_run_count a t →
  loaded_plugin a t = "" ∨ loaded_plugin (store_update a p).1.2 t = loaded_plugin a t.
Proof.
  intros [Ht Hp Hn _] Hact.
  pose proof (store_update_spec a p) as Hs. rewrite Hp, Hn in Hs.
  specialize (Hs (plugin_ref_stripped _) (plugin_ref_stripped _)). rewrite Ht in Hs.
  destruct (decide (plugin_change_allowed _ _ _)) as [Ha|Ha].
  2:{ destruct Hs as [m ->]. by right. }
  destruct Hs as [events ->]. cbn [fst snd]. unfold loaded_plugin at 2, TenantPolicyOverlayStore.get_overlay.
  cbn [policy_overlays with_overlays]. destruct (decide (tid = t)) as [->|Hne].
  - rewrite lookup_insert_eq. cbn [default from_option]. unfold id.
    destruct Ha as [?|[Ha|?]]; [by left|by right|lia].
  - rewrite lookup_insert_ne by done. by right.
Qed.

Lemma route_step_keeps a a' t :
  route_step a a' → 0 < active_run_count a t →
  loaded_plugin a t = "" ∨ loaded_plugin a' t = loaded_plugin a t.
Proof.
  intros Hs Hact. destruct Hs as [a tid b i token|a tid id b i token|a r]; [| |by right].
  - unfold TenantPolicyApi.put_policy. destruct (validate_ingress_overlay_compatibility _ _ _ _); [|by right].
    unfold TenantPolicyApi.set_policy. destruct (begin_set_policy _ _ _ _ _) as [[p|] events] eqn:E; [|by right].
    apply begin_set_ok in E. pose proof (store_update_keeps _ _ _ t E Hact) as Hk.
    by destruct (store_update a p) as [[h a'] stored].
  - unfold TenantPolicyApi.apply_policy_template.
    destruct (begin_apply _ _ _ _ _ _) as [[[tpl p]|] events] eqn:E; [|by right].
    apply begin_apply_ok in E. pose proof (store_update_keeps _ _ _ t E Hact) as Hk.
    by destruct (store_update a p) as [[[] a'] stored].
Qed.

(** While a tenant has active runs, requests that set policies or apply templates, by anyone and for
    any tenant, neither unload nor replace the signed plugin the tenant has, as long as each
    request is over before the next one begins. *)
Theorem running_plugin_kept a a' t :
  rtc (λ a1 a2, route_step a1 a2 ∧ 0 < active_run_count a1 t) a a' →
  loaded_plugin a t = "" ∨ loaded_plugin a' t = loaded_plugin a t.
Proof.
  induction 1 as [|a1 a2 a3 [Hs Hact] _ IH]; [by right|].
  destruct (route_step_keeps _ _ _ Hs Hact) as [?|Hk]; [by left|]. by rewrite Hk in IH.
Qed.
End policy_facts.

(** ** Concrete applications *)
Module PolicyExamples.
Import Sample.
#[local] Notation action := Sample.action.
Notation put := (put_policy (A := action) (λ _, "") (λ _, true) (λ _, "ab")).
Notation begin_put := (begin_set_policy (A := action) (λ _, "") (λ _, true) (λ _, "ab")).
Notation step := (policy_step (A := action) (λ _, "") (λ _, true) (λ _, "ab")).
Notation loaded := (loaded_plugin (λ _, "")).
Notation feature := (required_feature_for_governance_overlay (λ _, "")).

Definition caller (roles : list string) : IdentityContext :=
  mkIdentityContext "ann" Human roles "acme" "" TokenValid "" "" false.

(** An application with one tenant that has one active run. *)
Definition fresh_app : policy_app :=
  mkPolicyApp ∅ (Some (RunControlRegistry.start_run (RunControlRegistry.init 0) "" "" "acme" "s1" "r1" "c1" "sse").2) false.

(** A caller of the Foundation tier denies one tool, nothing else. *)
Definition deny_wire : PolicyOverlayRequest := mkPolicyRequest ["wire"] [] false [].

(** The plugin of the packaged registry *)
Definition with_plugin : PolicyOverlayRequest :=
  mkPolicyRequest [] [] false [("signed_gate_plugin_ref", PStr "plugin://trusted/signed-v2")].

Definition plain_app : policy_app := (put fresh_app "acme" deny_wire (caller []) "t").1.2.
Definition plugin_app : policy_app := (put fresh_app "acme" with_plugin (caller ["enterprise"]) "t").1.2.

Lemma stored_policies_load_witness :
  is_Some (policy_overlays plain_app !! "acme") ∧
  ed_decision (evaluate_feature_entitlement (A := action) (caller [])
    (feature (TenantPolicyOverlayStore.get_overlay (policy_overlays plain_app) "acme"))) = DENY.
Proof.
  assert (is_Some (policy_overlays plain_app !! "acme")) as Hs.
  { apply (bool_decide_unpack _). vm_compute. exact I. }
  split; [exact Hs|].
  destruct (begin_put fresh_app "acme" deny_wire (caller []) "t") as [[p|c m] ev] eqn:E.
  2:{ exfalso. vm_compute in E. discriminate E. }
  assert (plain_app = (store_update fresh_app p).1.2) as Ea.
  { unfold plain_app, TenantPolicyApi.put_policy, TenantPolicyApi.set_policy. rewrite E.
    destruct (validate_ingress_overlay_compatibility _ _ _ deny_wire) eqn:Ev.
    - by destruct (store_update fresh_app p) as [[h a'] st].
    - vm_compute in Ev. discriminate Ev. }
  refine (proj2 (stored_policies_load (A := action) (λ _, "") (λ _, true) (λ _, "ab")
    (run_registry fresh_app) false plain_app [] "acme" _) Hs (caller []) eq_refl).
  change (mkPolicyApp ∅ (run_registry fresh_app) false) with fresh_app. rewrite Ea.
  eapply rtc_l; [exact (step_begin_set _ _ _ fresh_app [] "acme" deny_wire (caller []) "t" p ev E)|].
  apply rtc_once. exact (step_store _ _ _ fresh_app [] p []).
Defined.

(** So the caller who denied a tool, which the Foundation tier may do, can no longer submit a
    turn: storing the resolved settings raised what the policy needs. *)
Lemma foundation_policy_locks_out :
  (∃ overlay, (put fresh_app "acme" deny_wire (caller []) "t").1.1 = Reply (mkPolicyResponse "acme" overlay)) ∧
  feature (requested_overlay deny_wire) = IngressBaseline ∧
  feature (TenantPolicyOverlayStore.get_overlay (policy_overlays plain_app) "acme") = IngressProfile.
Proof. split; [eexists; vm_compute; reflexivity|split; vm_compute; reflexivity]. Qed.

(** The feature is read from the request as it is written, where "monitor" is not yet the mode
    "shadow": a caller of the Foundation tier configures the classifier of the Pro tier. *)
Lemma classifier_alias_bypasses_entitlement :
  let mode m := mkPolicyRequest [] [] false [("ingress_classifier_mode", PStr m)] in
  (∃ overlay, (put fresh_app "acme" (mode "monitor") (caller []) "t").1.1 =
                Reply (mkPolicyResponse "acme" overlay) ∧
     od_get "ingress_classifier_mode" overlay = Some (PStr "shadow")) ∧
  ∃ m, (put fresh_app "acme" (mode "shadow") (caller []) "t").1.1 = HTTPException 403 m.
Proof.
  split; [|eexists; vm_compute; reflexivity].
  eexists. split; [vm_compute; reflexivity|vm_compute; reflexivity].
Qed.

Lemma running_plugin_kept_witness :
  loaded plugin_app "acme" = "plugin://trusted/signed-v2" ∧
  0 < active_run_count plugin_app "acme" ∧
  loaded (put plugin_app "acme" deny_wire (caller ["enterprise"]) "u").1.2 "acme" =
    "plugin://trusted/signed-v2".
Proof.
  split; [vm_compute; reflexivity|]. split; [vm_compute; reflexivity|].
  destruct (running_plugin_kept (A := action) (λ _, "") (λ _, true) (λ _, "ab") plugin_app
    (put plugin_app "acme" deny_wire (caller ["enterprise"]) "u").1.2 "acme") as [E|E].
  - apply rtc_once. split; [apply step_put|]. apply (bool_decide_unpack _). vm_compute. exact I.
  - exfalso. vm_compute in E. discriminate E.
  - rewrite E. vm_compute. reflexivity.
Defined.

(** A request that has read the overlay before the plugin was loaded, and is suspended while it
    reports its entitlement decision, unloads the plugin under an active run. *)
Lemma racing_request_unloads_plugin :
  ∃ p a, rtc step (plugin_app, [p]) (a, []) ∧
    (begin_put fresh_app "acme" deny_wire (caller ["enterprise"]) "u").1 = Reply p ∧
    policy_overlays fresh_app !! "acme" = None ∧
    0 < active_run_count plugin_app "acme" ∧
    loaded plugin_app "acme" = "plugin://trusted/signed-v2" ∧ loaded a "acme" = "".
Proof.
  destruct (begin_put fresh_app "acme" deny_wire (caller ["enterprise"]) "u") as [[p|c m] ev] eqn:E.
  2:{ exfalso. vm_compute in E. discriminate E. }
  exists p, (store_update plugin_app p).1.2.
  split; [apply rtc_once; exact (step_store _ _ _ plugin_app [] p [])|].
  split; [done|]. split; [done|]. split; [vm_compute; reflexivity|]. split; [vm_compute; reflexivity|].
  vm_compute in E. injection E as <- _. vm_compute. reflexivity.
Qed.

(** *** Quotas *)
#[local] Notation no_adapter := (λ _ _, Raise (OtherException "not hosted")) (only parsing).
#[local] Notation set_quota := (update_quota (Adapter := string) (Handler := unit) (λ _, "") no_adapter no_adapter).
#[local] Notation read_quota := (get_quota (Adapter := string) (Handler := unit) (λ _, "") no_adapter no_adapter).

(** Contexts of at most one tenant are kept. *)
Definition one_context : RuntimeSettings := mkRuntimeSettings false false 10 1 1.

(** A quota is kept in the context alone: once another tenant's request has evicted it, the
    tenant has no limit again. *)
Lemma evicted_tenant_loses_quota :
  let f1 := (set_quota one_context empty (0, 0) "acme" 3).2 in
  let f2 := (read_quota one_context f1 (1, 1) "beta").2 in
  (set_quota one_context empty (0, 0) "acme" 3).1 = Reply (mkQuotaResponse "acme" 3 0) ∧
  (read_quota one_context f1 (1, 1) "acme").1 = Reply (mkQuotaResponse "acme" 3 0) ∧
  (read_quota one_context f2 (2, 2) "acme").1 = Reply (mkQuotaResponse "acme" 0 0).
Proof. split_and!; vm_compute; reflexivity. Qed.
End PolicyExamples.
