(* ===== verification/RuntimeControlApi.v ===== *)
(** * The runtime control routes

    Models src/api/routers/runtime_control.py, the answers of src/api/schemas/
    runtime_control_schemas.py, the control statistics of src/tools/byoc/connector_runtime.py and
    the advisory detector src/policies/governance_anomaly_detector.py.  A route works on the
    execution adapter of the tenant's context: none, the hosted sandbox or the BYOC connector,
    each with the in-memory stores.  Every route gives its answer, the state after it and the audit
    events it emitted.  The tenant scope is checked before a route runs (Authentication.v).
    Parameters: [float(a / b)] of integers, [float()], [int()], [str()] of a float, [dict()] of a value
    that is not a dictionary, the JWT library; the clocks and random parts are arguments.  The
    dictionary of a tenant's partitions is a finite map, so when two partitions have one metric name
    the model does not say which of them is shown. *)

From Stdlib Require QArith.QArith_base.
From S2P Require Import Prelude PyValue Identity Authentication Entitlements RunControl IngressBudget.
From S2P Require Import ToolIO ToolExecutor ByocJobs ByocResults ByocConnector Sandbox ByocExecution.

(** ** src/policies/governance_anomaly_detector.py *)

Record GovernanceAnomalyThresholds := mkThresholds {
  cost_utilization_threshold : Q;
  rejection_rate_threshold : Q;
  reason_share_threshold : Q;
  min_submit_attempts : Z;
  min_rejection_count : Z;
}.

Record GovernanceAnomaly := mkAnomaly {
  an_code : string;
  an_severity : string;
  an_message : string;
  an_value : Q;
  an_threshold : Q;
  an_reason_code : string;
}.

(** [value >= threshold] *)
Definition reaches (value threshold : Q) : bool := QArith_base.Qle_bool threshold value.

(** [key=lambda item: (-item[1], item[0])] *)
Definition reason_le (p q : string * Z) : Prop := lex_le Z.le String.le (- p.2, p.1) (- q.2, q.1).

#[export] Instance reason_le_dec : RelDecision reason_le.
Proof. intros p q. unfold reason_le. apply _. Defined.

Section detector.
(** [float(a / b)] of two integers *)
Variable int_div : Z → Z → Q.

(** An anomaly when the value reaches the threshold *)
Definition anomaly_when (code message : string) (value threshold : Q) (reason : string)
    : list GovernanceAnomaly :=
  if reaches value threshold then [mkAnomaly code "warning" message value threshold reason] else [].

Definition dominant_reason (th : GovernanceAnomalyThresholds) (total : Z) (p : string * Z)
    : list GovernanceAnomaly :=
  if p.2 <? Z.max (min_rejection_count th) 0 then []
  else
    anomaly_when "BYOC_REJECTION_REASON_DOMINANCE" "A single rejection reason dominates tenant failures."
      (int_div p.2 total) (reason_share_threshold th) p.1.

Definition detect_governance_anomalies (cost_utilization_ratio rejection_rate : Q)
    (submit_attempts_total rejected_results_total : Z) (rejection_reason_counts : list (string * Z))
    (th : GovernanceAnomalyThresholds) : list GovernanceAnomaly :=
  if submit_attempts_total <? Z.max (min_submit_attempts th) 0 then []
  else
    anomaly_when "BYOC_COST_UTILIZATION_SPIKE" "Tenant cost utilization exceeded advisory threshold."
      cost_utilization_ratio (cost_utilization_threshold th) "" ++
    anomaly_when "BYOC_REJECTION_RATE_SPIKE" "Tenant rejection rate exceeded advisory threshold."
      rejection_rate (rejection_rate_threshold th) "" ++
    let total := Z.max rejected_results_total 0 in
    if (total <? Z.max (min_rejection_count th) 0) || (total <=? 0) then []
    else mjoin (dominant_reason th total <$> sort_by reason_le rejection_reason_counts).
End detector.

(** ** The statistics of the BYOC connector *)

Notation stats := (gmap string Z).

(** [metrics.update(pairs)] *)
Definition update_stats (m : stats) (pairs : list (string * Z)) : stats :=
  foldl (λ m p, <[p.1 := p.2]> m) m pairs.

Definition flag (b : bool) : Z := if b then 1 else 0.

(** The names of the counters, with what each shows. *)
Definition counter_names : list string :=
  ["enqueued_jobs_total"; "claimed_jobs_total"; "submitted_results_total"; "duplicate_results_total";
   "cancel_requested_total"; "lease_requeue_total"; "dlq_moved_total"; "dlq_replayed_total";
   "dlq_replay_failed_total"; "cleanup_runs_total"; "cleanup_pruned_total"].

(** [control_stats]; [wait_timeout_ms] is the coordinator's setting and [coordinator] what its [stats]
    gives. *)
Definition byoc_control_stats (s : byoc_runtime) (wait_timeout_ms : Z) (coordinator : list (string * Z)) : stats :=
  let c := cfg (conn s) in
  update_stats ∅
    (((λ n, (n, default 0 (counters (conn s) !! n))) <$> counter_names) ++
     [("queue_depth", Jobs.queue_depth (job_store (conn s)));
      ("cost_limit_microunits_per_tenant", cost_limit c);
      ("cost_window_policy_enabled", flag (enable_cost_window c));
      ("cost_window_seconds", cost_window_seconds c);
      ("budget_partition_scope_per_provider_enabled", flag (bool_decide (budget_partition_scope c = ScopePerProvider)));
      ("budget_partition_scope_per_tool_enabled", flag (bool_decide (budget_partition_scope c = ScopePerTool)));
      ("budget_partition_limits_configured_total", Z.of_nat (size (budget_partition_limits c)));
      ("fair_admission_enabled", flag (fair_admission_enabled s));
      ("fair_admission_wait_timeout_ms", wait_timeout_ms);
      ("fair_admission_timeout_total", fair_admission_timeout_total s)] ++
     if fair_admission_enabled s then coordinator else []).

(** The entries of a map whose keys are pairs with [tenant] *)
Definition entries_of {V} (m : gmap (string * string) V) (tenant : string) : list (string * V) :=
  omap (λ p : (string * string) * V, if p.1.1 =?s tenant then Some (p.1.2, p.2) else None) (map_to_list m).

(** [combined[name] = combined.get(name, 0) + n] *)
Definition add_stat (m : stats) (name : string) (n : Z) : stats := bump_in m name n.

Definition partition_stats (c : config) (costs : cost_state) (tenant_id : string) (m : stats)
    (p : string * Z) : stats :=
  let '(partition_key, partition_total) := p in
  let name := "tenant_cost_partition_" +:+ metric_token partition_key in
  let limit := partition_limit_for_key c partition_key in
  let m := update_stats m
    [(name +:+ "_microunits_total", partition_total); (name +:+ "_limit_microunits", limit);
     (name +:+ "_remaining_microunits", Z.max (limit - partition_total) 0)] in
  if enable_cost_window c then
    let window_total := default 0 (partition_window_cost costs !! (tenant_id, partition_key)) in
    update_stats m
      [(name +:+ "_window_microunits", window_total);
       (name +:+ "_window_remaining_microunits", Z.max (limit - window_total) 0)]
  else m.

Definition conflict_stats (m : stats) (r : ByocConflictCountRecord) : stats :=
  let reason := metric_token (cc_reason_code r) in
  let m := add_stat m ("tenant_conflict_reason_" +:+ reason) (cc_count r) in
  let m := add_stat m ("tenant_conflict_strategy_" +:+ metric_token (cc_strategy r)) (cc_count r) in
  <["tenant_conflict_tool_" +:+ metric_token (cc_tool_name r) +:+ "_version_"
      +:+ metric_token (cc_tool_version r) +:+ "_reason_" +:+ reason := cc_count r]> m.

Definition reason_prefix : string := "tenant_rejected_reason_".

(** [control_stats_for_tenant]: the clock is read for the replay guard and for the window. *)
Definition control_stats_for_tenant (s : byoc_runtime) (guard_now window_now wait_timeout_ms : Z)
    (coordinator : list (string * Z)) (tenant_id : string) : stats * byoc_runtime :=
  let k := conn s in
  let c := cfg k in
  let base := byoc_control_stats s wait_timeout_ms coordinator in
  let '(replay_metrics, guard) := Guard.health_metrics (replay_guard k) guard_now tenant_id in
  let '((window_start, window_cost), costs) :=
    tenant_window_state c (costs k) (normalized_tenant tenant_id) window_now in
  let tenant_cost := default 0 (tenant_cost_total costs !! tenant_id) in
  let partition_totals := entries_of (partition_cost_total costs) tenant_id in
  let conflict_counts := Results.list_conflict_counts (result_store k) tenant_id in
  let m := update_stats base
    (Jobs.health_metrics (job_store k) tenant_id ++ Results.health_metrics (result_store k) tenant_id ++
     replay_metrics ++
     [("tenant_cost_microunits_total", tenant_cost); ("tenant_cost_limit_microunits", cost_limit c);
      ("tenant_cost_remaining_microunits", Z.max (cost_limit c - tenant_cost) 0);
      ("tenant_cost_window_policy_enabled", flag (enable_cost_window c));
      ("tenant_cost_window_seconds", cost_window_seconds c);
      ("tenant_cost_window_started_epoch", window_start); ("tenant_cost_window_microunits", window_cost);
      ("tenant_cost_window_remaining_microunits", Z.max (cost_limit c - window_cost) 0);
      ("tenant_budget_partitions_tracked_total", Z.of_nat (length partition_totals))]) in
  let m := foldl (partition_stats c costs tenant_id) m partition_totals in
  let m := update_stats m
    [("tenant_submit_attempts_total", default 0 (submit_attempts k !! tenant_id));
     ("tenant_rejected_results_total", default 0 (rejected_results k !! tenant_id));
     ("tenant_fair_admission_timeout_total", default 0 (tenant_fair_admission_timeout_total s !! tenant_id));
     ("tenant_conflict_total", foldr Z.add 0 (cc_count <$> conflict_counts))] in
  let m := foldl conflict_stats m conflict_counts in
  (update_stats m ((λ p, (reason_prefix +:+ p.1, p.2)) <$> entries_of (rejections_by_reason k) tenant_id),
   with_conn s (with_costs (with_guard k guard) costs)).

(** ** Adapters *)

Inductive adapter :=
| HostedSandbox (s : sandbox_runtime)
| ByocConnectorRuntime (s : byoc_runtime).

Definition adapter_backend (a : adapter) : string :=
  match a with HostedSandbox _ => sandbox_backend_id | ByocConnectorRuntime _ => backend_id end.

(** The clocks of [cancel_pending_call], per call id. *)
Definition cancel_clocks := string → (string → Z) * Z.

(** [adapter.request_cancellation] *)
Definition adapter_cancel (a : adapter) (clocks : cancel_clocks) (call_id : string) : bool * adapter :=
  match a with
  | HostedSandbox s => let '(ok, s) := request_token s call_id in (ok, HostedSandbox s)
  | ByocConnectorRuntime s =>
      let '(ok, c) := request_cancellation (conn s) (clocks call_id).1 (clocks call_id).2 call_id in
      (ok, ByocConnectorRuntime (with_conn s c))
  end.

(** [for call_id in call_ids: if adapter.request_cancellation(call_id): forwarded += 1] *)
Fixpoint forward_cancellations (a : adapter) (clocks : cancel_clocks) (call_ids : list string) : Z * adapter :=
  match call_ids with
  | [] => (0, a)
  | id :: ids =>
      let '(ok, a) := adapter_cancel a clocks id in
      let '(n, a) := forward_cancellations a clocks ids in
      (if ok then n + 1 else n, a)
  end.

(** ** The application *)

Record anomaly_settings := mkAnomalySettings {
  byoc_anomaly_detection_enabled : bool;
  anomaly_thresholds : GovernanceAnomalyThresholds;
}.

(** What the routes read and change: the modules, when they are configured, and the adapter of the
    tenant's context. *)
Record control_modules := mkControlModules {
  has_tool_audit_pipeline : bool;
  run_control_registry : option RunControlRegistry.t;
  ingress_budget_recorder : option (list (string * list IngressBudgetObservation));
  anomaly_config : anomaly_settings;
}.

Record control_app := mkControlApp {
  control_modules_of : option control_modules;
  execution_adapter : option adapter;
}.

Definition with_execution_adapter (a : control_app) (x : adapter) : control_app :=
  mkControlApp (control_modules_of a) (Some x).

Definition with_run_registry (a : control_app) (r : RunControlRegistry.t) : control_app :=
  mkControlApp
    ((λ m, mkControlModules (has_tool_audit_pipeline m) (Some r) (ingress_budget_recorder m) (anomaly_config m))
       <$> control_modules_of a)
    (execution_adapter a).

(** A request of an authenticated caller for a tenant; [ar_token] is the random part of the correlation
    id. *)
Record admin_request := mkAdminRequest {
  ar_tenant_id : string;
  ar_identity : IdentityContext;
  ar_route : string;
  ar_token : string;
}.

Section runtime_control.
Context {A : Type} `{!PolicyActions A}.
Variable float_repr : Q → string.
Variable jwt_encode : pydict → string → string.
Variable jwt_decode : Z → string → string → jwt_result.
Variable py_int : pyval → option Z.
Variable int_div : Z → Z → Q.
(** [dict(v)] of a value that is true and not a dictionary *)
Variable py_dict : pyval → res pydict.
#[local] Notation evaluate_feature_entitlement := (evaluate_feature_entitlement (A := A)).

(** [_enforce_feature_entitlement] *)
Definition enforce_feature_entitlement (a : control_app) (r : admin_request) (feature : EntitledFeature)
    (surface : string) : http unit * list audit_event :=
  let d := evaluate_feature_entitlement (ar_identity r) feature in
  match control_modules_of a with
  | None => (HTTPException 503 "Application modules are not configured.", [])
  | Some m =>
      let events := emit_entitlement_decision_event (has_tool_audit_pipeline m)
        ("entitlement_" +:+ ar_token r) (ar_tenant_id r) surface (ar_route r) d [] in
      if negb (bool_decide (ed_decision d = ALLOW)) then
        (HTTPException 403 (ed_reason_code d +:+ ": " +:+ ed_message d), events)
      else (Reply tt, events)
  end.

(** A route behind an entitlement *)
Definition entitled_route {B} (feature : EntitledFeature) (surface : string) (a : control_app)
    (r : admin_request) (k : control_app → http B * control_app) : http B * control_app * list audit_event :=
  match enforce_feature_entitlement a r feature surface with
  | (HTTPException c m, events) => (HTTPException c m, a, events)
  | (Reply _, events) => let '(answer, a) := k a in (answer, a, events)
  end.

(** [Depends(_require_runtime_admin_entitlement)] and
    [Depends(_require_byoc_governance_metrics_entitlement)] *)
Definition admin_entitled {B} := entitled_route (B := B) RuntimeAdminControls "runtime_control_admin".
Definition governance_entitled {B} :=
  entitled_route (B := B) ByocGovernanceAnalytics "byoc_governance_metrics".

(** [_resolve_runtime_adapter] *)
Definition resolve_runtime_adapter (a : control_app) : http adapter :=
  match execution_adapter a with
  | None => HTTPException 409 "Hosted runtime adapter is not enabled for this tenant."
  | Some x => Reply x
  end.

(** [_resolve_byoc_adapter] *)
Definition resolve_byoc_adapter (a : control_app) : http byoc_runtime :=
  match resolve_runtime_adapter a with
  | Reply (ByocConnectorRuntime s) => Reply s
  | Reply (HostedSandbox _) => HTTPException 409 "BYOC runtime adapter is not enabled for this tenant."
  | HTTPException c m => HTTPException c m
  end.

(** [_resolve_run_registry] *)
Definition resolve_run_registry (a : control_app) : http RunControlRegistry.t :=
  match control_modules_of a ≫= run_control_registry with
  | None => HTTPException 503 "Run control registry is not configured on this server."
  | Some r => Reply r
  end.

(** A route's work on the adapter, or on the BYOC connector; [k] gives the answer and the adapter after. *)
Definition on_adapter {B} (k : adapter → http B * adapter) (a : control_app) : http B * control_app :=
  match resolve_runtime_adapter a with
  | HTTPException c m => (HTTPException c m, a)
  | Reply x => let '(answer, x) := k x in (answer, with_execution_adapter a x)
  end.

Definition on_connector {B} (k : byoc_runtime → http B * byoc_runtime) (a : control_app) : http B * control_app :=
  match resolve_byoc_adapter a with
  | HTTPException c m => (HTTPException c m, a)
  | Reply s => let '(answer, s) := k s in (answer, with_execution_adapter a (ByocConnectorRuntime s))
  end.

(** *** Statistics, clean-up events and cancellations *)

Record RuntimeControlStatsResponse := mkStatsResponse {
  st_tenant_id : string;
  st_backend_id : string;
  st_control_stats : stats;
  st_pool_stats : stats;
}.

Definition sandbox_stats (s : sandbox_runtime) : stats := update_stats ∅ (sandbox_control_stats s).

Definition get_runtime_control_stats (a : control_app) (r : admin_request)
    (guard_now window_now wait_timeout_ms : Z) (coordinator : list (string * Z)) :=
  admin_entitled a r (on_adapter (λ x,
    match x with
    | HostedSandbox s =>
        (Reply (mkStatsResponse (ar_tenant_id r) sandbox_backend_id (sandbox_stats s)
                  (update_stats ∅ (TenantSandboxPool.stats (runtime_pool s)))), x)
    | ByocConnectorRuntime s =>
        let '(m, s) := control_stats_for_tenant s guard_now window_now wait_timeout_ms coordinator (ar_tenant_id r) in
        (Reply (mkStatsResponse (ar_tenant_id r) backend_id m ∅), ByocConnectorRuntime s)
    end)).

Record RuntimeCleanupEventsResponse := mkCleanupResponse {
  cu_tenant_id : string;
  cu_backend_id : string;
  cu_events : list (list (string * string));
}.

Definition get_runtime_cleanup_events (a : control_app) (r : admin_request) (limit : Z) :=
  admin_entitled a r (on_adapter (λ x,
    (Reply (mkCleanupResponse (ar_tenant_id r) (adapter_backend x)
       match x with
       | HostedSandbox s => TenantSandboxPool.cleanup_events (runtime_pool s) limit
       | ByocConnectorRuntime _ => []
       end), x))).

Record RuntimeCancellationResponse := mkCancellationResponse {
  cx_tenant_id : string;
  cx_backend_id : string;
  cx_call_id : string;
  cx_accepted : bool;
  cx_pending_cancellations : Z;
}.

(** [int(stats.get("pending_cancellations", 0))]: the connector's statistics have no such entry. *)
Definition pending_count (x : adapter) : Z :=
  match x with
  | HostedSandbox s => default 0 (sandbox_stats s !! "pending_cancellations")
  | ByocConnectorRuntime _ => 0
  end.

Definition request_runtime_cancellation (a : control_app) (r : admin_request) (clocks : cancel_clocks)
    (call_id : string) :=
  admin_entitled a r (on_adapter (λ x,
    let '(accepted, x) := adapter_cancel x clocks call_id in
    (Reply (mkCancellationResponse (ar_tenant_id r) (adapter_backend x) call_id accepted (pending_count x)), x))).

Definition clear_runtime_cancellation (a : control_app) (r : admin_request) (call_id : string) :=
  admin_entitled a r (on_adapter (λ x,
    let '(accepted, x) :=
      match x with
      | HostedSandbox s => let '(ok, s) := clear_token s call_id in (ok, HostedSandbox s)
      | ByocConnectorRuntime _ => (false, x)
      end in
    (Reply (mkCancellationResponse (ar_tenant_id r) (adapter_backend x) call_id accepted (pending_count x)), x))).

(** *** Runs *)

(** A record of a run is the dictionary of the registry, whose fields are those of the model. *)
Record RuntimeRunListResponse := mkRunList { rl_tenant_id : string; rl_total : Z; rl_runs : list pydict }.

Definition list_runtime_runs (a : control_app) (r : admin_request) (limit : Z) :=
  admin_entitled a r (λ a,
    (let? registry := resolve_run_registry a in
     let records := RunControlRegistry.list_runs registry (ar_tenant_id r) limit in
     Reply (mkRunList (ar_tenant_id r) (Z.of_nat (length records)) records), a)).

Definition get_runtime_run (a : control_app) (r : admin_request) (run_id : string) :=
  admin_entitled a r (λ a,
    (let? registry := resolve_run_registry a in
     match RunControlRegistry.get_run registry (ar_tenant_id r) run_id with
     | None =>
         HTTPException 404 ("Run '" +:+ run_id +:+ "' not found for tenant '" +:+ ar_tenant_id r +:+ "'.")
     | Some record => Reply record
     end, a)).

Record RuntimeRunCancelResponse := mkRunCancel {
  rc_tenant_id : string;
  rc_backend_id : string;
  rc_run_id : string;
  rc_accepted : bool;
  rc_forwarded_call_cancellations : Z;
}.

Definition cancel_runtime_run (a : control_app) (r : admin_request) (clocks : cancel_clocks)
    (now1 now2 run_id : string) :=
  admin_entitled a r (λ a,
    match resolve_runtime_adapter a, resolve_run_registry a with
    | HTTPException c m, _ | _, HTTPException c m => (HTTPException c m, a)
    | Reply x, Reply registry =>
        let tenant_id := ar_tenant_id r in
        let '(accepted, registry) :=
          RunControlRegistry.request_cancel registry now1 tenant_id run_id "admin_runtime_cancel_endpoint" in
        let '(forwarded, x) :=
          forward_cancellations x clocks (RunControlRegistry.call_ids_for_run registry tenant_id run_id) in
        let registry :=
          if accepted && (0 <? forwarded) then
            (RunControlRegistry.mark_terminal registry now2 tenant_id run_id "cancelled"
               "admin_cancel_forwarded" "").2
          else registry in
        (Reply (mkRunCancel tenant_id (adapter_backend x) run_id accepted forwarded),
         with_run_registry (with_execution_adapter a x) registry)
    end).

(** *** BYOC workers *)

Record ByocWorkerTokenResponse := mkWorkerToken {
  wt_tenant_id : string;
  wt_backend_id : string;
  wt_worker_id : string;
  wt_token : string;
}.

Definition issue_byoc_worker_token (a : control_app) (r : admin_request) (now : Z)
    (uuid_hex16 worker_id : string) (ttl_seconds : option Z) :=
  admin_entitled a r (on_connector (λ s,
    (Reply (mkWorkerToken (ar_tenant_id r) backend_id worker_id
       (issue_worker_token jwt_encode (conn s) now uuid_hex16 (ar_tenant_id r) worker_id ttl_seconds)), s))).

Record ByocClaimJobResponse := mkClaimResponse {
  cj_tenant_id : string;
  cj_backend_id : string;
  cj_job : option ByocToolJobEnvelope;
}.

Definition claim_byoc_job (a : control_app) (r : admin_request) (clock : nat → Z)
    (token worker_token request_nonce : string) :=
  admin_entitled a r (on_connector (λ s,
    let '(job, c) :=
      claim_next_job float_repr jwt_decode py_int (conn s) clock token (ar_tenant_id r) worker_token request_nonce in
    (let? job := value_error_as 401 job in Reply (mkClaimResponse (ar_tenant_id r) backend_id job),
     with_conn s c))).

(** [dict(payload.get("output", {}) or {})] *)
Definition output_of (payload : pydict) : res pydict :=
  match dict_get payload "output" (PDict []) with
  | PDict d => Ok d
  | v => if truthy v then py_dict v else Ok []
  end.

(** [_to_byoc_result_envelope] *)
Definition to_byoc_result_envelope (payload : pydict) (tenant_id : string) : res ByocToolResultEnvelope :=
  let field key := dict_get_str float_repr payload key "" in
  let! output := output_of payload in
  Ok (mkResult (field "job_id") (dict_get_str float_repr payload "tenant_id" tenant_id) (field "run_id")
        (field "call_id") (field "tool_name") (dict_get_str float_repr payload "status" "success") output
        (field "error_code") (field "error_message") (truthy (dict_get payload "retryable" (PBool false)))
        (field "idempotency_key") (field "lease_token") (field "tool_version")
        (field "artifact_bundle_hash_sha256") (field "artifact_bundle_signature_hmac_sha256")
        (field "artifact_signature_version")).

Record ByocSubmitResultResponse := mkSubmitResponse {
  sr_tenant_id : string;
  sr_backend_id : string;
  sr_accepted : bool;
  sr_duplicate : bool;
  sr_reason_code : string;
}.

Definition submit_response (tenant_id : string) (o : ByocResultIngestOutcome) : ByocSubmitResultResponse :=
  mkSubmitResponse tenant_id backend_id (ro_accepted o) (ro_duplicate o) (ro_reason_code o).

(** The envelope of the payload is submitted; a ValueError of either is an authentication failure. *)
Definition submit_payload (r : admin_request) (payload : pydict)
    (submit : connector → ByocToolResultEnvelope → res ByocResultIngestOutcome * connector) (s : byoc_runtime)
    : http ByocSubmitResultResponse * byoc_runtime :=
  match to_byoc_result_envelope payload (ar_tenant_id r) with
  | Raise e => (value_error_as 401 (Raise e), s)
  | Ok envelope =>
      let '(outcome, c) := submit (conn s) envelope in
      (let? o := value_error_as 401 outcome in Reply (submit_response (ar_tenant_id r) o), with_conn s c)
  end.

Definition submit_byoc_job_result (a : control_app) (r : admin_request) (clock : nat → Z)
    (worker_token request_nonce : string) (payload : pydict) :=
  admin_entitled a r (on_connector (submit_payload r payload (λ c e,
    submit_result float_repr jwt_decode py_int c clock (ar_tenant_id r) worker_token request_nonce e))).

Definition submit_byoc_webhook_job_result (a : control_app) (r : admin_request) (clock : nat → Z)
    (webhook_secret webhook_request_id : string) (payload : pydict) :=
  admin_entitled a r (on_connector (submit_payload r payload (λ c e,
    submit_result_webhook c clock (ar_tenant_id r) webhook_secret webhook_request_id e))).

(** *** Retention and dead letters *)

Record ByocCleanupResponse := mkRetention {
  rt_tenant_id : string;
  rt_backend_id : string;
  rt_cleanup_stats : Z * Z * Z;
}.

Definition cleanup_byoc_runtime_retention (a : control_app) (r : admin_request) (clock : nat → Z) (force : bool) :=
  admin_entitled a r (on_connector (λ s,
    let '(pruned, c) := cleanup_retention (conn s) clock (ar_tenant_id r) force in
    (Reply (mkRetention (ar_tenant_id r) backend_id pruned), with_conn s c))).

Record ByocDlqListResponse := mkDlqList {
  dl_tenant_id : string;
  dl_backend_id : string;
  dl_total : Z;
  dl_records : list (list (string * string));
}.

Definition list_byoc_dead_letter_jobs (a : control_app) (r : admin_request) (limit : Z) :=
  admin_entitled a r (on_connector (λ s,
    let records := list_dead_letter_jobs (conn s) (ar_tenant_id r) limit in
    (Reply (mkDlqList (ar_tenant_id r) backend_id (Z.of_nat (length records)) records), s))).

Record ByocDlqReplayResponse := mkDlqReplay {
  dr_tenant_id : string;
  dr_backend_id : string;
  dr_job_id : string;
  dr_replayed : bool;
}.

Definition replay_byoc_dead_letter_job (a : control_app) (r : admin_request) (job_id : string) :=
  admin_entitled a r (on_connector (λ s,
    let '(replayed, c) := replay_dead_letter_job (conn s) (ar_tenant_id r) job_id in
    (Reply (mkDlqReplay (ar_tenant_id r) backend_id job_id replayed), with_conn s c))).

Record ByocDlqReplayBulkResponse := mkDlqBulk {
  db_tenant_id : string;
  db_backend_id : string;
  db_attempted : Z;
  db_replayed : Z;
  db_failed : Z;
  db_failures : list (string * string);
}.

(** The jobs that a bulk replay is for. *)
Definition bulk_targets (c : connector) (tenant_id : string) (job_ids : list string) (limit : Z) : list string :=
  let bounded := Z.max 1 (Z.min limit 500) in
  match filter (λ i, i ≠ "") (py_strip <$> job_ids) with
  | [] =>
      filter (λ i, i ≠ "")
        ((λ row, py_strip (default "" (od_get "job_id" row))) <$> list_dead_letter_jobs c tenant_id bounded)
  | requested => take (Z.to_nat bounded) (distinct requested)
  end.

Definition replay_byoc_dead_letter_jobs_bulk (a : control_app) (r : admin_request) (job_ids : list string) (limit : Z) :=
  admin_entitled a r (on_connector (λ s,
    let bounded := Z.max 1 (Z.min limit 500) in
    let targets := bulk_targets (conn s) (ar_tenant_id r) job_ids limit in
    let answer attempted replayed failures :=
      Reply (mkDlqBulk (ar_tenant_id r) backend_id attempted replayed (Z.max (attempted - replayed) 0) failures) in
    match targets with
    | [] => (answer 0 0 [], s)
    | _ =>
        let '((attempted, replayed, failures), c) :=
          replay_dead_letter_jobs (conn s) (ar_tenant_id r) targets bounded in
        let rows := filter (λ p, p.1 ≠ "")
          ((λ id, (py_strip id, "DLQ_REPLAY_NOT_FOUND_OR_NOT_DLQ")) <$> failures) in
        (answer attempted replayed rows, with_conn s c)
    end)).

(** *** Governance metrics *)

Record ByocGovernanceCostMetrics := mkCostMetrics {
  cm_window : string;
  cm_window_seconds : Z;
  cm_window_started_at_epoch : Z;
  cm_cost_microunits_total : Z;
  cm_cost_limit_microunits : Z;
  cm_cost_remaining_microunits : Z;
  cm_utilization_ratio : Q;
}.

Record ByocGovernanceMetricsResponse := mkGovernance {
  gm_tenant_id : string;
  gm_backend_id : string;
  gm_generated_at_utc : string;
  gm_cost : ByocGovernanceCostMetrics;
  gm_submit_attempts_total : Z;
  gm_rejected_results_total : Z;
  gm_rejection_rate : Q;
  gm_rejection_reasons : list (string * Z);
  gm_conflict_counts : list ByocConflictCountRecord;
  gm_anomaly_enabled : bool;
  gm_min_submit_attempts : Z;
  gm_min_rejection_count : Z;
  gm_anomalies : list GovernanceAnomaly;
}.

Definition stat (m : stats) (name : string) (dflt : Z) : Z := default dflt (m !! name).

(** [float(a / b) if b > 0 else 0.0] *)
Definition ratio (a b : Z) : Q := if 0 <? b then int_div a b else inject_Z 0.

(** [key.removeprefix("tenant_rejected_reason_")] of a key that has the prefix *)
Definition reason_code_of (key : string) : string := str_drop (String.length reason_prefix) key.

(** The rejections by reason that the statistics show, most frequent first. *)
Definition reasons_of (m : stats) : list (string * Z) :=
  sort_by reason_le
    (omap (λ p : string * Z,
       if startswith p.1 reason_prefix then Some (reason_code_of p.1, p.2) else None)
     (map_to_list m)).

Definition cost_metrics_of (m : stats) : ByocGovernanceCostMetrics :=
  let windowed := negb (stat m "tenant_cost_window_policy_enabled" 0 =? 0) in
  let lifetime_total := stat m "tenant_cost_microunits_total" 0 in
  let window_total := stat m "tenant_cost_window_microunits" lifetime_total in
  let total := if windowed then window_total else lifetime_total in
  let limit := stat m "tenant_cost_limit_microunits" 0 in
  let remaining :=
    stat m (if windowed then "tenant_cost_window_remaining_microunits" else "tenant_cost_remaining_microunits")
      (Z.max (limit - total) 0) in
  mkCostMetrics (if windowed then "windowed" else "lifetime")
    (if windowed then stat m "tenant_cost_window_seconds" 0 else 0)
    (if windowed then stat m "tenant_cost_window_started_epoch" 0 else 0)
    total limit (Z.max remaining 0) (ratio total limit).

Definition governance_of (r : admin_request) (now : string) (settings : anomaly_settings) (m : stats)
    (conflicts : list ByocConflictCountRecord) : ByocGovernanceMetricsResponse :=
  let cost := cost_metrics_of m in
  let attempts := stat m "tenant_submit_attempts_total" 0 in
  let rejected := stat m "tenant_rejected_results_total" 0 in
  let rate := ratio rejected attempts in
  let reasons := reasons_of m in
  let th := anomaly_thresholds settings in
  mkGovernance (ar_tenant_id r) backend_id now cost attempts rejected rate reasons conflicts
    (byoc_anomaly_detection_enabled settings) (min_submit_attempts th) (min_rejection_count th)
    (if byoc_anomaly_detection_enabled settings then
       detect_governance_anomalies int_div (cm_utilization_ratio cost) rate attempts rejected reasons th
     else []).

Definition get_byoc_governance_metrics (a : control_app) (r : admin_request) (now : string)
    (guard_now window_now wait_timeout_ms : Z) (coordinator : list (string * Z)) :=
  governance_entitled a r (λ a,
    match control_modules_of a with
    | None => (HTTPException 503 "Application modules are not configured.", a)
    | Some modules =>
        on_connector (λ s,
          let '(m, s) :=
            control_stats_for_tenant s guard_now window_now wait_timeout_ms coordinator (ar_tenant_id r) in
          (Reply (governance_of r now (anomaly_config modules) m
                    (Results.list_conflict_counts (result_store (conn s)) (ar_tenant_id r))), s)) a
    end).

(** *** The latency budget *)

Record RuntimeIngressBudgetSummary := mkBudgetSummary {
  bs_samples : Z;
  bs_p95_latency_ms : Q;
  bs_timeout_total : Z;
  bs_timeout_rate : Q;
  bs_budget_exceeded_total : Z;
}.

Record RuntimeIngressBudgetSummaryResponse := mkBudgetResponse {
  br_tenant_id : string;
  br_generated_at_utc : string;
  br_summary : RuntimeIngressBudgetSummary;
  br_profiles : list (string * RuntimeIngressBudgetSummary);
}.

(** [int(raw.get(key, 0))] and [float(raw.get(key, 0.0))] of a summary, whose values are numbers *)
Definition summary_int (raw : pydict) (key : string) : Z := default 0 (as_int (dict_get raw key (PInt 0))).

Definition summary_float (raw : pydict) (key : string) : Q :=
  match dict_get raw key (PFloat (inject_Z 0)) with PFloat q => q | _ => inject_Z 0 end.

Definition budget_summary_of (raw : pydict) : RuntimeIngressBudgetSummary :=
  mkBudgetSummary (summary_int raw "samples") (summary_float raw "p95_latency_ms")
    (summary_int raw "timeout_total") (summary_float raw "timeout_rate")
    (summary_int raw "budget_exceeded_total").

(** The profiles of a summary, by their normalized names. *)
Definition profiles_of (raw : pydict) : list (string * RuntimeIngressBudgetSummary) :=
  match dict_get raw "profiles" (PDict []) with
  | PDict profiles =>
      foldl (λ acc p,
        match p.2 with
        | PDict ps =>
            let name := py_lower (py_strip p.1) in
            if negb (py_bool name) then acc else od_set name (budget_summary_of ps) acc
        | _ => acc
        end) [] profiles
  | _ => []
  end.

Definition get_runtime_ingress_budget_summary (a : control_app) (r : admin_request) (now : string)
    (float_mul float_div : Q → Q → Q) (round3 round6 : Q → Q) :=
  admin_entitled a r (λ a,
    let raw :=
      match control_modules_of a ≫= ingress_budget_recorder with
      | None => []
      | Some recorder => summary float_mul float_div round3 round6 recorder (ar_tenant_id r)
      end in
    (Reply (mkBudgetResponse (ar_tenant_id r) now (budget_summary_of raw) (profiles_of raw)), a)).
End runtime_control.
