(* ===== verification/RuntimeControlFacts.v ===== *)
(** * Properties of the runtime control routes

    The governance report shows exactly what was recorded for the tenant, a bulk replay accounts for
    every job it was asked for, and a route behind an entitlement does nothing without it. *)

From Stdlib Require QArith.QArith_base.
From S2P Require Import Prelude PyValue Tenancy Identity Authentication Entitlements RunControl IngressBudget.
From S2P Require Import ToolIO ToolExecutor ByocJobs ByocFacts ByocResults ByocConnector FairAdmission.
From S2P Require Import Sandbox ByocExecution RuntimeControlApi Sample.

(** ** Names of statistics *)

Lemma startswith_app p s : startswith (p +:+ s) p = true.
Proof.
  induction p as [|c p IH]; [by destruct s|].
  change (bool_decide (c = c) && startswith (p +:+ s) p = true). by rewrite IH, bool_decide_true.
Qed.

Lemma startswith_split s p : startswith s p = true → s = p +:+ str_drop (String.length p) s.
Proof.
  revert s. induction p as [|c p IH]; intros s Hs; [by destruct s|].
  destruct s as [|c' s]; [done|]. cbn in Hs. apply andb_true_iff in Hs as [Hc Hs].
  apply bool_decide_eq_true in Hc as ->. cbn [String.length str_drop].
  change (String c' s = String c' (p +:+ str_drop (String.length p) s)). f_equal. by apply IH.
Qed.

Lemma str_drop_app p s : str_drop (String.length p) (p +:+ s) = s.
Proof. induction p as [|c p IH]; [by destruct s|]. exact IH. Qed.

Lemma app_ne name p s : startswith name p = false → p +:+ s ≠ name.
Proof. intros Hn <-. by rewrite startswith_app in Hn. Qed.

Lemma update_stats_app m ps qs : update_stats m (ps ++ qs) = update_stats (update_stats m ps) qs.
Proof. apply foldl_app. Qed.

Lemma update_stats_ne m ps k : k ∉ ps.*1 → update_stats m ps !! k = m !! k.
Proof.
  unfold update_stats. revert m. induction ps as [|[n v] ps IH]; intros m Hk; [done|].
  cbn in Hk |- *. apply not_elem_of_cons in Hk as [Hne Hk]. rewrite IH by done.
  by rewrite lookup_insert_ne.
Qed.

(** Entries with distinct names are all there. *)
Lemma update_stats_get m ps k v : NoDup ps.*1 → (k, v) ∈ ps → update_stats m ps !! k = Some v.
Proof.
  revert m. induction ps as [|[n w] ps IH]; intros m Hnd Hin; [by apply not_elem_of_nil in Hin|].
  cbn in Hnd. apply NoDup_cons in Hnd as [Hn Hnd]. change (update_stats m ((n, w) :: ps)) with
    (update_stats (<[n := w]> m) ps). apply elem_of_cons in Hin as [[= -> ->]|Hin]; [|by apply IH].
  rewrite update_stats_ne by done. apply lookup_insert_eq.
Qed.

(** Folding a step that only touches names with a prefix. *)
Lemma foldl_other {X} (f : stats → X → stats) (xs : list X) m k :
  (∀ m x, f m x !! k = m !! k) → foldl f m xs !! k = m !! k.
Proof. intros Hf. revert m. induction xs as [|x xs IH]; intros m; [done|]. cbn. by rewrite IH, Hf. Qed.

Lemma partition_stats_other c costs tenant m p k :
  startswith k "tenant_cost_partition_" = false → partition_stats c costs tenant m p !! k = m !! k.
Proof.
  intros Hk. destruct p as [pk total]. unfold partition_stats.
  assert (∀ s, ("tenant_cost_partition_" +:+ metric_token pk) +:+ s ≠ k) as Hn.
  { intros s E. rewrite <- E in Hk. change (startswith ("tenant_cost_partition_" +:+ (metric_token pk +:+ s))
      "tenant_cost_partition_" = false) in Hk. by rewrite startswith_app in Hk. }
  destruct (enable_cost_window c); rewrite !update_stats_ne; try done; cbn [fmap list_fmap fst];
    repeat (apply not_elem_of_cons; split; [by apply not_eq_sym, Hn|]); apply not_elem_of_nil.
Qed.

Lemma conflict_stats_other m r k :
  startswith k "tenant_conflict_" = false → conflict_stats m r !! k = m !! k.
Proof.
  intros Hk. unfold conflict_stats, add_stat, bump_in.
  assert (∀ s, "tenant_conflict_" +:+ s ≠ k) as Hn by (intros s; by apply app_ne).
  rewrite !lookup_insert_ne; [done| | |].
  - exact (Hn ("reason_" +:+ _)).
  - exact (Hn ("strategy_" +:+ _)).
  - exact (Hn ("tool_" +:+ _)).
Qed.

(** ** The statistics of a tenant *)

Lemma prefixed_not_in p x names :
  forallb (λ n, negb (startswith n p)) names = true → p +:+ x ∉ names.
Proof.
  intros Hn Hin. rewrite forallb_forall in Hn. specialize (Hn (p +:+ x)).
  rewrite startswith_app in Hn. cbn in Hn. by discriminate Hn; apply list_elem_of_In.
Qed.

Lemma entries_of_elem {V} (m : gmap (string * string) V) tenant k v :
  (k, v) ∈ entries_of m tenant ↔ m !! (tenant, k) = Some v.
Proof.
  unfold entries_of. rewrite list_elem_of_omap. split.
  - intros ([[t k'] v'] & Hin & Hs). cbn in Hs. case_bool_decide as Ht; [|done]. subst t.
    injection Hs as -> ->. by apply elem_of_map_to_list in Hin.
  - intros Hm. exists ((tenant, k), v). split; [by apply elem_of_map_to_list|]. cbn.
    by rewrite bool_decide_true.
Qed.

(** Taking the elements that [f] keeps, by a key that tells them apart, keeps them apart. *)
Lemma NoDup_omap_keys {X Y : Type} {K L : Type} (f : X * Y → option (K * L)) (l : list (X * Y)) :
  (∀ p q r s, f p = Some r → f q = Some s → r.1 = s.1 → p.1 = q.1) →
  NoDup l.*1 → NoDup (omap f l).*1.
Proof.
  intros Hf. induction l as [|p l IH]; intros Hnd; [constructor|].
  cbn in Hnd |- *. apply NoDup_cons in Hnd as [Hp Hnd].
  destruct (f p) as [r|] eqn:Er; cbn; [|by apply IH].
  apply NoDup_cons. split; [|by apply IH].
  intros Hin. apply list_elem_of_fmap in Hin as (s & Hrs & Hs).
  apply list_elem_of_omap in Hs as (q & Hq & Hs). apply Hp.
  rewrite (Hf p q r s) by done. by apply list_elem_of_fmap_2.
Qed.

Lemma entries_of_nodup {V} (m : gmap (string * string) V) tenant : NoDup (entries_of m tenant).*1.
Proof.
  unfold entries_of. apply NoDup_omap_keys; [|apply NoDup_fst_map_to_list].
  intros [[t k] v] [[t' k'] v'] r s; cbn.
  do 2 (case_bool_decide; [|done]). intros [= <-] [= <-]. cbn. congruence.
Qed.

Lemma update_stats_prefixed m (entries : list (string * Z)) p k :
  NoDup entries.*1 → (∀ x, m !! (p +:+ x) = None) →
  ∀ n, update_stats m ((λ e, (p +:+ e.1, e.2)) <$> entries) !! (p +:+ k) = Some n ↔ (k, n) ∈ entries.
Proof.
  intros Hnd Hm n. set (ps := (λ e : string * Z, (p +:+ e.1, e.2)) <$> entries).
  assert (ps.*1 = (λ x, p +:+ x) <$> entries.*1) as Hps.
  { unfold ps. rewrite <- !list_fmap_compose. done. }
  assert (NoDup ps.*1) as Hnd'.
  { rewrite Hps. apply NoDup_fmap_2; [|done]. intros x y E.
    apply (f_equal (str_drop (String.length p))) in E. by rewrite !str_drop_app in E. }
  split.
  - intros Hg. destruct (decide ((p +:+ k) ∈ ps.*1)) as [Hin|Hin].
    + rewrite Hps in Hin. apply list_elem_of_fmap in Hin as (x & E & Hx).
      apply (f_equal (str_drop (String.length p))) in E. rewrite !str_drop_app in E. subst x.
      apply list_elem_of_fmap in Hx as ([k' v] & -> & Hx). cbn in *.
      rewrite (update_stats_get _ _ _ v) in Hg; [by injection Hg as ->|done|].
      unfold ps. by apply (list_elem_of_fmap_2 (λ e : string * Z, (p +:+ e.1, e.2)) _ (k', v)).
    + rewrite update_stats_ne in Hg by done. by rewrite Hm in Hg.
  - intros Hin. apply update_stats_get; [done|].
    unfold ps. by apply (list_elem_of_fmap_2 (λ e : string * Z, (p +:+ e.1, e.2)) _ (k, n)).
Qed.

(** The rejections by reason that are shown are the entries with the prefix. *)
Lemma reasons_of_elem m k n : (k, n) ∈ reasons_of m ↔ m !! (reason_prefix +:+ k) = Some n.
Proof.
  unfold reasons_of. rewrite (sort_by_perm reason_le), list_elem_of_omap. split.
  - intros ([name v] & Hin & Hs). cbn [fst snd] in Hs.
    destruct (startswith name reason_prefix) eqn:E; [|done]. apply startswith_split in E.
    injection Hs as Hk ->. fold (reason_code_of name) in E. rewrite Hk in E. subst name.
    by apply elem_of_map_to_list in Hin.
  - intros Hm. exists (reason_prefix +:+ k, n). split; [by apply elem_of_map_to_list|].
    cbn [fst snd]. unfold reason_code_of. by rewrite startswith_app, str_drop_app.
Qed.

Lemma reasons_of_nodup m : NoDup (reasons_of m).*1.
Proof.
  unfold reasons_of. rewrite (sort_by_perm reason_le).
  apply NoDup_omap_keys; [|apply NoDup_fst_map_to_list].
  intros [a x] [b y] r s; cbn [fst snd].
  destruct (startswith a reason_prefix) eqn:Ea; [|done].
  destruct (startswith b reason_prefix) eqn:Eb; [|done].
  intros [= <-] [= <-]. cbn [fst]. intros E.
  apply startswith_split in Ea, Eb. rewrite Ea, Eb. f_equal. exact E.
Qed.

Section report.
Variable int_div : Z → Z → Q.
#[local] Notation coordinator_stats co := (FairAdmission.stats co).

(** The window of the tenant's costs as the statistics read it. *)
Definition window_of (s : byoc_runtime) (now : Z) (tenant : string) : Z * Z :=
  (tenant_window_state (cfg (conn s)) (costs (conn s)) (normalized_tenant tenant) now).1.

(** What the statistics say under the names that the report reads. *)
Definition reported (s : byoc_runtime) (now : Z) (tenant : string) : list (string * Z) :=
  let c := cfg (conn s) in
  let total := default 0 (tenant_cost_total (costs (conn s)) !! tenant) in
  [("tenant_cost_microunits_total", total); ("tenant_cost_limit_microunits", cost_limit c);
   ("tenant_cost_remaining_microunits", Z.max (cost_limit c - total) 0);
   ("tenant_cost_window_policy_enabled", flag (enable_cost_window c));
   ("tenant_cost_window_seconds", cost_window_seconds c);
   ("tenant_cost_window_started_epoch", (window_of s now tenant).1);
   ("tenant_cost_window_microunits", (window_of s now tenant).2);
   ("tenant_cost_window_remaining_microunits", Z.max (cost_limit c - (window_of s now tenant).2) 0);
   ("tenant_submit_attempts_total", default 0 (submit_attempts (conn s) !! tenant));
   ("tenant_rejected_results_total", default 0 (rejected_results (conn s) !! tenant))].

Lemma tenant_window_state_total c st tenant now :
  tenant_cost_total (tenant_window_state c st tenant now).2 = tenant_cost_total st.
Proof. unfold tenant_window_state. by destruct (window_state _ _ _ _ _) as [? []]. Qed.

(** The statistics in two parts: those under the names of the rejections by reason, and the others. *)
Lemma control_stats_parts s guard_now now wait co tenant :
  ∃ base L1 partitions L3 conflicts c costs,
    (control_stats_for_tenant s guard_now now wait (coordinator_stats co) tenant).1 =
      update_stats
        (foldl conflict_stats
           (update_stats (foldl (partition_stats c costs tenant) (update_stats base L1) partitions) L3)
           conflicts)
        ((λ p, (reason_prefix +:+ p.1, p.2)) <$> entries_of (rejections_by_reason (conn s)) tenant) ∧
    (∀ x, base !! (reason_prefix +:+ x) = None) ∧
    NoDup L1.*1 ∧ NoDup L3.*1 ∧
    forallb (λ n, negb (startswith n reason_prefix)) (L1.*1 ++ L3.*1) = true ∧
    (∀ p, p ∈ reported s now tenant →
       startswith p.1 "tenant_cost_partition_" = false ∧ startswith p.1 "tenant_conflict_" = false ∧
       startswith p.1 reason_prefix = false ∧ (p ∈ L1 ∧ p.1 ∉ L3.*1 ∨ p ∈ L3)).
Proof.
  unfold control_stats_for_tenant, reported, window_of.
  pose proof (tenant_window_state_total (cfg (conn s)) (costs (conn s)) (normalized_tenant tenant) now) as Htot.
  destruct (tenant_window_state _ _ _ _) as [[start cost] st]. cbn [fst snd] in Htot |- *. rewrite <- Htot.
  cbn zeta. do 7 eexists. split; [reflexivity|]. split_and!.
  - intros x. unfold byoc_control_stats. rewrite update_stats_ne; [apply lookup_empty|].
    apply prefixed_not_in. destruct (fair_admission_enabled s); vm_compute; reflexivity.
  - refine (bool_decide_unpack _ _). vm_compute. exact I.
  - refine (bool_decide_unpack _ _). vm_compute. exact I.
  - vm_compute. reflexivity.
  - intros p Hp. rewrite !elem_of_cons, elem_of_nil in Hp.
    repeat (destruct Hp as [->|Hp]); [..|destruct Hp].
    all: split; [reflexivity|]; split; [reflexivity|]; split; [reflexivity|].
    all: first
      [ right; repeat (apply list_elem_of_here || apply list_elem_of_further); fail
      | left; split;
        [ repeat (apply list_elem_of_here || apply list_elem_of_further)
        | refine (bool_decide_unpack _ _); vm_compute; exact I ] ].
Qed.

Lemma control_stats_reported s guard_now now wait co tenant p :
  p ∈ reported s now tenant →
  (control_stats_for_tenant s guard_now now wait (coordinator_stats co) tenant).1 !! p.1 = Some p.2.
Proof.
  destruct (control_stats_parts s guard_now now wait co tenant)
    as (base & L1 & ps & L3 & cs & c & st & -> & _ & H1 & H3 & _ & Hp).
  intros Hin. destruct (Hp p Hin) as (Hpart & Hconf & Hreason & Hwhere).
  rewrite update_stats_ne.
  2:{ intros Hk. apply list_elem_of_fmap in Hk as (q & E & Hq). apply list_elem_of_fmap in Hq as (e & -> & _).
      cbn in E. rewrite E, startswith_app in Hreason. done. }
  rewrite foldl_other by (intros; by apply conflict_stats_other).
  destruct Hwhere as [[Hin1 Hn3]|Hin3].
  - rewrite update_stats_ne by done. rewrite foldl_other by (intros; by apply partition_stats_other).
    apply update_stats_get; [done|]. by destruct p.
  - apply update_stats_get; [done|]. by destruct p.
Qed.

Lemma control_stats_reason s guard_now now wait co tenant k n :
  (control_stats_for_tenant s guard_now now wait (coordinator_stats co) tenant).1 !! (reason_prefix +:+ k)
    = Some n ↔ rejections_by_reason (conn s) !! (tenant, k) = Some n.
Proof.
  destruct (control_stats_parts s guard_now now wait co tenant)
    as (base & L1 & ps & L3 & cs & c & st & -> & Hbase & _ & _ & Hnames & _).
  rewrite update_stats_prefixed; [apply entries_of_elem|apply entries_of_nodup|].
  intros x. rewrite forallb_app in Hnames. apply andb_true_iff in Hnames as [Hn1 Hn3].
  rewrite foldl_other by (intros; by apply conflict_stats_other).
  rewrite update_stats_ne by (by apply prefixed_not_in).
  rewrite foldl_other by (intros; by apply partition_stats_other).
  rewrite update_stats_ne by (by apply prefixed_not_in). apply Hbase.
Qed.

(** The tenant's cost window is over. *)
Definition window_over (s : byoc_runtime) (now : Z) (tenant : string) : Prop :=
  let start := default (int_seconds now)
    (tenant_window_started (costs (conn s)) !! normalized_tenant tenant) in
  cost_window_seconds (cfg (conn s)) ≤ int_seconds now - (if start <=? 0 then int_seconds now else start).

#[export] Instance window_over_dec s now tenant : Decision (window_over s now tenant).
Proof. unfold window_over. apply _. Defined.

(** What reading the statistics of a tenant leaves: the replay keys that have not expired, the window of the
    tenant's costs, begun anew at nothing when it is over, and everything else as it was. *)
Definition state_after_reading (s : byoc_runtime) (guard_now now : Z) (tenant : string) (s' : byoc_runtime) : Prop :=
  let old := costs (conn s) in
  let t := normalized_tenant tenant in
  ∃ started window,
    s' = with_conn s
      (with_costs (with_guard (conn s) (Guard.cleanup (replay_guard (conn s)) guard_now))
         (mkCosts (tenant_cost_total old) started window (partition_cost_total old)
            (partition_window_started old) (partition_window_cost old))) ∧
    (∀ t', t' ≠ t → started !! t' = tenant_window_started old !! t' ∧ window !! t' = tenant_window_cost old !! t') ∧
    if decide (window_over s now tenant) then started !! t = Some (int_seconds now) ∧ window !! t = Some 0
    else default (int_seconds now) (started !! t) = default (int_seconds now) (tenant_window_started old !! t) ∧
         default 0 (window !! t) = default 0 (tenant_window_cost old !! t).

Lemma control_stats_state s guard_now now wait coordinator tenant :
  state_after_reading s guard_now now tenant
    (control_stats_for_tenant s guard_now now wait coordinator tenant).2.
Proof.
  unfold state_after_reading, control_stats_for_tenant, Guard.health_metrics, tenant_window_state, window_over.
  set (t := normalized_tenant tenant). set (old := costs (conn s)).
  destruct (window_state (cost_window_seconds (cfg (conn s))) (tenant_window_started old) (tenant_window_cost old) t now)
    as [[start cost] [started window]] eqn:E.
  exists started, window. cbn [snd]. split; [done|]. unfold window_state in E.
  set (first := default (int_seconds now) (tenant_window_started old !! t)) in *.
  destruct (Z.leb_spec (cost_window_seconds (cfg (conn s)))
    (int_seconds now - (if first <=? 0 then int_seconds now else first))) as [Hover|Hover];
    injection E as <- <- <- <-.
  - split; [intros t' Hne; by rewrite !lookup_insert_ne by done|].
    rewrite decide_True by done. by rewrite !lookup_insert_eq.
  - split.
    + intros t' Hne. by destruct (tenant_window_started old !! t), (tenant_window_cost old !! t);
        rewrite ?lookup_insert_ne by done.
    + rewrite decide_False by lia. subst first.
      destruct (tenant_window_started old !! t) as [x|] eqn:Es; cbn [default from_option id] in *.
      * rewrite Es. split; [done|].
        destruct (tenant_window_cost old !! t) eqn:Ec; [by rewrite Ec|by rewrite lookup_insert_eq].
      * rewrite lookup_insert_eq. split; [cbn; by destruct (int_seconds now <=? 0)|].
        destruct (tenant_window_cost old !! t) eqn:Ec; [by rewrite Ec|by rewrite lookup_insert_eq].
Qed.

(** *** The detector *)

#[export] Instance reason_le_total : Total reason_le.
Proof. intros p q. unfold reason_le. apply total, _. Qed.

#[export] Instance reason_le_trans : Transitive reason_le.
Proof. intros p q r. unfold reason_le. apply transitivity. Qed.

Lemma anomaly_when_elem code message value threshold reason an :
  an ∈ anomaly_when code message value threshold reason ↔
  QArith_base.Qle threshold value ∧ an = mkAnomaly code "warning" message value threshold reason.
Proof.
  unfold anomaly_when, reaches. destruct (QArith_base.Qle_bool threshold value) eqn:E.
  - apply QArith_base.Qle_bool_iff in E. rewrite list_elem_of_singleton. naive_solver.
  - split; [by intros ?%not_elem_of_nil|]. intros [Hle _]. apply QArith_base.Qle_bool_iff in Hle. congruence.
Qed.

(** When the detector finds an anomaly. *)
Definition anomalous (util rate : Q) (attempts rejected : Z) (reasons : list (string * Z))
    (th : GovernanceAnomalyThresholds) (an : GovernanceAnomaly) : Prop :=
  min_submit_attempts th ≤ attempts ∧ 0 ≤ attempts ∧
  (QArith_base.Qle (cost_utilization_threshold th) util ∧
     an = mkAnomaly "BYOC_COST_UTILIZATION_SPIKE" "warning"
            "Tenant cost utilization exceeded advisory threshold." util (cost_utilization_threshold th) "" ∨
   QArith_base.Qle (rejection_rate_threshold th) rate ∧
     an = mkAnomaly "BYOC_REJECTION_RATE_SPIKE" "warning"
            "Tenant rejection rate exceeded advisory threshold." rate (rejection_rate_threshold th) "" ∨
   ∃ reason n, (reason, n) ∈ reasons ∧ 0 < rejected ∧ min_rejection_count th ≤ rejected ∧
     0 ≤ n ∧ min_rejection_count th ≤ n ∧
     QArith_base.Qle (reason_share_threshold th) (int_div n rejected) ∧
     an = mkAnomaly "BYOC_REJECTION_REASON_DOMINANCE" "warning"
            "A single rejection reason dominates tenant failures." (int_div n rejected)
            (reason_share_threshold th) reason).

Lemma detect_anomalous util rate attempts rejected reasons th an :
  an ∈ detect_governance_anomalies int_div util rate attempts rejected reasons th ↔
  anomalous util rate attempts rejected reasons th an.
Proof.
  unfold detect_governance_anomalies, anomalous.
  destruct (Z.ltb_spec attempts (Z.max (min_submit_attempts th) 0)) as [Hlt|Hge].
  { rewrite elem_of_nil. split; [done|]. intros (? & ? & _). lia. }
  rewrite !elem_of_app, !anomaly_when_elem.
  assert (an ∈ (if (Z.max rejected 0 <? Z.max (min_rejection_count th) 0) || (Z.max rejected 0 <=? 0) then []
                else mjoin (dominant_reason int_div th (Z.max rejected 0) <$> sort_by reason_le reasons)) ↔
    ∃ reason n, (reason, n) ∈ reasons ∧ 0 < rejected ∧ min_rejection_count th ≤ rejected ∧
     0 ≤ n ∧ min_rejection_count th ≤ n ∧
     QArith_base.Qle (reason_share_threshold th) (int_div n rejected) ∧
     an = mkAnomaly "BYOC_REJECTION_REASON_DOMINANCE" "warning"
            "A single rejection reason dominates tenant failures." (int_div n rejected)
            (reason_share_threshold th) reason) as ->; [|intuition lia].
  destruct (Z.ltb_spec (Z.max rejected 0) (Z.max (min_rejection_count th) 0)) as [?|Hm]; cbn [orb].
  { rewrite elem_of_nil. split; [done|]. intros (? & ? & ? & ? & ? & _). lia. }
  destruct (Z.leb_spec (Z.max rejected 0) 0) as [?|Hp].
  { rewrite elem_of_nil. split; [done|]. intros (? & ? & ? & ? & ? & _). lia. }
  rewrite Z.max_l by lia. setoid_rewrite list_elem_of_join. split.
  - intros (l & Han & Hl). apply list_elem_of_fmap in Hl as ([reason n] & -> & Hin).
    rewrite (sort_by_perm reason_le) in Hin. unfold dominant_reason in Han. cbn [fst snd] in Han.
    destruct (Z.ltb_spec n (Z.max (min_rejection_count th) 0)); [by apply not_elem_of_nil in Han|].
    apply anomaly_when_elem in Han as [Hle ->]. exists reason, n. split_and!; try done; lia.
  - intros (reason & n & Hin & Hr & Hmr & Hn & Hmn & Hle & ->).
    exists (dominant_reason int_div th rejected (reason, n)). split.
    + unfold dominant_reason. cbn [fst snd]. destruct (Z.ltb_spec n (Z.max (min_rejection_count th) 0)); [lia|].
      by apply anomaly_when_elem.
    + apply list_elem_of_fmap_2. by rewrite (sort_by_perm reason_le).
Qed.
(** *** Routes behind an entitlement *)

Context {A : Type} `{!PolicyActions A}.

Definition entitled (r : admin_request) (f : EntitledFeature) : Prop :=
  ed_decision (evaluate_feature_entitlement (A := A) (ar_identity r) f) = ALLOW.

Lemma entitled_reply {B} f surface a r (k : control_app → http B * control_app) b a' events :
  entitled_route (A := A) f surface a r k = (Reply b, a', events) →
  is_Some (control_modules_of a) ∧ entitled r f ∧ k a = (Reply b, a').
Proof.
  unfold entitled_route, enforce_feature_entitlement, entitled.
  destruct (control_modules_of a) as [m|]; [|done].
  case_bool_decide as Hd; cbn [negb]; [|done]. destruct (k a) as [answer a1] eqn:Ek.
  intros [= -> -> _]. by split_and!.
Qed.

(** Without the entitlement, or without modules, a route does nothing. *)
Lemma not_entitled {B} f surface a r (k : control_app → http B * control_app) :
  ¬ entitled r f →
  ∃ code message events, entitled_route (A := A) f surface a r k = (HTTPException code message, a, events) ∧
    (code = 403 ∨ code = 503).
Proof.
  intros Hn. unfold entitled_route, enforce_feature_entitlement, entitled in *.
  destruct (control_modules_of a) as [m|]; [|by eauto 10].
  rewrite bool_decide_false by done. cbn [negb]. by eauto 10.
Qed.

Lemma on_connector_reply {B} (k : byoc_runtime → http B * byoc_runtime) a b a' :
  on_connector k a = (Reply b, a') →
  ∃ s s', execution_adapter a = Some (ByocConnectorRuntime s) ∧ k s = (Reply b, s') ∧
    a' = with_execution_adapter a (ByocConnectorRuntime s').
Proof.
  unfold on_connector, resolve_byoc_adapter, resolve_runtime_adapter.
  destruct (execution_adapter a) as [[x|s]|]; [done| |done].
  destruct (k s) as [answer s'] eqn:Ek. intros [= -> <-]. by exists s, s'.
Qed.

Ltac listed := repeat (apply list_elem_of_here || apply list_elem_of_further); fail.

(** The cost part of a report: of the window where there is one, else of the tenant's lifetime. *)
Definition cost_report (s : byoc_runtime) (now : Z) (tenant : string) : ByocGovernanceCostMetrics :=
  let c := cfg (conn s) in
  let limit := cost_limit c in
  if enable_cost_window c then
    let '(start, total) := window_of s now tenant in
    mkCostMetrics "windowed" (cost_window_seconds c) start total limit (Z.max (limit - total) 0)
      (ratio int_div total limit)
  else
    let total := default 0 (tenant_cost_total (costs (conn s)) !! tenant) in
    mkCostMetrics "lifetime" 0 0 total limit (Z.max (limit - total) 0) (ratio int_div total limit).

Lemma cost_metrics_exact s guard_now now wait co tenant :
  cost_metrics_of int_div
    (control_stats_for_tenant s guard_now now wait (coordinator_stats co) tenant).1 = cost_report s now tenant.
Proof.
  assert (∀ name v, (name, v) ∈ reported s now tenant →
    (control_stats_for_tenant s guard_now now wait (coordinator_stats co) tenant).1 !! name = Some v) as Hm.
  { intros name v. apply (control_stats_reported s guard_now now wait co tenant (name, v)). }
  set (m := (control_stats_for_tenant _ _ _ _ _ _).1) in *. unfold reported in Hm.
  unfold cost_metrics_of, stat, cost_report.
  erewrite (Hm "tenant_cost_window_policy_enabled"), (Hm "tenant_cost_limit_microunits"),
    (Hm "tenant_cost_microunits_total"), (Hm "tenant_cost_window_microunits"),
    (Hm "tenant_cost_window_seconds"), (Hm "tenant_cost_window_started_epoch") by listed.
  cbn [default id from_option].
  destruct (enable_cost_window (cfg (conn s))); cbn [flag negb Z.eqb].
  - erewrite (Hm "tenant_cost_window_remaining_microunits") by listed.
    destruct (window_of s now tenant) as [start total]. cbn [fst snd from_option id]. f_equal. lia.
  - erewrite (Hm "tenant_cost_remaining_microunits") by listed.
    cbn [from_option id]. f_equal. lia.
Qed.

End report.

(** ** Replaying dead-lettered jobs *)
Section replay.
Import Jobs.

(** The job with this id is a dead letter of the tenant. *)
Definition dead_for (s : Jobs.t) (tenant id : string) : bool :=
  py_bool (py_strip tenant) &&
  match od_get id (states s) with Some st => has_status (py_strip tenant) DeadLettered st | None => false end.

Lemma replay_one s tenant id :
  py_strip id = id → id ≠ "" →
  Jobs.replay_dead_letter_job s tenant id =
    match od_get id (states s) with
    | Some st =>
        if dead_for s tenant id then
          (true, mkStore (od_set id (replayed st) (states s)) (push (py_strip tenant) id (tenant_queue s)))
        else (false, s)
    | None => (false, s)
    end.
Proof.
  intros Hs Hne. unfold Jobs.replay_dead_letter_job, dead_for. rewrite Hs.
  assert (py_bool id = true) as -> by (by apply py_bool_true).
  destruct (py_bool (py_strip tenant)) eqn:Et; cbn [negb orb andb]; [|by destruct (od_get id (states s))].
  destruct (od_get id (states s)) as [st|]; [|done]. by destruct (has_status _ _ st).
Qed.

Lemma dead_for_other s tenant id id' st q :
  id ≠ id' → dead_for (mkStore (od_set id' st (states s)) q) tenant id = dead_for s tenant id.
Proof. intros Hne. unfold dead_for. cbn. by rewrite od_get_set_ne. Qed.

Lemma filter_ext_in {X} (P Q : X → Prop) `{!∀ x, Decision (P x), !∀ x, Decision (Q x)} (l : list X) :
  (∀ x, x ∈ l → P x ↔ Q x) → filter P l = filter Q l.
Proof.
  induction l as [|x l IH]; intros Hpq; [done|]. rewrite !filter_cons.
  rewrite IH by (intros; apply Hpq; by apply list_elem_of_further).
  apply decide_ext, Hpq, list_elem_of_here.
Qed.

Lemma mem_other (id id' : string) ids :
  id' ≠ id → bool_decide (id' ∈ id :: ids) = bool_decide (id' ∈ ids).
Proof. intros Hne. apply bool_decide_ext. set_solver. Qed.

(** The jobs after a bulk replay: those asked for that were dead letters of the tenant are queued again,
    with one more replay; every other job is as it was. *)
Lemma replay_loop_spec s tenant ids :
  NoDup ids → Forall (λ id, py_strip id = id ∧ id ≠ "") ids →
  let '(n, failures, s') := replay_loop s tenant ids in
  n = count_if (dead_for s tenant) ids ∧
  failures = filter (λ id, dead_for s tenant id = false) ids ∧
  ∀ id, od_get id (states s') =
    (if bool_decide (id ∈ ids) && dead_for s tenant id then replayed else (λ st, st)) <$> od_get id (states s).
Proof.
  revert s. induction ids as [|id ids IH]; intros s Hnd Hids.
  { cbn. split_and!; [done..|]. intros id. by destruct (od_get id (states s)). }
  apply NoDup_cons in Hnd as [Hid Hnd]. apply Forall_cons in Hids as [[Hst Hne] Hids].
  cbn [replay_loop]. rewrite replay_one by done. rewrite count_if_cons, filter_cons.
  destruct (od_get id (states s)) as [st|] eqn:Eg.
  2:{ assert (dead_for s tenant id = false) as Hd.
      { unfold dead_for. rewrite Eg. apply andb_false_r. }
      rewrite Hd, decide_True by done. specialize (IH s Hnd Hids).
      destruct (replay_loop s tenant ids) as [[n fs] s']. destruct IH as (-> & -> & Hg).
      split_and!; [done..|]. intros id'. rewrite Hg. destruct (decide (id' = id)) as [->|Hx].
      - by rewrite Eg.
      - by rewrite (mem_other id id' ids Hx). }
  destruct (dead_for s tenant id) eqn:Hd.
  - rewrite decide_False by done. set (s1 := mkStore _ _). specialize (IH s1 Hnd Hids).
    destruct (replay_loop s1 tenant ids) as [[n fs] s']. destruct IH as (-> & -> & Hg).
    assert (∀ id', id' ∈ ids → dead_for s1 tenant id' = dead_for s tenant id') as Heq.
    { intros id' Hin. apply dead_for_other. by intros ->. }
    split_and!.
    + rewrite (count_if_ext (dead_for s1 tenant) (dead_for s tenant)) by done. lia.
    + by apply filter_ext_in; intros id' Hin; rewrite Heq.
    + intros id'. rewrite Hg. destruct (decide (id' = id)) as [->|Hx].
      * rewrite (bool_decide_false (id ∈ ids)), (bool_decide_true (id ∈ id :: ids)), Hd, Eg by set_solver.
        cbn [andb s1 states]. rewrite od_get_set. done.
      * cbn [s1 states]. rewrite od_get_set_ne by done.
        unfold s1. rewrite dead_for_other by done.
        by rewrite (mem_other id id' ids Hx).
  - rewrite decide_True by done. specialize (IH s Hnd Hids).
    destruct (replay_loop s tenant ids) as [[n fs] s']. destruct IH as (-> & -> & Hg).
    split_and!; [done..|]. intros id'. rewrite Hg. destruct (decide (id' = id)) as [->|Hx].
    + by rewrite Hd, !andb_false_r.
    + by rewrite (mem_other id id' ids Hx).
Qed.

Lemma distinct_ids_spec ids :
  NoDup (distinct ids) ∧ (∀ id, id ∈ distinct ids ↔ id ∈ ids) ∧ (length (distinct ids) ≤ length ids)%nat.
Proof.
  unfold distinct.
  assert (∀ m : list (string * ()), od_wf m →
    let m' := foldl (λ d i, od_set i tt d) m ids in
    od_wf m' ∧ (∀ id, id ∈ od_keys m' ↔ id ∈ od_keys m ∨ id ∈ ids) ∧
    (length (od_keys m') ≤ length (od_keys m) + length ids)%nat) as H.
  { induction ids as [|i ids IH]; intros m Hm; cbn zeta; cbn [foldl length].
    - split_and!; [done| |lia]. intros id. rewrite elem_of_nil. tauto.
    - destruct (IH (od_set i tt m) (od_wf_set _ _ _ Hm)) as (Hw & Hi & Hl). split_and!; [done| |].
      + intros id. rewrite Hi, od_keys_set, elem_of_cons. tauto.
      + etrans; [exact Hl|]. assert (length (od_keys (od_set i tt m)) ≤ S (length (od_keys m)))%nat; [|lia].
        destruct (od_get i m) eqn:E.
        * rewrite od_keys_set_present by done. lia.
        * rewrite od_set_fresh by done. unfold od_keys. rewrite fmap_app, length_app. cbn. lia. }
  destruct (H [] (NoDup_nil_2)) as (Hw & Hi & Hl). split_and!; [exact Hw| |exact Hl].
  intros id. rewrite Hi. cbn. rewrite elem_of_nil. tauto.
Qed.

(** The targets of a bulk replay are clean ids, no more than the limit allows. *)
Lemma bulk_targets_clean c tenant ids limit :
  Forall (λ id, py_strip id = id ∧ id ≠ "") (bulk_targets c tenant ids limit) ∧
  (length (bulk_targets c tenant ids limit) ≤ Z.to_nat (Z.max 1 (Z.min limit 500)))%nat.
Proof.
  assert (∀ l : list string, Forall (λ id, py_strip id = id ∧ id ≠ "") (filter (λ i, i ≠ "") (py_strip <$> l))) as Hf.
  { intros l. apply Forall_forall. intros id [Hne Hin]%list_elem_of_filter.
    apply list_elem_of_fmap in Hin as (x & -> & _). by rewrite py_strip_idem. }
  unfold bulk_targets. destruct (filter (λ i, i ≠ "") (py_strip <$> ids)) as [|x l] eqn:E; split.
  - pose proof (Hf ((λ row, default "" (od_get "job_id" row)) <$>
      ByocConnector.list_dead_letter_jobs c tenant (Z.max 1 (Z.min limit 500)))) as Hl.
    rewrite <- list_fmap_compose in Hl. exact Hl.
  - etrans; [apply length_filter|]. rewrite length_fmap.
    unfold ByocConnector.list_dead_letter_jobs, Jobs.list_dead_letter_jobs.
    rewrite length_fmap, length_take. lia.
  - pose proof (Hf ids) as Hc. rewrite E in Hc. apply Forall_take, Forall_forall.
    intros y Hy. rewrite Forall_forall in Hc. apply Hc. by apply (distinct_ids_spec (x :: l)).
  - rewrite length_take. lia.
Qed.

Lemma fmap_id_on (f : string → string) l : Forall (λ x, f x = x) l → f <$> l = l.
Proof. induction 1 as [|x l Hx _ IH]; [done|]. cbn. by rewrite Hx, IH. Qed.
End replay.

Lemma replay_clean c tenant ts limit :
  ts ≠ [] → Forall (λ id, py_strip id = id ∧ id ≠ "") ts →
  (length ts ≤ Z.to_nat (Z.max 1 (Z.min limit 500)))%nat →
  replay_dead_letter_jobs c tenant ts (Z.max 1 (Z.min limit 500)) =
    let '(n, failures, jobs) := replay_loop (job_store c) tenant (distinct ts) in
    ((Z.of_nat (length (distinct ts)), n, failures),
     bump (bump (with_jobs c jobs) "dlq_replayed_total" n) "dlq_replay_failed_total"
       (Z.of_nat (length failures))).
Proof.
  intros Hne Hclean Hlen. unfold replay_dead_letter_jobs.
  assert (filter (λ i, i ≠ "") (py_strip <$> ts) = ts) as ->.
  { rewrite fmap_id_on by (eapply Forall_impl; [exact Hclean|by intros ? []]).
    apply filter_all_in. rewrite <- Forall_forall. eapply Forall_impl; [exact Hclean|by intros ? []]. }
  destruct (distinct_ids_spec ts) as (_ & _ & Hle).
  destruct ts as [|t0 ts0]; [done|]. rewrite take_ge by lia.
  by destruct (replay_loop _ _ _) as [[n fs] jobs].
Qed.

Lemma count_if_split {X} (p : X → bool) (l : list X) :
  Z.of_nat (length l) = count_if p l + Z.of_nat (length (filter (λ x, p x = false) l)).
Proof.
  induction l as [|x l IH]; [done|]. rewrite count_if_cons, filter_cons.
  destruct (p x); [rewrite decide_False by done|rewrite decide_True by done]; cbn [length]; lia.
Qed.

Section bulk.
Context {A : Type} `{!PolicyActions A}.

(** a bulk replay answers for exactly the jobs it was asked for, at most as many as the limit, each
    once: those that are dead letters of the route's tenant are queued again with one more replay, each
    of the others is named as a failure, and the two numbers add up.  No other job is touched, of this
    tenant or of another, and no result; and the caller is entitled to it. *)
Theorem bulk_replay_accounts a r job_ids limit answer a' events :
  replay_byoc_dead_letter_jobs_bulk (A := A) a r job_ids limit = (Reply answer, a', events) →
  entitled (A := A) r RuntimeAdminControls ∧
  ∃ s s', execution_adapter a = Some (ByocConnectorRuntime s) ∧
    a' = with_execution_adapter a (ByocConnectorRuntime s') ∧
    let tenant := ar_tenant_id r in
    let targets := distinct (bulk_targets (conn s) tenant job_ids limit) in
    let dead := dead_for (job_store (conn s)) tenant in
    NoDup targets ∧ Z.of_nat (length targets) ≤ Z.max 1 (Z.min limit 500) ∧
    db_attempted answer = Z.of_nat (length targets) ∧
    db_replayed answer = count_if dead targets ∧
    db_failed answer = db_attempted answer - db_replayed answer ∧
    (db_failures answer).*1 = filter (λ id, dead id = false) targets ∧
    Z.of_nat (length (db_failures answer)) = db_failed answer ∧
    (∀ id, od_get id (Jobs.states (job_store (conn s'))) =
       (if bool_decide (id ∈ targets) && dead id then Jobs.replayed else (λ st, st)) <$>
         od_get id (Jobs.states (job_store (conn s)))) ∧
    result_store (conn s') = result_store (conn s).
Proof.
  intros Hr. apply entitled_reply in Hr as (_ & Hent & Hk). split; [exact Hent|].
  apply on_connector_reply in Hk as (s & s' & Ha & Hk & ->). exists s, s'. split; [done|]. split; [done|].
  cbn zeta. destruct (bulk_targets_clean (conn s) (ar_tenant_id r) job_ids limit) as [Hclean Hlen].
  revert Hk Hclean Hlen. generalize (bulk_targets (conn s) (ar_tenant_id r) job_ids limit) as ts.
  intros ts Hk Hclean Hlen. destruct (distinct_ids_spec ts) as (Hnd & Hin & Hle).
  split; [done|]. split; [lia|].
  destruct (decide (ts = [])) as [->|Hne].
  { injection Hk as <- <-. cbn. split_and!; try done. intros id. by destruct (od_get id _). }
  assert (∀ X (x y : X), match ts with [] => x | _ => y end = y) as Hmatch by (by destruct ts).
  rewrite Hmatch, replay_clean in Hk; [|done|done|lia]. clear Hmatch.
  assert (Forall (λ id, py_strip id = id ∧ id ≠ "") (distinct ts)) as Hclean'.
  { apply Forall_forall. intros id Hid. rewrite Forall_forall in Hclean. by apply Hclean, Hin. }
  pose proof (replay_loop_spec (job_store (conn s)) (ar_tenant_id r) (distinct ts) Hnd Hclean') as Hspec.
  destruct (replay_loop _ _ _) as [[n fs] jobs]. destruct Hspec as (-> & -> & Hget).
  injection Hk as <- <-. cbn [db_attempted db_replayed db_failed db_failures].
  pose proof (count_if_split (dead_for (job_store (conn s)) (ar_tenant_id r)) (distinct ts)) as Hsum.
  set (failed := filter _ (distinct ts)) in *.
  assert ((filter (λ p, p.1 ≠ "") ((λ id, (py_strip id, "DLQ_REPLAY_NOT_FOUND_OR_NOT_DLQ")) <$> failed)).*1 = failed)
    as Hrows.
  { assert (Forall (λ id, py_strip id = id ∧ id ≠ "") failed) as Hf.
    { apply Forall_forall. intros id [_ Hid]%list_elem_of_filter. rewrite Forall_forall in Hclean'. by apply Hclean'. }
    clearbody failed. clear -Hf. induction Hf as [|id l [Hs Hn] _ IH]; [done|].
    cbn [fmap list_fmap]. rewrite filter_cons, decide_True by (cbn; by rewrite Hs).
    cbn [fmap list_fmap fst]. by rewrite Hs, IH. }
  split; [done|]. split; [done|]. split; [lia|]. split; [exact Hrows|].
  split; [|split; [exact Hget|done]].
  rewrite <- (length_fmap fst), Hrows. lia.
Qed.
End bulk.

(** ** Examples *)
Module ControlExamples.
Import Sample.
#[local] Notation action := Sample.action.

Definition caller (roles : list string) : IdentityContext :=
  mkIdentityContext "ann" Human roles "acme" "" TokenValid "" "" false.

Definition request (roles : list string) : admin_request :=
  mkAdminRequest "acme" (caller roles) "POST /tenants/{tenant_id}/admin/runtime" "t".

Definition thresholds : GovernanceAnomalyThresholds :=
  mkThresholds (QArith_base.Qmake 9 10) (QArith_base.Qmake 1 5) (QArith_base.Qmake 3 5) 1 1.

Definition app (runs : option RunControlRegistry.t) (x : adapter) : control_app :=
  mkControlApp (Some (mkControlModules false runs None (mkAnomalySettings true thresholds))) (Some x).

Definition int_div (a b : Z) : Q := QArith_base.Qdiv (inject_Z a) (inject_Z b).

(** A connector with a queued job of another tenant, a dead letter of the tenant's, and two submissions
    of the tenant that had no lease. *)
Definition job (id tenant call : string) : ByocToolJobEnvelope :=
  mkEnvelope id tenant "r1" call "tool" [] 1000 call (id +:+ "-key") "" 0 0 "" "" "" "" "" "" "".

Definition dead_state (e : ByocToolJobEnvelope) : JobState :=
  mkState e DeadLettered "" "" 0 3 0 0 5000000 "BYOC_LEASE_RETRY_EXHAUSTED" 0.

Definition jobs : Jobs.t :=
  let s := Jobs.enqueue (Jobs.enqueue Jobs.empty (job "j1" "beta" "call_b")) (job "j2" "acme" "call_a") in
  Jobs.mkStore (od_set "j2" (dead_state (job "j2" "acme" "call_a")) (Jobs.states s)) (Jobs.tenant_queue s).

Definition submit (c : connector) : connector :=
  (ingest_result_after_auth c 0 0 "acme"
     (ByocJobs.mkResult "j9" "acme" "r1" "call_a" "tool" "success" [] "" "" false "k9" "none" "" "" "" "")).2.

Definition runtime : byoc_runtime :=
  mkByocRuntime (submit (submit (with_jobs
    (init_connector
       (mkConnConfig "secret" 300 30 300 30 3600 3600 10 10 3 150 true false 3600 100 40 60 20 ScopeTenant ∅)
       FirstWriteWins) jobs))) false false 0 ∅.

Definition byoc_app : control_app := app None (ByocConnectorRuntime runtime).

Definition report (roles : list string) :=
  get_byoc_governance_metrics (A := action) int_div byoc_app (request roles) "now" 0 0 1000
    (FairAdmission.stats (FairAdmission.init 1)).


Definition bulk (ids : list string) :=
  replay_byoc_dead_letter_jobs_bulk (A := action) byoc_app (request ["pro"]) ids 50.

(** Of the three ids one is a dead letter of the tenant. *)
Lemma bulk_replay_accounts_witness :
  ∃ answer a' events, bulk ["j2"; " j1 "; "j7"] = (Reply answer, a', events) ∧
    db_attempted answer = 3 ∧ db_replayed answer = 1 ∧ db_failed answer = 2 ∧
    (db_failures answer).*1 = ["j1"; "j7"].
Proof.
  destruct (bulk ["j2"; " j1 "; "j7"]) as [[[answer|c m] a'] events] eqn:E.
  2:{ exfalso. apply (f_equal (λ x, match x.1.1 with Reply _ => true | _ => false end)) in E.
      vm_compute in E. discriminate E. }
  exists answer, a', events. split; [done|].
  destruct (bulk_replay_accounts (A := action) byoc_app (request ["pro"]) ["j2"; " j1 "; "j7"] 50 answer a' events E)
    as (_ & s & s' & Ha & _ & _ & _ & Hatt & Hrep & Hfail & Hrows & _).
  assert (runtime = s) as <-.
  { unfold byoc_app, app in Ha. cbn [execution_adapter] in Ha. by injection Ha. }
  rewrite Hfail, Hrows, Hatt, Hrep. split_and!; vm_compute; reflexivity.
Defined.

(** An administrator of one tenant cancels the queued job of another tenant: the cancellation goes by
    the call id alone. *)
Lemma cancellation_crosses_tenants :
  let '(answer, a', _) := request_runtime_cancellation (A := action) byoc_app (request ["pro"])
    (λ _, (λ _, 0, 0)) "call_b" in
  answer = Reply (mkCancellationResponse "acme" backend_id "call_b" true 0) ∧
  match execution_adapter a' with
  | Some (ByocConnectorRuntime s') =>
      option_map (λ st, (js_tenant st, js_status st)) (od_get "j1" (Jobs.states (job_store (conn s'))))
      = Some ("beta", ByocJobs.Cancelled)
  | _ => False
  end.
Proof. vm_compute. by split. Qed.

(** Cancelling a run that completed, on the hosted sandbox: the tokens of its calls are accepted though the
    calls are over, and the run is recorded as cancelled. *)
Definition completed_runs : RunControlRegistry.t :=
  let s := (RunControlRegistry.start_run (RunControlRegistry.init 0) "t1" "t1" "acme" "s1" "r1" "c1" "sse").2 in
  let s := (RunControlRegistry.record_tool_call s "t2" "acme" "r1" "call_a").2 in
  (RunControlRegistry.mark_terminal s "t3" "acme" "r1" "completed" "run_complete" "").2.

Definition sandbox : sandbox_runtime :=
  mkSandbox (TenantSandboxPool.init None) default_sandbox_policy false ∅ 0 0 0.

Definition run_status (s : RunControlRegistry.t) : option string :=
  option_map rn_status (od_get ("acme", "r1") (RunControlRegistry.records s)).

Lemma completed_run_becomes_cancelled :
  let '(answer, a', _) := cancel_runtime_run (A := action) (app (Some completed_runs) (HostedSandbox sandbox))
    (request ["pro"]) (λ _, (λ _, 0, 0)) "t4" "t5" "r1" in
  answer = Reply (mkRunCancel "acme" sandbox_backend_id "r1" true 1) ∧
  run_status completed_runs = Some "completed" ∧
  match control_modules_of a' with
  | Some m => match run_control_registry m with Some s => run_status s = Some "cancelled" | None => False end
  | None => False
  end.
Proof. vm_compute. by split_and!. Qed.

(** Calls that are refused for their cost count as rejected results although nothing was submitted: the
    rejection rate is then no fraction of the submissions. *)
Lemma rejection_rate_above_one :
  let s := with_conn runtime (increment_rejection (increment_rejection (conn runtime) "acme" "BYOC_COST_LIMIT_EXCEEDED")
             "acme" "BYOC_COST_LIMIT_EXCEEDED") in
  let '(answer, _, _) := get_byoc_governance_metrics (A := action) int_div
    (app None (ByocConnectorRuntime s)) (request ["pro"]) "now" 0 0 1000
    (FairAdmission.stats (FairAdmission.init 1)) in
  match answer with
  | Reply g => gm_submit_attempts_total g = 2 ∧ gm_rejected_results_total g = 4 ∧
      QArith_base.Qeq (gm_rejection_rate g) (inject_Z 2)
  | HTTPException _ _ => False
  end.
Proof. vm_compute. by split_and!. Qed.
End ControlExamples.
