(* ===== verification/ToolCatalog.v ===== *)
(** * The tool routes

    Models src/api/routers/tools.py: registering tools, uploading, activating, rolling back,
    deactivating and revoking tool versions, and the lookups.  [catalog] is what the routes of
    one tenant change: the registry of the tenant's context, the two stores and the files of the
    artifact store.  The context stays cached: that the factory drops contexts when its cache is
    full, and builds them anew without tools, is in TenantRuntime.v.  The identity and tenant checks of the routes are those of Authentication.v; the
    application's modules are configured.  An exception that a route does not catch makes the
    request fail with 500 after the changes made so far. *)

From S2P Require Import Prelude PyValue Tenancy Authentication.
From S2P Require Import ToolIO ToolExecutor SqliteStores ToolPackages Entitlements.

Notation tool_rows := (list ((string * string) * SQLiteToolStore.row)).
Notation version_rows := (list (string * string * string * SQLiteToolVersionStore.row)).

Section catalog.
Context `{!ToolIO} {Handler L : Type} `{!FixedWindow L}.
Variable float_repr : Q → string.
Variable sha256_hex : string → string.
Variable hmac_sha256_hex : string → string → string.
Variable import_attr : string → string → attr_outcome Handler.
Variable exec_attr : string → string → string → attr_outcome Handler.
Variable parse_source : string → parse_outcome.
Variable scan : version_rows → version_rows.

Notation ToolDescriptor := (ToolDescriptor Handler).
Notation registry_t := (list (string * ToolDescriptor)).
Notation resolve_handler := (resolve_handler import_attr).
Notation verify_artifact_bundle_integrity :=
  (verify_artifact_bundle_integrity float_repr sha256_hex hmac_sha256_hex).
Notation descriptor_from_tool_version :=
  (descriptor_from_tool_version float_repr sha256_hex hmac_sha256_hex import_attr exec_attr parse_source).
Notation get_active_tool_version := (SQLiteToolVersionStore.get_active_tool_version scan).

Record catalog := mkCatalog {
  tool_registry : registry_t;
  tool_store : option tool_rows;
  tool_version_store : option version_rows;
  (** The root directory of the artifact store, and the files under it *)
  artifact_root : option string;
  artifact_files : list (string * string);
  upload_rate_limiter : option L;
}.

(** The settings the routes read, which do not change *)
Record tool_settings := mkToolSettings {
  upload_limits : LimitsSettings;
  artifact_signing_secret : string;
  auditing : bool;
}.

Definition with_registry (c : catalog) (r : registry_t) : catalog :=
  mkCatalog r (tool_store c) (tool_version_store c) (artifact_root c) (artifact_files c)
    (upload_rate_limiter c).

Definition with_tools (c : catalog) (r : registry_t) (s : option tool_rows) : catalog :=
  mkCatalog r s (tool_version_store c) (artifact_root c) (artifact_files c) (upload_rate_limiter c).

Definition with_versions (c : catalog) (s : version_rows) : catalog :=
  mkCatalog (tool_registry c) (tool_store c) (Some s) (artifact_root c) (artifact_files c)
    (upload_rate_limiter c).

Definition with_files (c : catalog) (fs : list (string * string)) : catalog :=
  mkCatalog (tool_registry c) (tool_store c) (tool_version_store c) (artifact_root c) fs
    (upload_rate_limiter c).

Definition with_limiter (c : catalog) (l : option L) : catalog :=
  mkCatalog (tool_registry c) (tool_store c) (tool_version_store c) (artifact_root c)
    (artifact_files c) l.

Definition no_version_store {A} : http A :=
  HTTPException 503 "Tool version store is not configured (memory backend).".

(** ** Responses *)

Record ToolResponse := mkToolResponse {
  to_name : string;
  to_description : string;
  to_handler_ref : pyval;
  to_risk_tier : RiskTier;
  to_is_state_changing : bool;
  to_timeout_ms : Z;
  to_parameters_schema : pydict;
}.

Definition descriptor_to_response (d : ToolDescriptor) : ToolResponse :=
  mkToolResponse (ToolRegistry.name d) (ToolRegistry.description d)
    (dict_get (ToolRegistry.metadata d) "handler_ref" (PStr "")) (ToolRegistry.risk_tier d)
    (ToolRegistry.is_state_changing d) (ToolRegistry.timeout_ms d)
    (ToolRegistry.parameters_schema d).

Record ToolValidationResponse := mkValidationResponse {
  ta_tenant_id : string;
  ta_tool_name : string;
  ta_version : string;
  ta_state : string;
  ta_errors : list string;
  ta_warnings : list string;
  ta_normalized_schema_hash : string;
  ta_package_ref : string;
  ta_integrity_status : string;
  ta_integrity_message : string;
  ta_active : bool;
  ta_created_at : string;
}.

(** The integrity of a version's files as the responses tell it *)
Definition integrity_of (fs : list (string * string)) (r : ToolVersionRecord) (signing_secret : string)
    : res (string * string) :=
  if negb (py_bool (metadata_text float_repr r handler_path_key)) then Ok ("not_applicable", "")
  else if negb (py_bool (metadata_text float_repr r bundle_signature_key))
          || negb (py_bool (metadata_text float_repr r bundle_hash_key)) then
    Ok ("missing_metadata", "artifact hash/signature metadata is missing")
  else if negb (py_bool (py_strip signing_secret)) then
    Ok ("unverifiable", "artifact signing secret is not configured")
  else
    match verify_artifact_bundle_integrity fs r signing_secret with
    | Ok _ => Ok ("verified", "")
    | Raise (ValueError m) => Ok ("mismatch", m)
    | Raise e => Raise e
    end.

Definition to_validation_response (fs : list (string * string)) (r : ToolVersionRecord)
    (signing_secret : string) : res ToolValidationResponse :=
  let v := default (SQLiteToolVersionStore.pending (vr_tool_name r) (vr_version r)) (vr_validation r) in
  let! '(status, message) := integrity_of fs r signing_secret in
  Ok (mkValidationResponse (vr_tenant_id r) (vr_tool_name r) (vr_version r)
        (validation_state_value (tv_state v)) (tv_errors v) (tv_warnings v)
        (tv_normalized_schema_hash v) (vr_package_ref r) status message (vr_active r)
        (vr_created_at r)).

(** The errors [_validation_for_manifest] finds in the order it does *)
Definition endswith (s suffix : string) : bool :=
  let n := String.length s in
  let m := String.length suffix in
  (m <=? n)%nat && (str_drop (n - m) s =?s suffix).

Definition validation_for_manifest (m : ToolPackageManifest) (inline_handler_source : string)
    : ToolValidationResult :=
  let unless (b : bool) (e : string) : list string := if b then [] else [e] in
  let inline_source :=
    py_or (py_strip inline_handler_source)
      (py_strip (dict_get_str float_repr (mf_metadata m) inline_source_key "")) in
  let source_errors :=
    if py_bool inline_source then
      match validate_inline_handler_source parse_source inline_source (mf_entrypoint m) with
      | Ok _ => []
      | Raise e => [exn_message e]
      end
    else [] in
  let '(limit_errors, limit_warnings) :=
    match parse_sandbox_limits (mf_metadata m) with
    | Raise e => ([exn_message e], [])
    | Ok None =>
        ([], ["metadata.sandbox_limits is not provided; hosted runtime uses platform defaults"])
    | Ok (Some limits) =>
        ([], match cpu_budget_ms limits with
             | Some cpu =>
                 if mf_timeout_ms m <? cpu
                 then ["sandbox_limits.cpu_budget_ms exceeds timeout_ms and may never be reached"]
                 else []
             | None => []
             end)
    end in
  let errors :=
    unless (py_bool (py_strip (mf_tool_name m))) "tool_name is required" ++
    unless (py_bool (py_strip (mf_version m))) "version is required" ++
    unless (endswith (mf_entry_file m) ".py") "entry_file must be a .py file" ++
    unless (py_bool (py_strip (mf_entrypoint m))) "entrypoint is required" ++
    source_errors ++ limit_errors in
  let warnings :=
    limit_warnings ++ unless (mf_entrypoint m =?s "run") "entrypoint is not the standard 'run'" in
  mkValidation (mf_tool_name m) (mf_version m) (if bool_decide (errors = []) then VALID else INVALID)
    errors warnings (schema_fingerprint float_repr sha256_hex (mf_input_schema m)).

(** ** Registered tools *)

Record ToolRegisterRequest := mkRegisterRequest {
  rq_name : string;
  rq_handler_ref : string;
  rq_description : string;
  rq_parameters_schema : pydict;
  rq_risk_tier : RiskTier;
  rq_is_state_changing : bool;
  rq_timeout_ms : Z;
}.

Definition registered_descriptor (b : ToolRegisterRequest) (h : Handler) : ToolDescriptor :=
  mkDescriptor (rq_name b) h (rq_risk_tier b) (rq_is_state_changing b) (rq_timeout_ms b)
    (rq_description b) (rq_parameters_schema b) [("handler_ref", PStr (rq_handler_ref b))].

Definition persisted_tool (tenant_id handler_ref : string) (d : ToolDescriptor) : PersistedToolRecord :=
  mkPersistedTool (ToolRegistry.name d) handler_ref tenant_id (risk_value (ToolRegistry.risk_tier d))
    (ToolRegistry.is_state_changing d) (ToolRegistry.timeout_ms d) (ToolRegistry.description d)
    (ToolRegistry.parameters_schema d) (ToolRegistry.metadata d).

Definition register_tool (c : catalog) (tenant_id : string) (b : ToolRegisterRequest)
    : http ToolResponse * catalog :=
  if bool_decide (rq_name b ∈ ToolRegistry.list_tools (tool_registry c)) then
    (HTTPException 409 ("Tool '" +:+ rq_name b +:+ "' is already registered"), c)
  else
    match value_error_as 422 (resolve_handler (rq_handler_ref b)) with
    | HTTPException code m => (HTTPException code m, c)
    | Reply h =>
        let d := registered_descriptor b h in
        (Reply (descriptor_to_response d),
         with_tools c (ToolRegistry.register (tool_registry c) d)
           ((λ s, SQLiteToolStore.save_tool s tenant_id (persisted_tool tenant_id (rq_handler_ref b) d))
              <$> tool_store c))
    end.

Definition unregister_tool (c : catalog) (tenant_id name : string) : http unit * catalog :=
  match ToolRegistry.unregister (tool_registry c) name with
  | Raise _ => (HTTPException 404 ("Tool '" +:+ name +:+ "' not found"), c)
  | Ok registry =>
      (Reply tt,
       with_tools c registry ((λ s, SQLiteToolStore.delete_tool s tenant_id name) <$> tool_store c))
  end.

Definition list_tools (c : catalog) : list ToolResponse :=
  descriptor_to_response <$> ToolRegistry.list_descriptors (tool_registry c).

Definition get_tool (c : catalog) (name : string) : http ToolResponse :=
  match ToolRegistry.resolve (tool_registry c) name with
  | Ok d => Reply (descriptor_to_response d)
  | Raise _ => HTTPException 404 ("Tool '" +:+ name +:+ "' not found")
  end.

Record ToolImportSchemaRequest := mkImportRequest {
  ti_payload : pydict;
  ti_tool_name : string;
  ti_description : string;
  ti_handler_ref : string;
}.

(** The name, description, handler reference, schema and fingerprint of a pasted tool *)
Definition import_tool_schema (b : ToolImportSchemaRequest)
    : http (string * string * string * pydict * string) :=
  let? normalized := value_error_as 422 (normalize_tool_payload float_repr (ti_payload b)) in
  let tool_name := py_strip (py_or (ti_tool_name b) (np_name normalized)) in
  if negb (py_bool tool_name) then
    HTTPException 422 "tool_name is required (explicitly or in payload.name)"
  else
    let params := np_parameters_schema normalized in
    Reply (tool_name, py_or (py_strip (ti_description b)) (np_description normalized),
           py_or (py_strip (ti_handler_ref b)) (default_handler_ref tool_name), params,
           schema_fingerprint float_repr sha256_hex params).

(** ** Tool versions *)

(** [_sync_active_tool_descriptor]: the registry follows the store. *)
Definition sync_active_tool_descriptor (c : catalog) (s : version_rows)
    (tenant_id tool_name signing_secret : string) : res catalog :=
  let! active := get_active_tool_version s tenant_id tool_name in
  match active with
  | None =>
      match ToolRegistry.unregister (tool_registry c) tool_name with
      | Ok registry => Ok (with_registry c registry)
      | Raise _ => Ok c
      end
  | Some r =>
      let! d := descriptor_from_tool_version (artifact_files c) r signing_secret in
      Ok (with_registry c (ToolRegistry.register (tool_registry c) d))
  end.

Definition tool_audit (c : tool_settings) (event tenant_id tool_name version : string) (payload : pydict)
    : list audit_event :=
  emit (auditing c) (tenant_id +:+ ":" +:+ tool_name +:+ ":" +:+ version) tenant_id event payload.

Record ToolVersionUploadRequest := mkUploadRequest {
  up_manifest : ToolPackageManifest;
  up_package_ref : string;
  (** tool.yaml and handler.py *)
  up_package_bundle : option (string * string);
  up_inline_handler_source : string;
  up_artifact_size_bytes : Z;
  up_activate : bool;
}.

Definition set_metadata (m : ToolPackageManifest) (metadata : pydict) : ToolPackageManifest :=
  mkManifest (mf_tool_name m) (mf_version m) (mf_description m) (mf_input_schema m) (mf_timeout_ms m)
    (mf_risk_tier m) (mf_entry_file m) (mf_entrypoint m) (mf_requirements m) metadata.

(** The manifest with its sandbox limits in canonical form, or as it came *)
Definition normalized_manifest (m : ToolPackageManifest) : ToolPackageManifest :=
  match normalize_manifest_metadata (mf_metadata m) with
  | Ok metadata => set_metadata m metadata
  | Raise _ => m
  end.

Definition provided_sources (b : ToolVersionUploadRequest) : string * string :=
  let '(yaml, handler) :=
    match up_package_bundle b with
    | Some (yaml, handler) => (py_strip yaml, py_strip handler)
    | None => ("", "")
    end in
  (yaml, py_or handler (py_strip (up_inline_handler_source b))).

(** Storing and signing the files of an upload.  They are written before the secret is asked
    for. *)
Definition store_bundle (c : catalog) (secret tenant_id yaml handler : string) (m : ToolPackageManifest)
    : http ToolPackageManifest * catalog :=
  match artifact_root c with
  | None => (HTTPException 503 "Tool artifact store is not configured.", c)
  | Some root =>
      let rendered := py_or yaml (render_tool_yaml m) in
      let '(fs, p) :=
        persist_bundle (artifact_files c) root tenant_id (mf_tool_name m) (mf_version m) rendered
          handler in
      let bundle_hash := compute_bundle_hash sha256_hex rendered handler in
      let c := with_files c fs in
      (let? signature :=
         value_error_as 503
           (sign_bundle_hash hmac_sha256_hex bundle_hash (py_strip secret) default_signature_version) in
       Reply (set_metadata m
         (dict_update (mf_metadata m)
            [(bundle_dir_key, PStr (bundle_dir p)); (manifest_path_key, PStr (manifest_path p));
             (handler_path_key, PStr (handler_path p)); (bundle_hash_key, PStr bundle_hash);
             (bundle_signature_key, PStr signature);
             (signature_version_key, PStr default_signature_version)])),
       c)
  end.

(** The record that an upload stores *)
Definition upload_record (settings : tool_settings) (tenant_id now : string) (b : ToolVersionUploadRequest)
    (m : ToolPackageManifest) (handler : string) : ToolVersionRecord :=
  let size :=
    if (up_artifact_size_bytes b <=? 0) && py_bool handler then py_len handler
    else up_artifact_size_bytes b in
  let policy := validate_tool_package_upload m (up_package_ref b) size (upload_limits settings) in
  let v := validation_for_manifest m handler in
  let errors := tv_errors v ++ pk_errors policy in
  let validation :=
    mkValidation (tv_tool_name v) (tv_version v)
      (if bool_decide (errors = []) then tv_state v else INVALID) errors
      (tv_warnings v ++ pk_warnings policy) (tv_normalized_schema_hash v) in
  mkToolVersion tenant_id (mf_tool_name m) (mf_version m) m (Some validation) (up_package_ref b)
    false now.

(** Activating what was uploaded *)
Definition activate_upload (c : catalog) (s : version_rows) (secret : string) (r : ToolVersionRecord)
    : http ToolValidationResponse * catalog :=
  let respond c r := or_500 (to_validation_response (artifact_files c) r secret) in
  if bool_decide (tv_state <$> vr_validation r = Some INVALID) then (respond c r, c)
  else
    match value_error_as 422 (descriptor_from_tool_version (artifact_files c) r secret) with
    | HTTPException code m => (HTTPException code m, c)
    | Reply _ =>
        let tenant_id := vr_tenant_id r in
        let tool_name := vr_tool_name r in
        let s := SQLiteToolVersionStore.set_active_tool_version s tenant_id tool_name (vr_version r) in
        let c := with_versions c s in
        match sync_active_tool_descriptor c s tenant_id tool_name secret with
        | Raise e => (internal_error e, c)
        | Ok c =>
            match SQLiteToolVersionStore.get_tool_version s tenant_id tool_name (vr_version r) with
            | Raise e => (internal_error e, c)
            | Ok (Some active) => (respond c active, c)
            | Ok None => (respond c r, c)
            end
        end
    end.

Definition upload_tool_package (settings : tool_settings) (c : catalog) (tenant_id : string)
    (b : ToolVersionUploadRequest) (now_epoch : Z) (now : string)
    : http ToolValidationResponse * catalog * list audit_event :=
  match tool_version_store c with
  | None => (no_version_store, c, [])
  | Some s =>
      let '(allowed, c) :=
        match upload_rate_limiter c with
        | None => (true, c)
        | Some limiter =>
            let '((allowed, _), limiter) := fw_allow limiter now_epoch tenant_id in
            (allowed, with_limiter c (Some limiter))
        end in
      let audit event m payload :=
        tool_audit settings event tenant_id (mf_tool_name m) (mf_version m) payload in
      if negb allowed then
        (HTTPException 429
           "TENANT_UPLOAD_RATE_LIMIT_EXCEEDED: too many tool uploads in the current window", c,
         audit "tool_upload_rejected_rate_limit" (up_manifest b) [("runtime_id", PStr "registry_api")])
      else
        let secret := artifact_signing_secret settings in
        let m := normalized_manifest (up_manifest b) in
        let '(yaml, handler) := provided_sources b in
        let '(stored, c) :=
          if py_bool handler then store_bundle c secret tenant_id yaml handler m else (Reply m, c) in
        match stored with
        | HTTPException code message => (HTTPException code message, c, [])
        | Reply m =>
            let r := upload_record settings tenant_id now b m handler in
            let s := SQLiteToolVersionStore.save_tool_version s r in
            let c := with_versions c s in
            let saved :=
              audit "tool_upload_saved" m
                [("tool_name", PStr (mf_tool_name m)); ("version", PStr (mf_version m));
                 ("runtime_id", PStr "registry_api");
                 ("state", PStr (default "" (validation_state_value <$> (tv_state <$> vr_validation r))));
                 ("package_ref", PStr (up_package_ref b))] in
            let '(reply, c) :=
              if up_activate b then activate_upload c s secret r
              else (or_500 (to_validation_response (artifact_files c) r secret), c) in
            (reply, c, saved)
        end
  end.

Definition validate_tool_version (settings : tool_settings) (c : catalog)
    (tenant_id tool_name : string) (version : option string) : http ToolValidationResponse :=
  match tool_version_store c with
  | None => no_version_store
  | Some s =>
      let found :=
        if py_bool (default "" version) then
          SQLiteToolVersionStore.get_tool_version s tenant_id tool_name (default "" version)
        else
          let! active := get_active_tool_version s tenant_id tool_name in
          match active with
          | Some r => Ok (Some r)
          | None =>
              let! versions := SQLiteToolVersionStore.list_tool_versions s tenant_id tool_name in
              Ok (head versions)
          end in
      let? r := or_500 found in
      match r with
      | None => HTTPException 404 ("Tool version not found: " +:+ tool_name)
      | Some r => or_500 (to_validation_response (artifact_files c) r (artifact_signing_secret settings))
      end
  end.

Fixpoint responses (fs : list (string * string)) (rs : list ToolVersionRecord) (secret : string)
    : res (list ToolValidationResponse) :=
  match rs with
  | [] => Ok []
  | r :: rs =>
      let! x := to_validation_response fs r secret in
      let! xs := responses fs rs secret in
      Ok (x :: xs)
  end.

Definition list_tool_versions (settings : tool_settings) (c : catalog) (tenant_id tool_name : string)
    : http (list ToolValidationResponse) :=
  match tool_version_store c with
  | None => no_version_store
  | Some s =>
      or_500
        (let! versions := SQLiteToolVersionStore.list_tool_versions s tenant_id tool_name in
         responses (artifact_files c) versions (artifact_signing_secret settings))
  end.

Record ToolGovernanceResponse := mkGovernance {
  tg_tenant_id : string;
  tg_tool_name : string;
  tg_version : string;
  tg_action : string;
  tg_active_version : string;
  tg_revoked : bool;
}.

Definition deactivate_tool_version (settings : tool_settings) (c : catalog)
    (tenant_id tool_name version : string)
    : http ToolGovernanceResponse * catalog * list audit_event :=
  match tool_version_store c with
  | None => (no_version_store, c, [])
  | Some s =>
      match get_active_tool_version s tenant_id tool_name with
      | Raise e => (internal_error e, c, [])
      | Ok None => (HTTPException 404 ("No active version for tool '" +:+ tool_name +:+ "'."), c, [])
      | Ok (Some active) =>
          if negb (vr_version active =?s version) then
            (HTTPException 409 ("Version '" +:+ version +:+ "' is not active for tool '" +:+ tool_name
               +:+ "'. Active is '" +:+ vr_version active +:+ "'."), c, [])
          else
            let s := SQLiteToolVersionStore.clear_active_tool_version s tenant_id tool_name in
            let c := with_versions c s in
            match sync_active_tool_descriptor c s tenant_id tool_name
                    (artifact_signing_secret settings) with
            | Raise e => (internal_error e, c, [])
            | Ok c =>
                (Reply (mkGovernance tenant_id tool_name version "deactivate" "" false), c,
                 tool_audit settings "tool_version_deactivated" tenant_id tool_name version
                   [("tool_name", PStr tool_name); ("version", PStr version);
                    ("runtime_id", PStr "registry_api")])
            end
      end
  end.

Definition rollback_tool_version (settings : tool_settings) (c : catalog)
    (tenant_id tool_name target_version : string)
    : http ToolGovernanceResponse * catalog * list audit_event :=
  let secret := artifact_signing_secret settings in
  match tool_version_store c with
  | None => (no_version_store, c, [])
  | Some s =>
      match SQLiteToolVersionStore.get_tool_version s tenant_id tool_name target_version with
      | Raise e => (internal_error e, c, [])
      | Ok None =>
          (HTTPException 404 ("Target rollback version '" +:+ target_version
             +:+ "' was not found for tool '" +:+ tool_name +:+ "'."), c, [])
      | Ok (Some target) =>
          if bool_decide (tv_state <$> vr_validation target = Some INVALID) then
            (HTTPException 409 ("Target rollback version '" +:+ target_version
               +:+ "' is invalid and cannot be activated."), c, [])
          else
            match value_error_as 422 (descriptor_from_tool_version (artifact_files c) target secret) with
            | HTTPException code m => (HTTPException code m, c, [])
            | Reply _ =>
                let s := SQLiteToolVersionStore.set_active_tool_version s tenant_id tool_name
                           target_version in
                let c := with_versions c s in
                match sync_active_tool_descriptor c s tenant_id tool_name secret with
                | Raise e => (internal_error e, c, [])
                | Ok c =>
                    (Reply (mkGovernance tenant_id tool_name target_version "rollback" target_version
                              false), c,
                     tool_audit settings "tool_version_rollback" tenant_id tool_name target_version
                       [("tool_name", PStr tool_name); ("version", PStr target_version);
                        ("runtime_id", PStr "registry_api")])
                end
            end
      end
  end.

Definition revoke_tool_package_version (settings : tool_settings) (c : catalog)
    (tenant_id tool_name version : string) (force : bool)
    : http ToolGovernanceResponse * catalog * list audit_event :=
  match tool_version_store c with
  | None => (no_version_store, c, [])
  | Some s =>
      match SQLiteToolVersionStore.get_tool_version s tenant_id tool_name version with
      | Raise e => (internal_error e, c, [])
      | Ok None =>
          (HTTPException 404 ("Tool version not found: " +:+ tool_name +:+ "@" +:+ version), c, [])
      | Ok (Some r) =>
          if vr_active r && negb force then
            (HTTPException 409 ("Tool version '" +:+ version
               +:+ "' is active; deactivate or use force=true to revoke."), c, [])
          else
            let s :=
              if vr_active r && force
              then SQLiteToolVersionStore.clear_active_tool_version s tenant_id tool_name else s in
            let s := SQLiteToolVersionStore.delete_tool_version s tenant_id tool_name version in
            let c := with_versions c s in
            match sync_active_tool_descriptor c s tenant_id tool_name
                    (artifact_signing_secret settings) with
            | Raise e => (internal_error e, c, [])
            | Ok c =>
                let audits :=
                  tool_audit settings "tool_package_revoked" tenant_id tool_name version
                    [("tool_name", PStr tool_name); ("version", PStr version);
                     ("runtime_id", PStr "registry_api"); ("force", PBool force)] in
                match get_active_tool_version s tenant_id tool_name with
                | Raise e => (internal_error e, c, audits)
                | Ok active =>
                    (Reply (mkGovernance tenant_id tool_name version "revoke"
                              (default "" (vr_version <$> active)) true), c, audits)
                end
            end
      end
  end.
End catalog.
