(* ===== verification/Hydration.v ===== *)
(** * Restoring the registries at startup

    Models src/api/startup.py: what the stores hold becomes tools and agents of the tenants'
    contexts and providers of the provider registry.  A failure that is not caught stops the
    startup; the registries it left behind are then not used. *)

From S2P Require Import Prelude PyValue ToolIO ToolExecutor Identity SqliteStores AgentRegistry.
From S2P Require Import TenantRuntime Providers ToolPackages ToolCatalog.

(** [{t.value for t in AgentCapabilityTag}], and the tag of a value *)
Definition capability_of (value : string) : option AgentCapabilityTag :=
  List.find (λ t, capability_value t =?s value)
    [TOOL_USE; WORKFLOW_ROUTING; REVIEW; RETRIEVAL; MCP; BACKGROUND_EXECUTION].

Definition agent_record_to_spec (r : PersistedAgentRecord) : AgentSpec :=
  mkAgent (pa_agent_id r) (pa_role r) (list_to_set (omap capability_of (pa_capability_tags r)))
    (pa_instructions r) (pa_metadata r).

Section hydration.
Context `{!ToolIO} {Handler Class_ Adapter : Type}.
Variable float_repr : Q → string.
Variable sha256_hex : string → string.
Variable hmac_sha256_hex : string → string → string.
Variable import_attr : string → string → attr_outcome Handler.
Variable exec_attr : string → string → string → attr_outcome Handler.
Variable parse_source : string → parse_outcome.
Variable scan : version_rows → version_rows.
Variable import_class : string → string → class_outcome Class_.
Variable construct : Class_ → string → loading Adapter.
Variable byoc_execute sandbox_execute :
  ToolCallContext → ToolRegistry.ToolDescriptor Handler → res ToolResult.

Notation ToolDescriptor := (ToolDescriptor Handler).
Notation tool_registry_t := (list (string * ToolDescriptor)).
Notation descriptor_from_tool_version :=
  (descriptor_from_tool_version float_repr sha256_hex hmac_sha256_hex import_attr exec_attr parse_source).
Notation factory := (TenantRuntime.t (Handler := Handler) (Adapter := Adapter)).
Notation get_or_create := (get_or_create float_repr byoc_execute sandbox_execute (Adapter := Adapter)).

(** [_resolve_handler_ref] *)
Definition resolve_handler_ref (handler_ref : string) : res (option Handler) :=
  match rsplit_colon handler_ref with
  | None => Ok None
  | Some (module_path, func_name) =>
      match import_attr module_path func_name with
      | ModuleNotFound _ | NoAttribute | NotCallable => Ok None
      | LoadRaises e => Raise e
      | Found h => Ok (Some h)
      end
  end.

Definition tool_record_to_descriptor (r : PersistedToolRecord) : res (option ToolDescriptor) :=
  let! handler := resolve_handler_ref (pt_handler_ref r) in
  Ok ((λ h, mkDescriptor (pt_name r) h (default LOW (RiskTier_of (pt_risk_tier r)))
              (pt_is_state_changing r) (pt_timeout_ms r) (pt_description r)
              (pt_parameters_schema r) (pt_metadata r)) <$> handler).

(** *** The loops of [hydrate_tenant_registries] *)

Fixpoint hydrate_tools (registry : tool_registry_t) (rs : list PersistedToolRecord)
    : res tool_registry_t :=
  match rs with
  | [] => Ok registry
  | r :: rs =>
      if bool_decide (pt_name r ∈ ToolRegistry.list_tools registry) then hydrate_tools registry rs
      else
        let! d := tool_record_to_descriptor r in
        hydrate_tools (match d with Some d => ToolRegistry.register registry d | None => registry end) rs
  end.

Fixpoint hydrate_versions (fs : list (string * string)) (signing_secret : string)
    (registry : tool_registry_t) (rs : list ToolVersionRecord) : res tool_registry_t :=
  match rs with
  | [] => Ok registry
  | r :: rs =>
      match descriptor_from_tool_version fs r signing_secret with
      | Ok d => hydrate_versions fs signing_secret (ToolRegistry.register registry d) rs
      | Raise (ValueError _) => hydrate_versions fs signing_secret registry rs
      | Raise e => Raise e
      end
  end.

Fixpoint hydrate_agents (registry : AgentRegistry) (rs : list PersistedAgentRecord) : AgentRegistry :=
  match rs with
  | [] => registry
  | r :: rs =>
      match AgentRegistry.get registry (pa_agent_id r) with
      | Ok _ => hydrate_agents registry rs
      | Raise _ =>
          match AgentRegistry.register registry (agent_record_to_spec r) with
          | Ok registry => hydrate_agents registry rs
          | Raise _ => hydrate_agents registry rs
          end
      end
  end.

Record persisted := mkPersisted {
  ps_tools : option tool_rows;
  ps_versions : option version_rows;
  ps_agents : option (list ((string * string) * SQLiteAgentStore.row));
  ps_files : list (string * string);
  ps_signing_secret : string;
}.

(** The tools of a tenant: those of the tool store, then the active versions in their place *)
Definition tenant_tools (p : persisted) (tenant_id : string) (registry : tool_registry_t)
    : res tool_registry_t :=
  let! registry :=
    match ps_tools p with
    | Some s => hydrate_tools registry (SQLiteToolStore.list_tools s tenant_id)
    | None => Ok registry
    end in
  match ps_versions p with
  | Some s =>
      let! active := SQLiteToolVersionStore.list_active_tool_versions scan s tenant_id in
      hydrate_versions (ps_files p) (ps_signing_secret p) registry active
  | None => Ok registry
  end.

Definition tenant_agents (p : persisted) (tenant_id : string) (registry : AgentRegistry) : AgentRegistry :=
  match ps_agents p with
  | Some s => hydrate_agents registry (SQLiteAgentStore.list_agents s tenant_id)
  | None => registry
  end.

(** The tool registry of a context is the one its executor has. *)
Definition set_registries (x : TenantRuntimeContext) (tools : tool_registry_t) (agents : AgentRegistry)
    : TenantRuntimeContext :=
  let e := cx_tool_executor x in
  mkContext (cx_tenant_id x) tools (cx_policy_middleware x)
    (mkExecutor tools (policy e) (audit_sink e) (metrics e) (execution_adapter e)
       (enable_hosted_runtime e))
    agents (cx_quota_manager x).

(** One tenant; [readings] are the two readings of the clock that [get_or_create] makes. *)
Definition hydrate_tenant (c : RuntimeSettings) (p : persisted) (readings : Z * Z) (f : factory)
    (tenant_id : string) : res factory :=
  let '(ctx, f) := get_or_create c f readings.1 readings.2 tenant_id in
  match od_get ctx (heap f) with
  | None => Raise (OtherException "no such context")
  | Some x =>
      let! tools := tenant_tools p tenant_id (cx_tool_registry x) in
      Ok (update_context f ctx (set_registries x tools (tenant_agents p tenant_id (cx_agent_registry x))))
  end.

Definition tenant_ids (p : persisted) : list string :=
  distinct
    (default [] (SQLiteToolStore.list_tenant_ids <$> ps_tools p) ++
     default [] (SQLiteToolVersionStore.list_tenant_ids <$> ps_versions p) ++
     default [] (SQLiteAgentStore.list_tenant_ids <$> ps_agents p)).

Fixpoint hydrate_tenants (c : RuntimeSettings) (p : persisted) (clock : string → Z * Z) (f : factory)
    (ids : list string) : res factory :=
  match ids with
  | [] => Ok f
  | id :: ids =>
      let! f := hydrate_tenant c p (clock id) f id in
      hydrate_tenants c p clock f ids
  end.

(** *** Providers *)

(** None when the adapter cannot be loaded; a blank class reference raises. *)
Definition provider_record_to_runtime (r : PersistedProviderRecord)
    : res (option (ProviderRecord * Adapter)) :=
  let! canonical_ref := canonicalize_adapter_class_ref (pp_adapter_class r) in
  match load_adapter import_class construct canonical_ref (pp_provider_id r) with
  | LoadFails _ => Ok None
  | LoadCrashes e => Raise e
  | Loaded adapter =>
      Ok (Some
        (mkProvider (pp_provider_id r) (pp_display_name r) canonical_ref (pp_enabled r)
           (default MANAGED_VENDOR (profile_of (pp_profile r))) (pp_priority r)
           (pp_endpoint_base_url r)
           (default OPENAI_NATIVE (api_type_of (pp_endpoint_api_type r))) (pp_auth_type r)
           (pp_auth_api_key_env_var r) (pp_model r) (pp_temperature r) (pp_max_output_tokens r),
         adapter))
  end.

Fixpoint hydrate_providers (registry : ProviderRegistry (Adapter := Adapter))
    (rs : list PersistedProviderRecord) : res (ProviderRegistry (Adapter := Adapter)) :=
  match rs with
  | [] => Ok registry
  | r :: rs =>
      if od_mem (pp_provider_id r) (providers registry) then hydrate_providers registry rs
      else
        let! loaded := provider_record_to_runtime r in
        hydrate_providers
          (match loaded with
           | Some (p, adapter) => Providers.register registry p adapter
           | None => registry
           end) rs
  end.

Definition hydrate_tenant_registries (c : RuntimeSettings) (p : persisted) (clock : string → Z * Z)
    (f : factory) (provider_store : option (list (string * SQLiteProviderStore.row)))
    (registry : ProviderRegistry (Adapter := Adapter))
    : res (factory * ProviderRegistry (Adapter := Adapter)) :=
  let! f := hydrate_tenants c p clock f (tenant_ids p) in
  let! registry :=
    match provider_store with
    | Some s => hydrate_providers registry (SQLiteProviderStore.list_providers s)
    | None => Ok registry
    end in
  Ok (f, registry).
End hydration.
