(* ===== verification/HydrationFacts.v ===== *)
(** * Theorems about restoring the registries

    What a restart makes of the stores, name by name; the tool routes keep the registry of a
    tenant equal to that, but for the cases the statement excludes; providers come back as they
    were registered. *)

From S2P Require Import Prelude PyValue Tenancy Identity Authentication ToolIO Sample ToolExecutor.
From S2P Require Import SqliteStores SqliteStoresFacts AgentRegistry TenantRuntime TenantRuntimeFacts.
From S2P Require Import Providers ToolPackages TurnGateway ToolCatalog Hydration.

Section tools.
Context `{!ToolIO} {Handler : Type}.
Variable float_repr : Q → string.
Variable sha256_hex : string → string.
Variable hmac_sha256_hex : string → string → string.
Variable import_attr : string → string → attr_outcome Handler.
Variable exec_attr : string → string → string → attr_outcome Handler.
Variable parse_source : string → parse_outcome.
Variable scan : version_rows → version_rows.

Notation ToolDescriptor := (ToolDescriptor Handler).
Notation registry_t := (list (string * ToolDescriptor)).
Notation descriptor_of :=
  (descriptor_from_tool_version float_repr sha256_hex hmac_sha256_hex import_attr exec_attr parse_source).
Notation tool_record_to_descriptor := (tool_record_to_descriptor import_attr).
Notation hydrate_tools := (hydrate_tools import_attr).
Notation hydrate_versions :=
  (hydrate_versions float_repr sha256_hex hmac_sha256_hex import_attr exec_attr parse_source).
Notation tenant_tools :=
  (tenant_tools float_repr sha256_hex hmac_sha256_hex import_attr exec_attr parse_source scan).

Lemma descriptor_name fs r secret d : descriptor_of fs r secret = Ok d → ToolRegistry.name d = vr_tool_name r.
Proof.
  unfold descriptor_from_tool_version. destruct (negb _); [|done]. cbn [res_bind].
  destruct (version_handler _ _ _ _ _ _ _ _ _) as [[[h ref] md]|]; [|done]. by intros [= <-].
Qed.

Lemma tool_descriptor_name r d : tool_record_to_descriptor r = Ok (Some d) → ToolRegistry.name d = pt_name r.
Proof.
  unfold Hydration.tool_record_to_descriptor. destruct (resolve_handler_ref _ _) as [[h|]|]; [|done..].
  by intros [= <-].
Qed.

Lemma hydrate_tools_spec rs (reg : registry_t) :
  NoDup (pt_name <$> rs) → (∀ r, r ∈ rs → od_get (pt_name r) reg = None) →
  match hydrate_tools reg rs with
  | Ok reg' =>
      (∀ r, r ∈ rs → tool_record_to_descriptor r = Ok (od_get (pt_name r) reg')) ∧
      (∀ n, n ∉ pt_name <$> rs → od_get n reg' = od_get n reg)
  | Raise e => ∃ r, r ∈ rs ∧ tool_record_to_descriptor r = Raise e
  end.
Proof.
  revert reg. induction rs as [|r rs IH]; intros reg Hnd Hfresh; cbn [Hydration.hydrate_tools].
  { split; [|done]. by intros r ?%elem_of_nil. }
  rewrite fmap_cons in Hnd. apply NoDup_cons in Hnd as [Hr Hnd].
  rewrite bool_decide_false.
  2:{ unfold ToolRegistry.list_tools, sorted_strings. rewrite elem_of_sort_by.
      apply od_get_None, Hfresh. by left. }
  destruct (tool_record_to_descriptor r) as [d|e] eqn:Ed; cbn [res_bind].
  2:{ exists r. split; [by left|done]. }
  set (reg1 := match d with Some d => _ | None => reg end).
  assert (od_get (pt_name r) reg1 = d ∧ ∀ n, n ≠ pt_name r → od_get n reg1 = od_get n reg) as [H1 H2].
  { unfold reg1. destruct d as [d|].
    - apply tool_descriptor_name in Ed. unfold ToolRegistry.register. rewrite Ed.
      split; [apply od_get_set|]. intros n Hn. by rewrite od_get_set_ne.
    - split; [|done]. apply Hfresh. by left. }
  assert (∀ r', r' ∈ rs → pt_name r' ≠ pt_name r) as Hne.
  { intros r' Hr' E. apply Hr. rewrite <- E. by apply list_elem_of_fmap_2. }
  specialize (IH reg1 Hnd). destruct (hydrate_tools reg1 rs) as [reg'|e].
  - destruct IH as [IH1 IH2].
    { intros r' Hr'. rewrite H2 by by apply Hne. apply Hfresh. by right. }
    split.
    + intros r' [->|Hr']%elem_of_cons; [|by apply IH1]. rewrite Ed, IH2 by done. by rewrite H1.
    + intros n Hn. rewrite fmap_cons in Hn. apply not_elem_of_cons in Hn as [Hn1 Hn2].
      rewrite IH2 by done. by apply H2.
  - destruct IH as (r' & Hr' & E); [|exists r'; split; [by right|done]].
    intros r' Hr'. rewrite H2 by by apply Hne. apply Hfresh. by right.
Qed.

(** What an active version becomes: None when its ValueError is caught. *)
Definition loaded fs secret (r : ToolVersionRecord) : res (option ToolDescriptor) :=
  match descriptor_of fs r secret with
  | Ok d => Ok (Some d)
  | Raise (ValueError _) => Ok None
  | Raise e => Raise e
  end.

Definition over {A} (v d : option A) : option A := match v with Some _ => v | None => d end.

Lemma hydrate_versions_spec fs secret rs (reg : registry_t) :
  NoDup (vr_tool_name <$> rs) →
  match hydrate_versions fs secret reg rs with
  | Ok reg' =>
      (∀ r, r ∈ rs → ∃ v, loaded fs secret r = Ok v ∧
         od_get (vr_tool_name r) reg' = over v (od_get (vr_tool_name r) reg)) ∧
      (∀ n, n ∉ vr_tool_name <$> rs → od_get n reg' = od_get n reg)
  | Raise e => ∃ r, r ∈ rs ∧ loaded fs secret r = Raise e
  end.
Proof.
  revert reg. induction rs as [|r rs IH]; intros reg Hnd; cbn [Hydration.hydrate_versions].
  { split; [|done]. by intros r ?%elem_of_nil. }
  rewrite fmap_cons in Hnd. apply NoDup_cons in Hnd as [Hr Hnd].
  assert (∀ r', r' ∈ rs → vr_tool_name r' ≠ vr_tool_name r) as Hne.
  { intros r' Hr' E. apply Hr. rewrite <- E. by apply list_elem_of_fmap_2. }
  assert (∀ v reg1, loaded fs secret r = Ok v →
    od_get (vr_tool_name r) reg1 = over v (od_get (vr_tool_name r) reg) →
    (∀ n, n ≠ vr_tool_name r → od_get n reg1 = od_get n reg) →
    match hydrate_versions fs secret reg1 rs with
    | Ok reg' =>
        (∀ r', r' ∈ r :: rs → ∃ v, loaded fs secret r' = Ok v ∧
           od_get (vr_tool_name r') reg' = over v (od_get (vr_tool_name r') reg)) ∧
        (∀ n, n ∉ vr_tool_name <$> r :: rs → od_get n reg' = od_get n reg)
    | Raise e => ∃ r', r' ∈ r :: rs ∧ loaded fs secret r' = Raise e
    end) as Hstep.
  { intros v reg1 Hv H1 H2. specialize (IH reg1 Hnd). destruct (hydrate_versions fs secret reg1 rs).
    - destruct IH as [IH1 IH2]. split.
      + intros r' [->|Hr']%elem_of_cons; [exists v; by rewrite IH2|].
        destruct (IH1 r' Hr') as (v' & ? & E). exists v'. rewrite E, H2; [done|by apply Hne].
      + intros n Hn. rewrite fmap_cons in Hn. apply not_elem_of_cons in Hn as [Hn1 Hn2].
        rewrite IH2 by done. by apply H2.
    - destruct IH as (r' & Hr' & E). exists r'. split; [by right|done]. }
  destruct (descriptor_of fs r secret) as [d|e] eqn:Ed.
  - apply (Hstep (Some d)); [unfold loaded; by rewrite Ed| |]; unfold ToolRegistry.register;
      rewrite (descriptor_name _ _ _ _ Ed); [by rewrite od_get_set|].
    intros n Hn. by rewrite od_get_set_ne.
  - destruct e; try by apply (Hstep None reg); [unfold loaded; rewrite Ed|..].
    all: exists r; split; [by left|]; unfold loaded; by rewrite Ed.
Qed.

(** *** The two stores, name by name *)

Definition restored_tool (tools : option tool_rows) (t n : string) : res (option ToolDescriptor) :=
  match tools ≫= od_get (t, n) with
  | None => Ok None
  | Some w => tool_record_to_descriptor (SQLiteToolStore.record_of ((t, n), w))
  end.

Definition restored_version (fs : list (string * string)) (secret : string)
    (vs : option version_rows) (t n : string) : res (option ToolDescriptor) :=
  match vs with
  | None => Ok None
  | Some s =>
      let! active := SQLiteToolVersionStore.get_active_tool_version scan s t n in
      match active with
      | None => Ok None
      | Some r => loaded fs secret r
      end
  end.

(** The tool a restart gives the tenant under a name: the active version that loads, or else the
    registered tool *)
Definition restored (p : persisted) (t n : string) : res (option ToolDescriptor) :=
  let! d := restored_tool (ps_tools p) t n in
  let! v := restored_version (ps_files p) (ps_signing_secret p) (ps_versions p) t n in
  Ok (over v d).

Definition stores_ok (p : persisted) : Prop :=
  (∀ s, ps_tools p = Some s → od_wf s) ∧ (∀ s, ps_versions p = Some s → ∃ m, stores m s).

Lemma tool_listing (s : tool_rows) t :
  od_wf s →
  NoDup (pt_name <$> SQLiteToolStore.list_tools s t) ∧
  ∀ r, r ∈ SQLiteToolStore.list_tools s t ↔
    ∃ w, od_get (t, pt_name r) s = Some w ∧ r = SQLiteToolStore.record_of ((t, pt_name r), w).
Proof.
  intros Hwf. unfold SQLiteToolStore.list_tools. split.
  - rewrite sort_by_perm, <- list_fmap_compose.
    rewrite (list_fmap_ext _ (λ p : (string * string) * SQLiteToolStore.row, p.1.2)) by done.
    by apply tenant_rows_distinct.
  - intros r. rewrite list_elem_of_fmap. split.
    + intros ([[t' n] w] & -> & Hin). rewrite elem_of_sort_by, list_elem_of_filter in Hin.
      destruct Hin as [Ht Hin]. cbn in Ht. subst t'. exists w. split; [|done].
      by apply od_elem_get.
    + intros (w & Hw & ->). exists ((t, pt_name r), w). split; [done|].
      rewrite elem_of_sort_by, list_elem_of_filter. split; [done|]. by apply od_get_elem.
Qed.

Lemma hydrate_tools_restored (s : tool_rows) t :
  od_wf s →
  match hydrate_tools [] (SQLiteToolStore.list_tools s t) with
  | Ok reg => ∀ n, restored_tool (Some s) t n = Ok (od_get n reg)
  | Raise e => ∃ n, restored_tool (Some s) t n = Raise e
  end.
Proof.
  intros Hwf. destruct (tool_listing s t Hwf) as [Hnd Hin].
  pose proof (hydrate_tools_spec (SQLiteToolStore.list_tools s t) [] Hnd (λ _ _, eq_refl)) as Hh.
  destruct (hydrate_tools [] _) as [reg|e].
  - destruct Hh as [H1 H2]. intros n. unfold restored_tool. cbn [mbind option_bind].
    destruct (od_get (t, n) s) as [w|] eqn:Ew.
    + rewrite (H1 (SQLiteToolStore.record_of ((t, n), w))); [done|]. apply Hin. by exists w.
    + rewrite H2; [done|]. intros (r & -> & Hr)%list_elem_of_fmap.
      apply Hin in Hr as (w & Hw & _). congruence.
  - destruct Hh as (r & (w & Hw & E)%Hin & He). exists (pt_name r). unfold restored_tool.
    cbn [mbind option_bind]. rewrite Hw. by rewrite <- E.
Qed.

Lemma hydrate_versions_restored fs secret m s t (reg : registry_t) :
  (∀ l, scan l ≡ₚ l) → stores m s →
  match (let! active := SQLiteToolVersionStore.list_active_tool_versions scan s t in
         hydrate_versions fs secret reg active) with
  | Ok reg' => ∀ n, ∃ v, restored_version fs secret (Some s) t n = Ok v ∧
      od_get n reg' = over v (od_get n reg)
  | Raise e => ∃ n, restored_version fs secret (Some s) t n = Raise e
  end.
Proof.
  intros Hscan Hs. destruct (active_versions_read Hs scan t Hscan) as (l & -> & _ & Hnd & Hin).
  cbn [res_bind]. pose proof (hydrate_versions_spec fs secret l reg Hnd) as Hh.
  assert (∀ r, r ∈ l → restored_version fs secret (Some s) t (vr_tool_name r) = loaded fs secret r) as Hl.
  { intros r [_ Hr]%Hin. unfold restored_version. rewrite (active_reads Hs) by done. by rewrite Hr. }
  destruct (hydrate_versions fs secret reg l) as [reg'|e].
  - destruct Hh as [H1 H2]. intros n.
    destruct (decide (n ∈ vr_tool_name <$> l)) as [Hn|Hn].
    + apply list_elem_of_fmap in Hn as (r & -> & Hr). destruct (H1 r Hr) as (v & Hv & E).
      exists v. by rewrite Hl.
    + exists None. split; [|by apply H2]. unfold restored_version. rewrite (active_reads Hs) by done.
      cbn [res_bind]. destruct (spec_active m t n) as [r|] eqn:Er; [|done]. exfalso. apply Hn.
      assert (key_of_version r = (t, n, vr_version r)) as Hk.
      { revert Er. unfold spec_active, spec_get. destruct (active_version m !! (t, n)) as [v|]; [|done].
        cbn. intros (r' & Hr' & ->)%fmap_Some_1. pose proof (vs_keys _ _ Hs _ _ Hr') as [= E1 E2 _].
        unfold key_of_version. cbn. by rewrite E1, E2. }
      injection Hk as Ht Hn'. apply list_elem_of_fmap. exists r. split; [done|]. apply Hin.
      by rewrite Hn'.
  - destruct Hh as (r & Hr & E). exists (vr_tool_name r). by rewrite Hl.
Qed.

(** What a restart makes of the stores of a tenant, name by name: under each name the active
    version that loads takes the place of the registered tool, and the startup stops exactly when
    loading one of them fails with something else than a missing module, function or a ValueError. *)
Lemma hydration_restores_fact p t :
  (∀ l, scan l ≡ₚ l) → stores_ok p →
  match tenant_tools p t [] with
  | Ok reg => ∀ n, restored p t n = Ok (od_get n reg)
  | Raise e => ∃ n, restored p t n = Raise e
  end.
Proof.
  intros Hscan [Ht Hv]. unfold Hydration.tenant_tools, restored.
  assert (match (match ps_tools p with
                 | Some s => hydrate_tools [] (SQLiteToolStore.list_tools s t)
                 | None => Ok []
                 end) with
          | Ok reg => ∀ n, restored_tool (ps_tools p) t n = Ok (od_get n reg)
          | Raise e => ∃ n, restored_tool (ps_tools p) t n = Raise e
          end) as Htools.
  { destruct (ps_tools p) as [s|]; [|done]. by apply hydrate_tools_restored, Ht. }
  destruct (match ps_tools p with Some _ => _ | None => _ end) as [reg|e]; cbn [res_bind].
  2:{ destruct Htools as [n Hn]. exists n. by rewrite Hn. }
  destruct (ps_versions p) as [s|].
  2:{ intros n. rewrite Htools. done. }
  destruct (Hv s eq_refl) as [m Hs].
  pose proof (hydrate_versions_restored (ps_files p) (ps_signing_secret p) m s t reg Hscan Hs) as Hh.
  destruct (res_bind _ _) as [reg'|e].
  - intros n. destruct (Hh n) as (v & Ev & E). rewrite Htools. cbn [res_bind]. rewrite Ev. by rewrite E.
  - destruct Hh as [n Hn]. exists n. rewrite Htools. cbn [res_bind]. by rewrite Hn.
Qed.
End tools.

(** ** Providers come back as they were registered *)

Section provider_restart.
Context {Class_ Adapter : Type}.
Variable import_class : string → string → class_outcome Class_.
Variable construct : Class_ → string → loading Adapter.
Variable healthcheck : Adapter → HealthStatus.
Notation service := (ProviderManagementService (Adapter := Adapter)).
Notation registry_t := (ProviderRegistry (Adapter := Adapter)).
Notation provider_record_to_runtime := (provider_record_to_runtime import_class construct).
Notation hydrate_providers := (hydrate_providers import_class construct).
Notation register_provider := (register_provider import_class construct healthcheck).
Implicit Types (s : service).

Lemma canonicalize_idem ref canonical :
  canonicalize_adapter_class_ref ref = Ok canonical → canonicalize_adapter_class_ref canonical = Ok canonical.
Proof.
  unfold canonicalize_adapter_class_ref. destruct (py_bool (py_strip ref)) eqn:E; [|done].
  intros [= <-]. case_bool_decide as H1; [by vm_compute|]. case_bool_decide as H2; [by vm_compute|].
  rewrite py_strip_idem, E. rewrite !bool_decide_false by done. done.
Qed.

(** The record and the adapter that the stored form of a provider is turned into *)
Definition comes_back (p : ProviderRecord) (a : Adapter) : Prop :=
  provider_record_to_runtime (persisted_provider p) = Ok (Some (p, a)).

Lemma registered_comes_back s i b p a :
  check_registration import_class construct healthcheck s i b = Reply (p, a) →
  comes_back p a ∧ pv_provider_id p = pr_provider_id b ∧
  od_get (pr_provider_id b) (providers (pm_registry s)) = None.
Proof.
  unfold check_registration. destruct (IdentityAccessService.require_platform_admin i _) as [[]|]; [|done].
  cbn [http_bind]. destruct (require_provider_store s) as [rows|]; [|done]. cbn [http_bind].
  destruct (od_mem _ _) eqn:Em; [done|]. apply od_mem_false in Em.
  destruct (canonicalize_adapter_class_ref (pr_adapter_class_ref b)) as [canonical|] eqn:Ec; [|done].
  destruct (load_adapter import_class construct canonical (pr_provider_id b)) as [ad| |] eqn:El; [|done..].
  destruct (negb _); [done|]. destruct (parse_api_type (pr_api_type b)) as [t|]; [|done].
  intros [= <- <-]. split; [|done]. unfold comes_back, Hydration.provider_record_to_runtime.
  cbn [pp_adapter_class persisted_provider pv_adapter_class new_provider].
  rewrite (canonicalize_idem _ _ Ec). cbn [res_bind pp_provider_id persisted_provider pv_provider_id new_provider].
  rewrite El. f_equal. f_equal. f_equal. unfold new_provider, persisted_provider. cbn. f_equal.
  - by destruct (profile_of (pr_profile b)) as [[]|].
  - by destruct t.
Qed.

(** The registry and the store of the service hold the same providers. *)
Definition providers_in_sync s : Prop :=
  ∃ rows, pm_store s = Some rows ∧ od_wf rows ∧
  ∀ id, match od_get id (providers (pm_registry s)) with
        | Some p => ∃ a, od_get id (adapters (pm_registry s)) = Some a ∧ pv_provider_id p = id ∧
            od_get id rows = Some (SQLiteProviderStore.row_of (persisted_provider p)) ∧ comes_back p a
        | None => od_get id (adapters (pm_registry s)) = None ∧ od_get id rows = None
        end.

Inductive provider_step : service → service → Prop :=
| step_register s i b : provider_step s (register_provider s i b).2
| step_remove s rows id : pm_store s = Some rows → provider_step s (remove_provider s rows id).2.

Lemma providers_step s s' : providers_in_sync s → provider_step s s' → providers_in_sync s'.
Proof.
  intros Hi Hstep. pose proof Hi as (rows & Hs & Hwf & Hall).
  destruct Hstep as [s i b|s rows' id Hs'].
  - unfold Providers.register_provider.
    destruct (check_registration import_class construct healthcheck s i b) as [[p a]|] eqn:Ec; [|done].
    apply registered_comes_back in Ec as (Hc & Hid & Hfree). rewrite Hs. cbn [snd fmap option_fmap option_map].
    eexists. split; [done|]. split; [by apply od_wf_set|]. intros id. specialize (Hall id).
    unfold register, SQLiteProviderStore.save_provider, upsert. cbn [providers adapters pm_registry].
    cbn [pp_provider_id persisted_provider].
    destruct (decide (id = pv_provider_id p)) as [->|Hne].
    + rewrite !od_get_set. by exists a.
    + by rewrite !od_get_set_ne.
  - rewrite Hs in Hs'. injection Hs' as <-. unfold remove_provider.
    destruct (negb _ && _); [done|]. cbn [snd]. eexists. split; [done|].
    assert (∀ A (m : list (string * A)) id', od_get id m = None → od_get id' (od_pop id m) = od_get id' m) as Hpop.
    { intros A m id' E. by rewrite od_pop_fresh. }
    split; [destruct (SQLiteProviderStore.get_provider rows id); [by apply od_wf_pop|done]|].
    intros id'. pose proof (Hall id') as Hall'. pose proof (Hall id) as Hid.
    unfold unregister, SQLiteProviderStore.delete_provider, delete_row, SQLiteProviderStore.get_provider.
    cbn [pm_registry]. destruct (od_mem id (providers (pm_registry s))) eqn:Em.
    + apply od_mem_true in Em as [p Hp]. rewrite Hp in Hid. destruct Hid as (a & Ha & _ & Hrow & _).
      rewrite Hrow. cbn [fmap option_fmap option_map providers adapters].
      destruct (decide (id' = id)) as [->|Hne]; [by rewrite !od_get_pop|by rewrite !od_get_pop_ne].
    + apply od_mem_false in Em. rewrite Em in Hid. destruct Hid as [_ Hrow]. by rewrite Hrow.
Qed.

Lemma hydrate_providers_spec rs (r : registry_t) :
  NoDup (pp_provider_id <$> rs) → (∀ x, x ∈ rs → od_get (pp_provider_id x) (providers r) = None) →
  (∀ x, x ∈ rs → ∃ p a, x = persisted_provider p ∧ comes_back p a) →
  ∃ r', hydrate_providers r rs = Ok r' ∧
    (∀ p a, persisted_provider p ∈ rs → comes_back p a →
       od_get (pv_provider_id p) (providers r') = Some p ∧ od_get (pv_provider_id p) (adapters r') = Some a) ∧
    ∀ id, id ∉ pp_provider_id <$> rs →
      od_get id (providers r') = od_get id (providers r) ∧ od_get id (adapters r') = od_get id (adapters r).
Proof.
  revert r. induction rs as [|x rs IH]; intros r Hnd Hfresh Hback; cbn [Hydration.hydrate_providers].
  { exists r. split; [done|]. split; [by intros ? ? ?%elem_of_nil|done]. }
  rewrite fmap_cons in Hnd. apply NoDup_cons in Hnd as [Hx Hnd].
  assert (od_mem (pp_provider_id x) (providers r) = false) as ->.
  { apply od_mem_false, Hfresh. by left. }
  destruct (Hback x) as (p & a & -> & Hpa); [by left|]. pose proof Hpa as Hpa'. unfold comes_back in Hpa'.
  rewrite Hpa'. cbn [res_bind]. assert (∀ y, y ∈ rs → pp_provider_id y ≠ pv_provider_id p) as Hne.
  { intros y Hy E. apply Hx. cbn. rewrite <- E. by apply list_elem_of_fmap_2. }
  destruct (IH (register r p a) Hnd) as (r' & Hr' & H1 & H2).
  { intros y Hy. cbn. rewrite od_get_set_ne by by apply Hne. apply Hfresh. by right. }
  { intros y Hy. apply Hback. by right. }
  exists r'. split; [done|]. split.
  - intros q aq [Hq|Hq]%elem_of_cons Hb; [|by apply H1].
    assert (q = p ∧ aq = a) as [-> ->].
    { unfold comes_back in Hb. rewrite Hq, Hpa' in Hb. by injection Hb. }
    destruct (H2 (pv_provider_id p)) as [-> ->]; [exact Hx|]. cbn. by rewrite !od_get_set.
  - intros id Hid. rewrite fmap_cons in Hid. apply not_elem_of_cons in Hid as [Hid1 Hid2].
    destruct (H2 id Hid2) as [-> ->]. cbn. by rewrite !od_get_set_ne.
Qed.

(** However providers were registered and removed, a restart restores exactly the providers
    that are registered, each with the record and the adapter it was registered with. *)
Theorem restart_restores_providers access s :
  rtc provider_step (mkProviderService (mkProviderRegistry [] []) (Some []) access) s →
  ∃ r, hydrate_providers (mkProviderRegistry [] [])
         (SQLiteProviderStore.list_providers (default [] (pm_store s))) = Ok r ∧
    ∀ id, od_get id (providers r) = od_get id (providers (pm_registry s)) ∧
          od_get id (adapters r) = od_get id (adapters (pm_registry s)).
Proof.
  intros Hr.
  assert (providers_in_sync s) as (rows & Hs & Hwf & Hall).
  { assert (providers_in_sync (mkProviderService (mkProviderRegistry [] []) (Some []) access)) as H0.
    { exists []. split; [done|]. split; [apply NoDup_nil_2|done]. }
    induction Hr as [|s1 s2 s3 Hs _ IH]; [done|]. apply IH. by eapply providers_step. }
  rewrite Hs. cbn [default]. clear Hr Hs.
  assert (∀ x, x ∈ SQLiteProviderStore.list_providers rows ↔ ∃ p, x = persisted_provider p ∧
    od_get (pv_provider_id p) (providers (pm_registry s)) = Some p) as Hlist.
  { intros x. unfold SQLiteProviderStore.list_providers. rewrite list_elem_of_fmap. split.
    - intros ([id w] & -> & Hin). rewrite elem_of_sort_by in Hin. apply od_elem_get in Hin; [|done].
      specialize (Hall id). destruct (od_get id (providers (pm_registry s))) as [p|] eqn:Ep.
      + destruct Hall as (a & _ & <- & Hrow & _). rewrite Hin in Hrow. injection Hrow as ->.
        exists p. split; [|done]. exact (decode_encode (Codec := provider_codec) (persisted_provider p)).
      + destruct Hall as [_ Hrow]. congruence.
    - intros (p & -> & Hp). specialize (Hall (pv_provider_id p)). rewrite Hp in Hall.
      destruct Hall as (a & _ & _ & Hrow & _). exists (pv_provider_id p, SQLiteProviderStore.row_of (persisted_provider p)).
      split; [symmetry; exact (decode_encode (Codec := provider_codec) (persisted_provider p))|].
      rewrite elem_of_sort_by. by apply od_get_elem. }
  assert (NoDup (pp_provider_id <$> SQLiteProviderStore.list_providers rows)) as Hnd.
  { unfold SQLiteProviderStore.list_providers. rewrite sort_by_perm, <- list_fmap_compose.
    rewrite (list_fmap_ext _ fst) by (by intros ? [] _). exact Hwf. }
  destruct (hydrate_providers_spec (SQLiteProviderStore.list_providers rows) (mkProviderRegistry [] []) Hnd)
    as (r & Hr & H1 & H2); [done| |].
  { intros x (p & -> & Hp)%Hlist. specialize (Hall (pv_provider_id p)). rewrite Hp in Hall.
    destruct Hall as (a & _ & _ & _ & Hc). by exists p, a. }
  exists r. split; [done|]. intros id. specialize (Hall id).
  destruct (od_get id (providers (pm_registry s))) as [p|] eqn:Ep.
  - destruct Hall as (a & -> & <- & _ & Hc). apply H1; [|done]. apply Hlist. by exists p.
  - destruct Hall as [-> Hrow]. destruct (H2 id) as [-> ->]; [|done].
    intros (x & -> & (p & -> & Hp)%Hlist)%list_elem_of_fmap. cbn in Ep. congruence.
Qed.
End provider_restart.

Lemma restart_restores_providers_witness :
  let import (m c : string) := if c =?s "EchoRuntimeAdapter" then AdapterClass tt else ImportFails in
  let construct (_ : unit) (id : string) := Loaded id in
  let health (_ : string) := mkHealth true "healthy" "" in
  let admin := mkIdentityContext "root" Human ["platform_admin"] "acme" "" TokenValid "" "" false in
  let request id := mkProviderRequest id "Echo" " EchoRuntimeAdapter" "" "" "m" "local_only" "CUSTOM" in
  let access := IdentityAccessService.mkService None false [] in
  let s0 := mkProviderService (mkProviderRegistry [] []) (Some []) access in
  let s1 := (register_provider import construct health s0 admin (request "b")).2 in
  let s2 := (register_provider import construct health s1 admin (request "a")).2 in
  od_keys (providers (pm_registry s2)) = ["b"; "a"] ∧
  ∃ r, hydrate_providers import construct (mkProviderRegistry [] [])
         (SQLiteProviderStore.list_providers (default [] (pm_store s2))) = Ok r ∧
    ∀ id, od_get id (providers r) = od_get id (providers (pm_registry s2)) ∧
          od_get id (adapters r) = od_get id (adapters (pm_registry s2)).
Proof.
  intros import construct health admin request access s0 s1 s2. split; [by vm_compute|].
  apply (restart_restores_providers import construct health access s2).
  eapply rtc_l; [apply (step_register import construct health s0 admin (request "b"))|].
  eapply rtc_l; [apply (step_register import construct health s1 admin (request "a"))|].
  apply rtc_refl.
Defined.

(** ** All tenants *)

Section tenants.
Context `{!ToolIO} {Handler Adapter : Type}.
Variable float_repr : Q → string.
Variable sha256_hex : string → string.
Variable hmac_sha256_hex : string → string → string.
Variable import_attr : string → string → attr_outcome Handler.
Variable exec_attr : string → string → string → attr_outcome Handler.
Variable parse_source : string → parse_outcome.
Variable scan : version_rows → version_rows.
Variable byoc_execute sandbox_execute :
  ToolCallContext → ToolRegistry.ToolDescriptor Handler → res ToolResult.
Notation factory := (TenantRuntime.t (Handler := Handler) (Adapter := Adapter)).
Notation get_or_create := (get_or_create float_repr byoc_execute sandbox_execute (Adapter := Adapter)).
Notation build := (build float_repr byoc_execute sandbox_execute).
Notation tenant_tools :=
  (tenant_tools float_repr sha256_hex hmac_sha256_hex import_attr exec_attr parse_source scan).
Notation hydrate_tenant :=
  (hydrate_tenant float_repr sha256_hex hmac_sha256_hex import_attr exec_attr parse_source scan
     byoc_execute sandbox_execute (Adapter := Adapter)).
Notation hydrate_tenants :=
  (hydrate_tenants float_repr sha256_hex hmac_sha256_hex import_attr exec_attr parse_source scan
     byoc_execute sandbox_execute (Adapter := Adapter)).
Implicit Types (f : factory) (c : RuntimeSettings).

(** There is room for another context. *)
Definition room c f : Prop :=
  tenant_runtime_max_cached_contexts c ≤ 0 ∨
  Z.of_nat (length (contexts f)) < tenant_runtime_max_cached_contexts c.

Lemma evict_contexts_room c f t : room c f → evict_contexts c f t = f.
Proof.
  intros Hroom. unfold evict_contexts.
  destruct (Z.leb_spec (tenant_runtime_max_cached_contexts c) 0) as [Hc|Hc]; [done|]. cbn [orb].
  destruct (od_mem t (contexts f)); [done|]. destruct Hroom as [|Hlt]; [lia|].
  destruct (length (contexts f)) as [|n] eqn:En; [done|]. cbn [evict_contexts_loop].
  destruct (od_keys (contexts f)); [done|]. rewrite En. by rewrite (proj2 (Z.ltb_lt _ _) Hlt).
Qed.

Lemma create_fresh c f now touched t :
  room c f → od_get t (contexts f) = None →
  let '(ref, f') := get_or_create c f now touched t in
  ref = length (heap f) ∧ contexts f' = contexts f ++ [(t, ref)] ∧ heap f' = heap f ++ [(ref, build c t)].
Proof.
  intros Hroom Hnone. unfold TenantRuntime.get_or_create.
  pose proof (drops_contexts _ _ (evict_idle_drops c f now)) as [Hc Hh].
  set (f1 := evict_idle c f now) in *.
  assert (room c f1) as Hroom1 by (unfold room; by rewrite Hc).
  rewrite (evict_contexts_room c f1 t Hroom1), Hc, Hnone.
  cbn [contexts heap]. unfold od_get_default. rewrite od_get_set. cbn [default from_option id].
  unfold fresh. rewrite Hh. split; [done|]. by rewrite od_set_fresh.
Qed.

(** What a hydrated tenant has *)
Definition hydrated (p : persisted) f (t : string) : Prop :=
  ∃ ref x, od_get t (contexts f) = Some ref ∧ od_get ref (heap f) = Some x ∧ cx_tenant_id x = t ∧
    tenant_tools p t [] = Ok (cx_tool_registry x) ∧
    ToolExecutor.registry (cx_tool_executor x) = cx_tool_registry x ∧
    cx_agent_registry x = tenant_agents p t empty_registry.

Record startup_state (p : persisted) (served : list string) f : Prop := {
  su_heap : ∀ i x, od_get i (heap f) = Some x → (i < length (heap f))%nat;
  su_contexts : od_keys (contexts f) = served;
  su_served : ∀ t, t ∈ served → hydrated p f t;
}.

Lemma hydrate_tenant_state c p readings served f f' t :
  room c f → t ∉ served → startup_state p served f →
  hydrate_tenant c p readings f t = Ok f' → startup_state p (served ++ [t]) f'.
Proof.
  intros Hroom Ht [Hheap Hkeys Hserved]. unfold Hydration.hydrate_tenant.
  pose proof (create_fresh c f readings.1 readings.2 t Hroom) as Hf.
  destruct (get_or_create c f readings.1 readings.2 t) as [ref f1].
  destruct Hf as (-> & Hc & Hh). { apply od_get_None. by rewrite Hkeys. }
  assert (od_get (length (heap f)) (heap f) = None) as Hfree.
  { destruct (od_get (length (heap f)) (heap f)) as [x|] eqn:E; [|done]. apply Hheap in E. lia. }
  assert (od_get (length (heap f)) (heap f1) = Some (build c t)) as Hnew.
  { rewrite Hh, od_get_app, Hfree. cbn. by rewrite decide_True. }
  rewrite Hnew. destruct (tenant_tools p t _) as [tools|] eqn:Etools; [|done]. cbn [res_bind].
  intros [= <-]. set (x1 := set_registries _ _ _).
  assert (length (od_set (length (heap f)) x1 (heap f1)) = S (length (heap f))) as Hlen.
  { pose proof (od_keys_set_present (length (heap f)) x1 (heap f1) (ex_intro _ _ Hnew)) as Hk.
    apply (f_equal length) in Hk. unfold od_keys in Hk. rewrite !length_fmap in Hk.
    rewrite Hk, Hh, length_app. cbn. lia. }
  split.
  - intros i x. cbn [heap update_context]. rewrite Hlen.
    destruct (decide (i = length (heap f))) as [->|Hne]; [lia|].
    rewrite od_get_set_ne, Hh, od_get_app by done. destruct (od_get i (heap f)) as [y|] eqn:Ey.
    + intros _. apply Hheap in Ey. lia.
    + cbn. by rewrite decide_False.
  - cbn [contexts update_context]. rewrite Hc. unfold od_keys in *. by rewrite fmap_app, Hkeys.
  - intros t' [Ht'|E%list_elem_of_singleton]%elem_of_app; [|subst t'].
    + destruct (Hserved t' Ht') as (ref & x & H1 & H2 & H3). exists ref, x. cbn [contexts heap update_context].
      rewrite Hc, Hh, od_get_app, H1. split; [done|]. split; [|exact H3].
      assert (ref ≠ length (heap f)) by (apply Hheap in H2; lia).
      by rewrite od_get_set_ne, od_get_app, H2.
    + exists (length (heap f)), x1.
      cbn [contexts heap update_context]. rewrite Hc, od_get_app.
      assert (od_get t (contexts f) = None) as -> by (apply od_get_None; by rewrite Hkeys).
      cbn [od_get]. rewrite decide_True by done. split; [done|]. by rewrite od_get_set.
Qed.

Lemma hydrate_tenant_succeeds c p readings served f t tools :
  room c f → t ∉ served → startup_state p served f → tenant_tools p t [] = Ok tools →
  ∃ f', hydrate_tenant c p readings f t = Ok f'.
Proof.
  intros Hroom Ht [Hheap Hkeys _] Htools. unfold Hydration.hydrate_tenant.
  pose proof (create_fresh c f readings.1 readings.2 t Hroom) as Hf.
  destruct (get_or_create c f readings.1 readings.2 t) as [ref f1].
  destruct Hf as (-> & _ & Hh). { apply od_get_None. by rewrite Hkeys. }
  assert (od_get (length (heap f)) (heap f) = None) as Hfree.
  { destruct (od_get (length (heap f)) (heap f)) as [x|] eqn:E; [|done]. apply Hheap in E. lia. }
  rewrite Hh, od_get_app, Hfree. cbn [od_get]. rewrite decide_True by done.
  cbn [TenantRuntime.build cx_tool_registry]. unfold ToolRegistry.empty. rewrite Htools. by eexists.
Qed.

(** The cache has room for the tenants to come. *)
Lemma room_for c p served t ids f :
  startup_state p served f →
  (0 < tenant_runtime_max_cached_contexts c →
   Z.of_nat (length (served ++ t :: ids)) ≤ tenant_runtime_max_cached_contexts c) →
  room c f.
Proof.
  intros [_ Hk _] Hcap. destruct (decide (tenant_runtime_max_cached_contexts c ≤ 0)); [by left|]. right.
  apply (f_equal length) in Hk. unfold od_keys in Hk. rewrite length_fmap in Hk.
  rewrite Hk. rewrite length_app in Hcap. cbn in Hcap. lia.
Qed.

Lemma tenant_ids_distinct p : NoDup (tenant_ids p).
Proof. unfold tenant_ids, distinct, sorted_strings. rewrite sort_by_perm. apply NoDup_remove_dups. Qed.

Lemma hydrate_tenants_state c p clock ids served f0 f :
  startup_state p served f0 → NoDup (served ++ ids) →
  (0 < tenant_runtime_max_cached_contexts c →
   Z.of_nat (length (served ++ ids)) ≤ tenant_runtime_max_cached_contexts c) →
  hydrate_tenants c p clock f0 ids = Ok f → startup_state p (served ++ ids) f.
Proof.
  revert served f0. induction ids as [|t ids IH]; intros served f0 H0 Hnd Hcap; cbn [Hydration.hydrate_tenants].
  { intros [= <-]. by rewrite app_nil_r. }
  destruct (hydrate_tenant c p (clock t) f0 t) as [f1|] eqn:E1; [|done]. cbn [res_bind].
  assert (startup_state p (served ++ [t]) f1) as H1.
  { refine (hydrate_tenant_state c p (clock t) served f0 f1 t _ _ H0 E1); [by eapply room_for|].
    apply NoDup_app in Hnd as (_ & Hd & _). intros Hin. apply (Hd t Hin). by left. }
  intros Hf. replace (served ++ t :: ids) with ((served ++ [t]) ++ ids) in * by by rewrite <- app_assoc.
  by eapply IH.
Qed.

Lemma hydrate_tenants_succeeds c p clock ids served f0 :
  startup_state p served f0 → NoDup (served ++ ids) →
  (0 < tenant_runtime_max_cached_contexts c →
   Z.of_nat (length (served ++ ids)) ≤ tenant_runtime_max_cached_contexts c) →
  (∀ t, t ∈ ids → ∃ tools, tenant_tools p t [] = Ok tools) →
  ∃ f, hydrate_tenants c p clock f0 ids = Ok f.
Proof.
  revert served f0. induction ids as [|t ids IH]; intros served f0 H0 Hnd Hcap Htools; [by eexists|].
  cbn [Hydration.hydrate_tenants]. destruct (Htools t (list_elem_of_here _ _)) as [tools Ht].
  assert (t ∉ served) as Hnew.
  { apply NoDup_app in Hnd as (_ & Hd & _). intros Hin. apply (Hd t Hin). by left. }
  assert (room c f0) as Hroom by (by eapply room_for).
  destruct (hydrate_tenant_succeeds c p (clock t) served f0 t tools Hroom Hnew H0 Ht) as [f1 E1].
  rewrite E1. cbn [res_bind].
  replace (served ++ t :: ids) with ((served ++ [t]) ++ ids) in * by by rewrite <- app_assoc.
  eapply IH; [by eapply hydrate_tenant_state|done..|]. intros t' Ht'. apply Htools. by right.
Qed.

Lemma startup_state_empty p : startup_state p [] TenantRuntime.empty.
Proof. split; [done|done|by intros t ?%elem_of_nil]. Qed.

(** When the cache of contexts has room for every tenant of the stores, a startup that succeeds
    leaves each of them with a context whose tool registry, also the one its executor uses, and
    whose agents are what the stores restore. *)
Theorem startup_restores_every_tenant c p clock f :
  (0 < tenant_runtime_max_cached_contexts c →
   Z.of_nat (length (tenant_ids p)) ≤ tenant_runtime_max_cached_contexts c) →
  hydrate_tenants c p clock TenantRuntime.empty (tenant_ids p) = Ok f →
  od_keys (contexts f) = tenant_ids p ∧ ∀ t, t ∈ tenant_ids p → hydrated p f t.
Proof.
  intros Hcap Hf. pose proof (tenant_ids_distinct p) as Hnd.
  pose proof (hydrate_tenants_state c p clock (tenant_ids p) [] TenantRuntime.empty f
    (startup_state_empty p) Hnd Hcap Hf) as [_ Hk Hs]. by split.
Qed.

(** The startup succeeds when the tools of every tenant can be restored. *)
Lemma startup_succeeds c p clock :
  (0 < tenant_runtime_max_cached_contexts c →
   Z.of_nat (length (tenant_ids p)) ≤ tenant_runtime_max_cached_contexts c) →
  (∀ t, t ∈ tenant_ids p → ∃ tools, tenant_tools p t [] = Ok tools) →
  ∃ f, hydrate_tenants c p clock TenantRuntime.empty (tenant_ids p) = Ok f.
Proof.
  intros Hcap. apply (hydrate_tenants_succeeds c p clock (tenant_ids p) [] TenantRuntime.empty);
    [apply startup_state_empty|apply tenant_ids_distinct|done].
Qed.
End tenants.

(** ** Two tenants with a tool each *)
Module TwoTenants.
Import Sample.

Definition tool (tenant : string) : PersistedToolRecord :=
  mkPersistedTool "sum" "m:sum" tenant "high" true 10 "" [] [].

Definition stored : persisted :=
  mkPersisted
    (Some (SQLiteToolStore.save_tool (SQLiteToolStore.save_tool [] "globex" (tool "globex")) "acme" (tool "acme")))
    None None [] "".

Notation start cap :=
  (hydrate_tenants (H := io) (Handler := string) (Adapter := unit) (λ _, "") id String.append
     (λ _ f, Found f) (λ _ _ _, NoAttribute) (λ _, ParsedFunctions []) (λ rows, rows)
     (λ _ _, Raise (OtherException "not hosted")) (λ _ _, Raise (OtherException "not hosted"))
     (mkRuntimeSettings false false 0 0 cap) stored (λ _, (0, 0)) TenantRuntime.empty (tenant_ids stored)).

(** With room for one context only, the startup drops the first tenant again. *)
Lemma startup_over_the_cap_drops_tenants :
  tenant_ids stored = ["acme"; "globex"] ∧
  match start 1 with Ok f => list_tenants f = ["globex"] | Raise _ => False end.
Proof. by vm_compute. Qed.
End TwoTenants.

Lemma startup_restores_every_tenant_witness :
  ∃ f, TwoTenants.start 2 = Ok f ∧
    hydrated (H := Sample.io) (λ _, "") id String.append (λ _ f, Found f) (λ _ _ _, NoAttribute)
      (λ _, ParsedFunctions []) (λ rows, rows) TwoTenants.stored f "acme".
Proof.
  destruct (TwoTenants.start 2) as [f|] eqn:E; [|vm_compute in E; discriminate E].
  exists f. split; [done|].
  refine (proj2 (startup_restores_every_tenant (H := Sample.io) _ _ _ _ _ _ _ _ _
    (mkRuntimeSettings false false 0 0 2) TwoTenants.stored (λ _, (0, 0)) f _ E) "acme" _).
  - intros _. by vm_compute.
  - refine (bool_decide_unpack _ _). vm_compute. exact I.
Defined.
