(* ===== verification/AgentApi.v ===== *)
(** * The agent routes

    Models src/api/routers/agents.py with the requests of src/api/schemas/agent_schemas.py and
    the store of src/modules/agent_management/service.py: registering, listing and removing a
    tenant's agents, its handoff routes and its fallback policies.  [agents_app] is what the routes
    read and change: the factory of the tenants' contexts (TenantRuntime.v), whose agent registries the
    routes work on, and the store the agents are written through to.  Every request first gets the
    context of its tenant, as [get_tenant_context] of src/api/dependencies.py does: the factory drops
    idle sessions and, when the tenant has no context and the cache is full, the contexts used least
    recently, and builds the tenant an empty one.  A request runs to its end before the next one; the
    tenant scope is checked before a route runs (Authentication.v), and the random part of a
    correlation id and the readings of the clock are arguments. *)

From S2P Require Import Prelude PyValue Tenancy Identity Authentication ToolIO Entitlements SqliteStores.
From S2P Require Import ToolExecutor AgentRegistry TenantRuntime Hydration.

(** ** Requests and answers *)

Record AgentRegisterRequest := mkAgentRequest {
  ag_agent_id : string;
  ag_role : string;
  ag_capability_tags : list string;
  ag_instructions : string;
  ag_metadata : pydict;
}.

Record AgentResponse := mkAgentResponse {
  as_agent_id : string;
  as_role : string;
  as_capability_tags : list string;
  as_instructions : string;
  as_metadata : pydict;
}.

Record AgentListResponse := mkAgentList { al_agents : list AgentResponse; al_total : Z }.

Record HandoffRouteRequest := mkRouteRequest {
  hr_source_role : string;
  hr_target_role : string;
  hr_reason : string;
  hr_required_target_capabilities : list string;
}.

Record HandoffRouteResponse := mkRouteResponse {
  ho_source_role : string;
  ho_target_role : string;
  ho_reason : string;
  ho_required_target_capabilities : list string;
}.

Record HandoffFallbackPolicyRequest := mkFallbackRequest {
  hf_source_role : string;
  hf_target_role : string;
  hf_fallback_target_roles : list string;
  hf_target_role_priorities : list (string * Z);
}.

Record HandoffFallbackPolicyResponse := mkFallbackResponse {
  fo_source_role : string;
  fo_target_role : string;
  fo_fallback_target_roles : list string;
  fo_target_role_priorities : list (string * Z);
}.

(** ** The application *)

Notation agent_rows := (list ((string * string) * SQLiteAgentStore.row)).

(** A caller: its identity and the random part of a correlation id *)
Record caller := mkCaller { ca_identity : IdentityContext; ca_token : string }.

(** [_parse_capability_tags]: unknown values are dropped. *)
Definition parse_capability_tags (tag_values : list string) : gset AgentCapabilityTag :=
  list_to_set (omap capability_of tag_values).

(** [except KeyError: raise HTTPException(404, ...)] *)
Definition not_found_as {B} (agent_id : string) (r : res B) : http B :=
  match r with
  | Ok b => Reply b
  | Raise (KeyError _) => HTTPException 404 ("Agent " +:+ quoted agent_id +:+ " not found")
  | Raise e => internal_error e
  end.

Section agent_routes.
Context `{!ToolIO} {Handler Adapter : Type}.
Variable float_repr : Q → string.
Variable byoc_execute sandbox_execute : ToolCallContext → ToolRegistry.ToolDescriptor Handler → res ToolResult.
(** The order in which a set is iterated over *)
Variable set_order : gset AgentCapabilityTag → list AgentCapabilityTag.
#[local] Notation evaluate_feature_entitlement := (evaluate_feature_entitlement (A := PolicyAction)).
#[local] Notation factory := (TenantRuntime.t (Handler := Handler) (Adapter := Adapter)).

Record agents_app := mkAgentsApp {
  agent_factory : factory;
  agent_store : option agent_rows;
  agent_audit_pipeline : bool;
}.

(** [ctx.agent_registry] *)
Definition context_registry (f : factory) (ctx : nat) : AgentRegistry :=
  match od_get ctx (heap f) with
  | Some x => cx_agent_registry x
  | None => empty_registry
  end.

Definition set_agent_registry (x : TenantRuntimeContext (Handler := Handler)) (r : AgentRegistry)
    : TenantRuntimeContext :=
  mkContext (cx_tenant_id x) (cx_tool_registry x) (cx_policy_middleware x) (cx_tool_executor x) r
    (cx_quota_manager x).

(** The registry object of the context after an operation on it *)
Definition with_agent_registry (a : agents_app) (ctx : nat) (r : AgentRegistry) : agents_app :=
  match od_get ctx (heap (agent_factory a)) with
  | Some x =>
      mkAgentsApp (update_context (agent_factory a) ctx (set_agent_registry x r)) (agent_store a)
        (agent_audit_pipeline a)
  | None => a
  end.

Definition with_agent_store (a : agents_app) (f : agent_rows → agent_rows) : agents_app :=
  mkAgentsApp (agent_factory a) (f <$> agent_store a) (agent_audit_pipeline a).

(** [get_tenant_context]; [readings] are the two readings of the clock that [get_or_create] makes. *)
Definition get_tenant_context (c : RuntimeSettings) (a : agents_app) (readings : Z * Z) (tenant_id : string)
    : nat * agents_app :=
  let '(ctx, f) :=
    get_or_create float_repr byoc_execute sandbox_execute c (agent_factory a) readings.1 readings.2 tenant_id in
  (ctx, mkAgentsApp f (agent_store a) (agent_audit_pipeline a)).

Definition tag_values (s : gset AgentCapabilityTag) : list string := capability_value <$> set_order s.

(** [_spec_to_response] *)
Definition spec_to_response (s : AgentSpec) : AgentResponse :=
  mkAgentResponse (agent_id s) (role s) (tag_values (capability_tags s)) (instructions s) (metadata s).

(** [_require_agent_routing_entitlement]: the decision is emitted whatever it is. *)
Definition require_agent_routing_entitlement (a : agents_app) (tenant_id route : string) (c : caller)
    : http unit * list audit_event :=
  let d := evaluate_feature_entitlement (ca_identity c) AgentRoutingAdvanced in
  let events := emit_entitlement_decision_event (agent_audit_pipeline a) ("entitlement_" +:+ ca_token c)
    tenant_id "agent_routing_controls" route d [] in
  if bool_decide (ed_decision d = ALLOW) then (Reply tt, events)
  else (HTTPException 403 (ed_reason_code d +:+ ": " +:+ ed_message d), events).

(** A route behind the entitlement *)
Definition routing_route {B} (a : agents_app) (tenant_id route : string) (c : caller)
    (k : agents_app → http B * agents_app) : http B * agents_app * list audit_event :=
  match require_agent_routing_entitlement a tenant_id route c with
  | (HTTPException code m, events) => (HTTPException code m, a, events)
  | (Reply _, events) => let '(answer, a) := k a in (answer, a, events)
  end.

Definition requested_agent (b : AgentRegisterRequest) : AgentSpec :=
  mkAgent (ag_agent_id b) (ag_role b) (parse_capability_tags (ag_capability_tags b)) (ag_instructions b)
    (ag_metadata b).

Definition persisted_agent (tenant_id : string) (s : AgentSpec) : PersistedAgentRecord :=
  mkPersistedAgent (agent_id s) (role s) tenant_id (tag_values (capability_tags s)) (instructions s) (metadata s).

Definition register_agent (a : agents_app) (tenant_id : string) (ctx : nat) (b : AgentRegisterRequest)
    : http AgentResponse * agents_app :=
  let spec := requested_agent b in
  match value_error_as 409 (AgentRegistry.register (context_registry (agent_factory a) ctx) spec) with
  | HTTPException c m => (HTTPException c m, a)
  | Reply r =>
      let a := with_agent_registry a ctx r in
      (Reply (spec_to_response spec),
       with_agent_store a (λ s, SQLiteAgentStore.save_agent s tenant_id (persisted_agent tenant_id spec)))
  end.

Definition list_agents (a : agents_app) (ctx : nat) : AgentListResponse :=
  let agents := AgentRegistry.list_agents (context_registry (agent_factory a) ctx) in
  mkAgentList (spec_to_response <$> agents) (Z.of_nat (length agents)).

Definition route_response (r : HandoffRoute) : HandoffRouteResponse :=
  mkRouteResponse (source_role r) (target_role r) (reason r) (tag_values (required_target_capabilities r)).

Definition requested_route (b : HandoffRouteRequest) : HandoffRoute :=
  mkRoute (hr_source_role b) (hr_target_role b) (hr_reason b)
    (parse_capability_tags (hr_required_target_capabilities b)).

Definition add_handoff_route (a : agents_app) (tenant_id : string) (ctx : nat) (b : HandoffRouteRequest)
    (c : caller) : http HandoffRouteResponse * agents_app * list audit_event :=
  routing_route a tenant_id "POST /tenants/{tenant_id}/agents/routes" c (λ a,
    let route := requested_route b in
    match value_error_as 422
        (AgentRegistry.add_handoff_route (context_registry (agent_factory a) ctx) route) with
    | HTTPException code m => (HTTPException code m, a)
    | Reply r => (Reply (route_response route), with_agent_registry a ctx r)
    end).

Definition list_handoff_routes (a : agents_app) (tenant_id : string) (ctx : nat) (c : caller)
    : http (list HandoffRouteResponse) * agents_app * list audit_event :=
  routing_route a tenant_id "GET /tenants/{tenant_id}/agents/routes" c (λ a,
    (Reply (route_response <$> list_routes (context_registry (agent_factory a) ctx)), a)).

Definition fallback_response (p : HandoffFallbackPolicy) : HandoffFallbackPolicyResponse :=
  mkFallbackResponse (fp_source_role p) (fp_target_role p) (fallback_target_roles p) (target_role_priorities p).

Definition requested_policy (b : HandoffFallbackPolicyRequest) : HandoffFallbackPolicy :=
  mkPolicy (hf_source_role b) (hf_target_role b) (hf_fallback_target_roles b) (hf_target_role_priorities b).

(** The registry may have changed when the policy is refused. *)
Definition set_fallback_policy (a : agents_app) (tenant_id : string) (ctx : nat)
    (b : HandoffFallbackPolicyRequest) (c : caller)
    : http HandoffFallbackPolicyResponse * agents_app * list audit_event :=
  routing_route a tenant_id "POST /tenants/{tenant_id}/agents/fallback" c (λ a,
    let policy := requested_policy b in
    let '(answer, r) := set_handoff_fallback_policy (context_registry (agent_factory a) ctx) policy in
    ((let? _ := value_error_as 422 answer in Reply (fallback_response policy)),
     with_agent_registry a ctx r)).

Definition list_fallback_policies (a : agents_app) (tenant_id : string) (ctx : nat) (c : caller)
    : http (list HandoffFallbackPolicyResponse) * agents_app * list audit_event :=
  routing_route a tenant_id "GET /tenants/{tenant_id}/agents/fallback" c (λ a,
    (Reply (fallback_response <$>
       AgentRegistry.list_fallback_policies (context_registry (agent_factory a) ctx)), a)).

Definition get_agent (a : agents_app) (ctx : nat) (id : string) : http AgentResponse :=
  let? spec := not_found_as id (AgentRegistry.get (context_registry (agent_factory a) ctx) id) in
  Reply (spec_to_response spec).

Definition unregister_agent (a : agents_app) (tenant_id : string) (ctx : nat) (id : string)
    : http unit * agents_app :=
  match not_found_as id (AgentRegistry.unregister (context_registry (agent_factory a) ctx) id) with
  | HTTPException c m => (HTTPException c m, a)
  | Reply r =>
      let a := with_agent_registry a ctx r in
      (Reply tt, with_agent_store a (λ s, SQLiteAgentStore.delete_agent s tenant_id id))
  end.

(** *** The requests of the router *)

Inductive agent_request :=
| RegisterAgent (b : AgentRegisterRequest)
| ListAgents
| AddHandoffRoute (b : HandoffRouteRequest) (c : caller)
| ListHandoffRoutes (c : caller)
| SetFallbackPolicy (b : HandoffFallbackPolicyRequest) (c : caller)
| ListFallbackPolicies (c : caller)
| GetAgent (id : string)
| UnregisterAgent (id : string).

(** Whether an answer refuses the request: its status *)
Definition refusal {B} (h : http B) : option Z := match h with Reply _ => None | HTTPException c _ => Some c end.

(** What a route does with the context of the request: the status of a refusal, the application after it
    and the events *)
Definition route (a : agents_app) (tenant_id : string) (ctx : nat) (q : agent_request)
    : option Z * agents_app * list audit_event :=
  match q with
  | RegisterAgent b => let '(h, a) := register_agent a tenant_id ctx b in (refusal h, a, [])
  | ListAgents => (None, a, [])
  | AddHandoffRoute b c => let '(h, a, events) := add_handoff_route a tenant_id ctx b c in (refusal h, a, events)
  | ListHandoffRoutes c => let '(h, a, events) := list_handoff_routes a tenant_id ctx c in (refusal h, a, events)
  | SetFallbackPolicy b c =>
      let '(h, a, events) := set_fallback_policy a tenant_id ctx b c in (refusal h, a, events)
  | ListFallbackPolicies c =>
      let '(h, a, events) := list_fallback_policies a tenant_id ctx c in (refusal h, a, events)
  | GetAgent id => (refusal (get_agent a ctx id), a, [])
  | UnregisterAgent id => let '(h, a) := unregister_agent a tenant_id ctx id in (refusal h, a, [])
  end.

(** A request: its tenant's context, then the route *)
Definition handle (c : RuntimeSettings) (a : agents_app) (readings : Z * Z) (tenant_id : string)
    (q : agent_request) : option Z * agents_app * list audit_event :=
  let '(ctx, a) := get_tenant_context c a readings tenant_id in
  route a tenant_id ctx q.

(** An application that has just started, with empty stores *)
Definition new_agents_app (stored audited : bool) : agents_app :=
  mkAgentsApp TenantRuntime.empty (if stored then Some [] else None) audited.
End agent_routes.
