(* ===== verification/AgentApiFacts.v ===== *)
(** * Theorems about the agent routes

    What each request answers and changes, for its own tenant and for the others, whose contexts the
    request may drop when the cache is full; the store keeps the agents of every tenant, so that a
    restart restores them, and none of the handoff routes and fallback policies. *)

From S2P Require Import Prelude PyValue Tenancy Identity Authentication ToolIO Sample Entitlements.
From S2P Require Import SqliteStores SqliteStoresFacts ToolExecutor ToolPackages ToolCatalog AgentRegistry.
From S2P Require Import TenantRuntime TenantRuntimeFacts Hydration HydrationFacts AgentApi.

Section facts.
Context `{!ToolIO} {Handler Adapter : Type}.
Variable float_repr : Q → string.
Variable byoc_execute sandbox_execute : ToolCallContext → ToolRegistry.ToolDescriptor Handler → res ToolResult.
Variable set_order : gset AgentCapabilityTag → list AgentCapabilityTag.
Hypothesis set_order_perm : ∀ s, set_order s ≡ₚ elements s.
Variable cfg : RuntimeSettings.

#[local] Notation agents_app := (AgentApi.agents_app (Handler := Handler) (Adapter := Adapter)).
#[local] Notation factory := (TenantRuntime.t (Handler := Handler) (Adapter := Adapter)).
#[local] Notation route := (AgentApi.route set_order).
#[local] Notation get_tenant_context := (get_tenant_context float_repr byoc_execute sandbox_execute cfg).
#[local] Notation handle := (AgentApi.handle float_repr byoc_execute sandbox_execute set_order cfg).
#[local] Notation persisted_agent := (persisted_agent set_order).
#[local] Notation register_agent := (register_agent set_order).
#[local] Notation evicted := (evicted cfg).
Implicit Types (a : agents_app) (f : factory) (t : string) (x : AgentSpec).

(** ** What the tenants have *)

(** The agent registry of a tenant: none is cached, and the next request finds an empty one *)
Definition registry_in f t : AgentRegistry :=
  match od_get t (contexts f) with
  | Some ctx => context_registry f ctx
  | None => empty_registry
  end.

#[local] Notation registry_of a t := (registry_in (agent_factory a) t).
#[local] Notation cached a t ctx := (od_get t (contexts (agent_factory a)) = Some ctx).

Record app_ok a : Prop := {
  ok_factory : factory_wf (agent_factory a);
  ok_caps : within_caps cfg (agent_factory a);
  ok_registry t : wf (registry_of a t);
}.

Lemma cached_registry a t ctx : cached a t ctx → context_registry (agent_factory a) ctx = registry_of a t.
Proof. unfold registry_in. by intros ->. Qed.

Lemma registry_of_set a t ctx r t' :
  app_ok a → cached a t ctx →
  registry_of (with_agent_registry a ctx r) t' = if decide (t' = t) then r else registry_of a t'.
Proof.
  intros [((_ & _ & Hlive) & _ & _) _ _] Ht. destruct (Hlive _ _ Ht) as (x & Hx & Hxt).
  unfold with_agent_registry, registry_in, context_registry. rewrite Hx.
  cbn [agent_factory contexts heap update_context].
  destruct (decide (t' = t)) as [->|Hne]; [by rewrite Ht, od_get_set|].
  destruct (od_get t' (contexts (agent_factory a))) as [ctx'|] eqn:Ht'; [|done].
  rewrite od_get_set_ne; [done|]. intros ->. destruct (Hlive _ _ Ht') as (y & Hy & Hyt). congruence.
Qed.

Lemma registry_of_store a g t : registry_of (with_agent_store a g) t = registry_of a t.
Proof. done. Qed.

Lemma with_registry_stored a ctx r : agent_store (with_agent_registry a ctx r) = agent_store a.
Proof. unfold with_agent_registry. by destruct (od_get ctx _). Qed.

Lemma agent_registry_kept_ok a t ctx r : app_ok a → cached a t ctx → wf r → app_ok (with_agent_registry a ctx r).
Proof.
  intros Ha Ht Hr. pose proof Ha as [Hf Hc Hw]. pose proof Hf as ((_ & _ & Hlive) & _ & _).
  destruct (Hlive _ _ Ht) as (x & Hx & Hxt).
  destruct (update_context_wf cfg _ _ _ (set_agent_registry x r) Hf Hc Ht Hxt) as [Hf' Hc'].
  split.
  - unfold with_agent_registry. by rewrite Hx.
  - unfold with_agent_registry. by rewrite Hx.
  - intros t'. rewrite (registry_of_set a t) by done. by case_decide.
Qed.

Lemma with_store_ok a g : app_ok a → app_ok (with_agent_store a g).
Proof. by intros [Hf Hc Hw]. Qed.

(** *** Getting a context *)

(** The context of the tenant is cached now, its registry is the one it had, and so are those of the
    others, but for the tenant whose context was dropped. *)
Lemma context_obtained a readings t :
  app_ok a →
  let '(ctx, a') := get_tenant_context a readings t in
  app_ok a' ∧ cached a' t ctx ∧ agent_store a' = agent_store a ∧
  (∀ t', registry_of a' t' =
     if decide (evicted (agent_factory a) t = Some t') then empty_registry else registry_of a t') ∧
  ∀ t', t' ∈ od_keys (contexts (agent_factory a')) → t' = t ∨ t' ∈ od_keys (contexts (agent_factory a)).
Proof.
  intros [Hf Hc Hw]. unfold AgentApi.get_tenant_context.
  pose proof (get_or_create_spec float_repr byoc_execute sandbox_execute cfg _ readings.1 readings.2 t Hf Hc) as Hs.
  pose proof (get_or_create_contexts float_repr byoc_execute sandbox_execute cfg (agent_factory a) readings.1 readings.2 t Hc) as Hg.
  destruct (get_or_create _ _ _ _ _ _ _ _) as [ctx f']. cbn [fst snd] in Hs. destruct Hs as (Hf' & Hc' & _).
  destruct Hg as (Ht & Hothers & Hown).
  assert (∀ t', registry_in f' t' =
    if decide (evicted (agent_factory a) t = Some t') then empty_registry else registry_of a t') as Hreg.
  { intros t'. destruct Hf as ((_ & Hkeys & Hlive) & _ & _).
    assert (∀ ref, is_Some (od_get ref (heap (agent_factory a))) →
      context_registry f' ref = context_registry (agent_factory a) ref) as Hsame.
    { intros ref [x Hx]. unfold context_registry. destruct Hown as [[_ ->]|(_ & _ & ->)]; [done|].
      by rewrite od_get_app, Hx. }
    destruct (decide (t' = t)) as [->|Hne].
    - rewrite decide_False.
      2:{ intros Ev. apply evicted_spec in Ev as (_ & Hno & Hin & _). by apply od_get_None in Hno. }
      unfold registry_in. rewrite Ht. destruct Hown as [[Hold _]|(Hold & -> & Hh)]; rewrite Hold.
      + apply Hsame. destruct (Hlive _ _ Hold) as (x & Hx & _). by exists x.
      + unfold context_registry. rewrite Hh, od_get_app.
        assert (od_get (fresh (agent_factory a)) (heap (agent_factory a)) = None) as ->.
        { apply od_get_None. rewrite Hkeys. unfold fresh. intros ?%elem_of_seq. lia. }
        cbn [od_get]. by rewrite decide_True.
    - unfold registry_in. rewrite Hothers by done. case_decide; [done|].
      destruct (od_get t' (contexts (agent_factory a))) as [ref|] eqn:Er; [|done].
      apply Hsame. destruct (Hlive _ _ Er) as (x & Hx & _). by exists x. }
  split_and!; [|done|done|done|].
  - split; [done|done|]. intros t'. cbn [agent_factory]. rewrite Hreg.
    case_decide; [apply empty_registry_wf|apply Hw].
  - intros t' Hin. destruct (decide (t' = t)) as [->|Hne]; [by left|right]. revert Hin.
    rewrite <- !od_get_Some_key. cbn [agent_factory]. rewrite Hothers by done. case_decide; [by intros []|done].
Qed.

(** ** The store *)

(** The row of an agent *)
Definition row_for t x : SQLiteAgentStore.row :=
  SQLiteAgentStore.mkRow (role x) (SQLiteAgentStore.data_of (persisted_agent t x)).

Lemma capability_of_value c : capability_of (capability_value c) = Some c.
Proof. by destruct c. Qed.

(** The agent of a row is the agent it was written for. *)
Lemma agent_row_round_trip t x :
  agent_record_to_spec (SQLiteAgentStore.record_of ((t, agent_id x), row_for t x)) = x.
Proof.
  pose proof (decode_encode (persisted_agent t x)) as E. cbn [key_of encode decode agent_codec] in E.
  unfold row_for. cbn [pa_role persisted_agent pa_tenant_id pa_agent_id] in E. rewrite E.
  destruct x as [id ρ tags ins md]. unfold agent_record_to_spec. cbn. f_equal.
  apply set_eq. intros c. rewrite elem_of_list_to_set, list_elem_of_omap. unfold tag_values.
  setoid_rewrite list_elem_of_fmap. setoid_rewrite set_order_perm. setoid_rewrite elem_of_elements. split.
  - intros (v & (c' & -> & Hc) & E'). rewrite capability_of_value in E'. by injection E' as ->.
  - intros Hc. exists (capability_value c). split; [by exists c|apply capability_of_value].
Qed.

(** The store and the registries have the same agents. *)
Record agents_in_sync a : Prop := {
  sy_named t id x : od_get id (agents (registry_of a t)) = Some x → named x;
  sy_store s : agent_store a = Some s → od_wf s ∧
    ∀ t id, od_get (t, id) s = row_for t <$> od_get id (agents (registry_of a t));
}.

Lemma new_app_ok stored audited : app_ok (new_agents_app stored audited).
Proof.
  split; [|split; cbn; lia|intros t; apply empty_registry_wf].
  split; [by split; [apply NoDup_nil_2|]|split; [split_and!; apply NoDup_nil_2|done]].
Qed.

Lemma new_app_in_sync stored audited : agents_in_sync (new_agents_app stored audited).
Proof.
  split; [done|]. intros s. destruct stored; [|done]. intros [= <-]. split; [constructor|done].
Qed.

Lemma same_registries_in_sync a a' :
  agents_in_sync a → agent_store a' = agent_store a →
  (∀ t, agents (registry_of a' t) = agents (registry_of a t)) → agents_in_sync a'.
Proof.
  intros [Hn Hs] Hstore Hr. split.
  - intros t id x. rewrite Hr. apply Hn.
  - intros s. rewrite Hstore. intros E. destruct (Hs s E) as [Hwf Hrows]. split; [done|].
    intros t id. by rewrite Hr.
Qed.

(** The application [a'] is in order with the same contexts, and in sync when [a] is. *)
Definition kept a a' : Prop :=
  app_ok a' ∧ contexts (agent_factory a') = contexts (agent_factory a) ∧
  (agents_in_sync a → agents_in_sync a').

Lemma kept_refl a : app_ok a → kept a a.
Proof. done. Qed.

Lemma with_registry_contexts a ctx r :
  contexts (agent_factory (with_agent_registry a ctx r)) = contexts (agent_factory a).
Proof. unfold with_agent_registry. by destruct (od_get ctx _). Qed.

(** A registry of the tenant with the same agents *)
Lemma same_agents_kept a t ctx r :
  app_ok a → cached a t ctx → wf r → agents r = agents (registry_of a t) → kept a (with_agent_registry a ctx r).
Proof.
  intros Ha Ht Hw Hr. split; [by eapply agent_registry_kept_ok|]. split; [apply with_registry_contexts|]. intros Hi.
  apply (same_registries_in_sync a); [done|apply with_registry_stored|].
  intros t'. rewrite (registry_of_set a t) by done. by case_decide; subst.
Qed.

Lemma agent_register_kept a t ctx b :
  app_ok a → cached a t ctx → kept a (register_agent a t ctx b).2.
Proof.
  intros Ha Ht. unfold AgentApi.register_agent. rewrite (cached_registry a t ctx Ht).
  generalize (requested_agent b) as x. intros x.
  destruct (AgentRegistry.register (registry_of a t) x) as [r|e] eqn:E; [|destruct e; by apply kept_refl].
  cbn [value_error_as snd]. pose proof (register_wf _ _ _ (ok_registry _ Ha t) E) as Hw.
  split; [by apply with_store_ok; eapply agent_registry_kept_ok|].
  split; [apply with_registry_contexts|]. intros [Hn Hs].
  pose proof (register_named _ _ _ E) as Hx. apply register_ok in E as (Hfree & _ & Hag & _).
  assert (∀ id, od_get id (agents r) = if decide (id = agent_id x) then Some x else od_get id (agents (registry_of a t))) as Hget.
  { intros id. rewrite Hag, od_get_app. cbn. case_decide as E; [by rewrite E, Hfree|by destruct (od_get id _)]. }
  split.
  - intros t' id y. rewrite registry_of_store, (registry_of_set a t) by done. case_decide; [|apply Hn].
    rewrite Hget. case_decide; [by intros [= <-]|apply Hn].
  - intros s. cbn [agent_store with_agent_store]. rewrite with_registry_stored. intros (s0 & E0 & ->)%fmap_Some_1.
    destruct (Hs s0 E0) as [Hwf Hrows]. split; [by apply od_wf_set|]. intros t' id.
    rewrite registry_of_store, (registry_of_set a t) by done. unfold SQLiteAgentStore.save_agent, upsert.
    cbn [pa_agent_id AgentApi.persisted_agent].
    destruct (decide ((t', id) = (t, agent_id x))) as [[= -> ->]|Hne].
    + rewrite od_get_set, decide_True, Hget, decide_True by done. done.
    + rewrite od_get_set_ne, Hrows by done. case_decide as Et; [|done]. subst t'.
      rewrite Hget, decide_False; [done|]. intros ->. done.
Qed.

Lemma agent_unregister_kept a t ctx id :
  app_ok a → cached a t ctx → kept a (unregister_agent a t ctx id).2.
Proof.
  intros Ha Ht. unfold unregister_agent. rewrite (cached_registry a t ctx Ht).
  destruct (AgentRegistry.unregister (registry_of a t) id) as [r|e] eqn:E; [|destruct e; by apply kept_refl].
  cbn [not_found_as snd]. pose proof (unregister_wf _ _ _ (ok_registry _ Ha t) E) as Hw.
  split; [by apply with_store_ok; eapply agent_registry_kept_ok|].
  split; [apply with_registry_contexts|]. intros [Hn Hs].
  apply unregister_ok in E as (x & _ & Hag & _).
  split.
  - intros t' i y. rewrite registry_of_store, (registry_of_set a t) by done. case_decide; [|apply Hn].
    rewrite Hag. destruct (decide (i = id)) as [->|Hne]; [by rewrite od_get_pop|]. rewrite od_get_pop_ne by done. apply Hn.
  - intros s. cbn [agent_store with_agent_store]. rewrite with_registry_stored. intros (s0 & E0 & ->)%fmap_Some_1.
    destruct (Hs s0 E0) as [Hwf Hrows]. split; [by apply od_wf_pop|]. intros t' i.
    rewrite registry_of_store, (registry_of_set a t) by done. unfold SQLiteAgentStore.delete_agent, delete_row.
    destruct (decide ((t', i) = (t, id))) as [[= -> ->]|Hne].
    + by rewrite od_get_pop, decide_True, Hag, od_get_pop by done.
    + rewrite od_get_pop_ne, Hrows by done. case_decide as Et; [|done]. subst t'.
      rewrite Hag, od_get_pop_ne; [done|]. intros ->. done.
Qed.

(** The entitlement of a caller *)
Definition entitled (w : caller) : Prop :=
  ed_decision (evaluate_feature_entitlement (A := PolicyAction) (ca_identity w) AgentRoutingAdvanced) = ALLOW.

Definition caller_of (q : agent_request) : option caller :=
  match q with
  | AddHandoffRoute _ w | ListHandoffRoutes w | SetFallbackPolicy _ w | ListFallbackPolicies w => Some w
  | _ => None
  end.

Lemma routing_route_spec {B} a t label w (k : agents_app → http B * agents_app) :
  ∃ events,
    (entitled w ∧ routing_route a t label w k = ((k a).1, (k a).2, events)) ∨
    (¬ entitled w ∧ ∃ m, routing_route a t label w k = (HTTPException 403 m, a, events)).
Proof.
  unfold routing_route, require_agent_routing_entitlement, entitled. eexists.
  case_bool_decide as E; [left|right]; (split; [done|]); [by destruct (k a)|by eexists].
Qed.

(** ** What a route does with its context *)

(** Refused, the route leaves the agents, the routes and the rows; only a refused fallback policy
    may change the registry. *)
Definition left_alone (q : agent_request) (status : option Z) a a' : Prop :=
  agent_store a' = agent_store a ∧
  (∀ t, same_agents (registry_of a t) (registry_of a' t) ∧ routes (registry_of a' t) = routes (registry_of a t)) ∧
  ((∀ t, registry_of a' t = registry_of a t) ∨ ∃ b w, q = SetFallbackPolicy b w ∧ status = Some 422).

Definition answered (q : agent_request) t a (out : option Z * agents_app * list audit_event) : Prop :=
  let '(status, a', _) := out in
  (status = None ∨ status = Some 403 ∨ status = Some 404 ∨ status = Some 409 ∨ status = Some 422) ∧
  (status = Some 403 ↔ ∃ w, caller_of q = Some w ∧ ¬ entitled w) ∧
  (∀ t', t' ≠ t → registry_of a' t' = registry_of a t' ∧
     ∀ id, (agent_store a' ≫= od_get (t', id)) = (agent_store a ≫= od_get (t', id))) ∧
  (is_Some status → left_alone q status a a').

Lemma normalize_priorities_value_error known l acc e :
  normalize_priorities known l acc = Raise e → ∃ m, e = ValueError m.
Proof.
  revert acc. induction l as [|[raw n] l IH]; intros acc; [done|]. cbn [normalize_priorities].
  destruct (negb (py_bool _)); [apply IH|]. destruct (negb (od_mem _ _)); [|apply IH].
  intros [= <-]. by eexists.
Qed.

Lemma set_policy_raises r p e r' :
  set_handoff_fallback_policy r p = (Raise e, r') → ∃ m, e = ValueError m.
Proof.
  unfold set_handoff_fallback_policy. destruct (negb _); [intros [= <- _]; by eexists|].
  destruct (negb _); [intros [= <- _]; by eexists|].
  destruct (normalize_priorities _ _ _) eqn:E; [done|]. intros [= <- _].
  by eapply normalize_priorities_value_error.
Qed.

Lemma add_route_raises r route e :
  wf r → AgentRegistry.add_handoff_route r route = Raise e → ∃ m, e = ValueError m.
Proof.
  intros Hw. unfold AgentRegistry.add_handoff_route.
  destruct (od_mem (source_role route) (roles r)); [|intros [= <-]; by eexists].
  destruct (od_mem (target_role route) (roles r)) eqn:Et; [|intros [= <-]; by eexists].
  apply od_mem_true, (known_role_agent _ _ Hw) in Et as [x Hx]. apply get_by_role_agent in Hx as ->; [|done].
  cbn. destruct (missing_capabilities _ _); [done|]. intros [= <-]. by eexists.
Qed.

Lemma register_raises r x e : register r x = Raise e → ∃ m, e = ValueError m.
Proof. unfold register. repeat (case_match; [|intros [= <-]; by eexists]). done. Qed.

Lemma get_raises r id e : AgentRegistry.get r id = Raise e → ∃ m, e = KeyError m.
Proof. unfold AgentRegistry.get. case_match; [done|]. intros [= <-]. by eexists. Qed.

Lemma unregister_raises_key r id e : AgentRegistry.unregister r id = Raise e → ∃ m, e = KeyError m.
Proof.
  unfold AgentRegistry.unregister. destruct (AgentRegistry.get r id) as [x|e'] eqn:E; [done|].
  intros [= <-]. by eapply get_raises.
Qed.

Lemma same_app_left_alone q status a : left_alone q status a a.
Proof. split_and!; [done|done|by left]. Qed.

Lemma answered_same q t a status events :
  (status = None ∨ status = Some 403 ∨ status = Some 404 ∨ status = Some 409 ∨ status = Some 422) →
  (status = Some 403 ↔ ∃ w, caller_of q = Some w ∧ ¬ entitled w) →
  answered q t a (status, a, events).
Proof. intros Hs Hc. split_and!; [done|done|done|]. intros _. apply same_app_left_alone. Qed.

(** A request that is not refused and keeps the other tenants' agents *)
Lemma answered_ok q t a ctx r g events :
  app_ok a → cached a t ctx →
  ¬ (∃ w, caller_of q = Some w ∧ ¬ entitled w) →
  (∀ s t' id, t' ≠ t → od_get (t', id) (g s) = od_get (t', id) s) →
  answered q t a (None, with_agent_store (with_agent_registry a ctx r) g, events).
Proof.
  intros Ha Ht Hc Hg. split_and!; [by left|done| |by intros []]. intros t' Hne.
  rewrite registry_of_store, (registry_of_set a t), decide_False by done. split; [done|]. intros id.
  cbn [agent_store with_agent_store]. rewrite with_registry_stored. destruct (agent_store a) as [s|]; [|done].
  by apply Hg.
Qed.

Lemma with_store_id a : with_agent_store a (λ s, s) = a.
Proof. destruct a as [f [s|] au]; done. Qed.

#[local] Ltac not_403 := split; [done|intros (w' & Hw' & ?); by simplify_eq].

(** The three requests behind the entitlement that do not refuse by themselves, and the one that
    adds a route *)
Lemma routing_answered {B} q t a label w (k : agents_app → http B * agents_app) :
  caller_of q = Some w →
  (entitled w → answered q t a (refusal (k a).1, (k a).2, [])) →
  answered q t a (let '(h, a', events) := routing_route a t label w k in (refusal h, a', events)).
Proof.
  intros Hq Hk. destruct (routing_route_spec a t label w k) as (events & [[Hc ->]|[Hc [m ->]]]).
  - exact (Hk Hc).
  - apply answered_same; [auto|]. split; [|done]. intros _. by exists w.
Qed.

Lemma entitled_not_403 q w : caller_of q = Some w → entitled w → ¬ (∃ w, caller_of q = Some w ∧ ¬ entitled w).
Proof. intros Hq Hc (w' & Hw' & Hn). congruence. Qed.

Lemma add_route_answered a t ctx b w :
  app_ok a → cached a t ctx → answered (AddHandoffRoute b w) t a (route a t ctx (AddHandoffRoute b w)).
Proof.
  intros Ha Ht. apply routing_answered; [done|]. intros Hc.
  pose proof (entitled_not_403 (AddHandoffRoute b w) w eq_refl Hc) as Hn. cbv beta zeta.
  rewrite (cached_registry a t ctx Ht).
  destruct (AgentRegistry.add_handoff_route (registry_of a t) (requested_route b)) as [r|e] eqn:E.
  - cbn [value_error_as fst snd refusal]. rewrite <- (with_store_id (with_agent_registry a ctx r)).
    by apply answered_ok.
  - destruct (add_route_raises _ _ _ (ok_registry _ Ha t) E) as [m ->]. cbn [value_error_as fst snd refusal].
    apply answered_same; [auto|]. by split.
Qed.

Lemma set_policy_answered a t ctx b w :
  app_ok a → cached a t ctx → answered (SetFallbackPolicy b w) t a (route a t ctx (SetFallbackPolicy b w)).
Proof.
  intros Ha Ht. apply routing_answered; [done|]. intros Hc.
  pose proof (entitled_not_403 (SetFallbackPolicy b w) w eq_refl Hc) as Hn. cbv beta zeta.
  rewrite (cached_registry a t ctx Ht).
  pose proof (set_policy_same (registry_of a t) (requested_policy b)) as [Hsame Hroutes].
  destruct (set_handoff_fallback_policy (registry_of a t) (requested_policy b)) as [[[]|e] r] eqn:E;
    cbn [fst snd] in *.
  - cbn [value_error_as http_bind refusal]. rewrite <- (with_store_id (with_agent_registry a ctx r)).
    by apply answered_ok.
  - destruct (set_policy_raises _ _ _ _ E) as [m ->]. cbn [value_error_as http_bind refusal].
    split_and!; [auto|by split| |].
    + intros t' Hne. rewrite (registry_of_set a t), decide_False by done. by rewrite with_registry_stored.
    + intros _. split_and!; [apply with_registry_stored| |right; by eexists _, _]. intros t'.
      rewrite (registry_of_set a t) by done. case_decide as Et; [by rewrite Et|done].
Qed.

Lemma route_answered a t ctx q : app_ok a → cached a t ctx → answered q t a (route a t ctx q).
Proof.
  intros Ha Ht. destruct q as [b| |b w|w|b w|w|id|id].
  - cbn [AgentApi.route]. unfold AgentApi.register_agent. rewrite (cached_registry a t ctx Ht).
    destruct (AgentRegistry.register _ _) as [r|e] eqn:E.
    + cbn [value_error_as refusal]. apply answered_ok; [done|done|by intros (? & ? & _)|]. intros s t' id Hne.
      unfold SQLiteAgentStore.save_agent, upsert. rewrite od_get_set_ne; [done|]. by intros [= ? _].
    + destruct (register_raises _ _ _ E) as [m ->]. apply answered_same; [auto 6|not_403].
  - apply answered_same; [auto|not_403].
  - by apply add_route_answered.
  - apply routing_answered; [done|]. intros Hc. apply answered_same; [auto|].
    split; [done|]. by intros ?%(entitled_not_403 (ListHandoffRoutes w) w eq_refl Hc).
  - by apply set_policy_answered.
  - apply routing_answered; [done|]. intros Hc. apply answered_same; [auto|].
    split; [done|]. by intros ?%(entitled_not_403 (ListFallbackPolicies w) w eq_refl Hc).
  - cbn [AgentApi.route]. unfold get_agent. destruct (AgentRegistry.get _ _) as [x|e] eqn:E.
    + apply answered_same; [auto|not_403].
    + destruct (get_raises _ _ _ E) as [m ->]. apply answered_same; [auto|not_403].
  - cbn [AgentApi.route]. unfold unregister_agent. rewrite (cached_registry a t ctx Ht).
    destruct (AgentRegistry.unregister _ _) as [r|e] eqn:E.
    + cbn [not_found_as refusal]. apply answered_ok; [done|done|by intros (? & ? & _)|]. intros s t' i Hne.
      unfold SQLiteAgentStore.delete_agent, delete_row. rewrite od_get_pop_ne; [done|]. by intros [= ? _].
    + destruct (unregister_raises_key _ _ _ E) as [m ->]. apply answered_same; [auto|not_403].
Qed.

Lemma route_kept a t ctx q : app_ok a → cached a t ctx → kept a (route a t ctx q).1.2.
Proof.
  intros Ha Ht. pose proof (kept_refl a Ha) as Hsame.
  assert (∀ B (h : http B * agents_app * list audit_event),
    (let '(x, a', ev) := h in (refusal x, a', ev)).1.2 = h.1.2) as Hsnd by (by intros B [[? ?] ?]).
  assert (∀ B t label w (k : agents_app → http B * agents_app),
    kept a (k a).2 → kept a (routing_route a t label w k).1.2) as Hroute.
  { intros B t' label w k Hk. by destruct (routing_route_spec a t' label w k) as (ev & [[_ ->]|[_ [m ->]]]). }
  destruct q as [b| |b w|w|b w|w|id|id]; cbn [AgentApi.route]; rewrite ?Hsnd; try done.
  - pose proof (agent_register_kept a t ctx b Ha Ht). by destruct (register_agent a t ctx b).
  - apply Hroute. cbv beta zeta. rewrite (cached_registry a t ctx Ht).
    destruct (AgentRegistry.add_handoff_route _ _) as [r|e] eqn:E; [|by destruct e].
    cbn [value_error_as snd]. pose proof (ok_registry _ Ha t) as Hw.
    eapply same_agents_kept; [done|done|by eapply add_handoff_route_wf|].
    by destruct (add_handoff_route_ok _ _ _ Hw E) as (_ & _ & _ & _ & ->).
  - by apply Hroute.
  - apply Hroute. cbv beta zeta. rewrite (cached_registry a t ctx Ht).
    pose proof (set_policy_same (registry_of a t) (requested_policy b)) as [[Hag _] _].
    pose proof (set_fallback_wf _ (requested_policy b) (ok_registry _ Ha t)) as Hw.
    destruct (set_handoff_fallback_policy _ _) as [answer r]. by eapply same_agents_kept.
  - by apply Hroute.
  - pose proof (agent_unregister_kept a t ctx id Ha Ht). by destruct (unregister_agent a t ctx id).
Qed.

(** ** Requests one after another *)

(** A request of a tenant and the readings of the clock when it comes *)
Record request := mkRequest { rq_readings : Z * Z; rq_tenant : string; rq_asked : agent_request }.

Definition after a (r : request) : agents_app := (handle a (rq_readings r) (rq_tenant r) (rq_asked r)).1.2.

Definition after_all a (rs : list request) : agents_app := foldl after a rs.

(** A request is its tenant's context and the route. *)
Lemma after_route a r :
  app_ok a →
  ∃ ctx a1, get_tenant_context a (rq_readings r) (rq_tenant r) = (ctx, a1) ∧
    after a r = (route a1 (rq_tenant r) ctx (rq_asked r)).1.2 ∧ kept a1 (after a r).
Proof.
  intros Ha. pose proof (context_obtained a (rq_readings r) (rq_tenant r) Ha) as H1.
  unfold after, AgentApi.handle. destruct (get_tenant_context a _ _) as [ctx a1] eqn:E.
  exists ctx, a1. destruct H1 as (Ha1 & Ht & _). split_and!; [done|done|]. by apply route_kept.
Qed.

Lemma after_all_ok a rs : app_ok a → app_ok (after_all a rs).
Proof.
  revert a. induction rs as [|r rs IH]; intros a Ha; [done|]. apply IH.
  by destruct (after_route a r Ha) as (ctx & a1 & _ & _ & [? _]).
Qed.

(** C9: Whatever the requests before it, a request is answered, or refused with 403, 404, 409 or 422
    and never an internal error: with 403 exactly when its caller lacks the routing entitlement.  It leaves the
    rows of every other tenant alone, and their agents, routes and policies, but for the tenant whose context it
    drops: when the request's own tenant has no context and the cache is full, that is the tenant used least
    recently, whose next request finds no agents.  When the request is refused it leaves the agents, the routes
    and the rows of its own tenant too; then the whole registry is as before, but for a fallback policy refused
    with 422, of which the registry may already hold a part. *)
Theorem agent_requests_answered stored audited rs readings t q :
  let a := after_all (new_agents_app stored audited) rs in
  let '(status, a', _) := handle a readings t q in
  (status = None ∨ status = Some 403 ∨ status = Some 404 ∨ status = Some 409 ∨ status = Some 422) ∧
  (status = Some 403 ↔ ∃ w, caller_of q = Some w ∧ ¬ entitled w) ∧
  (∀ t', t' ≠ t →
     registry_of a' t' =
       (if decide (evicted (agent_factory a) t = Some t') then empty_registry else registry_of a t') ∧
     ∀ id, (agent_store a' ≫= od_get (t', id)) = (agent_store a ≫= od_get (t', id))) ∧
  (is_Some status →
   agent_store a' = agent_store a ∧
   same_agents (registry_of a t) (registry_of a' t) ∧ routes (registry_of a' t) = routes (registry_of a t) ∧
   (registry_of a' t = registry_of a t ∨ ∃ b w, q = SetFallbackPolicy b w ∧ status = Some 422)).
Proof.
  cbv zeta. pose proof (after_all_ok _ rs (new_app_ok stored audited)) as Ha.
  set (a := after_all _ rs) in *. pose proof (context_obtained a readings t Ha) as H1. unfold AgentApi.handle.
  destruct (get_tenant_context a readings t) as [ctx a1]. destruct H1 as (Ha1 & Ht & Hst & Hreg & _).
  pose proof (route_answered a1 t ctx q Ha1 Ht) as H2. destruct (route a1 t ctx q) as [[status a'] events].
  destruct H2 as (H2 & H3 & Hothers & Hown). split_and!; [done|done| |].
  - intros t' Hne. destruct (Hothers t' Hne) as [-> Hrows]. by rewrite Hreg, <- Hst.
  - assert (registry_of a1 t = registry_of a t) as Et.
    { rewrite Hreg, decide_False; [done|]. intros Ev. apply evicted_spec in Ev as (_ & Hno & Hin & _).
      by apply od_get_None in Hno. }
    intros Hs. destruct (Hown Hs) as (E1 & E2 & E3). destruct (E2 t) as [E4 E5]. rewrite <- Et, <- Hst.
    split_and!; [done..|]. destruct E3 as [E3|E3]; [left; apply E3|by right].
Qed.

(** *** Restarting *)

Lemma hydrate_agents_spec rs (r : AgentRegistry) :
  Forall (λ rec, named (agent_record_to_spec rec)) rs →
  NoDup (pa_agent_id <$> rs) → NoDup (pa_role <$> rs) →
  (∀ rec, rec ∈ rs → od_get (pa_agent_id rec) (agents r) = None ∧ od_get (pa_role rec) (roles r) = None) →
  let r' := hydrate_agents r rs in
  agents r' = agents r ++ keyed (agent_record_to_spec <$> rs) ∧
  roles r' = roles r ++ role_bindings (agent_record_to_spec <$> rs) ∧
  routes r' = routes r ∧ fallback_roles r' = fallback_roles r ∧
  fallback_role_priorities r' = fallback_role_priorities r.
Proof.
  cbv zeta. revert r. induction rs as [|rec rs IH]; intros r Hn Hi Hr Hfree; [by rewrite !app_nil_r|].
  apply Forall_cons in Hn as [Hn0 Hn]. apply NoDup_cons in Hi as [Hia Hi]. apply NoDup_cons in Hr as [Hra Hr].
  destruct (Hfree rec (list_elem_of_here _ _)) as [Ha Hro]. cbn [hydrate_agents].
  unfold AgentRegistry.get. rewrite Ha.
  destruct (register_complete r (agent_record_to_spec rec) Hn0 Ha Hro) as [r1 E]. rewrite E.
  pose proof (register_keeps_policies _ _ _ E) as [Ef Ep]. apply register_ok in E as (_ & _ & Ea & Er & Et).
  destruct (IH r1 Hn Hi Hr) as (Ea' & Er' & Et' & Ef' & Ep').
  - intros rec' Hin. destruct (Hfree rec' (list_elem_of_further _ _ _ Hin)) as [H1 H2].
    rewrite Ea, Er, !od_get_app, H1, H2. cbn. rewrite !decide_False; [done| |]; intros Heq.
    + apply Hra. rewrite <- Heq. by apply list_elem_of_fmap_2.
    + apply Hia. rewrite <- Heq. by apply list_elem_of_fmap_2.
  - rewrite Ea', Er', Et', Ef', Ep', Ea, Er, Et, Ef, Ep, <- !app_assoc. done.
Qed.

(** The listing of a tenant's rows: the agents of its registry *)
Lemma agent_listing a t s :
  app_ok a → agents_in_sync a → agent_store a = Some s →
  let rs := SQLiteAgentStore.list_agents s t in
  NoDup (pa_agent_id <$> rs) ∧
  ∀ rec, rec ∈ rs ↔ ∃ x, od_get (agent_id x) (agents (registry_of a t)) = Some x ∧
    rec = SQLiteAgentStore.record_of ((t, agent_id x), row_for t x).
Proof.
  intros Ha Hi E rs. destruct (sy_store _ Hi s E) as [Hwf Hrows]. unfold rs, SQLiteAgentStore.list_agents. split.
  - rewrite sort_by_perm, <- list_fmap_compose.
    rewrite (list_fmap_ext _ (λ p : (string * string) * SQLiteAgentStore.row, p.1.2)) by done.
    by apply tenant_rows_distinct.
  - intros rec. rewrite list_elem_of_fmap. split.
    + intros ([[t' id] w] & -> & Hin). rewrite elem_of_sort_by, list_elem_of_filter in Hin.
      destruct Hin as [Ht Hin]. cbn in Ht. subst t'. apply (od_elem_get _ _ _ Hwf) in Hin.
      rewrite Hrows in Hin. apply fmap_Some_1 in Hin as (x & Hx & ->). exists x.
      by destruct (w_id _ (ok_registry _ Ha t) _ _ Hx) as [-> _].
    + intros (x & Hx & ->). exists ((t, agent_id x), row_for t x). split; [done|].
      rewrite elem_of_sort_by, list_elem_of_filter. split; [done|]. apply od_get_elem.
      by rewrite Hrows, Hx.
Qed.

Lemma restored_agents a t s :
  app_ok a → agents_in_sync a → agent_store a = Some s →
  let r' := hydrate_agents empty_registry (SQLiteAgentStore.list_agents s t) in
  (∀ id, od_get id (agents r') = od_get id (agents (registry_of a t))) ∧
  (∀ ρ, od_get ρ (roles r') = od_get ρ (roles (registry_of a t))) ∧
  routes r' = [] ∧ fallback_roles r' = [] ∧ fallback_role_priorities r' = [].
Proof.
  intros Ha Hi E. pose proof (agent_listing a t s Ha Hi E) as Hl. cbv zeta in *.
  set (rs := SQLiteAgentStore.list_agents s t) in *. destruct Hl as [Hnd Hin].
  pose proof (ok_registry _ Ha t) as Hw. set (r := registry_of a t) in *.
  assert (∀ rec, rec ∈ rs → ∃ x, od_get (agent_id x) (agents r) = Some x ∧ agent_record_to_spec rec = x ∧
    pa_role rec = role x ∧ pa_agent_id rec = agent_id x) as Hspec.
  { intros rec (x & Hx & ->)%Hin. exists x. split_and!; [done|apply agent_row_round_trip|done|done]. }
  assert (NoDup (pa_role <$> rs)) as Hroles.
  { apply NoDup_fmap_2_strong; [|by eapply NoDup_fmap_1]. intros rec1 rec2 H1 H2 Heq.
    destruct (Hspec _ H1) as (x & Hx & Ex & Er1 & Ei1). destruct (Hspec _ H2) as (y & Hy & Ey & Er2 & Ei2).
    assert (agent_id x = agent_id y) as Exy by (apply (one_agent_per_role r _ _ x y Hw Hx Hy); congruence).
    assert (x = y) as -> by (rewrite Exy in Hx; congruence).
    apply Hin in H1 as (x1 & Hx1 & ->). apply Hin in H2 as (x2 & Hx2 & ->).
    rewrite agent_row_round_trip in Ex, Ey. by subst. }
  destruct (hydrate_agents_spec rs empty_registry) as (Ea & Er & -> & -> & ->); [|done|done|done|].
  { apply Forall_forall. intros rec Hrec. destruct (Hspec _ Hrec) as (x & Hx & -> & _).
    by eapply (sy_named _ Hi t). }
  rewrite Ea, Er. cbn [agents roles empty_registry app].
  assert (∀ id x, (id, x) ∈ keyed (agent_record_to_spec <$> rs) ↔ od_get id (agents r) = Some x) as Hkeyed.
  { intros id x. unfold keyed. rewrite <- list_fmap_compose, list_elem_of_fmap. split.
    - intros (rec & Heq & Hrec). destruct (Hspec _ Hrec) as (y & Hy & Ey & _).
      unfold compose in Heq. rewrite Ey in Heq. by injection Heq as -> ->.
    - intros Hx. pose proof (w_id _ Hw _ _ Hx) as [Hid _]. subst id.
      exists (SQLiteAgentStore.record_of ((t, agent_id x), row_for t x)). cbn [compose]. unfold compose.
      rewrite agent_row_round_trip. split; [done|]. apply Hin. by exists x. }
  assert (od_wf (keyed (agent_record_to_spec <$> rs))) as Hkwf.
  { unfold od_wf. rewrite keyed_keys, <- list_fmap_compose. by rewrite (list_fmap_ext _ pa_agent_id) by done. }
  assert (od_wf (role_bindings (agent_record_to_spec <$> rs))) as Hrwf.
  { unfold od_wf. rewrite role_bindings_keys, <- list_fmap_compose. by rewrite (list_fmap_ext _ pa_role) by done. }
  split_and!; [| |done..].
  - intros id. apply option_eq. intros x. by rewrite <- (od_elem_of_get _ _ _ Hkwf), Hkeyed.
  - intros ρ. apply option_eq. intros id. rewrite <- (od_elem_of_get _ _ _ Hrwf).
    unfold role_bindings. rewrite list_elem_of_fmap. setoid_rewrite list_elem_of_fmap. split.
    + intros (x & [= -> ->] & rec & -> & Hrec). destruct (Hspec _ Hrec) as (y & Hy & -> & _).
      by apply (w_id _ Hw _ _ Hy).
    + intros Hρ. destruct (w_role _ Hw _ _ Hρ) as (x & Hx & <-). destruct (w_id _ Hw _ _ Hx) as [<- _].
      exists x. split; [done|]. exists (SQLiteAgentStore.record_of ((t, agent_id x), row_for t x)).
      rewrite agent_row_round_trip. split; [done|]. apply Hin. by exists x.
Qed.

(** *** Without evictions *)

(** The contexts of the tenants all fit the cache. *)
Definition fit (ts : list string) : Prop :=
  0 < tenant_runtime_max_cached_contexts cfg →
  Z.of_nat (length ts) ≤ tenant_runtime_max_cached_contexts cfg.

(** A tenant among some whose contexts all fit the cache drops none. *)
Lemma no_eviction a t ts :
  app_ok a → t ∈ ts → (∀ t', t' ∈ od_keys (contexts (agent_factory a)) → t' ∈ ts) →
  fit ts →
  evicted (agent_factory a) t = None.
Proof.
  intros [((Hwf & _) & _) _ _] Ht Hin Hcap. destruct (evicted (agent_factory a) t) as [v|] eqn:Ev; [|done].
  apply evicted_spec in Ev as (Hfull & Hno%od_get_None & _). specialize (Hcap ltac:(lia)).
  assert (t :: od_keys (contexts (agent_factory a)) ⊆+ ts) as Hsub.
  { apply NoDup_submseteq; [by apply NoDup_cons|]. intros t' [->|?]%elem_of_cons; auto. }
  apply submseteq_length in Hsub. cbn in Hsub. unfold od_keys in Hsub. rewrite length_fmap in Hsub. lia.
Qed.

Lemma after_in_sync a r ts :
  app_ok a → agents_in_sync a → rq_tenant r ∈ ts →
  (∀ t, t ∈ od_keys (contexts (agent_factory a)) → t ∈ ts) →
  fit ts →
  agents_in_sync (after a r) ∧ ∀ t, t ∈ od_keys (contexts (agent_factory (after a r))) → t ∈ ts.
Proof.
  intros Ha Hi Hr Hin Hcap. destruct (after_route a r Ha) as (ctx & a1 & E & _ & (_ & Hc & Hsync)).
  pose proof (context_obtained a (rq_readings r) (rq_tenant r) Ha) as H1. rewrite E in H1.
  destruct H1 as (_ & _ & Hst & Hreg & Hkeys). rewrite (no_eviction a (rq_tenant r) ts) in Hreg by done.
  split.
  - apply Hsync, (same_registries_in_sync a); [done|done|]. intros t. by rewrite Hreg.
  - intros t. rewrite Hc. intros [->|?]%Hkeys; auto.
Qed.

Lemma after_all_in_sync a rs ts :
  app_ok a → agents_in_sync a → (∀ r, r ∈ rs → rq_tenant r ∈ ts) →
  (∀ t, t ∈ od_keys (contexts (agent_factory a)) → t ∈ ts) →
  fit ts →
  agents_in_sync (after_all a rs).
Proof.
  revert a. induction rs as [|r rs IH]; intros a Ha Hi Hrs Hin Hcap; [done|].
  destruct (after_in_sync a r ts Ha Hi (Hrs r (list_elem_of_here _ _)) Hin Hcap) as [Hi' Hin'].
  apply IH; [|done| |done|done].
  - by destruct (after_route a r Ha) as (? & ? & _ & _ & [? _]).
  - intros r' Hr'. apply Hrs. by right.
Qed.

(** A tenant that no store knows has no agents. *)
Lemma unknown_tenant_no_agents a s p t :
  app_ok a → agents_in_sync a → agent_store a = Some s → ps_agents p = Some s → t ∉ tenant_ids p →
  (∀ id, od_get id (agents (registry_of a t)) = None) ∧ (∀ ρ, od_get ρ (roles (registry_of a t)) = None).
Proof.
  intros Ha Hi Hs Hp Ht. destruct (sy_store _ Hi s Hs) as [Hwf Hrows].
  assert (∀ id, od_get id (agents (registry_of a t)) = None) as Hnone.
  { intros id. destruct (od_get id (agents (registry_of a t))) as [x|] eqn:Ex; [|done]. destruct Ht.
    unfold tenant_ids, distinct, sorted_strings. rewrite elem_of_sort_by, elem_of_remove_dups, Hp.
    rewrite !elem_of_app. right. right. change (t ∈ SQLiteAgentStore.list_tenant_ids s).
    unfold SQLiteAgentStore.list_tenant_ids, distinct, sorted_strings.
    rewrite elem_of_sort_by, elem_of_remove_dups.
    apply list_elem_of_fmap. exists ((t, id), row_for t x). split; [done|]. apply od_get_elem. by rewrite Hrows, Ex. }
  split; [done|]. intros ρ. destruct (od_get ρ (roles (registry_of a t))) as [id|] eqn:E; [|done].
  destruct (w_role _ (ok_registry _ Ha t) _ _ E) as (x & Hx & _). by rewrite Hnone in Hx.
Qed.

Section restart.
Variable sha256_hex : string → string.
Variable hmac_sha256_hex : string → string → string.
Variable import_attr : string → string → attr_outcome Handler.
Variable exec_attr : string → string → string → attr_outcome Handler.
Variable parse_source : string → parse_outcome.
Variable scan : version_rows → version_rows.
#[local] Notation tenant_tools :=
  (tenant_tools float_repr sha256_hex hmac_sha256_hex import_attr exec_attr parse_source scan).
#[local] Notation hydrate_tenants :=
  (hydrate_tenants float_repr sha256_hex hmac_sha256_hex import_attr exec_attr parse_source scan
     byoc_execute sandbox_execute (Adapter := Adapter)).

(** C18: With a store configured, and after any requests of tenants whose contexts all fit the cache, a
    restart that can restore the tools and has room for the tenants of the stores succeeds and gives every
    tenant exactly the agents it has, each with its role, its capability tags and its other fields, and none of
    its handoff routes and fallback policies. *)
Theorem restart_restores_agents stored audited ts rs s p clock :
  let a := after_all (new_agents_app stored audited) rs in
  (∀ r, r ∈ rs → rq_tenant r ∈ ts) → fit ts →
  agent_store a = Some s → ps_agents p = Some s → fit (tenant_ids p) →
  (∀ t, t ∈ tenant_ids p → ∃ tools, tenant_tools p t [] = Ok tools) →
  ∃ f, hydrate_tenants cfg p clock TenantRuntime.empty (tenant_ids p) = Ok f ∧
    ∀ t,
      (∀ id, od_get id (agents (registry_in f t)) = od_get id (agents (registry_of a t))) ∧
      (∀ ρ, od_get ρ (roles (registry_in f t)) = od_get ρ (roles (registry_of a t))) ∧
      routes (registry_in f t) = [] ∧ fallback_roles (registry_in f t) = [] ∧
      fallback_role_priorities (registry_in f t) = [].
Proof.
  cbv zeta. intros Hts Hfit Hs Hp Hroom Htools.
  pose proof (after_all_ok _ rs (new_app_ok stored audited)) as Ha.
  assert (agents_in_sync (after_all (new_agents_app stored audited) rs)) as Hi.
  { apply (after_all_in_sync _ rs ts); [apply new_app_ok|apply new_app_in_sync|done| |done].
    by intros t ?%elem_of_nil. }
  set (a := after_all _ rs) in *.
  destruct (startup_succeeds (Adapter := Adapter) float_repr sha256_hex hmac_sha256_hex import_attr exec_attr
    parse_source scan byoc_execute sandbox_execute cfg p clock Hroom Htools) as [f Hf].
  exists f. split; [exact Hf|]. intros t.
  destruct (startup_restores_every_tenant _ _ _ _ _ _ _ _ _ _ _ _ _ Hroom Hf) as [Hkeys Hserved].
  destruct (decide (t ∈ tenant_ids p)) as [Hin|Hout].
  - destruct (Hserved t Hin) as (ref & x & Hc & Hx & _ & _ & _ & Hag).
    unfold tenant_agents in Hag. rewrite Hp in Hag.
    assert (registry_in f t = hydrate_agents empty_registry (SQLiteAgentStore.list_agents s t)) as ->
      by (unfold registry_in, context_registry; by rewrite Hc, Hx).
    exact (restored_agents a t s Ha Hi Hs).
  - assert (registry_in f t = empty_registry) as ->.
    { unfold registry_in. assert (od_get t (contexts f) = None) as ->; [|done].
      apply od_get_None. by rewrite Hkeys. }
    destruct (unknown_tenant_no_agents a s p t Ha Hi Hs Hp Hout) as [H1 H2].
    split_and!; [intros id; by rewrite H1|intros ρ; by rewrite H2|done..].
Qed.
End restart.
End facts.

(** *** Examples *)

Module AgentRouteExamples.
Import Sample.

#[local] Notation not_hosted := (λ _ _, Raise (OtherException "not hosted")) (only parsing).

(** At most [cap] contexts are cached *)
Definition settings (cap : Z) : RuntimeSettings := mkRuntimeSettings false false 0 0 cap.

Notation handle cap :=
  (handle (H := io) (Handler := string) (Adapter := unit) (λ _, "") not_hosted not_hosted elements (settings cap)).
Notation after_all cap :=
  (after_all (H := io) (Handler := string) (Adapter := unit) (λ _, "") not_hosted not_hosted elements (settings cap)).
Notation new_agents_app := (new_agents_app (H := io) (Handler := string) (Adapter := unit)).
Notation agents_app := (agents_app (H := io) (Handler := string) (Adapter := unit)).
Notation registry_of a t := (registry_in (agent_factory a) t).

Definition someone (roles : list string) : caller :=
  mkCaller (mkIdentityContext "ann" Human roles "acme" "" TokenValid "" "" false) "0000".

Definition planner : agent_request :=
  RegisterAgent (mkAgentRequest "a1" "planner" ["tool_use"; "juggling"] "plan" [("model", PStr "m")]).
Definition coder : agent_request := RegisterAgent (mkAgentRequest "a2" "coder" [] "" []).
Definition to_coder (roles : list string) : agent_request :=
  AddHandoffRoute (mkRouteRequest "planner" "coder" "work" []) (someone roles).
(** A policy with a priority for a role that is not registered *)
Definition bad_policy : agent_request :=
  SetFallbackPolicy (mkFallbackRequest "planner" "coder" ["reviewer"] [("ghost", 1)]) (someone ["pro"]).

(** The requests of a tenant, a second apart *)
Definition requests : list request :=
  [mkRequest (1, 1) "acme" planner; mkRequest (2, 2) "acme" coder; mkRequest (3, 3) "acme" (to_coder ["pro"])].

Definition two_agents : agents_app := after_all 1 (new_agents_app true true) (take 2 requests).
Definition with_route : agents_app := after_all 1 (new_agents_app true true) requests.

Definition stored_rows (a : agents_app) : agent_rows := default [] (agent_store a).

Notation restarted cap p :=
  (hydrate_tenants (H := io) (Handler := string) (Adapter := unit) (λ _, "") id String.append
     (λ _ f, Found f) (λ _ _ _, NoAttribute) (λ _, ParsedFunctions []) (λ rows, rows)
     not_hosted not_hosted (settings cap) p (λ _, (0, 0)) TenantRuntime.empty (tenant_ids p)).

Definition stored : persisted := mkPersisted None None (Some (stored_rows with_route)) [] "".

(** The route was accepted; after a restart it is gone. *)
Lemma routes_lost_at_restart :
  (handle 1 two_agents (3, 3) "acme" (to_coder ["pro"])).1.1 = None ∧
  length (list_routes (registry_of with_route "acme")) = 1%nat ∧
  match restarted 1 stored with Ok f => list_routes (registry_in f "acme") = [] | Raise _ => False end.
Proof. vm_compute. done. Qed.

(** A policy that is refused has replaced the fallback roles. *)
Lemma refused_policy_is_half_set :
  let '(status, a', _) := handle 1 two_agents (3, 3) "acme" bad_policy in
  status = Some 422 ∧ fallback_roles (registry_of two_agents "acme") = [] ∧
  fallback_roles (registry_of a' "acme") = [(("planner", "coder"), ["reviewer"])].
Proof. vm_compute. done. Qed.

(** A caller without the entitlement cannot add a route, and removes one with its agent. *)
Lemma route_removed_without_entitlement :
  (handle 1 two_agents (3, 3) "acme" (to_coder [])).1.1 = Some 403 ∧
  let '(status, a', events) := handle 1 with_route (4, 4) "acme" (UnregisterAgent "a2") in
  status = None ∧ events = [] ∧ list_routes (registry_of a' "acme") = [].
Proof. vm_compute. done. Qed.

(** With room for one context, any request of another tenant drops the agents of the first: its own
    requests do not find them any more, not even to remove them, and the store keeps them. *)
Lemma evicted_tenant_loses_its_agents :
  let '(status, a', _) := handle 1 two_agents (3, 3) "globex" ListAgents in
  status = None ∧ od_keys (agents (registry_of two_agents "acme")) = ["a1"; "a2"] ∧
  agents (registry_of a' "acme") = [] ∧ agent_store a' = agent_store two_agents ∧
  (handle 1 a' (4, 4) "acme" (GetAgent "a1")).1.1 = Some 404 ∧
  (handle 1 a' (4, 4) "acme" (UnregisterAgent "a1")).1.1 = Some 404.
Proof. vm_compute. done. Qed.

Lemma agent_requests_answered_witness :
  (handle 1 two_agents (3, 3) "acme" (to_coder [])).1.1 = Some 403 ∧
  let '(status, a', _) := handle 1 two_agents (3, 3) "acme" (to_coder []) in
  is_Some status → agent_store a' = agent_store two_agents.
Proof.
  split; [vm_compute; reflexivity|].
  pose proof (agent_requests_answered (H := io) (Handler := string) (Adapter := unit) (λ _, "") not_hosted not_hosted
    elements (settings 1) true true (take 2 requests) (3, 3) "acme" (to_coder [])) as H1.
  change (AgentApiFacts.after_all _ _ _ _ _ _ (take 2 requests)) with two_agents in H1. cbv zeta in H1.
  destruct (handle 1 two_agents (3, 3) "acme" (to_coder [])) as [[status a'] events].
  destruct H1 as (_ & _ & _ & Hr). intros Hs. exact (proj1 (Hr Hs)).
Defined.

Lemma restart_restores_agents_witness :
  ∃ f, restarted 1 stored = Ok f ∧
    od_keys (agents (registry_of with_route "acme")) = ["a1"; "a2"] ∧
    ∀ id, od_get id (agents (registry_in f "acme")) = od_get id (agents (registry_of with_route "acme")).
Proof.
  destruct (restart_restores_agents (H := io) (Handler := string) (Adapter := unit) (λ _, "") not_hosted not_hosted
    elements (λ _, reflexivity _) (settings 1) id String.append (λ _ f, Found f) (λ _ _ _, NoAttribute)
    (λ _, ParsedFunctions []) (λ rows, rows) true true ["acme"] requests (stored_rows with_route) stored
    (λ _, (0, 0))) as (f & Hf & Ht).
  - apply Forall_forall. refine (bool_decide_unpack _ _). vm_compute. exact I.
  - intros _. vm_compute. discriminate.
  - vm_compute. reflexivity.
  - reflexivity.
  - intros _. vm_compute. discriminate.
  - intros t _. by exists [].
  - exists f. split; [exact Hf|]. split; [vm_compute; reflexivity|]. exact (proj1 (Ht "acme")).
Defined.
End AgentRouteExamples.
