(* ===== verification/ToolCatalogFacts.v ===== *)
(** * Theorems about the tool routes

    The routes keep the registry of a tenant equal to what a restart would make of the stores
    and the files, but for the cases the statement excludes; each exclusion is a concrete run
    after which a restart changes the tools.  Then what an upload that is accepted satisfies. *)

From S2P Require Import Prelude PyValue Tenancy Authentication ToolIO Sample ToolExecutor.
From S2P Require Import SqliteStores SqliteStoresFacts TurnGateway.
From S2P Require Import ToolPackages ToolPackagesFacts ToolCatalog Hydration HydrationFacts.

Lemma res_bind_ext {A B} (r : res A) (f g : A → res B) :
  (∀ a, f a = g a) → res_bind r f = res_bind r g.
Proof. intros Hfg. by destruct r; cbn. Qed.

Section sync.
Context `{!ToolIO} {Handler L : Type} `{!FixedWindow L}.
Variable float_repr : Q → string.
Variable sha256_hex : string → string.
Variable hmac_sha256_hex : string → string → string.
Variable import_attr : string → string → attr_outcome Handler.
Variable exec_attr : string → string → string → attr_outcome Handler.
Variable parse_source : string → parse_outcome.
Variable scan : version_rows → version_rows.
Hypothesis scan_perm : ∀ l, scan l ≡ₚ l.

Notation catalog := (catalog (Handler := Handler) (L := L)).
Notation descriptor_of :=
  (descriptor_from_tool_version float_repr sha256_hex hmac_sha256_hex import_attr exec_attr parse_source).
Notation loaded := (loaded float_repr sha256_hex hmac_sha256_hex import_attr exec_attr parse_source).
Notation restored_tool := (restored_tool import_attr).
Notation restored_version :=
  (restored_version float_repr sha256_hex hmac_sha256_hex import_attr exec_attr parse_source scan).
Notation restored :=
  (restored float_repr sha256_hex hmac_sha256_hex import_attr exec_attr parse_source scan).
Notation sync :=
  (sync_active_tool_descriptor float_repr sha256_hex hmac_sha256_hex import_attr exec_attr parse_source scan).
Implicit Types (c : catalog).

(** What a restart would read *)
Definition persisted_of (secret : string) c : persisted :=
  mkPersisted (tool_store c) (tool_version_store c) None (artifact_files c) secret.

(** A restart now would succeed and give the tenant the tools it has. *)
Definition in_sync (secret : string) c (t : string) : Prop :=
  stores_ok (persisted_of secret c) ∧
  ∀ n, restored (persisted_of secret c) t n = Ok (od_get n (tool_registry c)).

(** *** Changes to the versions of one tool *)

Definition same_tool (m m' : versions) (tn : string * string) : Prop :=
  active_version m !! tn = active_version m' !! tn ∧
  ∀ v, active_version m !! tn = Some v → uploaded m !! (tn, v) = uploaded m' !! (tn, v).

Lemma spec_active_key m s t n r :
  stores m s → spec_active m t n = Some r →
  vr_tenant_id r = t ∧ vr_tool_name r = n ∧ active_version m !! (t, n) = Some (vr_version r).
Proof.
  intros Hs. unfold spec_active, spec_get. destruct (active_version m !! (t, n)) as [v|] eqn:E; [|done].
  cbn. intros (r' & Hr' & ->)%fmap_Some_1. pose proof (vs_keys _ _ Hs _ _ Hr') as [= E1 E2 E3].
  cbn. by rewrite E1, E2, E3.
Qed.

Lemma same_tool_active m s m' t n :
  stores m s → same_tool m m' (t, n) → spec_active m' t n = spec_active m t n.
Proof.
  intros Hs [Ha Hu]. unfold spec_active, spec_get. rewrite <- Ha.
  destruct (active_version m !! (t, n)) as [v|] eqn:E; [|done]. cbn. rewrite <- (Hu v) by done.
  destruct (uploaded m !! (t, n, v)) as [r|] eqn:Er; [|done]. cbn. f_equal.
  pose proof (vs_keys _ _ Hs _ _ Er) as [= H1 H2 H3]. unfold present. f_equal.
  by rewrite H1, H2, <- Ha, E.
Qed.

Lemma same_tool_step m (c : version_command) tn :
  match c with
  | Upload r => active_version m !! tn ≠ Some (vr_version r) ∨ tn ≠ (vr_tenant_id r, vr_tool_name r)
  | Activate t n _ | Clear t n | Delete t n _ => tn ≠ (t, n)
  end →
  same_tool m (spec_versions m c) tn.
Proof.
  destruct c as [r|t n v|t n|t n v]; intros Hne; split; cbn [uploaded active_version spec_versions].
  - unfold withdraw. case_decide as Ha; [|done]. cbn in Ha.
    destruct (decide (tn = (vr_tenant_id r, vr_tool_name r))) as [->|Hn]; [|by rewrite lookup_delete_ne].
    destruct Hne as [Hne|Hne]; done.
  - intros v Hv. rewrite lookup_insert_ne; [done|]. unfold key_of_version. intros [= <- <-].
    by destruct Hne.
  - case_decide; [by rewrite lookup_insert_ne|by rewrite lookup_delete_ne].
  - done.
  - by rewrite lookup_delete_ne.
  - done.
  - unfold withdraw. case_decide; [|done]. cbn. by rewrite lookup_delete_ne.
  - intros v' _. rewrite lookup_delete_ne; [done|]. by intros [= <- <-].
Qed.

Lemma restored_version_reads m s fs secret t n :
  stores m s →
  restored_version fs secret (Some s) t n =
    match spec_active m t n with None => Ok None | Some r => loaded fs secret r end.
Proof.
  intros Hs. unfold HydrationFacts.restored_version. by rewrite (active_reads Hs).
Qed.

(** *** Bringing the registry up to date *)

Lemma sync_spec c m s t n secret c' :
  stores m s → sync c s t n secret = Ok c' →
  (∃ registry, c' = with_registry c registry ∧
     ∀ n', n' ≠ n → od_get n' registry = od_get n' (tool_registry c)) ∧
  match spec_active m t n with
  | None => od_get n (tool_registry c') = None
  | Some r => ∃ d, descriptor_of (artifact_files c) r secret = Ok d ∧
      od_get n (tool_registry c') = Some d
  end.
Proof.
  intros Hs. unfold sync_active_tool_descriptor. rewrite (active_reads Hs) by done. cbn [res_bind].
  destruct (spec_active m t n) as [r|] eqn:Er.
  - destruct (descriptor_of (artifact_files c) r secret) as [d|] eqn:Ed; [|done].
    cbn [res_bind]. intros [= <-]. apply spec_active_key with (s := s) in Er as (_ & <- & _); [|done].
    unfold ToolRegistry.register. rewrite (descriptor_name _ _ _ _ _ _ _ _ _ _ Ed). split.
    + eexists. split; [done|]. intros n' Hn. by rewrite od_get_set_ne.
    + exists d. split; [done|]. cbn. by rewrite od_get_set.
  - unfold ToolRegistry.unregister. destruct (od_mem n (tool_registry c)) eqn:Em; intros [= <-].
    + split; [|cbn; by rewrite od_get_pop]. eexists. split; [done|]. intros n' Hn.
      by rewrite od_get_pop_ne.
    + apply od_mem_false in Em. split; [|done]. exists (tool_registry c). split; [|done].
      by destruct c.
Qed.

(** After a change to the versions of one tool, synchronising the registry suffices, except that a
    tool of the tool store that no active version covers any more would come back. *)
Lemma resync c t n m s m' s' secret c' :
  in_sync secret c t → tool_version_store c = Some s → stores m s → stores m' s' →
  (∀ n', n' ≠ n → same_tool m m' (t, n')) →
  sync (with_versions c s') s' t n secret = Ok c' →
  (spec_active m' t n = None → restored_tool (tool_store c) t n = Ok None) →
  in_sync secret c' t.
Proof.
  intros [[Hok1 Hok2] Hsync] Hvs Hs Hs' Hsame Hc' Hnone.
  destruct (sync_spec _ _ _ _ _ _ _ Hs' Hc') as [(registry & -> & Hother) Hn].
  cbn [tool_registry with_registry with_versions artifact_files] in *.
  split.
  { split; [exact Hok1|]. cbn. intros ? [= <-]. by exists m'. }
  intros n'. specialize (Hsync n'). revert Hsync. unfold HydrationFacts.restored. cbn.
  rewrite Hvs, !(restored_version_reads m s) by done.
  rewrite (active_reads Hs') by done. intros Hsync.
  destruct (decide (n' = n)) as [->|Hne].
  - destruct (HydrationFacts.restored_tool import_attr (tool_store c) t n) as [d|] eqn:Ed; [|done].
    cbn [res_bind] in *. destruct (spec_active m' t n) as [r|].
    + destruct Hn as (d' & Hd' & ->). unfold HydrationFacts.loaded. by rewrite Hd'.
    + rewrite Hn. cbn. by injection (Hnone eq_refl) as ->.
  - rewrite (same_tool_active m s) by (by try apply Hsame). by rewrite Hother.
Qed.

(** *** The routes *)

Notation register_tool := (register_tool import_attr (L := L)).
Notation deactivate_tool_version :=
  (deactivate_tool_version float_repr sha256_hex hmac_sha256_hex import_attr exec_attr parse_source scan
     (L := L)).
Notation rollback_tool_version :=
  (rollback_tool_version float_repr sha256_hex hmac_sha256_hex import_attr exec_attr parse_source scan
     (L := L)).
Notation revoke_tool_package_version :=
  (revoke_tool_package_version float_repr sha256_hex hmac_sha256_hex import_attr exec_attr parse_source
     scan (L := L)).
Notation upload_tool_package :=
  (upload_tool_package float_repr sha256_hex hmac_sha256_hex import_attr exec_attr parse_source scan
     (L := L)).

(** The request failed in the middle: an exception was not caught. *)
Definition broke_off {A} (h : http A) : Prop := ∃ m, h = HTTPException 500 m.

Definition active_of c (t n : string) : option ToolVersionRecord :=
  match tool_version_store c with
  | Some s =>
      match SQLiteToolVersionStore.get_active_tool_version scan s t n with Ok r => r | Raise _ => None end
  | None => None
  end.

Lemma in_sync_versions secret c t s :
  in_sync secret c t → tool_version_store c = Some s →
  ∃ m, stores m s ∧ ∀ n, active_of c t n = spec_active m t n.
Proof.
  intros [[_ Hv] _] Hs. destruct (Hv s Hs) as [m Hm]. exists m. split; [done|]. intros n.
  unfold active_of. by rewrite Hs, (active_reads Hm).
Qed.

(** Only the parts that [in_sync] reads matter. *)
Lemma in_sync_limiter secret c t l : in_sync secret (with_limiter c l) t ↔ in_sync secret c t.
Proof. done. Qed.

Lemma register_in_sync secret c t b h c' :
  in_sync secret c t → is_Some (tool_store c) → register_tool c t b = (h, c') → in_sync secret c' t.
Proof.
  intros Hi Ht. unfold ToolCatalog.register_tool. case_bool_decide as Hn; [by intros [= _ <-]|].
  destruct (resolve_handler import_attr (rq_handler_ref b)) as [hd|e] eqn:Eh; cbn [value_error_as].
  2:{ destruct e; by intros [= _ <-]. }
  intros [= _ <-]. destruct Ht as [s Hs]. destruct Hi as [[Hok1 Hok2] Hi].
  rewrite Hs. cbn [fmap option_fmap option_map].
  set (d := registered_descriptor b hd). set (r := persisted_tool t (rq_handler_ref b) d).
  assert (od_get (rq_name b) (tool_registry c) = None) as Hfree.
  { apply od_get_None. unfold ToolRegistry.list_tools, sorted_strings in Hn. by rewrite elem_of_sort_by in Hn. }
  split.
  { split; [|exact Hok2]. cbn. intros ? [= <-]. apply od_wf_set. by apply Hok1. }
  intros n. specialize (Hi n). revert Hi. unfold HydrationFacts.restored. cbn. rewrite Hs.
  unfold HydrationFacts.restored_tool. cbn [mbind option_bind].
  unfold SQLiteToolStore.save_tool, upsert, ToolRegistry.register. fold d. cbn [pt_name r persisted_tool].
  change (ToolRegistry.name d) with (rq_name b).
  destruct (decide (n = rq_name b)) as [->|Hne].
  - rewrite !od_get_set, Hfree.
    assert (tool_record_to_descriptor import_attr (SQLiteToolStore.record_of
      ((t, rq_name b), SQLiteToolStore.mkRow (pt_handler_ref r) (SQLiteToolStore.data_of r))) = Ok (Some d)) as ->.
    { assert (SQLiteToolStore.record_of ((t, rq_name b), SQLiteToolStore.mkRow (pt_handler_ref r)
        (SQLiteToolStore.data_of r)) = r) as -> by exact (decode_encode (Codec := tool_codec) r).
      unfold tool_record_to_descriptor, resolve_handler_ref. cbn [pt_handler_ref r persisted_tool].
      unfold resolve_handler in Eh. destruct (rsplit_colon (rq_handler_ref b)) as [[mo fn]|]; [|done].
      destruct (import_attr mo fn); try done. injection Eh as ->. cbn.
      by rewrite (proj2 (RiskTier_of_value _ (rq_risk_tier b)) eq_refl). }
    intros Hi. destruct (match od_get (t, rq_name b) s with Some _ => _ | None => _ end) as [x|]; [|done].
    cbn [res_bind] in *. destruct (HydrationFacts.restored_version _ _ _ _ _ _ _ _ _ _ _ _) as [v|]; [|done].
    cbn [res_bind] in *. injection Hi as Hi. by destruct v.
  - rewrite !od_get_set_ne by naive_solver. done.
Qed.

Lemma unregister_in_sync secret c t n h c' :
  in_sync secret c t → active_of c t n = None → unregister_tool c t n = (h, c') → in_sync secret c' t.
Proof.
  intros Hi Ha. unfold unregister_tool, ToolRegistry.unregister.
  destruct (od_mem n (tool_registry c)); [|by intros [= _ <-]]. intros [= _ <-].
  assert (restored_version (artifact_files c) secret (tool_version_store c) t n = Ok None) as Hv.
  { destruct (tool_version_store c) as [s|] eqn:Es; [|done].
    destruct (in_sync_versions _ _ _ _ Hi Es) as (m & Hm & Hma). rewrite (restored_version_reads m) by done.
    by rewrite <- Hma, Ha. }
  destruct Hi as [[Hok1 Hok2] Hi]. split.
  { split; [|exact Hok2]. cbn. intros s'. destruct (tool_store c) as [s|] eqn:Es; [|done].
    intros [= <-]. apply od_wf_pop. by apply (Hok1 s). }
  intros n'. specialize (Hi n'). revert Hi. unfold HydrationFacts.restored. cbn.
  destruct (decide (n' = n)) as [->|Hne].
  - rewrite Hv, od_get_pop. intros Hi. unfold HydrationFacts.restored_tool in *.
    destruct (tool_store c) as [s|]; [|done]. cbn. unfold SQLiteToolStore.delete_tool, delete_row.
    by rewrite od_get_pop.
  - rewrite od_get_pop_ne by done. unfold HydrationFacts.restored_tool.
    destruct (tool_store c) as [s|]; [|done]. cbn. unfold SQLiteToolStore.delete_tool, delete_row.
    by rewrite od_get_pop_ne by naive_solver.
Qed.

(** *** Governance of versions *)

Lemma deactivate_in_sync settings c t n v h c' audits :
  let secret := artifact_signing_secret settings in
  in_sync secret c t → restored_tool (tool_store c) t n = Ok None →
  deactivate_tool_version settings c t n v = (h, c', audits) → broke_off h ∨ in_sync secret c' t.
Proof.
  intros secret Hi Hnone. unfold ToolCatalog.deactivate_tool_version.
  destruct (tool_version_store c) as [s|] eqn:Es; [|intros [= _ <- _]; by right].
  destruct (in_sync_versions _ _ _ _ Hi Es) as (m & Hm & _).
  rewrite (active_reads Hm) by done. destruct (spec_active m t n) as [r|]; [|intros [= _ <- _]; by right].
  destruct (negb _); [intros [= _ <- _]; by right|]. fold secret.
  destruct (sync (with_versions c _) _ t n secret) as [c1|e] eqn:Ec.
  2:{ intros [= <- _ _]. left. by eexists. }
  intros [= _ <- _]. right.
  refine (resync c t n m s _ _ secret c1 Hi Es Hm (stores_clear m s t n Hm) _ Ec (λ _, Hnone)).
  intros n' Hn'. apply same_tool_step. congruence.
Qed.

Lemma rollback_in_sync settings c t n v h c' audits :
  let secret := artifact_signing_secret settings in
  in_sync secret c t →
  rollback_tool_version settings c t n v = (h, c', audits) → broke_off h ∨ in_sync secret c' t.
Proof.
  intros secret Hi. unfold ToolCatalog.rollback_tool_version. fold secret.
  destruct (tool_version_store c) as [s|] eqn:Es; [|intros [= _ <- _]; by right].
  destruct (in_sync_versions _ _ _ _ Hi Es) as (m & Hm & _).
  rewrite (get_reads Hm). destruct (spec_get m (t, n, v)) as [target|] eqn:Et; [|intros [= _ <- _]; by right].
  case_bool_decide; [intros [= _ <- _]; by right|].
  destruct (value_error_as 422 _); [|intros [= _ <- _]; by right].
  destruct (sync (with_versions c _) _ t n secret) as [c1|e] eqn:Ec.
  2:{ intros [= <- _ _]. left. by eexists. }
  intros [= _ <- _]. right.
  refine (resync c t n m s _ _ secret c1 Hi Es Hm (stores_activate m s t n v Hm) _ Ec _).
  - intros n' Hn'. apply same_tool_step. congruence.
  - unfold spec_get in Et. apply fmap_Some_1 in Et as (r & Hr & _).
    unfold spec_active, spec_get. cbn. rewrite decide_True by (by rewrite Hr).
    rewrite lookup_insert_eq. cbn. by rewrite Hr.
Qed.

(** Another version of the tool is the active one. *)
Definition active_elsewhere c (t n v : string) : Prop :=
  ∃ r, active_of c t n = Some r ∧ vr_version r ≠ v.

Lemma revoke_in_sync settings c t n v force h c' audits :
  let secret := artifact_signing_secret settings in
  in_sync secret c t → active_elsewhere c t n v ∨ restored_tool (tool_store c) t n = Ok None →
  revoke_tool_package_version settings c t n v force = (h, c', audits) →
  broke_off h ∨ in_sync secret c' t.
Proof.
  intros secret Hi Hcond. unfold ToolCatalog.revoke_tool_package_version. fold secret.
  destruct (tool_version_store c) as [s|] eqn:Es; [|intros [= _ <- _]; by right].
  destruct (in_sync_versions _ _ _ _ Hi Es) as (m & Hm & Ha).
  rewrite (get_reads Hm). destruct (spec_get m (t, n, v)) as [r|] eqn:Er; [|intros [= _ <- _]; by right].
  destruct (vr_active r && negb force); [intros [= _ <- _]; by right|].
  set (clear := vr_active r && force).
  assert (∃ m', stores m' (if clear then SQLiteToolVersionStore.clear_active_tool_version s t n else s) ∧
    (∀ n', n' ≠ n → same_tool m m' (t, n')) ∧
    (active_elsewhere c t n v → m' = m)) as (m1 & Hm1 & Hsame & Helse).
  { unfold clear. destruct (vr_active r) eqn:Ev, force; cbn [andb];
      try by exists m.
    exists (spec_versions m (Clear t n)). split; [by apply stores_clear|]. split.
    - intros n' Hn'. apply same_tool_step. congruence.
    - intros (r' & Hr' & Hv). rewrite Ha in Hr'. exfalso. apply Hv.
      apply spec_active_key with (s := s) in Hr' as (_ & _ & Hact); [|done].
      unfold spec_get in Er. apply fmap_Some_1 in Er as (r0 & Hr0 & ->).
      pose proof (vs_keys _ _ Hm _ _ Hr0) as [= E1 E2 E3]. unfold present in Ev. cbn in Ev.
      rewrite E1, E2, E3, Hact in Ev. apply bool_decide_eq_true in Ev. congruence. }
  destruct (sync (with_versions c _) _ t n secret) as [c1|e] eqn:Ec.
  2:{ intros [= <- _ _]. left. by eexists. }
  assert (in_sync secret c1 t) as Hi1.
  { refine (resync c t n m s _ _ secret c1 Hi Es Hm (stores_delete m1 _ t n v Hm1) _ Ec _).
    - intros n' Hn'. destruct (Hsame n' Hn') as [E1 E2].
      destruct (same_tool_step m1 (Delete t n v) (t, n')) as [F1 F2]; [congruence|].
      split; [by rewrite E1|]. intros v' Hv'. rewrite E2 by done. apply F2. by rewrite <- E1.
    - destruct Hcond as [He|]; [|done]. rewrite (Helse He). destruct He as (r' & Hr' & Hv).
      rewrite Ha in Hr'. pose proof (spec_active_key _ _ _ _ _ Hm Hr') as (_ & _ & Hact).
      revert Hr'. unfold spec_active, spec_get. cbn. unfold withdraw. cbn. rewrite Hact.
      rewrite decide_False by (intros [= ?]; done). rewrite Hact. cbn.
      rewrite lookup_delete_ne by congruence.
      by destruct (uploaded m !! (t, n, vr_version r')). }
  destruct (SQLiteToolVersionStore.get_active_tool_version scan _ t n) as [a|e]; intros [= _ <- _]; by right.
Qed.

(** *** Uploads *)

(** A version's files *)
Definition file_of (r : ToolVersionRecord) (path : string) : Prop :=
  path = metadata_text float_repr r manifest_path_key ∨ path = metadata_text float_repr r handler_path_key.

Lemma descriptor_same_files fs fs' r secret :
  (∀ path, file_of r path → od_get path fs' = od_get path fs) →
  descriptor_of fs' r secret = descriptor_of fs r secret.
Proof.
  intros Hfs. unfold descriptor_from_tool_version, version_handler, verify_artifact_bundle_integrity,
    resolve_artifact_handler, compute_bundle_hash_from_files, read_text.
  by rewrite !(Hfs (metadata_text float_repr r manifest_path_key)),
    !(Hfs (metadata_text float_repr r handler_path_key)) by (unfold file_of; auto).
Qed.

Lemma in_sync_files secret c t fs :
  in_sync secret c t →
  (∀ n r path, active_of c t n = Some r → file_of r path → od_get path fs = od_get path (artifact_files c)) →
  in_sync secret (with_files c fs) t.
Proof.
  intros Hi Hfs. pose proof Hi as [Hok Hn]. split; [exact Hok|]. intros n. rewrite <- Hn.
  unfold HydrationFacts.restored. cbn. apply res_bind_ext. intros d.
  f_equal.
  destruct (tool_version_store c) as [s|] eqn:Es; [|done].
  destruct (in_sync_versions _ _ _ _ Hi Es) as (m & Hm & Ha).
  rewrite !(restored_version_reads m) by done. specialize (Hfs n). rewrite Ha in Hfs.
  destruct (spec_active m t n) as [r|]; [|done]. unfold HydrationFacts.loaded.
  rewrite (descriptor_same_files (artifact_files c) fs); [done|]. intros path. by apply Hfs.
Qed.

Lemma in_sync_save secret c t s r :
  in_sync secret c t → tool_version_store c = Some s → vr_active r = false →
  (vr_tenant_id r = t → active_of c t (vr_tool_name r) = None ∨
     active_elsewhere c t (vr_tool_name r) (vr_version r)) →
  in_sync secret (with_versions c (SQLiteToolVersionStore.save_tool_version s r)) t.
Proof.
  intros Hi Es Hr Hother. destruct (in_sync_versions _ _ _ _ Hi Es) as (m & Hm & Ha).
  pose proof (stores_upload m s r Hr Hm) as Hm'. pose proof Hi as [[Hok1 Hok2] Hn].
  split. { split; [exact Hok1|]. cbn. intros ? [= <-]. by eexists. }
  intros n. rewrite <- Hn. unfold HydrationFacts.restored. cbn. apply res_bind_ext. intros d.
  f_equal.
  rewrite Es, (restored_version_reads m) by done. rewrite (active_reads Hm') by done.
  rewrite (same_tool_active m s); [done|done|]. apply same_tool_step.
  destruct (decide ((t, n) = (vr_tenant_id r, vr_tool_name r))) as [E|]; [|by right].
  injection E as Et En. left. specialize (Hother (eq_sym Et)).
  rewrite Et, En. intros Hact. unfold active_elsewhere in Hother. rewrite Ha in Hother.
  assert (∃ r', spec_active m t (vr_tool_name r) = Some r' ∧ vr_version r' = vr_version r) as (r' & Hr' & Hv).
  { destruct (vs_active _ _ Hm _ _ Hact) as [r0 Hr0]. unfold spec_active, spec_get.
    rewrite Et, Hact. cbn. rewrite Hr0. eexists. split; [done|].
    by pose proof (vs_keys _ _ Hm _ _ Hr0) as [= _ _ ?]. }
  rewrite Hr' in Hother. destruct Hother as [|(r2 & [= <-] & ?)]; done.
Qed.

Lemma activate_upload_in_sync c s secret r h c' :
  in_sync secret c (vr_tenant_id r) → tool_version_store c = Some s →
  (∃ w, od_get (key_of_version r) s = Some w) →
  activate_upload float_repr sha256_hex hmac_sha256_hex import_attr exec_attr parse_source scan
    c s secret r = (h, c') → broke_off h ∨ in_sync secret c' (vr_tenant_id r).
Proof.
  intros Hi Es [w Hw]. destruct (in_sync_versions _ _ _ _ Hi Es) as (m & Hm & Ha).
  unfold activate_upload. case_bool_decide; [intros [= _ <-]; by right|].
  destruct (value_error_as 422 _); [|intros [= _ <-]; by right].
  destruct (sync (with_versions c _) _ _ _ secret) as [c1|e] eqn:Ec.
  2:{ intros [= <- _]. left. by eexists. }
  assert (in_sync secret c1 (vr_tenant_id r)) as Hi1.
  { refine (resync c _ _ m s _ _ secret c1 Hi Es Hm
      (stores_activate m s (vr_tenant_id r) (vr_tool_name r) (vr_version r) Hm) _ Ec _).
    - intros n' Hn'. apply same_tool_step. congruence.
    - assert (is_Some (uploaded m !! key_of_version r)) as [r0 Hr0].
      { rewrite (vs_rows _ _ Hm) in Hw. by apply fmap_Some_1 in Hw as (r0 & -> & _). }
      unfold key_of_version in Hr0. unfold spec_active, spec_get. cbn.
      rewrite decide_True by (by rewrite Hr0). rewrite lookup_insert_eq. cbn. by rewrite Hr0. }
  destruct (SQLiteToolVersionStore.get_tool_version _ _ _ _) as [[]|]; intros [= _ <-]; by right.
Qed.

(** The files that an upload writes *)
Definition written c (t : string) (b : ToolVersionUploadRequest) (path : string) : Prop :=
  match artifact_root c with
  | Some root =>
      let p := bundle_paths root t (mf_tool_name (up_manifest b)) (mf_version (up_manifest b)) in
      path = handler_path p ∨ path = manifest_path p
  | None => False
  end.

(** An upload leaves the active versions alone: neither the version itself nor its files are in use. *)
Definition fresh_upload c (t : string) (b : ToolVersionUploadRequest) : Prop :=
  (active_of c t (mf_tool_name (up_manifest b)) = None ∨
   active_elsewhere c t (mf_tool_name (up_manifest b)) (mf_version (up_manifest b))) ∧
  ∀ n r path, active_of c t n = Some r → file_of r path → ¬ written c t b path.

Lemma normalized_name m :
  mf_tool_name (normalized_manifest m) = mf_tool_name m ∧ mf_version (normalized_manifest m) = mf_version m ∧
  mf_requirements (normalized_manifest m) = mf_requirements m ∧
  mf_entry_file (normalized_manifest m) = mf_entry_file m.
Proof. unfold normalized_manifest. by destruct (normalize_manifest_metadata _). Qed.

Lemma store_bundle_spec c secret t b yaml handler stored c' :
  store_bundle sha256_hex hmac_sha256_hex c secret t yaml handler (normalized_manifest (up_manifest b))
    = (stored, c') →
  (∃ fs, c' = with_files c fs ∧
     ∀ path, ¬ written c t b path → od_get path fs = od_get path (artifact_files c)) ∧
  match stored with
  | Reply m => mf_tool_name m = mf_tool_name (up_manifest b) ∧ mf_version m = mf_version (up_manifest b) ∧
      mf_requirements m = mf_requirements (up_manifest b) ∧ mf_entry_file m = mf_entry_file (up_manifest b)
  | HTTPException _ _ => True
  end.
Proof.
  unfold store_bundle. destruct (normalized_name (up_manifest b)) as (En & Ev & Er & Ef).
  set (m := normalized_manifest (up_manifest b)) in *. unfold written.
  destruct (artifact_root c) as [root|] eqn:Eroot.
  2:{ intros [= <- <-]. split; [|done]. exists (artifact_files c). split; [|done]. by destruct c. }
  unfold persist_bundle. rewrite En, Ev. intros [= <- <-]. split.
  - eexists. split; [done|]. intros path Hp. rewrite !od_get_set_ne; [done|naive_solver..].
  - by destruct (value_error_as _ _).
Qed.

(** The manifest and the files that an upload stores *)
Definition store_upload (c : catalog) (secret t : string) (b : ToolVersionUploadRequest)
    : http ToolPackageManifest * catalog :=
  let '(yaml, handler) := provided_sources b in
  let m := normalized_manifest (up_manifest b) in
  if py_bool handler then store_bundle sha256_hex hmac_sha256_hex c secret t yaml handler m else (Reply m, c).

Lemma store_upload_limiter c l secret t b :
  store_upload (with_limiter c l) secret t b =
    ((store_upload c secret t b).1, with_limiter (store_upload c secret t b).2 l).
Proof.
  unfold store_upload. destruct (provided_sources b) as [yaml handler]. destruct (py_bool handler); [|done].
  unfold store_bundle. cbn [artifact_root with_limiter artifact_files]. destruct (artifact_root c); [|done].
  by destruct (persist_bundle _ _ _ _ _ _ _).
Qed.

(** How an upload runs: it counts against the rate limit and writes its files; then it is refused,
    or its record is saved and, when asked, activated. *)
Lemma upload_cases settings c t b epoch now h c' audits s :
  let secret := artifact_signing_secret settings in
  tool_version_store c = Some s → upload_tool_package settings c t b epoch now = (h, c', audits) →
  ∃ l fs, let c2 := with_files (with_limiter c l) fs in
    (∀ path, ¬ written c t b path → od_get path fs = od_get path (artifact_files c)) ∧
    ((∃ code m, h = HTTPException code m ∧ c' = c2) ∨
     ∃ m handler,
       let r := upload_record float_repr sha256_hex parse_source settings t now b m handler in
       let s' := SQLiteToolVersionStore.save_tool_version s r in
       let c3 := with_versions c2 s' in
       (mf_tool_name m = mf_tool_name (up_manifest b) ∧ mf_version m = mf_version (up_manifest b) ∧
        mf_requirements m = mf_requirements (up_manifest b) ∧ mf_entry_file m = mf_entry_file (up_manifest b)) ∧
       handler = (provided_sources b).2 ∧ store_upload (with_limiter c l) secret t b = (Reply m, c2) ∧
       (if up_activate b
        then activate_upload float_repr sha256_hex hmac_sha256_hex import_attr exec_attr parse_source scan
               c3 s' secret r = (h, c')
        else c' = c3 ∧ h = or_500 (to_validation_response float_repr sha256_hex hmac_sha256_hex fs r secret))).
Proof.
  intros secret Es. unfold ToolCatalog.upload_tool_package. fold secret. rewrite Es.
  destruct (match upload_rate_limiter c with Some _ => _ | None => _ end) as [allowed c0] eqn:E0.
  assert (∃ l, c0 = with_limiter c l) as [l ->].
  { revert E0. destruct (upload_rate_limiter c) as [l|].
    - destruct (fw_allow l epoch t) as [[? ?] l']. intros [= _ <-]. by eexists.
    - intros [= _ <-]. exists (upload_rate_limiter c). by destruct c. }
  clear E0. destruct allowed; cbn [negb].
  2:{ intros [= <- <- _]. exists l, (artifact_files c). split; [done|]. left. eexists _, _.
      split; [done|]. by destruct c. }
  unfold store_upload. destruct (provided_sources b) as [yaml handler].
  destruct (if py_bool handler then _ else _) as [stored c1] eqn:E1. pose proof E1 as E2.
  assert (∃ fs, c1 = with_files (with_limiter c l) fs ∧
    (∀ path, ¬ written c t b path → od_get path fs = od_get path (artifact_files c)) ∧
    match stored with
    | Reply m => mf_tool_name m = mf_tool_name (up_manifest b) ∧ mf_version m = mf_version (up_manifest b) ∧
        mf_requirements m = mf_requirements (up_manifest b) ∧ mf_entry_file m = mf_entry_file (up_manifest b)
    | HTTPException _ _ => True
    end) as (fs & -> & Hfs & Hnames).
  { destruct (py_bool handler).
    - apply store_bundle_spec in E1 as [(fs & -> & Hfs) Hn]. by exists fs.
    - injection E1 as <- <-. exists (artifact_files c). split; [by destruct c|]. split; [done|].
      apply normalized_name. }
  intros Hrest. exists l, fs. split; [exact Hfs|]. destruct stored as [m|code m].
  2:{ injection Hrest as <- <- _. left. by eexists _, _. }
  right. exists m, handler. split; [exact Hnames|]. split; [done|]. split; [exact E2|]. revert Hrest.
  destruct (up_activate b); [|by intros [= <- <- _]].
  destruct (activate_upload _ _ _ _ _ _ _ _ _ _ _) as [reply c3]. by intros [= <- <- _].
Qed.

Lemma upload_in_sync settings c t b epoch now h c' audits :
  let secret := artifact_signing_secret settings in
  in_sync secret c t → fresh_upload c t b →
  upload_tool_package settings c t b epoch now = (h, c', audits) → broke_off h ∨ in_sync secret c' t.
Proof.
  intros secret Hi [Hfresh Hfiles] Hup. destruct (tool_version_store c) as [s|] eqn:Es.
  2:{ unfold ToolCatalog.upload_tool_package in Hup. rewrite Es in Hup. injection Hup as _ <- _. by right. }
  destruct (upload_cases _ _ _ _ _ _ _ _ _ s Es Hup) as (l & fs & Hfs & Hcases).
  set (c2 := with_files (with_limiter c l) fs) in *.
  assert (in_sync secret c2 t) as Hi2.
  { apply in_sync_files; [done|]. intros n r path Ha Hf. apply Hfs. by apply (Hfiles n r). }
  destruct Hcases as [(code & m & _ & ->)|(m & handler & (Hn & Hv & _) & _ & _ & Hrun)]; [by right|].
  set (r := upload_record _ _ _ _ _ _ _ _ _) in *.
  assert (vr_tenant_id r = t ∧ vr_tool_name r = mf_tool_name (up_manifest b) ∧
    vr_version r = mf_version (up_manifest b)) as (Hrt & Hrn & Hrv) by done.
  assert (in_sync secret (with_versions c2 (SQLiteToolVersionStore.save_tool_version s r)) t) as Hi3.
  { apply (in_sync_save secret c2 t s r Hi2 Es eq_refl). intros _. by rewrite Hrn, Hrv. }
  destruct (up_activate b); [|destruct Hrun as [-> _]; by right].
  rewrite <- Hrt in Hi3 |- *. refine (activate_upload_in_sync _ _ _ _ _ _ Hi3 eq_refl _ Hrun).
  eexists. unfold SQLiteToolVersionStore.save_tool_version, upsert. apply od_get_set.
Qed.

Lemma response_active fs r secret resp :
  to_validation_response float_repr sha256_hex hmac_sha256_hex fs r secret = Ok resp →
  ta_active resp = vr_active r.
Proof.
  unfold to_validation_response. destruct (integrity_of _ _ _ _ _ _) as [[status message]|]; [|done].
  by intros [= <-].
Qed.

Lemma or_500_reply {A} (r : res A) a : or_500 r = Reply a → r = Ok a.
Proof. destruct r; [|done]. by intros [= ->]. Qed.

(** The size an upload is judged by: the declared one, or that of its source when none is declared *)
Definition upload_size (b : ToolVersionUploadRequest) : Z :=
  let handler := (provided_sources b).2 in
  if (up_artifact_size_bytes b <=? 0) && py_bool handler then py_len handler else up_artifact_size_bytes b.

Definition activated (r : ToolVersionRecord) : ToolVersionRecord :=
  mkToolVersion (vr_tenant_id r) (vr_tool_name r) (vr_version r) (vr_manifest r) (vr_validation r)
    (vr_package_ref r) true (vr_created_at r).

(** Activating what was uploaded, when the answer says that it is active *)
Lemma activate_upload_active c3 m s0 r secret resp c' :
  let s := SQLiteToolVersionStore.save_tool_version s0 r in
  stores m s0 → vr_active r = false → is_Some (vr_validation r) →
  (∀ fs, or_500 (to_validation_response float_repr sha256_hex hmac_sha256_hex fs r secret) ≠ Reply resp) →
  activate_upload float_repr sha256_hex hmac_sha256_hex import_attr exec_attr parse_source scan
    c3 s secret r = (Reply resp, c') →
  tv_state <$> vr_validation r ≠ Some INVALID ∧ artifact_files c' = artifact_files c3 ∧
  to_validation_response float_repr sha256_hex hmac_sha256_hex (artifact_files c') (activated r) secret = Ok resp ∧
  (∃ s', tool_version_store c' = Some s' ∧
     SQLiteToolVersionStore.get_active_tool_version scan s' (vr_tenant_id r) (vr_tool_name r)
       = Ok (Some (activated r))) ∧
  (∃ d, descriptor_of (artifact_files c') (activated r) secret = Ok d ∧
     od_get (vr_tool_name r) (tool_registry c') = Some d) ∧
  ∀ n, n ≠ vr_tool_name r → od_get n (tool_registry c') = od_get n (tool_registry c3).
Proof.
  intros s Hm Hr [v Hval] Hinactive. unfold activate_upload. case_bool_decide as Hstate.
  { intros [= E _]. by destruct (Hinactive _ E). }
  destruct (value_error_as 422 _) as [d0|]; [|done].
  pose proof (stores_activate _ _ (vr_tenant_id r) (vr_tool_name r) (vr_version r) (stores_upload m s0 r Hr Hm)) as Hm'.
  cbn [version_step] in Hm'. fold s in Hm'. set (s2 := SQLiteToolVersionStore.set_active_tool_version _ _ _ _) in *.
  destruct (sync _ _ _ _ _) as [c4|] eqn:Ec; [|done].
  destruct (sync_spec _ _ _ _ _ _ _ Hm' Ec) as [(registry & -> & Hother) Hd].
  set (m' := spec_versions _ _) in *.
  assert (active_version m' !! (vr_tenant_id r, vr_tool_name r) = Some (vr_version r) ∧
          uploaded m' !! key_of_version r = Some r) as [Hact Hup].
  { subst m'. cbn [spec_versions uploaded active_version]. fold (key_of_version r).
    rewrite !lookup_insert_eq, decide_True by done. by rewrite lookup_insert_eq. }
  assert (present m' r = activated r) as Hpres.
  { unfold present, activated. by rewrite Hact, bool_decide_true, Hval by done. }
  assert (spec_get m' (key_of_version r) = Some (activated r)) as Hget
    by (unfold spec_get; rewrite Hup; exact (f_equal Some Hpres)).
  assert (spec_active m' (vr_tenant_id r) (vr_tool_name r) = Some (activated r)) as Hspec
    by (unfold spec_active; rewrite Hact; exact Hget).
  rewrite Hspec in Hd. destruct Hd as (d & Hd & Hreg).
  rewrite (get_reads Hm'). unfold key_of_version in Hget. rewrite Hget.
  cbn [artifact_files with_registry with_versions tool_registry tool_version_store] in *.
  intros [= Hresp <-]. cbn [artifact_files with_registry with_versions tool_registry tool_version_store].
  split_and!; [done|done|by apply or_500_reply| |by exists d|done].
  exists s2. split; [done|]. by rewrite (active_reads Hm'), Hspec.
Qed.

(** C22: An upload that is answered as active was asked to be, satisfies the package policy at its declared size
    (or, when none is declared, at the size of its source) and names a Python file.  The stored record of this very
    upload, with the manifest and the files that it stored, is then the active version and the one the answer shows,
    and the tool under its name is what that record loads to; the other tools stay as they were. *)
Theorem activated_upload_checked settings c t b epoch now resp c' audits m s :
  tool_version_store c = Some s → stores m s →
  upload_tool_package settings c t b epoch now = (Reply resp, c', audits) → ta_active resp = true →
  let secret := artifact_signing_secret settings in
  let name := mf_tool_name (up_manifest b) in
  up_activate b = true ∧
  package_ok (up_manifest b) (up_package_ref b) (upload_size b) (upload_limits settings) ∧
  endswith (mf_entry_file (up_manifest b)) ".py" = true ∧
  ∃ mf c0 s' d,
    let r := activated (upload_record float_repr sha256_hex parse_source settings t now b mf (provided_sources b).2) in
    store_upload c secret t b = (Reply mf, c0) ∧ artifact_files c' = artifact_files c0 ∧
    vr_tenant_id r = t ∧ vr_tool_name r = name ∧ vr_version r = mf_version (up_manifest b) ∧
    tool_version_store c' = Some s' ∧
    SQLiteToolVersionStore.get_active_tool_version scan s' t name = Ok (Some r) ∧
    to_validation_response float_repr sha256_hex hmac_sha256_hex (artifact_files c') r secret = Ok resp ∧
    descriptor_of (artifact_files c') r secret = Ok d ∧ od_get name (tool_registry c') = Some d ∧
    ∀ n, n ≠ name → od_get n (tool_registry c') = od_get n (tool_registry c).
Proof.
  intros Es Hm Hup Hact secret name. destruct (upload_cases _ _ _ _ _ _ _ _ _ s Es Hup) as (l & fs & _ & Hcases).
  destruct Hcases as [(code & msg & [=] & _)|(mf & handler & (Hn & Hv & Hreq & Hentry) & Hh & Hstored & Hrun)].
  set (r := upload_record _ _ _ _ _ _ _ _ _) in *.
  assert (∀ fs', or_500 (to_validation_response float_repr sha256_hex hmac_sha256_hex fs' r secret) ≠ Reply resp)
    as Hinactive.
  { intros fs' E%or_500_reply%response_active. by rewrite Hact in E. }
  destruct (up_activate b); [|destruct Hrun as [_ E]; by destruct (Hinactive _ (eq_sym E))].
  split; [done|].
  destruct (activate_upload_active _ m s r _ _ _ Hm eq_refl ltac:(by eexists) Hinactive Hrun)
    as (Hstate & Hfiles & Hresp & (s' & Hs' & Hactive) & (d & Hd & Hreg) & Hother).
  assert (tv_errors (validation_for_manifest float_repr sha256_hex parse_source mf handler) = [] ∧
    pk_errors (validate_tool_package_upload mf (up_package_ref b) (upload_size b) (upload_limits settings)) = [])
    as [Hve Hpe].
  { unfold r, upload_record in Hstate. cbn [vr_validation] in Hstate. rewrite Hh in Hstate |- *.
    fold (upload_size b) in Hstate. case_bool_decide as Herr; [|by destruct Hstate]. by apply app_nil in Herr. }
  split; [|split].
  - assert (package_ok mf (up_package_ref b) (upload_size b) (upload_limits settings)) as Hok
      by (by apply package_errors_nil).
    unfold package_ok in *. by rewrite <- Hreq.
  - unfold validation_for_manifest in Hve. rewrite <- Hentry.
    destruct (match parse_sandbox_limits _ with Ok _ => _ | Raise _ => _ end) as [le lw].
    cbn [tv_errors] in Hve. repeat apply app_nil in Hve as [? Hve].
    by destruct (endswith (mf_entry_file mf) ".py").
  - rewrite store_upload_limiter in Hstored. injection Hstored as Hmf Hc0.
    exists mf, (store_upload c secret t b).2, s', d. rewrite <- Hh. fold r.
    change (vr_tool_name r) with (mf_tool_name mf) in *. unfold name. rewrite <- Hn.
    split_and!; try done.
    + rewrite <- Hmf. apply surjective_pairing.
    + by rewrite Hfiles.
Qed.

(** *** All routes *)

Inductive route :=
| Register (b : ToolRegisterRequest)
| Unregister (name : string)
| UploadPackage (b : ToolVersionUploadRequest) (epoch : Z) (now : string)
| Deactivate (name version : string)
| Rollback (name version : string)
| Revoke (name version : string) (force : bool).

Definition run_route settings c (t : string) (r : route) : http unit * catalog :=
  let answer {A} (h : http A) : http unit := let? _ := h in Reply tt in
  match r with
  | Register b => let '(h, c) := register_tool c t b in (answer h, c)
  | Unregister n => unregister_tool c t n
  | UploadPackage b epoch now =>
      let '(h, c, _) := upload_tool_package settings c t b epoch now in (answer h, c)
  | Deactivate n v => let '(h, c, _) := deactivate_tool_version settings c t n v in (answer h, c)
  | Rollback n v => let '(h, c, _) := rollback_tool_version settings c t n v in (answer h, c)
  | Revoke n v force =>
      let '(h, c, _) := revoke_tool_package_version settings c t n v force in (answer h, c)
  end.

(** What keeps the routes from promising more than a restart restores: a registered tool needs
    the tool store; a tool is unregistered only when no version of it is active; an upload does not
    touch a version in use; and when the last active version of a name goes, no tool was registered
    under that name. *)
Definition keeps c (t : string) (r : route) : Prop :=
  match r with
  | Register _ => is_Some (tool_store c)
  | Unregister n => active_of c t n = None
  | UploadPackage b _ _ => fresh_upload c t b
  | Deactivate n _ => restored_tool (tool_store c) t n = Ok None
  | Rollback _ _ => True
  | Revoke n v _ => active_elsewhere c t n v ∨ restored_tool (tool_store c) t n = Ok None
  end.

Inductive route_step settings (t : string) : catalog → catalog → Prop :=
| route_runs c r :
    keeps c t r → ¬ broke_off (run_route settings c t r).1 →
    route_step settings t c (run_route settings c t r).2.

Lemma broke_off_answer {A} (h : http A) : broke_off h → broke_off (let? _ := h in Reply tt).
Proof. intros [m ->]. by exists m. Qed.

Lemma route_in_sync settings c t r :
  in_sync (artifact_signing_secret settings) c t → keeps c t r →
  broke_off (run_route settings c t r).1 ∨
  in_sync (artifact_signing_secret settings) (run_route settings c t r).2 t.
Proof.
  intros Hi. destruct r as [b|n|b epoch now|n v|n v|n v force]; cbn [keeps run_route]; intros Hk.
  - destruct (register_tool c t b) as [h c'] eqn:E. right. by eapply register_in_sync.
  - destruct (unregister_tool c t n) as [h c'] eqn:E. right. by eapply unregister_in_sync.
  - destruct (upload_tool_package settings c t b epoch now) as [[h c'] audits] eqn:E.
    destruct (upload_in_sync settings c t b epoch now h c' audits Hi Hk E) as [|]; [left|by right].
    by apply broke_off_answer.
  - destruct (deactivate_tool_version settings c t n v) as [[h c'] audits] eqn:E.
    destruct (deactivate_in_sync settings c t n v h c' audits Hi Hk E) as [|]; [left|by right].
    by apply broke_off_answer.
  - destruct (rollback_tool_version settings c t n v) as [[h c'] audits] eqn:E.
    destruct (rollback_in_sync settings c t n v h c' audits Hi E) as [|]; [left|by right].
    by apply broke_off_answer.
  - destruct (revoke_tool_package_version settings c t n v force) as [[h c'] audits] eqn:E.
    destruct (revoke_in_sync settings c t n v force h c' audits Hi Hk E) as [|]; [left|by right].
    by apply broke_off_answer.
Qed.

(** A catalog in which nothing was stored yet *)
Definition new_catalog (root : option string) (fs : list (string * string)) (l : option L) : catalog :=
  mkCatalog [] (Some []) (Some []) root fs l.

Lemma new_catalog_in_sync secret root fs l t : in_sync secret (new_catalog root fs l) t.
Proof.
  split.
  - split; cbn; intros s [= <-]; [apply NoDup_nil_2|exists no_versions; apply stores_nothing].
  - intros n. unfold HydrationFacts.restored. cbn [persisted_of ps_versions new_catalog tool_version_store].
    by rewrite (restored_version_reads no_versions) by apply stores_nothing.
Qed.

(** C17: While a tenant's context stays cached, however its tools were registered, uploaded,
    activated, rolled back, deactivated and revoked, a restart restores exactly the tools the tenant
    has, as long as each request kept to [keeps] and none broke off in the middle. *)
Theorem restart_restores_tools settings root fs l t c :
  rtc (route_step settings t) (new_catalog root fs l) c →
  ∃ registry,
    tenant_tools float_repr sha256_hex hmac_sha256_hex import_attr exec_attr parse_source scan
      (persisted_of (artifact_signing_secret settings) c) t [] = Ok registry ∧
    ∀ n, od_get n registry = od_get n (tool_registry c).
Proof.
  intros Hr. assert (in_sync (artifact_signing_secret settings) c t) as [Hok Hn].
  { revert Hr. generalize (new_catalog_in_sync (artifact_signing_secret settings) root fs l t).
    generalize (new_catalog root fs l) as c0. intros c0 Hi Hr. induction Hr as [|c0 c1 c2 Hs _ IH]; [done|].
    apply IH. destruct Hs as [c0 r Hk Hb]. by destruct (route_in_sync settings c0 t r Hi Hk). }
  pose proof (hydration_restores_fact float_repr sha256_hex hmac_sha256_hex import_attr exec_attr parse_source
    scan (persisted_of (artifact_signing_secret settings) c) t scan_perm Hok) as Hh.
  destruct (tenant_tools _ _ _ _ _ _ _ _ _ _) as [reg|e].
  - exists reg. split; [done|]. intros n. specialize (Hh n). rewrite Hn in Hh. by injection Hh.
  - destruct Hh as [n Hh]. by rewrite Hn in Hh.
Qed.
End sync.

(** ** Concrete catalogs

    Handlers are texts: the name of an imported function, or the executed source. *)
Module Concrete.
Import Sample.

Definition import_attr (module_path func_name : string) : attr_outcome string :=
  if module_path =?s "src.tools.user_tools" then Found func_name else ModuleNotFound module_path.
Definition exec_attr (source module_name entrypoint : string) : attr_outcome string := Found source.
Definition parse_source (source : string) : parse_outcome := ParsedFunctions ["run"].

Notation run := (run_route (H := io) (L := RateLimiter.TenantRateLimiter) (λ _, "") id String.append import_attr
  exec_attr parse_source (λ rows, rows)).
Notation new := (new_catalog (H := io) (Handler := string) (L := RateLimiter.TenantRateLimiter) (Some "/art") [] None).
Notation restart := (tenant_tools (H := io) (λ _, "") id String.append import_attr exec_attr parse_source
  (λ rows, rows)).

Definition settings : tool_settings := mkToolSettings (mkLimitsSettings 1000000 []) "secret" false.

Definition register (name : string) : route :=
  Register (mkRegisterRequest name (default_handler_ref name) "" [] Low false 1000).

Definition package (name version : string) (activate : bool) : route :=
  UploadPackage
    (mkUploadRequest (mkManifest name version "" [] 1000 "low" "handler.py" "run" [] []) "ref" None
       ("def run" +:+ version) 0 activate) 0 "t0".

Definition after (rs : list route) : catalog (H := io) (Handler := string) (L := RateLimiter.TenantRateLimiter) :=
  foldl (λ c r, (run settings c "acme" r).2) new rs.

Definition names (c : catalog (H := io) (Handler := string) (L := RateLimiter.TenantRateLimiter)) : list string :=
  ToolRegistry.list_tools (tool_registry c).

Definition names_after_restart (secret : string) (t : string)
    (c : catalog (H := io) (Handler := string) (L := RateLimiter.TenantRateLimiter)) : res (list string) :=
  let! r := restart (persisted_of secret c) t [] in Ok (ToolRegistry.list_tools r).

Lemma after_reaches rs r :
  keeps (H := io) (λ _, "") import_attr (λ rows, rows) (after rs) "acme" r →
  ¬ broke_off (run settings (after rs) "acme" r).1 →
  route_step (H := io) (λ _, "") id String.append import_attr exec_attr parse_source (λ rows, rows)
    settings "acme" (after rs) (after (rs ++ [r])).
Proof.
  intros Hk Hb. unfold after at 2. rewrite foldl_app. cbn [foldl].
  exact (route_runs _ _ _ _ _ _ _ settings "acme" (after rs) r Hk Hb).
Qed.

(** Each condition of [keeps] is needed. *)

(** Unregistering a tool that an active version provides: it is back after a restart. *)
Lemma unregistered_version_returns :
  let c := after [package "sum" "1" true; Unregister "sum"] in
  names c = [] ∧ names_after_restart "secret" "acme" c = Ok ["sum"].
Proof. by vm_compute. Qed.

(** Uploading the active version again without activating it: the tool works until a restart. *)
Lemma uploaded_again_is_lost :
  let c := after [package "sum" "1" true; package "sum" "1" false] in
  names c = ["sum"] ∧ names_after_restart "secret" "acme" c = Ok [].
Proof. by vm_compute. Qed.

(** Revoking a version that was never active removes a registered tool of the same name until a
    restart brings it back. *)
Lemma revoke_removes_registered_tool :
  let c := after [register "sum"; package "sum" "1" false; Revoke "sum" "1" false] in
  names c = [] ∧ names_after_restart "secret" "acme" c = Ok ["sum"].
Proof. by vm_compute. Qed.

(** Two tenants whose names differ in a character that paths do not keep share the files of their
    bundles: the upload of one costs the other its tool at the next restart. *)
Lemma tenants_share_artifacts :
  let c := (run settings new "a/b" (package "sum" "1" true)).2 in
  let upload := UploadPackage (mkUploadRequest (mkManifest "sum" "1" "" [] 1000 "low" "handler.py" "run" [] [])
                  "ref" None "other source" 0 true) 0 "t0" in
  let c' := (run settings (with_registry c []) "a_b" upload).2 in
  names_after_restart "secret" "a/b" c = Ok ["sum"] ∧ names_after_restart "secret" "a/b" c' = Ok [].
Proof. by vm_compute. Qed.

(** A signing secret with blanks around it signs bundles that it does not verify. *)
Lemma blank_around_secret_breaks_bundles :
  let settings := mkToolSettings (mkLimitsSettings 1000000 []) "secret " false in
  (run settings new "acme" (package "sum" "1" true)).1 =
    HTTPException 422 "artifact integrity verification failed: invalid bundle signature".
Proof. by vm_compute. Qed.
End Concrete.

Lemma restart_restores_tools_witness :
  let c := Concrete.after [Concrete.register "echo"; Concrete.package "sum" "1" true; Rollback "sum" "1"] in
  Concrete.names c = ["echo"; "sum"] ∧
  ∃ registry,
    tenant_tools (H := Sample.io) (λ _, "") id String.append Concrete.import_attr Concrete.exec_attr
      Concrete.parse_source (λ rows, rows) (persisted_of "secret" c) "acme" [] = Ok registry ∧
    ∀ n, od_get n registry = od_get n (tool_registry c).
Proof.
  intros c. split; [by vm_compute|].
  refine (restart_restores_tools (H := Sample.io) (L := RateLimiter.TenantRateLimiter) (λ _, "") id
    String.append Concrete.import_attr Concrete.exec_attr Concrete.parse_source (λ rows, rows)
    (λ l, reflexivity l) Concrete.settings (Some "/art") [] None "acme" c _).
  eapply rtc_l; [apply (Concrete.after_reaches [] (Concrete.register "echo"))|].
  { by eexists. }
  { intros [m Hm]. vm_compute in Hm. discriminate Hm. }
  eapply rtc_l; [apply (Concrete.after_reaches [Concrete.register "echo"] (Concrete.package "sum" "1" true))|].
  { split; [by left|done]. }
  { intros [m Hm]. vm_compute in Hm. discriminate Hm. }
  eapply rtc_l; [apply (Concrete.after_reaches [Concrete.register "echo"; Concrete.package "sum" "1" true]
    (Rollback "sum" "1"))|].
  { exact I. }
  { intros [m Hm]. vm_compute in Hm. discriminate Hm. }
  apply rtc_refl.
Defined.

(** ** Further consequences *)

(** A bundle file that is missing at startup is not a ValueError: one lost file of one tenant stops
    the startup, where a missing module would have been skipped. *)
Lemma missing_bundle_file_stops_startup :
  let c := with_files (Concrete.after [Concrete.package "sum" "1" true]) [] in
  match Concrete.names_after_restart "secret" "acme" c with
  | Raise (OtherException _) => True
  | _ => False
  end.
Proof. by vm_compute. Qed.

(** A refused upload has already written its files: without a signing secret the answer is 503, and
    the handler is on disk. *)
Lemma refused_upload_is_on_disk :
  let settings := mkToolSettings (mkLimitsSettings 1000000 []) "" false in
  let '(h, c) := run_route (H := Sample.io) (L := RateLimiter.TenantRateLimiter) (λ _, "") id String.append
    Concrete.import_attr Concrete.exec_attr Concrete.parse_source (λ rows, rows) settings
    (new_catalog (Some "/art") [] None) "acme" (Concrete.package "sum" "1" true) in
  h = HTTPException 503 "tool artifact signing secret is required" ∧
  od_get "/art/acme/sum/1/handler.py" (artifact_files c) = Some "def run1".
Proof. by vm_compute. Qed.

Lemma activated_upload_checked_witness :
  let b := mkUploadRequest (mkManifest "sum" "1" "" [] 1000 "low" "handler.py" "run" ["numpy"] []) "ref" None
             "def run" 64 true in
  let upload := upload_tool_package (H := Sample.io) (L := RateLimiter.TenantRateLimiter) (λ _, "") id
    String.append Concrete.import_attr Concrete.exec_attr Concrete.parse_source (λ rows, rows)
    Concrete.settings (new_catalog (Some "/art") [] None) "acme" b 0 "t0" in
  ∃ resp, upload.1.1 = Reply resp ∧ ta_active resp = true ∧
    package_ok (up_manifest b) (up_package_ref b) 64 (upload_limits Concrete.settings).
Proof.
  intros b upload. destruct upload as [[h c'] audits] eqn:E.
  destruct h as [resp|]; [|vm_compute in E; discriminate E].
  assert (ta_active resp = true) as Ha.
  { assert (match upload with (Reply r, _, _) => ta_active r | _ => false end = true) as Hx by by vm_compute.
    by rewrite E in Hx. }
  exists resp. split; [done|]. split; [exact Ha|].
  destruct (activated_upload_checked (H := Sample.io) (L := RateLimiter.TenantRateLimiter) (λ _, "") id
    String.append Concrete.import_attr Concrete.exec_attr Concrete.parse_source (λ rows, rows)
    (λ l, reflexivity l) Concrete.settings (new_catalog (Some "/art") [] None) "acme" b 0 "t0" resp c' audits
    no_versions [] eq_refl stores_nothing E Ha) as (_ & Hp & _).
  exact Hp.
Defined.
